(* ===== verification/_CoqProject ===== *)
-Q . S2P
Prelude.v
Retry.v
Breaker.v
GoHeap.v
GoSlice.v
Keys.v
Strconv.v
Backend.v
Locks.v
LockedRun.v
Sanitizer.v
Memory.v
Buffer.v
Rotation.v
Labels.v
Parse.v
Role.v
Traits.v
RoleSet.v
RoleRules.v
AccessRequest.v
Reviews.v
RequestValidator.v
RequestChecks.v
DynamicAccess.v
Identity.v
Users.v
UserLock.v
Impersonate.v
Events.v
Fanout.v
FanoutSpec.v
FanoutSet.v
LockWatch.v
LockStore.v
AccessInfo.v
SSHCert.v
SystemRoles.v
BuiltinRoles.v
Authorizer.v
ServerActions.v
SSHLogin.v
Multiplexer.v
NetAddr.v
ConnLimiter.v
UserCerts.v
Generation.v
CertRequests.v
HostCerts.v
Provision.v
JoinMethods.v
Join.v
JoinSpec.v
Reconciler.v
FnCache.v
Semaphores.v
SemaphoreLock.v
Queue.v
CircularBuffer.v
SessionAccess.v
RotationWitnesses.v
RbacWitnesses.v
Witnesses.v
RequestWitnesses.v
ServiceWitnesses.v
EventWitnesses.v
IdentityWitnesses.v
LoginWitnesses.v
LockWitnesses.v
AuthWitnesses.v
CertWitnesses.v
JoinWitnesses.v
