(* ===== verification/Prelude.v ===== *)
(** * Teleport core verification library

    Models and proofs of the parts of Teleport that decide: who gets access to
    what, how state is stored and replicated, who holds a lock, when a client
    backs off. The program is Go; each definition translates the function of the
    same name, and stateful methods are state-passing functions of their
    receiver.

    ** Parts

    - [Prelude]: errors and results, state with panics ([goM]), machine integers
      with their wrap-around, time, list lemmas, hint databases and tactics.
    - [Retry] (api/utils/retryutils): jitters over a source of randomness; the
      linear retry with automatic reset and its loop.
    - [Breaker] (api/breaker): the circuit breaker, its state machine,
      generations and metrics, calls with panics, callbacks.
    - [GoHeap] (Go's container/heap): the interface as the class [HeapInterface] with
      its laws [HeapLaws]; up, down, Push, Pop and Remove over it.
    - [Keys] (lib/backend/backend.go, sanitize.go): byte order, key constructors,
      ends of ranges, pagination, times to live, the key whitelist.
    - [Backend] (lib/backend/backend.go): the interface as the class [BackendOps],
      its contract as the class [BackendLaws] over an abstract map of stored
      items, and the iteration of ranges proved against the contract alone.
    - [Locks] (lib/backend/helpers.go) and [Sanitizer] (lib/backend/sanitize.go):
      clients of the contract; the sanitizer is a backend around a backend.
    - [Memory] (lib/backend/memory): the in-memory backend over a store of
      pointers, a B-tree given by a class, and the expiry heap; it is an instance
      of [BackendLaws], so what is proved of locks holds of it.
    - [Buffer] (lib/backend/buffer.go): the fan-out buffer, watchers with channel,
      backlog and grace period, over a radix tree given by a class.
    - [Labels] (lib/services/role.go, lib/utils/replace.go): selectors, over any
      order of map iteration and a regexp library given by a class.
    - [Role] (api/types/role.go): roles, getters, setters, validation, defaults.
    - [RoleSet] (lib/services/role.go, access_checker.go): sets of roles, their
      limits and options, MFA, access to resources, principals, host users.
    - [RoleRules] (lib/services/role.go, parser.go, lib/utils/fields.go): rules,
      access to a rule, conditions of list queries and the filters made of them.
    - [Rotation] (lib/auth/rotate.go, api/types/authority.go, trust.go): certificate
      authorities, their key sets and schedules, the phases of a rotation, the
      rotation of several authorities, on a schedule and of external ones.
    - [Parse] (lib/utils/parse): expressions in double braces and matchers, over
      Go's expression parser given by a class; a matcher may panic.
    - [Traits] (lib/services/role.go, traits.go): roles with the traits of a user
      applied, and the roles and matchers that traits map to.
    - [GoSlice] (Go's slices): windows of shared arrays and [append].
    - [AccessRequest] (api/types/access_request.go, lib/services/access_request.go):
      requests, updates, reviews, thresholds, who may review. [Reviews]: what a
      sequence of reviews amounts to.
    - [RequestValidator] (lib/services/access_request.go): what a user may request,
      thresholds of a request, roles for resources. [RequestChecks]: its theorems.
    - [DynamicAccess] (lib/services/local/dynamic_access.go): requests and plugin
      data in a backend, through loops of compare-and-swap.
    - [LockedRun] (lib/backend/helpers.go): functions that run while a lock is
      held and refreshed.
    - [Semaphores] (api/types/semaphore.go, lib/services/local/presence.go): leases
      over compare-and-swap. [SemaphoreLock] (lib/services/semaphore.go): the lock
      that renews a lease, and acquisition with retries.
    - [SessionAccess] (lib/auth/session_access.go, lib/srv/sess.go): who may join a
      session, and whether it may go on.
    - [Multiplexer] (lib/multiplexer): headers of the PROXY protocol, detection of
      protocols, connections with the addresses of a header.
    - [Queue] (lib/utils/concurrentqueue), [CircularBuffer] (lib/utils): the queue
      as steps of its goroutines; the buffer with the windows it hands out.
    - [Events] (api/types/events.go): watches and the filters they carry. [Fanout]
      and [FanoutSet] (lib/services/fanout.go): the fan-out of events to watchers,
      beside receivers and cancellations. [FanoutSpec]: its invariant and contract.
    - [FnCache] (lib/utils/fncache.go): results of functions kept for a time, as
      steps of callers and loaders.
    - [Reconciler] (lib/services/reconciler.go), [ConnLimiter] (lib/limiter): the
      reconciliation of dynamic resources; the count of connections.
    - [Strconv]: decimal numbers of Go's strconv.
    - [Identity] (lib/tlsca/ca.go, api/types/resource_ids.go): identities, how they are
      written into the name of a certificate and read back.
    - [Users] (lib/services/local/users.go, api/types/user.go): users and their
      attempts to log in and to recover, in a backend. [UserLock] (lib/auth/auth.go,
      accountrecovery.go): the locks that failed attempts put.
    - [LockWatch] (lib/services/watcher.go, lock.go, api/types/lock.go): locks, and the
      watcher that follows them with its subscribers and its staleness.
    - [AccessInfo] (lib/services/access_checker.go, trustedcluster.go): the mapping of
      remote roles, and the checker that an identity's roles and traits make.
    - [SystemRoles] (api/types/system_role.go), [BuiltinRoles] (lib/auth/permissions.go):
      the roles of services and what they allow.
    - [Authorizer] (lib/auth/permissions.go): callers and their contexts, the locks
      and the key policies that apply to them.
    - [Impersonate] (lib/services/impersonate.go, role.go): whom a caller may
      impersonate. [LockStore] (lib/services/local/access.go): locks in a backend.
    - [SSHCert] (lib/auth/native, lib/sshutils): what the SSH certificate of a user
      says. [SSHLogin] (lib/srv/authhandlers.go): logins with it at a node.
    - [NetAddr] (lib/utils/addr.go): addresses, their parsing, the hosts they name.
    - [UserCerts] (lib/auth/auth.go, lib/tlsca/ca.go, keystore/raw.go): both certificates
      that a user is issued for a request. [Generation] (lib/auth/auth_with_roles.go):
      the counter of renewable certificates, and the lock on a bot whose were stolen.
    - [ServerActions] and [CertRequests] (lib/auth/auth_with_roles.go, bot.go): the
      checks that calls are built of, and the calls that give certificates to users.
    - [HostCerts] (lib/auth/native, lib/auth/auth.go): both certificates of a host.
    - [Provision] (api/types/provisioning.go, statictokens.go, usertoken.go and their
      storage in lib/services/local): the tokens to join with, in a backend.
    - [JoinMethods] (lib/auth/join_ec2.go, join_github.go, join_iam.go): what a token of
      each method wants to be shown. [Join] (lib/auth/join.go, auth.go): tokens as the
      auth server makes, validates, lists and deletes them, and what it issues to
      those who join. [JoinSpec]: its theorems.
    - [RotationWitnesses], [RbacWitnesses], [Witnesses], [RequestWitnesses],
      [ServiceWitnesses], [EventWitnesses], [IdentityWitnesses], [LoginWitnesses],
      [LockWitnesses], [AuthWitnesses], [CertWitnesses], [JoinWitnesses]: the theorems applied to concrete states, with
      concrete instances of the classes.

    ** How they interact

    Auth services keep resources in a backend behind a sanitizer. A backend
    emits an event for every change to its buffer, which feeds watchers; caches
    and locks live on that. Requests are checked against the role set of the
    caller, which matches labels and rules. Clients retry and break circuits.
    A user asks for roles with an access request: it is validated against the
    roles the user has, stored in the backend, reviewed by others and, once
    approved, adds roles. Certificate authorities are rotated by requests and by
    a loop that reads the schedule, with a compare-and-swap for each step.
    Semaphores limit sessions through leases in the backend. Caches hand the
    events of the backend on to watchers through a fan-out, and agents reconcile
    what they serve with what they read. A listener detects the protocol of a
    connection and takes the addresses of its client from the header of a proxy.
    A call comes with the identity of its certificate: the authorizer makes a
    checker of its roles, those of a remote user being mapped first, and refuses
    it when the watcher of locks, which follows the events of the store, knows a
    lock in force on it. Failed logins put locks on users.

    Callers ask the auth server for certificates, for themselves or for whom they
    may impersonate: [CertRequests] decides what is asked of the server,
    [UserCerts] issues it with the authorities of [Rotation], and a node lets the
    holder in by [SSHLogin], which reads the same fields back. Bots renew theirs
    under the counter of [Generation], whose lock [LockStore] puts. A host joins with
    a token of [Provision]: [Join] finds it, checks its method by [JoinMethods] and
    issues certificates by [HostCerts], or those of a bot by [CertRequests]. What a
    server reads of the cluster goes to its store: a cache is the store as it is,
    except for the authorities of a host, of which both are arguments. What others
    do meanwhile is a function of the points at which they can.

    ** What the theorems show

    Backend: the in-memory backend refines the contract on every branch, and its
    events replay its changes; iteration is complete when no key extends another
    and skips items otherwise; a lock excludes others until it expires, whatever
    the other clients call, and is acquired once the obstacle is gone; the
    sanitizer keeps unsafe keys out. Buffer: every watcher gets the events that
    match, once and in order, or is dropped, and only when overdue. Breaker: the
    counters account for the runs of the generation, states change along their
    edges only. Access: the exact conditions of access to resources and rules,
    with deny before allow and the MFA policy; limits and key policies are the
    strictest; validation of roles is exact and idempotent; list filters mean
    what the clauses mean. Requests: what validation attaches to a request is what
    the roles of the user ask for, an approved request has the approvals each
    threshold group needs, reviews are counted once per author, a denial is final
    under concurrent writers, traits never turn into patterns. Rotation: the
    edges and histories of phases, trust is never broken unless forced, errors
    leave a prefix of the authorities rotated. Services: a semaphore never has more
    live leases than its limit; a function runs alone while locked; a session goes
    on exactly when its policies are met; the queue keeps the order of its items
    and delivers them; a header is read back as it was written; a fan-out tells a
    watcher everything it selects, in order, and drops none without a reason; the
    cache shares loads and serves nothing stale; reconciliation converges; counts
    of connections stay in their limit. Callers: an identity survives its
    certificate; a lock in force keeps out every caller it targets, by the
    identity before and after its mapping; remote users get the roles that are
    mapped and no more; keys are of the kind that is required; services stay in
    their roles; failed logins are bounded. Certificates: a caller is given what it
    has, may take or may impersonate, no longer than its session; a node lets in
    what a certificate says; a generation is used once, and the second use locks the
    bot. Joining: whoever gets certificates had a token that was in force, allows
    the role and was shown the proof of its method; the certificates are of that
    role and its names; a bot gets renewable ones once; a token is valid up to its
    time and not after it. Some theorems state what the code gets wrong: a
    release can remove another holder's lock, an expired item can survive, a deny
    rule on all resources is bypassed by filtered lists, matchers of one role
    overwrite those of another.

    ** Bounds

    Fuel bounds the loops that are not structural: the removal of expired items
    has one step per element of the heap and one to stop, and is proved never to
    run out; sifting in the heap is bounded by its size; retry and lock loops run
    for a number of rounds the caller chooses, and liveness theorems give a
    number that is enough. The loops of compare-and-swap make seven attempts, as
    in the code, acquisitions of leases six, and detection of a protocol two passes;
    the depth of expressions is bounded by the code too, and a decimal number is
    written with fuel for 20 digits, which is enough for 64 bits. Integers
    wrap where the code relies on their width (the counters of the breaker and of
    reviews, indexes of thresholds); elsewhere they are unbounded.

    ** What is not modelled

    Goroutines that only forward, logging, metrics and tracing; the network,
    cryptography and the text of certificates, which are classes with the laws that
    signing and reading back obey; storage drivers; passwords, second factors,
    recovery codes, connectors and web sessions; protobuf, JSON and YAML codecs; the
    predicate language and regular expressions, which are parameters. What AWS and
    GitHub answer, and the check of a signature on an identity document, are
    classes; the certificates of AWS regions are not written out, only which
    regions have one. Rates of requests are a third-party library. The caches, the
    proxies, the web API, the audit log and the commands are goroutines, protocols and
    glue over these parts and are not modelled; nor are most calls of the auth server
    that check an action and delegate, nor the assembly of its services. *)

From stdpp Require Export base gmap strings list option numbers sorting.
From Stdlib Require Export ZArith Lia.

#[global] Set Default Goal Selector "!".
#[global] Set Warnings "-clear-no-such-hyp".

(** ** Errors

    [trace] builds every error of the program from a kind and a message.  The
    kind is what callers branch on ([trace.IsNotFound] and friends); the
    message kept here is the literal format string of the source, so that two
    errors of one kind stay distinct. *)
Inductive error_kind :=
  | BadParameter
  | NotFound
  | AlreadyExists
  | AccessDenied
  | CompareFailed
  | LimitExceeded
  | ConnectionProblem
  | NotImplemented
  | PlainError.

Record error := Error { err_kind : error_kind; err_msg : string }.

#[export] Instance error_kind_eq_dec : EqDecision error_kind.
Proof. solve_decision. Defined.

#[export] Instance error_eq_dec : EqDecision error.
Proof. solve_decision. Defined.

(** [trace.IsNotFound] and the like. *)
Definition has_kind (k : error_kind) (e : error) : bool := bool_decide (err_kind e = k).

(** The result of a Go function of type [(A, error)] whose first component is
    not used by callers when the error is set. *)
Inductive result (A : Type) :=
  | Ok (a : A)
  | Err (e : error).
Arguments Ok {A} a.
Arguments Err {A} e.

#[export] Instance result_ret : MRet result := fun A a => Ok a.
#[export] Instance result_bind : MBind result :=
  fun A B f m => match m with Ok a => f a | Err e => Err e end.
#[export] Instance result_fmap : FMap result :=
  fun A B f m => match m with Ok a => Ok (f a) | Err e => Err e end.

Lemma result_bind_Ok {A B} (m : result A) (f : A → result B) b :
  (m ≫= f) = Ok b ↔ ∃ a, m = Ok a ∧ f a = Ok b.
Proof. destruct m; cbn; naive_solver. Qed.

(** A check whose value is not used. *)
Lemma result_check_Ok {B} (m : result unit) (k : result B) b :
  (m ≫= fun _ => k) = Ok b ↔ m = Ok () ∧ k = Ok b.
Proof. destruct m as [[]|]; cbn; naive_solver. Qed.

Definition is_Ok {A} (r : result A) : bool :=
  match r with Ok _ => true | Err _ => false end.
Lemma is_Ok_spec {A} (r : result A) : is_Ok r = true ↔ ∃ a, r = Ok a.
Proof. destruct r; cbn; naive_solver. Qed.

(** ** Calls that may panic *)

(** [None] is the panic. *)
Definition outcome (A : Type) : Type := option (result A).
Definition done {A} (a : A) : outcome A := Some (Ok a).
Definition fails {A} (k : error_kind) (msg : string) : outcome A := Some (Err (Error k msg)).
Definition attempt {A B} (m : outcome A) (f : A → outcome B) : outcome B :=
  match m with None => None | Some (Err e) => Some (Err e) | Some (Ok a) => f a end.
Notation "x ⇐ m ; k" := (attempt m (fun x => k)) (at level 20, m at level 100, k at level 200, only parsing).
Notation "' x ⇐ m ; k" := (attempt m (fun x => k))
  (at level 20, x pattern, m at level 100, k at level 200, only parsing).

Lemma attempt_Ok {A B} (m : outcome A) (f : A → outcome B) b :
  attempt m f = Some (Ok b) ↔ ∃ a, m = Some (Ok a) ∧ f a = Some (Ok b).
Proof. destruct m as [[]|]; cbn; naive_solver. Qed.

(** ** State with panics

    A method on a Go receiver that may panic (nil dereference, explicit
    [panic]) is a function from the receiver's state to the value it returns
    and the state it leaves; [None] is a panic. *)
Definition goM (S A : Type) : Type := S → option (A * S).

#[export] Instance goM_ret {S} : MRet (goM S) := fun A a s => Some (a, s).
#[export] Instance goM_bind {S} : MBind (goM S) :=
  fun A B f m s => match m s with Some (a, s') => f a s' | None => None end.

Definition get_state {S} : goM S S := fun s => Some (s, s).
Definition put_state {S} (s : S) : goM S unit := fun _ => Some ((), s).
Definition modify_state {S} (f : S → S) : goM S unit := fun s => Some ((), f s).
Definition go_panic {S A} : goM S A := fun _ => None.

Lemma goM_bind_unfold {S A B} (m : goM S A) (f : A → goM S B) s :
  (m ≫= f) s = match m s with Some (a, s') => f a s' | None => None end.
Proof. reflexivity. Qed.

(** Runs the monad's operations in a goal, leaving the program's own
    definitions folded. *)
Ltac run_goM :=
  cbv beta iota zeta delta
    [mbind goM_bind mret goM_ret get_state put_state modify_state go_panic];
  cbn [fst snd].

(** ** Machine integers

    An unsigned w-bit integer is a [Z] kept below [2 ^ w]; a signed one is a
    [Z] in two's-complement range.  Wrap-around is written out. *)
Definition wrap_u (w : Z) (z : Z) : Z := (z `mod` 2 ^ w)%Z.
Definition wrap_i (w : Z) (z : Z) : Z :=
  ((z + 2 ^ (w - 1)) `mod` 2 ^ w - 2 ^ (w - 1))%Z.
Abbreviation u8 := (wrap_u 8).
Abbreviation u16 := (wrap_u 16).
Abbreviation u32 := (wrap_u 32).
Abbreviation u64 := (wrap_u 64).
Abbreviation i64 := (wrap_i 64).

Definition in_u (w : Z) (z : Z) : Prop := (0 ≤ z < 2 ^ w)%Z.
Definition in_i (w : Z) (z : Z) : Prop := (- 2 ^ (w - 1) ≤ z < 2 ^ (w - 1))%Z.

Lemma wrap_u_bound w z : (0 < w)%Z → in_u w (wrap_u w z).
Proof. intros ?. unfold in_u, wrap_u. apply Z.mod_pos_bound. lia. Qed.

Lemma wrap_u_small w z : in_u w z → wrap_u w z = z.
Proof. intros ?. unfold wrap_u. by apply Z.mod_small. Qed.

(** Wrapping an operand of a sum changes nothing once the sum is wrapped. *)
Lemma wrap_u_add_l w a b : wrap_u w (wrap_u w a + b) = wrap_u w (a + b).
Proof. apply Zplus_mod_idemp_l. Qed.

Lemma wrap_i_small w z : (0 < w)%Z → in_i w z → wrap_i w z = z.
Proof.
  unfold wrap_i, in_i. intros Hw Hz.
  assert (2 ^ w = 2 * 2 ^ (w - 1))%Z as Hp.
  { rewrite <- Z.pow_succ_r; [f_equal|]; lia. }
  rewrite Z.mod_small; lia.
Qed.

Lemma wrap_i_bound w z : (0 < w)%Z → in_i w (wrap_i w z).
Proof.
  unfold wrap_i, in_i. intros Hw.
  assert (2 ^ w = 2 * 2 ^ (w - 1))%Z as Hp.
  { rewrite <- Z.pow_succ_r; [f_equal|]; lia. }
  pose proof (Z.mod_pos_bound (z + 2 ^ (w - 1)) (2 ^ w)). lia.
Qed.

(** ** Time

    An instant ([time.Time]) is a number of nanoseconds since the Unix epoch;
    Go's zero [time.Time], which [IsZero] recognises, is 1 January of year 1.
    A [time.Duration] is a signed 64-bit number of nanoseconds. *)
Definition zero_time : Z := (-62135596800000000000)%Z.
Definition is_zero_time (t : Z) : bool := Z.eqb t zero_time.
Definition time_unix (t : Z) : Z := (t `div` 1000000000)%Z.

Definition Nanosecond : Z := 1%Z.
Definition Second : Z := 1000000000%Z.
Definition Minute : Z := (60 * 1000000000)%Z.
Definition Hour : Z := (3600 * 1000000000)%Z.

(** ** Lists *)

Lemma existsb_elem {A} (f : A → bool) l : existsb f l = true ↔ ∃ x, x ∈ l ∧ f x = true.
Proof. rewrite existsb_exists. by setoid_rewrite list_elem_of_In. Qed.
Lemma forallb_elem {A} (f : A → bool) l : forallb f l = true ↔ ∀ x, x ∈ l → f x = true.
Proof. rewrite forallb_forall. by setoid_rewrite list_elem_of_In. Qed.

Lemma exists_cons_iff {A} (x : A) l (P : A → Prop) :
  (∃ y, y ∈ x :: l ∧ P y) ↔ P x ∨ ∃ y, y ∈ l ∧ P y.
Proof. setoid_rewrite elem_of_cons. naive_solver. Qed.
Lemma forall_cons_iff {A} (x : A) l (P : A → Prop) :
  (∀ y, y ∈ x :: l → P y) ↔ P x ∧ ∀ y, y ∈ l → P y.
Proof. setoid_rewrite elem_of_cons. naive_solver. Qed.

(** ** Automation *)

(** Facts that close side conditions on machine integers and list members. *)
Create HintDb go.
#[export] Hint Resolve wrap_u_bound wrap_i_bound list_elem_of_here list_elem_of_further : go.
Create Rewrite HintDb go_bool.
#[export] Hint Rewrite @existsb_elem @forallb_elem String.eqb_eq String.eqb_neq orb_true_iff andb_true_iff
  negb_true_iff negb_false_iff bool_decide_eq_true bool_decide_eq_false : go_bool.

(** Boolean goals and hypotheses turned into propositions, with the [go_bool]
    rewriting database. *)
Ltac go_prop := autorewrite with go_bool in *.

(** Case analysis on the innermost test of a goal or hypothesis. *)
Ltac case_test :=
  match goal with
  | |- context [if ?b then _ else _] => destruct b eqn:?
  | H : context [if ?b then _ else _] |- _ => destruct b eqn:?
  end.

(** Boolean comparisons on [Z] and [nat] turned into propositions. *)
Ltac to_prop :=
  repeat match goal with
  | H : (_ && _) = true |- _ => apply andb_true_iff in H as [? ?]
  | H : (_ || _) = false |- _ => apply orb_false_iff in H as [? ?]
  | H : negb _ = true |- _ => apply negb_true_iff in H
  | H : negb _ = false |- _ => apply negb_false_iff in H
  | H : (_ =? _)%Z = true |- _ => apply Z.eqb_eq in H
  | H : (_ =? _)%Z = false |- _ => apply Z.eqb_neq in H
  | H : (_ <? _)%Z = true |- _ => apply Z.ltb_lt in H
  | H : (_ <? _)%Z = false |- _ => apply Z.ltb_ge in H
  | H : (_ <=? _)%Z = true |- _ => apply Z.leb_le in H
  | H : (_ <=? _)%Z = false |- _ => apply Z.leb_gt in H
  | H : (_ =? _)%nat = true |- _ => apply Nat.eqb_eq in H
  | H : (_ =? _)%nat = false |- _ => apply Nat.eqb_neq in H
  | H : (_ <? _)%nat = true |- _ => apply Nat.ltb_lt in H
  | H : (_ <? _)%nat = false |- _ => apply Nat.ltb_ge in H
  | H : (_ <=? _)%nat = true |- _ => apply Nat.leb_le in H
  | H : (_ <=? _)%nat = false |- _ => apply Nat.leb_gt in H
  | H : String.eqb _ _ = true |- _ => apply String.eqb_eq in H
  | H : String.eqb _ _ = false |- _ => apply String.eqb_neq in H
  | H : bool_decide _ = true |- _ => apply bool_decide_eq_true in H
  | H : bool_decide _ = false |- _ => apply bool_decide_eq_false in H
  end.
