(* ===== verification/Retry.v ===== *)
(** * Retry and jitter (api/utils/retryutils)

    [jitter.go]: the random jitter applied to back-off delays; [retry.go]: the
    arithmetic-progression back-off [Linear] and its retry loop [For].  The
    pseudo-random source is the [rng] interface of the code: one call of
    [Int63n] is one draw. *)

From S2P Require Import Prelude.
Local Open Scope Z_scope.

(** ** jitter.go *)

(** The [rng] interface: [Int63n n] is a number of [0,n) for positive [n]. *)
Class Rng := { Int63n : Z → Z }.
Class RngLaws `{Rng} : Prop := {
  Int63n_range : ∀ n, 0 < n → 0 ≤ Int63n n < n
}.

Definition Jitter : Type := Z → Z.

Section jitter.
Context `{Rng}.

Definition newJitter (n : Z) : result Jitter :=
  if n <? 1 then Err (Error BadParameter "newJitter expects n>=1, but got %v") else
  Ok (fun d =>
    if d <? 1 then 0 else
    i64 (i64 (i64 (d * (n - 1)) `quot` n) + Int63n d `quot` n)).

(** The exported constructors discard the error: a nil [Jitter] is [None]. *)
Definition jitter_of (n : Z) : option Jitter :=
  match newJitter n with Ok j => Some j | Err _ => None end.

Definition NewFullJitter : option Jitter := jitter_of 1.
Definition NewHalfJitter : option Jitter := jitter_of 2.
Definition NewSeventhJitter : option Jitter := jitter_of 7.
Definition NewJitter : option Jitter := NewHalfJitter.

Context `{!RngLaws}.

(** The range of a jitter, for durations whose product with [n-1] does not
    overflow (about 48 years for the seventh jitter). *)
Lemma newJitter_range n j d :
  newJitter n = Ok j → 1 ≤ d → d * n < 2 ^ 63 →
  d * (n - 1) / n ≤ j d < d.
Proof.
  unfold newJitter. destruct (n <? 1) eqn:Hn; [done|]. intros [= <-] Hd Hb.
  to_prop.
  destruct (d <? 1) eqn:Hd1; to_prop; [lia|].
  pose proof (Int63n_range d ltac:(lia)) as Hr.
  rewrite (wrap_i_small 64 (d * (n - 1))); [|lia|unfold in_i; nia].
  rewrite !Z.quot_div_nonneg by nia.
  assert (0 ≤ d * (n - 1) / n) by (apply Z.div_pos; nia).
  assert (0 ≤ Int63n d / n) by (apply Z.div_pos; lia).
  assert (d * (n - 1) / n + Int63n d / n < d) as Hlt.
  { pose proof (Z.mul_div_le (d * (n - 1)) n).
    pose proof (Z.mul_div_le (Int63n d) n). nia. }
  assert (d < 2 ^ 63) by nia.
  rewrite (wrap_i_small 64 (d * (n - 1) / n)); [|lia|unfold in_i; nia].
  rewrite wrap_i_small; [lia|lia|unfold in_i; lia].
Qed.

Lemma newJitter_nonpositive n j d : newJitter n = Ok j → d < 1 → j d = 0.
Proof.
  unfold newJitter. destruct (n <? 1); [done|]. intros [= <-] Hd.
  by rewrite (proj2 (Z.ltb_lt d 1) Hd).
Qed.
End jitter.

(** ** retry.go *)

(** Only the presence of the optional clock matters to the code. *)
Inductive Clock := RealClock | GivenClock.

Record LinearConfig := mkLinearConfig {
  lc_First : Z;
  lc_Step : Z;
  lc_Max : Z;
  lc_Jitter : option Jitter;
  lc_AutoReset : Z;
  lc_Clock : option Clock
}.

Definition LinearConfig_CheckAndSetDefaults (c : LinearConfig) : result LinearConfig :=
  if lc_Step c =? 0 then Err (Error BadParameter "missing parameter Step") else
  if lc_Max c =? 0 then Err (Error BadParameter "missing parameter Max") else
  Ok (mkLinearConfig (lc_First c) (lc_Step c) (lc_Max c) (lc_Jitter c)
        (lc_AutoReset c)
        (match lc_Clock c with None => Some RealClock | k => k end)).

Record Linear := mkLinear {
  r_cfg : LinearConfig;
  r_lastUse : Z;
  r_attempt : Z
}.

Definition newLinear (cfg : LinearConfig) : Linear := mkLinear cfg zero_time 0.

Definition NewLinear (cfg : LinearConfig) : result Linear :=
  newLinear <$> LinearConfig_CheckAndSetDefaults cfg.

Definition NewConstant (interval : Z) : result Linear :=
  NewLinear (mkLinearConfig 0 interval interval None 0 None).

Definition Linear_Reset (r : Linear) : Linear := mkLinear (r_cfg r) (r_lastUse r) 0.
Definition Linear_Inc (r : Linear) : Linear :=
  mkLinear (r_cfg r) (r_lastUse r) (i64 (r_attempt r + 1)).
Definition Linear_ResetToDelay (r : Linear) : Linear := Linear_Inc (Linear_Reset r).
Definition Linear_Clone (r : Linear) : Linear := newLinear (r_cfg r).

(** [Duration], at the clock reading [now]; a nil clock is only dereferenced
    when [AutoReset] is set.  It returns the delay and the updated receiver. *)
Definition Linear_Duration (now : Z) : goM Linear Z :=
  r ← get_state;
  _ ← (if 0 <? lc_AutoReset (r_cfg r) then
         match lc_Clock (r_cfg r) with
         | None => go_panic
         | Some _ =>
             let limit := r_lastUse r + i64 (lc_Max (r_cfg r) * lc_AutoReset (r_cfg r)) in
             let r := if limit <? now then Linear_Reset r else r in
             put_state (mkLinear (r_cfg r) now (r_attempt r))
         end
       else mret ());
  r ← get_state;
  let a := i64 (lc_First (r_cfg r) + i64 (r_attempt r * lc_Step (r_cfg r))) in
  if a <? 1 then mret 0 else
  let a := if lc_Max (r_cfg r) <? a then lc_Max (r_cfg r) else a in
  match lc_Jitter (r_cfg r) with
  | Some j => mret (j a)
  | None => mret a
  end.

(** The channel [After] returns: the closed one, or a timer of the clock. *)
Inductive after_chan := ClosedChan | TimerChan (d : Z).

Definition Linear_After (now : Z) : goM Linear after_chan :=
  d ← Linear_Duration now;
  if d <? 1 then mret ClosedChan else
  r ← get_state;
  match lc_Clock (r_cfg r) with
  | None => go_panic
  | Some _ => mret (TimerChan d)
  end.

(** What one round of [For] meets: the outcome of the retried function, the
    clock readings of the two calls of [Duration] (the debug line evaluates
    one), and whether the context ends before the delay does. *)
Inductive retry_outcome :=
  | RetrySuccess
  | RetryPermanent (e : error)
  | RetryTransient (e : error).

Record retry_round := mkRound {
  rr_outcome : retry_outcome;
  rr_now_log : Z;
  rr_now_after : Z;
  rr_ctx_done : option error
}.

(** [For] over the rounds of an environment; [None] in the result is an
    environment that ends before the loop does. *)
Fixpoint Linear_For (env : list retry_round) : goM Linear (option (option error)) :=
  match env with
  | [] => mret None
  | rr :: env' =>
      match rr_outcome rr with
      | RetrySuccess => mret (Some None)
      | RetryPermanent e => mret (Some (Some e))
      | RetryTransient _ =>
          _ ← Linear_Duration (rr_now_log rr);
          _ ← Linear_After (rr_now_after rr);
          match rr_ctx_done rr with
          | Some e => mret (Some (Some (Error LimitExceeded (err_msg e))))
          | None =>
              r ← get_state;
              _ ← put_state (Linear_Inc r);
              Linear_For env'
          end
      end
  end.

(** *** Delay bounds *)

(** The undisturbed delay of attempt [k]: the capped progression. *)
Definition linear_delay (c : LinearConfig) (k : Z) : Z :=
  Z.min (lc_Max c) (lc_First c + k * lc_Step c).

(** Configurations the code meets: nothing overflows at attempt [k]. *)
Definition linear_fits (c : LinearConfig) (k : Z) : Prop :=
  0 ≤ lc_First c ∧ 0 < lc_Step c ∧ 0 < lc_Max c ∧ 0 ≤ k ∧
  lc_First c + k * lc_Step c < 2 ^ 63.

Lemma Linear_Duration_plain now r :
  lc_AutoReset (r_cfg r) ≤ 0 → lc_Jitter (r_cfg r) = None →
  linear_fits (r_cfg r) (r_attempt r) →
  Linear_Duration now r = Some (linear_delay (r_cfg r) (r_attempt r), r).
Proof.
  intros Har Hj (H1 & H2 & H3 & H4 & H5).
  unfold Linear_Duration, mbind, goM_bind, get_state, put_state, mret, goM_ret; simpl.
  rewrite (proj2 (Z.ltb_ge 0 (lc_AutoReset (r_cfg r))) Har), Hj.
  rewrite (wrap_i_small 64 (r_attempt r * _)); [|lia|unfold in_i; nia].
  rewrite wrap_i_small; [|lia|unfold in_i; nia].
  unfold linear_delay.
  repeat case_test; to_prop; f_equal; f_equal; nia.
Qed.

(** The attempt [Duration] computes a delay for: zero again once the last use
    is longer ago than [AutoReset] maximal delays. *)
Definition due_attempt (now : Z) (r : Linear) : Z :=
  if r_lastUse r + lc_Max (r_cfg r) * lc_AutoReset (r_cfg r) <? now then 0 else r_attempt r.

Lemma Linear_Duration_keeps now r :
  lc_Clock (r_cfg r) ≠ None →
  ∃ d r', Linear_Duration now r = Some (d, r') ∧ r_cfg r' = r_cfg r ∧
    (lc_AutoReset (r_cfg r) ≤ 0 → r' = r).
Proof.
  intros Hc. unfold Linear_Duration. run_goM. destruct (lc_Clock (r_cfg r)) eqn:Hk; [|done].
  destruct (0 <? lc_AutoReset (r_cfg r)) eqn:Ha; to_prop.
  - cbv zeta. set (r1 := if _ <? now then _ else r).
    assert (r_cfg r1 = r_cfg r) as Hr1 by (unfold r1; by case_test).
    cbn [r_cfg r_attempt]. repeat case_match; eexists _, _; (split; [reflexivity|]);
      (split; [done|lia]).
  - repeat case_match; eexists _, _; (split; [reflexivity|done]).
Qed.

Lemma Linear_After_keeps now r :
  lc_Clock (r_cfg r) ≠ None →
  ∃ ch r', Linear_After now r = Some (ch, r') ∧ r_cfg r' = r_cfg r ∧
    (lc_AutoReset (r_cfg r) ≤ 0 → r' = r).
Proof.
  intros Hc. destruct (Linear_Duration_keeps now r Hc) as (d & r' & Hr & Hcfg & Hk).
  unfold Linear_After. rewrite goM_bind_unfold, Hr. case_test; [by eexists _, r'|].
  run_goM. rewrite Hcfg. destruct (lc_Clock (r_cfg r)); [|done]. by eexists _, r'.
Qed.

(** How a retry loop ends: at the first round that is not a transient failure
    with time left. *)
Fixpoint first_end (env : list retry_round) : option (option error) :=
  match env with
  | [] => None
  | rr :: env =>
      match rr_outcome rr, rr_ctx_done rr with
      | RetrySuccess, _ => Some None
      | RetryPermanent e, _ => Some (Some e)
      | RetryTransient _, Some e => Some (Some (Error LimitExceeded (err_msg e)))
      | RetryTransient _, None => first_end env
      end
  end.

Fixpoint rounds_waited (env : list retry_round) : nat :=
  match env with
  | [] => 0
  | rr :: env =>
      match rr_outcome rr, rr_ctx_done rr with
      | RetryTransient _, None => S (rounds_waited env)
      | _, _ => 0
      end
  end.

(** ** Properties *)

(** the jitters keep a duration in the range their names say: the full one
    in [0, d), the half one in [d/2, d), the seventh one in [6d/7, d), for any
    source of randomness and every duration short of overflow. *)
Theorem jitter_bounds `{RngLaws} n j d :
  jitter_of n = Some j → 1 ≤ d → d * n < 2 ^ 63 →
  (n = 1 → NewFullJitter = Some j ∧ 0 ≤ j d < d) ∧
  (n = 2 → NewHalfJitter = Some j ∧ d / 2 ≤ j d < d) ∧
  (n = 7 → NewSeventhJitter = Some j ∧ d * 6 / 7 ≤ j d < d).
Proof.
  unfold jitter_of. destruct (newJitter n) as [j'|] eqn:Hj; [|done]. intros [= ->] Hd Hb.
  pose proof (newJitter_range n j d Hj Hd Hb) as Hr.
  unfold NewFullJitter, NewHalfJitter, NewSeventhJitter, jitter_of.
  split_and!; intros ->; rewrite Hj; (split; [done|]).
  - by replace (d * (1 - 1) / 1) with 0 in Hr by (rewrite Z.div_1_r; lia).
  - by replace (d * (2 - 1)) with d in Hr by lia.
  - by replace (d * (7 - 1)) with (d * 6) in Hr by lia.
Qed.

(** the delay of an automatically reset retry. [Duration] is the capped
    linear delay of the current attempt, or that of attempt zero once the
    retry has been idle for longer than [AutoReset] maximal delays; it never
    exceeds [Max] and is remembered as the last use. *)
Theorem Linear_Duration_autoreset now r :
  0 < lc_AutoReset (r_cfg r) → lc_Jitter (r_cfg r) = None → lc_Clock (r_cfg r) ≠ None →
  linear_fits (r_cfg r) (r_attempt r) →
  lc_Max (r_cfg r) * lc_AutoReset (r_cfg r) < 2 ^ 63 →
  Linear_Duration now r =
    Some (linear_delay (r_cfg r) (due_attempt now r),
          mkLinear (r_cfg r) now (due_attempt now r)) ∧
  linear_delay (r_cfg r) (due_attempt now r) ≤ lc_Max (r_cfg r) ∧
  linear_delay (r_cfg r) (due_attempt now r) ≤ linear_delay (r_cfg r) (r_attempt r).
Proof.
  intros Har Hj Hc (H1 & H2 & H3 & H4 & H5) Hov.
  assert (0 ≤ due_attempt now r ≤ r_attempt r) as Hda by (unfold due_attempt; case_test; lia).
  split; [|unfold linear_delay; split; nia].
  unfold Linear_Duration. run_goM. destruct (lc_Clock (r_cfg r)) eqn:Hk; [|done].
  rewrite (proj2 (Z.ltb_lt 0 (lc_AutoReset (r_cfg r))) Har). cbv zeta.
  rewrite (wrap_i_small 64 (lc_Max (r_cfg r) * _)); [|lia|unfold in_i; nia].
  assert ((if r_lastUse r + lc_Max (r_cfg r) * lc_AutoReset (r_cfg r) <? now
           then Linear_Reset r else r) = mkLinear (r_cfg r) (r_lastUse r) (due_attempt now r)) as ->.
  { unfold due_attempt, Linear_Reset. case_test; by destruct r. }
  cbn [r_cfg r_attempt]. rewrite Hj.
  rewrite (wrap_i_small 64 (due_attempt now r * _)); [|lia|unfold in_i; nia].
  rewrite wrap_i_small; [|lia|unfold in_i; nia].
  unfold linear_delay. repeat case_test; to_prop; do 2 f_equal; nia.
Qed.

(** the retry loop. With a configuration that passed
    [CheckAndSetDefaults], [For] never panics; it ends at the first success,
    permanent error or end of the context, with nil, that error or
    LimitExceeded; without automatic reset, every wait counts one attempt. *)
Theorem Linear_For_outcome cfg r env :
  LinearConfig_CheckAndSetDefaults cfg = Ok (r_cfg r) →
  ∃ r', Linear_For env r = Some (first_end env, r') ∧
    (lc_AutoReset cfg ≤ 0 → in_i 64 (r_attempt r) → in_i 64 (r_attempt r + Z.of_nat (length env)) →
     r_attempt r' = r_attempt r + Z.of_nat (rounds_waited env)).
Proof.
  intros Hcfg. assert (lc_Clock (r_cfg r) ≠ None ∧ lc_AutoReset (r_cfg r) = lc_AutoReset cfg) as [Hc Har].
  { unfold LinearConfig_CheckAndSetDefaults in Hcfg. repeat (case_test; [done|]).
    injection Hcfg as <-. cbn. by destruct (lc_Clock cfg). }
  clear Hcfg. revert r Hc Har. induction env as [|rr env IH]; intros r Hc Har.
  { exists r. split; [done|]. cbn. lia. }
  cbn [Linear_For first_end rounds_waited length].
  destruct (rr_outcome rr); [exists r; split; [done|cbn; lia]..|].
  destruct (Linear_Duration_keeps (rr_now_log rr) r Hc) as (d & r1 & Hd & Hc1 & Hk1).
  rewrite goM_bind_unfold, Hd. rewrite <- Hc1 in Hc.
  destruct (Linear_After_keeps (rr_now_after rr) r1 Hc) as (ch & r2 & Ha & Hc2 & Hk2).
  rewrite goM_bind_unfold, Ha. rewrite <- Hc2 in Hc.
  assert (lc_AutoReset cfg ≤ 0 → r2 = r) as Hsame.
  { intros H0. rewrite Hk2 by (rewrite Hc1; lia). apply Hk1. lia. }
  destruct (rr_ctx_done rr) as [ce|].
  { exists r2. split; [done|]. intros H0 _ _. rewrite Hsame by done. cbn. lia. }
  run_goM. destruct (IH (Linear_Inc r2)) as (r' & Hr & Hatt); [done|cbn; congruence|].
  exists r'. split; [done|]. intros H0 Hin1 Hin2. unfold in_i in *.
  rewrite (Hsame H0) in Hatt. unfold Linear_Inc in Hatt. cbn [r_attempt] in Hatt.
  assert (i64 (r_attempt r + 1) = r_attempt r + 1) as Hi
    by (apply wrap_i_small; [lia|unfold in_i; lia]).
  rewrite Hi in Hatt. rewrite Hatt; lia.
Qed.

(** *** Witnesses *)

#[local] Instance demo_rng : Rng := { Int63n := fun n => n - 1 }.
#[local] Instance demo_rng_laws : RngLaws.
Proof. split. cbn. lia. Qed.

Definition demo_half (d : Z) : Z :=
  if d <? 1 then 0 else i64 (i64 (i64 (d * (2 - 1)) `quot` 2) + Int63n d `quot` 2).

Lemma jitter_bounds_witness :
  (2 = 1 → NewFullJitter = Some demo_half ∧ 0 ≤ demo_half 10 < 10) ∧
  (2 = 2 → NewHalfJitter = Some demo_half ∧ 10 / 2 ≤ demo_half 10 < 10) ∧
  (2 = 7 → NewSeventhJitter = Some demo_half ∧ 10 * 6 / 7 ≤ demo_half 10 < 10).
Proof. apply (jitter_bounds 2 demo_half 10); [reflexivity|lia|lia]. Defined.

Definition demo_linear : Linear := mkLinear (mkLinearConfig 1 2 10 None 3 (Some RealClock)) 100 4.

Lemma Linear_Duration_autoreset_witness :
  Linear_Duration 200 demo_linear =
    Some (linear_delay (r_cfg demo_linear) (due_attempt 200 demo_linear),
          mkLinear (r_cfg demo_linear) 200 (due_attempt 200 demo_linear)) ∧
  linear_delay (r_cfg demo_linear) (due_attempt 200 demo_linear) ≤ 10 ∧
  linear_delay (r_cfg demo_linear) (due_attempt 200 demo_linear)
    ≤ linear_delay (r_cfg demo_linear) (r_attempt demo_linear).
Proof.
  apply (Linear_Duration_autoreset 200 demo_linear);
    [reflexivity|reflexivity|discriminate| |reflexivity].
  unfold linear_fits. cbn. lia.
Defined.

Lemma Linear_For_outcome_witness :
  ∃ r', Linear_For [mkRound (RetryTransient (Error PlainError "busy")) 0 0 None; mkRound RetrySuccess 0 0 None]
      (newLinear (mkLinearConfig 0 2 10 None 0 (Some RealClock))) = Some (Some None, r') ∧
    (0 ≤ 0 → in_i 64 0 → in_i 64 (0 + 2) → r_attempt r' = 0 + 1).
Proof.
  apply (Linear_For_outcome (mkLinearConfig 0 2 10 None 0 None)
    (newLinear (mkLinearConfig 0 2 10 None 0 (Some RealClock)))
    [mkRound (RetryTransient (Error PlainError "busy")) 0 0 None; mkRound RetrySuccess 0 0 None]).
  reflexivity.
Defined.
