(* ===== verification/Breaker.v ===== *)
(** * Circuit breaker (api/breaker/breaker.go)

    The breaker's state is the record [CircuitBreaker]; its mutex makes each
    of [beforeExecution] and [afterExecution] one atomic step, which is how the
    concurrent executions of the last section are built. *)

From stdpp Require Import relations.
From Stdlib Require Import SpecFloat.
From S2P Require Import Prelude.
From S2P Require Import Retry.
Local Open Scope Z_scope.

(** ** Metrics *)
Record Metrics := mkMetrics {
  Executions : Z;
  Successes : Z;
  Failures : Z;
  ConsecutiveSuccesses : Z;
  ConsecutiveFailures : Z
}.

Definition Metrics_reset : Metrics := mkMetrics 0 0 0 0 0.
Definition Metrics_success (m : Metrics) : Metrics :=
  mkMetrics (Executions m) (u32 (Successes m + 1)) (Failures m)
    (u32 (ConsecutiveSuccesses m + 1)) 0.
Definition Metrics_failure (m : Metrics) : Metrics :=
  mkMetrics (Executions m) (Successes m) (u32 (Failures m + 1))
    0 (u32 (ConsecutiveFailures m + 1)).
Definition Metrics_execute (m : Metrics) : Metrics :=
  mkMetrics (u32 (Executions m + 1)) (Successes m) (Failures m)
    (ConsecutiveSuccesses m) (ConsecutiveFailures m).

(** ** States and trip functions *)
Inductive State := StateStandby | StateTripped | StateRecovering.

#[export] Instance State_eq_dec : EqDecision State.
Proof. solve_decision. Defined.

Definition ErrStateTripped : error := Error ConnectionProblem "breaker is tripped".

Definition TripFn : Type := Metrics → bool.

Definition StaticTripper (b : bool) : TripFn := fun _ => b.

(** [float64]: IEEE binary64, computed by the specification floats. *)
Definition float64 : Type := spec_float.
Definition float64_of_Z (z : Z) : float64 := binary_normalize 53 1024 z 0 false.
Definition float64_div (x y : float64) : float64 := SFdiv 53 1024 x y.
Definition float64_geb (x y : float64) : bool := SFleb y x.

Definition RatioTripper (ratio : float64) (minExecutions : Z) : TripFn := fun m =>
  if Executions m <? minExecutions then false else
  let r := float64_div (float64_of_Z (Failures m)) (float64_of_Z (Executions m)) in
  float64_geb r ratio.

Definition ConsecutiveFailureTripper (max : Z) : TripFn :=
  fun m => max <? ConsecutiveFailures m.

(** ** Configuration and breaker

    [V] is the type of the values executions return, [E] of their errors. *)
Section breaker.
Context {V E : Type}.

Record Config := mkConfig {
  cfg_Clock : option Clock;
  cfg_Interval : Z;
  cfg_TrippedPeriod : Z;
  cfg_Recover : option TripFn;
  cfg_RecoveryLimit : Z;
  cfg_Trip : option TripFn;
  cfg_OnTripped : option unit;
  cfg_OnStandBy : option unit;
  cfg_IsSuccessful : option (V → option E → bool);
  cfg_Logger : option unit
}.

Definition NonNilErrorIsSuccess (_ : V) (err : option E) : bool :=
  match err with None => true | Some _ => false end.

(** The defaults of api/defaults that the configuration falls back to. *)
Definition defaults_TrippedPeriod : Z := 60 * Second.
Definition defaults_RecoveryLimit : Z := 3.
Definition defaults_BreakerInterval : Z := Minute.
Definition defaults_BreakerRatio : float64 :=
  float64_div (float64_of_Z 9) (float64_of_Z 10).
Definition defaults_BreakerRatioMinExecutions : Z := 10.

Definition NoopBreakerConfig : Config :=
  mkConfig None defaults_BreakerInterval 0 (Some (StaticTripper false)) 0
    (Some (StaticTripper false)) None None (Some (fun _ _ => true)) None.

Definition DefaultBreakerConfig (clock : option Clock)
    (IsResponseSuccessful : V → option E → bool) : Config :=
  mkConfig clock defaults_BreakerInterval 0
    (Some (RatioTripper (float64_div defaults_BreakerRatio (float64_of_Z 2))
             (defaults_BreakerRatioMinExecutions `quot` 3)))
    0
    (Some (RatioTripper defaults_BreakerRatio defaults_BreakerRatioMinExecutions))
    None None (Some IsResponseSuccessful) None.

Definition CheckAndSetDefaults (jitter : Jitter) (c : Config) : result Config :=
  let clock := match cfg_Clock c with None => Some RealClock | k => k end in
  if cfg_Interval c <=? 0 then
    Err (Error BadParameter "CircuitBreaker Interval must be set") else
  match cfg_Trip c with
  | None => Err (Error BadParameter "CircuitBreaker Trip must be set")
  | Some trip =>
  match cfg_Recover c with
  | None => Err (Error BadParameter "CircuitBreaker Recover must be set")
  | Some rec =>
    let period := if cfg_TrippedPeriod c <=? 0 then defaults_TrippedPeriod
                  else cfg_TrippedPeriod c in
    let limit := if cfg_RecoveryLimit c <=? 0 then defaults_RecoveryLimit
                 else cfg_RecoveryLimit c in
    let ok := match cfg_IsSuccessful c with
              | None => Some NonNilErrorIsSuccess | f => f end in
    Ok (mkConfig clock (cfg_Interval c) (jitter period) (Some rec) limit (Some trip)
          (Some ()) (Some ()) ok (Some ()))
  end end.

(** The callbacks started with [go], in the order they are started. *)
Inductive callback := GoOnTripped | GoOnStandBy.

Record CircuitBreaker := mkBreaker {
  cfg : Config;
  state : State;
  generation : Z;
  metrics : Metrics;
  expiry : Z;
  spawned : list callback
}.

Definition set_metrics (m : Metrics) (c : CircuitBreaker) : CircuitBreaker :=
  mkBreaker (cfg c) (state c) (generation c) m (expiry c) (spawned c).
Definition set_state (s : State) (c : CircuitBreaker) : CircuitBreaker :=
  mkBreaker (cfg c) s (generation c) (metrics c) (expiry c) (spawned c).
Definition spawn (cb : callback) (c : CircuitBreaker) : CircuitBreaker :=
  mkBreaker (cfg c) (state c) (generation c) (metrics c) (expiry c)
    (spawned c ++ [cb]).

(** A breaker as the struct literal [CircuitBreaker{cfg: cfg}] makes it. *)
Definition zeroBreaker (c : Config) : CircuitBreaker :=
  mkBreaker c StateStandby 0 Metrics_reset zero_time [].

Definition NewNoop : CircuitBreaker := zeroBreaker NoopBreakerConfig.

Definition nextGeneration (t : Z) (c : CircuitBreaker) : CircuitBreaker :=
  mkBreaker (cfg c) (state c) (u64 (generation c + 1)) Metrics_reset
    (match state c with
     | StateRecovering => zero_time
     | StateTripped => t + cfg_TrippedPeriod (cfg c)
     | StateStandby => t + cfg_Interval (cfg c)
     end) (spawned c).

(** The logger a debug line goes through; a nil one panics. *)
Definition Debugf : goM CircuitBreaker unit :=
  c ← get_state;
  match cfg_Logger (cfg c) with None => go_panic | Some _ => mret () end.

Definition setState (s : State) (t : Z) : goM CircuitBreaker unit :=
  c ← get_state;
  if bool_decide (state c = s) then mret () else
  _ ← Debugf;
  modify_state (fun c => nextGeneration t (set_state s c)).

Definition currentState (t : Z) : goM CircuitBreaker (Z * State) :=
  c ← get_state;
  _ ← (match state c with
       | StateTripped =>
           if expiry c <? t then setState StateRecovering t else mret ()
       | StateStandby =>
           if negb (is_zero_time (expiry c)) && (expiry c <? t)
           then modify_state (nextGeneration t) else mret ()
       | StateRecovering => mret ()
       end);
  c ← get_state;
  mret (generation c, state c).

Definition success (s : State) (t : Z) : goM CircuitBreaker unit :=
  match s with
  | StateStandby => modify_state (fun c => set_metrics (Metrics_success (metrics c)) c)
  | StateRecovering =>
      _ ← modify_state (fun c => set_metrics (Metrics_success (metrics c)) c);
      c ← get_state;
      if cfg_RecoveryLimit (cfg c) <=? ConsecutiveSuccesses (metrics c) then
        _ ← setState StateStandby t;
        modify_state (spawn GoOnStandBy)
      else mret ()
  | StateTripped => mret ()
  end.

(** A trip function of the configuration; calling a nil one panics. *)
Definition call_trip (f : option TripFn) (m : Metrics) : goM CircuitBreaker bool :=
  match f with None => go_panic | Some f => mret (f m) end.

Definition failure (s : State) (t : Z) : goM CircuitBreaker unit :=
  _ ← modify_state (fun c => set_metrics (Metrics_failure (metrics c)) c);
  c ← get_state;
  match s with
  | StateRecovering =>
      b ← call_trip (cfg_Recover (cfg c)) (metrics c);
      if (b : bool) then setState StateTripped t else mret ()
  | StateStandby =>
      b ← call_trip (cfg_Trip (cfg c)) (metrics c);
      if (b : bool) then
        _ ← setState StateTripped t;
        modify_state (spawn GoOnTripped)
      else mret ()
  | StateTripped => mret ()
  end.

(** The clock read as [now]; a nil clock panics. *)
Definition clock_Now (now : Z) : goM CircuitBreaker Z :=
  c ← get_state;
  match cfg_Clock (cfg c) with None => go_panic | Some _ => mret now end.

Definition beforeExecution (now : Z) : goM CircuitBreaker (Z * option error) :=
  now ← clock_Now now;
  gs ← currentState now;
  match gs.2 with
  | StateTripped => mret (gs.1, Some ErrStateTripped)
  | _ =>
      _ ← modify_state (fun c => set_metrics (Metrics_execute (metrics c)) c);
      mret (gs.1, None)
  end.

Definition afterExecution (prior : Z) (v : V) (err : option E) (now : Z) :
    goM CircuitBreaker unit :=
  now ← clock_Now now;
  gs ← currentState now;
  if bool_decide (gs.1 = prior) then
    c ← get_state;
    match cfg_IsSuccessful (cfg c) with
    | None => go_panic
    | Some isSuccessful =>
        _ ← Debugf;
        if isSuccessful v err then success gs.2 now else failure gs.2 now
    end
  else mret ().

(** The error [Execute] returns is the breaker's or the function's. *)
Inductive exec_error := BreakerError (e : error) | FnError (e : E).

(** [Execute] around a function [f], which may itself run concurrently with
    other executions of the same breaker and so transforms it. *)
Definition Execute (f : goM CircuitBreaker (V * option E)) (nilV : V)
    (now_before now_after : Z) : goM CircuitBreaker (V * option exec_error) :=
  ge ← beforeExecution now_before;
  match ge.2 with
  | Some e => mret (nilV, Some (BreakerError e))
  | None =>
      ve ← f;
      _ ← afterExecution ge.1 ve.1 ve.2 now_after;
      mret (ve.1, FnError <$> ve.2)
  end.

(** [New]: a checked configuration and a first generation. *)
Definition New (jitter : Jitter) (c : Config) (now : Z) : result CircuitBreaker :=
  c ← CheckAndSetDefaults jitter c;
  Ok (nextGeneration now (zeroBreaker c)).

End breaker.
Arguments Config : clear implicits.
Arguments CircuitBreaker : clear implicits.

(** *** The success test for HTTP and gRPC results

    [status.Code] belongs to the gRPC library: it is an argument. *)
Inductive response_value :=
  | VNil
  | VResponse (status_code : option Z)
  | VOther.

Definition StatusInternalServerError : Z := 500.
Definition codes_Canceled : Z := 1.
Definition codes_Unknown : Z := 2.
Definition codes_DeadlineExceeded : Z := 4.
Definition codes_Unavailable : Z := 14.

Definition IsResponseSuccessful {E} (status_Code : option E → Z)
    (v : response_value) (err : option E) : bool :=
  match v with
  | VResponse (Some code) => code <? StatusInternalServerError
  | _ =>
      let code := status_Code err in
      match err with
      | None => true
      | Some _ =>
          if (code =? codes_Canceled) || (code =? codes_Unknown) ||
             (code =? codes_Unavailable) || (code =? codes_DeadlineExceeded)
          then false else true
      end
  end.

(** ** Functional specification

    On a configured breaker no operation panics, and each is a total function
    of the breaker and the clock reading.  These functions are the abstract
    state machine; the [_spec] lemmas refine the operations to them. *)
Section spec.
Context {V E : Type}.
Implicit Types c : CircuitBreaker V E.

Record configured (k : Config V E) (trip recover : TripFn)
    (ok : V → option E → bool) : Prop := {
  conf_Clock : is_Some (cfg_Clock k);
  conf_Logger : is_Some (cfg_Logger k);
  conf_Trip : cfg_Trip k = Some trip;
  conf_Recover : cfg_Recover k = Some recover;
  conf_IsSuccessful : cfg_IsSuccessful k = Some ok
}.

(** A checked configuration is configured. *)
Lemma CheckAndSetDefaults_configured j (k k' : Config V E) :
  CheckAndSetDefaults j k = Ok k' → ∃ trip recover ok, configured k' trip recover ok.
Proof.
  unfold CheckAndSetDefaults. destruct (cfg_Interval k <=? 0); [done|].
  destruct (cfg_Trip k) as [trip|]; [|done].
  destruct (cfg_Recover k) as [recover|]; [|done].
  intros [= <-].
  exists trip, recover, (default NonNilErrorIsSuccess (cfg_IsSuccessful k)).
  split; simpl; try done; [destruct (cfg_Clock k)|destruct (cfg_IsSuccessful k)]; done.
Qed.

Definition advance (t : Z) c : CircuitBreaker V E :=
  match state c with
  | StateTripped =>
      if expiry c <? t then nextGeneration t (set_state StateRecovering c) else c
  | StateStandby =>
      if negb (is_zero_time (expiry c)) && (expiry c <? t)
      then nextGeneration t c else c
  | StateRecovering => c
  end.

Definition switch (s : State) (t : Z) c : CircuitBreaker V E :=
  if bool_decide (state c = s) then c else nextGeneration t (set_state s c).

Definition succeed (t : Z) c : CircuitBreaker V E :=
  match state c with
  | StateTripped => c
  | StateStandby => set_metrics (Metrics_success (metrics c)) c
  | StateRecovering =>
      let c := set_metrics (Metrics_success (metrics c)) c in
      if cfg_RecoveryLimit (cfg c) <=? ConsecutiveSuccesses (metrics c)
      then spawn GoOnStandBy (switch StateStandby t c) else c
  end.

Definition fail (trip recover : TripFn) (t : Z) c : CircuitBreaker V E :=
  let c' := set_metrics (Metrics_failure (metrics c)) c in
  match state c with
  | StateTripped => c'
  | StateRecovering => if recover (metrics c') then switch StateTripped t c' else c'
  | StateStandby =>
      if trip (metrics c') then spawn GoOnTripped (switch StateTripped t c') else c'
  end.

Definition begin_spec (now : Z) c : (Z * option error) * CircuitBreaker V E :=
  let c := advance now c in
  match state c with
  | StateTripped => ((generation c, Some ErrStateTripped), c)
  | _ => ((generation c, None), set_metrics (Metrics_execute (metrics c)) c)
  end.

Definition end_spec trip recover (prior : Z) (ok : bool) (now : Z) c :
    CircuitBreaker V E :=
  let c := advance now c in
  if bool_decide (generation c = prior) then
    if ok then succeed now c else fail trip recover now c
  else c.

Lemma setState_spec s t c :
  is_Some (cfg_Logger (cfg c)) → setState s t c = Some ((), switch s t c).
Proof.
  intros [l Hl]. unfold setState, switch, Debugf. run_goM.
  case_bool_decide; [done|]. by rewrite Hl.
Qed.

Lemma currentState_spec t c :
  is_Some (cfg_Logger (cfg c)) →
  currentState t c =
    Some ((generation (advance t c), state (advance t c)), advance t c).
Proof.
  intros Hl. unfold currentState, advance. run_goM.
  destruct (state c) eqn:Hs; [| |by rewrite Hs].
  - case_test; simpl; by rewrite ?Hs.
  - case_test; [|by rewrite Hs].
    rewrite (setState_spec _ _ _ Hl). unfold switch. by rewrite Hs.
Qed.

Lemma advance_cfg t c : cfg (advance t c) = cfg c.
Proof. unfold advance. destruct (state c); repeat case_test; done. Qed.

Lemma beforeExecution_spec trip recover ok now c :
  configured (cfg c) trip recover ok →
  beforeExecution now c = Some (begin_spec now c).
Proof.
  intros [[k Hk] Hl _ _ _].
  unfold beforeExecution, clock_Now, begin_spec. run_goM.
  rewrite Hk. rewrite (currentState_spec _ _ Hl). run_goM.
  by destruct (state (advance now c)).
Qed.

Lemma success_spec t c :
  is_Some (cfg_Logger (cfg c)) → success (state c) t c = Some ((), succeed t c).
Proof.
  intros Hl. unfold success, succeed. destruct (state c) eqn:Hs; [done|done|].
  run_goM. cbn. case_test; [|done].
  by rewrite setState_spec.
Qed.

Lemma failure_spec trip recover ok t c :
  configured (cfg c) trip recover ok →
  failure (state c) t c = Some ((), fail trip recover t c).
Proof.
  intros [_ Hl Ht Hr _]. unfold failure, fail, call_trip.
  destruct (state c) eqn:Hs; run_goM; cbn; rewrite ?Hs, ?Ht, ?Hr; [| done |].
  all: case_test; [|done]; by rewrite setState_spec.
Qed.

Lemma afterExecution_spec trip recover ok prior v err now c :
  configured (cfg c) trip recover ok →
  afterExecution prior v err now c =
    Some ((), end_spec trip recover prior (ok v err) now c).
Proof.
  intros Hc. pose proof Hc as [[k Hk] Hl _ _ Hok].
  unfold afterExecution, clock_Now, end_spec, Debugf. run_goM.
  rewrite Hk, (currentState_spec _ _ Hl). run_goM.
  case_bool_decide; [|done].
  rewrite <- (advance_cfg now c) in Hc, Hl, Hok. rewrite Hok.
  pose proof Hl as [l Hl']. rewrite Hl'.
  destruct (ok v err); [rewrite success_spec by done|erewrite failure_spec by done];
    done.
Qed.

(** [Execute] of a function that does not touch the breaker. *)
Lemma Execute_spec trip recover ok v err nilV t1 t2 c :
  configured (cfg c) trip recover ok →
  Execute (mret (v, err)) nilV t1 t2 c =
    let '((g, rejected), c1) := begin_spec t1 c in
    match rejected with
    | Some e => Some ((nilV, Some (BreakerError e)), c1)
    | None => Some ((v, FnError <$> err), end_spec trip recover g (ok v err) t2 c1)
    end.
Proof.
  intros Hc. unfold Execute. run_goM.
  erewrite beforeExecution_spec by done.
  destruct (begin_spec t1 c) as [[g rej] c1] eqn:Hb.
  destruct rej; [done|]. run_goM.
  assert (cfg c1 = cfg c) as Hcfg.
  { unfold begin_spec in Hb. rewrite <- (advance_cfg t1 c).
    by destruct (state (advance t1 c)); simplify_eq. }
  rewrite <- Hcfg in Hc. by erewrite afterExecution_spec.
Qed.
End spec.

(** ** Blocking, tripping and recovering *)
Section transitions.
Context {V E : Type}.
Implicit Types c : CircuitBreaker V E.

Lemma advance_tripped_blocked t c :
  state c = StateTripped → t ≤ expiry c → advance t c = c.
Proof. intros Hs Ht. unfold advance. rewrite Hs. by rewrite (proj2 (Z.ltb_ge _ _) Ht). Qed.

Lemma advance_recovering t c : state c = StateRecovering → advance t c = c.
Proof. intros Hs. unfold advance. by rewrite Hs. Qed.

(** One successful execution of a recovering breaker. *)
Lemma end_spec_recovering trip recover t1 t2 c :
  state c = StateRecovering →
  let c1 := (begin_spec t1 c).2 in
  end_spec trip recover (generation c) true t2 c1 = succeed t2 c1 ∧
  begin_spec t1 c = ((generation c, None), c1) ∧ state c1 = StateRecovering ∧
  cfg c1 = cfg c ∧ generation c1 = generation c ∧ spawned c1 = spawned c ∧
  ConsecutiveSuccesses (metrics c1) = ConsecutiveSuccesses (metrics c).
Proof.
  intros Hs. unfold begin_spec. rewrite (advance_recovering t1 c Hs), Hs.
  cbn. rewrite Hs. split; [|done].
  unfold end_spec. rewrite advance_recovering by done. cbn.
  by rewrite bool_decide_eq_true_2.
Qed.

(** The caller runs executions one after the other, each with its own clock
    readings and result. *)
Fixpoint run_successes (nilV : V) (env : list (Z * Z * V)) c : option (CircuitBreaker V E) :=
  match env with
  | [] => Some c
  | (t1, t2, v) :: env' =>
      match Execute (mret (v, None)) nilV t1 t2 c with
      | Some (_, c') => run_successes nilV env' c'
      | None => None
      end
  end.

Lemma run_successes_recovering trip recover ok nilV env c :
  configured (cfg c) trip recover ok →
  state c = StateRecovering → 
  cfg_RecoveryLimit (cfg c) < 2 ^ 32 →
  0 ≤ ConsecutiveSuccesses (metrics c) →
  Forall (fun r => ok r.2 None = true) env →
  ConsecutiveSuccesses (metrics c) + Z.of_nat (length env) = cfg_RecoveryLimit (cfg c) →
  env ≠ [] →
  ∃ c', run_successes nilV env c = Some c' ∧ state c' = StateStandby ∧
    generation c' = u64 (generation c + 1) ∧
    spawned c' = spawned c ++ [GoOnStandBy].
Proof.
  revert c. induction env as [|[[t1 t2] v] env IH]; intros c Hc Hs Hlim H0 Hok Hlen Hne; [done|].
  clear Hne. apply Forall_cons in Hok as [Hv Hok]. simpl in Hv.
  cbn [run_successes]. rewrite (Execute_spec trip recover ok) by done.
  pose proof (end_spec_recovering trip recover t1 t2 c Hs) as H.
  cbv zeta in H. destruct H as (He & Hb & Hs1 & Hcfg & Hg & Hsp & Hcs).
  rewrite Hb. rewrite Hv, He. clear He.
  generalize dependent (begin_spec t1 c).2. intros c1 Hb Hs1 Hcfg Hg Hsp Hcs.
  unfold succeed. rewrite Hs1. cbn. rewrite Hcfg, Hcs.
  cbn [length] in Hlen. rewrite Nat2Z.inj_succ in Hlen.
  rewrite (wrap_u_small 32 (_ + 1)) by (unfold in_u; lia).
  destruct (decide (env = [])) as [->|Hne].
  - simpl in Hlen. rewrite (proj2 (Z.leb_le _ _)) by lia.
    unfold switch. cbn. rewrite bool_decide_eq_false_2 by congruence.
    eexists. split; [done|]. cbn. by rewrite Hg, Hsp.
  - assert (length env ≠ 0%nat) by (by destruct env).
    rewrite (proj2 (Z.leb_gt _ _)) by lia.
    destruct (IH (set_metrics (Metrics_success (metrics c1)) c1))
      as (c' & Hrun & Hst & Hgen & Hspw); cbn; rewrite ?Hcfg, ?Hcs; try done.
    + rewrite wrap_u_small by (unfold in_u; lia). lia.
    + rewrite wrap_u_small by (unfold in_u; lia). lia.
    + exists c'. cbn in Hgen, Hspw. by rewrite Hrun, Hgen, Hspw, Hg, Hsp.
Qed.
End transitions.

(** ** Concurrent executions

    Each execution in flight holds the generation [beforeExecution] gave it.
    A step is one critical section: an execution that begins, one that is
    rejected, one that ends.  The clock is monotone. *)
Section concurrency.
Context {V E : Type}.

Record world := mkWorld {
  w_cb : CircuitBreaker V E;
  w_now : Z;
  w_inflight : list Z
}.

Inductive wstep : world → world → Prop :=
  | wstep_begin cb t now g cb' fl :
      t ≤ now →
      beforeExecution now cb = Some ((g, None), cb') →
      wstep (mkWorld cb t fl) (mkWorld cb' now (g :: fl))
  | wstep_reject cb t now g e cb' fl :
      t ≤ now →
      beforeExecution now cb = Some ((g, Some e), cb') →
      wstep (mkWorld cb t fl) (mkWorld cb' now fl)
  | wstep_end cb t now g v err cb' fl1 fl2 :
      t ≤ now →
      afterExecution g v err now cb = Some ((), cb') →
      wstep (mkWorld cb t (fl1 ++ g :: fl2)) (mkWorld cb' now (fl1 ++ fl2)).

(** Executions of the current generation that are still running. *)
Definition current_inflight (w : world) : nat :=
  count_occ Z.eq_dec (w_inflight w) (generation (w_cb w)).

Record accounted (n : nat) (trip recover : TripFn) (ok : V → option E → bool)
    (w : world) : Prop := {
  acc_conf : configured (cfg (w_cb w)) trip recover ok;
  acc_gen : 1 ≤ generation (w_cb w) ≤ 1 + Z.of_nat n;
  acc_old : Forall (fun g => g ≤ generation (w_cb w)) (w_inflight w);
  acc_tripped : state (w_cb w) = StateTripped → current_inflight w = 0%nat;
  acc_sum : Executions (metrics (w_cb w)) =
    u32 (Successes (metrics (w_cb w)) + Failures (metrics (w_cb w))
         + Z.of_nat (current_inflight w))
}.

Lemma count_occ_fresh (l : list Z) g :
  Forall (fun x => x < g) l → count_occ Z.eq_dec l g = 0%nat.
Proof.
  intros Hl. apply count_occ_not_In. intros Hin.
  rewrite Forall_forall in Hl. apply list_elem_of_In in Hin. specialize (Hl g Hin). lia.
Qed.

(** A new generation: the counts restart and nobody in flight belongs to it. *)
Lemma accounted_next n trip recover ok cb t now fl :
  configured (cfg cb) trip recover ok →
  1 ≤ generation cb ≤ 1 + Z.of_nat n → 2 + Z.of_nat n < 2 ^ 64 →
  Forall (fun g => g ≤ generation cb) fl →
  accounted (S n) trip recover ok (mkWorld (nextGeneration t cb) now fl).
Proof.
  intros Hc Hg Hn Hfl.
  assert (u64 (generation cb + 1) = generation cb + 1) as Hw.
  { apply wrap_u_small. unfold in_u. lia. }
  assert (count_occ Z.eq_dec fl (generation cb + 1) = 0%nat) as Hz.
  { apply count_occ_fresh. eapply Forall_impl; [done|]. simpl; lia. }
  split; unfold current_inflight; cbn; rewrite ?Hw, ?Hz; try done; [lia|].
  eapply Forall_impl; [done|]. simpl; lia.
Qed.

Lemma accounted_advance n trip recover ok cb t now fl :
  accounted n trip recover ok (mkWorld cb t fl) → 2 + Z.of_nat n < 2 ^ 64 →
  let cb' := advance now cb in
  cb' = cb ∨
  (generation cb' = generation cb + 1 ∧ state cb' ≠ StateTripped ∧
   accounted (S n) trip recover ok (mkWorld cb' now fl)).
Proof.
  intros [Hc Hg Ho Ht Hs] Hn. cbn in *. unfold advance.
  assert (u64 (generation cb + 1) = generation cb + 1) as Hw.
  { apply wrap_u_small. unfold in_u. lia. }
  destruct (state cb) eqn:Hst; [| |by left]; case_test; [|by left| |by left]; right;
    (split; [exact Hw|split; [cbn; congruence|]]).
  - by apply accounted_next.
  - by apply (accounted_next n trip recover ok (set_state StateRecovering cb)).
Qed.

Lemma accounted_weaken n m trip recover ok cb t t' fl :
  (n ≤ m)%nat → accounted n trip recover ok (mkWorld cb t fl) →
  accounted m trip recover ok (mkWorld cb t' fl).
Proof. intros ? [Hc Hg Ho Ht Hs]. split; try done. cbn in *. lia. Qed.

Lemma accounted_begin n trip recover ok cb t now g cb' fl :
  accounted n trip recover ok (mkWorld cb t fl) → 2 + Z.of_nat n < 2 ^ 64 →
  begin_spec now cb = ((g, None), cb') →
  accounted (S n) trip recover ok (mkWorld cb' now (g :: fl)).
Proof.
  intros Ha Hn Hb.
  assert (accounted (S n) trip recover ok (mkWorld (advance now cb) now fl)) as Ha'.
  { destruct (accounted_advance _ _ _ _ _ _ now _ Ha Hn) as [->|(_ & _ & ?)]; [|done].
    eapply accounted_weaken; [|done]. lia. }
  unfold begin_spec in Hb. generalize dependent (advance now cb). intros c Hb [Hc Hg Ho Ht Hs].
  destruct (state c) eqn:Hst; [|done|]; injection Hb as <- <-.
  all: split; cbn in *; [done|lia|by constructor|by rewrite Hst|].
  all: unfold current_inflight in *; cbn in *.
  all: destruct (Z.eq_dec _ _); [|done]; rewrite Hs.
  all: rewrite wrap_u_add_l; f_equal; lia.
Qed.

Lemma accounted_reject n trip recover ok cb t now g e cb' fl :
  accounted n trip recover ok (mkWorld cb t fl) → 2 + Z.of_nat n < 2 ^ 64 →
  begin_spec now cb = ((g, Some e), cb') →
  accounted (S n) trip recover ok (mkWorld cb' now fl).
Proof.
  intros Ha Hn Hb. unfold begin_spec in Hb.
  destruct (accounted_advance _ _ _ _ _ _ now _ Ha Hn) as [Heq|(_ & _ & Ha')].
  - rewrite Heq in Hb. destruct (state cb); simplify_eq.
    eapply accounted_weaken; [|done]. lia.
  - by destruct (state (advance now cb)); simplify_eq.
Qed.

(** Ending an execution of the current generation leaves the metrics a count
    of one success or one failure more, in both outcomes. *)
Lemma current_inflight_remove fl1 g fl2 :
  count_occ Z.eq_dec (fl1 ++ g :: fl2) g = S (count_occ Z.eq_dec (fl1 ++ fl2) g).
Proof. rewrite !count_occ_app. cbn. destruct (Z.eq_dec g g); [lia|done]. Qed.

Lemma accounted_count n trip recover ok cb t now g fl1 fl2 m' :
  accounted n trip recover ok (mkWorld cb t (fl1 ++ g :: fl2)) →
  generation cb = g →
  Executions m' = Executions (metrics cb) →
  (Successes m' = u32 (Successes (metrics cb) + 1) ∧
     Failures m' = Failures (metrics cb) ∨
   Successes m' = Successes (metrics cb) ∧
     Failures m' = u32 (Failures (metrics cb) + 1)) →
  accounted n trip recover ok (mkWorld (set_metrics m' cb) now (fl1 ++ fl2)).
Proof.
  intros [Hc Hg Ho Ht Hs] Hgen He Hsf.
  unfold current_inflight in *. cbn in *. rewrite Hgen, current_inflight_remove in *.
  split; unfold current_inflight; cbn; try done; rewrite ?Hgen; try done.
  - apply Forall_app in Ho as [? [? ?]%Forall_cons]. by apply Forall_app.
  - intros Hst. specialize (Ht Hst). lia.
  - rewrite He, Hs. destruct Hsf as [[-> ->]|[-> ->]].
    + rewrite <- (Z.add_assoc (u32 _)), wrap_u_add_l. f_equal. lia.
    + rewrite (Z.add_comm _ (u32 _)), <- (Z.add_assoc (u32 _)), wrap_u_add_l.
      f_equal. lia.
Qed.

Lemma accounted_switch n trip recover ok cb t now s fl :
  accounted n trip recover ok (mkWorld cb t fl) → 2 + Z.of_nat n < 2 ^ 64 →
  state cb ≠ s →
  accounted (S n) trip recover ok (mkWorld (switch s now cb) now fl).
Proof.
  intros [Hc Hg Ho _ _] Hn Hne. unfold switch. rewrite bool_decide_eq_false_2 by done.
  by apply (accounted_next n trip recover ok (set_state s cb)).
Qed.

Lemma accounted_spawn n trip recover ok cb t fl k :
  accounted n trip recover ok (mkWorld cb t fl) →
  accounted n trip recover ok (mkWorld (spawn k cb) t fl).
Proof. by intros [Hc Hg Ho Ht Hs]. Qed.

Lemma accounted_end n trip recover ok cb t now g b fl1 fl2 :
  accounted n trip recover ok (mkWorld cb t (fl1 ++ g :: fl2)) → 2 + Z.of_nat n < 2 ^ 64 →
  accounted (S n) trip recover ok
    (mkWorld (end_spec trip recover g b now cb) now (fl1 ++ fl2)).
Proof.
  intros Ha Hn. unfold end_spec.
  destruct (decide (generation (advance now cb) = g)) as [Hg|Hg].
  2: { rewrite bool_decide_eq_false_2 by done.
    assert (accounted (S n) trip recover ok
      (mkWorld (advance now cb) now (fl1 ++ g :: fl2))) as [Hc Hgb Ho Ht Hs].
    { destruct (accounted_advance _ _ _ _ _ _ now _ Ha Hn) as [->|(_ & _ & ?)]; [|done].
      eapply accounted_weaken; [|done]. lia. }
    unfold current_inflight in *. cbn in *.
    assert (∀ l1 l2, count_occ Z.eq_dec (l1 ++ g :: l2) (generation (advance now cb))
      = count_occ Z.eq_dec (l1 ++ l2) (generation (advance now cb))) as Hrm.
    { intros. rewrite !count_occ_app. cbn. by destruct (Z.eq_dec _ _). }
    rewrite Hrm in *. split; unfold current_inflight; cbn; try done.
    apply Forall_app in Ho as [? [? ?]%Forall_cons]. by apply Forall_app. }
  rewrite bool_decide_eq_true_2 by done.
  destruct (accounted_advance _ _ _ _ _ _ now _ Ha Hn) as [Heq|(Hgen & _ & _)].
  2: { destruct Ha as [_ _ Ho _ _]. cbn in Ho.
       apply Forall_app in Ho as [_ [? _]%Forall_cons]. lia. }
  rewrite Heq in *. clear Heq.
  assert (state cb ≠ StateTripped) as Hnt.
  { intros Hst. destruct Ha as [_ _ _ Ht _]. cbn in Ht. specialize (Ht Hst).
    unfold current_inflight in Ht. cbn in Ht. rewrite Hg, current_inflight_remove in Ht. lia. }
  assert (accounted n trip recover ok
    (mkWorld (set_metrics (Metrics_success (metrics cb)) cb) now (fl1 ++ fl2))) as HS
    by (eapply accounted_count; [done..|]; by left).
  assert (accounted n trip recover ok
    (mkWorld (set_metrics (Metrics_failure (metrics cb)) cb) now (fl1 ++ fl2))) as HF
    by (eapply accounted_count; [done..|]; by right).
  destruct b; [unfold succeed|unfold fail]; destruct (state cb) eqn:Hst; try done;
    cbn zeta; repeat case_test; try (apply accounted_spawn);
    solve [ by eapply accounted_weaken; [|done]; lia
          | eapply accounted_switch; [done|done|cbn; congruence] ].
Qed.
Lemma accounted_step n trip recover ok w w' :
  accounted n trip recover ok w → 2 + Z.of_nat n < 2 ^ 64 → wstep w w' →
  accounted (S n) trip recover ok w'.
Proof.
  intros Ha Hn Hstep.
  inversion Hstep as [cb t now g cb' fl _ Hb|cb t now g e cb' fl _ Hb
    |cb t now g v err cb' fl1 fl2 _ Hb]; subst.
  - erewrite beforeExecution_spec in Hb by apply Ha. injection Hb as Hb.
    by eapply accounted_begin.
  - erewrite beforeExecution_spec in Hb by apply Ha. injection Hb as Hb.
    by eapply accounted_reject.
  - erewrite afterExecution_spec in Hb by apply Ha. injection Hb as <-.
    by eapply accounted_end.
Qed.

Lemma accounted_steps trip recover ok n w k w' :
  accounted n trip recover ok w → 2 + Z.of_nat (n + k) < 2 ^ 64 → nsteps wstep k w w' →
  accounted (n + k) trip recover ok w'.
Proof.
  intros Ha Hn Hs. revert n Ha Hn.
  induction Hs as [w|k w1 w2 w3 Hst _ IH]; intros n Ha Hn; [by rewrite Nat.add_0_r|].
  rewrite Nat.add_succ_r, <- Nat.add_succ_l.
  apply IH; [|lia]. eapply accounted_step; [done|lia|done].
Qed.

(** A world just after [New]: no execution in flight. *)
Lemma accounted_New j k now cb :
  New j k now = Ok cb →
  ∃ trip recover ok, accounted 0 trip recover ok (mkWorld cb now []).
Proof.
  unfold New, mbind, result_bind.
  destruct (CheckAndSetDefaults j k) as [k'|e] eqn:Hk; [|done]. intros [= <-].
  apply CheckAndSetDefaults_configured in Hk as (trip & recover & ok & Hc).
  exists trip, recover, ok. by split.
Qed.

(** The documented transitions, with the callback each of them starts. *)
Inductive edge (trip recover : TripFn) : CircuitBreaker V E → CircuitBreaker V E →
    list callback → Prop :=
  | edge_stay c c' : state c' = state c → edge trip recover c c' []
  | edge_trip c c' :
      state c = StateStandby → state c' = StateTripped →
      trip (Metrics_failure (metrics c)) = true →
      edge trip recover c c' [GoOnTripped]
  | edge_wait c c' now :
      state c = StateTripped → state c' = StateRecovering → expiry c < now →
      edge trip recover c c' []
  | edge_retrip c c' :
      state c = StateRecovering → state c' = StateTripped →
      recover (Metrics_failure (metrics c)) = true →
      edge trip recover c c' []
  | edge_recover c c' :
      state c = StateRecovering → state c' = StateStandby →
      cfg_RecoveryLimit (cfg c) ≤ ConsecutiveSuccesses (Metrics_success (metrics c)) →
      edge trip recover c c' [GoOnStandBy].

Lemma advance_edge trip recover t (c : CircuitBreaker V E) :
  edge trip recover c (advance t c) [] ∧ spawned (advance t c) = spawned c.
Proof.
  unfold advance. destruct (state c) eqn:Hs; [| |by split; [constructor|]];
    case_test; to_prop; (split; [|done]);
    try (by constructor).
  by eapply edge_wait.
Qed.

Lemma begin_spec_edge trip recover t (c c' : CircuitBreaker V E) r :
  begin_spec t c = (r, c') → edge trip recover c c' [] ∧ spawned c' = spawned c.
Proof.
  destruct (advance_edge trip recover t c) as [He Hsp]. unfold begin_spec.
  destruct (state (advance t c)) eqn:Hst; intros [= _ <-]; [|done|];
    (split; [|done]); inversion He; subst; try (constructor; cbn; congruence).
  all: eapply edge_wait; cbn; try done; congruence.
Qed.

Lemma switch_other s t (c : CircuitBreaker V E) :
  state c ≠ s → switch s t c = nextGeneration t (set_state s c).
Proof. intros. unfold switch. by rewrite bool_decide_eq_false_2. Qed.

Lemma end_spec_edge n trip recover ok prior b t (c : CircuitBreaker V E) now fl1 fl2 :
  accounted n trip recover ok (mkWorld c now (fl1 ++ prior :: fl2)) →
  2 + Z.of_nat n < 2 ^ 64 →
  ∃ cbs, edge trip recover c (end_spec trip recover prior b t c) cbs ∧
    spawned (end_spec trip recover prior b t c) = spawned c ++ cbs.
Proof.
  intros Ha Hn. unfold end_spec. case_bool_decide as Hg.
  2: { exists []. rewrite app_nil_r. apply advance_edge. }
  destruct (accounted_advance _ _ _ _ _ _ t _ Ha Hn) as [Heq|(Hgen & _ & _)].
  2: { destruct Ha as [_ _ Ho _ _]. cbn in Ho.
       apply Forall_app in Ho as [_ [? _]%Forall_cons]. lia. }
  rewrite Heq in *.
  destruct b; [unfold succeed|unfold fail]; destruct (state c) eqn:Hs;
    cbn zeta; repeat case_test; to_prop;
    rewrite ?switch_other by (cbn; congruence);
    eexists; (split; [|try reflexivity; symmetry; apply app_nil_r]);
    try (by constructor); by econstructor.
Qed.
End concurrency.

(** ** Properties *)

(** C25: whatever the interleaving of concurrent executions, after any number of
    steps from a fresh breaker the metrics of the current generation account
    exactly for the executions: Executions is Successes plus Failures plus the
    executions of this generation still in flight, nothing of an older
    generation leaks in, and a tripped breaker has nothing of its own
    generation in flight. *)
Theorem breaker_accounting {V E} j (k : Config V E) now0 cb n w :
  New j k now0 = Ok cb → nsteps wstep n (mkWorld cb now0 []) w →
  2 + Z.of_nat n < 2 ^ 64 →
  Executions (metrics (w_cb w)) =
    u32 (Successes (metrics (w_cb w)) + Failures (metrics (w_cb w))
         + Z.of_nat (current_inflight w)) ∧
  Forall (fun g => g ≤ generation (w_cb w)) (w_inflight w) ∧
  (state (w_cb w) = StateTripped → current_inflight w = 0%nat).
Proof.
  intros Hnew Hs Hn. destruct (accounted_New _ _ _ _ Hnew) as (trip & recover & ok & H0).
  destruct (accounted_steps _ _ _ 0 _ n w H0 Hn Hs); done.
Qed.

(** every critical section moves the breaker along one of the documented
    edges (standby to tripped when Trip fires on a failure, tripped to
    recovering once the expiry has passed, recovering to standby at the
    recovery limit, recovering to tripped when Recover fires) or leaves its
    state, and starts exactly the callback of that edge. *)
Theorem breaker_edges {V E} n trip recover ok (w w' : world (V:=V) (E:=E)) :
  accounted n trip recover ok w → 2 + Z.of_nat n < 2 ^ 64 → wstep w w' →
  ∃ cbs, edge trip recover (w_cb w) (w_cb w') cbs ∧
    spawned (w_cb w') = spawned (w_cb w) ++ cbs.
Proof.
  intros Ha Hn Hstep.
  inversion Hstep as [cb t now g cb' fl _ Hb|cb t now g e cb' fl _ Hb
    |cb t now g v err cb' fl1 fl2 _ Hb]; subst; cbn.
  1,2: erewrite beforeExecution_spec in Hb by apply Ha; injection Hb as Hb.
  1,2: exists []; rewrite app_nil_r; eapply begin_spec_edge; exact Hb.
  erewrite afterExecution_spec in Hb by apply Ha. injection Hb as <-.
  by eapply end_spec_edge.
Qed.

(** while the breaker is tripped and its expiry has not passed, [Execute]
    returns [ErrStateTripped] without running the function: the breaker is
    left exactly as it was, for every function, even one that panics. *)
Theorem breaker_tripped_blocks {V E} trip recover ok f nilV t1 t2 (c : CircuitBreaker V E) :
  configured (cfg c) trip recover ok →
  state c = StateTripped → t1 ≤ expiry c →
  Execute f nilV t1 t2 c = Some ((nilV, Some (BreakerError ErrStateTripped)), c).
Proof.
  intros Hc Hs Ht. unfold Execute. run_goM. erewrite beforeExecution_spec by done.
  unfold begin_spec. rewrite advance_tripped_blocked by done. by rewrite Hs.
Qed.

(** recovery. From a tripped breaker whose expiry has passed,
    RecoveryLimit successful executions in a row bring it back to standby, two
    generations later, and start OnStandBy once; no execution is rejected. *)
Theorem breaker_recovers {V E} trip recover ok nilV env (c : CircuitBreaker V E) t1 t2 v :
  configured (cfg c) trip recover ok →
  state c = StateTripped → expiry c < t1 →
  0 < cfg_RecoveryLimit (cfg c) < 2 ^ 32 →
  Forall (fun r => ok r.2 None = true) ((t1, t2, v) :: env) →
  Z.of_nat (length ((t1, t2, v) :: env)) = cfg_RecoveryLimit (cfg c) →
  ∃ c', run_successes nilV ((t1, t2, v) :: env) c = Some c' ∧
    state c' = StateStandby ∧ generation c' = u64 (generation c + 2) ∧
    spawned c' = spawned c ++ [GoOnStandBy].
Proof.
  intros Hc Hs Ht Hlim Hok Hlen.
  set (c0 := nextGeneration t1 (set_state StateRecovering c)).
  assert (advance t1 c = c0) as Hadv.
  { unfold advance. rewrite Hs. by rewrite (proj2 (Z.ltb_lt _ _) Ht). }
  assert (∀ f, Execute f nilV t1 t2 c = Execute f nilV t1 t2 c0) as Hex.
  { intros f. unfold Execute. run_goM. rewrite !(beforeExecution_spec trip recover ok) by done.
    unfold begin_spec. by rewrite Hadv, (advance_recovering t1 c0). }
  destruct (run_successes_recovering trip recover ok nilV ((t1, t2, v) :: env) c0)
    as (c' & Hrun & Hst & Hgen & Hsp); try done; cbn; try lia.
  exists c'. split; [|split; [done|split; [|done]]].
  - cbn [run_successes] in *. by rewrite Hex.
  - rewrite Hgen. cbn. rewrite wrap_u_add_l. f_equal. lia.
Qed.

(** [NewNoop] skips [CheckAndSetDefaults], so the breaker it builds has a
    nil clock: its [Execute] panics before running any function, for every
    function and at any time. *)
Theorem NewNoop_Execute_panics {V E} f nilV t1 t2 :
  Execute f nilV t1 t2 (NewNoop (V:=V) (E:=E)) = None.
Proof. reflexivity. Qed.

(** ** Concrete runs *)
Definition demo_config : Config unit unit :=
  mkConfig (Some GivenClock) 60 100 (Some (ConsecutiveFailureTripper 0)) 2
    (Some (ConsecutiveFailureTripper 1)) None None None None.

Definition demo_ready : Config unit unit :=
  mkConfig (Some GivenClock) 60 100 (Some (ConsecutiveFailureTripper 0)) 2
    (Some (ConsecutiveFailureTripper 1)) (Some ()) (Some ())
    (Some NonNilErrorIsSuccess) (Some ()).

Definition demo_breaker : CircuitBreaker unit unit :=
  nextGeneration 0 (zeroBreaker demo_ready).

Definition demo_tripped : CircuitBreaker unit unit :=
  mkBreaker demo_ready StateTripped 2 Metrics_reset 100 [GoOnTripped].

Lemma demo_New : New (fun d => d) demo_config 0 = Ok demo_breaker.
Proof. reflexivity. Defined.

Lemma demo_configured :
  configured demo_ready (ConsecutiveFailureTripper 1) (ConsecutiveFailureTripper 0)
    NonNilErrorIsSuccess.
Proof. split; (reflexivity || by eexists). Defined.

(** Two failures in a row trip the demo breaker; the rejected execution leaves it. *)
Example demo_trip :
  (let run := Execute (mret ((), Some ())) () in
   '(_, c) ← run 1 2 demo_breaker;
   '(_, c) ← run 3 4 c;
   Some (state c, generation c, expiry c, spawned c))
  = Some (StateTripped, 2, 104, [GoOnTripped]).
Proof. reflexivity. Qed.

Lemma breaker_accounting_witness :
  let w := mkWorld (set_metrics (mkMetrics 2 0 1 0 1) demo_breaker) 3 [1] in
  nsteps wstep 3 (mkWorld demo_breaker 0 []) w ∧
  Executions (metrics (w_cb w)) =
    u32 (Successes (metrics (w_cb w)) + Failures (metrics (w_cb w))
         + Z.of_nat (current_inflight w)) ∧
  Forall (fun g => g ≤ generation (w_cb w)) (w_inflight w) ∧
  (state (w_cb w) = StateTripped → current_inflight w = 0%nat).
Proof.
  assert (nsteps wstep 3 (mkWorld demo_breaker 0 [])
    (mkWorld (set_metrics (mkMetrics 2 0 1 0 1) demo_breaker) 3 [1])) as Hs.
  { eapply nsteps_l; [apply (wstep_begin _ _ 1 1); [lia|reflexivity]|].
    eapply nsteps_l; [apply (wstep_begin _ _ 2 1); [lia|reflexivity]|].
    eapply nsteps_l; [|apply nsteps_O].
    apply (wstep_end _ _ 3 1 () (Some ()) _ [1] []); [lia|reflexivity]. }
  split; [exact Hs|].
  apply (breaker_accounting (fun d => d) demo_config 0 demo_breaker 3 _ demo_New Hs).
  reflexivity.
Defined.

Lemma breaker_edges_witness :
  ∃ cbs, edge (ConsecutiveFailureTripper 1) (ConsecutiveFailureTripper 0)
      demo_breaker (set_metrics (mkMetrics 1 0 0 0 0) demo_breaker) cbs ∧
    spawned (set_metrics (mkMetrics 1 0 0 0 0) demo_breaker)
      = spawned demo_breaker ++ cbs.
Proof.
  apply (breaker_edges 0 _ _ NonNilErrorIsSuccess (mkWorld demo_breaker 0 [])
    (mkWorld (set_metrics (mkMetrics 1 0 0 0 0) demo_breaker) 1 [1])).
  - split; try reflexivity; [apply demo_configured|split; discriminate|constructor].
  - reflexivity.
  - apply (wstep_begin _ _ 1 1); [lia|reflexivity].
Defined.

Lemma breaker_tripped_blocks_witness :
  Execute go_panic () 50 60 demo_tripped
    = Some (((), Some (BreakerError ErrStateTripped)), demo_tripped).
Proof.
  apply (breaker_tripped_blocks (ConsecutiveFailureTripper 1) (ConsecutiveFailureTripper 0)
    NonNilErrorIsSuccess); [apply demo_configured|reflexivity|discriminate].
Defined.

Lemma breaker_recovers_witness :
  ∃ c', run_successes () [(101, 102, ()); (103, 104, ())] demo_tripped = Some c' ∧
    state c' = StateStandby ∧ generation c' = u64 (generation demo_tripped + 2) ∧
    spawned c' = spawned demo_tripped ++ [GoOnStandBy].
Proof.
  apply (breaker_recovers (ConsecutiveFailureTripper 1) (ConsecutiveFailureTripper 0)
    NonNilErrorIsSuccess () [(103, 104, ())] demo_tripped 101 102 ());
    try reflexivity; [apply demo_configured|by split|].
  repeat constructor.
Defined.
