(* ===== verification/GoHeap.v ===== *)
(** * container/heap

    Go's heap works on any type with Len, Less, Swap, Push and Pop.  The
    interface is the class [HeapInterface], with the laws a client's type
    must meet; the algorithms [heap_Push], [heap_Pop], [heap_Remove] are those
    of the Go library, and their specifications are proved from the laws.
    The memory backend's expiry heap is an instance. *)

From S2P Require Import Prelude.

(** ** The interface *)
Class HeapInterface (T A : Type) := {
  h_Len : T → nat;
  h_Less : nat → nat → T → bool;
  h_Swap : nat → nat → T → T;
  h_Push : A → T → T;
  h_Pop : T → option (A * T)
}.
Arguments h_Len {T A _} s.
Arguments h_Less {T A _} i j s.
Arguments h_Swap {T A _} i j s.

(** Swapping two positions of a list. *)
Definition list_swap {A} (i j : nat) (l : list A) : list A :=
  match l !! i, l !! j with
  | Some a, Some b => <[j := a]> (<[i := b]> l)
  | _, _ => l
  end.

(** The laws: the heap is a list of elements, compared by an integer key that
    the operations do not change; [h_inv] is the client's own invariant and
    [h_frame] the rest of its state. *)
Class HeapLaws (T A F : Type) `{HeapInterface T A} := {
  h_elems : T → list A;
  h_frame : T → F;
  h_key : F → A → Z;
  h_inv : T → Prop;
  h_fresh : T → A → Prop;
  h_Len_law : ∀ s, h_Len s = length (h_elems s);
  h_Less_law : ∀ s i j a b,
    h_elems s !! i = Some a → h_elems s !! j = Some b →
    h_Less i j s = Z.ltb (h_key (h_frame s) a) (h_key (h_frame s) b);
  h_Swap_law : ∀ s i j,
    h_inv s → i < length (h_elems s) → j < length (h_elems s) →
    h_elems (h_Swap i j s) = list_swap i j (h_elems s) ∧
    h_frame (h_Swap i j s) = h_frame s ∧ h_inv (h_Swap i j s);
  h_Push_law : ∀ s a,
    h_inv s → h_fresh s a →
    h_elems (h_Push a s) = h_elems s ++ [a] ∧
    h_frame (h_Push a s) = h_frame s ∧ h_inv (h_Push a s);
  h_Pop_law : ∀ s l a,
    h_inv s → h_elems s = l ++ [a] →
    ∃ s', h_Pop s = Some (a, s') ∧ h_elems s' = l ∧
      h_frame s' = h_frame s ∧ h_inv s'
}.

(** ** The algorithms *)
Section algorithms.
Context `{HeapInterface T A}.

(** [up]: the loop over parents; [j] itself is enough fuel. *)
Fixpoint up_loop (fuel j : nat) (s : T) : T :=
  match fuel with
  | 0 => s
  | S fuel =>
      let i := (j - 1) / 2 in
      if (i =? j) || negb (h_Less j i s) then s
      else up_loop fuel i (h_Swap i j s)
  end.
Definition heap_up (j : nat) (s : T) : T := up_loop (S j) j s.

(** [down]: the loop over smaller children up to [n]; [n] is enough fuel.  It
    returns the final position. *)
Fixpoint down_loop (fuel i n : nat) (s : T) : nat * T :=
  match fuel with
  | 0 => (i, s)
  | S fuel =>
      let j1 := 2 * i + 1 in
      if n <=? j1 then (i, s) else
      let j2 := j1 + 1 in
      let j := if (j2 <? n) && h_Less j2 j1 s then j2 else j1 in
      if negb (h_Less j i s) then (i, s)
      else down_loop fuel j n (h_Swap i j s)
  end.
Definition heap_down (i0 n : nat) (s : T) : bool * T :=
  let '(i, s) := down_loop n i0 n s in (i0 <? i, s).

Definition heap_Push (x : A) (s : T) : T :=
  let s := h_Push x s in heap_up (h_Len s - 1) s.

Definition heap_Pop (s : T) : option (A * T) :=
  let n := h_Len s - 1 in
  let s := h_Swap 0 n s in
  let s := (heap_down 0 n s).2 in
  h_Pop s.

Definition heap_Remove (i : nat) (s : T) : option (A * T) :=
  let n := h_Len s - 1 in
  let s :=
    if n =? i then s else
    let s := h_Swap i n s in
    let '(moved, s) := heap_down i n s in
    if moved then s else heap_up i s in
  h_Pop s.
End algorithms.

(** ** Keys and the heap order *)
Definition parent (i : nat) : nat := (i - 1) / 2.

Lemma parent_lt i : 0 < i → parent i < i.
Proof. intros. unfold parent. apply Nat.Div0.div_lt_upper_bound. lia. Qed.

Lemma parent_children i m : 0 < m → parent m = i ↔ m = 2 * i + 1 ∨ m = 2 * i + 2.
Proof.
  unfold parent. intros Hm. pose proof (Nat.div_mod_eq (m - 1) 2).
  pose proof (Nat.mod_upper_bound (m - 1) 2 ltac:(lia)). lia.
Qed.

(** The key function of a list of keys: position to key. *)
Definition key_at (ks : list Z) (i : nat) : Z := nth i ks 0%Z.

(** The first [n] keys are in heap order, except on the edges [except]. *)
Definition heap_except (ks : list Z) (n : nat) (except : nat → Prop) : Prop :=
  ∀ m, 0 < m → m < n → ¬ except m → (key_at ks (parent m) ≤ key_at ks m)%Z.

Definition heap_ordered (ks : list Z) (n : nat) : Prop :=
  heap_except ks n (fun _ => False).

(** Position [i] holds an arbitrary key in an otherwise ordered heap. *)
Definition broken_at (ks : list Z) (n i : nat) : Prop :=
  heap_except ks n (fun m => m = i ∨ parent m = i) ∧
  ∀ m, 0 < m → m < n → parent m = i → 0 < i → (key_at ks (parent i) ≤ key_at ks m)%Z.

(** The children of [i] are not below it. *)
Definition children_ok (ks : list Z) (n i : nat) : Prop :=
  ∀ m, 0 < m → m < n → parent m = i → (key_at ks i ≤ key_at ks m)%Z.

Lemma broken_heap ks n i :
  broken_at ks n i → children_ok ks n i →
  (0 < i → i < n → (key_at ks (parent i) ≤ key_at ks i)%Z) →
  heap_ordered ks n.
Proof.
  intros [He _] Hc Hi m H0 Hm _.
  destruct (decide (m = i)) as [->|]; [by apply Hi|].
  destruct (decide (parent m = i)) as [Hp|].
  - rewrite Hp. by apply (Hc m).
  - apply (He m); tauto.
Qed.

Lemma heap_broken ks n i : heap_ordered ks n → broken_at ks n i.
Proof.
  intros Hh. split; [intros m H0 Hm _; apply (Hh m); tauto|].
  intros m H0 Hm Hp Hi. etrans.
  - apply (Hh i Hi); [pose proof (parent_lt m H0); lia|tauto].
  - rewrite <- Hp at 1. apply (Hh m); tauto.
Qed.

(** Changing the key at [i] breaks the heap at [i] only. *)
Lemma broken_change ks ks' n i :
  (∀ m, m ≠ i → m < n → key_at ks' m = key_at ks m) →
  broken_at ks n i → broken_at ks' n i.
Proof.
  intros Heq [He Hg]. split.
  - intros m H0 Hm Hx. pose proof (parent_lt m H0).
    rewrite !Heq by (try lia; tauto). by apply (He m).
  - intros m H0 Hm Hp Hi. pose proof (parent_lt m H0). pose proof (parent_lt i Hi).
    rewrite !Heq by lia. by apply (Hg m).
Qed.

(** The root of a heap has the least key. *)
Lemma heap_root_least ks n i :
  heap_ordered ks n → i < n → (key_at ks 0 ≤ key_at ks i)%Z.
Proof.
  intros Hh. induction i as [i IH] using lt_wf_ind. intros Hi.
  destruct (decide (i = 0)) as [->|Hne]; [done|].
  etrans; [apply (IH (parent i)); pose proof (parent_lt i); lia|].
  apply Hh; [lia|done|tauto].
Qed.

(** ** Swapping *)
Lemma list_swap_lookup {A} (l : list A) i j m :
  i < length l → j < length l →
  list_swap i j l !! m = if decide (m = j) then l !! i
                         else if decide (m = i) then l !! j else l !! m.
Proof.
  intros Hi Hj. unfold list_swap.
  destruct (lookup_lt_is_Some_2 l i Hi) as [a Ha].
  destruct (lookup_lt_is_Some_2 l j Hj) as [b Hb]. rewrite Ha, Hb.
  destruct (decide (m = j)) as [->|].
  - rewrite list_lookup_insert_eq; [done|]. by rewrite length_insert.
  - rewrite list_lookup_insert_ne by done.
    destruct (decide (m = i)) as [->|]; [by rewrite list_lookup_insert_eq|].
    by rewrite list_lookup_insert_ne.
Qed.

Lemma list_swap_length {A} (l : list A) i j : length (list_swap i j l) = length l.
Proof. unfold list_swap. repeat case_match; by rewrite ?length_insert. Qed.

Lemma list_swap_fmap {A B} (f : A → B) (l : list A) i j :
  f <$> list_swap i j l = list_swap i j (f <$> l).
Proof.
  unfold list_swap. rewrite !list_lookup_fmap.
  destruct (l !! i), (l !! j); simpl; try done. by rewrite !list_fmap_insert.
Qed.

Lemma list_swap_Permutation {A} (l : list A) i j :
  i < length l → j < length l → list_swap i j l ≡ₚ l.
Proof.
  intros Hi Hj. apply Permutation_inj. split; [apply list_swap_length|].
  exists (fun m => if decide (m = j) then i else if decide (m = i) then j else m).
  split.
  - intros m1 m2. repeat case_decide; congruence.
  - intros m. rewrite list_swap_lookup by done. by repeat case_decide.
Qed.

Lemma key_at_swap ks i j m :
  i < length ks → j < length ks →
  key_at (list_swap i j ks) m =
    if decide (m = j) then key_at ks i
    else if decide (m = i) then key_at ks j else key_at ks m.
Proof.
  intros Hi Hj. unfold key_at. rewrite !nth_lookup, list_swap_lookup by done.
  by repeat case_decide.
Qed.

(** ** Correctness *)
Section correctness.
Context `{HL : HeapLaws T A F}.
Implicit Types s : T.

Definition keys_of s : list Z := h_key (h_frame s) <$> h_elems s.

(** What sifting within the first [n] positions may do to the state. *)
Record sifted (n : nat) s s' : Prop := {
  sift_inv : h_inv s';
  sift_frame : h_frame s' = h_frame s;
  sift_perm : h_elems s' ≡ₚ h_elems s;
  sift_tail : ∀ m, n ≤ m → h_elems s' !! m = h_elems s !! m
}.

Lemma sifted_refl n s : h_inv s → sifted n s s.
Proof. by split. Qed.

Lemma sifted_trans n s1 s2 s3 : sifted n s1 s2 → sifted n s2 s3 → sifted n s1 s3.
Proof.
  intros [? Hf ? Ht] [? Hf' ? Ht']. split; [done|congruence|by etrans|].
  intros m Hm. by rewrite Ht', Ht.
Qed.

Lemma sifted_length n s s' : sifted n s s' → length (h_elems s') = length (h_elems s).
Proof. intros []. by apply Permutation_length. Qed.

Lemma swap_sifted n s i j :
  h_inv s → i < n → j < n → n ≤ length (h_elems s) → sifted n s (h_Swap i j s).
Proof.
  intros Hs Hi Hj Hn.
  destruct (h_Swap_law s i j Hs ltac:(lia) ltac:(lia)) as (He & Hf & Hv).
  split; [done..| |].
  - rewrite He. apply list_swap_Permutation; lia.
  - intros m Hm. rewrite He, list_swap_lookup by lia. repeat case_decide; [lia..|done].
Qed.

Lemma swap_keys s i j :
  h_inv s → i < length (h_elems s) → j < length (h_elems s) →
  ∀ m, key_at (keys_of (h_Swap i j s)) m =
    if decide (m = j) then key_at (keys_of s) i
    else if decide (m = i) then key_at (keys_of s) j else key_at (keys_of s) m.
Proof.
  intros Hs Hi Hj m. destruct (h_Swap_law s i j Hs Hi Hj) as (He & Hf & _).
  unfold keys_of. rewrite He, Hf, list_swap_fmap.
  apply key_at_swap; by rewrite length_fmap.
Qed.

Lemma less_keys s i j :
  i < length (h_elems s) → j < length (h_elems s) →
  h_Less i j s = Z.ltb (key_at (keys_of s) i) (key_at (keys_of s) j).
Proof.
  intros Hi Hj.
  destruct (lookup_lt_is_Some_2 _ _ Hi) as [a Ha].
  destruct (lookup_lt_is_Some_2 _ _ Hj) as [b Hb].
  rewrite (h_Less_law s i j a b) by done. unfold key_at, keys_of.
  by rewrite !nth_lookup, !list_lookup_fmap, Ha, Hb.
Qed.

(** [up] repairs a heap whose only bad edge is the one above [j]. *)
Lemma up_loop_spec fuel n j s :
  h_inv s → n ≤ length (h_elems s) → j < n → j < fuel →
  broken_at (keys_of s) n j → children_ok (keys_of s) n j →
  sifted n s (up_loop fuel j s) ∧ heap_ordered (keys_of (up_loop fuel j s)) n.
Proof.
  revert j s. induction fuel as [|fuel IH]; intros j s Hs Hn Hj Hf Hb Hc; [lia|].
  cbn [up_loop]. fold (parent j).
  destruct (decide (j = 0)) as [->|Hj0].
  { simpl. split; [by apply sifted_refl|]. apply (broken_heap _ _ 0 Hb Hc). lia. }
  pose proof (parent_lt j ltac:(lia)) as Hp.
  rewrite (proj2 (Nat.eqb_neq _ _)) by lia. simpl.
  rewrite less_keys by lia. case_test; to_prop.
  { split; [by apply sifted_refl|]. by apply (broken_heap _ _ j Hb Hc). }
  pose proof (swap_sifted n s (parent j) j Hs ltac:(lia) Hj Hn) as Hsw.
  pose proof (swap_keys s (parent j) j Hs ltac:(lia) ltac:(lia)) as Hk.
  destruct (IH (parent j) (h_Swap (parent j) j s)) as [Hs' Hh]; try lia.
  - apply Hsw.
  - by rewrite (sifted_length _ _ _ Hsw).
  - destruct Hb as [He Hg]. split.
    + intros m H0 Hm Hx. rewrite !Hk. pose proof (parent_lt m H0).
      destruct (decide (m = j)) as [->|]; [tauto|].
      destruct (decide (parent m = j)).
      * rewrite decide_False by tauto. apply Hg; [lia..|done|lia].
      * rewrite (decide_False (P:=parent m = parent j)) by tauto.
        rewrite (decide_False (P:=m = parent j)) by tauto. apply (He m); tauto.
    + intros m H0 Hm Hpm Hi. rewrite !Hk.
      pose proof (parent_lt (parent j) Hi) as Hpp.
      rewrite !(decide_False (P:=parent (parent j) = _)) by lia.
      assert (key_at (keys_of s) (parent (parent j)) ≤ key_at (keys_of s) (parent j))%Z
        by (apply (He (parent j)); [lia..|intros [|]; lia]).
      destruct (decide (m = j)) as [->|]; [done|].
      rewrite decide_False by (pose proof (parent_lt m H0); lia).
      etrans; [done|]. rewrite <- Hpm. apply (He m); [lia..|].
      intros [|]; [done|]. lia.
  - intros m H0 Hm Hpm. rewrite !Hk.
    pose proof (parent_lt m H0).
    rewrite (decide_False (P:=parent j = j)), decide_True by lia.
    destruct (decide (m = j)); [lia|]. rewrite decide_False by lia.
    destruct Hb as [He Hg].
    etrans; [apply Z.lt_le_incl; eassumption|]. rewrite <- Hpm. apply (He m); [lia..|].
    intros [|]; [done|]. lia.
  - split; [by eapply sifted_trans|done].
Qed.

(** One turn of [down]: moving the key at [i] to its least child [c] leaves
    the heap broken at [c] only. *)
Lemma swap_down_broken n s i c :
  h_inv s → n ≤ length (h_elems s) → 0 < c → c < n → parent c = i →
  (∀ m, 0 < m → m < n → parent m = i →
     (key_at (keys_of s) c ≤ key_at (keys_of s) m)%Z) →
  (key_at (keys_of s) c < key_at (keys_of s) i)%Z →
  broken_at (keys_of s) n i →
  broken_at (keys_of (h_Swap i c s)) n c ∧
  (key_at (keys_of (h_Swap i c s)) (parent c) ≤ key_at (keys_of (h_Swap i c s)) c)%Z.
Proof.
  intros Hs Hn Hc0 Hc Hp Hleast Hlt [He Hg].
  pose proof (parent_lt c Hc0) as Hpc. rewrite Hp in Hpc.
  pose proof (swap_keys s i c Hs ltac:(lia) ltac:(lia)) as Hk.
  split; [split|].
  - intros m H0 Hm Hx. rewrite !Hk. pose proof (parent_lt m H0).
    rewrite (decide_False (P:=m = c)), (decide_False (P:=parent m = c)) by tauto.
    destruct (decide (parent m = i)) as [Hpm|].
    + rewrite decide_False by lia. by apply Hleast.
    + destruct (decide (m = i)) as [->|]; [by apply (Hg c)|].
      apply (He m); tauto.
  - intros m H0 Hm Hpm _. rewrite Hp, !Hk. pose proof (parent_lt m H0).
    rewrite (decide_False (P:=i = c)), (decide_True (P:=i = i)) by lia.
    rewrite !decide_False by lia. rewrite <- Hpm. apply (He m); [lia..|].
    intros [|]; lia.
  - rewrite Hp, !Hk. rewrite (decide_False (P:=i = c)) by lia.
    rewrite !decide_True by done. lia.
Qed.

Lemma down_loop_spec fuel n i s i' s' :
  h_inv s → n ≤ length (h_elems s) → i < n → n ≤ fuel + i →
  broken_at (keys_of s) n i →
  down_loop fuel i n s = (i', s') →
  sifted n s s' ∧ i ≤ i' ∧
  (i' = i → s' = s ∧ children_ok (keys_of s) n i) ∧
  (i < i' ∨ (0 < i → (key_at (keys_of s) (parent i) ≤ key_at (keys_of s) i)%Z) →
    heap_ordered (keys_of s') n).
Proof.
  revert i s. induction fuel as [|fuel IH]; intros i s Hs Hn Hi Hf Hb; [lia|].
  assert (∀ Hch : children_ok (keys_of s) n i,
    (i, s) = (i', s') →
    sifted n s s' ∧ i ≤ i' ∧ (i' = i → s' = s ∧ children_ok (keys_of s) n i) ∧
    (i < i' ∨ (0 < i → (key_at (keys_of s) (parent i) ≤ key_at (keys_of s) i)%Z) →
      heap_ordered (keys_of s') n)) as Hstop.
  { intros Hch [= <- <-]. split_and!; [by apply sifted_refl|done|done|].
    intros [|Hedge]; [lia|]. apply (broken_heap _ _ i Hb Hch). tauto. }
  cbn [down_loop]. cbv zeta. case_test; to_prop.
  { apply Hstop. intros m H0 Hm Hpm. apply parent_children in Hpm; lia. }
  set (c := if (2 * i + 1 + 1 <? n) && h_Less (2 * i + 1 + 1) (2 * i + 1) s
            then 2 * i + 1 + 1 else 2 * i + 1).
  assert (0 < c ∧ c < n ∧ parent c = i ∧ ∀ m, 0 < m → m < n → parent m = i →
    (key_at (keys_of s) c ≤ key_at (keys_of s) m)%Z) as (Hc0 & Hcn & Hcp & Hleast).
  { unfold c. destruct (2 * i + 1 + 1 <? n) eqn:H2; cbn [andb]; to_prop.
    - rewrite less_keys by lia. case_test; to_prop;
        (split_and!; [lia|lia|apply parent_children; lia|]);
        intros m H0 Hm Hpm; apply parent_children in Hpm as [->| ->]; try lia;
        replace (2 * i + 2) with (2 * i + 1 + 1) by lia; lia.
    - split_and!; [lia|lia|apply parent_children; lia|].
      intros m H0 Hm Hpm; apply parent_children in Hpm as [->| ->]; lia. }
  rewrite less_keys by lia. case_test; to_prop.
  { apply Hstop. intros m H0 Hm Hpm. etrans; [done|by apply Hleast]. }
  intros Hd. pose proof (parent_lt c Hc0) as Hic. rewrite Hcp in Hic.
  pose proof (swap_sifted n s i c Hs Hi Hcn Hn) as Hsw.
  destruct (swap_down_broken n s i c) as [Hb' Hedge]; try done.
  destruct (IH c (h_Swap i c s)) as (Hsf & Hle & _ & Hheap); try done; try lia.
  - apply Hsw.
  - by rewrite (sifted_length _ _ _ Hsw).
  - split_and!; [by eapply sifted_trans|lia|lia|]. intros _. apply Hheap. by right.
Qed.

(** ** Specifications of the operations *)

Lemma heap_Push_spec s a :
  h_inv s → h_fresh s a → heap_ordered (keys_of s) (length (h_elems s)) →
  h_inv (heap_Push a s) ∧ h_frame (heap_Push a s) = h_frame s ∧
  h_elems (heap_Push a s) ≡ₚ a :: h_elems s ∧
  heap_ordered (keys_of (heap_Push a s)) (length (h_elems (heap_Push a s))).
Proof.
  intros Hs Hfr Hh. destruct (h_Push_law s a Hs Hfr) as (He & Hf & Hv).
  unfold heap_Push, heap_up. set (s1 := h_Push a s) in *. cbv zeta.
  set (n := length (h_elems s)) in *.
  assert (length (h_elems s1) = S n) as Hl.
  { rewrite He, length_app. simpl. lia. }
  rewrite h_Len_law, Hl, Nat.sub_succ, Nat.sub_0_r.
  assert (∀ m, m < n → key_at (keys_of s1) m = key_at (keys_of s) m) as Hk.
  { intros m Hm. unfold key_at, keys_of. rewrite Hf, He, fmap_app, app_nth1; [done|].
    by rewrite length_fmap. }
  assert (broken_at (keys_of s1) (S n) n) as Hb.
  { split.
    - intros m H0 Hm Hx. pose proof (parent_lt m H0).
      rewrite !Hk by lia. apply (Hh m); [lia..|tauto].
    - intros m H0 Hm Hpm. pose proof (parent_lt m H0). lia. }
  destruct (up_loop_spec (S n) (S n) n s1) as [Hsf Hh']; try done; try lia.
  - intros m H0 Hm Hpm. pose proof (parent_lt m H0). lia.
  - split_and!; [apply Hsf|by rewrite (sift_frame _ _ _ Hsf)| |].
    + rewrite (sift_perm _ _ _ Hsf), He. by rewrite Permutation_app_comm.
    + by rewrite (sifted_length _ _ _ Hsf), Hl.
Qed.

(** Dropping the last position of a state whose first [n] are a heap. *)
Lemma pop_last_spec n s0 s a :
  length (h_elems s0) = S n → h_inv s → h_frame s = h_frame s0 →
  h_elems s ≡ₚ h_elems s0 → h_elems s !! n = Some a →
  heap_ordered (keys_of s) n →
  ∃ s', h_Pop s = Some (a, s') ∧ h_inv s' ∧ h_frame s' = h_frame s0 ∧
    h_elems s0 ≡ₚ a :: h_elems s' ∧
    heap_ordered (keys_of s') (length (h_elems s')).
Proof.
  intros Hl Hs Hf Hp Ha Hh.
  assert (length (h_elems s) = S n) as Hl' by (by rewrite (Permutation_length Hp)).
  assert (h_elems s = take n (h_elems s) ++ [a]) as Hsplit.
  { rewrite <- (take_drop n (h_elems s)) at 1. f_equal.
    rewrite (drop_S _ a) by done. by rewrite drop_ge by lia. }
  destruct (h_Pop_law s _ a Hs Hsplit) as (s' & Hpop & He' & Hf' & Hs').
  assert (length (h_elems s') = n) as Hn by (rewrite He', length_take; lia).
  exists s'. split_and!; [done|done|by rewrite Hf'| |].
  - rewrite He', <- Hp. rewrite Hsplit at 1. by rewrite Permutation_app_comm.
  - rewrite Hn. intros m H0 Hm _. pose proof (parent_lt m H0).
    assert (∀ x, x < n → key_at (keys_of s') x = key_at (keys_of s) x) as Hk.
    { intros x Hx. unfold key_at, keys_of. rewrite Hf', He', !nth_lookup, !list_lookup_fmap.
      by rewrite lookup_take_lt. }
    rewrite !Hk by lia. apply (Hh m); tauto.
Qed.

(** Swapping position [i] with the last one: the element is out of the first
    [n] positions, which are a heap broken at [i] at most. *)
Lemma swapped_out s i n a :
  h_inv s → length (h_elems s) = S n → i < length (h_elems s) →
  heap_ordered (keys_of s) (length (h_elems s)) → h_elems s !! i = Some a →
  h_elems (h_Swap i n s) !! n = Some a ∧ broken_at (keys_of (h_Swap i n s)) n i.
Proof.
  intros Hs Hl Hlt Hh Hi. split.
  - destruct (h_Swap_law s i n Hs ltac:(lia) ltac:(lia)) as (He & _ & _).
    rewrite He, list_swap_lookup by lia. by rewrite decide_True.
  - eapply (broken_change (keys_of s)).
    + intros m Hm Hmn. rewrite swap_keys by (done || lia).
      by rewrite !decide_False by lia.
    + apply heap_broken. intros m H0 Hm _. apply (Hh m); [lia..|tauto].
Qed.

Lemma heap_Remove_spec s i a :
  h_inv s → heap_ordered (keys_of s) (length (h_elems s)) →
  h_elems s !! i = Some a →
  ∃ s', heap_Remove i s = Some (a, s') ∧ h_inv s' ∧ h_frame s' = h_frame s ∧
    h_elems s ≡ₚ a :: h_elems s' ∧
    heap_ordered (keys_of s') (length (h_elems s')).
Proof.
  intros Hs Hh Hi. pose proof (lookup_lt_Some _ _ _ Hi) as Hlt.
  unfold heap_Remove. rewrite h_Len_law. cbv zeta.
  destruct (h_elems s) as [|e0 es] eqn:Hes; [simpl in Hlt; lia|].
  rewrite <- Hes in *. set (n := length (h_elems s) - 1).
  assert (length (h_elems s) = S n) as Hl by (unfold n; lia).
  destruct (n =? i) eqn:Hni; to_prop.
  { apply (pop_last_spec n s s a); try done; [by rewrite Hni|].
    intros m H0 Hm _. apply (Hh m); [lia..|tauto]. }
  pose proof (swap_sifted (S n) s i n Hs ltac:(lia) ltac:(lia) ltac:(lia)) as Hsw.
  pose proof (swapped_out s i n a Hs Hl Hlt Hh Hi) as [Ha Hb].
  set (s1 := h_Swap i n s) in *.
  unfold heap_down. destruct (down_loop n i n s1) as [i' s2] eqn:Hd.
  destruct (down_loop_spec n n i s1 i' s2) as (Hsf & Hle & Hstay & Hmove); try done;
    [apply Hsw|rewrite (sifted_length _ _ _ Hsw); lia|lia..|].
  assert (∀ s3, sifted n s2 s3 → heap_ordered (keys_of s3) n →
    ∃ s', h_Pop s3 = Some (a, s') ∧ h_inv s' ∧ h_frame s' = h_frame s ∧
    h_elems s ≡ₚ a :: h_elems s' ∧
    heap_ordered (keys_of s') (length (h_elems s'))) as Hfin.
  { intros s3 H3 Hh3. pose proof (sifted_trans _ _ _ _ Hsf H3) as H13.
    apply (pop_last_spec n s s3 a); try done; [apply H3| | |].
    - by rewrite (sift_frame _ _ _ H13), (sift_frame _ _ _ Hsw).
    - by rewrite (sift_perm _ _ _ H13), (sift_perm _ _ _ Hsw).
    - by rewrite (sift_tail _ _ _ H13). }
  case_test; to_prop.
  - apply Hfin; [apply sifted_refl, Hsf|]. apply Hmove. by left.
  - destruct (Hstay ltac:(lia)) as [-> Hch].
    destruct (up_loop_spec (S i) n i s1) as [Hup Hhup]; try done; try lia.
    + apply Hsw.
    + rewrite (sifted_length _ _ _ Hsw); lia.
    + by apply Hfin.
Qed.

Lemma heap_Pop_spec s a :
  h_inv s → heap_ordered (keys_of s) (length (h_elems s)) →
  h_elems s !! 0 = Some a →
  ∃ s', heap_Pop s = Some (a, s') ∧ h_inv s' ∧ h_frame s' = h_frame s ∧
    h_elems s ≡ₚ a :: h_elems s' ∧
    heap_ordered (keys_of s') (length (h_elems s')).
Proof.
  intros Hs Hh H0. pose proof (lookup_lt_Some _ _ _ H0) as Hlt.
  unfold heap_Pop. rewrite h_Len_law. cbv zeta.
  set (n := length (h_elems s) - 1).
  assert (length (h_elems s) = S n) as Hl by (unfold n; lia).
  pose proof (swap_sifted (S n) s 0 n Hs ltac:(lia) ltac:(lia) ltac:(lia)) as Hsw.
  pose proof (swapped_out s 0 n a Hs Hl ltac:(lia) Hh H0) as [Ha Hb].
  set (s1 := h_Swap 0 n s) in *.
  assert (sifted n s1 (heap_down 0 n s1).2 ∧
    heap_ordered (keys_of (heap_down 0 n s1).2) n) as [Hsf Hhp].
  { unfold heap_down. destruct (down_loop n 0 n s1) as [i' s2] eqn:Hd. cbn [snd].
    destruct (decide (n = 0)) as [Hn|Hn].
    { rewrite Hn in Hd |- *. injection Hd as <- <-.
      split; [apply sifted_refl, Hsw|intros m; lia]. }
    destruct (down_loop_spec n n 0 s1 i' s2) as (Hsf & _ & _ & Hmove); try done;
      [apply Hsw|rewrite (sifted_length _ _ _ Hsw); lia|lia..|].
    split; [done|]. apply Hmove. right. lia. }
  apply (pop_last_spec n s _ a); try done; [apply Hsf| | |].
  - by rewrite (sift_frame _ _ _ Hsf), (sift_frame _ _ _ Hsw).
  - by rewrite (sift_perm _ _ _ Hsf), (sift_perm _ _ _ Hsw).
  - by rewrite (sift_tail _ _ _ Hsf).
Qed.
End correctness.
