(* ===== verification/GoSlice.v ===== *)
(** * Go slices

    A slice is a window of a backing array, which other slices may share:
    [append] writes in place while the capacity allows it. An array is kept as
    the elements written to it so far; the capacity is that of the slices. *)

From S2P Require Import Prelude.

Record slice := MkSlice { sl_array : nat; sl_off : nat; sl_len : nat; sl_cap : nat }.
Definition nil_slice : slice := MkSlice 0 0 0 0.

(** The capacity given to the array that replaces one that is full. *)
Class GoGrow := { go_grow : nat → nat → nat }.
Class GoGrowLaws `{GoGrow} : Prop := { go_grow_enough : ∀ old needed, needed ≤ go_grow old needed }.

Section slices.
Context {A : Type} `{GoGrow}.

Definition write (i : nat) (xs : list A) (a : list A) : list A := (take i a ++ xs ++ drop (i + length xs) a)%list.
Definition array (h : list (list A)) (s : slice) : list A := default [] (h !! sl_array s).
Definition elems (h : list (list A)) (s : slice) : list A := take (sl_len s) (drop (sl_off s) (array h s)).
(** [s[i:]]. *)
Definition slice_from (s : slice) (i : nat) : slice :=
  MkSlice (sl_array s) (sl_off s + i) (sl_len s - i) (sl_cap s - i).

(** [append(s, xs...)]. *)
Definition append (s : slice) (xs : list A) (h : list (list A)) : slice * list (list A) :=
  if (sl_len s + length xs <=? sl_cap s)%nat then
    (MkSlice (sl_array s) (sl_off s) (sl_len s + length xs) (sl_cap s),
     alter (write (sl_off s + sl_len s) xs) (sl_array s) h)
  else
    let a := (elems h s ++ xs)%list in
    (MkSlice (length h) 0 (length a) (go_grow (sl_cap s) (length a)), (h ++ [a])%list).
(** A loop that appends one element at a time. *)
Fixpoint append_each (s : slice) (xs : list A) (h : list (list A)) : slice * list (list A) :=
  match xs with
  | [] => (s, h)
  | x :: xs => let '(s, h) := append s [x] h in append_each s xs h
  end.

(** A slice of elements that were written. *)
Definition slice_ok (h : list (list A)) (s : slice) : Prop :=
  sl_len s ≤ sl_cap s ∧ sl_off s + sl_len s ≤ length (array h s) ∧ (sl_cap s = 0 ∨ sl_array s < length h).
(** What writes past the end of [s] leave alone. *)
Definition before (s t : slice) : Prop := sl_array t = sl_array s → sl_off t + sl_len t ≤ sl_off s + sl_len s.

Lemma nil_slice_ok h : slice_ok h nil_slice.
Proof. unfold slice_ok, nil_slice. cbn. split_and!; [lia|lia|by left]. Qed.
Lemma elems_length h s : slice_ok h s → length (elems h s) = sl_len s.
Proof. intros (_ & ? & _). unfold elems. rewrite length_take, length_drop. lia. Qed.
Lemma elems_empty h s : sl_len s = 0 → elems h s = [].
Proof. unfold elems. by intros ->. Qed.

Lemma write_take i xs a n : i ≤ length a → n ≤ i → take n (write i xs a) = take n a.
Proof. intros Hi Hn. unfold write. rewrite take_app_le by (rewrite length_take; lia). rewrite take_take. f_equal. lia. Qed.
Lemma write_length i xs a : i ≤ length a → length (write i xs a) = (i + length xs) `max` length a.
Proof. intros Hi. unfold write. rewrite !length_app, length_take, length_drop. lia. Qed.
(** The elements of a window do not depend on what follows it. *)
Lemma window_eq (a b : list A) off len : take (off + len) a = take (off + len) b →
  take len (drop off a) = take len (drop off b).
Proof. intros E. by rewrite !take_drop_commute, E. Qed.

Lemma array_alter h s t f : array (alter f (sl_array s) h) t =
  if decide (sl_array t = sl_array s ∧ sl_array s < length h) then f (array h t) else array h t.
Proof.
  unfold array. destruct (decide (sl_array t = sl_array s)) as [E|E].
  - rewrite E. destruct (decide _) as [[_ Hl]|Hn].
    + destruct (lookup_lt_is_Some_2 _ _ Hl) as [a Ha]. by rewrite list_lookup_alter_eq, Ha.
    + rewrite lookup_ge_None_2 by (rewrite length_alter; tauto || lia). by rewrite lookup_ge_None_2 by lia.
  - rewrite list_lookup_alter_ne by done. by rewrite decide_False by tauto.
Qed.

Context `{!GoGrowLaws}.

(** [append] gives a slice of the old elements and the new ones, and changes no
    other slice but past the end of [s]. *)
Lemma append_spec s xs h : slice_ok h s →
  let '(s', h') := append s xs h in
  slice_ok h' s' ∧ elems h' s' = (elems h s ++ xs)%list ∧
  ∀ t, slice_ok h t → before s t → slice_ok h' t ∧ elems h' t = elems h t.
Proof.
  intros (Hl & Ho & Ha). unfold append. destruct (Nat.leb_spec (sl_len s + length xs) (sl_cap s)) as [Hc|Hc].
  - destruct (decide (sl_cap s = 0)) as [Hz|Hz].
    { assert (xs = []) as -> by (destruct xs; cbn in Hc; [done|lia]).
      assert (∀ t, array (alter (write (sl_off s + sl_len s) []) (sl_array s) h) t = array h t) as Hid.
      { intros t. rewrite array_alter. destruct (decide _) as [[_ _]|]; [|done]. unfold write. cbn [app length].
        by rewrite Nat.add_0_r, take_drop. }
      cbn [length]. rewrite Nat.add_0_r, app_nil_r. unfold slice_ok, elems. rewrite Hid. cbn. split_and!; [lia| |by left|done|].
      { exact Ho. }
      intros t (? & ? & ?) _. rewrite Hid, length_alter. done. }
    assert (sl_array s < length h) as Hs by (destruct Ha; [done|lia]).
    unfold slice_ok, elems. rewrite length_alter. cbn [sl_array sl_off sl_len sl_cap].
    rewrite (array_alter _ s (MkSlice _ _ _ _)). rewrite decide_True by done. cbn [sl_array].
    change (array h (MkSlice (sl_array s) _ _ _)) with (array h s).
    split_and!; [done|rewrite write_length; lia|by right| |].
    + unfold write. rewrite app_assoc, drop_app_le by (rewrite length_app, length_take; lia).
      rewrite drop_app_le by (rewrite length_take; lia). rewrite skipn_firstn_comm.
      replace (sl_off s + sl_len s - sl_off s) with (sl_len s) by lia.
      rewrite take_app_length' by (rewrite length_app, length_take, length_drop; lia). done.
    + intros t (? & Ht & ?) Hb. rewrite array_alter. destruct (decide _) as [[E _]|]; [|done].
      specialize (Hb E). assert (array h t = array h s) as Es by (unfold array; by rewrite E).
      rewrite Es in *. split_and!; [done|rewrite write_length; lia|done|].
      apply window_eq. apply write_take; lia.
  - assert (length (elems h s) = sl_len s) as He by (apply elems_length; by unfold slice_ok).
    assert (∀ t, sl_array t < length h → array (h ++ [elems h s ++ xs])%list t = array h t) as Hid.
    { intros t Ht. unfold array. by rewrite lookup_app_l. }
    unfold slice_ok. cbn [sl_array sl_off sl_len sl_cap].
    assert (array (h ++ [elems h s ++ xs])%list (MkSlice (length h) 0 (length (elems h s ++ xs))
      (go_grow (sl_cap s) (length (elems h s ++ xs)))) = (elems h s ++ xs)%list) as Hn.
    { unfold array. cbn. by rewrite lookup_app_r, Nat.sub_diag by lia. }
    rewrite Hn. split_and!; [apply go_grow_enough|cbn; lia|right; rewrite length_app; cbn; lia| |].
    + unfold elems at 1. rewrite Hn. cbn. by rewrite take_ge.
    + intros t (? & Ht & Htc) _. rewrite length_app. destruct Htc as [Hz|Hlt].
      * assert (sl_len t = 0) as Hz' by lia. rewrite !(elems_empty _ t Hz'). split_and!; [done| |by left|done].
        unfold array in *. destruct (decide (sl_array t < length h)); [by rewrite lookup_app_l|].
        rewrite (lookup_ge_None_2 h) in Ht by lia. cbn in Ht. lia.
      * unfold elems. rewrite Hid by done. split_and!; [done..|cbn; lia|done].
Qed.

(** One operation on [s] that behaves as [append]: what is proved of every
    sequence of appends to one slice. *)
Definition appended (s : slice) (h : list (list A)) (xs : list A) (s' : slice) (h' : list (list A)) : Prop :=
  slice_ok h' s' ∧ elems h' s' = (elems h s ++ xs)%list ∧
  ∀ t, slice_ok h t → before s t → slice_ok h' t ∧ elems h' t = elems h t ∧ before s' t.

Lemma append_appended s xs h : slice_ok h s → appended s h xs (append s xs h).1 (append s xs h).2.
Proof.
  intros Hs. pose proof (append_spec s xs h Hs) as Ha. destruct (append s xs h) as [s' h'] eqn:E. cbn [fst snd].
  destruct Ha as (Hok & He & Hf). split; [done|]. split; [done|]. intros t Ht Hb.
  destruct (Hf t Ht Hb) as [Ht' Het]. split; [done|]. split; [done|].
  unfold append in E. destruct (_ <=? _)%nat; injection E as <- <-.
  - unfold before in *. cbn. intros Hta. specialize (Hb Hta). lia.
  - destruct Ht as (Hl & Ho & [Hz|Hlt]); unfold before; cbn; [|lia]. intros Hta.
    unfold array in Ho. rewrite Hta, lookup_ge_None_2 in Ho by lia. cbn in Ho. lia.
Qed.
Lemma appended_trans s1 h1 xs s2 h2 ys s3 h3 :
  appended s1 h1 xs s2 h2 → appended s2 h2 ys s3 h3 → appended s1 h1 (xs ++ ys)%list s3 h3.
Proof.
  intros (Ha1 & E1 & Hf1) (Ha2 & E2 & Hf2). split; [done|]. split; [by rewrite E2, E1, app_assoc|].
  intros t Ht Hb. destruct (Hf1 t Ht Hb) as (Ht' & E & Hb'). destruct (Hf2 t Ht' Hb') as (? & E' & ?). by rewrite E', E.
Qed.
Lemma appended_nil s h : slice_ok h s → appended s h [] s h.
Proof. intros ?. split; [done|]. split; [by rewrite app_nil_r|]. done. Qed.
Lemma append_each_appended s xs h : slice_ok h s → appended s h xs (append_each s xs h).1 (append_each s xs h).2.
Proof.
  revert s h. induction xs as [|x xs IH]; intros s h Hs; cbn [append_each]; [by apply appended_nil|].
  pose proof (append_appended s [x] h Hs) as H1. destruct (append s [x] h) as [s' h']. cbn [fst snd] in H1.
  apply (appended_trans s h [x] s' h' xs); [exact H1|]. apply IH, (proj1 H1).
Qed.
(** Where the result of appending is: in place, or in a new array. *)
Lemma append_each_where s xs h : let '(s', h') := append_each s xs h in
  length h ≤ length h' ∧
  (sl_array s' = sl_array s ∧ sl_off s' = sl_off s ∨ length h ≤ sl_array s' ∧ sl_off s' = 0).
Proof.
  revert s h. induction xs as [|x xs IH]; intros s h; cbn [append_each]; [lia|].
  unfold append. destruct (_ <=? _)%nat.
  - specialize (IH (MkSlice (sl_array s) (sl_off s) (sl_len s + length [x]) (sl_cap s))
      (alter (write (sl_off s + sl_len s) [x]) (sl_array s) h)).
    destruct (append_each _ _ _) as [s' h']. by rewrite length_alter in IH.
  - match goal with |- context [append_each ?a xs ?b] => specialize (IH a b) end.
    destruct (append_each _ _ _) as [s' h']. rewrite length_app in IH. cbn in IH. lia.
Qed.
(** A window cut at its end. *)
Lemma cut_ok h s n : slice_ok h s → n ≤ sl_len s → slice_ok h (MkSlice (sl_array s) (sl_off s) n (sl_cap s)) ∧
  elems h (MkSlice (sl_array s) (sl_off s) n (sl_cap s)) = take n (elems h s).
Proof.
  intros (Hl & Ho & Ha) Hn. unfold slice_ok, elems, array in *. cbn. split; [split_and!; [lia|lia|done]|].
  rewrite take_take. f_equal. lia.
Qed.
Lemma slice_from_ok h s i : slice_ok h s → i ≤ sl_len s → slice_ok h (slice_from s i) ∧
  elems h (slice_from s i) = drop i (elems h s).
Proof.
  intros (Hl & Ho & Ha) Hi. unfold slice_ok, slice_from, elems, array in *. cbn. split; [split_and!; [lia|lia|]|].
  - destruct Ha; [left; lia|by right].
  - by rewrite skipn_firstn_comm, drop_drop.
Qed.
Lemma elems_lookup h s n : n < sl_len s → elems h s !! n = array h s !! (sl_off s + n).
Proof. intros Hn. unfold elems. by rewrite lookup_take_lt, lookup_drop by done. Qed.
(** Appending within the capacity stays in place. *)
Lemma append_each_in_place s xs h : sl_len s + length xs ≤ sl_cap s →
  (append_each s xs h).1 = MkSlice (sl_array s) (sl_off s) (sl_len s + length xs) (sl_cap s).
Proof.
  revert s h. induction xs as [|x xs IH]; intros s h Hc; cbn [append_each].
  { rewrite Nat.add_0_r. by destruct s. }
  unfold append. cbn [length] in *. rewrite (proj2 (Nat.leb_le _ _)) by lia. rewrite IH; cbn; [|lia]. f_equal. lia.
Qed.
End slices.
