(* ===== verification/Keys.v ===== *)
(** * Backend keys (lib/backend/backend.go, sanitize.go)

    Keys are byte strings in lexicographic order.  This file holds the order,
    the key constructors, [nextKey]/[RangeEnd], pagination keys and the key
    whitelist of the sanitizer. *)

From S2P Require Import Prelude.
Local Open Scope Z_scope.

(** ** Byte strings *)
Abbreviation bytes := (list Z).

Definition is_byte (b : Z) : Prop := 0 ≤ b < 256.
Definition wf_bytes (k : bytes) : Prop := Forall is_byte k.

Definition bytes_of_string (s : string) : bytes :=
  (fun c => Z.of_N (Ascii.N_of_ascii c)) <$> String.list_ascii_of_string s.

(** [bytes.HasPrefix(k, p)]. *)
Fixpoint has_prefix (k p : bytes) : bool :=
  match p, k with
  | [], _ => true
  | _ :: _, [] => false
  | a :: p, b :: k => (a =? b) && has_prefix k p
  end.

(** [bytes.Compare(a, b) < 0]. *)
Fixpoint bytes_ltb (a b : bytes) : bool :=
  match a, b with
  | _, [] => false
  | [], _ :: _ => true
  | x :: a, y :: b => (x <? y) || ((x =? y) && bytes_ltb a b)
  end.

Definition bytes_le (a b : bytes) : Prop := bytes_ltb b a = false.

#[export] Instance bytes_le_dec : RelDecision bytes_le.
Proof. intros a b. unfold bytes_le. apply _. Defined.

Lemma bytes_ltb_irrefl a : bytes_ltb a a = false.
Proof. induction a as [|x a IH]; simpl; [done|]. rewrite Z.ltb_irrefl, Z.eqb_refl. done. Qed.

Lemma bytes_ltb_trans a b c :
  bytes_ltb a b = true → bytes_ltb b c = true → bytes_ltb a c = true.
Proof.
  revert b c. induction a as [|x a IH]; intros [|y b] [|z c]; simpl; try done.
  rewrite !orb_true_iff, !andb_true_iff, !Z.ltb_lt, !Z.eqb_eq.
  intros [|[-> ?]] [|[-> ?]]; try (left; lia). right. split; [done|]. by eapply IH.
Qed.

Lemma bytes_lt_total a b : bytes_ltb a b = true ∨ a = b ∨ bytes_ltb b a = true.
Proof.
  revert b. induction a as [|x a IH]; intros [|y b]; simpl; [tauto|tauto|tauto|].
  rewrite !orb_true_iff, !andb_true_iff, !Z.ltb_lt, !Z.eqb_eq.
  destruct (Z.lt_trichotomy x y) as [|[->|]]; [tauto| |tauto].
  destruct (IH b) as [|[->|]]; tauto.
Qed.

Lemma bytes_ltb_le a b : bytes_ltb a b = true → bytes_le a b.
Proof.
  intros H. unfold bytes_le. destruct (bytes_ltb b a) eqn:H2; [|done].
  pose proof (bytes_ltb_trans _ _ _ H H2) as H3. by rewrite bytes_ltb_irrefl in H3.
Qed.

Lemma bytes_le_cases a b : bytes_le a b ↔ a = b ∨ bytes_ltb a b = true.
Proof.
  split.
  - unfold bytes_le. destruct (bytes_lt_total a b) as [|[|H]]; [tauto..|congruence].
  - intros [->|]; [apply bytes_ltb_irrefl|by apply bytes_ltb_le].
Qed.

#[export] Instance bytes_le_refl : Reflexive bytes_le.
Proof. intros a. apply bytes_ltb_irrefl. Qed.

#[export] Instance bytes_le_trans : Transitive bytes_le.
Proof.
  intros a b c. rewrite !bytes_le_cases.
  intros [->|H1] [->|H2]; eauto using bytes_ltb_trans.
Qed.

#[export] Instance bytes_le_total : Total bytes_le.
Proof.
  intros a b. rewrite !bytes_le_cases. destruct (bytes_lt_total a b) as [|[|]]; auto.
Qed.

#[export] Instance bytes_le_antisymm : AntiSymm (=) bytes_le.
Proof.
  intros a b. rewrite !bytes_le_cases. intros [|H1] [|H2]; try done.
  pose proof (bytes_ltb_trans _ _ _ H1 H2) as H3. by rewrite bytes_ltb_irrefl in H3.
Qed.

Lemma bytes_le_lt_trans a b c :
  bytes_le a b → bytes_ltb b c = true → bytes_ltb a c = true.
Proof. rewrite bytes_le_cases. intros [->|]; eauto using bytes_ltb_trans. Qed.

Lemma bytes_lt_le_trans a b c :
  bytes_ltb a b = true → bytes_le b c → bytes_ltb a c = true.
Proof. rewrite bytes_le_cases. intros ? [<-|]; eauto using bytes_ltb_trans. Qed.

Lemma has_prefix_cons a p b k :
  has_prefix (b :: k) (a :: p) = true ↔ a = b ∧ has_prefix k p = true.
Proof. cbn [has_prefix]. by rewrite andb_true_iff, Z.eqb_eq. Qed.

Lemma bytes_ltb_cons x a y b :
  bytes_ltb (x :: a) (y :: b) = true ↔ x < y ∨ (x = y ∧ bytes_ltb a b = true).
Proof. cbn [bytes_ltb]. by rewrite orb_true_iff, andb_true_iff, Z.ltb_lt, Z.eqb_eq. Qed.

Lemma bytes_le_cons x a y b :
  bytes_le (x :: a) (y :: b) ↔ x < y ∨ (x = y ∧ bytes_le a b).
Proof.
  rewrite !bytes_le_cases, bytes_ltb_cons.
  split; [intros [[= -> ->]|[|[-> ?]]]|intros [|[-> [->|]]]]; auto.
Qed.

Lemma bytes_le_nil b : bytes_le [] b.
Proof. unfold bytes_le. by destruct b. Qed.

Lemma bytes_le_cons_nil x a : ¬ bytes_le (x :: a) [].
Proof. unfold bytes_le. by simpl. Qed.

Lemma has_prefix_app k p : has_prefix k p = true ↔ ∃ s, k = p ++ s.
Proof.
  revert k. induction p as [|a p IH]; intros k.
  - split; [by exists k|by destruct k].
  - destruct k as [|b k]; [split; [done|by intros [? ?]]|].
    rewrite has_prefix_cons, IH. split.
    + intros [-> [s ->]]. by exists s.
    + intros [s [= -> ->]]. eauto.
Qed.

(** ** nextKey and RangeEnd *)

Definition noEnd : bytes := [0].

(** The loop of [nextKey], from the last byte down; the key is reversed. *)
Fixpoint nextKey_loop (rkey : bytes) : option bytes :=
  match rkey with
  | [] => None
  | b :: rest => if b <? 255 then Some (rev ((b + 1) :: rest)) else nextKey_loop rest
  end.

Definition nextKey (key : bytes) : bytes :=
  match nextKey_loop (rev key) with Some e => e | None => noEnd end.

Definition RangeEnd (key : bytes) : bytes := nextKey key.

(** Keys that have a next key: not made of 0xff bytes only. *)
Definition has_next (key : bytes) : Prop := Exists (fun b => b < 255) key.

(** The same computation from the first byte on. *)
Fixpoint next_forward (key : bytes) : option bytes :=
  match key with
  | [] => None
  | b :: rest =>
      match next_forward rest with
      | Some e => Some (b :: e)
      | None => if b <? 255 then Some [b + 1] else None
      end
  end.

Lemma nextKey_loop_app l b :
  nextKey_loop (l ++ [b]) =
    match nextKey_loop l with
    | Some e => Some (b :: e)
    | None => if b <? 255 then Some [b + 1] else None
    end.
Proof.
  induction l as [|c l IH]; simpl; [done|].
  destruct (c <? 255); [|done]. by rewrite rev_app_distr.
Qed.

Lemma nextKey_forward key : nextKey_loop (rev key) = next_forward key.
Proof. induction key as [|b key IH]; simpl; [done|]. by rewrite nextKey_loop_app, IH. Qed.

Lemma next_forward_None key :
  wf_bytes key → next_forward key = None ↔ ¬ has_next key.
Proof.
  induction key as [|b key IH]; intros Hwf; simpl.
  { unfold has_next. rewrite Exists_nil. tauto. }
  apply Forall_cons in Hwf as [Hb Hwf]. specialize (IH Hwf).
  unfold has_next in *. rewrite Exists_cons.
  destruct (next_forward key) as [e|] eqn:Hn.
  - split; [done|]. intros Hx. assert (Some e = None) by (apply IH; tauto). done.
  - destruct (Z.ltb_spec b 255); [split; [done|tauto]|]. split; [|done].
    intros _ [|]; [lia|]. apply IH; done.
Qed.

(** [nextKey] is the least upper bound of the keys with a prefix: having the
    prefix is the same as lying in the half-open range. *)
Lemma all_ff_prefix key k :
  wf_bytes key → wf_bytes k → ¬ has_next key →
  has_prefix k key = true ↔ bytes_le key k.
Proof.
  revert k. induction key as [|b key IH]; intros k Hw Hk Hn.
  { split; [intros; apply bytes_le_nil|by destruct k]. }
  apply Forall_cons in Hw as [Hb Hw]. unfold has_next in *. rewrite Exists_cons in Hn.
  destruct k as [|c k]; [split; [done|intros H; by apply bytes_le_cons_nil in H]|].
  apply Forall_cons in Hk as [Hc Hk]. unfold is_byte in *.
  rewrite has_prefix_cons, bytes_le_cons, IH by tauto.
  split; [tauto|]. intros [|]; [|done]. destruct Hn. left. lia.
Qed.

Lemma next_forward_range key e k :
  wf_bytes key → wf_bytes k → next_forward key = Some e →
  has_prefix k key = true ↔ bytes_le key k ∧ bytes_ltb k e = true.
Proof.
  revert e k. induction key as [|b key IH]; intros e k Hw Hk; [done|]. cbn [next_forward].
  apply Forall_cons in Hw as [Hb Hw].
  destruct k as [|c k].
  { intros _. split; [done|]. intros [H _]. by apply bytes_le_cons_nil in H. }
  apply Forall_cons in Hk as [Hc Hk].
  destruct (next_forward key) as [e'|] eqn:Hn.
  - intros [= <-].
    rewrite has_prefix_cons, bytes_le_cons, bytes_ltb_cons, (IH e') by done.
    split; [intros [-> [? ?]]; auto|]. intros [[|[? ?]] [|[? ?]]]; try lia; auto.
  - destruct (Z.ltb_spec b 255) as [Hb'|]; [|done]. intros [= <-].
    apply next_forward_None in Hn; [|done].
    rewrite has_prefix_cons, bytes_le_cons, bytes_ltb_cons, all_ff_prefix by done.
    replace (bytes_ltb k []) with false by (by destruct k).
    split; [intros [-> ?]; split; [auto|left; lia]|].
    intros [[|[? ?]] [|[_ [=]]]]; [lia|done].
Qed.

Lemma nextKey_range key k :
  wf_bytes key → wf_bytes k → has_next key →
  has_prefix k key = true ↔ bytes_le key k ∧ bytes_ltb k (nextKey key) = true.
Proof.
  intros Hw Hk Hn. unfold nextKey. rewrite nextKey_forward.
  destruct (next_forward key) as [e|] eqn:He; [by apply next_forward_range|].
  by apply next_forward_None in He.
Qed.

Lemma nextKey_wf key : wf_bytes key → wf_bytes (nextKey key).
Proof.
  intros Hw. unfold nextKey. rewrite nextKey_forward.
  assert (∀ e, next_forward key = Some e → wf_bytes e) as H.
  { induction key as [|b key IH]; intros e; cbn [next_forward]; [done|].
    apply Forall_cons in Hw as [Hb Hw].
    destruct (next_forward key) as [e'|]; [intros [= <-]|case_test; [intros [= <-]|done]].
    - constructor; [done|by apply IH].
    - to_prop. constructor; [unfold is_byte in *; lia|constructor]. }
  destruct (next_forward key); [by apply H|repeat constructor; done].
Qed.

Lemma nextKey_nonempty key : nextKey key ≠ [].
Proof.
  unfold nextKey. rewrite nextKey_forward.
  destruct (next_forward key) as [e|] eqn:He; [|done].
  destruct key as [|b key]; [done|]. cbn [next_forward] in He.
  destruct (next_forward key); [|case_test]; by simplify_eq.
Qed.

Lemma has_prefix_refl k : has_prefix k k = true.
Proof. apply has_prefix_app. exists []. by rewrite app_nil_r. Qed.

(** ** Key constructors *)

Definition Separator : Z := 47.

(** [strings.Join(parts, "/")] on byte strings. *)
Fixpoint join_sep (parts : list bytes) : bytes :=
  match parts with
  | [] => []
  | [p] => p
  | p :: rest => p ++ Separator :: join_sep rest
  end.

Definition internalKey (internalPrefix : bytes) (parts : list bytes) : bytes :=
  join_sep (internalPrefix :: parts).

Definition Key (parts : list bytes) : bytes := internalKey [] parts.
Definition ExactKey (parts : list bytes) : bytes := Key parts ++ [Separator].

(** A part that is one path component. *)
Definition sep_free (p : bytes) : Prop := Separator ∉ p.

Lemma Key_cons p parts : Key (p :: parts) = Separator :: join_sep (p :: parts).
Proof. reflexivity. Qed.

Lemma join_sep_cons p q parts :
  join_sep (p :: q :: parts) = p ++ Separator :: join_sep (q :: parts).
Proof. reflexivity. Qed.

(** A component before a separator is determined by the whole. *)
Lemma sep_split p q a b :
  sep_free p → sep_free q → p ++ Separator :: a = q ++ Separator :: b → p = q ∧ a = b.
Proof.
  unfold sep_free. revert q. induction p as [|x p IH]; intros [|y q] Hp Hq; simpl.
  - by intros [= ->].
  - intros [= <- _]. destruct Hq. by left.
  - intros [= -> _]. destruct Hp. by left.
  - intros [= -> H]. rewrite not_elem_of_cons in Hp, Hq.
    destruct (IH q) as [-> ->]; tauto.
Qed.

Lemma sep_free_no_split p a b : sep_free p → p ≠ a ++ Separator :: b.
Proof. intros Hp ->. apply Hp. set_solver. Qed.

Lemma join_sep_inj ps qs :
  Forall sep_free ps → Forall sep_free qs → ps ≠ [] → qs ≠ [] →
  join_sep ps = join_sep qs → ps = qs.
Proof.
  revert qs. induction ps as [|p ps IH]; intros qs Hp Hq Hne Hne'; [done|].
  destruct qs as [|q qs]; [done|].
  apply Forall_cons in Hp as [Hp Hps]. apply Forall_cons in Hq as [Hq Hqs].
  destruct ps as [|p' ps], qs as [|q' qs]; rewrite ?join_sep_cons.
  - simpl. congruence.
  - simpl. intros H. by apply sep_free_no_split in H.
  - simpl. intros H. symmetry in H. by apply sep_free_no_split in H.
  - intros H. apply sep_split in H as [-> H]; [|done..].
    by rewrite (IH (q' :: qs)).
Qed.

Lemma Key_sep_prefix ps : ps ≠ [] → Key ps = Separator :: join_sep ps.
Proof. by destruct ps. Qed.

Lemma join_sep_app ps qs :
  ps ≠ [] → qs ≠ [] → join_sep (ps ++ qs) = join_sep ps ++ Separator :: join_sep qs.
Proof.
  intros Hp Hq. induction ps as [|p ps IH]; [done|].
  destruct ps as [|p' ps].
  - destruct qs; [done|]. reflexivity.
  - change ((p :: p' :: ps) ++ qs) with (p :: p' :: (ps ++ qs)).
    rewrite !join_sep_cons. change (p' :: ps ++ qs) with ((p' :: ps) ++ qs).
    rewrite IH by done. by rewrite <- app_assoc.
Qed.

(** Splitting a joined path after a separator gives the remaining parts. *)
Lemma join_sep_prefix ps qs s :
  Forall sep_free ps → Forall sep_free qs → ps ≠ [] → qs ≠ [] →
  join_sep qs = join_sep ps ++ Separator :: s →
  ∃ rs, rs ≠ [] ∧ qs = ps ++ rs ∧ s = join_sep rs.
Proof.
  revert qs. induction ps as [|p ps IH]; intros qs Hp Hq Hne Hne'; [done|].
  destruct qs as [|q qs]; [done|].
  apply Forall_cons in Hp as [Hp Hps]. apply Forall_cons in Hq as [Hq Hqs].
  destruct qs as [|q' qs].
  { simpl. intros ->. exfalso. apply Hq. set_solver. }
  rewrite join_sep_cons. destruct ps as [|p' ps].
  - simpl. intros H. apply sep_split in H as [-> <-]; [|done..].
    by exists (q' :: qs).
  - rewrite join_sep_cons, <- app_assoc. simpl. intros H.
    apply sep_split in H as [-> H]; [|done..].
    destruct (IH (q' :: qs)) as (rs & Hr & -> & ->); try done. by exists rs.
Qed.

(** *** Pagination keys

    The resources the two pagination functions tell apart, with the host ID
    and the name they read. *)
Inductive pag_resource :=
  | PagDatabaseServer (hostID name : bytes)
  | PagAppServer (hostID name : bytes)
  | PagKubeServer (hostID name : bytes)
  | PagWindowsDesktop (hostID name : bytes)
  | PagOther (name : bytes).

Definition pag_name (r : pag_resource) : bytes :=
  match r with
  | PagDatabaseServer _ n | PagAppServer _ n | PagKubeServer _ n
  | PagWindowsDesktop _ n | PagOther n => n
  end.

Definition NextPaginationKey (r : pag_resource) : bytes :=
  match r with
  | PagDatabaseServer h n => nextKey (internalKey h [n])
  | PagAppServer h n => nextKey (internalKey h [n])
  | PagKubeServer h n => nextKey (internalKey h [n])
  | _ => nextKey (pag_name r)
  end.

Definition GetPaginationKey (r : pag_resource) : bytes :=
  match r with
  | PagDatabaseServer h n => internalKey h [n]
  | PagAppServer h n => internalKey h [n]
  | PagKubeServer h n => internalKey h [n]
  | PagWindowsDesktop h n => internalKey h [n]
  | PagOther n => n
  end.

(** [MaskKeyName]: [int(0.75 * float64(n))] is exactly [3 n / 4] for every
    length, since both factors and the product are representable. *)
Definition MaskKeyName (keyName : bytes) : bytes :=
  let hiddenBefore := (3 * length keyName / 4)%nat in
  replicate hiddenBefore 42 ++ drop hiddenBefore keyName.

(** ** Times of leases *)

Definition TTL (now expires : Z) : Z :=
  let ttl := expires - now in if ttl <? Second then Second else ttl.

Definition Expiry (now ttl : Z) : Z := if ttl =? 0 then zero_time else now + ttl.

(** [earliest]'s order: the zero time is last. *)
Definition earliest_Less (a b : Z) : bool :=
  if is_zero_time a then false else if is_zero_time b then true else a <? b.

Definition earliest_le (a b : Z) : Prop := earliest_Less b a = false.

#[export] Instance earliest_le_dec : RelDecision earliest_le.
Proof. intros a b. unfold earliest_le. apply _. Defined.

Definition EarliestExpiry (times : list Z) : Z :=
  match merge_sort earliest_le times with [] => zero_time | t :: _ => t end.

(** ** The sanitizer's key test *)

Definition in_range (lo hi b : Z) : bool := (lo <=? b) && (b <=? hi).

(** The class [0-9A-Za-z@_:.\-/+]. *)
Definition allowed_char (b : Z) : bool :=
  in_range 48 57 b || in_range 65 90 b || in_range 97 122 b ||
  (b =? 64) || (b =? 95) || (b =? 58) || (b =? 46) || (b =? 45) || (b =? 47) || (b =? 43).

Definition allowPattern_Match (s : bytes) : bool := forallb allowed_char s.

Fixpoint denyPattern_Match (s : bytes) : bool :=
  match s with
  | a :: ((b :: _) as rest) => ((a =? 47) && (b =? 47)) || denyPattern_Match rest
  | _ => false
  end.

(** [utf8.Valid]: the well-formed sequences of one to four bytes. *)
Definition utf8_cont (b : Z) : bool := in_range 128 191 b.
Fixpoint utf8_Valid (s : bytes) : bool :=
  match s with
  | [] => true
  | a :: s1 =>
      if a <? 128 then utf8_Valid s1 else
      match s1 with
      | [] => false
      | b :: s2 =>
          if in_range 194 223 a then utf8_cont b && utf8_Valid s2 else
          match s2 with
          | [] => false
          | c :: s3 =>
              if (a =? 224) then in_range 160 191 b && utf8_cont c && utf8_Valid s3 else
              if (a =? 237) then in_range 128 159 b && utf8_cont c && utf8_Valid s3 else
              if in_range 225 239 a then utf8_cont b && utf8_cont c && utf8_Valid s3 else
              match s3 with
              | [] => false
              | d :: s4 =>
                  if (a =? 240) then in_range 144 191 b && utf8_cont c && utf8_cont d && utf8_Valid s4 else
                  if (a =? 244) then in_range 128 143 b && utf8_cont c && utf8_cont d && utf8_Valid s4 else
                  if in_range 241 243 a then utf8_cont b && utf8_cont c && utf8_cont d && utf8_Valid s4
                  else false
              end
          end
      end
  end.

Definition isKeySafe (s : bytes) : bool :=
  allowPattern_Match s && negb (denyPattern_Match s) && utf8_Valid s.

(** *** Lemmas on ranges of paths *)

Lemma ExactKey_has_next ps : has_next (ExactKey ps).
Proof. unfold has_next, ExactKey. apply Exists_app. right. constructor. unfold Separator. lia. Qed.

Lemma join_sep_wf ps : Forall wf_bytes ps → wf_bytes (join_sep ps).
Proof.
  induction ps as [|p ps IH]; intros Hw; [constructor|].
  apply Forall_cons in Hw as [Hp Hw]. destruct ps as [|q ps]; [done|].
  rewrite join_sep_cons. apply Forall_app. split; [done|].
  constructor; [unfold is_byte, Separator; lia|by apply IH].
Qed.

Lemma Key_wf ps : Forall wf_bytes ps → wf_bytes (Key ps).
Proof. intros Hw. apply join_sep_wf. constructor; [constructor|done]. Qed.

Lemma ExactKey_wf ps : Forall wf_bytes ps → wf_bytes (ExactKey ps).
Proof.
  intros Hw. apply Forall_app. split; [by apply Key_wf|].
  repeat constructor; unfold Separator; lia.
Qed.

Lemma ExactKey_prefix ps qs :
  Forall sep_free ps → Forall sep_free qs → ps ≠ [] → qs ≠ [] →
  has_prefix (Key qs) (ExactKey ps) = true ↔ ∃ rs, rs ≠ [] ∧ qs = ps ++ rs.
Proof.
  intros Hp Hq Hpn Hqn. rewrite has_prefix_app. unfold ExactKey.
  rewrite !Key_sep_prefix by done. split.
  - intros [s H]. rewrite <- app_assoc in H. injection H as H.
    destruct (join_sep_prefix ps qs s) as (rs & Hr & -> & _); try done. by exists rs.
  - intros (rs & Hr & ->). exists (join_sep rs).
    rewrite join_sep_app by done. by rewrite <- app_assoc.
Qed.

Lemma allowed_char_ascii b : allowed_char b = true → b < 128.
Proof.
  unfold allowed_char, in_range. rewrite !orb_true_iff, !andb_true_iff, !Z.leb_le, !Z.eqb_eq.
  lia.
Qed.

Lemma utf8_Valid_ascii s : Forall (fun b => b < 128) s → utf8_Valid s = true.
Proof.
  induction 1 as [|b s Hb _ IH]; [done|]. cbn [utf8_Valid].
  by rewrite (proj2 (Z.ltb_lt _ _) Hb).
Qed.

Lemma isKeySafe_utf8_redundant s :
  isKeySafe s = allowPattern_Match s && negb (denyPattern_Match s).
Proof.
  unfold isKeySafe. destruct (allowPattern_Match s) eqn:Ha; [|done].
  rewrite utf8_Valid_ascii; [by rewrite andb_true_r|].
  unfold allowPattern_Match in Ha. rewrite forallb_elem in Ha.
  apply Forall_forall. intros b Hb. by apply allowed_char_ascii, Ha.
Qed.

#[export] Instance earliest_le_total : Total earliest_le.
Proof.
  intros a b. unfold earliest_le, earliest_Less.
  destruct (is_zero_time a), (is_zero_time b); auto.
  destruct (Z.ltb_spec a b), (Z.ltb_spec b a); auto; lia.
Qed.

#[export] Instance earliest_le_trans : Transitive earliest_le.
Proof.
  intros a b c. unfold earliest_le, earliest_Less.
  destruct (is_zero_time a) eqn:?, (is_zero_time b) eqn:?, (is_zero_time c) eqn:?; try done.
  rewrite !Z.ltb_ge. lia.
Qed.

(** ** Properties *)

(** range queries over a path. The half-open range from [ExactKey ps] to
    [RangeEnd (ExactKey ps)] holds exactly the keys of the paths below [ps]:
    no sibling whose last component merely starts like [ps]'s, and not [ps]
    itself. *)
Theorem ExactKey_range ps qs :
  Forall sep_free ps → Forall sep_free qs → ps ≠ [] → qs ≠ [] →
  Forall wf_bytes ps → Forall wf_bytes qs →
  (bytes_le (ExactKey ps) (Key qs) ∧
   bytes_ltb (Key qs) (RangeEnd (ExactKey ps)) = true) ↔
  ∃ rs, rs ≠ [] ∧ qs = ps ++ rs.
Proof.
  intros Hp Hq Hpn Hqn Hwp Hwq. unfold RangeEnd.
  rewrite <- nextKey_range; [by apply ExactKey_prefix| |by apply Key_wf|].
  - by apply ExactKey_wf.
  - apply ExactKey_has_next.
Qed.

(** [RangeEnd] of any key that is not made of 0xff bytes only is the end of
    the range of its prefix: a key lies in the range iff it has the prefix. *)
Theorem RangeEnd_prefix key k :
  wf_bytes key → wf_bytes k → has_next key →
  has_prefix k key = true ↔ bytes_le key k ∧ bytes_ltb k (RangeEnd key) = true.
Proof. apply nextKey_range. Qed.

(** paths made of separator-free components round-trip through [Key]. *)
Theorem Key_injective ps qs :
  Forall sep_free ps → Forall sep_free qs → ps ≠ [] → qs ≠ [] →
  Key ps = Key qs → ps = qs.
Proof.
  intros Hp Hq Hpn Hqn. rewrite !Key_sep_prefix by done. intros [= H].
  by apply join_sep_inj.
Qed.

(** [NextPaginationKey] follows [GetPaginationKey] for every resource but a
    Windows desktop, whose next key forgets the host ID: it then sorts below
    the desktop's own pagination key, instead of right after it. *)
Theorem NextPaginationKey_desktop_diverges r :
  (∀ h n, r ≠ PagWindowsDesktop h n) ∧ NextPaginationKey r = nextKey (GetPaginationKey r) ∨
  (∃ h n, r = PagWindowsDesktop h n ∧
     NextPaginationKey r = nextKey n ∧
     GetPaginationKey r = h ++ Separator :: n).
Proof. destruct r; [left|left|left|right|left]; try done; eauto. Qed.

(** [EarliestExpiry] is the least of the times that are set; it is the
    zero time only when none is. *)
Theorem EarliestExpiry_least times t :
  t ∈ times → is_zero_time t = false →
  EarliestExpiry times ∈ times ∧ is_zero_time (EarliestExpiry times) = false ∧
  EarliestExpiry times ≤ t.
Proof.
  intros Hin Ht. unfold EarliestExpiry.
  pose proof (StronglySorted_merge_sort earliest_le times) as Hs.
  pose proof (merge_sort_Permutation earliest_le times) as Hp.
  assert (∀ y, y ∈ merge_sort earliest_le times ↔ y ∈ times) as Hmem by (intros y; by rewrite Hp).
  apply Hmem in Hin.
  destruct (merge_sort earliest_le times) as [|x l]; [by apply not_elem_of_nil in Hin|].
  apply StronglySorted_inv in Hs as [_ Hall].
  split; [apply Hmem; left|].
  assert (earliest_le x t) as Hle.
  { apply elem_of_cons in Hin as [->|Hin].
    - unfold earliest_le, earliest_Less. rewrite Ht. by rewrite Z.ltb_irrefl.
    - rewrite Forall_forall in Hall. by apply Hall. }
  unfold earliest_le, earliest_Less in Hle. rewrite Ht in Hle.
  destruct (is_zero_time x); [done|]. to_prop. by split.
Qed.

(** *** Witnesses *)

#[export] Instance is_byte_dec b : Decision (is_byte b).
Proof. unfold is_byte. apply _. Defined.
#[export] Instance sep_free_dec p : Decision (sep_free p).
Proof. unfold sep_free. apply _. Defined.
#[export] Instance wf_bytes_dec p : Decision (wf_bytes p).
Proof. unfold wf_bytes. apply _. Defined.
#[export] Instance has_next_dec p : Decision (has_next p).
Proof. unfold has_next. apply _. Defined.

(** Decides a closed proposition by evaluation. *)
Ltac eval_decide := apply (bool_decide_unpack _); vm_compute; exact I.

Definition nodes_path : list bytes := [bytes_of_string "nodes"; bytes_of_string "default"].
Definition node_path : list bytes := nodes_path ++ [bytes_of_string "a1"].

Lemma ExactKey_range_witness :
  bytes_le (ExactKey nodes_path) (Key node_path) ∧
  bytes_ltb (Key node_path) (RangeEnd (ExactKey nodes_path)) = true.
Proof.
  apply (ExactKey_range nodes_path node_path); [eval_decide..|].
  by exists [bytes_of_string "a1"].
Defined.

Lemma RangeEnd_prefix_witness :
  has_prefix [97; 255; 98] [97; 255] = true ↔
  bytes_le [97; 255] [97; 255; 98] ∧ bytes_ltb [97; 255; 98] (RangeEnd [97; 255]) = true.
Proof. apply (RangeEnd_prefix [97; 255] [97; 255; 98]); eval_decide. Defined.

Lemma Key_injective_witness : node_path = nodes_path ++ [bytes_of_string "a1"].
Proof.
  apply (Key_injective node_path (nodes_path ++ [bytes_of_string "a1"])); eval_decide.
Defined.

Lemma EarliestExpiry_least_witness :
  EarliestExpiry [zero_time; 20; 10] ∈ [zero_time; 20; 10] ∧
  is_zero_time (EarliestExpiry [zero_time; 20; 10]) = false ∧
  EarliestExpiry [zero_time; 20; 10] ≤ 20.
Proof. apply (EarliestExpiry_least [zero_time; 20; 10] 20); eval_decide. Defined.
