(* ===== verification/Strconv.v ===== *)
(** * Decimal numbers (Go's strconv and fmt)

    Numbers written in decimal and read back. *)

From S2P Require Import Prelude.
From S2P Require Import Keys.
Local Open Scope Z_scope.

(** Decimal digits: [%d] of an int, and [strconv.Atoi]. *)
Fixpoint decimal (digits : nat) (n : Z) : bytes :=
  match digits with
  | O => []
  | S digits => if n <? 10 then [48 + n] else (decimal digits (n `div` 10) ++ [48 + n `mod` 10])%list
  end.
Definition format_int (n : Z) : bytes := if n <? 0 then 45 :: decimal 20 (- n) else decimal 20 n.

Fixpoint parse_digits (acc : Z) (s : bytes) : option Z :=
  match s with
  | [] => Some acc
  | c :: s => if (48 <=? c) && (c <=? 57) then parse_digits (10 * acc + (c - 48)) s else None
  end.
Definition err_syntax : error := Error PlainError "invalid syntax".
Definition Atoi (s : bytes) : result Z :=
  let '(sign, digits) := match s with 45 :: r => (-1, r) | 43 :: r => (1, r) | _ => (1, s) end in
  match digits with
  | [] => Err err_syntax
  | _ =>
      match parse_digits 0 digits with
      | None => Err err_syntax
      | Some n =>
          if bool_decide (- 2 ^ 63 <= sign * n < 2 ^ 63) then Ok (sign * n)
          else Err (Error PlainError "value out of range")
      end
  end.

(** [%d] of an unsigned integer of 64 bits, and [strconv.ParseUint(s, 10, 64)]. *)
Definition format_uint (n : Z) : bytes := decimal 20 n.
Definition ParseUint (s : bytes) : result Z :=
  match s with
  | [] => Err err_syntax
  | _ =>
      match parse_digits 0 s with
      | None => Err err_syntax
      | Some n => if n <? 2 ^ 64 then Ok n else Err (Error PlainError "value out of range")
      end
  end.

(** Bytes as a string. *)
Definition string_of_bytes (s : bytes) : string := String.string_of_list_ascii ((fun b => Ascii.ascii_of_N (Z.to_N b)) <$> s).

(** ** Reading back *)

Lemma bytes_of_string_of_bytes s : wf_bytes s → bytes_of_string (string_of_bytes s) = s.
Proof.
  intros Hs. unfold bytes_of_string, string_of_bytes. rewrite String.list_ascii_of_string_of_list_ascii.
  induction Hs as [|b s Hb Hs IH]; [done|]. cbn. unfold is_byte in Hb.
  rewrite Ascii.N_ascii_embedding by lia. rewrite Z2N.id by lia. f_equal. exact IH.
Qed.

(** Digits read back as the number. *)
Lemma parse_digits_app acc s t : parse_digits acc (s ++ t) = (a ← parse_digits acc s; parse_digits a t).
Proof. revert acc. induction s as [|c s IH]; intros acc; cbn; [done|]. case_match; [apply IH|done]. Qed.
Lemma decimal_digits f n : 0 ≤ n → Forall (fun c => 48 ≤ c ≤ 57) (decimal f n).
Proof.
  revert n. induction f as [|f IH]; intros n Hn; cbn; [constructor|].
  case Z.ltb_spec; intros; [repeat constructor; lia|]. apply Forall_app. split.
  - apply IH. apply Z.div_pos; lia.
  - pose proof (Z.mod_pos_bound n 10 ltac:(lia)). repeat constructor; lia.
Qed.
Lemma parse_decimal f n : 0 ≤ n < 10 ^ Z.of_nat f → parse_digits 0 (decimal f n) = Some n.
Proof.
  revert n. induction f as [|f IH]; intros n Hn; [change (10 ^ Z.of_nat 0) with 1 in Hn; cbn; f_equal; lia|].
  cbn [decimal]. case Z.ltb_spec; intros Hlt.
  - cbn. rewrite (proj2 (Z.leb_le 48 (48 + n))), (proj2 (Z.leb_le (48 + n) 57)) by lia. cbn. f_equal. lia.
  - rewrite Nat2Z.inj_succ, Z.pow_succ_r in Hn by lia.
    pose proof (Z.mod_pos_bound n 10 ltac:(lia)). pose proof (Z.div_mod n 10 ltac:(lia)).
    rewrite parse_digits_app, IH by (split; [apply Z.div_pos; lia|apply Z.div_lt_upper_bound; lia]).
    cbn. rewrite (proj2 (Z.leb_le 48 _)), (proj2 (Z.leb_le _ 57)) by lia. cbn. f_equal. lia.
Qed.
Lemma decimal_nonempty f n : decimal (S f) n ≠ [].
Proof. cbn. case_match; [done|]. by destruct (decimal f (n `div` 10)). Qed.

Lemma Atoi_format_int n : 0 ≤ n < 2 ^ 63 → Atoi (format_int n) = Ok n.
Proof.
  intros Hn. unfold format_int. rewrite (proj2 (Z.ltb_ge n 0)) by lia.
  pose proof (decimal_digits 20 n ltac:(lia)) as Hd. pose proof (parse_decimal 20 n ltac:(lia)) as Hp.
  pose proof (decimal_nonempty 19 n) as Hne. revert Hd Hp Hne. generalize (decimal 20 n).
  intros [|c s] Hd Hp Hne; [done|]. apply Forall_cons in Hd as [Hc _]. unfold Atoi.
  assert (match c :: s with 45 :: r => (-1, r) | 43 :: r => (1, r) | _ => (1, c :: s) end = (1, c :: s)) as ->.
  { destruct c as [|c|c]; try done; do 6 (destruct c as [c|c|]; try done); lia. }
  rewrite Hp, Z.mul_1_l. by rewrite bool_decide_eq_true_2 by lia.
Qed.
Lemma ParseUint_format_uint n : 0 ≤ n < 2 ^ 64 → ParseUint (bytes_of_string (string_of_bytes (format_uint n))) = Ok n.
Proof.
  intros Hn. rewrite bytes_of_string_of_bytes.
  - unfold ParseUint, format_uint. pose proof (decimal_nonempty 19 n) as Hne. destruct (decimal 20 n) eqn:E; [done|].
    rewrite <- E, parse_decimal by lia. by rewrite (proj2 (Z.ltb_lt n (2 ^ 64))) by lia.
  - eapply Forall_impl; [apply decimal_digits; lia|]. unfold is_byte. cbn. lia.
Qed.
