(* ===== verification/Backend.v ===== *)
(** * The backend interface and its clients (lib/backend/backend.go, helpers.go, sanitize.go)

    [BackendOps] is the part of the Go interface [Backend] the clients here
    use; [BackendLaws] is what an implementation promises, in terms of an
    abstract map from keys to items.  [IterateRange], the distributed lock and
    the sanitizer are verified against the laws; the in-memory backend
    discharges them. *)

From S2P Require Import Prelude.
From S2P Require Import Keys.
Local Open Scope Z_scope.

(** ** Data *)
Inductive OpType :=
  | OpUnreliable | OpInvalid | OpInit | OpPut | OpDelete | OpGet.

Record Item := mkItem {
  it_Key : bytes;
  it_Value : bytes;
  it_Expires : Z;
  it_ID : Z;
  it_LeaseID : Z
}.

(** An item literal with only a key. *)
Definition key_item (k : bytes) : Item := mkItem k [] zero_time 0 0.
Definition with_ID (id : Z) (i : Item) : Item :=
  mkItem (it_Key i) (it_Value i) (it_Expires i) id (it_LeaseID i).
Definition with_Expires (t : Z) (i : Item) : Item :=
  mkItem (it_Key i) (it_Value i) t (it_ID i) (it_LeaseID i).

Record Event := mkEvent { ev_Type : OpType; ev_Item : Item }.

Record Lease := mkLease { lease_Key : bytes; lease_ID : Z }.
Definition empty_lease : Lease := mkLease [] 0.
Definition Lease_IsEmpty (l : Lease) : bool :=
  (lease_ID l =? 0) && bool_decide (lease_Key l = []).

Definition NoLimit : Z := 0.
Definition DefaultRangeLimit : Z := 2000000.

(** ** Sorted ranges of a finite map *)
Section ranges.
Context {V : Type}.
Implicit Types m : gmap bytes V.

Definition in_key_range (lo hi k : bytes) : bool :=
  negb (bytes_ltb k lo) && bytes_ltb k hi.

Definition range_keys (lo hi : bytes) m : list bytes :=
  merge_sort bytes_le
    (filter (fun k => in_key_range lo hi k = true) (elements (dom m))).

(** The values of the keys from [lo] up to [hi], in key order. *)
Definition sorted_range (lo hi : bytes) m : list V :=
  omap (fun k => m !! k) (range_keys lo hi m).

Lemma range_keys_elem lo hi m k :
  k ∈ range_keys lo hi m ↔ in_key_range lo hi k = true ∧ is_Some (m !! k).
Proof.
  unfold range_keys. rewrite merge_sort_Permutation, list_elem_of_filter.
  by rewrite elem_of_elements, elem_of_dom.
Qed.

Lemma range_keys_sorted lo hi m : StronglySorted bytes_le (range_keys lo hi m).
Proof. apply StronglySorted_merge_sort; apply _. Qed.

Lemma range_keys_NoDup lo hi m : NoDup (range_keys lo hi m).
Proof.
  unfold range_keys. rewrite merge_sort_Permutation. apply NoDup_filter, NoDup_elements.
Qed.

(** A sorted duplicate-free list of the right keys is [range_keys]. *)
Lemma range_keys_unique lo hi m l :
  StronglySorted bytes_le l → NoDup l →
  (∀ k, k ∈ l ↔ in_key_range lo hi k = true ∧ is_Some (m !! k)) →
  l = range_keys lo hi m.
Proof.
  intros Hs Hn Hk. apply (StronglySorted_unique bytes_le); [done|apply range_keys_sorted|].
  apply NoDup_Permutation; [done|apply range_keys_NoDup|].
  intros k. by rewrite Hk, range_keys_elem.
Qed.

Lemma range_keys_lookup lo hi m :
  Forall (fun k => is_Some (m !! k)) (range_keys lo hi m).
Proof. apply Forall_forall. intros k Hk. by apply range_keys_elem in Hk as [_ ?]. Qed.

Lemma sorted_range_length lo hi m :
  length (sorted_range lo hi m) = length (range_keys lo hi m).
Proof.
  unfold sorted_range. induction (range_keys_lookup lo hi m) as [|k ks [v Hv] _ IH]; [done|].
  cbn. rewrite Hv. cbn. by rewrite IH.
Qed.

Lemma omap_lookup_take (ks : list bytes) m n :
  Forall (fun k => is_Some (m !! k)) ks →
  take n (omap (fun k => m !! k) ks) = omap (fun k => m !! k) (take n ks).
Proof.
  intros Hks. revert n. induction Hks as [|k ks [v Hv] _ IH]; intros n; [by destruct n|].
  destruct n; [done|]. cbn. rewrite Hv. cbn. by rewrite IH.
Qed.

Lemma StronglySorted_drop (l : list bytes) n :
  StronglySorted bytes_le l → StronglySorted bytes_le (drop n l).
Proof.
  revert n. induction l as [|k l IH]; intros n Hs; destruct n; try done.
  apply StronglySorted_inv in Hs as [Hs _]. by apply IH.
Qed.

(** In a sorted list, what comes before a position is not above it and what
    comes after is not below. *)
Lemma StronglySorted_split (l : list bytes) n kl k :
  StronglySorted bytes_le l → l !! n = Some kl →
  (k ∈ take (S n) l → bytes_le k kl) ∧ (k ∈ drop (S n) l → bytes_le kl k).
Proof.
  revert n. induction l as [|x l IH]; intros n Hs Hn; [done|].
  apply StronglySorted_inv in Hs as [Hs Hall]. rewrite Forall_forall in Hall.
  destruct n as [|n]; cbn in Hn |- *.
  - injection Hn as ->. split; [|by apply Hall].
    rewrite list_elem_of_singleton. by intros ->.
  - destruct (IH n Hs Hn) as [H1 H2]. split; [|done].
    rewrite elem_of_cons. intros [->|?]; [|by apply H1].
    apply Hall. by eapply list_elem_of_lookup_2.
Qed.

(** Keys for which paging by [nextKey] loses nothing: well-formed, with a next
    key, and none a proper prefix of another. *)
Definition pageable (lo hi : bytes) m : Prop :=
  ∀ k, k ∈ range_keys lo hi m →
    wf_bytes k ∧ has_next k ∧
    ∀ k', k' ∈ range_keys lo hi m → has_prefix k' k = true → k' = k.

Lemma range_keys_next lo hi m n kl :
  pageable lo hi m → range_keys lo hi m !! n = Some kl →
  range_keys (nextKey kl) hi m = drop (S n) (range_keys lo hi m).
Proof.
  intros Hpg Hn. symmetry. set (l := range_keys lo hi m) in *.
  pose proof (range_keys_sorted lo hi m) as Hs. fold l in Hs.
  pose proof (range_keys_NoDup lo hi m) as Hnd. fold l in Hnd.
  assert (kl ∈ l) as Hkl by (by eapply list_elem_of_lookup_2).
  destruct (Hpg kl Hkl) as (Hwf & Hnx & Hpf).
  assert (bytes_ltb kl (nextKey kl) = true) as Hlt
    by (apply (nextKey_range kl kl); [done..|apply has_prefix_refl]).
  apply range_keys_unique.
  - by apply StronglySorted_drop.
  - rewrite <- (take_drop (S n) l) in Hnd. by apply NoDup_app in Hnd as (_ & _ & ?).
  - intros k. split.
    + intros Hk. assert (k ∈ l) as Hkm.
      { rewrite <- (take_drop (S n) l). apply elem_of_app. by right. }
      pose proof Hkm as [Hr Hsome]%range_keys_elem. split; [|done].
      unfold in_key_range in *. apply andb_true_iff in Hr as [_ ->]. rewrite andb_true_r.
      destruct (bytes_ltb k (nextKey kl)) eqn:Hlt'; [|done]. exfalso.
      assert (k = kl) as ->.
      { apply Hpf; [done|]. apply (nextKey_range kl k); [done|by apply Hpg|done|].
        split; [|done]. by apply (StronglySorted_split l n kl k Hs Hn). }
      rewrite <- (take_drop (S n) l) in Hnd. apply NoDup_app in Hnd as (_ & Hd & _).
      apply (Hd kl); [|done]. eapply (list_elem_of_lookup_2 _ n).
      by rewrite lookup_take_lt by lia.
    + intros [Hr Hsome]. unfold in_key_range in Hr. to_prop.
      assert (bytes_ltb kl k = true) as Hgt by (by eapply bytes_lt_le_trans).
      assert (k ∈ l) as Hkm.
      { apply range_keys_elem. split; [|done]. unfold in_key_range.
        apply range_keys_elem in Hkl as [Hr' _]. unfold in_key_range in Hr'. to_prop.
        apply andb_true_iff. split; [|done].
        assert (bytes_le lo k) as Hlk; [|unfold bytes_le in Hlk; by rewrite Hlk].
        transitivity kl; [assumption|]. by apply bytes_ltb_le. }
      rewrite <- (take_drop (S n) l) in Hkm. apply elem_of_app in Hkm as [Hkm|]; [|done].
      apply (StronglySorted_split l n kl k Hs Hn) in Hkm. unfold bytes_le in Hkm. congruence.
Qed.

Lemma sorted_range_next lo hi m n kl :
  pageable lo hi m → range_keys lo hi m !! n = Some kl →
  sorted_range lo hi m =
    take (S n) (sorted_range lo hi m) ++ sorted_range (nextKey kl) hi m.
Proof.
  intros Hpg Hn. unfold sorted_range. rewrite (range_keys_next lo hi m n kl) by done.
  rewrite omap_lookup_take by apply range_keys_lookup.
  by rewrite <- omap_app, take_drop.
Qed.

Lemma pageable_next lo hi m n kl :
  pageable lo hi m → range_keys lo hi m !! n = Some kl → pageable (nextKey kl) hi m.
Proof.
  intros Hpg Hn k. rewrite (range_keys_next lo hi m n kl) by done. intros Hk.
  assert (∀ x, x ∈ drop (S n) (range_keys lo hi m) → x ∈ range_keys lo hi m) as Hsub.
  { intros x Hx. rewrite <- (take_drop (S n) (range_keys lo hi m)).
    apply elem_of_app. by right. }
  destruct (Hpg k (Hsub _ Hk)) as (? & ? & ?). split_and!; auto.
Qed.
End ranges.

(** ** The interface *)
Class BackendOps (B : Type) := {
  bk_Create : Z → Item → goM B (result Lease);
  bk_Put : Z → Item → goM B (result Lease);
  bk_Update : Z → Item → goM B (result Lease);
  bk_CompareAndSwap : Z → Item → Item → goM B (result Lease);
  bk_Get : Z → bytes → goM B (result Item);
  bk_GetRange : Z → bytes → bytes → Z → goM B (result (list Item));
  bk_Delete : Z → bytes → goM B (result unit);
  bk_DeleteRange : Z → bytes → bytes → goM B (result unit);
  bk_KeepAlive : Z → Lease → Z → goM B (result unit)
}.

(** ** Calls, their answers set aside *)
Inductive backend_call :=
  | CCreate (i : Item) | CPut (i : Item) | CUpdate (i : Item)
  | CCompareAndSwap (e i : Item)
  | CGet (k : bytes) | CGetRange (lo hi : bytes) (limit : Z)
  | CDelete (k : bytes) | CDeleteRange (lo hi : bytes)
  | CKeepAlive (l : Lease) (expires : Z).

Definition drop_answer {S A} (c : goM S (result A)) : goM S (option error) :=
  r ← c; mret (match r with Ok _ => None | Err e => Some e end).

Definition run_call `{BackendOps B} (c : backend_call) (now : Z) : goM B (option error) :=
  match c with
  | CCreate i => drop_answer (bk_Create now i)
  | CPut i => drop_answer (bk_Put now i)
  | CUpdate i => drop_answer (bk_Update now i)
  | CCompareAndSwap e i => drop_answer (bk_CompareAndSwap now e i)
  | CGet k => drop_answer (bk_Get now k)
  | CGetRange lo hi limit => drop_answer (bk_GetRange now lo hi limit)
  | CDelete k => drop_answer (bk_Delete now k)
  | CDeleteRange lo hi => drop_answer (bk_DeleteRange now lo hi)
  | CKeepAlive l e => drop_answer (bk_KeepAlive now l e)
  end.

(** An item whose time has come: it may be dropped at any moment. *)
Definition expired (now : Z) (i : Item) : Prop :=
  it_Expires i ≠ zero_time ∧ it_Expires i ≤ now.

(** What expiry may do at [now] before an operation runs: only expired items
    go, and every item due in an earlier second has gone. *)
Definition purged (now : Z) (m m' : gmap bytes Item) : Prop :=
  m' ⊆ m ∧
  (∀ k i, m !! k = Some i → m' !! k = None → expired now i) ∧
  (∀ k i, m' !! k = Some i →
     it_Expires i = zero_time ∨ time_unix now ≤ time_unix (it_Expires i)).

(** Items carry the key they are stored under. *)
Definition keyed (m : gmap bytes Item) : Prop :=
  ∀ k i, m !! k = Some i → it_Key i = k.

(** The lease of a stored item: empty unless the item expires. *)
Definition lease_of (i : Item) : Lease :=
  if is_zero_time (it_Expires i) then empty_lease else mkLease (it_Key i) 0.

Definition err_missing_key : error := Error BadParameter "missing parameter key".
Definition err_missing_Key : error := Error BadParameter "missing parameter Key".
Definition err_missing_startKey : error := Error BadParameter "missing parameter startKey".
Definition err_missing_endKey : error := Error BadParameter "missing parameter endKey".
Definition err_lease_empty : error := Error BadParameter "lease is empty".
Definition err_keys_match : error :=
  Error BadParameter "expected and replaceWith keys should match".
Definition err_exists : error := Error AlreadyExists "key %q already exists".
Definition err_not_found : error := Error NotFound "key %q is not found".
Definition err_cas_not_found : error := Error CompareFailed "key %q is not found".
Definition err_cas_mismatch : error :=
  Error CompareFailed "current value does not match expected for %v".

(** Where a write of [i] on top of [m] leads: the item stored has a backend-chosen
    record ID. *)
Definition stored (i : Item) (m m' : gmap bytes Item) : Prop :=
  ∃ id, m' = <[it_Key i := with_ID id i]> m.

(** The contract.  Each law gives the answer and the new abstract map from the
    old one, after a purge. *)
Class BackendLaws (B : Type) `{BackendOps B} := {
  bk_inv : B → Prop;
  bk_view : B → gmap bytes Item;
  bk_view_keyed : ∀ b, bk_inv b → keyed (bk_view b);
  bk_Create_law : ∀ now i b, bk_inv b →
    ∃ r b', bk_Create now i b = Some (r, b') ∧ bk_inv b' ∧
      if bool_decide (it_Key i = []) then r = Err err_missing_key ∧ b' = b else
      ∃ m, purged now (bk_view b) m ∧
        match m !! it_Key i with
        | Some _ => r = Err err_exists ∧ bk_view b' = m
        | None => r = Ok (lease_of i) ∧ stored i m (bk_view b')
        end;
  bk_Put_law : ∀ now i b, bk_inv b →
    ∃ r b', bk_Put now i b = Some (r, b') ∧ bk_inv b' ∧
      if bool_decide (it_Key i = []) then r = Err err_missing_key ∧ b' = b else
      ∃ m, purged now (bk_view b) m ∧ r = Ok (lease_of i) ∧ stored i m (bk_view b');
  bk_Update_law : ∀ now i b, bk_inv b →
    ∃ r b', bk_Update now i b = Some (r, b') ∧ bk_inv b' ∧
      if bool_decide (it_Key i = []) then r = Err err_missing_key ∧ b' = b else
      ∃ m, purged now (bk_view b) m ∧
        match m !! it_Key i with
        | None => r = Err err_not_found ∧ bk_view b' = m
        | Some _ => r = Ok (lease_of i) ∧ stored i m (bk_view b')
        end;
  bk_Get_law : ∀ now k b, bk_inv b →
    ∃ r b', bk_Get now k b = Some (r, b') ∧ bk_inv b' ∧
      if bool_decide (k = []) then r = Err err_missing_key ∧ b' = b else
      ∃ m, purged now (bk_view b) m ∧ bk_view b' = m ∧
        r = match m !! k with Some i => Ok i | None => Err err_not_found end;
  bk_Delete_law : ∀ now k b, bk_inv b →
    ∃ r b', bk_Delete now k b = Some (r, b') ∧ bk_inv b' ∧
      if bool_decide (k = []) then r = Err err_missing_key ∧ b' = b else
      ∃ m, purged now (bk_view b) m ∧
        match m !! k with
        | Some _ => r = Ok () ∧ bk_view b' = delete k m
        | None => r = Err err_not_found ∧ bk_view b' = m
        end;
  bk_DeleteRange_law : ∀ now lo hi b, bk_inv b →
    ∃ r b', bk_DeleteRange now lo hi b = Some (r, b') ∧ bk_inv b' ∧
      if bool_decide (lo = []) then r = Err err_missing_startKey ∧ b' = b else
      if bool_decide (hi = []) then r = Err err_missing_endKey ∧ b' = b else
      ∃ m, purged now (bk_view b) m ∧ r = Ok () ∧
        bk_view b' = filter (fun p => in_key_range lo hi p.1 = false) m;
  bk_CompareAndSwap_law : ∀ now e i b, bk_inv b →
    ∃ r b', bk_CompareAndSwap now e i b = Some (r, b') ∧ bk_inv b' ∧
      if bool_decide (it_Key e = []) || bool_decide (it_Key i = [])
      then r = Err err_missing_Key ∧ b' = b else
      if negb (bool_decide (it_Key e = it_Key i)) then r = Err err_keys_match ∧ b' = b else
      ∃ m, purged now (bk_view b) m ∧
        match m !! it_Key e with
        | None => r = Err err_cas_not_found ∧ bk_view b' = m
        | Some cur =>
            if bool_decide (it_Value cur = it_Value e)
            then r = Ok (lease_of i) ∧ stored i m (bk_view b')
            else r = Err err_cas_mismatch ∧ bk_view b' = m
        end;
  bk_KeepAlive_law : ∀ now l expires b, bk_inv b →
    ∃ r b', bk_KeepAlive now l expires b = Some (r, b') ∧ bk_inv b' ∧
      if Lease_IsEmpty l then r = Err err_lease_empty ∧ b' = b else
      ∃ m, purged now (bk_view b) m ∧
        match m !! lease_Key l with
        | None => r = Err err_not_found ∧ bk_view b' = m
        | Some cur => r = Ok () ∧ stored (with_Expires expires cur) m (bk_view b')
        end;
  bk_GetRange_law : ∀ now lo hi limit b, bk_inv b →
    ∃ r b', bk_GetRange now lo hi limit b = Some (r, b') ∧ bk_inv b' ∧
      if bool_decide (lo = []) then r = Err err_missing_startKey ∧ b' = b else
      if bool_decide (hi = []) then r = Err err_missing_endKey ∧ b' = b else
      ∃ m, purged now (bk_view b) m ∧ bk_view b' = m ∧
        r = Ok (take (Z.to_nat (if limit <=? 0 then DefaultRangeLimit else limit))
                  (sorted_range lo hi m))
}.

(** ** IterateRange

    [now] is read at each page; [fn] is the caller's function, threading its
    own state; the fuel bounds the number of pages. *)
Section iterate.
Context `{BL : BackendLaws B} {F : Type}.

Fixpoint IterateRange (fuel : nat) (now : nat → Z) (startKey endKey : bytes) (limit : Z)
    (fn : list Item → F → (bool * option error) * F) (acc : F) :
    goM B (option (option error) * F) :=
  match fuel with
  | O => mret (None, acc)
  | S fuel' =>
      rslt ← bk_GetRange (now fuel) startKey endKey limit;
      match rslt with
      | Err e => mret (Some (Some e), acc)
      | Ok items =>
          let '((stop, err), acc) := fn items acc in
          match err with
          | Some e => mret (Some (Some e), acc)
          | None =>
              if stop || (Z.of_nat (length items) <? limit) then mret (Some None, acc)
              else if limit <=? 0 then go_panic
              else match items !! Z.to_nat (limit - 1) with
                   | None => go_panic
                   | Some last =>
                       IterateRange fuel' now (nextKey (it_Key last)) endKey limit fn acc
                   end
          end
      end
  end.

(** A caller's function that keeps every item and never stops. *)
Definition collect (items acc : list Item) : (bool * option error) * list Item :=
  ((false, None), acc ++ items).
End iterate.

(** Items that never expire are never purged. *)
Lemma purged_forever now m m' :
  (∀ k i, m !! k = Some i → it_Expires i = zero_time) → purged now m m' → m' = m.
Proof.
  intros Hz (Hsub & Hexp & _). apply map_eq. intros k.
  destruct (m' !! k) as [i|] eqn:Hk'.
  - symmetry. by eapply lookup_weaken.
  - destruct (m !! k) as [i|] eqn:Hk; [|done].
    destruct (Hexp k i Hk Hk') as [Hne _]. destruct Hne. by eapply Hz.
Qed.

Lemma range_lookup_key lo hi m n i :
  keyed m → sorted_range lo hi m !! n = Some i →
  range_keys lo hi m !! n = Some (it_Key i).
Proof.
  unfold sorted_range. intros Hkd. revert n.
  induction (range_keys_lookup lo hi m) as [|k ks [v Hv] _ IH]; intros n Hn; [done|].
  cbn in Hn. rewrite Hv in Hn. destruct n; cbn in *; [|by apply IH].
  injection Hn as ->. f_equal. symmetry. by apply Hkd.
Qed.

Lemma IterateRange_collects `{BL : BackendLaws B} m fuel now lo hi limit acc b :
  bk_inv b → bk_view b = m →
  (∀ k i, m !! k = Some i → it_Expires i = zero_time) →
  pageable lo hi m → lo ≠ [] → hi ≠ [] → 0 < limit →
  (length (sorted_range lo hi m) < fuel)%nat →
  ∃ b', IterateRange fuel now lo hi limit collect acc b
      = Some ((Some None, acc ++ sorted_range lo hi m), b') ∧ bk_view b' = m.
Proof.
  intros Hb Hv Hz Hpg Hlo Hhi Hlim Hf.
  revert lo acc b Hb Hv Hpg Hlo Hf. induction fuel as [|fuel IH]; intros; [lia|].
  cbn [IterateRange]. run_goM.
  destruct (bk_GetRange_law (now (S fuel)) lo hi limit b Hb) as (r & b' & Hr & Hb' & Hspec).
  rewrite !bool_decide_eq_false_2 in Hspec by done.
  destruct Hspec as (m' & Hpu & Hv' & ->).
  rewrite Hv in Hpu. apply purged_forever in Hpu as ->; [|done].
  rewrite Hr. rewrite (proj2 (Z.leb_gt limit 0)) by lia. unfold collect at 1. cbn [orb].
  rewrite length_take. case_test; to_prop.
  - exists b'. rewrite take_ge by lia. done.
  - assert (∃ n, Z.to_nat limit = S n) as [n Hn] by (exists (Z.to_nat limit - 1)%nat; lia).
    replace (Z.to_nat (limit - 1)) with n by lia. rewrite Hn in *.
    destruct (lookup_lt_is_Some_2 (sorted_range lo hi m) n ltac:(lia)) as [i Hi].
    rewrite lookup_take_lt, Hi by lia.
    apply range_lookup_key in Hi; [|rewrite <- Hv; by apply bk_view_keyed].
    pose proof (sorted_range_next lo hi m n _ Hpg Hi) as Hsplit.
    destruct (IH (nextKey (it_Key i)) (acc ++ take (S n) (sorted_range lo hi m)) b')
      as (b2 & Hit & Hv2); try done.
    + by eapply pageable_next.
    + apply nextKey_nonempty.
    + assert (length (sorted_range lo hi m) =
        S n + length (sorted_range (nextKey (it_Key i)) hi m))%nat.
      { rewrite Hsplit at 1. rewrite length_app, length_take. lia. }
      lia.
    + exists b2. rewrite Hit, <- app_assoc, <- Hsplit. done.
Qed.

Lemma range_keys_pair lo hi m (a c : bytes) :
  bytes_ltb a c = true → dom m = {[a; c]} →
  in_key_range lo hi a = true → in_key_range lo hi c = true →
  range_keys (V:=Item) lo hi m = [a; c].
Proof.
  intros Hlt Hd Ha Hc. symmetry. apply range_keys_unique.
  - repeat constructor. by apply bytes_ltb_le.
  - apply NoDup_cons. split; [|apply NoDup_singleton].
    rewrite list_elem_of_singleton. intros ->. by rewrite bytes_ltb_irrefl in Hlt.
  - intros k. rewrite <- elem_of_dom, Hd. set_unfold. split; [|tauto].
    intros [->|[->|[]]]; auto.
Qed.

(** ** Properties *)

(** [IterateRange] hands its caller every item of the range, once and in
    key order, whatever the page size, when no key of the range is a proper
    prefix of another one (keys below one directory of fixed-depth paths). *)
Theorem IterateRange_complete `{BL : BackendLaws B} fuel now lo hi limit b :
  bk_inv b → (∀ k i, bk_view b !! k = Some i → it_Expires i = zero_time) →
  pageable lo hi (bk_view b) → lo ≠ [] → hi ≠ [] → 0 < limit →
  (length (sorted_range lo hi (bk_view b)) < fuel)%nat →
  ∃ b', IterateRange fuel now lo hi limit collect [] b
      = Some ((Some None, sorted_range lo hi (bk_view b)), b') ∧
    bk_view b' = bk_view b.
Proof.
  intros Hb Hz Hpg Hlo Hhi Hl Hf.
  destruct (IterateRange_collects (bk_view b) fuel now lo hi limit [] b)
    as (b' & ? & ?); eauto.
Qed.

(** without that assumption items are lost. The next page starts at
    [nextKey] of the last key returned, past every key that extends it: with a
    page of one item, a key [a] hides [a ++ s] from the caller. *)
Theorem IterateRange_skips `{BL : BackendLaws B} fuel now lo hi a x s i j b :
  bk_inv b → bk_view b = <[a := i]> {[ a ++ x :: s := j ]} →
  it_Expires i = zero_time → it_Expires j = zero_time →
  wf_bytes (a ++ x :: s) → has_next a → lo ≠ [] → hi ≠ [] →
  in_key_range lo hi a = true → in_key_range lo hi (a ++ x :: s) = true →
  (2 ≤ fuel)%nat →
  sorted_range lo hi (bk_view b) = [i; j] ∧
  ∃ b', IterateRange fuel now lo hi 1 collect [] b = Some ((Some None, [i]), b').
Proof.
  intros Hb Hv Hi Hj Hwf Hnx Hlo Hhi Hina Hinc Hf. set (c := a ++ x :: s) in *.
  assert (a ≠ c) as Hac.
  { unfold c. intros Hac. apply (f_equal length) in Hac. rewrite length_app in Hac.
    cbn in Hac. lia. }
  pose proof (proj1 (Forall_app is_byte _ _) Hwf) as [Hwa _].
  assert (has_prefix c a = true) as Hpre by (apply has_prefix_app; by exists (x :: s)).
  pose proof (proj1 (nextKey_range a c Hwa Hwf Hnx) Hpre) as [Hle Hltn].
  assert (bytes_ltb a c = true) as Hlt by (apply bytes_le_cases in Hle; tauto).
  assert (∀ k v, bk_view b !! k = Some v → it_Expires v = zero_time) as Hz.
  { intros k v. rewrite Hv, lookup_insert, lookup_singleton.
    repeat case_decide; by intros [= <-]. }
  assert (range_keys lo hi (bk_view b) = [a; c]) as Hrk.
  { apply range_keys_pair; [done| |done..]. rewrite Hv, dom_insert_L, dom_singleton_L. done. }
  assert (sorted_range lo hi (bk_view b) = [i; j]) as Hsr.
  { unfold sorted_range. rewrite Hrk, Hv. cbn [omap list_omap].
    rewrite lookup_insert_eq, lookup_insert_ne, lookup_singleton_eq by done. done. }
  split; [done|]. destruct fuel as [|[|fuel]]; [lia..|].
  cbn [IterateRange]. rewrite goM_bind_unfold.
  destruct (bk_GetRange_law (now (S (S fuel))) lo hi 1 b Hb) as (r & b1 & Hr & Hb1 & Hs).
  rewrite !bool_decide_eq_false_2 in Hs by done. destruct Hs as (m & Hp & Hv1 & ->).
  apply (purged_forever _ _ _ Hz) in Hp as ->. rewrite Hr, Hsr.
  change (take (Z.to_nat (if 1 <=? 0 then DefaultRangeLimit else 1)) [i; j]) with [i].
  cbv beta iota zeta delta [collect app]. cbn [orb length].
  change (Z.of_nat 1 <? 1) with false. change (1 <=? 0) with false. cbv iota.
  change ([i] !! Z.to_nat (1 - 1)) with (Some i). cbv iota. rewrite goM_bind_unfold.
  assert (it_Key i = a) as ->.
  { apply (bk_view_keyed b Hb). by rewrite Hv, lookup_insert_eq. }
  destruct (bk_GetRange_law (now (S fuel)) (nextKey a) hi 1 b1 Hb1)
    as (r2 & b2 & Hr2 & Hb2 & Hs).
  rewrite (bool_decide_eq_false_2 (nextKey a = [])) in Hs by apply nextKey_nonempty.
  rewrite (bool_decide_eq_false_2 (hi = [])) in Hs by done.
  destruct Hs as (m & Hp & Hv2 & ->). rewrite Hv1 in Hp.
  apply (purged_forever _ _ _ Hz) in Hp as ->.
  assert (range_keys (nextKey a) hi (bk_view b) = []) as Hrk2.
  { symmetry. apply range_keys_unique; [constructor|constructor|].
    intros k. rewrite <- elem_of_dom, Hv, dom_insert_L, dom_singleton_L.
    split; [by intros ?%not_elem_of_nil|]. intros [Hin Hk]. exfalso.
    assert (bytes_ltb k (nextKey a) = true) as Hkn.
    { apply elem_of_union in Hk as [->%elem_of_singleton| ->%elem_of_singleton]; [|done].
      by eapply bytes_le_lt_trans. }
    unfold in_key_range in Hin. by rewrite Hkn in Hin. }
  assert (sorted_range (nextKey a) hi (bk_view b) = []) as Hsr2
    by (unfold sorted_range; by rewrite Hrk2).
  rewrite Hr2, Hsr2, take_nil. cbn. by exists b2.
Qed.

(** ** What services store *)

(** The JSON codec of a resource. *)
Class Codec (A : Type) := { encode_json : A → bytes; decode_json : bytes → result A }.
Class CodecLaws (A : Type) `{Codec A} : Prop := { decode_encode : ∀ a, decode_json (encode_json a) = Ok a }.

(** ** Reasoning about a client's calls *)
Section clients.
Context `{BL : BackendLaws B}.

Lemma purged_keeps now m m' k i :
  purged now m m' → m !! k = Some i → ¬ expired now i → m' !! k = Some i.
Proof.
  intros (Hsub & Hexp & _) Hk Hne. destruct (m' !! k) as [j|] eqn:Hk'.
  - pose proof (lookup_weaken _ _ _ _ Hk' Hsub). congruence.
  - by destruct Hne; eapply Hexp.
Qed.

Lemma purged_drops now m m' k i :
  purged now m m' → m !! k = Some i → it_Expires i ≠ zero_time →
  time_unix (it_Expires i) < time_unix now → m' !! k = None.
Proof.
  intros (Hsub & _ & Hdue) Hk Hz Hlt. destruct (m' !! k) as [j|] eqn:Hk'; [|done].
  pose proof (lookup_weaken _ _ _ _ Hk' Hsub) as Hk2. simplify_eq.
  apply Hdue in Hk'. lia.
Qed.

Lemma purged_None now m m' k : purged now m m' → m !! k = None → m' !! k = None.
Proof. intros (Hsub & _) Hk. by eapply lookup_weaken_None. Qed.

(** [i] is stored under [key]. *)
Definition held (key : bytes) (i : Item) (b : B) : Prop := bk_view b !! key = Some i.

Definition runs {A} (c : goM B A) (b : B) (P : A → B → Prop) : Prop :=
  ∃ a b', c b = Some (a, b') ∧ bk_inv b' ∧ P a b'.

Lemma runs_bind {A C} (c : goM B A) (f : A → goM B C) b P Q :
  runs c b P → (∀ a b', bk_inv b' → P a b' → runs (f a) b' Q) → runs (c ≫= f) b Q.
Proof.
  intros (a & b1 & Hc & Hi & HP) Hf. destruct (Hf a b1 Hi HP) as (d & b2 & Hd & ? & ?).
  exists d, b2. split; [|done]. by rewrite goM_bind_unfold, Hc.
Qed.

Lemma runs_ret {A} (a : A) b (P : A → B → Prop) : bk_inv b → P a b → runs (mret a) b P.
Proof. intros ??. by exists a, b. Qed.

Lemma runs_ret_bind {A C} (a : A) (f : A → goM B C) b P : runs (f a) b P → runs (mret a ≫= f) b P.
Proof. exact id. Qed.

Lemma runs_weaken {A} (c : goM B A) b (P Q : A → B → Prop) :
  runs c b P → (∀ a b', P a b' → Q a b') → runs c b Q.
Proof. intros (a & b' & ? & ? & ?) HQ. exists a, b'. by eauto. Qed.

Lemma Get_held now key i b :
  bk_inv b → held key i b → ¬ expired now i →
  runs (bk_Get now key) b (fun r b' =>
    held key i b' ∧ (key ≠ [] → r = Ok i) ∧ (key = [] → r = Err err_missing_key)).
Proof.
  intros Hb Hh Hne. destruct (bk_Get_law now key b Hb) as (r & b' & Hr & Hb' & Hs).
  exists r, b'. split; [done|]. split; [done|]. case_bool_decide.
  - by destruct Hs as [-> ->].
  - destruct Hs as (m & Hp & Hv & ->). pose proof (purged_keeps _ _ _ _ _ Hp Hh Hne) as Hk.
    unfold held. by rewrite Hv, Hk.
Qed.

(** A read of any key leaves an item that has not expired. *)
Lemma Get_other now k key i b :
  bk_inv b → held key i b → ¬ expired now i →
  runs (bk_Get now k) b (fun r b' => held key i b' ∧ ∀ j, r = Ok j → it_Key j = k).
Proof.
  intros Hb Hh Hne. destruct (bk_Get_law now k b Hb) as (r & b' & Hr & Hb' & Hs).
  exists r, b'. split; [done|]. split; [done|]. case_bool_decide.
  - by destruct Hs as [-> ->].
  - destruct Hs as (m & Hp & Hv & ->). unfold held. rewrite Hv.
    split; [by eapply purged_keeps|]. intros j Hj.
    apply (bk_view_keyed b' Hb'). rewrite Hv. by destruct (m !! k); simplify_eq.
Qed.

Lemma stored_other i k j m m' :
  stored i m m' → it_Key i ≠ k → m !! k = Some j → m' !! k = Some j.
Proof. intros [id ->] Hne Hk. by rewrite lookup_insert_ne. Qed.

Lemma Create_held now i0 key i b :
  bk_inv b → held key i b → ¬ expired now i →
  runs (bk_Create now i0) b (fun r b' =>
    held key i b' ∧ (it_Key i0 = key → ∃ e, r = Err e)).
Proof.
  intros Hb Hh Hne. destruct (bk_Create_law now i0 b Hb) as (r & b' & Hr & Hb' & Hs).
  exists r, b'. split; [done|]. split; [done|]. case_bool_decide.
  - destruct Hs as [-> ->]. split; [done|]. intros _. by eexists.
  - destruct Hs as (m & Hp & Hs). pose proof (purged_keeps _ _ _ _ _ Hp Hh Hne) as Hk.
    destruct (m !! it_Key i0) as [j|] eqn:Hj.
    + destruct Hs as [-> Hv]. unfold held. rewrite Hv. split; [done|]. intros _. by eexists.
    + destruct Hs as [-> Hv].
      assert (it_Key i0 ≠ key) as Hk0 by congruence.
      split; [by eapply stored_other|done].
Qed.

Lemma Delete_other now k key i b :
  bk_inv b → held key i b → ¬ expired now i → k ≠ key →
  runs (bk_Delete now k) b (fun r b' => held key i b').
Proof.
  intros Hb Hh Hne Hkk. destruct (bk_Delete_law now k b Hb) as (r & b' & Hr & Hb' & Hs).
  exists r, b'. split; [done|]. split; [done|]. case_bool_decide.
  - by destruct Hs as [_ ->].
  - destruct Hs as (m & Hp & Hs). pose proof (purged_keeps _ _ _ _ _ Hp Hh Hne) as Hk.
    unfold held. destruct (m !! k); destruct Hs as [_ ->]; [|done].
    by rewrite lookup_delete_ne.
Qed.

Lemma CAS_other now e i0 key i b :
  bk_inv b → held key i b → ¬ expired now i → it_Key e ≠ key →
  runs (bk_CompareAndSwap now e i0) b (fun r b' => held key i b').
Proof.
  intros Hb Hh Hne Hkk.
  destruct (bk_CompareAndSwap_law now e i0 b Hb) as (r & b' & Hr & Hb' & Hs).
  exists r, b'. split; [done|]. split; [done|]. case_match; [by destruct Hs as [_ ->]|].
  case_bool_decide as Hke; cbn [negb] in Hs; [|by destruct Hs as [_ ->]].
  destruct Hs as (m & Hp & Hs). pose proof (purged_keeps _ _ _ _ _ Hp Hh Hne) as Hk.
  unfold held. destruct (m !! it_Key e); [|by destruct Hs as [_ ->]].
  case_bool_decide; destruct Hs as [_ Hs]; [|by rewrite Hs].
  eapply stored_other; [done|congruence|done].
Qed.
End clients.
