(* ===== verification/Locks.v ===== *)
(** * The distributed lock (lib/backend/helpers.go)

    A lock is an expiring item under [.locks/<name>] holding a random ID.  Every
    function here is a sequence of backend calls; each call reads the clock, so
    the instants are arguments.  The theorems are proved against
    [BackendLaws]. *)

From S2P Require Import Prelude.
From S2P Require Import Keys.
From S2P Require Import Backend.
Local Open Scope Z_scope.

(** ** Data and operations *)

Definition flagsPrefix : bytes := bytes_of_string ".flags".
Definition locksPrefix : bytes := bytes_of_string ".locks".
Definition FlagKey (parts : list bytes) : bytes := internalKey flagsPrefix parts.
Definition lockKey (parts : list bytes) : bytes := internalKey locksPrefix parts.

Record Lock := mkLock { lk_key : bytes; lk_id : bytes; lk_ttl : Z }.

Definition err_lock_name : error := Error BadParameter "missing parameter lock name".
Definition err_release_expired : error :=
  Error CompareFailed "cannot release lock %s (expired)".
Definition err_release_owner : error :=
  Error CompareFailed "cannot release lock %s (ownership changed)".
Definition err_refresh_expired : error :=
  Error CompareFailed "cannot refresh lock %s (expired)".
Definition err_refresh_owner : error :=
  Error CompareFailed "cannot refresh lock %s (ownership changed)".
(** [trace.WrapWithMessage]: the kind stays, the message is the wrapper's. *)
Definition err_refresh_cas (e : error) : error :=
  Error (err_kind e) "failed to fresh lock %s (cas failed)".

Section locks.
Context `{BL : BackendLaws B}.

(** One turn of [AcquireLock]'s loop: [Get] makes the backend drop an expired
    lock, its answer is ignored; [Create] is atomic. *)
Definition AcquireLock_attempt (now now' : Z) (key id : bytes) (ttl : Z) : goM B (result Lock) :=
  _ ← bk_Get now key;
  r ← bk_Create now' (mkItem key id (now' + ttl) 0 0);
  mret (match r with Ok _ => Ok (mkLock key id ttl) | Err e => Err e end).

(** [clock n] gives the two readings of turn [n]; [wait n] is what happens
    during the 250ms after it: the other clients' calls, and the context's
    error when it was cancelled. [None] is a run cut by the fuel. *)
Fixpoint AcquireLock_loop (fuel n : nat) (clock : nat → Z * Z)
    (wait : nat → goM B (option error)) (key id : bytes) (ttl : Z) :
    goM B (option (result Lock)) :=
  match fuel with
  | O => mret None
  | S fuel =>
      r ← AcquireLock_attempt (clock n).1 (clock n).2 key id ttl;
      match r with
      | Ok l => mret (Some (Ok l))
      | Err e =>
          if has_kind AlreadyExists e then
            c ← wait n;
            match c with
            | Some ctxErr => mret (Some (Err ctxErr))
            | None => AcquireLock_loop fuel (S n) clock wait key id ttl
            end
          else mret (Some (Err e))
      end
  end.

(** [rid] is the outcome of [randomID]. *)
Definition AcquireLock (fuel : nat) (clock : nat → Z * Z) (wait : nat → goM B (option error))
    (lockName : bytes) (rid : result bytes) (ttl : Z) : goM B (option (result Lock)) :=
  if bool_decide (lockName = []) then mret (Some (Err err_lock_name)) else
  let key := lockKey [lockName] in
  match rid with
  | Err e => mret (Some (Err e))
  | Ok id => AcquireLock_loop fuel 0 clock wait key id ttl
  end.

(** [Release] up to its [Delete]: the read and the ownership test. *)
Definition Release_check (now : Z) (l : Lock) : goM B (result unit) :=
  prev ← bk_Get now (lk_key l);
  mret (match prev with
        | Err e => if has_kind NotFound e then Err err_release_expired else Err e
        | Ok prev =>
            if negb (bool_decide (it_Value prev = lk_id l)) then Err err_release_owner
            else Ok ()
        end).

Definition Release (now now' : Z) (l : Lock) : goM B (result unit) :=
  c ← Release_check now l;
  match c with
  | Err e => mret (Err e)
  | Ok _ => bk_Delete now' (lk_key l)
  end.

Definition resetTTL (now now' : Z) (l : Lock) : goM B (result unit) :=
  prev ← bk_Get now (lk_key l);
  match prev with
  | Err e => mret (if has_kind NotFound e then Err err_refresh_expired else Err e)
  | Ok prev =>
      if negb (bool_decide (it_Value prev = lk_id l)) then mret (Err err_refresh_owner) else
      let next := with_Expires (now' + lk_ttl l) prev in
      r ← bk_CompareAndSwap now' prev next;
      mret (match r with Ok _ => Ok () | Err e => Err (err_refresh_cas e) end)
  end.

(** ** Lemmas *)

(** *** Other clients' calls *)

Inductive lock_op :=
  | LAttempt (key id : bytes) (ttl : Z)
  | LRelease (l : Lock)
  | LRefresh (l : Lock).

Definition lop_key (o : lock_op) : bytes :=
  match o with LAttempt k _ _ => k | LRelease l | LRefresh l => lk_key l end.
Definition lop_id (o : lock_op) : bytes :=
  match o with LAttempt _ id _ => id | LRelease l | LRefresh l => lk_id l end.

Definition run_lock_op (o : lock_op) (now now' : Z) : goM B (result unit) :=
  match o with
  | LAttempt k id ttl =>
      r ← AcquireLock_attempt now now' k id ttl;
      mret (match r with Ok _ => Ok () | Err e => Err e end)
  | LRelease l => Release now now' l
  | LRefresh l => resetTTL now now' l
  end.

(** A call of a client that does not hold the lock [key] with [id]. *)
Definition foreign (key id : bytes) (o : lock_op) : Prop := lop_key o ≠ key ∨ lop_id o ≠ id.

Lemma not_expired_before now i : now < it_Expires i → ¬ expired now i.
Proof. unfold expired. lia. Qed.

Lemma lock_op_foreign o now now' key i b :
  bk_inv b → held key i b → now < it_Expires i → now' < it_Expires i →
  (lop_key o ≠ key ∨ (lop_id o ≠ it_Value i ∨ ∃ k id t, o = LAttempt k id t)) →
  runs (run_lock_op o now now') b (fun r b' =>
    held key i b' ∧ (lop_key o = key → is_Ok r = false)).
Proof.
  intros Hb Hh H1%not_expired_before H2%not_expired_before Hf.
  destruct o as [k id ttl|l|l]; cbn [run_lock_op lop_key lop_id] in *.
  - eapply runs_bind.
    { eapply runs_bind; [by apply Get_other|]. cbv beta. intros r b1 Hb1 [Hh1 _].
      eapply runs_bind; [by apply Create_held|]. cbv beta. intros r2 b2 Hb2 Hr2.
      apply (runs_ret _ b2 (fun r b' => held key i b' ∧ (k = key → is_Ok r = false)));
        [done|].
      split; [by destruct Hr2|]. intros Hk. by destruct (proj2 Hr2 Hk) as [e ->]. }
    cbv beta. intros r b1 Hb1 [Hh1 Hr]. apply runs_ret; [done|]. split; [done|].
    intros Hk. specialize (Hr Hk). by destruct r.
  - unfold Release, Release_check.
    destruct (decide (lk_key l = key)) as [Hk|Hk].
    + destruct Hf as [|[Hf|(?&?&?&[=])]]; [done|]. rewrite Hk.
      eapply runs_bind; [eapply runs_bind; [by apply (Get_held now key i)|]|].
      * cbv beta. intros r b1 Hb1 (Hh1 & Hr1 & Hr2).
        apply (runs_ret _ b1 (fun r b' => held key i b' ∧ ∃ e, r = Err e)); [done|].
        split; [done|]. destruct (decide (key = [])) as [H0|H0].
        -- rewrite (Hr2 H0). case_match; by eexists.
        -- rewrite (Hr1 H0). rewrite bool_decide_eq_false_2 by congruence. by eexists.
      * cbv beta. intros r b1 Hb1 (Hh1 & e & ->). by apply runs_ret.
    + eapply runs_bind; [eapply runs_bind; [by apply (Get_other now (lk_key l))|]|].
      * cbv beta. intros r b1 Hb1 [Hh1 _].
        by apply (runs_ret _ b1 (fun r b' => held key i b')).
      * cbv beta. intros [a|e] b1 Hb1 Hh1; [|by apply runs_ret].
        destruct (Delete_other now' (lk_key l) key i b1) as (r & b2 & ? & ? & ?); try done.
        exists r, b2. by split_and!.
  - unfold resetTTL. destruct (decide (lk_key l = key)) as [Hk|Hk].
    + destruct Hf as [|[Hf|(?&?&?&[=])]]; [done|]. rewrite Hk.
      eapply runs_bind; [by apply (Get_held now key i)|].
      cbv beta. intros r b1 Hb1 (Hh1 & Hr1 & Hr2).
      destruct (decide (key = [])) as [H0|H0].
      * rewrite (Hr2 H0). apply runs_ret; [done|]. split; [done|]. by case_match.
      * rewrite (Hr1 H0), bool_decide_eq_false_2 by (intros Heq; by destruct Hf). by apply runs_ret.
    + eapply runs_bind; [by apply (Get_other now (lk_key l))|].
      cbv beta. intros [j|e] b1 Hb1 [Hh1 Hj]; [|by apply runs_ret].
      case_match; [by apply runs_ret|]. specialize (Hj j eq_refl).
      eapply runs_bind; [apply (CAS_other _ j _ key i); [done..|congruence]|].
      cbv beta. intros r b2 Hb2 Hh2. by apply runs_ret.
Qed.

(** Calls one after the other, each with its two clock readings. *)
Fixpoint run_lock_ops (os : list (lock_op * Z * Z)) : goM B (list (result unit)) :=
  match os with
  | [] => mret []
  | (o, now, now') :: os =>
      r ← run_lock_op o now now';
      rs ← run_lock_ops os;
      mret (r :: rs)
  end.

(** An attempt's two outcomes. On failure the lock stands in the way, and it
    was not due in a second before the attempt's. *)
Lemma attempt_spec now now' key id ttl b :
  bk_inv b → key ≠ [] →
  runs (AcquireLock_attempt now now' key id ttl) b (fun r b' =>
    match r with
    | Ok l => l = mkLock key id ttl ∧ ∃ n, held key (mkItem key id (now' + ttl) n 0) b'
    | Err e => e = err_exists ∧ ∃ j, held key j b ∧ held key j b' ∧
        (it_Expires j = zero_time ∨ time_unix now ≤ time_unix (it_Expires j))
    end).
Proof.
  intros Hb Hk. unfold AcquireLock_attempt.
  destruct (bk_Get_law now key b Hb) as (r1 & b1 & Hr1 & Hb1 & Hs1).
  rewrite bool_decide_eq_false_2 in Hs1 by done. destruct Hs1 as (m1 & Hp1 & Hv1 & _).
  set (it := mkItem key id (now' + ttl) 0 0).
  destruct (bk_Create_law now' it b1 Hb1) as (r2 & b2 & Hr2 & Hb2 & Hs2).
  rewrite bool_decide_eq_false_2 in Hs2 by done. destruct Hs2 as (m2 & Hp2 & Hs2).
  rewrite Hv1 in Hp2. cbn [it_Key it] in Hs2.
  eexists _, b2. rewrite goM_bind_unfold, Hr1, goM_bind_unfold, Hr2.
  split; [reflexivity|]. split; [done|].
  destruct (m2 !! key) as [j|] eqn:Hj; destruct Hs2 as [-> Hv2].
  - split; [done|]. exists j. destruct Hp1 as (Hsub1 & _ & Hdue), Hp2 as (Hsub2 & _ & _).
    pose proof (lookup_weaken _ _ _ _ Hj Hsub2) as Hj1.
    split_and!; [by eapply lookup_weaken| |by eapply Hdue].
    unfold held. by rewrite Hv2.
  - split; [done|]. destruct Hv2 as [n Hv2]. exists n. unfold held. rewrite Hv2.
    by rewrite lookup_insert_eq.
Qed.

(** What the other clients do during a wait: it ends, keeps the invariant and
    brings no other item under [key]. *)
Definition quiet (key : bytes) (w : goM B (option error)) : Prop :=
  ∀ b, bk_inv b → runs w b (fun c b' => c = None ∧ ∀ j, held key j b' → held key j b).

Lemma AcquireLock_loop_acquires k fuel n clock wait key id ttl b :
  bk_inv b → key ≠ [] → (∀ n, quiet key (wait n)) →
  (∀ j, held key j b → it_Expires j ≠ zero_time ∧
     time_unix (it_Expires j) < time_unix (clock (n + k)%nat).1) →
  (k < fuel)%nat →
  runs (AcquireLock_loop fuel n clock wait key id ttl) b (fun r b' =>
    r = Some (Ok (mkLock key id ttl)) ∧
    ∃ x c, (n ≤ x ≤ n + k)%nat ∧ held key (mkItem key id ((clock x).2 + ttl) c 0) b').
Proof.
  intros Hb Hk Hq. revert fuel n b Hb. induction k as [|k IH]; intros fuel n b Hb Hdue Hf;
    (destruct fuel as [|fuel]; [lia|]); cbn [AcquireLock_loop];
    (eapply runs_bind; [by apply attempt_spec|]); cbv beta; intros [l|e] b1 Hb1.
  - intros (-> & c & Hc). apply runs_ret; [done|]. split; [done|].
    exists n, c. split; [lia|done].
  - intros (_ & j & Hj & _ & Hz). apply Hdue in Hj as [? Hlt].
    rewrite Nat.add_0_r in Hlt. destruct Hz; [done|lia].
  - intros (-> & c & Hc). apply runs_ret; [done|]. split; [done|].
    exists n, c. split; [lia|done].
  - intros (-> & j & Hj & Hj1 & _). unfold has_kind. rewrite bool_decide_eq_true_2 by done.
    eapply runs_bind; [by apply Hq|]. cbv beta. intros c b2 Hb2 [-> Hback].
    destruct (IH fuel (S n) b2) as (r & b3 & Hr & Hb3 & -> & x & cc & Hx & Hh); [done|..].
    + intros j' Hj'. apply Hback in Hj'. unfold held in *. rewrite Hj1 in Hj'. simplify_eq.
      replace (S n + k)%nat with (n + S k)%nat by lia. by apply Hdue.
    + lia.
    + exists (Some (Ok (mkLock key id ttl))), b3. split; [done|]. split; [done|].
      split; [done|]. exists x, cc. split; [lia|done].
Qed.

Lemma lockKey_nonempty parts : lockKey parts ≠ [].
Proof. unfold lockKey, internalKey. by destruct parts. Qed.

(** ** Properties *)

(** C27: mutual exclusion. While a lock's item is stored and has not expired,
    no sequence of other clients' attempts, releases and refreshes (nor any
    new attempt at all) removes or changes it, and each one made on that lock
    fails. *)
Theorem lock_exclusive key i os b :
  bk_inv b → held key i b →
  Forall (fun '(o, now, now') =>
    now < it_Expires i ∧ now' < it_Expires i ∧
    (foreign key (it_Value i) o ∨ ∃ k id t, o = LAttempt k id t)) os →
  ∃ rs b', run_lock_ops os b = Some (rs, b') ∧ held key i b' ∧
    Forall2 (fun o r => lop_key o.1.1 = key → is_Ok r = false) os rs.
Proof.
  intros Hb Hh Hos. revert b Hb Hh.
  induction Hos as [|[[o now] now'] os (H1 & H2 & Hf) _ IH]; intros b Hb Hh.
  { exists [], b. by split_and!. }
  destruct (lock_op_foreign o now now' key i b) as (r & b1 & Hr & Hb1 & Hh1 & Hk); try done.
  { unfold foreign in Hf. tauto. }
  destruct (IH b1 Hb1 Hh1) as (rs & b2 & Hrs & Hh2 & Hall).
  exists (r :: rs), b2. cbn [run_lock_ops]. rewrite goM_bind_unfold, Hr.
  rewrite goM_bind_unfold, Hrs. split_and!; [done..|]. by constructor.
Qed.

(** C38: [AcquireLock] does not wait forever. If the lock in the way expires,
    nobody else calls for it during the waits, none of which is cancelled, and the
    turns go on for long enough, the turn that starts in a later second at the
    latest takes the lock; its item then carries the caller's ID
    and expires [ttl] after a reading of the clock. *)
Theorem AcquireLock_acquires k fuel clock wait name id ttl b :
  bk_inv b → name ≠ [] → (∀ n, quiet (lockKey [name]) (wait n)) →
  (∀ j, held (lockKey [name]) j b → it_Expires j ≠ zero_time ∧
     time_unix (it_Expires j) < time_unix (clock k).1) →
  (k < fuel)%nat →
  runs (AcquireLock fuel clock wait name (Ok id) ttl) b (fun r b' =>
    r = Some (Ok (mkLock (lockKey [name]) id ttl)) ∧
    ∃ x c, (x ≤ k)%nat ∧
      held (lockKey [name]) (mkItem (lockKey [name]) id ((clock x).2 + ttl) c 0) b').
Proof.
  intros Hb Hn Hq Hdue Hf. unfold AcquireLock. rewrite bool_decide_eq_false_2 by done.
  destruct (AcquireLock_loop_acquires k fuel 0 clock wait (lockKey [name]) id ttl b)
    as (r & b' & ? & ? & -> & x & c & Hx & Hh); try done.
  exists (Some (Ok (mkLock (lockKey [name]) id ttl))), b'.
  split; [done|]. split; [done|]. split; [done|]. exists x, c. split; [lia|done].
Qed.

(** the holder's own calls. Before the lock expires, [Release] removes it
    and [resetTTL] moves its expiry to [ttl] after the call. *)
Theorem lock_owner_calls l i now now' b :
  bk_inv b → lk_key l ≠ [] → held (lk_key l) i b → it_Value i = lk_id l →
  now < it_Expires i → now' < it_Expires i →
  runs (Release now now' l) b (fun r b' => r = Ok () ∧ bk_view b' !! lk_key l = None) ∧
  runs (resetTTL now now' l) b (fun r b' => r = Ok () ∧
    ∃ n, held (lk_key l) (with_ID n (with_Expires (now' + lk_ttl l) i)) b').
Proof.
  intros Hb Hk Hh Hv H1%not_expired_before H2%not_expired_before.
  pose proof (bk_view_keyed b Hb _ _ Hh) as Hki.
  split.
  - unfold Release, Release_check.
    eapply runs_bind; [eapply runs_bind; [by apply (Get_held now _ i)|]|].
    + cbv beta. intros r b1 Hb1 (Hh1 & Hr & _). rewrite (Hr Hk), Hv, bool_decide_eq_true_2 by done.
      by apply (runs_ret _ b1 (fun r b' => r = Ok () ∧ held (lk_key l) i b')).
    + cbv beta. intros r b1 Hb1 [-> Hh1].
      destruct (bk_Delete_law now' (lk_key l) b1 Hb1) as (r & b2 & Hr & Hb2 & Hs).
      rewrite bool_decide_eq_false_2 in Hs by done. destruct Hs as (m & Hp & Hs).
      rewrite (purged_keeps _ _ _ _ _ Hp Hh1 H2) in Hs. destruct Hs as [-> Hvw].
      exists (Ok ()), b2. split_and!; [done..|]. rewrite Hvw. apply lookup_delete_eq.
  - unfold resetTTL. eapply runs_bind; [by apply (Get_held now _ i)|].
    cbv beta. intros r b1 Hb1 (Hh1 & Hr & _). rewrite (Hr Hk), Hv, bool_decide_eq_true_2 by done.
    cbn [negb]. set (nx := with_Expires (now' + lk_ttl l) i).
    destruct (bk_CompareAndSwap_law now' i nx b1 Hb1) as (r2 & b2 & Hr2 & Hb2 & Hs).
    cbn [it_Key nx with_Expires] in Hs. rewrite Hki in Hs.
    rewrite !(bool_decide_eq_false_2 (lk_key l = [])) in Hs by done.
    rewrite bool_decide_eq_true_2 in Hs by done. destruct Hs as (m & Hp & Hs).
    rewrite (purged_keeps _ _ _ _ _ Hp Hh1 H2), bool_decide_eq_true_2 in Hs by done.
    destruct Hs as [-> [n Hvw]]. cbn [it_Key nx with_Expires] in Hvw.
    rewrite Hki in Hvw.
    eexists _, b2. rewrite goM_bind_unfold, Hr2. split_and!; [reflexivity|done|done|].
    exists n. unfold held. by rewrite Hvw, lookup_insert_eq.
Qed.

(** [Release] is a read followed by an unconditional [Delete]. When the
    lock expires between the two and another client acquires it, the first
    client's [Delete] succeeds and removes the second client's lock, although
    that one has not expired. *)
Theorem Release_race l i id2 ttl2 t0 t1 t1' t2 b :
  bk_inv b → lk_key l ≠ [] → held (lk_key l) i b → it_Value i = lk_id l →
  t0 < it_Expires i → it_Expires i ≠ zero_time →
  time_unix (it_Expires i) < time_unix t1 → t2 < t1' + ttl2 →
  runs (c ← Release_check t0 l;
        a ← AcquireLock_attempt t1 t1' (lk_key l) id2 ttl2;
        d ← bk_Delete t2 (lk_key l);
        mret (c, a, d)) b (fun r b' =>
    r = (Ok (), Ok (mkLock (lk_key l) id2 ttl2), Ok ()) ∧ bk_view b' !! lk_key l = None).
Proof.
  intros Hb Hk Hh Hv H0%not_expired_before Hz Ht1 Ht2. unfold Release_check.
  eapply runs_bind; [eapply runs_bind; [by apply (Get_held t0 _ i)|]|].
  { cbv beta. intros r b1 Hb1 (Hh1 & Hr & _). rewrite (Hr Hk), Hv, bool_decide_eq_true_2 by done.
    by apply (runs_ret _ b1 (fun r b' => r = Ok () ∧ held (lk_key l) i b')). }
  cbv beta. intros c b1 Hb1 [-> Hh1].
  eapply runs_bind; [by apply attempt_spec|]. cbv beta. intros [a|e] b2 Hb2; last first.
  { intros (_ & j & Hj & _ & [|]); unfold held in *; simplify_eq; lia. }
  intros [-> [n Hn]].
  destruct (bk_Delete_law t2 (lk_key l) b2 Hb2) as (r & b3 & Hr & Hb3 & Hs).
  rewrite bool_decide_eq_false_2 in Hs by done. destruct Hs as (m & Hp & Hs).
  rewrite (purged_keeps _ _ _ _ _ Hp Hn) in Hs by (apply not_expired_before; done).
  destruct Hs as [-> Hvw].
  eexists _, b3. rewrite goM_bind_unfold, Hr. split_and!; [reflexivity|done|done|].
  rewrite Hvw. apply lookup_delete_eq.
Qed.
End locks.
