(* ===== verification/LockedRun.v ===== *)
(** * Running while a lock is held (lib/backend/helpers.go)

    [RunWhileLocked] takes a lock, runs a function while a goroutine refreshes
    the lock, and releases it. What happens while the function runs is a list of
    events: a refresh of the goroutine, or the call of another client. *)

From S2P Require Import Prelude.
From S2P Require Import Keys.
From S2P Require Import Backend.
From S2P Require Import Locks.
Local Open Scope Z_scope.

Section run.
Context `{BL : BackendLaws B}.

Inductive locked_event := Refresh (now now' : Z) | Other (o : lock_op) (now now' : Z).

(** The goroutine ends, and cancels the context of the function, when a refresh
    fails: [alive] is that it has not. The answers to other clients are kept. *)
Fixpoint while_locked (l : Lock) (events : list locked_event) (alive : bool) : goM B (bool * list (result unit)) :=
  match events with
  | [] => mret (alive, [])
  | Refresh now now' :: events =>
      if alive then
        r ← resetTTL now now' l;
        while_locked l events (is_Ok r)
      else while_locked l events false
  | Other o now now' :: events =>
      r ← run_lock_op o now now';
      '(alive, rs) ← while_locked l events alive;
      mret (alive, r :: rs)
  end.

(** Errors of an aggregate: none is success. *)
Definition NewAggregate (fnErr : option error) (err : error) : list error := option_list fnErr ++ [err].

(** [fn] is what the function returns, told whether its context was cancelled.
    [None] is a wait for the lock that is cut by the fuel. *)
Definition RunWhileLocked (fuel : nat) (clock : nat → Z * Z) (wait : nat → goM B (option error))
    (lockName : bytes) (rid : result bytes) (ttl : Z) (events : list locked_event) (fn : bool → option error)
    (now now' : Z) : goM B (option (list error) * list (result unit)) :=
  lock ← AcquireLock fuel clock wait lockName rid ttl;
  match lock with
  | None => mret (None, [])
  | Some (Err e) => mret (Some [e], [])
  | Some (Ok lock) =>
      '(alive, rs) ← while_locked lock events true;
      let fnErr := fn (negb alive) in
      r ← Release now now' lock;
      mret (Some (match r with Err e => NewAggregate fnErr e | Ok _ => option_list fnErr end), rs)
  end.

(** ** The lock is held throughout *)

(** Every event comes before the lock expires, and the last one leaves it in
    force at [stop]: a refresh moves the expiry. *)
Fixpoint paced (key id : bytes) (ttl expires : Z) (events : list locked_event) (now now' : Z) : Prop :=
  match events with
  | [] => now < expires ∧ now' < expires
  | Refresh t t' :: events => t < expires ∧ t' < expires ∧ paced key id ttl (t' + ttl) events now now'
  | Other o t t' :: events =>
      t < expires ∧ t' < expires ∧ (foreign key id o ∨ ∃ k i d, o = LAttempt k i d) ∧ paced key id ttl expires events now now'
  end.
Fixpoint others (events : list locked_event) : list lock_op :=
  match events with [] => [] | Refresh _ _ :: events => others events | Other o _ _ :: events => o :: others events end.

Lemma while_locked_holds l i events now now' b :
  bk_inv b → lk_key l ≠ [] → held (lk_key l) i b → it_Value i = lk_id l →
  paced (lk_key l) (lk_id l) (lk_ttl l) (it_Expires i) events now now' →
  runs (while_locked l events true) b (fun '(alive, rs) b' =>
    alive = true ∧ Forall2 (fun o r => lop_key o = lk_key l → is_Ok r = false) (others events) rs ∧
    ∃ j, held (lk_key l) j b' ∧ it_Value j = lk_id l ∧ now < it_Expires j ∧ now' < it_Expires j).
Proof.
  intros Hb Hk. revert i b Hb. induction events as [|[t t'|o t t'] events IH]; intros i b Hb Hh Hv Hp;
    cbn [while_locked paced others] in *.
  - apply runs_ret; [done|]. split; [done|]. split; [constructor|]. by exists i.
  - destruct Hp as (H1 & H2 & Hp). eapply runs_bind; [by apply (lock_owner_calls l i t t' b)|].
    cbv beta. intros r b1 Hb1 [-> [n Hn]]. cbn [is_Ok]. by eapply IH.
  - destruct Hp as (H1 & H2 & Hf & Hp). unfold foreign in Hf. rewrite <- Hv in Hf.
    eapply runs_bind; [apply (lock_op_foreign o t t' (lk_key l) i b); [done..|tauto]|].
    cbv beta. intros r b1 Hb1 [Hh1 Hr].
    eapply runs_bind; [by apply (IH i b1 Hb1 Hh1 Hv)|]. cbv beta.
    intros [alive rs] b2 Hb2 (-> & Hrs & Hj). apply runs_ret; [done|]. split; [done|]. split; [by constructor|done].
Qed.

(** a function that runs while locked runs alone: when the refreshes keep
    pace with the expiry, every call that another client makes on the lock fails
    until the function has returned, its context is not cancelled, its result is
    the result, and the lock is then free. *)
Theorem RunWhileLocked_exclusive k fuel clock wait name id ttl events fn now now' b :
  bk_inv b → name ≠ [] → (∀ n, quiet (lockKey [name]) (wait n)) →
  (∀ j, held (lockKey [name]) j b → it_Expires j ≠ zero_time ∧
     time_unix (it_Expires j) < time_unix (clock k).1) →
  (k < fuel)%nat →
  (∀ x, (x ≤ k)%nat → paced (lockKey [name]) id ttl ((clock x).2 + ttl) events now now') →
  runs (RunWhileLocked fuel clock wait name (Ok id) ttl events fn now now') b (fun '(errs, rs) b' =>
    errs = Some (option_list (fn false)) ∧
    Forall2 (fun o r => lop_key o = lockKey [name] → is_Ok r = false) (others events) rs ∧
    bk_view b' !! lockKey [name] = None).
Proof.
  intros Hb Hn Hq Hdue Hf Hp. unfold RunWhileLocked.
  pose proof (lockKey_nonempty [name]) as Hk.
  assert (runs (AcquireLock fuel clock wait name (Ok id) ttl) b (fun r b' =>
    r = Some (Ok (mkLock (lockKey [name]) id ttl)) ∧
    ∃ x c, (0 ≤ x ≤ 0 + k)%nat ∧ held (lockKey [name]) (mkItem (lockKey [name]) id ((clock x).2 + ttl) c 0) b')) as Ha.
  { unfold AcquireLock. rewrite bool_decide_eq_false_2 by done. by apply AcquireLock_loop_acquires. }
  eapply runs_bind; [exact Ha|]. cbv beta. intros r b1 Hb1 (-> & x & c & Hx & Hh).
  eapply runs_bind.
  { eapply (while_locked_holds (mkLock (lockKey [name]) id ttl)); [done..| |]; [done|]. apply Hp. lia. }
  cbv beta. intros [alive rs] b2 Hb2 (-> & Hrs & j & Hj & Hv & H1 & H2).
  eapply runs_bind; [by apply (lock_owner_calls (mkLock (lockKey [name]) id ttl) j now now' b2)|].
  cbv beta. intros r b3 Hb3 [-> Hfree]. by apply runs_ret.
Qed.
End run.
