(* ===== verification/Sanitizer.v ===== *)
(** * The sanitizer (lib/backend/sanitize.go)

    A backend wrapped so that every key a caller names passes [isKeySafe]. It
    is itself a backend: [Sanitizer B] gets the operations of [B], and keeps
    every key of the store safe. *)

From S2P Require Import Prelude.
From S2P Require Import Keys.
From S2P Require Import Backend.
Local Open Scope Z_scope.

Record Sanitizer (B : Type) := NewSanitizer { sz_backend : B }.
Arguments NewSanitizer {B} sz_backend.
Arguments sz_backend {B} s.

Definition err_unsafe : error :=
  Error BadParameter
    "special characters are not allowed in resource names, please use name composed only from characters, hyphens, dots, and plus signs: %q".

(** A call of the wrapped backend. *)
Definition forward {B A} (c : goM B A) : goM (Sanitizer B) A := fun s =>
  match c (sz_backend s) with
  | Some (a, b) => Some (a, NewSanitizer b)
  | None => None
  end.

Section operations.
Context `{BackendOps B}.

Definition Sanitizer_GetRange (now : Z) (lo hi : bytes) (limit : Z) :
    goM (Sanitizer B) (result (list Item)) :=
  if negb (isKeySafe lo) then mret (Err err_unsafe)
  else forward (bk_GetRange now lo hi limit).

Definition Sanitizer_Create (now : Z) (i : Item) : goM (Sanitizer B) (result Lease) :=
  if negb (isKeySafe (it_Key i)) then mret (Err err_unsafe) else forward (bk_Create now i).

Definition Sanitizer_Put (now : Z) (i : Item) : goM (Sanitizer B) (result Lease) :=
  if negb (isKeySafe (it_Key i)) then mret (Err err_unsafe) else forward (bk_Put now i).

Definition Sanitizer_Update (now : Z) (i : Item) : goM (Sanitizer B) (result Lease) :=
  if negb (isKeySafe (it_Key i)) then mret (Err err_unsafe) else forward (bk_Update now i).

Definition Sanitizer_Get (now : Z) (key : bytes) : goM (Sanitizer B) (result Item) :=
  if negb (isKeySafe key) then mret (Err err_unsafe) else forward (bk_Get now key).

Definition Sanitizer_CompareAndSwap (now : Z) (expected replaceWith : Item) :
    goM (Sanitizer B) (result Lease) :=
  if negb (isKeySafe (it_Key expected)) then mret (Err err_unsafe)
  else forward (bk_CompareAndSwap now expected replaceWith).

Definition Sanitizer_Delete (now : Z) (key : bytes) : goM (Sanitizer B) (result unit) :=
  if negb (isKeySafe key) then mret (Err err_unsafe) else forward (bk_Delete now key).

Definition Sanitizer_DeleteRange (now : Z) (lo hi : bytes) : goM (Sanitizer B) (result unit) :=
  if negb (isKeySafe lo) then mret (Err err_unsafe) else forward (bk_DeleteRange now lo hi).

Definition Sanitizer_KeepAlive (now : Z) (lease : Lease) (expires : Z) :
    goM (Sanitizer B) (result unit) :=
  if negb (isKeySafe (lease_Key lease)) then mret (Err err_unsafe)
  else forward (bk_KeepAlive now lease expires).

(** [newWatcher] is the wrapped backend's [NewWatcher]. *)
Definition Sanitizer_NewWatcher {W} (newWatcher : goM B (result W)) (prefixes : list bytes) :
    goM (Sanitizer B) (result W) :=
  if existsb (fun prefix => negb (isKeySafe prefix)) prefixes then mret (Err err_unsafe)
  else forward newWatcher.
End operations.

#[export] Instance sanitizer_ops `{BackendOps B} : BackendOps (Sanitizer B) := {
  bk_Create := Sanitizer_Create;
  bk_Put := Sanitizer_Put;
  bk_Update := Sanitizer_Update;
  bk_CompareAndSwap := Sanitizer_CompareAndSwap;
  bk_Get := Sanitizer_Get;
  bk_GetRange := Sanitizer_GetRange;
  bk_Delete := Sanitizer_Delete;
  bk_DeleteRange := Sanitizer_DeleteRange;
  bk_KeepAlive := Sanitizer_KeepAlive
}.

(** The key the sanitizer tests. *)
Definition tested_key (c : backend_call) : bytes :=
  match c with
  | CCreate i | CPut i | CUpdate i | CCompareAndSwap i _ => it_Key i
  | CGet k | CDelete k => k
  | CGetRange lo _ _ | CDeleteRange lo _ => lo
  | CKeepAlive l _ => lease_Key l
  end.

(** Keys that come into the store with a call lie under the tested key. *)
Definition view_grows (k : bytes) (m m' : gmap bytes Item) : Prop :=
  ∀ k' i, m' !! k' = Some i → k' = k ∨ is_Some (m !! k').

Section laws.
Context `{BL : BackendLaws B}.

Lemma purged_grows now k m m' : purged now m m' → view_grows k m m'.
Proof. intros (Hsub & _) k' i Hk. right. exists i. by eapply lookup_weaken. Qed.

Lemma stored_grows now i m m1 m2 :
  purged now m m1 → stored i m1 m2 → view_grows (it_Key i) m m2.
Proof.
  intros Hp [id ->] k' j Hk. destruct (decide (k' = it_Key i)) as [->|Hne]; [by left|].
  rewrite lookup_insert_ne in Hk by done. by eapply purged_grows.
Qed.

Lemma grows_refl k m : view_grows k m m.
Proof. intros k' i Hk. right. by exists i. Qed.

Lemma call_grows c now b :
  bk_inv b → ∃ r b', run_call c now b = Some (r, b') ∧ bk_inv b' ∧
    view_grows (tested_key c) (bk_view b) (bk_view b').
Proof.
  intros Hb. assert (∀ A (x : goM B (result A)) P,
    (∃ r b', x b = Some (r, b') ∧ bk_inv b' ∧ P r b') →
    (∀ r b', P r b' → view_grows (tested_key c) (bk_view b) (bk_view b')) →
    ∃ r b', drop_answer x b = Some (r, b') ∧ bk_inv b' ∧
      view_grows (tested_key c) (bk_view b) (bk_view b')) as Hrun.
  { intros A x P (r & b' & Hx & Hi & HP) HPv. unfold drop_answer. eexists _, b'.
    rewrite goM_bind_unfold, Hx. split; [reflexivity|]. split; [done|]. by eapply HPv. }
  destruct c; cbn [run_call tested_key] in *.
  - eapply Hrun; [by apply bk_Create_law|]. cbv beta. intros r b' Hs. case_bool_decide.
    + destruct Hs as [_ ->]. apply grows_refl.
    + destruct Hs as (m & Hp & Hs). destruct (m !! it_Key i); destruct Hs as [_ Hs].
      * rewrite Hs. by eapply purged_grows.
      * by eapply stored_grows.
  - eapply Hrun; [by apply bk_Put_law|]. cbv beta. intros r b' Hs. case_bool_decide.
    + destruct Hs as [_ ->]. apply grows_refl.
    + destruct Hs as (m & Hp & _ & Hs). by eapply stored_grows.
  - eapply Hrun; [by apply bk_Update_law|]. cbv beta. intros r b' Hs. case_bool_decide.
    + destruct Hs as [_ ->]. apply grows_refl.
    + destruct Hs as (m & Hp & Hs). destruct (m !! it_Key i); destruct Hs as [_ Hs].
      * by eapply stored_grows.
      * rewrite Hs. by eapply purged_grows.
  - eapply Hrun; [by apply bk_CompareAndSwap_law|]. cbv beta. intros r b' Hs.
    case_match; [destruct Hs as [_ ->]; apply grows_refl|].
    case_bool_decide as Hk; cbn [negb] in Hs; [|destruct Hs as [_ ->]; apply grows_refl].
    destruct Hs as (m & Hp & Hs). rewrite Hk in *. destruct (m !! it_Key i).
    + case_bool_decide; destruct Hs as [_ Hs]; [by eapply stored_grows|].
      rewrite Hs. by eapply purged_grows.
    + destruct Hs as [_ ->]. by eapply purged_grows.
  - eapply Hrun; [by apply bk_Get_law|]. cbv beta. intros r b' Hs. case_bool_decide.
    + destruct Hs as [_ ->]. apply grows_refl.
    + destruct Hs as (m & Hp & -> & _). by eapply purged_grows.
  - eapply Hrun; [by apply bk_GetRange_law|]. cbv beta. intros r b' Hs.
    repeat case_bool_decide; try (destruct Hs as [_ ->]; apply grows_refl).
    destruct Hs as (m & Hp & -> & _). by eapply purged_grows.
  - eapply Hrun; [by apply bk_Delete_law|]. cbv beta. intros r b' Hs. case_bool_decide.
    + destruct Hs as [_ ->]. apply grows_refl.
    + destruct Hs as (m & Hp & Hs). destruct (m !! k); destruct Hs as [_ ->].
      * intros k' j Hk'. apply lookup_delete_Some in Hk' as [_ Hk']. by eapply purged_grows.
      * by eapply purged_grows.
  - eapply Hrun; [by apply bk_DeleteRange_law|]. cbv beta. intros r b' Hs.
    repeat case_bool_decide; try (destruct Hs as [_ ->]; apply grows_refl).
    destruct Hs as (m & Hp & _ & ->). intros k' j Hk'.
    apply map_lookup_filter_Some in Hk' as [Hk' _]. by eapply purged_grows.
  - eapply Hrun; [by apply bk_KeepAlive_law|]. cbv beta. intros r b' Hs.
    case_match; [destruct Hs as [_ ->]; apply grows_refl|].
    destruct Hs as (m & Hp & Hs). destruct (m !! lease_Key l) as [cur|] eqn:Hc;
      destruct Hs as [_ Hs]; [|rewrite Hs; by eapply purged_grows].
    pose proof (stored_grows _ _ _ _ _ Hp Hs) as Hg. cbn [it_Key with_Expires] in Hg.
    destruct Hp as (Hsub & _). pose proof (lookup_weaken _ _ _ _ Hc Hsub) as Hc0.
    by rewrite (bk_view_keyed b Hb _ _ Hc0) in Hg.
Qed.

(** Every key of the store is safe. *)
Definition all_safe (m : gmap bytes Item) : Prop :=
  ∀ k i, m !! k = Some i → isKeySafe k = true.

Lemma run_call_sanitized c now (s : Sanitizer B) :
  run_call c now s =
    if isKeySafe (tested_key c)
    then match run_call c now (sz_backend s) with
         | Some (r, b) => Some (r, NewSanitizer b) | None => None end
    else Some (Some err_unsafe, s).
Proof.
  destruct c; cbn -[isKeySafe]; unfold drop_answer; rewrite !goM_bind_unfold;
    unfold Sanitizer_Create, Sanitizer_Put, Sanitizer_Update, Sanitizer_CompareAndSwap,
      Sanitizer_Get, Sanitizer_GetRange, Sanitizer_Delete, Sanitizer_DeleteRange,
      Sanitizer_KeepAlive, forward;
    (destruct (isKeySafe _) eqn:?; cbn [negb];
      [match goal with
       | |- context [match ?x (sz_backend s) with _ => _ end] =>
           destruct (x (sz_backend s)) as [[[?|?] ?]|]
       end; reflexivity
      |reflexivity]).
Qed.

(** the whitelist holds of the store. Any sequence of calls through the
    sanitizer, from a store whose keys are all safe, ends in such a store; a
    call that names an unsafe key is refused and changes nothing, and any
    other call does what the wrapped backend does. *)
Theorem Sanitizer_keeps_safe calls (s : Sanitizer B) :
  bk_inv (sz_backend s) → all_safe (bk_view (sz_backend s)) →
  (∀ c now, run_call c now s =
     if isKeySafe (tested_key c)
     then match run_call c now (sz_backend s) with
          | Some (r, b) => Some (r, NewSanitizer b) | None => None end
     else Some (Some err_unsafe, s)) ∧
  ∃ rs s', mapM (fun '(c, now) => run_call c now) calls s = Some (rs, s') ∧
    bk_inv (sz_backend s') ∧ all_safe (bk_view (sz_backend s')).
Proof.
  intros Hi Hs. split; [intros; apply run_call_sanitized|].
  revert s Hi Hs. induction calls as [|[c now] calls IH]; intros s Hi Hs.
  { by exists [], s. }
  assert (∃ r s1, run_call c now s = Some (r, s1) ∧ bk_inv (sz_backend s1) ∧
    all_safe (bk_view (sz_backend s1))) as (r & s1 & Hr & Hi1 & Hs1).
  { rewrite run_call_sanitized. destruct (isKeySafe (tested_key c)) eqn:Hk; [|by eexists _, s].
    destruct (call_grows c now (sz_backend s) Hi) as (r & b' & -> & Hi' & Hg).
    exists r, (NewSanitizer b'). split_and!; [done..|]. intros k i Hki.
    destruct (Hg k i Hki) as [->|[j Hj]]; [done|by eapply Hs]. }
  destruct (IH s1 Hi1 Hs1) as (rs & s2 & Hrs & Hi2 & Hs2).
  exists (r :: rs), s2. cbn [mapM]. rewrite goM_bind_unfold, Hr, goM_bind_unfold, Hrs.
  done.
Qed.
End laws.
