(* ===== verification/Memory.v ===== *)
(** * The in-memory backend (lib/backend/memory)

    A B-tree of items by key and a min-heap of the same items by expiry. An
    item is shared by both structures through a pointer, and carries its own
    position in the heap ([index]); so the model has a store of items by
    location. The B-tree is a third-party library: the class [BTree] with its
    documented behaviour. The event buffer is the class [EventSink]. *)

From S2P Require Import Prelude.
From S2P Require Import GoHeap.
From S2P Require Import Keys.
From S2P Require Import Backend.
Local Open Scope Z_scope.

(** ** What the backend is built on *)

Abbreviation loc := nat.

(** github.com/google/btree on [*btreeItem], ordered by [btreeItem.Less]: the
    elements are pointers, compared by the key of the item they point to,
    which no operation changes. *)
Class BTree := {
  btree : Type;
  bt_New : Z → btree;
  bt_Get : bytes → btree → option loc;
  bt_ReplaceOrInsert : bytes → loc → btree → btree;
  bt_Delete : bytes → btree → btree;
  bt_AscendRange : ∀ {S}, bytes → bytes → (loc → S → bool * S) → btree → S → S
}.

(** Calling an iterator on a list of elements until it answers false. *)
Fixpoint ascend {S} (f : loc → S → bool * S) (ls : list loc) (s : S) : S :=
  match ls with
  | [] => s
  | l :: ls => let '(go_on, s) := f l s in if go_on then ascend f ls s else s
  end.

Class BTreeLaws `{BTree} := {
  bt_view : btree → gmap bytes loc;
  bt_New_law : ∀ d, bt_view (bt_New d) = ∅;
  bt_Get_law : ∀ k t, bt_Get k t = bt_view t !! k;
  bt_ReplaceOrInsert_law : ∀ k l t,
    bt_view (bt_ReplaceOrInsert k l t) = <[k := l]> (bt_view t);
  bt_Delete_law : ∀ k t, bt_view (bt_Delete k t) = delete k (bt_view t);
  bt_AscendRange_law : ∀ S lo hi (f : loc → S → bool * S) t s,
    bt_AscendRange lo hi f t s = ascend f (sorted_range lo hi (bt_view t)) s
}.

(** The event buffer the backend writes to. *)
Class EventSink (E : Type) := {
  sink_Emit : Event → E → E;
  sink_Clear : E → E;
  sink_Close : E → E
}.

(** ** The expiry heap (minheap.go, item.go) *)

Record btreeItem := mkBtreeItem { bi_Item : Item; bi_index : Z }.

Record minHeap := mkMinHeap { hp_store : gmap loc btreeItem; hp_els : list loc }.

Definition set_index (n : Z) (l : loc) (st : gmap loc btreeItem) : gmap loc btreeItem :=
  alter (fun it => mkBtreeItem (bi_Item it) n) l st.

Definition unix_of (st : gmap loc btreeItem) (l : loc) : Z :=
  match st !! l with Some it => time_unix (it_Expires (bi_Item it)) | None => 0 end.

Definition minHeap_Less (i j : nat) (h : minHeap) : bool :=
  match hp_els h !! i, hp_els h !! j with
  | Some a, Some b => unix_of (hp_store h) a <? unix_of (hp_store h) b
  | _, _ => false
  end.

Definition minHeap_Swap (i j : nat) (h : minHeap) : minHeap :=
  match hp_els h !! i, hp_els h !! j with
  | Some a, Some b =>
      mkMinHeap
        (set_index (Z.of_nat j) a (set_index (Z.of_nat i) b (hp_store h)))
        (<[j := a]> (<[i := b]> (hp_els h)))
  | _, _ => h
  end.

Definition minHeap_Push (x : loc) (h : minHeap) : minHeap :=
  mkMinHeap (set_index (Z.of_nat (length (hp_els h))) x (hp_store h)) (hp_els h ++ [x]).

Definition minHeap_Pop (h : minHeap) : option (loc * minHeap) :=
  let n := length (hp_els h) in
  match hp_els h !! (n - 1)%nat with
  | None => None
  | Some item => Some (item, mkMinHeap (set_index (-1) item (hp_store h)) (take (n - 1) (hp_els h)))
  end.

#[export] Instance minHeap_interface : HeapInterface minHeap loc := {
  h_Len := fun h => length (hp_els h);
  h_Less := minHeap_Less;
  h_Swap := minHeap_Swap;
  h_Push := minHeap_Push;
  h_Pop := minHeap_Pop
}.

Definition PushEl (el : loc) (h : minHeap) : minHeap := heap_Push el h.
Definition PopEl (h : minHeap) : option (loc * minHeap) := heap_Pop h.
Definition PeekEl (h : minHeap) : option loc := hp_els h !! 0%nat.
(** [heap.Remove] at a negative index panics in [Swap]. *)
Definition RemoveEl (el : loc) (h : minHeap) : option minHeap :=
  match hp_store h !! el with
  | None => None
  | Some it =>
      if bi_index it <? 0 then None
      else match heap_Remove (Z.to_nat (bi_index it)) h with
           | Some (_, h') => Some h' | None => None end
  end.

(** ** The backend (memory.go) *)

Record Config := mkConfig {
  cf_BTreeDegree : Z;
  cf_EventsOff : bool;
  cf_BufferSize : Z;
  cf_Mirror : bool
}.

Definition defaultBTreeDegree : Z := 8.
Definition DefaultBufferCapacity : Z := 1024.

Definition Config_CheckAndSetDefaults (cfg : Config) : Config :=
  let size := if cf_BufferSize cfg =? 0 then DefaultBufferCapacity else cf_BufferSize cfg in
  let deg := if cf_BTreeDegree cfg <=? 0 then defaultBTreeDegree else cf_BTreeDegree cfg in
  mkConfig deg (cf_EventsOff cfg) size (cf_Mirror cfg).

Section memory.
Context `{BT : BTree} {E : Type} `{EventSink E}.

Record Memory := mkMemory {
  mm_nextID : Z;
  mm_cfg : Config;
  mm_tree : btree;
  mm_heap : minHeap;
  mm_buf : E
}.

(** [newBuffer] builds the buffer of a capacity, already initialised. *)
Definition New (newBuffer : Z → E) (cfg : Config) : Memory :=
  let cfg := Config_CheckAndSetDefaults cfg in
  mkMemory 0 cfg (bt_New (cf_BTreeDegree cfg)) (mkMinHeap ∅ []) (newBuffer (cf_BufferSize cfg)).

Definition set_tree (t : btree) (m : Memory) : Memory :=
  mkMemory (mm_nextID m) (mm_cfg m) t (mm_heap m) (mm_buf m).
Definition set_heap (h : minHeap) (m : Memory) : Memory :=
  mkMemory (mm_nextID m) (mm_cfg m) (mm_tree m) h (mm_buf m).
Definition set_buf (b : E) (m : Memory) : Memory :=
  mkMemory (mm_nextID m) (mm_cfg m) (mm_tree m) (mm_heap m) b.

Definition Mirror (m : Memory) : bool := cf_Mirror (mm_cfg m).
Definition EventsOff (m : Memory) : bool := cf_EventsOff (mm_cfg m).

(** The item a pointer leads to. *)
Definition deref (m : Memory) (l : loc) : option btreeItem := hp_store (mm_heap m) !! l.

(** [atomic.AddInt64(&m.nextID, 1)]. *)
Definition generateID : goM Memory Z := fun m =>
  let id := i64 (mm_nextID m + 1) in
  Some (id, mkMemory id (mm_cfg m) (mm_tree m) (mm_heap m) (mm_buf m)).

(** [if !m.EventsOff { m.buf.Emit(event) }]. *)
Definition emit_event (e : Event) : goM Memory unit := modify_state (fun m =>
  if EventsOff m then m else set_buf (sink_Emit e (mm_buf m)) m).

(** A new [btreeItem]. *)
Definition alloc (i : Item) : goM Memory loc := fun m =>
  let h := mm_heap m in
  let l := fresh (dom (hp_store h)) in
  Some (l, set_heap (mkMinHeap (<[l := mkBtreeItem i (-1)]> (hp_store h)) (hp_els h)) m).

Definition tree_Get (k : bytes) : goM Memory (option loc) := fun m =>
  Some (bt_Get k (mm_tree m), m).

(** The item found under a key; a dangling pointer cannot be read. *)
Definition lookup_item (k : bytes) : goM Memory (option Item) := fun m =>
  match bt_Get k (mm_tree m) with
  | None => Some (None, m)
  | Some l => match deref m l with
              | Some it => Some (Some (bi_Item it), m)
              | None => None
              end
  end.

Definition heap_RemoveEl (l : loc) : goM Memory unit := fun m =>
  match RemoveEl l (mm_heap m) with
  | Some h => Some ((), set_heap h m)
  | None => None
  end.

(** [if existing.index >= 0 { m.heap.RemoveEl(existing) }]. *)
Definition remove_indexed (l : loc) : goM Memory unit := fun m =>
  match deref m l with
  | None => None
  | Some it => if 0 <=? bi_index it then heap_RemoveEl l m else Some ((), m)
  end.

Definition processEvent (event : Event) : goM Memory unit :=
  match ev_Type event with
  | OpPut =>
      let i := ev_Item event in
      item ← alloc i;
      existingItem ← tree_Get (it_Key i);
      _ ← (match existingItem with
           | None => mret ()
           | Some l => remove_indexed l
           end : goM Memory unit);
      _ ← (if negb (is_zero_time (it_Expires i))
           then modify_state (fun m => set_heap (PushEl item (mm_heap m)) m)
           else mret () : goM Memory unit);
      modify_state (fun m => set_tree (bt_ReplaceOrInsert (it_Key i) item (mm_tree m)) m)
  | OpDelete =>
      let k := it_Key (ev_Item event) in
      treeItem ← tree_Get k;
      match treeItem with
      | None => mret ()
      | Some l =>
          _ ← modify_state (fun m => set_tree (bt_Delete k (mm_tree m)) m);
          remove_indexed l
      end
  | _ => mret ()
  end.

(** The loop of [removeExpired]: every turn takes an element off the heap, so
    one more turn than its length is enough. *)
Fixpoint removeExpired_loop (fuel : nat) (now : Z) (removed : Z) : goM Memory Z := fun m =>
  match fuel with
  | O => None
  | S fuel =>
      if bool_decide (hp_els (mm_heap m) = []) then Some (removed, m) else
      match PeekEl (mm_heap m) with
      | None => None
      | Some l =>
          match deref m l with
          | None => None
          | Some it =>
              if now <? it_Expires (bi_Item it) then Some (removed, m) else
              match PopEl (mm_heap m) with
              | None => None
              | Some (_, h) =>
                  let m := set_heap h m in
                  let m := set_tree (bt_Delete (it_Key (bi_Item it)) (mm_tree m)) m in
                  (_ ← emit_event (mkEvent OpDelete (key_item (it_Key (bi_Item it))));
                   removeExpired_loop fuel now (removed + 1)) m
              end
          end
      end
  end.

Definition removeExpired (now : Z) : goM Memory Z := fun m =>
  if Mirror m then Some (0, m)
  else removeExpired_loop (S (length (hp_els (mm_heap m)))) now 0 m.

Definition newLease (item : Item) : Lease :=
  if is_zero_time (it_Expires item) then empty_lease else mkLease (it_Key item) 0.

(** The iterator of [getRange], on the items gathered so far. *)
Definition getRange_iter (m : Memory) (limit : Z) (l : loc) (items : list Item) :
    bool * list Item :=
  match deref m l with
  | None => (false, items)
  | Some it =>
      let items := items ++ [bi_Item it] in
      if (0 <? limit) && (limit <=? Z.of_nat (length items)) then (false, items)
      else (true, items)
  end.

Definition getRange (startKey endKey : bytes) (limit : Z) : goM Memory (list Item) := fun m =>
  Some (bt_AscendRange startKey endKey (getRange_iter m limit) (mm_tree m) [], m).

(** The two steps every mutation ends with. *)
Definition process_and_emit (event : Event) : goM Memory unit :=
  _ ← processEvent event; emit_event event.

Definition assign_ID (i : Item) : goM Memory Item := fun m =>
  if negb (Mirror m) then (id ← generateID; mret (with_ID id i)) m else Some (i, m).

Definition Create (now : Z) (i : Item) : goM Memory (result Lease) :=
  if bool_decide (it_Key i = []) then mret (Err err_missing_key) else
  _ ← removeExpired now;
  found ← tree_Get (it_Key i);
  match found with
  | Some _ => mret (Err err_exists)
  | None => _ ← process_and_emit (mkEvent OpPut i); mret (Ok (newLease i))
  end.

Definition Get (now : Z) (key : bytes) : goM Memory (result Item) :=
  if bool_decide (key = []) then mret (Err err_missing_key) else
  _ ← removeExpired now;
  i ← lookup_item key;
  mret (match i with None => Err err_not_found | Some item => Ok item end).

Definition Update (now : Z) (i : Item) : goM Memory (result Lease) :=
  if bool_decide (it_Key i = []) then mret (Err err_missing_key) else
  _ ← removeExpired now;
  found ← tree_Get (it_Key i);
  match found with
  | None => mret (Err err_not_found)
  | Some _ =>
      i ← assign_ID i;
      _ ← process_and_emit (mkEvent OpPut i);
      mret (Ok (newLease i))
  end.

Definition Put (now : Z) (i : Item) : goM Memory (result Lease) :=
  if bool_decide (it_Key i = []) then mret (Err err_missing_key) else
  _ ← removeExpired now;
  i ← assign_ID i;
  _ ← process_and_emit (mkEvent OpPut i);
  mret (Ok (newLease i)).

Fixpoint PutRange_loop (items : list Item) : goM Memory unit :=
  match items with
  | [] => mret ()
  | item :: items =>
      item ← assign_ID item;
      _ ← process_and_emit (mkEvent OpPut item);
      PutRange_loop items
  end.

(** An item of [PutRange] comes with whether its Key is nil, which Go tells
    from an empty key. *)
Definition PutRange (now : Z) (items : list (Item * bool)) : goM Memory (result unit) :=
  if existsb snd items then
    mret (Err (Error BadParameter "missing parameter key in item %v")) else
  _ ← removeExpired now;
  _ ← PutRange_loop (fst <$> items);
  mret (Ok ()).

Definition Delete (now : Z) (key : bytes) : goM Memory (result unit) :=
  if bool_decide (key = []) then mret (Err err_missing_key) else
  _ ← removeExpired now;
  found ← tree_Get key;
  match found with
  | None => mret (Err err_not_found)
  | Some _ => _ ← process_and_emit (mkEvent OpDelete (key_item key)); mret (Ok ())
  end.

Fixpoint DeleteRange_loop (items : list Item) : goM Memory unit :=
  match items with
  | [] => mret ()
  | item :: items =>
      _ ← process_and_emit (mkEvent OpDelete item);
      DeleteRange_loop items
  end.

Definition DeleteRange (now : Z) (startKey endKey : bytes) : goM Memory (result unit) :=
  if bool_decide (startKey = []) then mret (Err err_missing_startKey) else
  if bool_decide (endKey = []) then mret (Err err_missing_endKey) else
  _ ← removeExpired now;
  items ← getRange startKey endKey NoLimit;
  _ ← DeleteRange_loop items;
  mret (Ok ()).

Definition GetRange (now : Z) (startKey endKey : bytes) (limit : Z) :
    goM Memory (result (list Item)) :=
  if bool_decide (startKey = []) then mret (Err err_missing_startKey) else
  if bool_decide (endKey = []) then mret (Err err_missing_endKey) else
  let limit := if limit <=? 0 then DefaultRangeLimit else limit in
  _ ← removeExpired now;
  items ← getRange startKey endKey limit;
  mret (Ok items).

Definition KeepAlive (now : Z) (lease : Lease) (expires : Z) : goM Memory (result unit) :=
  if Lease_IsEmpty lease then mret (Err err_lease_empty) else
  _ ← removeExpired now;
  i ← lookup_item (lease_Key lease);
  match i with
  | None => mret (Err err_not_found)
  | Some item =>
      item ← assign_ID (with_Expires expires item);
      _ ← process_and_emit (mkEvent OpPut item);
      mret (Ok ())
  end.

Definition CompareAndSwap (now : Z) (expected replaceWith : Item) : goM Memory (result Lease) :=
  if bool_decide (it_Key expected = []) then mret (Err err_missing_Key) else
  if bool_decide (it_Key replaceWith = []) then mret (Err err_missing_Key) else
  if negb (bool_decide (it_Key expected = it_Key replaceWith)) then mret (Err err_keys_match) else
  _ ← removeExpired now;
  i ← lookup_item (it_Key expected);
  match i with
  | None => mret (Err err_cas_not_found)
  | Some existingItem =>
      if negb (bool_decide (it_Value existingItem = it_Value expected))
      then mret (Err err_cas_mismatch)
      else _ ← process_and_emit (mkEvent OpPut replaceWith); mret (Ok (newLease replaceWith))
  end.

(** [newWatcher] is the buffer's [NewWatcher]. *)
Definition NewWatcher {W} (newWatcher : E → result W * E) : goM Memory (result W) := fun m =>
  if EventsOff m
  then Some (Err (Error BadParameter "events are turned off for this backend"), m)
  else let '(w, b) := newWatcher (mm_buf m) in Some (w, set_buf b m).

Definition CloseWatchers : goM Memory unit :=
  modify_state (fun m => set_buf (sink_Clear (mm_buf m)) m).
Definition Close : goM Memory unit :=
  modify_state (fun m => set_buf (sink_Close (mm_buf m)) m).
End memory.

(** ** The heap is a Go heap *)

Lemma set_index_lookup n l st x :
  set_index n l st !! x =
    if decide (x = l) then (fun it => mkBtreeItem (bi_Item it) n) <$> st !! l else st !! x.
Proof.
  unfold set_index. case_decide as Hx; [by rewrite Hx, lookup_alter_eq|].
  by rewrite lookup_alter_ne by done.
Qed.

Lemma set_index_items n l st : bi_Item <$> set_index n l st = bi_Item <$> st.
Proof.
  apply map_eq. intros x. rewrite !lookup_fmap, set_index_lookup.
  case_decide as Hx; [|done]. rewrite Hx. by destruct (st !! l).
Qed.

(** Positions and the [index] fields agree. *)
Record heap_inv (h : minHeap) : Prop := {
  hi_index : ∀ n l, hp_els h !! n = Some l →
    ∃ it, hp_store h !! l = Some it ∧ bi_index it = Z.of_nat n;
  hi_back : ∀ l it, hp_store h !! l = Some it → 0 ≤ bi_index it →
    hp_els h !! Z.to_nat (bi_index it) = Some l
}.

Lemma heap_inv_NoDup h : heap_inv h → NoDup (hp_els h).
Proof.
  intros [Hi _]. apply NoDup_alt. intros i j l H1 H2.
  apply Hi in H1 as (it1 & Hs1 & E1). apply Hi in H2 as (it2 & Hs2 & E2).
  simplify_eq. lia.
Qed.

Definition heap_fresh (h : minHeap) (a : loc) : Prop :=
  is_Some (hp_store h !! a) ∧ a ∉ hp_els h.

Definition frame_key (fr : gmap loc Item) (l : loc) : Z :=
  match fr !! l with Some i => time_unix (it_Expires i) | None => 0 end.

Lemma unix_of_frame st l : unix_of st l = frame_key (bi_Item <$> st) l.
Proof. unfold unix_of, frame_key. rewrite lookup_fmap. by destruct (st !! l). Qed.

Lemma minHeap_Swap_inv h i j :
  heap_inv h → (i < length (hp_els h))%nat → (j < length (hp_els h))%nat →
  hp_els (minHeap_Swap i j h) = list_swap i j (hp_els h) ∧
  bi_Item <$> hp_store (minHeap_Swap i j h) = bi_Item <$> hp_store h ∧
  heap_inv (minHeap_Swap i j h).
Proof.
  intros Hh Hi Hj. pose proof (heap_inv_NoDup h Hh) as Hnd. destruct Hh as [Hix Hb].
  destruct (lookup_lt_is_Some_2 _ _ Hi) as [a Ha].
  destruct (lookup_lt_is_Some_2 _ _ Hj) as [b Hbj].
  unfold minHeap_Swap, list_swap. rewrite Ha, Hbj. cbn [hp_els hp_store].
  split; [done|]. split; [by rewrite !set_index_items|].
  destruct (Hix i a Ha) as (ita & Hsa & Ea). destruct (Hix j b Hbj) as (itb & Hsb & Eb).
  split; cbn [hp_els hp_store].
  - intros n l Hn. rewrite !set_index_lookup.
    apply list_lookup_insert_Some in Hn as [(-> & -> & _)|[Hnj Hn]].
    + rewrite decide_True by done. case_decide as Hab.
      * rewrite <- Hab, Hsa. by eexists.
      * rewrite Hsa. by eexists.
    + apply list_lookup_insert_Some in Hn as [(-> & -> & _)|[Hni Hn]].
      * assert (l ≠ a) as Hla.
        { intros Heq. rewrite Heq in Hbj. by pose proof (NoDup_lookup _ _ _ _ Hnd Ha Hbj). }
        rewrite (decide_False (P:=l = a)), decide_True by done. rewrite Hsb. by eexists.
      * rewrite !decide_False; [by apply Hix| |].
        -- intros ->. by pose proof (NoDup_lookup _ _ _ _ Hnd Hn Hbj).
        -- intros ->. by pose proof (NoDup_lookup _ _ _ _ Hnd Hn Ha).
  - intros l it. rewrite !set_index_lookup. case_decide as Hla.
    + rewrite Hla. case_decide as Hab; [rewrite <- Hab|]; rewrite Hsa; intros [= <-] _;
        cbn [bi_index]; rewrite Nat2Z.id; by rewrite list_lookup_insert_eq by (by rewrite length_insert).
    + case_decide as Hlb.
      * rewrite Hlb, Hsb. intros [= <-] _. cbn [bi_index]. rewrite Nat2Z.id.
        rewrite list_lookup_insert_ne; [by rewrite list_lookup_insert_eq|].
        intros ->. congruence.
      * intros Hl Hge. pose proof (Hb l it Hl Hge) as Hl'.
        rewrite !list_lookup_insert_ne; [done|..]; intros Heq; rewrite <- Heq in Hl'; congruence.
Qed.

Lemma minHeap_Push_inv h a :
  heap_inv h → heap_fresh h a →
  heap_inv (minHeap_Push a h) ∧ bi_Item <$> hp_store (minHeap_Push a h) = bi_Item <$> hp_store h.
Proof.
  intros [Hi Hb] [[it0 Hs] Hn]. split; [|apply set_index_items].
  split; unfold minHeap_Push; cbn [hp_els hp_store].
  - intros n l [Hl|[Hge Hl]]%lookup_app_Some.
    + rewrite set_index_lookup, decide_False; [by apply Hi|].
      intros ->. by apply list_elem_of_lookup_2 in Hl.
    + apply list_lookup_singleton_Some in Hl as [Hn0 ->].
      rewrite set_index_lookup, decide_True, Hs by done. eexists. split; [done|].
      cbn. lia.
  - intros l it. rewrite set_index_lookup. case_decide as Hla.
    + rewrite Hla, Hs. intros [= <-] _. cbn [bi_index]. rewrite Nat2Z.id.
      by rewrite lookup_app_r, Nat.sub_diag.
    + intros Hl Hge. apply lookup_app_l_Some. by apply Hb.
Qed.

Lemma minHeap_Pop_inv h ls a :
  heap_inv h → hp_els h = ls ++ [a] →
  ∃ h', minHeap_Pop h = Some (a, h') ∧ hp_els h' = ls ∧
    bi_Item <$> hp_store h' = bi_Item <$> hp_store h ∧ heap_inv h'.
Proof.
  intros Hh He. pose proof (heap_inv_NoDup h Hh) as Hnd. destruct Hh as [Hi Hb].
  unfold minHeap_Pop.
  assert (length (hp_els h) - 1 = length ls)%nat as ->
    by (rewrite He, length_app; cbn; lia).
  assert (hp_els h !! length ls = Some a) as Ha
    by (by rewrite He, lookup_app_r, Nat.sub_diag).
  rewrite Ha. eexists. split; [done|]. cbn [hp_els hp_store].
  assert (take (length ls) (hp_els h) = ls) as Ht by (by rewrite He, take_app_length).
  rewrite Ht. split; [done|]. split; [apply set_index_items|].
  rewrite He in Hnd. apply NoDup_app in Hnd as (_ & Hd & _).
  split; cbn [hp_els hp_store].
  - intros n l Hl. rewrite set_index_lookup, decide_False.
    + apply Hi. rewrite He. by apply lookup_app_l_Some.
    + intros ->. apply (Hd a); [by eapply list_elem_of_lookup_2|by left].
  - intros l it. rewrite set_index_lookup. case_decide as Hla.
    + destruct (hp_store h !! a); [|done]. intros [= <-]. cbn. lia.
    + intros Hl Hge. pose proof (Hb l it Hl Hge) as Hl'. rewrite He in Hl'.
      apply lookup_app_Some in Hl' as [|[_ Hl']]; [done|].
      apply list_lookup_singleton_Some in Hl' as [_ ->]. done.
Qed.

#[export] Program Instance minHeap_laws : HeapLaws minHeap loc (gmap loc Item) := {
  h_elems := hp_els;
  h_frame := fun h => bi_Item <$> hp_store h;
  h_key := frame_key;
  h_inv := heap_inv;
  h_fresh := heap_fresh
}.
Next Obligation. reflexivity. Qed.
Next Obligation.
  intros s i j a b Ha Hb. cbn. unfold minHeap_Less. by rewrite Ha, Hb, !unix_of_frame.
Qed.
Next Obligation. intros s i j Hs Hi Hj. by apply minHeap_Swap_inv. Qed.
Next Obligation.
  intros s a Hs Hf. destruct (minHeap_Push_inv s a Hs Hf). by split_and!.
Qed.
Next Obligation. intros s l a Hs He. by apply minHeap_Pop_inv. Qed.

(** ** The invariant, on the tree's view, the items and the heap's elements *)

Record mem_ok (tv : gmap bytes loc) (fr : gmap loc Item) (els : list loc) : Prop := {
  mo_tree : ∀ k l, tv !! k = Some l →
    ∃ i, fr !! l = Some i ∧ it_Key i = k ∧ (l ∈ els ↔ it_Expires i ≠ zero_time);
  mo_heap : ∀ l, l ∈ els → ∃ i, fr !! l = Some i ∧ tv !! it_Key i = Some l
}.

(** The map the structures stand for. *)
Definition items_of (tv : gmap bytes loc) (fr : gmap loc Item) : gmap bytes Item :=
  omap (fun l => fr !! l) tv.

Lemma items_of_lookup tv fr k : items_of tv fr !! k = tv !! k ≫= fun l => fr !! l.
Proof. apply lookup_omap. Qed.

Lemma mem_ok_put tv fr els els' i l0 :
  mem_ok tv fr els → fr !! l0 = None →
  (∀ x, x ∈ els' ↔ (x ∈ els ∧ tv !! it_Key i ≠ Some x) ∨ (x = l0 ∧ it_Expires i ≠ zero_time)) →
  mem_ok (<[it_Key i := l0]> tv) (<[l0 := i]> fr) els' ∧
  items_of (<[it_Key i := l0]> tv) (<[l0 := i]> fr) = <[it_Key i := i]> (items_of tv fr).
Proof.
  intros [Ht Hh] Hf Hels.
  assert (∀ l, l ∈ els → l ≠ l0) as Hne.
  { intros l Hl ->. apply Hh in Hl as (j & Hj & _). congruence. }
  assert (∀ k l, tv !! k = Some l → l ≠ l0) as Hnt.
  { intros k l Hl ->. apply Ht in Hl as (j & Hj & _). congruence. }
  split; [split|].
  - intros k l. rewrite lookup_insert. case_decide as Hk.
    + intros [= <-]. exists i. rewrite lookup_insert_eq. split_and!; [done..|].
      rewrite Hels. split; [intros [[Hl _]|[_ ?]]; [by apply Hne in Hl|done]|tauto].
    + intros Hl. destruct (Ht k l Hl) as (j & Hj & Hjk & Hiff). exists j.
      rewrite lookup_insert_ne by (intros ->; by eapply Hnt).
      split_and!; [done..|]. rewrite <- Hiff, Hels. split.
      * intros [[? _]|[Heq _]]; [done|]. by apply Hnt in Hl.
      * intros Hin. left. split; [done|]. intros Hkl.
        destruct (Ht _ _ Hkl) as (j' & Hj' & Hk' & _). congruence.
  - intros l Hl. apply Hels in Hl as [[Hl Hn]|[-> Hz]].
    + destruct (Hh l Hl) as (j & Hj & Htj). exists j.
      rewrite lookup_insert_ne by (intros ->; by eapply Hne). split; [done|].
      rewrite lookup_insert_ne; [done|]. intros Heq. rewrite Heq in Hn. done.
    + exists i. by rewrite !lookup_insert_eq.
  - apply map_eq. intros k. rewrite items_of_lookup, !lookup_insert, items_of_lookup.
    case_decide as Hk; cbn; [by rewrite lookup_insert_eq|].
    destruct (tv !! k) as [l|] eqn:Hl; [|done]. cbn.
    rewrite lookup_insert_ne; [done|]. intros ->. by eapply Hnt.
Qed.

Lemma mem_ok_delete tv fr els els' k :
  mem_ok tv fr els →
  (∀ x, x ∈ els' ↔ x ∈ els ∧ tv !! k ≠ Some x) →
  mem_ok (delete k tv) fr els' ∧ items_of (delete k tv) fr = delete k (items_of tv fr).
Proof.
  intros [Ht Hh] Hels. split; [split|].
  - intros k' l [Hk Hl]%lookup_delete_Some. destruct (Ht k' l Hl) as (j & Hj & Hjk & Hiff).
    exists j. split_and!; [done..|]. rewrite Hels, Hiff. split; [tauto|].
    intros Hz. split; [done|]. intros Hkl.
    destruct (Ht _ _ Hkl) as (j' & Hj' & Hk' & _). congruence.
  - intros l [Hl Hn]%Hels. destruct (Hh l Hl) as (j & Hj & Htj). exists j. split; [done|].
    rewrite lookup_delete_ne; [done|]. intros ->. congruence.
  - apply map_eq. intros k'. rewrite items_of_lookup, !lookup_delete, items_of_lookup.
    by case_decide.
Qed.

Section correctness.
Context `{BTL : BTreeLaws} {E : Type} `{EventSink E}.
Abbreviation Mem := (Memory (E:=E)).
Implicit Types m : Mem.

Definition mem_frame m : gmap loc Item := bi_Item <$> hp_store (mm_heap m).
Definition mem_els m : list loc := hp_els (mm_heap m).
Definition view m : gmap bytes Item := items_of (bt_view (mm_tree m)) (mem_frame m).

Record heap_good (h : minHeap) : Prop := {
  hg_inv : heap_inv h;
  hg_ord : heap_ordered (keys_of h) (length (hp_els h))
}.

Record mem_inv m : Prop := {
  mi_heap : heap_good (mm_heap m);
  mi_ok : mem_ok (bt_view (mm_tree m)) (mem_frame m) (mem_els m)
}.

(** Nothing but the items changed. *)
Definition same_rest m m' : Prop :=
  mm_cfg m' = mm_cfg m ∧ mm_buf m' = mm_buf m.

Lemma deref_frame m l : bi_Item <$> deref m l = mem_frame m !! l.
Proof. unfold mem_frame, deref. by rewrite lookup_fmap. Qed.

Lemma indexed_iff h l it :
  heap_inv h → hp_store h !! l = Some it → 0 ≤ bi_index it ↔ l ∈ hp_els h.
Proof.
  intros [Hi Hb] Hl. split.
  - intros Hge. eapply list_elem_of_lookup_2. by apply Hb.
  - intros [n Hn]%list_elem_of_lookup. apply Hi in Hn as (it' & Hl' & Hix). simplify_eq. lia.
Qed.

Lemma elem_of_removed (l x : loc) ls ls' :
  NoDup ls → ls ≡ₚ l :: ls' → x ∈ ls' ↔ x ∈ ls ∧ x ≠ l.
Proof.
  intros Hnd Hp. rewrite Hp in Hnd |- *. apply NoDup_cons in Hnd as [Hn Hnd].
  rewrite elem_of_cons. split; [|tauto]. intros Hx. split; [tauto|]. by intros ->.
Qed.

(** Removing a pointer from the heap, whether or not it is in it. *)
Lemma remove_indexed_spec m l :
  heap_good (mm_heap m) → is_Some (deref m l) →
  ∃ h, remove_indexed l m = Some ((), set_heap h m) ∧ heap_good h ∧
    bi_Item <$> hp_store h = mem_frame m ∧
    (∀ x, x ∈ hp_els h ↔ x ∈ mem_els m ∧ x ≠ l).
Proof.
  intros [Hi Ho] [it Hl]. unfold remove_indexed. rewrite Hl.
  pose proof (indexed_iff _ _ _ Hi Hl) as Hix. case_test; to_prop.
  - unfold heap_RemoveEl, RemoveEl. unfold deref in Hl. rewrite Hl.
    rewrite (proj2 (Z.ltb_ge _ _)) by lia.
    pose proof (hi_back _ Hi l it Hl ltac:(lia)) as Hn.
    destruct (heap_Remove_spec (F:=gmap loc Item) (mm_heap m) (Z.to_nat (bi_index it)) l) as
      (h & Hr & Hi' & Hf & Hp & Ho'); try done.
    rewrite Hr. exists h. split_and!; [done|by split|done|].
    intros x. apply elem_of_removed; [by apply heap_inv_NoDup|done].
  - exists (mm_heap m). destruct m as [? ? ? ? ?]. split_and!; [done|by split|done|].
    intros x. split; [|tauto]. intros Hx. split; [done|]. intros ->.
    apply Hix in Hx. lia.
Qed.

(** A heap stays good when items it does not hold are added. *)
Lemma heap_good_alloc h l it :
  heap_good h → hp_store h !! l = None → bi_index it = -1 →
  heap_good (mkMinHeap (<[l := it]> (hp_store h)) (hp_els h)).
Proof.
  intros [[Hi Hb] Ho] Hl Hix. split; [split|]; cbn [hp_els hp_store].
  - intros n x Hn. destruct (Hi n x Hn) as (j & Hj & ?). exists j.
    rewrite lookup_insert_ne; [done|]. intros ->. congruence.
  - intros x j. rewrite lookup_insert. case_decide; [intros [= <-]; lia|apply Hb].
  - assert (keys_of (mkMinHeap (<[l:=it]> (hp_store h)) (hp_els h)) = keys_of h) as ->; [|done].
    unfold keys_of. cbn. apply list_fmap_ext. intros n x Hn.
    destruct (Hi n x Hn) as (j & Hj & _). unfold frame_key.
    rewrite !lookup_fmap, lookup_insert_ne; [done|]. intros ->. congruence.
Qed.

Lemma alloc_spec m i :
  mem_inv m →
  ∃ l h, alloc i m = Some (l, set_heap h m) ∧ heap_good h ∧ hp_els h = mem_els m ∧
    mem_frame m !! l = None ∧ hp_store h !! l = Some (mkBtreeItem i (-1)) ∧
    bi_Item <$> hp_store h = <[l := i]> (mem_frame m).
Proof.
  intros [Hg Hok]. unfold alloc. set (l := fresh (dom (hp_store (mm_heap m)))).
  assert (hp_store (mm_heap m) !! l = None) as Hl
    by (apply not_elem_of_dom; apply is_fresh).
  eexists l, _. split; [reflexivity|]. cbn [hp_els hp_store]. split_and!.
  - by apply heap_good_alloc.
  - done.
  - unfold mem_frame. by rewrite lookup_fmap, Hl.
  - apply lookup_insert_eq.
  - by rewrite fmap_insert.
Qed.

Lemma PushEl_spec h l i :
  heap_good h → hp_store h !! l = Some i → l ∉ hp_els h →
  heap_good (PushEl l h) ∧ bi_Item <$> hp_store (PushEl l h) = bi_Item <$> hp_store h ∧
  hp_els (PushEl l h) ≡ₚ l :: hp_els h.
Proof.
  intros [Hi Ho] Hl Hn.
  pose proof (heap_Push_spec (F:=gmap loc Item) h l) as Hp.
  destruct (Hp Hi (conj (ex_intro _ i Hl) Hn) Ho) as (? & ? & ? & ?).
  split_and!; [by split|done|done].
Qed.

Lemma processEvent_put m i :
  mem_inv m → ∃ m', processEvent (mkEvent OpPut i) m = Some ((), m') ∧
    mem_inv m' ∧ same_rest m m' ∧ view m' = <[it_Key i := i]> (view m).
Proof.
  intros Hm. destruct (alloc_spec m i Hm) as (l0 & h1 & Ha & Hg1 & He1 & Hf0 & Hl0 & Hfr1).
  unfold processEvent. cbn [ev_Type ev_Item].
  rewrite goM_bind_unfold, Ha, goM_bind_unfold. unfold tree_Get. rewrite bt_Get_law.
  cbn [mm_tree set_heap].
  set (k := it_Key i). set (tv := bt_view (mm_tree m)).
  assert (∃ h2, (match tv !! k with None => mret () | Some l => remove_indexed l end : goM Mem unit)
      (set_heap h1 m) = Some ((), set_heap h2 m) ∧ heap_good h2 ∧
      bi_Item <$> hp_store h2 = <[l0 := i]> (mem_frame m) ∧
      (∀ x, x ∈ hp_els h2 ↔ x ∈ mem_els m ∧ tv !! k ≠ Some x))
    as (h2 & Hr2 & Hg2 & Hfr2 & Hels2).
  { destruct (tv !! k) as [l|] eqn:Htl.
    - destruct (mo_tree _ _ _ (mi_ok m Hm) k l Htl) as (j & Hj & _).
      destruct (remove_indexed_spec (set_heap h1 m) l) as (h2 & Hr & Hg & Hfr & Hels);
        [done| |].
      + unfold deref. cbn [mm_heap set_heap].
        assert ((bi_Item <$> hp_store h1) !! l = Some j) as Hjl.
        { rewrite Hfr1, lookup_insert_ne; [done|]. intros ->. congruence. }
        rewrite lookup_fmap in Hjl. by destruct (hp_store h1 !! l).
      + exists h2. rewrite Hr. split_and!; [done|done| |].
        * rewrite Hfr. unfold mem_frame. cbn [mm_heap set_heap]. done.
        * intros x. rewrite Hels. unfold mem_els at 1. cbn [mm_heap set_heap].
          rewrite He1. split; [|naive_solver]. intros [? ?]. split; [done|]. congruence.
    - exists h1. split_and!; [done|done|done|]. intros x. rewrite He1. naive_solver. }
  rewrite goM_bind_unfold, Hr2, goM_bind_unfold.
  assert (∃ h3, (if negb (is_zero_time (it_Expires i))
      then modify_state (fun m => set_heap (PushEl l0 (mm_heap m)) m) else mret () : goM Mem unit)
      (set_heap h2 m) = Some ((), set_heap h3 m) ∧ heap_good h3 ∧
      bi_Item <$> hp_store h3 = <[l0 := i]> (mem_frame m) ∧
      (∀ x, x ∈ hp_els h3 ↔ (x ∈ mem_els m ∧ tv !! k ≠ Some x) ∨ (x = l0 ∧ it_Expires i ≠ zero_time)))
    as (h3 & Hr3 & Hg3 & Hfr3 & Hels3).
  { unfold is_zero_time. destruct (it_Expires i =? zero_time) eqn:Hz; to_prop; cbn [negb].
    - exists h2. split_and!; [done|done|done|]. intros x. rewrite Hels2. naive_solver.
    - assert (is_Some (hp_store h2 !! l0)) as [it2 Hit2].
      { assert ((bi_Item <$> hp_store h2) !! l0 = Some i) as Hx
          by (by rewrite Hfr2, lookup_insert_eq).
        rewrite lookup_fmap in Hx. by destruct (hp_store h2 !! l0). }
      assert (l0 ∉ hp_els h2) as Hn0.
      { rewrite Hels2. intros [Hin _].
        destruct (mo_heap _ _ _ (mi_ok m Hm) l0 Hin) as (j & Hj & _). congruence. }
      destruct (PushEl_spec h2 l0 it2 Hg2 Hit2 Hn0) as (Hg & Hfr & Hp).
      exists (PushEl l0 h2). split_and!; [done|done|by rewrite Hfr|].
      intros x. rewrite Hp, elem_of_cons, Hels2. naive_solver. }
  rewrite Hr3. eexists. split; [reflexivity|].
  destruct (mem_ok_put tv (mem_frame m) (mem_els m) (hp_els h3) i l0 (mi_ok m Hm) Hf0 Hels3)
    as [Hok Hv].
  split_and!; [split|done|].
  - done.
  - cbn [mm_tree set_tree set_heap]. rewrite bt_ReplaceOrInsert_law.
    unfold mem_frame, mem_els. cbn [mm_heap set_tree set_heap]. by rewrite Hfr3.
  - unfold view. cbn [mm_tree set_tree set_heap]. rewrite bt_ReplaceOrInsert_law.
    unfold mem_frame at 1. cbn [mm_heap set_tree set_heap]. rewrite Hfr3. exact Hv.
Qed.

Lemma processEvent_delete m i :
  mem_inv m → ∃ m', processEvent (mkEvent OpDelete i) m = Some ((), m') ∧
    mem_inv m' ∧ same_rest m m' ∧ view m' = delete (it_Key i) (view m).
Proof.
  intros Hm. unfold processEvent. cbn [ev_Type ev_Item].
  rewrite goM_bind_unfold. unfold tree_Get. rewrite bt_Get_law.
  set (k := it_Key i). destruct (bt_view (mm_tree m) !! k) as [l|] eqn:Hl.
  - destruct (mo_tree _ _ _ (mi_ok m Hm) k l Hl) as (j & Hj & _).
    rewrite goM_bind_unfold. unfold modify_state.
    destruct (remove_indexed_spec (set_tree (bt_Delete k (mm_tree m)) m) l)
      as (h & Hr & Hg & Hfr & Hels); [apply Hm| |].
    { unfold deref. cbn. unfold mem_frame in Hj. rewrite lookup_fmap in Hj.
      by destruct (hp_store (mm_heap m) !! l). }
    rewrite Hr. eexists. split; [done|].
    destruct (mem_ok_delete (bt_view (mm_tree m)) (mem_frame m) (mem_els m) (hp_els h) k)
      as [Hok Hv]; [apply Hm| |].
    { intros x. rewrite Hels. change (mem_els (set_tree _ m)) with (mem_els m).
      rewrite Hl. split; intros [? ?]; (split; [done|]); congruence. }
    change (mem_frame (set_tree _ m)) with (mem_frame m) in Hfr.
    split_and!; [split|done|].
    + done.
    + cbn [mm_tree set_tree set_heap]. rewrite bt_Delete_law.
      unfold mem_frame, mem_els. cbn [mm_heap set_tree set_heap]. by rewrite Hfr.
    + unfold view. cbn [mm_tree set_tree set_heap]. rewrite bt_Delete_law.
      unfold mem_frame at 1. cbn [mm_heap set_tree set_heap]. rewrite Hfr. exact Hv.
  - exists m. split_and!; [done|done|done|].
    symmetry. apply delete_id. unfold view. by rewrite items_of_lookup, Hl.
Qed.

(** ** Events and the store

    Every change is an event; replaying the events a call emits on the map
    before it gives the map after it. *)

Definition replay_event (e : Event) (mp : gmap bytes Item) : gmap bytes Item :=
  match ev_Type e with
  | OpPut => <[it_Key (ev_Item e) := ev_Item e]> mp
  | OpDelete => delete (it_Key (ev_Item e)) mp
  | _ => mp
  end.

Definition replay (evs : list Event) (mp : gmap bytes Item) : gmap bytes Item :=
  fold_left (fun mp e => replay_event e mp) evs mp.

Definition emit_all (evs : list Event) (b : E) : E :=
  fold_left (fun b e => sink_Emit e b) evs b.

(** [m'] is [m] after the events [evs]. *)
Record advanced m (evs : list Event) m' : Prop := {
  ad_inv : mem_inv m';
  ad_cfg : mm_cfg m' = mm_cfg m;
  ad_buf : mm_buf m' = if EventsOff m then mm_buf m else emit_all evs (mm_buf m);
  ad_view : view m' = replay evs (view m)
}.

Lemma advanced_refl m : mem_inv m → advanced m [] m.
Proof. intros Hm. split; [done..| |done]. by case_match. Qed.

Lemma advanced_trans m1 m2 m3 evs1 evs2 :
  advanced m1 evs1 m2 → advanced m2 evs2 m3 → advanced m1 (evs1 ++ evs2) m3.
Proof.
  intros [? Hc Hb Hv] [? Hc' Hb' Hv']. split; [done|congruence| |].
  - rewrite Hb', Hb. unfold EventsOff. rewrite Hc. destruct (cf_EventsOff (mm_cfg m1)); [done|].
    unfold emit_all. by rewrite fold_left_app.
  - rewrite Hv', Hv. unfold replay. by rewrite fold_left_app.
Qed.

Lemma advanced_emit m m' e :
  mem_inv m' → same_rest m m' → view m' = replay_event e (view m) →
  ∃ m2, emit_event e m' = Some ((), m2) ∧ advanced m [e] m2 ∧
    mm_heap m2 = mm_heap m'.
Proof.
  intros Hm' [Hc Hb] Hv. unfold emit_event, modify_state. eexists. split; [done|].
  assert (EventsOff m' = EventsOff m) as Ho by (unfold EventsOff; by rewrite Hc).
  rewrite Ho. destruct (EventsOff m) eqn:Hoff; (split; [|done]).
  - by split; [| |rewrite Hoff|].
  - split; [|done|rewrite Hoff; cbn; by rewrite Hb|done].
    destruct Hm' as [? ?]. by split.
Qed.

Definition mutates (e : Event) : Prop := ev_Type e = OpPut ∨ ev_Type e = OpDelete.

Lemma process_and_emit_spec m e :
  mem_inv m → mutates e →
  ∃ m', process_and_emit e m = Some ((), m') ∧ advanced m [e] m'.
Proof.
  intros Hm He. unfold process_and_emit. rewrite goM_bind_unfold.
  assert (∃ m1, processEvent e m = Some ((), m1) ∧ mem_inv m1 ∧ same_rest m m1 ∧
    view m1 = replay_event e (view m)) as (m1 & Hr & Hi & Hs & Hv).
  { destruct e as [t i]. destruct He as [He|He]; cbn in He; subst t.
    - by apply processEvent_put.
    - by apply processEvent_delete. }
  rewrite Hr. destruct (advanced_emit m m1 e Hi Hs Hv) as (m2 & -> & Ha & _). by exists m2.
Qed.

(** ** Expiry *)

(** The deletions expiry may make from a map. *)
Definition expiry_events (now : Z) (mp : gmap bytes Item) (evs : list Event) : Prop :=
  Forall (fun e => ∃ k i, e = mkEvent OpDelete (key_item k) ∧ mp !! k = Some i ∧ expired now i) evs.

Lemma expiry_events_weaken now mp mp' evs :
  mp ⊆ mp' → expiry_events now mp evs → expiry_events now mp' evs.
Proof.
  intros Hsub Hevs. eapply Forall_impl; [done|]. intros e (k & i & -> & Hk & He).
  exists k, i. split_and!; [done| |done]. by eapply lookup_weaken.
Qed.

Lemma replay_expiry now mp evs :
  expiry_events now mp evs →
  replay evs mp ⊆ mp ∧
  ∀ k i, mp !! k = Some i → replay evs mp !! k = None → expired now i.
Proof.
  unfold replay. rewrite <- (rev_involutive evs). generalize (rev evs). clear evs. intros evs.
  induction evs as [|e evs IH]; cbn [rev fold_left]; [intros _; split; [reflexivity|congruence]|].
  rewrite fold_left_app. intros Hev. apply Forall_app in Hev as [Hev He].
  destruct (IH Hev) as [Hsub Hexp]. apply Forall_singleton in He as (k0 & i0 & -> & Hk0 & He0).
  cbn. split; [by etrans; [apply delete_subseteq|]|].
  intros k i Hk. rewrite lookup_delete. case_decide as Hkk; [|by apply Hexp].
  intros _. rewrite <- Hkk in Hk. by simplify_eq.
Qed.

Lemma view_lookup m k i :
  view m !! k = Some i ↔ ∃ l, bt_view (mm_tree m) !! k = Some l ∧ mem_frame m !! l = Some i.
Proof. unfold view. rewrite items_of_lookup. by rewrite bind_Some. Qed.

Lemma view_keyed m : mem_inv m → keyed (view m).
Proof.
  intros Hm k i (l & Hl & Hi)%view_lookup.
  destruct (mo_tree _ _ _ (mi_ok m Hm) k l Hl) as (j & Hj & Hk & _). congruence.
Qed.

(** What the front of the heap says when expiry stops. *)
Lemma heap_front_due now m :
  mem_inv m →
  (∀ l it, mem_els m !! 0%nat = Some l → deref m l = Some it → now < it_Expires (bi_Item it)) →
  ∀ k i, view m !! k = Some i →
    it_Expires i = zero_time ∨ time_unix now ≤ time_unix (it_Expires i).
Proof.
  intros Hm Hfront k i (l & Hl & Hi)%view_lookup.
  destruct (decide (it_Expires i = zero_time)) as [|Hz]; [by left|right].
  destruct (mo_tree _ _ _ (mi_ok m Hm) k l Hl) as (j & Hj & _ & Hiff). simplify_eq.
  apply Hiff in Hz. apply list_elem_of_lookup in Hz as [n Hn].
  pose proof (lookup_lt_Some _ _ _ Hn) as Hlt.
  destruct (lookup_lt_is_Some_2 (mem_els m) 0) as [l0 Hl0]; [lia|].
  destruct (mo_heap _ _ _ (mi_ok m Hm) l0) as (i0 & Hi0 & _);
    [by eapply list_elem_of_lookup_2|].
  pose proof (heap_root_least _ _ n (hg_ord _ (mi_heap m Hm)) Hlt) as Hle.
  assert (∀ x y j', mem_els m !! x = Some y → mem_frame m !! y = Some j' →
    key_at (keys_of (mm_heap m)) x = time_unix (it_Expires j')) as Hkey.
  { intros x y j' Hx Hy. unfold key_at, keys_of. cbn.
    unfold mem_els in Hx. rewrite nth_lookup, list_lookup_fmap, Hx. cbn.
    unfold mem_frame in Hy. unfold frame_key. by rewrite Hy. }
  rewrite (Hkey _ _ _ Hl0 Hi0), (Hkey _ _ _ Hn Hi) in Hle.
  etrans; [|exact Hle]. unfold mem_frame in Hi0. rewrite lookup_fmap in Hi0.
  destruct (hp_store (mm_heap m) !! l0) as [it|] eqn:Hit; cbn in Hi0; simplify_eq.
  specialize (Hfront _ _ Hl0 Hit). unfold time_unix. apply Z.div_le_mono; lia.
Qed.

Lemma PopEl_spec h l :
  heap_good h → hp_els h !! 0%nat = Some l →
  ∃ h', PopEl h = Some (l, h') ∧ heap_good h' ∧
    bi_Item <$> hp_store h' = bi_Item <$> hp_store h ∧ hp_els h ≡ₚ l :: hp_els h'.
Proof.
  intros [Hi Ho] H0l. pose proof (heap_Pop_spec (F:=gmap loc Item) h l) as Hp.
  destruct (Hp Hi Ho H0l) as (h' & ? & ? & ? & ? & ?). by exists h'.
Qed.

(** One turn that removes the front of the heap. *)
Lemma remove_front m l it h :
  mem_inv m → mem_els m !! 0%nat = Some l → deref m l = Some it → PopEl (mm_heap m) = Some (l, h) →
  let k := it_Key (bi_Item it) in
  let m1 := set_tree (bt_Delete k (mm_tree (set_heap h m))) (set_heap h m) in
  mem_inv m1 ∧ same_rest m m1 ∧ view m1 = delete k (view m) ∧
  view m !! k = Some (bi_Item it) ∧ it_Expires (bi_Item it) ≠ zero_time ∧
  length (mem_els m) = S (length (mem_els m1)).
Proof.
  intros Hm Hl Hit Hpop k m1.
  destruct (PopEl_spec (mm_heap m) l (mi_heap m Hm) Hl) as (h' & Hp & Hg & Hfr & Hperm).
  rewrite Hpop in Hp. simplify_eq.
  assert (mem_frame m !! l = Some (bi_Item it)) as Hfl by (by rewrite <- deref_frame, Hit).
  assert (l ∈ mem_els m) as Hin by (by eapply list_elem_of_lookup_2).
  destruct (mo_heap _ _ _ (mi_ok m Hm) l Hin) as (i & Hi & Hti). simplify_eq.
  destruct (mo_tree _ _ _ (mi_ok m Hm) _ _ Hti) as (j & Hj & _ & Hiff). simplify_eq.
  destruct (mem_ok_delete (bt_view (mm_tree m)) (mem_frame m) (mem_els m) (hp_els h') k)
    as [Hok Hv]; [apply Hm| |].
  { intros x. rewrite (elem_of_removed l x (mem_els m) (hp_els h'));
      [|by apply heap_inv_NoDup, Hm|done].
    unfold k. rewrite Hti. split; intros [? ?]; (split; [done|]); congruence. }
  split_and!; [split|done| | | |].
  - done.
  - unfold m1. cbn [mm_tree set_tree set_heap]. rewrite bt_Delete_law.
    unfold mem_frame, mem_els. cbn [mm_heap set_tree set_heap]. by rewrite Hfr.
  - unfold view, m1. cbn [mm_tree set_tree set_heap]. rewrite bt_Delete_law.
    unfold mem_frame at 1. cbn [mm_heap set_tree set_heap]. rewrite Hfr. exact Hv.
  - apply view_lookup. by exists l.
  - by apply Hiff.
  - unfold mem_els in *. rewrite Hperm. done.
Qed.

Lemma removeExpired_loop_spec fuel now r m :
  mem_inv m → (length (mem_els m) < fuel)%nat →
  ∃ r' m' evs, removeExpired_loop fuel now r m = Some (r', m') ∧ advanced m evs m' ∧
    expiry_events now (view m) evs ∧ r' = r + Z.of_nat (length evs) ∧
    (∀ l it, mem_els m' !! 0%nat = Some l → deref m' l = Some it →
       now < it_Expires (bi_Item it)).
Proof.
  revert r m. induction fuel as [|fuel IH]; intros r m Hm Hf; [lia|]. cbn [removeExpired_loop].
  assert (∀ (Hstop : ∀ l it, mem_els m !! 0%nat = Some l → deref m l = Some it →
       now < it_Expires (bi_Item it)),
    ∃ r' m' evs, Some (r, m) = Some (r', m') ∧ advanced m evs m' ∧
    expiry_events now (view m) evs ∧ r' = r + Z.of_nat (length evs) ∧
    (∀ l it, mem_els m' !! 0%nat = Some l → deref m' l = Some it →
       now < it_Expires (bi_Item it))) as Hend.
  { intros Hstop. exists r, m, []. split_and!; [done|by apply advanced_refl|constructor| |done].
    cbn. lia. }
  case_bool_decide as He.
  { apply Hend. intros l it. unfold mem_els. by rewrite He. }
  unfold PeekEl. destruct (hp_els (mm_heap m) !! 0%nat) as [l|] eqn:Hl; last first.
  { apply lookup_ge_None in Hl. destruct (hp_els (mm_heap m)); [done|cbn in Hl; lia]. }
  destruct (mo_heap _ _ _ (mi_ok m Hm) l) as (i & Hi & Hti);
    [by eapply list_elem_of_lookup_2|].
  destruct (deref m l) as [it|] eqn:Hit;
    [|by rewrite <- deref_frame, Hit in Hi].
  case_test; to_prop.
  { apply Hend. intros l' it'. unfold mem_els. rewrite Hl. intros [= <-] ?. by simplify_eq. }
  destruct (PopEl_spec (mm_heap m) l (mi_heap m Hm) Hl) as (h & Hpop & _).
  rewrite Hpop. destruct (remove_front m l it h Hm Hl Hit Hpop)
    as (Hm1 & Hs1 & Hv1 & Hk & Hz & Hlen).
  cbv zeta. set (k := it_Key (bi_Item it)) in *.
  set (m1 := set_tree (bt_Delete k (mm_tree (set_heap h m))) (set_heap h m)) in *.
  destruct (advanced_emit m m1 (mkEvent OpDelete (key_item k))) as (m2 & Hem & Ha & Hh2);
    try done.
  rewrite goM_bind_unfold, Hem.
  assert (mem_els m2 = mem_els m1) as Hels by (unfold mem_els; by rewrite Hh2).
  destruct (IH (r + 1) m2) as (r' & m' & evs & Hr & Ha' & Hevs & -> & Hstop); [apply Ha|rewrite Hels; lia|].
  exists (r + 1 + Z.of_nat (length evs)), m', (mkEvent OpDelete (key_item k) :: evs).
  split_and!; [done| | | |done].
  - apply (advanced_trans _ _ _ [_] evs Ha Ha').
  - constructor; [exists k, (bi_Item it); split_and!; [done..|]; split; [done|lia]|].
    eapply expiry_events_weaken; [|done]. rewrite (ad_view _ _ _ Ha). apply delete_subseteq.
  - cbn [length]. lia.
Qed.

Lemma removeExpired_spec now m :
  mem_inv m →
  ∃ r m' evs, removeExpired now m = Some (r, m') ∧ advanced m evs m' ∧
    if Mirror m then m' = m ∧ evs = []
    else purged now (view m) (view m') ∧ expiry_events now (view m) evs.
Proof.
  intros Hm. unfold removeExpired. destruct (Mirror m).
  { exists 0, m, []. split_and!; [done|by apply advanced_refl|done..]. }
  destruct (removeExpired_loop_spec (S (length (hp_els (mm_heap m)))) now 0 m Hm)
    as (r & m' & evs & Hr & Ha & Hevs & _ & Hstop); [unfold mem_els; lia|].
  exists r, m', evs. split_and!; [done..| |done].
  destruct (replay_expiry now (view m) evs Hevs) as [Hsub Hexp].
  rewrite <- (ad_view _ _ _ Ha) in Hsub, Hexp. split_and!; [done..|].
  apply heap_front_due; [apply Ha|done].
Qed.

(** ** Ranges *)

Lemma range_keys_dom {V W : Type} (lo hi : bytes) (m1 : gmap bytes V) (m2 : gmap bytes W) :
  (dom m1 : gset bytes) = dom m2 → range_keys lo hi m1 = range_keys lo hi m2.
Proof. unfold range_keys. by intros ->. Qed.

Lemma view_dom m : mem_inv m → dom (view m) = dom (bt_view (mm_tree m)).
Proof.
  intros Hm. apply set_eq. intros k. rewrite !elem_of_dom. split.
  - intros [i (l & Hl & _)%view_lookup]. by exists l.
  - intros [l Hl]. destruct (mo_tree _ _ _ (mi_ok m Hm) k l Hl) as (j & Hj & _).
    exists j. apply view_lookup. by exists l.
Qed.

Lemma sorted_range_view m lo hi :
  mem_inv m →
  Forall (fun l => is_Some (mem_frame m !! l)) (sorted_range lo hi (bt_view (mm_tree m))) ∧
  sorted_range lo hi (view m) =
    omap (fun l => mem_frame m !! l) (sorted_range lo hi (bt_view (mm_tree m))).
Proof.
  intros Hm. unfold sorted_range.
  rewrite (range_keys_dom lo hi (view m) (bt_view (mm_tree m))) by (by apply view_dom).
  induction (range_keys_lookup lo hi (bt_view (mm_tree m))) as [|k ks [l Hl] _ [IH1 IH2]];
    [by split|].
  destruct (mo_tree _ _ _ (mi_ok m Hm) k l Hl) as (j & Hj & _).
  assert (view m !! k = Some j) as Hv by (apply view_lookup; by exists l).
  cbn. rewrite Hl, Hv. cbn. rewrite Hj. split; [by constructor|]. by rewrite IH2.
Qed.

Lemma ascend_getRange m limit ls acc :
  Forall (fun l => is_Some (mem_frame m !! l)) ls →
  (0 < limit → Z.of_nat (length acc) < limit) →
  ascend (getRange_iter m limit) ls acc =
    acc ++ (if 0 <? limit then take (Z.to_nat limit - length acc) else id)
             (omap (fun l => mem_frame m !! l) ls).
Proof.
  intros Hls. revert acc. induction Hls as [|l ls [i Hi] _ IH]; intros acc Hacc.
  { cbn. case_match; rewrite ?take_nil; cbn; by rewrite app_nil_r. }
  cbn [ascend]. unfold getRange_iter at 1. rewrite <- deref_frame in Hi.
  destruct (deref m l) as [it|] eqn:Hit; [|done]. cbn in Hi. simplify_eq.
  assert (mem_frame m !! l = Some (bi_Item it)) as Hf by (by rewrite <- deref_frame, Hit).
  cbv zeta. cbn [omap list_omap]. rewrite Hf, length_app. cbn [length].
  destruct (Z.ltb_spec 0 limit) as [Hl|Hl]; cbn [andb].
  - specialize (Hacc Hl). case_test; to_prop.
    + replace (Z.to_nat limit - length acc)%nat with 1%nat by lia. done.
    + rewrite IH by (rewrite length_app; cbn; lia).
      rewrite length_app. cbn [length].
      replace (Z.to_nat limit - length acc)%nat
        with (S (Z.to_nat limit - (length acc + 1)))%nat by lia.
      cbn [take]. by rewrite <- app_assoc.
  - rewrite IH by lia. unfold id. by rewrite <- app_assoc.
Qed.

Lemma getRange_spec m lo hi limit :
  mem_inv m →
  getRange lo hi limit m = Some ((if 0 <? limit then take (Z.to_nat limit) else id)
    (sorted_range lo hi (view m)), m).
Proof.
  intros Hm. unfold getRange. rewrite bt_AscendRange_law.
  destruct (sorted_range_view m lo hi Hm) as [Hall Heq].
  rewrite ascend_getRange by (done || (cbn; lia)). rewrite Heq. cbn [length app].
  by rewrite Nat.sub_0_r.
Qed.

(** ** The calls *)

(** A call: expiry, giving the map [mp], then what [Q] says of the answer and
    of the events, on [mp]. *)
Definition call_spec {A} (now : Z) (Q : gmap bytes Item → A → list Event → Prop)
    (c : goM Mem A) : Prop :=
  ∀ m, mem_inv m → ∃ r m' mp evs1 evs2,
    c m = Some (r, m') ∧ advanced m (evs1 ++ evs2) m' ∧
    mp = replay evs1 (view m) ∧
    (if Mirror m then evs1 = [] else purged now (view m) mp ∧ expiry_events now (view m) evs1) ∧
    Q mp r evs2.

(** What follows the expiry, from one state. *)
Definition rest_at {A} (Q : gmap bytes Item → A → list Event → Prop) (c : goM Mem A) m : Prop :=
  ∃ r m' evs, c m = Some (r, m') ∧ advanced m evs m' ∧ Q (view m) r evs.

Lemma call_spec_expire {A} (now : Z) Q (c : goM Mem A) :
  (∀ m, mem_inv m → rest_at Q c m) → call_spec now Q (_ ← removeExpired now; c).
Proof.
  intros Hc m Hm. destruct (removeExpired_spec now m Hm) as (n & m1 & evs1 & Hr & Ha & Hp).
  destruct (Hc m1 (ad_inv _ _ _ Ha)) as (r & m' & evs2 & Hr2 & Ha2 & HQ).
  exists r, m', (view m1), evs1, evs2. rewrite goM_bind_unfold, Hr.
  split_and!; [done|by eapply advanced_trans|apply Ha| |done].
  destruct (Mirror m); [by destruct Hp|done].
Qed.

Lemma rest_ret {A} (a : A) (Q : gmap bytes Item → A → list Event → Prop) (m : Mem) :
  mem_inv m → Q (view m) a [] → rest_at Q (mret a) m.
Proof. intros Hm HQ. exists a, m, []. split_and!; [done|by apply advanced_refl|done]. Qed.

Lemma rest_event {A} (e : Event) (a : A) (Q : gmap bytes Item → A → list Event → Prop) m :
  mem_inv m → mutates e → Q (view m) a [e] → rest_at Q (_ ← process_and_emit e; mret a) m.
Proof.
  intros Hm He HQ. destruct (process_and_emit_spec m e Hm He) as (m' & Hr & Ha).
  exists a, m', [e]. by rewrite goM_bind_unfold, Hr.
Qed.

Lemma assign_ID_spec i m :
  mem_inv m → ∃ id m1, assign_ID i m = Some (with_ID id i, m1) ∧ advanced m [] m1.
Proof.
  intros Hm. unfold assign_ID. destruct (negb (Mirror m)).
  - unfold generateID. run_goM. eexists _, _. split; [reflexivity|].
    split; [by destruct Hm; split|done| |done]. cbn. by case_match.
  - exists (it_ID i), m. split; [by destruct i|by apply advanced_refl].
Qed.

Lemma rest_event_ID {A} (i : Item) (a : A) (Q : gmap bytes Item → A → list Event → Prop)
    (k : Item → A) m :
  mem_inv m → (∀ id, k (with_ID id i) = a) → (∀ id, Q (view m) a [mkEvent OpPut (with_ID id i)]) →
  rest_at Q (i' ← assign_ID i; _ ← process_and_emit (mkEvent OpPut i'); mret (k i')) m.
Proof.
  intros Hm Hk HQ. destruct (assign_ID_spec i m Hm) as (id & m1 & Hr & Ha).
  destruct (process_and_emit_spec m1 (mkEvent OpPut (with_ID id i)) (ad_inv _ _ _ Ha))
    as (m2 & Hr2 & Ha2); [by left|].
  exists a, m2, [mkEvent OpPut (with_ID id i)].
  rewrite goM_bind_unfold, Hr, goM_bind_unfold, Hr2, Hk.
  split_and!; [done|exact (advanced_trans _ _ _ [] _ Ha Ha2)|apply HQ].
Qed.

Lemma tree_Get_view m k l :
  mem_inv m → tree_Get k m = Some (l, m) → (is_Some l ↔ is_Some (view m !! k)).
Proof.
  unfold tree_Get. intros Hm [= <-]. rewrite bt_Get_law, <- !elem_of_dom.
  by rewrite view_dom.
Qed.

Lemma lookup_item_view m k : mem_inv m → lookup_item k m = Some (view m !! k, m).
Proof.
  intros Hm. unfold lookup_item. rewrite bt_Get_law.
  unfold view. rewrite items_of_lookup.
  destruct (bt_view (mm_tree m) !! k) as [l|] eqn:Hl; [|done]. cbn.
  destruct (mo_tree _ _ _ (mi_ok m Hm) k l Hl) as (j & Hj & _).
  rewrite <- deref_frame. rewrite <- deref_frame in Hj. by destruct (deref m l).
Qed.

Lemma rest_found {A} (Q : gmap bytes Item → A → list Event → Prop) k
    (some none : goM Mem A) m :
  mem_inv m →
  (is_Some (view m !! k) → rest_at Q some m) → (view m !! k = None → rest_at Q none m) →
  rest_at Q (found ← tree_Get k; match found with Some _ => some | None => none end) m.
Proof.
  intros Hm Hs Hn. unfold rest_at. rewrite goM_bind_unfold. unfold tree_Get.
  pose proof (tree_Get_view m k _ Hm eq_refl) as Hiff.
  destruct (bt_Get k (mm_tree m)).
  - apply Hs. apply Hiff. by eexists.
  - apply Hn. destruct (view m !! k); [|done].
    destruct (proj2 Hiff ltac:(by eexists)). done.
Qed.

Lemma rest_lookup {A} (Q : gmap bytes Item → A → list Event → Prop) k
    (f : option Item → goM Mem A) m :
  mem_inv m → rest_at Q (f (view m !! k)) m → rest_at Q (i ← lookup_item k; f i) m.
Proof. intros Hm. unfold rest_at. by rewrite goM_bind_unfold, lookup_item_view. Qed.

Lemma Create_spec now i : it_Key i ≠ [] →
  call_spec now (fun mp r evs =>
    match mp !! it_Key i with
    | Some _ => r = Err err_exists ∧ evs = []
    | None => r = Ok (newLease i) ∧ evs = [mkEvent OpPut i]
    end) (Create now i).
Proof.
  intros Hk. unfold Create. rewrite bool_decide_eq_false_2 by done.
  apply call_spec_expire. intros m Hm. apply rest_found; [done|intros [j Hj]|intros Hj].
  - apply rest_ret; [done|]. by rewrite Hj.
  - apply rest_event; [done|by left|]. by rewrite Hj.
Qed.

Lemma Get_spec now key : key ≠ [] →
  call_spec now (fun mp r evs =>
    r = match mp !! key with Some i => Ok i | None => Err err_not_found end ∧ evs = [])
    (Get now key).
Proof.
  intros Hk. unfold Get. rewrite bool_decide_eq_false_2 by done.
  apply call_spec_expire. intros m Hm. apply rest_lookup; [done|].
  apply rest_ret; [done|]. split; [by destruct (view m !! key)|done].
Qed.

Lemma Update_spec now i : it_Key i ≠ [] →
  call_spec now (fun mp r evs =>
    match mp !! it_Key i with
    | Some _ => r = Ok (newLease i) ∧ ∃ id, evs = [mkEvent OpPut (with_ID id i)]
    | None => r = Err err_not_found ∧ evs = []
    end) (Update now i).
Proof.
  intros Hk. unfold Update. rewrite bool_decide_eq_false_2 by done.
  apply call_spec_expire. intros m Hm. apply rest_found; [done|intros [j Hj]|intros Hj].
  - apply (rest_event_ID i (Ok (newLease i)) _ (fun i => Ok (newLease i))); [done|done|].
    intros id. rewrite Hj. eauto.
  - apply rest_ret; [done|]. by rewrite Hj.
Qed.

Lemma Put_spec now i : it_Key i ≠ [] →
  call_spec now (fun _ r evs =>
    r = Ok (newLease i) ∧ ∃ id, evs = [mkEvent OpPut (with_ID id i)]) (Put now i).
Proof.
  intros Hk. unfold Put. rewrite bool_decide_eq_false_2 by done.
  apply call_spec_expire. intros m Hm.
  apply (rest_event_ID i (Ok (newLease i)) _ (fun i => Ok (newLease i))); [done|done|]. eauto.
Qed.

Lemma Delete_spec now key : key ≠ [] →
  call_spec now (fun mp r evs =>
    match mp !! key with
    | Some _ => r = Ok () ∧ evs = [mkEvent OpDelete (key_item key)]
    | None => r = Err err_not_found ∧ evs = []
    end) (Delete now key).
Proof.
  intros Hk. unfold Delete. rewrite bool_decide_eq_false_2 by done.
  apply call_spec_expire. intros m Hm. apply rest_found; [done|intros [j Hj]|intros Hj].
  - apply rest_event; [done|by right|]. by rewrite Hj.
  - apply rest_ret; [done|]. by rewrite Hj.
Qed.

Lemma KeepAlive_spec now l expires : Lease_IsEmpty l = false →
  call_spec now (fun mp r evs =>
    match mp !! lease_Key l with
    | Some cur => r = Ok () ∧ ∃ id, evs = [mkEvent OpPut (with_ID id (with_Expires expires cur))]
    | None => r = Err err_not_found ∧ evs = []
    end) (KeepAlive now l expires).
Proof.
  intros Hl. unfold KeepAlive. rewrite Hl.
  apply call_spec_expire. intros m Hm. apply rest_lookup; [done|].
  destruct (view m !! lease_Key l) as [cur|] eqn:Hv.
  - apply (rest_event_ID (with_Expires expires cur) (Ok ()) _ (fun _ => Ok ())); [done|done|].
    intros id. rewrite Hv. eauto.
  - apply rest_ret; [done|]. by rewrite Hv.
Qed.

Lemma CompareAndSwap_spec now e i :
  it_Key e ≠ [] → it_Key i = it_Key e →
  call_spec now (fun mp r evs =>
    match mp !! it_Key e with
    | None => r = Err err_cas_not_found ∧ evs = []
    | Some cur =>
        if bool_decide (it_Value cur = it_Value e)
        then r = Ok (newLease i) ∧ evs = [mkEvent OpPut i]
        else r = Err err_cas_mismatch ∧ evs = []
    end) (CompareAndSwap now e i).
Proof.
  intros He Hk. unfold CompareAndSwap. rewrite Hk.
  rewrite bool_decide_eq_false_2, (bool_decide_eq_true_2 (it_Key e = it_Key e)) by done. cbn [negb].
  apply call_spec_expire. intros m Hm. apply rest_lookup; [done|].
  destruct (view m !! it_Key e) as [cur|] eqn:Hv.
  - case_bool_decide as Hc; cbn [negb].
    + apply rest_event; [done|by left|]. by rewrite Hv, bool_decide_eq_true_2.
    + apply rest_ret; [done|]. by rewrite Hv, bool_decide_eq_false_2.
  - apply rest_ret; [done|]. by rewrite Hv.
Qed.

Lemma rest_range {A} (Q : gmap bytes Item → A → list Event → Prop) lo hi limit
    (f : list Item → goM Mem A) m :
  mem_inv m →
  rest_at Q (f ((if 0 <? limit then take (Z.to_nat limit) else id) (sorted_range lo hi (view m)))) m →
  rest_at Q (items ← getRange lo hi limit; f items) m.
Proof. intros Hm. unfold rest_at. by rewrite goM_bind_unfold, getRange_spec. Qed.

Lemma GetRange_spec now lo hi limit : lo ≠ [] → hi ≠ [] →
  call_spec now (fun mp r evs =>
    r = Ok (take (Z.to_nat (if limit <=? 0 then DefaultRangeLimit else limit)) (sorted_range lo hi mp)) ∧
    evs = []) (GetRange now lo hi limit).
Proof.
  intros Hlo Hhi. unfold GetRange. rewrite !bool_decide_eq_false_2 by done. cbv zeta.
  apply call_spec_expire. intros m Hm. apply rest_range; [done|].
  rewrite (proj2 (Z.ltb_lt 0 _)) by (unfold DefaultRangeLimit; case_test; to_prop; lia).
  by apply rest_ret.
Qed.

Lemma DeleteRange_loop_spec items m :
  mem_inv m →
  ∃ m', DeleteRange_loop items m = Some ((), m') ∧ advanced m (mkEvent OpDelete <$> items) m'.
Proof.
  revert m. induction items as [|i items IH]; intros m Hm.
  { exists m. split; [done|by apply advanced_refl]. }
  cbn [DeleteRange_loop].
  destruct (process_and_emit_spec m (mkEvent OpDelete i) Hm) as (m1 & Hr & Ha); [by right|].
  destruct (IH m1 (ad_inv _ _ _ Ha)) as (m2 & Hr2 & Ha2).
  exists m2. rewrite goM_bind_unfold, Hr. split; [done|].
  apply (advanced_trans _ _ _ [_] _ Ha Ha2).
Qed.

Lemma DeleteRange_spec now lo hi : lo ≠ [] → hi ≠ [] →
  call_spec now (fun mp r evs =>
    r = Ok () ∧ evs = mkEvent OpDelete <$> sorted_range lo hi mp) (DeleteRange now lo hi).
Proof.
  intros Hlo Hhi. unfold DeleteRange. rewrite !bool_decide_eq_false_2 by done.
  apply call_spec_expire. intros m Hm. apply rest_range; [done|].
  unfold NoLimit, id. cbn [Z.ltb Z.compare].
  destruct (DeleteRange_loop_spec (sorted_range lo hi (view m)) m Hm) as (m' & Hr & Ha).
  exists (Ok ()), m', (mkEvent OpDelete <$> sorted_range lo hi (view m)).
  by rewrite goM_bind_unfold, Hr.
Qed.

(** Items with the IDs the backend gave them. *)
Definition same_but_ID (i j : Item) : Prop := ∃ id, j = with_ID id i.

Lemma PutRange_loop_spec items m :
  mem_inv m →
  ∃ m' items', PutRange_loop items m = Some ((), m') ∧ Forall2 same_but_ID items items' ∧
    advanced m (mkEvent OpPut <$> items') m'.
Proof.
  revert m. induction items as [|i items IH]; intros m Hm.
  { exists m, []. split_and!; [done|constructor|by apply advanced_refl]. }
  cbn [PutRange_loop]. destruct (assign_ID_spec i m Hm) as (id & m1 & Hr & Ha).
  destruct (process_and_emit_spec m1 (mkEvent OpPut (with_ID id i)) (ad_inv _ _ _ Ha))
    as (m2 & Hr2 & Ha2); [by left|].
  destruct (IH m2 (ad_inv _ _ _ Ha2)) as (m3 & items' & Hr3 & Hf & Ha3).
  exists m3, (with_ID id i :: items'). split_and!.
  - by rewrite goM_bind_unfold, Hr, goM_bind_unfold, Hr2.
  - constructor; [by exists id|done].
  - exact (advanced_trans _ _ _ [] _ Ha (advanced_trans _ _ _ [_] _ Ha2 Ha3)).
Qed.

Lemma PutRange_spec now items : existsb snd items = false →
  call_spec now (fun _ r evs =>
    r = Ok () ∧ ∃ items', Forall2 same_but_ID (fst <$> items) items' ∧ evs = mkEvent OpPut <$> items')
    (PutRange now items).
Proof.
  intros Hk. unfold PutRange. rewrite Hk. apply call_spec_expire. intros m Hm.
  destruct (PutRange_loop_spec (fst <$> items) m Hm) as (m' & items' & Hr & Hf & Ha).
  exists (Ok ()), m', (mkEvent OpPut <$> items'). rewrite goM_bind_unfold, Hr.
  split_and!; [done..|]. by exists items'.
Qed.

(** ** The backend interface *)

#[export] Instance memory_ops : BackendOps Mem := {
  bk_Create := Create;
  bk_Put := Put;
  bk_Update := Update;
  bk_CompareAndSwap := CompareAndSwap;
  bk_Get := Get;
  bk_GetRange := GetRange;
  bk_Delete := Delete;
  bk_DeleteRange := DeleteRange;
  bk_KeepAlive := KeepAlive
}.

(** Outside mirror mode the backend expires items. *)
Definition live m : Prop := mem_inv m ∧ Mirror m = false.

Lemma replay_app evs1 evs2 mp : replay (evs1 ++ evs2) mp = replay evs2 (replay evs1 mp).
Proof. unfold replay. apply fold_left_app. Qed.

Lemma advanced_live m evs m' : live m → advanced m evs m' → live m'.
Proof. intros [_ Hmi] [? Hc _ _]. split; [done|]. unfold Mirror. by rewrite Hc. Qed.

(** From a call's specification to a law of the contract. *)
Lemma call_law {A} now Q (c : goM Mem A) m (P : A → Mem → Prop) :
  call_spec now Q c → live m →
  (∀ r m' mp evs, purged now (view m) mp → view m' = replay evs mp → Q mp r evs → P r m') →
  ∃ r m', c m = Some (r, m') ∧ live m' ∧ P r m'.
Proof.
  intros Hc Hm HP. pose proof Hm as [Hi Hmi].
  destruct (Hc m Hi) as (r & m' & mp & evs1 & evs2 & Hr & Ha & -> & Hp & HQ).
  rewrite Hmi in Hp. exists r, m'. split_and!; [done|by eapply advanced_live|].
  eapply HP; [apply Hp| |done]. by rewrite (ad_view _ _ _ Ha), replay_app.
Qed.

Lemma early_law {A} (a : A) m (P : A → Mem → Prop) :
  live m → P a m → ∃ r m', (mret a : goM Mem A) m = Some (r, m') ∧ live m' ∧ P r m'.
Proof. intros. by exists a, m. Qed.

Lemma newLease_of i : newLease i = lease_of i.
Proof. done. Qed.

Lemma stored_put id i mp m' :
  view m' = replay [mkEvent OpPut (with_ID id i)] mp → stored i mp (view m').
Proof. intros ->. by exists id. Qed.

Lemma stored_put_own i mp m' : view m' = replay [mkEvent OpPut i] mp → stored i mp (view m').
Proof. intros ->. exists (it_ID i). by destruct i. Qed.

Lemma replay_deletes (lo hi : bytes) (mp : gmap bytes Item) :
  keyed mp →
  replay (mkEvent OpDelete <$> sorted_range lo hi mp) mp =
    filter (fun p => in_key_range lo hi p.1 = false) mp.
Proof.
  intros Hk.
  assert (∀ its mp', replay (mkEvent OpDelete <$> its) mp' =
    filter (fun p => p.1 ∉ it_Key <$> its) mp') as Hr.
  { induction its as [|i its IH]; intros mp'.
    - symmetry. apply map_filter_id. intros. cbn. apply not_elem_of_nil.
    - unfold replay. cbn [fmap list_fmap fold_left]. fold (replay (mkEvent OpDelete <$> its)).
      change (fold_left (fun mp e => replay_event e mp)) with replay. rewrite IH.
      apply map_eq. intros k. apply option_eq. intros x.
      rewrite !map_lookup_filter_Some. cbn. rewrite lookup_delete_Some, not_elem_of_cons.
      naive_solver. }
  rewrite Hr. apply map_filter_ext. intros k i Hi. cbn. split.
  - intros Hn. apply not_true_is_false. intros Hin. apply Hn.
    apply list_elem_of_fmap. exists i. split; [by rewrite (Hk k i)|].
    unfold sorted_range. apply list_elem_of_omap. exists k. split; [|done].
    apply range_keys_elem. split; [done|by exists i].
  - intros Hf [j [-> Hj]]%list_elem_of_fmap. unfold sorted_range in Hj.
    apply list_elem_of_omap in Hj as (k' & Hk' & Hj).
    apply range_keys_elem in Hk' as [Hin _]. by rewrite (Hk k' j Hj), Hin in Hf.
Qed.

Lemma purged_keyed now mp mp' : purged now mp mp' → keyed mp → keyed mp'.
Proof. intros (Hsub & _) Hk k i Hi. eapply Hk. by eapply lookup_weaken. Qed.

#[export] Program Instance memory_laws : BackendLaws Mem := {
  bk_inv := live;
  bk_view := view
}.
Next Obligation. intros m [Hm _]. by apply view_keyed. Qed.
Next Obligation.
  intros now i m Hm. cbn [bk_Create memory_ops]. case_bool_decide as Hk.
  - unfold Create. rewrite bool_decide_eq_true_2 by done. by apply early_law.
  - eapply call_law; [by apply Create_spec|done|]. cbv beta. intros r m' mp evs Hp Hv HQ.
    exists mp. split; [done|]. destruct (mp !! it_Key i); destruct HQ as [-> ->]; [done|].
    split; [done|by apply stored_put_own].
Qed.
Next Obligation.
  intros now i m Hm. cbn [bk_Put memory_ops]. case_bool_decide as Hk.
  - unfold Put. rewrite bool_decide_eq_true_2 by done. by apply early_law.
  - eapply call_law; [by apply Put_spec|done|]. cbv beta. intros r m' mp evs Hp Hv [-> [id ->]].
    exists mp. split_and!; [done|done|by eapply stored_put].
Qed.
Next Obligation.
  intros now i m Hm. cbn [bk_Update memory_ops]. case_bool_decide as Hk.
  - unfold Update. rewrite bool_decide_eq_true_2 by done. by apply early_law.
  - eapply call_law; [by apply Update_spec|done|]. cbv beta. intros r m' mp evs Hp Hv HQ.
    exists mp. split; [done|].
    destruct (mp !! it_Key i); [destruct HQ as [-> [id ->]]|by destruct HQ as [-> ->]].
    split; [done|by eapply stored_put].
Qed.
Next Obligation.
  intros now k m Hm. cbn [bk_Get memory_ops]. case_bool_decide as Hk.
  - unfold Get. rewrite bool_decide_eq_true_2 by done. by apply early_law.
  - eapply call_law; [by apply Get_spec|done|]. cbv beta. intros r m' mp evs Hp Hv [-> ->].
    by exists mp.
Qed.
Next Obligation.
  intros now k m Hm. cbn [bk_Delete memory_ops]. case_bool_decide as Hk.
  - unfold Delete. rewrite bool_decide_eq_true_2 by done. by apply early_law.
  - eapply call_law; [by apply Delete_spec|done|]. cbv beta. intros r m' mp evs Hp Hv HQ.
    exists mp. split; [done|]. by destruct (mp !! k); destruct HQ as [-> ->].
Qed.
Next Obligation.
  intros now lo hi m Hm. cbn [bk_DeleteRange memory_ops].
  case_bool_decide as Hlo; [|case_bool_decide as Hhi].
  - unfold DeleteRange. rewrite bool_decide_eq_true_2 by done. by apply early_law.
  - unfold DeleteRange. rewrite bool_decide_eq_false_2, bool_decide_eq_true_2 by done.
    by apply early_law.
  - eapply call_law; [by apply DeleteRange_spec|done|]. cbv beta.
    intros r m' mp evs Hp Hv [-> ->]. exists mp. split_and!; [done..|]. rewrite Hv.
    apply replay_deletes. eapply purged_keyed; [done|]. apply view_keyed, Hm.
Qed.
Next Obligation.
  intros now e i m Hm. cbn [bk_CompareAndSwap memory_ops].
  destruct (decide (it_Key e = [])) as [He|He].
  { unfold CompareAndSwap. rewrite !(bool_decide_eq_true_2 (it_Key e = [])) by done.
    by apply early_law. }
  rewrite (bool_decide_eq_false_2 (it_Key e = [])) by done.
  destruct (decide (it_Key i = [])) as [Hi|Hi].
  { unfold CompareAndSwap. rewrite !(bool_decide_eq_false_2 (it_Key e = [])) by done.
    rewrite !(bool_decide_eq_true_2 (it_Key i = [])) by done. by apply early_law. }
  rewrite (bool_decide_eq_false_2 (it_Key i = [])) by done. cbn [orb].
  case_bool_decide as Hk; cbn [negb].
  - eapply call_law; [by apply CompareAndSwap_spec|done|]. cbv beta.
    intros r m' mp evs Hp Hv HQ. exists mp. split; [done|].
    destruct (mp !! it_Key e); [|by destruct HQ as [-> ->]].
    case_bool_decide; destruct HQ as [-> ->]; [|done].
    split; [done|by apply stored_put_own].
  - unfold CompareAndSwap. rewrite !bool_decide_eq_false_2 by done. by apply early_law.
Qed.
Next Obligation.
  intros now l expires m Hm. cbn [bk_KeepAlive memory_ops].
  destruct (Lease_IsEmpty l) eqn:Hl.
  - unfold KeepAlive. rewrite Hl. by apply early_law.
  - eapply call_law; [by apply KeepAlive_spec|done|]. cbv beta. intros r m' mp evs Hp Hv HQ.
    exists mp. split; [done|].
    destruct (mp !! lease_Key l); [destruct HQ as [-> [id ->]]|by destruct HQ as [-> ->]].
    split; [done|by eapply stored_put].
Qed.
Next Obligation.
  intros now lo hi limit m Hm. cbn [bk_GetRange memory_ops].
  case_bool_decide as Hlo; [|case_bool_decide as Hhi].
  - unfold GetRange. rewrite bool_decide_eq_true_2 by done. by apply early_law.
  - unfold GetRange. rewrite bool_decide_eq_false_2, bool_decide_eq_true_2 by done.
    by apply early_law.
  - eapply call_law; [by apply GetRange_spec|done|]. cbv beta.
    intros r m' mp evs Hp Hv [-> ->]. by exists mp.
Qed.

Lemma New_inv newBuffer cfg : mem_inv (New newBuffer cfg) ∧ view (New newBuffer cfg) = ∅.
Proof.
  assert (bt_view (mm_tree (New newBuffer cfg)) = ∅) as Ht by apply bt_New_law.
  split; [split|].
  - split; [split; cbn; [by intros n l|intros l it; by rewrite lookup_empty]|].
    intros x H1 H2. cbn in H2. lia.
  - rewrite Ht. split; [intros k l; by rewrite lookup_empty|].
    intros l Hl. by apply not_elem_of_nil in Hl.
  - unfold view. rewrite Ht. apply omap_empty.
Qed.

(** ** Sequences of calls *)

Inductive mem_call := MCall (c : backend_call) | MPutRange (items : list (Item * bool)).

Definition run_mem_call (c : mem_call) (now : Z) : goM Mem (option error) :=
  match c with
  | MCall c => run_call c now
  | MPutRange items => drop_answer (PutRange now items)
  end.

Lemma drop_answer_advances {A} now Q (c : goM Mem (result A)) m :
  call_spec now Q c → mem_inv m →
  ∃ r m' evs, drop_answer c m = Some (r, m') ∧ advanced m evs m'.
Proof.
  intros Hc Hm. destruct (Hc m Hm) as (r & m' & mp & evs1 & evs2 & Hr & Ha & _).
  unfold drop_answer. rewrite goM_bind_unfold, Hr. by eexists _, m', _.
Qed.

Lemma drop_answer_early {A} (a : result A) m :
  mem_inv m → ∃ r m' evs, drop_answer (mret a : goM Mem _) m = Some (r, m') ∧ advanced m evs m'.
Proof. intros Hm. eexists _, m, []. split; [reflexivity|by apply advanced_refl]. Qed.

(** Case analysis on the test a call starts with. *)
Ltac early_return :=
  match goal with
  | |- context [if ?b then _ else _] => destruct b eqn:?; [by apply drop_answer_early|]
  end.

Lemma run_mem_call_advances c now m :
  mem_inv m → ∃ r m' evs, run_mem_call c now m = Some (r, m') ∧ advanced m evs m'.
Proof.
  intros Hm. destruct c as [[i|i|i|e i|k|lo hi limit|k|lo hi|l expires]|items]; cbn.
  - destruct (decide (it_Key i = [])) as [Hk|Hk].
    + unfold Create. rewrite bool_decide_eq_true_2 by done. by apply drop_answer_early.
    + eapply drop_answer_advances; [by apply Create_spec|done].
  - destruct (decide (it_Key i = [])) as [Hk|Hk].
    + unfold Put. rewrite bool_decide_eq_true_2 by done. by apply drop_answer_early.
    + eapply drop_answer_advances; [by apply Put_spec|done].
  - destruct (decide (it_Key i = [])) as [Hk|Hk].
    + unfold Update. rewrite bool_decide_eq_true_2 by done. by apply drop_answer_early.
    + eapply drop_answer_advances; [by apply Update_spec|done].
  - destruct (decide (it_Key e ≠ [] ∧ it_Key i = it_Key e)) as [[He Hi]|Hn].
    + eapply drop_answer_advances; [by apply CompareAndSwap_spec|done].
    + unfold CompareAndSwap. do 2 early_return. to_prop.
      destruct (decide (it_Key e = it_Key i)); [by destruct Hn|].
      rewrite bool_decide_eq_false_2 by done. by apply drop_answer_early.
  - destruct (decide (k = [])) as [Hk|Hk].
    + unfold Get. rewrite bool_decide_eq_true_2 by done. by apply drop_answer_early.
    + eapply drop_answer_advances; [by apply Get_spec|done].
  - destruct (decide (lo ≠ [] ∧ hi ≠ [])) as [[Hl Hh]|Hn].
    + eapply drop_answer_advances; [by apply GetRange_spec|done].
    + unfold GetRange. do 2 early_return. to_prop. by destruct Hn.
  - destruct (decide (k = [])) as [Hk|Hk].
    + unfold Delete. rewrite bool_decide_eq_true_2 by done. by apply drop_answer_early.
    + eapply drop_answer_advances; [by apply Delete_spec|done].
  - destruct (decide (lo ≠ [] ∧ hi ≠ [])) as [[Hl Hh]|Hn].
    + eapply drop_answer_advances; [by apply DeleteRange_spec|done].
    + unfold DeleteRange. do 2 early_return. to_prop. by destruct Hn.
  - destruct (Lease_IsEmpty l) eqn:Hl.
    + unfold KeepAlive. rewrite Hl. by apply drop_answer_early.
    + eapply drop_answer_advances; [by apply KeepAlive_spec|done].
  - destruct (existsb snd items) eqn:Hk.
    + unfold PutRange. rewrite Hk. by apply drop_answer_early.
    + eapply drop_answer_advances; [by apply PutRange_spec|done].
Qed.

(** ** Properties *)

(** C1: the in-memory backend implements the contract of a backend: outside
    mirror mode, for every call, on every branch, its answer and the map its
    B-tree, heap and pointers stand for are those the contract gives. *)
Theorem Memory_implements_Backend :
  ∃ L : BackendLaws Mem,
    (∀ m, @bk_inv Mem memory_ops L m ↔ mem_inv m ∧ Mirror m = false) ∧
    (∀ m, @bk_view Mem memory_ops L m = view m).
Proof. by exists memory_laws. Qed.

(** C23: events are complete. From any consistent state, in any mode, any
    sequence of calls runs without a panic to a consistent state, and the
    events it puts in the buffer, replayed in order on the map before, give
    the map after: a watcher's copy does not drift. *)
Theorem Memory_events_replay (calls : list (mem_call * Z)) m :
  mem_inv m →
  ∃ rs m' evs, mapM (fun '(c, now) => run_mem_call c now) calls m = Some (rs, m') ∧
    mem_inv m' ∧
    mm_buf m' = (if EventsOff m then mm_buf m else emit_all evs (mm_buf m)) ∧
    view m' = replay evs (view m).
Proof.
  intros Hm.
  assert (∃ rs m' evs, mapM (fun '(c, now) => run_mem_call c now) calls m = Some (rs, m') ∧
    advanced m evs m') as (rs & m' & evs & Hr & []); [|by exists rs, m', evs].
  revert m Hm. induction calls as [|[c now] calls IH]; intros m Hm.
  { exists [], m, []. split; [done|by apply advanced_refl]. }
  destruct (run_mem_call_advances c now m Hm) as (r & m1 & evs1 & Hr & Ha).
  destruct (IH m1 (ad_inv _ _ _ Ha)) as (rs & m' & evs2 & Hrs & Ha2).
  exists (r :: rs), m', (evs1 ++ evs2). cbn [mapM].
  rewrite goM_bind_unfold, Hr, goM_bind_unfold, Hrs.
  split; [done|by eapply advanced_trans].
Qed.

(** reads and expiry. An item stored and not expired is read back; what a
    read returns was stored under that key and was not due in a second before
    the read's. In mirror mode nothing expires. *)
Theorem Memory_Get_expiry now key m :
  mem_inv m → key ≠ [] →
  ∃ r m', Get now key m = Some (r, m') ∧
    (∀ i, r = Ok i → view m !! key = Some i ∧
       (Mirror m = false → it_Expires i = zero_time ∨ time_unix now ≤ time_unix (it_Expires i))) ∧
    (∀ i, view m !! key = Some i → Mirror m = true ∨ ¬ expired now i → r = Ok i).
Proof.
  intros Hm Hk.
  destruct (Get_spec now key Hk m Hm) as (r & m' & mp & evs1 & evs2 & Hr & _ & Hmp & Hp & -> & _).
  exists (match mp !! key with Some i => Ok i | None => Err err_not_found end), m'.
  split; [done|]. destruct (Mirror m) eqn:Hmi.
  - rewrite Hp in Hmp. cbn in Hmp. rewrite <- Hmp.
    split; [|by intros i ->]. intros i. destruct (mp !! key); [by intros [= <-]|done].
  - destruct Hp as [(Hsub & Hexp & Hdue) _]. split.
    + intros i Hi. destruct (mp !! key) as [j|] eqn:Hj; [|done]. simplify_eq.
      split; [by eapply lookup_weaken|]. intros _. by eapply Hdue.
    + intros i Hi [|Hne]; [done|]. destruct (mp !! key) as [j|] eqn:Hj.
      * pose proof (lookup_weaken _ _ _ _ Hj Hsub). congruence.
      * by destruct Hne; eapply Hexp.
Qed.
End correctness.

(** ** A concrete instance: a finite map as the tree, a list as the buffer *)
Module Concrete.

#[export] Instance map_tree : BTree := {
  btree := gmap bytes loc;
  bt_New := fun _ => ∅;
  bt_Get := fun k t => t !! k;
  bt_ReplaceOrInsert := fun k l t => <[k := l]> t;
  bt_Delete := fun k t => delete k t;
  bt_AscendRange := fun _ lo hi f t s => ascend f (sorted_range lo hi t) s
}.

#[export] Program Instance map_tree_laws : BTreeLaws := { bt_view := fun t => t }.
Solve Obligations with done.

#[export] Instance log_sink : EventSink (list Event) := {
  sink_Emit := fun e es => es ++ [e];
  sink_Clear := fun es => es;
  sink_Close := fun es => es
}.

Definition fresh_memory : Memory (E:=list Event) :=
  New (fun _ => []) (mkConfig 0 false 0 false).

Definition item (k : Z) (v : bytes) (e : Z) : Item := mkItem [k] v e 0 0.

(** The answer of the last of two writes and a read. *)
Definition two_puts_get (t0 now : Z) (a b : Item) (k : bytes) : option (result Item) :=
  fst <$> (_ ← Put t0 a; _ ← Put t0 b; Get now k) fresh_memory.

(** the heap orders items by the second they expire in, so expiry stops at
    an item of the same second that is due later: at 10.5s, the item that
    expired at 10.1s is still returned when another one expiring at 10.9s was
    put first, and is not when it was alone. *)
Theorem Memory_same_second_survivor :
  two_puts_get 0 10500000000 (item 97 [1] 10900000000) (item 98 [2] 10100000000) [98]
    = Some (Ok (with_ID 2 (item 98 [2] 10100000000))) ∧
  two_puts_get 0 10500000000 (item 98 [1] 10900000000) (item 98 [2] 10100000000) [98]
    = Some (Err err_not_found).
Proof. vm_compute. done. Qed.

(** Record IDs. [Put] gives a record an ID above all those it gave before,
    but a record made later by [Create] keeps the ID of the caller's item. *)
Theorem Memory_Create_keeps_ID :
  fst <$> (_ ← Put 0 (item 97 [] zero_time);
           _ ← Create 0 (item 98 [] zero_time);
           a ← Get 0 [97]; b ← Get 0 [98];
           mret (it_ID <$> a, it_ID <$> b)) fresh_memory = Some (Ok 1, Ok 0).
Proof. vm_compute. done. Qed.

(** A range deletion puts one delete event per item in the buffer. *)
Theorem Memory_DeleteRange_emits :
  (fun r => mm_buf r.2) <$> (_ ← Put 0 (item 97 [] zero_time);
    _ ← Put 0 (item 98 [] zero_time); DeleteRange 0 [97] [99]) fresh_memory =
  Some [mkEvent OpPut (with_ID 1 (item 97 [] zero_time));
        mkEvent OpPut (with_ID 2 (item 98 [] zero_time));
        mkEvent OpDelete (with_ID 1 (item 97 [] zero_time));
        mkEvent OpDelete (with_ID 2 (item 98 [] zero_time))].
Proof. vm_compute. done. Qed.
End Concrete.
