(* ===== verification/Buffer.v ===== *)
(** * The event buffer (lib/backend/buffer.go)

    A fan-out of events to watchers. Each watcher has a bounded channel and,
    when the channel is full, a backlog that is tolerated for a grace period.
    Watchers are found by key prefix in a radix tree, a third-party library
    (class [Radix]). Watchers are shared by reference, so the model keeps them
    in a store by identity. *)

From S2P Require Import Prelude.
From S2P Require Import Keys.
From S2P Require Import Backend.
From S2P Require Import Memory.
Local Open Scope Z_scope.

(** ** The radix tree *)

Abbreviation wid := nat.

(** github.com/armon/go-radix holding lists of watchers. The walks give the
    values in the order the callback sees them; the callback here never stops
    a walk. *)
Class Radix := {
  radix : Type;
  rx_New : radix;
  rx_Get : bytes → radix → option (list wid);
  rx_Insert : bytes → list wid → radix → radix;
  rx_Delete : bytes → radix → radix;
  rx_WalkPath : bytes → radix → list (list wid);
  rx_Walk : radix → list (list wid)
}.

(** The values of the entries whose prefix satisfies [P]. *)
Definition entries (P : bytes → bool) (t : gmap bytes (list wid)) : list (list wid) :=
  snd <$> filter (fun e => P e.1 = true) (map_to_list t).

Class RadixLaws `{Radix} := {
  rx_view : radix → gmap bytes (list wid);
  rx_New_law : rx_view rx_New = ∅;
  rx_Get_law : ∀ k t, rx_Get k t = rx_view t !! k;
  rx_Insert_law : ∀ k v t, rx_view (rx_Insert k v t) = <[k := v]> (rx_view t);
  rx_Delete_law : ∀ k t, rx_view (rx_Delete k t) = delete k (rx_view t);
  rx_WalkPath_law : ∀ k t,
    rx_WalkPath k t ≡ₚ entries (fun p => has_prefix k p) (rx_view t);
  rx_Walk_law : ∀ t, rx_Walk t ≡ₚ entries (fun _ => true) (rx_view t)
}.

(** ** Redundant prefixes *)

(** The loop of [removeRedundantPrefixes] on the sorted slice. [kept] is
    [prefixes[:j+1]] backwards, [rest] is [prefixes[i:]]; the writes at [j]
    never reach an index that is still to be read, as [j < i]. *)
Fixpoint compact (kept : list bytes) (rest : list bytes) : list bytes :=
  match rest with
  | [] => reverse kept
  | x :: rest =>
      match kept with
      | c :: _ => if has_prefix x c then compact kept rest else compact (x :: kept) rest
      | [] => compact [x] rest
      end
  end.

Definition removeRedundantPrefixes (prefixes : list bytes) : list bytes :=
  match merge_sort bytes_le prefixes with
  | [] => []
  | p :: rest => compact [p] rest
  end.

(** ** Watchers *)

Record bufferConfig := mkBufferConfig { bc_gracePeriod : Z; bc_capacity : Z }.

Definition DefaultBacklogGracePeriod : Z := 30 * Second.
Definition default_config : bufferConfig :=
  mkBufferConfig DefaultBacklogGracePeriod DefaultBufferCapacity.

(** The options of [NewCircularBuffer]; a non-positive value is ignored. *)
Definition BufferCapacity (c : Z) (cfg : bufferConfig) : bufferConfig :=
  if 0 <? c then mkBufferConfig (bc_gracePeriod cfg) c else cfg.
Definition BacklogGracePeriod (d : Z) (cfg : bufferConfig) : bufferConfig :=
  if 0 <? d then mkBufferConfig d (bc_capacity cfg) else cfg.

Record Watch := mkWatch { wt_Prefixes : list bytes; wt_QueueSize : Z }.

(** [bw_eventsC] is the content of the channel, of capacity [bw_capacity];
    [bw_initDone] is [initOnce]; [bw_cancelled] says whether the context is. *)
Record BufferWatcher := mkBW {
  bw_Prefixes : list bytes;
  bw_eventsC : list Event;
  bw_backlog : list Event;
  bw_backlogSince : Z;
  bw_cancelled : bool;
  bw_initDone : bool;
  bw_initOk : bool;
  bw_capacity : Z
}.

Definition set_queue (q bl : list Event) (since : Z) (w : BufferWatcher) : BufferWatcher :=
  mkBW (bw_Prefixes w) q bl since (bw_cancelled w) (bw_initDone w) (bw_initOk w) (bw_capacity w).

(** [select { case w.eventsC <- e: ... default: ... }]. *)
Definition try_send (e : Event) (w : BufferWatcher) : option BufferWatcher :=
  if Z.of_nat (length (bw_eventsC w)) <? bw_capacity w
  then Some (set_queue (bw_eventsC w ++ [e]) (bw_backlog w) (bw_backlogSince w) w)
  else None.

(** The loop of [flushBacklog]: [pending] is what is left of the backlog. *)
Fixpoint flush_loop (pending : list Event) (w : BufferWatcher) : bool * BufferWatcher :=
  match pending with
  | [] => (true, set_queue (bw_eventsC w) [] zero_time w)
  | e :: rest =>
      match try_send e w with
      | Some w => flush_loop rest w
      | None => (false, set_queue (bw_eventsC w) pending (bw_backlogSince w) w)
      end
  end.

Definition flushBacklog (w : BufferWatcher) : bool * BufferWatcher :=
  flush_loop (bw_backlog w) w.

Definition watcher_emit (gracePeriod now : Z) (e : Event) (w : BufferWatcher) :
    bool * BufferWatcher :=
  let '(flushed, w) := flushBacklog w in
  if negb flushed then
    if bw_backlogSince w + gracePeriod <? now then (false, w)
    else (true, set_queue (bw_eventsC w) (bw_backlog w ++ [e]) (bw_backlogSince w) w)
  else
    match try_send e w with
    | Some w => (true, w)
    | None => (true, set_queue (bw_eventsC w) (bw_backlog w ++ [e]) now w)
    end.

Definition init_event : Event := mkEvent OpInit (mkItem [] [] zero_time 0 0).

Definition set_init (ok : bool) (w : BufferWatcher) : BufferWatcher :=
  mkBW (bw_Prefixes w) (bw_eventsC w) (bw_backlog w) (bw_backlogSince w) (bw_cancelled w)
    true ok (bw_capacity w).

Definition watcher_init (w : BufferWatcher) : bool * BufferWatcher :=
  if bw_initDone w then (bw_initOk w, w) else
  match try_send init_event w with
  | Some w => (true, set_init true w)
  | None => (false, set_init false w)
  end.

Definition closeWatcher (w : BufferWatcher) : BufferWatcher :=
  mkBW (bw_Prefixes w) (bw_eventsC w) (bw_backlog w) (bw_backlogSince w) true
    (bw_initDone w) (bw_initOk w) (bw_capacity w).

(** ** The buffer *)
Section buffer.
Context `{Radix}.

Record CircularBuffer := mkBuffer {
  cb_cfg : bufferConfig;
  cb_init : bool;
  cb_closed : bool;
  cb_watchers : radix;
  cb_store : gmap wid BufferWatcher
}.

Definition set_watchers (t : radix) (c : CircularBuffer) : CircularBuffer :=
  mkBuffer (cb_cfg c) (cb_init c) (cb_closed c) t (cb_store c).
Definition set_store (st : gmap wid BufferWatcher) (c : CircularBuffer) : CircularBuffer :=
  mkBuffer (cb_cfg c) (cb_init c) (cb_closed c) (cb_watchers c) st.
Definition update_watcher (f : BufferWatcher → BufferWatcher) (w : wid) (c : CircularBuffer) :=
  set_store (alter f w (cb_store c)) c.

Definition NewCircularBuffer (opts : list (bufferConfig → bufferConfig)) : CircularBuffer :=
  let cfg := fold_left (fun cfg opt => opt cfg) opts default_config in
  mkBuffer cfg false false rx_New ∅.

(** *** The watcher tree *)

Definition tree_add_prefix (w : wid) (t : radix) (p : bytes) : radix :=
  let watchers := match rx_Get p t with Some ws => ws | None => [] end in
  rx_Insert p (watchers ++ [w]) t.

Definition tree_add (w : wid) (prefixes : list bytes) (t : radix) : radix :=
  fold_left (tree_add_prefix w) prefixes t.

(** Drops the first occurrence, if there is one. *)
Fixpoint drop_first (w : wid) (ws : list wid) : list wid :=
  match ws with
  | [] => []
  | x :: ws => if bool_decide (x = w) then ws else x :: drop_first w ws
  end.

Definition tree_rm_prefix (w : wid) (st : bool * radix) (p : bytes) : bool * radix :=
  let '(found, t) := st in
  match rx_Get p t with
  | None => (found, t)
  | Some buffers =>
      let prevLen := length buffers in
      let found := found || bool_decide (w ∈ buffers) in
      let buffers := drop_first w buffers in
      if (length buffers =? 0)%nat then (found, rx_Delete p t)
      else if negb (length buffers =? prevLen)%nat then (found, rx_Insert p buffers t)
      else (found, t)
  end.

Definition tree_rm (w : wid) (prefixes : list bytes) (t : radix) : bool * radix :=
  fold_left (tree_rm_prefix w) prefixes (false, t).

(** [walkPath] and [walk] as the watchers the callback is called on, in turn. *)
Definition walkPath (key : bytes) (t : radix) : list wid := concat (rx_WalkPath key t).
Definition walk (t : radix) : list wid := concat (rx_Walk t).

(** *** Operations *)

Definition buffer_clear (c : CircularBuffer) : CircularBuffer :=
  let c := fold_left (fun c w => update_watcher closeWatcher w c) (walk (cb_watchers c)) c in
  set_watchers rx_New c.

Definition Clear (c : CircularBuffer) : CircularBuffer := buffer_clear c.

Definition Reset (c : CircularBuffer) : CircularBuffer :=
  let c := buffer_clear c in
  mkBuffer (cb_cfg c) false (cb_closed c) (cb_watchers c) (cb_store c).

Definition buffer_Close (c : CircularBuffer) : CircularBuffer :=
  let c := buffer_clear c in
  mkBuffer (cb_cfg c) (cb_init c) true (cb_watchers c) (cb_store c).

(** [watcher.closeWatcher(); c.watchers.rm(watcher)]. *)
Definition drop_watcher (c : CircularBuffer) (w : wid) : CircularBuffer :=
  match cb_store c !! w with
  | None => c
  | Some bw =>
      let c := update_watcher closeWatcher w c in
      set_watchers (tree_rm w (bw_Prefixes bw) (cb_watchers c)).2 c
  end.

(** A walk's callback that updates a watcher and collects those it failed on. *)
Definition visit (f : BufferWatcher → bool * BufferWatcher)
    (st : CircularBuffer * list wid) (w : wid) : CircularBuffer * list wid :=
  let '(c, del) := st in
  match cb_store c !! w with
  | None => (c, del)
  | Some bw =>
      let '(ok, bw) := f bw in
      let c := set_store (<[w := bw]> (cb_store c)) c in
      (c, if ok then del else del ++ [w])
  end.

Definition SetInit (c : CircularBuffer) : CircularBuffer :=
  if cb_init c then c else
  let '(c, del) := fold_left (visit watcher_init) (walk (cb_watchers c)) (c, []) in
  let c := fold_left drop_watcher del c in
  mkBuffer (cb_cfg c) true (cb_closed c) (cb_watchers c) (cb_store c).

Definition fanOutEvent (now : Z) (r : Event) (c : CircularBuffer) : CircularBuffer :=
  let '(c, del) :=
    fold_left (visit (watcher_emit (bc_gracePeriod (cb_cfg c)) now r))
      (walkPath (it_Key (ev_Item r)) (cb_watchers c)) (c, []) in
  fold_left drop_watcher del c.

Definition buffer_emit (now : Z) (r : Event) : goM CircularBuffer unit := fun c =>
  if negb (cb_init c) then None else Some ((), fanOutEvent now r c).

Fixpoint emit_loop (now : Z) (events : list Event) : goM CircularBuffer unit :=
  match events with
  | [] => mret ()
  | e :: events => _ ← buffer_emit now e; emit_loop now events
  end.

Definition Emit (now : Z) (events : list Event) : goM CircularBuffer bool := fun c =>
  if cb_closed c then Some (false, c)
  else (_ ← emit_loop now events; mret true) c.

Definition err_closed : error := Error PlainError "cannot register watcher, buffer is closed".
Definition err_init : error := Error BadParameter "failed to send init event".

Definition NewWatcher (watch : Watch) : goM CircularBuffer (result wid) := fun c =>
  if cb_closed c then Some (Err err_closed, c) else
  let size := if wt_QueueSize watch =? 0 then bc_capacity (cb_cfg c) else wt_QueueSize watch in
  let prefixes :=
    match wt_Prefixes watch with
    | [] => [[Separator]]
    | ps => removeRedundantPrefixes ps
    end in
  (* make(chan Event, n) panics on a negative size *)
  if size <? 0 then None else
  let bw := mkBW prefixes [] [] zero_time false false false size in
  let w := fresh (dom (cb_store c)) in
  let '(ok, bw) := if cb_init c then watcher_init bw else (true, bw) in
  let c := set_store (<[w := bw]> (cb_store c)) c in
  if negb ok then Some (Err err_init, c)
  else Some (Ok w, set_watchers (tree_add w prefixes (cb_watchers c)) c).

(** [Events]: what a consumer calls before each receive. *)
Definition Events (w : wid) (c : CircularBuffer) : CircularBuffer :=
  update_watcher (fun bw => (flushBacklog bw).2) w c.

(** A receive from the channel. *)
Definition receive (w : wid) (c : CircularBuffer) : option (Event * CircularBuffer) :=
  match cb_store c !! w with
  | Some bw =>
      match bw_eventsC bw with
      | e :: q => Some (e, update_watcher (fun bw => set_queue q (bw_backlog bw) (bw_backlogSince bw) bw) w c)
      | [] => None
      end
  | None => None
  end.

(** [BufferWatcher.Close] cancels at once; the removal from the tree is a
    goroutine of its own, hence a separate step. *)
Definition watcher_Close (w : wid) (c : CircularBuffer) : CircularBuffer :=
  update_watcher closeWatcher w c.

Definition removeWatcherWithLock (w : wid) (c : CircularBuffer) : CircularBuffer :=
  match cb_store c !! w with
  | None => c
  | Some bw => set_watchers (tree_rm w (bw_Prefixes bw) (cb_watchers c)).2 c
  end.
End buffer.

(** ** Prefixes *)

(** Prefixes of which no key has two. *)
Definition clean (ps : list bytes) : Prop :=
  NoDup ps ∧ ∀ p q, p ∈ ps → q ∈ ps → has_prefix p q = true → p = q.

Definition matches (ps : list bytes) (k : bytes) : bool := existsb (has_prefix k) ps.

Lemma has_prefix_trans a b c :
  has_prefix a b = true → has_prefix b c = true → has_prefix a c = true.
Proof. rewrite !has_prefix_app. intros [s ->] [t ->]. exists (t ++ s). by rewrite app_assoc. Qed.

(** The keys with a prefix are an interval of the order. *)
Lemma has_prefix_convex k c x :
  bytes_le k c → bytes_le c x → has_prefix x k = true → has_prefix c k = true.
Proof.
  revert c x. induction k as [|a k IH]; intros c x Hkc Hcx Hp; [by destruct c|].
  destruct x as [|b x]; [done|]. apply has_prefix_cons in Hp as [-> Hp].
  destruct c as [|d c]; [by apply bytes_le_cons_nil in Hkc|].
  apply bytes_le_cons in Hkc, Hcx. apply has_prefix_cons.
  destruct Hkc as [|[-> Hkc]], Hcx as [|[He Hcx]]; try lia. split; [done|by eapply IH].
Qed.

Lemma has_prefix_le k p : has_prefix k p = true → bytes_le p k.
Proof.
  revert k. induction p as [|a p IH]; intros k; [intros; apply bytes_le_nil|].
  destruct k as [|b k]; [done|]. rewrite has_prefix_cons, bytes_le_cons. intros [-> H].
  right. split; [done|by apply IH].
Qed.

Lemma has_prefix_comparable k p q :
  has_prefix k p = true → has_prefix k q = true →
  has_prefix p q = true ∨ has_prefix q p = true.
Proof.
  revert p q. induction k as [|a k IH]; intros [|x p] [|y q]; cbn; try tauto; try done.
  rewrite !andb_true_iff, !Z.eqb_eq. intros [-> Hp] [-> Hq].
  destruct (IH p q Hp Hq); tauto.
Qed.

Lemma matches_true ps k : matches ps k = true ↔ ∃ p, p ∈ ps ∧ has_prefix k p = true.
Proof.
  apply existsb_elem.
Qed.

(** What [compact] keeps: with [c] on top of the kept prefixes, none of which
    is above what is left. *)
Lemma compact_spec kept rest c ks :
  kept = c :: ks → StronglySorted bytes_le (c :: rest) →
  (∀ p, p ∈ kept → bytes_le p c) → clean kept →
  clean (compact kept rest) ∧
  (∀ p, p ∈ compact kept rest → p ∈ kept ∨ p ∈ rest) ∧
  (∀ p, p ∈ kept ∨ p ∈ rest → ∃ q, q ∈ compact kept rest ∧ has_prefix p q = true).
Proof.
  revert kept c ks. induction rest as [|x rest IH]; intros kept c ks -> Hs Htop [Hnd Hcl].
  { cbn [compact]. split_and!.
    - split; [by rewrite reverse_Permutation|]. intros p q. rewrite !elem_of_reverse. apply Hcl.
    - intros p. rewrite elem_of_reverse. tauto.
    - intros p [Hp|Hp]; [|by apply not_elem_of_nil in Hp]. exists p.
      split; [by apply elem_of_reverse|apply has_prefix_refl]. }
  apply StronglySorted_inv in Hs as [Hs Hc]. apply Forall_cons in Hc as [Hcx Hc].
  cbn [compact]. destruct (has_prefix x c) eqn:Hxc.
  - apply StronglySorted_inv in Hs as [Hs _].
    destruct (IH (c :: ks) c ks) as (H1 & H2 & H3); try done; [by constructor|].
    split_and!; [done| |].
    + intros p [?|?]%H2; [by left|right; by right].
    + intros p [Hp|[->|Hp]%elem_of_cons]; [by apply H3; left| |by apply H3; right].
      destruct (H3 c) as (q & ? & ?); [left; by left|]. exists q.
      split; [done|by eapply has_prefix_trans].
  - assert (∀ p, p ∈ c :: ks → has_prefix x p = false) as Hnx.
    { intros p Hp. apply not_true_is_false. intros Hxp.
      pose proof (has_prefix_convex p c x (Htop p Hp) Hcx Hxp) as Hcp.
      assert (c = p) by (by apply Hcl; [left|..]). congruence. }
    destruct (IH (x :: c :: ks) x (c :: ks)) as (H1 & H2 & H3); try done.
    + intros p [->|Hp]%elem_of_cons; [done|]. etrans; [by apply Htop|done].
    + split.
      * apply NoDup_cons. split; [|done]. intros Hx%Hnx. by rewrite has_prefix_refl in Hx.
      * intros p q [->|Hp]%elem_of_cons [->|Hq]%elem_of_cons Hpq; [done| | |by apply Hcl].
        -- by rewrite Hnx in Hpq.
        -- pose proof (has_prefix_le _ _ Hpq) as Hle.
           assert (bytes_le p x) as Hpx by (etrans; [by apply Htop|done]).
           by apply (anti_symm bytes_le).
    + split_and!; [done| |].
      * intros p [[->|?]%elem_of_cons|?]%H2; [right; by left|by left|right; by right].
      * intros p [Hp|[->|Hp]%elem_of_cons]; apply H3; [left; by right|left; by left|by right].
Qed.

Lemma removeRedundantPrefixes_spec ps :
  clean (removeRedundantPrefixes ps) ∧
  (∀ p, p ∈ removeRedundantPrefixes ps → p ∈ ps) ∧
  (∀ p, p ∈ ps → ∃ q, q ∈ removeRedundantPrefixes ps ∧ has_prefix p q = true).
Proof.
  unfold removeRedundantPrefixes.
  pose proof (StronglySorted_merge_sort bytes_le ps) as Hs.
  pose proof (merge_sort_Permutation bytes_le ps) as Hp.
  assert (∀ y, y ∈ merge_sort bytes_le ps ↔ y ∈ ps) as Hmem by (intros y; by rewrite Hp).
  destruct (merge_sort bytes_le ps) as [|c rest].
  - split_and!; [split; [constructor|by intros ?? ?%not_elem_of_nil]|by intros ? ?%not_elem_of_nil|].
    by intros p ?%Hmem%not_elem_of_nil.
  - destruct (compact_spec [c] rest c []) as (H1 & H2 & H3); try done.
    + intros p ->%list_elem_of_singleton. done.
    + split; [apply NoDup_singleton|].
      by intros p q ->%list_elem_of_singleton ->%list_elem_of_singleton.
    + split_and!; [done| |].
      * intros p [->%list_elem_of_singleton|?]%H2; apply Hmem; [by left|by right].
      * intros p [->|?]%Hmem%elem_of_cons; apply H3; [left; by left|by right].
Qed.

(** ** One watcher *)

Definition stream (w : BufferWatcher) : list Event := bw_eventsC w ++ bw_backlog w.

(** What queue operations keep. *)
Record same_watcher (w w' : BufferWatcher) : Prop := {
  sw_prefixes : bw_Prefixes w' = bw_Prefixes w;
  sw_capacity : bw_capacity w' = bw_capacity w;
  sw_cancelled : bw_cancelled w' = bw_cancelled w;
  sw_init : bw_initDone w' = bw_initDone w ∧ bw_initOk w' = bw_initOk w
}.

Definition bounded (w : BufferWatcher) : Prop :=
  0 < bw_capacity w ∧ Z.of_nat (length (bw_eventsC w)) ≤ bw_capacity w.

Lemma try_send_spec e w w' :
  try_send e w = Some w' →
  same_watcher w w' ∧ bw_eventsC w' = bw_eventsC w ++ [e] ∧ bw_backlog w' = bw_backlog w ∧
  bw_backlogSince w' = bw_backlogSince w ∧ (bounded w → bounded w').
Proof.
  unfold try_send, bounded. case_test; [|done]. intros [= <-]. to_prop. split_and!; try done.
  cbn. rewrite length_app. cbn. lia.
Qed.

Lemma flush_loop_spec pending w ok w' :
  flush_loop pending w = (ok, w') →
  same_watcher w w' ∧ stream w' = bw_eventsC w ++ pending ∧ (bounded w → bounded w') ∧
  (ok = true → bw_backlog w' = []) ∧
  (ok = false → bw_backlog w' ≠ [] ∧ bw_backlogSince w' = bw_backlogSince w).
Proof.
  revert w. induction pending as [|e rest IH]; intros w; cbn [flush_loop].
  { intros [= <- <-]. by split_and!. }
  destruct (try_send e w) as [w1|] eqn:Ht.
  - intros Hf. apply try_send_spec in Ht as ([] & He & _ & Hsi & Hbd).
    apply IH in Hf as ([] & Hst & Hbd' & Ht & Hfl). split_and!.
    + split; [congruence..|]. destruct sw_init0, sw_init1. split; congruence.
    + by rewrite Hst, He, <- app_assoc.
    + tauto.
    + done.
    + intros Hok. destruct (Hfl Hok). split; [done|congruence].
  - intros [= <- <-]. by split_and!.
Qed.

Lemma flushBacklog_spec w ok w' :
  flushBacklog w = (ok, w') →
  same_watcher w w' ∧ stream w' = stream w ∧ (bounded w → bounded w') ∧
  (ok = true → bw_backlog w' = []) ∧
  (ok = false → bw_backlog w' ≠ [] ∧ bw_backlogSince w' = bw_backlogSince w).
Proof. apply flush_loop_spec. Qed.

Lemma watcher_emit_spec grace now e w ok w' :
  watcher_emit grace now e w = (ok, w') →
  same_watcher w w' ∧ (bounded w → bounded w') ∧
  if ok then stream w' = stream w ++ [e]
  else stream w' = stream w ∧ bw_backlog w' ≠ [] ∧ bw_backlogSince w + grace < now.
Proof.
  unfold watcher_emit. destruct (flushBacklog w) as [fl w1] eqn:Hf.
  apply flushBacklog_spec in Hf as (Hsame & Hst & Hbd & Ht & Hfl).
  destruct fl; cbn [negb].
  - specialize (Ht eq_refl). destruct (try_send e w1) as [w2|] eqn:Hs; intros [= <- <-].
    + apply try_send_spec in Hs as ([] & He & Hb & _ & Hbd2).
      destruct Hsame as [? ? ? [? ?]], sw_init0. split_and!; [split|tauto|].
      * congruence.
      * congruence.
      * congruence.
      * split; congruence.
      * rewrite <- Hst. unfold stream. by rewrite He, Hb, Ht, !app_nil_r.
    + split_and!; [by destruct Hsame|done|]. rewrite <- Hst. unfold stream. cbn.
      by rewrite Ht, app_nil_r.
  - destruct (Hfl eq_refl) as [Hne Hsi]. case_test; to_prop; intros [= <- <-].
    + split_and!; [done|done|done|done|]. by rewrite <- Hsi.
    + split_and!; [by destruct Hsame|done|]. rewrite <- Hst. unfold stream. cbn.
      by rewrite app_assoc.
Qed.

(** ** The watcher tree *)

Lemma drop_first_elem w ws x : NoDup ws → x ∈ drop_first w ws ↔ x ∈ ws ∧ x ≠ w.
Proof.
  induction 1 as [|y ws Hy Hnd IH]; cbn [drop_first].
  { split; [by intros ?%not_elem_of_nil|by intros [?%not_elem_of_nil _]]. }
  case_bool_decide as Hyw.
  - rewrite elem_of_cons. split; [|naive_solver]. intros Hx. split; [by right|]. congruence.
  - rewrite !elem_of_cons, IH. naive_solver.
Qed.

Lemma drop_first_NoDup w ws : NoDup ws → NoDup (drop_first w ws).
Proof.
  induction 1 as [|y ws Hy Hnd IH]; cbn [drop_first]; [constructor|].
  case_bool_decide; [done|]. apply NoDup_cons. split; [|done].
  by rewrite drop_first_elem by done; intros [? _].
Qed.

Lemma drop_first_id w ws : w ∉ ws → drop_first w ws = ws.
Proof.
  induction ws as [|y ws IH]; [done|]. rewrite not_elem_of_cons. intros [Hy Hw]. cbn.
  rewrite bool_decide_eq_false_2 by congruence. by rewrite IH.
Qed.

Lemma drop_first_length w ws : length (drop_first w ws) = length ws → drop_first w ws = ws.
Proof.
  induction ws as [|y ws IH]; [done|]. cbn. case_bool_decide; cbn; [lia|].
  intros [= Hl]. by rewrite IH.
Qed.

Definition none_if_empty (ws : list wid) : option (list wid) :=
  match ws with [] => None | _ => Some ws end.

Section tree.
Context `{RXL : RadixLaws}.

Lemma tree_add_view w ps t p :
  NoDup ps →
  rx_view (tree_add w ps t) !! p =
    if bool_decide (p ∈ ps) then Some (default [] (rx_view t !! p) ++ [w]) else rx_view t !! p.
Proof.
  unfold tree_add. revert t. induction ps as [|q ps IH]; intros t Hnd; [done|].
  apply NoDup_cons in Hnd as [Hq Hnd]. cbn [fold_left]. rewrite IH by done.
  unfold tree_add_prefix. rewrite rx_Insert_law, rx_Get_law, lookup_insert.
  destruct (decide (q = p)) as [->|Hne].
  - rewrite bool_decide_eq_false_2, bool_decide_eq_true_2 by (done || by left).
    by destruct (rx_view t !! p).
  - erewrite (bool_decide_ext (p ∈ q :: ps)); [done|]. rewrite elem_of_cons. naive_solver.
Qed.

Lemma tree_rm_view w ps t p b :
  NoDup ps →
  rx_view (fold_left (tree_rm_prefix w) ps (b, t)).2 !! p =
    if bool_decide (p ∈ ps) then rx_view t !! p ≫= fun ws => none_if_empty (drop_first w ws)
    else rx_view t !! p.
Proof.
  revert b t. induction ps as [|q ps IH]; intros b t Hnd; [done|].
  apply NoDup_cons in Hnd as [Hq Hnd]. cbn [fold_left].
  assert (∀ b, ∃ b' t', tree_rm_prefix w (b, t) q = (b', t') ∧ ∀ p, rx_view t' !! p =
    if decide (p = q) then rx_view t !! q ≫= fun ws => none_if_empty (drop_first w ws)
    else rx_view t !! p) as Hone.
  { intros b0. unfold tree_rm_prefix. rewrite rx_Get_law.
    destruct (rx_view t !! q) as [ws|] eqn:Hws.
    - destruct (length (drop_first w ws) =? 0)%nat eqn:Hl; to_prop.
      + eexists _, _. split; [done|]. intros x. rewrite rx_Delete_law, lookup_delete.
        destruct (drop_first w ws) eqn:Hd; [|done]. cbn. rewrite Hd.
        repeat case_decide; first [done|congruence].
      + assert (none_if_empty (drop_first w ws) = Some (drop_first w ws)) as Hn
          by (by destruct (drop_first w ws)).
        destruct (length (drop_first w ws) =? length ws)%nat eqn:Hl2; to_prop; cbn [negb].
        * eexists _, t. split; [reflexivity|]. intros x.
          destruct (decide (x = q)) as [->|]; [|reflexivity]. cbn.
          by rewrite Hn, Hws, drop_first_length.
        * eexists _, _. split; [done|]. intros x. rewrite rx_Insert_law, lookup_insert.
          cbn. rewrite Hn. repeat case_decide; first [done|congruence].
    - eexists _, t. split; [reflexivity|]. intros x.
      destruct (decide (x = q)) as [->|]; [done|reflexivity]. }
  destruct (Hone b) as (b' & t' & -> & Hv). rewrite IH by done. rewrite Hv.
  destruct (decide (p = q)) as [->|Hpq].
  - rewrite bool_decide_eq_false_2, bool_decide_eq_true_2 by (done || by left). done.
  - erewrite (bool_decide_ext (p ∈ q :: ps)); [done|]. rewrite elem_of_cons. naive_solver.
Qed.
End tree.

(** ** The invariant of the tree

    [pf] gives each watcher's prefixes. *)
Definition reg (tv : gmap bytes (list wid)) (w : wid) : Prop :=
  ∃ p ws, tv !! p = Some ws ∧ w ∈ ws.

Lemma reg_dec tv w : reg tv w ∨ ¬ reg tv w.
Proof.
  destruct (decide (w ∈ concat (map_to_list tv).*2)) as [Hin|Hn].
  - left. apply list_elem_of_In, in_concat in Hin as (ws & Hws%list_elem_of_In & Hw%list_elem_of_In).
    apply list_elem_of_fmap in Hws as ([p ws'] & -> & Hp%elem_of_map_to_list). by exists p, ws'.
  - right. intros (p & ws & Hp%elem_of_map_to_list & Hw). apply Hn.
    apply list_elem_of_In, in_concat. exists ws. split; apply list_elem_of_In; [|done].
    apply list_elem_of_fmap. by exists (p, ws).
Qed.

Record tree_ok (tv : gmap bytes (list wid)) (pf : wid → option (list bytes)) : Prop := {
  to_entry : ∀ p ws, tv !! p = Some ws →
    NoDup ws ∧ ∀ w, w ∈ ws → ∃ ps, pf w = Some ps ∧ p ∈ ps;
  to_full : ∀ w ps p, reg tv w → pf w = Some ps → p ∈ ps →
    ∃ ws, tv !! p = Some ws ∧ w ∈ ws;
  to_clean : ∀ w ps, pf w = Some ps → clean ps
}.

Lemma tree_ok_ext tv pf pf' : (∀ w, pf' w = pf w) → tree_ok tv pf → tree_ok tv pf'.
Proof.
  intros Hpf [H1 H2 H3]. split.
  - intros p ws Hp. destruct (H1 p ws Hp) as [? H]. split; [done|].
    intros w Hw. rewrite Hpf. by apply H.
  - intros w ps p. rewrite Hpf. apply H2.
  - intros w ps. rewrite Hpf. apply H3.
Qed.

Lemma tree_ok_empty pf : (∀ w ps, pf w = Some ps → clean ps) → tree_ok ∅ pf.
Proof.
  intros Hc. split; [intros p ws; by rewrite lookup_empty| |done].
  intros w ps p (q & ws & Hq & _). by rewrite lookup_empty in Hq.
Qed.

Lemma tree_ok_add tv tv' pf pf' w ps :
  tree_ok tv pf → pf w = None → clean ps → ps ≠ [] →
  (∀ x, pf' x = if decide (x = w) then Some ps else pf x) →
  (∀ p, tv' !! p = if bool_decide (p ∈ ps) then Some (default [] (tv !! p) ++ [w]) else tv !! p) →
  tree_ok tv' pf' ∧ ∀ x, reg tv' x ↔ x = w ∨ reg tv x.
Proof.
  intros [H1 H2 H3] Hw Hc Hne Hpf Htv.
  assert (∀ p, w ∉ default [] (tv !! p)) as Hnew.
  { intros p Hin. destruct (tv !! p) as [ws|] eqn:Hp; [|by apply not_elem_of_nil in Hin].
    destruct (H1 p ws Hp) as [_ H]. destruct (H w Hin) as (ps' & Hps & _). congruence. }
  assert (∀ x, reg tv' x ↔ x = w ∨ reg tv x) as Hreg.
  { intros x. split.
    - intros (p & ws & Hp & Hx). rewrite Htv in Hp. case_bool_decide.
      + simplify_eq. apply elem_of_app in Hx as [Hx|Hx%list_elem_of_singleton]; [|by left].
        right. destruct (tv !! p) as [ws|] eqn:Hpp; [by exists p, ws|by apply not_elem_of_nil in Hx].
      + right. by exists p, ws.
    - intros [->|(p & ws & Hp & Hx)].
      + destruct ps as [|p ps]; [done|]. exists p. eexists. rewrite Htv.
        rewrite bool_decide_eq_true_2 by (by left). split; [done|].
        apply elem_of_app. right. by left.
      + exists p. rewrite Htv, Hp. case_bool_decide; [|by exists ws].
        eexists. split; [done|]. cbn. apply elem_of_app. by left. }
  split; [split|done].
  - intros p ws. rewrite Htv. case_bool_decide as Hp.
    + intros [= <-]. split.
      * apply NoDup_app. split_and!; [|intros x Hx ->%list_elem_of_singleton; by eapply Hnew|apply NoDup_singleton].
        destruct (tv !! p) as [ws|] eqn:Hpp; [by apply (H1 p)|constructor].
      * intros x [Hx|Hx%list_elem_of_singleton]%elem_of_app; rewrite Hpf.
        -- rewrite decide_False by (intros ->; by eapply Hnew).
           destruct (tv !! p) as [ws|] eqn:Hpp; [by apply (H1 p ws)|by apply not_elem_of_nil in Hx].
        -- rewrite decide_True by done. by exists ps.
    + intros Hpp. destruct (H1 p ws Hpp) as [Hnd H]. split; [done|]. intros x Hx.
      rewrite Hpf, decide_False; [by apply H|]. intros ->. apply (Hnew p). by rewrite Hpp.
  - intros x qs p Hx. rewrite Hpf, Htv. case_decide as Hxw.
    + intros [= <-] Hp. rewrite bool_decide_eq_true_2 by done. eexists. split; [done|].
      rewrite Hxw. apply elem_of_app. right. by left.
    + intros Hq Hp. apply Hreg in Hx as [|Hx]; [done|].
      destruct (H2 x qs p Hx Hq Hp) as (ws & Hws & Hin). rewrite Hws.
      case_bool_decide; [|by exists ws]. eexists. split; [done|]. apply elem_of_app. by left.
  - intros x qs. rewrite Hpf. case_decide; [by intros [= <-]|apply H3].
Qed.

Lemma tree_ok_rm tv tv' pf w ps :
  tree_ok tv pf → pf w = Some ps →
  (∀ p, tv' !! p = if bool_decide (p ∈ ps)
     then tv !! p ≫= fun ws => none_if_empty (drop_first w ws) else tv !! p) →
  tree_ok tv' pf ∧ ∀ x, reg tv' x ↔ x ≠ w ∧ reg tv x.
Proof.
  intros [H1 H2 H3] Hw Htv.
  assert (∀ p ws, tv' !! p = Some ws → ∃ ws0, tv !! p = Some ws0 ∧ NoDup ws0 ∧ NoDup ws ∧
    ∀ x, x ∈ ws ↔ x ∈ ws0 ∧ x ≠ w) as Hback.
  { intros p ws. rewrite Htv. case_bool_decide as Hp.
    - intros (ws0 & Hp0 & Hn)%bind_Some. exists ws0. destruct (H1 p ws0 Hp0) as [Hnd _].
      assert (ws = drop_first w ws0) as ->
        by (revert Hn; destruct (drop_first w ws0); [done|by intros [= <-]]).
      split_and!; [done|done|by apply drop_first_NoDup|]. intros x. by apply drop_first_elem.
    - intros Hp0. exists ws. destruct (H1 p ws Hp0) as [Hnd H]. split_and!; try done.
      intros x. split; [|tauto]. intros Hx. split; [done|]. intros ->.
      destruct (H w Hx) as (qs & Hq & ?). congruence. }
  assert (∀ p ws0 x, tv !! p = Some ws0 → x ∈ ws0 → x ≠ w →
    ∃ ws, tv' !! p = Some ws ∧ x ∈ ws) as Hfwd.
  { intros p ws0 x Hp Hx Hxw. rewrite Htv, Hp. case_bool_decide; [|by exists ws0]. cbn.
    assert (x ∈ drop_first w ws0) as Hin by (apply drop_first_elem; [by apply (H1 p)|done]).
    destruct (drop_first w ws0) eqn:Hd; [by apply not_elem_of_nil in Hin|]. eexists. by split. }
  split; [split|].
  - intros p ws Hp. destruct (Hback p ws Hp) as (ws0 & Hp0 & _ & Hnd & Hiff). split; [done|].
    intros x Hx. apply Hiff in Hx as [Hx _]. by apply (H1 p ws0).
  - intros x qs p (q & ws & Hq & Hx) Hqs Hp.
    destruct (Hback q ws Hq) as (ws0 & Hq0 & _ & _ & Hiff). apply Hiff in Hx as [Hx Hxw].
    destruct (H2 x qs p) as (ws1 & Hws1 & Hin); [by exists q, ws0|done..|].
    by eapply Hfwd.
  - done.
  - intros x. split.
    + intros (q & ws & Hq & Hx). destruct (Hback q ws Hq) as (ws0 & Hq0 & _ & _ & Hiff).
      pose proof (proj1 (Hiff x) Hx) as [Hx0 Hxw]. split; [done|]. by exists q, ws0.
    + intros [Hxw (q & ws0 & Hq & Hx)]. destruct (Hfwd q ws0 x Hq Hx Hxw) as (ws & ? & ?).
      by exists q, ws.
Qed.

(** *** Walks *)

Lemma concat_elem {A} (x : A) ls : x ∈ concat ls ↔ ∃ l, l ∈ ls ∧ x ∈ l.
Proof.
  induction ls as [|l ls IH]; cbn.
  - split; [by intros ?%not_elem_of_nil|by intros (l & ?%not_elem_of_nil & _)].
  - rewrite elem_of_app, IH. setoid_rewrite elem_of_cons. naive_solver.
Qed.

Lemma concat_Permutation {A} (l1 l2 : list (list A)) : l1 ≡ₚ l2 → concat l1 ≡ₚ concat l2.
Proof.
  induction 1; cbn; [done|by f_equiv| |by etrans].
  rewrite !app_assoc. f_equiv. apply Permutation_app_comm.
Qed.

Lemma entries_elem P tv l :
  l ∈ entries P tv ↔ ∃ p, tv !! p = Some l ∧ P p = true.
Proof.
  unfold entries. rewrite list_elem_of_fmap. split.
  - intros ([p ws] & -> & [HP Hin]%list_elem_of_filter). exists p.
    split; [by apply elem_of_map_to_list|done].
  - intros (p & Hp & HP). exists (p, l). split; [done|]. apply list_elem_of_filter.
    split; [done|by apply elem_of_map_to_list].
Qed.

(** No watcher is in two entries that one key matches. *)
Lemma concat_entries_NoDup P tv :
  (∀ p ws, tv !! p = Some ws → NoDup ws) →
  (∀ p q ws1 ws2 w, tv !! p = Some ws1 → tv !! q = Some ws2 → w ∈ ws1 → w ∈ ws2 →
     P p = true → P q = true → p = q) →
  NoDup (concat (entries P tv)).
Proof.
  intros Hnd Hdis. unfold entries.
  pose proof (NoDup_fst_map_to_list tv) as Hk.
  assert (∀ e, e ∈ map_to_list tv → tv !! e.1 = Some e.2) as Hin
    by (intros [p ws]; apply elem_of_map_to_list).
  induction (map_to_list tv) as [|[p ws] es IH]; [constructor|].
  cbn in Hk. apply NoDup_cons in Hk as [Hp Hk].
  assert (∀ e, e ∈ es → tv !! e.1 = Some e.2) as Hin' by (intros e He; apply Hin; by right).
  rewrite filter_cons. cbn. case_decide as HP; [|by apply IH].
  cbn. apply NoDup_app. pose proof (Hin (p, ws) ltac:(by left)) as Hpw. cbn in Hpw.
  split_and!; [by eapply Hnd| |by apply IH].
  intros w Hw Hc. apply concat_elem in Hc as (ws2 & Hws2 & Hw2).
  apply list_elem_of_fmap in Hws2 as ([q ws2'] & -> & [HQ Hq]%list_elem_of_filter).
  pose proof (Hin' _ Hq) as Hqw. cbn in *.
  assert (p = q) as -> by (by eapply Hdis). apply Hp. apply list_elem_of_fmap. by exists (q, ws2').
Qed.

Section walks.
Context `{RXL : RadixLaws}.

Lemma walkPath_NoDup pf t k : tree_ok (rx_view t) pf → NoDup (walkPath k t).
Proof.
  intros [H1 H2 H3]. unfold walkPath. rewrite (concat_Permutation _ _ (rx_WalkPath_law k t)).
  apply concat_entries_NoDup; [by intros p ws Hp; apply (H1 p)|].
  intros p q ws1 ws2 w Hp Hq Hw1 Hw2 Hkp Hkq.
  destruct (H1 p ws1 Hp) as [_ He1]. destruct (H1 q ws2 Hq) as [_ He2].
  destruct (He1 w Hw1) as (ps & Hps & Hpp). destruct (He2 w Hw2) as (qs & Hqs & Hqq).
  simplify_eq. destruct (H3 w _ Hps) as [_ Hcl].
  destruct (has_prefix_comparable k p q Hkp Hkq); [by apply Hcl|symmetry; by apply Hcl].
Qed.

Lemma walkPath_elem pf t k w :
  tree_ok (rx_view t) pf →
  w ∈ walkPath k t ↔ reg (rx_view t) w ∧ ∃ ps, pf w = Some ps ∧ matches ps k = true.
Proof.
  intros [H1 H2 H3]. unfold walkPath. rewrite (concat_Permutation _ _ (rx_WalkPath_law k t)).
  rewrite concat_elem. split.
  - intros (ws & (p & Hp & Hkp)%entries_elem & Hw). split; [by exists p, ws|].
    destruct (H1 p ws Hp) as [_ He]. destruct (He w Hw) as (ps & Hps & Hin).
    exists ps. split; [done|]. apply matches_true. by exists p.
  - intros (Hr & ps & Hps & (p & Hin & Hkp)%matches_true).
    destruct (H2 w ps p Hr Hps Hin) as (ws & Hws & Hw). exists ws. split; [|done].
    apply entries_elem. by exists p.
Qed.

Lemma walk_elem t w : w ∈ walk t ↔ reg (rx_view t) w.
Proof.
  unfold walk. rewrite (concat_Permutation _ _ (rx_Walk_law t)), concat_elem. split.
  - intros (ws & (p & Hp & _)%entries_elem & Hw). by exists p, ws.
  - intros (p & ws & Hp & Hw). exists ws. split; [|done]. apply entries_elem. by exists p.
Qed.
End walks.

(** ** The buffer's invariant *)

Section correctness.
Context `{RXL : RadixLaws}.
Implicit Types c : CircularBuffer.

Definition pf_of c (w : wid) : option (list bytes) := bw_Prefixes <$> cb_store c !! w.
Definition registered c (w : wid) : Prop := reg (rx_view (cb_watchers c)) w.

(** What a registered watcher has been sent so far: nothing before the buffer
    is initialised, and its init event from then on. *)
Definition started (init : bool) (bw : BufferWatcher) : Prop :=
  if init then bw_initDone bw = true ∧ bw_initOk bw = true
  else bw_initDone bw = false ∧ stream bw = [].

Record buf_ok c : Prop := {
  bo_tree : tree_ok (rx_view (cb_watchers c)) (pf_of c);
  bo_bound : ∀ w bw, cb_store c !! w = Some bw → bounded bw;
  bo_cfg : 0 < bc_capacity (cb_cfg c);
  bo_start : ∀ w bw, registered c w → cb_store c !! w = Some bw → started (cb_init c) bw
}.

Lemma registered_stored c w : buf_ok c → registered c w → is_Some (cb_store c !! w).
Proof.
  intros Hok (p & ws & Hp & Hw). destruct (to_entry _ _ (bo_tree c Hok) p ws Hp) as [_ H1].
  destruct (H1 w Hw) as (ps & Hps & _). unfold pf_of in Hps. by destruct (cb_store c !! w).
Qed.

(** Parts that only [Reset], [SetInit] and [Close] change. *)
Definition same_flags c c' : Prop :=
  cb_cfg c' = cb_cfg c ∧ cb_init c' = cb_init c ∧ cb_closed c' = cb_closed c.

(** *** Walk callbacks *)

Lemma visit_fold f ws c del :
  NoDup ws → (∀ w, w ∈ ws → is_Some (cb_store c !! w)) →
  ∃ st' del', fold_left (visit f) ws (c, del) = (set_store st' c, del') ∧
    (∀ x, x ∈ del' ↔ x ∈ del ∨ (x ∈ ws ∧ fst <$> (f <$> cb_store c !! x) = Some false)) ∧
    ∀ x, st' !! x = if bool_decide (x ∈ ws) then snd <$> (f <$> cb_store c !! x)
                    else cb_store c !! x.
Proof.
  intros Hnd. revert c del. induction Hnd as [|w ws Hw Hnd IH]; intros c del Hin.
  { exists (cb_store c), del. destruct c. split_and!; [done| |done].
    intros x. split; [by left|]. intros [|[Hx _]]; [done|by apply not_elem_of_nil in Hx]. }
  cbn [fold_left]. unfold visit at 2.
  destruct (Hin w) as [bw Hbw]; [by left|]. rewrite Hbw. destruct (f bw) as [ok bw'] eqn:Hf.
  assert (∀ x, x ∈ ws → cb_store (set_store (<[w:=bw']> (cb_store c)) c) !! x = cb_store c !! x)
    as Hsame by (intros x Hx; cbn; apply lookup_insert_ne; congruence).
  destruct (IH (set_store (<[w:=bw']> (cb_store c)) c) (if ok then del else del ++ [w]))
    as (st' & del' & Hr & Hdel & Hst).
  { intros x Hx. rewrite Hsame by done. apply Hin. by right. }
  exists st', del'. rewrite Hr. split_and!; [done| |].
  - intros x. rewrite Hdel, elem_of_cons. split.
    + intros [Hx|[Hx Hb]]; [|rewrite Hsame in Hb by done; tauto].
      destruct ok; [by left|]. apply elem_of_app in Hx as [Hx| ->%list_elem_of_singleton]; [by left|].
      right. split; [by left|]. rewrite Hbw. cbn. by rewrite Hf.
    + intros [Hx|[[->|Hx] Hb]].
      * left. destruct ok; [done|]. apply elem_of_app. by left.
      * left. rewrite Hbw in Hb. cbn in Hb. rewrite Hf in Hb. cbn in Hb. simplify_eq.
        apply elem_of_app. right. by left.
      * right. rewrite Hsame by done. done.
  - intros x. rewrite Hst. cbn [cb_store set_store].
    destruct (decide (x = w)) as [->|Hxw].
    + rewrite bool_decide_eq_false_2 by done. rewrite lookup_insert_eq.
      rewrite bool_decide_eq_true_2 by (by left). rewrite Hbw. cbn. by rewrite Hf.
    + rewrite lookup_insert_ne by congruence.
      rewrite (bool_decide_ext (x ∈ ws) (x ∈ w :: ws)); [done|].
      rewrite elem_of_cons. naive_solver.
Qed.

(** Replacing the store by one with the same prefixes. *)
Lemma tree_ok_store c st' :
  (∀ x, bw_Prefixes <$> st' !! x = pf_of c x) → tree_ok (rx_view (cb_watchers c)) (pf_of c) →
  tree_ok (rx_view (cb_watchers c)) (pf_of (set_store st' c)).
Proof. intros Hpf. by apply tree_ok_ext. Qed.

(** *** Dropping watchers *)

Definition close_if (b : bool) (bw : BufferWatcher) : BufferWatcher :=
  if b then closeWatcher bw else bw.

Lemma drop_fold del c :
  tree_ok (rx_view (cb_watchers c)) (pf_of c) →
  (∀ w, w ∈ del → is_Some (cb_store c !! w)) →
  let c' := fold_left drop_watcher del c in
  same_flags c c' ∧ tree_ok (rx_view (cb_watchers c')) (pf_of c') ∧
  (∀ x, registered c' x ↔ registered c x ∧ x ∉ del) ∧
  (∀ x, cb_store c' !! x = close_if (bool_decide (x ∈ del)) <$> cb_store c !! x).
Proof.
  revert c. induction del as [|w del IH]; intros c Hok Hin; cbv zeta; cbn [fold_left].
  { split_and!; [done|done| |].
    - intros x. split; [|tauto]. intros Hx. split; [done|apply not_elem_of_nil].
    - intros x. rewrite bool_decide_eq_false_2 by apply not_elem_of_nil.
      by destruct (cb_store c !! x). }
  destruct (Hin w) as [bw Hbw]; [by left|]. unfold drop_watcher at 2 4 6 8 10. rewrite Hbw.
  set (c1 := set_watchers (tree_rm w (bw_Prefixes bw) (cb_watchers (update_watcher closeWatcher w c))).2
    (update_watcher closeWatcher w c)).
  assert (∀ x, cb_store c1 !! x = close_if (bool_decide (x = w)) <$> cb_store c !! x) as Hst1.
  { intros x. cbn. rewrite lookup_alter. case_bool_decide as Hx.
    - subst x. by rewrite decide_True.
    - rewrite decide_False by congruence. by destruct (cb_store c !! x). }
  assert (∀ x, pf_of c1 x = pf_of c x) as Hpf1.
  { intros x. unfold pf_of. rewrite Hst1. destruct (cb_store c !! x); [|done].
    cbn. unfold close_if. by case_match. }
  assert (pf_of c w = Some (bw_Prefixes bw)) as Hpw by (unfold pf_of; by rewrite Hbw).
  destruct (tree_ok_rm (rx_view (cb_watchers c)) (rx_view (cb_watchers c1)) (pf_of c) w (bw_Prefixes bw))
    as [Hok1 Hreg1]; try done.
  { intros p. unfold c1, tree_rm. cbn [cb_watchers set_watchers update_watcher set_store].
    apply tree_rm_view. by apply (to_clean _ _ Hok w). }
  destruct (IH c1) as (Hfl & Hok2 & Hreg2 & Hst2).
  { by apply (tree_ok_ext _ (pf_of c)). }
  { intros x Hx. rewrite Hst1. destruct (Hin x) as [b ->]; [by right|]. by eexists. }
  split_and!; [done|done| |].
  - intros x. rewrite Hreg2, not_elem_of_cons. unfold registered. rewrite Hreg1. tauto.
  - intros x. rewrite Hst2, Hst1. destruct (cb_store c !! x) as [b|]; [|done]. cbn. f_equal.
    unfold close_if. destruct (decide (x = w)) as [->|Hxw].
    + rewrite (bool_decide_eq_true_2 (w = w)) by done.
      rewrite (bool_decide_eq_true_2 (w ∈ w :: del)) by (by left). by case_match.
    + rewrite (bool_decide_eq_false_2 (x = w)) by done.
      rewrite (bool_decide_ext (x ∈ w :: del) (x ∈ del)); [done|].
      rewrite elem_of_cons. naive_solver.
Qed.

(** *** Emission *)

Definition msgs (ps : list bytes) (es : list Event) : list Event :=
  filter (fun e => matches ps (it_Key (ev_Item e)) = true) es.

(** How one watcher gets through the fan-out of events. *)
Record kept_up (es : list Event) (bw bw' : BufferWatcher) : Prop := {
  ku_same : same_watcher bw bw';
  ku_stream : stream bw' = stream bw ++ msgs (bw_Prefixes bw) es
}.

Lemma fanOut_spec now e c :
  buf_ok c → cb_init c = true →
  let c' := fanOutEvent now e c in
  buf_ok c' ∧ same_flags c c' ∧
  (∀ x, registered c' x → registered c x) ∧
  (∀ x bw, registered c' x → cb_store c !! x = Some bw →
     ∃ bw', cb_store c' !! x = Some bw' ∧ kept_up [e] bw bw') ∧
  (∀ x bw, registered c x → ¬ registered c' x → cb_store c !! x = Some bw →
     ∃ bw', cb_store c' !! x = Some bw' ∧ bw_cancelled bw' = true ∧
       stream bw' = stream bw ∧ bw_backlogSince bw + bc_gracePeriod (cb_cfg c) < now).
Proof.
  intros Hok Hin. unfold fanOutEvent. cbv zeta.
  set (k := it_Key (ev_Item e)). set (ws := walkPath k (cb_watchers c)).
  set (f := watcher_emit (bc_gracePeriod (cb_cfg c)) now e).
  assert (∀ w, w ∈ ws ↔ registered c w ∧ ∃ ps, pf_of c w = Some ps ∧ matches ps k = true) as Hws
    by (intros w; apply walkPath_elem, Hok).
  destruct (visit_fold f ws c []) as (st1 & del & Hr & Hdel & Hst1).
  { eapply walkPath_NoDup, Hok. }
  { intros w [Hw _]%Hws. by apply registered_stored. }
  rewrite Hr.
  assert (∀ x bw, cb_store c !! x = Some bw → ∃ bw', st1 !! x = Some bw' ∧
    same_watcher bw bw' ∧ (bounded bw → bounded bw')) as Hsame.
  { intros x bw Hbw. rewrite Hst1, Hbw. case_bool_decide; [|by exists bw].
    cbn. destruct (f bw) as [ok bw'] eqn:Hf. exists bw'. split; [done|].
    by apply watcher_emit_spec in Hf as (? & ? & _). }
  assert (∀ x, st1 !! x = None ↔ cb_store c !! x = None) as Hnone.
  { intros x. rewrite Hst1. case_bool_decide; [|done]. by destruct (cb_store c !! x). }
  assert (∀ x, bw_Prefixes <$> st1 !! x = pf_of c x) as Hpf.
  { intros x. unfold pf_of. destruct (cb_store c !! x) as [bw|] eqn:Hbw.
    - destruct (Hsame x bw Hbw) as (bw' & -> & [] & _). cbn. congruence.
    - by apply Hnone in Hbw as ->. }
  destruct (drop_fold del (set_store st1 c)) as (Hfl & Hok' & Hreg & Hst).
  { apply (tree_ok_store c st1 Hpf), Hok. }
  { intros w [Hw|[Hw _]]%Hdel; [by apply not_elem_of_nil in Hw|]. cbn.
    destruct (st1 !! w) eqn:Hx; [by eexists|]. apply Hnone in Hx.
    apply Hws in Hw as [Hw _]. apply registered_stored in Hw as [??]; [congruence|done]. }
  set (c' := fold_left drop_watcher del (set_store st1 c)) in *. cbn [cb_store set_store] in Hst.
  change (registered (set_store st1 c)) with (registered c) in Hreg.
  split_and!.
  - split; [done| |by rewrite (proj1 Hfl); apply Hok|].
    + intros x bw. rewrite Hst. destruct (cb_store c !! x) as [b|] eqn:Hb;
        [|by apply Hnone in Hb as ->].
      destruct (Hsame x b Hb) as (bw' & -> & _ & Hbd). intros [= <-].
      pose proof (Hbd (bo_bound c Hok x b Hb)). unfold close_if. by case_match.
    + intros x bw [Hx Hnd]%Hreg. rewrite Hst, bool_decide_eq_false_2 by done.
      destruct (registered_stored c x Hok Hx) as [b Hb].
      destruct (Hsame x b Hb) as (bw' & -> & Hs & _). intros [= <-].
      pose proof (bo_start c Hok x b Hx Hb) as Hstart.
      destruct Hfl as (_ & -> & _). cbn [cb_init set_store]. unfold started in *. rewrite Hin in *.
      destruct Hs as [_ _ _ [? ?]]. cbn. destruct Hstart. split; congruence.
  - done.
  - by intros x [Hx _]%Hreg.
  - intros x bw [Hx Hnd]%Hreg Hbw. rewrite Hst, bool_decide_eq_false_2 by done.
    destruct (Hsame x bw Hbw) as (bw' & Hbw' & Hs & _). rewrite Hbw'. exists bw'.
    split; [done|]. split; [done|]. unfold msgs. rewrite filter_cons, filter_nil.
    rewrite Hst1, Hbw in Hbw'.
    destruct (decide (matches (bw_Prefixes bw) (it_Key (ev_Item e)) = true)) as [Hm|Hm];
      case_bool_decide as Hxw.
    + cbn in Hbw'. destruct (f bw) as [ok b'] eqn:Hf. cbn in Hbw'. simplify_eq.
      destruct ok.
      * by apply watcher_emit_spec in Hf as (_ & _ & ?).
      * destruct Hnd. apply Hdel. right. split; [done|]. rewrite Hbw. cbn. by rewrite Hf.
    + destruct Hxw. apply Hws. split; [done|]. exists (bw_Prefixes bw). split; [|done].
      unfold pf_of. by rewrite Hbw.
    + apply Hws in Hxw as (_ & ps & Hps & Hm'). unfold pf_of in Hps. rewrite Hbw in Hps.
      cbn in Hps. simplify_eq.
    + simplify_eq. by rewrite app_nil_r.
  - intros x bw Hx Hn Hbw.
    assert (x ∈ del) as Hxd.
    { destruct (decide (x ∈ del)); [done|]. destruct Hn. by apply Hreg. }
    rewrite Hst, bool_decide_eq_true_2 by done. rewrite Hst1.
    apply Hdel in Hxd as [Hxd|[Hxw Hf]]; [by apply not_elem_of_nil in Hxd|].
    rewrite bool_decide_eq_true_2 by done. rewrite Hbw in Hf |- *. cbn in Hf |- *.
    destruct (f bw) as [ok b'] eqn:Hfb. cbn in Hf |- *. simplify_eq.
    apply watcher_emit_spec in Hfb as (_ & _ & Hst' & _ & Hov).
    eexists. by split_and!.
Qed.

(** *** Initialisation *)

(** A watcher on which [init] succeeds, now or again. *)
Definition init_ready (bw : BufferWatcher) : Prop :=
  (bw_initDone bw = false ∧ stream bw = [] ∧ 0 < bw_capacity bw) ∨
  (bw_initDone bw = true ∧ bw_initOk bw = true).

Lemma watcher_init_ready bw :
  init_ready bw →
  ∃ bw', watcher_init bw = (true, bw') ∧ bw_initDone bw' = true ∧ bw_initOk bw' = true ∧
    bw_Prefixes bw' = bw_Prefixes bw ∧ (bounded bw → bounded bw') ∧
    (if bw_initDone bw then bw' = bw else stream bw' = [init_event]).
Proof.
  unfold watcher_init. intros [(-> & Hs & Hc)|[Hd Ho]].
  - apply app_eq_nil in Hs as [He Hb]. unfold try_send. rewrite He. cbn [length].
    rewrite (proj2 (Z.ltb_lt _ _)) by lia. eexists. split_and!; [reflexivity|done..| |].
    + unfold bounded. cbn. lia.
    + unfold stream. cbn. by rewrite Hb.
  - rewrite Hd, Ho. exists bw. by split_and!.
Qed.

Lemma init_fold ws c :
  (∀ w, w ∈ ws → ∃ bw, cb_store c !! w = Some bw ∧ init_ready bw) →
  ∃ st', fold_left (visit watcher_init) ws (c, []) = (set_store st' c, []) ∧
    ∀ x, st' !! x = if bool_decide (x ∈ ws) then snd <$> (watcher_init <$> cb_store c !! x)
                    else cb_store c !! x.
Proof.
  revert c. induction ws as [|w ws IH]; intros c Hin.
  { exists (cb_store c). by destruct c. }
  cbn [fold_left]. unfold visit at 2. destruct (Hin w) as (bw & Hbw & Hrd); [by left|].
  destruct (watcher_init_ready bw Hrd) as (bw' & Hi & Hd & Ho & _). rewrite Hbw, Hi.
  assert (watcher_init bw' = (true, bw')) as Hagain by (unfold watcher_init; by rewrite Hd, Ho).
  destruct (IH (set_store (<[w:=bw']> (cb_store c)) c)) as (st' & Hr & Hst).
  { intros x Hx. cbn. rewrite lookup_insert. case_decide; [|apply Hin; by right].
    exists bw'. split; [done|]. by right. }
  exists st'. rewrite Hr. split; [done|]. intros x. rewrite Hst. cbn [cb_store set_store].
  destruct (decide (x = w)) as [->|Hxw].
  - rewrite lookup_insert_eq, Hbw. cbn. rewrite Hagain, Hi. cbn.
    rewrite (bool_decide_eq_true_2 (w ∈ w :: ws)) by (by left). by case_match.
  - rewrite lookup_insert_ne by congruence.
    rewrite (bool_decide_ext (x ∈ w :: ws) (x ∈ ws)); [done|].
    rewrite elem_of_cons. naive_solver.
Qed.

Lemma SetInit_spec c :
  buf_ok c → cb_init c = false →
  let c' := SetInit c in
  buf_ok c' ∧ cb_init c' = true ∧ (∀ x, registered c' x ↔ registered c x) ∧
  (∀ x bw, registered c x → cb_store c !! x = Some bw →
     ∃ bw', cb_store c' !! x = Some bw' ∧ bw_Prefixes bw' = bw_Prefixes bw ∧
       stream bw' = [init_event]).
Proof.
  intros Hok Hin. unfold SetInit. rewrite Hin. cbv zeta.
  assert (∀ x bw, registered c x → cb_store c !! x = Some bw →
    init_ready bw ∧ bw_initDone bw = false) as Hready.
  { intros x bw Hx Hbw. pose proof (bo_start c Hok x bw Hx Hbw) as Hs. rewrite Hin in Hs.
    destruct Hs as [Hd Hs]. split; [|done]. left. split_and!; [done..|].
    by destruct (bo_bound c Hok x bw Hbw). }
  destruct (init_fold (walk (cb_watchers c)) c) as (st' & Hr & Hst).
  { intros w Hw%walk_elem. destruct (registered_stored c w Hok Hw) as [bw Hbw].
    exists bw. split; [done|]. by eapply Hready. }
  rewrite Hr. cbn [fold_left].
  assert (∀ x bw, registered c x → cb_store c !! x = Some bw → ∃ bw', st' !! x = Some bw' ∧
    bw_initDone bw' = true ∧ bw_initOk bw' = true ∧ bw_Prefixes bw' = bw_Prefixes bw ∧
    bounded bw' ∧ stream bw' = [init_event]) as Hreg.
  { intros x bw Hx Hbw. destruct (Hready x bw Hx Hbw) as [Hrd Hd].
    destruct (watcher_init_ready bw Hrd) as (bw' & Hi & ? & ? & ? & Hb & Hs).
    rewrite Hd in Hs. exists bw'. rewrite Hst, Hbw, bool_decide_eq_true_2 by (by apply walk_elem).
    cbn. rewrite Hi. split_and!; try done. by apply Hb, (bo_bound c Hok x). }
  assert (∀ x, ¬ registered c x → st' !! x = cb_store c !! x) as Hun.
  { intros x Hx. rewrite Hst, bool_decide_eq_false_2; [done|]. by rewrite walk_elem. }
  split_and!; [split| |done|].
  - apply (tree_ok_ext _ (pf_of c)); [|apply Hok]. intros x. unfold pf_of. cbn.
    rewrite Hst. case_bool_decide as Hw; [|done]. apply walk_elem in Hw.
    destruct (cb_store c !! x) as [bw|] eqn:Hbw; [|done]. cbn.
    destruct (Hready x bw Hw Hbw) as [Hrd _].
    destruct (watcher_init_ready bw Hrd) as (bw' & -> & ? & ? & Hp & _). cbn. by rewrite Hp.
  - intros x bw. cbn. rewrite Hst. case_bool_decide as Hw; [|apply Hok].
    apply walk_elem in Hw. destruct (cb_store c !! x) as [b|] eqn:Hb; [|done]. cbn.
    destruct (Hready x b Hw Hb) as [Hrd _].
    destruct (watcher_init_ready b Hrd) as (bw' & -> & ? & ? & _ & Hbd & _). cbn. intros [= <-].
    apply Hbd, (bo_bound c Hok x b Hb).
  - apply Hok.
  - intros x bw Hx Hbw. cbn in Hbw. destruct (registered_stored c x Hok Hx) as [b Hb].
    destruct (Hreg x b Hx Hb) as (bw' & Hbw' & ? & ? & _). cbn. split; congruence.
  - done.
  - intros x bw Hx Hbw. destruct (Hreg x bw Hx Hbw) as (bw' & Hbw' & _ & _ & ? & _ & ?).
    by exists bw'.
Qed.

(** *** New watchers *)

Definition watch_prefixes (watch : Watch) : list bytes :=
  match wt_Prefixes watch with
  | [] => [[Separator]]
  | ps => removeRedundantPrefixes ps
  end.

Lemma watch_prefixes_ok watch : clean (watch_prefixes watch) ∧ watch_prefixes watch ≠ [].
Proof.
  unfold watch_prefixes. destruct (wt_Prefixes watch) as [|p ps].
  - split; [|done]. split; [apply NoDup_singleton|].
    by intros ?? ->%list_elem_of_singleton ->%list_elem_of_singleton.
  - destruct (removeRedundantPrefixes_spec (p :: ps)) as (? & _ & Hc). split; [done|].
    destruct (Hc p) as (q & Hq & _); [by left|].
    intros Heq. rewrite Heq in Hq. by apply not_elem_of_nil in Hq.
Qed.

Lemma NewWatcher_spec watch c :
  buf_ok c → cb_closed c = false → 0 ≤ wt_QueueSize watch →
  ∃ w c' bw, NewWatcher watch c = Some (Ok w, c') ∧ cb_store c !! w = None ∧
    buf_ok c' ∧ same_flags c c' ∧
    (∀ x, registered c' x ↔ x = w ∨ registered c x) ∧
    cb_store c' = <[w := bw]> (cb_store c) ∧
    bw_Prefixes bw = watch_prefixes watch ∧
    stream bw = (if cb_init c then [init_event] else []).
Proof.
  intros Hok Hcl Hsz. unfold NewWatcher. rewrite Hcl.
  set (size := if wt_QueueSize watch =? 0 then bc_capacity (cb_cfg c) else wt_QueueSize watch).
  assert (0 < size) as Hpos.
  { unfold size. pose proof (bo_cfg c Hok). case_test; to_prop; lia. }
  cbv zeta. fold (watch_prefixes watch). rewrite (proj2 (Z.ltb_ge size 0)) by lia.
  set (bw0 := mkBW (watch_prefixes watch) [] [] zero_time false false false size).
  set (w := fresh (dom (cb_store c))).
  assert (cb_store c !! w = None) as Hw by (apply not_elem_of_dom; apply is_fresh).
  assert (∃ bw, (if cb_init c then watcher_init bw0 else (true, bw0)) = (true, bw) ∧
    started (cb_init c) bw ∧ bw_Prefixes bw = watch_prefixes watch ∧ bounded bw ∧
    stream bw = (if cb_init c then [init_event] else [])) as (bw & Hi & Hstart & Hp & Hb & Hs).
  { assert (bounded bw0) as Hb0 by (unfold bounded; cbn; lia).
    destruct (cb_init c); [|by exists bw0].
    destruct (watcher_init_ready bw0) as (bw & ? & ? & ? & ? & Hb & ?); [by left|].
    exists bw. split_and!; [done|by split|done|by apply Hb|done]. }
  destruct (watch_prefixes_ok watch) as [Hc Hne].
  rewrite Hi. cbn [negb]. eexists w, _, bw. split; [reflexivity|].
  destruct (tree_ok_add (rx_view (cb_watchers c))
    (rx_view (tree_add w (watch_prefixes watch) (cb_watchers c))) (pf_of c)
    (fun x => if decide (x = w) then Some (watch_prefixes watch) else pf_of c x)
    w (watch_prefixes watch)) as [Hok' Hreg]; try done; [apply Hok| | |].
  { unfold pf_of. by rewrite Hw. }
  { intros p. by apply tree_add_view, Hc. }
  split_and!; try done. split; [| |apply Hok|].
  - eapply tree_ok_ext; [|exact Hok']. intros x. unfold pf_of. cbn. rewrite lookup_insert.
    destruct (decide (w = x)) as [->|Hwx].
    + rewrite decide_True by done. cbn. by rewrite Hp.
    + by rewrite decide_False by congruence.
  - intros x b. cbn. rewrite lookup_insert. case_decide; [by intros [= <-]|apply Hok].
  - intros x b Hx. cbn. rewrite lookup_insert. case_decide; [by intros [= <-]|].
    apply Hreg in Hx as [|Hx]; [congruence|]. by apply Hok.
Qed.

(** *** The other operations *)

Lemma update_ok f w c :
  (∀ bw, bw_Prefixes (f bw) = bw_Prefixes bw) → (∀ bw, bounded bw → bounded (f bw)) →
  (∀ b bw, started b bw → started b (f bw)) →
  buf_ok c → buf_ok (update_watcher f w c).
Proof.
  intros Hp Hb Hs Hok. split; [| |apply Hok|].
  - eapply tree_ok_ext; [|apply Hok]. intros x. unfold pf_of. cbn. rewrite lookup_alter.
    destruct (decide (w = x)) as [->|]; [|done].
    destruct (cb_store c !! x); [|done]. cbn. by rewrite Hp.
  - intros x bw. cbn. rewrite lookup_alter. case_decide; [|apply Hok].
    intros (b & Hx & ->)%fmap_Some. apply Hb. by eapply bo_bound.
  - intros x bw Hx. cbn. rewrite lookup_alter. case_decide; [|by apply Hok].
    intros (b & Hxb & ->)%fmap_Some. apply Hs. apply (bo_start c Hok x); [done|congruence].
Qed.

Lemma closeWatcher_ok w c : buf_ok c → buf_ok (update_watcher closeWatcher w c).
Proof. by apply update_ok. Qed.

Lemma flush_started b bw : started b bw → started b (flushBacklog bw).2.
Proof.
  destruct (flushBacklog bw) as [ok bw'] eqn:Hf. apply flushBacklog_spec in Hf as ([_ _ _ [H1 H2]] & Hs & _).
  unfold started. destruct b; cbn; [by rewrite H1, H2|by rewrite H1, Hs].
Qed.

Lemma Events_ok w c : buf_ok c → buf_ok (Events w c).
Proof.
  apply update_ok.
  - intros bw. destruct (flushBacklog bw) as [ok bw'] eqn:Hf. by apply flushBacklog_spec in Hf as ([] & _).
  - intros bw Hb. destruct (flushBacklog bw) as [ok bw'] eqn:Hf.
    apply flushBacklog_spec in Hf as (_ & _ & H1 & _). by apply H1.
  - intros b bw. apply flush_started.
Qed.

Lemma clear_ok c :
  buf_ok c → buf_ok (buffer_clear c) ∧ same_flags c (buffer_clear c) ∧
  ∀ x, ¬ registered (buffer_clear c) x.
Proof.
  intros Hok. unfold buffer_clear. cbv zeta.
  assert (∀ ws c, buf_ok c →
    buf_ok (fold_left (fun c w => update_watcher closeWatcher w c) ws c) ∧
    same_flags c (fold_left (fun c w => update_watcher closeWatcher w c) ws c)) as Hfold.
  { clear. induction ws as [|w ws IH]; intros c Hok; [done|]. cbn [fold_left].
    exact (IH _ (closeWatcher_ok w c Hok)). }
  destruct (Hfold (walk (cb_watchers c)) c Hok) as [Hok1 Hfl].
  set (c1 := fold_left _ _ c) in *.
  assert (∀ x, ¬ registered (set_watchers rx_New c1) x) as Hno.
  { intros x (p & ws & Hp & _). cbn in Hp. by rewrite rx_New_law, lookup_empty in Hp. }
  split_and!; [|done|done]. split.
  - cbn. rewrite rx_New_law. apply tree_ok_empty. intros w ps. apply (to_clean _ _ (bo_tree c1 Hok1)).
  - apply Hok1.
  - apply Hok1.
  - intros w bw Hw. by apply Hno in Hw.
Qed.

Lemma remove_ok w c :
  buf_ok c → buf_ok (removeWatcherWithLock w c) ∧
  same_flags c (removeWatcherWithLock w c) ∧
  cb_store (removeWatcherWithLock w c) = cb_store c ∧
  ∀ x, registered (removeWatcherWithLock w c) x → registered c x.
Proof.
  intros Hok. unfold removeWatcherWithLock. destruct (cb_store c !! w) as [bw|] eqn:Hbw; [|done].
  assert (pf_of c w = Some (bw_Prefixes bw)) as Hpf by (unfold pf_of; by rewrite Hbw).
  destruct (tree_ok_rm (rx_view (cb_watchers c))
    (rx_view (tree_rm w (bw_Prefixes bw) (cb_watchers c)).2) (pf_of c) w (bw_Prefixes bw))
    as [Hok' Hreg]; try done; [apply Hok| |].
  { intros p. apply tree_rm_view. by apply (to_clean _ _ (bo_tree c Hok) w). }
  assert (∀ x, registered (set_watchers (tree_rm w (bw_Prefixes bw) (cb_watchers c)).2 c) x →
    registered c x) as Hsub by (by intros x [_ Hx]%Hreg).
  split_and!; [|done|done|done]. split; [done|apply Hok|apply Hok|].
  intros x b Hx%Hsub. by apply (bo_start c Hok).
Qed.

Lemma emit_loop_spec now es c :
  buf_ok c → cb_init c = true →
  ∃ c', emit_loop now es c = Some ((), c') ∧ buf_ok c' ∧ same_flags c c' ∧
  (∀ x, registered c' x → registered c x) ∧
  (∀ x bw, registered c' x → cb_store c !! x = Some bw →
     ∃ bw', cb_store c' !! x = Some bw' ∧ kept_up es bw bw').
Proof.
  revert c. induction es as [|e es IH]; intros c Hok Hin.
  { exists c. split_and!; try done. intros x bw _ Hbw. exists bw. split; [done|].
    split; [done|by rewrite app_nil_r]. }
  cbn [emit_loop]. rewrite goM_bind_unfold. unfold buffer_emit. rewrite Hin. cbn [negb].
  destruct (fanOut_spec now e c Hok Hin) as (Hok1 & Hfl1 & Hreg1 & Hkeep1 & _).
  set (c1 := fanOutEvent now e c) in *.
  destruct (IH c1 Hok1) as (c2 & Hr & Hok2 & Hfl2 & Hreg2 & Hkeep2).
  { destruct Hfl1 as (_ & -> & _). done. }
  exists c2. split_and!; try done.
  - destruct Hfl1 as (?&?&?), Hfl2 as (?&?&?). split_and!; congruence.
  - intros x Hx. by apply Hreg1, Hreg2.
  - intros x bw Hx Hbw. destruct (Hkeep1 x bw (Hreg2 x Hx) Hbw) as (bw1 & Hbw1 & [[] Hs1]).
    destruct (Hkeep2 x bw1 Hx Hbw1) as (bw2 & Hbw2 & [[] Hs2]).
    exists bw2. split; [done|]. split.
    + destruct sw_init0, sw_init1. split; [congruence..|]. split; congruence.
    + rewrite Hs2, Hs1, sw_prefixes0, <- app_assoc. f_equal. unfold msgs.
      by rewrite <- filter_app.
Qed.

(** ** Delivery

    A run of the buffer with its watchers: [w_got] is what each consumer has
    received, [w_log] every event fanned out, [w_from] where in the log each
    watcher was registered. *)
Record bworld := mkBWorld {
  w_buf : CircularBuffer;
  w_got : gmap wid (list Event);
  w_log : list Event;
  w_from : gmap wid nat
}.

Definition got (w : bworld) (x : wid) : list Event := default [] (w_got w !! x).
Definition from (w : bworld) (x : wid) : nat := default 0%nat (w_from w !! x).
Definition with_buf (c : CircularBuffer) (w : bworld) : bworld :=
  mkBWorld c (w_got w) (w_log w) (w_from w).

Inductive bstep (w : bworld) : bworld → Prop :=
  | bs_emit now es c : Emit now es (w_buf w) = Some (true, c) →
      bstep w (mkBWorld c (w_got w) (w_log w ++ es) (w_from w))
  | bs_emit_closed now es c : Emit now es (w_buf w) = Some (false, c) → bstep w (with_buf c w)
  | bs_watch watch x c : NewWatcher watch (w_buf w) = Some (Ok x, c) →
      bstep w (mkBWorld c (<[x := []]> (w_got w)) (w_log w) (<[x := length (w_log w)]> (w_from w)))
  | bs_watch_err watch e c : NewWatcher watch (w_buf w) = Some (Err e, c) → bstep w (with_buf c w)
  | bs_events x : bstep w (with_buf (Events x (w_buf w)) w)
  | bs_receive x e c : receive x (w_buf w) = Some (e, c) →
      bstep w (mkBWorld c (<[x := got w x ++ [e]]> (w_got w)) (w_log w) (w_from w))
  | bs_close x : bstep w (with_buf (watcher_Close x (w_buf w)) w)
  | bs_remove x : bstep w (with_buf (removeWatcherWithLock x (w_buf w)) w)
  | bs_init : bstep w (with_buf (SetInit (w_buf w)) w)
  | bs_clear : bstep w (with_buf (Clear (w_buf w)) w)
  | bs_reset : bstep w (with_buf (Reset (w_buf w)) w)
  | bs_close_all : bstep w (with_buf (buffer_Close (w_buf w)) w).

Definition due (w : bworld) (x : wid) (bw : BufferWatcher) : list Event :=
  init_event :: msgs (bw_Prefixes bw) (drop (from w x) (w_log w)).

Record winv (w : bworld) : Prop := {
  wi_ok : buf_ok (w_buf w);
  wi_from : ∀ x, (from w x ≤ length (w_log w))%nat;
  wi_new : cb_init (w_buf w) = false → ∀ x, registered (w_buf w) x →
    got w x = [] ∧ from w x = length (w_log w);
  wi_due : cb_init (w_buf w) = true → ∀ x bw, registered (w_buf w) x →
    cb_store (w_buf w) !! x = Some bw → got w x ++ stream bw = due w x bw
}.

(** Steps that log nothing and move nothing out of a watcher but to its consumer. *)
Lemma winv_quiet w c gm :
  let w' := mkBWorld c gm (w_log w) (w_from w) in
  winv w → buf_ok c → cb_init c = cb_init (w_buf w) →
  (∀ x, registered c x → registered (w_buf w) x ∧
     ∀ bw, cb_store (w_buf w) !! x = Some bw → ∃ bw', cb_store c !! x = Some bw' ∧
       bw_Prefixes bw' = bw_Prefixes bw ∧ got w' x ++ stream bw' = got w x ++ stream bw) →
  winv w'.
Proof.
  intros w' Hw Hok Hin Hreg. split; [done|apply Hw| |].
  - unfold w' at 1. cbn [w_buf]. rewrite Hin. intros Hf x Hx. destruct (Hreg x Hx) as [Hx0 Hbw].
    destruct (wi_new w Hw Hf x Hx0) as [Hg Hfr]. split; [|done].
    destruct (registered_stored _ _ (wi_ok w Hw) Hx0) as [bw Hb].
    destruct (Hbw bw Hb) as (bw' & Hb' & _ & Hgot).
    pose proof (bo_start _ (wi_ok w Hw) x bw Hx0 Hb) as Hs. rewrite Hf in Hs.
    destruct Hs as [_ Hs]. rewrite Hg, Hs in Hgot. by apply app_eq_nil in Hgot as [? _].
  - unfold w' at 1. cbn [w_buf]. rewrite Hin. intros Ht x bw' Hx Hb'.
    destruct (Hreg x Hx) as [Hx0 Hbw].
    destruct (registered_stored _ _ (wi_ok w Hw) Hx0) as [bw Hb].
    destruct (Hbw bw Hb) as (b & Hb2 & Hp & Hgot). cbn in Hb'. simplify_eq.
    rewrite Hgot, (wi_due w Hw Ht x bw Hx0 Hb). unfold due. by rewrite Hp.
Qed.

Lemma winv_empty w c :
  winv w → buf_ok c → (∀ x, ¬ registered c x) → winv (with_buf c w).
Proof.
  intros Hw Hok Hno. split; [done|apply Hw| |].
  - intros _ x Hx. by apply Hno in Hx.
  - intros _ x bw Hx. by apply Hno in Hx.
Qed.

Lemma winv_emit w now es c :
  winv w → Emit now es (w_buf w) = Some (true, c) →
  winv (mkBWorld c (w_got w) (w_log w ++ es) (w_from w)).
Proof.
  intros Hw. unfold Emit. destruct (cb_closed (w_buf w)); [done|].
  rewrite goM_bind_unfold. destruct (cb_init (w_buf w)) eqn:Hin.
  - destruct (emit_loop_spec now es (w_buf w) (wi_ok w Hw) Hin)
      as (c' & -> & Hok & Hfl & Hreg & Hkeep). intros [= <-].
    assert (cb_init c' = true) as Hin' by (destruct Hfl as (_ & -> & _); done).
    split; [done| |by cbn; rewrite Hin'|].
    + intros x. pose proof (wi_from w Hw x). unfold from in *. cbn. rewrite length_app. lia.
    + intros _ x bw' Hx Hb'. cbn in Hx, Hb'. pose proof (Hreg x Hx) as Hx0.
      destruct (registered_stored _ _ (wi_ok w Hw) Hx0) as [bw Hb].
      destruct (Hkeep x bw Hx Hb) as (b & Hb2 & [[Hp _ _ _] Hs]). simplify_eq.
      pose proof (wi_due w Hw Hin x bw Hx0 Hb) as Hd.
      rewrite Hs, app_assoc. unfold got in *. cbn [w_got]. rewrite Hd. unfold due. cbn.
      f_equal. rewrite Hp. unfold from. cbn [w_from]. fold (from w x).
      rewrite drop_app_le by apply Hw. unfold msgs. by rewrite filter_app.
  - destruct es as [|e es]; cbn; unfold buffer_emit; rewrite ?goM_bind_unfold, ?Hin; [|done].
    intros [= <-]. rewrite app_nil_r. by destruct w.
Qed.

Lemma winv_watch w watch x c :
  winv w → NewWatcher watch (w_buf w) = Some (Ok x, c) →
  winv (mkBWorld c (<[x := []]> (w_got w)) (w_log w) (<[x := length (w_log w)]> (w_from w))).
Proof.
  intros Hw Hn.
  assert (cb_closed (w_buf w) = false ∧ 0 ≤ wt_QueueSize watch) as [Hcl Hsz].
  { unfold NewWatcher in Hn. destruct (cb_closed (w_buf w)); [done|]. split; [done|].
    destruct (Z.eqb_spec (wt_QueueSize watch) 0) as [->|]; [done|].
    destruct (Z.ltb_spec (wt_QueueSize watch) 0); [done|lia]. }
  destruct (NewWatcher_spec watch (w_buf w) (wi_ok w Hw) Hcl Hsz)
    as (x' & c' & bw & Hn' & Hfresh & Hok & (_ & Hin & _) & Hreg & Hst & Hp & Hs).
  rewrite Hn in Hn'. simplify_eq. split; [done| | |].
  - intros y. pose proof (wi_from w Hw y). unfold from in *. cbn. rewrite lookup_insert.
    by case_decide.
  - cbn. rewrite Hin. intros Hf y [->|Hy]%Hreg; unfold got, from; cbn.
    + by rewrite !lookup_insert_eq.
    + assert (x' ≠ y) as Hne.
      { intros ->. apply (registered_stored _ _ (wi_ok w Hw)) in Hy as [??]. congruence. }
      rewrite !lookup_insert_ne by done. by apply (wi_new w Hw).
  - cbn. rewrite Hin. intros Ht y b Hy. rewrite Hst. unfold got, due, from. cbn.
    destruct (decide (x' = y)) as [->|Hne].
    + rewrite !lookup_insert_eq. intros [= <-]. rewrite Hs, Ht. cbn. by rewrite drop_ge.
    + rewrite !lookup_insert_ne by done. intros Hb. apply Hreg in Hy as [|Hy]; [congruence|].
      by apply (wi_due w Hw Ht).
Qed.

Lemma bstep_winv w w' : winv w → bstep w w' → winv w'.
Proof.
  intros Hw Hstep. pose proof (wi_ok w Hw) as Hok.
  destruct Hstep as [now es c He|now es c He|watch x c Hn|watch e c Hn|x|x e c Hr|x|x| | | |].
  - by eapply winv_emit.
  - unfold Emit in He. destruct (cb_closed (w_buf w)).
    + simplify_eq. by destruct w.
    + rewrite goM_bind_unfold in He. by destruct (emit_loop now es (w_buf w)) as [[]|].
  - by eapply winv_watch.
  - unfold NewWatcher in Hn. destruct (cb_closed (w_buf w)) eqn:Hcl.
    { simplify_eq. by destruct w. }
    destruct (decide (0 ≤ wt_QueueSize watch)) as [Hsz|Hsz].
    + destruct (NewWatcher_spec watch (w_buf w) Hok Hcl Hsz) as (x & c' & bw & Hn' & _).
      unfold NewWatcher in Hn'. rewrite Hcl in Hn'. congruence.
    + rewrite (proj2 (Z.eqb_neq (wt_QueueSize watch) 0)) in Hn by lia.
      by rewrite (proj2 (Z.ltb_lt (wt_QueueSize watch) 0)) in Hn by lia.
  - apply winv_quiet; [done|by apply Events_ok|done|]. intros y Hy. split; [done|].
    intros bw Hb. cbn. rewrite lookup_alter.
    destruct (decide (x = y)) as [->|]; rewrite Hb; [|by exists bw].
    cbn. eexists. split; [done|]. destruct (flushBacklog bw) as [ok bw'] eqn:Hf.
    apply flushBacklog_spec in Hf as ([] & Hs & _). split; [done|]. cbn. by rewrite Hs.
  - unfold receive in Hr. destruct (cb_store (w_buf w) !! x) as [bw|] eqn:Hb; [|done].
    destruct (bw_eventsC bw) as [|e0 q] eqn:Hq; [done|]. simplify_eq.
    apply winv_quiet; [done| |done|].
    + (* the element taken makes the channel shorter, and was there *)
      split; [| |apply Hok|].
      * eapply tree_ok_ext; [|apply Hok]. intros y. unfold pf_of. cbn. rewrite lookup_alter.
        destruct (decide (x = y)) as [->|]; [|done]. by rewrite Hb.
      * intros y b. cbn. rewrite lookup_alter. case_decide; [|apply Hok].
        intros (b0 & Hb0 & ->)%fmap_Some. assert (b0 = bw) as -> by congruence.
        destruct (bo_bound _ Hok x bw Hb). unfold bounded. cbn. rewrite Hq in *. cbn in *. lia.
      * intros y b Hy. cbn. rewrite lookup_alter. case_decide as Hxy; [|by apply Hok].
        intros (b0 & Hb0 & ->)%fmap_Some. assert (b0 = bw) as -> by congruence.
        subst y.
        pose proof (bo_start _ Hok x bw Hy Hb) as Hs. unfold started in *.
        destruct (cb_init (w_buf w)); [done|]. destruct Hs as [_ Hs]. unfold stream in Hs.
        by rewrite Hq in Hs.
    + intros y Hy. split; [done|]. intros b Hbb. unfold got. cbn. rewrite lookup_alter.
      destruct (decide (x = y)) as [->|Hne]; rewrite Hbb.
      * assert (b = bw) as -> by congruence. cbn. eexists. split; [done|]. split; [done|].
        rewrite lookup_insert_eq. cbn. unfold stream. cbn. rewrite Hq, <- app_assoc. done.
      * rewrite lookup_insert_ne by done. by exists b.
  - apply winv_quiet; [done|by apply closeWatcher_ok|done|]. intros y Hy. split; [done|].
    intros bw Hb. cbn. rewrite lookup_alter.
    destruct (decide (x = y)) as [->|]; rewrite Hb; [|by exists bw]. cbn. by eexists.
  - destruct (remove_ok x (w_buf w) Hok) as (Hok' & (_ & Hin & _) & Hst & Hreg).
    apply winv_quiet; [done|done|done|]. intros y Hy. split; [by apply Hreg|].
    intros bw Hb. rewrite Hst. by exists bw.
  - destruct (cb_init (w_buf w)) eqn:Hin.
    { unfold SetInit. rewrite Hin. by destruct w. }
    destruct (SetInit_spec (w_buf w) Hok Hin) as (Hok' & Hin' & Hreg & Hst).
    split; [done|apply Hw|by cbn; rewrite Hin'|].
    intros _ y bw Hy%Hreg Hb. cbn in Hb.
    destruct (registered_stored _ _ Hok Hy) as [b Hb0].
    destruct (Hst y b Hy Hb0) as (bw' & Hb' & Hp & Hs). simplify_eq.
    destruct (wi_new w Hw Hin y Hy) as [Hg Hfr]. unfold got, due, from in *. cbn.
    by rewrite Hg, Hs, Hfr, drop_all.
  - destruct (clear_ok (w_buf w) Hok) as (? & _ & ?). by apply winv_empty.
  - destruct (clear_ok (w_buf w) Hok) as (Hok' & _ & Hno). apply winv_empty; [done| |done].
    split; [apply Hok'|apply Hok'|apply Hok'|]. intros y bw Hy. by apply Hno in Hy.
  - destruct (clear_ok (w_buf w) Hok) as (Hok' & _ & Hno). apply winv_empty; [done| |done].
    split; [apply Hok'|apply Hok'|apply Hok'|]. intros y bw Hy. by apply Hno in Hy.
Qed.
End correctness.

(** ** Properties *)

Section properties.
Context `{RXL : RadixLaws}.

Definition start_world (capacity grace : Z) : bworld :=
  mkBWorld (NewCircularBuffer [BufferCapacity capacity; BacklogGracePeriod grace]) ∅ [] ∅.

Lemma start_winv capacity grace : winv (start_world capacity grace).
Proof.
  assert (∀ x, ¬ registered (w_buf (start_world capacity grace)) x) as Hno.
  { intros x (p & ws & Hp & _). cbn in Hp. by rewrite rx_New_law, lookup_empty in Hp. }
  assert (0 < bc_capacity (cb_cfg (w_buf (start_world capacity grace)))) as Hcap.
  { cbn. unfold BacklogGracePeriod, BufferCapacity.
    destruct (0 <? capacity) eqn:?, (0 <? grace); to_prop; cbn;
      unfold DefaultBufferCapacity; lia. }
  split.
  - split; [|done|done|].
    + cbn. rewrite rx_New_law. apply tree_ok_empty. intros w ps. unfold pf_of. cbn.
      by rewrite lookup_empty.
    + intros w bw Hw. by apply Hno in Hw.
  - intros x. done.
  - intros _ x Hx. by apply Hno in Hx.
  - done.
Qed.

(** C10: delivery. In every run of the buffer and of its consumers (emissions,
    registrations, receives, flushes, closings, resets, in any order), what a
    registered watcher of an initialised buffer has received, followed by
    what waits in its channel and its backlog, is its init event and then
    exactly the events under its prefixes emitted since it was registered,
    each once and in order; its channel never exceeds its capacity. *)
Theorem buffer_delivery capacity grace w :
  rtc bstep (start_world capacity grace) w → cb_init (w_buf w) = true →
  ∀ x bw, registered (w_buf w) x → cb_store (w_buf w) !! x = Some bw →
    got w x ++ bw_eventsC bw ++ bw_backlog bw =
      init_event :: filter (fun e => matches (bw_Prefixes bw) (it_Key (ev_Item e)) = true)
        (drop (from w x) (w_log w)) ∧
    Z.of_nat (length (bw_eventsC bw)) ≤ bw_capacity bw.
Proof.
  intros Hrtc Hin x bw Hx Hb.
  assert (winv w) as Hw.
  { pose proof (start_winv capacity grace) as Hw0. induction Hrtc; [done|].
    apply IHHrtc; [done..|]. by eapply bstep_winv. }
  split; [by apply (wi_due w Hw Hin x bw)|]. by destruct (bo_bound _ (wi_ok w Hw) x bw Hb).
Qed.

(** patience. Emission drops a watcher only if it had a backlog that began
    more than the grace period ago; the watcher is then cancelled, keeping
    what it had queued. Every other watcher stays. *)
Theorem buffer_drops_only_overdue now e c x bw :
  buf_ok c → cb_init c = true → registered c x → cb_store c !! x = Some bw →
  registered (fanOutEvent now e c) x ∨
  ∃ bw', cb_store (fanOutEvent now e c) !! x = Some bw' ∧ bw_cancelled bw' = true ∧
    stream bw' = stream bw ∧ bw_backlogSince bw + bc_gracePeriod (cb_cfg c) < now.
Proof.
  intros Hok Hin Hx Hb. destruct (fanOut_spec now e c Hok Hin) as (_ & _ & _ & _ & Hdrop).
  destruct (reg_dec (rx_view (cb_watchers (fanOutEvent now e c))) x) as [Hr|Hr].
  - by left.
  - right. by eapply Hdrop.
Qed.

(** [removeRedundantPrefixes] keeps what watchers see and makes it
    unambiguous: a key lies under one of the prefixes left iff it lay under
    one of those given, and then under exactly one. *)
Theorem removeRedundantPrefixes_correct ps k :
  matches (removeRedundantPrefixes ps) k = matches ps k ∧
  NoDup (removeRedundantPrefixes ps) ∧
  ∀ p q, p ∈ removeRedundantPrefixes ps → q ∈ removeRedundantPrefixes ps →
    has_prefix k p = true → has_prefix k q = true → p = q.
Proof.
  destruct (removeRedundantPrefixes_spec ps) as ([Hnd Hcl] & Hsub & Hcov). split_and!; [|done|].
  - apply eq_bool_prop_intro. rewrite !Is_true_true, !matches_true. split.
    + intros (p & Hp & Hk). exists p. split; [by apply Hsub|done].
    + intros (p & Hp & Hk). destruct (Hcov p Hp) as (q & Hq & Hpq). exists q.
      split; [done|by eapply has_prefix_trans].
  - intros p q Hp Hq Hkp Hkq.
    destruct (has_prefix_comparable k p q Hkp Hkq); [by apply Hcl|symmetry; by apply Hcl].
Qed.
End properties.
