(* ===== verification/Rotation.v ===== *)
(** * Rotation of certificate authorities (lib/auth/rotate.go, api/types/authority.go)

    A rotation replaces the keys of an authority in phases, so that no client or
    server meets a certificate it does not trust. Keys are bytes; generating
    them is left to a key store given by a class. Private fields that a rotation
    neither reads nor writes are left out of the authority, and clones are the
    values themselves. *)

From Stdlib Require Import Ascii String.
From S2P Require Import Prelude.
From S2P Require Import Keys.
Local Open Scope string_scope.

(** ** Data *)

Record SSHKeyPair := MkSSH { ssh_PublicKey : bytes; ssh_PrivateKey : bytes; ssh_Type : Z }.
Record TLSKeyPair := MkTLS { tls_Cert : bytes; tls_Key : bytes; tls_Type : Z }.
Record JWTKeyPair := MkJWT { jwt_PublicKey : bytes; jwt_PrivateKey : bytes; jwt_Type : Z }.
Record CAKeySet := MkKeySet { SSH : list SSHKeyPair; TLS : list TLSKeyPair; JWT : list JWTKeyPair }.
Record RotationSchedule := MkSchedule { UpdateClients : Z; UpdateServers : Z; Standby : Z }.
Record Rotation := MkRotation {
  State : string; Phase : string; Mode : string; CurrentID : string;
  Started : Z; GracePeriod : Z; LastRotated : Z; Schedule : RotationSchedule
}.
Record CertAuthority := MkCA {
  ca_Type : string; ca_Name : string;
  ActiveKeys : CAKeySet; AdditionalTrustedKeys : CAKeySet; ca_Rotation : option Rotation
}.

#[export] Instance SSHKeyPair_eq_dec : EqDecision SSHKeyPair.
Proof. solve_decision. Defined.
#[export] Instance TLSKeyPair_eq_dec : EqDecision TLSKeyPair.
Proof. solve_decision. Defined.
#[export] Instance JWTKeyPair_eq_dec : EqDecision JWTKeyPair.
Proof. solve_decision. Defined.
#[export] Instance CAKeySet_eq_dec : EqDecision CAKeySet.
Proof. solve_decision. Defined.
#[export] Instance RotationSchedule_eq_dec : EqDecision RotationSchedule.
Proof. solve_decision. Defined.
#[export] Instance Rotation_eq_dec : EqDecision Rotation.
Proof. solve_decision. Defined.
#[export] Instance CertAuthority_eq_dec : EqDecision CertAuthority.
Proof. solve_decision. Defined.

Definition no_keys : CAKeySet := MkKeySet [] [] [].
Definition no_schedule : RotationSchedule := MkSchedule zero_time zero_time zero_time.
Definition no_rotation : Rotation := MkRotation "" "" "" "" zero_time 0%Z zero_time no_schedule.

Definition RotationStateStandby : string := "standby".
Definition RotationStateInProgress : string := "in_progress".
Definition RotationPhaseStandby : string := "standby".
Definition RotationPhaseInit : string := "init".
Definition RotationPhaseUpdateClients : string := "update_clients".
Definition RotationPhaseUpdateServers : string := "update_servers".
Definition RotationPhaseRollback : string := "rollback".
Definition RotationModeManual : string := "manual".
Definition RotationModeAuto : string := "auto".

(** ** Key sets *)

Definition nonempty {A} (l : list A) : bool := match l with [] => false | _ => true end.

Definition SSHKeyPair_CheckAndSetDefaults (k : SSHKeyPair) : result unit :=
  if nonempty (ssh_PublicKey k) then Ok () else Err (Error BadParameter "SSH key pair missing public key").
Definition TLSKeyPair_CheckAndSetDefaults (k : TLSKeyPair) : result unit :=
  if nonempty (tls_Cert k) then Ok () else Err (Error BadParameter "TLS key pair missing certificate").
Definition JWTKeyPair_CheckAndSetDefaults (k : JWTKeyPair) : result unit :=
  if nonempty (jwt_PublicKey k) then Ok () else Err (Error BadParameter "JWT key pair missing public key").

Fixpoint check_all {A} (check : A → result unit) (l : list A) : result unit :=
  match l with
  | [] => Ok ()
  | x :: l => _ ← check x; check_all check l
  end.
Definition KeySet_CheckAndSetDefaults (ks : CAKeySet) : result unit :=
  _ ← check_all SSHKeyPair_CheckAndSetDefaults (SSH ks);
  _ ← check_all TLSKeyPair_CheckAndSetDefaults (TLS ks);
  check_all JWTKeyPair_CheckAndSetDefaults (JWT ks).

Definition KeySet_Empty (ks : CAKeySet) : bool :=
  negb (nonempty (SSH ks)) && negb (nonempty (TLS ks)) && negb (nonempty (JWT ks)).
Definition mergeKeySets (a b : CAKeySet) : CAKeySet :=
  MkKeySet (SSH a ++ SSH b)%list (TLS a ++ TLS b)%list (JWT a ++ JWT b)%list.

Definition GetRotation (ca : CertAuthority) : Rotation := default no_rotation (ca_Rotation ca).
Definition SetRotation (r : Rotation) (ca : CertAuthority) : CertAuthority :=
  MkCA (ca_Type ca) (ca_Name ca) (ActiveKeys ca) (AdditionalTrustedKeys ca) (Some r).
Definition SetActiveKeys (ks : CAKeySet) (ca : CertAuthority) : result CertAuthority :=
  _ ← KeySet_CheckAndSetDefaults ks;
  Ok (MkCA (ca_Type ca) (ca_Name ca) ks (AdditionalTrustedKeys ca) (ca_Rotation ca)).
Definition SetAdditionalTrustedKeys (ks : CAKeySet) (ca : CertAuthority) : result CertAuthority :=
  _ ← KeySet_CheckAndSetDefaults ks;
  Ok (MkCA (ca_Type ca) (ca_Name ca) (ActiveKeys ca) ks (ca_Rotation ca)).

Definition GetTrustedSSHKeyPairs (ca : CertAuthority) : list SSHKeyPair :=
  (SSH (ActiveKeys ca) ++ SSH (AdditionalTrustedKeys ca))%list.
Definition GetTrustedTLSKeyPairs (ca : CertAuthority) : list TLSKeyPair :=
  (TLS (ActiveKeys ca) ++ TLS (AdditionalTrustedKeys ca))%list.
Definition GetTrustedJWTKeyPairs (ca : CertAuthority) : list JWTKeyPair :=
  (JWT (ActiveKeys ca) ++ JWT (AdditionalTrustedKeys ca))%list.

(** ** Schedules and requests *)

(** Durations are signed 64-bit numbers: [gracePeriod * 2] may wrap. *)
Definition GenerateSchedule (now gracePeriod : Z) : result RotationSchedule :=
  if (gracePeriod <=? 0)%Z then Err (Error BadParameter "invalid grace period %q, provide value > 0")
  else Ok (MkSchedule (now + Z.quot gracePeriod 3) (now + Z.quot (i64 (gracePeriod * 2)) 3) (now + gracePeriod)).

Definition Schedule_CheckAndSetDefaults (s : RotationSchedule) (now : Z) : result unit :=
  if is_zero_time (UpdateServers s) then Err (Error BadParameter "phase %q has no time switch scheduled") else
  if is_zero_time (Standby s) then Err (Error BadParameter "phase %q has no time switch scheduled") else
  if (Standby s <? UpdateServers s)%Z then Err (Error BadParameter "phase %q can not be scheduled before %q") else
  if (UpdateServers s <? now)%Z then Err (Error BadParameter "phase %q can not be scheduled in the past") else
  if (Standby s <? now)%Z then Err (Error BadParameter "phase %q can not be scheduled in the past") else Ok ().

Definition HostCA : string := "host".
Definition UserCA : string := "user".
Definition DatabaseCA : string := "db".
Definition JWTSigner : string := "jwt".
Definition CertAuthTypes : list string := [HostCA; UserCA; DatabaseCA; JWTSigner].
Definition CertAuthType_Check (c : string) : result unit :=
  if existsb (String.eqb c) CertAuthTypes then Ok ()
  else Err (Error BadParameter "%q authority type is not supported").

Record RotateRequest := MkRequest {
  req_Type : string; req_GracePeriod : option Z; req_TargetPhase : string; req_Mode : string;
  req_Schedule : option RotationSchedule
}.

Definition Types (r : RotateRequest) : list string :=
  if String.eqb (req_Type r) "" then CertAuthTypes
  else if existsb (String.eqb (req_Type r)) [HostCA; DatabaseCA; UserCA; JWTSigner] then [req_Type r]
  else [].

Definition RotationGracePeriod : Z := (30 * Hour)%Z.
Definition Request_CheckAndSetDefaults (r : RotateRequest) (now : Z) : result RotateRequest :=
  let target := if String.eqb (req_TargetPhase r) "" then RotationPhaseInit else req_TargetPhase r in
  let mode := if String.eqb (req_Mode r) "" then RotationModeManual else req_Mode r in
  _ ← (match CertAuthType_Check (req_Type r) with
       | Err e => if negb (String.eqb (req_Type r) "") then Err e else Ok ()
       | Ok _ => Ok ()
       end);
  let period := default RotationGracePeriod (req_GracePeriod r) in
  schedule ← (match req_Schedule r with
              | None => GenerateSchedule now period
              | Some s => _ ← Schedule_CheckAndSetDefaults s now; Ok s
              end);
  Ok (MkRequest (req_Type r) (Some period) target mode (Some schedule)).

(** ** Steps of a rotation *)

(** The key store, with the pairs one call generates, and the libraries that
    derive keys and certificates from the private key that tests pass. *)
Class KeyStore := {
  HasLocalAdditionalKeys : CertAuthority → bool;
  NewSSHKeyPair : result SSHKeyPair;
  NewTLSKeyPair : string → result TLSKeyPair;
  NewJWTKeyPair : result JWTKeyPair;
  ParseRawPrivateKey : bytes → result unit;
  MarshalAuthorizedKey : bytes → result bytes;
  GenerateSelfSignedCA : bytes → string → result bytes;
  MarshalPrivateKey : bytes → result (bytes * bytes)
}.

Record rotationReq := MkReq {
  rq_ca : CertAuthority; rq_targetPhase : string; rq_mode : string; rq_gracePeriod : Z;
  rq_schedule : RotationSchedule; rq_privateKey : bytes
}.

Section rotation.
Context `{KeyStore}.

Definition newKeySet (caType domain : string) : result CAKeySet :=
  if String.eqb caType UserCA || String.eqb caType HostCA then
    s ← NewSSHKeyPair; t ← NewTLSKeyPair domain; Ok (MkKeySet [s] [t] [])
  else if String.eqb caType DatabaseCA then t ← NewTLSKeyPair domain; Ok (MkKeySet [] [t] [])
  else if String.eqb caType JWTSigner then j ← NewJWTKeyPair; Ok (MkKeySet [] [] [j])
  else Err (Error BadParameter "unknown ca type: %s").

Definition PrivateKeyType_RAW : Z := 0%Z.
(** A pair of the key that tests pass for each kind of active pair. *)
Definition pregenerated_keys (privateKey : bytes) (ca : CertAuthority) : result CAKeySet :=
  let activeKeys := ActiveKeys ca in
  _ ← ParseRawPrivateKey privateKey;
  ssh ← (if nonempty (SSH activeKeys) then
           k ← MarshalAuthorizedKey privateKey; Ok [MkSSH k privateKey PrivateKeyType_RAW]
         else Ok []);
  tls ← (if nonempty (TLS activeKeys) then
           c ← GenerateSelfSignedCA privateKey (ca_Name ca); Ok [MkTLS c privateKey PrivateKeyType_RAW]
         else Ok []);
  jwt ← (if nonempty (JWT activeKeys) then
           k ← MarshalPrivateKey privateKey; Ok [MkJWT k.1 k.2 PrivateKeyType_RAW]
         else Ok []);
  Ok (MkKeySet ssh tls jwt).

(** The key set a new rotation starts with. *)
Definition rotation_keys (req : rotationReq) (ca : CertAuthority) : result CAKeySet :=
  let additionalKeys := AdditionalTrustedKeys ca in
  if nonempty (rq_privateKey req) then pregenerated_keys (rq_privateKey req) ca else
  let newKeys := if negb (KeySet_Empty additionalKeys) then additionalKeys else no_keys in
  if negb (HasLocalAdditionalKeys ca) then
    newLocalKeys ← newKeySet (ca_Type ca) (ca_Name ca);
    Ok (mergeKeySets newLocalKeys newKeys)
  else Ok newKeys.

(** [id] is the fresh identifier of the rotation. *)
Definition startNewRotation (now : Z) (id : string) (req : rotationReq) (ca : CertAuthority) :
    result CertAuthority :=
  let rotation := GetRotation ca in
  newKeys ← rotation_keys req ca;
  let started state phase :=
    MkRotation state phase (rq_mode req) id now (rq_gracePeriod req) (LastRotated rotation) (rq_schedule req) in
  if (rq_gracePeriod req =? 0)%Z then
    ca ← SetActiveKeys newKeys ca;
    Ok (SetRotation (started RotationStateStandby RotationPhaseStandby) ca)
  else
    ca ← SetAdditionalTrustedKeys newKeys ca;
    Ok (SetRotation (started RotationStateInProgress RotationPhaseInit) ca).

Definition with_phase (state phase mode : string) (r : Rotation) : Rotation :=
  MkRotation state phase mode (CurrentID r) (Started r) (GracePeriod r) (LastRotated r) (Schedule r).

Definition swap_keys (ca : CertAuthority) : result CertAuthority :=
  let oldActive := ActiveKeys ca in
  let oldTrusted := AdditionalTrustedKeys ca in
  ca ← SetActiveKeys oldTrusted ca; SetAdditionalTrustedKeys oldActive ca.

Definition updateClients (ca : CertAuthority) (mode : string) : result CertAuthority :=
  ca ← swap_keys ca;
  Ok (SetRotation (with_phase RotationStateInProgress RotationPhaseUpdateClients mode (GetRotation ca)) ca).

Definition startRollingBackRotation (ca : CertAuthority) : result CertAuthority :=
  let rotation := GetRotation ca in
  ca ← (if negb (String.eqb (Phase rotation) RotationPhaseInit) then swap_keys ca else Ok ca);
  Ok (SetRotation (with_phase RotationStateInProgress RotationPhaseRollback RotationModeManual rotation) ca).

(** Dropping the additional keys cannot fail: the empty set is valid. *)
Definition completeRotation (now : Z) (ca : CertAuthority) : CertAuthority :=
  let rotation := GetRotation ca in
  SetRotation (MkRotation RotationStateStandby RotationPhaseStandby "" (CurrentID rotation) zero_time
      (GracePeriod rotation) now no_schedule)
    (MkCA (ca_Type ca) (ca_Name ca) (ActiveKeys ca) no_keys (ca_Rotation ca)).

Definition one_of (s : string) (l : list string) : bool := existsb (String.eqb s) l.

Definition processRotationRequest (now : Z) (id : string) (req : rotationReq) : result CertAuthority :=
  let ca := rq_ca req in
  let rotation := GetRotation ca in
  let target := rq_targetPhase req in
  if String.eqb target RotationPhaseInit then
    if one_of (State rotation) [RotationStateStandby; ""] then startNewRotation now id req ca
    else Err (Error BadParameter "can not initiate rotation while another is in progress")
  else if String.eqb target RotationPhaseUpdateClients then
    if negb (String.eqb (Phase rotation) RotationPhaseInit)
    then Err (Error BadParameter "can only switch to phase %v from %v, current phase is %v")
    else updateClients ca (rq_mode req)
  else if String.eqb target RotationPhaseUpdateServers then
    if negb (String.eqb (Phase rotation) RotationPhaseUpdateClients)
    then Err (Error BadParameter "can only switch to phase %v from %v, current phase is %v")
    else Ok (SetRotation (with_phase (State rotation) target (rq_mode req) rotation) ca)
  else if String.eqb target RotationPhaseRollback then
    if one_of (Phase rotation) [RotationPhaseInit; RotationPhaseUpdateClients; RotationPhaseUpdateServers]
    then startRollingBackRotation ca
    else Err (Error BadParameter "can not transition to phase %q from %q phase.")
  else if String.eqb target RotationPhaseStandby then
    if one_of (Phase rotation) [RotationPhaseUpdateServers; RotationPhaseRollback]
    then Ok (completeRotation now ca)
    else Err (Error BadParameter "can not transition to phase %q from %q phase.")
  else Err (Error BadParameter "unsupported phase: %q").

End rotation.

(** ** Validation of authorities (lib/services/authority.go) *)

Definition Rotation_CheckAndSetDefaults (r : Rotation) : result Rotation :=
  if negb (existsb (String.eqb (Phase r)) [""; RotationPhaseInit; RotationPhaseStandby; RotationPhaseRollback;
    RotationPhaseUpdateClients; RotationPhaseUpdateServers])
  then Err (Error BadParameter "unsupported phase: %q") else
  if negb (existsb (String.eqb (Mode r)) [""; RotationModeAuto; RotationModeManual])
  then Err (Error BadParameter "unsupported mode: %q") else
  if String.eqb (State r) "" then
    Ok (MkRotation RotationStateStandby (Phase r) (Mode r) (CurrentID r) (Started r) (GracePeriod r)
      (LastRotated r) (Schedule r))
  else if String.eqb (State r) RotationStateStandby then Ok r
  else if String.eqb (State r) RotationStateInProgress then
    if String.eqb (CurrentID r) ""
    then Err (Error BadParameter "set 'current_id' parameter for in progress rotation") else
    if is_zero_time (Started r) then Err (Error BadParameter "set 'started' parameter for in progress rotation")
    else Ok r
  else Err (Error BadParameter "unsupported rotation 'state': %q, supported states are: %q, %q").

(** [strings.TrimSpace] leaves nothing; names of clusters are ASCII. *)
Definition is_space (c : ascii) : bool :=
  existsb (Ascii.eqb c) ["009"; "010"; "011"; "012"; "013"; " "]%char.
Fixpoint blank (s : string) : bool :=
  match s with EmptyString => true | String c s => is_space c && blank s end.
Definition CertAuthID_Check (caType domain : string) : result unit :=
  _ ← CertAuthType_Check caType;
  if blank domain then Err (Error BadParameter "identity validation error: empty domain name") else Ok ().

(** Of the metadata only the name is kept, which is also the name of the cluster. *)
Definition CA_CheckAndSetDefaults (ca : CertAuthority) : result CertAuthority :=
  if String.eqb (ca_Name ca) "" then Err (Error BadParameter "missing parameter Name") else
  _ ← CertAuthID_Check (ca_Type ca) (ca_Name ca);
  _ ← KeySet_CheckAndSetDefaults (ActiveKeys ca);
  _ ← KeySet_CheckAndSetDefaults (AdditionalTrustedKeys ca);
  rotation ← (match ca_Rotation ca with
              | None => Ok None
              | Some r => r ← Rotation_CheckAndSetDefaults r; Ok (Some r)
              end);
  _ ← CertAuthType_Check (ca_Type ca);
  Ok (MkCA (ca_Type ca) (ca_Name ca) (ActiveKeys ca) (AdditionalTrustedKeys ca) rotation).

(** Key material as the libraries for SSH, TLS and JSON web tokens read it. *)
Class KeyMaterial := {
  ParseAuthorizedKey : bytes → bool;
  ssh_ParsePrivateKey : bytes → result unit;
  X509KeyPair : bytes → bytes → result unit;
  ParsePrivateKey : bytes → result bytes;
  ParseCertificatePEM : bytes → result unit;
  ParsePublicKey : bytes → result bytes;
  jwt_New : string → option bytes → bytes → result unit
}.

Section validation.
Context `{KeyMaterial}.

Definition GetCheckers (ca : CertAuthority) : result unit :=
  check_all (fun kp => if ParseAuthorizedKey (ssh_PublicKey kp) then Ok ()
    else Err (Error BadParameter "invalid authority public key (len=%d): %v")) (GetTrustedSSHKeyPairs ca).
Definition ValidateSigners (ca : CertAuthority) : result unit :=
  check_all (fun kp => if negb (nonempty (ssh_PrivateKey kp)) then Ok ()
    else if (ssh_Type kp =? PrivateKeyType_RAW)%Z then ssh_ParsePrivateKey (ssh_PrivateKey kp) else Ok ())
    (SSH (ActiveKeys ca)).

(** The mapping of roles is not part of the authority here, so neither is its check. *)
Definition checkUserOrHostCA (ca : CertAuthority) : result unit :=
  if negb (nonempty (SSH (ActiveKeys ca)))
  then Err (Error BadParameter "certificate authority missing SSH key pairs") else
  if negb (nonempty (TLS (ActiveKeys ca)))
  then Err (Error BadParameter "certificate authority missing TLS key pairs") else
  _ ← GetCheckers ca; ValidateSigners ca.

Definition check_tls_pair (kp : TLSKeyPair) : result unit :=
  _ ← (if nonempty (tls_Key kp) && (tls_Type kp =? PrivateKeyType_RAW)%Z then
         if nonempty (tls_Cert kp) then X509KeyPair (tls_Cert kp) (tls_Key kp)
         else _ ← ParsePrivateKey (tls_Key kp); Ok ()
       else Ok ());
  ParseCertificatePEM (tls_Cert kp).
Definition checkDatabaseCA (ca : CertAuthority) : result unit :=
  if negb (nonempty (TLS (ActiveKeys ca)))
  then Err (Error BadParameter "DB certificate authority missing TLS key pairs")
  else check_all check_tls_pair (GetTrustedTLSKeyPairs ca).

(** [privateKey] is declared outside the loop: a pair without a raw private key
    is checked with that of the pair before. *)
Fixpoint check_jwt_pairs (name : string) (privateKey : option bytes) (kps : list JWTKeyPair) : result unit :=
  match kps with
  | [] => Ok ()
  | kp :: kps =>
      privateKey ← (if nonempty (jwt_PrivateKey kp) && (jwt_Type kp =? PrivateKeyType_RAW)%Z
                    then k ← ParsePrivateKey (jwt_PrivateKey kp); Ok (Some k) else Ok privateKey);
      publicKey ← ParsePublicKey (jwt_PublicKey kp);
      _ ← jwt_New name privateKey publicKey;
      check_jwt_pairs name privateKey kps
  end.
Definition checkJWTKeys (ca : CertAuthority) : result unit :=
  if negb (nonempty (JWT (ActiveKeys ca))) then Err (Error BadParameter "missing JWT CA")
  else check_jwt_pairs (ca_Name ca) None (GetTrustedJWTKeyPairs ca).

Definition check_material (ca : CertAuthority) : result unit :=
  if String.eqb (ca_Type ca) UserCA || String.eqb (ca_Type ca) HostCA then checkUserOrHostCA ca
  else if String.eqb (ca_Type ca) DatabaseCA then checkDatabaseCA ca
  else if String.eqb (ca_Type ca) JWTSigner then checkJWTKeys ca
  else Err (Error BadParameter "invalid CA type %q").
(** The check sets defaults in the authority it is given, hence the result. *)
Definition ValidateCertAuthority (ca : CertAuthority) : result CertAuthority :=
  ca ← CA_CheckAndSetDefaults ca;
  _ ← check_material ca;
  Ok ca.
End validation.

(** ** Servers *)

(** The authorities as the trust service stores them, by type and cluster. *)
Abbreviation Store := (gmap (string * string) CertAuthority).
Abbreviation CertAuthorityMap := (gmap string CertAuthority).

Definition WithoutSecrets (ks : CAKeySet) : CAKeySet :=
  MkKeySet (map (fun k => MkSSH (ssh_PublicKey k) [] (ssh_Type k)) (SSH ks))
    (map (fun k => MkTLS (tls_Cert k) [] (tls_Type k)) (TLS ks))
    (map (fun k => MkJWT (jwt_PublicKey k) [] (jwt_Type k)) (JWT ks)).
Definition RemoveCASecrets (ca : CertAuthority) : CertAuthority :=
  MkCA (ca_Type ca) (ca_Name ca) (WithoutSecrets (ActiveKeys ca)) (WithoutSecrets (AdditionalTrustedKeys ca))
    (ca_Rotation ca).

(** Keys of a target authority whose private keys are those of another one: the
    digest is that of the SHA-256 library. *)
Section duplicates.
Context (Sum256 : bytes → bytes).
Definition private_keys (ca : CertAuthority) : list bytes :=
  (map tls_Key (TLS (ActiveKeys ca)) ++ map tls_Key (TLS (AdditionalTrustedKeys ca)) ++
   map ssh_PrivateKey (SSH (ActiveKeys ca)) ++ map ssh_PrivateKey (SSH (AdditionalTrustedKeys ca)))%list.
Definition add_thumb (certType : string) (thumbs : gmap bytes (list string)) (key : bytes) :=
  let s := Sum256 key in <[ s := (default [] (thumbs !! s) ++ [certType])%list ]> thumbs.
Definition certsThumbs (allCerts : list (string * CertAuthority)) : gmap bytes (list string) :=
  foldl (fun thumbs '(certType, ca) => foldl (add_thumb certType) thumbs (private_keys ca)) ∅ allCerts.

Definition rotate_thumb (caTypes certsThumb : list string) (rotateMap : gset string) : gset string :=
  if (length certsThumb =? 1)%nat then rotateMap
  else if existsb (fun caType => existsb (String.eqb caType) certsThumb) caTypes
  then list_to_set certsThumb ∪ rotateMap else rotateMap.

(** [allCerts] is given in the order in which the map is visited, and [order] is
    the order of the visit of the set of types found. *)
Definition findDuplicatedCertificates (order : gset string → list string) (caTypes : list string)
    (allCerts : list (string * CertAuthority)) : list string :=
  if (length caTypes =? length allCerts)%nat then caTypes else
  let rotateMap := foldr (rotate_thumb caTypes) ∅ (map_to_list (certsThumbs allCerts)).*2 in
  if bool_decide (rotateMap = ∅) then caTypes else order (rotateMap ∪ list_to_set caTypes).
End duplicates.

Section servers.
Context `{KeyStore} `{KeyMaterial}.

Definition not_found : error := Error NotFound "key %q is not found".

Definition GetCertAuthority (caType domain : string) (loadSigningKeys : bool) (s : Store) : result CertAuthority :=
  _ ← CertAuthID_Check caType domain;
  match s !! (caType, domain) with
  | None => Err not_found
  | Some ca =>
      ca ← ValidateCertAuthority ca;
      Ok (if loadSigningKeys then ca else RemoveCASecrets ca)
  end.

(** The read and the swap are one step here: the swap fails when the item changed
    since, with the error of an authority that is not the one expected. *)
Definition CompareAndSwapCertAuthority (new expected : CertAuthority) (s : Store) : result Store :=
  new ← ValidateCertAuthority new;
  match s !! (ca_Type new, ca_Name new) with
  | None => Err not_found
  | Some actual =>
      actual ← ValidateCertAuthority actual;
      if bool_decide (actual = expected) then Ok (<[ (ca_Type new, ca_Name new) := new ]> s)
      else Err (Error CompareFailed "cluster %v settings have been updated, try again")
  end.

(** The request the schedule calls for, if any: the outer [None] is nothing to do. *)
Definition auto_request (now : Z) (ca : CertAuthority) : result (option rotationReq) :=
  let rotation := GetRotation ca in
  let schedule := Schedule rotation in
  let req target := MkReq ca target RotationModeAuto (GracePeriod rotation) schedule [] in
  if negb (String.eqb (Mode rotation) RotationModeAuto) then Ok None else
  if negb (String.eqb (State rotation) RotationStateInProgress) then Ok None else
  let due t target := if (now <? t)%Z then Ok None else Ok (Some (req target)) in
  if String.eqb (Phase rotation) RotationPhaseInit then due (UpdateClients schedule) RotationPhaseUpdateClients
  else if String.eqb (Phase rotation) RotationPhaseUpdateClients
  then due (UpdateServers schedule) RotationPhaseUpdateServers
  else if String.eqb (Phase rotation) RotationPhaseUpdateServers then due (Standby schedule) RotationPhaseStandby
  else Err (Error BadParameter "phase is not supported: %q").

Definition autoRotate (now : Z) (id : string) (ca : CertAuthority) (s : Store) : result Store :=
  req ← auto_request now ca;
  match req with
  | None => Ok s
  | Some req =>
      rotated ← processRotationRequest now id req;
      CompareAndSwapCertAuthority rotated ca s
  end.

(** The loop runs until the swap succeeds, [rounds] times at most; the store may
    be changed by others between two rounds, [env] says how. The result is [None]
    when the rounds are used up. *)
Fixpoint addAdditionalTrustedKeysAtomic (rounds : nat) (env : nat → Store → Store) (currentCA : CertAuthority)
    (newKeys : CAKeySet) (needsUpdate : CertAuthority → bool) (s : Store) : option (result unit * Store) :=
  match rounds with
  | O => None
  | S rounds =>
      if negb (needsUpdate currentCA) then Some (Ok (), s) else
      match SetAdditionalTrustedKeys (mergeKeySets (AdditionalTrustedKeys currentCA) newKeys) currentCA with
      | Err e => Some (Err e, s)
      | Ok newCA =>
          match CompareAndSwapCertAuthority newCA currentCA s with
          | Ok s => Some (Ok (), s)
          | Err e =>
              if negb (bool_decide (err_kind e = CompareFailed)) then Some (Err e, s) else
              let s := env rounds s in
              match GetCertAuthority (ca_Type currentCA) (ca_Name currentCA) true s with
              | Err e => Some (Err e, s)
              | Ok currentCA => addAdditionalTrustedKeysAtomic rounds env currentCA newKeys needsUpdate s
              end
          end
      end
  end.

Definition ensureLocalAdditionalKeys (rounds : nat) (env : nat → Store → Store) (ca : CertAuthority) (s : Store) :
    option (result unit * Store) :=
  if HasLocalAdditionalKeys ca then Some (Ok (), s) else
  match newKeySet (ca_Type ca) (ca_Name ca) with
  | Err e => Some (Err e, s)
  | Ok keys => addAdditionalTrustedKeysAtomic rounds env ca keys (fun ca => negb (HasLocalAdditionalKeys ca)) s
  end.

(** One pass over the types [caTypes]; the keys are added to the authority as it
    was read, so after a rotation out of the first phase the swap fails and the
    authority is read again. *)
Fixpoint autoRotate_loop (rounds : nat) (env : nat → Store → Store) (now : Z) (id domain : string)
    (caTypes : list string) (s : Store) : option (result unit * Store) :=
  match caTypes with
  | [] => Some (Ok (), s)
  | caType :: caTypes =>
      match GetCertAuthority caType domain true s with
      | Err e => Some (Err e, s)
      | Ok ca =>
          match autoRotate now id ca s with
          | Err e => Some (Err e, s)
          | Ok s =>
              match (if String.eqb (Phase (GetRotation ca)) RotationPhaseInit
                     then ensureLocalAdditionalKeys rounds env ca s else Some (Ok (), s)) with
              | Some (Ok _, s) => autoRotate_loop rounds env now id domain caTypes s
              | r => r
              end
          end
      end
  end.
Definition autoRotateCertAuthorities (rounds : nat) (env : nat → Store → Store) (now : Z) (id domain : string)
    (s : Store) : option (result unit * Store) := autoRotate_loop rounds env now id domain CertAuthTypes s.

(** The loop of [RotateCertAuthority]: the store may change although the request
    fails, when it fails for a later type. *)
Fixpoint rotate_loop (now : Z) (ids : string → string) (req : RotateRequest) (privateKey : bytes)
    (allCerts : CertAuthorityMap) (caTypes : list string) (s : Store) : result unit * Store :=
  match caTypes with
  | [] => (Ok (), s)
  | caType :: caTypes =>
      match allCerts !! caType with
      | None => (Err (Error BadParameter "CAs list doesn't contain %q certificate"), s)
      | Some existing =>
          match processRotationRequest now (ids caType) (MkReq existing (req_TargetPhase req) (req_Mode req)
            (default 0%Z (req_GracePeriod req)) (default no_schedule (req_Schedule req)) privateKey) with
          | Err e => (Err e, s)
          | Ok rotated =>
              match CompareAndSwapCertAuthority rotated existing s with
              | Err e => (Err e, s)
              | Ok s => rotate_loop now ids req privateKey allCerts caTypes s
              end
          end
      end
  end.

Fixpoint getAllCertificates (clusterName : string) (caTypes : list string) (s : Store) : result CertAuthorityMap :=
  match caTypes with
  | [] => Ok ∅
  | caType :: caTypes =>
      ca ← GetCertAuthority caType clusterName true s;
      certs ← getAllCertificates clusterName caTypes s;
      Ok (<[ caType := ca ]> certs)
  end.
Definition getAllCertificatesForRotation (clusterName : string) (s : Store) : result CertAuthorityMap :=
  getAllCertificates clusterName CertAuthTypes s.

(** [ids] are the fresh identifiers of the rotations, [visit] and [order] the
    orders in which the maps are visited, [privateKey] the key that tests pass. *)
Definition RotateCertAuthority (Sum256 : bytes → bytes) (visit : CertAuthorityMap → list (string * CertAuthority))
    (order : gset string → list string) (now : Z) (ids : string → string) (clusterName : string)
    (req : RotateRequest) (privateKey : bytes) (s : Store) : result unit * Store :=
  match Request_CheckAndSetDefaults req now with
  | Err e => (Err e, s)
  | Ok req =>
      match getAllCertificatesForRotation clusterName s with
      | Err e => (Err e, s)
      | Ok allCerts =>
          let caTypes := findDuplicatedCertificates Sum256 order (Types req) (visit allCerts) in
          rotate_loop now ids req privateKey allCerts caTypes s
      end
  end.

(** [None] is a missing authority. *)
Definition RotateExternalCertAuthority (clusterName : string) (ca : option CertAuthority) (s : Store) : result Store :=
  match ca with
  | None => Err (Error BadParameter "missing certificate authority")
  | Some ca =>
      if String.eqb (ca_Name ca) clusterName
      then Err (Error BadParameter "can not rotate local certificate authority") else
      existing ← GetCertAuthority (ca_Type ca) (ca_Name ca) false s;
      updated ← SetActiveKeys (ActiveKeys ca) existing;
      updated ← SetAdditionalTrustedKeys (AdditionalTrustedKeys ca) updated;
      updated ← CA_CheckAndSetDefaults (SetRotation (GetRotation ca) updated);
      if bool_decide (existing = updated) then Ok s
      else CompareAndSwapCertAuthority updated existing s
  end.
End servers.

(** ** Requests that are allowed, and runs of them *)

(** The transitions: state and phase of the rotation, target of the request. *)
Inductive edge : string → string → string → Prop :=
  | edge_init st ph : st = RotationStateStandby ∨ st = "" → edge st ph RotationPhaseInit
  | edge_clients st : edge st RotationPhaseInit RotationPhaseUpdateClients
  | edge_servers st : edge st RotationPhaseUpdateClients RotationPhaseUpdateServers
  | edge_rollback st ph :
      ph ∈ [RotationPhaseInit; RotationPhaseUpdateClients; RotationPhaseUpdateServers] →
      edge st ph RotationPhaseRollback
  | edge_standby st ph :
      ph ∈ [RotationPhaseUpdateServers; RotationPhaseRollback] → edge st ph RotationPhaseStandby.

Definition valid_keys (ks : CAKeySet) : Prop := KeySet_CheckAndSetDefaults ks = Ok ().

(** The authority trusts every pair of a key set. *)
Definition trusts (ca : CertAuthority) (ks : CAKeySet) : Prop :=
  SSH ks ⊆ GetTrustedSSHKeyPairs ca ∧ TLS ks ⊆ GetTrustedTLSKeyPairs ca ∧ JWT ks ⊆ GetTrustedJWTKeyPairs ca.

(** A rotation started with no grace period. *)
Definition forced (req : rotationReq) : Prop := rq_targetPhase req = RotationPhaseInit ∧ rq_gracePeriod req = 0%Z.

(** Requests other than to start, each on the result of the one before. *)
Inductive run `{KeyStore} (ca : CertAuthority) : list string → CertAuthority → Prop :=
  | run_nil : run ca [] ca
  | run_snoc ts ca1 now id req ca2 :
      run ca ts ca1 → rq_ca req = ca1 → rq_targetPhase req ≠ RotationPhaseInit →
      processRotationRequest now id req = Ok ca2 → run ca (ts ++ [rq_targetPhase req])%list ca2.

(** One pass of the automatic rotation over one authority. *)
Definition auto_step `{KeyStore} `{KeyMaterial} (now : Z) (id caType domain : string) (s : Store) : result Store :=
  ca ← GetCertAuthority caType domain true s; autoRotate now id ca s.

(** The schedule of an automatic rotation calls for a phase. *)
Inductive due (now : Z) (r : Rotation) : string → Prop :=
  | due_next ph t next :
      Mode r = RotationModeAuto → State r = RotationStateInProgress → Phase r = ph → (t ≤ now)%Z →
      (ph, t, next) ∈ [ (RotationPhaseInit, UpdateClients (Schedule r), RotationPhaseUpdateClients);
                        (RotationPhaseUpdateClients, UpdateServers (Schedule r), RotationPhaseUpdateServers);
                        (RotationPhaseUpdateServers, Standby (Schedule r), RotationPhaseStandby) ] →
      due now r next.

(** ** Lemmas *)

Lemma one_of_spec s l : one_of s l = true ↔ s ∈ l.
Proof. unfold one_of. rewrite existsb_elem. setoid_rewrite String.eqb_eq. naive_solver. Qed.

Lemma valid_no_keys : valid_keys no_keys.
Proof. done. Qed.
#[export] Hint Resolve valid_no_keys : go.

Lemma SetActiveKeys_Ok ks ca ca' : SetActiveKeys ks ca = Ok ca' ↔
  valid_keys ks ∧ ca' = MkCA (ca_Type ca) (ca_Name ca) ks (AdditionalTrustedKeys ca) (ca_Rotation ca).
Proof. unfold SetActiveKeys. rewrite result_check_Ok. unfold valid_keys. naive_solver congruence. Qed.
Lemma SetAdditionalTrustedKeys_Ok ks ca ca' : SetAdditionalTrustedKeys ks ca = Ok ca' ↔
  valid_keys ks ∧ ca' = MkCA (ca_Type ca) (ca_Name ca) (ActiveKeys ca) ks (ca_Rotation ca).
Proof. unfold SetAdditionalTrustedKeys. rewrite result_check_Ok. unfold valid_keys. naive_solver congruence. Qed.

Lemma swap_keys_Ok ca ca' : swap_keys ca = Ok ca' ↔
  valid_keys (ActiveKeys ca) ∧ valid_keys (AdditionalTrustedKeys ca) ∧
  ca' = MkCA (ca_Type ca) (ca_Name ca) (AdditionalTrustedKeys ca) (ActiveKeys ca) (ca_Rotation ca).
Proof.
  unfold swap_keys. rewrite result_bind_Ok. setoid_rewrite SetActiveKeys_Ok.
  setoid_rewrite SetAdditionalTrustedKeys_Ok. naive_solver.
Qed.
Lemma updateClients_Ok ca mode ca' : updateClients ca mode = Ok ca' ↔
  valid_keys (ActiveKeys ca) ∧ valid_keys (AdditionalTrustedKeys ca) ∧
  ca' = MkCA (ca_Type ca) (ca_Name ca) (AdditionalTrustedKeys ca) (ActiveKeys ca)
    (Some (with_phase RotationStateInProgress RotationPhaseUpdateClients mode (GetRotation ca))).
Proof.
  unfold updateClients. rewrite result_bind_Ok. setoid_rewrite swap_keys_Ok. split.
  - intros (ca1 & (? & ? & ->) & [= <-]). done.
  - intros (? & ? & ->). eexists. split; [done|]. done.
Qed.
Lemma startRollingBackRotation_Ok ca ca' : startRollingBackRotation ca = Ok ca' ↔
  let r := Some (with_phase RotationStateInProgress RotationPhaseRollback RotationModeManual (GetRotation ca)) in
  if String.eqb (Phase (GetRotation ca)) RotationPhaseInit
  then ca' = MkCA (ca_Type ca) (ca_Name ca) (ActiveKeys ca) (AdditionalTrustedKeys ca) r
  else valid_keys (ActiveKeys ca) ∧ valid_keys (AdditionalTrustedKeys ca) ∧
    ca' = MkCA (ca_Type ca) (ca_Name ca) (AdditionalTrustedKeys ca) (ActiveKeys ca) r.
Proof.
  unfold startRollingBackRotation. cbv zeta. rewrite result_bind_Ok.
  destruct (String.eqb (Phase _) _); cbn [negb].
  - split; [intros (ca1 & [= <-] & [= <-]); done|intros ->; by exists ca].
  - setoid_rewrite swap_keys_Ok. split.
    + intros (ca1 & (? & ? & ->) & [= <-]). done.
    + intros (? & ? & ->). eexists. split; [done|]. done.
Qed.

Section process.
Context `{KeyStore}.

Lemma startNewRotation_Ok now id req ca ca' : startNewRotation now id req ca = Ok ca' ↔
  ∃ ks, rotation_keys req ca = Ok ks ∧ valid_keys ks ∧
    let r st ph := Some (MkRotation st ph (rq_mode req) id now (rq_gracePeriod req)
      (LastRotated (GetRotation ca)) (rq_schedule req)) in
    ca' = if (rq_gracePeriod req =? 0)%Z
      then MkCA (ca_Type ca) (ca_Name ca) ks (AdditionalTrustedKeys ca) (r RotationStateStandby RotationPhaseStandby)
      else MkCA (ca_Type ca) (ca_Name ca) (ActiveKeys ca) ks (r RotationStateInProgress RotationPhaseInit).
Proof.
  unfold startNewRotation. cbv zeta. rewrite result_bind_Ok. apply exist_proper; intros ks.
  apply and_iff_compat_l. destruct (rq_gracePeriod req =? 0)%Z; rewrite result_bind_Ok.
  - setoid_rewrite SetActiveKeys_Ok. split.
    + intros (ca1 & [? ->] & [= <-]). done.
    + intros [? ->]. eexists. split; [done|]. done.
  - setoid_rewrite SetAdditionalTrustedKeys_Ok. split.
    + intros (ca1 & [? ->] & [= <-]). done.
    + intros [? ->]. eexists. split; [done|]. done.
Qed.

(** What a successful request did, by its target. *)
Definition processed (now : Z) (id : string) (req : rotationReq) (ca' : CertAuthority) : Prop :=
  let ca := rq_ca req in
  let r := GetRotation ca in
  (rq_targetPhase req = RotationPhaseInit ∧ State r ∈ [RotationStateStandby; ""] ∧
    startNewRotation now id req ca = Ok ca') ∨
  (rq_targetPhase req = RotationPhaseUpdateClients ∧ Phase r = RotationPhaseInit ∧
    updateClients ca (rq_mode req) = Ok ca') ∨
  (rq_targetPhase req = RotationPhaseUpdateServers ∧ Phase r = RotationPhaseUpdateClients ∧
    ca' = SetRotation (with_phase (State r) RotationPhaseUpdateServers (rq_mode req) r) ca) ∨
  (rq_targetPhase req = RotationPhaseRollback ∧
    Phase r ∈ [RotationPhaseInit; RotationPhaseUpdateClients; RotationPhaseUpdateServers] ∧
    startRollingBackRotation ca = Ok ca') ∨
  (rq_targetPhase req = RotationPhaseStandby ∧ Phase r ∈ [RotationPhaseUpdateServers; RotationPhaseRollback] ∧
    ca' = completeRotation now ca).

Lemma process_cases now id req ca' :
  processRotationRequest now id req = Ok ca' ↔ processed now id req ca'.
Proof.
  unfold processRotationRequest, processed. cbv zeta.
  destruct (String.eqb_spec (rq_targetPhase req) RotationPhaseInit) as [->|Hi].
  { destruct (one_of _ _) eqn:Ho; [apply one_of_spec in Ho|rewrite <- not_true_iff_false, one_of_spec in Ho];
      intuition discriminate. }
  destruct (String.eqb_spec (rq_targetPhase req) RotationPhaseUpdateClients) as [->|Hc].
  { destruct (String.eqb_spec (Phase (GetRotation (rq_ca req))) RotationPhaseInit); cbn [negb];
      intuition discriminate. }
  destruct (String.eqb_spec (rq_targetPhase req) RotationPhaseUpdateServers) as [->|Hs].
  { destruct (String.eqb_spec (Phase (GetRotation (rq_ca req))) RotationPhaseUpdateClients); cbn [negb];
      intuition (congruence || discriminate). }
  destruct (String.eqb_spec (rq_targetPhase req) RotationPhaseRollback) as [->|Hr].
  { destruct (one_of _ _) eqn:Ho; [apply one_of_spec in Ho|rewrite <- not_true_iff_false, one_of_spec in Ho];
      intuition discriminate. }
  destruct (String.eqb_spec (rq_targetPhase req) RotationPhaseStandby) as [->|Hb].
  { destruct (one_of _ _) eqn:Ho; [apply one_of_spec in Ho|rewrite <- not_true_iff_false, one_of_spec in Ho];
      intuition (congruence || discriminate). }
  intuition (congruence || discriminate).
Qed.

Lemma process_edge now id req ca' :
  processRotationRequest now id req = Ok ca' →
  edge (State (GetRotation (rq_ca req))) (Phase (GetRotation (rq_ca req))) (rq_targetPhase req).
Proof.
  rewrite process_cases. intros [(-> & Hs & _)|[(-> & -> & _)|[(-> & -> & _)|[(-> & Hp & _)|(-> & Hp & _)]]]];
    constructor; set_solver.
Qed.
Lemma process_phase now id req ca' :
  processRotationRequest now id req = Ok ca' →
  Phase (GetRotation ca') = rq_targetPhase req ∨ forced req ∧ Phase (GetRotation ca') = RotationPhaseStandby.
Proof.
  rewrite process_cases. intros [(Ht & _ & Hs)|[(-> & _ & Hs)|[(-> & _ & ->)|[(-> & _ & Hs)|(-> & _ & ->)]]]].
  - apply startNewRotation_Ok in Hs as (ks & _ & _ & ->).
    destruct (rq_gracePeriod req =? 0)%Z eqn:Hg; cbn.
    + to_prop. by right.
    + by left.
  - apply updateClients_Ok in Hs as (_ & _ & ->). by left.
  - by left.
  - apply startRollingBackRotation_Ok in Hs. left.
    destruct (String.eqb _ _); [by subst|by destruct Hs as (_ & _ & ->)].
  - by left.
Qed.
(** With valid keys, every allowed request succeeds. *)
Lemma process_total now id req ks :
  valid_keys (ActiveKeys (rq_ca req)) → valid_keys (AdditionalTrustedKeys (rq_ca req)) →
  rotation_keys req (rq_ca req) = Ok ks → valid_keys ks →
  edge (State (GetRotation (rq_ca req))) (Phase (GetRotation (rq_ca req))) (rq_targetPhase req) →
  ∃ ca', processRotationRequest now id req = Ok ca'.
Proof.
  intros Ha Hb Hk Hv He. setoid_rewrite process_cases. unfold processed. cbv zeta.
  setoid_rewrite startNewRotation_Ok. setoid_rewrite updateClients_Ok. setoid_rewrite startRollingBackRotation_Ok.
  inversion He as [? ? Hs Hst|? Hst|? Hst|? ? Hp|? ? Hp]; subst.
  - eexists. left. split; [done|]. split; [set_solver|]. exists ks. done.
  - eexists. right. left. done.
  - eexists. do 2 right. left. done.
  - destruct (String.eqb (Phase (GetRotation (rq_ca req))) RotationPhaseInit) eqn:E;
      eexists; do 3 right; left; (split; [done|]); (split; [done|]); cbn zeta; rewrite ?E; done.
  - eexists. do 4 right. done.
Qed.
End process.

(** ** Theorems *)

Section theorems.
Context `{KeyStore}.

(** A request for a rotation succeeds only along an edge of the state machine
    and leaves the authority in the phase it asks for, or in standby when it is
    forced; with valid keys, every request along an edge succeeds. *)
Theorem rotation_edges now id req :
  (∀ ca', processRotationRequest now id req = Ok ca' →
     edge (State (GetRotation (rq_ca req))) (Phase (GetRotation (rq_ca req))) (rq_targetPhase req) ∧
     (Phase (GetRotation ca') = rq_targetPhase req ∨
      forced req ∧ Phase (GetRotation ca') = RotationPhaseStandby)) ∧
  (∀ ks, valid_keys (ActiveKeys (rq_ca req)) → valid_keys (AdditionalTrustedKeys (rq_ca req)) →
     rotation_keys req (rq_ca req) = Ok ks → valid_keys ks →
     edge (State (GetRotation (rq_ca req))) (Phase (GetRotation (rq_ca req))) (rq_targetPhase req) →
     ∃ ca', processRotationRequest now id req = Ok ca').
Proof.
  split; [intros ca' Hp; split; [by eapply process_edge|by eapply process_phase]|].
  intros ks. apply process_total.
Qed.

Lemma trusts_active ca : trusts ca (ActiveKeys ca).
Proof. unfold trusts, GetTrustedSSHKeyPairs, GetTrustedTLSKeyPairs, GetTrustedJWTKeyPairs. set_solver. Qed.
Lemma trusts_additional ca : trusts ca (AdditionalTrustedKeys ca).
Proof. unfold trusts, GetTrustedSSHKeyPairs, GetTrustedTLSKeyPairs, GetTrustedJWTKeyPairs. set_solver. Qed.
#[local] Hint Resolve trusts_active trusts_additional : go.

(** The keys of an authority are exchanged, kept with other additional keys, or
    replaced by a forced rotation. *)
Lemma process_keys now id req ca' :
  processRotationRequest now id req = Ok ca' →
  let ca := rq_ca req in
  ActiveKeys ca' = ActiveKeys ca ∨
  (ActiveKeys ca' = AdditionalTrustedKeys ca ∧ AdditionalTrustedKeys ca' = ActiveKeys ca) ∨ forced req.
Proof.
  rewrite process_cases. intros [(Ht & _ & Hs)|[(_ & _ & Hs)|[(_ & _ & ->)|[(_ & _ & Hs)|(_ & _ & ->)]]]];
    [| |by left| |by left].
  - apply startNewRotation_Ok in Hs as (ks & _ & _ & ->).
    destruct (rq_gracePeriod req =? 0)%Z eqn:Hg; [to_prop; by do 2 right|by left].
  - apply updateClients_Ok in Hs as (_ & _ & ->). right. by left.
  - apply startRollingBackRotation_Ok in Hs.
    destruct (String.eqb _ _); [subst; by left|destruct Hs as (_ & _ & ->); right; by left].
Qed.

(** No step of a rotation that is not forced breaks trust: the authority still
    trusts the keys that were active before, and it signs only with keys that
    were trusted before. *)
Theorem rotation_continuity now id req ca' :
  ¬ forced req → processRotationRequest now id req = Ok ca' →
  trusts ca' (ActiveKeys (rq_ca req)) ∧ trusts (rq_ca req) (ActiveKeys ca').
Proof.
  intros Hf Hp. destruct (process_keys _ _ _ _ Hp) as [E|[[E1 E2]|?]]; [| |done].
  - split; [rewrite <- E|rewrite E]; auto with go.
  - split; [rewrite <- E2|rewrite E1]; auto with go.
Qed.

(** The phases that the targets of a run lead through, from the first one. *)
Definition histories : list (list string) :=
  [ []; [RotationPhaseUpdateClients]; [RotationPhaseUpdateClients; RotationPhaseUpdateServers];
    [RotationPhaseUpdateClients; RotationPhaseUpdateServers; RotationPhaseStandby];
    [RotationPhaseRollback]; [RotationPhaseRollback; RotationPhaseStandby];
    [RotationPhaseUpdateClients; RotationPhaseRollback];
    [RotationPhaseUpdateClients; RotationPhaseRollback; RotationPhaseStandby];
    [RotationPhaseUpdateClients; RotationPhaseUpdateServers; RotationPhaseRollback];
    [RotationPhaseUpdateClients; RotationPhaseUpdateServers; RotationPhaseRollback; RotationPhaseStandby] ].

(** The keys a history leaves active and the others. *)
Definition history_keys (old new : CAKeySet) (ts : list string) : CAKeySet * CAKeySet :=
  let '(active, other) :=
    if one_of RotationPhaseRollback ts then (old, new)
    else if one_of RotationPhaseUpdateClients ts then (new, old) else (old, new) in
  (active, if one_of RotationPhaseStandby ts then no_keys else other).

Definition last_phase (ts : list string) : string := List.last ts RotationPhaseInit.

(** Cases on the history; a test on its last phase leaves few. *)
Ltac case_history Hts Hph :=
  repeat (apply elem_of_cons in Hts as [->|Hts]; [|]); [..|by apply elem_of_nil in Hts];
  try (exfalso; first [discriminate Hph|revert Hph; by apply (bool_decide_eq_false_1 _)]).
Ltac finish_history Hk :=
  let Ha := fresh in let Hb := fresh in injection Hk as Ha Hb; (split; [by apply (bool_decide_eq_true_1 _)|]); split; [reflexivity|];
  cbn; rewrite ?Ha, ?Hb; reflexivity.

Lemma process_last ca1 now id req ca2 ts old new :
  rq_ca req = ca1 → rq_targetPhase req ≠ RotationPhaseInit → processRotationRequest now id req = Ok ca2 →
  ts ∈ histories → Phase (GetRotation ca1) = last_phase ts →
  (ActiveKeys ca1, AdditionalTrustedKeys ca1) = history_keys old new ts →
  let ts' := (ts ++ [rq_targetPhase req])%list in
  ts' ∈ histories ∧ Phase (GetRotation ca2) = last_phase ts' ∧
  (ActiveKeys ca2, AdditionalTrustedKeys ca2) = history_keys old new ts'.
Proof.
  intros <- Hni Hp Hts Hph Hk. cbv zeta. apply process_cases in Hp.
  destruct Hp as [(? & _)|[(-> & Hp & Hs)|[(-> & Hp & ->)|[(-> & Hp & Hs)|(-> & Hp & ->)]]]]; [done| | | |];
    rewrite Hph in Hp.
  - apply updateClients_Ok in Hs as (_ & _ & ->). case_history Hts Hp. finish_history Hk.
  - cbn [SetRotation]. case_history Hts Hp. finish_history Hk.
  - apply startRollingBackRotation_Ok in Hs. rewrite Hph in Hs.
    case_history Hts Hp; cbn in Hs; first [subst ca2|destruct Hs as (_ & _ & ->)]; finish_history Hk.
  - case_history Hts Hp; finish_history Hk.
Qed.

Lemma run_history ca ts ca' : run ca ts ca' → Phase (GetRotation ca) = RotationPhaseInit →
  ts ∈ histories ∧ Phase (GetRotation ca') = last_phase ts ∧
  (ActiveKeys ca', AdditionalTrustedKeys ca') = history_keys (ActiveKeys ca) (AdditionalTrustedKeys ca) ts.
Proof.
  induction 1 as [|ts ca1 now id req ca2 Hr IH Hc Ht Hp]; intros Hi.
  - split; [by apply (bool_decide_eq_true_1 _)|]. done.
  - destruct (IH Hi) as (Hts & Hph & Hk). by eapply process_last.
Qed.

(** C24: A rotation that starts leaves the old keys active; what follows is one of
    ten sequences of phases. With a rollback the old keys end up active, with an
    update of clients and no rollback the new ones; the other set stays trusted
    until standby, which drops it. *)
Theorem rotation_lifecycle now id req ca ts ca' :
  processRotationRequest now id req = Ok ca → rq_targetPhase req = RotationPhaseInit →
  rq_gracePeriod req ≠ 0%Z → run ca ts ca' →
  ts ∈ histories ∧ Phase (GetRotation ca') = last_phase ts ∧
  (∃ new, rotation_keys req (rq_ca req) = Ok new ∧
    (ActiveKeys ca', AdditionalTrustedKeys ca') = history_keys (ActiveKeys (rq_ca req)) new ts).
Proof.
  intros Hp Ht Hg Hr. apply process_cases in Hp.
  destruct Hp as [(_ & _ & Hs)|[(E & _)|[(E & _)|[(E & _)|(E & _)]]]]; [|rewrite Ht in E; discriminate..].
  apply startNewRotation_Ok in Hs as (new & Hk & _ & ->). apply Z.eqb_neq in Hg. rewrite Hg in Hr.
  apply run_history in Hr as (? & ? & ?); [|done]. eauto.
Qed.
End theorems.

(** ** Servers *)

(** The result of validation is the authority with the defaults of its rotation. *)
Definition with_rotation (r : option Rotation) (ca : CertAuthority) : CertAuthority :=
  MkCA (ca_Type ca) (ca_Name ca) (ActiveKeys ca) (AdditionalTrustedKeys ca) r.

Lemma CA_CheckAndSetDefaults_Ok ca ca' : CA_CheckAndSetDefaults ca = Ok ca' ↔
  ca_Name ca ≠ "" ∧ CertAuthID_Check (ca_Type ca) (ca_Name ca) = Ok () ∧
  valid_keys (ActiveKeys ca) ∧ valid_keys (AdditionalTrustedKeys ca) ∧
  ∃ r, match ca_Rotation ca with
       | None => r = None
       | Some r0 => ∃ r1, Rotation_CheckAndSetDefaults r0 = Ok r1 ∧ r = Some r1
       end ∧ ca' = with_rotation r ca.
Proof.
  unfold CA_CheckAndSetDefaults. destruct (String.eqb_spec (ca_Name ca) ""); [naive_solver|].
  rewrite !result_check_Ok, result_bind_Ok. setoid_rewrite result_check_Ok. fold (with_rotation).
  unfold CertAuthID_Check. rewrite result_check_Ok. unfold valid_keys.
  destruct (ca_Rotation ca) as [r0|].
  - setoid_rewrite result_bind_Ok. naive_solver.
  - naive_solver.
Qed.

Section stored.
Context `{KeyStore} `{KeyMaterial}.

Lemma ValidateCertAuthority_Ok ca ca' :
  ValidateCertAuthority ca = Ok ca' ↔ CA_CheckAndSetDefaults ca = Ok ca' ∧ check_material ca' = Ok ().
Proof.
  unfold ValidateCertAuthority. rewrite result_bind_Ok. setoid_rewrite result_check_Ok.
  split; [intros (? & ? & ? & [= ->]); done|intros [? ?]; by eexists].
Qed.

Lemma CompareAndSwap_Ok new expected s s' : CompareAndSwapCertAuthority new expected s = Ok s' ↔
  ∃ new' actual, ValidateCertAuthority new = Ok new' ∧ s !! (ca_Type new', ca_Name new') = Some actual ∧
    ValidateCertAuthority actual = Ok expected ∧ s' = <[ (ca_Type new', ca_Name new') := new' ]> s.
Proof.
  unfold CompareAndSwapCertAuthority. rewrite result_bind_Ok.
  apply exist_proper; intros new'. destruct (s !! _) as [actual|]; [|naive_solver].
  rewrite result_bind_Ok. split.
  - intros (? & actual' & Ha & E). case_bool_decide; [|done]. injection E as <-. subst. eauto 10.
  - intros (actual' & ? & [= <-] & Ha & ->). split; [done|]. exists expected. split; [done|].
    by rewrite bool_decide_eq_true_2.
Qed.
Lemma Validate_key ca ca' : ValidateCertAuthority ca = Ok ca' →
  ca_Type ca' = ca_Type ca ∧ ca_Name ca' = ca_Name ca ∧
  ActiveKeys ca' = ActiveKeys ca ∧ AdditionalTrustedKeys ca' = AdditionalTrustedKeys ca.
Proof.
  rewrite ValidateCertAuthority_Ok, CA_CheckAndSetDefaults_Ok. intros [(_ & _ & _ & _ & r & _ & ->) _]. done.
Qed.
Lemma process_key now id req ca' : processRotationRequest now id req = Ok ca' →
  ca_Type ca' = ca_Type (rq_ca req) ∧ ca_Name ca' = ca_Name (rq_ca req).
Proof.
  rewrite process_cases. intros [(Ht & _ & Hs)|[(_ & _ & Hs)|[(_ & _ & ->)|[(_ & _ & Hs)|(_ & _ & ->)]]]];
    [| |done| |done].
  - apply startNewRotation_Ok in Hs as (ks & _ & _ & ->). by destruct (_ =? _)%Z.
  - by apply updateClients_Ok in Hs as (_ & _ & ->).
  - apply startRollingBackRotation_Ok in Hs.
    destruct (String.eqb _ _); [by subst|by destruct Hs as (_ & _ & ->)].
Qed.

Lemma getAllCertificates_lookup domain caTypes s m t ca :
  getAllCertificates domain caTypes s = Ok m → m !! t = Some ca → GetCertAuthority t domain true s = Ok ca.
Proof.
  revert m. induction caTypes as [|t' caTypes IH]; intros m; cbn [getAllCertificates].
  - intros [= <-]. by rewrite lookup_empty.
  - rewrite result_bind_Ok. intros (ca' & Hg & Hm). rewrite result_bind_Ok in Hm. destruct Hm as (m' & Hm & [= <-]).
    rewrite lookup_insert_Some. intros [[-> ->]|[? ?]]; eauto.
Qed.
Lemma GetCertAuthority_Ok t domain s ca : GetCertAuthority t domain true s = Ok ca ↔
  CertAuthID_Check t domain = Ok () ∧ ∃ actual, s !! (t, domain) = Some actual ∧ ValidateCertAuthority actual = Ok ca.
Proof.
  unfold GetCertAuthority. rewrite result_check_Ok. apply and_iff_compat_l.
  destruct (s !! _) as [actual|]; [|naive_solver]. rewrite result_bind_Ok. naive_solver.
Qed.

(** Authorities are stored under their own type and name. *)
Definition keyed (s : Store) : Prop := map_Forall (fun k ca => k = (ca_Type ca, ca_Name ca)) s.

(** What the rotation of one authority of the cluster puts in the store. *)
Definition rotated_in (now : Z) (id : string) (req : RotateRequest) (privateKey : bytes) (ca new : CertAuthority) : Prop :=
  ∃ rotated, ValidateCertAuthority rotated = Ok new ∧
    processRotationRequest now id (MkReq ca (req_TargetPhase req) (req_Mode req)
      (default 0%Z (req_GracePeriod req)) (default no_schedule (req_Schedule req)) privateKey) = Ok rotated.

Lemma rotate_loop_prefix now ids req privateKey domain allCerts caTypes s r s' :
  (∀ t ca, allCerts !! t = Some ca → ca_Type ca = t ∧ ca_Name ca = domain) → NoDup caTypes →
  rotate_loop now ids req privateKey allCerts caTypes s = (r, s') →
  ∃ l rest, caTypes = (l ++ rest)%list ∧ (r = Ok () ↔ rest = []) ∧
    (∀ t, t ∈ l → ∃ ca new, allCerts !! t = Some ca ∧ rotated_in now (ids t) req privateKey ca new ∧
       s' !! (t, domain) = Some new) ∧
    (∀ k, (∀ t, t ∈ l → k ≠ (t, domain)) → s' !! k = s !! k).
Proof.
  intros Hk. revert s. induction caTypes as [|t caTypes IH]; intros s Hnd; cbn [rotate_loop].
  { intros [= <- <-]. exists [], []. split_and!; [done|done|set_solver|done]. }
  assert (∀ e : error, (Err e, s) = (r, s') → ∃ l rest, t :: caTypes = (l ++ rest)%list ∧ (r = Ok () ↔ rest = []) ∧
    (∀ t, t ∈ l → ∃ ca new, allCerts !! t = Some ca ∧ rotated_in now (ids t) req privateKey ca new ∧
       s' !! (t, domain) = Some new) ∧ (∀ k, (∀ t, t ∈ l → k ≠ (t, domain)) → s' !! k = s !! k)) as Hfail.
  { intros e [= <- <-]. exists [], (t :: caTypes). split_and!; [done|done|set_solver|done]. }
  destruct (allCerts !! t) as [ca|] eqn:Hca; [|by apply Hfail].
  destruct (processRotationRequest _ _ _) as [rotated|e] eqn:Hp; [|by apply Hfail].
  destruct (CompareAndSwapCertAuthority rotated ca s) as [s1|e] eqn:Hc; [|by apply Hfail]. clear Hfail.
  intros Hl. apply NoDup_cons in Hnd as [Ht Hnd]. destruct (IH _ Hnd Hl) as (l & rest & -> & Hr & Hin & Hout).
  apply CompareAndSwap_Ok in Hc as (new & actual & Hv & _ & _ & ->).
  destruct (Hk _ _ Hca) as [Ety Enm]. pose proof (process_key _ _ _ _ Hp) as [E1 E2].
  pose proof (Validate_key _ _ Hv) as (E3 & E4 & _). cbn in E1, E2. rewrite E3, E4, E1, E2, Ety, Enm in Hout.
  exists (t :: l), rest. split_and!; [done|done| |].
  - intros t'. rewrite elem_of_cons. intros [->|Hin']; [|by apply Hin].
    exists ca, new. split_and!; [done|by exists rotated|]. rewrite Hout; [by rewrite lookup_insert_eq|].
    intros t' Ht' [= ->]. apply Ht. set_solver.
  - intros k Hkn. rewrite Hout; [|set_solver]. apply lookup_insert_ne. intros <-. by eapply Hkn; [left|].
Qed.
End stored.

(** ** Duplicated keys *)

Section duplicated.
Context (Sum256 : bytes → bytes).

(** Two authorities of the cluster hold a private key with one digest. *)
Definition shares_key (allCerts : list (string * CertAuthority)) (t c : string) : Prop :=
  ∃ ca1 ca2 k1 k2, (t, ca1) ∈ allCerts ∧ (c, ca2) ∈ allCerts ∧ k1 ∈ private_keys ca1 ∧ k2 ∈ private_keys ca2 ∧
    Sum256 k1 = Sum256 k2.

Lemma add_thumbs_elem ty ks thumbs t d :
  t ∈ default [] (foldl (add_thumb Sum256 ty) thumbs ks !! d) ↔
  t ∈ default [] (thumbs !! d) ∨ t = ty ∧ ∃ k, k ∈ ks ∧ Sum256 k = d.
Proof.
  revert thumbs. induction ks as [|k ks IH]; intros thumbs; cbn [foldl].
  - set_solver.
  - rewrite IH, exists_cons_iff. unfold add_thumb.
    destruct (decide (Sum256 k = d)) as [<-|Hne].
    + rewrite lookup_insert_eq. cbn [default from_option id]. rewrite elem_of_app, list_elem_of_singleton. tauto.
    + rewrite lookup_insert_ne by done. tauto.
Qed.
Lemma certsThumbs_elem allCerts t d :
  t ∈ default [] (certsThumbs Sum256 allCerts !! d) ↔
  ∃ ca k, (t, ca) ∈ allCerts ∧ k ∈ private_keys ca ∧ Sum256 k = d.
Proof.
  unfold certsThumbs.
  assert (∀ thumbs, t ∈ default [] (foldl (fun thumbs '(ty, ca) => foldl (add_thumb Sum256 ty) thumbs (private_keys ca))
    thumbs allCerts !! d) ↔ t ∈ default [] (thumbs !! d) ∨
      ∃ ca k, (t, ca) ∈ allCerts ∧ k ∈ private_keys ca ∧ Sum256 k = d) as ->; [|set_solver].
  induction allCerts as [|[ty ca] l IH]; intros thumbs; cbn [foldl]; [set_solver|].
  rewrite IH, add_thumbs_elem. setoid_rewrite elem_of_cons. naive_solver.
Qed.

Lemma rotate_thumbs_elem caTypes (groups : list (list string)) t :
  t ∈ foldr (rotate_thumb caTypes) ∅ groups ↔
  ∃ g, g ∈ groups ∧ length g ≠ 1 ∧ (∃ c, c ∈ caTypes ∧ c ∈ g) ∧ t ∈ g.
Proof.
  induction groups as [|g groups IH]; cbn [foldr]; [set_solver|].
  rewrite exists_cons_iff, <- IH. unfold rotate_thumb.
  destruct (Nat.eqb_spec (length g) 1); [tauto|].
  assert (existsb (fun c => existsb (String.eqb c) g) caTypes = true ↔ ∃ c, c ∈ caTypes ∧ c ∈ g) as Hc.
  { rewrite existsb_elem. setoid_rewrite existsb_elem. setoid_rewrite String.eqb_eq. naive_solver. }
  destruct (existsb _ _).
  - rewrite elem_of_union, elem_of_list_to_set. tauto.
  - intuition discriminate.
Qed.

Lemma thumbs_shares (caTypes : list string) allCerts t :
  (∃ g : list string, g ∈ (map_to_list (certsThumbs Sum256 allCerts)).*2 ∧ length g ≠ 1 ∧ (∃ c, c ∈ caTypes ∧ c ∈ g) ∧ t ∈ g) ∨
    t ∈ caTypes ↔ t ∈ caTypes ∨ ∃ c, c ∈ caTypes ∧ shares_key allCerts t c.
Proof.
  split.
  - intros [(g & Hg & _ & (c & Hc & Hcg) & Ht)|?]; [|by left]. right. exists c. split; [done|].
    apply list_elem_of_fmap in Hg as ([d g'] & -> & Hg). apply elem_of_map_to_list in Hg. cbn in Hcg, Ht.
    assert (∀ x, x ∈ g' → x ∈ default [] (certsThumbs Sum256 allCerts !! d)) as Hd by (rewrite Hg; done).
    apply Hd, certsThumbs_elem in Hcg as (ca2 & k2 & ? & ? & <-).
    apply Hd, certsThumbs_elem in Ht as (ca1 & k1 & ? & ? & ?). by exists ca1, ca2, k1, k2.
  - intros [?|(c & Hc & ca1 & ca2 & k1 & k2 & H1 & H2 & Hk1 & Hk2 & E)]; [by right|].
    set (d := Sum256 k2) in *.
    assert (t ∈ default [] (certsThumbs Sum256 allCerts !! d)) as Ht by (apply certsThumbs_elem; eauto).
    assert (c ∈ default [] (certsThumbs Sum256 allCerts !! d)) as Hcd by (apply certsThumbs_elem; eauto).
    destruct (certsThumbs Sum256 allCerts !! d) as [g|] eqn:Hg; cbn in Ht, Hcd; [|set_solver].
    destruct (decide (length g = 1)) as [Hl|Hl].
    + right. destruct g as [|x [|? ?]]; [set_solver| |done].
      apply list_elem_of_singleton in Ht as ->. by apply list_elem_of_singleton in Hcd as ->.
    + left. exists g. split_and!; [|done|by exists c|done].
      apply list_elem_of_fmap. exists (d, g). split; [done|]. by apply elem_of_map_to_list.
Qed.

Lemma findDuplicatedCertificates_elem order (caTypes : list string) allCerts t :
  (∀ X, order X ≡ₚ elements X) → NoDup caTypes →
  let result := findDuplicatedCertificates Sum256 order caTypes allCerts in
  NoDup result ∧
  (t ∈ result ↔ t ∈ caTypes ∨
    length caTypes ≠ length allCerts ∧ ∃ c, c ∈ caTypes ∧ shares_key allCerts t c).
Proof.
  intros Ho Hnd. cbv zeta. unfold findDuplicatedCertificates.
  destruct (Nat.eqb_spec (length caTypes) (length allCerts)); [tauto|].
  set (m := foldr _ _ _).
  assert (t ∈ m ∪ list_to_set caTypes ↔ t ∈ caTypes ∨ ∃ c, c ∈ caTypes ∧ shares_key allCerts t c) as Hm.
  { rewrite elem_of_union, elem_of_list_to_set. unfold m. rewrite rotate_thumbs_elem, thumbs_shares. tauto. }
  case_bool_decide as Hz.
  - split; [done|]. rewrite Hz in Hm. set_solver.
  - rewrite Ho, elem_of_elements, Hm. split; [apply NoDup_elements|tauto].
Qed.

(** Unless as many types are requested as there are authorities, the types to
    rotate are the types requested and those that hold a private key of one of
    them, whatever the order in which the maps are visited, each once. *)
Theorem findDuplicatedCertificates_correct order caTypes allCerts t :
  (∀ X, order X ≡ₚ elements X) → NoDup caTypes →
  let result := findDuplicatedCertificates Sum256 order caTypes allCerts in
  NoDup result ∧
  (t ∈ result ↔ t ∈ caTypes ∨
    length caTypes ≠ length allCerts ∧ ∃ c, c ∈ caTypes ∧ shares_key allCerts t c).
Proof. apply findDuplicatedCertificates_elem. Qed.
End duplicated.

Section rotate.
Context `{KeyStore} `{KeyMaterial}.

Lemma Types_NoDup req : NoDup (Types req).
Proof.
  unfold Types. destruct (String.eqb _ _); [by apply (bool_decide_eq_true_1 _)|].
  destruct (existsb _ _); [apply NoDup_singleton|constructor].
Qed.

(** C39: A request to rotate that is refused, or whose authorities cannot be read,
    changes nothing. Otherwise the types to rotate are taken in the order in which
    they were found: a first part of them is rotated from what was stored, all of
    them exactly when the call succeeds, and every authority behind the first
    failure is left as it was: an error for one type stops the next ones and does
    not undo those before. *)
Theorem RotateCertAuthority_prefix Sum256 visit order now ids clusterName req privateKey s r s' :
  (∀ X, order X ≡ₚ elements X) → keyed s →
  RotateCertAuthority Sum256 visit order now ids clusterName req privateKey s = (r, s') →
  (∃ e, r = Err e ∧ s' = s ∧
     (Request_CheckAndSetDefaults req now = Err e ∨ getAllCertificatesForRotation clusterName s = Err e)) ∨
  ∃ req' allCerts l rest, Request_CheckAndSetDefaults req now = Ok req' ∧
    getAllCertificatesForRotation clusterName s = Ok allCerts ∧
    findDuplicatedCertificates Sum256 order (Types req') (visit allCerts) = (l ++ rest)%list ∧ Types req' ⊆ (l ++ rest)%list ∧
    (r = Ok () ↔ rest = []) ∧
    (∀ t, t ∈ l → ∃ ca new, GetCertAuthority t clusterName true s = Ok ca ∧
       rotated_in now (ids t) req' privateKey ca new ∧ s' !! (t, clusterName) = Some new) ∧
    (∀ k, (∀ t, t ∈ l → k ≠ (t, clusterName)) → s' !! k = s !! k).
Proof.
  intros Ho Hk. unfold RotateCertAuthority.
  destruct (Request_CheckAndSetDefaults req now) as [req'|e]; [|intros [= <- <-]; eauto 6].
  destruct (getAllCertificatesForRotation _ _) as [allCerts|e] eqn:Ha; [|intros [= <- <-]; eauto 6].
  intros Hl. right. pose proof (fun t ca => getAllCertificates_lookup _ _ _ _ t ca Ha) as Hg.
  pose proof (fun t => findDuplicatedCertificates_elem Sum256 order (Types req') (visit allCerts) t Ho
    (Types_NoDup req')) as Hd. cbv zeta in Hd.
  edestruct rotate_loop_prefix as (l & rest & E & Hr & Hin & Hout); [| |exact Hl|].
  - intros t ca Hm. specialize (Hg _ _ Hm). apply GetCertAuthority_Ok in Hg as (_ & actual & Hs & Hv).
    apply Validate_key in Hv as (-> & -> & _). specialize (Hk _ _ Hs) as Ek. cbn in Ek. by injection Ek as <- <-.
  - apply (Hd ""%string).
  - exists req', allCerts, l, rest. split_and!; [done|done|exact E| |done| |done].
    + intros t Ht. rewrite <- E. apply Hd. by left.
    + intros t Ht. destruct (Hin _ Ht) as (ca & new & Hm & ? & ?). exists ca, new. split; [by apply Hg|done].
Qed.
End rotate.

Section automatic.
Context `{KeyStore} `{KeyMaterial}.

Definition auto_req (ca : CertAuthority) (target : string) : rotationReq :=
  MkReq ca target RotationModeAuto (GracePeriod (GetRotation ca)) (Schedule (GetRotation ca)) [].

Lemma auto_request_due now ca req :
  auto_request now ca = Ok (Some req) ↔ ∃ next, due now (GetRotation ca) next ∧ req = auto_req ca next.
Proof.
  unfold auto_request, auto_req. cbv zeta. set (r := GetRotation ca). split.
  - destruct (String.eqb_spec (Mode r) RotationModeAuto) as [Hm|]; [|done].
    destruct (String.eqb_spec (State r) RotationStateInProgress) as [Hs|]; [|done]. cbn [negb].
    destruct (String.eqb_spec (Phase r) RotationPhaseInit) as [Hp|]; [|
      destruct (String.eqb_spec (Phase r) RotationPhaseUpdateClients) as [Hp|]; [|
        destruct (String.eqb_spec (Phase r) RotationPhaseUpdateServers) as [Hp|]; [|done]]];
      case_test; intros E; try discriminate E; injection E as <-; to_prop;
      (eexists; split; [|reflexivity]); by econstructor; [..|auto with go].
  - intros (next & [ph t ? Hm Hs Hph Ht Hin] & ->). rewrite Hm, Hs, !String.eqb_refl. cbn [negb].
    assert ((now <? t)%Z = false) as Hlt by lia.
    repeat (apply elem_of_cons in Hin as [E|Hin]; [injection E as -> -> ->; rewrite Hph, Hlt; reflexivity|]).
    by apply elem_of_nil in Hin.
Qed.
Lemma auto_request_none now ca : auto_request now ca = Ok None → ∀ next, ¬ due now (GetRotation ca) next.
Proof.
  intros E next Hd. assert (auto_request now ca = Ok (Some (auto_req ca next))) as E' by (apply auto_request_due; eauto).
  congruence.
Qed.

Lemma Rotation_Check_phase r r' : Rotation_CheckAndSetDefaults r = Ok r' → Phase r' = Phase r.
Proof. unfold Rotation_CheckAndSetDefaults. repeat case_test; intros E; try discriminate E; by injection E as <-. Qed.
Lemma Validate_phase ca ca' : ValidateCertAuthority ca = Ok ca' → Phase (GetRotation ca') = Phase (GetRotation ca).
Proof.
  rewrite ValidateCertAuthority_Ok, CA_CheckAndSetDefaults_Ok. intros [(_ & _ & _ & _ & r & Hr & ->) _].
  unfold GetRotation. cbn. destruct (ca_Rotation ca) as [r0|].
  - destruct Hr as (r1 & Hr & ->). by apply Rotation_Check_phase in Hr.
  - by subst r.
Qed.
Lemma due_not_init now r next : due now r next → next ≠ RotationPhaseInit.
Proof.
  intros [ph t ? _ _ _ _ Hin] ->.
  repeat (apply elem_of_cons in Hin as [E|Hin]; [discriminate E|]). by apply elem_of_nil in Hin.
Qed.

Lemma Get_keyed t domain s ca : keyed s → GetCertAuthority t domain true s = Ok ca → ca_Type ca = t ∧ ca_Name ca = domain.
Proof.
  intros Hk Hg. apply GetCertAuthority_Ok in Hg as (_ & actual & Hs & Hv).
  apply Validate_key in Hv as (-> & -> & _). specialize (Hk _ _ Hs) as Ek. cbn in Ek. by injection Ek as <- <-.
Qed.

(** A pass of the automatic rotation changes at most the authority it is run
    for, and this one only into the phase that is due by the schedule, in
    automatic mode and with a rotation in progress. *)
Theorem autoRotate_on_schedule now id t domain s ca s' :
  keyed s → GetCertAuthority t domain true s = Ok ca → auto_step now id t domain s = Ok s' →
  s' = s ∨ ∃ next new, due now (GetRotation ca) next ∧ Phase (GetRotation new) = next ∧
    s' = <[ (t, domain) := new ]> s.
Proof.
  intros Hk Hg. unfold auto_step. rewrite Hg. cbn [mbind result_bind]. unfold autoRotate.
  rewrite result_bind_Ok. intros ([req|] & Hr & Hc); [|left; by injection Hc].
  apply auto_request_due in Hr as (next & Hd & ->). right.
  apply result_bind_Ok in Hc as (rotated & Hp & Hc). apply CompareAndSwap_Ok in Hc as (new & actual & Hv & _ & _ & ->).
  destruct (Get_keyed _ _ _ _ Hk Hg) as [<- <-]. pose proof (process_key _ _ _ _ Hp) as [E1 E2].
  pose proof (Validate_key _ _ Hv) as (-> & -> & _). cbn in E1, E2. rewrite E1, E2.
  exists next, new. split_and!; [done| |done]. rewrite (Validate_phase _ _ Hv).
  destruct (process_phase _ _ _ _ Hp) as [->|[[Ht _] _]]; [done|]. by destruct (due_not_init _ _ _ Hd).
Qed.

(** A stored authority for which a phase is due, whose next state is valid. *)
Lemma auto_progress now id ca s next rotated :
  s !! (ca_Type ca, ca_Name ca) = Some ca → ValidateCertAuthority ca = Ok ca → due now (GetRotation ca) next →
  processRotationRequest now id (auto_req ca next) = Ok rotated → ValidateCertAuthority rotated = Ok rotated →
  auto_step now id (ca_Type ca) (ca_Name ca) s = Ok (<[ (ca_Type ca, ca_Name ca) := rotated ]> s).
Proof.
  intros Hs Hv Hd Hp Hv'. unfold auto_step.
  assert (GetCertAuthority (ca_Type ca) (ca_Name ca) true s = Ok ca) as ->.
  { apply GetCertAuthority_Ok. apply ValidateCertAuthority_Ok in Hv as Hc.
    rewrite CA_CheckAndSetDefaults_Ok in Hc. destruct Hc as [(_ & ? & _) _]. eauto. }
  cbn [mbind result_bind]. unfold autoRotate.
  assert (auto_request now ca = Ok (Some (auto_req ca next))) as -> by (apply auto_request_due; eauto).
  cbn [mbind result_bind]. rewrite Hp. cbn [mbind result_bind]. apply CompareAndSwap_Ok.
  pose proof (process_key _ _ _ _ Hp) as [E1 E2]. cbn in E1, E2. rewrite <- E1, <- E2 in *. eauto 10.
Qed.
End automatic.

Section liveness.
Context `{KeyStore} `{KeyMaterial}.

Lemma Rotation_Check_phase_Ok r ph :
  Rotation_CheckAndSetDefaults r = Ok r → State r = RotationStateInProgress → Mode r = RotationModeAuto →
  ph ∈ [RotationPhaseUpdateClients; RotationPhaseUpdateServers] →
  let r' := with_phase RotationStateInProgress ph RotationModeAuto r in Rotation_CheckAndSetDefaults r' = Ok r'.
Proof.
  unfold Rotation_CheckAndSetDefaults. intros Hr Hs Hm Hph. rewrite Hs, Hm in Hr.
  destruct (negb _); [done|]. cbn -[is_zero_time] in Hr |- *.
  destruct (String.eqb (CurrentID r) ""); [done|]. destruct (is_zero_time (Started r)); [done|].
  repeat (apply elem_of_cons in Hph as [->|Hph]; [done|]). by apply elem_of_nil in Hph.
Qed.

(** An authority is valid as it stands; so is one of the same name and type with
    other valid keys and another valid rotation. *)
Lemma Validate_with ca active additional r :
  ValidateCertAuthority ca = Ok ca → valid_keys active → valid_keys additional →
  Rotation_CheckAndSetDefaults r = Ok r →
  let ca' := MkCA (ca_Type ca) (ca_Name ca) active additional (Some r) in
  check_material ca' = Ok () → ValidateCertAuthority ca' = Ok ca'.
Proof.
  rewrite ValidateCertAuthority_Ok, CA_CheckAndSetDefaults_Ok. intros [(? & ? & _) _] Ha Hb Hr ca' Hm.
  apply ValidateCertAuthority_Ok. rewrite CA_CheckAndSetDefaults_Ok. split; [|done].
  split_and!; [done..|]. exists (Some r). split; [by exists r|done].
Qed.
Lemma Validate_valid_keys ca ca' : ValidateCertAuthority ca = Ok ca' →
  valid_keys (ActiveKeys ca) ∧ valid_keys (AdditionalTrustedKeys ca).
Proof. rewrite ValidateCertAuthority_Ok, CA_CheckAndSetDefaults_Ok. tauto. Qed.
Lemma Validate_rotation ca r : ValidateCertAuthority ca = Ok ca → ca_Rotation ca = Some r →
  Rotation_CheckAndSetDefaults r = Ok r.
Proof.
  rewrite ValidateCertAuthority_Ok, CA_CheckAndSetDefaults_Ok.
  intros [(_ & _ & _ & _ & r' & Hr & E) _] Er. rewrite Er in Hr. destruct Hr as (r1 & Hr & ->).
  rewrite E in Er. cbn in Er. by injection Er as <-.
Qed.

(** A rotation in automatic mode goes from its first phase to standby in three
    passes, one for each time of the schedule that has come: the additional keys
    are then the active ones and the old keys are dropped. *)
Theorem autoRotate_completes (now1 now2 now3 : Z) id s ca r :
  let '(t, n, old, new) := (ca_Type ca, ca_Name ca, ActiveKeys ca, AdditionalTrustedKeys ca) in
  s !! (t, n) = Some ca → ValidateCertAuthority ca = Ok ca → ca_Rotation ca = Some r →
  Mode r = RotationModeAuto → State r = RotationStateInProgress → Phase r = RotationPhaseInit →
  (UpdateClients (Schedule r) ≤ now1)%Z → (UpdateServers (Schedule r) ≤ now2)%Z → (Standby (Schedule r) ≤ now3)%Z →
  (∀ r, check_material (MkCA t n new old r) = Ok ()) → (∀ r, check_material (MkCA t n new no_keys r) = Ok ()) →
  ∃ s1 s2 ca', auto_step now1 id t n s = Ok s1 ∧ auto_step now2 id t n s1 = Ok s2 ∧
    auto_step now3 id t n s2 = Ok (<[ (t, n) := ca' ]> s) ∧
    ActiveKeys ca' = new ∧ AdditionalTrustedKeys ca' = no_keys ∧
    State (GetRotation ca') = RotationStateStandby ∧ Phase (GetRotation ca') = RotationPhaseStandby.
Proof.
  intros Hs Hv Er Hm Hst Hph H1 H2 H3 Hk Hk0. destruct (Validate_valid_keys _ _ Hv) as [Ha Hb].
  pose proof (Validate_rotation _ _ Hv Er) as Hr.
  set (r1 := with_phase RotationStateInProgress RotationPhaseUpdateClients RotationModeAuto r).
  set (r2 := with_phase RotationStateInProgress RotationPhaseUpdateServers RotationModeAuto r).
  set (ca1 := MkCA (ca_Type ca) (ca_Name ca) (AdditionalTrustedKeys ca) (ActiveKeys ca) (Some r1)).
  set (ca2 := MkCA (ca_Type ca) (ca_Name ca) (AdditionalTrustedKeys ca) (ActiveKeys ca) (Some r2)).
  assert (ValidateCertAuthority ca1 = Ok ca1) as Hv1
    by (apply Validate_with; auto; apply Rotation_Check_phase_Ok; auto with go).
  assert (ValidateCertAuthority ca2 = Ok ca2) as Hv2
    by (apply Validate_with; auto; apply Rotation_Check_phase_Ok; auto with go).
  assert (GetRotation ca = r) as Eg by (unfold GetRotation; by rewrite Er).
  exists (<[ (ca_Type ca, ca_Name ca) := ca1 ]> s), (<[ (ca_Type ca, ca_Name ca) := ca2 ]> s), (completeRotation now3 ca2).
  split_and!; [| | |done..].
  - apply auto_progress with RotationPhaseUpdateClients; [done|done| | |done].
    + rewrite Eg. econstructor; [done..|]. auto with go.
    + apply process_cases. right. left. rewrite updateClients_Ok. unfold auto_req. cbn. rewrite Eg. auto.
  - assert (ca2 = SetRotation r2 ca1) as E2 by done.
    rewrite <- (insert_insert_eq _ _ ca2 ca1).
    apply (auto_progress now2 id ca1 _ RotationPhaseUpdateServers ca2); [by rewrite lookup_insert_eq|done| | |done].
    + econstructor; [done..|]. auto with go.
    + apply process_cases. do 2 right. left. unfold auto_req. cbn. auto.
  - rewrite <- (insert_insert_eq _ _ (completeRotation now3 ca2) ca2).
    apply (auto_progress now3 id ca2 _ RotationPhaseStandby); [by rewrite lookup_insert_eq|done| | |].
    + econstructor; [done..|]. auto with go.
    + apply process_cases. do 4 right. unfold auto_req. cbn. auto with go.
    + apply (Validate_with ca2); auto with go.
Qed.
End liveness.

(** ** Requests *)

Definition schedule_valid (now : Z) (s : RotationSchedule) : Prop :=
  UpdateServers s ≠ zero_time ∧ Standby s ≠ zero_time ∧ (now ≤ UpdateServers s ≤ Standby s)%Z.

Lemma Schedule_CheckAndSetDefaults_Ok s now : Schedule_CheckAndSetDefaults s now = Ok () ↔ schedule_valid now s.
Proof.
  unfold Schedule_CheckAndSetDefaults, schedule_valid, is_zero_time.
  repeat case_test; to_prop; split; intros; try discriminate; intuition lia.
Qed.

Lemma Request_Ok r now r' : Request_CheckAndSetDefaults r now = Ok r' ↔
  (req_Type r = "" ∨ req_Type r ∈ CertAuthTypes) ∧
  let period := default RotationGracePeriod (req_GracePeriod r) in
  ∃ s, match req_Schedule r with
       | None => (0 < period)%Z ∧
           s = MkSchedule (now + Z.quot period 3) (now + Z.quot (i64 (period * 2)) 3) (now + period)
       | Some s0 => schedule_valid now s0 ∧ s = s0
       end ∧
  r' = MkRequest (req_Type r) (Some period) (if String.eqb (req_TargetPhase r) "" then RotationPhaseInit else req_TargetPhase r)
    (if String.eqb (req_Mode r) "" then RotationModeManual else req_Mode r) (Some s).
Proof.
  unfold Request_CheckAndSetDefaults. cbv zeta. rewrite result_check_Ok, result_bind_Ok.
  assert ((match CertAuthType_Check (req_Type r) with
           | Err e => if negb (String.eqb (req_Type r) "") then Err e else Ok ()
           | Ok _ => Ok ()
           end) = Ok () ↔ req_Type r = "" ∨ req_Type r ∈ CertAuthTypes) as ->.
  { unfold CertAuthType_Check. fold (one_of (req_Type r) CertAuthTypes). rewrite <- one_of_spec.
    destruct (one_of _ _); [tauto|]. destruct (String.eqb_spec (req_Type r) ""); cbn; [tauto|]. intuition discriminate. }
  apply and_iff_compat_l. apply exist_proper; intros s.
  assert ((match req_Schedule r with
           | None => GenerateSchedule now (default RotationGracePeriod (req_GracePeriod r))
           | Some s => _ ← Schedule_CheckAndSetDefaults s now; Ok s
           end) = Ok s ↔ match req_Schedule r with
       | None => (0 < default RotationGracePeriod (req_GracePeriod r))%Z ∧
           s = MkSchedule (now + Z.quot (default RotationGracePeriod (req_GracePeriod r)) 3)
             (now + Z.quot (i64 (default RotationGracePeriod (req_GracePeriod r) * 2)) 3)
             (now + default RotationGracePeriod (req_GracePeriod r))
       | Some s0 => schedule_valid now s0 ∧ s = s0
       end) as ->.
  { destruct (req_Schedule r) as [s0|].
    - rewrite result_check_Ok, Schedule_CheckAndSetDefaults_Ok. intuition congruence.
    - unfold GenerateSchedule. case_test; to_prop; split; [done|lia|intros [= <-]; split; [lia|done]|intros [_ ->]; done]. }
  apply and_iff_compat_l. split; congruence.
Qed.

Lemma quot3_bounds p : (0 < p < 2 ^ 62)%Z →
  (0 ≤ Z.quot p 3 ≤ Z.quot (i64 (p * 2)) 3 ∧ Z.quot (i64 (p * 2)) 3 ≤ p)%Z.
Proof.
  intros Hp. rewrite wrap_i_small by (unfold in_i; lia). rewrite !Z.quot_div_nonneg by lia.
  split; [split; [apply Z.div_pos; lia|apply Z.div_le_mono; lia]|]. apply Z.div_le_upper_bound; lia.
Qed.

(** A request is accepted exactly when its type is known and its schedule is
    valid or, without one, its grace period is positive, so that a rotation with
    no grace period is refused; the schedule made of a grace period is ordered. *)
Theorem rotation_request_accepted r now :
  (is_Ok (Request_CheckAndSetDefaults r now) = true ↔
    (req_Type r = "" ∨ req_Type r ∈ CertAuthTypes) ∧
    match req_Schedule r with
    | Some s => schedule_valid now s
    | None => (0 < default RotationGracePeriod (req_GracePeriod r))%Z
    end) ∧
  (∀ r' s, Request_CheckAndSetDefaults r now = Ok r' → req_Schedule r = None → req_Schedule r' = Some s →
    (default RotationGracePeriod (req_GracePeriod r) < 2 ^ 62)%Z →
    (now ≤ UpdateClients s ≤ UpdateServers s ∧ UpdateServers s ≤ Standby s)%Z).
Proof.
  split.
  - rewrite is_Ok_spec. setoid_rewrite Request_Ok. split.
    + intros (r' & Ht & s & Hs & _). split; [done|]. by destruct (req_Schedule r), Hs.
    + intros [Ht Hs]. destruct (req_Schedule r); eauto 10.
  - intros r' s E Hn Hs Hp. apply Request_Ok in E as (_ & s' & Hs' & ->). rewrite Hn in Hs'. destruct Hs' as [? ->].
    injection Hs as <-. cbn [UpdateClients UpdateServers Standby]. pose proof (quot3_bounds _ (conj H Hp)). lia.
Qed.

(** ** Authorities of other clusters *)

Section external.
Context `{KeyStore} `{KeyMaterial}.

(** Key sets with the same public halves. *)
Definition same_public (a b : CAKeySet) : Prop := WithoutSecrets a = WithoutSecrets b.
Lemma WithoutSecrets_idemp ks : WithoutSecrets (WithoutSecrets ks) = WithoutSecrets ks.
Proof. unfold WithoutSecrets. cbn. by rewrite !map_map. Qed.

Lemma GetCertAuthority_public t domain s ca : GetCertAuthority t domain false s = Ok ca ↔
  CertAuthID_Check t domain = Ok () ∧ ∃ actual valid, s !! (t, domain) = Some actual ∧
    ValidateCertAuthority actual = Ok valid ∧ ca = RemoveCASecrets valid.
Proof.
  unfold GetCertAuthority. rewrite result_check_Ok. apply and_iff_compat_l.
  destruct (s !! _) as [actual|]; [|naive_solver]. rewrite result_bind_Ok. naive_solver.
Qed.

(** A remote cluster that rotates its authority replaces the public keys stored
    for it and nothing else: never an authority of the local cluster, and no
    authority that is not stored yet. *)
Theorem RotateExternal_correct clusterName c s s' :
  keyed s → RotateExternalCertAuthority clusterName (Some c) s = Ok s' →
  ca_Name c ≠ clusterName ∧
  (∀ k, k ≠ (ca_Type c, ca_Name c) → s' !! k = s !! k) ∧
  is_Some (s !! (ca_Type c, ca_Name c)) ∧
  ∃ new, s' !! (ca_Type c, ca_Name c) = Some new ∧
    same_public (ActiveKeys new) (ActiveKeys c) ∧
    same_public (AdditionalTrustedKeys new) (AdditionalTrustedKeys c).
Proof.
  intros Hk. unfold RotateExternalCertAuthority. destruct (String.eqb_spec (ca_Name c) clusterName); [done|].
  rewrite result_bind_Ok. intros (existing & Hg & Hu). split; [done|].
  apply GetCertAuthority_public in Hg as (_ & actual & valid & Hs & Hv & ->).
  rewrite result_bind_Ok in Hu. destruct Hu as (u1 & Hu1 & Hu). apply SetActiveKeys_Ok in Hu1 as [_ ->].
  rewrite result_bind_Ok in Hu. destruct Hu as (u2 & Hu2 & Hu). apply SetAdditionalTrustedKeys_Ok in Hu2 as [_ ->].
  rewrite result_bind_Ok in Hu. destruct Hu as (u3 & Hu3 & Hu).
  apply CA_CheckAndSetDefaults_Ok in Hu3 as (_ & _ & _ & _ & r & _ & ->). cbn in Hu.
  pose proof (Validate_key _ _ Hv) as (E1 & E2 & E3 & E4). specialize (Hk _ _ Hs) as Ek. injection Ek as Et En.
  case_bool_decide as Eq.
  - injection Hu as <-. split; [done|]. split; [by eexists|]. exists actual. split; [done|].
    injection Eq as Ea Eb _. unfold same_public. rewrite <- E3, <- E4, <- Ea, <- Eb. by rewrite !WithoutSecrets_idemp.
  - apply CompareAndSwap_Ok in Hu as (new & actual' & Hv' & Hs' & _ & ->).
    pose proof (Validate_key _ _ Hv') as (F1 & F2 & F3 & F4). cbn in F1, F2, F3, F4.
    rewrite F1, F2, E1, E2, <- Et, <- En. split; [intros k Hkn; by apply lookup_insert_ne|].
    split; [by eexists|]. exists new. rewrite lookup_insert_eq, F3, F4. done.
Qed.
End external.
