(* ===== verification/Labels.v ===== *)
(** * Label and selector matching (lib/services/role.go, lib/utils/replace.go, api/utils/slices.go)

    Selectors match a resource's labels by key and by value, the values being
    globs or regular expressions. Go iterates over a map in an unspecified
    order: [MapOrder] gives the order of a run, and the theorems hold for
    every order. *)

From Stdlib Require Import Ascii String.
From S2P Require Import Prelude.
From S2P Require Import Keys.
Local Open Scope string_scope.

(** ** Strings *)

Definition Wildcard : string := "*".
Definition newline : ascii := Ascii.ascii_of_nat 10.
Definition backslash : ascii := Ascii.ascii_of_nat 92.

(** [apiutils.SliceContainsStr]. *)
Definition SliceContainsStr (slice : list string) (value : string) : bool :=
  existsb (String.eqb value) slice.

(** The loop of [apiutils.Deduplicate]: [seen] holds what was kept. *)
Fixpoint Deduplicate_loop (in_ : list string) (out : list string) (seen : gset string) : list string :=
  match in_ with
  | [] => out
  | val :: in_ =>
      if bool_decide (val ∈ seen) then Deduplicate_loop in_ out seen
      else Deduplicate_loop in_ (out ++ [val])%list ({[ val ]} ∪ seen)
  end.
Definition Deduplicate (in_ : list string) : list string :=
  match in_ with [] => [] | _ => Deduplicate_loop in_ [] ∅ end.

(** [strings.HasPrefix(e, "^")] and [strings.HasSuffix(e, "$")]. *)
Definition starts_caret (e : string) : bool :=
  match e with String c _ => Ascii.eqb c "^" | EmptyString => false end.
Fixpoint ends_dollar (e : string) : bool :=
  match e with
  | EmptyString => false
  | String c EmptyString => Ascii.eqb c "$"
  | String _ e => ends_dollar e
  end.
Definition is_raw_regexp (e : string) : bool := starts_caret e && ends_dollar e.

(** ** Globs and regular expressions *)

(** The characters [regexp.QuoteMeta] escapes. *)
Definition is_meta (c : ascii) : bool :=
  existsb (Ascii.eqb c) (String.list_ascii_of_string "\.+*?()|[]{}^$").

(** Quotes the input, then turns escaped stars into groups of any text: an
    escaped star can only come from a star of the input. *)
Fixpoint GlobToRegexp (in_ : string) : string :=
  match in_ with
  | EmptyString => ""
  | String c rest =>
      if Ascii.eqb c "*" then "(.*)" ++ GlobToRegexp rest
      else if is_meta c then String backslash (String c (GlobToRegexp rest))
      else String c (GlobToRegexp rest)
  end.

(** What a glob means: a star is any text of one line. *)
Fixpoint glob_match (g : string) : string → bool :=
  match g with
  | EmptyString => fun s => match s with EmptyString => true | _ => false end
  | String c g' =>
      if Ascii.eqb c "*" then
        fix star (s : string) : bool :=
          glob_match g' s ||
          match s with
          | EmptyString => false
          | String d s' => negb (Ascii.eqb d newline) && star s'
          end
      else fun s =>
        match s with
        | EmptyString => false
        | String d s' => Ascii.eqb c d && glob_match g' s'
        end
  end.

Definition utf8_string (s : string) : bool := utf8_Valid (bytes_of_string s).

(** Go's regexp package: [re_Match expr input] is the match of a compiled
    expression, [None] when it does not compile. *)
Class Regexp := { re_Match : string → string → option bool }.

(** The expressions [GlobToRegexp] makes compile and match what the glob does,
    on valid UTF-8. *)
Class RegexpLaws `{Regexp} : Prop := {
  re_glob : ∀ g s, utf8_string g = true → utf8_string s = true →
    re_Match ("^" ++ GlobToRegexp g ++ "$") s = Some (glob_match g s)
}.

Abbreviation Labels := (gmap string (list string)).

(** The order in which [for k, v := range m] visits a map. *)
Class MapOrder := { map_order : Labels → list (string * list string) }.
Class MapOrderLaws `{MapOrder} : Prop := {
  map_order_perm : ∀ m, map_order m ≡ₚ map_to_list m
}.

Section matching.
Context `{Regexp}.

Definition err_regexp : error := Error BadParameter "regexp".

(** An expression as compiled: a glob unless it is written as [^...$]. *)
Definition anchored (expression : string) : string :=
  if negb (starts_caret expression) || negb (ends_dollar expression)
  then "^" ++ GlobToRegexp expression ++ "$" else expression.

Fixpoint SliceMatchesRegex (input : string) (expressions : list string) : result bool :=
  match expressions with
  | [] => Ok false
  | expression :: rest =>
      match re_Match (anchored expression) input with
      | None => Err err_regexp
      | Some true => Ok true
      | Some false => SliceMatchesRegex input rest
      end
  end.

(** ** Selectors *)

Definition MatchNamespace (selectors : list string) (namespace : string) : bool :=
  existsb (fun n => String.eqb n namespace || String.eqb n Wildcard) selectors.
Definition MatchAWSRoleARN (selectors : list string) (roleARN : string) : bool :=
  existsb (fun l => String.eqb l roleARN) selectors.
Definition MatchDatabaseName (selectors : list string) (name : string) : bool :=
  existsb (fun n => String.eqb n name || String.eqb n Wildcard) selectors.
Definition MatchDatabaseUser (selectors : list string) (user : string) : bool :=
  existsb (fun u => String.eqb u user || String.eqb u Wildcard) selectors.

Definition defaults_Namespace : string := "default".
Definition ProcessNamespace (namespace : string) : string :=
  if String.eqb namespace "" then defaults_Namespace else namespace.

Context `{MapOrder}.

(** The full match of [MatchLabels], on the entries in the order visited. *)
Fixpoint MatchLabels_loop (entries : list (string * list string)) (target : gmap string string) :
    result bool :=
  match entries with
  | [] => Ok true
  | (key, selectorValues) :: entries =>
      match target !! key with
      | None => Ok false
      | Some targetVal =>
          if negb (SliceContainsStr selectorValues Wildcard) then
            match SliceMatchesRegex targetVal selectorValues with
            | Err e => Err e
            | Ok false => Ok false
            | Ok true => MatchLabels_loop entries target
            end
          else MatchLabels_loop entries target
      end
  end.

Definition selects_all (selector : Labels) : bool :=
  match selector !! Wildcard with
  | Some [v] => String.eqb v Wildcard
  | _ => false
  end.

(** The messages, which only go to the debug log, are left out. *)
Definition MatchLabels (selector : Labels) (target : gmap string string) : result bool :=
  if bool_decide (selector = ∅) then Ok false else
  if selects_all selector then Ok true else
  MatchLabels_loop (map_order selector) target.
End matching.

(** ** Lemmas *)
Local Open Scope list_scope.

Lemma SliceContainsStr_true slice v : SliceContainsStr slice v = true ↔ v ∈ slice.
Proof.
  unfold SliceContainsStr. rewrite existsb_elem. setoid_rewrite String.eqb_eq. naive_solver.
Qed.

Lemma MatchNamespace_true selectors n :
  MatchNamespace selectors n = true ↔ n ∈ selectors ∨ Wildcard ∈ selectors.
Proof.
  unfold MatchNamespace. rewrite existsb_elem. setoid_rewrite orb_true_iff.
  setoid_rewrite String.eqb_eq. naive_solver.
Qed.

Lemma Deduplicate_loop_spec in_ out seen :
  (∀ x, x ∈ seen ↔ x ∈ out) → NoDup out →
  NoDup (Deduplicate_loop in_ out seen) ∧
  (∀ x, x ∈ Deduplicate_loop in_ out seen ↔ x ∈ out ∨ x ∈ in_) ∧
  ∃ t, Deduplicate_loop in_ out seen = out ++ t ∧ t `sublist_of` in_.
Proof.
  revert out seen. induction in_ as [|v in_ IH]; intros out seen Hs Hnd; cbn [Deduplicate_loop].
  { split_and!; [done| |exists []; split; [by rewrite app_nil_r|done]].
    intros x. split; [by left|intros [|Hx]; [done|by apply not_elem_of_nil in Hx]]. }
  case_bool_decide as Hv.
  - destruct (IH out seen Hs Hnd) as (H1 & H2 & t & H3 & H4). split_and!; [done| |].
    + intros x. rewrite H2, elem_of_cons. split; [tauto|]. intros [|[->|]]; [tauto|left; by apply Hs|tauto].
    + exists t. split; [done|by constructor].
  - destruct (IH (out ++ [v]) ({[v]} ∪ seen)) as (H1 & H2 & t & H3 & H4).
    + intros x. rewrite elem_of_union, elem_of_singleton, elem_of_app, list_elem_of_singleton, Hs. tauto.
    + apply NoDup_app. split_and!; [done| |apply NoDup_singleton].
      intros x Hx ->%list_elem_of_singleton. by apply Hv, Hs.
    + split_and!; [done| |].
      * intros x. rewrite H2, elem_of_app, list_elem_of_singleton, elem_of_cons. tauto.
      * exists (v :: t). rewrite H3, <- app_assoc. split; [done|by constructor].
Qed.

Lemma Deduplicate_spec l :
  NoDup (Deduplicate l) ∧ (∀ x, x ∈ Deduplicate l ↔ x ∈ l) ∧ Deduplicate l `sublist_of` l.
Proof.
  destruct (Deduplicate_loop_spec l [] ∅) as (H1 & H2 & t & H3 & H4).
  { intros x. split; [by intros ?%elem_of_empty|by intros ?%not_elem_of_nil]. }
  { constructor. }
  destruct l as [|v l]; [by split_and!|]. unfold Deduplicate. split_and!; [done| |].
  - intros x. rewrite H2. split; [|by right]. intros [Hx|]; [by apply not_elem_of_nil in Hx|done].
  - rewrite H3. done.
Qed.

Section lemmas.
Context `{RegexpLaws} `{MapOrderLaws}.

(** A value lies under one of a list of globs. *)
Definition globs_match (vs : list string) (s : string) : bool := existsb (fun g => glob_match g s) vs.

Lemma SliceMatchesRegex_globs s vs :
  utf8_string s = true → Forall (fun g => utf8_string g = true ∧ is_raw_regexp g = false) vs →
  SliceMatchesRegex s vs = Ok (globs_match vs s).
Proof.
  intros Hs. induction 1 as [|g vs [Hg Hr] _ IH]; [done|]. cbn [SliceMatchesRegex].
  unfold anchored. unfold is_raw_regexp in Hr. apply andb_false_iff in Hr.
  assert (negb (starts_caret g) || negb (ends_dollar g) = true) as ->
    by (destruct Hr as [-> | ->]; [done|apply orb_true_r]).
  rewrite re_glob by done. unfold globs_match. cbn [existsb]. destruct (glob_match g s); [done|].
  exact IH.
Qed.

(** The match of one entry of a selector. *)
Definition entry_matches (target : gmap string string) (e : string * list string) : Prop :=
  ∃ tv, target !! e.1 = Some tv ∧
    (Wildcard ∈ e.2 ∨ SliceMatchesRegex tv e.2 = Ok true).

#[export] Instance entry_matches_dec target e : Decision (entry_matches target e).
Proof.
  unfold entry_matches. destruct (target !! e.1) as [tv|]; [|by right; intros (? & ? & _)].
  destruct (decide (Wildcard ∈ e.2)); [left; eauto|].
  destruct (SliceMatchesRegex tv e.2) as [[]|] eqn:Hm; [left; eauto|right|right];
    intros (tv' & [= <-] & [|Hx]); congruence.
Defined.

(** No expression of a selector fails to compile on its target's values. *)
Definition compiles (selector : Labels) (target : gmap string string) : Prop :=
  ∀ k vs tv, selector !! k = Some vs → target !! k = Some tv → Wildcard ∉ vs →
    is_Ok (SliceMatchesRegex tv vs) = true.

Lemma MatchLabels_loop_spec entries target :
  (∀ k vs tv, (k, vs) ∈ entries → target !! k = Some tv → Wildcard ∉ vs →
     is_Ok (SliceMatchesRegex tv vs) = true) →
  MatchLabels_loop entries target = Ok (bool_decide (Forall (entry_matches target) entries)).
Proof.
  induction entries as [|[k vs] entries IH]; intros Hc; cbn [MatchLabels_loop].
  { by rewrite bool_decide_eq_true_2. }
  assert (MatchLabels_loop entries target = Ok (bool_decide (Forall (entry_matches target) entries))) as HI.
  { apply IH. intros k' vs' tv Hin. apply Hc. by right. }
  assert (¬ entry_matches target (k, vs) →
    Ok false = Ok (bool_decide (Forall (entry_matches target) ((k, vs) :: entries)))) as Hno.
  { intros Hn. rewrite bool_decide_eq_false_2; [done|]. by intros [? _]%Forall_cons. }
  assert (entry_matches target (k, vs) → MatchLabels_loop entries target =
    Ok (bool_decide (Forall (entry_matches target) ((k, vs) :: entries)))) as Hyes.
  { intros Hy. rewrite HI. f_equal. apply bool_decide_ext. rewrite Forall_cons. tauto. }
  destruct (target !! k) as [tv|] eqn:Htv; last first.
  { apply Hno. intros (tv & Hx & _). cbn in Hx. congruence. }
  destruct (SliceContainsStr vs Wildcard) eqn:Hw; cbn [negb].
  { apply Hyes. exists tv. split; [done|]. left. by apply SliceContainsStr_true. }
  assert (Wildcard ∉ vs) as Hnw.
  { intros Hx%SliceContainsStr_true. congruence. }
  pose proof (Hc k vs tv ltac:(by left) Htv Hnw) as Hok.
  destruct (SliceMatchesRegex tv vs) as [[]|] eqn:Hm; [| |done].
  - apply Hyes. exists tv. by split; [|right].
  - apply Hno. intros (tv' & Hx & [|Hy]); cbn in *; congruence.
Qed.

Lemma MatchLabels_spec selector target :
  compiles selector target →
  MatchLabels selector target = Ok (bool_decide (selector ≠ ∅ ∧
    (selects_all selector = true ∨ map_Forall (fun k vs => entry_matches target (k, vs)) selector))).
Proof.
  intros Hc. unfold MatchLabels. case_bool_decide as He.
  { rewrite bool_decide_eq_false_2; [done|]. tauto. }
  destruct (selects_all selector) eqn:Ha.
  { rewrite bool_decide_eq_true_2; [done|]. tauto. }
  rewrite MatchLabels_loop_spec.
  - f_equal. apply bool_decide_ext. rewrite map_order_perm, map_Forall_to_list.
    assert (Forall (entry_matches target) (map_to_list selector) ↔
      Forall (uncurry (fun k vs => entry_matches target (k, vs))) (map_to_list selector)) as ->.
    { apply Forall_iff. by intros []. }
    split; [tauto|]. intros [_ [|]]; [done|tauto].
  - intros k vs tv. rewrite map_order_perm. intros Hin%elem_of_map_to_list. by apply Hc.
Qed.
End lemmas.

(** ** Properties *)

(** selectors. When the expressions compile, the result of [MatchLabels]
    does not depend on the order in which the map is visited: an empty
    selector matches nothing, [*: *] matches everything, and any other matches
    the resources that have every key, with a value the entry accepts. *)
Theorem MatchLabels_correct `{RegexpLaws} `{MapOrderLaws} selector target :
  compiles selector target →
  ∃ b, MatchLabels selector target = Ok b ∧
    (b = true ↔ selector ≠ ∅ ∧
      (selector !! Wildcard = Some [Wildcard] ∨
       ∀ k vs, selector !! k = Some vs → ∃ tv, target !! k = Some tv ∧
         (Wildcard ∈ vs ∨ SliceMatchesRegex tv vs = Ok true))).
Proof.
  intros Hc. eexists. split; [by apply MatchLabels_spec|]. rewrite bool_decide_eq_true.
  assert (selects_all selector = true ↔ selector !! Wildcard = Some [Wildcard]) as ->; [|done].
  unfold selects_all. destruct (selector !! Wildcard) as [[|v []]|]; try done.
  rewrite String.eqb_eq. split; [by intros ->|by intros [= ->]].
Qed.

(** Plain values of a selector, those not written as [^...$], never fail to
    compile and are globs: a star stands for any text of one line, every other
    character for itself. *)
Theorem plain_values_are_globs `{RegexpLaws} s vs :
  utf8_string s = true → Forall (fun g => utf8_string g = true ∧ is_raw_regexp g = false) vs →
  SliceMatchesRegex s vs = Ok (existsb (fun g => glob_match g s) vs).
Proof. apply SliceMatchesRegex_globs. Qed.

(** [Deduplicate] keeps one occurrence of each string, in the order of the
    list. *)
Theorem Deduplicate_correct l :
  NoDup (Deduplicate l) ∧ (∀ x, x ∈ Deduplicate l ↔ x ∈ l) ∧ Deduplicate l `sublist_of` l.
Proof. apply Deduplicate_spec. Qed.
