(* ===== verification/Parse.v ===== *)
(** * Expressions of traits and matchers (lib/utils/parse/parse.go)

    Templates such as [prefix{{external.trait}}suffix] in roles become
    expressions over the traits of a user, or matchers of strings. The syntax of
    Go expressions, the quoting of Go strings, addresses of mail and regular
    expressions are libraries, given by classes. *)

From Stdlib Require Import Ascii String.
From S2P Require Import Prelude.
From S2P Require Import Keys.
From S2P Require Import Labels.
Local Open Scope string_scope.
#[local] Set Warnings "-register-all".

(** ** Strings *)

(** [strings.Contains], [strings.TrimPrefix], [strings.TrimSuffix]. *)
Fixpoint str_contains (s sub : string) : bool :=
  String.prefix sub s || match s with EmptyString => false | String _ s => str_contains s sub end.
Fixpoint drop (n : nat) (s : string) : string :=
  match n, s with S n, String _ s => drop n s | _, _ => s end.
Definition TrimPrefix (s p : string) : string := if String.prefix p s then drop (String.length p) s else s.
Definition str_rev (s : string) : string := String.string_of_list_ascii (rev (String.list_ascii_of_string s)).
Definition HasSuffix (s suffix : string) : bool := String.prefix (str_rev suffix) (str_rev s).
Definition TrimSuffix (s suffix : string) : string := str_rev (TrimPrefix (str_rev s) (str_rev suffix)).

(** The white space of [unicode.IsSpace], in UTF-8. *)
Definition bytes_string (l : list nat) : string := String.string_of_list_ascii (map ascii_of_nat l).
Definition spaces : list string :=
  map bytes_string
    ([[9]; [10]; [11]; [12]; [13]; [32]; [194; 133]; [194; 160]; [225; 154; 128]; [226; 128; 168]; [226; 128; 169];
      [226; 128; 175]; [226; 129; 159]; [227; 128; 128]] ++ map (fun n => [226; 128; 128 + n]) (seq 0 11))%list.
Fixpoint trim_left (fuel : nat) (spaces : list string) (s : string) : string :=
  match fuel with
  | O => s
  | S fuel =>
      match List.find (fun sp => String.prefix sp s) spaces with
      | Some sp => trim_left fuel spaces (drop (String.length sp) s)
      | None => s
      end
  end.
(** [strings.TrimLeftFunc] and [strings.TrimRightFunc] with [unicode.IsSpace]. *)
Definition TrimLeftSpace (s : string) : string := trim_left (String.length s) spaces s.
Definition TrimRightSpace (s : string) : string :=
  str_rev (trim_left (String.length s) (map str_rev spaces) (str_rev s)).

Definition is_brace (c : ascii) : bool := Ascii.eqb c "{" || Ascii.eqb c "}".
(** The longest start without braces, and what follows. *)
Fixpoint span (s : string) : string * string :=
  match s with
  | EmptyString => ("", "")
  | String c s' => if is_brace c then ("", s) else let '(a, b) := span s' in (String c a, b)
  end.

(** [reVariable.FindStringSubmatch]: prefix, expression and suffix. *)
Definition reVariable (s : string) : option (string * string * string) :=
  let '(prefix, rest) := span s in
  match rest with
  | String "{" (String "{" rest) =>
      let '(expression, rest) := span rest in
      match rest with
      | String "}" (String "}" rest) =>
          match span rest with (suffix, EmptyString) => Some (prefix, expression, suffix) | _ => None end
      | _ => None
      end
  | _ => None
  end.

(** ** Expressions *)

(** The nodes of Go's syntax tree that [walk] tells apart. *)
Inductive Expr :=
  | CallExpr (Fun : Expr) (Args : list Expr)
  | SelectorExpr (X : Expr) (Sel : string)
  | IndexExpr (X Index : Expr)
  | Ident (Name : string)
  | BasicLit (is_string : bool) (Value : string)
  | OtherExpr.

(** Libraries: Go's expression parser, [strconv.Unquote], the address of
    [mail.ParseAddress], compilation and replacement of regular expressions. *)
Class GoLibs := {
  ParseExpr : string → result Expr;
  Unquote : string → result string;
  ParseAddress : string → result string;
  re_Compiles : string → bool;
  ReplaceAllString : string → string → string → string
}.

(** An expression compiles when it can be matched with any input. *)
Class GoLibsLaws `{GoLibs} `{Regexp} : Prop := {
  re_Compiles_Match : ∀ re s, re_Compiles re = true ↔ is_Some (re_Match re s)
}.

Inductive transformer := emailLocalTransformer | regexpReplaceTransformer (re replacement : string).

(** Matchers; [None] in a template is a match that was never set. *)
Inductive Matcher :=
  | regexpMatcher (re : string)
  | notMatcher (m : Matcher)
  | prefixSuffixMatcher (prefix suffix : string) (m : option Matcher)
  | literalMatcher (value : string).

Record Expression := MkExpression {
  namespace : string; variable : string; prefix : string; suffix : string; transform : option transformer
}.
Record walkResult := MkWalk {
  parts : list string; wr_transform : option transformer; wr_match : option Matcher
}.

Definition LiteralNamespace : string := "literal".
Definition EmailNamespace : string := "email".
Definition EmailLocalFnName : string := "local".
Definition RegexpNamespace : string := "regexp".
Definition RegexpMatchFnName : string := "match".
Definition RegexpNotMatchFnName : string := "not_match".
Definition RegexpReplaceFnName : string := "replace".
Definition maxASTDepth : Z := 1000.

Section parse.
Context `{GoLibs} `{Regexp}.

Definition getBasicString (arg : Expr) : option string :=
  match arg with
  | BasicLit true v => match Unquote v with Ok s => Some s | Err _ => None end
  | _ => None
  end.

Definition newRegexpMatcher (raw : string) (escape : bool) : result Matcher :=
  let raw := if escape then anchored raw else raw in
  if re_Compiles raw then Ok (regexpMatcher raw) else Err (Error BadParameter "failed parsing regexp %q: %v").

Definition newRegexpReplaceTransformer (expression replacement : string) : result transformer :=
  if re_Compiles expression then Ok (regexpReplaceTransformer expression replacement)
  else Err (Error BadParameter "failed parsing regexp %q: %v").

Definition err_depth : error := Error LimitExceeded "expression exceeds the maximum allowed depth".
Definition err_args : error := Error BadParameter "expected %v arguments for %v.%v got %v".
Definition err_quoted : error := Error BadParameter "argument to %v.%v must be a properly quoted string literal".

(** A call [ns.fn(args)]: [walk_arg] walks its first argument. *)
Definition walk_call (ns fn : string) (args : list Expr) (walk_arg : result walkResult) : result walkResult :=
  if String.eqb ns EmailNamespace then
    if negb (String.eqb fn EmailLocalFnName)
    then Err (Error BadParameter "unsupported function %v.%v, supported functions are: email.local") else
    if negb (length args =? 1)%nat then Err err_args else
    ret ← walk_arg; Ok (MkWalk (parts ret) (Some emailLocalTransformer) None)
  else if String.eqb ns RegexpNamespace then
    if String.eqb fn RegexpMatchFnName || String.eqb fn RegexpNotMatchFnName then
      match args with
      | [arg] =>
          match getBasicString arg with
          | None => Err err_quoted
          | Some re =>
              m ← newRegexpMatcher re false;
              Ok (MkWalk [] None (Some (if String.eqb fn RegexpNotMatchFnName then notMatcher m else m)))
          end
      | _ => Err err_args
      end
    else if String.eqb fn RegexpReplaceFnName then
      match args with
      | [_; expression; replacement] =>
          ret ← walk_arg;
          match getBasicString expression, getBasicString replacement with
          | Some expression, Some replacement =>
              t ← newRegexpReplaceTransformer expression replacement;
              Ok (MkWalk (parts ret) (Some t) None)
          | _, _ => Err err_quoted
          end
      | _ => Err err_args
      end
    else Err (Error BadParameter "unsupported function %v.%v, supported functions are: regexp.match, regexp.not_match")
  else Err (Error BadParameter "unsupported function namespace %v, supported namespaces are %v and %v").

Fixpoint walk (node : Expr) (depth : Z) : result walkResult :=
  if (depth >? maxASTDepth)%Z then Err err_depth else
  match node with
  | CallExpr (Ident _) _ => Err (Error BadParameter "function %v is not supported")
  | CallExpr (SelectorExpr (Ident ns) fn) args =>
      walk_call ns fn args (match args with arg :: _ => walk arg (depth + 1) | [] => Err err_args end)
  | CallExpr (SelectorExpr _ _) _ => Err (Error BadParameter "expected namespace, e.g. email.local, got %v")
  | CallExpr _ _ => Err (Error BadParameter "unsupported function %T")
  | IndexExpr x i =>
      a ← walk x (depth + 1); b ← walk i (depth + 1); Ok (MkWalk (parts a ++ parts b)%list None None)
  | SelectorExpr x sel =>
      a ← walk x (depth + 1);
      if (depth + 1 >? maxASTDepth)%Z then Err err_depth else Ok (MkWalk (parts a ++ [sel])%list None None)
  | Ident name => Ok (MkWalk [name] None None)
  | BasicLit true v => s ← Unquote v; Ok (MkWalk [s] None None)
  | BasicLit false v => Ok (MkWalk [v] None None)
  | OtherExpr => Err (Error BadParameter "unknown node type: %T")
  end.

Definition uses_template (s : string) : bool := str_contains s "{{" || str_contains s "}}".

Definition NewExpression (v : string) : result Expression :=
  match reVariable v with
  | None =>
      if uses_template v
      then Err (Error BadParameter "%q is using template brackets '{{' or '}}', however expression does not parse, make sure the format is {{variable}}")
      else Ok (MkExpression LiteralNamespace v "" "" None)
  | Some (pre, v, suf) =>
      match ParseExpr v with
      | Err _ => Err (Error NotFound "no variable found in %q: %v")
      | Ok expr =>
          result ← walk expr 0;
          match parts result with
          | [ns; name] =>
              match wr_match result with
              | Some _ => Err (Error NotFound "matcher functions (like regexp.match) are not allowed here: %q")
              | None => Ok (MkExpression ns name (TrimLeftSpace pre) (TrimRightSpace suf) (wr_transform result))
              end
          | _ => Err (Error NotFound "no variable found: %v")
          end
      end
  end.

Definition re_matches (re s : string) : bool := default false (re_Match re s).

(** [strings.SplitN(addr, "@", 2)]: what stands before the first one, if any. *)
Fixpoint before_at (s : string) : option string :=
  match s with
  | EmptyString => None
  | String c s => if Ascii.eqb c "@" then Some "" else String c <$> before_at s
  end.
Definition transform_value (t : transformer) (s : string) : result string :=
  match t with
  | emailLocalTransformer =>
      if String.eqb s "" then Err (Error BadParameter "address is empty") else
      match ParseAddress s with
      | Err _ => Err (Error BadParameter "failed to parse address %q: %q")
      | Ok addr =>
          match before_at addr with
          | None => Err (Error BadParameter "could not find local part in %q")
          | Some l => Ok l
          end
      end
  | regexpReplaceTransformer re replacement =>
      if negb (re_matches re s) then Ok "" else Ok (ReplaceAllString re s replacement)
  end.

Fixpoint interpolate_values (p : Expression) (values : list string) : result (list string) :=
  match values with
  | [] => Ok []
  | v :: values =>
      v ← match transform p with Some t => transform_value t v | None => Ok v end;
      out ← interpolate_values p values;
      Ok (if String.eqb v "" then out else (prefix p ++ v ++ suffix p) :: out)
  end.
Definition Interpolate (p : Expression) (traits : gmap string (list string)) : result (list string) :=
  if String.eqb (namespace p) LiteralNamespace then Ok [variable p] else
  match traits !! variable p with
  | None => Err (Error NotFound "variable is not found")
  | Some values => interpolate_values p values
  end.

(** ** Matchers *)

Definition NewMatcher (value : string) : result Matcher :=
  match reVariable value with
  | None =>
      if uses_template value
      then Err (Error BadParameter "%q is using template brackets '{{' or '}}', however expression does not parse, make sure the format is {{expression}}")
      else newRegexpMatcher value true
  | Some (pre, v, suf) =>
      match ParseExpr v with
      | Err _ => Err (Error BadParameter "failed to parse %q: %v")
      | Ok expr =>
          result ← walk expr 0;
          if match wr_transform result with Some _ => true | None => false end || negb (length (parts result) =? 0)%nat
          then Err (Error BadParameter "%q is not a valid matcher expression - no variables and transformations are allowed")
          else Ok (prefixSuffixMatcher pre suf (wr_match result))
      end
  end.

(** [None] is the panic of a match that was never set. *)
Fixpoint Match (m : Matcher) (s : string) : option bool :=
  match m with
  | regexpMatcher re => Some (re_matches re s)
  | notMatcher m => negb <$> Match m s
  | prefixSuffixMatcher pre suf inner =>
      if negb (String.prefix pre s) || negb (HasSuffix s suf) then Some false else
      match inner with None => None | Some m => Match m (TrimSuffix (TrimPrefix s pre) suf) end
  | literalMatcher value => Some (String.eqb value s)
  end.

(** The loop of a list of matchers, which stops at the first that matches. *)
Fixpoint match_any (ms : list Matcher) (s : string) : option bool :=
  match ms with
  | [] => Some false
  | m :: ms => match Match m s with Some false => match_any ms s | r => r end
  end.
Fixpoint NewMatchers (values : list string) : result (list Matcher) :=
  match values with
  | [] => Ok []
  | v :: values => m ← NewMatcher v; ms ← NewMatchers values; Ok (m :: ms)
  end.
(** The matcher is applied as [match_any]. *)
Definition NewAnyMatcher (in_ : list string) : result (list Matcher) := NewMatchers in_.
End parse.

(** ** Theorems *)

Definition no_brace (s : string) : Prop := ∀ c, c ∈ String.list_ascii_of_string s → is_brace c = false.

Lemma no_brace_cons c s : no_brace (String c s) ↔ is_brace c = false ∧ no_brace s.
Proof. unfold no_brace. cbn. setoid_rewrite elem_of_cons. naive_solver. Qed.

Lemma string_app_nil_r s : s ++ "" = s.
Proof. induction s as [|c s IH]; [done|]. change (String c s ++ "") with (String c (s ++ "")). by rewrite IH. Qed.
(** [span] stops at the first brace. *)
Lemma span_app s rest : no_brace s → (rest = "" ∨ ∃ c r, rest = String c r ∧ is_brace c = true) →
  span (s ++ rest) = (s, rest).
Proof.
  intros Hs Hr. induction s as [|c s IH].
  - change ("" ++ rest) with rest. destruct Hr as [->|(c & r & -> & Hc)]; cbn [span]; [done|by rewrite Hc].
  - apply no_brace_cons in Hs as [Hc Hs]. change (String c s ++ rest) with (String c (s ++ rest)).
    cbn [span]. by rewrite Hc, IH.
Qed.
Lemma span_spec s : let '(a, b) := span s in
  s = a ++ b ∧ no_brace a ∧ (b = "" ∨ ∃ c r, b = String c r ∧ is_brace c = true).
Proof.
  induction s as [|c s IH]; cbn [span].
  - split_and!; [done|by intros ? ?%elem_of_nil|by left].
  - destruct (is_brace c) eqn:Hc.
    + split_and!; [done|by intros ? ?%elem_of_nil|eauto].
    + destruct (span s) as [a b]. destruct IH as (-> & Ha & Hb).
      split_and!; [done|by apply no_brace_cons|done].
Qed.

Definition template (pre e suf : string) : string := pre ++ "{{" ++ e ++ "}}" ++ suf.

(** A string is read as a template exactly when it is a prefix, an expression
    in double braces and a suffix, none with a brace; the parts are determined. *)
Theorem reVariable_correct s pre e suf :
  reVariable s = Some (pre, e, suf) ↔ s = template pre e suf ∧ no_brace pre ∧ no_brace e ∧ no_brace suf.
Proof.
  unfold template. split.
  - unfold reVariable. pose proof (span_spec s) as Hs. destruct (span s) as [a b]. destruct Hs as (-> & Ha & _).
    destruct b as [|[[] [] [] [] [] [] [] []] b]; try done. destruct b as [|[[] [] [] [] [] [] [] []] b]; try done.
    pose proof (span_spec b) as Hb. destruct (span b) as [e' c]. destruct Hb as (-> & He & _).
    destruct c as [|[[] [] [] [] [] [] [] []] c]; try done. destruct c as [|[[] [] [] [] [] [] [] []] c]; try done.
    pose proof (span_spec c) as Hc. destruct (span c) as [f d]. destruct Hc as (-> & Hf & _).
    destruct d; [|done]. intros [= <- <- <-]. by rewrite string_app_nil_r.
  - intros (-> & Hp & He & Hs). unfold reVariable.
    rewrite (span_app pre) by (try done; right; by eexists _, _).
    change ("{{" ++ e ++ "}}" ++ suf) with (String "{" (String "{" (e ++ "}}" ++ suf))). cbv iota.
    rewrite (span_app e) by (try done; right; by eexists _, _).
    change ("}}" ++ suf) with (String "}" (String "}" suf)). cbv iota.
    pose proof (span_app suf "" Hs (or_introl eq_refl)) as E. rewrite string_app_nil_r in E. by rewrite E.
Qed.

Section matchers.
Context `{GoLibs} `{Regexp}.

(** A matcher written without a template, and not as a regular expression,
    compiles and matches what the glob matches. *)
Theorem NewMatcher_glob `{!GoLibsLaws} `{!RegexpLaws} v s :
  uses_template v = false → is_raw_regexp v = false → utf8_string v = true → utf8_string s = true →
  ∃ m, NewMatcher v = Ok m ∧ Match m s = Some (glob_match v s).
Proof.
  intros Ht Hr Hv Hs. unfold NewMatcher.
  destruct (reVariable v) as [[[pre e] suf]|] eqn:E.
  { apply reVariable_correct in E as (-> & _). exfalso. revert Ht. apply not_false_iff_true.
    unfold uses_template, template. apply orb_true_iff. left. clear. induction pre as [|c pre IH].
    { change ("" ++ ?x) with x.
      change ("{{" ++ e ++ "}}" ++ suf) with (String "{" (String "{" (e ++ "}}" ++ suf))).
      by destruct (e ++ "}}" ++ suf). }
    change (String c pre ++ "{{" ++ e ++ "}}" ++ suf) with (String c (pre ++ "{{" ++ e ++ "}}" ++ suf)).
    cbn [str_contains]. rewrite IH. apply orb_true_r. }
  rewrite Ht. unfold newRegexpMatcher, anchored.
  replace (negb (starts_caret v) || negb (ends_dollar v)) with true
    by (unfold is_raw_regexp in Hr; by destruct (starts_caret v), (ends_dollar v)).
  pose proof (re_glob v s Hv Hs) as Hg.
  rewrite (proj2 (re_Compiles_Match _ s)) by (rewrite Hg; by eexists).
  eexists. split; [done|]. cbn [Match]. unfold re_matches. by rewrite Hg.
Qed.

(** A call of a function on strings, as Go's parser returns it. *)
Definition call (ns fn : string) (args : list Expr) : Expr := CallExpr (SelectorExpr (Ident ns) fn) args.

(** A template that indexes one match with another is accepted, and matching
    a string with its prefix and suffix then fails with a panic. *)
Theorem NewMatcher_panics pre e suf a b re1 re2 s :
  no_brace pre → no_brace e → no_brace suf →
  ParseExpr e = Ok (IndexExpr (call RegexpNamespace RegexpMatchFnName [BasicLit true a])
    (call RegexpNamespace RegexpMatchFnName [BasicLit true b])) →
  Unquote a = Ok re1 → Unquote b = Ok re2 → re_Compiles re1 = true → re_Compiles re2 = true →
  String.prefix pre s = true → HasSuffix s suf = true →
  ∃ m, NewMatcher (template pre e suf) = Ok m ∧ Match m s = None.
Proof.
  intros Hp He Hs Hx Ha Hb H1 H2 Hpre Hsuf. unfold NewMatcher.
  rewrite (proj2 (reVariable_correct _ pre e suf)) by done. rewrite Hx.
  unfold call. cbn -[maxASTDepth]. rewrite Ha, Hb. cbn -[maxASTDepth]. unfold newRegexpMatcher. rewrite H1, H2. cbn.
  eexists. split; [done|]. cbn [Match]. by rewrite Hpre, Hsuf.
Qed.
End matchers.
