(* ===== verification/Role.v ===== *)
(** * Roles (api/types/role.go, api/types/resource.go)

    A role pairs options with conditions that allow and conditions that deny.
    Where the code tells a nil slice or map from an empty one the field is an
    option, [None] being nil; elsewhere only the elements matter. Setters copy
    the slices and maps they are given: values here have no identity, so the
    copy is the value. *)

From Stdlib Require Import Ascii String.
From S2P Require Import Prelude.
From S2P Require Import Keys.
From S2P Require Import Labels.
Local Open Scope string_scope.

(** ** Data *)

Inductive RoleConditionType := Allow | Deny.

Inductive MFAType :=
  | RequireMFAType_OFF
  | RequireMFAType_SESSION
  | RequireMFAType_SESSION_AND_HARDWARE_KEY
  | RequireMFAType_HARDWARE_KEY_TOUCH.
#[export] Instance MFAType_eq_dec : EqDecision MFAType.
Proof. solve_decision. Defined.

(** [RequireMFAType.IsSessionMFARequired]. *)
Definition IsSessionMFARequired (r : MFAType) : bool :=
  bool_decide (r = RequireMFAType_SESSION) ||
  bool_decide (r = RequireMFAType_SESSION_AND_HARDWARE_KEY).

Record Rule := MkRule {
  Resources : list string;
  Verbs : list string;
  rule_Where : string;
  Actions : list string
}.

Record ClaimMapping := MkClaimMapping {
  cm_Claim : string; cm_Value : string; cm_Roles : list string
}.
Record AccessReviewThreshold := MkAccessReviewThreshold {
  th_Name : string; th_Filter : string; th_Approve : Z; th_Deny : Z
}.
Record AccessRequestConditions := MkAccessRequestConditions {
  req_Roles : list string;
  req_ClaimsToRoles : list ClaimMapping;
  req_Annotations : gmap string (list string);
  req_Thresholds : list AccessReviewThreshold;
  req_SuggestedReviewers : list string;
  req_SearchAsRoles : list string
}.
Record AccessReviewConditions := MkAccessReviewConditions {
  rev_Roles : list string;
  rev_ClaimsToRoles : list ClaimMapping;
  rev_Where : string;
  rev_PreviewAsRoles : list string
}.
Record ImpersonateConditions := MkImpersonateConditions {
  imp_Users : list string; imp_Roles : list string; imp_Where : string
}.
Record SessionRequirePolicy := MkSessionRequirePolicy {
  srp_Name : string; srp_Filter : string; srp_Kinds : list string;
  srp_Count : Z; srp_Modes : list string; srp_OnLeave : string
}.
Record SessionJoinPolicy := MkSessionJoinPolicy {
  sjp_Name : string; sjp_Roles : list string; sjp_Kinds : list string; sjp_Modes : list string
}.
Record CertExtension := MkCertExtension {
  ce_Type : Z; ce_Mode : Z; ce_Name : string; ce_Value : string
}.
Record RecordSessionOptions := MkRecordSession {
  rs_Desktop : option bool; rs_Default : string; rs_SSH : string
}.

Record RoleOptions := MkRoleOptions {
  ForwardAgent : bool;
  MaxSessionTTL : Z;
  PortForwarding : option bool;
  CertificateFormat : string;
  ClientIdleTimeout : Z;
  DisconnectExpiredCert : bool;
  BPF : list string;
  PermitX11Forwarding : bool;
  MaxConnections : Z;
  MaxSessions : Z;
  RequestAccess : string;
  RequestPrompt : string;
  RequireSessionMFA : bool;
  Lock : string;
  RecordSession : option RecordSessionOptions;
  DesktopClipboard : option bool;
  CertExtensions : list CertExtension;
  MaxKubernetesConnections : Z;
  DesktopDirectorySharing : option bool;
  CreateHostUser : option bool;
  PinSourceIP : bool;
  SSHFileCopy : option bool;
  RequireMFAType : MFAType
}.

Record RoleConditions := MkRoleConditions {
  Logins : list string;
  Namespaces : option (list string);
  NodeLabels : option Labels;
  Rules : list Rule;
  KubeGroups : list string;
  Request : option AccessRequestConditions;
  KubeUsers : list string;
  AppLabels : option Labels;
  ClusterLabels : option Labels;
  KubernetesLabels : option Labels;
  DatabaseLabels : option Labels;
  DatabaseNames : list string;
  DatabaseUsers : list string;
  Impersonate : option ImpersonateConditions;
  ReviewRequests : option AccessReviewConditions;
  AWSRoleARNs : list string;
  WindowsDesktopLogins : list string;
  WindowsDesktopLabels : option Labels;
  RequireSessionJoin : list SessionRequirePolicy;
  JoinSessions : list SessionJoinPolicy;
  HostGroups : list string;
  HostSudoers : list string
}.

Record Metadata := MkMetadata {
  md_Name : string;
  md_Namespace : string;
  md_Description : string;
  md_Labels : gmap string string;
  md_Expires : option Z;
  md_ID : Z
}.

(** [RoleV5], with its spec's fields. *)
Record Role := MkRole {
  Kind : string;
  SubKind : string;
  Version : string;
  role_Metadata : Metadata;
  Options : RoleOptions;
  AllowConditions : RoleConditions;
  DenyConditions : RoleConditions
}.

(** ** Updates of one field *)

Ltac with_field eta proj :=
  let e := eval unfold eta in eta in
  match eval pattern proj in e with
  | ?F _ => let t := constr:(fun v r => F (fun _ => v) r) in let t := eval cbv beta in t in exact t
  end.

Definition conditions_eta (c : RoleConditions) : RoleConditions :=
  MkRoleConditions (Logins c) (Namespaces c) (NodeLabels c) (Rules c)
    (KubeGroups c) (Request c) (KubeUsers c) (AppLabels c)
    (ClusterLabels c) (KubernetesLabels c) (DatabaseLabels c) (DatabaseNames c)
    (DatabaseUsers c) (Impersonate c) (ReviewRequests c) (AWSRoleARNs c)
    (WindowsDesktopLogins c) (WindowsDesktopLabels c) (RequireSessionJoin c) (JoinSessions c)
    (HostGroups c) (HostSudoers c).
Definition with_Logins : list string → RoleConditions → RoleConditions :=
  ltac:(with_field conditions_eta Logins).
Definition with_Namespaces : option (list string) → RoleConditions → RoleConditions :=
  ltac:(with_field conditions_eta Namespaces).
Definition with_NodeLabels : option Labels → RoleConditions → RoleConditions :=
  ltac:(with_field conditions_eta NodeLabels).
Definition with_Rules : list Rule → RoleConditions → RoleConditions :=
  ltac:(with_field conditions_eta Rules).
Definition with_KubeGroups : list string → RoleConditions → RoleConditions :=
  ltac:(with_field conditions_eta KubeGroups).
Definition with_Request : option AccessRequestConditions → RoleConditions → RoleConditions :=
  ltac:(with_field conditions_eta Request).
Definition with_KubeUsers : list string → RoleConditions → RoleConditions :=
  ltac:(with_field conditions_eta KubeUsers).
Definition with_AppLabels : option Labels → RoleConditions → RoleConditions :=
  ltac:(with_field conditions_eta AppLabels).
Definition with_ClusterLabels : option Labels → RoleConditions → RoleConditions :=
  ltac:(with_field conditions_eta ClusterLabels).
Definition with_KubernetesLabels : option Labels → RoleConditions → RoleConditions :=
  ltac:(with_field conditions_eta KubernetesLabels).
Definition with_DatabaseLabels : option Labels → RoleConditions → RoleConditions :=
  ltac:(with_field conditions_eta DatabaseLabels).
Definition with_DatabaseNames : list string → RoleConditions → RoleConditions :=
  ltac:(with_field conditions_eta DatabaseNames).
Definition with_DatabaseUsers : list string → RoleConditions → RoleConditions :=
  ltac:(with_field conditions_eta DatabaseUsers).
Definition with_Impersonate : option ImpersonateConditions → RoleConditions → RoleConditions :=
  ltac:(with_field conditions_eta Impersonate).
Definition with_ReviewRequests : option AccessReviewConditions → RoleConditions → RoleConditions :=
  ltac:(with_field conditions_eta ReviewRequests).
Definition with_AWSRoleARNs : list string → RoleConditions → RoleConditions :=
  ltac:(with_field conditions_eta AWSRoleARNs).
Definition with_WindowsDesktopLogins : list string → RoleConditions → RoleConditions :=
  ltac:(with_field conditions_eta WindowsDesktopLogins).
Definition with_WindowsDesktopLabels : option Labels → RoleConditions → RoleConditions :=
  ltac:(with_field conditions_eta WindowsDesktopLabels).
Definition with_RequireSessionJoin : list SessionRequirePolicy → RoleConditions → RoleConditions :=
  ltac:(with_field conditions_eta RequireSessionJoin).
Definition with_JoinSessions : list SessionJoinPolicy → RoleConditions → RoleConditions :=
  ltac:(with_field conditions_eta JoinSessions).
Definition with_HostGroups : list string → RoleConditions → RoleConditions :=
  ltac:(with_field conditions_eta HostGroups).
Definition with_HostSudoers : list string → RoleConditions → RoleConditions :=
  ltac:(with_field conditions_eta HostSudoers).

Definition options_eta (o : RoleOptions) : RoleOptions :=
  MkRoleOptions (ForwardAgent o) (MaxSessionTTL o) (PortForwarding o) (CertificateFormat o)
    (ClientIdleTimeout o) (DisconnectExpiredCert o) (BPF o) (PermitX11Forwarding o)
    (MaxConnections o) (MaxSessions o) (RequestAccess o) (RequestPrompt o)
    (RequireSessionMFA o) (Lock o) (RecordSession o) (DesktopClipboard o)
    (CertExtensions o) (MaxKubernetesConnections o) (DesktopDirectorySharing o) (CreateHostUser o)
    (PinSourceIP o) (SSHFileCopy o) (RequireMFAType o).
Definition with_RequireSessionMFA : bool → RoleOptions → RoleOptions :=
  ltac:(with_field options_eta RequireSessionMFA).
Definition with_RequireMFAType : MFAType → RoleOptions → RoleOptions :=
  ltac:(with_field options_eta RequireMFAType).
Definition with_MaxSessionTTL : Z → RoleOptions → RoleOptions :=
  ltac:(with_field options_eta MaxSessionTTL).

Definition on_options (f : RoleOptions → RoleOptions) (r : Role) : Role :=
  MkRole (Kind r) (SubKind r) (Version r) (role_Metadata r) (f (Options r)) (AllowConditions r) (DenyConditions r).
Definition on_metadata (f : Metadata → Metadata) (r : Role) : Role :=
  MkRole (Kind r) (SubKind r) (Version r) (f (role_Metadata r)) (Options r) (AllowConditions r) (DenyConditions r).

(** The conditions of a type: every getter and setter branches on the type. *)
Definition conditions (rct : RoleConditionType) (r : Role) : RoleConditions :=
  match rct with Allow => AllowConditions r | Deny => DenyConditions r end.
Definition on_conditions (rct : RoleConditionType) (f : RoleConditions → RoleConditions) (r : Role) : Role :=
  match rct with
  | Allow => MkRole (Kind r) (SubKind r) (Version r) (role_Metadata r) (Options r) (f (AllowConditions r)) (DenyConditions r)
  | Deny => MkRole (Kind r) (SubKind r) (Version r) (role_Metadata r) (Options r) (AllowConditions r) (f (DenyConditions r))
  end.

(** ** Getters and setters *)

Definition SetSubKind (s : string) (r : Role) : Role :=
  MkRole (Kind r) s (Version r) (role_Metadata r) (Options r) (AllowConditions r) (DenyConditions r).
Definition GetName (r : Role) : string := md_Name (role_Metadata r).
Definition SetName (s : string) : Role → Role :=
  on_metadata (fun m => MkMetadata s (md_Namespace m) (md_Description m) (md_Labels m) (md_Expires m) (md_ID m)).
Definition SetResourceID (id : Z) : Role → Role :=
  on_metadata (fun m => MkMetadata (md_Name m) (md_Namespace m) (md_Description m) (md_Labels m) (md_Expires m) id).
Definition SetExpiry (t : Z) : Role → Role :=
  on_metadata (fun m => MkMetadata (md_Name m) (md_Namespace m) (md_Description m) (md_Labels m) (Some t) (md_ID m)).
Definition Expiry (r : Role) : Z := default zero_time (md_Expires (role_Metadata r)).
Definition SetMetadata (meta : Metadata) : Role → Role := on_metadata (fun _ => meta).
Definition GetOptions (r : Role) : RoleOptions := Options r.
Definition SetOptions (options : RoleOptions) : Role → Role := on_options (fun _ => options).

Definition GetLogins (rct : RoleConditionType) (r : Role) : list string := Logins (conditions rct r).
Definition SetLogins (rct : RoleConditionType) (v : list string) : Role → Role := on_conditions rct (with_Logins v).
Definition GetKubeGroups (rct : RoleConditionType) (r : Role) : list string := KubeGroups (conditions rct r).
Definition SetKubeGroups (rct : RoleConditionType) (v : list string) : Role → Role := on_conditions rct (with_KubeGroups v).
Definition GetKubeUsers (rct : RoleConditionType) (r : Role) : list string := KubeUsers (conditions rct r).
Definition SetKubeUsers (rct : RoleConditionType) (v : list string) : Role → Role := on_conditions rct (with_KubeUsers v).
Definition GetAccessRequestConditions (rct : RoleConditionType) (r : Role) : AccessRequestConditions :=
  default (MkAccessRequestConditions [] [] ∅ [] [] []) (Request (conditions rct r)).
Definition SetAccessRequestConditions (rct : RoleConditionType) (cond : AccessRequestConditions) : Role → Role :=
  on_conditions rct (with_Request (Some cond)).
Definition GetAccessReviewConditions (rct : RoleConditionType) (r : Role) : AccessReviewConditions :=
  default (MkAccessReviewConditions [] [] "" []) (ReviewRequests (conditions rct r)).
Definition SetAccessReviewConditions (rct : RoleConditionType) (cond : AccessReviewConditions) : Role → Role :=
  on_conditions rct (with_ReviewRequests (Some cond)).
Definition GetNamespaces (rct : RoleConditionType) (r : Role) : option (list string) := Namespaces (conditions rct r).
Definition SetNamespaces (rct : RoleConditionType) (v : option (list string)) : Role → Role := on_conditions rct (with_Namespaces v).
Definition GetNodeLabels (rct : RoleConditionType) (r : Role) : option Labels := NodeLabels (conditions rct r).
Definition SetNodeLabels (rct : RoleConditionType) (v : option Labels) : Role → Role := on_conditions rct (with_NodeLabels v).
Definition GetAppLabels (rct : RoleConditionType) (r : Role) : option Labels := AppLabels (conditions rct r).
Definition SetAppLabels (rct : RoleConditionType) (v : option Labels) : Role → Role := on_conditions rct (with_AppLabels v).
Definition GetClusterLabels (rct : RoleConditionType) (r : Role) : option Labels := ClusterLabels (conditions rct r).
Definition SetClusterLabels (rct : RoleConditionType) (v : option Labels) : Role → Role := on_conditions rct (with_ClusterLabels v).
Definition GetKubernetesLabels (rct : RoleConditionType) (r : Role) : option Labels := KubernetesLabels (conditions rct r).
Definition SetKubernetesLabels (rct : RoleConditionType) (v : option Labels) : Role → Role := on_conditions rct (with_KubernetesLabels v).
Definition GetDatabaseLabels (rct : RoleConditionType) (r : Role) : option Labels := DatabaseLabels (conditions rct r).
Definition SetDatabaseLabels (rct : RoleConditionType) (v : option Labels) : Role → Role := on_conditions rct (with_DatabaseLabels v).
Definition GetDatabaseNames (rct : RoleConditionType) (r : Role) : list string := DatabaseNames (conditions rct r).
Definition SetDatabaseNames (rct : RoleConditionType) (v : list string) : Role → Role := on_conditions rct (with_DatabaseNames v).
Definition GetDatabaseUsers (rct : RoleConditionType) (r : Role) : list string := DatabaseUsers (conditions rct r).
Definition SetDatabaseUsers (rct : RoleConditionType) (v : list string) : Role → Role := on_conditions rct (with_DatabaseUsers v).
Definition GetImpersonateConditions (rct : RoleConditionType) (r : Role) : ImpersonateConditions :=
  default (MkImpersonateConditions [] [] "") (Impersonate (conditions rct r)).
Definition SetImpersonateConditions (rct : RoleConditionType) (cond : ImpersonateConditions) : Role → Role :=
  on_conditions rct (with_Impersonate (Some cond)).
Definition GetAWSRoleARNs (rct : RoleConditionType) (r : Role) : list string := AWSRoleARNs (conditions rct r).
Definition SetAWSRoleARNs (rct : RoleConditionType) (v : list string) : Role → Role := on_conditions rct (with_AWSRoleARNs v).
Definition GetWindowsDesktopLabels (rct : RoleConditionType) (r : Role) : option Labels := WindowsDesktopLabels (conditions rct r).
Definition SetWindowsDesktopLabels (rct : RoleConditionType) (v : option Labels) : Role → Role := on_conditions rct (with_WindowsDesktopLabels v).
Definition GetWindowsLogins (rct : RoleConditionType) (r : Role) : list string := WindowsDesktopLogins (conditions rct r).
Definition SetWindowsLogins (rct : RoleConditionType) (v : list string) : Role → Role := on_conditions rct (with_WindowsDesktopLogins v).
Definition GetRules (rct : RoleConditionType) (r : Role) : list Rule := Rules (conditions rct r).
Definition SetRules (rct : RoleConditionType) (v : list Rule) : Role → Role := on_conditions rct (with_Rules v).
Definition GetHostGroups (rct : RoleConditionType) (r : Role) : list string := HostGroups (conditions rct r).
Definition SetHostGroups (rct : RoleConditionType) (v : list string) : Role → Role := on_conditions rct (with_HostGroups v).
Definition GetHostSudoers (rct : RoleConditionType) (r : Role) : list string := HostSudoers (conditions rct r).
Definition SetHostSudoers (rct : RoleConditionType) (v : list string) : Role → Role := on_conditions rct (with_HostSudoers v).

Definition GetSessionRequirePolicies (r : Role) : list SessionRequirePolicy := RequireSessionJoin (AllowConditions r).
Definition SetSessionRequirePolicies (ps : list SessionRequirePolicy) : Role → Role :=
  on_conditions Allow (with_RequireSessionJoin ps).
Definition GetSessionJoinPolicies (r : Role) : list SessionJoinPolicy := JoinSessions (AllowConditions r).
Definition SetSessionJoinPolicies (ps : list SessionJoinPolicy) : Role → Role :=
  on_conditions Allow (with_JoinSessions ps).

Definition GetSearchAsRoles (rct : RoleConditionType) (r : Role) : list string :=
  match Request (conditions rct r) with None => [] | Some q => req_SearchAsRoles q end.
Definition SetSearchAsRoles (rct : RoleConditionType) (roles : list string) : Role → Role :=
  on_conditions rct (fun c =>
    let q := default (MkAccessRequestConditions [] [] ∅ [] [] []) (Request c) in
    with_Request (Some (MkAccessRequestConditions (req_Roles q) (req_ClaimsToRoles q)
      (req_Annotations q) (req_Thresholds q) (req_SuggestedReviewers q) roles)) c).
Definition GetPreviewAsRoles (rct : RoleConditionType) (r : Role) : list string :=
  match ReviewRequests (conditions rct r) with None => [] | Some q => rev_PreviewAsRoles q end.
Definition SetPreviewAsRoles (rct : RoleConditionType) (roles : list string) : Role → Role :=
  on_conditions rct (fun c =>
    let q := default (MkAccessReviewConditions [] [] "" []) (ReviewRequests c) in
    with_ReviewRequests (Some (MkAccessReviewConditions (rev_Roles q) (rev_ClaimsToRoles q)
      (rev_Where q) roles)) c).

(** ** Private key policies (api/utils/keys/policy.go) *)

Inductive KeyPolicy := PrivateKeyPolicyNone | PrivateKeyPolicyHardwareKey | PrivateKeyPolicyHardwareKeyTouch.
#[export] Instance KeyPolicy_eq_dec : EqDecision KeyPolicy.
Proof. solve_decision. Defined.

Definition GetPrivateKeyPolicy (r : Role) : KeyPolicy :=
  match RequireMFAType (Options r) with
  | RequireMFAType_SESSION_AND_HARDWARE_KEY => PrivateKeyPolicyHardwareKey
  | RequireMFAType_HARDWARE_KEY_TOUCH => PrivateKeyPolicyHardwareKeyTouch
  | _ => PrivateKeyPolicyNone
  end.

(** [p.VerifyPolicy(policy)]. *)
Definition VerifyPolicy (p policy : KeyPolicy) : result unit :=
  let unmet := Err (Error BadParameter "private key policy not met: %s") in
  match p with
  | PrivateKeyPolicyNone => Ok ()
  | PrivateKeyPolicyHardwareKey =>
      if bool_decide (policy = PrivateKeyPolicyHardwareKey) ||
         bool_decide (policy = PrivateKeyPolicyHardwareKeyTouch) then Ok () else unmet
  | PrivateKeyPolicyHardwareKeyTouch =>
      if bool_decide (policy = PrivateKeyPolicyHardwareKeyTouch) then Ok () else unmet
  end.

(** ** Rules *)

Definition NewRule (resource : string) (verbs : list string) : Rule := MkRule [resource] verbs "" [].
Definition Rule_CheckAndSetDefaults (r : Rule) : result unit :=
  match Resources r, Verbs r with
  | [], _ => Err (Error BadParameter "missing resources to match")
  | _, [] => Err (Error BadParameter "missing verbs")
  | _, _ => Ok ()
  end.
Definition HasResource (r : Rule) (resource : string) : bool :=
  existsb (fun x => String.eqb x resource) (Resources r).

Definition VerbRead : string := "read".
Definition VerbReadNoSecrets : string := "readnosecrets".
Definition HasVerb (r : Rule) (verb : string) : bool :=
  existsb (fun v =>
    if String.eqb verb VerbReadNoSecrets
    then String.eqb v VerbReadNoSecrets || String.eqb v VerbRead
    else String.eqb v verb) (Verbs r).

(** ** Validation and defaults *)

Definition BoolDefaultTrue (v : option bool) : bool := default true v.

Definition IsEmpty (i : ImpersonateConditions) : bool :=
  Nat.eqb (length (imp_Users i)) 0 || Nat.eqb (length (imp_Roles i)) 0.
Definition Impersonate_CheckAndSetDefaults (i : ImpersonateConditions) : result unit :=
  if negb (Nat.eqb (length (imp_Users i)) 0) && Nat.eqb (length (imp_Roles i)) 0
  then Err (Error BadParameter "please set both impersonate.users and impersonate.roles for user impersonation")
  else Ok ().

Definition setStaticFields (r : Role) : Role :=
  MkRole "role" (SubKind r)
    (if negb (String.eqb (Version r) "v3") && negb (String.eqb (Version r) "v4") then "v5" else Version r)
    (role_Metadata r) (Options r) (AllowConditions r) (DenyConditions r).

(** The label keys matched by [^[a-zA-Z/.0-9_:*-]+$]. *)
Definition label_char (c : ascii) : bool :=
  existsb (Ascii.eqb c) (String.list_ascii_of_string
    "abcdefghijklmnopqrstuvwxyzABCDEFGHIJKLMNOPQRSTUVWXYZ/.0123456789_:*-").
Definition IsValidLabelKey (s : string) : bool :=
  negb (String.eqb s "") && forallb label_char (String.list_ascii_of_string s).

Definition OriginValues : list string := ["defaults"; "config-file"; "dynamic"; "cloud"; "kubernetes"].
Definition OriginLabel : string := "teleport.dev/origin".
Definition Origin (m : Metadata) : string := default "" (md_Labels m !! OriginLabel).

(** The expiry is only moved to another time zone. *)
Definition Metadata_CheckAndSetDefaults (m : Metadata) : result Metadata :=
  if String.eqb (md_Name m) "" then Err (Error BadParameter "missing parameter Name") else
  let m := MkMetadata (md_Name m) (if String.eqb (md_Namespace m) "" then defaults_Namespace else md_Namespace m)
    (md_Description m) (md_Labels m) (md_Expires m) (md_ID m) in
  if bool_decide (map_Forall (fun k _ => IsValidLabelKey k = true) (md_Labels m)) then
    if negb (String.eqb (Origin m) "") && negb (SliceContainsStr OriginValues (Origin m))
    then Err (Error BadParameter "invalid origin value %q, must be one of %v")
    else Ok m
  else Err (Error BadParameter "invalid label key: %q").

Definition CheckSetRequireSessionMFA : Role → Role :=
  on_options (fun o =>
    if bool_decide (RequireMFAType o ≠ RequireMFAType_OFF)
    then with_RequireSessionMFA (IsSessionMFARequired (RequireMFAType o)) o
    else if RequireSessionMFA o then with_RequireMFAType RequireMFAType_SESSION o
    else o).

Definition defaults_MaxCertDuration : Z := (30 * Hour)%Z.
Definition EnhancedEvents : list string := ["command"; "network"].

(** [if p == nil { p = NewBoolOption(b) }]. *)
Definition or_bool (b : bool) (p : option bool) : option bool :=
  match p with None => Some b | Some _ => p end.

(** The options' defaults of [RoleV5.CheckAndSetDefaults]. *)
Definition options_defaults (o : RoleOptions) : RoleOptions :=
  MkRoleOptions (ForwardAgent o)
    (if Z.eqb (MaxSessionTTL o) 0 then defaults_MaxCertDuration else MaxSessionTTL o)
    (or_bool true (PortForwarding o))
    (if String.eqb (CertificateFormat o) "" then "standard" else CertificateFormat o)
    (ClientIdleTimeout o) (DisconnectExpiredCert o)
    (match BPF o with [] => EnhancedEvents | _ => BPF o end)
    (PermitX11Forwarding o) (MaxConnections o) (MaxSessions o)
    (RequestAccess o) (RequestPrompt o) (RequireSessionMFA o) (Lock o)
    (match RecordSession o with
     | None => Some (MkRecordSession (Some true) "best_effort" "")
     | Some _ => RecordSession o end)
    (or_bool true (DesktopClipboard o)) (CertExtensions o) (MaxKubernetesConnections o)
    (or_bool true (DesktopDirectorySharing o)) (or_bool false (CreateHostUser o))
    (PinSourceIP o) (or_bool true (SSHFileCopy o)) (RequireMFAType o).

Definition namespaces_default (c : RoleConditions) : RoleConditions :=
  match Namespaces c with None => with_Namespaces (Some [defaults_Namespace]) c | Some _ => c end.

Definition all_labels : Labels := {[ Wildcard := [Wildcard] ]}.
Definition or_labels (d : Labels) (l : option Labels) : option Labels :=
  match l with None => Some d | Some _ => l end.

(** The labels of a role of version 3. *)
Definition v3_labels (c : RoleConditions) : RoleConditions :=
  let c := with_NodeLabels (or_labels (match Logins c with [] => ∅ | _ => all_labels end) (NodeLabels c)) c in
  let c := with_AppLabels (or_labels all_labels (AppLabels c)) c in
  let c := with_KubernetesLabels (or_labels all_labels (KubernetesLabels c)) c in
  with_DatabaseLabels (or_labels all_labels (DatabaseLabels c)) c.

Definition correct_session_ttl (o : RoleOptions) : RoleOptions :=
  if Z.leb (MaxSessionTTL o) 0 then with_MaxSessionTTL defaults_MaxCertDuration o else o.

Definition check_BPF (opts : list string) : result unit :=
  if forallb (fun opt => String.eqb opt "command" || String.eqb opt "disk" || String.eqb opt "network") opts
  then Ok () else Err (Error BadParameter "invalid value for role option enhanced_recording: %v").
Definition check_lock (l : string) : result unit :=
  if String.eqb l "" then Ok () else
  if String.eqb l "best_effort" || String.eqb l "strict" then Ok () else
  Err (Error BadParameter "invalid value for role option lock: %v").
Definition check_no_wildcard (msg : string) (l : list string) : result unit :=
  if existsb (fun x => String.eqb x Wildcard) l then Err (Error BadParameter msg) else Ok ().
Definition checkWildcardSelector (l : option Labels) : result unit :=
  match default ∅ l !! Wildcard with
  | None => Ok ()
  | Some val =>
      if match val with [v] => String.eqb v Wildcard | _ => false end then Ok ()
      else Err (Error BadParameter "selector *:<val> is not supported")
  end.
Fixpoint check_selectors (ls : list (option Labels)) : result unit :=
  match ls with
  | [] => Ok ()
  | l :: ls => match checkWildcardSelector l with Err e => Err e | Ok _ => check_selectors ls end
  end.
Fixpoint check_rules (msg : string) (rs : list Rule) : result unit :=
  match rs with
  | [] => Ok ()
  | r :: rs => match Rule_CheckAndSetDefaults r with Err _ => Err (Error BadParameter msg) | Ok _ => check_rules msg rs end
  end.

Definition CheckAndSetDefaults (r : Role) : result Role :=
  let r := setStaticFields r in
  m ← Metadata_CheckAndSetDefaults (role_Metadata r);
  let r := SetMetadata m r in
  let r := CheckSetRequireSessionMFA r in
  let r := on_options options_defaults r in
  let r := on_conditions Allow namespaces_default r in
  r ← (if String.eqb (Version r) "v3" then Ok (on_conditions Allow v3_labels r)
       else if String.eqb (Version r) "v4" || String.eqb (Version r) "v5" then Ok r
       else Err (Error BadParameter "unrecognized role version: %v"));
  let r := on_conditions Deny namespaces_default r in
  _ ← check_BPF (BPF (Options r));
  _ ← check_lock (Lock (Options r));
  let r := on_options correct_session_ttl r in
  let allow := AllowConditions r in
  let deny := DenyConditions r in
  _ ← check_no_wildcard "wildcard matcher is not allowed in logins" (Logins allow);
  _ ← check_no_wildcard "wildcard matcher is not allowed in aws_role_arns" (AWSRoleARNs allow);
  _ ← check_selectors [NodeLabels allow; AppLabels allow; KubernetesLabels allow;
        DatabaseLabels allow; WindowsDesktopLabels allow];
  _ ← check_rules "failed to process 'allow' rule %v: %v" (Rules allow);
  _ ← check_rules "failed to process 'deny' rule %v: %v" (Rules deny);
  _ ← match Impersonate allow with None => Ok () | Some i => Impersonate_CheckAndSetDefaults i end;
  _ ← match Impersonate deny with
      | None => Ok ()
      | Some i =>
          if negb (String.eqb (imp_Where i) "")
          then Err (Error BadParameter "'where' is not supported in deny.impersonate conditions")
          else Impersonate_CheckAndSetDefaults i
      end;
  Ok r.

Definition empty_conditions : RoleConditions :=
  MkRoleConditions [] None None [] [] None [] None None None None [] [] None None [] [] None [] [] [] [].
Definition empty_options : RoleOptions :=
  MkRoleOptions false 0%Z None "" 0%Z false [] false 0%Z 0%Z "" "" false "" None None [] 0%Z None None
    false None RequireMFAType_OFF.
Definition NewRole (name : string) (options : RoleOptions) (allow deny : RoleConditions) : result Role :=
  CheckAndSetDefaults (MkRole "" "" "v5" (MkMetadata name "" "" ∅ None 0%Z) options allow deny).

(** ** Lemmas *)

Lemma HasResource_true r x : HasResource r x = true ↔ x ∈ Resources r.
Proof.
  unfold HasResource. rewrite existsb_elem.
  setoid_rewrite String.eqb_eq. naive_solver.
Qed.

Lemma HasVerb_true r v :
  HasVerb r v = true ↔ v ∈ Verbs r ∨ (v = VerbReadNoSecrets ∧ VerbRead ∈ Verbs r).
Proof.
  unfold HasVerb. rewrite existsb_elem.
  destruct (String.eqb_spec v VerbReadNoSecrets) as [->|Hv].
  - setoid_rewrite orb_true_iff. setoid_rewrite String.eqb_eq. naive_solver.
  - setoid_rewrite String.eqb_eq. naive_solver.
Qed.

(** *** The checks *)

Definition BPF_options : list string := ["command"; "disk"; "network"].
Definition lock_modes : list string := [""; "best_effort"; "strict"].
Definition selector_ok (l : option Labels) : Prop :=
  ∀ v, default ∅ l !! Wildcard = Some v → v = [Wildcard].
Definition rule_ok (r : Rule) : Prop := Resources r ≠ [] ∧ Verbs r ≠ [].
Definition impersonate_ok (i : ImpersonateConditions) : Prop := imp_Users i ≠ [] → imp_Roles i ≠ [].

Lemma check_BPF_ok l : check_BPF l = Ok () ↔ ∀ x, x ∈ l → x ∈ BPF_options.
Proof.
  unfold check_BPF.
  assert (forallb (fun opt => (opt =? "command")%string || (opt =? "disk")%string
    || (opt =? "network")%string) l = true ↔ ∀ x, x ∈ l → x ∈ BPF_options) as <-.
  { rewrite forallb_elem. unfold BPF_options.
    setoid_rewrite elem_of_cons. setoid_rewrite elem_of_cons. setoid_rewrite list_elem_of_singleton.
    setoid_rewrite orb_true_iff. setoid_rewrite orb_true_iff. setoid_rewrite String.eqb_eq.
    split; intros Hx x Hin; specialize (Hx x Hin); tauto. }
  by destruct forallb.
Qed.

Lemma check_lock_ok l : check_lock l = Ok () ↔ l ∈ lock_modes.
Proof.
  unfold check_lock, lock_modes. rewrite !elem_of_cons.
  destruct (String.eqb_spec l "") as [->|]; [naive_solver|].
  destruct (String.eqb_spec l "best_effort") as [->|]; [naive_solver|].
  destruct (String.eqb_spec l "strict") as [->|]; [naive_solver|]. cbn.
  split; [done|]. intros [?|[?|[?|?%not_elem_of_nil]]]; done.
Qed.

Lemma check_no_wildcard_ok msg l : check_no_wildcard msg l = Ok () ↔ Wildcard ∉ l.
Proof.
  unfold check_no_wildcard.
  assert (existsb (fun x => (x =? Wildcard)%string) l = true ↔ Wildcard ∈ l) as Hx.
  { rewrite existsb_elem. setoid_rewrite String.eqb_eq. naive_solver. }
  destruct existsb; naive_solver.
Qed.

Lemma checkWildcardSelector_ok l : checkWildcardSelector l = Ok () ↔ selector_ok l.
Proof.
  unfold checkWildcardSelector, selector_ok. destruct (default ∅ l !! Wildcard) as [v|]; [|naive_solver].
  destruct v as [|v [|]]; [naive_solver| |naive_solver].
  destruct (String.eqb_spec v Wildcard); naive_solver.
Qed.

Lemma check_selectors_ok ls : check_selectors ls = Ok () ↔ Forall selector_ok ls.
Proof.
  induction ls as [|l ls IH]; cbn [check_selectors]; [by split|].
  rewrite Forall_cons, <- IH, <- checkWildcardSelector_ok.
  destruct (checkWildcardSelector l) as [[]|]; [tauto|]. split; [done|]. by intros [? _].
Qed.

Lemma check_rules_ok msg rs : check_rules msg rs = Ok () ↔ Forall rule_ok rs.
Proof.
  induction rs as [|r rs IH]; cbn [check_rules]; [by split|].
  rewrite Forall_cons, <- IH. unfold Rule_CheckAndSetDefaults, rule_ok.
  destruct (Resources r), (Verbs r); naive_solver.
Qed.

Lemma Impersonate_ok i : Impersonate_CheckAndSetDefaults i = Ok () ↔ impersonate_ok i.
Proof.
  unfold Impersonate_CheckAndSetDefaults, impersonate_ok.
  destruct (imp_Users i), (imp_Roles i); naive_solver.
Qed.

(** What the metadata must satisfy. *)
Definition metadata_ok (m : Metadata) : Prop :=
  md_Name m ≠ "" ∧ map_Forall (fun k _ => IsValidLabelKey k = true) (md_Labels m) ∧
  (Origin m = "" ∨ Origin m ∈ OriginValues).
Definition metadata_defaults (m : Metadata) : Metadata :=
  MkMetadata (md_Name m) (if String.eqb (md_Namespace m) "" then defaults_Namespace else md_Namespace m)
    (md_Description m) (md_Labels m) (md_Expires m) (md_ID m).

Lemma Metadata_ok m m' :
  Metadata_CheckAndSetDefaults m = Ok m' ↔ metadata_ok m ∧ m' = metadata_defaults m.
Proof.
  unfold Metadata_CheckAndSetDefaults, metadata_ok. cbv zeta. fold (metadata_defaults m).
  assert (Origin (metadata_defaults m) = Origin m) as -> by done.
  assert (md_Labels (metadata_defaults m) = md_Labels m) as -> by done.
  destruct (String.eqb_spec (md_Name m) "") as [|Hn]; [naive_solver|].
  case_bool_decide as Hl; [|naive_solver].
  destruct (String.eqb_spec (Origin m) "") as [Ho|Ho]; cbn [negb andb]; [naive_solver|].
  pose proof (SliceContainsStr_true OriginValues (Origin m)) as Hs.
  destruct (SliceContainsStr OriginValues (Origin m)); cbn [negb]; naive_solver.
Qed.

(** *** The defaults *)

(** The role [CheckAndSetDefaults] checks and returns. *)
Definition role_defaults (r : Role) : Role :=
  let r := setStaticFields r in
  let r := SetMetadata (metadata_defaults (role_Metadata r)) r in
  let r := CheckSetRequireSessionMFA r in
  let r := on_options options_defaults r in
  let r := on_conditions Allow namespaces_default r in
  let r := if String.eqb (Version r) "v3" then on_conditions Allow v3_labels r else r in
  on_options correct_session_ttl (on_conditions Deny namespaces_default r).

(** What the options and conditions of a role must satisfy. *)
Definition conditions_ok (r : Role) : Prop :=
  (∀ x, x ∈ BPF (Options r) → x ∈ BPF_options) ∧ Lock (Options r) ∈ lock_modes ∧
  (Wildcard ∉ Logins (AllowConditions r)) ∧ (Wildcard ∉ AWSRoleARNs (AllowConditions r)) ∧
  Forall selector_ok [NodeLabels (AllowConditions r); AppLabels (AllowConditions r);
    KubernetesLabels (AllowConditions r); DatabaseLabels (AllowConditions r);
    WindowsDesktopLabels (AllowConditions r)] ∧
  Forall rule_ok (Rules (AllowConditions r)) ∧ Forall rule_ok (Rules (DenyConditions r)) ∧
  (∀ i, Impersonate (AllowConditions r) = Some i → impersonate_ok i) ∧
  (∀ i, Impersonate (DenyConditions r) = Some i → imp_Where i = "" ∧ impersonate_ok i).

Lemma correct_session_ttl_BPF o : BPF (correct_session_ttl o) = BPF o.
Proof. unfold correct_session_ttl. by destruct Z.leb. Qed.
Lemma correct_session_ttl_Lock o : Lock (correct_session_ttl o) = Lock o.
Proof. unfold correct_session_ttl. by destruct Z.leb. Qed.

Lemma setStaticFields_version r :
  Version (setStaticFields r) = "v3" ∨ Version (setStaticFields r) = "v4" ∨ Version (setStaticFields r) = "v5".
Proof.
  unfold setStaticFields. cbn [Version].
  destruct (String.eqb_spec (Version r) "v3"); [by left|].
  destruct (String.eqb_spec (Version r) "v4"); cbn; tauto.
Qed.

Lemma CheckAndSetDefaults_steps r r' :
  CheckAndSetDefaults r = Ok r' ↔
  metadata_ok (role_Metadata r) ∧ conditions_ok (role_defaults r) ∧ r' = role_defaults r.
Proof.
  unfold CheckAndSetDefaults. cbv zeta. rewrite result_bind_Ok.
  setoid_rewrite Metadata_ok.
  assert (role_Metadata (setStaticFields r) = role_Metadata r) as -> by done.
  split.
  - intros (m & [Hm ->] & Hb). split; [done|].
    apply result_bind_Ok in Hb as (r1 & Hr1 & Hb).
    rewrite !result_check_Ok in Hb.
    assert (on_options correct_session_ttl (on_conditions Deny namespaces_default r1) = role_defaults r) as <-.
    { set (r0 := on_conditions Allow _ _) in Hr1.
      change (role_defaults r) with (on_options correct_session_ttl (on_conditions Deny namespaces_default
        (if String.eqb (Version r0) "v3" then on_conditions Allow v3_labels r0 else r0))).
      f_equal. f_equal. destruct (String.eqb (Version r0) "v3"); [by injection Hr1 as <-|].
      destruct (_ || _) in Hr1; [by injection Hr1 as <-|done]. }
    destruct Hb as (H1 & H2 & H3 & H4 & H5 & H6 & H7 & H8 & H9 & [= <-]).
    split; [|done]. unfold conditions_ok.
    rewrite check_BPF_ok in H1. rewrite check_lock_ok in H2. rewrite check_no_wildcard_ok in H3, H4.
    rewrite check_selectors_ok in H5. rewrite check_rules_ok in H6, H7.
    split_and!; try done.
    + cbn [on_options Options]. by rewrite correct_session_ttl_BPF.
    + cbn [on_options Options]. by rewrite correct_session_ttl_Lock.
    + intros i Hi. apply Impersonate_ok. cbn [on_options AllowConditions] in H8, Hi. by rewrite Hi in H8.
    + intros i Hi. cbn [on_options DenyConditions] in H9, Hi. rewrite Hi in H9.
      destruct (String.eqb_spec (imp_Where i) ""); [|done]. split; [done|by apply Impersonate_ok].
  - intros (Hm & Hc & ->). eexists. split; [by split|]. apply result_bind_Ok.
    set (r0 := on_conditions Allow namespaces_default _).
    exists (if String.eqb (Version r0) "v3" then on_conditions Allow v3_labels r0 else r0). split.
    { assert (Version r0 = "v3" ∨ Version r0 = "v4" ∨ Version r0 = "v5") as Hv
        by exact (setStaticFields_version r).
      destruct Hv as [-> |[-> | ->]]; reflexivity. }
    rewrite !result_check_Ok.
    match goal with |- context [AllowConditions ?x] => change x with (role_defaults r) end.
    destruct Hc as (H1 & H2 & H3 & H4 & H5 & H6 & H7 & H8 & H9).
    split_and!; [| | | | | | | | |reflexivity].
    + apply check_BPF_ok. rewrite <- correct_session_ttl_BPF. exact H1.
    + apply check_lock_ok. rewrite <- correct_session_ttl_Lock. exact H2.
    + by apply check_no_wildcard_ok.
    + by apply check_no_wildcard_ok.
    + by apply check_selectors_ok.
    + by apply check_rules_ok.
    + by apply check_rules_ok.
    + destruct (Impersonate (AllowConditions _)) as [i|] eqn:Hi; [|reflexivity]. apply Impersonate_ok. exact (H8 i eq_refl).
    + destruct (Impersonate (DenyConditions _)) as [i|] eqn:Hi; [|reflexivity].
      destruct (H9 i eq_refl) as [-> Hw%Impersonate_ok]. exact Hw.
Qed.

(** A role as [CheckAndSetDefaults] leaves it. *)
Definition options_wf (o : RoleOptions) : Prop :=
  (0 < MaxSessionTTL o)%Z ∧ is_Some (PortForwarding o) ∧ CertificateFormat o ≠ "" ∧ BPF o ≠ [] ∧
  is_Some (RecordSession o) ∧ is_Some (DesktopClipboard o) ∧ is_Some (DesktopDirectorySharing o) ∧
  is_Some (CreateHostUser o) ∧ is_Some (SSHFileCopy o) ∧
  RequireSessionMFA o = IsSessionMFARequired (RequireMFAType o).
Definition role_wf (r : Role) : Prop :=
  Kind r = "role" ∧ Version r ∈ ["v3"; "v4"; "v5"] ∧
  metadata_ok (role_Metadata r) ∧ md_Namespace (role_Metadata r) ≠ "" ∧
  options_wf (Options r) ∧
  is_Some (Namespaces (AllowConditions r)) ∧ is_Some (Namespaces (DenyConditions r)) ∧
  (Version r = "v3" → is_Some (NodeLabels (AllowConditions r)) ∧ is_Some (AppLabels (AllowConditions r)) ∧
    is_Some (KubernetesLabels (AllowConditions r)) ∧ is_Some (DatabaseLabels (AllowConditions r))) ∧
  conditions_ok r.

Lemma options_defaults_id o : options_wf o → options_defaults o = o.
Proof.
  destruct o. unfold options_wf. cbn.
  intros (? & [? ->] & ? & ? & [? ->] & [? ->] & [? ->] & [? ->] & [? ->] & _).
  unfold options_defaults. cbn.
  rewrite (proj2 (Z.eqb_neq _ _)) by lia. rewrite (proj2 (String.eqb_neq _ _)) by done.
  by case_match.
Qed.

Lemma correct_session_ttl_id o : options_wf o → correct_session_ttl o = o.
Proof. intros [? _]. unfold correct_session_ttl. by rewrite (proj2 (Z.leb_gt _ _)) by lia. Qed.

Lemma CheckSetRequireSessionMFA_id r :
  RequireSessionMFA (Options r) = IsSessionMFARequired (RequireMFAType (Options r)) →
  CheckSetRequireSessionMFA r = r.
Proof.
  destruct r as [k sk v m o a d]. unfold CheckSetRequireSessionMFA, on_options. cbn. intros Ho. f_equal.
  case_bool_decide as Ht; [rewrite <- Ho; by destruct o|].
  destruct (RequireSessionMFA o); [|done]. by destruct (RequireMFAType o).
Qed.

Lemma namespaces_default_id c : is_Some (Namespaces c) → namespaces_default c = c.
Proof. intros [n Hn]. unfold namespaces_default. by rewrite Hn. Qed.

Lemma v3_labels_id c :
  is_Some (NodeLabels c) → is_Some (AppLabels c) → is_Some (KubernetesLabels c) → is_Some (DatabaseLabels c) →
  v3_labels c = c.
Proof. destruct c. cbn. by intros [? ->] [? ->] [? ->] [? ->]. Qed.

Lemma metadata_defaults_id m : md_Namespace m ≠ "" → metadata_defaults m = m.
Proof. destruct m. cbn. intros ?. unfold metadata_defaults. cbn. by rewrite (proj2 (String.eqb_neq _ _)) by done. Qed.

Lemma setStaticFields_id r : Kind r = "role" → Version r ∈ ["v3"; "v4"; "v5"] → setStaticFields r = r.
Proof.
  destruct r. cbn. rewrite !elem_of_cons, elem_of_nil. by intros -> [->|[->|[->|[]]]].
Qed.

Lemma on_options_id f r : f (Options r) = Options r → on_options f r = r.
Proof. destruct r. unfold on_options. cbn. by intros ->. Qed.
Lemma on_conditions_id rct f r : f (conditions rct r) = conditions rct r → on_conditions rct f r = r.
Proof. destruct r, rct; cbn; by intros ->. Qed.
Lemma SetMetadata_id r : SetMetadata (role_Metadata r) r = r.
Proof. by destruct r. Qed.

(** A well-formed role has all its defaults. *)
Lemma role_defaults_id r : role_wf r → role_defaults r = r.
Proof.
  intros (Hk & Hv & _ & Hn & Ho & Ha & Hd & H3 & _). unfold role_defaults. cbv zeta.
  rewrite setStaticFields_id, metadata_defaults_id, SetMetadata_id by done.
  rewrite CheckSetRequireSessionMFA_id by apply Ho.
  rewrite (on_options_id options_defaults) by by apply options_defaults_id.
  rewrite (on_conditions_id Allow namespaces_default) by by apply namespaces_default_id.
  assert ((if (Version r =? "v3")%string then on_conditions Allow v3_labels r else r) = r) as ->.
  { destruct (String.eqb_spec (Version r) "v3") as [Hv3|]; [|done].
    apply on_conditions_id. destruct (H3 Hv3) as (? & ? & ? & ?). by apply v3_labels_id. }
  rewrite (on_conditions_id Deny namespaces_default) by by apply namespaces_default_id.
  apply on_options_id. by apply correct_session_ttl_id.
Qed.

Lemma namespaces_default_Some c : is_Some (Namespaces (namespaces_default c)).
Proof. unfold namespaces_default. by destruct (Namespaces c) eqn:Hn; [rewrite Hn|]. Qed.

Lemma options_defaults_wf o :
  RequireSessionMFA o = IsSessionMFARequired (RequireMFAType o) →
  options_wf (correct_session_ttl (options_defaults o)).
Proof.
  intros Ho.
  assert (∀ b p, is_Some (or_bool b p)) as Hb by (intros b [|]; by eexists).
  assert (CertificateFormat (options_defaults o) ≠ "") as Hcf.
  { unfold options_defaults. cbn. by destruct (String.eqb_spec (CertificateFormat o) ""). }
  assert (BPF (options_defaults o) ≠ []) as Hbpf.
  { unfold options_defaults. cbn. by destruct (BPF o). }
  assert (is_Some (RecordSession (options_defaults o))) as Hrs.
  { unfold options_defaults. cbn. by destruct (RecordSession o). }
  unfold correct_session_ttl.
  destruct (Z.leb_spec (MaxSessionTTL (options_defaults o)) 0); unfold options_wf; cbn in *;
    split_and!; auto; unfold defaults_MaxCertDuration, Hour in *; lia.
Qed.

Lemma CheckSetRequireSessionMFA_wf r :
  let o := Options (CheckSetRequireSessionMFA r) in
  RequireSessionMFA o = IsSessionMFARequired (RequireMFAType o).
Proof.
  cbn. case_bool_decide as Ht; [done|].
  destruct (RequireSessionMFA (Options r)) eqn:Hr; cbn; [done|by rewrite Hr, Ht].
Qed.

Lemma role_defaults_wf r :
  metadata_ok (role_Metadata r) → conditions_ok (role_defaults r) → role_wf (role_defaults r).
Proof.
  intros Hm Hc.
  set (r0 := on_conditions Allow namespaces_default (on_options options_defaults
    (CheckSetRequireSessionMFA (SetMetadata (metadata_defaults (role_Metadata (setStaticFields r)))
      (setStaticFields r))))).
  set (r1 := if String.eqb (Version r0) "v3" then on_conditions Allow v3_labels r0 else r0).
  assert (role_defaults r = on_options correct_session_ttl (on_conditions Deny namespaces_default r1))
    as Hr by reflexivity.
  assert (Kind r1 = "role" ∧ Version r1 = Version (setStaticFields r) ∧
    role_Metadata r1 = metadata_defaults (role_Metadata r) ∧ Options r1 = Options r0) as (Hk & Hv & Hmd & Ho).
  { unfold r1. by destruct String.eqb. }
  assert (is_Some (Namespaces (AllowConditions r1))) as Hns.
  { unfold r1. destruct String.eqb; apply namespaces_default_Some. }
  unfold role_wf. split_and!; [done| | | | | | | |done]; rewrite Hr; cbn [on_options on_conditions Version
    role_Metadata Options AllowConditions DenyConditions].
  - rewrite Hv, !elem_of_cons. destruct (setStaticFields_version r) as [?|[?|?]]; tauto.
  - by rewrite Hmd.
  - rewrite Hmd. cbn. by destruct (String.eqb_spec (md_Namespace (role_Metadata r)) "").
  - rewrite Ho. apply options_defaults_wf, CheckSetRequireSessionMFA_wf.
  - done.
  - apply namespaces_default_Some.
  - assert (Version r1 = Version r0) as -> by (unfold r1; by destruct String.eqb).
    intros H3. unfold r1. rewrite H3. cbn [String.eqb]. cbn.
    split_and!; unfold or_labels; case_match; by eexists.
Qed.

(** ** Properties *)

(** The input [CheckAndSetDefaults] accepts. *)
Definition role_valid (r : Role) : Prop :=
  metadata_ok (role_Metadata r) ∧ conditions_ok r.

Lemma selector_ok_or d l : selector_ok (Some d) → selector_ok (or_labels d l) ↔ selector_ok l.
Proof.
  intros Hd. destruct l as [l|]; cbn; [done|]. split; [|done].
  intros _ v Hv. vm_compute in Hv. discriminate.
Qed.

Lemma selector_ok_all : selector_ok (Some all_labels).
Proof. unfold selector_ok. intros v Hv. vm_compute in Hv. by injection Hv as <-. Qed.
Lemma selector_ok_empty : selector_ok (Some ∅).
Proof. unfold selector_ok. intros v Hv. vm_compute in Hv. discriminate. Qed.

Lemma namespaces_default_eq c :
  namespaces_default c = with_Namespaces (Some (default [defaults_Namespace] (Namespaces c))) c.
Proof. unfold namespaces_default. destruct c. by destruct Namespaces0. Qed.

(** The defaults neither break nor mend a condition. *)
Lemma role_defaults_conditions r : conditions_ok (role_defaults r) ↔ conditions_ok r.
Proof.
  assert (Options (role_defaults r) = correct_session_ttl (options_defaults
    (Options (CheckSetRequireSessionMFA r)))) as Ho.
  { unfold role_defaults. cbv zeta. by destruct String.eqb. }
  assert (DenyConditions (role_defaults r) = namespaces_default (DenyConditions r)) as Hd.
  { unfold role_defaults. cbv zeta. by destruct String.eqb. }
  assert (∃ b : bool, AllowConditions (role_defaults r) =
    if b then v3_labels (namespaces_default (AllowConditions r)) else namespaces_default (AllowConditions r)) as [b Ha].
  { unfold role_defaults. cbv zeta. destruct String.eqb; [by exists true|by exists false]. }
  assert (BPF (Options (CheckSetRequireSessionMFA r)) = BPF (Options r) ∧
    Lock (Options (CheckSetRequireSessionMFA r)) = Lock (Options r)) as [Hbm Hlm].
  { cbn. case_bool_decide; [done|]. by destruct (RequireSessionMFA (Options r)). }
  assert ((∀ x, x ∈ BPF (Options (role_defaults r)) → x ∈ BPF_options) ↔
    (∀ x, x ∈ BPF (Options r) → x ∈ BPF_options)) as Hb.
  { rewrite Ho, correct_session_ttl_BPF. cbn [options_defaults BPF].
    rewrite Hbm.
    destruct (BPF (Options r)); [|done]. unfold EnhancedEvents, BPF_options. split.
    - intros _ x Hx. by apply not_elem_of_nil in Hx.
    - intros _ x. rewrite !elem_of_cons. tauto. }
  assert (Lock (Options (role_defaults r)) = Lock (Options r)) as Hl.
  { rewrite Ho, correct_session_ttl_Lock. exact Hlm. }
  unfold conditions_ok. rewrite Hb, Hl, Hd, !Forall_cons.
  rewrite (namespaces_default_eq (DenyConditions r)). cbn [with_Namespaces Rules Impersonate].
  rewrite namespaces_default_eq in Ha. destruct b; rewrite Ha; [|done].
  unfold v3_labels. cbn -[or_labels].
  rewrite !selector_ok_or by (apply selector_ok_all || (case_match; [apply selector_ok_empty|apply selector_ok_all])).
  done.
Qed.

(** validation of roles. The defaults never decide the outcome:
    [CheckAndSetDefaults] accepts a role exactly when its metadata is valid, its
    recording and locking options are known, no login and no AWS role ARN
    allowed is the wildcard, the selectors allow [*] as a key only with the one
    value [*], every rule has resources and verbs, and whoever impersonates
    users does so with roles and, for a denial, without a [where]. *)
Theorem Role_CheckAndSetDefaults_accepts r :
  is_Ok (CheckAndSetDefaults r) = true ↔ role_valid r.
Proof.
  unfold role_valid. rewrite <- role_defaults_conditions.
  pose proof (CheckAndSetDefaults_steps r) as Hs. destruct (CheckAndSetDefaults r) as [r'|e]; cbn.
  - split; [|done]. intros _. destruct (proj1 (Hs r') eq_refl) as (? & ? & _). done.
  - split; [done|]. intros [Hm Hc]. pose proof (proj2 (Hs (role_defaults r))). naive_solver.
Qed.

(** C37: what [CheckAndSetDefaults] returns is well formed: every option is set,
    the session time-to-live is positive, the session MFA flag agrees with the
    MFA type, a version 3 role has its label selectors; and a well-formed role
    is left as it is, so validating twice is validating once. *)
Theorem Role_CheckAndSetDefaults_wf r r' :
  CheckAndSetDefaults r = Ok r' → role_wf r' ∧ CheckAndSetDefaults r' = Ok r'.
Proof.
  intros (Hm & Hc & ->)%CheckAndSetDefaults_steps.
  pose proof (role_defaults_wf r Hm Hc) as Hw. split; [done|].
  apply CheckAndSetDefaults_steps. rewrite (role_defaults_id _ Hw).
  split; [apply Hw|]. split; [exact Hc|reflexivity].
Qed.

Definition sample_role : Role :=
  MkRole "" "" "v3" (MkMetadata "dev" "" "" {[ "env" := "a" ]} None 0%Z)
    (with_RequireSessionMFA true empty_options)
    (with_Logins ["root"] (with_Rules [NewRule "node" ["read"]] empty_conditions)) empty_conditions.

Lemma Role_CheckAndSetDefaults_wf_witness :
  ∃ r', CheckAndSetDefaults sample_role = Ok r' ∧ role_wf r' ∧ CheckAndSetDefaults r' = Ok r' ∧
    RequireMFAType (Options r') = RequireMFAType_SESSION ∧
    NodeLabels (AllowConditions r') = Some all_labels.
Proof.
  destruct (CheckAndSetDefaults sample_role) as [r'|] eqn:Hr; [|exfalso; vm_compute in Hr; discriminate].
  exists r'. split; [reflexivity|].
  destruct (Role_CheckAndSetDefaults_wf sample_role r' Hr) as [Hw Hi].
  split; [exact Hw|]. split; [exact Hi|].
  vm_compute in Hr. injection Hr as <-. split; reflexivity.
Defined.
