(* ===== verification/Traits.v ===== *)
(** * Traits in roles (lib/services/role.go, lib/services/traits.go, lib/utils/replace.go)

    The traits of a user are interpolated into the templates of a role, and map
    to the roles the user holds or may request. Roles are values: what the
    program changes in place is the role that is returned. *)

From Stdlib Require Import Ascii String.
From S2P Require Import Prelude.
From S2P Require Import Keys.
From S2P Require Import Labels.
From S2P Require Import Role.
From S2P Require Import Parse.
Local Open Scope string_scope.

(** The traits of a user. *)
Abbreviation UserTraits := (gmap string (list string)).

Definition TraitInternalPrefix : string := "internal".
Definition internal_traits : list string :=
  ["logins"; "windows_logins"; "kubernetes_groups"; "kubernetes_users"; "db_names"; "db_users";
   "aws_role_arns"; "jwt"].

(** Valid names of Unix users, of a library. *)
Class UnixUsers := { IsValidUnixUser : string → bool }.

Definition windows_invalid : list ascii := ascii_of_nat 34 :: String.list_ascii_of_string "/\[]:;|=,+*?<>".
Definition filterInvalidUnixLogins `{UnixUsers} (candidates : list string) : list string :=
  List.filter IsValidUnixUser candidates.
Definition filterInvalidWindowsLogins (candidates : list string) : list string :=
  List.filter (fun c => negb (existsb (fun a => existsb (Ascii.eqb a) windows_invalid)
    (String.list_ascii_of_string c))) candidates.

Section traits.
Context `{GoLibs} `{Regexp} `{MapOrder} `{UnixUsers}.

(** ** Interpolation *)

Definition err_trait : error := Error NotFound "variable %q not found in traits".
Definition ApplyValueTraits (val : string) (traits : UserTraits) : result (list string) :=
  v ← NewExpression val;
  if String.eqb (namespace v) TraitInternalPrefix && negb (SliceContainsStr internal_traits (variable v))
  then Err (Error BadParameter "unsupported variable %q") else
  match Interpolate v traits with
  | Ok [] => Err err_trait
  | Ok interpolated => Ok interpolated
  | Err _ => Err err_trait
  end.

Definition applied (traits : UserTraits) (value : string) : list string :=
  match ApplyValueTraits value traits with Ok outputs => outputs | Err _ => [] end.
Definition applyValueTraitsSlice (inputs : list string) (traits : UserTraits) : list string :=
  inputs ≫= applied traits.

(** What a failed interpolation of a label becomes: the empty string. *)
Definition label_values (traits : UserTraits) (val : string) : list string :=
  match ApplyValueTraits val traits with Ok vs => vs | Err _ => [""] end.
Definition applyLabelsTraits (inLabels : Labels) (traits : UserTraits) : Labels :=
  foldl (fun out '(key, vals) =>
    <[ hd "" (label_values traits key) := Deduplicate (vals ≫= label_values traits) ]> out) ∅ (map_order inLabels).

Definition on_labels (get : RoleConditionType → Role → option Labels)
    (set : RoleConditionType → option Labels → Role → Role) (c : RoleConditionType) (traits : UserTraits) (r : Role) : Role :=
  match get c r with None => r | Some l => set c (Some (applyLabelsTraits l traits)) r end.

(** The extensions of certificates are shared with the role, and hold the first
    value of their template, if it has one. *)
Definition applyExtension (traits : UserTraits) (ext : CertExtension) : CertExtension :=
  match ApplyValueTraits (ce_Value ext) traits with
  | Ok (v :: _) => MkCertExtension (ce_Type ext) (ce_Mode ext) (ce_Name ext) v
  | _ => ext
  end.
Definition with_CertExtensions (f : list CertExtension → list CertExtension) (o : RoleOptions) : RoleOptions :=
  MkRoleOptions (ForwardAgent o) (MaxSessionTTL o) (PortForwarding o) (CertificateFormat o) (ClientIdleTimeout o)
    (DisconnectExpiredCert o) (BPF o) (PermitX11Forwarding o) (MaxConnections o) (MaxSessions o) (RequestAccess o)
    (RequestPrompt o) (RequireSessionMFA o) (Lock o) (RecordSession o) (DesktopClipboard o) (f (CertExtensions o))
    (MaxKubernetesConnections o) (DesktopDirectorySharing o) (CreateHostUser o) (PinSourceIP o) (SSHFileCopy o)
    (RequireMFAType o).

Definition applyImpersonate (traits : UserTraits) (inCond : ImpersonateConditions) : ImpersonateConditions :=
  MkImpersonateConditions (Deduplicate (applyValueTraitsSlice (imp_Users inCond) traits))
    (Deduplicate (applyValueTraitsSlice (imp_Roles inCond) traits)) (imp_Where inCond).

(** The body of the loop of [ApplyTraits], for one of the conditions. *)
Definition ApplyTraits_condition (traits : UserTraits) (c : RoleConditionType) (r : Role) : Role :=
  let slice l := Deduplicate (applyValueTraitsSlice l traits) in
  let r := SetLogins c (Deduplicate (filterInvalidUnixLogins (applyValueTraitsSlice (GetLogins c r) traits))) r in
  let r := SetWindowsLogins c
    (Deduplicate (filterInvalidWindowsLogins (applyValueTraitsSlice (GetWindowsLogins c r) traits))) r in
  let r := SetAWSRoleARNs c (slice (GetAWSRoleARNs c r)) r in
  let r := SetKubeGroups c (slice (GetKubeGroups c r)) r in
  let r := SetKubeUsers c (slice (GetKubeUsers c r)) r in
  let r := SetDatabaseNames c (slice (GetDatabaseNames c r)) r in
  let r := SetDatabaseUsers c (slice (GetDatabaseUsers c r)) r in
  let r := on_labels GetNodeLabels SetNodeLabels c traits r in
  let r := on_labels GetClusterLabels SetClusterLabels c traits r in
  let r := on_labels GetKubernetesLabels SetKubernetesLabels c traits r in
  let r := on_labels GetAppLabels SetAppLabels c traits r in
  let r := on_labels GetDatabaseLabels SetDatabaseLabels c traits r in
  let r := on_labels GetWindowsDesktopLabels SetWindowsDesktopLabels c traits r in
  let r := SetHostGroups c (applyValueTraitsSlice (GetHostGroups c r) traits) r in
  let r := SetHostSudoers c (applyValueTraitsSlice (GetHostSudoers c r) traits) r in
  let r := on_options (with_CertExtensions (map (applyExtension traits))) r in
  SetImpersonateConditions c (applyImpersonate traits (GetImpersonateConditions c r)) r.
Definition ApplyTraits (r : Role) (traits : UserTraits) : Role :=
  ApplyTraits_condition traits Deny (ApplyTraits_condition traits Allow r).

(** ** Roles of traits *)

(** [reExpansion] matches: a dollar with something else than a dollar after it. *)
Fixpoint ContainsExpansion (val : string) : bool :=
  match val with
  | String "$" (String c _ as rest) => negb (Ascii.eqb c "$") || ContainsExpansion rest
  | String _ rest => ContainsExpansion rest
  | EmptyString => false
  end.

Definition ReplaceRegexpWithConfig (expression replaceWith input : string) (IgnoreCase : bool) : result string :=
  let expression := anchored expression in
  let expression := if IgnoreCase then "(?i)" ++ expression else expression in
  match re_Match expression input with
  | None => Err err_regexp
  | Some false => Err (Error NotFound "no match found")
  | Some true => Ok (ReplaceAllString expression input replaceWith)
  end.
Definition ReplaceRegexp (expression replaceWith input : string) : result string :=
  ReplaceRegexpWithConfig expression replaceWith input false.

Record TraitMapping := MkTraitMapping { tm_Trait : string; tm_Value : string; tm_Roles : list string }.
Definition GetTraitMappings (cms : list ClaimMapping) : list TraitMapping :=
  map (fun m => MkTraitMapping (cm_Claim m) (cm_Value m) (cm_Roles m)) cms.

(** What one value of a trait collects, with the flag of an expansion, and the
    warnings; the first role whose expression does not match ends the value. *)
Fixpoint value_roles (value traitValue : string) (roles : list string) : list (string * bool) * list string :=
  match roles with
  | [] => ([], [])
  | role :: roles =>
      match ReplaceRegexpWithConfig value role traitValue true with
      | Err _ => ([], [])
      | Ok outRole =>
          let '(out, warnings) := value_roles value traitValue roles in
          if String.eqb outRole "" then (out, warnings) else
          match ReplaceRegexp value role traitValue with
          | Err _ => (out, "trait %q matches value %q case-insensitively and would have yielded %q role" :: warnings)
          | Ok _ => ((outRole, negb (String.eqb outRole role)) :: out, warnings)
          end
      end
  end.
(** The loop over the traits keeps those of the name of the mapping. *)
Definition mapping_roles (traits : UserTraits) (m : TraitMapping) : list (string * bool) * list string :=
  let results := map (fun v => value_roles (tm_Value m) v (tm_Roles m)) (default [] (traits !! tm_Trait m)) in
  (mjoin results.*1, mjoin results.*2).
Definition traitsToRoles (ms : list TraitMapping) (traits : UserTraits) : list (string * bool) * list string :=
  let results := map (mapping_roles traits) ms in (mjoin results.*1, mjoin results.*2).

Definition TraitsToRoles (ms : list TraitMapping) (traits : UserTraits) : list string * list string :=
  let '(collected, warnings) := traitsToRoles ms traits in (warnings, Deduplicate collected.*1).

(** The matchers collected; the first error is kept until all roles are seen. *)
Fixpoint role_matchers (collected : list (string * bool)) : result (list Matcher) :=
  match collected with
  | [] => Ok []
  | (role, expanded) :: collected =>
      if expanded || ContainsExpansion role then
        ms ← role_matchers collected; Ok (literalMatcher role :: ms)
      else m ← NewMatcher role; ms ← role_matchers collected; Ok (m :: ms)
  end.
Definition TraitsToRoleMatchers (ms : list TraitMapping) (traits : UserTraits) : result (list Matcher) :=
  role_matchers (traitsToRoles ms traits).1.
End traits.

(** ** Theorems *)

#[export] Instance RoleConditionType_eq_dec : EqDecision RoleConditionType.
Proof. solve_decision. Defined.

Section theorems.
Context `{GoLibs} `{Regexp} `{MapOrder} `{UnixUsers}.

Lemma value_roles_elem value traitValue roles role expanded :
  (role, expanded) ∈ (value_roles value traitValue roles).1 → expanded = false → role ∈ roles.
Proof.
  induction roles as [|r roles IH]; cbn [value_roles]; [by intros ?%elem_of_nil|].
  destruct (ReplaceRegexpWithConfig _ _ _ _) as [outRole|]; [|by intros ?%elem_of_nil].
  destruct (value_roles value traitValue roles) as [out ws]. cbn [fst] in *.
  destruct (String.eqb outRole ""); [intros; right; auto|].
  destruct (ReplaceRegexp value r traitValue); [|intros; right; auto].
  cbn [fst]. intros Hin ->. apply elem_of_cons in Hin as [[= -> Hx]|Hin]; [|right; auto].
  symmetry in Hx. apply negb_false_iff, String.eqb_eq in Hx as ->. left.
Qed.
Lemma traitsToRoles_elem ms traits role :
  (role, false) ∈ (traitsToRoles ms traits).1 → ∃ m, m ∈ ms ∧ role ∈ tm_Roles m.
Proof.
  unfold traitsToRoles. cbn [fst]. rewrite <- list_fmap_compose, list_elem_of_join.
  intros (l & Hl & Hin). apply list_elem_of_fmap in Hin as (m & -> & Hm). exists m. split; [done|].
  revert Hl. cbn. rewrite list_elem_of_join. intros (l & Hl & Hin).
  apply list_elem_of_fmap in Hin as (rs & -> & Hrs). apply list_elem_of_fmap in Hrs as (v & -> & _).
  by eapply value_roles_elem.
Qed.

Lemma role_matchers_elem collected l m : role_matchers collected = Ok l → m ∈ l →
  (∃ role expanded, (role, expanded) ∈ collected ∧ m = literalMatcher role) ∨
  (∃ role, (role, false) ∈ collected ∧ ContainsExpansion role = false ∧ NewMatcher role = Ok m).
Proof.
  revert l. induction collected as [|[role expanded] collected IH]; intros l; cbn [role_matchers].
  { intros [= <-] ?%elem_of_nil. done. }
  destruct (expanded || ContainsExpansion role) eqn:E.
  - rewrite result_bind_Ok. intros (ms & Hms & [= <-]) [->|Hm]%elem_of_cons; [left; eauto with go|].
    destruct (IH _ Hms Hm) as [(r & x & ? & ->)|(r & ? & ?)]; [left|right]; eauto 6 with go.
  - apply orb_false_iff in E as [-> Hx]. rewrite result_bind_Ok. intros (m' & Hm' & Hk).
    apply result_bind_Ok in Hk as (ms & Hms & [= <-]).
    intros [->|Hm]%elem_of_cons; [right; eauto 6 with go|].
    destruct (IH _ Hms Hm) as [(r & x & ? & ->)|(r & ? & ?)]; [left|right]; eauto 6 with go.
Qed.

(** Whatever the traits of a user hold, a matcher made of them is either the
    match of one literal role or a pattern written out in a mapping: the value of
    a trait never becomes part of a pattern. *)
Theorem TraitsToRoleMatchers_literal ms traits l m :
  TraitsToRoleMatchers ms traits = Ok l → m ∈ l →
  (∃ role, m = literalMatcher role ∧ ∀ s, Match m s = Some (String.eqb role s)) ∨
  (∃ mapping role, mapping ∈ ms ∧ role ∈ tm_Roles mapping ∧ ContainsExpansion role = false ∧ NewMatcher role = Ok m).
Proof.
  intros Hl Hm. destruct (role_matchers_elem _ _ _ Hl Hm) as [(r & x & _ & ->)|(r & Hr & Hx & Hn)].
  - left. by exists r.
  - right. apply traitsToRoles_elem in Hr as (mp & ? & ?). eauto 10.
Qed.

(** ** Roles with traits *)

(** A template of a role stands for a string, given the traits of the user. *)
Definition stands_for (traits : UserTraits) (v x : string) : Prop :=
  ∃ outputs, ApplyValueTraits v traits = Ok outputs ∧ x ∈ outputs.

Lemma applied_elem traits v x : x ∈ applied traits v ↔ stands_for traits v x.
Proof.
  unfold applied, stands_for. destruct (ApplyValueTraits v traits) as [l|e].
  - split; [eauto|]. by intros (? & [= <-] & ?).
  - split; [by intros ?%elem_of_nil|by intros (? & ? & ?)].
Qed.
Lemma applyValueTraitsSlice_elem l traits x :
  x ∈ applyValueTraitsSlice l traits ↔ ∃ v, v ∈ l ∧ stands_for traits v x.
Proof. unfold applyValueTraitsSlice. rewrite list_elem_of_bind. setoid_rewrite applied_elem. naive_solver. Qed.
Lemma Deduplicate_elem l x : x ∈ Deduplicate l ↔ x ∈ l.
Proof. apply Deduplicate_spec. Qed.

(** Evaluates the fields of a role, by value: every step works on a record. *)
Ltac eval_role :=
  cbv beta iota zeta delta [
    ApplyTraits_condition on_labels on_conditions on_options with_CertExtensions conditions GetOptions GetRules
    Kind SubKind Version role_Metadata Options AllowConditions DenyConditions GetLogins GetWindowsLogins
    GetAWSRoleARNs GetKubeGroups GetKubeUsers GetDatabaseNames GetDatabaseUsers GetNodeLabels GetClusterLabels
    GetKubernetesLabels GetAppLabels GetDatabaseLabels GetWindowsDesktopLabels GetHostGroups GetHostSudoers
    GetImpersonateConditions SetLogins SetWindowsLogins SetAWSRoleARNs SetKubeGroups SetKubeUsers
    SetDatabaseNames SetDatabaseUsers SetNodeLabels SetClusterLabels SetKubernetesLabels SetAppLabels
    SetDatabaseLabels SetWindowsDesktopLabels SetHostGroups SetHostSudoers SetImpersonateConditions with_Logins
    with_NodeLabels with_KubeGroups with_KubeUsers with_AppLabels with_ClusterLabels with_KubernetesLabels
    with_DatabaseLabels with_DatabaseNames with_DatabaseUsers with_Impersonate with_AWSRoleARNs
    with_WindowsDesktopLogins with_WindowsDesktopLabels with_HostGroups with_HostSudoers Logins Namespaces
    NodeLabels Rules KubeGroups Request KubeUsers AppLabels ClusterLabels KubernetesLabels DatabaseLabels
    DatabaseNames DatabaseUsers Impersonate ReviewRequests AWSRoleARNs WindowsDesktopLogins WindowsDesktopLabels
    RequireSessionJoin JoinSessions HostGroups HostSudoers ForwardAgent MaxSessionTTL PortForwarding
    CertificateFormat ClientIdleTimeout DisconnectExpiredCert BPF PermitX11Forwarding MaxConnections MaxSessions
    RequestAccess RequestPrompt RequireSessionMFA Lock RecordSession DesktopClipboard CertExtensions
    MaxKubernetesConnections DesktopDirectorySharing CreateHostUser PinSourceIP SSHFileCopy RequireMFAType
  ].

(** All fields of a role at once: labels apart, the body only sets fields. *)
Definition interpolated (traits : UserTraits) (k k' : RoleConditions) : Prop :=
  let slice l := applyValueTraitsSlice l traits in
  Logins k' = Deduplicate (filterInvalidUnixLogins (slice (Logins k))) ∧
  WindowsDesktopLogins k' = Deduplicate (filterInvalidWindowsLogins (slice (WindowsDesktopLogins k))) ∧
  Forall (fun get => get k' = Deduplicate (slice (get k)))
    [AWSRoleARNs; KubeGroups; KubeUsers; DatabaseNames; DatabaseUsers] ∧
  Forall (fun get => get k' = slice (get k)) [HostGroups; HostSudoers] ∧
  Forall (fun get => get k' = (fun l => applyLabelsTraits l traits) <$> get k)
    [NodeLabels; ClusterLabels; KubernetesLabels; AppLabels; DatabaseLabels; WindowsDesktopLabels] ∧
  Namespaces k' = Namespaces k ∧ Rules k' = Rules k ∧ Request k' = Request k ∧ ReviewRequests k' = ReviewRequests k ∧
  RequireSessionJoin k' = RequireSessionJoin k ∧ JoinSessions k' = JoinSessions k.

Lemma ApplyTraits_condition_fields traits c c' r :
  let r' := ApplyTraits_condition traits c r in
  (if decide (c = c') then interpolated traits (conditions c' r) (conditions c' r')
   else conditions c' r' = conditions c' r) ∧
  CertExtensions (GetOptions r') = map (applyExtension traits) (CertExtensions (GetOptions r)).
Proof.
  unfold interpolated. cbv zeta. destruct r as [? ? ? ? [] [? ? n ? ? ? ? ap cl ku db ? ? ? ? ? ? wi ? ? ? ?] [? ? n' ? ? ? ? ap' cl' ku' db' ? ? ? ? ? ? wi' ? ? ? ?]].
  destruct c, c'; cbn [decide].
  - destruct n, ap, cl, ku, db, wi; eval_role; repeat (reflexivity || split || constructor).
  - destruct n, ap, cl, ku, db, wi; eval_role; repeat (reflexivity || split || constructor).
  - destruct n', ap', cl', ku', db', wi'; eval_role; repeat (reflexivity || split || constructor).
  - destruct n', ap', cl', ku', db', wi'; eval_role; repeat (reflexivity || split || constructor).
Qed.

Lemma ApplyTraits_fields traits c r :
  interpolated traits (conditions c r) (conditions c (ApplyTraits r traits)).
Proof.
  unfold ApplyTraits.
  pose proof (ApplyTraits_condition_fields traits Allow c r) as [HA _].
  pose proof (ApplyTraits_condition_fields traits Deny c (ApplyTraits_condition traits Allow r)) as [HD _].
  destruct c; cbn [decide] in HA, HD; [by rewrite HD|by rewrite <- HA].
Qed.

Lemma filter_elem f (l : list string) x : x ∈ List.filter f l ↔ x ∈ l ∧ f x = true.
Proof. rewrite !list_elem_of_In. apply filter_In. Qed.

(** In a role with the traits applied, the logins of either condition are the
    valid names that its templates stand for, each once; so are the principals
    of the other kinds; rules, namespaces and the conditions of access requests
    and of sessions are as they were. *)
Theorem ApplyTraits_principals r traits c :
  let k := conditions c r in let k' := conditions c (ApplyTraits r traits) in
  (NoDup (Logins k') ∧
   ∀ x, x ∈ Logins k' ↔ IsValidUnixUser x = true ∧ ∃ v, v ∈ Logins k ∧ stands_for traits v x) ∧
  (∀ get, get ∈ [AWSRoleARNs; KubeGroups; KubeUsers; DatabaseNames; DatabaseUsers; HostGroups; HostSudoers] →
   ∀ x, x ∈ get k' ↔ ∃ v, v ∈ get k ∧ stands_for traits v x) ∧
  Namespaces k' = Namespaces k ∧ Rules k' = Rules k ∧ Request k' = Request k ∧ ReviewRequests k' = ReviewRequests k ∧
  RequireSessionJoin k' = RequireSessionJoin k ∧ JoinSessions k' = JoinSessions k.
Proof.
  cbv zeta. destruct (ApplyTraits_fields traits c r) as (HL & _ & Hd & Hh & _ & Hrest). split_and!; try apply Hrest.
  - rewrite HL. apply Deduplicate_spec.
  - intros x. rewrite HL, Deduplicate_elem. unfold filterInvalidUnixLogins.
    rewrite filter_elem, applyValueTraitsSlice_elem. tauto.
  - rewrite Forall_forall in Hd, Hh. intros get Hg x.
    assert (get ∈ [AWSRoleARNs; KubeGroups; KubeUsers; DatabaseNames; DatabaseUsers] ∨ get ∈ [HostGroups; HostSudoers])
      as [Hg'|Hg'] by (rewrite <- elem_of_app; exact Hg).
    + rewrite (Hd _ Hg'), Deduplicate_elem. apply applyValueTraitsSlice_elem.
    + rewrite (Hh _ Hg'). apply applyValueTraitsSlice_elem.
Qed.

(** The extensions of certificates are interpolated twice: a trait whose value
    is written as a template is itself interpolated. *)
Theorem ApplyTraits_extension_twice r traits ext t x xs ts :
  ext ∈ CertExtensions (GetOptions r) →
  ApplyValueTraits (ce_Value ext) traits = Ok (t :: ts) → ApplyValueTraits t traits = Ok (x :: xs) →
  MkCertExtension (ce_Type ext) (ce_Mode ext) (ce_Name ext) x ∈ CertExtensions (GetOptions (ApplyTraits r traits)).
Proof.
  intros Hin Ht Hx. unfold ApplyTraits.
  pose proof (ApplyTraits_condition_fields traits Allow Allow r) as [_ HA].
  pose proof (ApplyTraits_condition_fields traits Deny Allow (ApplyTraits_condition traits Allow r)) as [_ HD].
  rewrite HD, HA. apply list_elem_of_fmap. eexists. split; [|by apply (list_elem_of_fmap_2 (applyExtension traits))].
  unfold applyExtension at 2. rewrite Ht. unfold applyExtension. cbn [ce_Value ce_Type ce_Mode ce_Name]. by rewrite Hx.
Qed.
End theorems.
