(* ===== verification/RoleSet.v ===== *)
(** * Role sets (lib/services/role.go, lib/services/access_checker.go)

    A role set combines the roles of a user: limits and options, the logins and
    names it allows, and the decision on access to a resource. Debug logging is
    left out, and the messages that only it shows. *)

From Stdlib Require Import Ascii String.
From S2P Require Import Prelude.
From S2P Require Import Keys.
From S2P Require Import Labels.
From S2P Require Import Role.
Local Open Scope string_scope.

(** ** Sorting *)

(** [sort.Slice]: the result is sorted by a strict weak order, elements that the
    order does not tell apart coming in any order. *)
Class GoSort := { sort_Slice : ∀ {A : Type}, (A → A → bool) → list A → list A }.

Definition strict_weak {A} (less : A → A → bool) : Prop :=
  (∀ x, less x x = false) ∧ (∀ x y z, less x y = true → less y z = true → less x z = true) ∧
  (∀ x y z, less x y = false → less y z = false → less x z = false).
Class GoSortLaws `{GoSort} : Prop := {
  sort_Slice_perm : ∀ {A : Type} (less : A → A → bool) l, sort_Slice less l ≡ₚ l;
  sort_Slice_sorted : ∀ {A : Type} (less : A → A → bool) l, strict_weak less →
    StronglySorted (fun x y => less y x = false) (sort_Slice less l)
}.

(** [utils.StringsSliceFromSet]. *)
Definition string_le (a b : string) : Prop := String.leb a b = true.
#[export] Instance string_le_dec a b : Decision (string_le a b).
Proof. unfold string_le. apply _. Defined.
Definition StringsSliceFromSet (in_ : gset string) : list string := merge_sort string_le (elements in_).

(** ** Role sets *)

Abbreviation RoleSet := (list Role).

Definition DefaultImplicitRole : string := "default-implicit-role".
Definition RO : list string := ["list"; "read"].
Definition ReadNoSecrets : list string := ["list"; "readnosecrets"].
Definition MaxDuration : Z := (2 ^ 63 - 1)%Z.

Definition DefaultImplicitRules : list Rule :=
  [ NewRule "node" RO; NewRule "proxy" RO; NewRule "auth_server" RO; NewRule "tunnel" RO;
    NewRule "cert_authority" ReadNoSecrets; NewRule "cluster_auth_preference" RO;
    NewRule "cluster_name" RO; NewRule "ssh_session" RO; NewRule "app_server" RO;
    NewRule "remote_cluster" RO; NewRule "kube_service" RO; NewRule "kube_server" RO;
    NewRule "db_server" RO; NewRule "db" RO; NewRule "app" RO;
    NewRule "windows_desktop_service" RO; NewRule "windows_desktop" RO; NewRule "kube_cluster" RO ].

Definition NewImplicitRole : Role :=
  MkRole "role" "" "v3" (MkMetadata DefaultImplicitRole defaults_Namespace "" ∅ None 0%Z)
    (MkRoleOptions false MaxDuration (Some false) "" 0%Z false [] false 0%Z 0%Z "" "" false ""
      (Some (MkRecordSession (Some false) "" "")) None [] 0%Z None None false None RequireMFAType_OFF)
    (with_Namespaces (Some [defaults_Namespace]) (with_Rules DefaultImplicitRules empty_conditions))
    empty_conditions.

Definition NewRoleSet (roles : list Role) : RoleSet :=
  match roles with
  | [r] => if String.eqb (GetName r) "Nop" then roles else roles ++ [NewImplicitRole]
  | _ => roles ++ [NewImplicitRole]
  end.

Definition RoleNames (set : RoleSet) : list string :=
  omap (fun r => if String.eqb (GetName r) DefaultImplicitRole then None else Some (GetName r)) set.
Definition HasRole (set : RoleSet) (role : string) : bool :=
  existsb (fun r => String.eqb (GetName r) role) set.
Definition WithoutImplicit (set : RoleSet) : RoleSet :=
  List.filter (fun r => negb (String.eqb (GetName r) DefaultImplicitRole)) set.

(** ** Options of a set *)

Definition RoleSet_PinSourceIP (set : RoleSet) : bool := existsb (fun r => PinSourceIP (GetOptions r)) set.

Inductive MFARequired := MFARequiredNever | MFARequiredAlways | MFARequiredPerRole.
#[export] Instance MFARequired_eq_dec : EqDecision MFARequired.
Proof. solve_decision. Defined.
Record AccessMFAParams := MkMFAParams { Required : MFARequired; Verified : bool }.

Definition role_mfa (r : Role) : bool := IsSessionMFARequired (RequireMFAType (GetOptions r)).

Definition MFAParams (set : RoleSet) (authPrefRequirement : MFAType) : AccessMFAParams :=
  if bool_decide (authPrefRequirement = RequireMFAType_HARDWARE_KEY_TOUCH)
  then MkMFAParams MFARequiredNever false else
  if existsb (fun r => bool_decide (RequireMFAType (GetOptions r) = RequireMFAType_HARDWARE_KEY_TOUCH)) set
  then MkMFAParams MFARequiredNever false else
  if IsSessionMFARequired authPrefRequirement then MkMFAParams MFARequiredAlways false else
  match set with
  | [] => MkMFAParams MFARequiredNever false
  | role0 :: rest =>
      let rolesMFARequired := role_mfa role0 in
      if existsb (fun role => negb (Bool.eqb (role_mfa role) rolesMFARequired)) rest
      then MkMFAParams MFARequiredPerRole false
      else if rolesMFARequired then MkMFAParams MFARequiredAlways false
      else MkMFAParams MFARequiredNever false
  end.

Fixpoint PrivateKeyPolicy_loop (set : RoleSet) (policy : KeyPolicy) : KeyPolicy :=
  match set with
  | [] => policy
  | role :: set =>
      match GetPrivateKeyPolicy role with
      | PrivateKeyPolicyHardwareKey => PrivateKeyPolicy_loop set PrivateKeyPolicyHardwareKey
      | PrivateKeyPolicyHardwareKeyTouch => PrivateKeyPolicyHardwareKeyTouch
      | PrivateKeyPolicyNone => PrivateKeyPolicy_loop set policy
      end
  end.
Definition PrivateKeyPolicy (set : RoleSet) (defaultPolicy : KeyPolicy) : KeyPolicy :=
  if bool_decide (defaultPolicy = PrivateKeyPolicyHardwareKeyTouch) then defaultPolicy
  else PrivateKeyPolicy_loop set defaultPolicy.

Definition AdjustSessionTTL (set : RoleSet) (ttl : Z) : Z :=
  fold_left (fun ttl role =>
    let maxSessionTTL := MaxSessionTTL (GetOptions role) in
    if negb (Z.eqb maxSessionTTL 0) && Z.ltb maxSessionTTL ttl then maxSessionTTL else ttl) set ttl.

(** The loop [MaxConnections], [MaxSessions] and [MaxKubernetesConnections]
    share. *)
Definition max_limit (limit : RoleOptions → Z) (set : RoleSet) : Z :=
  fold_left (fun mcs role =>
    let m := limit (GetOptions role) in
    if negb (Z.eqb m 0) && (Z.ltb m mcs || Z.eqb mcs 0) then m else mcs) set 0%Z.
Definition RoleSet_MaxConnections : RoleSet → Z := max_limit MaxConnections.
Definition RoleSet_MaxSessions : RoleSet → Z := max_limit MaxSessions.
Definition RoleSet_MaxKubernetesConnections : RoleSet → Z := max_limit MaxKubernetesConnections.

Definition AdjustClientIdleTimeout (set : RoleSet) (timeout : Z) : Z :=
  let timeout := if Z.ltb timeout 0 then 0%Z else timeout in
  fold_left (fun timeout role =>
    let roleTimeout := ClientIdleTimeout (GetOptions role) in
    if Z.leb roleTimeout 0 then timeout
    else if Z.eqb timeout 0 then roleTimeout
    else if Z.ltb roleTimeout timeout then roleTimeout else timeout) set timeout.

Definition AdjustDisconnectExpiredCert (set : RoleSet) (disconnect : bool) : bool :=
  fold_left (fun d role => if DisconnectExpiredCert (GetOptions role) then true else d) set disconnect.

Fixpoint LockingMode_loop (set : RoleSet) (mode : string) : string :=
  match set with
  | [] => mode
  | role :: set =>
      let l := Lock (GetOptions role) in
      if String.eqb l "strict" then "strict"
      else LockingMode_loop set (if negb (String.eqb l "") then l else mode)
  end.
Definition LockingMode (set : RoleSet) (defaultMode : string) : string := LockingMode_loop set defaultMode.

Definition CertificateExtensions (set : RoleSet) : list CertExtension :=
  set ≫= fun role => CertExtensions (GetOptions role).

(** [None] is the panic on a role without recording options. *)
Fixpoint SessionRecordingMode_loop (set : RoleSet) (ssh : bool) (defaultValue : string) (useDefault : bool) :
    option string :=
  match set with
  | [] => Some (if useDefault then defaultValue else "best_effort")
  | role :: set =>
      match RecordSession (GetOptions role) with
      | None => None
      | Some rs =>
          let defaultValue := if String.eqb (rs_Default rs) "strict" then "strict" else defaultValue in
          let roleMode := if ssh then rs_SSH rs else "" in
          if String.eqb roleMode "strict" then Some "strict"
          else SessionRecordingMode_loop set ssh defaultValue
            (if String.eqb roleMode "best_effort" then false else useDefault)
      end
  end.
Definition SessionRecordingServiceSSH : Z := 0%Z.
Definition RoleSet_SessionRecordingMode (set : RoleSet) (service : Z) : option string :=
  SessionRecordingMode_loop set (Z.eqb service SessionRecordingServiceSSH) "best_effort" true.

Definition CanForwardAgents (set : RoleSet) : bool := existsb (fun r => ForwardAgent (GetOptions r)) set.
Definition CanPortForward (set : RoleSet) : bool :=
  existsb (fun r => BoolDefaultTrue (PortForwarding (GetOptions r))) set.
Definition RecordDesktopSession (set : RoleSet) : bool :=
  existsb (fun r => BoolDefaultTrue
    (match RecordSession (GetOptions r) with Some rs => rs_Desktop rs | None => None end)) set.
Definition RoleSet_DesktopClipboard (set : RoleSet) : bool :=
  forallb (fun r => BoolDefaultTrue (DesktopClipboard (GetOptions r))) set.
Definition RoleSet_DesktopDirectorySharing (set : RoleSet) : bool :=
  forallb (fun r => BoolDefaultTrue (DesktopDirectorySharing (GetOptions r))) set.
Definition RoleSet_PermitX11Forwarding (set : RoleSet) : bool :=
  existsb (fun r => PermitX11Forwarding (GetOptions r)) set.
Definition CanCopyFiles (set : RoleSet) : bool :=
  forallb (fun r => BoolDefaultTrue (SSHFileCopy (GetOptions r))) set.
Definition EnhancedRecordingSet (set : RoleSet) : gset string :=
  list_to_set (set ≫= fun r => BPF (GetOptions r)).
Definition CheckAgentForward (set : RoleSet) (login : string) : result unit :=
  if existsb (fun r => existsb (fun l => ForwardAgent (GetOptions r) && String.eqb l login) (GetLogins Allow r)) set
  then Ok () else Err (Error AccessDenied "%v can not forward agent for %v").

Definition certificatePriority (s : string) : Z :=
  if String.eqb s "oldssh" then 0%Z else if String.eqb s "standard" then 1%Z else 2%Z.
Definition RoleSet_CertificateFormat `{GoSort} (set : RoleSet) : string :=
  let formats := List.filter (fun f => negb (String.eqb f "")) (map (fun r => CertificateFormat (GetOptions r)) set) in
  match sort_Slice (fun a b => Z.ltb (certificatePriority a) (certificatePriority b)) formats with
  | [] => "standard"
  | f :: _ => f
  end.

(** ** Matchers *)

(** The interface [RoleMatcher]. *)
Definition RoleMatcher : Type := Role → RoleConditionType → result bool.

Definition AWSRoleARNMatcher (RoleARN : string) : RoleMatcher :=
  fun role c => Ok (MatchAWSRoleARN (GetAWSRoleARNs c role) RoleARN).
Definition DatabaseUserMatcher (User : string) : RoleMatcher :=
  fun role c => Ok (MatchDatabaseUser (GetDatabaseUsers c role) User).
Definition DatabaseNameMatcher (Name : string) : RoleMatcher :=
  fun role c => Ok (MatchDatabaseName (GetDatabaseNames c role) Name).
Definition NewLoginMatcher (login : string) : RoleMatcher :=
  fun role c => Ok (existsb (fun l => String.eqb login l) (GetLogins c role)).
Definition NewWindowsLoginMatcher (login : string) : RoleMatcher :=
  fun role c => Ok (existsb (fun l => String.eqb login l) (GetWindowsLogins c role)).

Fixpoint MatchAll (ms : list RoleMatcher) (role : Role) (c : RoleConditionType) : result bool :=
  match ms with
  | [] => Ok true
  | m :: ms =>
      match m role c with
      | Err e => Err e
      | Ok false => Ok false
      | Ok true => MatchAll ms role c
      end
  end.
(** The matcher that matched is only logged. *)
Fixpoint MatchAny (ms : list RoleMatcher) (role : Role) (c : RoleConditionType) : result bool :=
  match ms with
  | [] => Ok false
  | m :: ms =>
      match m role c with
      | Err e => Err e
      | Ok true => Ok true
      | Ok false => MatchAny ms role c
      end
  end.

(** A nil map of labels is an empty one to [MatchLabels]. *)
Definition labels_of (l : option Labels) : Labels := default ∅ l.
Definition namespaces_of (l : option (list string)) : list string := default [] l.

Section role_set.
Context `{Regexp} `{MapOrder}.

Definition getKubeLabels (role : Role) (typ : RoleConditionType) : Labels :=
  let labels := labels_of (GetKubernetesLabels typ role) in
  if bool_decide (labels = ∅) && match typ with Deny => true | Allow => false end
  then all_labels else labels.
Definition NewKubernetesClusterLabelMatcher (clusterLabels : gmap string string) : RoleMatcher :=
  fun role typ => MatchLabels (getKubeLabels role typ) clusterLabels.

(** ** Access to a resource *)

(** What [checkAccess] reads of an [AccessCheckable]. *)
Record AccessCheckable := MkCheckable {
  ac_Kind : string; ac_Name : string; ac_Namespace : string; ac_Labels : gmap string string
}.

Definition ErrSessionMFARequired : error := Error AccessDenied "access to resource requires MFA".
Definition err_denied : error := Error AccessDenied "access to %v denied. User does not have permissions. %v".

(** The label getter of a kind. *)
Definition getRoleLabels (kind : string) : option (Role → RoleConditionType → option Labels) :=
  if String.eqb kind "db" then Some (fun r c => GetDatabaseLabels c r)
  else if String.eqb kind "app" then Some (fun r c => GetAppLabels c r)
  else if String.eqb kind "node" then Some (fun r c => GetNodeLabels c r)
  else if String.eqb kind "kube_cluster" then Some (fun r c => GetKubernetesLabels c r)
  else if String.eqb kind "windows_desktop" then Some (fun r c => GetWindowsDesktopLabels c r)
  else if String.eqb kind "windows_desktop_service" then Some (fun r c => GetWindowsDesktopLabels c r)
  else None.

(** The loop over the deny rules. *)
Fixpoint checkAccess_deny (get : Role → RoleConditionType → option Labels) (namespace : string)
    (allLabels : gmap string string) (matchers : list RoleMatcher) (set : RoleSet) : result unit :=
  match set with
  | [] => Ok ()
  | role :: set =>
      if negb (MatchNamespace (namespaces_of (GetNamespaces Deny role)) namespace)
      then checkAccess_deny get namespace allLabels matchers set
      else
        match MatchLabels (labels_of (get role Deny)) allLabels with
        | Err e => Err e
        | Ok true => Err err_denied
        | Ok false =>
            match MatchAny matchers role Deny with
            | Err e => Err e
            | Ok true => Err err_denied
            | Ok false => checkAccess_deny get namespace allLabels matchers set
            end
        end
  end.

(** The loop over the allow rules. *)
Fixpoint checkAccess_allow (get : Role → RoleConditionType → option Labels) (namespace : string)
    (allLabels : gmap string string) (mfa : AccessMFAParams) (matchers : list RoleMatcher)
    (set : RoleSet) (allowed : bool) : result unit :=
  match set with
  | [] => if allowed then Ok () else Err err_denied
  | role :: set =>
      let continue := checkAccess_allow get namespace allLabels mfa matchers set in
      if negb (MatchNamespace (namespaces_of (GetNamespaces Allow role)) namespace)
      then continue allowed
      else
        match MatchLabels (labels_of (get role Allow)) allLabels with
        | Err e => Err e
        | Ok false => continue allowed
        | Ok true =>
            match MatchAll matchers role Allow with
            | Err e => Err e
            | Ok false => continue allowed
            | Ok true =>
                if Verified mfa || bool_decide (Required mfa = MFARequiredNever) then Ok ()
                else if role_mfa role then Err ErrSessionMFARequired
                else continue true
            end
        end
  end.

Definition checkAccess (set : RoleSet) (r : AccessCheckable) (mfa : AccessMFAParams)
    (matchers : list RoleMatcher) : result unit :=
  if bool_decide (Required mfa = MFARequiredAlways) && negb (Verified mfa)
  then Err ErrSessionMFARequired else
  let namespace := ProcessNamespace (ac_Namespace r) in
  match getRoleLabels (ac_Kind r) with
  | None => Err (Error BadParameter "cannot match labels for kind %v")
  | Some get =>
      match checkAccess_deny get namespace (ac_Labels r) matchers set with
      | Err e => Err e
      | Ok _ => checkAccess_allow get namespace (ac_Labels r) mfa matchers set false
      end
  end.

(** ** Access checkers *)

Record ResourceID := MkResourceID { rid_ClusterName : string; rid_Kind : string; rid_Name : string }.
Record accessChecker := MkChecker {
  AllowedResourceIDs : list ResourceID; localCluster : string; checker_RoleSet : RoleSet
}.

Definition checkAllowedResources (a : accessChecker) (r : AccessCheckable) : result unit :=
  match AllowedResourceIDs a with
  | [] => Ok ()
  | ids =>
      if existsb (fun id => String.eqb (rid_ClusterName id) (localCluster a) &&
           String.eqb (rid_Kind id) (ac_Kind r) && String.eqb (rid_Name id) (ac_Name r)) ids
      then Ok ()
      else Err (Error AccessDenied "access to %v denied, not in allowed resource IDs")
  end.

Definition CheckAccess (a : accessChecker) (r : AccessCheckable) (mfa : AccessMFAParams)
    (matchers : list RoleMatcher) : result unit :=
  match checkAllowedResources a r with
  | Err e => Err e
  | Ok _ => checkAccess (checker_RoleSet a) r mfa matchers
  end.

(** ** Remote clusters *)

Definition err_cluster : error := Error AccessDenied "access to cluster denied".
Definition usesLabels (set : RoleSet) : bool :=
  existsb (fun role => negb (bool_decide (labels_of (GetClusterLabels Allow role) = ∅)) ||
    negb (bool_decide (labels_of (GetClusterLabels Deny role) = ∅))) set.
Fixpoint remote_deny (set : RoleSet) (rcLabels : gmap string string) : result unit :=
  match set with
  | [] => Ok ()
  | role :: set =>
      match MatchLabels (labels_of (GetClusterLabels Deny role)) rcLabels with
      | Err e => Err e
      | Ok true => Err err_cluster
      | Ok false => remote_deny set rcLabels
      end
  end.
Fixpoint remote_allow (set : RoleSet) (rcLabels : gmap string string) : result unit :=
  match set with
  | [] => Err err_cluster
  | role :: set =>
      match MatchLabels (labels_of (GetClusterLabels Allow role)) rcLabels with
      | Err e => Err e
      | Ok true => Ok ()
      | Ok false => remote_allow set rcLabels
      end
  end.
Definition CheckAccessToRemoteCluster (set : RoleSet) (rcLabels : gmap string string) : result unit :=
  match set with
  | [] => Err err_cluster
  | _ =>
      if negb (usesLabels set) && bool_decide (rcLabels = ∅) then Ok () else
      match remote_deny set rcLabels with
      | Err e => Err e
      | Ok _ => remote_allow set rcLabels
      end
  end.

(** ** Names a set allows *)

(** [overrideTTL || (ttl <= maxSessionTTL && maxSessionTTL != 0)]. *)
Definition ttl_ok (ttl : Z) (overrideTTL : bool) (role : Role) : bool :=
  let maxSessionTTL := MaxSessionTTL (GetOptions role) in
  overrideTTL || (Z.leb ttl maxSessionTTL && negb (Z.eqb maxSessionTTL 0)).

Definition add_all (l : list string) (s : gset string) : gset string :=
  fold_left (fun s x => {[ x ]} ∪ s) l s.
Definition delete_all (l : list string) (s : gset string) : gset string :=
  fold_left (fun s x => s ∖ {[ x ]}) l s.

Fixpoint kube_allow (set : RoleSet) (ttl : Z) (overrideTTL : bool) (matchers : list RoleMatcher)
    (groups users : gset string) (matchedTTL : bool) : result (gset string * gset string * bool) :=
  match set with
  | [] => Ok (groups, users, matchedTTL)
  | role :: set =>
      match MatchAll matchers role Allow with
      | Err e => Err e
      | Ok false => kube_allow set ttl overrideTTL matchers groups users matchedTTL
      | Ok true =>
          if ttl_ok ttl overrideTTL role
          then kube_allow set ttl overrideTTL matchers (add_all (GetKubeGroups Allow role) groups)
                 (add_all (GetKubeUsers Allow role) users) true
          else kube_allow set ttl overrideTTL matchers groups users matchedTTL
      end
  end.
Fixpoint kube_deny (set : RoleSet) (matchers : list RoleMatcher) (groups users : gset string) :
    result (gset string * gset string) :=
  match set with
  | [] => Ok (groups, users)
  | role :: set =>
      match MatchAny matchers role Deny with
      | Err e => Err e
      | Ok false => kube_deny set matchers groups users
      | Ok true => kube_deny set matchers (delete_all (GetKubeGroups Deny role) groups)
                     (delete_all (GetKubeUsers Deny role) users)
      end
  end.
Definition CheckKubeGroupsAndUsers (set : RoleSet) (ttl : Z) (overrideTTL : bool)
    (matchers : list RoleMatcher) : result (list string * list string) :=
  match kube_allow set ttl overrideTTL matchers ∅ ∅ false with
  | Err e => Err e
  | Ok (groups, users, matchedTTL) =>
      match kube_deny set matchers groups users with
      | Err e => Err e
      | Ok (groups, users) =>
          if negb matchedTTL
          then Err (Error AccessDenied "this user cannot request kubernetes access for %v") else
          if bool_decide (groups = ∅) && bool_decide (users = ∅)
          then Err (Error NotFound "this user cannot request kubernetes access, has no assigned groups or users")
          else Ok (StringsSliceFromSet groups, StringsSliceFromSet users)
      end
  end.

(** The names the roles within the TTL allow, less those any role denies: the
    two loops of [CheckDatabaseNamesAndUsers] and [CheckAWSRoleARNs], for one
    kind of name. *)
Definition collect_names (get : RoleConditionType → Role → list string) (set : RoleSet) (ttl : Z)
    (overrideTTL : bool) : gset string :=
  let names := fold_left (fun s role =>
    if ttl_ok ttl overrideTTL role then add_all (get Allow role) s else s) set ∅ in
  fold_left (fun s role => delete_all (get Deny role) s) set names.
Definition matched_ttl (set : RoleSet) (ttl : Z) (overrideTTL : bool) : bool :=
  existsb (ttl_ok ttl overrideTTL) set.

Definition CheckDatabaseNamesAndUsers (set : RoleSet) (ttl : Z) (overrideTTL : bool) :
    result (list string * list string) :=
  let names := collect_names GetDatabaseNames set ttl overrideTTL in
  let users := collect_names GetDatabaseUsers set ttl overrideTTL in
  if negb (matched_ttl set ttl overrideTTL)
  then Err (Error AccessDenied "this user cannot request database access for %v") else
  if bool_decide (names = ∅) && bool_decide (users = ∅)
  then Err (Error NotFound "this user cannot request database access, has no assigned database names or users")
  else Ok (StringsSliceFromSet names, StringsSliceFromSet users).
Definition CheckAWSRoleARNs (set : RoleSet) (ttl : Z) (overrideTTL : bool) : result (list string) :=
  let arns := collect_names GetAWSRoleARNs set ttl overrideTTL in
  if negb (matched_ttl set ttl overrideTTL)
  then Err (Error AccessDenied "this user cannot request AWS management console access for %v") else
  if bool_decide (arns = ∅)
  then Err (Error NotFound "this user cannot request AWS management console, has no assigned role ARNs")
  else Ok (StringsSliceFromSet arns).

Definition GetLoginsForTTL (set : RoleSet) (ttl : Z) : list string * bool :=
  (Deduplicate (set ≫= fun role => if ttl_ok ttl false role then GetLogins Allow role else []),
   matched_ttl set ttl false).
Definition GetAllLogins (set : RoleSet) : list string := (GetLoginsForTTL set 0).1.
Definition hasPossibleLogins (set : RoleSet) : bool :=
  existsb (fun role => negb (String.eqb (GetName role) DefaultImplicitRole) &&
    negb (Nat.eqb (length (GetLogins Allow role)) 0)) set.
(** [uuid] is the identifier drawn for a login that no system has. *)
Definition CheckLoginDuration (set : RoleSet) (ttl : Z) (uuid : string) : result (list string) :=
  let (logins, matchedTTL) := GetLoginsForTTL set ttl in
  if negb matchedTTL then Err (Error AccessDenied "this user cannot request a certificate for %v") else
  let logins := match logins with
    | [] => if negb (hasPossibleLogins set) then [("-teleport-nologin-" ++ uuid)%string] else []
    | _ => logins end in
  match logins with
  | [] => Err (Error AccessDenied "this user cannot create SSH sessions, has no allowed logins")
  | _ => Ok logins
  end.

(** [GetAllowedSearchAsRoles] and [GetAllowedPreviewAsRoles]. *)
Definition allowed_roles (get : RoleConditionType → Role → list string) (set : RoleSet) : list string :=
  let denied := add_all (set ≫= get Deny) ∅ in
  Deduplicate (List.filter (fun a => negb (bool_decide (a ∈ denied))) (set ≫= get Allow)).
Definition GetAllowedSearchAsRoles : RoleSet → list string := allowed_roles GetSearchAsRoles.
Definition GetAllowedPreviewAsRoles : RoleSet → list string := allowed_roles GetPreviewAsRoles.

(** ** Host users *)

Record HostUsersInfo := MkHostUsers { Groups : list string; Sudoers : list string }.

Fixpoint host_allow (set : RoleSet) (serverLabels : gmap string string) (groups sudoers : gset string) :
    result (gset string * gset string) :=
  match set with
  | [] => Ok (groups, sudoers)
  | role :: set =>
      match MatchLabels (labels_of (GetNodeLabels Allow role)) serverLabels with
      | Err e => Err e
      | Ok false => host_allow set serverLabels groups sudoers
      | Ok true =>
          match CreateHostUser (GetOptions role) with
          | Some true => host_allow set serverLabels (add_all (GetHostGroups Allow role) groups)
                           (add_all (GetHostSudoers Allow role) sudoers)
          | _ => Err (Error AccessDenied "user is not allowed to create host users")
          end
      end
  end.
(** The loop over a role's denied sudoers: a star drops them all. *)
Fixpoint delete_sudoers (l : list string) (s : gset string) : gset string :=
  match l with
  | [] => s
  | sudoer :: l => if String.eqb sudoer "*" then ∅ else delete_sudoers l (s ∖ {[ sudoer ]})
  end.
Fixpoint host_deny (set : RoleSet) (serverLabels : gmap string string) (groups sudoers : gset string) :
    result (gset string * gset string) :=
  match set with
  | [] => Ok (groups, sudoers)
  | role :: set =>
      match MatchLabels (labels_of (GetNodeLabels Deny role)) serverLabels with
      | Err e => Err e
      | Ok false => host_deny set serverLabels groups sudoers
      | Ok true => host_deny set serverLabels (delete_all (GetHostGroups Deny role) groups)
                     (delete_sudoers (GetHostSudoers Deny role) sudoers)
      end
  end.
Definition HostUsers (set : RoleSet) (serverLabels : gmap string string) : result HostUsersInfo :=
  match host_allow set serverLabels ∅ ∅ with
  | Err e => Err e
  | Ok (groups, sudoers) =>
      match host_deny set serverLabels groups sudoers with
      | Err e => Err e
      | Ok (groups, sudoers) =>
          Ok (MkHostUsers (StringsSliceFromSet groups) (StringsSliceFromSet sudoers))
      end
  end.

(** ** Enumeration *)

Record EnumerationResult := MkEnumeration {
  allowedDeniedMap : gmap string bool; wildcardAllowed : bool; wildcardDenied : bool
}.
Definition filtered (result : EnumerationResult) (value : bool) : list string :=
  merge_sort string_le (omap (fun '(e, allow) => if Bool.eqb allow value then Some e else None)
    (map_to_list (allowedDeniedMap result))).
Definition Denied (result : EnumerationResult) : list string := filtered result false.
Definition Allowed (result : EnumerationResult) : list string :=
  if wildcardDenied result then [] else filtered result true.
Definition WildcardAllowed (result : EnumerationResult) : bool :=
  wildcardAllowed result && negb (wildcardDenied result).

Definition verified_mfa : AccessMFAParams := MkMFAParams MFARequiredNever true.

(** [AccessMFAParams{Verified: true}] leaves [Required] empty, which is neither
    of the values tested: any other than [MFARequiredAlways] does the same once
    MFA is verified. *)
Definition EnumerateDatabaseUsers (set : RoleSet) (database : AccessCheckable) (extraUsers : list string) :
    EnumerationResult :=
  let denied := existsb (fun role => SliceContainsStr (GetDatabaseUsers Deny role) Wildcard) set in
  let allowed := existsb (fun role => SliceContainsStr (GetDatabaseUsers Allow role) Wildcard &&
    is_Ok (checkAccess (NewRoleSet [role]) database verified_mfa [])) set in
  let users := set ≫= fun role => List.filter (fun u => negb (String.eqb u Wildcard))
    (GetDatabaseUsers Allow role ++ GetDatabaseUsers Deny role)%list in
  let users := Deduplicate (users ++ extraUsers)%list in
  MkEnumeration (list_to_map (map (fun user =>
      (user, is_Ok (checkAccess set database verified_mfa [DatabaseUserMatcher user]))) users))
    allowed denied.
Definition EnumerateServerLogins (set : RoleSet) (server : AccessCheckable) : EnumerationResult :=
  let logins := Deduplicate (set ≫= fun role => (GetLogins Allow role ++ GetLogins Deny role)%list) in
  MkEnumeration (list_to_map (map (fun user =>
      (user, is_Ok (checkAccess set server verified_mfa [NewLoginMatcher user]))) logins))
    false false.
End role_set.

(** ** Lemmas *)
Local Open Scope list_scope.

(** *** Sets of names *)

Lemma elem_of_add_all x l s : x ∈ add_all l s ↔ x ∈ l ∨ x ∈ s.
Proof.
  revert s. induction l as [|y l IH]; intros s; cbn.
  - split; [by right|]. intros [[]%not_elem_of_nil|]; done.
  - unfold add_all in *. rewrite IH, elem_of_cons, elem_of_union, elem_of_singleton. tauto.
Qed.

Lemma elem_of_delete_all x l s : x ∈ delete_all l s ↔ x ∈ s ∧ (x ∉ l).
Proof.
  revert s. induction l as [|y l IH]; intros s; cbn.
  - split; [|by intros []]. intros Hx. split; [done|apply not_elem_of_nil].
  - unfold delete_all in *. rewrite IH, not_elem_of_cons, elem_of_difference, elem_of_singleton. tauto.
Qed.

Lemma elem_of_delete_sudoers x l s :
  x ∈ delete_sudoers l s ↔ x ∈ s ∧ (x ∉ l) ∧ ("*" ∉ l).
Proof.
  revert s. induction l as [|y l IH]; intros s; cbn [delete_sudoers].
  - split; [|by intros []]. intros Hx. split; [done|]. split; apply not_elem_of_nil.
  - rewrite !not_elem_of_cons. destruct (String.eqb_spec y "*") as [->|Hy].
    + split; [by intros ?%elem_of_empty|]. intros (_ & _ & [] & _). done.
    + rewrite IH, elem_of_difference, elem_of_singleton.
      assert ("*" ≠ y) by congruence. tauto.
Qed.

Lemma elem_of_StringsSliceFromSet x s : x ∈ StringsSliceFromSet s ↔ x ∈ s.
Proof. unfold StringsSliceFromSet. by rewrite merge_sort_Permutation, elem_of_elements. Qed.

Lemma StringsSliceFromSet_nil s : StringsSliceFromSet s = [] ↔ s = ∅.
Proof.
  split; [|by intros ->]. intros Hs. apply set_eq. intros x.
  rewrite <- elem_of_StringsSliceFromSet, Hs, elem_of_empty. split; [apply not_elem_of_nil|done].
Qed.

Lemma string_le_total a b : string_le a b ∨ string_le b a.
Proof. apply String.leb_total. Qed.

(** The names are sorted, without repetitions. *)
Lemma StringsSliceFromSet_sorted s : Sorted string_le (StringsSliceFromSet s) ∧ NoDup (StringsSliceFromSet s).
Proof.
  unfold StringsSliceFromSet. split.
  - apply Sorted_merge_sort. intros a b. apply string_le_total.
  - rewrite merge_sort_Permutation. apply NoDup_elements.
Qed.

Lemma elem_of_collect_names get set ttl o x :
  x ∈ collect_names get set ttl o ↔
  (∃ role, role ∈ set ∧ ttl_ok ttl o role = true ∧ x ∈ get Allow role) ∧
  (∀ role, role ∈ set → x ∉ get Deny role).
Proof.
  unfold collect_names.
  assert (∀ s, x ∈ fold_left (fun s role => delete_all (get Deny role) s) set s ↔
    x ∈ s ∧ ∀ role, role ∈ set → x ∉ get Deny role) as Hd.
  { induction set as [|r set IH]; intros s; cbn.
    - split; [|by intros []]. intros Hx. split; [done|]. by intros ? ?%not_elem_of_nil.
    - rewrite IH, elem_of_delete_all. setoid_rewrite elem_of_cons. split.
      + intros [[Hx Hr] Hs]. split; [done|]. by intros ? [->|?]; [|apply Hs].
      + intros [Hx Hs]. split; [split; [done|]|]; auto. }
  assert (∀ s, x ∈ fold_left (fun s role => if ttl_ok ttl o role then add_all (get Allow role) s else s) set s ↔
    x ∈ s ∨ ∃ role, role ∈ set ∧ ttl_ok ttl o role = true ∧ x ∈ get Allow role) as Ha.
  { clear Hd. induction set as [|r set IH]; intros s; cbn.
    - split; [by left|]. intros [|(? & []%not_elem_of_nil & _)]; done.
    - rewrite IH. rewrite (exists_cons_iff r set).
      destruct (ttl_ok ttl o r) eqn:Ht; [rewrite elem_of_add_all|]; intuition congruence. }
  rewrite Hd, Ha, elem_of_empty. tauto.
Qed.

Lemma matched_ttl_true set ttl o : matched_ttl set ttl o = true ↔ ∃ role, role ∈ set ∧ ttl_ok ttl o role = true.
Proof. apply existsb_elem. Qed.

(** *** Limits *)

Definition least_nonzero (m : Z) (l : list Z) : Prop :=
  (m = 0 ∧ ∀ x, x ∈ l → x = 0)%Z ∨ (m ≠ 0 ∧ m ∈ l ∧ ∀ x, x ∈ l → x ≠ 0 → m ≤ x)%Z.
Definition least_positive (m : Z) (l : list Z) : Prop :=
  (m = 0 ∧ ∀ x, x ∈ l → x ≤ 0)%Z ∨ (0 < m ∧ m ∈ l ∧ ∀ x, x ∈ l → 0 < x → m ≤ x)%Z.

(** A fold that keeps a bound on the elements seen: [step] moves the least
    element of a list to that of the list with one more element. *)
Lemma fold_left_least {A} (P : Z → list Z → Prop) (step : Z → A → Z) (val : A → Z) set acc l :
  (∀ m a l, P m l → P (step m a) (l ++ [val a])) → P acc l →
  P (fold_left step set acc) (l ++ map val set).
Proof.
  intros Hstep. revert acc l. induction set as [|a set IH]; intros acc l Hp; cbn.
  - by rewrite app_nil_r.
  - assert (l ++ val a :: map val set = (l ++ [val a]) ++ map val set) as -> by by rewrite <- app_assoc.
    apply IH. by apply Hstep.
Qed.

Lemma least_nonzero_step m x l :
  least_nonzero m l →
  least_nonzero (if negb (Z.eqb x 0) && (Z.ltb x m || Z.eqb m 0) then x else m) (l ++ [x]).
Proof.
  intros Hm. unfold least_nonzero. setoid_rewrite elem_of_app. setoid_rewrite list_elem_of_singleton.
  destruct (Z.eqb_spec x 0) as [->|Hx]; cbn [negb andb].
  { destruct Hm as [[-> Hl]|(H0 & Hin & Hl)]; [left; naive_solver|right; naive_solver]. }
  right. destruct (Z.ltb_spec x m); cbn [orb].
  { split_and!; [done|by right|]. intros y [Hy| ->]; [|lia]. intros Hy0.
    destruct Hm as [[-> Hl]|(H0 & Hin & Hl)]; [specialize (Hl y Hy); lia|specialize (Hl y Hy Hy0); lia]. }
  destruct (Z.eqb_spec m 0) as [->|Hm0].
  { split_and!; [done|by right|]. intros y [Hy| ->]; [|lia]. intros Hy0.
    destruct Hm as [[_ Hl]|(H0 & _)]; [by destruct (Hy0 (Hl y Hy))|done]. }
  destruct Hm as [[-> _]|(H0 & Hin & Hl)]; [done|].
  split_and!; [done|by left|]. intros y [Hy| ->] Hy0; [by apply Hl|lia].
Qed.

Lemma max_limit_least limit (set : RoleSet) : least_nonzero (max_limit limit set) (map (fun r => limit (GetOptions r)) set).
Proof.
  unfold max_limit.
  apply (fold_left_least least_nonzero _ (fun r => limit (GetOptions r)) set 0%Z []).
  - intros m a l. apply least_nonzero_step.
  - left. split; [done|]. by intros x ?%not_elem_of_nil.
Qed.

Lemma least_positive_step m x l :
  least_positive m l →
  least_positive (if Z.leb x 0 then m else if Z.eqb m 0 then x else if Z.ltb x m then x else m) (l ++ [x]).
Proof.
  intros Hm. unfold least_positive. setoid_rewrite elem_of_app. setoid_rewrite list_elem_of_singleton.
  destruct (Z.leb_spec x 0) as [Hx|Hx].
  { destruct Hm as [[-> Hl]|(H0 & Hin & Hl)]; [left|right].
    - split; [done|]. intros y [?| ->]; [auto|done].
    - split_and!; [done|by left|]. intros y [?| ->] ?; [auto|lia]. }
  right. destruct (Z.eqb_spec m 0) as [->|Hm0].
  { destruct Hm as [[_ Hl]|(? & _)]; [|lia]. split_and!; [done|by right|].
    intros y [Hy| ->] ?; [specialize (Hl y Hy); lia|lia]. }
  destruct Hm as [[-> _]|(H0 & Hin & Hl)]; [done|].
  destruct (Z.ltb_spec x m); split_and!; try lia; auto.
  - intros y [Hy| ->] ?; [specialize (Hl y Hy); lia|lia].
  - intros y [Hy| ->] ?; [auto|lia].
Qed.

Lemma AdjustClientIdleTimeout_least (set : RoleSet) t :
  least_positive (AdjustClientIdleTimeout set t) (t :: map (fun r => ClientIdleTimeout (GetOptions r)) set).
Proof.
  unfold AdjustClientIdleTimeout. cbv zeta.
  apply (fold_left_least least_positive _ (fun r => ClientIdleTimeout (GetOptions r)) set _ [t]).
  - intros m a l. apply least_positive_step.
  - unfold least_positive. setoid_rewrite list_elem_of_singleton.
    destruct (Z.ltb_spec t 0); [left; naive_solver lia|].
    destruct (Z.eq_dec t 0) as [->|]; [left; naive_solver lia|right; naive_solver lia].
Qed.

Lemma AdjustSessionTTL_least (set : RoleSet) ttl :
  (AdjustSessionTTL set ttl ≤ ttl)%Z ∧
  (∀ r : Role, r ∈ set → MaxSessionTTL (GetOptions r) ≠ 0%Z → (AdjustSessionTTL set ttl ≤ MaxSessionTTL (GetOptions r))%Z) ∧
  (AdjustSessionTTL set ttl = ttl ∨
   ∃ r : Role, r ∈ set ∧ MaxSessionTTL (GetOptions r) ≠ 0%Z ∧ AdjustSessionTTL set ttl = MaxSessionTTL (GetOptions r)).
Proof.
  unfold AdjustSessionTTL. revert ttl. induction set as [|r set IH]; intros ttl; cbn [fold_left].
  { split_and!; [lia|by intros ? ?%not_elem_of_nil|by left]. }
  cbv zeta. pose (m := MaxSessionTTL (GetOptions r)). fold m.
  pose (t := if negb (m =? 0)%Z && (m <? ttl)%Z then m else ttl). fold t.
  destruct (IH t) as (H1 & H2 & H3). clear IH.
  assert ((t ≤ ttl)%Z ∧ (m ≠ 0%Z → (t ≤ m)%Z) ∧ (t = ttl ∨ m ≠ 0%Z ∧ t = m)) as (Ha & Hb & Hc).
  { unfold t. destruct (Z.eqb_spec m 0), (Z.ltb_spec m ttl); cbn; split_and!; auto; lia. }
  split_and!; [lia| |].
  - intros r' [->|Hr']%elem_of_cons Hm; [|by apply H2]. specialize (Hb Hm). fold m. lia.
  - rewrite exists_cons_iff. fold m.
    destruct H3 as [->|Hr]; [destruct Hc as [->|Hc]; [by left|right; by left]|right; by right].
Qed.

(** *** Key policies *)

Lemma VerifyPolicy_loop p (set : RoleSet) d :
  d ≠ PrivateKeyPolicyHardwareKeyTouch →
  VerifyPolicy (PrivateKeyPolicy_loop set d) p = Ok () ↔
  VerifyPolicy d p = Ok () ∧ ∀ r : Role, r ∈ set → VerifyPolicy (GetPrivateKeyPolicy r) p = Ok ().
Proof.
  revert d. induction set as [|r set IH]; intros d Hd; cbn [PrivateKeyPolicy_loop].
  { split; [|by intros []]. intros ?. split; [done|]. by intros ? ?%not_elem_of_nil. }
  setoid_rewrite elem_of_cons.
  assert (∀ d, VerifyPolicy PrivateKeyPolicyHardwareKeyTouch p = Ok () → VerifyPolicy d p = Ok ()) as Hmax.
  { intros []; destruct p; cbn; done. }
  assert (VerifyPolicy PrivateKeyPolicyHardwareKey p = Ok () → VerifyPolicy PrivateKeyPolicyNone p = Ok ()) as Hmid by done.
  destruct (GetPrivateKeyPolicy r) eqn:Hr.
  - rewrite IH by done. split; [intros [? H2]; split; [done|]|intros [? H2]; split; [done|]]; [|by auto].
    intros r' [->|]; [by rewrite Hr|by auto].
  - rewrite IH by done. split.
    + intros [H1 H2]. split; [destruct d; done|]. intros r' [->|]; [by rewrite Hr|by auto].
    + intros [H1 H2]. split; [|by auto]. specialize (H2 r ltac:(auto with go)). by rewrite Hr in H2.
  - split.
    + intros Ht. split; [by apply Hmax|]. intros r' _. by apply Hmax.
    + intros [_ H2]. specialize (H2 r ltac:(auto with go)). by rewrite Hr in H2.
Qed.

(** *** Access *)

Section access.
Context `{Regexp} `{MapOrder}.
Implicit Types (set : RoleSet) (role : Role) (ms : list RoleMatcher).

(** Whether a role denies a resource: a match of the namespace with the labels
    or with one of the matchers. *)
Definition denies (get : Role → RoleConditionType → option Labels) (r : AccessCheckable) ms role : result bool :=
  if negb (MatchNamespace (namespaces_of (GetNamespaces Deny role)) (ProcessNamespace (ac_Namespace r)))
  then Ok false
  else
    match MatchLabels (labels_of (get role Deny)) (ac_Labels r) with
    | Err e => Err e
    | Ok true => Ok true
    | Ok false => MatchAny ms role Deny
    end.
(** Whether a role allows it: a match of the namespace, the labels and all the
    matchers. *)
Definition allows (get : Role → RoleConditionType → option Labels) (r : AccessCheckable) ms role : result bool :=
  if negb (MatchNamespace (namespaces_of (GetNamespaces Allow role)) (ProcessNamespace (ac_Namespace r)))
  then Ok false
  else
    match MatchLabels (labels_of (get role Allow)) (ac_Labels r) with
    | Err e => Err e
    | Ok false => Ok false
    | Ok true => MatchAll ms role Allow
    end.

(** What [checkAccess] calls, on a resource. *)
Definition deny_loop get (r : AccessCheckable) ms set : result unit :=
  checkAccess_deny get (ProcessNamespace (ac_Namespace r)) (ac_Labels r) ms set.
Definition allow_loop get (r : AccessCheckable) mfa ms set (b : bool) : result unit :=
  checkAccess_allow get (ProcessNamespace (ac_Namespace r)) (ac_Labels r) mfa ms set b.

Lemma deny_loop_Ok get r ms set :
  deny_loop get r ms set = Ok () ↔ ∀ role, role ∈ set → denies get r ms role = Ok false.
Proof.
  unfold deny_loop. induction set as [|role set IH]; cbn [checkAccess_deny].
  { split; [|done]. by intros _ ? ?%not_elem_of_nil. }
  rewrite forall_cons_iff.
  unfold denies at 1. destruct (negb _); [rewrite IH; tauto|].
  destruct (MatchLabels _ _) as [[]|]; [naive_solver| |naive_solver].
  destruct (MatchAny ms role Deny) as [[]|]; [naive_solver|rewrite IH; tauto|naive_solver].
Qed.

(** MFA is settled before the roles are looked at. *)
Definition mfa_settled (mfa : AccessMFAParams) : bool :=
  Verified mfa || bool_decide (Required mfa = MFARequiredNever).

Lemma allow_loop_granted get r mfa ms set b :
  allow_loop get r mfa ms set b = Ok () →
  b = true ∨ ∃ role, role ∈ set ∧ allows get r ms role = Ok true ∧
    (mfa_settled mfa = true ∨ role_mfa role = false).
Proof.
  unfold allow_loop. revert b. induction set as [|role set IH]; intros b; cbn [checkAccess_allow].
  { by destruct b; [left|]. }
  rewrite exists_cons_iff. unfold allows at 1. cbv zeta.
  destruct (negb _); [intros ?%IH; tauto|].
  destruct (MatchLabels _ _) as [[]|]; [|intros ?%IH; tauto|done].
  destruct (MatchAll ms role Allow) as [[]|]; [|intros ?%IH; tauto|done].
  unfold mfa_settled. destruct (_ || _); [intros _; right; left; tauto|].
  destruct (role_mfa role) eqn:Hm; [done|]. intros _. right. left. auto.
Qed.

Lemma allow_loop_Ok get r mfa ms set b :
  (∀ role, role ∈ set → is_Ok (allows get r ms role) = true) →
  (mfa_settled mfa = true → b = false) →
  allow_loop get r mfa ms set b = Ok () ↔
    (b = true ∨ ∃ role, role ∈ set ∧ allows get r ms role = Ok true) ∧
    (mfa_settled mfa = true ∨ ∀ role, role ∈ set → allows get r ms role = Ok true → role_mfa role = false).
Proof.
  unfold allow_loop. revert b. induction set as [|role set IH]; intros b Hok Hb; cbn [checkAccess_allow].
  { destruct b.
    - split; [|done]. intros _. split; [by left|]. right. by intros ? ?%not_elem_of_nil.
    - split; [done|]. by intros [[|(? & ?%not_elem_of_nil & _)] _]. }
  pose proof (Hok role ltac:(auto with go)) as Hr.
  assert (∀ role, role ∈ set → is_Ok (allows get r ms role) = true) as Hok' by (intros; apply Hok; by right).
  rewrite forall_cons_iff, exists_cons_iff.
  pose proof (fun b Hb => IH b Hok' Hb) as IHb. clear IH Hok Hok'.
  set (E := ∃ role, role ∈ set ∧ _) in *. set (B := ∀ role, role ∈ set → _) in *. clearbody E B.
  revert Hr. unfold allows. cbv zeta.
  destruct (negb _); [intros _; rewrite IHb by done; intuition congruence|].
  destruct (MatchLabels _ _) as [[]|]; [|intros _; rewrite IHb by done; intuition congruence|done].
  destruct (MatchAll ms role Allow) as [[]|]; [|intros _; rewrite IHb by done; intuition congruence|done].
  intros _. fold (mfa_settled mfa). destruct (mfa_settled mfa) eqn:Hs; [intuition congruence|].
  destruct (role_mfa role) eqn:Hm; [intuition congruence|]. rewrite IHb by done. intuition congruence.
Qed.

Lemma kube_allow_Ok set ttl o ms gs us m gs' us' m' :
  kube_allow set ttl o ms gs us m = Ok (gs', us', m') →
  (∀ x, x ∈ gs' ↔ x ∈ gs ∨ ∃ role, role ∈ set ∧ MatchAll ms role Allow = Ok true ∧
     ttl_ok ttl o role = true ∧ x ∈ GetKubeGroups Allow role) ∧
  (∀ x, x ∈ us' ↔ x ∈ us ∨ ∃ role, role ∈ set ∧ MatchAll ms role Allow = Ok true ∧
     ttl_ok ttl o role = true ∧ x ∈ GetKubeUsers Allow role) ∧
  (m' = true ↔ m = true ∨ ∃ role, role ∈ set ∧ MatchAll ms role Allow = Ok true ∧ ttl_ok ttl o role = true).
Proof.
  revert gs us m. induction set as [|role set IH]; intros gs us m; cbn [kube_allow].
  { intros [= <- <- <-]. split_and!; [intros x|intros x|]; (split; [by left|]);
      (intros [?|(? & ?%not_elem_of_nil & _)]; done). }
  setoid_rewrite exists_cons_iff.
  destruct (MatchAll ms role Allow) as [[]|] eqn:Hm; [|intros (H1 & H2 & H3)%IH|done].
  - destruct (ttl_ok ttl o role) eqn:Ht; intros (H1 & H2 & H3)%IH; split_and!;
      [intros x; rewrite H1, ?elem_of_add_all|intros x; rewrite H2, ?elem_of_add_all|rewrite H3
      |intros x; rewrite H1|intros x; rewrite H2|rewrite H3]; intuition congruence.
  - split_and!; [intros x; rewrite H1|intros x; rewrite H2|rewrite H3]; intuition congruence.
Qed.

Lemma kube_deny_Ok set ms gs us gs' us' :
  kube_deny set ms gs us = Ok (gs', us') →
  (∀ x, x ∈ gs' ↔ x ∈ gs ∧ ∀ role, role ∈ set → MatchAny ms role Deny = Ok true → x ∉ GetKubeGroups Deny role) ∧
  (∀ x, x ∈ us' ↔ x ∈ us ∧ ∀ role, role ∈ set → MatchAny ms role Deny = Ok true → x ∉ GetKubeUsers Deny role).
Proof.
  revert gs us. induction set as [|role set IH]; intros gs us; cbn [kube_deny].
  { intros [= <- <-]. split; intros x; (split; [intros Hx; split; [done|]|by intros []]);
      by intros ? ?%not_elem_of_nil. }
  setoid_rewrite forall_cons_iff.
  destruct (MatchAny ms role Deny) as [[]|]; [intros [H1 H2]%IH|intros [H1 H2]%IH|done].
  - split; [intros x; rewrite H1, elem_of_delete_all|intros x; rewrite H2, elem_of_delete_all]; tauto.
  - split; [intros x; rewrite H1|intros x; rewrite H2]; intuition congruence.
Qed.

(** Whether a role allows or denies a server's host users. *)
Definition node_match (c : RoleConditionType) (serverLabels : gmap string string) role : result bool :=
  MatchLabels (labels_of (GetNodeLabels c role)) serverLabels.

Lemma host_allow_Ok set labels gs ss gs' ss' :
  host_allow set labels gs ss = Ok (gs', ss') →
  (∀ role, role ∈ set → node_match Allow labels role = Ok true → CreateHostUser (GetOptions role) = Some true) ∧
  (∀ x, x ∈ gs' ↔ x ∈ gs ∨ ∃ role, role ∈ set ∧ node_match Allow labels role = Ok true ∧
     x ∈ GetHostGroups Allow role) ∧
  (∀ x, x ∈ ss' ↔ x ∈ ss ∨ ∃ role, role ∈ set ∧ node_match Allow labels role = Ok true ∧
     x ∈ GetHostSudoers Allow role).
Proof.
  revert gs ss. induction set as [|role set IH]; intros gs ss; cbn [host_allow].
  { intros [= <- <-]. split_and!; [by intros ? ?%not_elem_of_nil| |]; intros x; (split; [by left|]);
      (intros [?|(? & ?%not_elem_of_nil & _)]; done). }
  rewrite forall_cons_iff. setoid_rewrite exists_cons_iff. fold (node_match Allow labels role).
  destruct (node_match Allow labels role) as [[]|]; [|intros (H1 & H2 & H3)%IH|done].
  - destruct (CreateHostUser (GetOptions role)) as [[]|]; [intros (H1 & H2 & H3)%IH|done|done].
    split_and!; [done|done|intros x; rewrite H2, elem_of_add_all|intros x; rewrite H3, elem_of_add_all]; tauto.
  - split_and!; [done|done|intros x; rewrite H2|intros x; rewrite H3]; intuition congruence.
Qed.

Lemma host_deny_Ok set labels gs ss gs' ss' :
  host_deny set labels gs ss = Ok (gs', ss') →
  (∀ x, x ∈ gs' ↔ x ∈ gs ∧ ∀ role, role ∈ set → node_match Deny labels role = Ok true →
     x ∉ GetHostGroups Deny role) ∧
  (∀ x, x ∈ ss' ↔ x ∈ ss ∧ ∀ role, role ∈ set → node_match Deny labels role = Ok true →
     (x ∉ GetHostSudoers Deny role) ∧ ("*" ∉ GetHostSudoers Deny role)).
Proof.
  revert gs ss. induction set as [|role set IH]; intros gs ss; cbn [host_deny].
  { intros [= <- <-]. split; intros x; (split; [intros Hx; split; [done|]|by intros []]);
      by intros ? ?%not_elem_of_nil. }
  setoid_rewrite forall_cons_iff. fold (node_match Deny labels role).
  destruct (node_match Deny labels role) as [[]|]; [intros [H1 H2]%IH|intros [H1 H2]%IH|done].
  - split; [intros x; rewrite H1, elem_of_delete_all|intros x; rewrite H2, elem_of_delete_sudoers]; tauto.
  - split; [intros x; rewrite H1|intros x; rewrite H2]; intuition congruence.
Qed.
End access.

(** ** Properties *)

Section properties.
Context `{Regexp} `{MapOrder}.
Implicit Types (set : RoleSet) (role : Role) (matchers : list RoleMatcher).

(** The selectors and matchers of a role set raise no error on a resource. *)
Definition no_errors get (r : AccessCheckable) matchers set : Prop :=
  ∀ role, role ∈ set →
    is_Ok (denies get r matchers role) = true ∧ is_Ok (allows get r matchers role) = true.

(** access is never granted by accident. Whenever [checkAccess] answers yes,
    with errors possible anywhere, every role of the set was found not to deny
    the resource, and some role allows it: namespace, labels and all matchers
    match; and MFA is verified, or not required, or not asked for by that role. *)
Theorem checkAccess_grants set r mfa matchers :
  checkAccess set r mfa matchers = Ok () →
  ∃ get, getRoleLabels (ac_Kind r) = Some get ∧
    (∀ role, role ∈ set → denies get r matchers role = Ok false) ∧
    (∃ role, role ∈ set ∧ allows get r matchers role = Ok true ∧
      (Verified mfa = true ∨ Required mfa = MFARequiredNever ∨
       Required mfa = MFARequiredPerRole ∧ role_mfa role = false)).
Proof.
  unfold checkAccess. destruct (_ && _) eqn:Halways; [done|].
  destruct (getRoleLabels (ac_Kind r)) as [get|]; [|done]. cbv zeta.
  fold (deny_loop get r matchers set). destruct (deny_loop get r matchers set) as [[]|] eqn:Hd; [|done].
  fold (allow_loop get r mfa matchers set false).
  intros [|(role & Hin & Ha & Hm)]%allow_loop_granted; [done|].
  exists get. split; [done|]. split; [by apply deny_loop_Ok|].
  exists role. split_and!; [done|done|]. unfold mfa_settled in Hm.
  destruct mfa as [[] []]; cbn [Verified Required] in *; repeat case_bool_decide; cbn in *;
    intuition congruence.
Qed.

(** Some role or the cluster asks for a touch of a hardware key, which replaces
    session MFA. *)
Definition touch_required set (pref : MFAType) : Prop :=
  pref = RequireMFAType_HARDWARE_KEY_TOUCH ∨
  ∃ role, role ∈ set ∧ RequireMFAType (GetOptions role) = RequireMFAType_HARDWARE_KEY_TOUCH.

Lemma MFAParams_cases set pref :
  (touch_required set pref ∧ Required (MFAParams set pref) = MFARequiredNever) ∨
  ¬ touch_required set pref ∧
    ((IsSessionMFARequired pref = true ∧ Required (MFAParams set pref) = MFARequiredAlways) ∨
     IsSessionMFARequired pref = false ∧
       ((Required (MFAParams set pref) = MFARequiredAlways ∧ ∀ role, role ∈ set → role_mfa role = true) ∨
        (Required (MFAParams set pref) = MFARequiredNever ∧ ∀ role, role ∈ set → role_mfa role = false) ∨
        Required (MFAParams set pref) = MFARequiredPerRole)).
Proof.
  unfold MFAParams, touch_required. case_bool_decide as Hp; [by left; split; [left|]|].
  destruct (existsb _ set) eqn:Ht.
  { apply existsb_elem in Ht as (r & Hr & Ht%bool_decide_eq_true). left. eauto. }
  right. split.
  { intros [|(r & Hr & Hk)]; [done|]. apply not_true_iff_false in Ht. apply Ht, existsb_elem.
    exists r. split; [done|]. by apply bool_decide_eq_true. }
  destruct (IsSessionMFARequired pref); [by left|right]. split; [done|].
  destruct set as [|r set]; cbn [existsb].
  { right. left. split; [done|]. by intros ? ?%not_elem_of_nil. }
  destruct (existsb _ set) eqn:He; [by right; right|].
  assert (∀ role, role ∈ r :: set → role_mfa role = role_mfa r) as Hall.
  { intros role [->|Hin]%elem_of_cons; [done|]. apply not_true_iff_false in He.
    destruct (Bool.eqb (role_mfa role) (role_mfa r)) eqn:Hb; [by apply Bool.eqb_prop|].
    exfalso. apply He, existsb_elem. exists role. split; [done|by rewrite Hb]. }
  destruct (role_mfa r); [left|right; left]; split; done.
Qed.

Lemma checkAccess_Ok set r mfa matchers get :
  getRoleLabels (ac_Kind r) = Some get → no_errors get r matchers set →
  checkAccess set r mfa matchers = Ok () ↔
  (∀ role, role ∈ set → denies get r matchers role = Ok false) ∧
  (∃ role, role ∈ set ∧ allows get r matchers role = Ok true) ∧
  (Verified mfa = true ∨ Required mfa ≠ MFARequiredAlways ∧
    (Required mfa = MFARequiredNever ∨
     ∀ role, role ∈ set → allows get r matchers role = Ok true → role_mfa role = false)).
Proof.
  intros Hget Hne. unfold checkAccess. rewrite Hget. cbv zeta.
  fold (deny_loop get r matchers set) (allow_loop get r mfa matchers set false).
  pose proof (deny_loop_Ok get r matchers set) as Hd.
  pose proof (allow_loop_Ok get r mfa matchers set false (fun role Hin => proj2 (Hne role Hin))) as Ha.
  set (E := ∃ role, role ∈ set ∧ _) in *. set (B := ∀ role, role ∈ set → allows _ _ _ _ = _ → _) in *.
  set (D := ∀ role, role ∈ set → denies _ _ _ _ = _) in *.
  clearbody E B D. unfold mfa_settled in Ha.
  destruct mfa as [[] []]; cbn [Verified Required] in *; repeat case_bool_decide; cbn in *;
    (destruct (deny_loop get r matchers set) as [[]|]; intuition congruence).
Qed.

(** C21: the decision. With the parameters [MFAParams] computes for the same
    roles, and no errors from selectors or matchers, access is granted exactly
    when no role denies the resource, some role allows it, and session MFA is
    verified, replaced by a touch requirement, or required neither by the
    cluster nor by any role that allows the resource. *)
Theorem checkAccess_MFA set r pref verified matchers get :
  getRoleLabels (ac_Kind r) = Some get → no_errors get r matchers set →
  checkAccess set r (MkMFAParams (Required (MFAParams set pref)) verified) matchers = Ok () ↔
  (∀ role, role ∈ set → denies get r matchers role = Ok false) ∧
  (∃ role, role ∈ set ∧ allows get r matchers role = Ok true) ∧
  (verified = true ∨ touch_required set pref ∨
   IsSessionMFARequired pref = false ∧
     ∀ role, role ∈ set → allows get r matchers role = Ok true → role_mfa role = false).
Proof.
  intros Hget Hne. rewrite (checkAccess_Ok _ _ _ _ _ Hget Hne). cbn [Verified Required].
  destruct (MFAParams_cases set pref) as [[Ht ->]|[Ht [[Hp ->]|[Hp [[-> Hall]|[[-> Hall]| ->]]]]]].
  - intuition congruence.
  - intuition congruence.
  - split; [intuition congruence|]. intros (Hd & (role & Hin & Ha) & [|[|[_ Hn]]]); [by eauto 6|done|].
    specialize (Hn role Hin Ha). rewrite (Hall role Hin) in Hn. done.
  - split; [|intuition congruence]. intros (Hd & Hex & _). split_and!; [done|done|]. right. right. auto.
  - intuition congruence.
Qed.

(** limits are the tightest of the roles'. The session time-to-live is the
    least of the one asked for and the non-zero ones of the roles; the numbers
    of connections and sessions are the least non-zero ones, zero standing for
    no limit; the idle timeout is the least positive one. *)
Theorem RoleSet_limits set ttl timeout :
  ((AdjustSessionTTL set ttl ≤ ttl)%Z ∧
   (∀ role, role ∈ set → MaxSessionTTL (GetOptions role) ≠ 0%Z →
      (AdjustSessionTTL set ttl ≤ MaxSessionTTL (GetOptions role))%Z) ∧
   (AdjustSessionTTL set ttl = ttl ∨
    ∃ role, role ∈ set ∧ MaxSessionTTL (GetOptions role) ≠ 0%Z ∧
      AdjustSessionTTL set ttl = MaxSessionTTL (GetOptions role))) ∧
  least_nonzero (RoleSet_MaxConnections set) (map (fun role => MaxConnections (GetOptions role)) set) ∧
  least_nonzero (RoleSet_MaxSessions set) (map (fun role => MaxSessions (GetOptions role)) set) ∧
  least_nonzero (RoleSet_MaxKubernetesConnections set)
    (map (fun role => MaxKubernetesConnections (GetOptions role)) set) ∧
  least_positive (AdjustClientIdleTimeout set timeout)
    (timeout :: map (fun role => ClientIdleTimeout (GetOptions role)) set).
Proof.
  split; [apply AdjustSessionTTL_least|].
  split; [apply max_limit_least|]. split; [apply max_limit_least|]. split; [apply max_limit_least|].
  apply AdjustClientIdleTimeout_least.
Qed.

(** the private key policy of a role set is the strictest one: a key meets
    it exactly when it meets the default policy and that of every role. *)
Theorem PrivateKeyPolicy_strictest set d key :
  VerifyPolicy (PrivateKeyPolicy set d) key = Ok () ↔
  VerifyPolicy d key = Ok () ∧ ∀ role, role ∈ set → VerifyPolicy (GetPrivateKeyPolicy role) key = Ok ().
Proof.
  unfold PrivateKeyPolicy. case_bool_decide as Hd; [|by apply VerifyPolicy_loop].
  subst d. split; [|by intros []]. intros Hk. split; [done|]. intros role _.
  destruct (GetPrivateKeyPolicy role), key; done.
Qed.

(** Kubernetes principals. The groups and users returned are exactly those
    an allowing role within the TTL lists and no denying role lists; there is at
    least one, and both lists are sorted without repetitions. *)
Theorem CheckKubeGroupsAndUsers_correct set ttl o matchers groups users :
  CheckKubeGroupsAndUsers set ttl o matchers = Ok (groups, users) →
  (∀ g, g ∈ groups ↔
    (∃ role, role ∈ set ∧ MatchAll matchers role Allow = Ok true ∧ ttl_ok ttl o role = true ∧
       g ∈ GetKubeGroups Allow role) ∧
    (∀ role, role ∈ set → MatchAny matchers role Deny = Ok true → g ∉ GetKubeGroups Deny role)) ∧
  (∀ u, u ∈ users ↔
    (∃ role, role ∈ set ∧ MatchAll matchers role Allow = Ok true ∧ ttl_ok ttl o role = true ∧
       u ∈ GetKubeUsers Allow role) ∧
    (∀ role, role ∈ set → MatchAny matchers role Deny = Ok true → u ∉ GetKubeUsers Deny role)) ∧
  (groups ≠ [] ∨ users ≠ []) ∧ Sorted string_le groups ∧ Sorted string_le users ∧ NoDup groups ∧ NoDup users.
Proof.
  unfold CheckKubeGroupsAndUsers.
  destruct (kube_allow _ _ _ _ _ _ _) as [[[gs us] m]|] eqn:Ha; [|done].
  destruct (kube_deny _ _ _ _) as [[gs' us']|] eqn:Hd; [|done].
  destruct m; cbn [negb]; [|done]. destruct (_ && _) eqn:He; [done|]. intros [= <- <-].
  apply kube_allow_Ok in Ha as (H1 & H2 & _). apply kube_deny_Ok in Hd as [H3 H4].
  split; [|split; [|split]].
  - intros g. rewrite elem_of_StringsSliceFromSet, H3, H1, elem_of_empty. tauto.
  - intros u. rewrite elem_of_StringsSliceFromSet, H4, H2, elem_of_empty. tauto.
  - rewrite !StringsSliceFromSet_nil. apply andb_false_iff in He as [He|He];
      apply bool_decide_eq_false in He; [by left|by right].
  - split_and!; apply StringsSliceFromSet_sorted.
Qed.

(** host users. When user creation goes ahead, every role whose node
    labels allow the server enables it; the groups and sudoers are those such
    roles list, less those listed by the roles whose labels deny the server, a
    star there dropping every sudoer. *)
Theorem HostUsers_correct set labels info :
  HostUsers set labels = Ok info →
  (∀ role, role ∈ set → node_match Allow labels role = Ok true → CreateHostUser (GetOptions role) = Some true) ∧
  (∀ g, g ∈ Groups info ↔
    (∃ role, role ∈ set ∧ node_match Allow labels role = Ok true ∧ g ∈ GetHostGroups Allow role) ∧
    (∀ role, role ∈ set → node_match Deny labels role = Ok true → g ∉ GetHostGroups Deny role)) ∧
  (∀ s, s ∈ Sudoers info ↔
    (∃ role, role ∈ set ∧ node_match Allow labels role = Ok true ∧ s ∈ GetHostSudoers Allow role) ∧
    (∀ role, role ∈ set → node_match Deny labels role = Ok true →
       (s ∉ GetHostSudoers Deny role) ∧ ("*" ∉ GetHostSudoers Deny role))).
Proof.
  unfold HostUsers. destruct (host_allow _ _ _ _) as [[gs ss]|] eqn:Ha; [|done].
  destruct (host_deny _ _ _ _) as [[gs' ss']|] eqn:Hd; [|done]. intros [= <-]. cbn [Groups Sudoers].
  apply host_allow_Ok in Ha as (H1 & H2 & H3). apply host_deny_Ok in Hd as [H4 H5].
  split; [done|]. split; [intros g|intros s]; rewrite elem_of_StringsSliceFromSet.
  - rewrite H4, H2, elem_of_empty. tauto.
  - rewrite H5, H3, elem_of_empty. tauto.
Qed.

(** database names, users and AWS role ARNs. An answer lists exactly the
    names allowed by a role within the TTL and denied by no role at all; it is
    refused when no role is within the TTL, and when nothing is left. *)
Theorem CheckNames_correct set ttl o :
  (∀ names users, CheckDatabaseNamesAndUsers set ttl o = Ok (names, users) →
     (∀ n, n ∈ names ↔ (∃ role, role ∈ set ∧ ttl_ok ttl o role = true ∧ n ∈ GetDatabaseNames Allow role) ∧
        ∀ role, role ∈ set → n ∉ GetDatabaseNames Deny role) ∧
     (∀ u, u ∈ users ↔ (∃ role, role ∈ set ∧ ttl_ok ttl o role = true ∧ u ∈ GetDatabaseUsers Allow role) ∧
        ∀ role, role ∈ set → u ∉ GetDatabaseUsers Deny role)) ∧
  (∀ arns, CheckAWSRoleARNs set ttl o = Ok arns →
     arns ≠ [] ∧
     ∀ a, a ∈ arns ↔ (∃ role, role ∈ set ∧ ttl_ok ttl o role = true ∧ a ∈ GetAWSRoleARNs Allow role) ∧
        ∀ role, role ∈ set → a ∉ GetAWSRoleARNs Deny role) ∧
  ((∀ role, role ∈ set → ttl_ok ttl o role = false) ↔
     CheckAWSRoleARNs set ttl o =
       Err (Error AccessDenied "this user cannot request AWS management console access for %v")).
Proof.
  split; [|split].
  - intros names users. unfold CheckDatabaseNamesAndUsers. destruct (negb _); [done|].
    destruct (_ && _); [done|]. intros [= <- <-].
    split; intros x; by rewrite elem_of_StringsSliceFromSet, elem_of_collect_names.
  - intros arns. unfold CheckAWSRoleARNs. destruct (negb _); [done|].
    case_bool_decide as He; [done|]. intros [= <-]. rewrite StringsSliceFromSet_nil. split; [done|].
    intros x. by rewrite elem_of_StringsSliceFromSet, elem_of_collect_names.
  - unfold CheckAWSRoleARNs. pose proof (matched_ttl_true set ttl o) as Hm.
    destruct (matched_ttl set ttl o); cbn [negb].
    + destruct (proj1 Hm eq_refl) as (role & Hin & Ht). split.
      * intros Hno. specialize (Hno role Hin). congruence.
      * case_bool_decide; done.
    + split; [done|]. intros _ role Hin. destruct (ttl_ok ttl o role) eqn:Ht; [|done].
      assert (false = true) by (apply Hm; eauto). done.
Qed.
End properties.
