(* ===== verification/RoleRules.v ===== *)
(** * Access rules (lib/services/role.go, lib/services/parser.go, lib/utils/fields.go)

    Rules grant and deny verbs on kinds of resources, under [where] clauses; the
    predicate library that parses and evaluates clauses is a parameter. A clause
    may also be turned into a filter on the fields of session events. *)

From Stdlib Require Import Ascii String.
From S2P Require Import Prelude.
From S2P Require Import Keys.
From S2P Require Import Labels.
From S2P Require Import Role.
From S2P Require Import RoleSet.
Local Open Scope string_scope.

(** ** Rule sets *)

Definition ruleScore (r : Rule) : Z :=
  let score := 0%Z in
  let score :=
    if SliceContainsStr (Resources r) Wildcard then (score - 4)%Z
    else if Nat.eqb (length (Resources r)) 1 then (score + 2)%Z else score in
  let score := if SliceContainsStr (Verbs r) Wildcard then (score - 2)%Z else score in
  let score := if Nat.ltb 0 (String.length (rule_Where r)) then (score + 8)%Z else score in
  if Nat.ltb 0 (length (Actions r)) then (score + 8)%Z else score.

Definition CompareRuleScore (r o : Rule) : bool := Z.ltb (ruleScore o) (ruleScore r).

Abbreviation RuleSet := (gmap string (list Rule)).

Definition rules_of (set : RuleSet) (resource : string) : list Rule := default [] (set !! resource).

Definition add_rule (set : RuleSet) (rule : Rule) : RuleSet :=
  fold_left (fun set resource => <[ resource := (rules_of set resource ++ [rule])%list ]> set)
    (Resources rule) set.
Definition MakeRuleSet `{GoSort} (rules : list Rule) : RuleSet :=
  sort_Slice CompareRuleScore <$> fold_left add_rule rules ∅.

(** ** Parsers *)

(** A parsed clause is a function with effects on the state its context points
    to, such as a log; [Ok None] is an expression of another type. *)
Definition Predicate (W : Type) : Type := W → bool * W.
Definition Parser (W : Type) : Type := string → result (option (Predicate W)).

Section rules.
Context `{GoSort} {W : Type}.

Definition matchesWhere (r : Rule) (parser : Parser W) (w : W) : result bool * W :=
  if String.eqb (rule_Where r) "" then (Ok true, w) else
  match parser (rule_Where r) with
  | Err e => (Err e, w)
  | Ok None => (Err (Error BadParameter "invalid predicate type for where expression: %v"), w)
  | Ok (Some fn) => let (b, w) := fn w in (Ok b, w)
  end.

Fixpoint processActions (actions : list string) (parser : Parser W) (w : W) : result unit * W :=
  match actions with
  | [] => (Ok (), w)
  | action :: actions =>
      match parser action with
      | Err e => (Err e, w)
      | Ok None => (Err (Error BadParameter "invalid predicate type for action expression: %v"), w)
      | Ok (Some fn) => processActions actions parser (fn w).2
      end
  end.

(** The loop [Match] runs on the rules of the resource, then on those of the
    wildcard. *)
Fixpoint Match_loop (rules : list Rule) (whereParser actionsParser : Parser W) (verb : string) (w : W) :
    result bool * W :=
  match rules with
  | [] => (Ok false, w)
  | rule :: rules =>
      match matchesWhere rule whereParser w with
      | (Err e, w) => (Err e, w)
      | (Ok m, w) =>
          if m && (HasVerb rule Wildcard || HasVerb rule verb) then
            match processActions (Actions rule) actionsParser w with
            | (Err e, w) => (Err e, w)
            | (Ok _, w) => (Ok true, w)
            end
          else Match_loop rules whereParser actionsParser verb w
      end
  end.

Definition Match (set : RuleSet) (whereParser actionsParser : Parser W) (resource verb : string) (w : W) :
    result bool * W :=
  if bool_decide (set = ∅) then (Ok false, w) else
  match Match_loop (rules_of set resource) whereParser actionsParser verb w with
  | (Ok false, w) => Match_loop (rules_of set Wildcard) whereParser actionsParser verb w
  | other => other
  end.

(** ** Access to a rule *)

Definition err_rule : error := Error AccessDenied "access denied to perform action %q on %q".

Fixpoint rule_deny (set : RoleSet) (denyWhere actionsParser : Parser W) (namespace resource verb : string)
    (w : W) : result unit * W :=
  match set with
  | [] => (Ok (), w)
  | role :: set =>
      if MatchNamespace (namespaces_of (GetNamespaces Deny role)) (ProcessNamespace namespace) then
        match Match (MakeRuleSet (GetRules Deny role)) denyWhere actionsParser resource verb w with
        | (Err e, w) => (Err e, w)
        | (Ok true, w) => (Err err_rule, w)
        | (Ok false, w) => rule_deny set denyWhere actionsParser namespace resource verb w
        end
      else rule_deny set denyWhere actionsParser namespace resource verb w
  end.
Fixpoint rule_allow (set : RoleSet) (allowWhere actionsParser : Parser W) (namespace resource verb : string)
    (w : W) : result unit * W :=
  match set with
  | [] => (Err err_rule, w)
  | role :: set =>
      if MatchNamespace (namespaces_of (GetNamespaces Allow role)) (ProcessNamespace namespace) then
        match Match (MakeRuleSet (GetRules Allow role)) allowWhere actionsParser resource verb w with
        | (Err e, w) => (Err e, w)
        | (Ok true, w) => (Ok (), w)
        | (Ok false, w) => rule_allow set allowWhere actionsParser namespace resource verb w
        end
      else rule_allow set allowWhere actionsParser namespace resource verb w
  end.

(** [actionsParser] is what [NewActionsParser] returns for the context. *)
Definition checkAccessToRuleImpl (set : RoleSet) (actionsParser : result (Parser W))
    (namespace resource verb : string) (allowWhere denyWhere : Parser W) (w : W) : result unit * W :=
  match actionsParser with
  | Err e => (Err e, w)
  | Ok actionsParser =>
      match rule_deny set denyWhere actionsParser namespace resource verb w with
      | (Err e, w) => (Err e, w)
      | (Ok _, w) => rule_allow set allowWhere actionsParser namespace resource verb w
      end
  end.

Definition boolParser (p : bool) : Parser W := fun _ => Ok (Some (fun w => (p, w))).

Definition GuessIfAccessIsPossible (set : RoleSet) (actionsParser : result (Parser W))
    (namespace resource verb : string) (w : W) : result unit * W :=
  checkAccessToRuleImpl set actionsParser namespace resource verb (boolParser true) (boolParser false) w.
(** [whereParser] is what [NewWhereParser] returns for the context. *)
Definition CheckAccessToRule (set : RoleSet) (whereParser actionsParser : result (Parser W))
    (namespace resource verb : string) (w : W) : result unit * W :=
  match whereParser with
  | Err e => (Err e, w)
  | Ok p => checkAccessToRuleImpl set actionsParser namespace resource verb p p w
  end.
End rules.

(** ** Where expressions *)

Inductive literal := LitBool (b : bool) | LitString (s : string) | LitStrings (l : list string).
#[export] Instance literal_eq_dec : EqDecision literal.
Proof. solve_decision. Defined.

#[local] Set Warnings "-register-all".
(** [types.WhereExpr], a pair of sub-expressions being two fields. *)
Inductive WhereExpr := MkWhereExpr
  (we_Field : string) (we_Literal : option literal)
  (AndL AndR OrL OrR Not_ EqualsL EqualsR ContainsL ContainsR : option WhereExpr).

Definition we_Field (e : WhereExpr) : string := let 'MkWhereExpr f _ _ _ _ _ _ _ _ _ _ := e in f.
Definition we_Literal (e : WhereExpr) : option literal := let 'MkWhereExpr _ l _ _ _ _ _ _ _ _ _ := e in l.

Definition lit_expr (l : literal) : WhereExpr := MkWhereExpr "" (Some l) None None None None None None None None None.
Definition field_expr (f : string) : WhereExpr := MkWhereExpr f None None None None None None None None None None.
Definition and_expr (l r : option WhereExpr) : WhereExpr := MkWhereExpr "" None l r None None None None None None None.
Definition or_expr (l r : option WhereExpr) : WhereExpr := MkWhereExpr "" None None None l r None None None None None.
Definition not_expr (e : WhereExpr) : WhereExpr := MkWhereExpr "" None None None None None (Some e) None None None None.
Definition equals_expr (l r : WhereExpr) : WhereExpr :=
  MkWhereExpr "" None None None None None None (Some l) (Some r) None None.
Definition contains_expr (l r : WhereExpr) : WhereExpr :=
  MkWhereExpr "" None None None None None None None None (Some l) (Some r).

Definition bool_literal (e : WhereExpr) : option bool :=
  match we_Literal e with Some (LitBool b) => Some b | _ => None end.

(** The operators of [newParserForIdentifierSubcondition]: what is known is
    simplified away. *)
Definition AND (a b : WhereExpr) : WhereExpr :=
  match bool_literal a, bool_literal b with
  | Some x, Some y => lit_expr (LitBool (x && y))
  | Some true, None => b
  | None, Some true => a
  | Some false, None | None, Some false => lit_expr (LitBool false)
  | None, None => and_expr (Some a) (Some b)
  end.
Definition OR (a b : WhereExpr) : WhereExpr :=
  match bool_literal a, bool_literal b with
  | Some x, Some y => lit_expr (LitBool (x || y))
  | Some true, None | None, Some true => lit_expr (LitBool true)
  | Some false, None => b
  | None, Some false => a
  | None, None => or_expr (Some a) (Some b)
  end.
Definition NOT (e : WhereExpr) : WhereExpr :=
  match bool_literal e with
  | Some val => lit_expr (LitBool (negb val))
  | None => not_expr e
  end.

(** ** Filters on fields *)

(** The values a field of an event holds, by the types the filters tell apart:
    of a slice of interfaces only the strings in it matter. *)
Inductive value :=
  | VBool (b : bool) | VString (s : string) | VStrings (l : list string)
  | VInterfaces (strings : list string) | VOther (n : Z).
#[export] Instance value_eq_dec : EqDecision value.
Proof. solve_decision. Defined.
Abbreviation Fields := (gmap string value).

Definition literal_value (l : literal) : value :=
  match l with LitBool b => VBool b | LitString s => VString s | LitStrings l => VStrings l end.

(** [None] is a panic. *)
Definition GetString (f : Fields) (key : string) : option string :=
  match f !! key with None => Some "" | Some (VString s) => Some s | Some _ => None end.
Definition GetStrings (f : Fields) (key : string) : list string :=
  match f !! key with Some (VStrings l) | Some (VInterfaces l) => l | _ => [] end.

Definition FieldsCondition : Type := Fields → option bool.

(** [==] on interfaces: comparing two slices of one type panics. *)
Definition iface_eq (a b : option value) : option bool :=
  match a, b with
  | Some (VStrings _), Some (VStrings _) | Some (VInterfaces _), Some (VInterfaces _) => None
  | _, _ => Some (bool_decide (a = b))
  end.

Definition equals_condition (left right : WhereExpr) : option FieldsCondition :=
  let lf := negb (String.eqb (we_Field left) "") in
  let rf := negb (String.eqb (we_Field right) "") in
  match we_Literal left, we_Literal right with
  | ll, rl =>
      if lf && rf then Some (fun f => iface_eq (f !! we_Field left) (f !! we_Field right)) else
      match ll, rf with
      | Some l, true => Some (fun f => iface_eq (Some (literal_value l)) (f !! we_Field right))
      | _, _ =>
          match lf, rl with
          | true, Some l => Some (fun f => iface_eq (f !! we_Field left) (Some (literal_value l)))
          | _, _ => None
          end
      end
  end.
Definition contains_condition (left right : WhereExpr) : option FieldsCondition :=
  let lf := negb (String.eqb (we_Field left) "") in
  let rf := negb (String.eqb (we_Field right) "") in
  if lf && rf then
    Some (fun f => s ← GetString f (we_Field right); Some (SliceContainsStr (GetStrings f (we_Field left)) s))
  else
    match we_Literal left, rf with
    | Some l, true =>
        match l with
        | LitStrings ss => Some (fun f => s ← GetString f (we_Field right); Some (SliceContainsStr ss s))
        | _ => None
        end
    | _, _ =>
        match lf, we_Literal right with
        | true, Some (LitString s) => Some (fun f => Some (SliceContainsStr (GetStrings f (we_Field left)) s))
        | _, _ => None
        end
    end.

Definition bin_op (op : bool → bool → bool) (l r : option FieldsCondition) : option FieldsCondition :=
  match l, r with
  | Some l, Some r => Some (fun f => a ← l f; b ← r f; Some (op a b))
  | _, _ => None
  end.

(** The conversion, without its error message: each shape is tried in turn. *)
Fixpoint to_condition (e : WhereExpr) : option FieldsCondition :=
  let 'MkWhereExpr _ _ AndL AndR OrL OrR Not_ EqL EqR CoL CoR := e in
  let sub o := match o with None => None | Some e => to_condition e end in
  match bin_op andb (sub AndL) (sub AndR) with
  | Some c => Some c
  | None =>
  match bin_op orb (sub OrL) (sub OrR) with
  | Some c => Some c
  | None =>
  match sub Not_ with
  | Some inner => Some (fun f => b ← inner f; Some (negb b))
  | None =>
  match match EqL, EqR with Some l, Some r => equals_condition l r | _, _ => None end with
  | Some c => Some c
  | None => match CoL, CoR with Some l, Some r => contains_condition l r | _, _ => None end
  end end end end.
Definition ToFieldsCondition (expr : option WhereExpr) : result FieldsCondition :=
  match expr with
  | None => Err (Error BadParameter "expr is nil")
  | Some e =>
      match to_condition e with
      | Some c => Ok c
      | None => Err (Error BadParameter "failed to convert expression %q to FieldsCondition")
      end
  end.

(** ** Conditions of list queries *)

Section extract.
Context `{GoSort}.

(** The parser [newParserForIdentifierSubcondition] returns; [Ok None] is a
    result that is no expression. *)
Definition ExprParser : Type := string → result (option WhereExpr).

Definition parseWhere (parser : ExprParser) (rule : Rule) : result WhereExpr :=
  if String.eqb (rule_Where rule) "" then Ok (lit_expr (LitBool true)) else
  match parser (rule_Where rule) with
  | Err e => Err e
  | Ok None => Err (Error BadParameter "invalid type %T when extracting identifier subcondition from %q")
  | Ok (Some e) => Ok e
  end.

Definition skips (rule : Rule) (verb : string) : bool :=
  negb (HasVerb rule verb) && negb (HasVerb rule Wildcard).

(** The condition so far, after the deny rules of a role. *)
Fixpoint extract_deny (parser : ExprParser) (verb : string) (rules : list Rule) (denyCond : option WhereExpr) :
    result (option WhereExpr) :=
  match rules with
  | [] => Ok denyCond
  | rule :: rules =>
      if skips rule verb then extract_deny parser verb rules denyCond else
      match parseWhere parser rule with
      | Err e => Err e
      | Ok expr =>
          match bool_literal expr with
          | Some true => Err err_rule
          | Some false => extract_deny parser verb rules denyCond
          | None =>
              extract_deny parser verb rules (Some (match denyCond with
                | None => not_expr expr
                | Some d => and_expr (Some d) (Some (not_expr expr))
                end))
          end
      end
  end.
(** [inl tt] is the early return of the deny condition: access is not
    restricted by a rule. *)
Fixpoint extract_allow (parser : ExprParser) (verb : string) (rules : list Rule) (allowCond : option WhereExpr) :
    result (unit + option WhereExpr) :=
  match rules with
  | [] => Ok (inr allowCond)
  | rule :: rules =>
      if skips rule verb then extract_allow parser verb rules allowCond else
      match parseWhere parser rule with
      | Err e => Err e
      | Ok expr =>
          match bool_literal expr with
          | Some true => Ok (inl ())
          | Some false => extract_allow parser verb rules allowCond
          | None =>
              extract_allow parser verb rules (Some (match allowCond with
                | None => expr
                | Some a => or_expr (Some a) (Some expr)
                end))
          end
      end
  end.

Fixpoint extract_deny_roles (parser : ExprParser) (namespace resource verb : string) (set : RoleSet)
    (denyCond : option WhereExpr) : result (option WhereExpr) :=
  match set with
  | [] => Ok denyCond
  | role :: set =>
      if negb (MatchNamespace (namespaces_of (GetNamespaces Deny role)) (ProcessNamespace namespace))
      then extract_deny_roles parser namespace resource verb set denyCond else
      match extract_deny parser verb (rules_of (MakeRuleSet (GetRules Deny role)) resource) denyCond with
      | Err e => Err e
      | Ok denyCond => extract_deny_roles parser namespace resource verb set denyCond
      end
  end.
Fixpoint extract_allow_roles (parser : ExprParser) (namespace resource verb : string) (set : RoleSet)
    (allowCond : option WhereExpr) : result (unit + option WhereExpr) :=
  match set with
  | [] => Ok (inr allowCond)
  | role :: set =>
      if negb (MatchNamespace (namespaces_of (GetNamespaces Allow role)) (ProcessNamespace namespace))
      then extract_allow_roles parser namespace resource verb set allowCond else
      match extract_allow parser verb (rules_of (MakeRuleSet (GetRules Allow role)) resource) allowCond with
      | Err e => Err e
      | Ok (inl u) => Ok (inl u)
      | Ok (inr allowCond) => extract_allow_roles parser namespace resource verb set allowCond
      end
  end.

(** [parser] is what [newParserForIdentifierSubcondition] returns for the
    context and the identifier. *)
Definition ExtractConditionForIdentifier (set : RoleSet) (parser : result ExprParser)
    (namespace resource verb : string) : result (option WhereExpr) :=
  match parser with
  | Err e => Err e
  | Ok parser =>
      match extract_deny_roles parser namespace resource verb set None with
      | Err e => Err e
      | Ok denyCond =>
          match extract_allow_roles parser namespace resource verb set None with
          | Err e => Err e
          | Ok (inl _) => Ok denyCond
          | Ok (inr allowCond) =>
              match denyCond with
              | None => match allowCond with None => Err err_rule | Some a => Ok (Some a) end
              | Some _ => Ok (Some (and_expr denyCond allowCond))
              end
          end
      end
  end.

(** [ServerWithRoles.actionForListWithCondition]: an unrestricted list is tried
    first, the answer of [action] being an argument. *)
Definition actionForListWithCondition (action : result unit) (set : RoleSet) (parser : result ExprParser)
    (namespace resource : string) : result (option WhereExpr) :=
  match action with
  | Ok _ => Ok None
  | Err origErr =>
      if bool_decide (err_kind origErr ≠ AccessDenied) then Err origErr else
      match ExtractConditionForIdentifier set parser namespace resource "list" with
      | Err e => if bool_decide (err_kind e = AccessDenied) then Err origErr else Err e
      | Ok cond => Ok cond
      end
  end.
End extract.

(** ** Lemmas *)
Local Open Scope list_scope.

(** *** Rule sets *)

(** The rules of a list that name a resource, as often as they do. *)
Definition naming (resource : string) (rules : list Rule) : list Rule :=
  rules ≫= fun rule => (fun _ => rule) <$> filter (resource =.) (Resources rule).

Lemma elem_of_naming resource rules rule :
  rule ∈ naming resource rules ↔ rule ∈ rules ∧ resource ∈ Resources rule.
Proof.
  unfold naming. rewrite list_elem_of_bind. setoid_rewrite list_elem_of_fmap.
  setoid_rewrite list_elem_of_filter. naive_solver.
Qed.

Lemma add_rule_rules_of set rule resource :
  rules_of (add_rule set rule) resource =
  rules_of set resource ++ ((fun _ => rule) <$> filter (resource =.) (Resources rule)).
Proof.
  unfold add_rule. generalize (Resources rule). intros rs. revert set.
  induction rs as [|r rs IH]; intros set; cbn [fold_left]; [by rewrite app_nil_r|].
  rewrite IH. rewrite filter_cons. unfold rules_of at 1. destruct (decide (r = resource)) as [->|Hr].
  - rewrite lookup_insert_eq, decide_True by done. cbn. by rewrite <- app_assoc.
  - rewrite lookup_insert_ne, decide_False by congruence. done.
Qed.

Lemma fold_add_rule_rules_of rules set resource :
  rules_of (fold_left add_rule rules set) resource = rules_of set resource ++ naming resource rules.
Proof.
  revert set. induction rules as [|rule rules IH]; intros set; cbn [fold_left]; [by rewrite app_nil_r|].
  rewrite IH, add_rule_rules_of, <- app_assoc. done.
Qed.

Lemma CompareRuleScore_strict_weak : strict_weak CompareRuleScore.
Proof.
  unfold strict_weak, CompareRuleScore. split_and!.
  - intros r. apply Z.ltb_irrefl.
  - intros x y z. rewrite !Z.ltb_lt. lia.
  - intros x y z. rewrite !Z.ltb_ge. lia.
Qed.

Section rule_lemmas.
Context `{GoSortLaws}.

Lemma sort_Slice_nil {A} (less : A → A → bool) : sort_Slice less [] = [].
Proof. apply Permutation_nil. symmetry. apply sort_Slice_perm. Qed.

Lemma MakeRuleSet_rules_of rules resource :
  rules_of (MakeRuleSet rules) resource = sort_Slice CompareRuleScore (naming resource rules).
Proof.
  unfold rules_of at 1, MakeRuleSet. rewrite lookup_fmap.
  pose proof (fold_add_rule_rules_of rules ∅ resource) as Hf. unfold rules_of in Hf.
  rewrite lookup_empty in Hf. cbn in Hf. rewrite <- Hf.
  destruct (_ !! resource); cbn; [done|by rewrite sort_Slice_nil].
Qed.

Lemma elem_of_MakeRuleSet rules resource rule :
  rule ∈ rules_of (MakeRuleSet rules) resource ↔ rule ∈ rules ∧ resource ∈ Resources rule.
Proof. by rewrite MakeRuleSet_rules_of, sort_Slice_perm, elem_of_naming. Qed.

Context {W : Type}.
Implicit Types (wp ap : Parser W) (rule : Rule).

(** Clauses that parse to a function without effects, and actions that parse. *)
Definition where_defined wp rule : Prop :=
  rule_Where rule = "" ∨ ∃ fn b, wp (rule_Where rule) = Ok (Some fn) ∧ ∀ w, fn w = (b, w).
Definition where_true wp rule : Prop :=
  rule_Where rule = "" ∨ ∃ fn, wp (rule_Where rule) = Ok (Some fn) ∧ ∀ w, fn w = (true, w).
Definition actions_ok ap rule : Prop := ∀ a, a ∈ Actions rule → ∃ fn, ap a = Ok (Some fn).
Definition verb_ok rule (verb : string) : Prop := HasVerb rule Wildcard = true ∨ HasVerb rule verb = true.

(** A rule applies to a resource and a verb. *)
Definition applies wp resource verb rule : Prop :=
  (resource ∈ Resources rule ∨ Wildcard ∈ Resources rule) ∧ where_true wp rule ∧ verb_ok rule verb.

Lemma matchesWhere_defined wp rule (w : W) :
  where_defined wp rule → ∃ b, matchesWhere rule wp w = (Ok b, w) ∧ (b = true ↔ where_true wp rule).
Proof.
  unfold matchesWhere, where_defined, where_true.
  destruct (String.eqb_spec (rule_Where rule) "") as [->|Hne]; [by exists true; split; [|split; [left|]]|].
  intros [|(fn & b & -> & Hfn)]; [done|]. exists b. rewrite Hfn. split; [done|]. split.
  - intros ->. right. eauto.
  - intros [|(fn' & [= <-] & Hfn')]; [done|]. specialize (Hfn w). rewrite Hfn' in Hfn. congruence.
Qed.

Lemma processActions_ok ap acts (w : W) :
  (∀ a, a ∈ acts → ∃ fn, ap a = Ok (Some fn)) → ∃ w', processActions acts ap w = (Ok (), w').
Proof.
  revert w. induction acts as [|a acts IH]; intros w Ha; cbn [processActions]; [by eexists|].
  destruct (Ha a ltac:(auto with go)) as [fn ->]. apply IH. intros a' Hin. apply Ha. by right.
Qed.

Lemma Match_loop_ok wp ap verb rules (w : W) :
  (∀ rule, rule ∈ rules → where_defined wp rule ∧ actions_ok ap rule) →
  ∃ b w', Match_loop rules wp ap verb w = (Ok b, w') ∧
    (b = true ↔ ∃ rule, rule ∈ rules ∧ where_true wp rule ∧ verb_ok rule verb).
Proof.
  revert w. induction rules as [|rule rules IH]; intros w Hok; cbn [Match_loop].
  { exists false, w. split; [done|]. split; [done|]. by intros (? & ?%not_elem_of_nil & _). }
  destruct (Hok rule ltac:(auto with go)) as [Hw Ha].
  destruct (matchesWhere_defined wp rule w Hw) as (m & -> & Hm).
  assert (verb_ok rule verb ↔ HasVerb rule Wildcard || HasVerb rule verb = true) as Hv
    by (unfold verb_ok; go_prop; tauto).
  destruct (m && (HasVerb rule Wildcard || HasVerb rule verb)) eqn:Hmv.
  - apply andb_true_iff in Hmv as [-> Hmv].
    destruct (processActions_ok ap (Actions rule) w Ha) as [w' ->].
    exists true, w'. split; [done|]. split; [|done]. intros _. exists rule. split; [by left|tauto].
  - destruct (IH w) as (b & w' & Hb & Hiff); [intros ? ?; apply Hok; by right|].
    exists b, w'. split; [done|]. rewrite Hiff. setoid_rewrite elem_of_cons. split.
    + intros (r & ? & ?). eauto.
    + intros (r & [->|Hr] & Ht & Hvb); [|eauto]. apply andb_false_iff in Hmv.
      rewrite <- Hm in Ht. rewrite Hv in Hvb. intuition congruence.
Qed.

Lemma Match_ok wp ap resource verb rules (w : W) :
  (∀ rule, rule ∈ rules → where_defined wp rule ∧ actions_ok ap rule) →
  ∃ b w', Match (MakeRuleSet rules) wp ap resource verb w = (Ok b, w') ∧
    (b = true ↔ ∃ rule, rule ∈ rules ∧ applies wp resource verb rule).
Proof.
  intros Hok. unfold Match.
  assert (∀ res (w : W), ∃ b w', Match_loop (rules_of (MakeRuleSet rules) res) wp ap verb w = (Ok b, w') ∧
    (b = true ↔ ∃ rule, (rule ∈ rules ∧ res ∈ Resources rule) ∧ where_true wp rule ∧ verb_ok rule verb)) as Hl.
  { intros res w1. destruct (Match_loop_ok wp ap verb (rules_of (MakeRuleSet rules) res) w1) as (b & w' & Hb & Hi).
    - intros rule [Hin _]%elem_of_MakeRuleSet. by apply Hok.
    - exists b, w'. split; [done|]. rewrite Hi. by setoid_rewrite elem_of_MakeRuleSet. }
  unfold applies. case_bool_decide as He.
  { exists false, w. split; [done|]. split; [done|]. intros (rule & Hin & [Hr|Hr] & _);
      assert (rule ∈ rules_of (MakeRuleSet rules) _) as Hx by (by apply elem_of_MakeRuleSet);
      rewrite He in Hx; by apply not_elem_of_nil in Hx. }
  destruct (Hl resource w) as (b & w1 & -> & Hb). destruct b.
  { exists true, w1. split; [done|]. split; [|done]. intros _. destruct (proj1 Hb eq_refl) as (rule & [? ?] & ? & ?).
    exists rule. tauto. }
  destruct (Hl Wildcard w1) as (b & w2 & -> & Hb2). exists b, w2. split; [done|]. rewrite Hb2. split.
  - intros (rule & [? ?] & ? & ?). exists rule. tauto.
  - intros (rule & Hin & [Hr|Hr] & ? & ?); [|by eauto 7]. assert (false = true) by (apply Hb; eauto 7). done.
Qed.

(** The hypotheses, for all the rules of a role set under one condition. *)
Definition rules_defined wp ap (c : RoleConditionType) (set : RoleSet) : Prop :=
  ∀ role rule, role ∈ set → rule ∈ GetRules c role → where_defined wp rule ∧ actions_ok ap rule.
(** A role's condition holds in a namespace, and one of its rules applies. *)
Definition role_rule_applies wp (c : RoleConditionType) (namespace resource verb : string) (role : Role) : Prop :=
  MatchNamespace (namespaces_of (GetNamespaces c role)) (ProcessNamespace namespace) = true ∧
  ∃ rule, rule ∈ GetRules c role ∧ applies wp resource verb rule.

Lemma rule_deny_ok set wp ap namespace resource verb (w : W) :
  rules_defined wp ap Deny set →
  ∃ w', ((∃ role, role ∈ set ∧ role_rule_applies wp Deny namespace resource verb role) ∧
           rule_deny set wp ap namespace resource verb w = (Err err_rule, w')) ∨
        ((∀ role, role ∈ set → ¬ role_rule_applies wp Deny namespace resource verb role) ∧
           rule_deny set wp ap namespace resource verb w = (Ok (), w')).
Proof.
  intros Hd. revert w. induction set as [|role set IH]; intros w; cbn [rule_deny].
  { exists w. right. split; [|done]. by intros ? ?%not_elem_of_nil. }
  specialize (IH ltac:(intros ? ? ? ?; eapply Hd; [right|]; done)).
  setoid_rewrite exists_cons_iff. setoid_rewrite forall_cons_iff.
  unfold role_rule_applies at 1 3. destruct (MatchNamespace _ _).
  - destruct (Match_ok wp ap resource verb (GetRules Deny role) w) as (b & w1 & -> & Hb).
    { intros rule Hr. eapply Hd; [left|done]. }
    destruct b; [exists w1; left; split; [left; tauto|done]|].
    destruct (IH w1) as (w' & [[? ?]|[? ?]]); exists w'; [left; tauto|right]. split; [|done].
    split; [|done]. intros [_ Hx%Hb]. done.
  - destruct (IH w) as (w' & [[? ?]|[? ?]]); exists w'; [left; tauto|right]. split; [|done].
    split; [by intros []|done].
Qed.

Lemma rule_allow_ok set wp ap namespace resource verb (w : W) :
  rules_defined wp ap Allow set →
  ∃ w', ((∃ role, role ∈ set ∧ role_rule_applies wp Allow namespace resource verb role) ∧
           rule_allow set wp ap namespace resource verb w = (Ok (), w')) ∨
        ((∀ role, role ∈ set → ¬ role_rule_applies wp Allow namespace resource verb role) ∧
           rule_allow set wp ap namespace resource verb w = (Err err_rule, w')).
Proof.
  intros Hd. revert w. induction set as [|role set IH]; intros w; cbn [rule_allow].
  { exists w. right. split; [|done]. by intros ? ?%not_elem_of_nil. }
  specialize (IH ltac:(intros ? ? ? ?; eapply Hd; [right|]; done)).
  setoid_rewrite exists_cons_iff. setoid_rewrite forall_cons_iff.
  unfold role_rule_applies at 1 3. destruct (MatchNamespace _ _).
  - destruct (Match_ok wp ap resource verb (GetRules Allow role) w) as (b & w1 & -> & Hb).
    { intros rule Hr. eapply Hd; [left|done]. }
    destruct b; [exists w1; left; split; [left; tauto|done]|].
    destruct (IH w1) as (w' & [[? ?]|[? ?]]); exists w'; [left; tauto|right]. split; [|done].
    split; [|done]. intros [_ Hx%Hb]. done.
  - destruct (IH w) as (w' & [[? ?]|[? ?]]); exists w'; [left; tauto|right]. split; [|done].
    split; [by intros []|done].
Qed.

Lemma checkAccessToRuleImpl_ok set ap namespace resource verb allowWhere denyWhere (w : W) :
  rules_defined denyWhere ap Deny set → rules_defined allowWhere ap Allow set →
  (checkAccessToRuleImpl set (Ok ap) namespace resource verb allowWhere denyWhere w).1 = Ok () ↔
  (∀ role, role ∈ set → ¬ role_rule_applies denyWhere Deny namespace resource verb role) ∧
  (∃ role, role ∈ set ∧ role_rule_applies allowWhere Allow namespace resource verb role).
Proof.
  intros Hd Ha. unfold checkAccessToRuleImpl.
  destruct (rule_deny_ok set denyWhere ap namespace resource verb w Hd) as (w1 & [[(r & Hr & Hx) ->]|[Hno ->]]).
  { cbn. split; [done|]. intros [Hn _]. by destruct (Hn r Hr). }
  destruct (rule_allow_ok set allowWhere ap namespace resource verb w1 Ha) as (w2 & [[Hex ->]|[Hna ->]]); cbn.
  - tauto.
  - split; [done|]. intros [_ (r & Hr & Hx)]. by destruct (Hna r Hr).
Qed.
End rule_lemmas.

(** *** Conditions *)

Lemma to_condition_not e g :
  to_condition e = Some g → to_condition (not_expr e) = Some (fun f => b ← g f; Some (negb b)).
Proof. intros He. unfold not_expr. cbn. by rewrite He. Qed.
Lemma to_condition_and a b g h :
  to_condition a = Some g → to_condition b = Some h →
  to_condition (and_expr (Some a) (Some b)) = Some (fun f => x ← g f; y ← h f; Some (x && y)).
Proof. intros Ha Hb. unfold and_expr. cbn. by rewrite Ha, Hb. Qed.
Lemma to_condition_or a b g h :
  to_condition a = Some g → to_condition b = Some h →
  to_condition (or_expr (Some a) (Some b)) = Some (fun f => x ← g f; y ← h f; Some (x || y)).
Proof. intros Ha Hb. unfold or_expr. cbn. by rewrite Ha, Hb. Qed.
Lemma to_condition_and_nil a : to_condition (and_expr (Some a) None) = None.
Proof. unfold and_expr. cbn. by destruct (to_condition a). Qed.

(** What an expression says of the fields of an event, [None] when it converts
    to no condition or the condition panics. *)
Definition expr_value (e : WhereExpr) (f : Fields) : option bool :=
  match to_condition e with Some g => g f | None => None end.
Definition parsed_value (e : WhereExpr) (f : Fields) : option bool :=
  match bool_literal e with Some b => Some b | None => expr_value e f end.
Definition rule_value (parser : ExprParser) (rule : Rule) (f : Fields) : option bool :=
  match parseWhere parser rule with Ok e => parsed_value e f | Err _ => None end.


Lemma expr_value_not e f b : expr_value e f = Some b → expr_value (not_expr e) f = Some (negb b).
Proof.
  unfold expr_value. destruct (to_condition e) as [g|] eqn:Hg; [|done]. intros Hb.
  rewrite (to_condition_not e g Hg). by rewrite Hb.
Qed.
Lemma expr_value_and x y f a b :
  expr_value x f = Some a → expr_value y f = Some b → expr_value (and_expr (Some x) (Some y)) f = Some (a && b).
Proof.
  unfold expr_value. destruct (to_condition x) as [g|] eqn:Hg; [|done].
  destruct (to_condition y) as [h|] eqn:Hh; [|done]. intros Ha Hb.
  rewrite (to_condition_and x y g h Hg Hh), Ha. cbn. by rewrite Hb.
Qed.
Lemma expr_value_or x y f a b :
  expr_value x f = Some a → expr_value y f = Some b → expr_value (or_expr (Some x) (Some y)) f = Some (a || b).
Proof.
  unfold expr_value. destruct (to_condition x) as [g|] eqn:Hg; [|done].
  destruct (to_condition y) as [h|] eqn:Hh; [|done]. intros Ha Hb.
  rewrite (to_condition_or x y g h Hg Hh), Ha. cbn. by rewrite Hb.
Qed.

Section extract_lemmas.
Context `{GoSortLaws}.
Implicit Types (parser : ExprParser) (rules : list Rule) (f : Fields).

Lemma skips_verb_ok rule verb : skips rule verb = false ↔ verb_ok rule verb.
Proof.
  unfold skips, verb_ok. destruct (HasVerb rule verb), (HasVerb rule Wildcard); cbn; intuition congruence.
Qed.

(** The loops over roles run the loops over rules on all the rules of a
    resource, role after role. *)
Definition resource_rules (c : RoleConditionType) (namespace resource : string) (set : RoleSet) : list Rule :=
  set ≫= fun role =>
    if MatchNamespace (namespaces_of (GetNamespaces c role)) (ProcessNamespace namespace)
    then rules_of (MakeRuleSet (GetRules c role)) resource else [].

Lemma elem_of_resource_rules c namespace resource set rule :
  rule ∈ resource_rules c namespace resource set ↔
  ∃ role, role ∈ set ∧ MatchNamespace (namespaces_of (GetNamespaces c role)) (ProcessNamespace namespace) = true ∧
    rule ∈ GetRules c role ∧ resource ∈ Resources rule.
Proof.
  unfold resource_rules. rewrite list_elem_of_bind. split.
  - intros (role & Hr & Hin). exists role. destruct (MatchNamespace _ _); [|by apply not_elem_of_nil in Hr].
    rewrite elem_of_MakeRuleSet in Hr. tauto.
  - intros (role & Hin & Hn & Hr). exists role. rewrite Hn, elem_of_MakeRuleSet. tauto.
Qed.

Lemma extract_deny_app parser verb l1 l2 c :
  extract_deny parser verb (l1 ++ l2) c =
  match extract_deny parser verb l1 c with Err e => Err e | Ok c => extract_deny parser verb l2 c end.
Proof.
  revert c. induction l1 as [|r l1 IH]; intros c; cbn; [done|].
  destruct (skips r verb); [done|]. destruct (parseWhere parser r) as [e|]; [|done].
  by destruct (bool_literal e) as [[]|].
Qed.
Lemma extract_allow_app parser verb l1 l2 c :
  extract_allow parser verb (l1 ++ l2) c =
  match extract_allow parser verb l1 c with
  | Err e => Err e | Ok (inl u) => Ok (inl u) | Ok (inr c) => extract_allow parser verb l2 c end.
Proof.
  revert c. induction l1 as [|r l1 IH]; intros c; cbn; [done|].
  destruct (skips r verb); [done|]. destruct (parseWhere parser r) as [e|]; [|done].
  by destruct (bool_literal e) as [[]|].
Qed.

Lemma extract_deny_roles_flat parser namespace resource verb set c :
  extract_deny_roles parser namespace resource verb set c =
  extract_deny parser verb (resource_rules Deny namespace resource set) c.
Proof.
  revert c. induction set as [|role set IH]; intros c; cbn; [done|].
  rewrite extract_deny_app. destruct (MatchNamespace _ _); cbn [negb]; [|apply IH].
  destruct (extract_deny _ _ _ c); [apply IH|done].
Qed.
Lemma extract_allow_roles_flat parser namespace resource verb set c :
  extract_allow_roles parser namespace resource verb set c =
  extract_allow parser verb (resource_rules Allow namespace resource set) c.
Proof.
  revert c. induction set as [|role set IH]; intros c; cbn; [done|].
  rewrite extract_allow_app. destruct (MatchNamespace _ _); cbn [negb]; [|apply IH].
  destruct (extract_allow _ _ _ c) as [[]|]; [done|apply IH|done].
Qed.

Definition all_valued parser verb rules f : Prop :=
  ∀ rule, rule ∈ rules → verb_ok rule verb → is_Some (rule_value parser rule f).



End extract_lemmas.

(** ** Properties *)

Section properties.
Context `{GoSortLaws}.

(** Rule sets. The rules kept for a resource are those of the list that name
    it, as often as they do, from the most specific to the least. *)
Theorem MakeRuleSet_correct rules resource :
  rules_of (MakeRuleSet rules) resource ≡ₚ naming resource rules ∧
  (∀ rule, rule ∈ rules_of (MakeRuleSet rules) resource ↔ rule ∈ rules ∧ resource ∈ Resources rule) ∧
  StronglySorted (fun r o => (ruleScore o ≤ ruleScore r)%Z) (rules_of (MakeRuleSet rules) resource).
Proof.
  split; [by rewrite MakeRuleSet_rules_of, sort_Slice_perm|].
  split; [intros rule; apply elem_of_MakeRuleSet|].
  rewrite MakeRuleSet_rules_of.
  pose proof (sort_Slice_sorted CompareRuleScore (naming resource rules) CompareRuleScore_strict_weak) as Hs.
  induction Hs as [|x l Hs IH Hx]; constructor; [done|].
  eapply Forall_impl; [exact Hx|]. intros y Hy. by apply Z.ltb_ge in Hy.
Qed.

Context {W : Type}.

(** C34: access to a rule. When clauses and actions parse and clauses have no
    effect, access is granted exactly when no deny rule applies and some allow
    rule does: it names the resource or the wildcard, its clause holds, and it
    has the verb or the wildcard; in a role whose namespaces match. The order in
    which rules are sorted and tried decides nothing. *)
Theorem CheckAccessToRule_correct set (wp ap : Parser W) namespace resource verb w :
  rules_defined wp ap Deny set → rules_defined wp ap Allow set →
  (CheckAccessToRule set (Ok wp) (Ok ap) namespace resource verb w).1 = Ok () ↔
  (∀ role, role ∈ set → ¬ role_rule_applies wp Deny namespace resource verb role) ∧
  (∃ role, role ∈ set ∧ role_rule_applies wp Allow namespace resource verb role).
Proof. apply checkAccessToRuleImpl_ok. Qed.

(** guesses are never too strict. What [CheckAccessToRule] grants under some
    context, [GuessIfAccessIsPossible] finds possible. *)
Theorem GuessIfAccessIsPossible_complete set (wp ap : Parser W) namespace resource verb w w' :
  rules_defined wp ap Deny set → rules_defined wp ap Allow set →
  (CheckAccessToRule set (Ok wp) (Ok ap) namespace resource verb w).1 = Ok () →
  (GuessIfAccessIsPossible set (Ok ap) namespace resource verb w').1 = Ok ().
Proof.
  intros Hd Ha. unfold CheckAccessToRule, GuessIfAccessIsPossible.
  rewrite (checkAccessToRuleImpl_ok _ _ _ _ _ _ _ _ Hd Ha).
  assert (∀ b c, rules_defined wp ap c set → rules_defined (boolParser b) ap c set) as Hbool.
  { intros b c Hc role rule Hr Hin. destruct (Hc role rule Hr Hin) as [_ ?]. split; [|done].
    right. exists (fun w => (b, w)), b. done. }
  rewrite (checkAccessToRuleImpl_ok _ _ _ _ _ _ _ _ (Hbool false Deny Hd) (Hbool true Allow Ha)).
  intros [Hn (role & Hr & Hns & rule & Hin & Hres & Hw & Hv)]. split.
  - intros r Hin' (Hns' & rule' & Hin'' & Hres' & Hw' & Hv'). apply (Hn r Hin'). split; [done|].
    exists rule'. split; [done|]. split; [done|]. split; [|done].
    destruct Hw' as [|(fn & [= <-] & Hf)]; [by left|]. specialize (Hf w). done.
  - exists role. split; [done|]. split; [done|]. exists rule. split; [done|]. split; [done|]. split; [|done].
    right. by exists (fun w => (true, w)).
Qed.


(** a list query of a user with a conditional deny rule and no allow rule
    is not refused: the filter returned lacks its right-hand side, and converts
    to no condition. *)
Theorem ExtractCondition_without_allow set parser namespace resource verb f :
  all_valued parser verb (resource_rules Deny namespace resource set) f →
  (∃ rule e, rule ∈ resource_rules Deny namespace resource set ∧ verb_ok rule verb ∧
     parseWhere parser rule = Ok e ∧ bool_literal e = None) →
  (∀ rule e, rule ∈ resource_rules Deny namespace resource set → verb_ok rule verb →
     parseWhere parser rule = Ok e → bool_literal e ≠ Some true) →
  resource_rules Allow namespace resource set = [] →
  ∃ c, ExtractConditionForIdentifier set (Ok parser) namespace resource verb = Ok (Some c) ∧
    is_Ok (ToFieldsCondition (Some c)) = false.
Proof.
  intros Hd (rule & e & Hin & Hv & He & Hl) Hnt Hno. unfold ExtractConditionForIdentifier.
  rewrite extract_deny_roles_flat, extract_allow_roles_flat, Hno. cbn [extract_allow].
  assert (∀ rules c, (∀ r, r ∈ rules → r ∈ resource_rules Deny namespace resource set) →
    (is_Some c ∨ rule ∈ rules) →
    ∃ x, extract_deny parser verb rules c = Ok (Some x)) as Hex.
  { induction rules as [|r rules IH]; intros c Hsub Hor; cbn [extract_deny].
    { destruct Hor as [[x ->]|Hor]; [by exists x|by apply not_elem_of_nil in Hor]. }
    assert (∀ r, r ∈ rules → r ∈ resource_rules Deny namespace resource set) as Hsub'
      by (intros; apply Hsub; by right).
    destruct (skips r verb) eqn:Hs.
    { apply IH; [done|]. destruct Hor as [?|[<-|?]%elem_of_cons]; [by left| |by right].
      apply skips_verb_ok in Hv. congruence. }
    apply skips_verb_ok in Hs. destruct (Hd r (Hsub r ltac:(auto with go)) Hs) as [b Hb].
    unfold rule_value in Hb. destruct (parseWhere parser r) as [e'|] eqn:Hp; [|done].
    destruct (bool_literal e') as [[]|] eqn:Hl'.
    - by destruct (Hnt r e' (Hsub r ltac:(auto with go)) Hs Hp).
    - apply IH; [done|]. destruct Hor as [?|[<-|?]%elem_of_cons]; [by left|congruence|by right].
    - apply IH; [done|]. left. eauto. }
  destruct (Hex _ None ltac:(done) (or_intror Hin)) as [x ->].
  eexists. split; [reflexivity|]. unfold ToFieldsCondition. by rewrite to_condition_and_nil.
Qed.

(** denial by a wildcard rule is bypassed. For a role that allows listing
    sessions and whose deny rule names every resource, [CheckAccessToRule]
    refuses to list sessions, and the list with a condition that is tried next
    returns all of them unfiltered. *)
Theorem wildcard_deny_bypassed role (wp ap : Parser W) parser w :
  GetNamespaces Allow role = Some [defaults_Namespace] → GetNamespaces Deny role = Some [defaults_Namespace] →
  GetRules Allow role = [NewRule "session" ["list"]] → GetRules Deny role = [NewRule Wildcard ["list"]] →
  let check := (CheckAccessToRule [role] (Ok wp) (Ok ap) defaults_Namespace "session" "list" w).1 in
  check = Err err_rule ∧
  actionForListWithCondition check [role] (Ok parser) defaults_Namespace "session" = Ok None.
Proof.
  intros Hna Hnd Ha Hd check.
  assert (rules_defined wp ap Deny [role] ∧ rules_defined wp ap Allow [role]) as [Hdd Hda].
  { split; intros r rule ->%list_elem_of_singleton; rewrite ?Ha, ?Hd; intros ->%list_elem_of_singleton;
      (split; [by left|by intros ? ?%not_elem_of_nil]). }
  assert (check = Err err_rule) as Hc.
  { unfold check, CheckAccessToRule, checkAccessToRuleImpl.
    destruct (rule_deny_ok [role] wp ap defaults_Namespace "session" "list" w Hdd) as (w1 & [[_ ->]|[Hno _]]); [done|].
    exfalso. apply (Hno role); [by left|]. split; [by rewrite Hnd|]. rewrite Hd. exists (NewRule Wildcard ["list"]).
    split; [by left|]. split; [right; by left|]. split; [by left|]. by right. }
  split; [done|]. rewrite Hc. unfold actionForListWithCondition. cbn [err_kind err_rule].
  rewrite bool_decide_eq_false_2 by (intros Hx; by apply Hx).
  unfold ExtractConditionForIdentifier. rewrite extract_deny_roles_flat, extract_allow_roles_flat.
  assert (resource_rules Deny defaults_Namespace "session" [role] = []) as ->.
  { unfold resource_rules. cbn. rewrite Hnd, Hd, MakeRuleSet_rules_of.
    change (naming _ _) with (@nil Rule). by rewrite sort_Slice_nil. }
  assert (resource_rules Allow defaults_Namespace "session" [role] = [NewRule "session" ["list"]]) as ->.
  { unfold resource_rules. cbn. rewrite Hna, Ha, MakeRuleSet_rules_of.
    change (naming _ _) with [NewRule "session" ["list"]]. cbn. rewrite app_nil_r.
    apply Permutation_singleton_r, sort_Slice_perm. }
  done.
Qed.
End properties.

Lemma bool_literal_lit b : bool_literal (lit_expr (LitBool b)) = Some b.
Proof. done. Qed.

(** the operators of the identifier parser keep the meaning: what is known
    of a clause is simplified away without changing its value. *)
Theorem where_operators_correct a b f x y :
  parsed_value a f = Some x → parsed_value b f = Some y →
  parsed_value (AND a b) f = Some (x && y) ∧ parsed_value (OR a b) f = Some (x || y) ∧
  parsed_value (NOT a) f = Some (negb x).
Proof.
  unfold parsed_value, AND, OR, NOT.
  destruct (bool_literal a) as [la|] eqn:Ha, (bool_literal b) as [lb|] eqn:Hb; intros Hx Hy.
  - injection Hx as ->. injection Hy as ->. by destruct x, y.
  - injection Hx as ->. destruct x; cbn -[bool_literal expr_value]; rewrite ?Hb, ?bool_literal_lit; done.
  - injection Hy as ->. rewrite andb_comm, orb_comm.
    destruct y; cbn -[bool_literal expr_value]; rewrite ?Ha, ?bool_literal_lit;
      (split_and!; [done|done|]); by apply expr_value_not.
  - split_and!; [by apply expr_value_and|by apply expr_value_or|by apply expr_value_not].
Qed.
