(* ===== verification/AccessRequest.v ===== *)
(** * Access requests and their reviews (api/types/access_request.go, lib/services/access_request.go)

    A user requests roles; reviewers approve or deny; thresholds say how many
    reviews of which kind resolve the request. A request is a value: methods
    that change it in place return it. Predicates of filters and the syntax of
    identifiers are libraries, given by classes. *)

From Stdlib Require Import Ascii String.
From S2P Require Import Prelude.
From S2P Require Import Keys.
From S2P Require Import Labels.
From S2P Require Import Parse.
From S2P Require Import Role.
From S2P Require Import Traits.
From S2P Require Import RoleSet.
Local Open Scope string_scope.

(** ** Data *)

Inductive RequestState := NONE | PENDING | APPROVED | DENIED.
#[export] Instance RequestState_eq_dec : EqDecision RequestState.
Proof. solve_decision. Defined.

Definition IsNone (s : RequestState) : bool := bool_decide (s = NONE).
Definition IsPending (s : RequestState) : bool := bool_decide (s = PENDING).
Definition IsApproved (s : RequestState) : bool := bool_decide (s = APPROVED).
Definition IsDenied (s : RequestState) : bool := bool_decide (s = DENIED).
Definition IsResolved (s : RequestState) : bool := IsApproved s || IsDenied s.

Record AccessReview := MkReview {
  rv_Author : string; rv_Roles : list string; ProposedState : RequestState; rv_Reason : string;
  rv_Created : Z; rv_Annotations : gmap string (list string); ThresholdIndexes : list Z
}.

(** The sets of thresholds of a role: of each set one threshold has to be met. *)
Abbreviation ThresholdSets := (list (list Z)).

Record AccessRequest := MkRequest {
  ar_Name : string; ar_Expiry : option Z;
  ar_User : string; ar_Roles : list string; ar_State : RequestState; ar_Created : Z; AccessExpiry : Z;
  RequestReason : string; ResolveReason : string; ResolveAnnotations : gmap string (list string);
  ar_SystemAnnotations : gmap string (list string);
  Thresholds : list AccessReviewThreshold; RoleThresholdMapping : gmap string ThresholdSets;
  Reviews : list AccessReview; ar_SuggestedReviewers : list string;
  RequestedResourceIDs : list ResourceID; LoginHint : string; DryRun : bool
}.

Record User := MkUser { user_Name : string; user_Roles : list string; user_Traits : UserTraits }.

Definition request_eta (r : AccessRequest) : AccessRequest :=
  MkRequest (ar_Name r) (ar_Expiry r) (ar_User r) (ar_Roles r) (ar_State r) (ar_Created r) (AccessExpiry r)
    (RequestReason r) (ResolveReason r) (ResolveAnnotations r) (ar_SystemAnnotations r) (Thresholds r)
    (RoleThresholdMapping r) (Reviews r) (ar_SuggestedReviewers r) (RequestedResourceIDs r) (LoginHint r) (DryRun r).
Definition SetRoles : list string → AccessRequest → AccessRequest := ltac:(with_field request_eta ar_Roles).
Definition with_State : RequestState → AccessRequest → AccessRequest := ltac:(with_field request_eta ar_State).
Definition SetExpiry : option Z → AccessRequest → AccessRequest := ltac:(with_field request_eta ar_Expiry).
Definition SetResolveReason : string → AccessRequest → AccessRequest := ltac:(with_field request_eta ResolveReason).
Definition SetResolveAnnotations : gmap string (list string) → AccessRequest → AccessRequest :=
  ltac:(with_field request_eta ResolveAnnotations).
Definition SetSystemAnnotations : gmap string (list string) → AccessRequest → AccessRequest :=
  ltac:(with_field request_eta ar_SystemAnnotations).
Definition SetThresholds : list AccessReviewThreshold → AccessRequest → AccessRequest :=
  ltac:(with_field request_eta Thresholds).
Definition SetRoleThresholdMapping : gmap string ThresholdSets → AccessRequest → AccessRequest :=
  ltac:(with_field request_eta RoleThresholdMapping).
Definition SetReviews : list AccessReview → AccessRequest → AccessRequest := ltac:(with_field request_eta Reviews).
Definition SetSuggestedReviewers : list string → AccessRequest → AccessRequest :=
  ltac:(with_field request_eta ar_SuggestedReviewers).

(** The order in which [for k, v := range m] visits a map with string keys, which
    may differ from one visit of a map to the next: visits are numbered. *)
Class GoMapOrder := { go_order : ∀ {A : Type}, nat → gmap string A → list (string * A) }.
Class GoMapOrderLaws `{GoMapOrder} : Prop := {
  go_order_perm : ∀ {A : Type} n (m : gmap string A), go_order n m ≡ₚ map_to_list m
}.

(** [sort.Strings]: strings in order, of which equal ones cannot be told apart. *)
Definition sort_Strings (l : list string) : list string := merge_sort string_le l.

(** ** Requests *)

(** A denied request stays denied. *)
Definition SetState (state : RequestState) (r : AccessRequest) : result AccessRequest :=
  if IsDenied (ar_State r) then
    if IsDenied state then Ok r else Err (Error BadParameter "cannot set request-state %q (already denied)")
  else Ok (with_State state r).

Definition GetOriginalRoles (r : AccessRequest) : list string :=
  let l := size (RoleThresholdMapping r) in
  if (l =? 0)%nat || (l =? length (ar_Roles r))%nat then ar_Roles r
  else sort_Strings (elements (dom (RoleThresholdMapping r))).

(** Of the metadata the name and the expiry are kept. *)
Definition Request_CheckAndSetDefaults (r : AccessRequest) : result AccessRequest :=
  if String.eqb (ar_Name r) "" then Err (Error BadParameter "missing parameter Name") else
  let r := if IsNone (ar_State r) then with_State PENDING r else r in
  if IsPending (ar_State r) && negb (String.eqb (ResolveReason r) "")
  then Err (Error BadParameter "pending requests cannot include resolve reason") else
  if IsPending (ar_State r) && negb (bool_decide (ResolveAnnotations r = ∅))
  then Err (Error BadParameter "pending requests cannot include resolve annotations") else
  if String.eqb (ar_User r) "" then Err (Error BadParameter "access request user name not set") else
  if (length (ar_Roles r) =? 0)%nat && (length (RequestedResourceIDs r) =? 0)%nat
  then Err (Error BadParameter "access request does not specify any roles or resources") else
  Ok (SetRoles (sort_Strings (Deduplicate (ar_Roles r))) r).

Record AccessRequestUpdate := MkUpdate {
  up_RequestID : string; up_State : RequestState; up_Reason : string;
  up_Annotations : gmap string (list string); up_Roles : list string
}.
Definition Update_Check (u : AccessRequestUpdate) : result unit :=
  if String.eqb (up_RequestID u) "" then Err (Error BadParameter "missing request id") else
  if IsNone (up_State u) then Err (Error BadParameter "missing request state") else
  if negb (length (up_Roles u) =? 0)%nat && negb (IsApproved (up_State u))
  then Err (Error BadParameter "cannot override roles when setting state: %s") else Ok ().

Definition Review_Check (s : AccessReview) : result unit :=
  if String.eqb (rv_Author s) "" then Err (Error BadParameter "missing review author") else Ok ().
Definition Submission_Check (RequestID : string) (review : AccessReview) : result unit :=
  if String.eqb RequestID "" then Err (Error BadParameter "missing request ID") else Review_Check review.

Record AccessRequestFilter := MkFilter { f_ID : string; f_User : string; f_State : RequestState }.
Definition Filter_Match (f : AccessRequestFilter) (req : AccessRequest) : bool :=
  if negb (String.eqb (f_ID f) "") && negb (String.eqb (ar_Name req) (f_ID f)) then false else
  if negb (String.eqb (f_User f) "") && negb (String.eqb (ar_User req) (f_User f)) then false else
  if negb (IsNone (f_State f)) && negb (bool_decide (ar_State req = f_State f)) then false else true.

Definition RequireReason (strategy : string) : bool := String.eqb strategy "reason".
Definition ShouldAutoRequest (strategy : string) : bool := String.eqb strategy "reason" || String.eqb strategy "always".

(** ** Libraries *)

Record reviewAuthorContext := MkAuthorCtx { ac_Roles : list string; ac_Traits : UserTraits }.
Record reviewParamsContext := MkParamsCtx { pc_Reason : string; pc_Annotations : gmap string (list string) }.
Record reviewRequestContext := MkRequestCtx {
  rc_Roles : list string; rc_Reason : string; rc_SystemAnnotations : gmap string (list string)
}.
Record thresholdFilterContext := MkThresholdCtx {
  Reviewer : reviewAuthorContext; Review : reviewParamsContext; tc_Request : reviewRequestContext
}.
Record reviewPermissionContext := MkPermissionCtx {
  pm_Reviewer : reviewAuthorContext; pm_Request : reviewRequestContext
}.

(** The predicate library over a context, and identifiers of requests. *)
Class RequestLibs := {
  EvalThreshold : thresholdFilterContext → string → result bool;
  EvalPermission : reviewPermissionContext → string → result bool;
  valid_uuid : string → bool
}.

Definition maxAccessRequestReasonSize : Z := 4096.

Section requests.
Context `{RequestLibs}.

Definition ValidateAccessRequest (ar : AccessRequest) : result AccessRequest :=
  ar ← Request_CheckAndSetDefaults ar;
  if negb (valid_uuid (ar_Name ar)) then Err (Error BadParameter "invalid access request id %q") else
  if (Z.of_nat (String.length (RequestReason ar)) >? maxAccessRequestReasonSize)%Z
  then Err (Error BadParameter "access request reason is too long, max %v bytes") else
  if (Z.of_nat (String.length (ResolveReason ar)) >? maxAccessRequestReasonSize)%Z
  then Err (Error BadParameter "access request resolve reason is too long, max %v bytes") else Ok ar.

(** [id] is the fresh identifier. *)
Definition NewAccessRequestWithResources (id user : string) (roles : list string) (resourceIDs : list ResourceID) :
    result AccessRequest :=
  req ← Request_CheckAndSetDefaults (MkRequest id None user roles NONE zero_time zero_time "" "" ∅ ∅ [] ∅ [] []
    resourceIDs "" false);
  ValidateAccessRequest req.

(** Predicates are checked in an empty context, before roles are stored. *)
Definition empty_author : reviewAuthorContext := MkAuthorCtx [] ∅.
Definition empty_request : reviewRequestContext := MkRequestCtx [] "" ∅.
Fixpoint check_thresholds (ts : list AccessReviewThreshold) : result unit :=
  match ts with
  | [] => Ok ()
  | t :: ts =>
      if String.eqb (th_Filter t) "" then check_thresholds ts else
      match EvalThreshold (MkThresholdCtx empty_author (MkParamsCtx "" ∅) empty_request) (th_Filter t) with
      | Err _ => Err (Error BadParameter "invalid threshold predicate: %q, %v")
      | Ok _ => check_thresholds ts
      end
  end.
Definition check_where (w : string) : result unit :=
  if String.eqb w "" then Ok () else
  match EvalPermission (MkPermissionCtx empty_author empty_request) w with
  | Err _ => Err (Error BadParameter "invalid review predicate: %q, %v")
  | Ok _ => Ok ()
  end.
Definition ValidateAccessPredicates (role : Role) : result unit :=
  if negb (length (req_Thresholds (GetAccessRequestConditions Deny role)) =? 0)%nat
  then Err (Error BadParameter "deny.request cannot contain thresholds, set denial counts in allow.request.thresholds instead")
  else
    _ ← check_thresholds (req_Thresholds (GetAccessRequestConditions Allow role));
    _ ← check_where (rev_Where (GetAccessReviewConditions Deny role));
    check_where (rev_Where (GetAccessReviewConditions Allow role)).
End requests.

(** ** Reviews *)

Definition err_proposal : error := Error BadParameter "cannot calculate state-transition, unexpected proposal: %s".
Definition err_threshold_index : error := Error PlainError "threshold index '%d' out of range (this is a bug)".

Record count := MkCount { approval : Z; denial : Z }.

(** Counters are 32 bits wide. *)
Fixpoint count_indexes (state : RequestState) (tids : list Z) (counts : list count) : result (list count) :=
  match tids with
  | [] => Ok counts
  | tid :: tids =>
      match counts !! Z.to_nat tid with
      | None => Err err_threshold_index
      | Some c =>
          match state with
          | APPROVED => count_indexes state tids (<[ Z.to_nat tid := MkCount (u32 (approval c + 1)) (denial c) ]> counts)
          | DENIED => count_indexes state tids (<[ Z.to_nat tid := MkCount (approval c) (u32 (denial c + 1)) ]> counts)
          | _ => Err err_proposal
          end
      end
  end.

Definition denial_reached (t : AccessReviewThreshold) (c : count) : bool :=
  (denial c >=? th_Deny t)%Z && negb (th_Deny t =? 0)%Z.
Definition approval_reached (t : AccessReviewThreshold) (c : count) : bool :=
  (approval c >=? th_Approve t)%Z && negb (th_Approve t =? 0)%Z.

(** The thresholds of one set, until one is met. *)
Fixpoint set_met (thresholds : list AccessReviewThreshold) (counts : list count) (indexes : list Z) : result bool :=
  match indexes with
  | [] => Ok false
  | tid :: indexes =>
      match thresholds !! Z.to_nat tid, counts !! Z.to_nat tid with
      | Some t, Some c => if approval_reached t c then Ok true else set_met thresholds counts indexes
      | _, _ => Err err_threshold_index
      end
  end.
Fixpoint sets_met (thresholds : list AccessReviewThreshold) (counts : list count) (sets : ThresholdSets) : result bool :=
  match sets with
  | [] => Ok true
  | set :: sets =>
      b ← set_met thresholds counts set;
      if b : bool then sets_met thresholds counts sets else Ok false
  end.
(** The roles, until one is not approved: the roles approved, and whether all are. *)
Fixpoint check_roles (thresholds : list AccessReviewThreshold) (counts : list count)
    (rtm : list (string * ThresholdSets)) (approved : gset string) : result (gset string * bool) :=
  match rtm with
  | [] => Ok (approved, true)
  | (role, sets) :: rtm =>
      if bool_decide (role ∈ approved) then check_roles thresholds counts rtm approved else
      b ← sets_met thresholds counts sets;
      if b : bool then check_roles thresholds counts rtm ({[ role ]} ∪ approved) else Ok (approved, false)
  end.

(** The state when processing halts: the last review, what is approved, whether
    there was a denial. *)
Record processing := MkProcessing { lastReview : AccessReview; approved : gset string; denied : bool }.

Record requestResolution := MkResolution { res_state : RequestState; res_reason : string }.

(** Indexes of thresholds are 32 bits wide. *)
Fixpoint indexed_thresholds (i : Z) (ts : list AccessReviewThreshold) : list (Z * AccessReviewThreshold) :=
  match ts with [] => [] | t :: ts => (i, t) :: indexed_thresholds (i + 1) ts end.

Section reviews.
Context `{RequestLibs} `{GoMapOrder}.

Fixpoint process_reviews (thresholds : list AccessReviewThreshold) (rtm : gmap string ThresholdSets)
    (reviews : list AccessReview) (counts : list count) (s : processing) : result processing :=
  match reviews with
  | [] => Ok s
  | rev :: reviews =>
      counts ← count_indexes (ProposedState rev) (ThresholdIndexes rev) counts;
      if existsb (fun '(t, c) => denial_reached t c) (zip thresholds counts)
      then Ok (MkProcessing rev (approved s) true) else
      '(approved, all) ← check_roles thresholds counts (go_order (length reviews) rtm) (approved s);
      if all : bool then Ok (MkProcessing rev approved (denied s))
      else process_reviews thresholds rtm reviews counts (MkProcessing rev approved (denied s))
  end.

(** [None] is no resolution. *)
Definition calculateReviewBasedResolution (req : AccessRequest) : result (option requestResolution) :=
  match Thresholds req, Reviews req with
  | [], _ | _, [] => Ok None
  | thresholds, (rev0 :: _) as reviews =>
      s ← process_reviews thresholds (RoleThresholdMapping req) reviews
            (map (fun _ => MkCount 0 0) thresholds) (MkProcessing rev0 ∅ false);
      let resolution := Some (MkResolution (ProposedState (lastReview s)) (rv_Reason (lastReview s))) in
      match ProposedState (lastReview s) with
      | APPROVED =>
          if negb (size (approved s) =? size (RoleThresholdMapping req))%nat then Ok None else Ok resolution
      | DENIED => if negb (denied s) then Ok None else Ok resolution
      | _ => Err err_proposal
      end
  end.

Definition checkReviewCompat (req : AccessRequest) (rev : AccessReview) : result unit :=
  let rtm := RoleThresholdMapping req in
  if negb (IsApproved (ProposedState rev)) && negb (IsDenied (ProposedState rev))
  then Err (Error BadParameter "invalid state proposal: %s (expected approval/denial)") else
  if (length (Thresholds req) =? 0)%nat
  then Err (Error BadParameter "request is uninitialized or does not support reviews") else
  if existsb (fun existing => String.eqb (rv_Author existing) (rv_Author rev)) (Reviews req)
  then Err (Error AccessDenied "user %q has already reviewed this request") else
  if negb (length (rv_Roles rev) =? 0)%nat && negb (length (rv_Roles rev) =? size rtm)%nat
  then Err (Error NotImplemented "role subselection is not yet supported in reviews, try omitting role list") else
  if negb (bool_decide (rv_Annotations rev = ∅))
  then Err (Error NotImplemented "annotations are not yet supported in reviews, try omitting annotations field") else
  if forallb (fun role => bool_decide (is_Some (rtm !! role))) (rv_Roles rev) then Ok ()
  else Err (Error BadParameter "role %q is not a member of this request").

Definition threshold_context (req : AccessRequest) (rev : AccessReview) (author : User) : thresholdFilterContext :=
  MkThresholdCtx (MkAuthorCtx (user_Roles author) (user_Traits author))
    (MkParamsCtx (rv_Reason rev) (rv_Annotations rev))
    (MkRequestCtx (GetOriginalRoles req) (RequestReason req) (ar_SystemAnnotations req)).
Definition accessReviewThresholdMatchesFilter (ctx : thresholdFilterContext) (t : AccessReviewThreshold) : result bool :=
  if String.eqb (th_Filter t) "" then Ok true else EvalThreshold ctx (th_Filter t).

Fixpoint collect_indexes (ctx : thresholdFilterContext) (ts : list (Z * AccessReviewThreshold)) : result (list Z) :=
  match ts with
  | [] => Ok []
  | (i, t) :: ts =>
      m ← accessReviewThresholdMatchesFilter ctx t;
      if m : bool then
        if negb (u32 i =? i)%Z then Err (Error PlainError "threshold index %d out of supported range (this is a bug)")
        else tids ← collect_indexes ctx ts; Ok (i :: tids)
      else collect_indexes ctx ts
  end.
Definition collectReviewThresholdIndexes (req : AccessRequest) (rev : AccessReview) (author : User) : result (list Z) :=
  collect_indexes (threshold_context req rev author) (indexed_thresholds 0 (Thresholds req)).

(** [now] is the time of a review that has none. The caller drops the request
    when there is an error. *)
Definition ApplyAccessReview (now : Z) (req : AccessRequest) (rev : AccessReview) (author : User) : result AccessRequest :=
  if negb (String.eqb (rv_Author rev) (user_Name author))
  then Err (Error BadParameter "mismatched review author (expected %q, got %q)") else
  let rev := MkReview (rv_Author rev) (sort_Strings (Deduplicate (rv_Roles rev))) (ProposedState rev) (rv_Reason rev)
    (rv_Created rev) (rv_Annotations rev) (ThresholdIndexes rev) in
  _ ← checkReviewCompat req rev;
  tids ← collectReviewThresholdIndexes req rev author;
  let rev := MkReview (rv_Author rev) (rv_Roles rev) (ProposedState rev) (rv_Reason rev)
    (if is_zero_time (rv_Created rev) then now else rv_Created rev) (rv_Annotations rev) tids in
  let req := SetReviews (Reviews req ++ [rev])%list req in
  if negb (IsPending (ar_State req)) then Ok req else
  res ← calculateReviewBasedResolution req;
  match res with
  | None => Ok req
  | Some res =>
      let req := match SetState (res_state res) req with Ok req => req | Err _ => req end in
      let req := SetResolveReason (res_reason res) req in
      Ok (SetExpiry (Some (AccessExpiry req)) req)
  end.

(** ** Permission to review *)

(** The matchers of roles by their [where] predicate. *)
Record ReviewPermissionChecker := MkChecker {
  rpc_User : User; AllowReview : gmap string (list Matcher); DenyReview : gmap string (list Matcher)
}.
Definition HasAllowDirectives (c : ReviewPermissionChecker) : bool :=
  existsb (fun '(_, ms) => (0 <? length ms)%nat) (map_to_list (AllowReview c)).

Context `{GoLibs} `{Regexp}.

(** Whether a predicate holds; the empty one does. *)
Definition where_holds (ctx : reviewPermissionContext) (expr : string) : result bool :=
  if String.eqb expr "" then Ok true else EvalPermission ctx expr.

(** The roles that match: [None] is the panic of a matcher. *)
Fixpoint any_role_matches (ms : list Matcher) (roles : list string) : option bool :=
  match roles with
  | [] => Some false
  | role :: roles =>
      match match_any ms role with Some false => any_role_matches ms roles | r => r end
  end.
Fixpoint unmatched_roles (ms : list Matcher) (roles : list string) : option (list string) :=
  match roles with
  | [] => Some []
  | role :: roles =>
      m ← match_any ms role;
      rest ← unmatched_roles ms roles;
      Some (if m : bool then rest else role :: rest)
  end.

(** Whether a deny directive matches a role. *)
Fixpoint review_denied (ctx : reviewPermissionContext) (roles : list string) (deny : list (string * list Matcher)) :
    option (result bool) :=
  match deny with
  | [] => Some (Ok false)
  | (expr, ms) :: deny =>
      match where_holds ctx expr with
      | Err e => Some (Err e)
      | Ok false => review_denied ctx roles deny
      | Ok true =>
          match any_role_matches ms roles with
          | None => None
          | Some true => Some (Ok true)
          | Some false => review_denied ctx roles deny
          end
      end
  end.
(** Whether the allow directives match all roles that still need one. *)
Fixpoint review_allowed (ctx : reviewPermissionContext) (needsAllow : list string) (allow : list (string * list Matcher)) :
    option (result bool) :=
  match allow with
  | [] => Some (Ok (length needsAllow =? 0)%nat)
  | (expr, ms) :: allow =>
      match where_holds ctx expr with
      | Err e => Some (Err e)
      | Ok false => review_allowed ctx needsAllow allow
      | Ok true =>
          match unmatched_roles ms needsAllow with
          | None => None
          | Some [] => Some (Ok true)
          | Some needsAllow => review_allowed ctx needsAllow allow
          end
      end
  end.

Definition permission_context (c : ReviewPermissionChecker) (req : AccessRequest) : reviewPermissionContext :=
  MkPermissionCtx (MkAuthorCtx (user_Roles (rpc_User c)) (user_Traits (rpc_User c)))
    (MkRequestCtx (GetOriginalRoles req) (RequestReason req) (ar_SystemAnnotations req)).
Definition CanReviewRequest (c : ReviewPermissionChecker) (req : AccessRequest) : option (result bool) :=
  if String.eqb (user_Name (rpc_User c)) (ar_User req) then Some (Ok false) else
  let requestedRoles := GetOriginalRoles req in
  let ctx := permission_context c req in
  match review_denied ctx requestedRoles (go_order 0 (DenyReview c)) with
  | Some (Ok true) => Some (Ok false)
  | Some (Ok false) => review_allowed ctx requestedRoles (go_order 0 (AllowReview c))
  | r => r
  end.

(** Matchers for a list of roles and for mapped claims, after those given. *)
Definition appendRoleMatchers (matchers : list Matcher) (roles : list string) (cms : list ClaimMapping)
    (traits : UserTraits) : result (list Matcher) :=
  ms ← NewMatchers roles;
  mapped ← TraitsToRoleMatchers (GetTraitMappings cms) traits;
  Ok (matchers ++ ms ++ mapped)%list.

Definition push_where (where_ : string) (roles : list string) (cms : list ClaimMapping) (traits : UserTraits)
    (m : gmap string (list Matcher)) : result (gmap string (list Matcher)) :=
  ms ← appendRoleMatchers (default [] (m !! where_)) roles cms traits; Ok (<[ where_ := ms ]> m).
Definition push_review (role : Role) (c : ReviewPermissionChecker) : result ReviewPermissionChecker :=
  let allow := GetAccessReviewConditions Allow role in
  let deny := GetAccessReviewConditions Deny role in
  let traits := user_Traits (rpc_User c) in
  denies ← push_where (rev_Where deny) (rev_Roles deny) (rev_ClaimsToRoles deny) traits (DenyReview c);
  allows ← push_where (rev_Where allow) (rev_Roles allow) (rev_ClaimsToRoles allow) traits (AllowReview c);
  Ok (MkChecker (rpc_User c) allows denies).
Fixpoint push_roles (GetRole : string → result Role) (names : list string) (c : ReviewPermissionChecker) :
    result ReviewPermissionChecker :=
  match names with
  | [] => Ok c
  | name :: names => role ← GetRole name; c ← push_review role c; push_roles GetRole names c
  end.
Definition NewReviewPermissionChecker (GetUser : string → result User) (GetRole : string → result Role)
    (username : string) : result ReviewPermissionChecker :=
  user ← GetUser username;
  push_roles GetRole (user_Roles user) (MkChecker user ∅ ∅).
End reviews.
