(* ===== verification/Reviews.v ===== *)
(** * Resolution of access requests by reviews: specification and proofs

    What [AccessRequest] computes review by review is compared with a reference:
    the votes for each threshold in a prefix of the reviews. *)

From Stdlib Require Import String.
From S2P Require Import Prelude.
From S2P Require Import Keys.
From S2P Require Import Labels.
From S2P Require Import Parse.
From S2P Require Import Role.
From S2P Require Import Traits.
From S2P Require Import RoleSet.
From S2P Require Import AccessRequest.
Local Open Scope string_scope.

(** ** Votes *)

(** The thresholds voted for, by the reviews that propose a state. *)
Definition ballot (st : RequestState) (revs : list AccessReview) : list Z :=
  revs ≫= fun rev => if decide (ProposedState rev = st) then ThresholdIndexes rev else [].
Definition votes (st : RequestState) (i : Z) (revs : list AccessReview) : Z :=
  Z.of_nat (count_occ Z.eq_dec (ballot st revs) i).

Section resolution.
Context (ths : list AccessReviewThreshold) (rtm : gmap string ThresholdSets).

Definition denied_at (revs : list AccessReview) : Prop :=
  ∃ i t, ths !! i = Some t ∧ th_Deny t ≠ 0%Z ∧ (th_Deny t ≤ votes DENIED (Z.of_nat i) revs)%Z.
Definition threshold_met (revs : list AccessReview) (tid : Z) : Prop :=
  ∃ t, ths !! Z.to_nat tid = Some t ∧ th_Approve t ≠ 0%Z ∧ (th_Approve t ≤ votes APPROVED tid revs)%Z.
Definition role_approved (revs : list AccessReview) (sets : ThresholdSets) : Prop :=
  ∀ set, set ∈ sets → ∃ tid, tid ∈ set ∧ threshold_met revs tid.
Definition approved_at (revs : list AccessReview) : Prop :=
  ∀ role sets, rtm !! role = Some sets → role_approved revs sets.
Definition resolved_at (revs : list AccessReview) : Prop := denied_at revs ∨ approved_at revs.

Definition in_range (tid : Z) : Prop := (0 ≤ tid < Z.of_nat (length ths))%Z.
Definition review_ok (rev : AccessReview) : Prop :=
  (ProposedState rev = APPROVED ∨ ProposedState rev = DENIED) ∧
  Forall in_range (ThresholdIndexes rev) ∧ NoDup (ThresholdIndexes rev).
Definition rtm_ok : Prop :=
  ∀ role sets, rtm !! role = Some sets → Forall (Forall in_range) sets.
Definition thresholds_ok : Prop := Forall (fun t => (0 ≤ th_Approve t)%Z ∧ (0 ≤ th_Deny t)%Z) ths.
(** The counters cannot wrap. *)
Definition few (revs : list AccessReview) : Prop := (Z.of_nat (length (revs ≫= ThresholdIndexes)) < 2 ^ 32)%Z.

Lemma ballot_app st l1 l2 : ballot st (l1 ++ l2) = (ballot st l1 ++ ballot st l2)%list.
Proof. unfold ballot. apply bind_app. Qed.
Lemma votes_app st i l1 l2 : votes st i (l1 ++ l2) = (votes st i l1 + votes st i l2)%Z.
Proof. unfold votes. rewrite ballot_app, count_occ_app. lia. Qed.
Lemma votes_nonneg st i revs : (0 ≤ votes st i revs)%Z.
Proof. unfold votes. lia. Qed.
Lemma votes_single st i rev : votes st i [rev] =
  if decide (ProposedState rev = st) then Z.of_nat (count_occ Z.eq_dec (ThresholdIndexes rev) i) else 0%Z.
Proof. unfold votes, ballot. cbn. rewrite app_nil_r. by destruct (decide _). Qed.

Lemma ballot_length st revs : (length (ballot st revs) ≤ length (revs ≫= ThresholdIndexes))%nat.
Proof.
  induction revs as [|rev revs IH]; [done|]. unfold ballot in *. cbn. rewrite !length_app.
  destruct (decide _); cbn; lia.
Qed.
Lemma votes_few st i revs : few revs → (votes st i revs < 2 ^ 32)%Z.
Proof.
  unfold few, votes. intros Hf. pose proof (count_occ_bound Z.eq_dec i (ballot st revs)).
  pose proof (ballot_length st revs). lia.
Qed.

(** ** Counting *)

(** The counters stand for the votes of the reviews processed. *)
Definition counts_ok (f : Z → Z * Z) (counts : list count) : Prop :=
  length counts = length ths ∧
  ∀ i, in_range i → counts !! Z.to_nat i = Some (MkCount (f i).1 (f i).2).

Definition plus_votes (st : RequestState) (tids : list Z) (f : Z → Z * Z) (i : Z) : Z * Z :=
  let n := Z.of_nat (count_occ Z.eq_dec tids i) in
  match st with
  | APPROVED => ((f i).1 + n, (f i).2)
  | DENIED => ((f i).1, (f i).2 + n)
  | _ => f i
  end%Z.

Lemma count_indexes_spec st tids f counts :
  st = APPROVED ∨ st = DENIED → Forall in_range tids → counts_ok f counts →
  (∀ i, in_range i → (0 ≤ (f i).1 ∧ 0 ≤ (f i).2 ∧
    (plus_votes st tids f i).1 < 2 ^ 32 ∧ (plus_votes st tids f i).2 < 2 ^ 32)%Z) →
  ∃ counts', count_indexes st tids counts = Ok counts' ∧ counts_ok (plus_votes st tids f) counts'.
Proof.
  intros Hst Ht. revert f counts. induction Ht as [|tid tids Htid Ht IH]; intros f counts Hc Hb; cbn [count_indexes].
  { exists counts. split; [done|]. destruct Hc as [Hl Hc]. split; [done|]. intros i Hi. rewrite (Hc i Hi).
    unfold plus_votes. cbn. by destruct Hst as [-> | ->]; cbn; rewrite Z.add_0_r. }
  destruct Hc as [Hl Hc]. rewrite (Hc tid Htid).
  set (g := plus_votes st [tid] f).
  assert (∀ i, plus_votes st tids g i = plus_votes st (tid :: tids) f i) as Hg.
  { intros i. unfold g, plus_votes. cbn. destruct Hst as [-> | ->]; cbn; f_equal;
      destruct (Z.eq_dec tid i); lia. }
  assert (∀ i, in_range i → (0 ≤ (g i).1 ∧ 0 ≤ (g i).2 ∧ (plus_votes st tids g i).1 < 2 ^ 32 ∧
    (plus_votes st tids g i).2 < 2 ^ 32)%Z) as Hb'.
  { intros i Hi. rewrite Hg. destruct (Hb i Hi) as (? & ? & ? & ?). split_and!; [| |done|done];
      unfold g, plus_votes; cbn; destruct Hst as [-> | ->]; cbn; destruct (Z.eq_dec tid i); lia. }
  assert (counts_ok g (<[ Z.to_nat tid := MkCount (u32 (g tid).1) (u32 (g tid).2) ]> counts)) as Hok.
  { split; [by rewrite length_insert|]. intros i Hi. destruct (decide (i = tid)) as [->|Hne].
    - destruct (Hb' tid Hi) as (? & ? & Hp1 & Hp2).
      assert ((g tid).1 ≤ (plus_votes st tids g tid).1 ∧ (g tid).2 ≤ (plus_votes st tids g tid).2)%Z as [? ?]
        by (unfold plus_votes; destruct Hst as [-> | ->]; cbn; lia).
      rewrite list_lookup_insert_eq by (rewrite Hl; unfold in_range in Hi; lia).
      rewrite !wrap_u_small by (unfold in_u; lia). done.
    - rewrite list_lookup_insert_ne by (unfold in_range in *; lia). rewrite (Hc i Hi). unfold g, plus_votes. cbn.
      destruct (Z.eq_dec tid i); [congruence|]. by destruct Hst as [-> | ->]; cbn; rewrite Z.add_0_r. }
  destruct (IH g _ Hok Hb') as (counts' & Hr & Hok').
  exists counts'. split.
  - rewrite <- Hr. destruct (Hb tid Htid) as (H1 & H2 & H3 & H4).
    destruct Hst as [-> | ->]; f_equal; f_equal; f_equal; unfold g, plus_votes; cbn;
      destruct (Z.eq_dec tid tid); try done; symmetry; apply wrap_u_small; unfold in_u;
      unfold plus_votes in H3, H4; cbn in H3, H4; destruct (Z.eq_dec tid tid); try done; lia.
  - destruct Hok' as [Hl' Hc']. split; [done|]. intros i Hi. by rewrite (Hc' i Hi), Hg.
Qed.

(** ** Thresholds *)

(** The counters after the reviews [revs]. *)
Definition voted (revs : list AccessReview) (i : Z) : Z * Z := (votes APPROVED i revs, votes DENIED i revs).

Lemma counts_ok_ext f g counts : (∀ i, f i = g i) → counts_ok f counts → counts_ok g counts.
Proof. intros E [? Hc]. split; [done|]. intros i Hi. by rewrite <- E, Hc. Qed.

Lemma voted_snoc revs rev i :
  ProposedState rev = APPROVED ∨ ProposedState rev = DENIED →
  plus_votes (ProposedState rev) (ThresholdIndexes rev) (voted revs) i = voted (revs ++ [rev]) i.
Proof.
  intros Hst. unfold voted. rewrite !votes_app, !votes_single. unfold plus_votes.
  destruct Hst as [-> | ->]; repeat case_decide; try done; cbn; f_equal; lia.
Qed.

Lemma count_review revs rev counts :
  review_ok rev → few (revs ++ [rev]) → counts_ok (voted revs) counts →
  ∃ counts', count_indexes (ProposedState rev) (ThresholdIndexes rev) counts = Ok counts' ∧
    counts_ok (voted (revs ++ [rev])) counts'.
Proof.
  intros (Hst & Ht & _) Hf Hc. destruct (count_indexes_spec _ _ _ _ Hst Ht Hc) as (counts' & ? & Hc').
  - intros i _. rewrite (voted_snoc _ _ _ Hst). unfold voted. cbn [fst snd].
    split_and!; first [apply votes_nonneg|by apply votes_few].
  - exists counts'. split; [done|]. by eapply counts_ok_ext; [intros i; apply voted_snoc|].
Qed.

Lemma counts_lookup revs counts i t : counts_ok (voted revs) counts → ths !! i = Some t →
  counts !! i = Some (MkCount (votes APPROVED (Z.of_nat i) revs) (votes DENIED (Z.of_nat i) revs)).
Proof.
  intros [_ Hc] Ht. apply lookup_lt_Some in Ht.
  rewrite <- (Nat2Z.id i) at 1. apply Hc. unfold in_range. lia.
Qed.

Lemma denial_spec revs counts : thresholds_ok → counts_ok (voted revs) counts →
  existsb (fun '(t, c) => denial_reached t c) (zip ths counts) = true ↔ denied_at revs.
Proof.
  intros _ Hc. rewrite existsb_elem. unfold denied_at. split.
  - intros ([t c] & Hin & Hd). apply list_elem_of_lookup in Hin as (i & Hi).
    apply lookup_zip_Some in Hi as [Ht Hi]. rewrite (counts_lookup _ _ _ _ Hc Ht) in Hi. injection Hi as <-.
    unfold denial_reached in Hd. cbn in Hd. apply andb_true_iff in Hd as [? Hz]. apply negb_true_iff in Hz.
    exists i, t. split; [done|]. lia.
  - intros (i & t & Ht & Hz & Hv). eexists (t, _). split.
    + apply list_elem_of_lookup. exists i. apply lookup_zip_Some. split; [done|]. by eapply counts_lookup.
    + unfold denial_reached. cbn. apply andb_true_iff. split; [lia|]. apply negb_true_iff. lia.
Qed.

Lemma set_met_spec revs counts set : counts_ok (voted revs) counts → Forall in_range set →
  ∃ b, set_met ths counts set = Ok b ∧ (b = true ↔ ∃ tid, tid ∈ set ∧ threshold_met revs tid).
Proof.
  intros Hc. induction 1 as [|tid set Htid _ IH]; cbn [set_met].
  { exists false. split; [done|]. split; [done|]. by intros (? & ?%elem_of_nil & _). }
  destruct (lookup_lt_is_Some_2 ths (Z.to_nat tid)) as [t Ht]; [unfold in_range in Htid; lia|].
  rewrite Ht, (counts_lookup _ _ _ _ Hc Ht). setoid_rewrite exists_cons_iff.
  assert (approval_reached t (MkCount (votes APPROVED (Z.of_nat (Z.to_nat tid)) revs)
    (votes DENIED (Z.of_nat (Z.to_nat tid)) revs)) = true ↔ threshold_met revs tid) as Hr.
  { rewrite Z2Nat.id by (unfold in_range in Htid; lia). unfold approval_reached, threshold_met. cbn.
    rewrite andb_true_iff, negb_true_iff, Ht. split.
    - intros [? ?]. exists t. split; [done|]. lia.
    - intros (? & [= <-] & ? & ?). lia. }
  destruct (approval_reached _ _).
  - exists true. tauto.
  - destruct IH as (b & Hb & Hi). exists b. split; [done|]. rewrite Hi. intuition discriminate.
Qed.
Lemma sets_met_spec revs counts sets : counts_ok (voted revs) counts → Forall (Forall in_range) sets →
  ∃ b, sets_met ths counts sets = Ok b ∧ (b = true ↔ role_approved revs sets).
Proof.
  intros Hc. unfold role_approved. induction 1 as [|set sets Hset _ IH]; cbn [sets_met].
  { exists true. split; [done|]. split; [|done]. by intros _ ? ?%elem_of_nil. }
  destruct (set_met_spec _ _ _ Hc Hset) as (b & -> & Hb). cbn [mbind result_bind]. setoid_rewrite forall_cons_iff. setoid_rewrite <- Hb.
  destruct b; [destruct IH as (b' & Hb' & Hi); exists b'; rewrite Hi; tauto|].
  exists false. split; [done|]. intuition discriminate.
Qed.

(** What is approved so far, of the roles visited in any order. *)
Definition approved_ok (revs : list AccessReview) (a : gset string) : Prop :=
  ∀ role, role ∈ a → ∃ sets, rtm !! role = Some sets ∧ role_approved revs sets.

Lemma check_roles_spec revs counts l a : counts_ok (voted revs) counts → rtm_ok →
  (∀ role sets, (role, sets) ∈ l → rtm !! role = Some sets) → approved_ok revs a →
  ∃ a' all, check_roles ths counts l a = Ok (a', all) ∧ approved_ok revs a' ∧ a ⊆ a' ∧
    if all : bool then ∀ role sets, (role, sets) ∈ l → role ∈ a'
    else ∃ role sets, (role, sets) ∈ l ∧ ¬ role_approved revs sets.
Proof.
  intros Hc Hrtm. revert a. induction l as [|[role sets] l IH]; intros a Hl Ha; cbn [check_roles].
  { exists a, true. split_and!; try done. by intros ? ? ?%elem_of_nil. }
  assert (rtm !! role = Some sets) as Hr by (apply Hl; left).
  assert (∀ role sets, (role, sets) ∈ l → rtm !! role = Some sets) as Hl' by (intros; apply Hl; by right).
  case_bool_decide as Hin.
  - destruct (IH a Hl' Ha) as (a' & all & -> & ? & Hs & Hall). exists a', all. split_and!; try done.
    destruct all; [intros r x [[= -> ->]|?]%elem_of_cons; eauto|].
    destruct Hall as (r & x & ? & ?). exists r, x. split; [by right|done].
  - destruct (sets_met_spec revs counts sets Hc (Hrtm _ _ Hr)) as (b & -> & Hb). cbn [mbind result_bind].
    destruct b.
    + destruct (IH ({[ role ]} ∪ a) Hl') as (a' & all & -> & ? & Hs & Hall).
      { intros r [->%elem_of_singleton|?]%elem_of_union; [exists sets; split; [done|by apply Hb]|by apply Ha]. }
      exists a', all. split_and!; [done|done|set_solver|].
      destruct all; [intros r x [[= -> ->]|?]%elem_of_cons; [set_solver|eauto]|].
      destruct Hall as (r & x & ? & ?). exists r, x. split; [by right|done].
    + exists a, false. split_and!; try done. exists role, sets. split; [left|]. intros Hx. by apply Hb in Hx.
Qed.

(** ** Processing *)

Lemma votes_nil st i : votes st i [] = 0%Z.
Proof. done. Qed.
Lemma not_denied_nil : thresholds_ok → ¬ denied_at [].
Proof.
  intros Hok (i & t & Ht & Hz & Hv). rewrite votes_nil in Hv.
  pose proof (Forall_lookup_1 _ _ _ _ Hok Ht). cbn in *. lia.
Qed.

(** A review changes the votes for what it proposes only. *)
Lemma denied_snoc revs rev : ProposedState rev = APPROVED → denied_at (revs ++ [rev]) → denied_at revs.
Proof.
  intros Hp (i & t & Ht & Hz & Hv). exists i, t. split; [done|]. split; [done|].
  rewrite votes_app, votes_single, Hp in Hv. case_decide; [done|]. lia.
Qed.
Lemma approved_snoc revs rev : ProposedState rev = DENIED → approved_at (revs ++ [rev]) → approved_at revs.
Proof.
  intros Hp Ha role sets Hr set Hs. destruct (Ha _ _ Hr _ Hs) as (tid & Hin & t & Ht & Hz & Hv).
  exists tid. split; [done|]. exists t. split; [done|]. split; [done|].
  rewrite votes_app, votes_single, Hp in Hv. case_decide; [done|]. lia.
Qed.
Lemma role_approved_mono revs rev sets : role_approved revs sets → role_approved (revs ++ [rev]) sets.
Proof.
  intros Ha set Hs. destruct (Ha _ Hs) as (tid & Hin & t & Ht & Hz & Hv).
  exists tid. split; [done|]. exists t. split; [done|]. split; [done|].
  rewrite votes_app. pose proof (votes_nonneg APPROVED tid [rev]). lia.
Qed.

(** Approved and denied are exclusive at the first prefix resolved. *)
Lemma first_resolved_approved revs rev : ¬ resolved_at revs → ProposedState rev = APPROVED →
  resolved_at (revs ++ [rev]) → approved_at (revs ++ [rev]) ∧ ¬ denied_at (revs ++ [rev]).
Proof.
  intros Hn Hp Hr. assert (¬ denied_at (revs ++ [rev])) as Hd.
  { intros Hd. apply Hn. left. by eapply denied_snoc. }
  split; [by destruct Hr|done].
Qed.
Lemma first_resolved_denied revs rev : ¬ resolved_at revs → ProposedState rev = DENIED →
  resolved_at (revs ++ [rev]) → denied_at (revs ++ [rev]) ∧ ¬ approved_at (revs ++ [rev]).
Proof.
  intros Hn Hp Hr. assert (¬ approved_at (revs ++ [rev])) as Ha.
  { intros Ha. apply Hn. right. by eapply approved_snoc. }
  split; [by destruct Hr|done].
Qed.
End resolution.

Section process.
Context `{GoMapOrderLaws}.
Context (ths : list AccessReviewThreshold) (rtm : gmap string ThresholdSets).
Context (Hths : thresholds_ok ths) (Hrtm : rtm_ok ths rtm).

(** The state of processing after the reviews [revs], none of which resolved. *)
Definition running (revs : list AccessReview) (s : processing) : Prop :=
  denied s = false ∧ approved_ok ths rtm revs (approved s) ∧ ¬ resolved_at ths rtm revs ∧
  (∀ rev, last revs = Some rev → lastReview s = rev).
(** The state when a review resolved. *)
Definition halted (revs : list AccessReview) (rev : AccessReview) (s : processing) : Prop :=
  lastReview s = rev ∧ ¬ resolved_at ths rtm revs ∧
  (denied s = true ∧ denied_at ths (revs ++ [rev]) ∨
   denied s = false ∧ ¬ denied_at ths (revs ++ [rev]) ∧ approved_at ths rtm (revs ++ [rev]) ∧ approved s = dom rtm).

Lemma process_reviews_spec todo done_ counts s :
  Forall (review_ok ths) todo → few (done_ ++ todo) → counts_ok ths (voted done_) counts → running done_ s →
  ∃ s', process_reviews ths rtm todo counts s = Ok s' ∧
    (running (done_ ++ todo) s' ∨
     ∃ pre rev post, todo = (pre ++ rev :: post)%list ∧ halted (done_ ++ pre) rev s').
Proof.
  revert done_ counts s. induction todo as [|rev todo IH]; intros done_ counts s Hok Hf Hc Hs; cbn [process_reviews].
  { exists s. split; [done|]. left. by rewrite app_nil_r. }
  apply Forall_cons in Hok as [Hrev Hok].
  rewrite (cons_middle rev done_ todo), app_assoc in Hf |- *.
  assert (few (done_ ++ [rev])) as Hf1.
  { unfold few in *. rewrite bind_app, length_app in Hf. lia. }
  destruct (count_review ths done_ rev counts Hrev Hf1 Hc) as (counts' & -> & Hc'). cbn [mbind result_bind].
  destruct Hs as (Hd & Ha & Hn & Hlast).
  destruct (existsb _ _) eqn:Ed.
  { eexists. split; [done|]. right. exists [], rev, todo. split; [done|]. rewrite app_nil_r.
    split; [done|]. split; [done|]. left. split; [done|]. by apply (denial_spec ths _ counts'). }
  assert (¬ denied_at ths (done_ ++ [rev])) as Hnd.
  { intros Hx. apply (denial_spec ths _ counts') in Hx; [congruence|done..]. }
  destruct (check_roles_spec ths rtm (done_ ++ [rev]) counts' (go_order (length todo) rtm) (approved s) Hc' Hrtm)
    as (a & all & -> & Ha' & Hsub & Hall).
  { intros role sets. rewrite go_order_perm. apply elem_of_map_to_list. }
  { intros role Hin. destruct (Ha _ Hin) as (sets & Hr & Hsets). exists sets. split; [done|]. by apply role_approved_mono. }
  cbn [mbind result_bind]. destruct all.
  - eexists. split; [done|]. right. exists [], rev, todo. split; [done|]. rewrite app_nil_r.
    assert (∀ role sets, rtm !! role = Some sets → role ∈ a) as Hin.
    { intros role sets Hr. apply (Hall role sets). rewrite go_order_perm. by apply elem_of_map_to_list. }
    split; [done|]. split; [done|]. right. split; [done|]. split; [done|]. split.
    + intros role sets Hr. destruct (Ha' _ (Hin _ _ Hr)) as (sets' & Hr' & ?). by simplify_eq.
    + apply set_eq. intros role. rewrite elem_of_dom. split.
      * intros Hx. destruct (Ha' _ Hx) as (? & ? & _). by eexists.
      * intros [sets Hr]. by eapply Hin.
  - destruct (IH (done_ ++ [rev])%list counts' (MkProcessing rev a (denied s)) Hok Hf Hc') as (s' & Hp & Hs').
    { split; [done|]. split; [done|]. split.
      - intros [?|Hap]; [done|]. destruct Hall as (role & sets & Hin & Hno). apply Hno, (Hap role).
        rewrite go_order_perm in Hin. by apply elem_of_map_to_list.
      - intros rev' Hl. rewrite last_snoc in Hl. by injection Hl as <-. }
    exists s'. split; [done|]. destruct Hs' as [Hs'|(pre & rev' & post & -> & Hh)]; [by left|right].
    exists (rev :: pre), rev', post. split; [done|]. by rewrite <- app_assoc in Hh.
Qed.
End process.

Section theorems.
Context `{GoMapOrderLaws}.

Lemma no_thresholds_resolved rtm revs : ¬ approved_at [] rtm [] → ¬ resolved_at [] rtm revs.
Proof.
  intros Hn [(i & t & Ht & _)|Ha]; [done|]. apply Hn. intros role sets Hr set Hs.
  destruct (Ha _ _ Hr _ Hs) as (tid & _ & t & Ht & _). by rewrite lookup_nil in Ht.
Qed.
Lemma initial_counts ths : counts_ok ths (voted []) (map (fun _ => MkCount 0 0) ths).
Proof.
  split; [by rewrite length_map|]. intros i Hi. unfold in_range in Hi.
  destruct (lookup_lt_is_Some_2 ths (Z.to_nat i)) as [t Ht]; [lia|].
  by rewrite list_lookup_fmap, Ht.
Qed.

(** What the resolution is once some review was processed. *)
Definition resolution_of (rtm : gmap string ThresholdSets) (s : processing) : result (option requestResolution) :=
  let resolution := Some (MkResolution (ProposedState (lastReview s)) (rv_Reason (lastReview s))) in
  match ProposedState (lastReview s) with
  | APPROVED => if negb (size (approved s) =? size rtm)%nat then Ok None else Ok resolution
  | DENIED => if negb (denied s) then Ok None else Ok resolution
  | _ => Err err_proposal
  end.
Lemma calculate_eq req rev0 reviews : Thresholds req ≠ [] → Reviews req = rev0 :: reviews →
  calculateReviewBasedResolution req =
    (s ← process_reviews (Thresholds req) (RoleThresholdMapping req) (Reviews req)
       (map (fun _ => MkCount 0 0) (Thresholds req)) (MkProcessing rev0 ∅ false);
     resolution_of (RoleThresholdMapping req) s).
Proof.
  intros Ht Hr. unfold calculateReviewBasedResolution. rewrite Hr. destruct (Thresholds req); [congruence|done].
Qed.

(** Whatever the order in which roles are visited, the reviews resolve a
    request at the first review after which some threshold has its denials, or
    every role has in each of its sets a threshold with its approvals; that
    review's proposal and reason are the resolution, approvals and denials being
    what was reached. Without such a review there is none. *)
Theorem calculate_resolution req :
  let '(ths, rtm) := (Thresholds req, RoleThresholdMapping req) in
  thresholds_ok ths → rtm_ok ths rtm → Forall (review_ok ths) (Reviews req) → few (Reviews req) →
  ¬ approved_at ths rtm [] →
  match calculateReviewBasedResolution req with
  | Ok (Some res) => ∃ pre rev post, Reviews req = (pre ++ rev :: post)%list ∧
      ¬ resolved_at ths rtm pre ∧ resolved_at ths rtm (pre ++ [rev]) ∧
      res = MkResolution (ProposedState rev) (rv_Reason rev) ∧
      (ProposedState rev = APPROVED ↔ approved_at ths rtm (pre ++ [rev])) ∧
      (ProposedState rev = DENIED ↔ denied_at ths (pre ++ [rev]))
  | Ok None => ¬ resolved_at ths rtm (Reviews req)
  | Err _ => False
  end.
Proof.
  intros Hths Hrtm Hrev Hf Hna.
  pose proof (not_denied_nil _ Hths) as Hnd.
  destruct (decide (Thresholds req = [])) as [Et|Et].
  { unfold calculateReviewBasedResolution. rewrite Et in *. by apply no_thresholds_resolved. }
  destruct (Reviews req) as [|rev0 reviews'] eqn:Er.
  { unfold calculateReviewBasedResolution. rewrite Er. destruct (Thresholds req); [done|]. by intros [?|?]. }
  rewrite (calculate_eq _ _ _ Et Er). rewrite <- Er in *.
  destruct (process_reviews_spec (Thresholds req) (RoleThresholdMapping req) Hths Hrtm (Reviews req) []
    (map (fun _ => MkCount 0 0) (Thresholds req)) (MkProcessing rev0 ∅ false)) as (s & -> & Hs);
    [done|done|apply initial_counts| |].
  { split; [done|]. split; [by intros ? ?%elem_of_empty|]. split; [by intros [?|?]|done]. }
  cbn [mbind result_bind]. unfold resolution_of. destruct Hs as [(Hd & Ha & Hn & Hlast)|(pre & rev & post & E & Hl & Hn & Hh)].
  - (* no review resolved *)
    cbn [app] in *. destruct (last (Reviews req)) as [rev|] eqn:El; [|by apply last_None in El; rewrite El in Er].
    rewrite (Hlast _ eq_refl).
    assert (review_ok (Thresholds req) rev) as [[Hp|Hp] _].
    { rewrite Forall_forall in Hrev. apply Hrev. apply last_Some in El as [l ->]. apply elem_of_app. right. left. }
    + rewrite Hp. destruct (Nat.eqb_spec (size (approved s)) (size (RoleThresholdMapping req))) as [Hsz|]; [|done].
      exfalso. apply Hn. right. intros role sets Hr.
      assert (approved s = dom (RoleThresholdMapping req)) as Hdom.
      { apply set_subseteq_size_eq; [|by rewrite size_dom, Hsz].
        intros x Hx. destruct (Ha _ Hx) as (? & ? & _). by apply elem_of_dom. }
      destruct (Ha role) as (sets' & Hr' & ?); [rewrite Hdom; by apply elem_of_dom|]. by simplify_eq.
    + by rewrite Hp, Hd.
  - cbn [app] in *. rewrite Hl.
    assert (review_ok (Thresholds req) rev) as [Hp _].
    { rewrite Forall_forall in Hrev. apply Hrev. rewrite E. apply elem_of_app. right. left. }
    assert (resolved_at (Thresholds req) (RoleThresholdMapping req) (pre ++ [rev])) as Hres
      by (destruct Hh as [[_ ?]|(_ & _ & ? & _)]; [by left|by right]).
    destruct Hp as [Hp|Hp]; rewrite Hp.
    + destruct (first_resolved_approved _ _ _ _ Hn Hp Hres) as [Hap Hnd'].
      destruct Hh as [[_ ?]|(_ & _ & _ & Hdom)]; [done|].
      rewrite Hdom, size_dom, Nat.eqb_refl. cbn [negb].
      exists pre, rev, post. rewrite Hp. split_and!; [done..| |]; split; [done|done|discriminate|done].
    + destruct (first_resolved_denied _ _ _ _ Hn Hp Hres) as [Hde Hna'].
      destruct Hh as [[Hd _]|(_ & Hx & _)]; [|done]. rewrite Hd. cbn [negb].
      exists pre, rev, post. rewrite Hp. split_and!; [done..| |]; split; [discriminate|done|done|done].
Qed.
End theorems.

(** ** Reviews applied one after another *)

Section monotone.
Context (ths : list AccessReviewThreshold) (rtm : gmap string ThresholdSets).
Lemma votes_mono st i l1 l2 : (votes st i l1 ≤ votes st i (l1 ++ l2))%Z.
Proof. rewrite votes_app. pose proof (votes_nonneg st i l2). lia. Qed.
Lemma resolved_mono l1 l2 : resolved_at ths rtm l1 → resolved_at ths rtm (l1 ++ l2).
Proof.
  intros [(i & t & Ht & Hz & Hv)|Ha]; [left|right].
  - exists i, t. split_and!; [done..|]. pose proof (votes_mono DENIED (Z.of_nat i) l1 l2). lia.
  - intros role sets Hr set Hs. destruct (Ha _ _ Hr _ Hs) as (tid & Hin & t & Ht & Hz & Hv).
    exists tid. split; [done|]. exists t. split_and!; [done..|]. pose proof (votes_mono APPROVED tid l1 l2). lia.
Qed.
End monotone.

Section history.
Context `{RequestLibs} `{GoMapOrderLaws}.

(** The configuration of a request: what no review changes. *)
Definition config (req : AccessRequest) :=
  (ar_Name req, ar_User req, ar_Roles req, Thresholds req, RoleThresholdMapping req, AccessExpiry req).

(** A request whose state is what its reviews amount to. *)
Definition tallied (req : AccessRequest) : Prop :=
  let '(ths, rtm) := (Thresholds req, RoleThresholdMapping req) in
  NoDup (map rv_Author (Reviews req)) ∧ Forall (review_ok ths) (Reviews req) ∧
  ((ar_State req = PENDING ∧ ¬ resolved_at ths rtm (Reviews req)) ∨
   ∃ pre rev post, Reviews req = (pre ++ rev :: post)%list ∧ ¬ resolved_at ths rtm pre ∧
     ar_State req = ProposedState rev ∧ ResolveReason req = rv_Reason rev ∧ ar_Expiry req = Some (AccessExpiry req) ∧
     (ar_State req = APPROVED ↔ approved_at ths rtm (pre ++ [rev])) ∧
     (ar_State req = DENIED ↔ denied_at ths (pre ++ [rev]))).

Lemma indexed_in_range i ts j t : (j, t) ∈ indexed_thresholds i ts → (i ≤ j < i + Z.of_nat (length ts))%Z.
Proof.
  revert i. induction ts as [|t0 ts IH]; intros i; cbn [indexed_thresholds]; [by intros ?%elem_of_nil|].
  intros [[= -> ->]|Hin]%elem_of_cons; cbn [length]; [lia|]. apply IH in Hin. lia.
Qed.
Lemma indexed_NoDup i ts : NoDup (indexed_thresholds i ts).*1.
Proof.
  revert i. induction ts as [|t ts IH]; intros i; cbn; constructor; [|apply IH].
  intros ([j t'] & -> & Hin)%list_elem_of_fmap. apply indexed_in_range in Hin. cbn in *. lia.
Qed.
Lemma collect_indexes_sub ctx ts tids : collect_indexes ctx ts = Ok tids → tids `sublist_of` ts.*1.
Proof.
  revert tids. induction ts as [|[j t] ts IH]; intros tids; cbn [collect_indexes].
  { intros [= <-]. constructor. }
  destruct (accessReviewThresholdMatchesFilter ctx t) as [[]|]; cbn [mbind result_bind]; [|..|done].
  - destruct (negb _); [done|]. destruct (collect_indexes ctx ts) as [tids'|]; [|done]. intros [= <-].
    by apply sublist_skip, IH.
  - intros E. by apply sublist_cons, IH.
Qed.
Lemma collected_ok req rev author tids : collectReviewThresholdIndexes req rev author = Ok tids →
  Forall (in_range (Thresholds req)) tids ∧ NoDup tids.
Proof.
  intros E. apply collect_indexes_sub in E. split; [|by eapply sublist_NoDup; [apply indexed_NoDup|]].
  apply Forall_forall. intros i Hin. eapply (elem_of_sublist _ _ _ Hin) in E.
  apply list_elem_of_fmap in E as ([j t] & -> & Ht). apply indexed_in_range in Ht. unfold in_range. cbn. lia.
Qed.

(** What was checked of a review. *)
Lemma checkReviewCompat_spec req rev : checkReviewCompat req rev = Ok () →
  (ProposedState rev = APPROVED ∨ ProposedState rev = DENIED) ∧ (rv_Author rev ∉ map rv_Author (Reviews req)) ∧
  Thresholds req ≠ [].
Proof.
  unfold checkReviewCompat. destruct (_ && _) eqn:Es; [done|]. destruct (_ =? 0)%nat eqn:Et; [done|].
  destruct (existsb _ _) eqn:Ea; [done|]. intros _. split_and!.
  - unfold IsApproved, IsDenied in Es. repeat case_bool_decide; [by left..|by right|done].
  - intros Hin. apply list_elem_of_fmap in Hin as (r & Hr & Hin).
    enough (existsb (fun existing => String.eqb (rv_Author existing) (rv_Author rev)) (Reviews req) = true) by congruence.
    apply existsb_elem. exists r. split; [done|]. apply String.eqb_eq. congruence.
  - intros E. by rewrite E in Et.
Qed.

(** What an accepted review does to a request. *)
Definition resolved_by (res : requestResolution) (req : AccessRequest) : AccessRequest :=
  SetExpiry (Some (AccessExpiry req)) (SetResolveReason (res_reason res) (with_State (res_state res) req)).
Lemma ApplyAccessReview_inv now req rev author req' : ApplyAccessReview now req rev author = Ok req' →
  rv_Author rev = user_Name author ∧ ∃ rev',
    rv_Author rev' = rv_Author rev ∧ ProposedState rev' = ProposedState rev ∧ rv_Reason rev' = rv_Reason rev ∧
    review_ok (Thresholds req) rev' ∧ (rv_Author rev' ∉ map rv_Author (Reviews req)) ∧
    let req1 := SetReviews (Reviews req ++ [rev']) req in
    (ar_State req ≠ PENDING ∧ req' = req1 ∨
     ar_State req = PENDING ∧ ∃ res, calculateReviewBasedResolution req1 = Ok res ∧
       req' = match res with None => req1 | Some res => resolved_by res req1 end).
Proof.
  unfold ApplyAccessReview. destruct (String.eqb_spec (rv_Author rev) (user_Name author)) as [Ha|]; [|done].
  cbn [negb]. set (rev1 := MkReview (rv_Author rev) (sort_Strings (Deduplicate (rv_Roles rev))) (ProposedState rev)
    (rv_Reason rev) (rv_Created rev) (rv_Annotations rev) (ThresholdIndexes rev)).
  destruct (checkReviewCompat req rev1) as [[]|] eqn:Ec; [|done]. cbn [mbind result_bind].
  apply checkReviewCompat_spec in Ec as (Hp & Hn & _).
  destruct (collectReviewThresholdIndexes req rev1 author) as [tids|] eqn:Et; [|done]. cbn [mbind result_bind].
  apply collected_ok in Et.
  set (rev2 := MkReview (rv_Author rev1) (rv_Roles rev1) (ProposedState rev1) (rv_Reason rev1)
    (if is_zero_time (rv_Created rev1) then now else rv_Created rev1) (rv_Annotations rev1) tids).
  set (req1 := SetReviews (Reviews req ++ [rev2]) req). intros E. split; [done|]. exists rev2.
  split; [done|]. split; [done|]. split; [done|]. split; [by split|]. split; [exact Hn|].
  fold req1. cbn zeta. change (ar_State req1) with (ar_State req) in E. unfold IsPending in E.
  case_bool_decide as Hs; cbn [negb] in E; [right|left; split; [done|by injection E as <-]].
  split; [done|]. destruct (calculateReviewBasedResolution req1) as [res|]; [|done]. exists res. split; [done|].
  cbn [mbind result_bind] in E. destruct res as [res|]; [|by injection E as <-]. injection E as <-.
  unfold SetState. change (ar_State req1) with (ar_State req). by rewrite Hs.
Qed.

Lemma few_prefix l1 l2 : few (l1 ++ l2) → few l1.
Proof. unfold few. rewrite bind_app, length_app. lia. Qed.

Lemma ApplyAccessReview_tallied now req rev author req' : ApplyAccessReview now req rev author = Ok req' →
  thresholds_ok (Thresholds req) → rtm_ok (Thresholds req) (RoleThresholdMapping req) →
  ¬ approved_at (Thresholds req) (RoleThresholdMapping req) [] → few (Reviews req') →
  tallied req → tallied req' ∧ config req' = config req ∧ ∃ rev', Reviews req' = (Reviews req ++ [rev'])%list.
Proof.
  intros E Hths Hrtm Hna Hf (Hnd & Hok & Hs).
  apply ApplyAccessReview_inv in E as (_ & rev' & Hau & Hp & Hre & Hrev & Hn & E). cbn zeta in E.
  set (req1 := SetReviews (Reviews req ++ [rev']) req) in *.
  assert (NoDup (map rv_Author (Reviews req ++ [rev']))) as Hnd1.
  { rewrite map_app. apply NoDup_app. split; [done|]. split; [|apply NoDup_singleton].
    intros x Hx ->%list_elem_of_singleton. done. }
  assert (Forall (review_ok (Thresholds req)) (Reviews req ++ [rev'])) as Hok1 by (apply Forall_app; auto).
  assert (config req1 = config req) as Hc1 by by destruct req.
  destruct E as [[Hns ->]|[Hpe (res & E & ->)]].
  - split; [|split; [done|by exists rev']]. unfold tallied. split; [done|]. split; [done|]. right.
    destruct Hs as [[? _]|(pre & r & post & Er & Hs)]; [done|]. exists pre, r, (post ++ [rev'])%list.
    split; [|done]. change (Reviews req1) with (Reviews req ++ [rev'])%list. by rewrite Er, <- app_assoc.
  - assert (¬ resolved_at (Thresholds req) (RoleThresholdMapping req) (Reviews req)) as Hnr.
    { destruct Hs as [[_ ?]|(pre & r & post & Er & _ & Hst & _)]; [done|]. rewrite Er in Hok.
      apply Forall_app in Hok as [_ [[Hx _] _]%Forall_cons]. rewrite Hpe in Hst. by destruct Hx; congruence. }
    pose proof (calculate_resolution req1) as Hr. cbn zeta in Hr.
    assert (few (Reviews req1)) as Hf1 by by destruct res.
    specialize (Hr Hths Hrtm Hok1 Hf1 Hna). rewrite E in Hr. destruct res as [res|].
    + destruct Hr as (pre & r & post & Er & Hn1 & Hr1 & -> & Hap & Hde).
      split; [|split; [by destruct req|by exists rev']]. unfold tallied. split; [done|]. split; [done|]. right.
      exists pre, r, post. by split_and!.
    + split; [|split; [done|by exists rev']]. unfold tallied. split; [done|]. split; [done|]. left. done.
Qed.

(** Reviews submitted in turn, until one is refused. *)
Fixpoint submit (subs : list (Z * AccessReview * User)) (req : AccessRequest) : result AccessRequest :=
  match subs with
  | [] => Ok req
  | (now, rev, author) :: subs => req ← ApplyAccessReview now req rev author; submit subs req
  end.
Lemma submit_extends subs req req' : submit subs req = Ok req' →
  ∃ l, Reviews req' = (Reviews req ++ l)%list ∧ length l = length subs.
Proof.
  revert req. induction subs as [|[[now rev] author] subs IH]; intros req; cbn [submit].
  { intros [= <-]. exists []. by rewrite app_nil_r. }
  destruct (ApplyAccessReview now req rev author) as [req1|] eqn:E; [|done]. cbn [mbind result_bind].
  intros (l & Hl & Hlen)%IH. apply ApplyAccessReview_inv in E as (_ & rev' & _ & _ & _ & _ & _ & E). cbn zeta in E.
  assert (Reviews req1 = Reviews req ++ [rev'])%list as Hr by by destruct E as [[_ ->]|[_ ([res|] & _ & ->)]].
  exists (rev' :: l). split; [by rewrite Hl, Hr, <- app_assoc|cbn; congruence].
Qed.

Lemma fresh_tallied req : thresholds_ok (Thresholds req) →
  ¬ approved_at (Thresholds req) (RoleThresholdMapping req) [] →
  ar_State req = PENDING → Reviews req = [] → tallied req.
Proof.
  intros Hths Hna Hp Hr. unfold tallied. rewrite Hr. split; [constructor|]. split; [constructor|]. left.
  split; [done|]. by intros [Hd%not_denied_nil|].
Qed.
Lemma submit_tallied subs req req' :
  thresholds_ok (Thresholds req) → rtm_ok (Thresholds req) (RoleThresholdMapping req) →
  ¬ approved_at (Thresholds req) (RoleThresholdMapping req) [] →
  tallied req → few (Reviews req') → submit subs req = Ok req' → config req' = config req ∧ tallied req'.
Proof.
  intros Hths Hrtm Hna Ht Hf. revert req Hths Hrtm Hna Ht.
  induction subs as [|[[now rev] author] subs IH]; intros req Hths Hrtm Hna Ht; cbn [submit]; [by intros [= <-]|].
  destruct (ApplyAccessReview now req rev author) as [req1|] eqn:E1; [|done]. cbn [mbind result_bind]. intros E.
  destruct (submit_extends _ _ _ E) as (l & Hl & _).
  destruct (ApplyAccessReview_tallied _ _ _ _ _ E1 Hths Hrtm Hna) as (Ht1 & Hc & _); [|done|].
  { apply (few_prefix _ l). by rewrite <- Hl. }
  pose proof Hc as [= _ _ _ Et Em _]. rewrite <- Hc. apply IH; [..|done|done]; by rewrite ?Et, ?Em.
Qed.

(** C33: A pending request without reviews to which reviews are submitted one
    after another, each accepted, ends with one review of each author and with
    the state these amount to: pending while no prefix of the reviews met
    thresholds, else the proposal of the first review that did, with its reason
    and the expiry of the access; reviews after that change nothing of it. *)
Theorem review_history subs req req' :
  thresholds_ok (Thresholds req) → rtm_ok (Thresholds req) (RoleThresholdMapping req) →
  ¬ approved_at (Thresholds req) (RoleThresholdMapping req) [] →
  ar_State req = PENDING → Reviews req = [] → few (Reviews req') →
  submit subs req = Ok req' →
  config req' = config req ∧ tallied req' ∧ length (Reviews req') = length subs.
Proof.
  intros Hths Hrtm Hna Hp Hr Hf E.
  destruct (submit_tallied _ _ _ Hths Hrtm Hna (fresh_tallied _ Hths Hna Hp Hr) Hf E) as [? ?].
  split; [done|]. split; [done|]. destruct (submit_extends _ _ _ E) as (l & Hl & <-). by rewrite Hl, Hr.
Qed.
End history.

(** ** Permission to review *)

Section permission.
Context `{RequestLibs} `{GoMapOrderLaws} `{GoLibs} `{Regexp}.

Definition matches (ms : list Matcher) (role : string) : Prop := match_any ms role = Some true.
#[export] Instance matches_dec ms role : Decision (matches ms role).
Proof. unfold matches. apply option_eq_dec. Defined.
(** The directives whose predicate holds for a request. *)
Definition applies (c : ReviewPermissionChecker) (req : AccessRequest) (m : gmap string (list Matcher)) (ms : list Matcher) : Prop :=
  ∃ expr, m !! expr = Some ms ∧ where_holds (permission_context c req) expr = Ok true.
(** Who may review: not the requester, not denied for any role, allowed for every role. *)
Definition may_review (c : ReviewPermissionChecker) (req : AccessRequest) : Prop :=
  user_Name (rpc_User c) ≠ ar_User req ∧
  (∀ ms role, applies c req (DenyReview c) ms → role ∈ GetOriginalRoles req → ¬ matches ms role) ∧
  (∀ role, role ∈ GetOriginalRoles req → ∃ ms, applies c req (AllowReview c) ms ∧ matches ms role).

Lemma any_role_matches_spec ms roles b : any_role_matches ms roles = Some b →
  b = true ↔ ∃ role, role ∈ roles ∧ matches ms role.
Proof.
  unfold matches. induction roles as [|role roles IH]; cbn [any_role_matches].
  { intros [= <-]. split; [done|]. by intros (? & ?%elem_of_nil & _). }
  rewrite exists_cons_iff. destruct (match_any ms role) as [[]|]; [intros [= <-]; tauto| |done].
  intros E. rewrite (IH E). intuition discriminate.
Qed.
Lemma unmatched_roles_spec ms roles rest : unmatched_roles ms roles = Some rest →
  ∀ role, role ∈ rest ↔ role ∈ roles ∧ ¬ matches ms role.
Proof.
  unfold matches. revert rest. induction roles as [|r roles IH]; intros rest; cbn [unmatched_roles].
  { intros [= <-] role. rewrite elem_of_nil. tauto. }
  destruct (match_any ms r) as [b|] eqn:Eb; [|done]. cbn [mbind option_bind].
  destruct (unmatched_roles ms roles) as [rest'|]; [|done]. cbn [mbind option_bind]. intros [= <-] role.
  rewrite elem_of_cons. destruct b; [|rewrite elem_of_cons]; rewrite (IH _ eq_refl role);
    split; [naive_solver|intros [[->|?] ?]; naive_solver|intros [->|[? ?]]; [split; [by left|by rewrite Eb]|naive_solver]|naive_solver].
Qed.

Lemma review_denied_spec ctx roles deny b : review_denied ctx roles deny = Some (Ok b) →
  b = true ↔ ∃ expr ms role, (expr, ms) ∈ deny ∧ where_holds ctx expr = Ok true ∧ role ∈ roles ∧ matches ms role.
Proof.
  induction deny as [|[expr ms] deny IH]; cbn [review_denied].
  { intros [= <-]. split; [done|]. by intros (? & ? & ? & ?%elem_of_nil & _). }
  destruct (where_holds ctx expr) as [[]|] eqn:Ew; [|..|done].
  - destruct (any_role_matches ms roles) as [[]|] eqn:Em; [|..|done].
    + intros [= <-]. split; [|done]. intros _. apply any_role_matches_spec in Em as [Em _].
      destruct (Em eq_refl) as (role & ? & ?). exists expr, ms, role. split_and!; [left|done..].
    + apply any_role_matches_spec in Em. intros E. rewrite (IH E). split.
      * intros (x & y & role & ? & ?). exists x, y, role. split; [by right|done].
      * intros (x & y & role & [[= -> ->]|Hin]%elem_of_cons & Hx & ?); [|by exists x, y, role].
        destruct Em as [_ Em]. discriminate Em. by exists role.
  - intros E. rewrite (IH E). split.
    + intros (x & y & role & ? & ?). exists x, y, role. split; [by right|done].
    + intros (x & y & role & [[= -> ->]|Hin]%elem_of_cons & Hx & ?); [congruence|by exists x, y, role].
Qed.
Lemma review_allowed_spec ctx needs allow b : review_allowed ctx needs allow = Some (Ok b) →
  b = true ↔ ∀ role, role ∈ needs → ∃ expr ms, (expr, ms) ∈ allow ∧ where_holds ctx expr = Ok true ∧ matches ms role.
Proof.
  revert needs. induction allow as [|[expr ms] allow IH]; intros needs; cbn [review_allowed].
  { intros [= <-]. rewrite Nat.eqb_eq, length_zero_iff_nil. split; [by intros -> ? ?%elem_of_nil|].
    intros Hall. destruct needs as [|r needs]; [done|]. destruct (Hall r) as (? & ? & ?%elem_of_nil & _); [left|done]. }
  assert (∀ role, (∃ x y, (x, y) ∈ (expr, ms) :: allow ∧ where_holds ctx x = Ok true ∧ matches y role) ↔
    (where_holds ctx expr = Ok true ∧ matches ms role) ∨
    ∃ x y, (x, y) ∈ allow ∧ where_holds ctx x = Ok true ∧ matches y role) as Hc.
  { intros role. split.
    - intros (x & y & [[= -> ->]|Hin]%elem_of_cons & ?); [by left|right; by exists x, y].
    - intros [?|(x & y & ? & ?)]; [exists expr, ms; split; [left|done]|exists x, y; split; [by right|done]]. }
  setoid_rewrite Hc. destruct (where_holds ctx expr) as [[]|] eqn:Ew; [|..|done].
  - destruct (unmatched_roles ms needs) as [rest|] eqn:Eu; [|done]. pose proof (unmatched_roles_spec _ _ _ Eu) as Hu.
    destruct rest as [|r rest].
    + intros [= <-]. split; [|done]. intros _ role Hin. left. split; [done|].
      destruct (decide (matches ms role)) as [|Hn]; [done|]. exfalso.
      apply (elem_of_nil role), Hu. done.
    + intros E. rewrite (IH _ E). setoid_rewrite Hu. split.
      * intros Hall role Hin. destruct (decide (matches ms role)) as [|Hn]; [by left|right]. by apply Hall.
      * intros Hall role [Hin Hn]. by destruct (Hall _ Hin) as [[_ ?]|?].
  - intros E. rewrite (IH _ E). split; [intros Hall role Hin; right; by apply Hall|].
    intros Hall role Hin. by destruct (Hall _ Hin) as [[? _]|?].
Qed.

(** When the check of who may review a request gives an answer, it is yes
    exactly when the user is not the requester, no deny directive in force
    matches a requested role and each requested role is matched by an allow
    directive in force, whatever the order of the maps of directives. *)
Theorem CanReviewRequest_correct c req b :
  CanReviewRequest c req = Some (Ok b) → (b = true ↔ may_review c req).
Proof.
  unfold CanReviewRequest, may_review, applies.
  destruct (String.eqb_spec (user_Name (rpc_User c)) (ar_User req)) as [|Hu].
  { intros [= <-]. split; [done|]. by intros [? _]. }
  assert (∀ (m : gmap string (list Matcher)) expr ms, (expr, ms) ∈ go_order 0 m ↔ m !! expr = Some ms) as Ho.
  { intros. by rewrite go_order_perm, elem_of_map_to_list. }
  destruct (review_denied _ _ _) as [[[]|]|] eqn:Ed; [..|done|done].
  - intros [= <-]. split; [done|]. intros (_ & Hd & _).
    destruct (proj1 (review_denied_spec _ _ _ _ Ed) eq_refl) as (expr & ms & role & Hin%Ho & ? & ? & ?).
    by destruct (Hd ms role); [by exists expr|..].
  - intros E. rewrite (review_allowed_spec _ _ _ _ E). apply review_denied_spec in Ed. setoid_rewrite Ho. split.
    + intros Ha. split; [done|]. split.
      * intros ms role (expr & ? & ?) ? ?. destruct Ed as [_ Ed]. discriminate Ed.
        exists expr, ms, role. by rewrite Ho.
      * intros role Hin. destruct (Ha _ Hin) as (expr & ms & ? & ? & ?). exists ms. split; [by exists expr|done].
    + intros (_ & _ & Ha) role Hin. destruct (Ha _ Hin) as (ms & (expr & ? & ?) & ?). by exists expr, ms.
Qed.
End permission.
