(* ===== verification/RequestValidator.v ===== *)
(** * Validation of access requests (lib/services/access_request.go)

    The validator compiles the roles of a user into matchers, checks the roles
    requested, and computes thresholds, annotations and the roles a request for
    resources needs. The matchers of a role that asks for thresholds are a slice
    of those of all roles: slices and their arrays are modelled. *)

From Stdlib Require Import Ascii String.
From S2P Require Import Prelude.
From S2P Require Import GoSlice.
From S2P Require Import Keys.
From S2P Require Import Labels.
From S2P Require Import Parse.
From S2P Require Import Role.
From S2P Require Import Traits.
From S2P Require Import RoleSet.
From S2P Require Import AccessRequest.
Local Open Scope string_scope.

(** ** Resources *)

(** A Kubernetes cluster as servers used to list it. *)
Record LegacyCluster := MkLegacyCluster {
  lc_Name : string; lc_StaticLabels : gmap string string; lc_DynamicLabels : gmap string string
}.
(** A resource in a list, by the type of its Go value. *)
Inductive ListedResource :=
  | AppServer (app : AccessCheckable)
  | KubeServer (cluster : AccessCheckable)
  | DatabaseServer (database : AccessCheckable)
  | NodeServer (server : AccessCheckable) (KubernetesClusters : list LegacyCluster)
  | OtherResource (r : AccessCheckable).

Record ListResourcesRequest := MkListRequest { ResourceType : string; PredicateExpression : string; Limit : Z }.

(** What a validator reads of the cluster, and Go's quotation of strings. *)
Class ValidatorGetter := {
  GetUser : string → result User;
  GetRole : string → result Role;
  GetAllRoles : result (list Role);
  GetClusterName : result string;
  ListResources : ListResourcesRequest → result (list ListedResource);
  Quote : string → string
}.

Definition CombineLabels (static dynamic : gmap string string) : gmap string string := dynamic ∪ static.

(** Dynamic labels are given by their results. The cluster is of no cloud. *)
Definition NewKubernetesClusterV3FromLegacyCluster (namespace : string) (c : LegacyCluster) : result AccessCheckable :=
  m ← Metadata_CheckAndSetDefaults (MkMetadata (lc_Name c) namespace "" (lc_StaticLabels c) None 0);
  if bool_decide (map_Forall (fun k _ => IsValidLabelKey k = true) (lc_DynamicLabels c))
  then Ok (MkCheckable "kube_cluster" (md_Name m) (md_Namespace m) (CombineLabels (md_Labels m) (lc_DynamicLabels c)))
  else Err (Error BadParameter "kubernetes cluster %q invalid label key: %q").

Definition MapResourceKindToListResourcesType (kind : string) : string :=
  if String.eqb kind "app" then "app_server" else
  if String.eqb kind "db" then "db_server" else
  if String.eqb kind "kube_cluster" then "kube_server" else kind.

Fixpoint map_results {A B} (f : A → result B) (l : list A) : result (list B) :=
  match l with [] => Ok [] | x :: l => y ← f x; ys ← map_results f l; Ok (y :: ys) end.

Definition MapListResourcesResultToLeafResource (resource : ListedResource) (hint : string) : result (list AccessCheckable) :=
  match resource with
  | AppServer app => Ok [app]
  | KubeServer cluster => Ok [cluster]
  | DatabaseServer database => Ok [database]
  | NodeServer server clusters =>
      if String.eqb hint "kube_cluster"
      then map_results (NewKubernetesClusterV3FromLegacyCluster defaults_Namespace) clusters
      else Ok [server]
  | OtherResource r => Ok [r]
  end.

(** Names by kind, in their order. *)
Definition resourceNamesByKind (ids : list ResourceID) : gmap string (list string) :=
  fold_left (fun m id => <[ rid_Kind id := (default [] (m !! rid_Kind id) ++ [rid_Name id])%list ]> m) ids ∅.

Section resources.
Context `{ValidatorGetter} `{GoMapOrder}.

Definition anyNameMatcher (names : list string) : string :=
  String.concat " || " (map (fun name => "resource.metadata.name == " ++ Quote name) names).

Fixpoint resources_of_kinds (kinds : list (string * list string)) : result (list AccessCheckable) :=
  match kinds with
  | [] => Ok []
  | (kind, names) :: kinds =>
      resp ← ListResources (MkListRequest (MapResourceKindToListResourcesType kind) (anyNameMatcher names)
        (wrap_i 32 (Z.of_nat (length names))));
      leaves ← map_results (fun r => MapListResourcesResultToLeafResource r kind) resp;
      rest ← resources_of_kinds kinds;
      Ok (mjoin leaves ++ rest)%list
  end.
Definition GetResourcesByResourceIDs (ids : list ResourceID) : result (list AccessCheckable) :=
  resources_of_kinds (go_order 0 (resourceNamesByKind ids)).
End resources.

(** ** Identifiers of resources *)

Definition RequestableResourceKinds : list string := ["node"; "kube_cluster"; "db"; "app"; "windows_desktop"].
Definition ResourceID_CheckAndSetDefaults (id : ResourceID) : result unit :=
  if String.eqb (rid_ClusterName id) "" then Err (Error BadParameter "ResourceID must include ClusterName") else
  if String.eqb (rid_Kind id) "" then Err (Error BadParameter "ResourceID must include Kind") else
  if negb (SliceContainsStr RequestableResourceKinds (rid_Kind id))
  then Err (Error BadParameter "Resource kind %q is invalid or unsupported") else
  if String.eqb (rid_Name id) "" then Err (Error BadParameter "ResourceID must include Name") else Ok ().

Definition ResourceIDToString (id : ResourceID) : string :=
  "/" ++ rid_ClusterName id ++ "/" ++ rid_Kind id ++ "/" ++ rid_Name id.

(** What stands before the first slash, and what after, if there is one. *)
Fixpoint cut_slash (s : string) : option (string * string) :=
  match s with
  | EmptyString => None
  | String c s =>
      if Ascii.eqb c "/" then Some ("", s)
      else '(a, b) ← cut_slash s; Some (String c a, b)
  end.
Definition err_resource_id : error := Error BadParameter "%s is not a valid ResourceID string".
Definition ResourceIDFromString (raw : string) : result ResourceID :=
  match raw with
  | String c raw =>
      if negb (Ascii.eqb c "/") then Err err_resource_id else
      match cut_slash raw with
      | None => Err err_resource_id
      | Some (cluster, rest) =>
          match cut_slash rest with
          | None => Err err_resource_id
          | Some (kind, name) =>
              let id := MkResourceID cluster kind name in
              _ ← ResourceID_CheckAndSetDefaults id; Ok id
          end
      end
  | EmptyString => Err err_resource_id
  end.

(** ** The validator *)

Record RequestValidator := MkValidator {
  v_user : User; requireReason : bool; expandVars : bool;
  matcher_arrays : list (list Matcher);
  AllowRequest : slice; DenyRequest : list Matcher;
  AllowSearch : list string; DenySearch : list string;
  Annotations_Allow : gmap string (list string); Annotations_Deny : gmap string (list string);
  ThresholdMatchers : list (slice * list AccessReviewThreshold);
  v_SuggestedReviewers : list string
}.
(** The matchers a slice of a validator holds. *)
Definition matchers_of (m : RequestValidator) (s : slice) : list Matcher := elems (matcher_arrays m) s.

#[export] Instance AccessReviewThreshold_eq_dec : EqDecision AccessReviewThreshold.
Proof. solve_decision. Defined.

Section thresholds.

(** A role that asks for no threshold has this one. *)
Definition default_threshold : AccessReviewThreshold := MkAccessReviewThreshold "default" "" 1 1.
Definition maxThresholds : nat := 4096.

Fixpoint threshold_index (t : AccessReviewThreshold) (ts : list AccessReviewThreshold) : option nat :=
  match ts with
  | [] => None
  | t' :: ts => if bool_decide (t = t') then Some 0%nat else S <$> threshold_index t ts
  end.
(** The thresholds collected so far are threaded through. *)
Definition pushThreshold (t : AccessReviewThreshold) (c : list AccessReviewThreshold) :
    result (Z * list AccessReviewThreshold) :=
  match threshold_index t c with
  | Some i => Ok (u32 (Z.of_nat i), c)
  | None =>
      if (maxThresholds <=? length c)%nat
      then Err (Error LimitExceeded "max review thresholds exceeded (max=%d)")
      else Ok (u32 (Z.of_nat (length c)), (c ++ [t])%list)
  end.
Fixpoint push_all (s : list AccessReviewThreshold) (c : list AccessReviewThreshold) :
    result (list Z * list AccessReviewThreshold) :=
  match s with
  | [] => Ok ([], c)
  | t :: s => '(tid, c) ← pushThreshold t c; '(indexes, c) ← push_all s c; Ok (tid :: indexes, c)
  end.
Definition push_thresholds (s : list AccessReviewThreshold) (c : list AccessReviewThreshold) :
    result (list Z * list AccessReviewThreshold) :=
  push_all (if (length s =? 0)%nat then [default_threshold] else s) c.
End thresholds.

Section validator.
Context `{GoLibs} `{Regexp} `{GoGrow}.

Definition appendMatchers (s : slice) (roles : list string) (cms : list ClaimMapping) (traits : UserTraits)
    (h : list (list Matcher)) : result (slice * list (list Matcher)) :=
  ms ← NewMatchers roles;
  let '(s, h) := append_each s ms h in
  mapped ← TraitsToRoleMatchers (GetTraitMappings cms) traits;
  Ok (append s mapped h).

(** The keys of a map of annotations are independent of each other. *)
Definition insertAnnotations (annotations : gmap string (list string)) (conditions : AccessRequestConditions)
    (traits : UserTraits) : gmap string (list string) :=
  merge (fun old new =>
      match new with
      | Some vals => Some (default [] old ++ (vals ≫= fun v =>
          match ApplyValueTraits v traits with Ok applied => applied | Err _ => [] end))%list
      | None => old
      end) annotations (req_Annotations conditions).

Definition push (role : Role) (m : RequestValidator) : result RequestValidator :=
  let allow := GetAccessRequestConditions Allow role in
  let deny := GetAccessRequestConditions Deny role in
  let traits := user_Traits (v_user m) in
  let requireReason := requireReason m || RequireReason (RequestAccess (GetOptions role)) in
  denies ← appendRoleMatchers (DenyRequest m) (req_Roles deny) (req_ClaimsToRoles deny) traits;
  let astart := sl_len (AllowRequest m) in
  '(allows, h) ← appendMatchers (AllowRequest m) (req_Roles allow) (req_ClaimsToRoles allow) traits (matcher_arrays m);
  let allowSearch := Deduplicate (AllowSearch m ++ req_SearchAsRoles allow) in
  let denySearch := Deduplicate (DenySearch m ++ req_SearchAsRoles deny) in
  if expandVars m then
    let '(newMatchers, h) := append_each (slice_from allows astart) (map literalMatcher (req_SearchAsRoles allow)) h in
    Ok (MkValidator (v_user m) requireReason true h allows denies allowSearch denySearch
      (insertAnnotations (Annotations_Allow m) allow traits) (insertAnnotations (Annotations_Deny m) deny traits)
      (if (0 <? sl_len newMatchers)%nat then ThresholdMatchers m ++ [(newMatchers, req_Thresholds allow)]
       else ThresholdMatchers m)%list
      (v_SuggestedReviewers m ++ req_SuggestedReviewers allow)%list)
  else
    Ok (MkValidator (v_user m) requireReason false h allows denies allowSearch denySearch
      (Annotations_Allow m) (Annotations_Deny m) (ThresholdMatchers m) (v_SuggestedReviewers m)).

Definition empty_validator (user : User) (expand : bool) : RequestValidator :=
  MkValidator user false expand [] nil_slice [] [] [] ∅ ∅ [] [].

Fixpoint validator_push_roles (GetRole : string → result Role) (names : list string) (m : RequestValidator) :
    result RequestValidator :=
  match names with
  | [] => Ok m
  | name :: names => role ← GetRole name; m ← push role m; validator_push_roles GetRole names m
  end.
Definition NewRequestValidator `{ValidatorGetter} (username : string) (expand : bool) : result RequestValidator :=
  user ← GetUser username;
  validator_push_roles GetRole (user_Roles user) (empty_validator user expand).

(** ** What may be requested *)

Definition CanRequestRole (m : RequestValidator) (name : string) : outcome bool :=
  match match_any (DenyRequest m) name with
  | None => None
  | Some true => done false
  | Some false => Ok <$> match_any (matchers_of m (AllowRequest m)) name
  end.
Definition CanSearchAsRole (m : RequestValidator) (name : string) : outcome bool :=
  if SliceContainsStr (DenySearch m) name then done false else
  match match_any (DenyRequest m) name with
  | None => None
  | Some true => done false
  | Some false => done (SliceContainsStr (AllowSearch m) name)
  end.

(** The roles of a list that pass a check. *)
Fixpoint filter_roles (check : string → outcome bool) (names : list string) : outcome (list string) :=
  match names with
  | [] => done []
  | name :: names =>
      ok ⇐ check name;
      rest ⇐ filter_roles check names;
      done (if ok : bool then name :: rest else rest)
  end.
Definition GetRequestableRoles `{ValidatorGetter} (m : RequestValidator) : outcome (list string) :=
  match GetAllRoles with
  | Err e => Some (Err e)
  | Ok allRoles =>
      filter_roles (fun n => if SliceContainsStr (user_Roles (v_user m)) n then done false else CanRequestRole m n)
        (map GetName allRoles)
  end.

Fixpoint check_requested (check : string → outcome bool) (names : list string) : outcome unit :=
  match names with
  | [] => done ()
  | name :: names =>
      ok ⇐ check name;
      if ok : bool then check_requested check names else fails BadParameter "user %q can not request role %q"
  end.

(** ** Thresholds of a role *)

Fixpoint collect_sets (m : RequestValidator) (groups : list (slice * list AccessReviewThreshold))
    (c : list AccessReviewThreshold) (role : string) : outcome (ThresholdSets * list AccessReviewThreshold) :=
  match groups with
  | [] => done ([], c)
  | (s, thresholds) :: groups =>
      match match_any (matchers_of m s) role with
      | None => None
      | Some true =>
          '(set, c) ⇐ Some (push_thresholds thresholds c);
          '(sets, c) ⇐ collect_sets m groups c role;
          done (set :: sets, c)
      | Some false => collect_sets m groups c role
      end
  end.
Definition err_no_sets : error := Error BadParameter "role %q matches no threshold sets (this is a bug)".
Definition collectSetsForRole (m : RequestValidator) (c : list AccessReviewThreshold) (role : string) :
    outcome (ThresholdSets * list AccessReviewThreshold) :=
  '(sets, c) ⇐ collect_sets m (ThresholdMatchers m) c role;
  if (length sets =? 0)%nat then Some (Err err_no_sets) else done (sets, c).

Fixpoint collect_roles (m : RequestValidator) (roles : list string) (rtm : gmap string ThresholdSets)
    (c : list AccessReviewThreshold) : outcome (gmap string ThresholdSets * list AccessReviewThreshold) :=
  match roles with
  | [] => done (rtm, c)
  | role :: roles =>
      '(sets, c) ⇐ collectSetsForRole m c role;
      collect_roles m roles (<[ role := sets ]> rtm) c
  end.

Definition SystemAnnotations (m : RequestValidator) : gmap string (list string) :=
  map_imap (fun k va =>
    let filtered := List.filter (fun v => negb (SliceContainsStr (default [] (Annotations_Deny m !! k)) v)) va in
    if (length filtered =? 0)%nat then None else Some filtered) (Annotations_Allow m).
End validator.

(** ** Roles for resources *)

Definition countAllowedLogins (role : Role) : nat :=
  size ((list_to_set (GetLogins Allow role) : gset string) ∖ list_to_set (GetLogins Deny role)).
Fixpoint fewest_loop (fewestCount : nat) (fewest : Role) (roles : list Role) : Role :=
  match roles with
  | [] => fewest
  | role :: roles =>
      fewest_loop fewestCount (if (countAllowedLogins role <? fewestCount)%nat then role else fewest) roles
  end.
Definition fewestLogins (roles : list Role) : list Role :=
  match roles with
  | [] => []
  | first :: roles => [fewest_loop (countAllowedLogins first) first roles]
  end.

Section pruning.
Context `{ValidatorGetter} `{GoMapOrder} `{GoLibs} `{Regexp} `{MapOrder} `{UnixUsers}.

Fixpoint FetchRoleList (names : list string) (traits : UserTraits) : result (list Role) :=
  match names with
  | [] => Ok []
  | name :: names =>
      role ← GetRole name;
      roles ← FetchRoleList names traits;
      Ok (ApplyTraits role traits :: roles)
  end.
Definition FetchRoles (names : list string) (traits : UserTraits) : result RoleSet :=
  roles ← FetchRoleList names traits; Ok (NewRoleSet roles).

Definition roleAllowsResource (role : Role) (resource : AccessCheckable) (loginHint : string) : result bool :=
  match checkAccess [role] resource (MkMFAParams MFARequiredNever true)
          (if negb (String.eqb loginHint "") then [NewLoginMatcher loginHint] else []) with
  | Ok _ => Ok true
  | Err e => if bool_decide (err_kind e = AccessDenied) then Ok false else Err e
  end.
Fixpoint roles_for_resource (roles : list Role) (resource : AccessCheckable) (loginHint : string) : result (list Role) :=
  match roles with
  | [] => Ok []
  | role :: roles =>
      b ← roleAllowsResource role resource loginHint;
      rest ← roles_for_resource roles resource loginHint;
      Ok (if b : bool then role :: rest else rest)
  end.
Fixpoint necessary_roles (roles : list Role) (resources : list AccessCheckable) (loginHint : string)
    (necessary : gmap string unit) : result (gmap string unit) :=
  match resources with
  | [] => Ok necessary
  | resource :: resources =>
      rolesForResource ← roles_for_resource roles resource loginHint;
      let rolesForResource := if negb (String.eqb loginHint "") then fewestLogins rolesForResource else rolesForResource in
      necessary_roles roles resources loginHint
        (fold_left (fun s role => <[ GetName role := () ]> s) rolesForResource necessary)
  end.
Definition pruneResourceRequestRoles (m : RequestValidator) (resourceIDs : list ResourceID) (loginHint : string)
    (roles : list string) : result (list string) :=
  if (length resourceIDs =? 0)%nat then Ok roles else
  localClusterName ← GetClusterName;
  if existsb (fun id => negb (String.eqb (rid_ClusterName id) localClusterName)) resourceIDs then Ok roles else
  allRoles ← FetchRoles roles (user_Traits (v_user m));
  resources ← GetResourcesByResourceIDs resourceIDs;
  necessary ← necessary_roles allRoles resources loginHint ∅;
  if (size necessary =? 0)%nat
  then Err (Error BadParameter "no roles configured in the search_as_roles for this user allow access to any requested resources")
  else Ok (go_order 1 necessary).*1.

(** ** Validation *)

Definition setRolesForResourceRequest (m : RequestValidator) (req : AccessRequest) : outcome AccessRequest :=
  if negb (expandVars m) then done req else
  if (length (RequestedResourceIDs req) =? 0)%nat then done req else
  if (0 <? length (ar_Roles req))%nat then done req else
  rolesToRequest ⇐ filter_roles (CanSearchAsRole m) (AllowSearch m);
  if (length rolesToRequest =? 0)%nat
  then fails BadParameter "user attempted a resource request but does not have any search_as_roles" else
  roles ⇐ Some (pruneResourceRequestRoles m (RequestedResourceIDs req) (LoginHint req) rolesToRequest);
  done (SetRoles roles req).

(** A wildcard request stands for the roles that can be requested. *)
Definition expand_wildcard (m : RequestValidator) (req : AccessRequest) : outcome AccessRequest :=
  if bool_decide (ar_Roles req = [Wildcard]) then
    if negb (IsPending (ar_State req)) then fails BadParameter "wildcard requests are not permitted in state %s" else
    if negb (expandVars m) then fails BadParameter "unexpected wildcard request (this is a bug)" else
    requestable ⇐ GetRequestableRoles m;
    if (length requestable =? 0)%nat
    then fails BadParameter "no requestable roles, please verify static RBAC configuration"
    else done (SetRoles requestable req)
  else done req.

(** The caller drops the request when there is an error. *)
Definition Validate (m : RequestValidator) (req : AccessRequest) : outcome AccessRequest :=
  if negb (String.eqb (user_Name (v_user m)) (ar_User req))
  then fails BadParameter "request validator configured for different user (this is a bug)" else
  if requireReason m && String.eqb (RequestReason req) ""
  then fails BadParameter "request reason must be specified (required by static role configuration)" else
  req ⇐ expand_wildcard m req;
  _ ⇐ check_requested (if (0 <? length (RequestedResourceIDs req))%nat then CanSearchAsRole m else CanRequestRole m)
        (ar_Roles req);
  if expandVars m then
    req ⇐ setRolesForResourceRequest m req;
    '(rtm, c) ⇐ collect_roles m (ar_Roles req) ∅ [];
    let req := SetSystemAnnotations (SystemAnnotations m) (SetRoleThresholdMapping rtm (SetThresholds c req)) in
    done (if (length (ar_SuggestedReviewers req) =? 0)%nat
          then SetSuggestedReviewers (Deduplicate (v_SuggestedReviewers m)) req else req)
  else done req.

Definition ValidateAccessRequestForUser `{GoGrow} (req : AccessRequest) (expand : bool) : outcome AccessRequest :=
  match NewRequestValidator (ar_User req) expand with
  | Err e => Some (Err e)
  | Ok v => Validate v req
  end.

(** What a user can be told of their capabilities. *)
Record AccessCapabilities := MkCapabilities { RequestableRoles : list string; SuggestedReviewers : list string }.
Definition CalculateAccessCapabilities `{GoGrow} (user : string) (requestableRoles suggestedReviewers : bool) :
    outcome AccessCapabilities :=
  v ⇐ Some (NewRequestValidator user suggestedReviewers);
  roles ⇐ (if requestableRoles then GetRequestableRoles v else done []);
  done (MkCapabilities roles (if suggestedReviewers then v_SuggestedReviewers v else [])).
End pruning.
