(* ===== verification/RequestChecks.v ===== *)
(** * What the validation of access requests computes

    Thresholds and their indexes, compiled roles, what may be requested, and how
    a validated request and its reviews fit together. *)

From Stdlib Require Import Ascii String.
From S2P Require Import Prelude.
From S2P Require Import GoSlice.
From S2P Require Import Keys.
From S2P Require Import Labels.
From S2P Require Import Parse.
From S2P Require Import Role.
From S2P Require Import Traits.
From S2P Require Import RoleSet.
From S2P Require Import AccessRequest.
From S2P Require Import Reviews.
From S2P Require Import RequestValidator.
Local Open Scope string_scope.

(** ** Identifiers of resources *)

Definition no_slash (s : string) : Prop := ∀ c, c ∈ String.list_ascii_of_string s → c ≠ "/"%char.
Lemma no_slash_cons c s : no_slash (String c s) ↔ c ≠ "/"%char ∧ no_slash s.
Proof. unfold no_slash. cbn. setoid_rewrite elem_of_cons. naive_solver. Qed.

Lemma cut_slash_app a b : no_slash a → cut_slash (a ++ String "/" b) = Some (a, b).
Proof.
  induction a as [|c a IH]; intros Ha; [reflexivity|]. apply no_slash_cons in Ha as [Hc Ha].
  change (String c a ++ String "/" b) with (String c (a ++ String "/" b)). cbn [cut_slash].
  apply Ascii.eqb_neq in Hc. by rewrite Hc, (IH Ha).
Qed.
Lemma cut_slash_Some s a b : cut_slash s = Some (a, b) → s = a ++ String "/" b ∧ no_slash a.
Proof.
  revert a. induction s as [|c s IH]; intros a; cbn [cut_slash]; [done|].
  destruct (Ascii.eqb_spec c "/") as [->|Hc].
  - intros [= <- <-]. split; [done|by intros ? ?%elem_of_nil].
  - destruct (cut_slash s) as [[x y]|]; cbn [mbind option_bind]; [|done]. intros [= <- <-].
    destruct (IH x eq_refl) as [-> Hx]. split; [done|by apply no_slash_cons].
Qed.

(** An identifier whose text can be read back. *)
Definition resource_id_ok (id : ResourceID) : Prop :=
  rid_ClusterName id ≠ "" ∧ rid_Kind id ∈ RequestableResourceKinds ∧ rid_Name id ≠ "".

Lemma ResourceID_check id : ResourceID_CheckAndSetDefaults id = Ok () ↔ resource_id_ok id.
Proof.
  unfold ResourceID_CheckAndSetDefaults, resource_id_ok. rewrite <- SliceContainsStr_true.
  destruct (String.eqb_spec (rid_ClusterName id) ""); [naive_solver|].
  destruct (String.eqb_spec (rid_Kind id) "") as [->|].
  { split; [done|]. intros (_ & Hk & _). discriminate Hk. }
  destruct (SliceContainsStr _ _); cbn [negb]; [|naive_solver].
  destruct (String.eqb_spec (rid_Name id) ""); naive_solver.
Qed.
Lemma kind_no_slash k : k ∈ RequestableResourceKinds → no_slash k.
Proof.
  intros Hk. repeat (apply elem_of_cons in Hk as [->|Hk]; [intros c Hc; repeat (apply elem_of_cons in Hc as [->|Hc]; [done|]); by apply elem_of_nil in Hc|]).
  by apply elem_of_nil in Hk.
Qed.

(** A valid identifier whose cluster name has no slash is what is read from its
    text, and from no other text, whatever its name holds. *)
Theorem ResourceID_roundtrip id raw :
  no_slash (rid_ClusterName id) → resource_id_ok id →
  (ResourceIDFromString raw = Ok id ↔ raw = ResourceIDToString id).
Proof.
  intros Hc Hok. unfold ResourceIDToString.
  change ("/" ++ rid_ClusterName id ++ "/" ++ rid_Kind id ++ "/" ++ rid_Name id)
    with (String "/" (rid_ClusterName id ++ String "/" (rid_Kind id ++ String "/" (rid_Name id)))).
  split.
  - unfold ResourceIDFromString. destruct raw as [|c raw]; [done|].
    destruct (Ascii.eqb_spec c "/") as [->|]; cbn [negb]; [|done].
    destruct (cut_slash raw) as [[cluster rest]|] eqn:E1; [|done].
    destruct (cut_slash rest) as [[kind name]|] eqn:E2; [|done].
    rewrite result_check_Ok. intros [_ [= <-]].
    apply cut_slash_Some in E1 as [-> _]. apply cut_slash_Some in E2 as [-> _]. done.
  - intros ->. unfold ResourceIDFromString. rewrite cut_slash_app by done.
    rewrite cut_slash_app by (apply kind_no_slash, Hok). cbn [Ascii.eqb eqb negb].
    rewrite result_check_Ok. destruct id. split; [by apply ResourceID_check|done].
Qed.

(** ** Thresholds *)

Definition effective (s : list AccessReviewThreshold) : list AccessReviewThreshold :=
  if (length s =? 0)%nat then [default_threshold] else s.
(** An index that stands for a threshold of a list. *)
Definition indexes (c : list AccessReviewThreshold) (tid : Z) (t : AccessReviewThreshold) : Prop :=
  (0 ≤ tid)%Z ∧ c !! Z.to_nat tid = Some t.
Definition collector_ok (c : list AccessReviewThreshold) : Prop := NoDup c ∧ (length c ≤ maxThresholds)%nat.
(** What one call of the collector does: the list grows by some of [ts]. *)
Definition collected (ts c c' : list AccessReviewThreshold) : Prop :=
  collector_ok c' ∧ c `prefix_of` c' ∧ ∀ x, x ∈ c' → x ∈ c ∨ x ∈ ts.

Lemma indexes_prefix c c' tid t : c `prefix_of` c' → indexes c tid t → indexes c' tid t.
Proof. intros Hp [? Ht]. split; [done|]. by eapply prefix_lookup_Some. Qed.
Lemma indexes_Forall2_prefix c c' tids ts : c `prefix_of` c' → Forall2 (indexes c) tids ts → Forall2 (indexes c') tids ts.
Proof. intros Hp Hi. eapply Forall2_impl; [done|]. intros. by eapply indexes_prefix. Qed.

Lemma threshold_index_spec t c : match threshold_index t c with
  | Some i => c !! i = Some t
  | None => t ∉ c
  end.
Proof.
  induction c as [|t' c IH]; cbn [threshold_index]; [by intros ?%elem_of_nil|].
  case_bool_decide as E; [by subst|]. destruct (threshold_index t c); cbn; [done|].
  by apply not_elem_of_cons.
Qed.
Lemma small_index i (c : list AccessReviewThreshold) : (length c ≤ maxThresholds)%nat → (i ≤ length c)%nat → u32 (Z.of_nat i) = Z.of_nat i.
Proof. unfold maxThresholds. intros. apply wrap_u_small. unfold in_u. lia. Qed.

Lemma pushThreshold_spec t c tid c' : collector_ok c → pushThreshold t c = Ok (tid, c') →
  collected [t] c c' ∧ indexes c' tid t.
Proof.
  intros [Hn Hl]. unfold pushThreshold, collected. pose proof (threshold_index_spec t c) as Hi.
  destruct (threshold_index t c) as [i|].
  - intros [= <- <-]. split; [split; [done|]; split; [done|by left]|]. pose proof (lookup_lt_Some _ _ _ Hi).
    rewrite (small_index i c) by lia. split; [lia|]. by rewrite Nat2Z.id.
  - destruct (Nat.leb_spec maxThresholds (length c)) as [|Hlt]; [done|]. intros [= <- <-].
    split; [split; [|split; [by apply prefix_app_r|intros x; rewrite elem_of_app; tauto]]|].
    + split; [|rewrite length_app; cbn; lia]. apply NoDup_app. split; [done|]. split; [|apply NoDup_singleton].
      by intros x Hx ->%list_elem_of_singleton.
    + rewrite (small_index _ c) by lia. split; [lia|]. by rewrite Nat2Z.id, lookup_app_r, Nat.sub_diag by lia.
Qed.
Lemma collected_trans l1 l2 c1 c2 c3 : collected l1 c1 c2 → collected l2 c2 c3 → collected (l1 ++ l2)%list c1 c3.
Proof.
  intros (_ & P1 & S1) (K2 & P2 & S2). split; [done|]. split; [by etrans|]. intros x Hx.
  rewrite elem_of_app. destruct (S2 x Hx) as [?%S1|?]; tauto.
Qed.
Lemma push_all_spec s c ids c' : collector_ok c → push_all s c = Ok (ids, c') →
  collected s c c' ∧ Forall2 (indexes c') ids s.
Proof.
  revert c ids. induction s as [|t s IH]; intros c ids Hc; cbn [push_all].
  { intros [= <- <-]. split; [|constructor]. split; [done|]. split; [done|by left]. }
  destruct (pushThreshold t c) as [[tid c1]|] eqn:E1; [|done]. cbn [mbind result_bind].
  destruct (push_all s c1) as [[ids1 c2]|] eqn:E2; [|done]. cbn [mbind result_bind]. intros [= <- <-].
  destruct (pushThreshold_spec _ _ _ _ Hc E1) as [K1 I1]. destruct (IH c1 ids1 (proj1 K1) E2) as [K2 I2].
  split; [exact (collected_trans [t] s _ _ _ K1 K2)|]. constructor; [|done]. eapply indexes_prefix; [apply K2|done].
Qed.
Lemma push_thresholds_spec s c ids c' : collector_ok c → push_thresholds s c = Ok (ids, c') →
  collected (effective s) c c' ∧ Forall2 (indexes c') ids (effective s).
Proof. apply push_all_spec. Qed.

Section groups.
Context `{GoLibs} `{Regexp}.

Definition matched (m : RequestValidator) (role : string) (g : slice * list AccessReviewThreshold) : bool :=
  match match_any (matchers_of m g.1) role with Some true => true | _ => false end.
(** The thresholds of the groups whose matchers match a role. *)
Definition groups_for (m : RequestValidator) (role : string) : list (list AccessReviewThreshold) :=
  (List.filter (matched m role) (ThresholdMatchers m)).*2.
(** The sets of indexes that stand for groups of thresholds. *)
Definition sets_for (c : list AccessReviewThreshold) (sets : ThresholdSets) (groups : list (list AccessReviewThreshold)) : Prop :=
  Forall2 (fun set ths => Forall2 (indexes c) set (effective ths)) sets groups.

Lemma sets_for_prefix c c' sets groups : c `prefix_of` c' → sets_for c sets groups → sets_for c' sets groups.
Proof. intros Hp Hi. eapply Forall2_impl; [done|]. intros set ths. by apply indexes_Forall2_prefix. Qed.

Lemma collect_sets_spec m groups c role sets c' : collector_ok c →
  collect_sets m groups c role = Some (Ok (sets, c')) →
  let gs := (List.filter (matched m role) groups).*2 in
  collected (gs ≫= effective) c c' ∧ sets_for c' sets gs.
Proof.
  revert c sets. induction groups as [|[s ths] groups IH]; intros c sets Hc; cbn [collect_sets List.filter].
  { intros [= <- <-]. split; [|constructor]. split; [done|]. split; [done|by left]. }
  change (matched m role (s, ths)) with (match match_any (matchers_of m s) role with Some true => true | _ => false end).
  destruct (match_any (matchers_of m s) role) as [[]|]; [| |done].
  - intros E. apply attempt_Ok in E as ([set c1] & [= E1] & E).
    apply attempt_Ok in E as ([sets1 c2] & E2 & [= <- <-]).
    destruct (push_thresholds_spec _ _ _ _ Hc E1) as [K1 I1]. destruct (IH c1 sets1 (proj1 K1) E2) as [K2 I2].
    split; [exact (collected_trans _ _ _ _ _ K1 K2)|]. constructor; [|done].
    eapply indexes_Forall2_prefix; [apply K2|done].
  - by apply IH.
Qed.

Lemma collect_roles_spec m roles rtm c rtm' c' : collector_ok c →
  collect_roles m roles rtm c = Some (Ok (rtm', c')) →
  collected (roles ≫= fun role => groups_for m role ≫= effective) c c' ∧
  (∀ role, role ∈ roles → ∃ sets, rtm' !! role = Some sets ∧ sets ≠ [] ∧ sets_for c' sets (groups_for m role)) ∧
  (∀ role, role ∉ roles → rtm' !! role = rtm !! role).
Proof.
  revert rtm c. induction roles as [|role roles IH]; intros rtm c Hc; cbn [collect_roles].
  { intros [= <- <-]. split; [|split; [by intros ? ?%elem_of_nil|done]]. split; [done|]. split; [done|by left]. }
  intros E. apply attempt_Ok in E as ([sets c1] & E1 & E2). unfold collectSetsForRole in E1.
  apply attempt_Ok in E1 as ([sets1 c1'] & E0 & E1). destruct (_ =? 0)%nat eqn:El; [done|]. injection E1 as -> ->.
  destruct (collect_sets_spec _ _ _ _ _ _ Hc E0) as [K1 I1]. fold (groups_for m role) in K1, I1.
  destruct (IH _ c1 (proj1 K1) E2) as (K2 & I2 & O2). split; [exact (collected_trans _ _ _ _ _ K1 K2)|]. split.
  - intros r Hr. destruct (decide (r ∈ roles)) as [Hin|Hni]; [by apply I2|].
    apply elem_of_cons in Hr as [->|]; [|done]. exists sets. rewrite (O2 _ Hni), lookup_insert_eq. split; [done|].
    split; [by intros ->|]. eapply sets_for_prefix; [apply K2|done].
  - intros r [Hr Hni]%not_elem_of_cons. rewrite (O2 _ Hni). by apply lookup_insert_ne.
Qed.
End groups.

(** ** Validation *)

Section validation.
Context `{ValidatorGetter} `{GoMapOrder} `{GoLibs} `{Regexp} `{MapOrder} `{UnixUsers}.

Lemma check_requested_spec check names : check_requested check names = Some (Ok ()) ↔
  ∀ name, name ∈ names → check name = Some (Ok true).
Proof.
  induction names as [|name names IH]; cbn [check_requested].
  { split; [by intros _ ? ?%elem_of_nil|done]. }
  rewrite attempt_Ok. split.
  - intros ([] & Hc & Hr); [|done]. intros n [->|Hn]%elem_of_cons; [done|]. by apply IH.
  - intros Hall. exists true. split; [apply Hall; left|]. apply IH. intros n Hn. apply Hall. by right.
Qed.
Lemma filter_roles_spec check names l : filter_roles check names = Some (Ok l) →
  ∀ name, name ∈ l ↔ name ∈ names ∧ check name = Some (Ok true).
Proof.
  revert l. induction names as [|n names IH]; intros l; cbn [filter_roles].
  { intros [= <-] name. split; [by intros ?%elem_of_nil|]. by intros [?%elem_of_nil _]. }
  intros E name. apply attempt_Ok in E as (b & Hb & E). apply attempt_Ok in E as (rest & Hr & [= <-]).
  rewrite elem_of_cons. destruct b; [rewrite elem_of_cons|]; rewrite (IH _ Hr name); naive_solver.
Qed.

(** What validation leaves alone. *)
Definition unchanged (req req' : AccessRequest) : Prop :=
  ar_Name req' = ar_Name req ∧ ar_User req' = ar_User req ∧ ar_State req' = ar_State req ∧
  Reviews req' = Reviews req ∧ RequestedResourceIDs req' = RequestedResourceIDs req ∧
  AccessExpiry req' = AccessExpiry req.
(** The roles of a request may be requested, or searched for when resources are. *)
Definition permitted (m : RequestValidator) (req : AccessRequest) (role : string) : Prop :=
  (if (0 <? length (RequestedResourceIDs req))%nat then CanSearchAsRole m role else CanRequestRole m role) = Some (Ok true).

Lemma expand_wildcard_spec m req req' : expand_wildcard m req = Some (Ok req') →
  unchanged req req' ∧ (req' = req ∨ ar_Roles req = [Wildcard] ∧ IsPending (ar_State req) = true ∧ ar_Roles req' ≠ [] ∧
    ∃ roles, GetAllRoles = Ok roles ∧ ∀ name, name ∈ ar_Roles req' ↔
      name ∈ map GetName roles ∧ (name ∉ user_Roles (v_user m)) ∧ CanRequestRole m name = Some (Ok true)).
Proof.
  unfold expand_wildcard. case_bool_decide as Hw; [|intros [= <-]; split; [by split_and!|by left]].
  destruct (IsPending (ar_State req)) eqn:Hp; [|done]. destruct (expandVars m); [|done]. cbn [negb].
  rewrite attempt_Ok. intros (requestable & Hr & E). destruct (length requestable =? 0)%nat eqn:El; [done|].
  injection E as <-. split; [by split_and!|right]. split_and!; [done|done|by intros Hn; cbn in Hn; rewrite Hn in El|].
  unfold GetRequestableRoles in Hr. destruct GetAllRoles as [roles|]; [|done]. exists roles. split; [done|].
  intros name. change (ar_Roles (SetRoles requestable req)) with requestable. rewrite (filter_roles_spec _ _ _ Hr).
  destruct (SliceContainsStr _ name) eqn:Es.
  - apply SliceContainsStr_true in Es. split; [by intros [_ ?]|tauto].
  - assert (name ∉ user_Roles (v_user m)) by (rewrite <- SliceContainsStr_true; congruence). tauto.
Qed.

Lemma Validate_expanded m req req' : expandVars m = true → Validate m req = Some (Ok req') →
  unchanged req req' ∧ user_Name (v_user m) = ar_User req ∧
  (requireReason m = true → RequestReason req ≠ "") ∧
  collect_roles m (ar_Roles req') ∅ [] = Some (Ok (RoleThresholdMapping req', Thresholds req')) ∧
  ar_SystemAnnotations req' = SystemAnnotations m ∧
  ∃ req1, expand_wildcard m req = Some (Ok req1) ∧ Forall (permitted m req1) (ar_Roles req1) ∧
    ((ar_Roles req1 ≠ [] ∨ RequestedResourceIDs req1 = []) ∧ ar_Roles req' = ar_Roles req1 ∨
     ar_Roles req1 = [] ∧ RequestedResourceIDs req1 ≠ [] ∧ ∃ searchable,
       filter_roles (CanSearchAsRole m) (AllowSearch m) = Some (Ok searchable) ∧ searchable ≠ [] ∧
       pruneResourceRequestRoles m (RequestedResourceIDs req1) (LoginHint req1) searchable = Ok (ar_Roles req')).
Proof.
  intros He. unfold Validate. rewrite He.
  destruct (String.eqb_spec (user_Name (v_user m)) (ar_User req)) as [Hu|]; [|done]. cbn [negb].
  destruct (requireReason m && _) eqn:Hr; [done|]. intros E.
  apply attempt_Ok in E as (req1 & E1 & E). apply attempt_Ok in E as ([] & E2 & E).
  apply attempt_Ok in E as (req2 & E3 & E). apply attempt_Ok in E as ([rtm c] & E4 & E).
  pose proof (expand_wildcard_spec _ _ _ E1) as [Hu1 _].
  assert (Forall (permitted m req1) (ar_Roles req1)) as Hperm.
  { apply Forall_forall. intros role Hin. pose proof (proj1 (check_requested_spec _ _) E2 role Hin) as Hc.
    unfold permitted. by destruct (0 <? _)%nat. }
  assert (unchanged req1 req2 ∧
    ((ar_Roles req1 ≠ [] ∨ RequestedResourceIDs req1 = []) ∧ ar_Roles req2 = ar_Roles req1 ∨
     ar_Roles req1 = [] ∧ RequestedResourceIDs req1 ≠ [] ∧ ∃ searchable,
       filter_roles (CanSearchAsRole m) (AllowSearch m) = Some (Ok searchable) ∧ searchable ≠ [] ∧
       pruneResourceRequestRoles m (RequestedResourceIDs req1) (LoginHint req1) searchable = Ok (ar_Roles req2)))
    as [Hu2 Hroles].
  { unfold setRolesForResourceRequest in E3. rewrite He in E3. cbn [negb] in E3.
    destruct (RequestedResourceIDs req1) as [|id ids] eqn:Ei.
    { injection E3 as <-. split; [by split_and!|left]. split; [by right|done]. }
    cbn [length Nat.eqb] in E3. destruct (ar_Roles req1) as [|r rs] eqn:Er.
    2:{ injection E3 as <-. split; [by split_and!|left]. split; [by left|done]. }
    cbn [length Nat.ltb Nat.leb] in E3. apply attempt_Ok in E3 as (searchable & Hs & E3).
    destruct (length searchable =? 0)%nat eqn:El; [done|]. apply attempt_Ok in E3 as (roles & [= Hp] & [= <-]).
    split; [by split_and!|right]. split; [done|]. split; [done|]. exists searchable. split; [done|].
    split; [by intros ->|done]. }
  assert (unchanged req2 req' ∧ ar_Roles req' = ar_Roles req2 ∧ Thresholds req' = c ∧ RoleThresholdMapping req' = rtm ∧
    ar_SystemAnnotations req' = SystemAnnotations m) as (Hu3 & -> & -> & -> & ->)
    by (case_test; injection E as <-; by split_and!).
  split. { unfold unchanged in *. destruct_and!. split_and!; congruence. }
  split; [done|]. split. { intros Hq Hz. rewrite Hq, Hz in Hr. discriminate Hr. }
  split; [done|]. split; [done|]. by exists req1.
Qed.
End validation.

(** ** From validation to approval *)

(** The reviews that approve and count for a threshold. *)
Definition approvals (tid : Z) (revs : list AccessReview) : list AccessReview :=
  filter (fun rev => ProposedState rev = APPROVED ∧ tid ∈ ThresholdIndexes rev) revs.

Lemma votes_approvals ths tid revs : Forall (review_ok ths) revs →
  votes APPROVED tid revs = Z.of_nat (length (approvals tid revs)).
Proof.
  induction 1 as [|rev revs (_ & _ & Hn) _ IH]; [done|].
  change (rev :: revs) with ([rev] ++ revs)%list. rewrite votes_app, votes_single, IH.
  unfold approvals. rewrite filter_app, length_app. cbn [filter list_filter].
  assert (count_occ Z.eq_dec (ThresholdIndexes rev) tid = if decide (tid ∈ ThresholdIndexes rev) then 1 else 0)%nat as ->.
  { destruct (decide _) as [Hin|Hin].
    - apply (NoDup_count_occ' Z.eq_dec); [by apply NoDup_ListNoDup|by apply list_elem_of_In].
    - apply count_occ_not_In. by rewrite <- list_elem_of_In. }
  repeat case_decide; cbn; try lia; tauto.
Qed.

Section lifecycle.
Context `{ValidatorGetter} `{GoMapOrderLaws} `{GoLibs} `{Regexp} `{MapOrder} `{UnixUsers} `{RequestLibs}.

(** The thresholds of roles are unsigned. *)
Definition unsigned (m : RequestValidator) : Prop :=
  ∀ g t, g ∈ ThresholdMatchers m → t ∈ g.2 → (0 ≤ th_Approve t)%Z ∧ (0 ≤ th_Deny t)%Z.

Lemma effective_unsigned m role t : unsigned m → t ∈ groups_for m role ≫= effective →
  (0 ≤ th_Approve t)%Z ∧ (0 ≤ th_Deny t)%Z.
Proof.
  intros Hu (g & Ht & Hg)%list_elem_of_bind. unfold effective in Ht. destruct (length g =? 0)%nat.
  - apply list_elem_of_singleton in Ht as ->. done.
  - apply list_elem_of_fmap in Hg as (gr & -> & Hg). apply list_elem_of_In, filter_In in Hg as [Hg%list_elem_of_In _]. by eapply Hu.
Qed.

(** A validated request can be reviewed: what the resolution of reviews relies on. *)
Lemma validated_reviewable m req req' : expandVars m = true → unsigned m →
  Validate m req = Some (Ok req') → ar_Roles req' ≠ [] →
  thresholds_ok (Thresholds req') ∧ rtm_ok (Thresholds req') (RoleThresholdMapping req') ∧
  ¬ approved_at (Thresholds req') (RoleThresholdMapping req') [].
Proof.
  intros He Hu Hv Hne. apply (Validate_expanded _ _ _ He) in Hv as (_ & _ & _ & Hc & _).
  assert (collector_ok []) as Hc0 by (split; [constructor|cbn; unfold maxThresholds; lia]).
  destruct (collect_roles_spec _ _ _ _ _ _ Hc0 Hc) as ((_ & _ & Hsub) & Hin & Hout).
  assert (thresholds_ok (Thresholds req')) as Hths.
  { apply Forall_forall. intros t Ht. destruct (Hsub t Ht) as [?%elem_of_nil|Hx]; [done|].
    apply list_elem_of_bind in Hx as (role & Hx & _). by eapply effective_unsigned. }
  assert (∀ tids ts, Forall2 (indexes (Thresholds req')) tids ts → Forall (in_range (Thresholds req')) tids) as Hir.
  { intros tids ts. induction 1 as [|tid t tids ts [Hp Ht] _ IH]; constructor; [|done].
    apply lookup_lt_Some in Ht. unfold in_range. lia. }
  split; [done|]. split.
  - intros role sets Hr. destruct (decide (role ∈ ar_Roles req')) as [Hi|Hi].
    + destruct (Hin _ Hi) as (sets' & Hr' & _ & Hs). simplify_eq. clear -Hs Hir.
      induction Hs; constructor; [by eapply Hir|done].
    + by rewrite (Hout _ Hi), lookup_empty in Hr.
  - intros Ha. destruct (ar_Roles req') as [|role roles]; [done|]. destruct (Hin role) as (sets & Hr & Hs0 & _); [left|].
    destruct sets as [|set sets]; [done|]. destruct (Ha _ _ Hr set) as (tid & _ & t & Ht & Hz & Hv); [left|].
    rewrite votes_nil in Hv. pose proof (Forall_lookup_1 _ _ _ _ Hths Ht). cbn in *. lia.
Qed.

(** C22: A request that was validated with the roles of its user, and that reviews
    submitted one after another approved, has for each of its roles and for each
    group of thresholds that the user's roles attach to it a threshold of the group
    (the default one if it is empty) with as many approvals by distinct reviewers
    as it asks, at least one. *)
Theorem approved_request_reviewed m req req' subs req'' role g :
  expandVars m = true → unsigned m → Validate m req = Some (Ok req') → ar_Roles req' ≠ [] →
  ar_State req = PENDING → Reviews req = [] → submit subs req' = Ok req'' → few (Reviews req'') →
  ar_State req'' = APPROVED → role ∈ ar_Roles req' → g ∈ groups_for m role →
  ∃ t revs, t ∈ effective g ∧ (0 < th_Approve t ≤ Z.of_nat (length revs))%Z ∧
    revs `sublist_of` Reviews req'' ∧ NoDup (map rv_Author revs) ∧ ∀ rev, rev ∈ revs → ProposedState rev = APPROVED.
Proof.
  intros He Hu Hv Hne Hp Hr Hs Hf Ha Hrole Hg.
  destruct (validated_reviewable _ _ _ He Hu Hv Hne) as (Hths & Hrtm & Hna).
  destruct (Validate_expanded _ _ _ He Hv) as ((_ & _ & Hst & Hrv & _) & _ & _ & Hc & _).
  destruct (submit_tallied _ _ _ Hths Hrtm Hna (fresh_tallied _ Hths Hna ltac:(congruence) ltac:(congruence)) Hf Hs)
    as [[= _ _ _ Et Em _] (Hnd & Hok & [[? _]|(pre & rev & post & Er & _ & _ & _ & _ & Hap & _)])]; [congruence|].
  rewrite Et, Em in Hap. rewrite Er in *. apply Hap in Ha. clear Hap.
  assert (collector_ok []) as Hc0 by (split; [constructor|cbn; unfold maxThresholds; lia]).
  destruct (collect_roles_spec _ _ _ _ _ _ Hc0 Hc) as (_ & Hin & _).
  destruct (Hin _ Hrole) as (sets & Hl & _ & Hsets). apply list_elem_of_lookup in Hg as (i & Hg).
  destruct (Forall2_lookup_r _ _ _ _ _ Hsets Hg) as (set & Hset & Hidx).
  destruct (Ha _ _ Hl set) as (tid & Htid & t & Ht & Hz & Hv'); [by apply list_elem_of_lookup; eexists|].
  apply list_elem_of_lookup in Htid as (j & Hj).
  destruct (Forall2_lookup_l _ _ _ _ _ Hidx Hj) as (t' & Hj' & _ & Ht'). assert (t' = t) as -> by congruence.
  rewrite (cons_middle rev pre post), app_assoc in Hok, Hnd |- *. apply Forall_app in Hok as [Hok _].
  exists t, (approvals tid (pre ++ [rev])). rewrite (votes_approvals _ _ _ Hok) in Hv'.
  assert (0 ≤ th_Approve t)%Z by apply (Forall_lookup_1 _ _ _ _ Hths Ht').
  assert (approvals tid (pre ++ [rev]) `sublist_of` ((pre ++ [rev]) ++ post)%list) as Hsub.
  { etrans; [apply sublist_filter|]. by apply sublist_inserts_r. }
  split_and!; [by apply list_elem_of_lookup; eexists|lia|lia|done| |].
  - eapply sublist_NoDup; [exact Hnd|]. by apply fmap_sublist.
  - intros rv [[? _] _]%list_elem_of_filter. done.
Qed.
End lifecycle.

(** ** Compiled roles *)

Section compiled.
Context `{GoLibs} `{Regexp} `{GoGrowLaws}.

(** The matchers of one role. *)
Definition compiled (c : RoleConditionType) (traits : UserTraits) (role : Role) : result (list Matcher) :=
  let k := GetAccessRequestConditions c role in appendRoleMatchers [] (req_Roles k) (req_ClaimsToRoles k) traits.

Lemma appendRoleMatchers_app l roles cms traits l' : appendRoleMatchers l roles cms traits = Ok l' ↔
  ∃ ms, appendRoleMatchers [] roles cms traits = Ok ms ∧ l' = (l ++ ms)%list.
Proof.
  unfold appendRoleMatchers. destruct (NewMatchers roles); cbn [mbind result_bind]; [|naive_solver].
  destruct (TraitsToRoleMatchers _ _); cbn [mbind result_bind app]; naive_solver.
Qed.
Lemma appendMatchers_spec s roles cms traits h s' h' : slice_ok h s →
  appendMatchers s roles cms traits h = Ok (s', h') →
  ∃ ms, appendRoleMatchers [] roles cms traits = Ok ms ∧ appended s h ms s' h'.
Proof.
  intros Hs. unfold appendMatchers, appendRoleMatchers. destruct (NewMatchers roles) as [ms|]; [|done].
  cbn [mbind result_bind]. pose proof (append_each_appended s ms h Hs) as H1'.
  destruct (append_each s ms h) as [s1 h1]. cbn [fst snd] in H1'.
  destruct (TraitsToRoleMatchers _ _) as [mapped|]; [|done]. cbn [mbind result_bind app].
  intros [= E]. exists (ms ++ mapped)%list. split; [done|]. eapply appended_trans; [exact H1'|].
  pose proof (append_appended s1 mapped h1 (proj1 H1')) as H2'. by rewrite E in H2'.
Qed.

(** What a group is of: the matchers of its role, how many roles to search as
    follow them, and the thresholds. Where the literal matchers of the latter are
    kept is shared with what is appended later: only the former are known. *)
Record group := MkGroup { own : list Matcher; searched : nat; asked : list AccessReviewThreshold }.
Definition own_slice (s : slice) (n : nat) : slice := MkSlice (sl_array s) (sl_off s) n (sl_cap s).
Definition group_ok (m : RequestValidator) (g : slice * list AccessReviewThreshold) (o : group) : Prop :=
  let s := own_slice g.1 (length (own o)) in
  g.2 = asked o ∧ slice_ok (matcher_arrays m) s ∧ before (AllowRequest m) s ∧ matchers_of m s = own o ∧
  sl_len g.1 = (length (own o) + searched o)%nat.

(** What is known of a validator after the roles [roles] with these matchers. *)
Definition compiled_ok (m : RequestValidator) (roles : list Role) (allows denies : list (list Matcher)) : Prop :=
  let traits := user_Traits (v_user m) in
  Forall2 (fun r a => compiled Allow traits r = Ok a) roles allows ∧
  Forall2 (fun r d => compiled Deny traits r = Ok d) roles denies ∧
  slice_ok (matcher_arrays m) (AllowRequest m) ∧
  matchers_of m (AllowRequest m) = mjoin allows ∧ DenyRequest m = mjoin denies ∧
  requireReason m = existsb (fun r => RequireReason (RequestAccess (GetOptions r))) roles ∧
  (∀ s, s ∈ AllowSearch m ↔ ∃ r, r ∈ roles ∧ s ∈ req_SearchAsRoles (GetAccessRequestConditions Allow r)) ∧
  (∀ s, s ∈ DenySearch m ↔ ∃ r, r ∈ roles ∧ s ∈ req_SearchAsRoles (GetAccessRequestConditions Deny r)).

(** The groups of roles: those with matchers or with roles to search as. *)
Definition groups_of (roles : list Role) (allows : list (list Matcher)) : list group :=
  zip roles allows ≫= fun '(r, ms) =>
    let k := GetAccessRequestConditions Allow r in
    if (0 <? length ms + length (req_SearchAsRoles k))%nat
    then [MkGroup ms (length (req_SearchAsRoles k)) (req_Thresholds k)] else [].

Lemma elem_of_snoc {A} (x y : A) l : x ∈ (l ++ [y])%list ↔ x ∈ l ∨ x = y.
Proof. rewrite elem_of_app, list_elem_of_singleton. done. Qed.
Lemma search_snoc c l roles role s :
  (∀ s, s ∈ l ↔ ∃ r, r ∈ roles ∧ s ∈ req_SearchAsRoles (GetAccessRequestConditions c r)) →
  s ∈ Deduplicate (l ++ req_SearchAsRoles (GetAccessRequestConditions c role)) ↔
  ∃ r, r ∈ (roles ++ [role])%list ∧ s ∈ req_SearchAsRoles (GetAccessRequestConditions c r).
Proof. intros Hl. rewrite Deduplicate_elem, elem_of_app, Hl. setoid_rewrite elem_of_snoc. naive_solver. Qed.
Lemma groups_of_snoc roles allows r ms : length roles = length allows →
  groups_of (roles ++ [r]) (allows ++ [ms]) = (groups_of roles allows ++ groups_of [r] [ms])%list.
Proof. intros Hl. unfold groups_of. by rewrite zip_with_app, bind_app. Qed.
Lemma mjoin_snoc {A} (l : list (list A)) x : mjoin (l ++ [x])%list = (mjoin l ++ x)%list.
Proof.
  induction l as [|y l IH]; [cbn; by rewrite app_nil_r|].
  change (mjoin ((y :: l) ++ [x])%list) with (y ++ mjoin (l ++ [x]))%list. by rewrite IH, app_assoc.
Qed.

(** A group stays what it is while others append to the matchers of all roles. *)
Lemma group_ok_appended m m' g o xs : appended (AllowRequest m) (matcher_arrays m) xs (AllowRequest m') (matcher_arrays m') →
  group_ok m g o → group_ok m' g o.
Proof.
  intros (_ & _ & Hf) (E2 & Hs & Hb & He & Hl). destruct (Hf _ Hs Hb) as (Hs' & He' & Hb').
  unfold group_ok, matchers_of in *. split; [done|]. split; [done|]. split; [done|]. split; [by rewrite He'|done].
Qed.

Lemma compiled_ok_snoc m m' role a d roles allows denies :
  compiled_ok m roles allows denies →
  compiled Allow (user_Traits (v_user m)) role = Ok a → compiled Deny (user_Traits (v_user m)) role = Ok d →
  v_user m' = v_user m → slice_ok (matcher_arrays m') (AllowRequest m') →
  matchers_of m' (AllowRequest m') = (matchers_of m (AllowRequest m) ++ a)%list →
  DenyRequest m' = (DenyRequest m ++ d)%list →
  requireReason m' = requireReason m || RequireReason (RequestAccess (GetOptions role)) →
  AllowSearch m' = Deduplicate (AllowSearch m ++ req_SearchAsRoles (GetAccessRequestConditions Allow role)) →
  DenySearch m' = Deduplicate (DenySearch m ++ req_SearchAsRoles (GetAccessRequestConditions Deny role)) →
  compiled_ok m' (roles ++ [role]) (allows ++ [a]) (denies ++ [d]).
Proof.
  intros (HA & HD & _ & Ha & Hd & Hq & Hsa & Hsd) Ea Ed Eu Hok Ea' Ed' Eq Esa Esd. unfold compiled_ok. rewrite Eu.
  split; [apply Forall2_app; [done|by constructor]|]. split; [apply Forall2_app; [done|by constructor]|].
  split; [done|]. split; [by rewrite Ea', Ha, mjoin_snoc|]. split; [by rewrite Ed', Hd, mjoin_snoc|].
  split; [by rewrite Eq, Hq, existsb_app; cbn; rewrite orb_false_r|].
  split; intros x; [rewrite Esa|rewrite Esd]; by apply search_snoc.
Qed.

(** The slice of the new group, and the literals appended to it. *)
Lemma new_group s (h : list (list Matcher)) a lits n nm h' : slice_ok h s → (n ≤ sl_len s)%nat → skipn n (elems h s) = a →
  append_each (slice_from s n) lits h = (nm, h') →
  slice_ok h' s ∧ elems h' s = elems h s ∧ slice_ok h' (own_slice nm (length a)) ∧
  elems h' (own_slice nm (length a)) = a ∧ before s (own_slice nm (length a)) ∧
  sl_len nm = (length a + length lits)%nat ∧
  ∀ t, slice_ok h t → before s t → slice_ok h' t ∧ elems h' t = elems h t.
Proof.
  intros Hs Hn Ha E. destruct (slice_from_ok h s n Hs Hn) as [Ht Het]. rewrite Ha in Het.
  pose proof (append_each_appended (slice_from s n) lits h Ht) as Hap. rewrite E in Hap.
  pose proof (append_each_where (slice_from s n) lits h) as Hw. rewrite E in Hw. cbn [fst snd] in Hap.
  destruct Hap as (Hnm & Henm & Hf). rewrite Het in Henm.
  assert (∀ t, before s t → before (slice_from s n) t) as Hbt.
  { intros t Hb. unfold before, slice_from in *. cbn. intros Et. specialize (Hb Et). lia. }
  destruct (Hf s Hs (Hbt s ltac:(by intros _))) as (Hs' & Hes' & _).
  pose proof (elems_length _ _ Hnm) as Hlen. rewrite Henm, length_app in Hlen.
  destruct (cut_ok h' nm (length a) Hnm) as [Hc Hec]; [lia|].
  split; [done|]. split; [done|]. split; [done|]. split; [|split; [|split; [done|]]].
  - unfold own_slice. by rewrite Hec, Henm, take_app_length.
  - pose proof (elems_length _ _ Hs) as Hsl. apply (f_equal length) in Ha. rewrite length_drop in Ha.
    unfold before, own_slice, slice_from in *. cbn in *. intros Et.
    destruct Hs as (Hlc & _ & Hs0). lia.
  - intros t Hokt Hb. destruct (Hf t Hokt (Hbt t Hb)) as (? & ? & _). done.
Qed.

Lemma push_spec role m m' roles allows denies : push role m = Ok m' → compiled_ok m roles allows denies →
  (if expandVars m then Forall2 (group_ok m) (ThresholdMatchers m) (groups_of roles allows) else ThresholdMatchers m = []) →
  v_user m' = v_user m ∧ expandVars m' = expandVars m ∧ ∃ a d,
  compiled_ok m' (roles ++ [role]) (allows ++ [a]) (denies ++ [d]) ∧
  (if expandVars m' then Forall2 (group_ok m') (ThresholdMatchers m') (groups_of (roles ++ [role]) (allows ++ [a]))
   else ThresholdMatchers m' = []).
Proof.
  intros E Hm Hg. unfold push in E. pose proof Hm as (HA & _ & Hok & _).
  destruct (appendRoleMatchers (DenyRequest m) _ _ _) as [dl|] eqn:Ed; [|done]. cbn [mbind result_bind] in E.
  apply appendRoleMatchers_app in Ed as (d & Ed & ->).
  destruct (appendMatchers _ _ _ _ _) as [[s h]|] eqn:Ea; [|done]. cbn [mbind result_bind] in E.
  destruct (appendMatchers_spec _ _ _ _ _ _ _ Hok Ea) as (a & Ema & Hap).
  assert (length roles = length allows) as Hlen by (by eapply Forall2_length).
  assert (elems h s = (matchers_of m (AllowRequest m) ++ a)%list) as Hel by apply Hap.
  destruct (expandVars m).
  2:{ injection E as <-. split; [done|]. split; [done|]. exists a, d. split; [|done].
      by eapply compiled_ok_snoc; [exact Hm|exact Ema|exact Ed|done|exact (proj1 Hap)|exact Hel|..]. }
  destruct (append_each _ _ h) as [nm h2] eqn:En. injection E as <-. split; [done|]. split; [done|]. exists a, d.
  pose proof (elems_length _ _ Hok) as Hl0. fold (matchers_of m (AllowRequest m)) in Hl0.
  pose proof (elems_length _ _ (proj1 Hap)) as Hl1. rewrite Hel, length_app in Hl1.
  edestruct (fun lits => new_group s h a lits (sl_len (AllowRequest m)) nm h2 (proj1 Hap)) as (Hs & Hes & Hok1 & He1 & Hb1 & Hl & Hf);
    [lia| |exact En|].
  { rewrite Hel, <- Hl0. apply drop_app_length. }
  split; [eapply compiled_ok_snoc; [exact Hm|exact Ema|exact Ed|done|exact Hs|by etrans; [exact Hes|exact Hel]|done..]|].
  cbn [expandVars ThresholdMatchers]. rewrite groups_of_snoc by done.
  set (m' := MkValidator _ _ _ _ _ _ _ _ _ _ _ _).
  assert (Forall2 (group_ok m') (ThresholdMatchers m) (groups_of roles allows)) as Hold.
  { eapply Forall2_impl; [exact Hg|]. intros g o (E2 & Ho & Hb & He & Hlg).
    destruct (proj2 (proj2 Hap) _ Ho Hb) as (Ho' & He' & Hb'). destruct (Hf _ Ho' Hb') as (Ho'' & He'').
    split; [done|]. split; [done|]. split; [done|]. split; [|done].
    etrans; [exact He''|]. etrans; [exact He'|exact He]. }
  unfold groups_of. cbn [zip zip_with mbind list_bind]. rewrite length_map in Hl. rewrite app_nil_r, <- Hl.
  destruct (0 <? sl_len nm)%nat; [|by rewrite app_nil_r]. apply Forall2_app; [done|]. constructor; [|done].
  by unfold group_ok, matchers_of; split_and!.
Qed.

Lemma push_roles_spec get names m m' roles allows denies :
  validator_push_roles get names m = Ok m' → compiled_ok m roles allows denies →
  (if expandVars m then Forall2 (group_ok m) (ThresholdMatchers m) (groups_of roles allows) else ThresholdMatchers m = []) →
  v_user m' = v_user m ∧ expandVars m' = expandVars m ∧ ∃ rs allows' denies',
  Forall2 (fun n r => get n = Ok r) names rs ∧ compiled_ok m' (roles ++ rs) allows' denies' ∧
  (if expandVars m' then Forall2 (group_ok m') (ThresholdMatchers m') (groups_of (roles ++ rs) allows')
   else ThresholdMatchers m' = []).
Proof.
  revert m roles allows denies. induction names as [|n names IH]; intros m roles allows denies; cbn [validator_push_roles].
  { intros [= <-] Hc Hg. split; [done|]. split; [done|]. exists [], allows, denies. by rewrite app_nil_r. }
  destruct (get n) as [role|] eqn:Er; [|done]. cbn [mbind result_bind].
  destruct (push role m) as [m1|] eqn:Ep; [|done]. cbn [mbind result_bind]. intros E Hc Hg.
  destruct (push_spec _ _ _ _ _ _ Ep Hc Hg) as (Eu & Ee & a & d & Hc1 & Hg1).
  destruct (IH _ _ _ _ E Hc1 Hg1) as (Eu' & Ee' & rs & allows' & denies' & Hrs & Hc' & Hg').
  split; [congruence|]. split; [congruence|]. exists (role :: rs), allows', denies'. split; [by constructor|].
  by rewrite <- app_assoc in Hc', Hg'.
Qed.

(** C36: A validator holds, in order, the matchers of the roles of its user, and the
    roles they search as; it asks for a reason when one of them does. A role can be
    requested when it matches none of those denied and one of those allowed. With
    variables expanded, each role with matchers, or with roles to search as, has a
    group with its thresholds, of its own matchers first; groups are exactly those
    matchers when no role searches as others. *)
Theorem NewRequestValidator_correct `{ValidatorGetter} username expand m :
  NewRequestValidator username expand = Ok m →
  ∃ user roles allows denies,
    GetUser username = Ok user ∧ v_user m = user ∧ expandVars m = expand ∧
    Forall2 (fun n r => GetRole n = Ok r) (user_Roles user) roles ∧ compiled_ok m roles allows denies ∧
    (∀ name, CanRequestRole m name = Some (Ok true) ↔
      match_any (mjoin denies) name = Some false ∧ match_any (mjoin allows) name = Some true) ∧
    (expand = true → Forall2 (group_ok m) (ThresholdMatchers m) (groups_of roles allows) ∧
      ((∀ r, r ∈ roles → req_SearchAsRoles (GetAccessRequestConditions Allow r) = []) →
       map (fun g => (matchers_of m g.1, g.2)) (ThresholdMatchers m) =
       map (fun o => (own o, asked o)) (groups_of roles allows))).
Proof.
  unfold NewRequestValidator. rewrite result_bind_Ok. intros (user & Hu & E).
  edestruct (push_roles_spec _ _ _ _ [] [] [] E) as (Eu & Ee & rs & allows & denies & Hrs & Hc & Hg).
  { split_and!; try (by constructor); try apply nil_slice_ok; try done; intros s;
      (split; [by intros ?%elem_of_nil|by intros (? & ?%elem_of_nil & _)]). }
  { cbn. by destruct expand. }
  exists user, rs, allows, denies. rewrite Ee in Hg. cbn [v_user expandVars empty_validator app] in *. split_and!; [done|done|done|done|done| |].
  - intros name. destruct Hc as (_ & _ & _ & Ha & Hd & _). unfold CanRequestRole. rewrite Ha, Hd.
    destruct (match_any (mjoin denies) name) as [[]|]; [naive_solver| |naive_solver].
    destruct (match_any (mjoin allows) name) as [[]|]; cbn; naive_solver.
  - intros ->. split; [done|]. intros Hno. clear -Hg Hno.
    assert (∀ o, o ∈ groups_of rs allows → searched o = 0%nat) as Hz.
    { intros o Ho. apply list_elem_of_bind in Ho as ([r ms] & Ho & Hin).
      apply list_elem_of_lookup in Hin as (i & Hi). apply lookup_zip_Some in Hi as [Hr _].
      assert (r ∈ rs) as Hin by (apply list_elem_of_lookup; by eexists).
      cbn beta iota zeta in Ho. destruct (0 <? _)%nat; [|by apply elem_of_nil in Ho].
      apply list_elem_of_singleton in Ho as ->. cbn. by rewrite (Hno r Hin). }
    revert Hz. induction Hg as [|g o gs os (E2 & _ & _ & He & Hl) _ IH]; intros Hz; [done|]. cbn. f_equal.
    + rewrite Hz, Nat.add_0_r in Hl by left. f_equal; [|done]. rewrite <- He, <- Hl. by destruct g as [[] ?].
    + apply IH. intros o' ?. apply Hz. by right.
Qed.

(** ** Shared arrays *)

(** What a push does to the slices: its parts, when variables are expanded. *)
Lemma push_expanded role m m' : expandVars m = true → push role m = Ok m' →
  let allow := GetAccessRequestConditions Allow role in
  let lits := map literalMatcher (req_SearchAsRoles allow) in
  ∃ ms mapped s1 h1 nm,
    NewMatchers (req_Roles allow) = Ok ms ∧ append_each (AllowRequest m) ms (matcher_arrays m) = (s1, h1) ∧
    let '(s, h) := append s1 mapped h1 in
    append_each (slice_from s (sl_len (AllowRequest m))) lits h = (nm, matcher_arrays m') ∧
    AllowRequest m' = s ∧ expandVars m' = true ∧
    ThresholdMatchers m' = (ThresholdMatchers m ++ if (0 <? sl_len nm)%nat then [(nm, req_Thresholds allow)] else [])%list.
Proof.
  intros He E. cbn zeta. unfold push in E. rewrite He in E.
  destruct (appendRoleMatchers (DenyRequest m) _ _ _) as [dl|]; [|done]. cbn [mbind result_bind] in E.
  destruct (appendMatchers _ _ _ _ _) as [[s h]|] eqn:Ea; [|done]. cbn [mbind result_bind] in E.
  destruct (append_each _ _ h) as [nm h2] eqn:En. injection E as <-. unfold appendMatchers in Ea.
  destruct (NewMatchers _) as [ms|] eqn:Em; [|done]. cbn [mbind result_bind] in Ea.
  destruct (append_each (AllowRequest m) ms (matcher_arrays m)) as [s1 h1] eqn:E1.
  destruct (TraitsToRoleMatchers _ _) as [mapped|]; [|done]. cbn [mbind result_bind] in Ea. injection Ea as Ea.
  exists ms, mapped, s1, h1, nm. rewrite Ea. split; [done|]. split; [exact E1|]. split; [exact En|]. split; [done|].
  split; [done|]. cbn [ThresholdMatchers]. destruct (0 <? sl_len nm)%nat; [done|by rewrite app_nil_r].
Qed.

(** The cell behind the matchers of all roles holds the next role's first matcher. *)
Lemma push_writes_behind role m m' x xs n : slice_ok (matcher_arrays m) (AllowRequest m) → expandVars m = true →
  push role m = Ok m' → NewMatchers (req_Roles (GetAccessRequestConditions Allow role)) = Ok (x :: xs) →
  (sl_len (AllowRequest m) < sl_cap (AllowRequest m))%nat → (n ≤ sl_len (AllowRequest m))%nat →
  ∀ cell, sl_array cell = sl_array (AllowRequest m) → sl_off cell = (sl_off (AllowRequest m) + n)%nat →
  (sl_len (AllowRequest m) - n < sl_len cell)%nat → matchers_of m' cell !! (sl_len (AllowRequest m) - n)%nat = Some x.
Proof.
  intros Hok He E Hx Hcap Hn cell Ha Ho Hl. destruct (push_expanded _ _ _ He E) as (ms & mapped & s1 & h1 & nm & Em & E1 & E2).
  rewrite Hx in Em. injection Em as <-. set (s := AllowRequest m) in *. set (h := matcher_arrays m) in *.
  cbn [append_each] in E1. pose proof (append_appended s [x] h Hok) as Hap.
  destruct (append s [x] h) as [t1 g1] eqn:Et. cbn [fst snd] in Hap.
  assert (t1 = MkSlice (sl_array s) (sl_off s) (sl_len s + 1) (sl_cap s)) as Ht1.
  { unfold append in Et. cbn [length] in Et. rewrite (proj2 (Nat.leb_le _ _)) in Et by lia. by injection Et as <- _. }
  destruct (slice_from_ok g1 t1 n (proj1 Hap)) as [Htok Htel]; [rewrite Ht1; cbn; lia|].
  set (t := slice_from t1 n) in *.
  pose proof (append_each_appended t1 xs g1 (proj1 Hap)) as Hr1. rewrite E1 in Hr1. cbn [fst snd] in Hr1.
  pose proof (append_appended s1 mapped h1 (proj1 Hr1)) as Hr2.
  destruct (append s1 mapped h1) as [s2 h2]. cbn [fst snd] in Hr2. destruct E2 as (E2 & _).
  pose proof (appended_trans _ _ _ _ _ _ _ _ Hr1 Hr2) as Hr.
  pose proof (elems_length _ _ Hok) as Hl0. pose proof (elems_length _ _ (proj1 Hr)) as Hl2.
  destruct Hap as (Hap1 & Hap2 & _). destruct Hr as (Hr3 & Hr4 & Hr5). rewrite Hr4, Hap2, !length_app in Hl2.
  edestruct (fun lits => new_group s2 h2 (skipn (sl_len s) (elems h2 s2)) lits (sl_len s) nm (matcher_arrays m') Hr3) as (_ & _ & _ & _ & _ & _ & Hf);
    [lia|done|exact E2|].
  destruct (Hr5 t Htok) as (Htok' & Htel' & Htb).
  { unfold before, t, slice_from. cbn. rewrite Ht1. cbn. lia. }
  destruct (Hf t Htok' Htb) as (_ & Htel''). unfold matchers_of. rewrite elems_lookup by done.
  assert (array (matcher_arrays m') cell = array (matcher_arrays m') t) as ->
    by (unfold array, t, slice_from; rewrite Ht1; cbn; by rewrite Ha).
  replace (sl_off cell) with (sl_off t) by (unfold t, slice_from; rewrite Ht1; cbn; lia).
  rewrite <- elems_lookup by (unfold t, slice_from; rewrite Ht1; cbn; lia).
  rewrite Htel'', Htel', Htel, Hap2, lookup_drop. replace (n + (sl_len s - n))%nat with (length (elems h s)) by lia.
  by rewrite lookup_app_r, Nat.sub_diag.
Qed.

(** When the array of the matchers of all roles has room for the roles that a
    role searches as, these are written behind its end, and the matchers of the
    next role overwrite them: the group of the first role then has the other
    role's first pattern in place of its first role to search as. *)
Theorem push_overwrites_search r1 r2 m m1 m2 s ss x xs :
  slice_ok (matcher_arrays m) (AllowRequest m) → expandVars m = true →
  push r1 m = Ok m1 → push r2 m1 = Ok m2 →
  req_SearchAsRoles (GetAccessRequestConditions Allow r1) = s :: ss →
  (sl_len (AllowRequest m1) + length (s :: ss) ≤ sl_cap (AllowRequest m1))%nat →
  NewMatchers (req_Roles (GetAccessRequestConditions Allow r2)) = Ok (x :: xs) →
  ∃ g n, ThresholdMatchers m1 = (ThresholdMatchers m ++ [g])%list ∧ g ∈ ThresholdMatchers m2 ∧
    matchers_of m1 g.1 !! n = Some (literalMatcher s) ∧ matchers_of m2 g.1 !! n = Some x.
Proof.
  intros Hok He E1 E2 Hs Hcap Hx.
  destruct (push_expanded _ _ _ He E1) as (ms & mapped & s0 & h0 & nm & _ & Ea & E).
  pose proof (append_each_appended _ ms _ Hok) as Ha1. rewrite Ea in Ha1. cbn [fst snd] in Ha1.
  pose proof (append_appended s0 mapped h0 (proj1 Ha1)) as Ha2.
  destruct (append s0 mapped h0) as [s1 h1]. cbn [fst snd] in Ha2. destruct E as (En & Es1 & He1 & Eg).
  pose proof (appended_trans _ _ _ _ _ _ _ _ Ha1 Ha2) as (Hok1 & Hel1 & _). rewrite Es1, Hs in *.
  pose proof (elems_length _ _ Hok) as Hl0. pose proof (elems_length _ _ Hok1) as Hl1.
  set (L := sl_len (AllowRequest m)) in *. set (lits := map literalMatcher (s :: ss)) in *.
  assert (L ≤ sl_len s1)%nat as HL by (rewrite <- Hl1, Hel1, length_app; lia).
  assert (length lits = length (s :: ss)) as Hlits by apply length_map.
  destruct (slice_from_ok h1 s1 L Hok1 HL) as [Hf Hfe].
  pose proof (append_each_appended (slice_from s1 L) lits h1 Hf) as (Hnm & Hen & Hfr).
  pose proof (append_each_in_place (slice_from s1 L) lits h1) as Hp. rewrite En in Hp, Hnm, Hen, Hfr. cbn [fst snd] in *.
  specialize (Hp ltac:(unfold slice_from; cbn [sl_len sl_cap]; rewrite Hlits; lia)).
  assert (slice_ok (matcher_arrays m1) s1) as Hok1'.
  { apply Hfr; [done|]. unfold before, slice_from. cbn. lia. }
  assert (sl_len nm = sl_len s1 - L + length (s :: ss))%nat as Hln by (rewrite Hp, <- Hlits; done).
  cbn [length] in Hln, Hcap.
  rewrite (proj2 (Nat.ltb_lt _ _)) in Eg by lia.
  exists (nm, req_Thresholds (GetAccessRequestConditions Allow r1)), (sl_len s1 - L)%nat. split; [done|].
  unfold matchers_of. cbn [fst]. split; [|split].
  - destruct (push_expanded _ _ _ He1 E2) as (? & ? & ? & ? & ? & _ & _ & E).
    destruct (append _ _ _). destruct E as (_ & _ & _ & ->). rewrite Eg, !elem_of_app, list_elem_of_singleton. auto.
  - rewrite Hen, Hfe. assert (length (skipn L (elems h1 s1)) = sl_len s1 - L)%nat as <- by (rewrite length_drop; lia).
    by rewrite lookup_app_r, Nat.sub_diag.
  - rewrite <- Es1. apply (push_writes_behind _ _ _ _ xs _ ltac:(by rewrite Es1) He1 E2 Hx);
      rewrite ?Es1; try lia; by rewrite Hp.
Qed.
End compiled.

(** ** Roles for resources *)

Section pruning.
Context `{ValidatorGetter} `{GoMapOrderLaws} `{GoLibs} `{Regexp} `{MapOrder} `{UnixUsers}.

Lemma fewest_loop_keep n r roles : (∀ r', r' ∈ roles → (n ≤ countAllowedLogins r')%nat) → fewest_loop n r roles = r.
Proof.
  revert r. induction roles as [|r0 roles IH]; intros r Hall; cbn [fewest_loop]; [done|].
  destruct (Nat.ltb_spec (countAllowedLogins r0) n) as [Hlt|_].
  - specialize (Hall r0 ltac:(left)). lia.
  - apply IH. intros r' ?. apply Hall. by right.
Qed.
Lemma fewest_loop_app n r l1 l2 : fewest_loop n r (l1 ++ l2) = fewest_loop n (fewest_loop n r l1) l2.
Proof. revert r. induction l1 as [|r0 l1 IH]; intros r; [done|]. apply IH. Qed.

(** Of the roles that allow a login the one requested is the last with fewer
    logins than the first, however few another one before it has. *)
Theorem fewestLogins_last first l1 r l2 :
  (countAllowedLogins r < countAllowedLogins first)%nat →
  (∀ r', r' ∈ l2 → (countAllowedLogins first ≤ countAllowedLogins r')%nat) →
  fewestLogins (first :: l1 ++ r :: l2) = [r].
Proof.
  intros Hr Hl2. unfold fewestLogins. rewrite fewest_loop_app. cbn [fewest_loop].
  rewrite (proj2 (Nat.ltb_lt _ _)) by done. by rewrite fewest_loop_keep.
Qed.

(** The roles requested for one resource. *)
Definition picked (loginHint : string) (roles : list Role) : list Role :=
  if negb (String.eqb loginHint "") then fewestLogins roles else roles.

Lemma roles_for_resource_spec set r hint rs : roles_for_resource set r hint = Ok rs →
  ∀ role, role ∈ rs ↔ role ∈ set ∧ roleAllowsResource role r hint = Ok true.
Proof.
  revert rs. induction set as [|role0 set IH]; intros rs; cbn [roles_for_resource].
  { intros [= <-] role. split; [by intros ?%elem_of_nil|]. by intros [?%elem_of_nil _]. }
  rewrite result_bind_Ok. intros (b & Hb & E) role. apply result_bind_Ok in E as (rest & Hr & [= <-]).
  rewrite elem_of_cons. destruct b; [rewrite elem_of_cons|]; rewrite (IH _ Hr role); clear IH.
  - split; [intros [->|[? ?]]; [split; [by left|done]|split; [by right|done]]|].
    intros [[->|?] ?]; [by left|by right].
  - split; [intros [? ?]; split; [by right|done]|]. intros [[->|?] Hx]; [by rewrite Hb in Hx|done].
Qed.

Lemma insert_names_spec (rs : list Role) (s : gmap string unit) name :
  is_Some (fold_left (fun s role => <[ GetName role := () ]> s) rs s !! name) ↔
  is_Some (s !! name) ∨ ∃ role, role ∈ rs ∧ GetName role = name.
Proof.
  revert s. induction rs as [|r rs IH]; intros s; cbn [fold_left].
  { split; [by left|]. intros [?|(? & ?%elem_of_nil & _)]; done. }
  rewrite IH, lookup_insert_is_Some', exists_cons_iff. tauto.
Qed.
Lemma necessary_roles_spec set resources hint s s' : necessary_roles set resources hint s = Ok s' →
  (∀ r, r ∈ resources → is_Ok (roles_for_resource set r hint) = true) ∧
  ∀ name, is_Some (s' !! name) ↔ is_Some (s !! name) ∨
    ∃ r rs, r ∈ resources ∧ roles_for_resource set r hint = Ok rs ∧ ∃ role, role ∈ picked hint rs ∧ GetName role = name.
Proof.
  revert s. induction resources as [|r resources IH]; intros s; cbn [necessary_roles].
  { intros [= <-]. split; [by intros ? ?%elem_of_nil|]. intros name. split; [by left|].
    intros [?|(? & ? & ?%elem_of_nil & _)]; done. }
  rewrite result_bind_Ok. intros (rs & Hr & E). destruct (IH _ E) as [Hok Hin]. split.
  - intros r' [->|?]%elem_of_cons; [by rewrite Hr|by apply Hok].
  - intros name. rewrite Hin, insert_names_spec. fold (picked hint rs). split.
    + intros [[?|Hp]|(r' & rs' & ? & ?)]; [by left|right; exists r, rs; split; [left|done]|].
      right. exists r', rs'. split; [by right|done].
    + intros [?|(r' & rs' & [->|Hin']%elem_of_cons & Hrs & Hp)]; [by left; left| |right; by exists r', rs'].
      left. right. rewrite Hr in Hrs. by injection Hrs as <-.
Qed.

(** The roles asked for resources of the cluster are, each once, those of the
    user's searchable roles that allow one of the resources: all of them, or, with
    a login, the one picked for each resource; there is at least one. *)
Theorem pruneResourceRequestRoles_correct m ids hint roles l cluster :
  ids ≠ [] → GetClusterName = Ok cluster → (∀ id, id ∈ ids → rid_ClusterName id = cluster) →
  pruneResourceRequestRoles m ids hint roles = Ok l →
  ∃ set resources, FetchRoles roles (user_Traits (v_user m)) = Ok set ∧ GetResourcesByResourceIDs ids = Ok resources ∧
    NoDup l ∧ l ≠ [] ∧
    ∀ name, name ∈ l ↔ ∃ r rs role, r ∈ resources ∧ role ∈ picked hint rs ∧ GetName role = name ∧
      roles_for_resource set r hint = Ok rs ∧
      ∀ role, role ∈ rs ↔ role ∈ set ∧ roleAllowsResource role r hint = Ok true.
Proof.
  intros Hne Hc Hids. unfold pruneResourceRequestRoles. rewrite Hc. cbn [mbind result_bind].
  destruct ids as [|id ids]; [done|]. cbn [length Nat.eqb].
  destruct (existsb _ _) eqn:Ex.
  { apply existsb_elem in Ex as (id' & Hin & Hx). rewrite (Hids _ Hin), String.eqb_refl in Hx. discriminate. }
  destruct (FetchRoles roles _) as [set|]; [|done]. cbn [mbind result_bind].
  destruct (GetResourcesByResourceIDs _) as [resources|]; [|done]. cbn [mbind result_bind].
  destruct (necessary_roles _ _ _ _) as [s|] eqn:En; [|done]. cbn [mbind result_bind].
  destruct (size s =? 0)%nat eqn:Es; [done|]. intros [= <-]. exists set, resources. split; [done|]. split; [done|].
  apply necessary_roles_spec in En as [_ Hin].
  assert (∀ name, name ∈ (go_order 1 s).*1 ↔ is_Some (s !! name)) as Hl.
  { intros name. rewrite list_elem_of_fmap. split.
    - intros ([n []] & -> & Hp). rewrite go_order_perm in Hp. apply elem_of_map_to_list in Hp. exists (). exact Hp.
    - intros [[] Hp]. exists (name, ()). split; [done|]. rewrite go_order_perm. by apply elem_of_map_to_list. }
  split; [rewrite go_order_perm; apply NoDup_fst_map_to_list|]. split.
  - intros Hnil. apply (f_equal length) in Hnil. rewrite length_fmap, go_order_perm, length_map_to_list in Hnil.
    cbn in Hnil. by rewrite Hnil in Es.
  - intros name. rewrite Hl, Hin, lookup_empty. split.
    + intros [[? ?]|(r & rs & ? & Hrs & role & ? & ?)]; [done|]. exists r, rs, role. split_and!; try done.
      by apply roles_for_resource_spec.
    + intros (r & rs & role & ? & ? & ? & ? & _). right. exists r, rs. eauto.
Qed.
End pruning.
