(* ===== verification/DynamicAccess.v ===== *)
(** * Storage of access requests (lib/services/local/dynamic_access.go)

    The service that keeps access requests and the data of plugins in a backend.
    Updates are loops of compare-and-swap; each call of the backend reads the
    clock, and other clients act between any two calls. *)

From Stdlib Require Import Ascii String.
From S2P Require Import Prelude.
From S2P Require Import Keys.
From S2P Require Import Backend.
From S2P Require Import Labels.
From S2P Require Import Parse.
From S2P Require Import Role.
From S2P Require Import Traits.
From S2P Require Import RoleSet.
From S2P Require Import AccessRequest.
From S2P Require Import Reviews.
Local Open Scope string_scope.

(** ** Plugin data *)

Record PluginData := MkPluginData {
  pd_SubKind : string; pd_Metadata : Metadata; Entries : gmap string (gmap string string)
}.
Record PluginDataUpdateParams := MkUpdateParams {
  pu_Kind : string; pu_Resource : string; pu_Plugin : string;
  pu_Set : gmap string string; pu_Expect : option (gmap string string)
}.
Record PluginDataFilter := MkPluginFilter { pf_Kind : string; pf_Resource : string; pf_Plugin : string }.

Definition PluginData_CheckAndSetDefaults (r : PluginData) : result PluginData :=
  m ← Metadata_CheckAndSetDefaults (pd_Metadata r);
  if String.eqb (pd_SubKind r) "" then Err (Error BadParameter "plugin data missing subkind")
  else Ok (MkPluginData (pd_SubKind r) m (Entries r)).
Definition NewPluginData (resourceName resourceKind : string) : result PluginData :=
  PluginData_CheckAndSetDefaults (MkPluginData resourceKind (MkMetadata resourceName "" "" ∅ None 0) ∅).

Definition err_expectations : error := Error CompareFailed "expectations not met for field %q".
(** A field that is not there counts as empty. *)
Definition checkExpectations (r : PluginData) (plugin : string) (expect : gmap string string) : result unit :=
  let data := default ∅ (Entries r !! plugin) in
  if bool_decide (map_Forall (fun key val => default "" (data !! key) = val) expect)
  then Ok () else Err err_expectations.

(** A field set to the empty string is removed, and an entry without fields too. *)
Definition set_fields (fields data : gmap string string) : gmap string string :=
  merge (fun new old => match new with Some v => if String.eqb v "" then None else Some v | None => old end) fields data.
Definition PluginData_Update (params : PluginDataUpdateParams) (r : PluginData) : result PluginData :=
  if negb (String.eqb (pu_Kind params) (pd_SubKind r)) then Err (Error BadParameter "resource kind mismatch in update params") else
  if negb (String.eqb (pu_Resource params) (md_Name (pd_Metadata r)))
  then Err (Error BadParameter "resource name mismatch in update params") else
  _ ← match pu_Expect params with Some e => checkExpectations r (pu_Plugin params) e | None => Ok () end;
  let data := set_fields (pu_Set params) (default ∅ (Entries r !! pu_Plugin params)) in
  Ok (MkPluginData (pd_SubKind r) (pd_Metadata r)
    (if bool_decide (data = ∅) then delete (pu_Plugin params) (Entries r) else <[ pu_Plugin params := data ]> (Entries r))).

Definition PluginDataFilter_Match (f : PluginDataFilter) (data : PluginData) : bool :=
  if negb (String.eqb (pf_Kind f) "") && negb (String.eqb (pf_Kind f) (pd_SubKind data)) then false else
  if negb (String.eqb (pf_Resource f) "") && negb (String.eqb (pf_Resource f) (md_Name (pd_Metadata data))) then false else
  if negb (String.eqb (pf_Plugin f) "") && negb (bool_decide (is_Some (Entries data !! pf_Plugin f))) then false else true.

(** ** Items *)

Definition accessRequestsPrefix : string := "access_requests".
Definition pluginDataPrefix : string := "plugin_data".
Definition paramsPrefix : string := "params".
Definition KindAccessRequest : string := "access_request".
Definition MaxResourceSize : nat := 1000 * 1000.
Definition path (parts : list string) : bytes := Key (map bytes_of_string parts).
Definition accessRequestKey (name : string) : bytes := path [accessRequestsPrefix; name; paramsPrefix].
Definition pluginDataKey (kind name : string) : bytes := path [pluginDataPrefix; kind; name; paramsPrefix].

(** [bytes.HasSuffix]. *)
Definition bytes_has_suffix (k suffix : bytes) : bool := has_prefix (rev k) (rev suffix).

Definition request_expiry (req : AccessRequest) : Z := default zero_time (ar_Expiry req).

Section items.
Context `{RequestLibs} `{Codec AccessRequest} `{Codec PluginData}.

(** Marshalling validates the request it is given, and leaves it so. The record
    identifier goes with the item. *)
Definition MarshalAccessRequest (req : AccessRequest) : result (bytes * AccessRequest) :=
  req ← ValidateAccessRequest req; Ok (encode_json req, req).
Definition UnmarshalAccessRequest (data : bytes) (expires : Z) : result AccessRequest :=
  req ← decode_json data;
  req ← ValidateAccessRequest req;
  Ok (if is_zero_time expires then req else SetExpiry (Some expires) req).

Definition itemFromAccessRequest (req : AccessRequest) (id : Z) : result (Item * AccessRequest) :=
  '(value, req) ← MarshalAccessRequest req;
  Ok (mkItem (accessRequestKey (ar_Name req)) value (request_expiry req) id 0, req).
Definition itemToAccessRequest (i : Item) : result AccessRequest := UnmarshalAccessRequest (it_Value i) (it_Expires i).

Definition with_md (id : Z) (expires : option Z) (d : PluginData) : PluginData :=
  let m := pd_Metadata d in
  MkPluginData (pd_SubKind d) (MkMetadata (md_Name m) (md_Namespace m) (md_Description m) (md_Labels m) expires id) (Entries d).
Definition MarshalPluginData (data : PluginData) : result (bytes * PluginData) :=
  data ← PluginData_CheckAndSetDefaults data; Ok (encode_json (with_md 0 (md_Expires (pd_Metadata data)) data), data).
Definition UnmarshalPluginData (raw : bytes) (id expires : Z) : result PluginData :=
  data ← decode_json raw;
  data ← PluginData_CheckAndSetDefaults data;
  Ok (with_md (if (id =? 0)%Z then md_ID (pd_Metadata data) else id)
        (if is_zero_time expires then md_Expires (pd_Metadata data) else Some expires) data).
Definition itemToPluginData (i : Item) : result PluginData := UnmarshalPluginData (it_Value i) (it_ID i) (it_Expires i).
Definition itemFromPluginData (data : PluginData) : result Item :=
  '(value, data) ← MarshalPluginData data;
  if (MaxResourceSize <? length value)%nat then Err (Error BadParameter "plugin data size limit exceeded")
  else Ok (mkItem (pluginDataKey (pd_SubKind data) (md_Name (pd_Metadata data))) value
        (default zero_time (md_Expires (pd_Metadata data))) (md_ID (pd_Metadata data)) 0).
End items.

(** ** Updates of requests *)

(** The changes to a request that an update asks for. *)
Definition apply_update (params : AccessRequestUpdate) (req : AccessRequest) : result AccessRequest :=
  req ← SetState (up_State params) req;
  let req := SetResolveAnnotations (up_Annotations params) (SetResolveReason (up_Reason params) req) in
  req ← (if (0 <? length (up_Roles params))%nat then
           if forallb (SliceContainsStr (ar_Roles req)) (up_Roles params) then Ok (SetRoles (up_Roles params) req)
           else Err (Error BadParameter "role %q not in original request, overrides must be a subset of original role list")
         else Ok req);
  Ok (if IsApproved (up_State params) then SetExpiry (Some (AccessExpiry req)) req else req).

(** One turn of a loop of compare-and-swap: it settles the call, unless another
    write came between its read and its own. *)
Inductive turn (A : Type) := Settled (r : result A) | Contended.
Arguments Settled {A} r.
Arguments Contended {A}.

Definition maxCmpAttempts : nat := 7.

Section service.
Context `{RequestLibs} `{GoMapOrder} `{GoLibs} `{Regexp} `{Codec AccessRequest} `{Codec PluginData} `{BackendLaws B}.

(** What settles a turn with a change [f] of the request: [f] may panic. *)
Definition swap_request (now : Z) (item : Item) (req : AccessRequest) : goM B (turn AccessRequest) :=
  match itemFromAccessRequest req (it_ID item) with
  | Err e => mret (Settled (Err e))
  | Ok (newItem, req) =>
      r ← bk_CompareAndSwap now item newItem;
      mret (match r with
            | Ok _ => Settled (Ok req)
            | Err e => if has_kind CompareFailed e then Contended else Settled (Err e)
            end)
  end.
(** The end of a turn, from the item it read on. *)
Definition change_item (now : Z) (item : Item) (f : AccessRequest → option (result AccessRequest)) : goM B (turn AccessRequest) :=
  match itemToAccessRequest item with
  | Err e => mret (Settled (Err e))
  | Ok req =>
      match f req with
      | None => go_panic
      | Some (Err e) => mret (Settled (Err e))
      | Some (Ok req) => swap_request now item req
      end
  end.
Definition change_request (now now' : Z) (name : string) (notFound : error)
    (f : AccessRequest → option (result AccessRequest)) : goM B (turn AccessRequest) :=
  r ← bk_Get now (accessRequestKey name);
  match r with
  | Err e => mret (Settled (Err (if has_kind NotFound e then notFound else e)))
  | Ok item => change_item now' item f
  end.

(** [clock n] gives the two readings of turn [n], [wait n] is what happens until
    the retry: other clients' calls, and the error of a cancelled context. *)
Fixpoint retry_turns {A} (attempts n : nat) (attempt : Z → Z → goM B (turn A)) (clock : nat → Z * Z)
    (wait : nat → goM B (option error)) (tooMany : error) : goM B (result A) :=
  match attempts with
  | O => mret (Err tooMany)
  | S attempts =>
      t ← attempt (clock n).1 (clock n).2;
      match t with
      | Settled r => mret r
      | Contended =>
          c ← wait n;
          match c with
          | Some ctxErr => mret (Err ctxErr)
          | None => retry_turns attempts (S n) attempt clock wait tooMany
          end
      end
  end.

Definition err_set_not_found : error := Error NotFound "cannot set state of access request %q (not found)".
Definition err_review_not_found : error := Error NotFound "cannot apply review to access request %q (not found)".
Definition err_many_writes : error := Error CompareFailed "too many concurrent writes to access request %s, try again later".

Definition SetAccessRequestState (clock : nat → Z * Z) (wait : nat → goM B (option error))
    (params : AccessRequestUpdate) : goM B (result AccessRequest) :=
  match Update_Check params with
  | Err e => mret (Err e)
  | Ok _ =>
      retry_turns maxCmpAttempts 0
        (fun now now' => change_request now now' (up_RequestID params) err_set_not_found (fun req => Some (apply_update params req)))
        clock wait err_many_writes
  end.

(** A review by the user of a checker; [now] is the time given to it. *)
Definition apply_review (now : Z) (rev : AccessReview) (checker : ReviewPermissionChecker) (req : AccessRequest) :
    option (result AccessRequest) :=
  match CanReviewRequest checker req with
  | None => None
  | Some (Err e) => Some (Err e)
  | Some (Ok false) => Some (Err (Error AccessDenied "user %q cannot review request %q"))
  | Some (Ok true) => Some (AccessRequest.ApplyAccessReview now req rev (rpc_User checker))
  end.
Definition ApplyAccessReview (clock : nat → Z * Z) (wait : nat → goM B (option error)) (RequestID : string)
    (rev : AccessReview) (checker : ReviewPermissionChecker) : goM B (result AccessRequest) :=
  match Submission_Check RequestID rev with
  | Err e => mret (Err e)
  | Ok _ =>
      retry_turns maxCmpAttempts 0
        (fun now now' => change_request now now' RequestID err_review_not_found (apply_review now rev checker))
        clock wait err_many_writes
  end.

(** ** The other calls *)

Definition CreateAccessRequest (now : Z) (req : AccessRequest) : goM B (result unit) :=
  match ValidateAccessRequest req with
  | Err e => mret (Err e)
  | Ok req =>
      if DryRun req
      then mret (Err (Error BadParameter "dry run access request made it to DynamicAccessService, this is a bug")) else
      match itemFromAccessRequest req 0 with
      | Err e => mret (Err e)
      | Ok (item, _) =>
          r ← bk_Create now item; mret (match r with Ok _ => Ok () | Err e => Err e end)
      end
  end.
Definition UpsertAccessRequest (now : Z) (req : AccessRequest) : goM B (result unit) :=
  match ValidateAccessRequest req with
  | Err e => mret (Err e)
  | Ok req =>
      match itemFromAccessRequest req 0 with
      | Err e => mret (Err e)
      | Ok (item, _) => r ← bk_Put now item; mret (match r with Ok _ => Ok () | Err e => Err e end)
      end
  end.

Definition GetAccessRequest (now : Z) (name : string) : goM B (result AccessRequest) :=
  r ← bk_Get now (accessRequestKey name);
  mret (match r with
        | Err e => Err (if has_kind NotFound e then Error NotFound "access request %q not found" else e)
        | Ok item => itemToAccessRequest item
        end).
(** The items of a range that are of the resource and match: the first that does
    not decode fails the call. *)
Fixpoint matching {A} (decode : Item → result A) (match_ : A → bool) (items : list Item) : result (list A) :=
  match items with
  | [] => Ok []
  | item :: items =>
      if negb (bytes_has_suffix (it_Key item) (bytes_of_string paramsPrefix)) then matching decode match_ items else
      a ← decode item;
      rest ← matching decode match_ items;
      Ok (if match_ a then a :: rest else rest)
  end.
Definition GetAccessRequests (now : Z) (filter : AccessRequestFilter) : goM B (result (list AccessRequest)) :=
  if negb (String.eqb (f_ID filter) "") then
    r ← GetAccessRequest now (f_ID filter);
    mret (match r with
          | Err e => if has_kind NotFound e then Ok [] else Err e
          | Ok req => Ok (if Filter_Match filter req then [req] else [])
          end)
  else
    r ← bk_GetRange now (path [accessRequestsPrefix]) (RangeEnd (path [accessRequestsPrefix])) NoLimit;
    mret (match r with Err e => Err e | Ok items => matching itemToAccessRequest (Filter_Match filter) items end).

Definition DeleteAccessRequest (now : Z) (name : string) : goM B (result unit) :=
  r ← bk_Delete now (accessRequestKey name);
  mret (match r with
        | Err e => Err (if has_kind NotFound e then Error NotFound "cannot delete access request %q (not found)" else e)
        | Ok _ => Ok ()
        end).
Definition DeleteAllAccessRequests (now : Z) : goM B (result unit) :=
  bk_DeleteRange now (path [accessRequestsPrefix]) (RangeEnd (path [accessRequestsPrefix])).

(** ** Plugin data *)

Definition getAccessRequestPluginData (now : Z) (filter : PluginDataFilter) : goM B (result (list PluginData)) :=
  if negb (String.eqb (pf_Resource filter) "") then
    r ← bk_Get now (pluginDataKey KindAccessRequest (pf_Resource filter));
    mret (match r with
          | Err e => if has_kind NotFound e then Ok [] else Err e
          | Ok item => data ← itemToPluginData item; Ok (if PluginDataFilter_Match filter data then [data] else [])
          end)
  else
    let prefix := path [pluginDataPrefix; KindAccessRequest] in
    r ← bk_GetRange now prefix (RangeEnd prefix) NoLimit;
    mret (match r with Err e => Err e | Ok items => matching itemToPluginData (PluginDataFilter_Match filter) items end).
Definition GetPluginData (now : Z) (filter : PluginDataFilter) : goM B (result (list PluginData)) :=
  if String.eqb (pf_Kind filter) KindAccessRequest then getAccessRequestPluginData now filter
  else mret (Err (Error BadParameter "unsupported resource kind %q")).

(** The data an update starts from: what is stored, with its item, or new data
    that expires an hour after the access. *)
Definition load_plugin_data (now : Z) (resource : string) : goM B (result (PluginData * option Item)) :=
  r ← bk_Get now (pluginDataKey KindAccessRequest resource);
  match r with
  | Ok item => mret (data ← itemToPluginData item; Ok (data, Some item))
  | Err e =>
      if negb (has_kind NotFound e) then mret (Err e) else
      r ← GetAccessRequest now resource;
      mret (req ← r;
            data ← NewPluginData resource KindAccessRequest;
            Ok (with_md (md_ID (pd_Metadata data)) (Some (AccessExpiry req + Hour)%Z) data, None))
  end.
Definition update_plugin_turn (params : PluginDataUpdateParams) (now now' : Z) : goM B (turn unit) :=
  l ← load_plugin_data now (pu_Resource params);
  match ('(data, item) ← l;
         data ← PluginData_Update params data;
         data ← PluginData_CheckAndSetDefaults data;
         newItem ← itemFromPluginData data;
         Ok (newItem, item)) with
  | Err e => mret (Settled (Err e))
  | Ok (newItem, None) =>
      r ← bk_Create now' newItem;
      mret (match r with
            | Ok _ => Settled (Ok ())
            | Err e => if has_kind AlreadyExists e then Contended else Settled (Err e)
            end)
  | Ok (newItem, Some item) =>
      r ← bk_CompareAndSwap now' item newItem;
      mret (match r with
            | Ok _ => Settled (Ok ())
            | Err e => if has_kind CompareFailed e then Contended else Settled (Err e)
            end)
  end.
Definition UpdatePluginData (clock : nat → Z * Z) (wait : nat → goM B (option error)) (params : PluginDataUpdateParams) :
    goM B (result unit) :=
  if String.eqb (pu_Kind params) KindAccessRequest
  then retry_turns maxCmpAttempts 0 (update_plugin_turn params) clock wait
         (Error CompareFailed "too many concurrent writes to plugin data %s")
  else mret (Err (Error BadParameter "unsupported resource kind %q")).

(** ** Lemmas *)

Lemma has_kind_spec k e : has_kind k e = true ↔ err_kind e = k.
Proof. apply bool_decide_eq_true. Qed.

Lemma roles_nonempty l : (length (sort_Strings (Deduplicate l)) =? 0)%nat = (length l =? 0)%nat.
Proof.
  unfold sort_Strings. rewrite (Permutation_length (merge_sort_Permutation string_le (Deduplicate l))).
  destruct l as [|x l]; [done|]. assert (x ∈ Deduplicate (x :: l)) as Hx by (apply Deduplicate_spec; left).
  by destruct (Deduplicate (x :: l)); [apply elem_of_nil in Hx|].
Qed.
(** Validation of a request keeps all but its roles and an unset state. *)
Lemma ValidateAccessRequest_spec req req' : ValidateAccessRequest req = Ok req' →
  req' = SetRoles (sort_Strings (Deduplicate (ar_Roles req))) (if IsNone (ar_State req) then with_State PENDING req else req) ∧
  is_Ok (ValidateAccessRequest req') = true.
Proof.
  unfold ValidateAccessRequest. rewrite result_bind_Ok. intros (r & Hr & E).
  assert (r = req') as -> by (repeat (case_test; [done|]); by injection E). revert Hr E.
  unfold Request_CheckAndSetDefaults. destruct (String.eqb (ar_Name req) "") eqn:En; [done|].
  set (r0 := if IsNone (ar_State req) then with_State PENDING req else req).
  assert (IsNone (ar_State r0) = false) as Hn0 by (unfold r0; destruct (IsNone (ar_State req)) eqn:E; [done|exact E]).
  assert (ar_Name r0 = ar_Name req) as Hname by (unfold r0; by case_match).
  assert (ar_Roles r0 = ar_Roles req) as Hroles by (unfold r0; by case_match).
  clearbody r0. destruct (IsPending (ar_State r0) && negb (String.eqb _ "")) eqn:E1; [done|].
  destruct (IsPending (ar_State r0) && negb (bool_decide _)) eqn:E2; [done|].
  destruct (String.eqb (ar_User r0) "") eqn:E3; [done|].
  destruct ((length (ar_Roles r0) =? 0)%nat && _) eqn:E4; [done|]. intros [= <-] E. split; [by rewrite Hroles|].
  set (r' := SetRoles _ r0) in *. change (ar_Name r') with (ar_Name r0). rewrite Hname, En.
  change (ar_State r') with (ar_State r0). rewrite Hn0. change (ar_State r') with (ar_State r0).
  change (ResolveReason r') with (ResolveReason r0). rewrite E1. change (ResolveAnnotations r') with (ResolveAnnotations r0).
  rewrite E2. change (ar_User r') with (ar_User r0). rewrite E3.
  change (ar_Roles r') with (sort_Strings (Deduplicate (ar_Roles r0))).
  change (RequestedResourceIDs r') with (RequestedResourceIDs r0). rewrite roles_nonempty, E4. cbn [mbind result_bind].
  set (r2 := SetRoles _ r'). change (ar_Name r2) with (ar_Name r'). change (RequestReason r2) with (RequestReason r').
  change (ResolveReason r2) with (ResolveReason r').
  destruct (negb (valid_uuid (ar_Name r'))); [done|].
  destruct (Z.of_nat (String.length (RequestReason r')) >? _)%Z; [done|].
  by destruct (Z.of_nat (String.length (ResolveReason r')) >? _)%Z.
Qed.

(** An item that stands for a denied request, as this service writes it. *)
Definition denied_item (i : Item) : Prop :=
  ∃ req, decode_json (it_Value i) = Ok req ∧ ar_State req = DENIED ∧ is_Ok (ValidateAccessRequest req) = true ∧
    it_Expires i = request_expiry req.
(** An item expires when the request it holds does. *)
Definition in_step (i : Item) : Prop :=
  ∀ req, decode_json (it_Value i) = Ok req → it_Expires i = request_expiry req.

Lemma itemToAccessRequest_denied i req : denied_item i → itemToAccessRequest i = Ok req →
  ar_State req = DENIED ∧ request_expiry req = it_Expires i.
Proof.
  intros (r & Hd & Hs & _ & He). unfold itemToAccessRequest, UnmarshalAccessRequest. rewrite Hd. cbn [mbind result_bind].
  rewrite result_bind_Ok. intros (r1 & Hv & E). apply ValidateAccessRequest_spec in Hv as [-> _]. rewrite Hs in E.
  unfold is_zero_time in E. destruct (Z.eqb_spec (it_Expires i) zero_time) as [Hz|]; injection E as <-.
  - split; [exact Hs|]. by rewrite He.
  - by split.
Qed.
Lemma denied_reads i : denied_item i → ∃ req, itemToAccessRequest i = Ok req ∧ ar_State req = DENIED.
Proof.
  intros Hi. pose proof Hi as (r & Hd & _ & (r' & Hv)%is_Ok_spec & _).
  destruct (itemToAccessRequest i) as [req|e] eqn:E; [by exists req; apply itemToAccessRequest_denied in E as [? _]|].
  unfold itemToAccessRequest, UnmarshalAccessRequest in E. rewrite Hd in E. cbn [mbind result_bind] in E.
  by rewrite Hv in E.
Qed.

Lemma itemFromAccessRequest_spec `{!CodecLaws AccessRequest} req id new req' :
  itemFromAccessRequest req id = Ok (new, req') →
  ValidateAccessRequest req = Ok req' ∧ new = mkItem (accessRequestKey (ar_Name req)) (encode_json req') (request_expiry req) id 0.
Proof.
  unfold itemFromAccessRequest, MarshalAccessRequest. destruct (ValidateAccessRequest req) as [r|] eqn:E; [|done].
  cbn [mbind result_bind]. intros [= <- <-]. split; [done|]. apply ValidateAccessRequest_spec in E as [-> _].
  by destruct (IsNone _).
Qed.

(** The changes a client makes to a request. *)
Inductive change :=
  | ChangeState (params : AccessRequestUpdate)
  | ChangeReview (now : Z) (rev : AccessReview) (checker : ReviewPermissionChecker).
Definition run_change (c : change) (req : AccessRequest) : option (result AccessRequest) :=
  match c with
  | ChangeState params => Some (apply_update params req)
  | ChangeReview now rev checker => apply_review now rev checker req
  end.

(** No change of a denied request grants it. *)
Lemma run_change_denied `{!GoMapOrderLaws} c req req' : ar_State req = DENIED → run_change c req = Some (Ok req') →
  ar_State req' = DENIED ∧ request_expiry req' = request_expiry req.
Proof.
  intros Hs. destruct c as [params|now rev checker]; cbn [run_change].
  - unfold apply_update, SetState, IsDenied. rewrite Hs, bool_decide_true by done.
    case_bool_decide as Hp; [|done]. cbn [mbind result_bind]. rewrite Hp. intros [= E]. revert E.
    destruct (0 <? _)%nat; [case_test; [|done]|]; cbn; by intros [= <-].
  - unfold apply_review. destruct (CanReviewRequest checker req) as [[[]|]|]; [|done..]. intros [= E].
    apply ApplyAccessReview_inv in E as (_ & rev' & _ & _ & _ & _ & _ & [[_ ->]|[? _]]); [done|congruence].
Qed.

(** The calls of the backend that clients make on requests; a swap comes after a
    read at any earlier time, of an item that may be stale. A client that panics
    or fails before its call makes none. *)
Inductive store_action :=
  | ARead (name : string)
  | ACreate (req : AccessRequest)
  | ASwap (item : Item) (c : change).
Definition ignore {A} (c : goM B A) : goM B unit := fun b => match c b with Some (_, b') => Some ((), b') | None => Some ((), b) end.
Definition run_action (now : Z) (a : store_action) : goM B unit :=
  match a with
  | ARead name => ignore (GetAccessRequest now name)
  | ACreate req => ignore (CreateAccessRequest now req)
  | ASwap item c => ignore (change_item now item (run_change c))
  end.
Fixpoint run_actions (acts : list (Z * store_action)) : goM B unit :=
  match acts with
  | [] => mret ()
  | (now, a) :: acts => _ ← run_action now a; run_actions acts
  end.
(** An item that was read from the store is in step. *)
Definition action_ok (a : store_action) : Prop := match a with ASwap item _ => in_step item | _ => True end.

Lemma runs_ignore {A} (c : goM B A) b (P : B → Prop) : runs c b (fun _ => P) → runs (ignore c) b (fun _ => P).
Proof. intros (a & b' & E & ? & ?). exists (), b'. unfold ignore. by rewrite E. Qed.

Lemma swap_denied `{!GoMapOrderLaws} `{!CodecLaws AccessRequest} now item c key i b :
  bk_inv b → held key i b → denied_item i → ¬ expired now i → in_step item →
  runs (ignore (change_item now item (run_change c))) b (fun _ b' =>
    ∃ j, held key j b' ∧ denied_item j ∧ it_Expires j = it_Expires i).
Proof.
  intros Hb Hh Hd Hne Hin.
  assert (∀ (r : turn AccessRequest), runs (ignore (mret r)) b (fun _ b' =>
    ∃ j, held key j b' ∧ denied_item j ∧ it_Expires j = it_Expires i)) as Hstay.
  { intros r. apply runs_ignore, runs_ret; [done|]. by exists i. }
  unfold change_item. destruct (itemToAccessRequest item) as [req|] eqn:Et; [|apply Hstay].
  destruct (run_change c req) as [[req1|]|] eqn:Ec; [|apply Hstay|]; last first.
  { exists (), b. split; [done|]. split; [done|]. by exists i. }
  unfold swap_request. destruct (itemFromAccessRequest req1 (it_ID item)) as [[new req2]|] eqn:Ef; [|apply Hstay].
  apply itemFromAccessRequest_spec in Ef as [Hv ->]. apply runs_ignore.
  destruct (bk_CompareAndSwap_law now item (mkItem (accessRequestKey (ar_Name req1)) (encode_json req2)
    (request_expiry req1) (it_ID item) 0) b Hb) as (r & b' & Hr & Hb' & Hlaw).
  eexists _, b'. rewrite goM_bind_unfold, Hr. split; [done|]. split; [done|].
  destruct (_ || _); [destruct Hlaw as [_ ->]; by exists i|]. cbn [it_Key] in Hlaw.
  case_bool_decide as Hk; cbn [negb] in Hlaw; [|destruct Hlaw as [_ ->]; by exists i].
  destruct Hlaw as (m & Hp & Hlaw). pose proof (purged_keeps _ _ _ _ _ Hp Hh Hne) as Hm.
  destruct (decide (it_Key item = key)) as [Ekey|Hkey].
  - rewrite Ekey, Hm in Hlaw. case_bool_decide as Hval; destruct Hlaw as [_ Hst]; [|exists i; unfold held; by rewrite Hst].
    destruct Hst as [id Hst]. cbn [it_Key] in Hst. rewrite <- Hk, Ekey in Hst.
    eexists. split; [unfold held; by rewrite Hst, lookup_insert_eq|]. clear Hst.
    destruct Hd as (r0 & Hd0 & Hs0 & Hv0 & He0). rewrite Hval in Hd0.
    assert (denied_item item) as Hdi by (exists r0; split_and!; auto).
    destruct (itemToAccessRequest_denied _ _ Hdi Et) as [Hs He].
    destruct (run_change_denied _ _ _ Hs Ec) as [Hs1 He1].
    pose proof (ValidateAccessRequest_spec _ _ Hv) as [E2 Hok]. rewrite Hs1 in E2.
    assert (it_Expires item = it_Expires i) as Eexp by (rewrite He0; by apply Hin).
    split; [|change (request_expiry req1 = it_Expires i); congruence]. exists req2. cbn [it_Value it_Expires with_ID]. rewrite decode_encode.
    split_and!; [done|by rewrite E2|done|by rewrite E2].
  - exists i. split; [|done]. unfold held. destruct (m !! it_Key item); [|by destruct Hlaw as [_ ->]].
    case_bool_decide; destruct Hlaw as [_ Hst]; [|by rewrite Hst].
    eapply stored_other; [done|change (accessRequestKey (ar_Name req1) ≠ key); congruence|done].
Qed.

(** C26: Once a request is denied, no sequence of reads, creations and swaps by any
    clients, each from whatever item of the store it read before, grants or
    removes it before it expires: it is read as denied. *)
Theorem denied_final `{!GoMapOrderLaws} `{!CodecLaws AccessRequest} key i acts b :
  bk_inv b → held key i b → denied_item i →
  Forall (fun '(now, a) => ¬ expired now i ∧ action_ok a) acts →
  ∃ b' j req, run_actions acts b = Some ((), b') ∧ bk_inv b' ∧ held key j b' ∧
    itemToAccessRequest j = Ok req ∧ ar_State req = DENIED.
Proof.
  intros Hb Hh Hd Hacts.
  assert (∃ b' j, run_actions acts b = Some ((), b') ∧ bk_inv b' ∧ held key j b' ∧ denied_item j)
    as (b' & j & ? & ? & ? & Hj); last first.
  { destruct (denied_reads j Hj) as (req & ? & ?). by exists b', j, req. }
  remember (it_Expires i) as t eqn:Et.
  assert (Forall (fun p => ¬ (t ≠ zero_time ∧ (t ≤ p.1)%Z) ∧ action_ok p.2) acts) as Hall.
  { eapply Forall_impl; [exact Hacts|]. intros [now a]. unfold expired. by rewrite Et. }
  clear Hacts. revert b i Hb Hh Hd Et.
  induction Hall as [|[now a] acts [Hne Hok] _ IH]; intros b i Hb Hh Hd ->; [by exists b, i|].
  cbn [run_actions].
  assert (¬ expired now i) as Hne' by done.
  assert (runs (run_action now a) b (fun _ b' => ∃ j, held key j b' ∧ denied_item j ∧ it_Expires j = it_Expires i))
    as (u & b1 & Hu & Hb1 & j & Hj & Hdj & Ej).
  { destruct a as [name|req|item c]; cbn [run_action]; [apply runs_ignore..|by apply swap_denied].
    - unfold GetAccessRequest. eapply runs_bind; [by apply Get_other|]. intros r b' Hb' [Hh' _].
      apply runs_ret; [done|]. by exists i.
    - unfold CreateAccessRequest.
      assert (∀ r : result unit, runs (mret r) b (fun _ b' => ∃ j, held key j b' ∧ denied_item j ∧ it_Expires j = it_Expires i))
        as Hstay by (intros; apply runs_ret; [done|by exists i]).
      destruct (ValidateAccessRequest req); [|apply Hstay]. destruct (DryRun _); [apply Hstay|].
      destruct (itemFromAccessRequest _ _) as [[new ?]|]; [|apply Hstay].
      eapply runs_bind; [by apply Create_held|]. intros r b' Hb' [Hh' _]. apply runs_ret; [done|]. by exists i. }
  destruct u. destruct (IH b1 j Hb1 Hj Hdj (eq_sym Ej)) as (b2 & k & Hr & ?).
  exists b2, k. split; [|done]. by rewrite goM_bind_unfold, Hu.
Qed.

(** What a change leads to, when nobody else writes: the new item, or an error. *)
Definition outcome_of (i : Item) (r : result AccessRequest) : result (Item * AccessRequest) :=
  req ← r; itemFromAccessRequest req (it_ID i).
Definition stored_outcome (key : bytes) (i : Item) (r : result AccessRequest) (t : result AccessRequest) (b : B) : Prop :=
  match outcome_of i r with
  | Ok (new, req) => t = Ok req ∧ ∃ n, held key (with_ID n new) b
  | Err e => t = Err e ∧ held key i b
  end.

Lemma accessRequestKey_nonempty name : accessRequestKey name ≠ [].
Proof. done. Qed.
Lemma outcome_key `{!CodecLaws AccessRequest} i r new req : outcome_of i r = Ok (new, req) →
  ∃ req1, r = Ok req1 ∧ it_Key new = accessRequestKey (ar_Name req1).
Proof.
  unfold outcome_of. rewrite result_bind_Ok. intros (req1 & -> & [_ ->]%itemFromAccessRequest_spec). by exists req1.
Qed.

Lemma change_request_spec `{!CodecLaws AccessRequest} now now' name nf f i req r b :
  bk_inv b → held (accessRequestKey name) i b → ¬ expired now i → ¬ expired now' i →
  itemToAccessRequest i = Ok req → f req = Some r → (∀ req1, r = Ok req1 → ar_Name req1 = name) →
  runs (change_request now now' name nf f) b (fun t b' => ∃ t', t = Settled t' ∧ stored_outcome (accessRequestKey name) i r t' b').
Proof.
  intros Hb Hh Hne Hne' Hi Hf Hname. unfold change_request.
  eapply runs_bind; [by apply Get_held|]. cbv beta. intros g b1 Hb1 (Hh1 & Hg & _).
  rewrite (Hg (accessRequestKey_nonempty name)). unfold change_item. rewrite Hi, Hf. unfold stored_outcome.
  destruct r as [req1|e]; [|by apply runs_ret; [|eexists]].
  pose proof (Hname req1 eq_refl) as Hn. unfold swap_request.
  destruct (outcome_of i (Ok req1)) as [[new req2]|e] eqn:Eo; cbn [outcome_of mbind result_bind] in Eo; rewrite Eo;
    [|by apply runs_ret; [|eexists]].
  apply itemFromAccessRequest_spec in Eo as [_ Enew].
  pose proof (bk_view_keyed b1 Hb1 _ _ Hh1) as Hkey.
  destruct (bk_CompareAndSwap_law now' i new b1 Hb1) as (c & b2 & Hc & Hb2 & Hlaw).
  eexists _, b2. rewrite goM_bind_unfold, Hc. split; [done|]. split; [done|].
  assert (it_Key new = accessRequestKey name) as Ek by (rewrite Enew; cbn [it_Key]; by rewrite Hn).
  rewrite Hkey, Ek in Hlaw. pose proof (accessRequestKey_nonempty name) as Hnz.
  set (key := accessRequestKey name) in *. clearbody key.
  rewrite (bool_decide_eq_false_2 (key = [])) in Hlaw by exact Hnz.
  rewrite bool_decide_eq_true_2 in Hlaw by done. cbn [orb negb] in Hlaw. destruct Hlaw as (m & Hp & Hlaw).
  rewrite (purged_keeps _ _ _ _ _ Hp Hh1 Hne'), bool_decide_eq_true_2 in Hlaw by done.
  destruct Hlaw as [-> [id Hst]]. eexists. split; [done|]. split; [done|]. exists id. unfold held.
  by rewrite Hst, Ek, lookup_insert_eq.
Qed.

Lemma run_change_name `{!GoMapOrderLaws} c req req' : run_change c req = Some (Ok req') → ar_Name req' = ar_Name req.
Proof.
  destruct c as [params|now rev checker]; cbn [run_change].
  - unfold apply_update. intros [= E]. revert E. rewrite result_bind_Ok. intros (r1 & Hr1 & E).
    assert (ar_Name r1 = ar_Name req) as Hn.
    { unfold SetState in Hr1. destruct (IsDenied (ar_State req)); [destruct (IsDenied (up_State params)); [|done]|];
        by injection Hr1 as <-. }
    apply result_bind_Ok in E as (r2 & Hr2 & E). rewrite <- Hn. revert Hr2 E.
    destruct (0 <? _)%nat; [destruct (forallb _ _); [|done]|]; intros [= <-]; destruct (IsApproved _); by intros [= <-].
  - unfold apply_review. destruct (CanReviewRequest checker req) as [[[]|]|]; [|done..]. intros [= E].
    apply ApplyAccessReview_inv in E as (_ & rev' & _ & _ & _ & _ & _ & E).
    destruct E as [[_ ->]|[_ ([res|] & _ & ->)]]; done.
Qed.

Lemma retry_settled {A} attempts n (attempt : Z → Z → goM B (turn A)) clock wait e P b :
  runs (attempt (clock n).1 (clock n).2) b (fun t b' => ∃ t', t = Settled t' ∧ P t' b') →
  runs (retry_turns (S attempts) n attempt clock wait e) b P.
Proof.
  intros Hr. cbn [retry_turns]. eapply runs_bind; [exact Hr|]. cbv beta. intros t b' Hb' (t' & -> & Ht).
  by apply runs_ret.
Qed.

(** Without another write in between, an update of the state, or a review, of a
    stored request answers with the changed and validated request and stores it, or
    answers with the error and leaves what is stored. *)
Theorem request_change_stored `{!GoMapOrderLaws} `{!CodecLaws AccessRequest} clock wait i req b :
  bk_inv b → held (accessRequestKey (ar_Name req)) i b → ¬ expired (clock 0%nat).1 i → ¬ expired (clock 0%nat).2 i →
  itemToAccessRequest i = Ok req →
  (∀ params, Update_Check params = Ok () → up_RequestID params = ar_Name req →
   runs (SetAccessRequestState clock wait params) b
     (stored_outcome (accessRequestKey (ar_Name req)) i (apply_update params req))) ∧
  (∀ rev checker r, Submission_Check (ar_Name req) rev = Ok () → apply_review (clock 0%nat).1 rev checker req = Some r →
   runs (ApplyAccessReview clock wait (ar_Name req) rev checker) b
     (stored_outcome (accessRequestKey (ar_Name req)) i r)).
Proof.
  intros Hb Hh Hne Hne' Hi. split.
  - intros params Hp Hid. unfold SetAccessRequestState. rewrite Hp, Hid. unfold maxCmpAttempts.
    apply retry_settled. cbv beta.
    apply (change_request_spec _ _ _ _ (fun req => Some (apply_update params req)) i req); try done.
    intros req1 E. by apply (run_change_name (ChangeState params) req req1); cbn; f_equal.
  - intros rev checker r Hs Hr. unfold ApplyAccessReview. rewrite Hs. unfold maxCmpAttempts.
    apply retry_settled. cbv beta.
    apply (change_request_spec _ _ _ _ _ i req); try done.
    intros req1 ->. by apply (run_change_name (ChangeReview (clock 0%nat).1 rev checker) req req1).
Qed.
End service.

(** ** Plugin data: what an update means *)

(** A field of a plugin's data; one that is not there is empty. *)
Definition field (r : PluginData) (plugin key : string) : string := default "" (default ∅ (Entries r !! plugin) !! key).
(** No entry without fields, no empty field. *)
Definition tidy (r : PluginData) : Prop :=
  ∀ plugin data, Entries r !! plugin = Some data → data ≠ ∅ ∧ ∀ key, data !! key ≠ Some "".

Lemma set_fields_lookup fields data key : set_fields fields data !! key =
  match fields !! key with Some v => if String.eqb v "" then None else Some v | None => data !! key end.
Proof. unfold set_fields. rewrite lookup_merge. by destruct (fields !! key), (data !! key). Qed.

(** An update is accepted when the fields it expects are as expected; it then
    sets the fields it names, removes those it names with an empty value, changes
    no other field of this or another plugin, and leaves no empty field or entry. *)
Theorem PluginData_Update_correct params r r' : PluginData_Update params r = Ok r' →
  (∀ plugin key, field r' plugin key =
     match if String.eqb plugin (pu_Plugin params) then pu_Set params !! key else None with
     | Some v => v
     | None => field r plugin key
     end) ∧
  (∀ expect key val, pu_Expect params = Some expect → expect !! key = Some val → field r (pu_Plugin params) key = val) ∧
  (tidy r → tidy r').
Proof.
  unfold PluginData_Update. destruct (negb _); [done|]. destruct (negb _); [done|].
  rewrite result_bind_Ok. intros ([] & Hx & E). cbn zeta in E.
  set (old := default ∅ (Entries r !! pu_Plugin params)) in *. set (data := set_fields (pu_Set params) old) in *.
  assert (Entries r' = if bool_decide (data = ∅) then delete (pu_Plugin params) (Entries r)
    else <[pu_Plugin params := data]> (Entries r)) as Hr' by by injection E as <-. clear E.
  assert (default ∅ (Entries r' !! pu_Plugin params) = data) as Hd.
  { rewrite Hr'. case_bool_decide as Hz; [by rewrite lookup_delete_eq, Hz|by rewrite lookup_insert_eq]. }
  assert (∀ plugin, plugin ≠ pu_Plugin params → Entries r' !! plugin = Entries r !! plugin) as Ho.
  { intros plugin Hne. rewrite Hr'. case_bool_decide; [by rewrite lookup_delete_ne|by rewrite lookup_insert_ne]. }
  split; [|split].
  - intros plugin key. unfold field. destruct (String.eqb_spec plugin (pu_Plugin params)) as [->|Hne].
    + rewrite Hd. unfold data. rewrite set_fields_lookup. fold old. destruct (pu_Set params !! key) as [v|]; [|done].
      by destruct (String.eqb_spec v "") as [->|].
    + by rewrite Ho.
  - intros expect key val He Hk. rewrite He in Hx. unfold checkExpectations in Hx. fold old in Hx. clear Hr'. unfold field. fold old.
    revert Hx. case_bool_decide as Hall; [|discriminate]. intros _. exact (Hall key val Hk).
  - intros Ht plugin d Hp. destruct (decide (plugin = pu_Plugin params)) as [->|Hne].
    + rewrite Hp in Hd. cbn in Hd. rewrite Hd. split.
      * intros Hz. rewrite Hr', bool_decide_eq_true_2, lookup_delete_eq in Hp by done. done.
      * intros key. unfold data. rewrite set_fields_lookup. destruct (pu_Set params !! key) as [v|].
        -- destruct (String.eqb_spec v ""); congruence.
        -- unfold old. destruct (Entries r !! pu_Plugin params) as [d0|] eqn:Eo; cbn; [by apply (Ht _ _ Eo)|].
           by rewrite lookup_empty.
    + rewrite Ho in Hp by done. by eapply Ht.
Qed.
