(* ===== verification/Identity.v ===== *)
(** * Identities in certificates (lib/tlsca/ca.go)

    A TLS certificate carries who its holder is in the subject's name: standard
    attributes and attributes of the program's own object identifiers. Encoding
    a name into a certificate and reading it from one is the standard library's:
    the class [CertLibrary]. *)

From S2P Require Import Prelude.
From S2P Require Import Keys.
From S2P Require Import Strconv.
From S2P Require Import Labels.
From S2P Require Import Role.
From S2P Require Import Traits.
From S2P Require Import RoleSet.
From S2P Require Import RequestValidator.
From S2P Require Import RequestChecks.
Local Open Scope string_scope.

(** ** Data *)

Record RouteToApp := MkRouteToApp {
  app_SessionID : string; app_PublicAddr : string; app_ClusterName : string; app_Name : string; app_AWSRoleARN : string
}.
Record RouteToDatabase := MkRouteToDatabase {
  db_ServiceName : string; db_Protocol : string; db_Username : string; db_Database : string
}.
Record Identity := MkIdentity {
  Username : string; Impersonator : string; Groups : list string; SystemRoles : list string;
  Usage : list string; Principals : list string; KubernetesGroups : list string; KubernetesUsers : list string;
  Expires : Z; RouteToCluster : string; KubernetesCluster : string; id_Traits : UserTraits;
  id_RouteToApp : RouteToApp; TeleportCluster : string; id_RouteToDatabase : RouteToDatabase;
  id_DatabaseNames : list string; id_DatabaseUsers : list string; MFAVerified : string; ClientIP : string;
  id_AWSRoleARNs : list string; ActiveRequests : list string; DisallowReissue : bool; Renewable : bool;
  Generation : Z; AllowedResourceIDs : list ResourceID; id_PrivateKeyPolicy : string
}.

Definition app_eta (r : RouteToApp) : RouteToApp :=
  MkRouteToApp (app_SessionID r) (app_PublicAddr r) (app_ClusterName r) (app_Name r) (app_AWSRoleARN r).
Definition db_eta (r : RouteToDatabase) : RouteToDatabase :=
  MkRouteToDatabase (db_ServiceName r) (db_Protocol r) (db_Username r) (db_Database r).
Definition identity_eta (i : Identity) : Identity :=
  MkIdentity (Username i) (Impersonator i) (Groups i) (SystemRoles i) (Usage i) (Principals i) (KubernetesGroups i)
    (KubernetesUsers i) (Expires i) (RouteToCluster i) (KubernetesCluster i) (id_Traits i) (id_RouteToApp i)
    (TeleportCluster i) (id_RouteToDatabase i) (id_DatabaseNames i) (id_DatabaseUsers i) (MFAVerified i) (ClientIP i)
    (id_AWSRoleARNs i) (ActiveRequests i) (DisallowReissue i) (Renewable i) (Generation i) (AllowedResourceIDs i)
    (id_PrivateKeyPolicy i).
Definition set_Groups : list string → Identity → Identity := ltac:(with_field identity_eta Groups).
Definition set_Usage : list string → Identity → Identity := ltac:(with_field identity_eta Usage).
Definition set_Principals : list string → Identity → Identity := ltac:(with_field identity_eta Principals).
Definition set_Expires : Z → Identity → Identity := ltac:(with_field identity_eta Expires).
Definition set_RouteToCluster : string → Identity → Identity := ltac:(with_field identity_eta RouteToCluster).
Definition set_Traits : UserTraits → Identity → Identity := ltac:(with_field identity_eta id_Traits).
Definition set_SystemRoles : list string → Identity → Identity := ltac:(with_field identity_eta SystemRoles).
Definition set_KubernetesUsers : list string → Identity → Identity := ltac:(with_field identity_eta KubernetesUsers).
Definition set_KubernetesGroups : list string → Identity → Identity := ltac:(with_field identity_eta KubernetesGroups).
Definition set_KubernetesCluster : string → Identity → Identity := ltac:(with_field identity_eta KubernetesCluster).
Definition set_AWSRoleARNs : list string → Identity → Identity := ltac:(with_field identity_eta id_AWSRoleARNs).
Definition set_Renewable : bool → Identity → Identity := ltac:(with_field identity_eta Renewable).
Definition set_TeleportCluster : string → Identity → Identity := ltac:(with_field identity_eta TeleportCluster).
Definition set_MFAVerified : string → Identity → Identity := ltac:(with_field identity_eta MFAVerified).
Definition set_ClientIP : string → Identity → Identity := ltac:(with_field identity_eta ClientIP).
Definition set_DatabaseNames : list string → Identity → Identity := ltac:(with_field identity_eta id_DatabaseNames).
Definition set_DatabaseUsers : list string → Identity → Identity := ltac:(with_field identity_eta id_DatabaseUsers).
Definition set_Impersonator : string → Identity → Identity := ltac:(with_field identity_eta Impersonator).
Definition set_ActiveRequests : list string → Identity → Identity := ltac:(with_field identity_eta ActiveRequests).
Definition set_DisallowReissue : bool → Identity → Identity := ltac:(with_field identity_eta DisallowReissue).
Definition set_Generation : Z → Identity → Identity := ltac:(with_field identity_eta Generation).
Definition set_AllowedResourceIDs : list ResourceID → Identity → Identity := ltac:(with_field identity_eta AllowedResourceIDs).
Definition set_PrivateKeyPolicy : string → Identity → Identity := ltac:(with_field identity_eta id_PrivateKeyPolicy).
Definition set_app (g : RouteToApp → RouteToApp) (i : Identity) : Identity :=
  ltac:(with_field identity_eta id_RouteToApp) (g (id_RouteToApp i)) i.
Definition set_db (g : RouteToDatabase → RouteToDatabase) (i : Identity) : Identity :=
  ltac:(with_field identity_eta id_RouteToDatabase) (g (id_RouteToDatabase i)) i.

Definition GetRouteToApp (i : Identity) : result RouteToApp :=
  let r := id_RouteToApp i in
  if String.eqb (app_SessionID r) "" || String.eqb (app_PublicAddr r) "" || String.eqb (app_ClusterName r) ""
  then Err (Error BadParameter "identity is missing application routing metadata") else Ok r.
Definition Identity_CheckAndSetDefaults (i : Identity) : result unit :=
  if String.eqb (Username i) "" then Err (Error BadParameter "missing identity username") else
  if (length (Groups i) =? 0)%nat then Err (Error BadParameter "missing identity groups") else Ok ().

(** ** Names *)

(** An attribute has an object identifier and a value: a string, a value of the
    string type of key policies, or anything else. *)
Inductive attr_value := VString (s : string) | VPolicy (s : string) | VOther.
Record AttributeTypeAndValue := MkAttr { attr_Type : list Z; attr_Value : attr_value }.
Record Name := MkName {
  CommonName : string; Organization : list string; OrganizationalUnit : list string; Locality : list string;
  StreetAddress : list string; PostalCode : list string;
  Names : list AttributeTypeAndValue; ExtraNames : list AttributeTypeAndValue
}.

Fixpoint oid_Equal (a b : list Z) : bool :=
  match a, b with
  | [], [] => true
  | x :: a, y :: b => (x =? y)%Z && oid_Equal a b
  | _, _ => false
  end.
Definition KubeUsersASN1ExtensionOID : list Z := [1; 3; 9999; 1; 1]%Z.
Definition KubeGroupsASN1ExtensionOID : list Z := [1; 3; 9999; 1; 2]%Z.
Definition KubeClusterASN1ExtensionOID : list Z := [1; 3; 9999; 1; 3]%Z.
Definition AppSessionIDASN1ExtensionOID : list Z := [1; 3; 9999; 1; 4]%Z.
Definition AppClusterNameASN1ExtensionOID : list Z := [1; 3; 9999; 1; 5]%Z.
Definition AppPublicAddrASN1ExtensionOID : list Z := [1; 3; 9999; 1; 6]%Z.
Definition TeleportClusterASN1ExtensionOID : list Z := [1; 3; 9999; 1; 7]%Z.
Definition MFAVerifiedASN1ExtensionOID : list Z := [1; 3; 9999; 1; 8]%Z.
Definition ClientIPASN1ExtensionOID : list Z := [1; 3; 9999; 1; 9]%Z.
Definition AppNameASN1ExtensionOID : list Z := [1; 3; 9999; 1; 10]%Z.
Definition AppAWSRoleARNASN1ExtensionOID : list Z := [1; 3; 9999; 1; 11]%Z.
Definition AWSRoleARNsASN1ExtensionOID : list Z := [1; 3; 9999; 1; 12]%Z.
Definition RenewableCertificateASN1ExtensionOID : list Z := [1; 3; 9999; 1; 13]%Z.
Definition GenerationASN1ExtensionOID : list Z := [1; 3; 9999; 1; 14]%Z.
Definition PrivateKeyPolicyASN1ExtensionOID : list Z := [1; 3; 9999; 1; 15]%Z.
Definition DatabaseServiceNameASN1ExtensionOID : list Z := [1; 3; 9999; 2; 1]%Z.
Definition DatabaseProtocolASN1ExtensionOID : list Z := [1; 3; 9999; 2; 2]%Z.
Definition DatabaseUsernameASN1ExtensionOID : list Z := [1; 3; 9999; 2; 3]%Z.
Definition DatabaseNameASN1ExtensionOID : list Z := [1; 3; 9999; 2; 4]%Z.
Definition DatabaseNamesASN1ExtensionOID : list Z := [1; 3; 9999; 2; 5]%Z.
Definition DatabaseUsersASN1ExtensionOID : list Z := [1; 3; 9999; 2; 6]%Z.
Definition ImpersonatorASN1ExtensionOID : list Z := [1; 3; 9999; 2; 7]%Z.
Definition ActiveRequestsASN1ExtensionOID : list Z := [1; 3; 9999; 2; 8]%Z.
Definition DisallowReissueASN1ExtensionOID : list Z := [1; 3; 9999; 2; 9]%Z.
Definition AllowedResourcesASN1ExtensionOID : list Z := [1; 3; 9999; 2; 10]%Z.
Definition SystemRolesASN1ExtensionOID : list Z := [1; 3; 9999; 2; 11]%Z.

(** ** Codecs *)

(** JSON of traits and of lists of strings, which keeps well-formed text, and
    the binary form of traits that an older certificate may have. *)
Definition utf8 (s : string) : Prop := utf8_string s = true.
Class IdentityCodec := {
  traits_json : UserTraits → result string;
  traits_of_json : string → result UserTraits;
  traits_of_proto : string → result UserTraits;
  strings_json : list string → result string;
  strings_of_json : string → result (list string)
}.
Class IdentityCodecLaws `{IdentityCodec} : Prop := {
  traits_read_back t s :
    (∀ k vs, t !! k = Some vs → utf8 k ∧ Forall utf8 vs) → traits_json t = Ok s → traits_of_json s = Ok t;
  strings_read_back l s : Forall utf8 l → strings_json l = Ok s → strings_of_json s = Ok l;
  strings_json_nonempty l s : strings_json l = Ok s → s ≠ ""
}.

Section identity.
Context `{IdentityCodec}.

Definition MarshalTraits (traits : UserTraits) : result string := traits_json traits.
Definition UnmarshalTraits (data : string) : result UserTraits :=
  match traits_of_json data with Ok traits => Ok traits | Err _ => traits_of_proto data end.

Definition ResourceIDsToString (ids : list ResourceID) : result string :=
  if (length ids =? 0)%nat then Ok "" else
  match strings_json (map ResourceIDToString ids) with
  | Ok s => Ok s
  | Err _ => Err (Error BadParameter "failed to marshal resource IDs to JSON: %v")
  end.
Fixpoint read_ids (raws : list string) : result (list ResourceID) :=
  match raws with
  | [] => Ok []
  | raw :: raws => id ← ResourceIDFromString raw; ids ← read_ids raws; Ok (id :: ids)
  end.
Definition ResourceIDsFromString (raw : string) : result (list ResourceID) :=
  if String.eqb raw "" then Ok [] else
  match strings_of_json raw with
  | Ok raws => read_ids raws
  | Err _ => Err (Error BadParameter "failed to parse resource IDs from JSON: %v")
  end.

(** ** Identity to name *)

Definition True_ : string := "true".
Definition attrs (oid : list Z) (vals : list string) : list AttributeTypeAndValue := map (fun v => MkAttr oid (VString v)) vals.
(** One attribute, unless the value is empty. *)
Definition attr_of (oid : list Z) (val : string) : list AttributeTypeAndValue :=
  if negb (String.eqb val "") then [MkAttr oid (VString val)] else [].
Definition flag_of (oid : list Z) (b : bool) : list AttributeTypeAndValue :=
  if b then [MkAttr oid (VString True_)] else [].

(** The extra names that cannot fail to be written, before the resources. *)
Definition extra_names (i : Identity) : list AttributeTypeAndValue := (
  attrs SystemRolesASN1ExtensionOID (SystemRoles i) ++
  attrs KubeUsersASN1ExtensionOID (KubernetesUsers i) ++
  attrs KubeGroupsASN1ExtensionOID (KubernetesGroups i) ++
  attr_of KubeClusterASN1ExtensionOID (KubernetesCluster i) ++
  attr_of AppSessionIDASN1ExtensionOID (app_SessionID (id_RouteToApp i)) ++
  attr_of AppPublicAddrASN1ExtensionOID (app_PublicAddr (id_RouteToApp i)) ++
  attr_of AppClusterNameASN1ExtensionOID (app_ClusterName (id_RouteToApp i)) ++
  attr_of AppNameASN1ExtensionOID (app_Name (id_RouteToApp i)) ++
  attr_of AppAWSRoleARNASN1ExtensionOID (app_AWSRoleARN (id_RouteToApp i)) ++
  attrs AWSRoleARNsASN1ExtensionOID (id_AWSRoleARNs i) ++
  flag_of RenewableCertificateASN1ExtensionOID (Renewable i) ++
  attr_of TeleportClusterASN1ExtensionOID (TeleportCluster i) ++
  attr_of MFAVerifiedASN1ExtensionOID (MFAVerified i) ++
  attr_of ClientIPASN1ExtensionOID (ClientIP i) ++
  attr_of DatabaseServiceNameASN1ExtensionOID (db_ServiceName (id_RouteToDatabase i)) ++
  attr_of DatabaseProtocolASN1ExtensionOID (db_Protocol (id_RouteToDatabase i)) ++
  attr_of DatabaseUsernameASN1ExtensionOID (db_Username (id_RouteToDatabase i)) ++
  attr_of DatabaseNameASN1ExtensionOID (db_Database (id_RouteToDatabase i)) ++
  attrs DatabaseNamesASN1ExtensionOID (id_DatabaseNames i) ++
  attrs DatabaseUsersASN1ExtensionOID (id_DatabaseUsers i) ++
  attr_of ImpersonatorASN1ExtensionOID (Impersonator i) ++
  attrs ActiveRequestsASN1ExtensionOID (ActiveRequests i) ++
  flag_of DisallowReissueASN1ExtensionOID (DisallowReissue i) ++
  (if (Generation i >? 0)%Z
   then [MkAttr GenerationASN1ExtensionOID (VString (string_of_bytes (format_uint (Generation i))))] else []))%list.

Definition Subject (i : Identity) : result Name :=
  rawTraits ← MarshalTraits (id_Traits i);
  allowed ← (if (length (AllowedResourceIDs i) =? 0)%nat then Ok [] else
    s ← ResourceIDsToString (AllowedResourceIDs i); Ok [MkAttr AllowedResourcesASN1ExtensionOID (VString s)]);
  let policy := if negb (String.eqb (id_PrivateKeyPolicy i) "")
    then [MkAttr PrivateKeyPolicyASN1ExtensionOID (VPolicy (id_PrivateKeyPolicy i))] else [] in
  Ok (MkName (Username i) (Groups i) (Usage i) (Principals i) [RouteToCluster i] [rawTraits] [] (extra_names i ++ allowed ++ policy)%list).

(** ** Name to identity *)

(** One turn of the loop over the attributes: an attribute of another type, or
    whose value is not a string, is skipped. *)
Definition attr_step (a : AttributeTypeAndValue) (i : Identity) : result Identity :=
  match attr_Value a with
  | VString val =>
      let typ oid := oid_Equal (attr_Type a) oid in
      if typ SystemRolesASN1ExtensionOID then Ok (set_SystemRoles (SystemRoles i ++ [val])%list i) else
      if typ KubeUsersASN1ExtensionOID then Ok (set_KubernetesUsers (KubernetesUsers i ++ [val])%list i) else
      if typ KubeGroupsASN1ExtensionOID then Ok (set_KubernetesGroups (KubernetesGroups i ++ [val])%list i) else
      if typ KubeClusterASN1ExtensionOID then Ok (set_KubernetesCluster val i) else
      if typ AppSessionIDASN1ExtensionOID then Ok (set_app (ltac:(with_field app_eta app_SessionID) val) i) else
      if typ AppPublicAddrASN1ExtensionOID then Ok (set_app (ltac:(with_field app_eta app_PublicAddr) val) i) else
      if typ AppClusterNameASN1ExtensionOID then Ok (set_app (ltac:(with_field app_eta app_ClusterName) val) i) else
      if typ AppNameASN1ExtensionOID then Ok (set_app (ltac:(with_field app_eta app_Name) val) i) else
      if typ AppAWSRoleARNASN1ExtensionOID then Ok (set_app (ltac:(with_field app_eta app_AWSRoleARN) val) i) else
      if typ AWSRoleARNsASN1ExtensionOID then Ok (set_AWSRoleARNs (id_AWSRoleARNs i ++ [val])%list i) else
      if typ RenewableCertificateASN1ExtensionOID then Ok (set_Renewable (String.eqb val True_) i) else
      if typ TeleportClusterASN1ExtensionOID then Ok (set_TeleportCluster val i) else
      if typ MFAVerifiedASN1ExtensionOID then Ok (set_MFAVerified val i) else
      if typ ClientIPASN1ExtensionOID then Ok (set_ClientIP val i) else
      if typ DatabaseServiceNameASN1ExtensionOID then Ok (set_db (ltac:(with_field db_eta db_ServiceName) val) i) else
      if typ DatabaseProtocolASN1ExtensionOID then Ok (set_db (ltac:(with_field db_eta db_Protocol) val) i) else
      if typ DatabaseUsernameASN1ExtensionOID then Ok (set_db (ltac:(with_field db_eta db_Username) val) i) else
      if typ DatabaseNameASN1ExtensionOID then Ok (set_db (ltac:(with_field db_eta db_Database) val) i) else
      if typ DatabaseNamesASN1ExtensionOID then Ok (set_DatabaseNames (id_DatabaseNames i ++ [val])%list i) else
      if typ DatabaseUsersASN1ExtensionOID then Ok (set_DatabaseUsers (id_DatabaseUsers i ++ [val])%list i) else
      if typ ImpersonatorASN1ExtensionOID then Ok (set_Impersonator val i) else
      if typ ActiveRequestsASN1ExtensionOID then Ok (set_ActiveRequests (ActiveRequests i ++ [val])%list i) else
      if typ DisallowReissueASN1ExtensionOID then Ok (set_DisallowReissue (String.eqb val True_) i) else
      if typ GenerationASN1ExtensionOID then
        generation ← ParseUint (bytes_of_string val); Ok (set_Generation generation i) else
      if typ AllowedResourcesASN1ExtensionOID then
        ids ← ResourceIDsFromString val; Ok (set_AllowedResourceIDs ids i) else
      if typ PrivateKeyPolicyASN1ExtensionOID then Ok (set_PrivateKeyPolicy val i) else
      Ok i
  | _ => Ok i
  end.
Fixpoint attr_loop (names : list AttributeTypeAndValue) (i : Identity) : result Identity :=
  match names with [] => Ok i | a :: names => i ← attr_step a i; attr_loop names i end.

Definition new_identity (subject : Name) (expires : Z) : Identity :=
  MkIdentity (CommonName subject) "" (Organization subject) [] (OrganizationalUnit subject) (Locality subject) [] []
    expires "" "" ∅ (MkRouteToApp "" "" "" "" "") "" (MkRouteToDatabase "" "" "" "") [] [] "" "" [] [] false false 0 [] "".
Definition FromSubject (subject : Name) (expires : Z) : result Identity :=
  let i := new_identity subject expires in
  let i := match StreetAddress subject with c :: _ => set_RouteToCluster c i | [] => i end in
  i ← match PostalCode subject with
      | raw :: _ => traits ← UnmarshalTraits raw; Ok (set_Traits traits i)
      | [] => Ok i
      end;
  i ← attr_loop (Names subject) i;
  _ ← Identity_CheckAndSetDefaults i;
  Ok i.
End identity.

(** ** Certificates *)

(** The value that is read of a value that was written. *)
Definition as_string (v : attr_value) : attr_value := match v with VPolicy s => VString s | v => v end.
Definition read_attr (a : AttributeTypeAndValue) : AttributeTypeAndValue := MkAttr (attr_Type a) (as_string (attr_Value a)).
(** An attribute of the program. *)
Definition own_oid (oid : list Z) : bool := match oid with 1 :: 3 :: 9999 :: _ => true | _ => false end%Z.
Definition own (a : AttributeTypeAndValue) : Prop := own_oid (attr_Type a) = true.
#[export] Instance own_dec a : Decision (own a) := ltac:(unfold own; apply _).

(** What the name read from a certificate has of the name the certificate was
    made for: the values of a standard attribute as a set, and the extra names
    among the names, in their order. *)
Record carried (n n' : Name) : Prop := {
  carried_CommonName : CommonName n' = CommonName n;
  carried_Organization : Organization n' ≡ₚ Organization n;
  carried_OrganizationalUnit : OrganizationalUnit n' ≡ₚ OrganizationalUnit n;
  carried_Locality : Locality n' ≡ₚ Locality n;
  carried_StreetAddress : StreetAddress n' ≡ₚ StreetAddress n;
  carried_PostalCode : PostalCode n' ≡ₚ PostalCode n;
  carried_Names : filter own (Names n') = map read_attr (ExtraNames n)
}.
(** [certified n]: the name read from a certificate made for [n]. An extra name
    of a standard attribute's type would replace it; the program's own types
    are none of these. *)
Class CertLibrary := { certified : Name → result Name }.
Class CertLibraryLaws `{CertLibrary} : Prop := {
  certified_carried n n' : Forall own (ExtraNames n) → certified n = Ok n' → carried n n'
}.

(** ** Reading the attributes back *)
Section reading.
Context `{IdentityCodec}.
Implicit Types (i j : Identity) (a : AttributeTypeAndValue).
#[local] Arguments attr_step : simpl never.

Lemma oid_Equal_true x y : oid_Equal x y = true → x = y.
Proof. revert y. induction x as [|a x IH]; intros [|b y]; cbn; try done. intros [?%Z.eqb_eq ?%IH]%andb_prop. congruence. Qed.

Lemma attr_step_other a i : ¬ own a → attr_step a i = Ok i.
Proof.
  intros Hown. unfold attr_step. destruct (attr_Value a); [|done..]. cbv zeta.
  repeat match goal with
  | |- context [if oid_Equal ?x ?y then _ else _] =>
      destruct (oid_Equal x y) eqn:E; [exfalso; apply Hown; unfold own; by rewrite (oid_Equal_true _ _ E)|clear E]
  end. done.
Qed.
Lemma attr_loop_app l1 l2 i : attr_loop (l1 ++ l2)%list i = (i' ← attr_loop l1 i; attr_loop l2 i').
Proof. revert i. induction l1 as [|a l1 IH]; intros i; cbn; [done|]. destruct (attr_step a i); cbn; [apply IH|done]. Qed.
Lemma attr_loop_own l i : attr_loop l i = attr_loop (filter own l) i.
Proof.
  revert i. induction l as [|a l IH]; intros i; [done|]. rewrite filter_cons. destruct (decide (own a)) as [Ho|Ho].
  - cbn. destruct (attr_step a i); cbn; [apply IH|done].
  - cbn. rewrite attr_step_other by done. cbn. apply IH.
Qed.

(** An attribute whose values are collected, one whose value is kept, and one
    that is set or not. *)
Lemma attrs_loop oid (get : Identity → list string) (put : list string → Identity → Identity) vals i :
  (∀ v j, attr_step (MkAttr oid (VString v)) j = Ok (put (get j ++ [v])%list j)) →
  (∀ x j, get (put x j) = x) → (∀ x y j, put x (put y j) = put x j) → (∀ j, put (get j) j = j) →
  attr_loop (attrs oid vals) i = Ok (put (get i ++ vals)%list i).
Proof.
  intros Hstep Hgp Hpp Hpg. revert i. induction vals as [|v vals IH]; intros i; cbn.
  - by rewrite app_nil_r, Hpg.
  - rewrite Hstep. cbn. rewrite IH, Hgp, Hpp, <- app_assoc. done.
Qed.
Lemma attr_of_loop oid (put : string → Identity → Identity) v i :
  (∀ j, attr_step (MkAttr oid (VString v)) j = Ok (put v j)) → put "" i = i → attr_loop (attr_of oid v) i = Ok (put v i).
Proof.
  intros Hstep Hi. unfold attr_of. destruct (String.eqb_spec v "") as [->|]; cbn; [by rewrite Hi|].
  rewrite Hstep. done.
Qed.
Lemma flag_of_loop oid (put : bool → Identity → Identity) b i :
  (∀ j, attr_step (MkAttr oid (VString True_)) j = Ok (put true j)) → put false i = i → attr_loop (flag_of oid b) i = Ok (put b i).
Proof. intros Hstep Hi. destruct b; cbn; [rewrite Hstep|]; done || by rewrite Hi. Qed.

Lemma read_attrs oid vals : map read_attr (attrs oid vals) = attrs oid vals.
Proof. unfold attrs. rewrite map_map. done. Qed.
Lemma read_attr_of oid v : map read_attr (attr_of oid v) = attr_of oid v.
Proof. unfold attr_of. by destruct (String.eqb v ""). Qed.
Lemma read_flag_of oid b : map read_attr (flag_of oid b) = flag_of oid b.
Proof. by destruct b. Qed.

(** A name has the attributes of an identity without those its certificate has
    elsewhere: what the loop collects is what the identity has. *)
Lemma extra_names_own i : Forall own (extra_names i).
Proof.
  assert (Hattrs : ∀ oid vals, own_oid oid = true → Forall own (attrs oid vals)).
  { intros oid vals Ho. apply Forall_map, Forall_true. intros v. exact Ho. }
  assert (Hattr : ∀ oid v, own_oid oid = true → Forall own (attr_of oid v)).
  { intros oid v Ho. unfold attr_of. destruct (negb _); repeat constructor. exact Ho. }
  assert (Hflag : ∀ oid b, own_oid oid = true → Forall own (flag_of oid b)).
  { intros oid [] Ho; repeat constructor. exact Ho. }
  unfold extra_names. rewrite !Forall_app. split_and!; try (apply Hattrs || apply Hattr || apply Hflag; reflexivity).
  destruct (_ >? _)%Z; repeat constructor.
Qed.
Lemma read_extra_names i : map read_attr (extra_names i) = extra_names i.
Proof.
  unfold extra_names. rewrite !map_app, !read_attrs, !read_attr_of, !read_flag_of. by destruct (_ >? _)%Z.
Qed.
Lemma generation_loop g j :
  (0 ≤ g < 2 ^ 64)%Z → Generation j = 0%Z →
  attr_loop (if (g >? 0)%Z
             then [MkAttr GenerationASN1ExtensionOID (VString (string_of_bytes (format_uint g)))] else []) j =
  Ok (set_Generation g j).
Proof.
  intros Hg Hj. destruct (Z.gtb_spec g 0) as [Hp|Hp]; cbn [attr_loop].
  - assert (Hstep : ∀ v, attr_step (MkAttr GenerationASN1ExtensionOID (VString v)) j =
      (n ← ParseUint (bytes_of_string v); Ok (set_Generation n j))) by reflexivity.
    rewrite Hstep, ParseUint_format_uint by done. done.
  - replace g with (Generation j) by lia. by destruct j.
Qed.

Lemma ResourceIDs_roundtrip `{!IdentityCodecLaws} ids s :
  ids ≠ [] → Forall (fun id => no_slash (rid_ClusterName id) ∧ resource_id_ok id ∧ utf8 (ResourceIDToString id)) ids →
  ResourceIDsToString ids = Ok s → ResourceIDsFromString s = Ok ids.
Proof.
  intros Hne Hall. unfold ResourceIDsToString. destruct ids as [|id0 ids0] eqn:Eids; [done|]. rewrite <- Eids in *.
  replace (length ids =? 0)%nat with false by by subst. destruct (strings_json _) as [s'|] eqn:Es; [|done]. intros [= ->].
  unfold ResourceIDsFromString. destruct (String.eqb_spec s "") as [->|_]; [by apply strings_json_nonempty in Es|].
  assert (Hutf : Forall utf8 (map ResourceIDToString ids)) by (apply Forall_map; eapply Forall_impl; [exact Hall|]; naive_solver).
  rewrite (strings_read_back _ _ Hutf Es). clear Es Hutf Eids id0 ids0 Hne. induction Hall as [|id ids (Hs & Hok & _) _ IH]; cbn; [done|].
  rewrite (proj2 (ResourceID_roundtrip id _ Hs Hok) eq_refl). cbn. rewrite IH. done.
Qed.

(** One segment of the attributes: the identity stays written out by field. *)
Ltac fields := cbv beta iota zeta delta
  [app_SessionID app_PublicAddr app_ClusterName app_Name app_AWSRoleARN db_ServiceName db_Protocol db_Username db_Database
   Username Impersonator Groups
   SystemRoles Usage Principals KubernetesGroups KubernetesUsers Expires RouteToCluster KubernetesCluster id_Traits id_RouteToApp TeleportCluster id_RouteToDatabase id_DatabaseNames id_DatabaseUsers MFAVerified
   ClientIP id_AWSRoleARNs ActiveRequests DisallowReissue Renewable Generation AllowedResourceIDs id_PrivateKeyPolicy
   set_Groups set_Usage set_Principals set_Expires set_RouteToCluster set_Traits set_SystemRoles set_KubernetesUsers set_KubernetesGroups set_KubernetesCluster set_AWSRoleARNs
   set_Renewable set_TeleportCluster set_MFAVerified set_ClientIP set_DatabaseNames set_DatabaseUsers set_Impersonator set_ActiveRequests set_DisallowReissue set_Generation
   set_AllowedResourceIDs set_PrivateKeyPolicy set_app set_db app_eta db_eta identity_eta app result_bind mbind].
Ltac segment l := rewrite attr_loop_app, l by (reflexivity || intros []; reflexivity); fields.
Ltac collected oid get put := segment (attrs_loop oid get put).
Ltac kept oid put := segment (attr_of_loop oid put).
Ltac flagged oid put := segment (flag_of_loop oid put).

(** The identity without what the attributes hold. *)
Definition without_attrs (i : Identity) : Identity :=
  MkIdentity (Username i) "" (Groups i) [] (Usage i) (Principals i) [] [] (Expires i) (RouteToCluster i) ""
    (id_Traits i) (MkRouteToApp "" "" "" "" "") "" (MkRouteToDatabase "" "" "" "") [] [] "" "" [] [] false false 0 [] "".
Lemma extra_names_loop i :
  (0 ≤ Generation i < 2 ^ 64)%Z →
  attr_loop (extra_names i) (without_attrs i) = Ok (set_AllowedResourceIDs [] (set_PrivateKeyPolicy "" i)).
Proof.
  destruct i as [? ? ? ? ? ? ? ? ? ? ? ? [] ? [] ? ? ? ? ? ? ? ? ? ? ?]. intros Hg.
  unfold extra_names, without_attrs. fields.
  collected SystemRolesASN1ExtensionOID SystemRoles set_SystemRoles.
  collected KubeUsersASN1ExtensionOID KubernetesUsers set_KubernetesUsers.
  collected KubeGroupsASN1ExtensionOID KubernetesGroups set_KubernetesGroups.
  kept KubeClusterASN1ExtensionOID set_KubernetesCluster.
  kept AppSessionIDASN1ExtensionOID (λ v, set_app (ltac:(with_field app_eta app_SessionID) v)).
  kept AppPublicAddrASN1ExtensionOID (λ v, set_app (ltac:(with_field app_eta app_PublicAddr) v)).
  kept AppClusterNameASN1ExtensionOID (λ v, set_app (ltac:(with_field app_eta app_ClusterName) v)).
  kept AppNameASN1ExtensionOID (λ v, set_app (ltac:(with_field app_eta app_Name) v)).
  kept AppAWSRoleARNASN1ExtensionOID (λ v, set_app (ltac:(with_field app_eta app_AWSRoleARN) v)).
  collected AWSRoleARNsASN1ExtensionOID id_AWSRoleARNs set_AWSRoleARNs.
  flagged RenewableCertificateASN1ExtensionOID set_Renewable.
  kept TeleportClusterASN1ExtensionOID set_TeleportCluster.
  kept MFAVerifiedASN1ExtensionOID set_MFAVerified.
  kept ClientIPASN1ExtensionOID set_ClientIP.
  kept DatabaseServiceNameASN1ExtensionOID (λ v, set_db (ltac:(with_field db_eta db_ServiceName) v)).
  kept DatabaseProtocolASN1ExtensionOID (λ v, set_db (ltac:(with_field db_eta db_Protocol) v)).
  kept DatabaseUsernameASN1ExtensionOID (λ v, set_db (ltac:(with_field db_eta db_Username) v)).
  kept DatabaseNameASN1ExtensionOID (λ v, set_db (ltac:(with_field db_eta db_Database) v)).
  collected DatabaseNamesASN1ExtensionOID id_DatabaseNames set_DatabaseNames.
  collected DatabaseUsersASN1ExtensionOID id_DatabaseUsers set_DatabaseUsers.
  kept ImpersonatorASN1ExtensionOID set_Impersonator.
  collected ActiveRequestsASN1ExtensionOID ActiveRequests set_ActiveRequests.
  flagged DisallowReissueASN1ExtensionOID set_DisallowReissue.
  rewrite generation_loop by done. reflexivity.
Qed.

Definition traits_utf8 (t : UserTraits) : Prop := ∀ k vs, t !! k = Some vs → utf8 k ∧ Forall utf8 vs.
Definition readable_id (id : ResourceID) : Prop :=
  no_slash (rid_ClusterName id) ∧ resource_id_ok id ∧ utf8 (ResourceIDToString id).

Lemma allowed_loop `{!IdentityCodecLaws} ids allowed j :
  Forall readable_id ids → AllowedResourceIDs j = [] →
  (if (length ids =? 0)%nat then Ok [] else
    s ← ResourceIDsToString ids; Ok [MkAttr AllowedResourcesASN1ExtensionOID (VString s)]) = Ok allowed →
  Forall own allowed ∧ map read_attr allowed = allowed ∧ attr_loop allowed j = Ok (set_AllowedResourceIDs ids j).
Proof.
  intros Hids Hj. destruct (Nat.eqb_spec (length ids) 0) as [Hl|Hl].
  { intros [= <-]. apply nil_length_inv in Hl as ->. split_and!; [constructor|done|]. cbn. rewrite <- Hj. by destruct j. }
  intros (s & Hs & [= <-])%result_bind_Ok. split_and!; [by repeat constructor|done|]. cbn [attr_loop].
  assert (Hstep : attr_step (MkAttr AllowedResourcesASN1ExtensionOID (VString s)) j =
    (ids ← ResourceIDsFromString s; Ok (set_AllowedResourceIDs ids j))) by reflexivity.
  rewrite Hstep, (ResourceIDs_roundtrip ids); [done|by intros ->|done..].
Qed.

(** The loop over what is read of a name's extra names gives the identity the
    name was made for. *)
Definition policy_attr (i : Identity) : list AttributeTypeAndValue :=
  if negb (String.eqb (id_PrivateKeyPolicy i) "")
  then [MkAttr PrivateKeyPolicyASN1ExtensionOID (VPolicy (id_PrivateKeyPolicy i))] else [].
Lemma names_loop `{!IdentityCodecLaws} i allowed :
  (0 ≤ Generation i < 2 ^ 64)%Z → Forall readable_id (AllowedResourceIDs i) →
  (if (length (AllowedResourceIDs i) =? 0)%nat then Ok [] else
    s ← ResourceIDsToString (AllowedResourceIDs i); Ok [MkAttr AllowedResourcesASN1ExtensionOID (VString s)]) = Ok allowed →
  Forall own (extra_names i ++ allowed ++ policy_attr i) ∧
  attr_loop (map read_attr (extra_names i ++ allowed ++ policy_attr i)) (without_attrs i) = Ok i.
Proof.
  intros Hg Hids Hal.
  destruct (allowed_loop _ _ (set_AllowedResourceIDs [] (set_PrivateKeyPolicy "" i)) Hids eq_refl Hal) as (Hown & Hread & Hloop).
  split.
  - rewrite !Forall_app. split_and!; [apply extra_names_own|done|]. unfold policy_attr. by destruct (negb _); repeat constructor.
  - rewrite !map_app, read_extra_names, Hread, !attr_loop_app, extra_names_loop by done. cbn [mbind result_bind].
    rewrite attr_loop_app, Hloop. cbn [mbind result_bind].
    replace (map read_attr (policy_attr i)) with (attr_of PrivateKeyPolicyASN1ExtensionOID (id_PrivateKeyPolicy i))
      by (unfold policy_attr, attr_of; by destruct (negb _)).
    rewrite (attr_of_loop _ set_PrivateKeyPolicy) by (reflexivity || intros []; reflexivity). by destruct i.
Qed.

(** C17: what a certificate made for an identity says is that identity: every field
    but the expiry, which the certificate's own is, with the groups, usages and
    principals in some order. *)
Theorem Identity_roundtrip `{!IdentityCodecLaws} `{CertLibraryLaws} i n n' expires :
  Identity_CheckAndSetDefaults i = Ok () → (0 ≤ Generation i < 2 ^ 64)%Z →
  traits_utf8 (id_Traits i) → Forall readable_id (AllowedResourceIDs i) →
  Subject i = Ok n → certified n = Ok n' →
  ∃ groups usage principals,
    groups ≡ₚ Groups i ∧ usage ≡ₚ Usage i ∧ principals ≡ₚ Principals i ∧
    FromSubject n' expires = Ok (set_Groups groups (set_Usage usage (set_Principals principals (set_Expires expires i)))).
Proof.
  intros Hok Hg Ht Hids. unfold Subject. intros (raw & Hraw & (allowed & Hal & [= <-])%result_bind_Ok)%result_bind_Ok Hc.
  fold (policy_attr i) in Hc. destruct (names_loop i allowed Hg Hids Hal) as [Hown _]. apply certified_carried in Hc; [|exact Hown].
  destruct Hc as [Hcn Ho Hou Hloc Hst%Permutation_singleton_r Hp%Permutation_singleton_r Hn].
  cbn [CommonName Organization OrganizationalUnit Locality ExtraNames] in *.
  exists (Organization n'), (OrganizationalUnit n'), (Locality n'). split_and!; [done..|].
  set (j := set_Groups _ _). destruct (names_loop j allowed Hg Hids Hal) as [_ Hloop].
  unfold FromSubject, UnmarshalTraits. rewrite Hst, Hp, (traits_read_back _ _ Ht Hraw). cbn [mbind result_bind].
  rewrite attr_loop_own, Hn. change (extra_names i) with (extra_names j). change (policy_attr i) with (policy_attr j).
  match goal with |- context [attr_loop _ ?k] => replace k with (without_attrs j) end.
  2:{ unfold new_identity. by rewrite Hcn. }
  rewrite Hloop. cbn [mbind result_bind].
  replace (Identity_CheckAndSetDefaults j) with (Identity_CheckAndSetDefaults i); [by rewrite Hok|].
  unfold Identity_CheckAndSetDefaults. cbn. by rewrite (Permutation_length Ho).
Qed.
End reading.
