(* ===== verification/Users.v ===== *)
(** * Users and their login attempts (lib/services/local/users.go, api/types/user.go)

    The part of the identity service that keeps users without their secrets,
    the attempts of users to log in, and their attempts to recover an account.
    A user is read here without secrets, so the field [LocalAuth] is nil
    throughout and is not part of the model. *)

From Stdlib Require Import Ascii String.
From S2P Require Import Prelude.
From S2P Require Import Keys.
From S2P Require Import Backend.
From S2P Require Import Labels.
From S2P Require Import Role.
From S2P Require Import Traits.
From S2P Require Import RoleSet.
From S2P Require Import DynamicAccess.
From S2P Require Import Identity.
Local Open Scope string_scope.

(** ** Data *)

Record ExternalIdentity := MkExternalIdentity { ei_ConnectorID : string; ei_Username : string }.
Record LoginStatus := MkLoginStatus {
  IsLocked : bool; LockedMessage : string; LockedTime : Z; LockExpires : Z; RecoveryAttemptLockExpires : Z
}.
Record ConnectorRef := MkConnectorRef { cr_Type : string; cr_ID : string; cr_Identity : string }.
Record CreatedBy := MkCreatedBy { cb_Connector : option ConnectorRef; cb_Time : Z; cb_User : string }.
Record UserV2 := MkUserV2 {
  u_Kind : string; u_SubKind : string; u_Version : string; u_Metadata : Metadata;
  OIDCIdentities : list ExternalIdentity; SAMLIdentities : list ExternalIdentity; GithubIdentities : list ExternalIdentity;
  u_Roles : list string; u_Traits : UserTraits; Status : LoginStatus; u_Expires : Z; u_CreatedBy : CreatedBy
}.
Definition user_eta (u : UserV2) : UserV2 :=
  MkUserV2 (u_Kind u) (u_SubKind u) (u_Version u) (u_Metadata u) (OIDCIdentities u) (SAMLIdentities u) (GithubIdentities u)
    (u_Roles u) (u_Traits u) (Status u) (u_Expires u) (u_CreatedBy u).
Definition set_Kind : string → UserV2 → UserV2 := ltac:(with_field user_eta u_Kind).
Definition set_Version : string → UserV2 → UserV2 := ltac:(with_field user_eta u_Version).
Definition SetMetadata : Metadata → UserV2 → UserV2 := ltac:(with_field user_eta u_Metadata).
Definition set_Roles : list string → UserV2 → UserV2 := ltac:(with_field user_eta u_Roles).
Definition SetTraits : UserTraits → UserV2 → UserV2 := ltac:(with_field user_eta u_Traits).
Definition set_Status : LoginStatus → UserV2 → UserV2 := ltac:(with_field user_eta Status).
Definition SetCreatedBy : CreatedBy → UserV2 → UserV2 := ltac:(with_field user_eta u_CreatedBy).

Definition u_Name (u : UserV2) : string := md_Name (u_Metadata u).
Definition SetResourceID (id : Z) (u : UserV2) : UserV2 :=
  let m := u_Metadata u in
  SetMetadata (MkMetadata (md_Name m) (md_Namespace m) (md_Description m) (md_Labels m) (md_Expires m) id) u.
Definition SetExpiry (expires : Z) (u : UserV2) : UserV2 :=
  let m := u_Metadata u in
  SetMetadata (MkMetadata (md_Name m) (md_Namespace m) (md_Description m) (md_Labels m) (Some expires) (md_ID m)) u.
Definition Expiry (u : UserV2) : Z :=
  match md_Expires (u_Metadata u) with
  | Some t => if is_zero_time t then u_Expires u else t
  | None => u_Expires u
  end.

Definition ConnectorRef_IsSameProvider (r : ConnectorRef) (other : option ConnectorRef) : bool :=
  match other with
  | Some o => String.eqb (cr_Type o) (cr_Type r) && String.eqb (cr_ID o) (cr_ID r)
  | None => false
  end.
Definition CreatedBy_IsEmpty (c : CreatedBy) : bool := String.eqb (cb_User c) "".

(** ** Methods of a user *)

Definition ExternalIdentity_Check (i : ExternalIdentity) : result unit :=
  if String.eqb (ei_ConnectorID i) "" then Err (Error BadParameter "ConnectorID: missing value") else
  if String.eqb (ei_Username i) "" then Err (Error BadParameter "Username: missing username") else Ok ().
Fixpoint check_identities (ids : list ExternalIdentity) : result unit :=
  match ids with [] => Ok () | id :: ids => _ ← ExternalIdentity_Check id; check_identities ids end.

Definition setStaticFields (u : UserV2) : UserV2 := set_Version "v2" (set_Kind "user" u).
Definition CheckAndSetDefaults (u : UserV2) : result UserV2 :=
  let u := setStaticFields u in
  m ← Metadata_CheckAndSetDefaults (u_Metadata u);
  let u := SetMetadata m u in
  _ ← check_identities (OIDCIdentities u);
  Ok u.
Definition NewUser (name : string) : result UserV2 :=
  CheckAndSetDefaults (MkUserV2 "" "" "" (MkMetadata name "" "" ∅ None 0) [] [] [] [] ∅
    (MkLoginStatus false "" zero_time zero_time zero_time) zero_time (MkCreatedBy None zero_time "")).

Definition SetRoles (roles : list string) : UserV2 → UserV2 := set_Roles (Deduplicate roles).
Definition AddRole (name : string) (u : UserV2) : UserV2 :=
  if existsb (fun r => String.eqb r name) (u_Roles u) then u else set_Roles (u_Roles u ++ [name])%list u.
Definition setTrait (trait : string) (list : list string) (u : UserV2) : UserV2 :=
  SetTraits (<[ trait := Deduplicate list ]> (u_Traits u)) u.
Definition getTrait (u : UserV2) (trait : string) : list string := default [] (u_Traits u !! trait).
Definition SetLogins := setTrait "logins".
Definition SetDatabaseUsers := setTrait "db_users".
Definition SetDatabaseNames := setTrait "db_names".
Definition SetKubeUsers := setTrait "kubernetes_users".
Definition SetKubeGroups := setTrait "kubernetes_groups".
Definition SetWindowsLogins := setTrait "windows_logins".
Definition SetAWSRoleARNs := setTrait "aws_role_arns".
Definition GetLogins (u : UserV2) := getTrait u "logins".
Definition GetDatabaseUsers (u : UserV2) := getTrait u "db_users".
Definition GetDatabaseNames (u : UserV2) := getTrait u "db_names".
Definition GetKubeUsers (u : UserV2) := getTrait u "kubernetes_users".
Definition GetKubeGroups (u : UserV2) := getTrait u "kubernetes_groups".
Definition GetWindowsLogins (u : UserV2) := getTrait u "windows_logins".
Definition GetAWSRoleARNs (u : UserV2) := getTrait u "aws_role_arns".

(** The time of the lock itself is never set. *)
Definition SetLocked (until : Z) (reason : string) (u : UserV2) : UserV2 :=
  set_Status (MkLoginStatus true reason (LockedTime (Status u)) until (RecoveryAttemptLockExpires (Status u))) u.
Definition SetRecoveryAttemptLockExpires (until : Z) (reason : string) (u : UserV2) : UserV2 :=
  let s := Status u in
  SetLocked until reason (set_Status (MkLoginStatus (IsLocked s) (LockedMessage s) (LockedTime s) (LockExpires s) until) u).
Definition ResetLocks (u : UserV2) : UserV2 :=
  set_Status (MkLoginStatus false "" (LockedTime (Status u)) zero_time zero_time) u.

(** ** Attempts *)

Record LoginAttempt := MkLoginAttempt { la_Time : Z; la_Success : bool }.
Record RecoveryAttempt := MkRecoveryAttempt { ra_Time : Z; ra_Expires : Z }.

Definition LoginAttempt_Check (a : LoginAttempt) : result unit :=
  if is_zero_time (la_Time a) then Err (Error BadParameter "missing parameter time") else Ok ().
Definition RecoveryAttempt_Check (a : RecoveryAttempt) : result unit :=
  if is_zero_time (ra_Time a) then Err (Error BadParameter "missing parameter time") else
  if is_zero_time (ra_Expires a) then Err (Error BadParameter "missing parameter expires") else Ok ().

(** From the last attempt back: [x] failures in a row. *)
Fixpoint last_failed (x : Z) (failed : Z) (rattempts : list LoginAttempt) : bool :=
  match rattempts with
  | [] => false
  | a :: rattempts =>
      if negb (la_Success a) then
        let failed := (failed + 1)%Z in
        if (failed >=? x)%Z then true else last_failed x failed rattempts
      else false
  end.
Definition LastFailed (x : Z) (attempts : list LoginAttempt) : bool := last_failed x 0 (rev attempts).
Fixpoint max_failed (maxAttempts now failed : Z) (rattempts : list RecoveryAttempt) : bool :=
  match rattempts with
  | [] => false
  | a :: rattempts =>
      let failed := if (ra_Expires a >? now)%Z then (failed + 1)%Z else failed in
      if (failed >=? maxAttempts)%Z then true else max_failed maxAttempts now failed rattempts
  end.
Definition IsMaxFailedRecoveryAttempt (maxAttempts : Z) (attempts : list RecoveryAttempt) (now : Z) : bool :=
  max_failed maxAttempts now 0 (rev attempts).

(** ** Storage *)

Definition webPrefix : string := "web".
Definition usersPrefix : string := "users".
Definition attemptsPrefix : string := "attempts".
Definition recoveryAttemptsPrefix : string := "recoveryattempts".
Definition userKey (user : string) : bytes := path [webPrefix; usersPrefix; user; paramsPrefix].
Definition attemptsKey (user : string) : bytes := path [webPrefix; usersPrefix; user; attemptsPrefix].
Definition attemptKey (user id : string) : bytes := path [webPrefix; usersPrefix; user; attemptsPrefix; id].
Definition recoveryAttemptsKey (user : string) : bytes := path [webPrefix; usersPrefix; user; recoveryAttemptsPrefix].
Definition recoveryAttemptKey (user id : string) : bytes := path [webPrefix; usersPrefix; user; recoveryAttemptsPrefix; id].

(** JSON of a user: the version that its header names, and the user. The
    namespace is not written, and text that is not well formed is replaced. *)
Class UserCodec := {
  user_version : bytes → result string;
  user_json : UserV2 → bytes;
  user_of_json : bytes → result UserV2
}.
Definition without_namespace (u : UserV2) : UserV2 :=
  let m := u_Metadata u in
  SetMetadata (MkMetadata (md_Name m) "" (md_Description m) (md_Labels m) (md_Expires m) (md_ID m)) u.
Definition identity_strings (i : ExternalIdentity) : list string := [ei_ConnectorID i; ei_Username i].
Definition user_strings (u : UserV2) : list string :=
  [u_Kind u; u_SubKind u; u_Version u; u_Name u; md_Description (u_Metadata u); LockedMessage (Status u); cb_User (u_CreatedBy u)] ++
  concat (map (fun p => [p.1; p.2]) (map_to_list (md_Labels (u_Metadata u)))) ++
  concat (map identity_strings (OIDCIdentities u ++ SAMLIdentities u ++ GithubIdentities u)) ++
  u_Roles u ++ concat (map (fun p => p.1 :: p.2) (map_to_list (u_Traits u))) ++
  match cb_Connector (u_CreatedBy u) with Some c => [cr_Type c; cr_ID c; cr_Identity c] | None => [] end.
Class UserCodecLaws `{UserCodec} : Prop := {
  user_version_back u : Forall utf8 (user_strings u) → user_version (user_json u) = Ok (u_Version u);
  user_read_back u : Forall utf8 (user_strings u) → user_of_json (user_json u) = Ok (without_namespace u)
}.

Section service.
Context `{UserCodec} `{Codec LoginAttempt} `{Codec RecoveryAttempt} `{GoSort} `{BackendLaws B}.

Definition UnmarshalUser (data : bytes) (id expires : Z) : result UserV2 :=
  version ← user_version data;
  if String.eqb version "v2" then
    match user_of_json data with
    | Err _ => Err (Error BadParameter "err")
    | Ok u =>
        u ← CheckAndSetDefaults u;
        let u := if (id =? 0)%Z then u else SetResourceID id u in
        Ok (if is_zero_time expires then u else SetExpiry expires u)
    end
  else Err (Error BadParameter "user resource version %v is not supported").
(** Marshalling validates the user it is given, and leaves it so; the record
    identifier is not stored with the value. *)
Definition MarshalUser (u : UserV2) : result (bytes * UserV2) :=
  u ← CheckAndSetDefaults u; Ok (user_json (SetResourceID 0 u), u).

Definition unmarshal_item (item : Item) : result UserV2 := UnmarshalUser (it_Value item) (it_ID item) (it_Expires item).
(** The item a user is written as. *)
Definition user_item (u : UserV2) (id : Z) : result Item :=
  u ← CheckAndSetDefaults u;
  '(value, u) ← MarshalUser u;
  Ok (mkItem (userKey (u_Name u)) value (Expiry u) id 0).

(** Every error of the read is reported as a user that is not found. *)
Definition GetUser (now : Z) (user : string) : goM B (result UserV2) :=
  if String.eqb user "" then mret (Err (Error BadParameter "missing user name")) else
  r ← bk_Get now (userKey user);
  mret (match r with Err _ => Err (Error NotFound "user %q is not found") | Ok item => unmarshal_item item end).

Definition answer {A} (r : result A) : result unit := match r with Ok _ => Ok () | Err e => Err e end.
Definition CreateUser (now now' : Z) (u : UserV2) : goM B (result unit) :=
  match CheckAndSetDefaults u with
  | Err e => mret (Err e)
  | Ok u =>
      r ← GetUser now (u_Name u);
      match r with
      | Ok _ => mret (Err (Error AlreadyExists "user %q already registered"))
      | Err e =>
          if negb (has_kind NotFound e) then mret (Err e) else
          match user_item u 0 with
          | Err e => mret (Err e)
          | Ok item => r ← bk_Create now' item; mret (answer r)
          end
      end
  end.
Definition UpdateUser (now now' : Z) (u : UserV2) : goM B (result unit) :=
  match CheckAndSetDefaults u with
  | Err e => mret (Err e)
  | Ok u =>
      r ← GetUser now (u_Name u);
      match r with
      | Err e => mret (Err e)
      | Ok _ =>
          match user_item u (md_ID (u_Metadata u)) with
          | Err e => mret (Err e)
          | Ok item => r ← bk_Update now' item; mret (answer r)
          end
      end
  end.
Definition UpsertUser (now : Z) (u : UserV2) : goM B (result unit) :=
  match user_item u (md_ID (u_Metadata u)) with
  | Err e => mret (Err e)
  | Ok item => r ← bk_Put now item; mret (answer r)
  end.
Definition CompareAndSwapUser (now : Z) (new existing : UserV2) : goM B (result unit) :=
  match (newItem ← user_item new (md_ID (u_Metadata new));
         '(existingValue, existing) ← MarshalUser existing;
         Ok (mkItem (userKey (u_Name existing)) existingValue (Expiry existing) (md_ID (u_Metadata existing)) 0, newItem)) with
  | Err e => mret (Err e)
  | Ok (existingItem, newItem) =>
      r ← bk_CompareAndSwap now existingItem newItem;
      mret (match r with
            | Ok _ => Ok ()
            | Err e => Err (if has_kind CompareFailed e then Error CompareFailed "user %v did not match expected existing value" else e)
            end)
  end.
Definition GetUsers (now : Z) : goM B (result (list UserV2)) :=
  let startKey := path [webPrefix; usersPrefix] in
  r ← bk_GetRange now startKey (RangeEnd startKey) NoLimit;
  mret (match r with Err e => Err e | Ok items => matching unmarshal_item (fun _ => true) items end).
Definition DeleteUser (now now' : Z) (user : string) : goM B (result unit) :=
  r ← GetUser now user;
  match r with
  | Err e => mret (Err e)
  | Ok _ =>
      let startKey := ExactKey (map bytes_of_string [webPrefix; usersPrefix; user]) in
      bk_DeleteRange now' startKey (RangeEnd startKey)
  end.
Definition DeleteAllUsers (now : Z) : goM B (result unit) :=
  let startKey := path [webPrefix; usersPrefix] in bk_DeleteRange now startKey (RangeEnd startKey).

(** [cmp.Equal] of an identity and a pointer to one: values of different types
    are not equal. *)
Definition cmp_Equal_pointer (uid id : ExternalIdentity) : bool := false.
Definition has_identity (ids : UserV2 → list ExternalIdentity) (id : ExternalIdentity) (u : UserV2) : bool :=
  existsb (fun uid => cmp_Equal_pointer uid id) (ids u).
Definition GetUserByIdentity (ids : UserV2 → list ExternalIdentity) (now : Z) (id : ExternalIdentity) : goM B (result UserV2) :=
  r ← GetUsers now;
  mret (users ← r;
        match List.find (has_identity ids id) users with
        | Some u => Ok u
        | None => Err (Error NotFound "user with identity %q not found")
        end).
Definition GetUserByOIDCIdentity := GetUserByIdentity OIDCIdentities.
Definition GetUserBySAMLIdentity := GetUserByIdentity SAMLIdentities.
Definition GetUserByGithubIdentity := GetUserByIdentity GithubIdentities.

(** [now] is read for the expiry, [now'] by the backend; [id] is a new identifier. *)
Definition AddUserLoginAttempt (now now' : Z) (id user : string) (attempt : LoginAttempt) (ttl : Z) : goM B (result unit) :=
  match LoginAttempt_Check attempt with
  | Err e => mret (Err e)
  | Ok _ =>
      r ← bk_Put now' (mkItem (attemptKey user id) (encode_json attempt) (Keys.Expiry now ttl) 0 0);
      mret (answer r)
  end.
Fixpoint decode_all {A} `{Codec A} (items : list Item) : result (list A) :=
  match items with
  | [] => Ok []
  | item :: items => a ← decode_json (it_Value item); rest ← decode_all items; Ok (a :: rest)
  end.
Definition GetUserLoginAttempts (now : Z) (user : string) : goM B (result (list LoginAttempt)) :=
  r ← bk_GetRange now (attemptsKey user) (RangeEnd (attemptsKey user)) NoLimit;
  mret (items ← r; out ← decode_all items; Ok (sort_Slice (fun a b => (la_Time a <? la_Time b)%Z) out)).
Definition DeleteUserLoginAttempts (now : Z) (user : string) : goM B (result unit) :=
  if String.eqb user "" then mret (Err (Error BadParameter "missing username"))
  else bk_DeleteRange now (attemptsKey user) (RangeEnd (attemptsKey user)).

Definition CreateUserRecoveryAttempt (now : Z) (id user : string) (attempt : RecoveryAttempt) : goM B (result unit) :=
  if String.eqb user "" then mret (Err (Error BadParameter "missing parameter user")) else
  match RecoveryAttempt_Check attempt with
  | Err e => mret (Err e)
  | Ok _ =>
      r ← bk_Create now (mkItem (recoveryAttemptKey user id) (encode_json attempt) (ra_Expires attempt) 0 0);
      mret (answer r)
  end.
Definition GetUserRecoveryAttempts (now : Z) (user : string) : goM B (result (list RecoveryAttempt)) :=
  if String.eqb user "" then mret (Err (Error BadParameter "missing parameter user")) else
  r ← bk_GetRange now (recoveryAttemptsKey user) (RangeEnd (recoveryAttemptsKey user)) NoLimit;
  mret (items ← r; out ← decode_all items; Ok (sort_Slice (fun a b => (ra_Time a <? ra_Time b)%Z) out)).
Definition DeleteUserRecoveryAttempts (now : Z) (user : string) : goM B (result unit) :=
  if String.eqb user "" then mret (Err (Error BadParameter "missing parameter user"))
  else bk_DeleteRange now (recoveryAttemptsKey user) (RangeEnd (recoveryAttemptsKey user)).
End service.
