(* ===== verification/UserLock.v ===== *)
(** * Locking users out (lib/auth/auth.go, lib/auth/accountrecovery.go)

    An authentication runs under the lock of its user: failures are counted in
    the backend, and too many lock the user for a while. *)

From Stdlib Require Import Ascii String.
From S2P Require Import Prelude.
From S2P Require Import Keys.
From S2P Require Import Backend.
From S2P Require Import Labels.
From S2P Require Import Role.
From S2P Require Import Traits.
From S2P Require Import RoleSet.
From S2P Require Import DynamicAccess.
From S2P Require Import Identity.
From S2P Require Import Users.
Local Open Scope string_scope.

Definition MaxLoginAttempts : Z := 5.
Definition MaxAccountRecoveryAttempts : Z := 3.
Definition AccountLockInterval : Z := (20 * Minute)%Z.
Definition AttemptTTL : Z := (Minute * 30)%Z.
Definition err_max_attempts : error := Error AccessDenied "too many incorrect attempts, please try again later".

(** [trace.IsConnectionProblem] of an error that may be nil. *)
Definition IsConnectionProblem (err : option error) : bool :=
  match err with Some e => has_kind ConnectionProblem e | None => false end.

Section server.
Context `{UserCodec} `{Codec LoginAttempt} `{Codec RecoveryAttempt} `{GoSort} `{BackendLaws B}.

(** The lock that a status stands for, when the clock reads [now] and then
    [now']: recovery locks first. *)
Definition locked (now now' : Z) (status : LoginStatus) : bool :=
  IsLocked status && ((RecoveryAttemptLockExpires status >? now)%Z || (LockExpires status >? now')%Z).

(** The attempt that failed with [fnErr] is recorded; [clock] gives the readings
    of the clock from the fourth on. *)
Definition record_failure (clock : nat → Z) (id username : string) (user : UserV2) (fnErr : error) : goM B (result unit) :=
  let attempt := MkLoginAttempt (clock 4) false in
  r ← AddUserLoginAttempt (clock 5) (clock 6) id username attempt AttemptTTL;
  match r with
  | Err _ => mret (Err fnErr)
  | Ok _ =>
      r ← GetUserLoginAttempts (clock 7) username;
      match r with
      | Err _ => mret (Err fnErr)
      | Ok loginAttempts =>
          if negb (LastFailed MaxLoginAttempts loginAttempts) then mret (Err fnErr) else
          let lockUntil := (clock 8%nat + AccountLockInterval)%Z in
          let user := SetLocked lockUntil "user has exceeded maximum failed login attempts" user in
          r ← UpsertUser (clock 9) user;
          match r with Err _ => mret (Err fnErr) | Ok _ => mret (Err err_max_attempts) end
      end
  end.

(** The error that is tested for a connection problem is the one of the read of
    the user, which is nil by then. *)
Definition WithUserLock (clock : nat → Z) (id username : string) (authenticateFn : goM B (result unit)) : goM B (result unit) :=
  r ← GetUser (clock 1) username;
  match r with
  | Err e => if has_kind NotFound e then authenticateFn else mret (Err e)
  | Ok user =>
      let err : option error := None in
      if locked (clock 2) (clock 3) (Status user) then mret (Err err_max_attempts) else
      r ← authenticateFn;
      match r with
      | Ok _ =>
          r ← DeleteUserLoginAttempts (clock 4) username;
          mret (match r with Err e => if has_kind NotFound e then Ok () else Err e | Ok _ => Ok () end)
      | Err fnErr =>
          if IsConnectionProblem err then mret (Err fnErr) else record_failure clock id username user fnErr
      end
  end.

(** The time until which the user is locked, once too many attempts to recover
    the account failed. *)
Definition recordFailedRecoveryAttempt (clock : nat → Z) (id username : string) : goM B (result (option Z)) :=
  let now := clock 1 in
  let attempt := MkRecoveryAttempt now (now + AttemptTTL) in
  r ← CreateUserRecoveryAttempt (clock 2) id username attempt;
  match r with
  | Err e => mret (Err e)
  | Ok _ =>
      r ← GetUserRecoveryAttempts (clock 3) username;
      mret (attempts ← r;
            Ok (if IsMaxFailedRecoveryAttempt MaxAccountRecoveryAttempts attempts now
                then Some (clock 4%nat + AccountLockInterval)%Z else None))
  end.

(** ** Properties *)
Implicit Types (b : B) (u : UserV2) (item : Item) (m : gmap bytes Item).

Lemma last_failed_all x failed l :
  Forall (fun a => la_Success a = false) l → (failed < x)%Z →
  last_failed x failed l = (failed + Z.of_nat (length l) >=? x)%Z.
Proof.
  intros Hl. revert failed. induction Hl as [|a l Ha _ IH]; intros failed Hf; cbn [last_failed length].
  - symmetry. rewrite Z.geb_leb. apply Z.leb_gt. lia.
  - rewrite Ha. cbn [negb]. cbv zeta. destruct (failed + 1 >=? x)%Z eqn:E.
    + symmetry. rewrite Z.geb_leb in *. apply Z.leb_le. apply Z.leb_le in E. lia.
    + rewrite Z.geb_leb in E. apply Z.leb_gt in E. rewrite IH by lia. f_equal. lia.
Qed.
Lemma LastFailed_all x l :
  Forall (fun a => la_Success a = false) l → (0 < x)%Z → LastFailed x l = (Z.of_nat (length l) >=? x)%Z.
Proof.
  intros Hl Hx. unfold LastFailed. rewrite last_failed_all; [by rewrite length_rev|by apply Forall_rev|done].
Qed.

(** *** Keys of a user *)
Definition user_dir (user : string) : bytes := ExactKey (map bytes_of_string [webPrefix; usersPrefix; user]).
Lemma user_paths user id :
  userKey user = (user_dir user ++ bytes_of_string paramsPrefix)%list ∧
  attemptsKey user = (user_dir user ++ bytes_of_string attemptsPrefix)%list ∧
  attemptKey user id = (attemptsKey user ++ Separator :: bytes_of_string id)%list.
Proof.
  unfold userKey, attemptsKey, attemptKey, user_dir, path, ExactKey, Key, internalKey. cbn [map join_sep app].
  split_and!; repeat (rewrite <- app_assoc; cbn [app]); done.
Qed.
Lemma bytes_of_string_wf s : wf_bytes (bytes_of_string s).
Proof.
  apply Forall_forall. intros z. unfold bytes_of_string. intros [c [-> _]]%list_elem_of_fmap.
  pose proof (Ascii.N_ascii_bounded c). unfold is_byte. lia.
Qed.
#[local] Instance bytes_of_string_inj : Inj (=) (=) bytes_of_string.
Proof.
  intros s t E. unfold bytes_of_string in E. apply list_fmap_eq_inj in E.
  2:{ intros x y Hxy%N2Z.inj. rewrite <- (Ascii.ascii_N_embedding x), Hxy. apply Ascii.ascii_N_embedding. }
  rewrite <- (String.string_of_list_ascii_of_string s), E. apply String.string_of_list_ascii_of_string.
Qed.
Lemma has_prefix_app_l p k q : has_prefix (p ++ k) (p ++ q) = has_prefix k q.
Proof. induction p as [|x p IH]; [done|]. cbn [app has_prefix]. by rewrite Z.eqb_refl, IH. Qed.
Lemma user_dir_wf user : wf_bytes (user_dir user).
Proof. apply ExactKey_wf. apply Forall_map, Forall_true. apply bytes_of_string_wf. Qed.

Definition in_attempts (user : string) (k : bytes) : bool := in_key_range (attemptsKey user) (RangeEnd (attemptsKey user)) k.
Lemma in_attempts_prefix user k : wf_bytes k → in_attempts user k = has_prefix k (attemptsKey user).
Proof.
  intros Hk. destruct (user_paths user "") as (_ & Ha & _).
  assert (wf_bytes (attemptsKey user)) as Hw by (rewrite Ha; apply Forall_app; split; [apply user_dir_wf|apply bytes_of_string_wf]).
  assert (has_next (attemptsKey user)) as Hn.
  { rewrite Ha. apply Exists_app. left. apply ExactKey_has_next. }
  unfold in_attempts, in_key_range. pose proof (RangeEnd_prefix _ _ Hw Hk Hn) as Hp. unfold bytes_le in Hp.
  destruct (has_prefix _ _), (bytes_ltb k (attemptsKey user)), (bytes_ltb k (RangeEnd _)); naive_solver.
Qed.
Lemma attempt_in_attempts user id : in_attempts user (attemptKey user id) = true.
Proof.
  destruct (user_paths user id) as (_ & Ha & Hi). rewrite in_attempts_prefix.
  - rewrite Hi. apply has_prefix_app. by eexists.
  - rewrite Hi, Ha. apply Forall_app. split; [apply Forall_app; split; [apply user_dir_wf|apply bytes_of_string_wf]|].
    constructor; [unfold is_byte, Separator; lia|apply bytes_of_string_wf].
Qed.
Lemma user_not_in_attempts user : in_attempts user (userKey user) = false.
Proof.
  destruct (user_paths user "") as (Hu & Ha & _). rewrite in_attempts_prefix.
  - rewrite Hu, Ha, has_prefix_app_l. reflexivity.
  - rewrite Hu. apply Forall_app. split; [apply user_dir_wf|apply bytes_of_string_wf].
Qed.
Lemma attemptKey_inj user id id' : attemptKey user id = attemptKey user id' → id = id'.
Proof.
  destruct (user_paths user id) as (_ & _ & ->), (user_paths user id') as (_ & _ & ->).
  intros [= E]%(inj (app _)). by apply bytes_of_string_inj.
Qed.

(** *** What stays while an account is watched

    [E] is the end of the time of interest. Apart from what the server does,
    the user and the attempts of [username] change only by expiry. *)
Definition relevant (username : string) (k : bytes) : Prop := k = userKey username ∨ in_attempts username k = true.
Definition untouched (E : Z) (username : string) m m' : Prop :=
  ∀ k, relevant username k → m' !! k = m !! k ∨ (m' !! k = None ∧ ∃ i, m !! k = Some i ∧ expired E i).

Lemma untouched_keeps E username m m' k i :
  untouched E username m m' → relevant username k → m !! k = Some i → ¬ expired E i → m' !! k = Some i.
Proof. intros Hu Hk Hi Hne. destruct (Hu k Hk) as [->|(_ & j & Hj & He)]; [done|]. simplify_eq. by destruct Hne. Qed.
Lemma untouched_back E username m m' k i :
  untouched E username m m' → relevant username k → m' !! k = Some i → m !! k = Some i.
Proof. intros Hu Hk Hi. destruct (Hu k Hk) as [<-|(Hn & _)]; congruence. Qed.
Lemma purged_untouched E username now m m' : purged now m m' → (now ≤ E)%Z → untouched E username m m'.
Proof.
  intros (Hsub & Hexp & _) HE k _. destruct (m !! k) as [i|] eqn:Hi.
  - destruct (m' !! k) as [j|] eqn:Hj; [left; by rewrite <- Hi; symmetry; eapply lookup_weaken|].
    right. split; [done|]. exists i. split; [done|]. destruct (Hexp k i Hi Hj). unfold expired. lia.
  - left. by eapply lookup_weaken_None.
Qed.

(** The user of the account, as it is read. *)
Definition user_lives (E : Z) u : Prop := Expiry u = zero_time ∨ (E < Expiry u)%Z.
Definition has_user (E : Z) (username : string) u m : Prop :=
  ∃ item, m !! userKey username = Some item ∧ unmarshal_item item = Ok u ∧ user_lives E u ∧
    u_Name u = username ∧ Forall utf8 (user_strings u).

Lemma CheckAndSetDefaults_spec u v :
  CheckAndSetDefaults u = Ok v ↔
  metadata_ok (u_Metadata u) ∧ check_identities (OIDCIdentities u) = Ok () ∧
  v = SetMetadata (metadata_defaults (u_Metadata u)) (setStaticFields u).
Proof.
  unfold CheckAndSetDefaults. cbv zeta. rewrite result_bind_Ok. split.
  - intros (m & (Hm & ->)%Metadata_ok & ([] & Hc & [= <-])%result_bind_Ok). done.
  - intros (Hm & Hc & ->). eexists. split; [by apply Metadata_ok|].
    apply result_bind_Ok. exists (). done.
Qed.

(** A user that was read is valid. *)
Lemma UnmarshalUser_spec data id expires u :
  UnmarshalUser data id expires = Ok u →
  metadata_ok (u_Metadata u) ∧ check_identities (OIDCIdentities u) = Ok () ∧
  (is_zero_time expires = false → Expiry u = expires).
Proof.
  unfold UnmarshalUser. intros (v & _ & Hu)%result_bind_Ok. destruct (String.eqb v "v2"); [|done].
  destruct (user_of_json data) as [w|]; [|done]. apply result_bind_Ok in Hu as (w' & Hw & [= <-]).
  apply CheckAndSetDefaults_spec in Hw as (Hm & Hc & ->).
  assert (metadata_ok (metadata_defaults (u_Metadata w))) as Hm' by exact Hm.
  split_and!; [by destruct (id =? 0)%Z, (is_zero_time expires)|by destruct (id =? 0)%Z, (is_zero_time expires)|].
  intros Hz. unfold Expiry. rewrite Hz. cbn. by rewrite Hz.
Qed.
Lemma has_user_lives E username u m item :
  m !! userKey username = Some item → unmarshal_item item = Ok u → user_lives E u → ¬ expired E item.
Proof.
  intros _ Hu HE [Hz Hle]. apply UnmarshalUser_spec in Hu as (_ & _ & He).
  unfold user_lives in HE. rewrite He in HE; [destruct HE; [done|lia]|]. unfold is_zero_time. by apply Z.eqb_neq.
Qed.
Lemma has_user_untouched E username u m m' :
  untouched E username m m' → has_user E username u m → has_user E username u m'.
Proof.
  intros Hun (item & Hi & Hu & HE & Hn & Hs). exists item. split_and!; try done.
  eapply untouched_keeps; [done|by left|done|]. by eapply has_user_lives.
Qed.

Lemma user_item_valid u id :
  metadata_ok (u_Metadata u) → check_identities (OIDCIdentities u) = Ok () → ∃ item, user_item u id = Ok item.
Proof.
  intros Hm Hc. unfold user_item, MarshalUser.
  set (v := SetMetadata (metadata_defaults (u_Metadata u)) (setStaticFields u)).
  rewrite (proj2 (CheckAndSetDefaults_spec u v) (conj Hm (conj Hc eq_refl))). cbn [mbind result_bind].
  rewrite (proj2 (CheckAndSetDefaults_spec v _) (conj Hm (conj Hc eq_refl))). by eexists.
Qed.
Lemma unmarshal_written `{!UserCodecLaws} w id expires :
  Forall utf8 (user_strings w) → u_Version w = "v2" → metadata_ok (u_Metadata w) → check_identities (OIDCIdentities w) = Ok () →
  UnmarshalUser (user_json w) id expires =
    let u := SetMetadata (metadata_defaults (u_Metadata (without_namespace w))) (setStaticFields (without_namespace w)) in
    let u := if (id =? 0)%Z then u else SetResourceID id u in
    Ok (if is_zero_time expires then u else SetExpiry expires u).
Proof.
  intros Hs Hv Hm Hc. unfold UnmarshalUser. rewrite user_version_back, Hv by done. cbn [mbind result_bind].
  rewrite String.eqb_refl, user_read_back by done.
  rewrite (proj2 (CheckAndSetDefaults_spec (without_namespace w) _) (conj Hm (conj Hc eq_refl))). done.
Qed.

(** Writing a user that was read and then locked, and reading it again. *)
Lemma user_item_lock `{!UserCodecLaws} E username u m item id until :
  has_user E username u m → user_item (SetLocked until "user has exceeded maximum failed login attempts" u) id = Ok item →
  it_Key item = userKey username ∧
  ∀ id', ∃ u', unmarshal_item (with_ID id' item) = Ok u' ∧ user_lives E u' ∧ u_Name u' = username ∧
    Forall utf8 (user_strings u') ∧ Status u' = Status (SetLocked until "user has exceeded maximum failed login attempts" u).
Proof.
  intros (item0 & _ & Hu & HE & Hn & Hs). apply UnmarshalUser_spec in Hu as (Hm & Hc & _).
  set (v := SetLocked _ _ u). unfold user_item, MarshalUser.
  assert (CheckAndSetDefaults v = Ok (SetMetadata (metadata_defaults (u_Metadata v)) (setStaticFields v))) as ->.
  { by apply CheckAndSetDefaults_spec. }
  cbn [mbind result_bind]. set (v1 := SetMetadata _ _).
  assert (CheckAndSetDefaults v1 = Ok (SetMetadata (metadata_defaults (u_Metadata v1)) (setStaticFields v1))) as ->.
  { by apply CheckAndSetDefaults_spec. }
  cbn [mbind result_bind]. set (v2 := SetMetadata _ (setStaticFields v1)). intros [= <-].
  assert (Forall utf8 (user_strings (SetResourceID 0 v2))) as Hs2.
  { unfold user_strings in *. apply Forall_app in Hs as [Hhd Htl]. apply Forall_app. split; [|exact Htl].
    repeat (apply Forall_cons in Hhd as [? Hhd]). repeat constructor; assumption || reflexivity. }
  split; [by rewrite <- Hn|]. intros id'. unfold unmarshal_item. cbn [it_Value it_ID it_Expires with_ID].
  rewrite unmarshal_written by done. cbv zeta. eexists. split; [reflexivity|].
  assert (∀ w, Expiry (if (id' =? 0)%Z then w else SetResourceID id' w) = Expiry w) as He by (intros w; by destruct (id' =? 0)%Z).
  change (Expiry v2) with (Expiry u).
  split_and!.
  - unfold user_lives. destruct (is_zero_time (Expiry u)) eqn:Hz.
    + rewrite He. exact HE.
    + unfold Expiry at 1 3. cbn. rewrite Hz. exact HE.
  - rewrite <- Hn. by destruct (id' =? 0)%Z, (is_zero_time (Expiry u)).
  - by destruct (id' =? 0)%Z, (is_zero_time (Expiry u)).
  - by destruct (id' =? 0)%Z, (is_zero_time (Expiry u)).
Qed.

(** *** Attempts *)
Definition only_failures (username : string) m : Prop :=
  ∀ k i, in_attempts username k = true → m !! k = Some i → ∃ a, decode_json (it_Value i) = Ok a ∧ la_Success a = false.
Definition has_attempts (E : Z) (username : string) (ids : list string) m : Prop :=
  NoDup ids ∧ ∀ id, id ∈ ids → ∃ i, m !! attemptKey username id = Some i ∧ ¬ expired E i.

Lemma only_failures_untouched E username m m' : untouched E username m m' → only_failures username m → only_failures username m'.
Proof. intros Hun Ho k i Hk Hi. eapply Ho; [done|]. eapply untouched_back; [done|by right|done]. Qed.
Lemma has_attempts_untouched E username ids m m' :
  untouched E username m m' → has_attempts E username ids m → has_attempts E username ids m'.
Proof.
  intros Hun [Hnd Ha]. split; [done|]. intros id (i & Hi & Hne)%Ha. exists i. split; [|done].
  eapply untouched_keeps; [done|right; apply attempt_in_attempts|done..].
Qed.

Lemma decode_failures items :
  Forall (fun i => ∃ a : LoginAttempt, decode_json (it_Value i) = Ok a ∧ la_Success a = false) items →
  ∃ l, decode_all items = Ok l ∧ Forall (fun a => la_Success a = false) l ∧ length l = length items.
Proof.
  induction 1 as [|i items (a & Ha & Hs) _ (l & Hl & Hf & Hlen)]; [by exists []|].
  exists (a :: l). cbn. rewrite Ha. cbn. rewrite Hl. cbn. split_and!; [done|by constructor|by rewrite Hlen].
Qed.

Lemma read_failures `{!GoSortLaws} E now username ids b :
  bk_inv b → (now ≤ E)%Z → only_failures username (bk_view b) → has_attempts E username ids (bk_view b) →
  runs (GetUserLoginAttempts now username) b (fun r b' =>
    untouched E username (bk_view b) (bk_view b') ∧
    ∃ l, r = Ok l ∧ Forall (fun a => la_Success a = false) l ∧ (5 ≤ length ids → 5 ≤ length l)%nat).
Proof.
  intros Hb HE Ho Ha. unfold GetUserLoginAttempts.
  destruct (bk_GetRange_law now (attemptsKey username) (RangeEnd (attemptsKey username)) NoLimit b Hb) as (r & b' & Hr & Hb' & Hs).
  rewrite !bool_decide_eq_false_2 in Hs by (apply nextKey_nonempty || by destruct (user_paths username "") as (_ & -> & _)).
  destruct Hs as (m & Hp & Hv & ->). apply (purged_untouched E username) in Hp; [|done]. rewrite <- Hv in *.
  apply (only_failures_untouched E _ _ _ Hp) in Ho. apply (has_attempts_untouched _ _ _ _ _ Hp) in Ha.
  eexists _, b'. split; [rewrite goM_bind_unfold, Hr; reflexivity|]. split; [done|]. split; [done|]. cbn [mbind result_bind].
  change (Z.to_nat _) with (Z.to_nat DefaultRangeLimit).
  set (items := sorted_range _ _ _).
  assert (Forall (fun i => ∃ a : LoginAttempt, decode_json (it_Value i) = Ok a ∧ la_Success a = false) items) as Hitems.
  { apply Forall_forall. intros i (k & Hk & Hi)%list_elem_of_omap. apply range_keys_elem in Hk as [Hk _]. by eapply Ho. }
  destruct (decode_failures (take (Z.to_nat DefaultRangeLimit) items)) as (l & -> & Hf & Hlen); [by apply Forall_take|].
  eexists. split; [reflexivity|]. split; [by rewrite sort_Slice_perm|].
  rewrite (Permutation_length (sort_Slice_perm _ _)), Hlen, length_take. unfold items. rewrite sorted_range_length.
  destruct Ha as [Hnd Ha]. intros Hfive.
  assert (length (attemptKey username <$> ids) ≤ length (range_keys (attemptsKey username) (RangeEnd (attemptsKey username)) (bk_view b')))%nat as Hle.
  { apply submseteq_length, NoDup_submseteq; [apply NoDup_fmap_2; [|done]; intros x y; apply attemptKey_inj|].
    intros k (id & -> & (i & Hi & _)%Ha)%list_elem_of_fmap. apply range_keys_elem. split; [apply attempt_in_attempts|by eexists]. }
  rewrite length_fmap in Hle. unfold DefaultRangeLimit. lia.
Qed.

(** *** One call *)
Lemma GetUser_reads E now username u b :
  bk_inv b → (now ≤ E)%Z → has_user E username u (bk_view b) →
  ∃ b', GetUser now username b = Some (Ok u, b') ∧ bk_inv b' ∧ untouched E username (bk_view b) (bk_view b').
Proof.
  intros Hb HE (item & Hi & Hu & Hl & Hn & Hs). pose proof (has_user_lives E username u _ item Hi Hu Hl) as Hne.
  assert (username ≠ "") as Hname by (rewrite <- Hn; by apply UnmarshalUser_spec in Hu as ((? & _) & _)).
  unfold GetUser. rewrite (proj2 (String.eqb_neq _ _) Hname).
  destruct (bk_Get_law now (userKey username) b Hb) as (r & b' & Hr & Hb' & Hsp).
  rewrite bool_decide_eq_false_2 in Hsp by (destruct (user_paths username "") as (-> & _); done).
  destruct Hsp as (m & Hp & Hv & ->). apply (purged_untouched E username) in Hp; [|done].
  exists b'. rewrite goM_bind_unfold, Hr, Hv. split; [|done].
  rewrite (untouched_keeps _ _ _ _ _ _ Hp (or_introl eq_refl) Hi Hne), Hu. done.
Qed.

(** The account: its user, and the attempts [ids] that failed; the fifth locks
    the user up to the end. *)
Definition lock_lasts (E : Z) u : Prop := IsLocked (Status u) = true ∧ (E ≤ LockExpires (Status u))%Z.
Definition account (E : Z) (username : string) (ids : list string) m : Prop :=
  ∃ u, has_user E username u m ∧ only_failures username m ∧ has_attempts E username ids m ∧
    (length ids < 5 ∨ lock_lasts E u)%nat.
Lemma account_untouched E username ids m m' : untouched E username m m' → account E username ids m → account E username ids m'.
Proof.
  intros Hun (u & Hu & Ho & Ha & Hl). exists u.
  split_and!; [by eapply has_user_untouched|by eapply only_failures_untouched|by eapply has_attempts_untouched|done].
Qed.

(** An authentication that fails, and not for a connection problem, whatever else
    it does. *)
Definition fails (E : Z) (username : string) (fn : goM B (result unit)) : Prop :=
  ∀ b, bk_inv b → runs fn b (fun r b' => (∃ e, r = Err e ∧ err_kind e ≠ ConnectionProblem) ∧ untouched E username (bk_view b) (bk_view b')).

Lemma Add_attempt `{!CodecLaws LoginAttempt} E now now' t id username ids u b :
  bk_inv b → (now' ≤ E)%Z → zero_time ≠ t → Keys.Expiry now AttemptTTL = (now + AttemptTTL)%Z → (E < now + AttemptTTL)%Z → id ∉ ids →
  has_user E username u (bk_view b) → only_failures username (bk_view b) → has_attempts E username ids (bk_view b) →
  runs (AddUserLoginAttempt now now' id username (MkLoginAttempt t false) AttemptTTL) b (fun r b' =>
    r = Ok () ∧ has_user E username u (bk_view b') ∧ only_failures username (bk_view b') ∧ has_attempts E username (id :: ids) (bk_view b')).
Proof.
  intros Hb HE Ht Hexp Hlive Hid Hu Ho Ha. unfold AddUserLoginAttempt, LoginAttempt_Check. cbn [la_Time].
  replace (is_zero_time t) with false by (symmetry; apply Z.eqb_neq; congruence). rewrite Hexp.
  set (item := mkItem _ _ _ _ _). destruct (bk_Put_law now' item b Hb) as (r & b' & Hr & Hb' & Hs).
  rewrite bool_decide_eq_false_2 in Hs 
    by (change (it_Key item) with (attemptKey username id); destruct (user_paths username id) as (_ & Hp & Hq); rewrite Hq, Hp; done).
  destruct Hs as (m & Hp & -> & [iid Hv]). apply (purged_untouched E username) in Hp; [|done].
  eexists _, b'. split; [rewrite goM_bind_unfold, Hr; reflexivity|]. split; [done|]. split; [done|]. rewrite Hv. cbn [it_Key item].
  assert (userKey username ≠ attemptKey username id) as Hne.
  { intros E1. pose proof (attempt_in_attempts username id) as E2. by rewrite <- E1, user_not_in_attempts in E2. }
  split_and!.
  - apply (has_user_untouched _ _ _ _ _ Hp) in Hu as (i & Hi & ?). exists i. by rewrite lookup_insert_ne by done.
  - intros k i Hk. destruct (decide (k = attemptKey username id)) as [->|Hki].
    + rewrite lookup_insert_eq. intros [= <-]. eexists. cbn. by rewrite decode_encode.
    + rewrite lookup_insert_ne by done. by apply (only_failures_untouched _ _ _ _ Hp Ho).
  - apply (has_attempts_untouched _ _ _ _ _ Hp) in Ha as [Hnd Ha]. split; [by constructor|].
    intros id' [->|Hid']%elem_of_cons; [eexists; rewrite lookup_insert_eq; split; [done|]; cbn; unfold expired; cbn; lia|].
    rewrite lookup_insert_ne; [by apply Ha|]. intros Hk%attemptKey_inj. congruence.
Qed.
Lemma Upsert_locked `{!UserCodecLaws} E now until username ids u b :
  bk_inv b → (now ≤ E ≤ until)%Z →
  has_user E username u (bk_view b) → only_failures username (bk_view b) → has_attempts E username ids (bk_view b) →
  runs (UpsertUser now (SetLocked until "user has exceeded maximum failed login attempts" u)) b (fun r b' =>
    r = Ok () ∧ account E username ids (bk_view b')).
Proof.
  intros Hb HE Hu Ho Ha. unfold UpsertUser. set (v := SetLocked _ _ u).
  pose proof Hu as (i0 & _ & Hu0 & _). apply UnmarshalUser_spec in Hu0 as (Hm & Hc & _).
  destruct (user_item_valid v (md_ID (u_Metadata v)) Hm Hc) as [item Ei]. rewrite Ei.
  destruct (user_item_lock _ _ _ _ _ _ _ Hu Ei) as (Hkey & Hread).
  destruct (bk_Put_law now item b Hb) as (r & b' & Hr & Hb' & Hs). rewrite Hkey in Hs.
  rewrite bool_decide_eq_false_2 in Hs by (destruct (user_paths username "") as (-> & _); done).
  destruct Hs as (m & Hp & -> & [iid Hv]). apply (purged_untouched E username) in Hp; [|lia].
  eexists _, b'. split; [rewrite goM_bind_unfold, Hr; reflexivity|]. split; [done|]. split; [done|]. rewrite Hv, Hkey.
  destruct (Hread iid) as (u' & Hu' & Hl' & Hn' & Hs' & Hst). exists u'. split_and!.
  - exists (with_ID iid item). by rewrite lookup_insert_eq.
  - intros k i Hk. rewrite lookup_insert_ne by (intros <-; by rewrite user_not_in_attempts in Hk).
    by apply (only_failures_untouched _ _ _ _ Hp Ho).
  - apply (has_attempts_untouched _ _ _ _ _ Hp) in Ha as [Hnd Ha]. split; [done|]. intros id Hid.
    rewrite lookup_insert_ne; [by apply Ha|]. intros E1. pose proof (attempt_in_attempts username id) as E2.
    by rewrite <- E1, user_not_in_attempts in E2.
  - right. unfold lock_lasts. rewrite Hst. cbn. split; [done|lia].
Qed.

Lemma runs_first {A C} (c : goM B A) (f : A → goM B C) b a b1 P : c b = Some (a, b1) → runs (f a) b1 P → runs (c ≫= f) b P.
Proof. intros Hc (r & b' & Hr & Hrest). exists r, b'. by rewrite goM_bind_unfold, Hc. Qed.

(** Readings of the clock within the time a lock lasts from [T] on. *)
Definition within (T : Z) (clock : nat → Z) : Prop := ∀ n, (T ≤ clock n < T + AccountLockInterval)%Z.

Lemma record_failure_spec `{!GoSortLaws} `{!UserCodecLaws} `{!CodecLaws LoginAttempt} T clock id username ids u e b :
  let E := (T + AccountLockInterval)%Z in
  bk_inv b → (zero_time < T)%Z → within T clock → id ∉ ids → (length ids < 5)%nat →
  has_user E username u (bk_view b) → only_failures username (bk_view b) → has_attempts E username ids (bk_view b) →
  runs (record_failure clock id username u e) b (fun r b' =>
    (∃ e', r = Err e') ∧ account E username (id :: ids) (bk_view b')).
Proof.
  intros E Hb HT Hw Hid Hlen Hu Ho Ha. unfold record_failure. cbv zeta.
  assert (∀ n, clock n ≤ E)%Z as HE by (intros n; specialize (Hw n); unfold E; lia).
  eapply runs_bind; [apply (Add_attempt E); try done|].
  - specialize (Hw 4%nat). lia.
  - specialize (Hw 5%nat). unfold E, AttemptTTL, AccountLockInterval, Minute in *. lia.
  - intros r b1 Hb1 (-> & Hu1 & Ho1 & Ha1).
    eapply runs_bind; [by apply (read_failures E)|]. intros r b2 Hb2 (Hun & l & -> & Hl & Hfive).
    apply (has_user_untouched _ _ _ _ _ Hun) in Hu1. apply (only_failures_untouched _ _ _ _ Hun) in Ho1.
    apply (has_attempts_untouched _ _ _ _ _ Hun) in Ha1. rewrite (LastFailed_all _ _ Hl) by done.
    destruct (Z.of_nat (length l) >=? MaxLoginAttempts)%Z eqn:Em; cbn [negb].
    + eapply runs_bind; [by apply (Upsert_locked E); [|specialize (Hw 8%nat); specialize (HE 9%nat); unfold E; lia|..]|].
      intros r b3 Hb3 (-> & Hacc). apply runs_ret; [done|]. by eauto.
    + apply runs_ret; [done|]. split; [by eauto|]. exists u. split_and!; [done..|]. left.
      unfold MaxLoginAttempts in Em. rewrite Z.geb_leb in Em. apply Z.leb_gt in Em. cbn [length] in *. lia.
Qed.
Lemma WithUserLock_fails `{!GoSortLaws} `{!UserCodecLaws} `{!CodecLaws LoginAttempt} T clock id username ids fn b :
  let E := (T + AccountLockInterval)%Z in
  bk_inv b → (zero_time < T)%Z → within T clock → id ∉ ids → fails E username fn → account E username ids (bk_view b) →
  (∃ b', (∀ fn, WithUserLock clock id username fn b = Some (Err err_max_attempts, b')) ∧ bk_inv b' ∧ account E username ids (bk_view b')) ∨
  ((length ids < 5)%nat ∧
   runs (WithUserLock clock id username fn) b (fun r b' => (∃ e, r = Err e) ∧ account E username (id :: ids) (bk_view b'))).
Proof.
  intros E Hb HT Hw Hid Hfn (u & Hu & Ho & Ha & Hl).
  destruct (GetUser_reads E (clock 1) username u b Hb) as (b1 & Hr & Hb1 & Hun); [specialize (Hw 1%nat); unfold E; lia|done|].
  apply (has_user_untouched _ _ _ _ _ Hun) in Hu. apply (only_failures_untouched _ _ _ _ Hun) in Ho.
  apply (has_attempts_untouched _ _ _ _ _ Hun) in Ha.
  destruct (locked (clock 2) (clock 3) (Status u)) eqn:Elock.
  - left. exists b1. split; [|split; [done|by exists u]]. intros fn'. unfold WithUserLock. by rewrite goM_bind_unfold, Hr, Elock.
  - right. assert (length ids < 5)%nat as Hlen.
    { destruct Hl as [|[Hil Hle]]; [done|]. exfalso. unfold locked in Elock. rewrite Hil in Elock. cbn [andb] in Elock.
      apply orb_false_iff in Elock as [_ Elock]. rewrite Z.gtb_ltb in Elock. apply Z.ltb_ge in Elock.
      specialize (Hw 3%nat). unfold E in Hle. lia. }
    split; [done|]. unfold WithUserLock. apply (runs_first _ _ _ _ _ _ Hr). rewrite Elock. eapply runs_bind; [by apply Hfn|]. intros r b3 Hb3 ((e & -> & _) & Hun3). cbn [IsConnectionProblem].
    apply (has_user_untouched _ _ _ _ _ Hun3) in Hu. apply (only_failures_untouched _ _ _ _ Hun3) in Ho.
    apply (has_attempts_untouched _ _ _ _ _ Hun3) in Ha. by apply record_failure_spec.
Qed.

(** *** Many calls *)

(** A call: what others do before it, its readings of the clock, the identifier
    of its attempt, and the authentication. *)
Record login := MkLogin { lg_wait : goM B unit; lg_clock : nat → Z; lg_id : string; lg_fn : goM B (result unit) }.
Definition waits (E : Z) (username : string) (wait : goM B unit) : Prop :=
  ∀ b, bk_inv b → runs wait b (fun _ b' => untouched E username (bk_view b) (bk_view b')).

(** [logins username calls b n b']: the calls lead from [b] to [b'], and all but
    [n] of them are refused, whatever their authentication. *)
Inductive logins (username : string) : list login → B → nat → B → Prop :=
  | logins_nil b : logins username [] b 0 b
  | logins_refused l calls b b1 b2 n b3 :
      lg_wait l b = Some ((), b1) →
      (∀ fn, WithUserLock (lg_clock l) (lg_id l) username fn b1 = Some (Err err_max_attempts, b2)) →
      logins username calls b2 n b3 → logins username (l :: calls) b n b3
  | logins_tried l calls b b1 e b2 n b3 :
      lg_wait l b = Some ((), b1) →
      WithUserLock (lg_clock l) (lg_id l) username (lg_fn l) b1 = Some (Err e, b2) →
      logins username calls b2 n b3 → logins username (l :: calls) b (S n) b3.

Lemma logins_account `{!GoSortLaws} `{!UserCodecLaws} `{!CodecLaws LoginAttempt} T username calls ids b :
  let E := (T + AccountLockInterval)%Z in
  bk_inv b → (zero_time < T)%Z →
  Forall (fun l => waits E username (lg_wait l) ∧ within T (lg_clock l) ∧ fails E username (lg_fn l)) calls →
  NoDup (map lg_id calls) → (∀ l, l ∈ calls → lg_id l ∉ ids) → (length ids ≤ 5)%nat →
  account E username ids (bk_view b) →
  ∃ n b', logins username calls b n b' ∧ (n + length ids ≤ 5)%nat.
Proof.
  intros E Hb HT Hcalls. revert ids b Hb. induction Hcalls as [|l calls (Hwait & Hw & Hfn) _ IH]; intros ids b Hb Hnd Hids Hlen Hacc.
  { exists 0%nat, b. split; [constructor|done]. }
  cbn [map] in Hnd. apply NoDup_cons in Hnd as [Hfresh Hnd].
  destruct (Hwait b Hb) as ([] & b1 & Hr1 & Hb1 & Hun). apply (account_untouched _ _ _ _ _ Hun) in Hacc.
  destruct (WithUserLock_fails T (lg_clock l) (lg_id l) username ids (lg_fn l) b1) as [(b2 & Hr2 & Hb2 & Hacc2)|(Hl5 & (r & b2 & Hr2 & Hb2 & (e & ->) & Hacc2))];
    try done.
  - apply Hids. by left.
  - destruct (IH ids b2 Hb2) as (n & b3 & Hn & Hle); [done| |done..|].
    { intros l' Hl'. apply Hids. by right. }
    exists n, b3. split; [by eapply logins_refused|done].
  - destruct (IH (lg_id l :: ids) b2 Hb2) as (n & b3 & Hn & Hle); [done| |cbn; lia|done|].
    { intros l' Hl' [E1|Hin]%elem_of_cons; [|by apply (Hids l'); [right|]].
      apply Hfresh. rewrite <- E1. apply list_elem_of_fmap. by exists l'. }
    exists (S n), b3. split; [by eapply logins_tried|]. cbn [length] in Hle. lia.
Qed.

(** A connection problem counts as a failed login, against the intent of the
    program: the error that is tested for one is not that of the authentication. *)
Lemma connection_problem_recorded clock id username fn e u b b1 b2 :
  GetUser (clock 1%nat) username b = Some (Ok u, b1) → locked (clock 2%nat) (clock 3%nat) (Status u) = false →
  err_kind e = ConnectionProblem → fn b1 = Some (Err e, b2) →
  WithUserLock clock id username fn b = record_failure clock id username u e b2.
Proof. intros Hu Hl _ Hf. unfold WithUserLock. by rewrite goM_bind_unfold, Hu, Hl, goM_bind_unfold, Hf. Qed.

(** C18: of any calls for a user within the time of a lock whose authentication
    fails, for another reason than a connection problem, at most five run it: the
    others are refused whatever it is. The user is stored and does not expire meanwhile; the attempts stored are failures,
    any number of them. *)
Theorem login_attempts_bounded `{!GoSortLaws} `{!UserCodecLaws} `{!CodecLaws LoginAttempt} T username calls u b :
  let E := (T + AccountLockInterval)%Z in
  bk_inv b → (zero_time < T)%Z → has_user E username u (bk_view b) → only_failures username (bk_view b) →
  Forall (fun l => waits E username (lg_wait l) ∧ within T (lg_clock l) ∧ fails E username (lg_fn l)) calls →
  NoDup (map lg_id calls) →
  ∃ n b', logins username calls b n b' ∧ (Z.of_nat n ≤ MaxLoginAttempts)%Z.
Proof.
  intros E Hb HT Hu Ho Hcalls Hnd.
  destruct (logins_account T username calls [] b) as (n & b' & Hn & Hle); try done.
  - intros l _. apply not_elem_of_nil.
  - cbn. lia.
  - exists u. split_and!; [done..|split; [constructor|by intros id ?%elem_of_nil]|left; cbn; lia].
  - exists n, b'. split; [done|]. cbn in Hle. unfold MaxLoginAttempts. lia.
Qed.
End server.
