(* ===== verification/Impersonate.v ===== *)
(** * Impersonation (lib/services/role.go, lib/services/impersonate.go)

    Who may obtain certificates of another user, or of some roles only: no deny
    condition matches, and one allow condition matches the user and every role. *)

From Stdlib Require Import Ascii String.
From S2P Require Import Prelude.
From S2P Require Import Labels.
From S2P Require Import Parse.
From S2P Require Import Role.
From S2P Require Import Traits.
From S2P Require Import RoleSet.
From S2P Require Import Users.
Local Open Scope string_scope.

(** The predicate language of a library: fields of a value by their JSON names,
    and expressions over identifiers; [None] is an expression of another type
    than a boolean. *)
Class PredicateLib := {
  field_value : Type;
  field_of_user : option UserV2 → list string → result field_value;
  field_of_role : option Role → list string → result field_value;
  predicate_Parse : (list string → result field_value) → string → result (option bool)
}.

Record impersonateContext := MkImpersonateContext {
  ic_user : UserV2; ic_impersonateRole : option Role; ic_impersonateUser : option UserV2
}.

Section impersonate.
Context `{GoLibs} `{Regexp} `{PredicateLib}.

Definition getIdentifier (ctx : impersonateContext) (fields : list string) : result field_value :=
  match fields with
  | [] => Err (Error NotFound "%v is not defined")
  | field :: fields =>
      if String.eqb field "user" then field_of_user (Some (ic_user ctx)) fields else
      if String.eqb field "impersonate_user" then field_of_user (ic_impersonateUser ctx) fields else
      if String.eqb field "impersonate_role" then field_of_role (ic_impersonateRole ctx) fields else
      Err (Error NotFound "%v is not defined")
  end.
Definition matchesImpersonateWhere (ctx : impersonateContext) (cond : ImpersonateConditions) : result bool :=
  if String.eqb (imp_Where cond) "" then Ok true else
  match predicate_Parse (getIdentifier ctx) (imp_Where cond) with
  | Err e => Err e
  | Ok None => Err (Error BadParameter "invalid predicate type for where expression: %v")
  | Ok (Some b) => Ok b
  end.

(** The match of one of several matchers may panic. *)
Definition matches_name (ms : list Matcher) (name : string) : outcome bool :=
  match match_any ms name with None => None | Some b => done b end.

(** The role of the context changes from one role to the next. *)
Fixpoint allow_roles (ctx : impersonateContext) (cond : ImpersonateConditions) (anyRole : list Matcher)
    (impersonateRoles : list Role) : outcome bool :=
  match impersonateRoles with
  | [] => done true
  | role :: impersonateRoles =>
      named ⇐ matches_name anyRole (GetName role);
      if negb named then done false else
      m ⇐ Some (matchesImpersonateWhere (MkImpersonateContext (ic_user ctx) (Some role) (ic_impersonateUser ctx)) cond);
      if negb m then done false else allow_roles ctx cond anyRole impersonateRoles
  end.
Fixpoint deny_roles (anyRole : list Matcher) (impersonateRoles : list Role) : outcome bool :=
  match impersonateRoles with
  | [] => done false
  | role :: impersonateRoles =>
      named ⇐ matches_name anyRole (GetName role);
      if named : bool then done true else deny_roles anyRole impersonateRoles
  end.

Definition is_nil {A} (l : list A) : bool := (length l =? 0)%nat.

Definition matchAllowImpersonateCondition (ctx : impersonateContext) (cond : ImpersonateConditions)
    (impersonateUser : UserV2) (impersonateRoles : list Role) : outcome bool :=
  if is_nil (imp_Users cond) || is_nil (imp_Roles cond) then done false else
  anyUser ⇐ Some (NewAnyMatcher (imp_Users cond));
  user ⇐ matches_name anyUser (u_Name impersonateUser);
  if negb user then done false else
  anyRole ⇐ Some (NewAnyMatcher (imp_Roles cond));
  allow_roles ctx cond anyRole impersonateRoles.
Definition matchDenyImpersonateCondition (cond : ImpersonateConditions) (impersonateUser : UserV2)
    (impersonateRoles : list Role) : outcome bool :=
  if is_nil (imp_Users cond) || is_nil (imp_Roles cond) then done false else
  anyUser ⇐ Some (NewAnyMatcher (imp_Users cond));
  user ⇐ matches_name anyUser (u_Name impersonateUser);
  if user : bool then done true else
  anyRole ⇐ Some (NewAnyMatcher (imp_Roles cond));
  deny_roles anyRole impersonateRoles.
Definition matchAllowRoleImpersonateCondition (ctx : impersonateContext) (cond : ImpersonateConditions)
    (impersonateRoles : list Role) : outcome bool :=
  if is_nil (imp_Users cond) && is_nil (imp_Roles cond) then done false else
  if negb (is_nil (imp_Users cond)) then done false else
  anyRole ⇐ Some (NewAnyMatcher (imp_Roles cond));
  allow_roles ctx cond anyRole impersonateRoles.
Definition matchDenyRoleImpersonateCondition (cond : ImpersonateConditions) (impersonateRoles : list Role) : outcome bool :=
  if is_nil (imp_Users cond) && is_nil (imp_Roles cond) then done false else
  if negb (is_nil (imp_Users cond)) then done false else
  anyRole ⇐ Some (NewAnyMatcher (imp_Roles cond));
  deny_roles anyRole impersonateRoles.

Definition CanImpersonateSomeone (set : RoleSet) : bool :=
  existsb (fun role => negb (IsEmpty (GetImpersonateConditions Allow role))) set.

(** The loops over the roles of the set: the first match decides. *)
Fixpoint first_match (check : Role → outcome bool) (set : RoleSet) : outcome bool :=
  match set with
  | [] => done false
  | role :: set => matched ⇐ check role; if matched : bool then done true else first_match check set
  end.
Definition err_impersonate : error := Error AccessDenied "access denied to '%s' to impersonate user '%s' and roles '%s'".
Definition err_impersonate_roles : error := Error AccessDenied "access denied to '%s' to impersonate roles '%s'".

Definition CheckImpersonate (set : RoleSet) (currentUser impersonateUser : UserV2) (impersonateRoles : list Role) : outcome unit :=
  let ctx := MkImpersonateContext currentUser None (Some impersonateUser) in
  denied ⇐ first_match (fun role =>
    matchDenyImpersonateCondition (GetImpersonateConditions Deny role) impersonateUser impersonateRoles) set;
  if denied : bool then Some (Err err_impersonate) else
  allowed ⇐ first_match (fun role =>
    matchAllowImpersonateCondition ctx (GetImpersonateConditions Allow role) impersonateUser impersonateRoles) set;
  if allowed : bool then done () else Some (Err err_impersonate).
Definition CheckImpersonateRoles (set : RoleSet) (currentUser : UserV2) (impersonateRoles : list Role) : outcome unit :=
  let ctx := MkImpersonateContext currentUser None None in
  denied ⇐ first_match (fun role =>
    matchDenyRoleImpersonateCondition (GetImpersonateConditions Deny role) impersonateRoles) set;
  if denied : bool then Some (Err err_impersonate_roles) else
  allowed ⇐ first_match (fun role =>
    matchAllowRoleImpersonateCondition ctx (GetImpersonateConditions Allow role) impersonateRoles) set;
  if allowed : bool then done () else Some (Err err_impersonate_roles).

(** ** What is granted *)

(** A name matches one of the patterns. *)
Definition named_by (patterns : list string) (name : string) : Prop :=
  ∃ p m, p ∈ patterns ∧ NewMatcher p = Ok m ∧ Match m name = Some true.

Lemma NewMatchers_elem patterns ms : NewAnyMatcher patterns = Ok ms → ∀ m, m ∈ ms ↔ ∃ p, p ∈ patterns ∧ NewMatcher p = Ok m.
Proof.
  unfold NewAnyMatcher. revert ms. induction patterns as [|p patterns IH]; intros ms; cbn [NewMatchers].
  { intros [= <-] m. split; [by intros ?%elem_of_nil|by intros (? & ?%elem_of_nil & _)]. }
  intros (m' & Hm & (rest & Hrest & [= <-])%result_bind_Ok)%result_bind_Ok m.
  rewrite exists_cons_iff, elem_of_cons, (IH rest Hrest), Hm. split; (intros [Hx|]; [left; congruence|by right]).
Qed.
Lemma match_any_true ms name : match_any ms name = Some true → ∃ m, m ∈ ms ∧ Match m name = Some true.
Proof.
  induction ms as [|m ms IH]; cbn [match_any]; [done|].
  destruct (Match m name) as [[]|] eqn:E; [|intros Hr|done].
  - intros _. exists m. split; [by left|done].
  - destruct (IH Hr) as (m' & ? & ?). exists m'. split; [by right|done].
Qed.
Lemma match_any_false ms name : match_any ms name = Some false → ∀ m, m ∈ ms → Match m name = Some false.
Proof.
  induction ms as [|m ms IH]; cbn [match_any]; intros Hr m' Hin; [by apply elem_of_nil in Hin|].
  apply elem_of_cons in Hin as [->|Hin]; destruct (Match m name) as [[]|]; try done. by apply IH.
Qed.

Lemma matches_name_true patterns ms name : NewAnyMatcher patterns = Ok ms →
  matches_name ms name = done true → named_by patterns name.
Proof.
  intros Hms Hm. unfold matches_name in Hm. destruct (match_any ms name) as [[]|] eqn:E; try done.
  apply match_any_true in E as (m & Hin & Hm'). apply (NewMatchers_elem _ _ Hms) in Hin as (p & ? & ?). by exists p, m.
Qed.
Lemma matches_name_false patterns ms name : NewAnyMatcher patterns = Ok ms →
  matches_name ms name = done false → ¬ named_by patterns name.
Proof.
  intros Hms Hm (p & m & Hp & Hn & Ht). unfold matches_name in Hm. destruct (match_any ms name) as [[]|] eqn:E; try done.
  assert (m ∈ ms) as Hin by (apply (NewMatchers_elem _ _ Hms); eauto).
  by rewrite (match_any_false _ _ E m Hin) in Ht.
Qed.

(** A condition of a role, where it is read for users and for roles only. *)
Definition allows_roles (ctx : impersonateContext) (cond : ImpersonateConditions) (roles : list Role) : Prop :=
  ∀ role, role ∈ roles → named_by (imp_Roles cond) (GetName role) ∧
    matchesImpersonateWhere (MkImpersonateContext (ic_user ctx) (Some role) (ic_impersonateUser ctx)) cond = Ok true.
Definition for_users (cond : ImpersonateConditions) : Prop := imp_Users cond ≠ [] ∧ imp_Roles cond ≠ [].
Definition for_roles (cond : ImpersonateConditions) : Prop := imp_Users cond = [] ∧ imp_Roles cond ≠ [].

Lemma is_nil_true {A} (l : list A) : is_nil l = true ↔ l = [].
Proof. destruct l; cbn; split; done. Qed.
Lemma is_nil_false {A} (l : list A) : is_nil l = false ↔ l ≠ [].
Proof. destruct l; cbn; split; done. Qed.

Lemma allow_roles_true ctx cond ms roles : NewAnyMatcher (imp_Roles cond) = Ok ms →
  allow_roles ctx cond ms roles = done true → allows_roles ctx cond roles.
Proof.
  intros Hms. unfold allows_roles. induction roles as [|role roles IH]; cbn [allow_roles]; intros Hr r Hin; [by apply elem_of_nil in Hin|].
  apply attempt_Ok in Hr as ([] & Hn & Hr); [|done]. apply attempt_Ok in Hr as ([] & Hw & Hr); [|done].
  injection Hw as Hw. apply elem_of_cons in Hin as [->|Hin]; [|by apply IH].
  split; [by apply (matches_name_true _ _ _ Hms)|exact Hw].
Qed.
Lemma deny_roles_false cond ms roles : NewAnyMatcher (imp_Roles cond) = Ok ms →
  deny_roles ms roles = done false → ∀ role, role ∈ roles → ¬ named_by (imp_Roles cond) (GetName role).
Proof.
  intros Hms. induction roles as [|role roles IH]; cbn [deny_roles]; intros Hr r Hin; [by apply elem_of_nil in Hin|].
  apply attempt_Ok in Hr as ([] & Hn & Hr); [done|].
  apply elem_of_cons in Hin as [->|Hin]; [by apply (matches_name_false _ _ _ Hms)|by apply IH].
Qed.
Lemma first_match_true check set : first_match check set = done true → ∃ role, role ∈ set ∧ check role = done true.
Proof.
  induction set as [|role set IH]; cbn [first_match]; [done|]. intros ([] & Hc & Hr)%attempt_Ok.
  - exists role. split; [by left|done].
  - destruct (IH Hr) as (r & ? & ?). exists r. split; [by right|done].
Qed.
Lemma first_match_false check set : first_match check set = done false → ∀ role, role ∈ set → check role = done false.
Proof.
  induction set as [|role set IH]; cbn [first_match]; intros Hr r Hin; [by apply elem_of_nil in Hin|].
  apply attempt_Ok in Hr as ([] & Hc & Hr); [done|]. apply elem_of_cons in Hin as [->|Hin]; [done|by apply IH].
Qed.

(** A user may be impersonated with some roles: no deny condition on users names
    the user or a role; and one allow condition names the user and each role, of
    which its clause holds. *)
Definition may_impersonate (set : RoleSet) (current other : UserV2) (roles : list Role) : Prop :=
  (∀ role, role ∈ set → for_users (GetImpersonateConditions Deny role) →
     ¬ named_by (imp_Users (GetImpersonateConditions Deny role)) (u_Name other) ∧
     ∀ r, r ∈ roles → ¬ named_by (imp_Roles (GetImpersonateConditions Deny role)) (GetName r)) ∧
  ∃ role, role ∈ set ∧ let cond := GetImpersonateConditions Allow role in
    for_users cond ∧ named_by (imp_Users cond) (u_Name other) ∧
    allows_roles (MkImpersonateContext current None (Some other)) cond roles.
(** The same of roles alone. *)
Definition may_take_roles (set : RoleSet) (current : UserV2) (roles : list Role) : Prop :=
  (∀ role, role ∈ set → for_roles (GetImpersonateConditions Deny role) →
     ∀ r, r ∈ roles → ¬ named_by (imp_Roles (GetImpersonateConditions Deny role)) (GetName r)) ∧
  ∃ role, role ∈ set ∧ let cond := GetImpersonateConditions Allow role in
    for_roles cond ∧ allows_roles (MkImpersonateContext current None None) cond roles.

Lemma CheckImpersonate_sound set current other roles :
  CheckImpersonate set current other roles = done () → may_impersonate set current other roles.
Proof.
  intros ([] & Hd & Hr)%attempt_Ok; [done|]. apply attempt_Ok in Hr as ([] & Ha & Hr); [|done]. split.
  - intros role Hin [Hu Hro]. pose proof (first_match_false _ _ Hd role Hin) as Hf. cbv beta in Hf.
    unfold matchDenyImpersonateCondition in Hf.
    rewrite (proj2 (is_nil_false _) Hu), (proj2 (is_nil_false _) Hro) in Hf. cbn [orb] in Hf.
    apply attempt_Ok in Hf as (us & [= Hus] & ([] & Hn & Hf)%attempt_Ok); [done|].
    apply attempt_Ok in Hf as (rs & [= Hrs] & Hf). split.
    + by apply (matches_name_false _ _ _ Hus).
    + by apply (deny_roles_false _ _ _ Hrs).
  - apply first_match_true in Ha as (role & Hin & Hm). exists role. split; [done|].
    unfold matchAllowImpersonateCondition in Hm. destruct (is_nil _ || is_nil _) eqn:E; [done|].
    apply orb_false_iff in E as [Hu%is_nil_false Hro%is_nil_false].
    apply attempt_Ok in Hm as (us & [= Hus] & ([] & Hn & Hf)%attempt_Ok); [|done].
    apply attempt_Ok in Hf as (rs & [= Hrs] & Hf). split_and!; [done..| |].
    + by apply (matches_name_true _ _ _ Hus).
    + by apply (allow_roles_true _ _ _ _ Hrs).
Qed.
Lemma CheckImpersonateRoles_sound set current roles :
  CheckImpersonateRoles set current roles = done () → may_take_roles set current roles.
Proof.
  intros ([] & Hd & Hr)%attempt_Ok; [done|]. apply attempt_Ok in Hr as ([] & Ha & Hr); [|done]. split.
  - intros role Hin [Hu Hro]. pose proof (first_match_false _ _ Hd role Hin) as Hf. cbv beta in Hf.
    unfold matchDenyRoleImpersonateCondition in Hf.
    rewrite (proj2 (is_nil_true _) Hu), (proj2 (is_nil_false _) Hro) in Hf. cbn [andb negb] in Hf.
    apply attempt_Ok in Hf as (rs & [= Hrs] & Hf). by apply (deny_roles_false _ _ _ Hrs).
  - apply first_match_true in Ha as (role & Hin & Hm). exists role. split; [done|].
    unfold matchAllowRoleImpersonateCondition in Hm. destruct (is_nil (imp_Users _)) eqn:Hu; cbn [andb negb] in Hm.
    + destruct (is_nil (imp_Roles _)) eqn:Hro; [done|]. apply attempt_Ok in Hm as (rs & [= Hrs] & Hf).
      apply is_nil_true in Hu. apply is_nil_false in Hro. split; [done|]. by apply (allow_roles_true _ _ _ _ Hrs).
    + done.
Qed.
End impersonate.
