(* ===== verification/Events.v ===== *)
(** * Events and what a watch selects (api/types/events.go and the filters of
    access_request.go, session.go, lock.go and authority.go)

    A watch names kinds of resources, each with a filter; a filter travels as a
    map of strings and is read back by the resource it is for. Resources are an
    interface of the source: the class [Resource]. *)

From S2P Require Import Prelude.
From S2P Require Import Backend.
From S2P Require Import AccessRequest.
Local Open Scope string_scope.

(** ** Data *)

(** The order in which Go ranges over a map of strings: any. *)
Class FilterOrder := { range_filter : gmap string string → list (string * string) }.
Class FilterOrderLaws `{FilterOrder} : Prop := { range_filter_perm : ∀ m, range_filter m ≡ₚ map_to_list m }.

Record LockTarget := MkLockTarget {
  lt_User : string; lt_Role : string; lt_Login : string; lt_Node : string; lt_MFADevice : string;
  lt_WindowsDesktop : string; lt_AccessRequest : string
}.
#[export] Instance LockTarget_eq_dec : EqDecision LockTarget.
Proof. solve_decision. Defined.

(** What the type switch of [Matches] tells resources apart by. *)
Inductive resource_type :=
  | IsAccessRequest (req : AccessRequest)
  | IsWebSession (user : string)
  | IsLock (target : LockTarget)
  | IsCertAuthority (caType clusterName : string)
  | IsOther.

(** [WithoutSecrets] is [None] for a resource that has no such method. *)
Class Resource (R : Type) := {
  GetKind : R → string;
  GetName : R → string;
  WithoutSecrets : R → option R;
  type_of : R → resource_type
}.

(** Reading a lock target from a map goes through the JSON codec. *)
Class TargetCodec := { Target_FromMap : gmap string string → result LockTarget }.

Record WatchKind := MkWatchKind {
  wk_Kind : string; wk_SubKind : string; wk_Name : string; wk_Version : string;
  LoadSecrets : bool; wk_Filter : gmap string string
}.
Record Watch := MkWatch { watch_Name : string; Kinds : list WatchKind; QueueSize : Z }.

(** An event without a resource, like the one of [OpInit], has [None]. *)
Record Event (R : Type) := MkEvent { ev_Type : OpType; ev_Resource : option R }.
Arguments MkEvent {R} ev_Type ev_Resource.
Arguments ev_Type {R} e.
Arguments ev_Resource {R} e.

#[export] Instance OpType_eq_dec : EqDecision OpType.
Proof. solve_decision. Defined.

(** ** Filters *)

Definition RequestState_String (s : RequestState) : string :=
  match s with NONE => "NONE" | PENDING => "PENDING" | APPROVED => "APPROVED" | DENIED => "DENIED" end.
Definition stateVariants : list RequestState := [NONE; PENDING; APPROVED; DENIED].
Fixpoint Parse_variants (variants : list RequestState) (val : string) : result RequestState :=
  match variants with
  | [] => Err (Error BadParameter "unknown request state: %q")
  | state :: variants => if String.eqb (RequestState_String state) val then Ok state else Parse_variants variants val
  end.
Definition RequestState_Parse (val : string) : result RequestState := Parse_variants stateVariants val.

Definition keyID : string := "id".
Definition keyUser : string := "user".
Definition keyState : string := "state".

Definition RequestFilter_IntoMap (f : AccessRequestFilter) : gmap string string :=
  let m := ∅ in
  let m := if negb (String.eqb (f_ID f) "") then <[ keyID := f_ID f ]> m else m in
  let m := if negb (String.eqb (f_User f) "") then <[ keyUser := f_User f ]> m else m in
  if negb (IsNone (f_State f)) then <[ keyState := RequestState_String (f_State f) ]> m else m.

Fixpoint RequestFilter_set (m : list (string * string)) (f : AccessRequestFilter) : result AccessRequestFilter :=
  match m with
  | [] => Ok f
  | (key, val) :: m =>
      if String.eqb key keyID then RequestFilter_set m (MkFilter val (f_User f) (f_State f)) else
      if String.eqb key keyUser then RequestFilter_set m (MkFilter (f_ID f) val (f_State f)) else
      if String.eqb key keyState then
        state ← RequestState_Parse val;
        RequestFilter_set m (MkFilter (f_ID f) (f_User f) state)
      else Err (Error BadParameter "unknown filter key %s")
  end.

(** The user of a web session, empty for any. *)
Definition WebSessionFilter_IntoMap (user : string) : gmap string string :=
  if negb (String.eqb user "") then {[ keyUser := user ]} else ∅.
Fixpoint WebSessionFilter_set (m : list (string * string)) (user : string) : result string :=
  match m with
  | [] => Ok user
  | (key, val) :: m =>
      if String.eqb key keyUser then WebSessionFilter_set m val else Err (Error BadParameter "unknown filter key %s")
  end.
Definition WebSessionFilter_Match (user session_user : string) : bool :=
  if negb (String.eqb user "") && negb (String.eqb session_user user) then false else true.

Definition Target_IsEmpty (t : LockTarget) : bool := bool_decide (t = MkLockTarget "" "" "" "" "" "" "").
(** A field of the target that is set and differs from the lock's. *)
Definition differs (mine theirs : string) : bool := negb (String.eqb mine "") && negb (String.eqb theirs mine).
Definition Target_Match (t lockTarget : LockTarget) : bool :=
  if Target_IsEmpty t then false else
  if differs (lt_User t) (lt_User lockTarget) then false else
  if differs (lt_Role t) (lt_Role lockTarget) then false else
  if differs (lt_Login t) (lt_Login lockTarget) then false else
  if differs (lt_Node t) (lt_Node lockTarget) then false else
  if differs (lt_MFADevice t) (lt_MFADevice lockTarget) then false else
  if differs (lt_WindowsDesktop t) (lt_WindowsDesktop lockTarget) then false else
  if differs (lt_AccessRequest t) (lt_AccessRequest lockTarget) then false else true.

(** A filter of authorities is the map itself; a missing type reads as empty. *)
Definition CertAuthorityFilter_Match (f : gmap string string) (caType clusterName : string) : bool :=
  if bool_decide (f = ∅) then true else
  let v := default "" (f !! caType) in
  String.eqb v "*" || String.eqb v clusterName.

(** ** Matching *)

Section matching.
Context {R : Type} `{Resource R} `{FilterOrder} `{TargetCodec}.

Definition RequestFilter_FromMap (m : gmap string string) : result AccessRequestFilter :=
  RequestFilter_set (range_filter m) (MkFilter "" "" NONE).
Definition WebSessionFilter_FromMap (m : gmap string string) : result string :=
  WebSessionFilter_set (range_filter m) "".

(** The filter of a put event; [true] is to let the event through. *)
Definition filter_event (kind : WatchKind) (res : R) : result bool :=
  match type_of res with
  | IsAccessRequest req => filter ← RequestFilter_FromMap (wk_Filter kind); Ok (Filter_Match filter req)
  | IsWebSession user => filter ← WebSessionFilter_FromMap (wk_Filter kind); Ok (WebSessionFilter_Match filter user)
  | IsLock lock => target ← Target_FromMap (wk_Filter kind); Ok (Target_Match target lock)
  | IsCertAuthority caType clusterName => Ok (CertAuthorityFilter_Match (wk_Filter kind) caType clusterName)
  | IsOther => Ok true
  end.
(** The receiver of a resource that is nil is dereferenced: [None]. *)
Definition Matches (kind : WatchKind) (e : Event R) : outcome bool :=
  match ev_Resource e with
  | None => None
  | Some res =>
      if negb (String.eqb (wk_Kind kind) (GetKind res)) then done false else
      if negb (String.eqb (wk_Name kind) "") && negb (String.eqb (wk_Name kind) (GetName res)) then done false else
      if negb (bool_decide (wk_Filter kind = ∅)) && bool_decide (ev_Type e = OpPut) then Some (filter_event kind res)
      else done true
  end.
Definition IsTrivial (kind : WatchKind) : bool :=
  String.eqb (wk_SubKind kind) "" && String.eqb (wk_Name kind) "" && String.eqb (wk_Version kind) "" &&
  negb (LoadSecrets kind) && bool_decide (wk_Filter kind = ∅).
End matching.

(** ** Filters mean what they say *)

Lemma RequestState_Parse_String s : RequestState_Parse (RequestState_String s) = Ok s.
Proof. by destruct s. Qed.

(** Reading pairs whose keys differ: any order gives the same filter. *)
(** Pairs of known keys that differ: any order of them gives the same filter. *)
Lemma RequestFilter_set_known m f f' : NoDup m.*1 →
  (∀ k v, (k, v) ∈ m → k ∈ [keyID; keyUser; keyState]) →
  let l := list_to_map (M:=gmap string string) m in
  f_ID f' = default (f_ID f) (l !! keyID) → f_User f' = default (f_User f) (l !! keyUser) →
  match l !! keyState with
  | Some v => RequestState_Parse v = Ok (f_State f')
  | None => f_State f' = f_State f
  end →
  RequestFilter_set m f = Ok f'.
Proof.
  cbv zeta. intros Hnd. revert f. induction m as [|[k v] m IH]; intros f Hk; cbn [RequestFilter_set].
  - cbn. destruct f, f'. cbn. by intros -> -> ->.
  - cbn [fmap list_fmap fst] in Hnd. apply NoDup_cons in Hnd as [Hn Hnd].
    assert (list_to_map (M:=gmap string string) m !! k = None) as Hl by (by apply not_elem_of_list_to_map).
    assert (∀ k v, (k, v) ∈ m → k ∈ [keyID; keyUser; keyState]) as Hk' by (intros ???; apply (Hk k0 v0); by right).
    assert (k ∈ [keyID; keyUser; keyState]) as Hin by (apply (Hk k v); left).
    rewrite !elem_of_cons, elem_of_nil in Hin. rewrite list_to_map_cons.
    destruct Hin as [->|[->|[->|[]]]]; unfold keyID, keyUser, keyState in *; cbn [String.eqb Ascii.eqb Bool.eqb];
      rewrite ?lookup_insert_eq, ?lookup_insert_ne by done; cbn [default].
    + intros ???. apply IH; cbn; [done..|by rewrite Hl| |]; done.
    + intros ???. apply IH; cbn; [done..| |by rewrite Hl|]; done.
    + intros ?? E. rewrite E. cbn. apply IH; cbn; [done..|by rewrite Hl].
Qed.

Lemma RequestFilter_IntoMap_keys f k : is_Some (RequestFilter_IntoMap f !! k) → k ∈ [keyID; keyUser; keyState].
Proof.
  intros [v Hv]. rewrite !elem_of_cons. destruct (decide (k = keyID)), (decide (k = keyUser)), (decide (k = keyState)); try tauto.
  exfalso. revert Hv. unfold RequestFilter_IntoMap. repeat case_match; by rewrite ?lookup_insert_ne by done.
Qed.

(** a filter of requests travels as a map: what is read back, in whatever
    order the map is ranged over, is the filter that was sent, and the filter of
    web sessions likewise. *)
Theorem filters_roundtrip `{FilterOrderLaws} (f : AccessRequestFilter) (user : string) :
  RequestFilter_FromMap (RequestFilter_IntoMap f) = Ok f ∧
  WebSessionFilter_FromMap (WebSessionFilter_IntoMap user) = Ok user.
Proof.
  split.
  - assert (map_to_list (RequestFilter_IntoMap f) ≡ₚ range_filter (RequestFilter_IntoMap f)) as Hp by (by rewrite range_filter_perm).
    assert (NoDup (range_filter (RequestFilter_IntoMap f)).*1) as Hnd by (rewrite <- Hp; apply NoDup_fst_map_to_list).
    assert (list_to_map (range_filter (RequestFilter_IntoMap f)) = RequestFilter_IntoMap f) as Hl.
    { rewrite <- (list_to_map_proper _ _ (NoDup_fst_map_to_list _) Hp). apply list_to_map_to_list. }
    unfold RequestFilter_FromMap. apply RequestFilter_set_known; [done|..]; rewrite ?Hl.
    + intros k v. rewrite <- Hp, elem_of_map_to_list. intros Hv.
      apply (RequestFilter_IntoMap_keys f). by eexists.
    + destruct f as [i u st]. unfold RequestFilter_IntoMap, keyID, keyUser, keyState. cbn.
      destruct (String.eqb_spec i ""), (String.eqb_spec u ""), st; cbn; by simplify_map_eq.
    + destruct f as [i u st]. unfold RequestFilter_IntoMap, keyID, keyUser, keyState. cbn.
      destruct (String.eqb_spec i ""), (String.eqb_spec u ""), st; cbn; by simplify_map_eq.
    + destruct f as [i u st]. unfold RequestFilter_IntoMap, keyID, keyUser, keyState. cbn.
      destruct (String.eqb_spec i ""), (String.eqb_spec u ""), st; cbn; by simplify_map_eq.
  - unfold WebSessionFilter_FromMap, WebSessionFilter_IntoMap. destruct (String.eqb_spec user "") as [->|Hu]; cbn [negb].
    + assert (range_filter ∅ = []) as ->; [|done]. apply Permutation_nil_r. by rewrite range_filter_perm, map_to_list_empty.
    + assert (range_filter {[keyUser := user]} = [(keyUser, user)]) as ->; [|done].
      apply Permutation_singleton_r. by rewrite range_filter_perm, map_to_list_singleton.
Qed.
