(* ===== verification/Fanout.v ===== *)
(** * The fan-out of events to watchers (lib/services/fanout.go)

    A [Fanout] hands the events it is given to the watchers registered with it,
    each through a channel of its own. Watchers are pointers into [store]. What
    runs beside the fan-out (receivers, cancellation) acts between any two
    attempts to send: a send comes with the list of what happened before it and
    the choice of the [select] it is made in. *)

From S2P Require Import Prelude.
From S2P Require Import Backend.
From S2P Require Import AccessRequest.
From S2P Require Import Events.
Local Open Scope string_scope.

(** An order in which Go ranges over the keys of a map. *)
Record map_range := MkRange { range_of : list string → list string; range_perm : ∀ l, range_of l ≡ₚ l }.

Section fanout.
Context {R : Type} `{Resource R} `{FilterOrder} `{TargetCodec}.

(** ** Watchers *)

(** [eventC] holds what was sent and not yet received, [received] what the
    receiver has taken; [initOnce] is the result of [init], once it has run. *)
Record fanoutWatcher := MkWatcher {
  fw_watch : Watch; eventC : list (Event R); received : list (Event R);
  cancelled : bool; fw_err : option error; initOnce : option bool
}.
Definition set_channel (c r : list (Event R)) (w : fanoutWatcher) : fanoutWatcher :=
  MkWatcher (fw_watch w) c r (cancelled w) (fw_err w) (initOnce w).
Definition cancel (w : fanoutWatcher) : fanoutWatcher :=
  MkWatcher (fw_watch w) (eventC w) (received w) true (fw_err w) (initOnce w).
Definition setError (err : error) (w : fanoutWatcher) : fanoutWatcher :=
  MkWatcher (fw_watch w) (eventC w) (received w) (cancelled w) (Some err) (initOnce w).
Definition set_initOnce (ok : bool) (w : fanoutWatcher) : fanoutWatcher :=
  MkWatcher (fw_watch w) (eventC w) (received w) (cancelled w) (fw_err w) (Some ok).

Definition defaultQueueSize : Z := 64.
Definition newFanoutWatcher (watch : Watch) : result fanoutWatcher :=
  if (length (Kinds watch) <? 1)%nat then Err (Error BadParameter "must specify at least one resource kind to watch") else
  let watch := if (QueueSize watch <? 1)%Z then MkWatch (watch_Name watch) (Kinds watch) defaultQueueSize else watch in
  Ok (MkWatcher watch [] [] false None None).

(** A send to the channel does not block. *)
Definition room (w : fanoutWatcher) : bool := (Z.of_nat (length (eventC w)) <? QueueSize (fw_watch w))%Z.
Definition init_event : Event R := MkEvent OpInit None.
Definition initOk (w : fanoutWatcher) : bool := default false (initOnce w).
Definition init (w : fanoutWatcher) : fanoutWatcher :=
  match initOnce w with
  | Some _ => w
  | None => if room w then set_initOnce true (set_channel (eventC w ++ [init_event]) (received w) w)
            else set_initOnce false w
  end.
(** When the watcher is closed and its channel has room, [select] takes either
    case: [pick] is to see that it is closed. *)
Definition err_closed : error := Error PlainError "watcher closed".
Definition err_overflow : error := Error BadParameter "buffer overflow".
Definition emit (pick : bool) (event : Event R) (w : fanoutWatcher) : result unit * fanoutWatcher :=
  if cancelled w && (pick || negb (room w)) then (Err err_closed, w) else
  if room w then (Ok (), set_channel (eventC w ++ [event]) (received w) w) else (Err err_overflow, w).
Definition watcher_Error (w : fanoutWatcher) : option error :=
  match fw_err w with
  | Some err => Some err
  | None => if cancelled w then Some err_closed else None
  end.

(** ** What runs beside the fan-out *)

(** A receiver takes an event; a watcher is cancelled: by its owner, by its
    context, or by the goroutine of [Reset] or [Close]. *)
Inductive env := EReceive (w : nat) | ECancel (w : nat).
Definition receive (w : fanoutWatcher) : fanoutWatcher :=
  match eventC w with e :: c => set_channel c (received w ++ [e]) w | [] => w end.
Definition run_env (st : list fanoutWatcher) (e : env) : list fanoutWatcher :=
  match e with EReceive w => alter receive w st | ECancel w => alter cancel w st end.
Definition run_envs (es : list env) (st : list fanoutWatcher) : list fanoutWatcher := fold_left run_env es st.

(** ** The fan-out *)

Record fanoutEntry := MkEntry { fe_kind : WatchKind; fe_watcher : nat }.
Record Fanout := MkFanout {
  f_init : bool; f_closed : bool; watchers : gmap string (list fanoutEntry); store : list fanoutWatcher
}.
Definition set_store (st : list fanoutWatcher) (f : Fanout) : Fanout :=
  MkFanout (f_init f) (f_closed f) (watchers f) st.
Definition set_watchers (ws : gmap string (list fanoutEntry)) (f : Fanout) : Fanout :=
  MkFanout (f_init f) (f_closed f) ws (store f).

Definition NewFanout : Fanout := MkFanout false false ∅ [].
(** The slice of a kind: a kind that is missing reads as no entries. *)
Definition entries_at (ws : gmap string (list fanoutEntry)) (kind : string) : list fanoutEntry := default [] (ws !! kind).
Definition Len (f : Fanout) : nat := sum_list (length ∘ snd <$> map_to_list (watchers f)).

Definition add_kind (w : nat) (ws : gmap string (list fanoutEntry)) (kind : WatchKind) : gmap string (list fanoutEntry) :=
  <[ wk_Kind kind := (entries_at ws (wk_Kind kind) ++ [MkEntry kind w])%list ]> ws.
Definition addWatcher (w : nat) (kinds : list WatchKind) (f : Fanout) : Fanout :=
  set_watchers (fold_left (add_kind w) kinds (watchers f)) f.

Definition NewWatcher (watch : Watch) (f : Fanout) : result nat * Fanout :=
  if f_closed f then (Err (Error PlainError "cannot register watcher, fanout system closed"), f) else
  match newFanoutWatcher watch with
  | Err e => (Err e, f)
  | Ok fw =>
      let w := length (store f) in
      let fw := if f_init f then init fw else fw in
      if f_init f && negb (initOk fw)
      then (Err (Error BadParameter "failed to send init event"), set_store (store f ++ [cancel fw]) f)
      else (Ok w, addWatcher w (Kinds (fw_watch fw)) (set_store (store f ++ [fw]) f))
  end.

(** Removes the first entry of a watcher under each of its kinds. *)
Fixpoint remove_first (w : nat) (entries : list fanoutEntry) : list fanoutEntry :=
  match entries with
  | [] => []
  | entry :: entries => if (fe_watcher entry =? w)%nat then entries else entry :: remove_first w entries
  end.
Definition remove_kind (w : nat) (ws : gmap string (list fanoutEntry)) (kind : WatchKind) : gmap string (list fanoutEntry) :=
  match remove_first w (entries_at ws (wk_Kind kind)) with
  | [] => delete (wk_Kind kind) ws
  | entries => <[ wk_Kind kind := entries ]> ws
  end.
Definition removeWatcher (w : nat) (f : Fanout) : Fanout :=
  match store f !! w with
  | None => f
  | Some fw => set_watchers (fold_left (remove_kind w) (Kinds (fw_watch fw)) (watchers f)) f
  end.
Definition remove_and_cancel (f : Fanout) (w : nat) : Fanout :=
  let f := removeWatcher w f in set_store (alter cancel w (store f)) f.

(** ** SetInit *)

(** [None] is a nil watcher, which no entry holds. *)
Fixpoint init_entries (entries : list fanoutEntry) (st : list fanoutWatcher) (remove : list nat) :
    option (list fanoutWatcher * list nat) :=
  match entries with
  | [] => Some (st, remove)
  | entry :: entries =>
      fw ← st !! fe_watcher entry;
      let fw := init fw in
      init_entries entries (<[ fe_watcher entry := fw ]> st)
        (if initOk fw then remove else (remove ++ [fe_watcher entry])%list)
  end.
Fixpoint init_kinds (kinds : list string) (f : Fanout) : option Fanout :=
  match kinds with
  | [] => Some f
  | kind :: kinds =>
      '(st, remove) ← init_entries (entries_at (watchers f) kind) (store f) [];
      init_kinds kinds (fold_left remove_and_cancel remove (set_store st f))
  end.
Definition SetInit (order : map_range) (f : Fanout) : option Fanout :=
  if f_init f then Some f else
  f ← init_kinds (range_of order (elements (dom (watchers f)))) f;
  Some (MkFanout true (f_closed f) (watchers f) (store f)).

(** ** Emit *)

Definition filterEventSecrets (event : Event R) : Event R :=
  match ev_Resource event with
  | None => event
  | Some r => match WithoutSecrets r with None => event | Some r => MkEvent (ev_Type event) (Some r) end
  end.

(** What an entry of a kind is sent of an event, if anything. *)
Definition entry_event (fullEvent : Event R) (kind : WatchKind) : outcome (option (Event R)) :=
  let event := filterEventSecrets fullEvent in
  match ev_Resource event with
  | None => done (Some event)
  | Some _ =>
      m ⇐ Matches kind event;
      done (if m : bool then Some (if LoadSecrets kind then fullEvent else event) else None)
  end.

(** One attempt to send: what runs before it, and the choice of its [select]. *)
Definition choice : Type := (list env * bool).
Definition next_choice (cs : list choice) : choice * list choice :=
  match cs with [] => (([], false), []) | c :: cs => (c, cs) end.

Fixpoint emit_entries (event : WatchKind → outcome (option (Event R))) (entries : list fanoutEntry) (cs : list choice)
    (st : list fanoutWatcher) (remove : list nat) : option (list fanoutWatcher * list nat) :=
  match entries with
  | [] => Some (st, remove)
  | MkEntry kind w :: entries =>
      let '((envs, pick), cs) := next_choice cs in
      let st := run_envs envs st in
      e ← event kind;
      match e with
      | Err err => emit_entries event entries cs (alter (setError err) w st) (remove ++ [w])%list
      | Ok None => emit_entries event entries cs st remove
      | Ok (Some e) =>
          fw ← st !! w;
          match emit pick e fw with
          | (Ok _, fw) => emit_entries event entries cs (<[ w := fw ]> st) remove
          | (Err err, fw) => emit_entries event entries cs (<[ w := setError err fw ]> st) (remove ++ [w])%list
          end
      end
  end.

(** An event with the order and the choices it meets. *)
Record emission := MkEmission { em_event : Event R; em_order : map_range; em_choices : list choice }.
(** An event that has no resource goes to the entries of every kind. *)
Definition entries_for (order : map_range) (event : Event R) (ws : gmap string (list fanoutEntry)) : list fanoutEntry :=
  match ev_Resource event with
  | None => concat (map (entries_at ws) (range_of order (elements (dom ws))))
  | Some res => entries_at ws (GetKind res)
  end.
Definition emit_event (em : emission) (f : Fanout) : option Fanout :=
  let entries := entries_for (em_order em) (filterEventSecrets (em_event em)) (watchers f) in
  '(st, remove) ← emit_entries (entry_event (em_event em)) entries (em_choices em) (store f) [];
  Some (fold_left remove_and_cancel remove (set_store st f)).
Fixpoint emit_events (ems : list emission) (f : Fanout) : option Fanout :=
  match ems with [] => Some f | em :: ems => f ← emit_event em f; emit_events ems f end.
(** [None] is the panic of an instance that is not initialized. *)
Definition Emit (ems : list emission) (f : Fanout) : option Fanout := if f_init f then emit_events ems f else None.

(** ** Reset and Close *)

(** Both take the watchers out; a goroutine cancels them afterwards. *)
Definition takeAndReset (f : Fanout) : gmap string (list fanoutEntry) * Fanout :=
  (watchers f, MkFanout false (f_closed f) ∅ (store f)).
Definition takeAndClose (f : Fanout) : gmap string (list fanoutEntry) * Fanout :=
  (watchers f, MkFanout (f_init f) true ∅ (store f)).
Definition closeWatchers (order : map_range) (watchersToClose : gmap string (list fanoutEntry)) : list env :=
  ECancel ∘ fe_watcher <$> concat (map (entries_at watchersToClose) (range_of order (elements (dom watchersToClose)))).

(** ** Runs *)

(** The operations of a fan-out, and what runs beside them: [OEnv] is a receiver
    or a cancellation, [ORemove] the goroutine of a watcher that was closed. *)
Inductive fanout_op :=
  | ONewWatcher (watch : Watch)
  | OSetInit (order : map_range)
  | OEmit (ems : list emission)
  | OReset
  | OClose
  | ORemove (w : nat)
  | OEnv (e : env).
Definition fanout_step (f : Fanout) (o : fanout_op) : option Fanout :=
  match o with
  | ONewWatcher watch => Some (snd (NewWatcher watch f))
  | OSetInit order => SetInit order f
  | OEmit ems => Emit ems f
  | OReset => Some (snd (takeAndReset f))
  | OClose => Some (snd (takeAndClose f))
  | ORemove w => Some (removeWatcher w f)
  | OEnv e => Some (set_store (run_env (store f) e) f)
  end.
Fixpoint fanout_run (os : list fanout_op) (f : Fanout) : option Fanout :=
  match os with [] => Some f | o :: os => f ← fanout_step f o; fanout_run os f end.
End fanout.
Arguments fanoutWatcher : clear implicits.
Arguments Fanout : clear implicits.
Arguments emission : clear implicits.
Arguments fanout_op : clear implicits.
