(* ===== verification/FanoutSpec.v ===== *)
(** * What the fan-out delivers (lib/services/fanout.go)

    The invariant of a [Fanout], and its contract: a watcher that is still
    registered was sent the init event and then everything its kinds select. *)

From S2P Require Import Prelude.
From S2P Require Import Backend.
From S2P Require Import AccessRequest.
From S2P Require Import Events.
From S2P Require Import Fanout.
Local Open Scope string_scope.

Section fanout.
Context {R : Type} `{Resource R} `{FilterOrder} `{TargetCodec}.
Implicit Types (f : Fanout R) (fw : fanoutWatcher R) (w : nat) (k : string) (ws : gmap string (list fanoutEntry)).

(** ** The contract *)

(** What a watcher was sent: what it took and what waits for it. *)
Definition sent fw : list (Event R) := (received fw ++ eventC fw)%list.

(** What an event amounts to for a kind, and for a watch. *)
Definition event_for (event : Event R) (kind : WatchKind) : list (Event R) :=
  match entry_event event kind with Some (Ok (Some e)) => [e] | _ => [] end.
Definition deliveries (watch : Watch) (event : Event R) : list (Event R) :=
  (Kinds watch ≫= event_for event)%list.

Definition entries_of w (entries : list fanoutEntry) : list fanoutEntry :=
  filter (fun en => fe_watcher en = w) entries.
Definition registered w f : Prop := ∃ k, entries_of w (entries_at (watchers f) k) ≠ [].

(** The kinds of a watch under a key of the map. *)
Definition kinds_at k (kinds : list WatchKind) : list WatchKind := filter (fun kind => wk_Kind kind = k) kinds.

(** ** The map of watchers *)

Lemma entries_at_insert ws k es k' :
  entries_at (<[k := es]> ws) k' = if decide (k = k') then es else entries_at ws k'.
Proof. unfold entries_at. rewrite lookup_insert. by case_decide. Qed.
Lemma entries_at_delete ws k k' :
  entries_at (delete k ws) k' = if decide (k = k') then [] else entries_at ws k'.
Proof. unfold entries_at. rewrite lookup_delete. by case_decide. Qed.

Lemma entries_of_remove_first w w' es :
  entries_of w' (remove_first w es) = if decide (w' = w) then tail (entries_of w' es) else entries_of w' es.
Proof.
  unfold entries_of. induction es as [|en es IH]; cbn [remove_first]; [by case_decide|].
  destruct (Nat.eqb_spec (fe_watcher en) w) as [Hw|Hw]; rewrite !filter_cons.
  - destruct (decide (w' = w)) as [->|Hn]; [by rewrite decide_True|by rewrite decide_False by congruence].
  - rewrite IH. destruct (decide (w' = w)) as [->|Hn]; [by rewrite !decide_False|done].
Qed.
Lemma entries_at_remove_kind w ws kind k :
  entries_at (remove_kind w ws kind) k = if decide (wk_Kind kind = k) then remove_first w (entries_at ws k) else entries_at ws k.
Proof.
  unfold remove_kind. destruct (remove_first w _) as [|en es] eqn:E.
  - rewrite entries_at_delete. case_decide; [by subst|done].
  - rewrite entries_at_insert. case_decide; [by subst|done].
Qed.

(** Removal takes out one entry for each kind, and leaves other watchers alone. *)
Lemma entries_of_remove_kinds w w' kinds ws k :
  entries_of w' (entries_at (fold_left (remove_kind w) kinds ws) k) =
    if decide (w' = w) then drop (length (kinds_at k kinds)) (entries_of w' (entries_at ws k))
    else entries_of w' (entries_at ws k).
Proof.
  revert ws. induction kinds as [|kind kinds IH]; intros ws; cbn [fold_left]; [by case_decide|].
  rewrite IH, entries_at_remove_kind. unfold kinds_at. rewrite filter_cons.
  destruct (decide (wk_Kind kind = k)); [|done]. rewrite entries_of_remove_first.
  case_decide; [|done]. cbn [length]. destruct (entries_of w' _); cbn [tail drop]; by rewrite ?drop_nil.
Qed.
Lemma entries_of_add_kinds w w' kinds ws k :
  entries_of w' (entries_at (fold_left (add_kind w) kinds ws) k) =
    (entries_of w' (entries_at ws k) ++ if decide (w' = w) then (fun kind => MkEntry kind w) <$> kinds_at k kinds else [])%list.
Proof.
  revert ws. induction kinds as [|kind kinds IH]; intros ws; cbn [fold_left].
  - case_decide; by rewrite app_nil_r.
  - rewrite IH. unfold add_kind at 1. rewrite entries_at_insert. unfold kinds_at. rewrite filter_cons.
    destruct (decide (wk_Kind kind = k)) as [->|]; [|done].
    unfold entries_of at 1. rewrite filter_app, filter_cons, filter_nil. cbn [fe_watcher].
    destruct (decide (w = w')) as [->|]; [rewrite !decide_True by done|by rewrite !decide_False, !app_nil_r by done].
    cbn [fmap list_fmap]. by rewrite <- app_assoc.
Qed.

(** ** One watcher *)

Definition fits fw : Prop := (1 ≤ QueueSize (fw_watch fw) ∧ Z.of_nat (length (eventC fw)) ≤ QueueSize (fw_watch fw))%Z.
(** A watcher that was sent [out], and otherwise only received from, cancelled
    or given an error. *)
Record sent_more (out : list (Event R)) fw fw' : Prop := {
  more_watch : fw_watch fw' = fw_watch fw;
  more_init : initOnce fw' = initOnce fw;
  more_fits : fits fw → fits fw';
  more_sent : sent fw' = (sent fw ++ out)%list
}.
Lemma sent_more_refl fw : sent_more [] fw fw.
Proof. split; [done..|by rewrite app_nil_r]. Qed.
Lemma sent_more_trans o1 o2 fw1 fw2 fw3 : sent_more o1 fw1 fw2 → sent_more o2 fw2 fw3 → sent_more (o1 ++ o2) fw1 fw3.
Proof. intros [] []. split; [congruence..|auto|]. rewrite more_sent1, more_sent0. by rewrite app_assoc. Qed.
Lemma sent_more_receive fw : sent_more [] fw (receive fw).
Proof.
  unfold receive. destruct (eventC fw) as [|e c] eqn:E; [apply sent_more_refl|].
  split; [done..| |]; unfold fits, sent; rewrite ?E; cbn; [lia|].
  by rewrite app_nil_r, <- app_assoc.
Qed.
Lemma sent_more_cancel fw : sent_more [] fw (cancel fw).
Proof. split; [done..|by unfold sent; cbn; rewrite app_nil_r]. Qed.
Lemma sent_more_setError err fw : sent_more [] fw (setError err fw).
Proof. split; [done..|by unfold sent; cbn; rewrite app_nil_r]. Qed.
Lemma sent_more_emit pick e fw r fw' : emit pick e fw = (r, fw') → sent_more (if is_Ok r then [e] else []) fw fw'.
Proof.
  unfold emit, room. destruct (_ && _); [intros [= <- <-]; apply sent_more_refl|].
  destruct (Z.ltb_spec (Z.of_nat (length (eventC fw))) (QueueSize (fw_watch fw))) as [Hl|].
  - intros [= <- <-]. split; [done..| |].
    + unfold fits. cbn. rewrite length_app. cbn. lia.
    + unfold sent. cbn. by rewrite app_assoc.
  - intros [= <- <-]. apply sent_more_refl.
Qed.

(** ** The store *)

Implicit Types (st : list (fanoutWatcher R)).
(** [alter] on the store at one pointer, seen from another. *)
Lemma alter_sent_more (g : fanoutWatcher R → fanoutWatcher R) w st w' fw :
  (∀ fw, sent_more [] fw (g fw)) → st !! w' = Some fw →
  ∃ fw', alter g w st !! w' = Some fw' ∧ sent_more [] fw fw'.
Proof.
  intros Hg Hw. destruct (decide (w = w')) as [->|Hn].
  - exists (g fw). split; [|apply Hg]. by rewrite list_lookup_alter_eq, Hw.
  - exists fw. rewrite list_lookup_alter_ne by done. split; [done|apply sent_more_refl].
Qed.
Lemma run_envs_sent_more es st w fw : st !! w = Some fw → ∃ fw', run_envs es st !! w = Some fw' ∧ sent_more [] fw fw'.
Proof.
  unfold run_envs. revert st fw. induction es as [|e es IH]; intros st fw Hw; cbn [fold_left].
  - exists fw. split; [done|apply sent_more_refl].
  - assert (∃ fw', run_env st e !! w = Some fw' ∧ sent_more [] fw fw') as (fw1 & E1 & Hs1).
    { destruct e; cbn [run_env]; by apply alter_sent_more; [apply sent_more_receive || apply sent_more_cancel|]. }
    destruct (IH _ _ E1) as (fw2 & E2 & Hs2). exists fw2. split; [done|]. by apply (sent_more_trans [] [] _ fw1).
Qed.
Lemma length_run_envs es st : length (run_envs es st) = length st.
Proof.
  unfold run_envs. revert st. induction es as [|e es IH]; intros st; cbn [fold_left]; [done|].
  rewrite IH. by destruct e; apply length_alter.
Qed.

(** ** A round of sends *)

Implicit Types (event : WatchKind → outcome (option (Event R))).
Definition out_of (o : outcome (option (Event R))) : list (Event R) :=
  match o with Some (Ok (Some e)) => [e] | _ => [] end.
Definition outs event w (entries : list fanoutEntry) : list (Event R) :=
  (fe_kind <$> entries_of w entries) ≫= (fun kind => out_of (event kind)).
Lemma outs_cons event w en es :
  outs event w (en :: es) = ((if decide (fe_watcher en = w) then out_of (event (fe_kind en)) else []) ++ outs event w es)%list.
Proof. unfold outs, entries_of. rewrite filter_cons. by case_decide. Qed.

(** Overwriting one watcher with what a send made of it. *)
Lemma insert_sent_more st w fw0 fw1 out w' fw :
  st !! w = Some fw0 → sent_more out fw0 fw1 → st !! w' = Some fw →
  ∃ fw', <[w := fw1]> st !! w' = Some fw' ∧ sent_more (if decide (w = w') then out else []) fw fw'.
Proof.
  intros H0' Hs Hw. destruct (decide (w = w')) as [->|Hn].
  - exists fw1. rewrite H0' in Hw. injection Hw as <-.
    split; [|done]. apply list_lookup_insert_eq. by apply lookup_lt_Some in H0'.
  - exists fw. rewrite list_lookup_insert_ne by done. split; [done|apply sent_more_refl].
Qed.

Definition round_ok event entries st (remove : list nat) st' (remove' : list nat) : Prop :=
  length st' = length st ∧ remove ⊆ remove' ∧
  ∀ w fw, st !! w = Some fw → ∃ out fw', st' !! w = Some fw' ∧ sent_more out fw fw' ∧
    (w ∉ remove' → out = outs event w entries).

(** One entry, then the others: what the watchers were sent adds up. *)
Lemma round_ok_cons event w kind entries st remove st1 remove1 st' remove' :
  length st1 = length st → remove ⊆ remove1 →
  (∀ w' fw, st !! w' = Some fw → ∃ out fw1, st1 !! w' = Some fw1 ∧ sent_more out fw fw1 ∧
     (w' ∉ remove1 → out = if decide (w = w') then out_of (event kind) else [])) →
  round_ok event entries st1 remove1 st' remove' → round_ok event (MkEntry kind w :: entries) st remove st' remove'.
Proof.
  intros Hl Hr Hst (Hl' & Hr' & Hst'). split_and!; [congruence|set_solver|].
  intros w' fw Hw. destruct (Hst _ _ Hw) as (o1 & fw1 & E1 & S1 & O1). destruct (Hst' _ _ E1) as (o2 & fw2 & E2 & S2 & O2).
  exists (o1 ++ o2)%list, fw2. split_and!; [done|by eapply sent_more_trans|].
  intros Hn. rewrite outs_cons. cbn [fe_watcher fe_kind]. rewrite O2 by done. by rewrite O1 by set_solver.
Qed.

Lemma emit_entries_round event entries cs st remove st' remove' :
  emit_entries event entries cs st remove = Some (st', remove') → round_ok event entries st remove st' remove'.
Proof.
  revert cs st remove. induction entries as [|[kind w] entries IH]; intros cs st remove; cbn [emit_entries].
  { intros [= <- <-]. split_and!; [done..|]. intros w fw Hw. exists [], fw. split_and!; [done|apply sent_more_refl|done]. }
  destruct (next_choice cs) as [[envs pick] cs']. pose proof (run_envs_sent_more envs st) as He.
  pose proof (length_run_envs envs st) as Hle. set (st0 := run_envs envs st) in *.
  destruct (event kind) as [r|] eqn:Ev; [|done]. cbn [mbind option_bind].
  assert (∀ out st1 (remove1 : list nat) (Hr : remove ⊆ remove1), length st1 = length st0 →
    (∀ w' fw, st0 !! w' = Some fw → ∃ fw1, st1 !! w' = Some fw1 ∧ sent_more (if decide (w = w') then out else []) fw fw1) →
    (w ∉ remove1 → out = out_of (event kind)) →
    emit_entries event entries cs' st1 remove1 = Some (st', remove') →
    round_ok event (MkEntry kind w :: entries) st remove st' remove') as Hgo.
  { intros out st1 remove1 Hr Hl1 Hst Hout E. eapply round_ok_cons; [by rewrite Hl1|done| |by eapply IH].
    intros w' fw Hw. destruct (He _ _ Hw) as (fw0 & E0 & S0). destruct (Hst _ _ E0) as (fw1 & E1 & S1).
    eexists _, fw1. split_and!; [done|exact (sent_more_trans _ _ _ _ _ S0 S1)|].
    intros Hn. case_decide as Hd; [|done]. subst. by apply Hout. }
  destruct r as [[e|]|err].
  - destruct (st0 !! w) as [fw|] eqn:Ew; [|done]. cbn [mbind option_bind].
    destruct (emit pick e fw) as [[[]|err] fw1] eqn:Ee; pose proof (sent_more_emit _ _ _ _ _ Ee) as Hs; cbn [is_Ok] in Hs.
    + apply (Hgo [e]); [done|apply length_insert|intros; by eapply insert_sent_more|by rewrite Ev].
    + apply (Hgo []); [set_solver|apply length_insert| |set_solver].
      intros w' fw' Hw. eapply insert_sent_more; [done| |done].
      apply (sent_more_trans [] [] _ fw1); [done|apply sent_more_setError].
  - apply (Hgo []); [done..| |by rewrite Ev]. intros w' fw Hw. exists fw. split; [done|]. case_decide; apply sent_more_refl.
  - apply (Hgo []); [set_solver|apply length_alter| |set_solver]. intros w' fw Hw.
    destruct (alter_sent_more (setError err) w st0 w' fw) as (fw1 & E1 & S1); [apply sent_more_setError|done|].
    exists fw1. split; [done|]. by case_decide.
Qed.

(** ** The invariant *)

(** A registered watcher has an entry for each of its kinds, in their order,
    under the key of the kind; before the init event it was sent nothing. *)
Record fanout_inv f : Prop := {
  inv_known k en : en ∈ entries_at (watchers f) k → is_Some (store f !! fe_watcher en);
  inv_entries w fw : store f !! w = Some fw → registered w f →
    ∀ k, fe_kind <$> entries_of w (entries_at (watchers f) k) = kinds_at k (Kinds (fw_watch fw));
  inv_fits w fw : store f !! w = Some fw → fits fw;
  inv_init w fw : store f !! w = Some fw → registered w f →
    if f_init f then initOnce fw = Some true else initOnce fw = None ∧ sent fw = []
}.

Definition same_entries w f f' : Prop :=
  ∀ k, entries_of w (entries_at (watchers f') k) = entries_of w (entries_at (watchers f) k).
Lemma same_entries_registered w f f' : same_entries w f f' → registered w f' ↔ registered w f.
Proof. unfold registered, same_entries. intros Hs. by setoid_rewrite Hs. Qed.
Lemma entry_registered f k en : en ∈ entries_at (watchers f) k → registered (fe_watcher en) f.
Proof.
  intros Hin. exists k. intros Hn. apply (not_elem_of_nil en). rewrite <- Hn. unfold entries_of. by apply list_elem_of_filter.
Qed.

(** A step that registers nobody: each watcher keeps all of its entries or none,
    and one that keeps them was sent [new]. *)
Record shrinks (new : Watch → list (Event R)) f f' : Prop := {
  shrinks_init : f_init f' = f_init f;
  shrinks_entries w : same_entries w f f' ∨ ¬ registered w f';
  shrinks_store w fw : store f !! w = Some fw → ∃ out fw', store f' !! w = Some fw' ∧ sent_more out fw fw' ∧
    (registered w f' → out = new (fw_watch fw));
  shrinks_length : length (store f') = length (store f)
}.
Lemma shrinks_registered new f f' w : shrinks new f f' → registered w f' → registered w f.
Proof. intros Hs Hr. destruct (shrinks_entries _ _ _ Hs w) as [He|]; [|done]. by apply (same_entries_registered w f f'). Qed.
Lemma shrinks_back new f f' w fw' : shrinks new f f' → store f' !! w = Some fw' →
  ∃ out fw, store f !! w = Some fw ∧ sent_more out fw fw' ∧ (registered w f' → out = new (fw_watch fw)).
Proof.
  intros Hs Hw. assert (is_Some (store f !! w)) as [fw Hf].
  { apply lookup_lt_is_Some. rewrite <- (shrinks_length _ _ _ Hs). by eapply lookup_lt_Some. }
  destruct (shrinks_store _ _ _ Hs _ _ Hf) as (out & fw1 & E1 & S1 & O1). rewrite Hw in E1. injection E1 as <-. by exists out, fw.
Qed.
Lemma shrinks_trans n1 n2 f f1 f2 : shrinks n1 f f1 → shrinks n2 f1 f2 → shrinks (fun wt => n1 wt ++ n2 wt)%list f f2.
Proof.
  intros H1' H2'. split.
  - by rewrite (shrinks_init _ _ _ H2'), (shrinks_init _ _ _ H1').
  - intros w. destruct (shrinks_entries _ _ _ H2' w) as [E2|]; [|by right].
    destruct (shrinks_entries _ _ _ H1' w) as [E1|Hn].
    + left. intros k. by rewrite E2, E1.
    + right. by rewrite (same_entries_registered w f1 f2).
  - intros w fw Hw. destruct (shrinks_store _ _ _ H1' _ _ Hw) as (o1 & fw1 & E1 & S1 & O1).
    destruct (shrinks_store _ _ _ H2' _ _ E1) as (o2 & fw2 & E2 & S2 & O2).
    exists (o1 ++ o2)%list, fw2. split_and!; [done|by eapply sent_more_trans|]. intros Hr.
    rewrite O2, O1 by (done || by eapply shrinks_registered). by rewrite (more_watch _ _ _ S1).
  - by rewrite (shrinks_length _ _ _ H2'), (shrinks_length _ _ _ H1').
Qed.
Lemma shrinks_inv new f f' : (f_init f = false → ∀ wt, new wt = []) → shrinks new f f' → fanout_inv f → fanout_inv f'.
Proof.
  intros Hnew Hs Hi. split.
  - intros k en Hin. pose proof (entry_registered _ _ _ Hin) as Hr.
    destruct (shrinks_entries _ _ _ Hs (fe_watcher en)) as [He|]; [|done].
    assert (en ∈ entries_of (fe_watcher en) (entries_at (watchers f') k)) as Hin' by (unfold entries_of; by apply list_elem_of_filter).
    rewrite He in Hin'. unfold entries_of in Hin'. apply list_elem_of_filter in Hin' as [_ Hin'].
    destruct (inv_known _ Hi _ _ Hin') as [fw Hw]. destruct (shrinks_store _ _ _ Hs _ _ Hw) as (? & fw' & Hw' & _). by exists fw'.
  - intros w fw' Hw Hr k. destruct (shrinks_back _ _ _ _ _ Hs Hw) as (out & fw & Hf & S & _).
    destruct (shrinks_entries _ _ _ Hs w) as [He|]; [|done]. rewrite He, (more_watch _ _ _ S).
    apply (inv_entries _ Hi); [done|]. by eapply shrinks_registered.
  - intros w fw' Hw. destruct (shrinks_back _ _ _ _ _ Hs Hw) as (out & fw & Hf & S & _).
    by eapply (more_fits _ _ _ S), inv_fits.
  - intros w fw' Hw Hr. destruct (shrinks_back _ _ _ _ _ Hs Hw) as (out & fw & Hf & S & O).
    pose proof (inv_init _ Hi _ _ Hf ltac:(by eapply shrinks_registered)) as Hin. rewrite (shrinks_init _ _ _ Hs), (more_init _ _ _ S).
    destruct (f_init f); [done|]. destruct Hin as [-> Hse]. split; [done|]. rewrite (more_sent _ _ _ S), Hse, (O Hr). by apply Hnew.
Qed.

(** ** Removal *)

Definition nothing : Watch → list (Event R) := fun _ => [].
Lemma shrinks_refl f : shrinks nothing f f.
Proof. split; [done|by left| |done]. intros w fw Hw. exists [], fw. split_and!; [done|apply sent_more_refl|done]. Qed.

Lemma removeWatcher_entries w f : fanout_inv f →
  ¬ registered w (removeWatcher w f) ∧ ∀ w', w' ≠ w → same_entries w' f (removeWatcher w f).
Proof.
  intros Hi. unfold removeWatcher. destruct (store f !! w) as [fw|] eqn:Hw.
  - split.
    + intros [k Hk]. apply Hk. cbn [set_watchers watchers]. rewrite entries_of_remove_kinds, decide_True by done.
      destruct (entries_of w (entries_at (watchers f) k)) as [|en es] eqn:E; [by rewrite drop_nil|].
      rewrite <- E. apply drop_ge. rewrite <- (length_fmap fe_kind).
      rewrite (inv_entries _ Hi _ _ Hw) by (exists k; by rewrite E). done.
    + intros w' Hn k. cbn [set_watchers watchers]. by rewrite entries_of_remove_kinds, decide_False.
  - split; [|by intros]. intros [k Hk]. apply Hk. destruct (entries_of w _) as [|en es] eqn:E; [done|].
    assert (en ∈ entries_of w (entries_at (watchers f) k)) as Hin by (rewrite E; left).
    unfold entries_of in Hin. apply list_elem_of_filter in Hin as [Hew Hin].
    destruct (inv_known _ Hi _ _ Hin) as [fw Hfw]. congruence.
Qed.
Lemma removeWatcher_store w f : store (removeWatcher w f) = store f ∧ f_init (removeWatcher w f) = f_init f.
Proof. unfold removeWatcher. by destruct (store f !! w). Qed.
Lemma removeWatcher_shrinks w f : fanout_inv f → shrinks nothing f (removeWatcher w f).
Proof.
  intros Hi. destruct (removeWatcher_entries w f Hi) as [Hn Hs]. destruct (removeWatcher_store w f) as [Est Ein]. split.
  - done.
  - intros w'. destruct (decide (w' = w)) as [->|]; [by right|left; by apply Hs].
  - rewrite Est. intros w' fw Hw. exists [], fw. split_and!; [done|apply sent_more_refl|done].
  - by rewrite Est.
Qed.

(** Changes of the store that send nothing. *)
Lemma set_store_shrinks st f : length st = length (store f) →
  (∀ w fw, store f !! w = Some fw → ∃ fw', st !! w = Some fw' ∧ sent_more [] fw fw') → shrinks nothing f (set_store st f).
Proof.
  intros Hl Hst. split; [done|by left| |done]. intros w fw Hw. destruct (Hst _ _ Hw) as (fw' & E & S). by exists [], fw'.
Qed.
Lemma remove_and_cancel_shrinks w f : fanout_inv f → shrinks nothing f (remove_and_cancel f w).
Proof.
  intros Hi. eapply (shrinks_trans nothing nothing); [by apply removeWatcher_shrinks|].
  apply set_store_shrinks; [apply length_alter|]. intros w' fw Hw. apply alter_sent_more; [apply sent_more_cancel|done].
Qed.
Lemma remove_and_cancel_unregistered w f : fanout_inv f → ¬ registered w (remove_and_cancel f w).
Proof. intros Hi. by apply removeWatcher_entries. Qed.
Lemma removals_shrink remove f : fanout_inv f →
  shrinks nothing f (fold_left remove_and_cancel remove f) ∧
  ∀ w, registered w (fold_left remove_and_cancel remove f) → w ∉ remove.
Proof.
  revert f. induction remove as [|w remove IH]; intros f Hi; cbn [fold_left].
  { split; [apply shrinks_refl|]. intros w _. apply not_elem_of_nil. }
  pose proof (remove_and_cancel_shrinks w f Hi) as Hs.
  assert (fanout_inv (remove_and_cancel f w)) as Hi' by (by eapply shrinks_inv).
  destruct (IH _ Hi') as [Hs' Hr]. split; [by apply (shrinks_trans nothing nothing _ (remove_and_cancel f w))|].
  intros w' Hw. apply not_elem_of_cons. split; [|by apply Hr]. intros ->.
  apply (remove_and_cancel_unregistered w f Hi). by eapply shrinks_registered.
Qed.

(** ** Emit *)

(** The kinds of a watch, gathered key by key, are its kinds. *)
Lemma kinds_at_other k k' kinds : k' ≠ k → kinds_at k' (filter (fun kind => wk_Kind kind ≠ k) kinds) = kinds_at k' kinds.
Proof. intros Hn. unfold kinds_at. rewrite list_filter_filter. apply list_filter_iff. intros kind. naive_solver. Qed.
Lemma kinds_at_concat keys kinds : NoDup keys → (∀ kind, kind ∈ kinds → wk_Kind kind ∈ keys) →
  concat (map (fun k => kinds_at k kinds) keys) ≡ₚ kinds.
Proof.
  intros Hnd. revert kinds. induction Hnd as [|k keys Hk Hnd IH]; intros kinds Hin; cbn [map concat].
  - destruct kinds as [|kind kinds]; [done|]. specialize (Hin kind ltac:(left)). by apply elem_of_nil in Hin.
  - etransitivity; [|apply (filter_app_complement (fun kind => wk_Kind kind = k))].
    apply Permutation_app_head. rewrite <- (IH (filter (fun kind => ¬ wk_Kind kind = k) kinds)).
    + apply reflexive_eq. f_equal. apply map_ext_in. intros k' Hk'%list_elem_of_In. rewrite kinds_at_other; [done|by intros ->].
    + intros kind [Hne Hkd]%list_elem_of_filter. specialize (Hin _ Hkd). by apply elem_of_cons in Hin as [|].
Qed.

(** What the entries of a watcher are sent of an event is what its watch selects. *)
Lemma outs_deliveries f w fw order (event : Event R) : fanout_inv f → store f !! w = Some fw → registered w f →
  outs (entry_event event) w (entries_for order (filterEventSecrets event) (watchers f)) = deliveries (fw_watch fw) event.
Proof.
  intros Hi Hw Hr. pose proof (inv_entries _ Hi _ _ Hw Hr) as He. unfold outs, entries_for, deliveries.
  destruct (ev_Resource (filterEventSecrets event)) as [res|] eqn:Er.
  - rewrite He. clear He Hi Hw Hr. unfold kinds_at. generalize (Kinds (fw_watch fw)) as kinds. intros kinds.
    induction kinds as [|kind kinds IH]; [done|].
    rewrite filter_cons. case_decide as Hk; cbn; rewrite IH; [done|].
    assert (event_for event kind = []) as ->; [|done]. unfold event_for, entry_event, Matches.
    rewrite Er. cbn. by destruct (String.eqb_spec (wk_Kind kind) (GetKind res)).
  - set (keys := range_of order (elements (dom (watchers f)))).
    assert (∀ kind, out_of (entry_event event kind) = [filterEventSecrets event]) as Ho.
    { intros kind. unfold entry_event. by rewrite Er. }
    assert (fe_kind <$> entries_of w (concat (map (entries_at (watchers f)) keys)) ≡ₚ Kinds (fw_watch fw)) as Hp.
    { rewrite <- (kinds_at_concat keys (Kinds (fw_watch fw))).
      - apply reflexive_eq. clearbody keys. clear -He. induction keys as [|k keys IH]; [done|].
        cbn [map concat]. unfold entries_of in *. by rewrite filter_app, fmap_app, IH, He.
      - unfold keys. rewrite range_perm. apply NoDup_elements.
      - intros kind Hk. unfold keys. rewrite range_perm. apply elem_of_elements, elem_of_dom.
        destruct (watchers f !! wk_Kind kind) as [es|] eqn:Ew; [done|]. exfalso.
        specialize (He (wk_Kind kind)). unfold entries_at in He. rewrite Ew in He. cbn in He.
        apply (not_elem_of_nil kind). rewrite He. unfold kinds_at. by apply list_elem_of_filter. }
    apply Permutation_length in Hp. revert Hp. unfold event_for. fold (out_of).
    generalize (fe_kind <$> entries_of w (concat (map (entries_at (watchers f)) keys))) as l1. intros l1.
    generalize (Kinds (fw_watch fw)) as l2. induction l1 as [|x1 l1 IH]; intros [|x2 l2]; try done.
    cbn. intros [= Hl]. rewrite (IH l2 Hl). fold (out_of (entry_event event x2)). by rewrite !Ho.
Qed.

(** While initialized, sends keep the invariant. *)
Lemma sends_inv st f : f_init f = true → fanout_inv f → length st = length (store f) →
  (∀ w fw, store f !! w = Some fw → ∃ out fw', st !! w = Some fw' ∧ sent_more out fw fw') → fanout_inv (set_store st f).
Proof.
  intros Hinit Hi Hl Hst.
  assert (∀ w fw', st !! w = Some fw' → ∃ out fw, store f !! w = Some fw ∧ sent_more out fw fw') as Hback.
  { intros w fw' Hw. assert (is_Some (store f !! w)) as [fw Hf].
    { apply lookup_lt_is_Some. rewrite <- Hl. by eapply lookup_lt_Some. }
    destruct (Hst _ _ Hf) as (out & fw1 & E1 & S1). rewrite Hw in E1. injection E1 as <-. by exists out, fw. }
  split; cbn [set_store store watchers f_init].
  - intros k en Hin. destruct (inv_known _ Hi _ _ Hin) as [fw Hf]. destruct (Hst _ _ Hf) as (? & fw' & -> & _). done.
  - intros w fw' Hw Hr k. destruct (Hback _ _ Hw) as (out & fw & Hf & S). rewrite (more_watch _ _ _ S). by apply (inv_entries _ Hi).
  - intros w fw' Hw. destruct (Hback _ _ Hw) as (out & fw & Hf & S). by eapply (more_fits _ _ _ S), inv_fits.
  - intros w fw' Hw Hr. destruct (Hback _ _ Hw) as (out & fw & Hf & S). rewrite Hinit, (more_init _ _ _ S).
    pose proof (inv_init _ Hi _ _ Hf Hr) as Hin. by rewrite Hinit in Hin.
Qed.

Lemma emit_event_shrinks em f f' : fanout_inv f → f_init f = true → emit_event em f = Some f' →
  shrinks (fun wt => deliveries wt (em_event em)) f f'.
Proof.
  intros Hi Hinit. unfold emit_event.
  destruct (emit_entries _ _ _ _ _) as [[st remove]|] eqn:E; [|done]. cbn. intros [= <-].
  destruct (emit_entries_round _ _ _ _ _ _ _ E) as (Hl & _ & Hst).
  assert (fanout_inv (set_store st f)) as Hi1.
  { apply sends_inv; [done..|]. intros w fw Hw. destruct (Hst _ _ Hw) as (out & fw' & Hw' & S & _). by exists out, fw'. }
  destruct (removals_shrink remove _ Hi1) as [Hs Hrm]. split.
  - apply (shrinks_init _ _ _ Hs).
  - intros w. apply (shrinks_entries _ _ _ Hs).
  - intros w fw Hw. destruct (Hst _ _ Hw) as (out & fw1 & E1 & S1 & O1).
    destruct (shrinks_store _ _ _ Hs _ _ E1) as (o2 & fw2 & E2 & S2 & O2).
    exists (out ++ o2)%list, fw2. split_and!; [done|by eapply sent_more_trans|]. intros Hr.
    rewrite O2 by done. unfold nothing. rewrite app_nil_r, O1 by (by apply Hrm).
    apply outs_deliveries; [done..|]. by apply (shrinks_registered _ _ _ _ Hs).
  - by rewrite (shrinks_length _ _ _ Hs).
Qed.

Lemma emit_events_shrinks ems f f' : fanout_inv f → f_init f = true → emit_events ems f = Some f' →
  shrinks (fun wt => ems ≫= (fun em => deliveries wt (em_event em)))%list f f'.
Proof.
  revert f. induction ems as [|em ems IH]; intros f Hi Hinit; cbn [emit_events].
  { intros [= <-]. apply shrinks_refl. }
  destruct (emit_event em f) as [f1|] eqn:E1; [|done]. cbn. intros E.
  pose proof (emit_event_shrinks _ _ _ Hi Hinit E1) as Hs1.
  eapply (shrinks_trans (fun wt => deliveries wt (em_event em))); [done|]. apply IH; [|by rewrite (shrinks_init _ _ _ Hs1)|done].
  eapply shrinks_inv; [|done..]. by rewrite Hinit.
Qed.

(** ** Registration and initialization *)

Lemma init_idem fw : init (init fw) = init fw.
Proof. unfold init. destruct (initOnce fw) eqn:E; [by rewrite E|]. by destruct (room fw). Qed.
Lemma init_watch fw : fw_watch (init fw) = fw_watch fw.
Proof. unfold init. destruct (initOnce fw); [done|]. by destruct (room fw). Qed.
(** The first send to a channel finds it empty. *)
Lemma init_fresh fw : fits fw → initOnce fw = None → sent fw = [] →
  fits (init fw) ∧ initOnce (init fw) = Some true ∧ sent (init fw) = [init_event].
Proof.
  intros [Hq _] Hn Hs. unfold sent in Hs. apply app_nil in Hs as [Hr He]. unfold init, room. rewrite Hn, He. cbn.
  destruct (Z.ltb_spec (Z.of_nat 0) (QueueSize (fw_watch fw))) as [_|]; [|lia].
  unfold fits, sent. cbn. rewrite Hr. split_and!; [lia..|done|done].
Qed.

(** A round of initializations starts every watcher of the entries, once. *)
Definition ready fw : Prop := initOk (init fw) = true.
Lemma init_entries_ready entries st remove :
  (∀ en, en ∈ entries → ∃ fw, st !! fe_watcher en = Some fw ∧ ready fw) →
  ∃ st', init_entries entries st remove = Some (st', remove) ∧ length st' = length st ∧
    ∀ w, st' !! w = if decide (w ∈ fe_watcher <$> entries) then init <$> st !! w else st !! w.
Proof.
  revert st. induction entries as [|en entries IH]; intros st Hen; cbn [init_entries].
  { exists st. split_and!; [done..|]. intros w. rewrite decide_False; [done|apply not_elem_of_nil]. }
  destruct (Hen en ltac:(left)) as (fw & Hw & Hrd). rewrite Hw. cbn [mbind option_bind]. rewrite Hrd.
  destruct (IH (<[fe_watcher en := init fw]> st)) as (st' & E & Hl & Hst).
  { intros en' Hin. destruct (Hen en' ltac:(by right)) as (fw' & Hw' & Hrd').
    destruct (decide (fe_watcher en = fe_watcher en')) as [He|He].
    - exists (init fw). rewrite <- He, list_lookup_insert_eq by (by eapply lookup_lt_Some). split; [done|].
      unfold ready in *. by rewrite init_idem.
    - exists fw'. by rewrite list_lookup_insert_ne. }
  exists st'. split_and!; [done|by rewrite Hl, length_insert|].
  intros w. rewrite Hst. cbn [fmap list_fmap]. destruct (decide (fe_watcher en = w)) as [<-|Hn].
  - rewrite list_lookup_insert_eq by (by eapply lookup_lt_Some). rewrite (decide_True _ _ (P:=_ ∈ _ :: _)) by left.
    rewrite Hw. cbn. case_decide; [by rewrite init_idem|done].
  - rewrite list_lookup_insert_ne by done. apply decide_ext. rewrite elem_of_cons. naive_solver.
Qed.

Lemma init_kinds_ready keys f :
  (∀ k en, en ∈ entries_at (watchers f) k → ∃ fw, store f !! fe_watcher en = Some fw ∧ ready fw) →
  ∃ st', init_kinds keys f = Some (set_store st' f) ∧ length st' = length (store f) ∧
    ∀ w, st' !! w = if decide (w ∈ fe_watcher <$> concat (map (entries_at (watchers f)) keys)) then init <$> store f !! w else store f !! w.
Proof.
  revert f. induction keys as [|k keys IH]; intros f Hen; cbn [init_kinds map concat].
  { exists (store f). split_and!; [by destruct f|done|]. intros w. rewrite decide_False; [done|apply not_elem_of_nil]. }
  destruct (init_entries_ready (entries_at (watchers f) k) (store f) [] (Hen k)) as (st1 & E & Hl & Hst). rewrite E. cbn [mbind option_bind fold_left].
  destruct (IH (set_store st1 f)) as (st' & E' & Hl' & Hst'); cbn [set_store watchers store] in *.
  { intros k' en Hin. destruct (Hen _ _ Hin) as (fw & Hw & Hrd). rewrite Hst, Hw. cbn. case_decide; [|by exists fw].
    exists (init fw). split; [done|]. unfold ready in *. by rewrite init_idem. }
  exists st'. split_and!; [done|congruence|]. intros w. rewrite Hst', Hst, fmap_app.
  repeat case_decide; rewrite ?elem_of_app in *; try tauto; try done. destruct (store f !! w); cbn; [by rewrite init_idem|done].
Qed.

Lemma Fanout_SetInit_spec order f : fanout_inv f → f_init f = false →
  ∃ f', SetInit order f = Some f' ∧ watchers f' = watchers f ∧ f_init f' = true ∧ length (store f') = length (store f) ∧
    ∀ w fw, store f !! w = Some fw → ∃ fw', store f' !! w = Some fw' ∧ fw_watch fw' = fw_watch fw ∧ fits fw' ∧
      (registered w f → initOnce fw' = Some true ∧ sent fw' = [init_event]).
Proof.
  intros Hi Hn. unfold SetInit. rewrite Hn.
  assert (∀ w fw, store f !! w = Some fw → registered w f →
    fits (init fw) ∧ initOnce (init fw) = Some true ∧ sent (init fw) = [init_event]) as Hfresh.
  { intros w fw Hw Hr. pose proof (inv_init _ Hi _ _ Hw Hr) as Hin. rewrite Hn in Hin. destruct Hin.
    apply init_fresh; [by eapply inv_fits|done..]. }
  set (keys := range_of order (elements (dom (watchers f)))).
  destruct (init_kinds_ready keys f) as (st' & E & Hl & Hst).
  { intros k en Hin. destruct (inv_known _ Hi _ _ Hin) as [fw Hw]. exists fw. split; [done|].
    destruct (Hfresh _ _ Hw ltac:(by eapply entry_registered)) as (_ & Ho & _). unfold ready, initOk. by rewrite Ho. }
  rewrite E. eexists. split_and!; [done..|]. cbn [store]. intros w fw Hw. rewrite Hst, Hw. cbn.
  case_decide as Hin; cbn.
  - exists (init fw). assert (registered w f) as Hr.
    { apply list_elem_of_fmap in Hin as (en & -> & Hin). apply list_elem_of_In, in_concat in Hin as (l & Hl1 & Hl2).
      apply in_map_iff in Hl1 as (k & <- & _). eapply entry_registered. by apply list_elem_of_In. }
    destruct (Hfresh _ _ Hw Hr) as (? & ? & ?). split_and!; [done|apply init_watch|done..].
  - exists fw. split_and!; [done..|by eapply inv_fits|]. intros [k Hk]. exfalso. apply Hin.
    destruct (entries_of w (entries_at (watchers f) k)) as [|en es] eqn:Ee; [done|].
    assert (en ∈ entries_of w (entries_at (watchers f) k)) as Hen by (rewrite Ee; left).
    unfold entries_of in Hen. apply list_elem_of_filter in Hen as [<- Hen]. apply list_elem_of_fmap. exists en. split; [done|].
    apply list_elem_of_In, in_concat. exists (entries_at (watchers f) k). split; [|by apply list_elem_of_In].
    apply in_map_iff. exists k. split; [done|]. apply list_elem_of_In. unfold keys. rewrite range_perm.
    apply elem_of_elements, elem_of_dom. unfold entries_at in Hen. destruct (watchers f !! k); [done|].
    cbn in Hen. by apply elem_of_nil in Hen.
Qed.

Lemma newFanoutWatcher_Ok watch fw : newFanoutWatcher watch = Ok fw →
  Kinds watch ≠ [] ∧ Kinds (fw_watch fw) = Kinds watch ∧ fits fw ∧ initOnce fw = None ∧ sent fw = [].
Proof.
  unfold newFanoutWatcher. destruct (Nat.ltb_spec (length (Kinds watch)) 1) as [|Hl]; [done|]. intros [= <-].
  split_and!; cbn; try done.
  - intros E. rewrite E in Hl. cbn in Hl. lia.
  - by destruct (_ <? _)%Z.
  - unfold fits. cbn. destruct (Z.ltb_spec (QueueSize watch) 1); cbn; unfold defaultQueueSize; lia.
Qed.

(** A watcher beyond the store has no entries. *)
Lemma unknown_unregistered f w : fanout_inv f → store f !! w = None → ¬ registered w f.
Proof.
  intros Hi Hw [k Hk]. apply Hk. destruct (entries_of w _) as [|en es] eqn:E; [done|].
  assert (en ∈ entries_of w (entries_at (watchers f) k)) as Hin by (rewrite E; left).
  unfold entries_of in Hin. apply list_elem_of_filter in Hin as [<- Hin].
  destruct (inv_known _ Hi _ _ Hin) as [fw Hfw]. congruence.
Qed.
Lemma kinds_at_nil kinds : (∀ k, kinds_at k kinds = []) → kinds = [].
Proof.
  destruct kinds as [|kind kinds]; [done|]. intros Hk. specialize (Hk (wk_Kind kind)). unfold kinds_at in Hk.
  by rewrite filter_cons_True in Hk.
Qed.

(** A watcher that joins the store, registered or not. *)
Lemma join_inv fw kinds f (w := length (store f)) (f' := addWatcher w kinds (set_store (store f ++ [fw]) f)) :
  fanout_inv f → (kinds = [] ∨ kinds = Kinds (fw_watch fw)) → fits fw →
  (if f_init f then kinds = [] ∨ initOnce fw = Some true else initOnce fw = None ∧ sent fw = []) →
  fanout_inv f' ∧ (∀ w', w' ≠ w → same_entries w' f f') ∧ (registered w f' ↔ kinds ≠ []).
Proof.
  intros Hi Hk Hf Hin. subst f'.
  assert (store f !! w = None) as Hnone by (apply lookup_ge_None; done).
  pose proof (unknown_unregistered f w Hi Hnone) as Hun.
  assert (∀ w', w' ≠ w → same_entries w' f (addWatcher w kinds (set_store (store f ++ [fw]) f))) as Hother.
  { intros w' Hn k. cbn [addWatcher set_watchers set_store watchers store]. rewrite entries_of_add_kinds, decide_False by done. apply app_nil_r. }
  assert (∀ k, entries_of w (entries_at (watchers (addWatcher w kinds (set_store (store f ++ [fw]) f))) k) =
    (fun kind => MkEntry kind w) <$> kinds_at k kinds) as Hmine.
  { intros k. cbn [addWatcher set_watchers set_store watchers store]. rewrite entries_of_add_kinds, decide_True by done.
    destruct (entries_of w (entries_at (watchers f) k)) eqn:E; [done|]. exfalso. apply Hun. exists k. by rewrite E. }
  assert (registered w (addWatcher w kinds (set_store (store f ++ [fw]) f)) ↔ kinds ≠ []) as Hreg.
  { unfold registered. split.
    - intros [k Hne] ->. rewrite Hmine in Hne. done.
    - intros Hne. destruct kinds as [|kind ks]; [done|]. exists (wk_Kind kind). rewrite Hmine. unfold kinds_at. by rewrite filter_cons_True. }
  assert (∀ w' fw', (store f ++ [fw])%list !! w' = Some fw' → store f !! w' = Some fw' ∧ w' ≠ w ∨ w' = w ∧ fw' = fw) as Hst.
  { intros w' fw' Hw. apply lookup_app_Some in Hw as [Hw|[Hl Hw]].
    - left. split; [done|]. intros ->. congruence.
    - right. destruct (w' - length (store f))%nat as [|n] eqn:E; [|done]. cbn in Hw. split; [unfold w; lia|congruence]. }
  split_and!; [|done|done]. split; cbn [addWatcher set_watchers set_store store f_init] in *.
  - intros k en Hen. pose proof (entry_registered _ _ _ Hen) as Hr. destruct (decide (fe_watcher en = w)) as [->|Hn].
    + unfold w. rewrite lookup_app_r, Nat.sub_diag by lia. done.
    + apply (same_entries_registered _ f) in Hr; [|by apply Hother]. destruct (store f !! fe_watcher en) as [fw'|] eqn:E.
      * rewrite lookup_app_l by (by eapply lookup_lt_Some). by rewrite E.
      * by apply unknown_unregistered in Hr.
  - intros w' fw' Hw Hr k. destruct (Hst _ _ Hw) as [[Hw' Hn]|[-> ->]].
    + rewrite (Hother _ Hn k). apply (inv_entries _ Hi); [done|]. by apply (same_entries_registered w' f) in Hr; [|apply Hother].
    + rewrite Hmine, <- list_fmap_compose. apply Hreg in Hr. destruct Hk as [?| ->]; [done|]. apply list_fmap_id.
  - intros w' fw' Hw. destruct (Hst _ _ Hw) as [[Hw' Hn]|[-> ->]]; [by eapply inv_fits|done].
  - intros w' fw' Hw Hr. destruct (Hst _ _ Hw) as [[Hw' Hn]|[-> ->]].
    + apply (inv_init _ Hi _ _ Hw'). by apply (same_entries_registered w' f) in Hr; [|apply Hother].
    + apply Hreg in Hr. destruct (f_init f); [by destruct Hin|done].
Qed.

(** A registration succeeds unless the fan-out is closed or the watch is empty,
    and disturbs no other watcher. *)
Lemma Fanout_NewWatcher_spec watch f r f' : fanout_inv f → NewWatcher watch f = (r, f') →
  fanout_inv f' ∧ f_init f' = f_init f ∧
  (∀ w fw, store f !! w = Some fw → store f' !! w = Some fw ∧ (registered w f' ↔ registered w f)) ∧
  match r with
  | Ok w => w = length (store f) ∧ f_closed f = false ∧ Kinds watch ≠ [] ∧ registered w f' ∧
      ∃ fw, store f' !! w = Some fw ∧ Kinds (fw_watch fw) = Kinds watch ∧
        sent fw = if f_init f then [init_event] else []
  | Err e => f' = f ∧ (f_closed f = true ∨ Kinds watch = [])
  end.
Proof.
  intros Hi. unfold NewWatcher. destruct (f_closed f) eqn:Hc.
  { intros [= <- <-]. split_and!; [done..|by left]. }
  destruct (newFanoutWatcher watch) as [fw|e] eqn:E.
  2:{ intros [= <- <-]. split_and!; [done..|]. right. unfold newFanoutWatcher in E. by destruct (Kinds watch). }
  destruct (newFanoutWatcher_Ok _ _ E) as (Hne & Hk & Hf & Hn & Hs).
  set (fw' := if f_init f then init fw else fw).
  assert (fits fw' ∧ fw_watch fw' = fw_watch fw ∧ (f_init f = true → initOnce fw' = Some true) ∧
    sent fw' = (if f_init f then [init_event] else []) ∧ (f_init f = false → initOnce fw' = None)) as (Hf' & Hw' & Ho & Hs' & Hno).
  { unfold fw'. destruct (f_init f); [|done]. destruct (init_fresh fw Hf Hn Hs) as (? & ? & ?). split_and!; try done. apply init_watch. }
  assert (f_init f && negb (initOk fw') = false) as ->.
  { destruct (f_init f); [|done]. unfold initOk. by rewrite Ho. }
  intros [= <- <-]. clearbody fw'.
  destruct (join_inv fw' (Kinds (fw_watch fw')) f Hi ltac:(by right) Hf') as (Hi' & Hother & Hreg).
  { destruct (f_init f); [right; by apply Ho|by split; [apply Hno|]]. }
  split_and!; [done|done| |done|done|done|apply Hreg; by rewrite Hw', Hk|].
  - intros w fw0 Hw. cbn [addWatcher set_watchers set_store store]. split; [by rewrite lookup_app_l by (by eapply lookup_lt_Some)|].
    apply same_entries_registered, Hother. intros ->. rewrite lookup_ge_None_2 in Hw by done. done.
  - exists fw'. cbn [addWatcher set_watchers set_store store]. rewrite lookup_app_r, Nat.sub_diag by done. by rewrite Hw', Hk.
Qed.

(** ** Steps *)

Lemma NewFanout_inv : fanout_inv NewFanout.
Proof.
  assert (∀ w, ¬ registered w (NewFanout (R:=R))) as Hn by (intros w [k Hk]; apply Hk; reflexivity).
  split; [|intros w fw Hw; done..]. intros k en Hin. by apply elem_of_nil in Hin.
Qed.
(** Taking the watchers out unregisters all of them. *)
Lemma taken_inv f ini clo : fanout_inv f →
  let f' := MkFanout ini clo ∅ (store f) in fanout_inv f' ∧ ∀ w, ¬ registered w f'.
Proof.
  intros Hi f'. assert (∀ w, ¬ registered w f') as Hn by (intros w [k Hk]; apply Hk; unfold entries_at; reflexivity).
  split; [|done]. split.
  - intros k en Hin. unfold entries_at in Hin. by apply elem_of_nil in Hin.
  - intros w fw _ Hr. by apply Hn in Hr.
  - apply (inv_fits _ Hi).
  - intros w fw _ Hr. by apply Hn in Hr.
Qed.

Lemma SetInit_inv order f f' : fanout_inv f → f_init f = false → SetInit order f = Some f' →
  fanout_inv f' ∧ f_init f' = true ∧
  ∀ w fw, store f !! w = Some fw → ∃ fw', store f' !! w = Some fw' ∧ fw_watch fw' = fw_watch fw ∧
    (registered w f' → registered w f ∧ sent fw' = [init_event]).
Proof.
  intros Hi Hf E. destruct (Fanout_SetInit_spec order f Hi Hf) as (f1 & E1 & Hws & Hin & Hl & Hst). rewrite E in E1. injection E1 as <-.
  assert (∀ w, registered w f' ↔ registered w f) as Hreg by (intros; unfold registered; by rewrite Hws).
  assert (∀ w fw', store f' !! w = Some fw' → ∃ fw, store f !! w = Some fw ∧ fw_watch fw' = fw_watch fw ∧ fits fw' ∧
    (registered w f → initOnce fw' = Some true ∧ sent fw' = [init_event])) as Hback.
  { intros w1 fw1 Hw1. assert (is_Some (store f !! w1)) as [fw0 Hw0].
    { apply lookup_lt_is_Some. rewrite <- Hl. by eapply lookup_lt_Some. }
    destruct (Hst _ _ Hw0) as (fw2 & Hw2 & ?). rewrite Hw1 in Hw2. injection Hw2 as <-. by exists fw0. }
  split_and!; [split|done|].
  - intros k en Hen. rewrite Hws in Hen. destruct (inv_known _ Hi _ _ Hen) as [fw0 Hw0]. by destruct (Hst _ _ Hw0) as (? & -> & _).
  - intros w fw Hw Hr k. destruct (Hback _ _ Hw) as (fw0 & Hw0 & Hwt & _). rewrite Hws, Hwt. apply (inv_entries _ Hi); [done|by apply Hreg].
  - intros w fw Hw. by destruct (Hback _ _ Hw) as (fw0 & Hw0 & _ & Hft & _).
  - intros w fw Hw Hr. destruct (Hback _ _ Hw) as (fw0 & Hw0 & _ & _ & Hse). rewrite Hin. by apply Hse, Hreg.
  - intros w fw Hw. destruct (Hst _ _ Hw) as (fw' & Hw' & Hwt & _ & Hse). exists fw'. split_and!; [done..|].
    intros Hr%Hreg. split; [done|]. by apply Hse.
Qed.

Definition emitted (o : fanout_op R) : list (Event R) := match o with OEmit ems => em_event <$> ems | _ => [] end.
(** What a registered watcher was told, when [evs] were emitted since it was. *)
Definition told w (watch : Watch) (evs : list (Event R)) f : Prop :=
  registered w f → ∃ fw, store f !! w = Some fw ∧ Kinds (fw_watch fw) = Kinds watch ∧
    sent fw = (if f_init f then init_event :: (evs ≫= deliveries watch) else []) ∧ (f_init f = false → evs = []).

Lemma told_shrinks w watch evs new evs' f f' : shrinks new f f' → told w watch evs f →
  (f_init f = false → evs' = []) → (∀ wt, new wt = (evs' ≫= deliveries wt)) → told w watch (evs ++ evs') f'.
Proof.
  intros Hs Ht Hn Hnew Hr. destruct (Ht ltac:(by eapply shrinks_registered)) as (fw & Hw & Hk & Hse & He).
  destruct (shrinks_store _ _ _ Hs _ _ Hw) as (out & fw' & Hw' & S & O). exists fw'.
  split_and!; [done|by rewrite (more_watch _ _ _ S)| |].
  - rewrite (more_sent _ _ _ S), (O Hr), Hse, Hnew, (shrinks_init _ _ _ Hs). unfold deliveries. rewrite Hk.
    destruct (f_init f); [by rewrite bind_app|]. by rewrite Hn.
  - rewrite (shrinks_init _ _ _ Hs). intros Hf. by rewrite He, Hn.
Qed.

(** What a step that registers nobody sends. *)
Definition step_new (o : fanout_op R) (wt : Watch) : list (Event R) := (emitted o ≫= deliveries wt)%list.
Lemma step_shrinks o f f' : fanout_inv f → fanout_step f o = Some f' →
  match o with OEmit _ | ORemove _ | OEnv _ => shrinks (step_new o) f f' ∧ (f_init f = false → emitted o = []) | _ => True end.
Proof.
  intros Hi E. destruct o as [watch|order|ems| | |w|e]; try done; cbn [fanout_step] in E.
  - unfold Emit in E. destruct (f_init f) eqn:Hf; [|done]. split; [|done].
    destruct (emit_events_shrinks ems f f' Hi Hf E) as [S1 S2 S3 S4]. split; [done|done| |done].
    intros w fw Hw. destruct (S3 _ _ Hw) as (out & fw' & Hw' & S & O). exists out, fw'. split_and!; [done..|].
    intros Hr. rewrite (O Hr). unfold step_new. cbn [emitted]. clear. induction ems as [|em ems IH]; [done|]. cbn in *. by rewrite IH.
  - injection E as <-. split; [by apply removeWatcher_shrinks|done].
  - injection E as <-. split; [|done]. apply set_store_shrinks; [apply (length_run_envs [e])|].
    intros w1 fw1 Hw1. by apply (run_envs_sent_more [e]).
Qed.
Lemma fanout_step_inv o f f' : fanout_inv f → fanout_step f o = Some f' → fanout_inv f'.
Proof.
  intros Hi E. pose proof (step_shrinks _ _ _ Hi E) as Hs.
  assert (∀ S : shrinks (step_new o) f f' ∧ (f_init f = false → emitted o = []), fanout_inv f') as Hgo.
  { intros [S Hn]. eapply shrinks_inv; [|done..]. intros Hf wt. unfold step_new. by rewrite Hn. }
  destruct o as [watch|order|ems| | |w|e]; cbn [fanout_step] in E; [| |by apply Hgo| | |by apply Hgo|by apply Hgo].
  - injection E as <-. destruct (NewWatcher watch f) as [r f'] eqn:En. by apply (Fanout_NewWatcher_spec _ _ _ _ Hi En).
  - destruct (f_init f) eqn:Hf; [|by apply (SetInit_inv order f f' Hi Hf E)].
    assert (f' = f) as -> by (unfold SetInit in E; rewrite Hf in E; congruence). done.
  - injection E as <-. by apply (taken_inv f false (f_closed f)).
  - injection E as <-. by apply (taken_inv f (f_init f) true).
Qed.

Lemma step_told w watch evs o f f' : fanout_inv f → is_Some (store f !! w) → fanout_step f o = Some f' → told w watch evs f →
  is_Some (store f' !! w) ∧ told w watch (evs ++ emitted o) f'.
Proof.
  intros Hi [fw Hw] E Ht. pose proof (step_shrinks _ _ _ Hi E) as Hs.
  assert (∀ S : shrinks (step_new o) f f' ∧ (f_init f = false → emitted o = []),
    is_Some (store f' !! w) ∧ told w watch (evs ++ emitted o) f') as Hgo.
  { intros [S Hn]. split; [|by eapply told_shrinks]. by destruct (shrinks_store _ _ _ S _ _ Hw) as (? & ? & -> & _). }
  destruct o as [watch'|order|ems| | |w'|e]; cbn [fanout_step] in E; [| |by apply Hgo| | |by apply Hgo|by apply Hgo];
    cbn [emitted]; rewrite app_nil_r.
  - injection E as <-. destruct (NewWatcher watch' f) as [r f'] eqn:En. cbn [snd].
    destruct (Fanout_NewWatcher_spec _ _ _ _ Hi En) as (_ & Hin & Hst & _). destruct (Hst _ _ Hw) as [Hw' Hr'].
    split; [by rewrite Hw'|]. intros Hr%Hr'. unfold told in Ht. rewrite Hw', Hin, <- Hw. by apply Ht.
  - destruct (f_init f) eqn:Hf.
    { assert (f' = f) as -> by (unfold SetInit in E; rewrite Hf in E; congruence). done. }
    destruct (SetInit_inv order f f' Hi Hf E) as (_ & Hin & Hst). destruct (Hst _ _ Hw) as (fw2 & Hw2 & Hwt & Hse).
    split; [by rewrite Hw2|]. intros Hr. destruct (Hse Hr) as [Hr0 Hse']. destruct (Ht Hr0) as (fw0 & Hw0 & Hk & _ & He).
    exists fw2. rewrite Hin, (He Hf). rewrite Hw in Hw0. injection Hw0 as <-. split_and!; [done|by rewrite Hwt|done..].
  - injection E as <-. destruct (taken_inv f false (f_closed f) Hi) as [_ Hn]. split; [by cbn; rewrite Hw|]. intros Hr. by apply Hn in Hr.
  - injection E as <-. destruct (taken_inv f (f_init f) true Hi) as [_ Hn]. split; [by cbn; rewrite Hw|]. intros Hr. by apply Hn in Hr.
Qed.

Lemma fanout_run_inv os f f' : fanout_inv f → fanout_run os f = Some f' → fanout_inv f'.
Proof.
  revert f. induction os as [|o os IH]; intros f Hi; cbn [fanout_run]; [by intros [= <-]|].
  destruct (fanout_step f o) as [f1|] eqn:E1; [|done]. cbn [mbind option_bind]. apply IH. by eapply fanout_step_inv.
Qed.
Lemma fanout_run_told w watch evs os f f' : fanout_inv f → is_Some (store f !! w) → fanout_run os f = Some f' → told w watch evs f →
  told w watch (evs ++ (os ≫= emitted)) f'.
Proof.
  revert evs f. induction os as [|o os IH]; intros evs f Hi Hw; cbn [fanout_run].
  { intros [= <-] Ht. cbn. by rewrite app_nil_r. }
  destruct (fanout_step f o) as [f1|] eqn:E1; [|done]. cbn [mbind option_bind]. intros E Ht.
  destruct (step_told _ _ _ _ _ _ Hi Hw E1 Ht) as [Hw1 Ht1].
  pose proof (IH _ _ (fanout_step_inv _ _ _ Hi E1) Hw1 E Ht1) as Ht'. cbn. by rewrite app_assoc.
Qed.

(** What was told to a watcher from its registration on. *)
Lemma registered_told os2 watch w f1 f2 f : fanout_inv f1 → NewWatcher watch f1 = (Ok w, f2) → fanout_run os2 f2 = Some f →
  fanout_inv f ∧ told w watch (os2 ≫= emitted) f.
Proof.
  intros Hi1 En E2. destruct (Fanout_NewWatcher_spec _ _ _ _ Hi1 En) as (Hi2 & Hin & _ & _ & _ & _ & _ & fw2 & Hw2 & Hk2 & Hs2).
  split; [by eapply fanout_run_inv|]. change (os2 ≫= emitted)%list with ([] ++ (os2 ≫= emitted))%list. eapply fanout_run_told; [done|by rewrite Hw2|done|].
  intros _. exists fw2. rewrite Hin. by split_and!.
Qed.

(** C11: in every run of a fan-out, beside any receivers and cancellations, a
    watcher that is registered was sent the init event, once the fan-out is
    initialized, and then of every event emitted since its registration what its
    kinds select, once each and in order; what it has not received yet fits its
    queue. *)
Theorem fanout_delivery os1 os2 watch w f1 f2 f :
  fanout_run os1 NewFanout = Some f1 → NewWatcher watch f1 = (Ok w, f2) → fanout_run os2 f2 = Some f → registered w f →
  ∃ fw, store f !! w = Some fw ∧
    (received fw ++ eventC fw)%list = (if f_init f then init_event :: ((os2 ≫= emitted) ≫= deliveries watch) else []) ∧
    (Z.of_nat (length (eventC fw)) ≤ QueueSize (fw_watch fw))%Z.
Proof.
  intros E1 En E2 Hr. pose proof (fanout_run_inv _ _ _ NewFanout_inv E1) as Hi1.
  destruct (registered_told _ _ _ _ _ _ Hi1 En E2) as [Hi Ht]. destruct (Ht Hr) as (fw & Hw & _ & Hs & _).
  exists fw. split_and!; [done|done|]. by apply (inv_fits _ Hi _ _ Hw).
Qed.

(** ** Nobody is dropped without a reason *)

Lemma entry_event_total (event : Event R) kind : entry_event event kind ≠ None.
Proof.
  unfold entry_event, Matches. destruct (ev_Resource (filterEventSecrets event)); [|done].
  repeat (case_match; cbn; try done); destruct (filter_event _ _); done.
Qed.
(** A round of sends dereferences no nil pointer. *)
Lemma emit_entries_total event entries cs st remove :
  (∀ kind, event kind ≠ None) → (∀ en, en ∈ entries → is_Some (st !! fe_watcher en)) →
  is_Some (emit_entries event entries cs st remove).
Proof.
  intros Hev. revert cs st remove. induction entries as [|[kind w] entries IH]; intros cs st remove Hen; cbn [emit_entries]; [done|].
  destruct (next_choice cs) as [[envs pick] cs']. pose proof (length_run_envs envs st) as Hl. set (st0 := run_envs envs st) in *.
  assert (∀ st1 : list (fanoutWatcher R), length st1 = length st0 → ∀ en, en ∈ entries → is_Some (st1 !! fe_watcher en)) as Hgo.
  { intros st1 Hl1 en Hin. apply lookup_lt_is_Some. rewrite Hl1, Hl. apply lookup_lt_is_Some, Hen. by right. }
  pose proof (Hev kind) as Hk. destruct (event kind) as [[[e|]|err]|]; [| | |done]; cbn [mbind option_bind].
  - assert (is_Some (st0 !! w)) as [fw ->].
    { apply lookup_lt_is_Some. rewrite Hl. apply lookup_lt_is_Some, (Hen (MkEntry kind w)). left. }
    cbn [mbind option_bind]. destruct (emit pick e fw) as [[] fw1]; apply IH, Hgo, length_insert.
  - by apply IH, Hgo.
  - apply IH, Hgo, length_alter.
Qed.

(** A watcher that nobody cancels and whose queue has room for all it is sent. *)
Definition undisturbed w (cs : list choice) : Prop := ∀ c, c ∈ cs → ECancel w ∉ c.1.
Definition live (n : nat) fw : Prop :=
  cancelled fw = false ∧ (Z.of_nat (length (eventC fw) + n) ≤ QueueSize (fw_watch fw))%Z.

Lemma run_env_live n w e st fw : e ≠ ECancel w → st !! w = Some fw → live n fw →
  ∃ fw', run_env st e !! w = Some fw' ∧ live n fw' ∧ fw_watch fw' = fw_watch fw.
Proof.
  intros He Hw [Hc Hl]. destruct e as [w'|w']; cbn [run_env].
  - destruct (decide (w' = w)) as [->|Hn].
    + exists (receive fw). rewrite list_lookup_alter_eq, Hw. split; [done|]. unfold receive, live.
      destruct (eventC fw) as [|x c] eqn:E; [by rewrite E|]. cbn in *. split_and!; [done|lia|done].
    + exists fw. by rewrite list_lookup_alter_ne.
  - exists fw. rewrite list_lookup_alter_ne; [done|]. by intros ->.
Qed.
Lemma run_envs_live n w es st fw : ECancel w ∉ es → st !! w = Some fw → live n fw →
  ∃ fw', run_envs es st !! w = Some fw' ∧ live n fw' ∧ fw_watch fw' = fw_watch fw.
Proof.
  unfold run_envs. revert st fw. induction es as [|e es IH]; intros st fw Hn Hw Hl; cbn [fold_left]; [by exists fw|].
  apply not_elem_of_cons in Hn as [Hne Hn].
  destruct (run_env_live n w e st fw ltac:(congruence) Hw Hl) as (fw1 & E1 & L1 & W1).
  destruct (IH _ _ Hn E1 L1) as (fw2 & E2 & L2 & W2). exists fw2. by rewrite W2.
Qed.
Lemma emit_live n pick e fw : live (S n) fw → ∃ fw', emit pick e fw = (Ok (), fw') ∧ live n fw' ∧ fw_watch fw' = fw_watch fw.
Proof.
  intros [Hc Hl]. unfold emit, room. rewrite Hc. cbn [andb].
  destruct (Z.ltb_spec (Z.of_nat (length (eventC fw))) (QueueSize (fw_watch fw))); [|lia].
  eexists. split_and!; [done| |done]. split; [done|]. cbn. rewrite length_app. cbn. lia.
Qed.

Lemma emit_entries_keep event entries cs st remove st' remove' w fw n :
  emit_entries event entries cs st remove = Some (st', remove') → undisturbed w cs → st !! w = Some fw →
  (∀ en, en ∈ entries_of w entries → ∃ o, event (fe_kind en) = Some (Ok o)) →
  live (length (outs event w entries) + n) fw → w ∉ remove →
  (w ∉ remove') ∧ ∃ fw', st' !! w = Some fw' ∧ live n fw' ∧ fw_watch fw' = fw_watch fw.
Proof.
  revert cs st remove fw. induction entries as [|[kind w'] entries IH]; intros cs st remove fw; cbn [emit_entries].
  { intros [= <- <-] _ Hw _ Hl Hr. split; [done|]. by exists fw. }
  destruct (next_choice cs) as [[envs pick] cs'] eqn:Ecs. intros E Hu Hw Hok Hl Hr.
  assert ((ECancel w ∉ envs) ∧ undisturbed w cs') as [Hu1 Hu'].
  { destruct cs as [|c cs]; cbn in Ecs; injection Ecs as <- <- <- || (injection Ecs as -> <-); [split; [apply not_elem_of_nil|done]|].
    split; [apply (Hu (envs, pick)); left|intros c Hc; apply Hu; by right]. }
  destruct (run_envs_live _ w envs st fw Hu1 Hw Hl) as (fw0 & Hw0 & Hl0 & Wt0).
  set (st0 := run_envs envs st) in *. rewrite outs_cons in Hl0. cbn [fe_watcher fe_kind] in Hl0.
  assert (∀ en, en ∈ entries_of w entries → ∃ o, event (fe_kind en) = Some (Ok o)) as Hok'.
  { intros en Hen. apply (Hok en). unfold entries_of in Hen |- *. rewrite filter_cons. cbn [fe_watcher]. destruct (decide (w' = w)); [by right|done]. }
  destruct (decide (w' = w)) as [->|Hn].
  - destruct (Hok (MkEntry kind w)) as [o Ho].
    { unfold entries_of. rewrite filter_cons_True by done. left. }
    cbn [fe_kind] in Ho. rewrite Ho in E, Hl0. cbn [mbind option_bind] in E. destruct o as [e|]; cbn [out_of app length] in Hl0.
    + rewrite Hw0 in E. cbn [mbind option_bind] in E.
      destruct (emit_live _ pick e fw0 Hl0) as (fw1 & Ee & Hl1 & Wt1). rewrite Ee in E.
      destruct (IH _ _ _ fw1 E Hu') as (Hr' & fw' & Hw' & Hl' & Wt'); [by rewrite list_lookup_insert_eq by (by eapply lookup_lt_Some)|done..|].
      split; [done|]. exists fw'. by rewrite Wt', Wt1, Wt0.
    + destruct (IH _ _ _ fw0 E Hu' Hw0 Hok' Hl0 Hr) as (Hr' & fw' & Hw' & Hl' & Wt'). split; [done|]. exists fw'. by rewrite Wt', Wt0.
  - cbn [app] in Hl0. assert (∀ st1 remove1, st1 !! w = Some fw0 → w ∉ remove1 →
      emit_entries event entries cs' st1 remove1 = Some (st', remove') →
      (w ∉ remove') ∧ ∃ fw', st' !! w = Some fw' ∧ live n fw' ∧ fw_watch fw' = fw_watch fw) as Hgo.
    { intros st1 remove1 Hw1 Hr1 E1. destruct (IH _ _ _ fw0 E1 Hu' Hw1 Hok' Hl0 Hr1) as (Hr' & fw' & Hw' & Hl' & Wt').
      split; [done|]. exists fw'. by rewrite Wt', Wt0. }
    assert (w ∉ (remove ++ [w'])%list) as Hr1.
    { intros [?| ?%list_elem_of_singleton]%elem_of_app; [done|]. by apply Hn. }
    destruct (event kind) as [[[e|]|err]|]; [| | |done]; cbn [mbind option_bind] in E.
    + destruct (st0 !! w') as [fw1|]; [|done]. cbn [mbind option_bind] in E.
      destruct (emit pick e fw1) as [[] fw2]; eapply Hgo; try exact E; try done; by rewrite list_lookup_insert_ne.
    + exact (Hgo _ _ Hw0 Hr E).
    + eapply Hgo; [|exact Hr1|exact E]. by rewrite list_lookup_alter_ne.
Qed.

Lemma removals_same remove w f : fanout_inv f → w ∉ remove → same_entries w f (fold_left remove_and_cancel remove f) ∧
  store (fold_left remove_and_cancel remove f) !! w = store f !! w.
Proof.
  revert f. induction remove as [|w' remove IH]; intros f Hi Hn; cbn [fold_left]; [done|].
  apply not_elem_of_cons in Hn as [Hne Hn].
  destruct (IH (remove_and_cancel f w')) as [He Hs]; [by eapply shrinks_inv, Hi; [|apply remove_and_cancel_shrinks]|done|].
  split.
  - intros k. rewrite He. by apply (removeWatcher_entries w' f Hi).
  - rewrite Hs. unfold remove_and_cancel. cbn [set_store store]. rewrite list_lookup_alter_ne by done.
    by rewrite (proj1 (removeWatcher_store w' f)).
Qed.

(** Every kind of the watch can read its filter of the event. *)
Definition readable (watch : Watch) (event : Event R) : Prop :=
  ∀ kind, kind ∈ Kinds watch → ∃ o, entry_event event kind = Some (Ok o).
Lemma emit_event_keeps em f : fanout_inv f → is_Some (emit_event em f) ∧
  ∀ f' w fw n, f_init f = true → emit_event em f = Some f' → registered w f → store f !! w = Some fw →
    undisturbed w (em_choices em) → readable (fw_watch fw) (em_event em) →
    live (length (deliveries (fw_watch fw) (em_event em)) + n) fw →
    registered w f' ∧ ∃ fw', store f' !! w = Some fw' ∧ live n fw' ∧ fw_watch fw' = fw_watch fw.
Proof.
  intros Hi. unfold emit_event.
  assert (∀ en, en ∈ entries_for (em_order em) (filterEventSecrets (em_event em)) (watchers f) →
    ∃ k, en ∈ entries_at (watchers f) k) as Hent.
  { intros en. unfold entries_for. destruct (ev_Resource _); [by eexists|].
    intros (l & Hl1 & Hl2)%list_elem_of_In%in_concat. apply in_map_iff in Hl1 as (k & <- & _). exists k. by apply list_elem_of_In. }
  destruct (emit_entries_total (entry_event (em_event em)) (entries_for (em_order em) (filterEventSecrets (em_event em)) (watchers f))
    (em_choices em) (store f) []) as [[st remove] E]; [apply entry_event_total| |].
  { intros en Hen. destruct (Hent _ Hen) as [k Hk]. by eapply inv_known. }
  rewrite E. cbn [mbind option_bind]. split; [done|].
  intros f' w fw n Hinit [= <-] Hr Hw Hu Hread Hl.
  destruct (emit_entries_keep _ _ _ _ _ _ _ w fw n E Hu Hw) as (Hn & fw' & Hw' & Hl' & Wt).
  - intros en Hen. unfold entries_of in Hen. apply list_elem_of_filter in Hen as [Hew Hen]. destruct (Hent _ Hen) as [k Hk].
    apply Hread. pose proof (inv_entries _ Hi _ _ Hw Hr k) as He. apply (list_elem_of_filter (fun kind => wk_Kind kind = k)).
    unfold kinds_at in He. rewrite <- He. apply list_elem_of_fmap. exists en. split; [done|]. unfold entries_of. by apply list_elem_of_filter.
  - by rewrite (outs_deliveries f w fw).
  - apply not_elem_of_nil.
  - destruct (emit_entries_round _ _ _ _ _ _ _ E) as (Hle & _ & Hst).
    destruct (removals_same remove w (set_store st f)) as [Hs Hsw]; [|done|].
    { apply sends_inv; [done..|]. intros w1 fw1 Hw1. destruct (Hst _ _ Hw1) as (out & fw2 & ? & ? & _). by exists out, fw2. }
    split; [by apply (same_entries_registered w _ _ Hs)|]. exists fw'. by rewrite Hsw.
Qed.

(** C31: nobody is dropped without a reason: an initialized fan-out emits any
    events without a panic, and a watcher that is not cancelled, whose filters can
    be read and whose queue has room for what they select, stays registered. *)
Theorem fanout_keeps os f ems w fw :
  fanout_run os NewFanout = Some f → f_init f = true → registered w f → store f !! w = Some fw → cancelled fw = false →
  (∀ em, em ∈ ems → undisturbed w (em_choices em) ∧ readable (fw_watch fw) (em_event em)) →
  (Z.of_nat (length (eventC fw) + length (ems ≫= (fun em => deliveries (fw_watch fw) (em_event em)))) ≤ QueueSize (fw_watch fw))%Z →
  ∃ f', Emit ems f = Some f' ∧ registered w f'.
Proof.
  intros Erun Hinit Hr Hw Hc Hems Hl. pose proof (fanout_run_inv _ _ _ NewFanout_inv Erun) as Hi. unfold Emit. rewrite Hinit. clear Erun.
  assert (live (length (ems ≫= (fun em => deliveries (fw_watch fw) (em_event em)))) fw) as Hlive by done. clear Hl Hc.
  revert f fw Hi Hinit Hr Hw Hems Hlive. induction ems as [|em ems IH]; intros f fw Hi Hinit Hr Hw Hems Hl; cbn [emit_events].
  { by exists f. }
  destruct (emit_event_keeps em f Hi) as [[f1 E] Hk]. rewrite E. cbn [mbind option_bind].
  cbn in Hl. rewrite length_app in Hl. destruct (Hems em ltac:(left)) as [Hu Hrd].
  destruct (Hk f1 w fw _ Hinit E Hr Hw Hu Hrd Hl) as (Hr1 & fw1 & Hw1 & Hl1 & Wt).
  pose proof (emit_event_shrinks _ _ _ Hi Hinit E) as Hs. apply (IH f1 fw1); [|by rewrite (shrinks_init _ _ _ Hs)|done|done|..].
  - eapply shrinks_inv; [|done..]. by rewrite Hinit.
  - intros em' Hin. rewrite Wt. apply Hems. by right.
  - by rewrite Wt.
Qed.
End fanout.
