(* ===== verification/FanoutSet.v ===== *)
(** * Sets of fan-outs (lib/services/fanout.go)

    A [FanoutSet] spreads watchers over 128 fan-outs in turn; its other
    operations go through all of them. *)

From S2P Require Import Prelude.
From S2P Require Import Events.
From S2P Require Import Fanout.
From S2P Require Import FanoutSpec.

Section fanout_set.
Context {R : Type} `{Resource R} `{FilterOrder} `{TargetCodec}.

Definition fanoutSetSize : nat := 128.
Record FanoutSet := MkFanoutSet { counter : Z; members : list (Fanout R) }.
Definition NewFanoutSet : FanoutSet := MkFanoutSet 0 (replicate fanoutSetSize NewFanout).

(** The member that the next registration goes to. *)
Definition next_member (s : FanoutSet) : nat := Z.to_nat (u64 (counter s + 1) `mod` u64 (Z.of_nat (length (members s)))).
(** [None] is an index out of range. The watcher is a member and a pointer of it. *)
Definition Set_NewWatcher (watch : Watch) (s : FanoutSet) : option (result (nat * nat) * FanoutSet) :=
  let fi := next_member s in
  f ← members s !! fi;
  let '(r, f) := NewWatcher watch f in
  Some (w ← r; Ok (fi, w), MkFanoutSet (u64 (counter s + 1)) (<[ fi := f ]> (members s))).

(** A loop over the members, each with its number. *)
Fixpoint each_member (step : nat → Fanout R → option (Fanout R)) (i : nat) (fs : list (Fanout R)) : option (list (Fanout R)) :=
  match fs with
  | [] => Some []
  | f :: fs => f ← step i f; fs ← each_member step (S i) fs; Some (f :: fs)
  end.
Definition on_members (step : nat → Fanout R → option (Fanout R)) (s : FanoutSet) : option FanoutSet :=
  fs ← each_member step 0 (members s); Some (MkFanoutSet (counter s) fs).

Definition Set_SetInit (order : nat → map_range) : FanoutSet → option FanoutSet := on_members (fun i => SetInit (order i)).
(** The same events for each member, each with its own orders and choices. *)
Definition emissions (events : list (Event R)) (how : nat → map_range * list choice) : list (emission R) :=
  imap (fun j event => MkEmission event (how j).1 (how j).2) events.
Definition Set_Emit (events : list (Event R)) (how : nat → nat → map_range * list choice) : FanoutSet → option FanoutSet :=
  on_members (fun i => Emit (emissions events (how i))).
(** The watchers of all members are taken out; a goroutine cancels them afterwards. *)
Definition Set_Reset (s : FanoutSet) : list (gmap string (list fanoutEntry)) * FanoutSet :=
  (fst ∘ takeAndReset <$> members s, MkFanoutSet (counter s) (snd ∘ takeAndReset <$> members s)).
Definition Set_Close (s : FanoutSet) : list (gmap string (list fanoutEntry)) * FanoutSet :=
  (fst ∘ takeAndClose <$> members s, MkFanoutSet (counter s) (snd ∘ takeAndClose <$> members s)).

(** [SBeside] is what runs beside the set: a receiver, a cancellation or the
    removal of a closed watcher of one member. *)
Inductive set_op :=
  | SNewWatcher (watch : Watch)
  | SSetInit (order : nat → map_range)
  | SEmit (events : list (Event R)) (how : nat → nat → map_range * list choice)
  | SReset
  | SClose
  | SRemove (i w : nat)
  | SEnv (i : nat) (e : env).
Definition set_step (s : FanoutSet) (o : set_op) : option FanoutSet :=
  match o with
  | SNewWatcher watch => snd <$> Set_NewWatcher watch s
  | SSetInit order => Set_SetInit order s
  | SEmit events how => Set_Emit events how s
  | SReset => Some (snd (Set_Reset s))
  | SClose => Some (snd (Set_Close s))
  | SRemove i w => Some (MkFanoutSet (counter s) (alter (removeWatcher w) i (members s)))
  | SEnv i e => Some (MkFanoutSet (counter s) (alter (fun f => set_store (run_env (store f) e) f) i (members s)))
  end.
Fixpoint set_run (os : list set_op) (s : FanoutSet) : option FanoutSet :=
  match os with [] => Some s | o :: os => s ← set_step s o; set_run os s end.
Definition set_emitted (o : set_op) : list (Event R) := match o with SEmit events _ => events | _ => [] end.

(** ** A member runs as a fan-out of its own *)

Lemma each_member_lookup step i0 fs fs' : each_member step i0 fs = Some fs' →
  length fs' = length fs ∧ ∀ i f, fs !! i = Some f → ∃ f', fs' !! i = Some f' ∧ step (i0 + i)%nat f = Some f'.
Proof.
  revert i0 fs'. induction fs as [|f fs IH]; intros i0 fs'; cbn [each_member]; [by intros [= <-]|].
  destruct (step i0 f) as [f1|] eqn:E1; [|done]. cbn [mbind option_bind].
  destruct (each_member step (S i0) fs) as [fs1|] eqn:E2; [|done]. intros [= <-].
  destruct (IH _ _ E2) as [Hl Hi]. split; [by cbn; rewrite Hl|]. intros [|i] g Hg; cbn in *.
  - injection Hg as ->. exists f1. by rewrite Nat.add_0_r.
  - destruct (Hi _ _ Hg) as (g' & Hg' & Es). exists g'. split; [done|]. by rewrite <- Es, Nat.add_succ_r.
Qed.
Lemma emissions_events events how : em_event <$> emissions events how = events.
Proof.
  unfold emissions. revert how. induction events as [|e events IH]; intros how; [done|].
  rewrite imap_cons. cbn [fmap list_fmap em_event]. f_equal. apply (IH (how ∘ S)).
Qed.

(** What an operation of the set is to a member. *)
Definition member_ops (s : FanoutSet) (o : set_op) (i : nat) : list (fanout_op R) :=
  match o with
  | SNewWatcher watch => if decide (i = next_member s) then [ONewWatcher watch] else []
  | SSetInit order => [OSetInit (order i)]
  | SEmit events how => [OEmit (emissions events (how i))]
  | SReset => [OReset]
  | SClose => [OClose]
  | SRemove j w => if decide (i = j) then [ORemove w] else []
  | SEnv j e => if decide (i = j) then [OEnv e] else []
  end.
(** One operation on a fan-out, as a run. *)
Lemma run_one o (f f' : Fanout R) : fanout_step f o = Some f' → fanout_run [o] f = Some f'.
Proof. intros E. cbn [fanout_run]. by rewrite E. Qed.

Lemma set_step_member s o s' i f : set_step s o = Some s' → members s !! i = Some f →
  ∃ f', members s' !! i = Some f' ∧ fanout_run (member_ops s o i) f = Some f'.
Proof.
  assert (∀ (step : nat → Fanout R → option (Fanout R)) s1, on_members step s = Some s1 → members s !! i = Some f →
    ∃ f', members s1 !! i = Some f' ∧ step i f = Some f') as Hon.
  { intros step s1 E Hf. unfold on_members in E. destruct (each_member step 0 (members s)) as [fs|] eqn:Ee; [|done].
    injection E as <-. by apply (each_member_lookup _ _ _ _ Ee). }
  assert (∀ (g : Fanout R → Fanout R) j f0, members s !! i = Some f0 →
    ∃ f', alter g j (members s) !! i = Some f' ∧ (if decide (i = j) then Some (g f0) else Some f0) = Some f') as Halter.
  { intros g j f0 Hf. destruct (decide (i = j)) as [->|Hn].
    - exists (g f0). by rewrite list_lookup_alter_eq, Hf.
    - exists f0. by rewrite list_lookup_alter_ne. }
  intros E Hf. destruct o as [watch|order|events how| | |j w|j e]; cbn [set_step member_ops] in *.
  - unfold Set_NewWatcher in E. destruct (members s !! next_member s) as [g|] eqn:Hg; [|done]. cbn [mbind option_bind] in E.
    destruct (NewWatcher watch g) as [r g'] eqn:En. cbn in E. injection E as <-. cbn [members].
    destruct (decide (i = next_member s)) as [->|Hn].
    + exists g'. rewrite list_lookup_insert_eq by (by eapply lookup_lt_Some). split; [done|].
      rewrite Hg in Hf. injection Hf as ->. apply run_one. cbn. by rewrite En.
    + exists f. by rewrite list_lookup_insert_ne.
  - destruct (Hon _ _ E Hf) as (f' & Hf' & Es). exists f'. split; [done|]. by apply run_one.
  - destruct (Hon _ _ E Hf) as (f' & Hf' & Es). exists f'. split; [done|]. by apply run_one.
  - injection E as <-. cbn [Set_Reset snd members]. rewrite list_lookup_fmap, Hf. by eexists.
  - injection E as <-. cbn [Set_Close snd members]. rewrite list_lookup_fmap, Hf. by eexists.
  - injection E as <-. cbn [members]. destruct (Halter (removeWatcher w) j f Hf) as (f' & Hf' & Ed). exists f'. split; [done|].
    by destruct (decide (i = j)).
  - injection E as <-. cbn [members]. destruct (Halter (fun f => set_store (run_env (store f) e) f) j f Hf) as (f' & Hf' & Ed).
    exists f'. split; [done|]. by destruct (decide (i = j)).
Qed.

Lemma member_emitted s o i : (member_ops s o i ≫= emitted)%list = set_emitted o.
Proof.
  destruct o; cbn [member_ops set_emitted]; try case_decide; try done.
  cbn. by rewrite app_nil_r, emissions_events.
Qed.
Lemma run_app os1 os2 (f : Fanout R) : fanout_run (os1 ++ os2) f = fanout_run os1 f ≫= fanout_run os2.
Proof.
  revert f. induction os1 as [|o os1 IH]; intros f; cbn [app fanout_run]; [done|].
  destruct (fanout_step f o); cbn; [apply IH|done].
Qed.
Lemma set_run_member os s s' i f : set_run os s = Some s' → members s !! i = Some f →
  ∃ fos f', members s' !! i = Some f' ∧ fanout_run fos f = Some f' ∧ (fos ≫= emitted)%list = (os ≫= set_emitted)%list.
Proof.
  revert s f. induction os as [|o os IH]; intros s f; cbn [set_run].
  { intros [= <-] Hf. by exists [], f. }
  destruct (set_step s o) as [s1|] eqn:E1; [|done]. cbn [mbind option_bind]. intros E Hf.
  destruct (set_step_member _ _ _ _ _ E1 Hf) as (f1 & Hf1 & R1). destruct (IH _ _ E Hf1) as (fos & f' & Hf' & R' & Ee).
  exists (member_ops s o i ++ fos)%list, f'. split_and!; [done|by rewrite run_app, R1|].
  rewrite bind_app, Ee, member_emitted. done.
Qed.
Lemma set_run_length os s s' : set_run os s = Some s' → length (members s') = length (members s).
Proof.
  revert s. induction os as [|o os IH]; intros s; cbn [set_run]; [by intros [= <-]|].
  destruct (set_step s o) as [s1|] eqn:E1; [|done]. cbn [mbind option_bind]. intros E. rewrite (IH _ E). clear IH E.
  assert (∀ step s2, on_members step s = Some s2 → length (members s2) = length (members s)) as Hon.
  { intros step s2 E. unfold on_members in E. destruct (each_member step 0 (members s)) as [fs|] eqn:Ee; [|done].
    injection E as <-. by apply (each_member_lookup _ _ _ _ Ee). }
  destruct o; cbn [set_step] in E1; try (by eapply Hon); try (injection E1 as <-; cbn; by rewrite ?length_fmap, ?length_alter).
  unfold Set_NewWatcher in E1. destruct (members s !! next_member s); [|done]. cbn [mbind option_bind] in E1.
  destruct (NewWatcher _ _). injection E1 as <-. apply length_insert.
Qed.

(** a watcher of a set is served by one member, and is told what a watcher
    of a single fan-out would be told of all that was emitted to the set. *)
Theorem FanoutSet_delivery os1 os2 watch i w s1 s2 s f :
  set_run os1 NewFanoutSet = Some s1 → Set_NewWatcher watch s1 = Some (Ok (i, w), s2) → set_run os2 s2 = Some s →
  members s !! i = Some f → registered w f →
  ∃ fw, store f !! w = Some fw ∧
    (received fw ++ eventC fw)%list = (if f_init f then init_event :: ((os2 ≫= set_emitted) ≫= deliveries watch) else []).
Proof.
  intros E1 En E2 Hf Hr. unfold Set_NewWatcher in En.
  destruct (members s1 !! next_member s1) as [f1|] eqn:Hf1; [|done]. cbn [mbind option_bind] in En.
  destruct (NewWatcher watch f1) as [[w'|] f2] eqn:Enw; [|done]. injection En as <- <- <-.
  assert (∃ g, members NewFanoutSet !! next_member s1 = Some g ∧ g = NewFanout) as (g & Hg & ->).
  { assert (next_member s1 < length (members NewFanoutSet))%nat as Hlt.
    { rewrite <- (set_run_length _ _ _ E1). by eapply lookup_lt_Some. }
    apply lookup_lt_is_Some in Hlt as [g Hg]. exists g. split; [done|]. by apply lookup_replicate in Hg as [-> _]. }
  destruct (set_run_member _ _ _ _ _ E1 Hg) as (os & f1' & Hf1' & R1 & _). rewrite Hf1 in Hf1'. injection Hf1' as <-.
  destruct (set_run_member os2 _ s (next_member s1) f2 E2) as (fos & f' & Hf' & R2 & Ee).
  { cbn [members]. apply list_lookup_insert_eq. by eapply lookup_lt_Some. }
  rewrite Hf in Hf'. injection Hf' as <-.
  destruct (registered_told _ _ _ _ _ _ (fanout_run_inv _ _ _ NewFanout_inv R1) Enw R2) as [_ Ht].
  destruct (Ht Hr) as (fw & Hw & _ & Hs & _). exists fw. split; [done|]. rewrite <- Ee. apply Hs.
Qed.

(** Any 128 registrations in a row go to different members, also when the
    counter wraps around. *)
Lemma next_member_mod s : length (members s) = fanoutSetSize → next_member s = Z.to_nat ((counter s + 1) `mod` 128).
Proof.
  unfold next_member, fanoutSetSize. intros ->. change (u64 (Z.of_nat 128)) with 128%Z. unfold wrap_u.
  rewrite Z.mod_mod_divide; [done|]. by exists (2 ^ 57)%Z.
Qed.
Lemma next_member_spread s s' n : length (members s) = fanoutSetSize → length (members s') = fanoutSetSize →
  (0 < n < fanoutSetSize)%nat → counter s' = u64 (counter s + Z.of_nat n) → next_member s ≠ next_member s'.
Proof.
  intros Hl Hl' Hn Hc. rewrite !next_member_mod by done. rewrite Hc. unfold fanoutSetSize, wrap_u in *.
  assert (((counter s + Z.of_nat n) `mod` 2 ^ 64 + 1) `mod` 128 = (counter s + Z.of_nat n + 1) `mod` 128)%Z as ->.
  { rewrite <- Zplus_mod_idemp_l, Z.mod_mod_divide by (by exists (2 ^ 57)%Z). apply Zplus_mod_idemp_l. }
  intros E%Z2Nat.inj; [|apply Z.mod_pos_bound; lia..].
  pose proof (Z.div_mod (counter s + 1) 128). pose proof (Z.div_mod (counter s + Z.of_nat n + 1) 128). lia.
Qed.
End fanout_set.
