(* ===== verification/LockWatch.v ===== *)
(** * Locks in force (lib/services/watcher.go, lib/services/lock.go, api/types/lock.go)

    A lock keeps an access vector out while it is in force. The watcher of locks
    keeps a view of the locks that are stored: it fetches them, follows their
    events, tells its subscribers, and answers whether a lock is in force.
    Resources are of any type, some of which are locks. *)

From S2P Require Import Prelude.
From S2P Require Import Backend.
From S2P Require Import Role.
From S2P Require Import AccessRequest.
From S2P Require Import Events.
From S2P Require Import Fanout.
From S2P Require Import FanoutSpec.
Local Open Scope string_scope.

(** ** Locks *)

Record LockV2 := MkLock {
  lock_Metadata : Metadata; lock_Target : LockTarget; lock_Message : string; lock_Expires : option Z
}.
#[export] Instance LockV2_eq_dec : EqDecision LockV2.
Proof. assert (EqDecision Metadata) by solve_decision. solve_decision. Defined.
Definition lock_Name (l : LockV2) : string := md_Name (lock_Metadata l).
Definition IsInForce (t : Z) (l : LockV2) : bool :=
  match lock_Expires l with None => true | Some expires => (t <? expires)%Z end.
Definition Lock_CheckAndSetDefaults (l : LockV2) : result LockV2 :=
  m ← Metadata_CheckAndSetDefaults (lock_Metadata l);
  if Target_IsEmpty (lock_Target l) then Err (Error BadParameter "at least one target field must be set")
  else Ok (MkLock m (lock_Target l) (lock_Message l) (lock_Expires l)).
Definition NewLock (name : string) (target : LockTarget) (message : string) (expires : option Z) : result LockV2 :=
  Lock_CheckAndSetDefaults (MkLock (MkMetadata name "" "" ∅ None 0) target message expires).

Definition no_target : LockTarget := MkLockTarget "" "" "" "" "" "" "".
Definition user_target (u : string) : LockTarget := MkLockTarget u "" "" "" "" "" "".
Definition role_target (r : string) : LockTarget := MkLockTarget "" r "" "" "" "" "".
Definition node_target (n : string) : LockTarget := MkLockTarget "" "" "" n "" "" "".
Definition mfa_target (m : string) : LockTarget := MkLockTarget "" "" "" "" m "" "".
Definition request_target (r : string) : LockTarget := MkLockTarget "" "" "" "" "" "" r.
Definition RolesToLockTargets (roles : list string) : list LockTarget := map role_target roles.
Definition AccessRequestsToLockTargets (accessRequests : list string) : list LockTarget := map request_target accessRequests.

Definition LockInForceAccessDenied (l : LockV2) : error :=
  Error AccessDenied (if negb (String.eqb (lock_Message l) "") then "lock targeting %v is in force: msg" else "lock targeting %v is in force").
Definition StrictLockingModeAccessDenied : error :=
  Error AccessDenied "preventive lock-out due to local lock view becoming unreliable".
Definition LockingModeStrict : string := "strict".
Definition KindLock : string := "lock".

(** Resources that may be locks, and the JSON of a target. *)
Class LockResource (R : Type) `{Resource R} := { as_lock : R → option LockV2; of_lock : LockV2 → R }.
Class LockResourceLaws (R : Type) `{LockResource R} : Prop := {
  as_of_lock l : as_lock (of_lock l) = Some l;
  kind_of_lock l : GetKind (of_lock l) = KindLock;
  name_of_lock l : GetName (of_lock l) = lock_Name l
}.
Class TargetEncoder := { Target_IntoMap : LockTarget → result (gmap string string) }.

(** ** The collector *)

Section collector.
Context {R : Type} `{LockResource R} `{FilterOrder} `{TargetCodec} `{TargetEncoder}.

Record lockCollector := MkCollector {
  current : gmap string LockV2; isStale : bool; initialized : bool; fanout : Fanout R
}.

(** How an event is sent to the subscribers: the order of the kinds and what
    runs beside. *)
Definition sending : Type := (map_range * list choice).
Definition emit_one (how : sending) (event : Event R) (p : lockCollector) : option lockCollector :=
  f ← Emit [MkEmission event how.1 how.2] (fanout p);
  Some (MkCollector (current p) (isStale p) (initialized p) f).
Definition plain_sending : sending := (MkRange (fun l => l) (fun l => reflexivity l), []).
Definition next_sending (hows : list sending) : sending * list sending :=
  match hows with [] => (plain_sending, []) | how :: hows => (how, hows) end.
Fixpoint emit_all (hows : list sending) (events : list (Event R)) (p : lockCollector) : option lockCollector :=
  match events with
  | [] => Some p
  | event :: events =>
      let '(how, hows) := next_sending hows in
      p ← emit_one how event p; emit_all hows events p
  end.

Definition lock_event (l : LockV2) : Event R := MkEvent OpPut (Some (of_lock l)).
(** The locks are fetched; [order] is the order of the new map. *)
Definition getResourcesAndUpdateCurrent (locks : result (list LockV2)) (order : map_range) (hows : list sending)
    (p : lockCollector) : option (result unit * lockCollector) :=
  match locks with
  | Err e => Some (Err e, p)
  | Ok locks =>
      let newCurrent := fold_left (fun m l => <[ lock_Name l := l ]> m) locks ∅ in
      let p := MkCollector newCurrent false true (fanout p) in
      p ← emit_all hows (lock_event <$> omap (fun k => newCurrent !! k) (range_of order (elements (dom newCurrent)))) p;
      Some (Ok (), p)
  end.

Definition set_current (m : gmap string LockV2) (p : lockCollector) : lockCollector :=
  MkCollector m (isStale p) (initialized p) (fanout p).
Definition processEventAndUpdateCurrent (now : Z) (how : sending) (event : Event R) (p : lockCollector) : option lockCollector :=
  match ev_Resource event with
  | None => Some p
  | Some r =>
      if negb (String.eqb (GetKind r) KindLock) then Some p else
      match ev_Type event with
      | OpDelete => emit_one how event (set_current (delete (GetName r) (current p)) p)
      | OpPut =>
          match as_lock r with
          | None => Some p
          | Some lock =>
              if IsInForce now lock
              then emit_one how event (set_current (<[ lock_Name lock := lock ]> (current p)) p)
              else Some (set_current (delete (lock_Name lock) (current p)) p)
          end
      | _ => Some p
      end
  end.
Definition notifyStale (how : sending) (p : lockCollector) : option lockCollector :=
  p ← emit_one how (MkEvent OpUnreliable None) p;
  Some (MkCollector (current p) true (initialized p) (fanout p)).

(** The clock is read for each lock. *)
Fixpoint find_lock (clock : nat → Z) (targets : list LockTarget) (locks : list LockV2) : option LockV2 :=
  match locks with
  | [] => None
  | lock :: locks =>
      if IsInForce (clock O) lock && ((length targets =? 0)%nat || existsb (fun t => Target_Match t (lock_Target lock)) targets)
      then Some lock else find_lock (clock ∘ S) targets locks
  end.
Definition findLockInForceUnderMutex (clock : nat → Z) (order : map_range) (targets : list LockTarget) (p : lockCollector) :
    option LockV2 :=
  find_lock clock targets (omap (fun k => current p !! k) (range_of order (elements (dom (current p))))).
Definition CheckLockInForce (clock : nat → Z) (order : map_range) (mode : string) (targets : list LockTarget)
    (p : lockCollector) : result unit :=
  if isStale p && String.eqb mode LockingModeStrict then Err StrictLockingModeAccessDenied else
  match findLockInForceUnderMutex clock order targets p with
  | Some lock => Err (LockInForceAccessDenied lock)
  | None => Ok ()
  end.
Definition GetCurrent (order : map_range) (p : lockCollector) : list LockV2 :=
  omap (fun k => current p !! k) (range_of order (elements (dom (current p)))).

(** ** Subscribers *)

Fixpoint target_kinds (targets : list LockTarget) : result (list WatchKind) :=
  match targets with
  | [] => Ok []
  | target :: targets =>
      if Target_IsEmpty target then target_kinds targets else
      filter ← Target_IntoMap target;
      kinds ← target_kinds targets;
      Ok (MkWatchKind KindLock "" "" "" false filter :: kinds)
  end.
Definition lockTargetsToWatchKinds (targets : list LockTarget) : result (list WatchKind) :=
  kinds ← target_kinds targets;
  Ok (if (length kinds =? 0)%nat then [MkWatchKind KindLock "" "" "" false ∅] else kinds).
(** [None] is a subscriber that waits for its first event. *)
Definition Subscribe (targets : list LockTarget) (p : lockCollector) : option (result nat * lockCollector) :=
  match lockTargetsToWatchKinds targets with
  | Err e => Some (Err e, p)
  | Ok watchKinds =>
      let with_fanout f := MkCollector (current p) (isStale p) (initialized p) f in
      match NewWatcher (MkWatch "" watchKinds 0) (fanout p) with
      | (Err e, f) => Some (Err e, with_fanout f)
      | (Ok w, f) =>
          fw ← store f !! w;
          match eventC fw with
          | event :: _ =>
              let f := set_store (<[ w := receive fw ]> (store f)) f in
              Some (if bool_decide (ev_Type event = OpInit) then Ok w
                    else Err (Error BadParameter "expected init event, got %v instead"), with_fanout f)
          | [] => if cancelled fw then Some (Err (default err_closed (watcher_Error fw)), with_fanout f) else None
          end
      end
  end.

(** ** The watcher *)

(** The fan-out is initialized after the goroutine that fetches has started. *)
Definition new_collector : lockCollector := MkCollector ∅ false false NewFanout.
Definition NewLockWatcher (order : map_range) : option lockCollector :=
  f ← SetInit order NewFanout; Some (MkCollector ∅ false false f).

(** One turn of the loop of a watcher: the watch can not be started, or the
    locks are fetched, and events are followed until the watch is closed, which
    is an error. *)
Record turn := MkTurn {
  tn_start : option error; tn_locks : result (list LockV2); tn_order : map_range; tn_hows : list sending;
  tn_events : list (Z * sending * Event R); tn_end : error
}.
Fixpoint follow (events : list (Z * sending * Event R)) (p : lockCollector) : option lockCollector :=
  match events with
  | [] => Some p
  | (now, how, event) :: events => p ← processEventAndUpdateCurrent now how event p; follow events p
  end.
(** [failureStartedAt] is when the failures to update the view began. *)
Definition watch (t : turn) (failureStartedAt : Z) (p : lockCollector) : option (error * Z * lockCollector) :=
  match tn_start t with
  | Some e => Some (e, failureStartedAt, p)
  | None =>
      '(r, p) ← getResourcesAndUpdateCurrent (tn_locks t) (tn_order t) (tn_hows t) p;
      match r with
      | Err e => Some (e, failureStartedAt, p)
      | Ok _ => p ← follow (tn_events t) p; Some (tn_end t, zero_time, p)
      end
  end.
Definition hasStaleView (MaxStaleness now failureStartedAt : Z) : bool :=
  if (MaxStaleness =? 0)%Z || is_zero_time failureStartedAt then false else (now - failureStartedAt >? MaxStaleness)%Z.
(** [now] and [now'] are read after the watch has ended. *)
Definition watch_turn (MaxStaleness now now' : Z) (t : turn) (how : sending) (failureStartedAt : Z) (p : lockCollector) :
    option (Z * lockCollector) :=
  '(_, failureStartedAt, p) ← watch t failureStartedAt p;
  let failureStartedAt := if is_zero_time failureStartedAt then now else failureStartedAt in
  if hasStaleView MaxStaleness now' failureStartedAt then p ← notifyStale how p; Some (failureStartedAt, p)
  else Some (failureStartedAt, p).

End collector.
Arguments lockCollector : clear implicits.

(** ** What the view shows *)
Section view.
Context {R : Type} `{LockResourceLaws R} `{FilterOrder} `{TargetCodec}.
Implicit Types (p : lockCollector R) (l : LockV2) (event : Event R).

(** Changes of the stored locks, and the locks they leave. *)
Inductive change := ChPut (l : LockV2) | ChDelete (name : string).
Definition apply_change (m : gmap string LockV2) (c : change) : gmap string LockV2 :=
  match c with ChPut l => <[ lock_Name l := l ]> m | ChDelete name => delete name m end.
Definition replay (log : list change) : gmap string LockV2 := fold_left apply_change log ∅.
(** The event of a change. *)
Definition stands_for event (c : change) : Prop :=
  ∃ r, ev_Resource event = Some r ∧ GetKind r = KindLock ∧
    match c with
    | ChPut l => ev_Type event = OpPut ∧ as_lock r = Some l
    | ChDelete name => ev_Type event = OpDelete ∧ GetName r = name
    end.

Definition named (m : gmap string LockV2) : Prop := ∀ k l, m !! k = Some l → lock_Name l = k.
Lemma apply_named m c : named m → named (apply_change m c).
Proof.
  intros Hm k l. destruct c as [l'|name]; cbn.
  - rewrite lookup_insert_Some. intros [[? ->]|[_ ?]]; [done|by apply Hm].
  - rewrite lookup_delete_Some. intros [_ ?]. by apply Hm.
Qed.
Lemma replay_named log m : named m → named (fold_left apply_change log m).
Proof. revert m. induction log as [|c log IH]; intros m Hm; [done|]. cbn. by apply IH, apply_named. Qed.

(** In force later is in force before. *)
Lemma IsInForce_earlier t t' l : (t ≤ t')%Z → IsInForce t' l = true → IsInForce t l = true.
Proof. unfold IsInForce. destruct (lock_Expires l); [|done]. rewrite !Z.ltb_lt. lia. Qed.

(** Two maps agree on the locks in force from [t] on. *)
Definition agree (t : Z) (m m' : gmap string LockV2) : Prop :=
  ∀ k l, IsInForce t l = true → m !! k = Some l ↔ m' !! k = Some l.

(** The last word on a name. *)
Definition about (k : string) (c : change) : option (option LockV2) :=
  match c with
  | ChPut l => if decide (lock_Name l = k) then Some (Some l) else None
  | ChDelete name => if decide (name = k) then Some None else None
  end.
Fixpoint last_word (k : string) (log : list change) : option (option LockV2) :=
  match log with
  | [] => None
  | c :: log => match last_word k log with Some v => Some v | None => about k c end
  end.
Lemma lookup_apply_change m c k : apply_change m c !! k = match about k c with Some v => v | None => m !! k end.
Proof.
  destruct c as [l|name]; cbn; case_decide; subst;
    rewrite ?lookup_insert_eq, ?lookup_delete_eq, ?lookup_insert_ne, ?lookup_delete_ne by done; done.
Qed.
Lemma lookup_changes log m k :
  fold_left apply_change log m !! k = match last_word k log with Some v => v | None => m !! k end.
Proof.
  revert m. induction log as [|c log IH]; intros m; [done|]. cbn [fold_left last_word]. rewrite IH.
  destruct (last_word k log); [done|]. apply lookup_apply_change.
Qed.
(** Changes that are made again from anywhere before on change nothing. *)
Lemma replay_overlap log m n k : (m ≤ n)%nat →
  fold_left apply_change (drop m log) (replay (take n log)) !! k = replay log !! k.
Proof.
  intros Hmn.
  assert (∀ j (cs : list change), replay cs = fold_left apply_change (drop j cs) (replay (take j cs))) as Hsplit.
  { intros j cs. unfold replay. by rewrite <- fold_left_app, take_drop. }
  rewrite (Hsplit m log), !lookup_changes. destruct (last_word k (drop m log)) as [v|] eqn:E; [done|].
  rewrite (Hsplit m (take n log)), take_take, Nat.min_l by done. rewrite lookup_changes.
  replace (last_word k (drop m (take n log))) with (@None (option LockV2)); [done|].
  rewrite <- (take_drop (n - m) (drop m log)) in E. rewrite skipn_firstn_comm.
  revert E. generalize (take (n - m) (drop m log)) (drop (n - m) (drop m log)). intros l1 l2. clear.
  induction l1 as [|c l1 IH]; [done|]. cbn. destruct (last_word k (l1 ++ l2)) as [v|] eqn:E2; [done|]. intros E. by rewrite <- IH.
Qed.

(** *** The fan-out of a collector never stops it *)
Definition working p : Prop := fanout_inv (fanout p) ∧ f_init (fanout p) = true.
Definition same_view p p' : Prop := current p' = current p ∧ isStale p' = isStale p ∧ initialized p' = initialized p.
Lemma emit_one_works how event p : working p → ∃ p', emit_one how event p = Some p' ∧ working p' ∧ same_view p p'.
Proof.
  intros [Hi Hin]. unfold emit_one, Emit. rewrite Hin. cbn [emit_events].
  destruct (emit_event_keeps (MkEmission event how.1 how.2) (fanout p) Hi) as [[f E] _]. rewrite E. cbn [mbind option_bind].
  eexists. split; [reflexivity|]. split; [|done]. pose proof (emit_event_shrinks _ _ _ Hi Hin E) as Hs. split; cbn.
  - eapply shrinks_inv; [|done..]. by rewrite Hin.
  - by rewrite (shrinks_init _ _ _ Hs).
Qed.
Lemma emit_all_works hows events p : working p → ∃ p', emit_all hows events p = Some p' ∧ working p' ∧ same_view p p'.
Proof.
  revert hows p. induction events as [|event events IH]; intros hows p Hp; cbn [emit_all]; [by exists p|].
  destruct (next_sending hows) as [how hows']. destruct (emit_one_works how event p Hp) as (p1 & -> & Hp1 & (Hc & Hs & Hn)).
  cbn [mbind option_bind]. destruct (IH hows' p1 Hp1) as (p2 & -> & Hp2 & (Hc2 & Hs2 & Hn2)). exists p2.
  split; [done|]. split; [done|]. unfold same_view. by rewrite Hc2, Hs2, Hn2.
Qed.

(** *** Following the changes *)
Lemma process_change now how event c t m p : (now ≤ t)%Z → working p → stands_for event c → agree t (current p) m →
  ∃ p', processEventAndUpdateCurrent now how event p = Some p' ∧ working p' ∧ isStale p' = isStale p ∧
    agree t (current p') (apply_change m c).
Proof.
  intros Ht Hp (r & Hr & Hk & Hc) Ha. unfold processEventAndUpdateCurrent. rewrite Hr, Hk, String.eqb_refl. cbn [negb].
  destruct c as [l|name]; destruct Hc as [-> Hc].
  - rewrite Hc. destruct (IsInForce now l) eqn:Ef.
    + destruct (emit_one_works how event (set_current (<[lock_Name l:=l]> (current p)) p) Hp) as (p' & -> & Hp' & (Hcur & Hs & _)).
      exists p'. split_and!; [done..|]. rewrite Hcur. intros k l' Hl'. cbn. rewrite !lookup_insert_Some.
      specialize (Ha k l' Hl'). naive_solver.
    + eexists. split; [reflexivity|]. split_and!; [done..|]. intros k l' Hl'. cbn.
      rewrite lookup_insert_Some, lookup_delete_Some. specialize (Ha k l' Hl'). split; [naive_solver|].
      intros [[_ ->]|?]; [|naive_solver]. rewrite (IsInForce_earlier now t l') in Ef by done. done.
  - destruct (emit_one_works how event (set_current (delete (GetName r) (current p)) p) Hp) as (p' & -> & Hp' & (Hcur & Hs & _)).
    exists p'. split_and!; [done..|]. rewrite Hcur, Hc. intros k l' Hl'. cbn. rewrite !lookup_delete_Some.
    specialize (Ha k l' Hl'). naive_solver.
Qed.
Lemma follow_changes t events log m p :
  working p → agree t (current p) m →
  Forall2 (fun e c => (e.1.1 ≤ t)%Z ∧ stands_for e.2 c) events log →
  ∃ p', follow events p = Some p' ∧ working p' ∧ isStale p' = isStale p ∧ agree t (current p') (fold_left apply_change log m).
Proof.
  intros Hp Ha Hl. revert m p Hp Ha. induction Hl as [|[[now how] event] c events log [Ht Hst] _ IH]; intros m p Hp Ha; cbn [follow].
  { by exists p. }
  destruct (process_change now how event c t m p Ht Hp Hst Ha) as (p1 & -> & Hp1 & Hs1 & Ha1). cbn [mbind option_bind].
  destruct (IH _ _ Hp1 Ha1) as (p2 & -> & Hp2 & Hs2 & Ha2). exists p2. split_and!; [done..|congruence|done].
Qed.

(** The locks of a store that are in force, as they are fetched in some order. *)
Definition fetched (t : Z) (m : gmap string LockV2) (locks : list LockV2) : Prop :=
  locks ≡ₚ filter (fun l => IsInForce t l = true) (snd <$> map_to_list m).
Lemma collect_locks locks k l :
  (∀ l1 l2, l1 ∈ locks → l2 ∈ locks → lock_Name l1 = lock_Name l2 → l1 = l2) →
  fold_left (fun m l => <[ lock_Name l := l ]> m) locks (∅ : gmap string LockV2) !! k = Some l ↔ l ∈ locks ∧ lock_Name l = k.
Proof.
  assert (∀ m : gmap string LockV2, (∀ l1 l2, l1 ∈ locks → l2 ∈ locks → lock_Name l1 = lock_Name l2 → l1 = l2) →
    fold_left (fun m l => <[ lock_Name l := l ]> m) locks m !! k = Some l ↔
    (l ∈ locks ∧ lock_Name l = k) ∨ (m !! k = Some l ∧ ∀ l', l' ∈ locks → lock_Name l' ≠ k)) as Hgen.
  { induction locks as [|l0 locks IH]; intros m Hu; cbn [fold_left].
    - set_solver.
    - rewrite IH by (intros; apply Hu; [right|right|]; done). rewrite lookup_insert_Some. split.
      + intros [[Hin Hn]|[[[Hn <-]|[Hn Hm]] Ho]].
        * left. by split; [right|].
        * left. by split; [left|].
        * right. split; [done|]. intros l' [->|Hin]%elem_of_cons; [done|by apply Ho].
      + intros [[[->|Hin]%elem_of_cons Hn]|[Hm Ho]].
        * destruct (decide (l0 ∈ locks)) as [Hin|Hout]; [by left|]. right. split; [by left|].
          intros l' Hl' Hn'. assert (l' = l0) as -> by (apply Hu; [by right|by left|congruence]). done.
        * by left.
        * right. split; [right; split; [apply Ho; by left|done]|]. intros l' Hl'. apply Ho. by right. }
  intros Hu. rewrite Hgen by done. rewrite lookup_empty. naive_solver.
Qed.

Lemma fetch_view t t0 log n locks order hows p : (t0 ≤ t)%Z → working p → fetched t0 (replay (take n log)) locks →
  ∃ p', getResourcesAndUpdateCurrent (Ok locks) order hows p = Some (Ok (), p') ∧ working p' ∧ isStale p' = false ∧
    agree t (current p') (replay (take n log)).
Proof.
  intros Ht Hp Hf. unfold getResourcesAndUpdateCurrent. set (newCurrent := fold_left _ locks ∅).
  destruct (emit_all_works hows (lock_event <$> omap (fun k => newCurrent !! k) (range_of order (elements (dom newCurrent))))
    (MkCollector newCurrent false true (fanout p)) Hp) as (p' & -> & Hp' & (Hc & Hs & _)).
  cbn [mbind option_bind]. exists p'. split_and!; [done..|]. rewrite Hc. intros k l Hl. cbn [current].
  assert (named (replay (take n log))) as Hnamed by (apply replay_named; by intros ? ?).
  assert (∀ l', l' ∈ locks ↔ IsInForce t0 l' = true ∧ ∃ k', replay (take n log) !! k' = Some l') as Hin.
  { intros l'. rewrite Hf, list_elem_of_filter, list_elem_of_fmap. split.
    - intros [? [[k' ?] [-> Hm%elem_of_map_to_list]]]. by eauto.
    - intros [? [k' Hk']]. split; [done|]. exists (k', l'). split; [done|]. by apply elem_of_map_to_list. }
  unfold newCurrent. rewrite collect_locks.
  - rewrite Hin. split.
    + intros [[_ [k' Hk']] <-]. by rewrite (Hnamed _ _ Hk').
    + intros Hk. split; [|by apply Hnamed]. split; [by eapply IsInForce_earlier|by exists k].
  - intros l1 l2 [_ [k1 H1']]%Hin [_ [k2 H2']]%Hin Hn. pose proof (Hnamed _ _ H1'). pose proof (Hnamed _ _ H2'). congruence.
Qed.

(** *** Whether a lock is in force *)
Lemma find_lock_spec clock t t' targets locks :
  (∀ i, t ≤ clock i ≤ t')%Z →
  match find_lock clock targets locks with
  | Some l => l ∈ locks ∧ IsInForce t l = true ∧ (targets = [] ∨ ∃ target, target ∈ targets ∧ Target_Match target (lock_Target l) = true)
  | None => ∀ l, l ∈ locks → IsInForce t' l = true → targets ≠ [] ∧ ∀ target, target ∈ targets → Target_Match target (lock_Target l) = false
  end.
Proof.
  revert clock. induction locks as [|l locks IH]; intros clock Hc; cbn [find_lock]; [by intros l ?%elem_of_nil|].
  destruct (IsInForce (clock O) l && _) eqn:E.
  - apply andb_true_iff in E as [Ef Em]. split; [by left|]. split; [eapply IsInForce_earlier; [apply (Hc O)|done]|].
    apply orb_true_iff in Em as [Hl%Nat.eqb_eq|(x & ? & ?)%existsb_elem]; [left; by apply nil_length_inv|right; by exists x].
  - specialize (IH (clock ∘ S) (fun i => Hc (S i))). destruct (find_lock _ _ _) as [l'|].
    + destruct IH as (? & ? & ?). split; [by right|done].
    + intros l0 [->|Hin]%elem_of_cons Hl0; [|by apply IH]. rewrite (IsInForce_earlier (clock O) t' l) in E by (done || apply Hc).
      cbn [andb] in E. apply orb_false_iff in E as [Hl Hm]. split; [by intros ->|]. intros target Hin.
      destruct (Target_Match _ _) eqn:Et; [|done]. exfalso. assert (existsb (fun t0 => Target_Match t0 (lock_Target l)) targets = true) as Hx; [|congruence].
      apply existsb_elem. by exists target.
Qed.

(** A lock keeps out: no targets at all stand for any. *)
Definition keeps_out (targets : list LockTarget) l : Prop :=
  targets = [] ∨ ∃ target, target ∈ targets ∧ Target_Match target (lock_Target l) = true.
Lemma CheckLockInForce_spec clock t t' order mode targets m p :
  (∀ i, t ≤ clock i ≤ t')%Z → isStale p = false → agree t (current p) m →
  (CheckLockInForce clock order mode targets p = Ok () →
     ∀ k l, m !! k = Some l → IsInForce t' l = true → ¬ keeps_out targets l) ∧
  (∀ e, CheckLockInForce clock order mode targets p = Err e →
     ∃ k l, m !! k = Some l ∧ IsInForce t l = true ∧ keeps_out targets l ∧ e = LockInForceAccessDenied l).
Proof.
  intros Hc Hs Ha. unfold CheckLockInForce, findLockInForceUnderMutex. rewrite Hs. cbn [andb].
  set (locks := omap _ _). assert (∀ l, l ∈ locks ↔ ∃ k, current p !! k = Some l) as Hlocks.
  { intros l. unfold locks. rewrite list_elem_of_omap. setoid_rewrite range_perm. setoid_rewrite elem_of_elements.
    setoid_rewrite elem_of_dom. naive_solver. }
  pose proof (find_lock_spec clock t t' targets locks Hc) as Hfind. destruct (find_lock clock targets locks) as [l|].
  - split; [done|]. intros e [= <-]. destruct Hfind as ((k & Hk)%Hlocks & Hf & Ht). exists k, l. split; [by apply Ha|]. done.
  - split; [|done]. intros _ k l Hk Hf Hout. pose proof (Hc O) as Hc0.
    assert (IsInForce t l = true) as Hft by (eapply IsInForce_earlier; [|done]; lia).
    destruct (Hfind l) as [Hne Hno]; [apply Hlocks; exists k; by apply Ha|done|].
    destruct Hout as [|(target & Hin & Hm)]; [done|]. rewrite Hno in Hm by done. done.
Qed.

(** C19: the watcher of locks decides as the store would: when it has fetched the
    locks that some first part of the changes left in force, and has followed
    the events from anywhere before on, it refuses exactly what a lock in force
    of the store keeps out. It never stops at its subscribers. *)
Theorem locks_in_force_enforced t0 t t' log m n locks events order hows clock order' mode targets p :
  working p → (m ≤ n)%nat → (t0 ≤ t)%Z → fetched t0 (replay (take n log)) locks →
  Forall2 (fun e c => (e.1.1 ≤ t)%Z ∧ stands_for e.2 c) events (drop m log) → (∀ i, t ≤ clock i ≤ t')%Z →
  ∃ p1 p2, getResourcesAndUpdateCurrent (Ok locks) order hows p = Some (Ok (), p1) ∧ follow events p1 = Some p2 ∧
    (CheckLockInForce clock order' mode targets p2 = Ok () →
       ∀ name l, replay log !! name = Some l → IsInForce t' l = true → ¬ keeps_out targets l) ∧
    (∀ e, CheckLockInForce clock order' mode targets p2 = Err e →
       ∃ name l, replay log !! name = Some l ∧ IsInForce t l = true ∧ keeps_out targets l ∧ e = LockInForceAccessDenied l).
Proof.
  intros Hp Hmn Ht Hf Hev Hc.
  destruct (fetch_view t t0 log n locks order hows p Ht Hp Hf) as (p1 & E1 & Hp1 & Hs1 & Ha1).
  destruct (follow_changes t events (drop m log) (replay (take n log)) p1 Hp1 Ha1 Hev) as (p2 & E2 & _ & Hs2 & Ha2).
  exists p1, p2. split; [done|]. split; [done|].
  apply (CheckLockInForce_spec clock t t'); [done|congruence|].
  intros k l Hl. rewrite <- (replay_overlap log m n k Hmn). by apply Ha2.
Qed.

(** *** Staleness *)

(** A view that could not be updated for longer than it may be is not relied on
    in strict mode. *)
Lemma stale_view_refused MaxStaleness now now' t how failureStartedAt p failureStartedAt' p' clock order targets :
  working p → tn_start t ≠ None → watch_turn MaxStaleness now now' t how failureStartedAt p = Some (failureStartedAt', p') →
  is_zero_time failureStartedAt = false → MaxStaleness ≠ 0%Z → (now' - failureStartedAt > MaxStaleness)%Z →
  CheckLockInForce clock order LockingModeStrict targets p' = Err StrictLockingModeAccessDenied.
Proof.
  intros Hp Hst E Hz Hm Hlt. unfold watch_turn, watch in E. destruct (tn_start t); [|done]. cbn [mbind option_bind] in E.
  rewrite Hz in E. unfold hasStaleView in E. rewrite Hz, (proj2 (Z.eqb_neq _ _) Hm) in E. cbn [orb] in E.
  replace (now' - failureStartedAt >? MaxStaleness)%Z with true in E by (symmetry; apply Z.gtb_lt; lia).
  unfold notifyStale in E. destruct (emit_one_works how (MkEvent OpUnreliable None) p Hp) as (p1 & E1 & _).
  rewrite E1 in E. cbn in E. injection E as <- <-. done.
Qed.

(** Locks that are fetched before the constructor initializes the fan-out stop
    the program. *)
Lemma early_fetch_panics l order hows :
  getResourcesAndUpdateCurrent (Ok [l]) order hows (new_collector (R:=R)) = None.
Proof.
  unfold getResourcesAndUpdateCurrent. cbn [fold_left].
  assert (range_of order (elements (dom (<[lock_Name l:=l]> (∅ : gmap string LockV2)))) = [lock_Name l]) as ->.
  { apply Permutation_singleton_r. rewrite range_perm.
    replace (dom (<[lock_Name l:=l]> (∅ : gmap string LockV2))) with ({[lock_Name l]} : gset string) by set_solver.
    by rewrite elements_singleton. }
  cbn [omap list_omap fmap list_fmap emit_all]. rewrite lookup_insert_eq. cbn. by destruct (next_sending hows).
Qed.
End view.
