(* ===== verification/LockStore.v ===== *)
(** * Storage of locks (lib/services/local/access.go, lib/services/lock.go)

    Locks in a backend, and the replacement of the locks of a trusted cluster. *)

From Stdlib Require Import Ascii String.
From S2P Require Import Prelude.
From S2P Require Import Keys.
From S2P Require Import Backend.
From S2P Require Import Role.
From S2P Require Import AccessRequest.
From S2P Require Import DynamicAccess.
From S2P Require Import Users.
From S2P Require Import UserLock.
From S2P Require Import Events.
From S2P Require Import LockWatch.
Local Open Scope string_scope.

Definition locksPrefix : string := "locks".
Definition lockItemKey (name : string) : bytes := path [locksPrefix; name].

Definition set_lock_Metadata (m : Metadata) (l : LockV2) : LockV2 :=
  MkLock m (lock_Target l) (lock_Message l) (lock_Expires l).
Definition lock_SetName (name : string) (l : LockV2) : LockV2 :=
  let m := lock_Metadata l in
  set_lock_Metadata (MkMetadata name (md_Namespace m) (md_Description m) (md_Labels m) (md_Expires m) (md_ID m)) l.
Definition lock_SetExpiry (expires : Z) (l : LockV2) : LockV2 :=
  let m := lock_Metadata l in
  set_lock_Metadata (MkMetadata (md_Name m) (md_Namespace m) (md_Description m) (md_Labels m) (Some expires) (md_ID m)) l.
Definition lock_SetResourceID (id : Z) (l : LockV2) : LockV2 :=
  let m := lock_Metadata l in
  set_lock_Metadata (MkMetadata (md_Name m) (md_Namespace m) (md_Description m) (md_Labels m) (md_Expires m) id) l.
Definition lock_Expiry (l : LockV2) : Z := default zero_time (md_Expires (lock_Metadata l)).

Section store.
Context `{Codec LockV2} `{BackendLaws B}.

Definition UnmarshalLock (data : bytes) (id expires : Z) : result LockV2 :=
  if (length data =? 0)%nat then Err (Error BadParameter "missing resource data") else
  match decode_json data with
  | Err _ => Err (Error BadParameter "err")
  | Ok lock =>
      lock ← Lock_CheckAndSetDefaults lock;
      let lock := if (id =? 0)%Z then lock else lock_SetResourceID id lock in
      Ok (if is_zero_time expires then lock else lock_SetExpiry expires lock)
  end.
(** Marshalling validates the lock it is given, and leaves it so. *)
Definition MarshalLock (lock : LockV2) : result (bytes * LockV2) :=
  lock ← Lock_CheckAndSetDefaults lock; Ok (encode_json (lock_SetResourceID 0 lock), lock).
Definition unmarshal_lock_item (item : Item) : result LockV2 := UnmarshalLock (it_Value item) (it_ID item) (it_Expires item).
Definition lock_item (lock : LockV2) : result Item :=
  '(value, lock) ← MarshalLock lock;
  Ok (mkItem (lockItemKey (lock_Name lock)) value (lock_Expiry lock) (md_ID (lock_Metadata lock)) 0).

Definition GetLock (now : Z) (name : string) : goM B (result LockV2) :=
  if String.eqb name "" then mret (Err (Error BadParameter "missing lock name")) else
  r ← bk_Get now (lockItemKey name);
  mret (match r with
        | Err e => Err (if has_kind NotFound e then Error NotFound "lock %q is not found" else e)
        | Ok item => unmarshal_lock_item item
        end).
(** [clock] gives the time of the read and of the check of each lock. *)
Fixpoint select_locks (clock : nat → Z) (inForceOnly : bool) (targets : list LockTarget) (items : list Item) :
    result (list LockV2) :=
  match items with
  | [] => Ok []
  | item :: items =>
      lock ← unmarshal_lock_item item;
      rest ← select_locks (clock ∘ S) inForceOnly targets items;
      Ok (if inForceOnly && negb (IsInForce (clock O) lock) then rest else
          if (length targets =? 0)%nat || existsb (fun t => Target_Match t (lock_Target lock)) targets
          then lock :: rest else rest)
  end.
Definition GetLocks (clock : nat → Z) (inForceOnly : bool) (targets : list LockTarget) : goM B (result (list LockV2)) :=
  r ← bk_GetRange (clock O) (path [locksPrefix]) (RangeEnd (path [locksPrefix])) NoLimit;
  mret (items ← r; select_locks (clock ∘ S) inForceOnly targets items).
Definition UpsertLock (now : Z) (lock : LockV2) : goM B (result unit) :=
  match lock_item lock with
  | Err e => mret (Err e)
  | Ok item => r ← bk_Put now item; mret (answer r)
  end.
Definition DeleteLock (now : Z) (name : string) : goM B (result unit) :=
  if String.eqb name "" then mret (Err (Error BadParameter "missing lock name")) else
  r ← bk_Delete now (lockItemKey name);
  mret (match r with
        | Err e => Err (if has_kind NotFound e then Error NotFound "lock %q is not found" else e)
        | Ok _ => Ok ()
        end).
Definition DeleteAllLocks (now : Z) : goM B (result unit) :=
  bk_DeleteRange now (path [locksPrefix]) (RangeEnd (path [locksPrefix])).

(** ** Locks of a trusted cluster *)

(** The name under which a lock of a cluster is kept. *)
Definition remote_lock (clusterName : string) (lock : LockV2) : LockV2 :=
  if String.prefix clusterName (lock_Name lock) then lock else lock_SetName (clusterName ++ "/" ++ lock_Name lock) lock.
Fixpoint remote_items (clusterName : string) (locks : list LockV2) (m : gmap bytes Item) : result (gmap bytes Item) :=
  match locks with
  | [] => Ok m
  | lock :: locks =>
      item ← lock_item (remote_lock clusterName lock);
      remote_items clusterName locks (<[ it_Key item := item ]> m)
  end.
Fixpoint replace_items (clock : nat → Z) (orig : list Item) (new : gmap bytes Item) : goM B (result (gmap bytes Item)) :=
  match orig with
  | [] => mret (Ok new)
  | origItem :: orig =>
      match new !! it_Key origItem with
      | Some newItem =>
          r ← bk_CompareAndSwap (clock O) origItem newItem;
          match r with
          | Err e => mret (Err e)
          | Ok _ => replace_items (clock ∘ S) orig (delete (it_Key origItem) new)
          end
      | None =>
          r ← bk_Delete (clock O) (it_Key origItem);
          match r with Err e => mret (Err e) | Ok _ => replace_items (clock ∘ S) orig new end
      end
  end.
Fixpoint store_items (clock : nat → Z) (items : list Item) : goM B (result unit) :=
  match items with
  | [] => mret (Ok ())
  | item :: items =>
      r ← bk_Put (clock O) item;
      match r with Err e => mret (Err e) | Ok _ => store_items (clock ∘ S) items end
  end.
(** The function that runs under the lock of the cluster; [order] is the order of
    the last map, and the clocks are those of its calls. *)
Definition ReplaceRemoteLocks_fn (now : Z) (clock clock' : nat → Z) (order : gmap bytes Item → list Item)
    (clusterName : string) (newRemoteLocks : list LockV2) : goM B (result unit) :=
  r ← bk_GetRange now (lockItemKey clusterName) (RangeEnd (lockItemKey clusterName)) NoLimit;
  match r with
  | Err e => mret (Err e)
  | Ok orig =>
      match remote_items clusterName newRemoteLocks ∅ with
      | Err e => mret (Err e)
      | Ok new =>
          r ← replace_items clock orig new;
          match r with Err e => mret (Err e) | Ok new => store_items clock' (order new) end
      end
  end.
End store.

(** ** What the replacement does *)
Section replacement.
Context `{Codec LockV2} `{BL : BackendLaws B}.
Implicit Types (b : B) (m new : gmap bytes Item) (k : bytes) (i : Item).

(** Nothing of the store or of the new locks expires up to [E]. *)
Definition lives (E : Z) m : Prop := ∀ k i, m !! k = Some i → ¬ expired E i.
Lemma lives_purged E now m m' : (now ≤ E)%Z → lives E m → purged now m m' → m' = m.
Proof.
  intros HE Hl (Hsub & Hexp & _). apply map_eq. intros k. destruct (m !! k) as [i|] eqn:Hi.
  - destruct (m' !! k) as [j|] eqn:Hj; [by rewrite <- Hi; symmetry; eapply lookup_weaken|].
    destruct (Hl k i Hi). destruct (Hexp k i Hi Hj). unfold expired. split; [done|lia].
  - by eapply lookup_weaken_None.
Qed.
Lemma lives_stored E i m m' : ¬ expired E i → stored i m m' → lives E m → lives E m'.
Proof. intros Hi [id ->] Hl k j [[<- <-]|[_ Hj]]%lookup_insert_Some; [exact Hi|by eapply Hl]. Qed.
Lemma lives_delete E k m : lives E m → lives E (delete k m).
Proof. intros Hl k' i [_ Hi]%lookup_delete_Some. by eapply Hl. Qed.

Lemma Put_lives E now i b : bk_inv b → (now ≤ E)%Z → lives E (bk_view b) → ¬ expired E i → it_Key i ≠ [] →
  runs (bk_Put now i) b (fun r b' => is_Ok r = true ∧ lives E (bk_view b') ∧ stored i (bk_view b) (bk_view b')).
Proof.
  intros Hb HE Hl Hi Hk. destruct (bk_Put_law now i b Hb) as (r & b' & Hr & Hb' & Hs).
  exists r, b'. split; [done|]. split; [done|]. rewrite bool_decide_eq_false_2 in Hs by done.
  destruct Hs as (m & Hp & -> & Hst). apply (lives_purged E) in Hp as ->; [|done..]. split; [done|].
  split; [by eapply lives_stored|done].
Qed.
Lemma Delete_lives E now k b : bk_inv b → (now ≤ E)%Z → lives E (bk_view b) → k ≠ [] → is_Some (bk_view b !! k) →
  runs (bk_Delete now k) b (fun r b' => r = Ok () ∧ lives E (bk_view b') ∧ bk_view b' = delete k (bk_view b)).
Proof.
  intros Hb HE Hl Hk [i Hi]. destruct (bk_Delete_law now k b Hb) as (r & b' & Hr & Hb' & Hs).
  exists r, b'. split; [done|]. split; [done|]. rewrite bool_decide_eq_false_2 in Hs by done.
  destruct Hs as (m & Hp & Hst). apply (lives_purged E) in Hp as ->; [|done..]. rewrite Hi in Hst.
  destruct Hst as [-> ->]. split; [done|]. split; [by apply lives_delete|done].
Qed.
Lemma CAS_lives E now i j b : bk_inv b → (now ≤ E)%Z → lives E (bk_view b) → ¬ expired E j →
  it_Key i ≠ [] → it_Key j = it_Key i → bk_view b !! it_Key i = Some i →
  runs (bk_CompareAndSwap now i j) b (fun r b' => is_Ok r = true ∧ lives E (bk_view b') ∧ stored j (bk_view b) (bk_view b')).
Proof.
  intros Hb HE Hl Hj Hk Hij Hi. destruct (bk_CompareAndSwap_law now i j b Hb) as (r & b' & Hr & Hb' & Hs).
  exists r, b'. split; [done|]. split; [done|]. rewrite Hij in Hs.
  rewrite !bool_decide_eq_false_2 in Hs by done. cbn [orb] in Hs. rewrite bool_decide_eq_true_2 in Hs by done. cbn [negb] in Hs.
  destruct Hs as (m & Hp & Hst). apply (lives_purged E) in Hp as ->; [|done..]. rewrite Hi in Hst.
  rewrite bool_decide_eq_true_2 in Hst by done. destruct Hst as [-> Hst]. split; [done|].
  split; [by eapply lives_stored|done].
Qed.

(** New items, under their keys. *)
Definition items_of (E : Z) new : Prop := ∀ k i, new !! k = Some i → it_Key i = k ∧ k ≠ [] ∧ ¬ expired E i.
Definition put (o : option Item) : option Item → Prop :=
  fun s => match o with Some i => ∃ id, s = Some (with_ID id i) | None => s = None end.

Lemma replace_items_spec E clock orig new b :
  bk_inv b → (∀ n, clock n ≤ E)%Z → lives E (bk_view b) → items_of E new →
  NoDup (it_Key <$> orig) → (∀ i, i ∈ orig → it_Key i ≠ [] ∧ bk_view b !! it_Key i = Some i) →
  runs (replace_items clock orig new) b (fun r b' =>
    r = Ok (filter (fun p => p.1 ∉ it_Key <$> orig) new) ∧ lives E (bk_view b') ∧
    ∀ k, if bool_decide (k ∈ it_Key <$> orig) then put (new !! k) (bk_view b' !! k) else bk_view b' !! k = bk_view b !! k).
Proof.
  intros Hb HE. revert clock HE new b Hb. induction orig as [|i orig IH]; intros clock HE new b Hb Hl Hn Hnd Ho; cbn [replace_items].
  { apply runs_ret; [done|]. split; [|split; [done|]].
    - f_equal. symmetry. apply map_filter_id. intros k j _ ?%elem_of_nil. done.
    - intros k. rewrite bool_decide_eq_false_2; [done|]. by intros ?%elem_of_nil. }
  apply NoDup_cons in Hnd as [Hni Hnd]. destruct (Ho i) as [Hki Hi]; [by left|].
  assert (∀ new' b1, lives E (bk_view b1) → bk_inv b1 → items_of E new' → (∀ k, k ≠ it_Key i → bk_view b1 !! k = bk_view b !! k) →
    put (new !! it_Key i) (bk_view b1 !! it_Key i) → new' = delete (it_Key i) new →
    runs (replace_items (clock ∘ S) orig new') b1 (fun r b' =>
      r = Ok (filter (fun p => p.1 ∉ it_Key <$> (i :: orig)) new) ∧ lives E (bk_view b') ∧
      ∀ k, if bool_decide (k ∈ it_Key <$> (i :: orig)) then put (new !! k) (bk_view b' !! k) else bk_view b' !! k = bk_view b !! k)) as Hrest.
  { intros new' b1 Hl1 Hb1 Hn1 Hv Hp ->. eapply runs_weaken.
    { apply (IH (clock ∘ S) (fun n => HE (S n)) (delete (it_Key i) new) b1 Hb1 Hl1 Hn1 Hnd).
      intros j Hj. destruct (Ho j) as [Hkj Hvj]; [by right|]. split; [done|]. rewrite Hv; [done|].
      intros E'. apply Hni. rewrite <- E'. by apply list_elem_of_fmap_2. }
    cbv beta. intros r b' (-> & Hl' & Hk). split; [|split; [done|]].
    - f_equal. apply map_eq. intros k. apply option_eq. intros j. rewrite !map_lookup_filter_Some, lookup_delete_Some, fmap_cons, not_elem_of_cons.
      cbn. intuition congruence.
    - intros k. specialize (Hk k). destruct (decide (k = it_Key i)) as [->|Hne].
      + rewrite bool_decide_eq_true_2 by left. rewrite bool_decide_eq_false_2 in Hk by done. by rewrite Hk.
      + rewrite fmap_cons. erewrite (bool_decide_ext _ (k ∈ it_Key <$> orig)) by (rewrite elem_of_cons; tauto).
        rewrite lookup_delete_ne in Hk by done. case_bool_decide; [done|]. by rewrite Hk, Hv. }
  destruct (new !! it_Key i) as [j|] eqn:Hj.
  - destruct (Hn _ _ Hj) as (Hkj & _ & Hej).
    eapply runs_bind; [by apply (CAS_lives E (clock O) i j b)|]. cbv beta. intros r b1 Hb1 (Hr & Hl1 & [id Hst]).
    destruct r; [|done]. apply Hrest; try done.
    + intros k j' [_ Hj']%lookup_delete_Some. by apply Hn.
    + intros k Hk. rewrite Hst, Hkj. by rewrite lookup_insert_ne.
    + exists id. rewrite Hst, Hkj. apply lookup_insert_eq.
  - eapply runs_bind; [by apply (Delete_lives E (clock O) (it_Key i) b); eauto|]. cbv beta. intros r b1 Hb1 (-> & Hl1 & Hst).
    apply Hrest; try done.
    + intros k Hk. rewrite Hst. by rewrite lookup_delete_ne.
    + cbn. rewrite Hst. apply lookup_delete_eq.
    + symmetry. by apply delete_id.
Qed.

Lemma store_items_spec E clock items b :
  bk_inv b → (∀ n, clock n ≤ E)%Z → lives E (bk_view b) →
  NoDup (it_Key <$> items) → (∀ i, i ∈ items → it_Key i ≠ [] ∧ ¬ expired E i) →
  runs (store_items clock items) b (fun r b' => r = Ok () ∧ lives E (bk_view b') ∧
    (∀ i, i ∈ items → put (Some i) (bk_view b' !! it_Key i)) ∧
    ∀ k, (k ∉ it_Key <$> items) → bk_view b' !! k = bk_view b !! k).
Proof.
  intros Hb HE. revert clock HE b Hb. induction items as [|i items IH]; intros clock HE b Hb Hl Hnd Hi; cbn [store_items].
  { apply runs_ret; [done|]. split_and!; [done..|by intros ? ?%elem_of_nil|done]. }
  apply NoDup_cons in Hnd as [Hni Hnd]. destruct (Hi i) as [Hk He]; [by left|].
  eapply runs_bind; [by apply (Put_lives E (clock O) i b)|]. cbv beta. intros r b1 Hb1 (Hr & Hl1 & [id Hst]).
  destruct r; [|done]. eapply runs_weaken.
  { apply (IH (clock ∘ S) (fun n => HE (S n)) b1 Hb1 Hl1 Hnd). intros j Hj. apply Hi. by right. }
  cbv beta. intros r b' (-> & Hl' & Hin & Hout). split_and!; [done..| |].
  - intros j [->|Hj]%elem_of_cons; [|by apply Hin]. exists id. rewrite Hout by done. rewrite Hst. apply lookup_insert_eq.
  - intros k. rewrite fmap_cons, not_elem_of_cons. intros [Hne Hk']. rewrite Hout by done. rewrite Hst. by rewrite lookup_insert_ne.
Qed.

Lemma prefix_own s t : String.prefix s (s ++ t) = true.
Proof.
  induction s as [|c s IH]; [by destruct t|]. change (String c s ++ t) with (String c (s ++ t)). cbn [String.prefix].
  by destruct (Ascii.ascii_dec c c).
Qed.
(** The items of the new locks are under the names of the cluster. *)
Lemma remote_items_keys clusterName locks m new : remote_items clusterName locks m = Ok new →
  (∀ k i, m !! k = Some i → it_Key i = k ∧ ∃ name, k = lockItemKey name ∧ String.prefix clusterName name = true) →
  ∀ k i, new !! k = Some i → it_Key i = k ∧ ∃ name, k = lockItemKey name ∧ String.prefix clusterName name = true.
Proof.
  revert m. induction locks as [|lock locks IH]; intros m; cbn [remote_items]; [by intros [= <-]|].
  intros (item & Hitem & Hnew)%result_bind_Ok Hm. apply (IH _ Hnew). intros k i [[<- <-]|[_ Hi]]%lookup_insert_Some; [|by apply Hm].
  split; [done|]. unfold lock_item in Hitem. apply result_bind_Ok in Hitem as ([value l] & Hl & [= <-]).
  apply result_bind_Ok in Hl as (l' & Hl' & [= _ <-]). exists (lock_Name l'). split; [done|].
  assert (lock_Name l' = lock_Name (remote_lock clusterName lock)) as ->.
  { unfold Lock_CheckAndSetDefaults in Hl'. apply result_bind_Ok in Hl' as (md & (_ & ->)%Metadata_ok & Hl').
    destruct (Target_IsEmpty _); [done|]. by injection Hl' as <-. }
  unfold remote_lock. destruct (String.prefix clusterName (lock_Name lock)) eqn:E; [done|].
  apply prefix_own.
Qed.
Lemma bytes_of_string_prefix s t : String.prefix s t = true → has_prefix (bytes_of_string t) (bytes_of_string s) = true.
Proof.
  revert t. induction s as [|c s IH]; intros t; [by destruct (bytes_of_string t)|]. destruct t as [|d t]; [done|]. cbn.
  destruct (Ascii.ascii_dec c d) as [->|]; [|done]. intros Hp%IH. unfold bytes_of_string in Hp. by rewrite Z.eqb_refl, Hp.
Qed.
Lemma lockItemKey_eq name : lockItemKey name = (bytes_of_string "/locks/" ++ bytes_of_string name)%list.
Proof. reflexivity. Qed.
Lemma lockItemKey_wf name : wf_bytes (lockItemKey name).
Proof. rewrite lockItemKey_eq. apply Forall_app. split; apply bytes_of_string_wf. Qed.
Definition of_cluster (clusterName : string) k : bool := in_key_range (lockItemKey clusterName) (RangeEnd (lockItemKey clusterName)) k.
Lemma of_cluster_prefix clusterName k : wf_bytes k → of_cluster clusterName k = has_prefix k (lockItemKey clusterName).
Proof.
  intros Hk. assert (has_next (lockItemKey clusterName)) as Hn.
  { rewrite lockItemKey_eq. apply Exists_app. left. by left. }
  unfold of_cluster, in_key_range. pose proof (RangeEnd_prefix _ _ (lockItemKey_wf clusterName) Hk Hn) as Hp. unfold bytes_le in Hp.
  destruct (has_prefix _ _), (bytes_ltb k (lockItemKey clusterName)), (bytes_ltb k (RangeEnd _)); naive_solver.
Qed.
(** Every lock whose name begins with the name of the cluster is one of its own. *)
Lemma of_cluster_name clusterName name : String.prefix clusterName name = true → of_cluster clusterName (lockItemKey name) = true.
Proof.
  intros Hp. rewrite of_cluster_prefix by apply lockItemKey_wf. rewrite !lockItemKey_eq, has_prefix_app_l. by apply bytes_of_string_prefix.
Qed.

(** C9: the locks of a trusted cluster are replaced: what is then stored under names
    that begin with the cluster's is exactly the locks that were given, each under
    its name, and nothing else is changed. Names of other clusters and of local
    locks that begin with the name of the cluster are among them, since no
    separator follows it. *)
Theorem ReplaceRemoteLocks_correct E now clock clock' order clusterName locks new b :
  bk_inv b → (now ≤ E)%Z → (∀ n, clock n ≤ E)%Z → (∀ n, clock' n ≤ E)%Z → lives E (bk_view b) → lives E new →
  (∀ m, order m ≡ₚ (map_to_list m).*2) → remote_items clusterName locks ∅ = Ok new →
  (size (bk_view b) ≤ Z.to_nat DefaultRangeLimit)%nat →
  runs (ReplaceRemoteLocks_fn now clock clock' order clusterName locks) b (fun r b' =>
    r = Ok () ∧ lives E (bk_view b') ∧
    ∀ k, match new !! k with
         | Some i => of_cluster clusterName k = true ∧ ∃ id, bk_view b' !! k = Some (with_ID id i)
         | None => bk_view b' !! k = if of_cluster clusterName k then None else bk_view b !! k
         end).
Proof.
  intros Hb Hnow Hclock Hclock' Hl Hln Hord Hnew Hsize.
  assert (∀ k i, new !! k = Some i → it_Key i = k ∧ ∃ name, k = lockItemKey name ∧ String.prefix clusterName name = true) as Hkeys
    by (apply (remote_items_keys clusterName locks ∅ new Hnew); done).
  assert (items_of E new) as Hitems.
  { intros k i Hi. destruct (Hkeys k i Hi) as (? & name & -> & _). split_and!; [done..|by eapply Hln]. }
  unfold ReplaceRemoteLocks_fn. set (lo := lockItemKey clusterName) in *. set (hi := RangeEnd lo).
  destruct (bk_GetRange_law now lo hi NoLimit b Hb) as (r & b1 & Hr & Hb1 & Hs).
  rewrite !bool_decide_eq_false_2 in Hs by (apply nextKey_nonempty || done).
  destruct Hs as (m & Hp & Hv & ->). apply (lives_purged E) in Hp as ->; [|done..]. cbn [Z.leb NoLimit] in Hr.
  unfold runs at 1. rewrite goM_bind_unfold, Hr. cbv beta iota. change (if (NoLimit <=? 0)%Z then _ else _) with DefaultRangeLimit.
  rewrite take_ge.
  2:{ rewrite sorted_range_length. transitivity (size (bk_view b)); [|done]. rewrite <- length_map_to_list, <- (length_fmap fst).
      apply submseteq_length, NoDup_submseteq; [apply range_keys_NoDup|]. intros k [_ [i Hi]]%range_keys_elem.
      apply list_elem_of_fmap. exists (k, i). split; [done|]. by apply elem_of_map_to_list. }
  set (orig := sorted_range lo hi (bk_view b)). rewrite Hnew.
  assert (it_Key <$> orig = range_keys lo hi (bk_view b)) as Hok.
  { unfold orig, sorted_range. pose proof (range_keys_lookup lo hi (bk_view b)) as Hall.
    induction Hall as [|k ks [i Hi] _ IH]; [done|]. cbn. rewrite Hi. cbn. f_equal; [|exact IH].
    by apply (bk_view_keyed b Hb). }
  assert (∀ i, i ∈ orig → it_Key i ≠ [] ∧ bk_view b1 !! it_Key i = Some i) as Horig.
  { intros i Hi. assert (∃ k, bk_view b !! k = Some i ∧ of_cluster clusterName k = true) as (k & Hk & Hc).
    { unfold orig, sorted_range in Hi. apply list_elem_of_omap in Hi as (k & [Hc _]%range_keys_elem & Hk). by exists k. }
    rewrite Hv, (bk_view_keyed b Hb k i Hk). split; [|done]. intros ->. discriminate Hc. }
  change (runs (r ← replace_items clock orig new; match r with Err e => mret (Err e) | Ok new => store_items clock' (order new) end) b1
    (fun r b' => r = Ok () ∧ lives E (bk_view b') ∧ ∀ k, match new !! k with
         | Some i => of_cluster clusterName k = true ∧ ∃ id, bk_view b' !! k = Some (with_ID id i)
         | None => bk_view b' !! k = if of_cluster clusterName k then None else bk_view b !! k end)).
  eapply runs_bind.
  { apply (replace_items_spec E clock orig new b1 Hb1 Hclock); [by rewrite Hv|done| |done]. rewrite Hok. apply range_keys_NoDup. }
  cbv beta. intros r b2 Hb2 (-> & Hl2 & Hk2). set (rest := filter _ new) in *.
  assert (∀ i, i ∈ order rest ↔ ∃ k, rest !! k = Some i) as Hin.
  { intros i. rewrite (Hord rest), list_elem_of_fmap. split.
    - intros ([k i'] & -> & Hi%elem_of_map_to_list). by exists k.
    - intros (k & Hi). exists (k, i). split; [done|]. by apply elem_of_map_to_list. }
  assert (it_Key <$> order rest ≡ₚ (map_to_list rest).*1) as Hperm.
  { rewrite (Hord rest). rewrite <- list_fmap_compose. apply Permutation_refl'. apply list_fmap_ext. intros n [k i] Hni.
    apply list_elem_of_lookup_2, elem_of_map_to_list, map_lookup_filter_Some in Hni as [Hi _]. cbn. by apply Hkeys. }
  eapply runs_weaken.
  { apply (store_items_spec E clock' (order rest) b2 Hb2 Hclock' Hl2).
    - rewrite Hperm. apply NoDup_fst_map_to_list.
    - intros i (k & [Hi _]%map_lookup_filter_Some)%Hin. destruct (Hitems k i Hi) as (<- & ? & ?). done. }
  cbv beta. intros r b' (-> & Hl' & Hput & Hother). split; [done|]. split; [done|]. intros k.
  assert (k ∈ it_Key <$> orig ↔ of_cluster clusterName k = true ∧ is_Some (bk_view b !! k)) as Hko by (rewrite Hok; apply range_keys_elem).
  specialize (Hk2 k). destruct (new !! k) as [i|] eqn:Hi.
  - destruct (Hkeys k i Hi) as (Hkey & name & Hname & Hpre). split; [rewrite Hname; by apply of_cluster_name|].
    destruct (decide (k ∈ it_Key <$> orig)) as [Hin'|Hout].
    + rewrite bool_decide_eq_true_2 in Hk2 by done. rewrite Hother; [exact Hk2|].
      rewrite Hperm. intros ([k' i'] & -> & Hx%elem_of_map_to_list)%list_elem_of_fmap. by apply map_lookup_filter_Some in Hx as [_ []].
    + destruct (Hput i) as [id Hid]; [|exists id; by rewrite <- Hkey].
      apply Hin. exists k. by apply map_lookup_filter_Some.
  - rewrite Hother.
    2:{ rewrite Hperm. intros ([k' i'] & -> & Hx%elem_of_map_to_list)%list_elem_of_fmap.
        apply map_lookup_filter_Some in Hx as [Hx _]. cbn in Hi. congruence. }
    case_bool_decide as Hc.
    + apply Hko in Hc as [-> _]. exact Hk2.
    + rewrite Hk2, Hv. destruct (of_cluster clusterName k) eqn:Ho; [|done]. destruct (bk_view b !! k) eqn:E'; [|done].
      destruct Hc. apply Hko. done.
Qed.
End replacement.
