(* ===== verification/AccessInfo.v ===== *)
(** * What an identity may do in a cluster (lib/services/access_checker.go, lib/services/trustedcluster.go)

    Roles of a trusted cluster are mapped to local ones; the roles, traits and
    resources of an identity make the checker of its access. *)

From Stdlib Require Import Ascii String.
From S2P Require Import Prelude.
From S2P Require Import GoSlice.
From S2P Require Import Labels.
From S2P Require Import Parse.
From S2P Require Import Role.
From S2P Require Import Traits.
From S2P Require Import RoleSet.
From S2P Require Import AccessRequest.
From S2P Require Import RequestValidator.
From S2P Require Import Identity.
From S2P Require Import Users.
Local Open Scope string_scope.

(** ** Mapping of roles *)

Record RoleMapping := MkRoleMapping { rm_Remote : string; rm_Local : list string }.
Abbreviation RoleMap := (list RoleMapping).

Section mapping.
Context `{GoLibs} `{Regexp}.

Definition Wildcard : string := "*".
Fixpoint check_locals (locals : list string) : result unit :=
  match locals with
  | [] => Ok ()
  | local :: locals =>
      if String.eqb local "" then Err (Error BadParameter "missing 'local' property of 'role_map' entry") else
      if String.eqb local Wildcard
      then Err (Error BadParameter "wildcard value is not supported for 'local' property of 'role_map' entry")
      else check_locals locals
  end.
Fixpoint parse_mappings (r : RoleMap) (directMatch : gmap string (list string)) : result (gmap string (list string)) :=
  match r with
  | [] => Ok directMatch
  | roleMap :: r =>
      if String.eqb (rm_Remote roleMap) "" then Err (Error BadParameter "missing 'remote' parameter for role_map") else
      match ReplaceRegexp (rm_Remote roleMap) "" "" with
      | Err (Error BadParameter _) => Err (Error BadParameter "failed to parse 'remote' parameter for role_map: %v")
      | _ =>
          if (length (rm_Local roleMap) =? 0)%nat then Err (Error BadParameter "missing 'local' parameter for 'role_map'") else
          _ ← check_locals (rm_Local roleMap);
          match directMatch !! rm_Remote roleMap with
          | Some _ => Err (Error BadParameter "remote role '%v' match is already specified")
          | None => parse_mappings r (<[ rm_Remote roleMap := rm_Local roleMap ]> directMatch)
          end
      end
  end.
Definition parseRoleMap (r : RoleMap) : result (gmap string (list string)) := parse_mappings r ∅.

(** The roles that one remote role gives through one mapping. *)
Fixpoint replacements (expression remoteRole : string) (locals : list string) : result (list string) :=
  match locals with
  | [] => Ok []
  | replacementRole :: locals =>
      match ReplaceRegexp expression replacementRole remoteRole with
      | Ok replacement =>
          rest ← replacements expression remoteRole locals;
          Ok (if negb (String.eqb replacement "") then replacement :: rest else rest)
      | Err e => if has_kind NotFound e then replacements expression remoteRole locals else Err e
      end
  end.
Fixpoint map_remotes (mapping : RoleMapping) (remoteRoles : list string) : result (list string) :=
  match remoteRoles with
  | [] => Ok []
  | remoteRole :: remoteRoles =>
      if String.eqb remoteRole DefaultImplicitRole then map_remotes mapping remoteRoles else
      out ← replacements (rm_Remote mapping) remoteRole (rm_Local mapping);
      rest ← map_remotes mapping remoteRoles;
      Ok (out ++ rest)%list
  end.
Fixpoint map_mappings (r : RoleMap) (remoteRoles : list string) : result (list string) :=
  match r with
  | [] => Ok []
  | mapping :: r => out ← map_remotes mapping remoteRoles; rest ← map_mappings r remoteRoles; Ok (out ++ rest)%list
  end.
Definition MapRoles (r : RoleMap) (remoteRoles : list string) : result (list string) :=
  _ ← parseRoleMap r;
  map_mappings r (if (length remoteRoles =? 0)%nat then [""] else remoteRoles).

(** ** Access of an identity *)

Record AccessInfo := MkAccessInfo { ai_Roles : list string; ai_Traits : UserTraits; ai_AllowedResourceIDs : list ResourceID }.

Definition remote_traits (identity : Identity) : UserTraits :=
  {[ "logins" := Principals identity; "kubernetes_groups" := KubernetesGroups identity;
     "kubernetes_users" := KubernetesUsers identity; "db_names" := id_DatabaseNames identity;
     "db_users" := id_DatabaseUsers identity ]}.
Definition AccessInfoFromRemoteIdentity (identity : Identity) (roleMap : RoleMap) : result AccessInfo :=
  let traits := remote_traits identity ∪ id_Traits identity in
  match MapRoles roleMap (Identity.Groups identity) with
  | Err _ => Err (Error AccessDenied "failed to map roles for remote user %q from cluster %q with remote roles %v: %v")
  | Ok roles =>
      if (length roles =? 0)%nat
      then Err (Error AccessDenied "no roles mapped for remote user %q from cluster %q with remote roles %v")
      else Ok (MkAccessInfo roles traits (Identity.AllowedResourceIDs identity))
  end.
(** A certificate of old has no roles, and the stored user's are taken. *)
Definition AccessInfoFromLocalIdentity (getUser : string → result UserV2) (identity : Identity) : result AccessInfo :=
  if (length (Identity.Groups identity) =? 0)%nat then
    u ← getUser (Username identity);
    Ok (MkAccessInfo (u_Roles u) (u_Traits u) (Identity.AllowedResourceIDs identity))
  else Ok (MkAccessInfo (Identity.Groups identity) (id_Traits identity) (Identity.AllowedResourceIDs identity)).
Definition AccessInfoFromUser (u : UserV2) : AccessInfo := MkAccessInfo (u_Roles u) (u_Traits u) [].

Context `{ValidatorGetter} `{GoMapOrder} `{MapOrder} `{UnixUsers}.
Definition NewAccessCheckerWithRoleSet (info : AccessInfo) (localCluster : string) (roleSet : RoleSet) : accessChecker :=
  RoleSet.MkChecker (ai_AllowedResourceIDs info) localCluster roleSet.
Definition NewAccessChecker (info : AccessInfo) (localCluster : string) : result accessChecker :=
  roleSet ← FetchRoles (ai_Roles info) (ai_Traits info);
  Ok (NewAccessCheckerWithRoleSet info localCluster roleSet).

(** ** What the mapping grants *)

(** A role comes from a remote one by a mapping of the map; no remote roles stand
    for one without a name. *)
Definition granted (r : RoleMap) (remoteRoles : list string) (role : string) : Prop :=
  ∃ mapping remote local, mapping ∈ r ∧ local ∈ rm_Local mapping ∧
    (remote ∈ remoteRoles ∨ remoteRoles = [] ∧ remote = "") ∧ remote ≠ DefaultImplicitRole ∧
    ReplaceRegexp (rm_Remote mapping) local remote = Ok role ∧ role ≠ "".

Lemma replacements_elem expression remote locals out role : replacements expression remote locals = Ok out →
  role ∈ out ↔ ∃ local, local ∈ locals ∧ ReplaceRegexp expression local remote = Ok role ∧ role ≠ "".
Proof.
  revert out. induction locals as [|local locals IH]; intros out; cbn [replacements].
  { intros [= <-]. split; [by intros ?%elem_of_nil|by intros (? & ?%elem_of_nil & _)]. }
  rewrite exists_cons_iff. destruct (ReplaceRegexp expression local remote) as [rep|e] eqn:E.
  - intros (rest & Hrest & [= <-])%result_bind_Ok. rewrite <- (IH rest Hrest). clear IH Hrest E.
    destruct (String.eqb_spec rep "") as [->|Hr]; cbn [negb]; rewrite ?elem_of_cons; naive_solver.
  - destruct (has_kind NotFound e); [|done]. intros Hrest. rewrite <- (IH out Hrest). naive_solver.
Qed.
Lemma map_remotes_elem mapping remotes out role : map_remotes mapping remotes = Ok out →
  role ∈ out ↔ ∃ remote local, remote ∈ remotes ∧ remote ≠ DefaultImplicitRole ∧ local ∈ rm_Local mapping ∧
    ReplaceRegexp (rm_Remote mapping) local remote = Ok role ∧ role ≠ "".
Proof.
  revert out. induction remotes as [|remote remotes IH]; intros out; cbn [map_remotes].
  { intros [= <-]. split; [by intros ?%elem_of_nil|by intros (? & ? & ?%elem_of_nil & _)]. }
  setoid_rewrite elem_of_cons. destruct (String.eqb_spec remote DefaultImplicitRole) as [Hi|Hi].
  - intros Hout. rewrite (IH out Hout). naive_solver.
  - intros (mine & Hmine & (rest & Hrest & [= <-])%result_bind_Ok)%result_bind_Ok.
    rewrite elem_of_app, (IH rest Hrest), (replacements_elem _ _ _ _ _ Hmine). naive_solver.
Qed.
Lemma map_mappings_elem r remotes out role : map_mappings r remotes = Ok out →
  role ∈ out ↔ ∃ mapping remote local, mapping ∈ r ∧ remote ∈ remotes ∧ remote ≠ DefaultImplicitRole ∧ local ∈ rm_Local mapping ∧
    ReplaceRegexp (rm_Remote mapping) local remote = Ok role ∧ role ≠ "".
Proof.
  revert out. induction r as [|mapping r IH]; intros out; cbn [map_mappings].
  { intros [= <-]. split; [by intros ?%elem_of_nil|by intros (? & ? & ? & ?%elem_of_nil & _)]. }
  intros (mine & Hmine & (rest & Hrest & [= <-])%result_bind_Ok)%result_bind_Ok.
  rewrite elem_of_app, (IH rest Hrest), (map_remotes_elem _ _ _ _ Hmine). setoid_rewrite elem_of_cons. naive_solver.
Qed.
Lemma MapRoles_granted r remoteRoles out role : MapRoles r remoteRoles = Ok out → role ∈ out ↔ granted r remoteRoles role.
Proof.
  intros (_ & _ & Hout)%result_bind_Ok. rewrite (map_mappings_elem _ _ _ _ Hout). unfold granted.
  destruct remoteRoles as [|x remoteRoles]; cbn [length Nat.eqb].
  - setoid_rewrite list_elem_of_singleton. setoid_rewrite elem_of_nil. naive_solver.
  - naive_solver.
Qed.

Lemma FetchRoles_elem names traits set role : FetchRoles names traits = Ok set → role ∈ set →
  role = NewImplicitRole ∨ ∃ name r, name ∈ names ∧ GetRole name = Ok r ∧ role = ApplyTraits r traits.
Proof.
  intros (roles & Hroles & [= <-])%result_bind_Ok.
  assert (role ∈ NewRoleSet roles → role ∈ roles ∨ role = NewImplicitRole) as Hnew.
  { unfold NewRoleSet. destruct roles as [|? [|? ?]]; try case_match; rewrite ?elem_of_app, ?list_elem_of_singleton; tauto. }
  intros [Hin|]%Hnew; [right|by left]. clear Hnew. revert roles Hroles Hin. induction names as [|name names IH]; intros roles.
  { intros [= <-] ?%elem_of_nil. done. }
  cbn [FetchRoleList]. intros (r & Hr & (rest & Hrest & [= <-])%result_bind_Ok)%result_bind_Ok [->|Hin]%elem_of_cons.
  - exists name, r. split; [by left|done].
  - destruct (IH rest Hrest Hin) as (name' & r' & ? & ?). exists name', r'. split; [by right|done].
Qed.
End mapping.
