(* ===== verification/SSHCert.v ===== *)
(** * SSH certificates of users (lib/auth/native/native.go, lib/services/authority.go, role.go, access_checker.go)

    What an SSH certificate of a user says, and what a node reads of it. The
    signature and the wire format are of a library. *)

From Stdlib Require Import Ascii String.
From S2P Require Import Prelude.
From S2P Require Import Keys.
From S2P Require Import Strconv.
From S2P Require Import GoSlice.
From S2P Require Import Labels.
From S2P Require Import Parse.
From S2P Require Import Role.
From S2P Require Import Traits.
From S2P Require Import RoleSet.
From S2P Require Import RequestValidator.
From S2P Require Import Identity.
From S2P Require Import AccessInfo.
Local Open Scope string_scope.

(** ** The library *)

Definition CertTimeInfinity : Z := (2 ^ 64 - 1)%Z.
Inductive CertType := UserCert | HostCert.
(** The nonce, the serial and the signature are the library's; [SignatureKey] is
    set when the certificate is signed. *)
Record Certificate (K : Type) := MkCertificate {
  KeyId : string; ValidPrincipals : list string; cert_Key : K; ValidAfter : Z; ValidBefore : Z; cert_Type : CertType;
  CriticalOptions : gmap string string; Extensions : gmap string string; SignatureKey : option K
}.
Arguments MkCertificate {K}.
Arguments KeyId {K}.
Arguments ValidPrincipals {K}.
Arguments cert_Key {K}.
Arguments ValidAfter {K}.
Arguments ValidBefore {K}.
Arguments cert_Type {K}.
Arguments CriticalOptions {K}.
Arguments Extensions {K}.
Arguments SignatureKey {K}.
Definition signed_by {K} (k : K) (c : Certificate K) : Certificate K :=
  MkCertificate (KeyId c) (ValidPrincipals c) (cert_Key c) (ValidAfter c) (ValidBefore c) (cert_Type c)
    (CriticalOptions c) (Extensions c) (Some k).

Class SSHLib := {
  SSHKey : Type;
  Signer : Type;
  ParseAuthorizedKey : bytes → result SSHKey;
  key_Marshal : SSHKey → bytes;
  signer_PublicKey : Signer → SSHKey;
  SignCert : Signer → Certificate SSHKey → result (Certificate SSHKey);
  MarshalAuthorizedKey : Certificate SSHKey → bytes;
  ParseCertificate : bytes → result (Certificate SSHKey)
}.
(** Signing changes nothing that a certificate says; a certificate is read back
    from its text. *)
Class SSHLibLaws `{SSHLib} : Prop := {
  SignCert_says s c c' : SignCert s c = Ok c' → c' = signed_by (signer_PublicKey s) c;
  certificate_read_back c : ParseCertificate (MarshalAuthorizedKey c) = Ok c;
  certificate_text c : wf_bytes (MarshalAuthorizedKey c)
}.

(** JSON of the roles and of the requests of a certificate, and the identifiers
    that are well formed. *)
Class CertCodec := {
  cert_roles_json : list string → result string;
  cert_roles_of_json : string → result (list string);
  request_ids_json : list string → result string;
  request_ids_of_json : string → result (list string);
  uuid_Parse : string → result unit
}.
Class CertCodecLaws `{CertCodec} `{IdentityCodec} : Prop := {
  cert_roles_back l s : Forall utf8 l → cert_roles_json l = Ok s → cert_roles_of_json s = Ok l;
  request_ids_back l s : Forall utf8 l → request_ids_json l = Ok s → request_ids_of_json s = Ok l;
  traits_json_text t s : traits_json t = Ok s → s ≠ ""
}.
(** The modules of a build: the edition. *)
Class Modules := { IsEnterprise : bool }.

(** ** Parameters *)

Record UserCertParams `{SSHLib} := MkUserCertParams {
  p_CASigner : option Signer; p_PublicUserKey : bytes; p_TTL : Z; p_Username : string; p_Impersonator : string;
  p_AllowedLogins : list string; p_PermitX11Forwarding : bool; p_PermitAgentForwarding : bool; p_PermitPortForwarding : bool;
  p_Roles : list string; p_CertificateFormat : string; p_RouteToCluster : string; p_Traits : UserTraits;
  p_ActiveRequests : list string; p_MFAVerified : string; p_ClientIP : string; p_SourceIP : string; p_DisallowReissue : bool;
  p_CertificateExtensions : list CertExtension; p_Renewable : bool; p_Generation : Z; p_AllowedResourceIDs : string;
  p_ConnectionDiagnosticID : string; p_PrivateKeyPolicy : string
}.
Definition MinCertDuration : Z := Minute.

Section certificates.
Context `{SSHLib} `{CertCodec} `{IdentityCodec} `{Modules}.

Definition with_TTL (ttl : Z) (c : UserCertParams) : UserCertParams :=
  MkUserCertParams _ (p_CASigner c) (p_PublicUserKey c) ttl (p_Username c) (p_Impersonator c) (p_AllowedLogins c)
    (p_PermitX11Forwarding c) (p_PermitAgentForwarding c) (p_PermitPortForwarding c) (p_Roles c) (p_CertificateFormat c)
    (p_RouteToCluster c) (p_Traits c) (p_ActiveRequests c) (p_MFAVerified c) (p_ClientIP c) (p_SourceIP c) (p_DisallowReissue c)
    (p_CertificateExtensions c) (p_Renewable c) (p_Generation c) (p_AllowedResourceIDs c) (p_ConnectionDiagnosticID c)
    (p_PrivateKeyPolicy c).
Definition UserCertParams_CheckAndSetDefaults (c : UserCertParams) : result UserCertParams :=
  match p_CASigner c with
  | None => Err (Error BadParameter "CASigner is required")
  | Some _ =>
      let c := if (p_TTL c <? MinCertDuration)%Z then with_TTL MinCertDuration c else c in
      if (length (p_AllowedLogins c) =? 0)%nat then Err (Error BadParameter "AllowedLogins are required") else Ok c
  end.

Definition CertificateFormatStandard : string := "standard".
Definition CertificateFormatOldSSH : string := "oldssh".

(** An extension that is set when its value is not empty, and one that is a flag. *)
Definition ext (name value : string) (m : gmap string string) : gmap string string :=
  if String.eqb value "" then m else <[ name := value ]> m.
Definition ext_flag (name : string) (b : bool) (m : gmap string string) : gmap string string :=
  if b then <[ name := "" ]> m else m.
(** The extensions that are set before those of the roles. *)
Definition own_extensions (c : UserCertParams) : gmap string string :=
  ext "private-key-policy" (p_PrivateKeyPolicy c) (
  ext "teleport-connection-diagnostic-id" (p_ConnectionDiagnosticID c) (
  ext "teleport-allowed-resources" (p_AllowedResourceIDs c) (
  ext "generation" (if (p_Generation c >? 0)%Z then string_of_bytes (format_uint (p_Generation c)) else "") (
  ext_flag "renewable" (p_Renewable c) (
  ext_flag "disallow-reissue" (p_DisallowReissue c) (
  ext "impersonator" (p_Impersonator c) (
  ext "client-ip" (p_ClientIP c) (
  ext "mfa-verified" (p_MFAVerified c) (
  ext_flag "permit-port-forwarding" (p_PermitPortForwarding c) (
  ext_flag "permit-agent-forwarding" (p_PermitAgentForwarding c) (
  ext_flag "permit-X11-forwarding" (p_PermitX11Forwarding c) {[ "permit-pty" := "" ]}))))))))))).
(** Extensions of roles, of the one mode and type that are supported. *)
Definition is_ssh_extension (e : CertExtension) : bool := (ce_Mode e =? 0)%Z && (ce_Type e =? 0)%Z.
Definition role_extensions (es : list CertExtension) (m : gmap string string) : gmap string string :=
  fold_left (fun m e => if is_ssh_extension e then <[ ce_Name e := ce_Value e ]> m else m) es m.
(** What the standard format adds. *)
Definition standard_extensions (c : UserCertParams) (m : gmap string string) : result (gmap string string) :=
  traits ← MarshalTraits (p_Traits c);
  let m := ext "teleport-traits" traits m in
  m ← (if (length (p_Roles c) =? 0)%nat then Ok m else
       roles ← cert_roles_json (p_Roles c); Ok (<[ "teleport-roles" := roles ]> m));
  let m := ext "teleport-route-to-cluster" (p_RouteToCluster c) m in
  if (length (p_ActiveRequests c) <? 1)%nat then Ok m else
  requests ← request_ids_json (p_ActiveRequests c); Ok (<[ "teleport-active-requests" := requests ]> m).

Definition has_colon (s : string) : bool := existsb (Ascii.eqb ":") (String.list_ascii_of_string s).
(** The addresses a certificate is pinned to. *)
Definition source_address (c : UserCertParams) : result (gmap string string) :=
  if String.eqb (p_SourceIP c) "" then Ok ∅ else
  if negb IsEnterprise then Err (Error AccessDenied "source IP pinning is only supported in Teleport Enterprise") else
  Ok {[ "source-address" := p_SourceIP c ++ (if has_colon (p_SourceIP c) then "/128" else "/32") ]}.

(** [now] and [now'] are the readings of the clock; without a signer it panics. *)
Definition GenerateUserCertWithoutValidation (now now' : Z) (c : UserCertParams) : outcome (Certificate SSHKey) :=
  pubKey ⇐ Some (ParseAuthorizedKey (p_PublicUserKey c));
  let validBefore := if (p_TTL c =? 0)%Z then CertTimeInfinity else u64 (time_unix (now + p_TTL c)) in
  options ⇐ Some (source_address c);
  extensions ⇐ Some (let m := role_extensions (p_CertificateExtensions c) (own_extensions c) in
                     if String.eqb (p_CertificateFormat c) CertificateFormatStandard then standard_extensions c m else Ok m);
  let cert := MkCertificate (p_Username c) (p_AllowedLogins c) pubKey (u64 (time_unix (now' - Minute))) validBefore UserCert
                options extensions None in
  match p_CASigner c with
  | Some signer => Some (SignCert signer cert)
  | None => None
  end.
Definition GenerateUserCert (now now' : Z) (c : UserCertParams) : outcome bytes :=
  c ⇐ Some (UserCertParams_CheckAndSetDefaults c);
  cert ⇐ GenerateUserCertWithoutValidation now now' c;
  done (MarshalAuthorizedKey cert).

(** ** Reading a certificate *)

Definition ExtractRolesFromCert (cert : Certificate SSHKey) : result (list string) :=
  match Extensions cert !! "teleport-roles" with
  | None => Err (Error NotFound "no roles found")
  | Some data => match cert_roles_of_json data with Ok roles => Ok roles | Err _ => Err (Error BadParameter "err") end
  end.
Definition ExtractTraitsFromCert (cert : Certificate SSHKey) : result UserTraits :=
  match Extensions cert !! "teleport-traits" with
  | None => Err (Error NotFound "no traits found")
  | Some rawTraits => UnmarshalTraits rawTraits
  end.
Definition ExtractAllowedResourcesFromCert (cert : Certificate SSHKey) : result (list ResourceID) :=
  match Extensions cert !! "teleport-allowed-resources" with
  | None => Ok []
  | Some allowedResourcesStr => ResourceIDsFromString allowedResourcesStr
  end.

Definition AccessInfoFromLocalCertificate (cert : Certificate SSHKey) : result AccessInfo :=
  traits ← ExtractTraitsFromCert cert;
  roles ← ExtractRolesFromCert cert;
  allowedResourceIDs ← ExtractAllowedResourcesFromCert cert;
  Ok (MkAccessInfo roles traits allowedResourceIDs).
Context `{GoLibs} `{Regexp}.
Definition AccessInfoFromRemoteCertificate (cert : Certificate SSHKey) (roleMap : RoleMap) : result AccessInfo :=
  traits ← (match ExtractTraitsFromCert cert with
            | Ok traits => Ok traits
            | Err e => if has_kind NotFound e then Ok ∅ else Err (Error AccessDenied "failed to parse certificate traits: %v")
            end);
  let traits := <[ "logins" := ValidPrincipals cert ]> traits in
  unmappedRoles ← ExtractRolesFromCert cert;
  match MapRoles roleMap unmappedRoles with
  | Err _ => Err (Error AccessDenied "failed to map roles for user with remote roles %v: %v")
  | Ok roles =>
      if (length roles =? 0)%nat then Err (Error AccessDenied "no roles mapped for user with remote roles %v") else
      allowedResourceIDs ← ExtractAllowedResourcesFromCert cert;
      Ok (MkAccessInfo roles traits allowedResourceIDs)
  end.

Fixpoint check_uuids (ids : list string) : result unit :=
  match ids with [] => Ok () | id :: ids => _ ← uuid_Parse id; check_uuids ids end.
Definition parseAccessRequestIDs (str : string) : result (list string) :=
  if String.eqb str "" then Ok [] else
  ids ← request_ids_of_json str; _ ← check_uuids ids; Ok ids.
End certificates.

(** ** What is read is what was written *)
Section reading.
Context `{SSHLibLaws} `{CertCodecLaws} `{!IdentityCodecLaws} `{Modules}.

Lemma ext_other name value m k : k ≠ name → ext name value m !! k = m !! k.
Proof. intros Hk. unfold ext. destruct (String.eqb value ""); [done|]. by apply lookup_insert_ne. Qed.
Lemma ext_flag_other name b m k : k ≠ name → ext_flag name b m !! k = m !! k.
Proof. intros Hk. unfold ext_flag. destruct b; [|done]. by apply lookup_insert_ne. Qed.
Lemma ext_same name value m : m !! name = None → ext name value m !! name = if String.eqb value "" then None else Some value.
Proof. intros Hm. unfold ext. destruct (String.eqb value ""); [done|]. apply lookup_insert_eq. Qed.
Lemma ext_flag_same name b m : m !! name = None → ext_flag name b m !! name = if b then Some "" else None.
Proof. intros Hm. unfold ext_flag. destruct b; [|done]. apply lookup_insert_eq. Qed.
(** No extension of a role takes the name. *)
Definition untaken (es : list CertExtension) (name : string) : Prop := ∀ e, e ∈ es → is_ssh_extension e = true → ce_Name e ≠ name.
Lemma role_extensions_other es m k : untaken es k → role_extensions es m !! k = m !! k.
Proof.
  unfold role_extensions. revert m. induction es as [|e es IH]; intros m Hu; [done|]. cbn [fold_left]. rewrite IH.
  - destruct (is_ssh_extension e) eqn:E; [|done]. apply lookup_insert_ne. apply Hu; [by left|done].
  - intros e' He'. apply Hu. by right.
Qed.

Ltac skip_exts := repeat first [ rewrite ext_other by done | rewrite ext_flag_other by done ].
Lemma own_allowed c : own_extensions c !! "teleport-allowed-resources" =
  if String.eqb (p_AllowedResourceIDs c) "" then None else Some (p_AllowedResourceIDs c).
Proof. unfold own_extensions. skip_exts. rewrite ext_same; [done|]. skip_exts. by apply lookup_singleton_ne. Qed.
Lemma own_mfa c : own_extensions c !! "mfa-verified" = if String.eqb (p_MFAVerified c) "" then None else Some (p_MFAVerified c).
Proof. unfold own_extensions. skip_exts. rewrite ext_same; [done|]. skip_exts. by apply lookup_singleton_ne. Qed.
Lemma own_impersonator c : own_extensions c !! "impersonator" = if String.eqb (p_Impersonator c) "" then None else Some (p_Impersonator c).
Proof. unfold own_extensions. skip_exts. rewrite ext_same; [done|]. skip_exts. by apply lookup_singleton_ne. Qed.

(** The certificate of valid parameters. *)
Lemma GenerateUserCert_cert now now' c data : GenerateUserCert now now' c = done data →
  ∃ c1 cert, UserCertParams_CheckAndSetDefaults c = Ok c1 ∧ GenerateUserCertWithoutValidation now now' c1 = done cert ∧
    ParseCertificate data = Ok cert.
Proof.
  unfold GenerateUserCert, done. intros (c1 & [= Hc1] & (cert & Hcert & [= <-])%attempt_Ok)%attempt_Ok. exists c1, cert. split_and!; [done..|].
  apply certificate_read_back.
Qed.
Lemma certificate_says now now' c cert : GenerateUserCertWithoutValidation now now' c = done cert →
  ∃ signer extensions, p_CASigner c = Some signer ∧ SignatureKey cert = Some (signer_PublicKey signer) ∧
    KeyId cert = p_Username c ∧ ValidPrincipals cert = p_AllowedLogins c ∧ cert_Type cert = UserCert ∧
    ValidBefore cert = (if (p_TTL c =? 0)%Z then CertTimeInfinity else u64 (time_unix (now + p_TTL c))) ∧
    Extensions cert = extensions ∧
    (let m := role_extensions (p_CertificateExtensions c) (own_extensions c) in
     if String.eqb (p_CertificateFormat c) CertificateFormatStandard then standard_extensions c m else Ok m) = Ok extensions.
Proof.
  unfold GenerateUserCertWithoutValidation, done. intros (pubKey & _ & (options & _ & (extensions & [= Hext] & Hs)%attempt_Ok)%attempt_Ok)%attempt_Ok. cbv zeta in Hs.
  destruct (p_CASigner c) as [signer|]; [|done]. injection Hs as Hs. apply SignCert_says in Hs as ->.
  exists signer, extensions. by split_and!.
Qed.
Lemma standard_extensions_other c m m' k :
  k ≠ "teleport-traits" → k ≠ "teleport-roles" → k ≠ "teleport-route-to-cluster" → k ≠ "teleport-active-requests" →
  standard_extensions c m = Ok m' → m' !! k = m !! k.
Proof.
  unfold standard_extensions. intros ? ? ? ? (traits & Ht & (m1 & Hm1 & Hm')%result_bind_Ok)%result_bind_Ok.
  assert (m1 !! k = m !! k) as E.
  { destruct (length (p_Roles c) =? 0)%nat; [injection Hm1 as <-; by apply ext_other|].
    apply result_bind_Ok in Hm1 as (roles & _ & [= <-]). rewrite lookup_insert_ne by done. by apply ext_other. }
  destruct (length (p_ActiveRequests c) <? 1)%nat.
  - injection Hm' as <-. by rewrite ext_other.
  - apply result_bind_Ok in Hm' as (requests & _ & [= <-]). rewrite lookup_insert_ne by done. by rewrite ext_other.
Qed.
Lemma standard_extensions_reads c m m' : p_Roles c ≠ [] → standard_extensions c m = Ok m' →
  (∃ traits, MarshalTraits (p_Traits c) = Ok traits ∧ m' !! "teleport-traits" = Some traits) ∧
  (∃ roles, cert_roles_json (p_Roles c) = Ok roles ∧ m' !! "teleport-roles" = Some roles).
Proof.
  unfold standard_extensions. intros Hne (traits & Ht & (m1 & Hm1 & Hm')%result_bind_Ok)%result_bind_Ok.
  destruct (length (p_Roles c) =? 0)%nat eqn:E; [by apply Nat.eqb_eq, length_zero_iff_nil in E|].
  apply result_bind_Ok in Hm1 as (roles & Hr & [= <-]).
  assert (∀ k, k ≠ "teleport-route-to-cluster" → k ≠ "teleport-active-requests" →
    m' !! k = <[ "teleport-roles" := roles ]> (ext "teleport-traits" traits m) !! k) as Hk.
  { intros k ? ?. destruct (length (p_ActiveRequests c) <? 1)%nat.
    - injection Hm' as <-. by rewrite ext_other.
    - apply result_bind_Ok in Hm' as (requests & _ & [= <-]). rewrite lookup_insert_ne by done. by rewrite ext_other. }
  split.
  - exists traits. split; [done|]. rewrite Hk, lookup_insert_ne by done. unfold ext.
    rewrite (proj2 (String.eqb_neq _ _) (traits_json_text _ _ Ht)). apply lookup_insert_eq.
  - exists roles. split; [done|]. rewrite Hk by done. apply lookup_insert_eq.
Qed.

(** What a node takes from a certificate of the standard format is what went into
    it, unless an extension of a role takes the name of the restriction. *)
Lemma AccessInfo_read_back now now' c cert ids :
  GenerateUserCertWithoutValidation now now' c = done cert → p_CertificateFormat c = CertificateFormatStandard →
  p_Roles c ≠ [] → Forall utf8 (p_Roles c) → traits_utf8 (p_Traits c) → Forall readable_id ids →
  ResourceIDsToString ids = Ok (p_AllowedResourceIDs c) → untaken (p_CertificateExtensions c) "teleport-allowed-resources" →
  AccessInfoFromLocalCertificate cert = Ok (MkAccessInfo (p_Roles c) (p_Traits c) ids).
Proof.
  intros Hc Hf Hne Hroles Htraits Hids Hstr Hun.
  destruct (certificate_says _ _ _ _ Hc) as (signer & m & _ & _ & _ & _ & _ & _ & Hext & Hm). rewrite Hf, String.eqb_refl in Hm.
  destruct (standard_extensions_reads _ _ _ Hne Hm) as [(traits & Ht & Hlt) (roles & Hr & Hlr)].
  unfold AccessInfoFromLocalCertificate, ExtractTraitsFromCert, ExtractRolesFromCert, ExtractAllowedResourcesFromCert.
  rewrite Hext, Hlt, Hlr. unfold UnmarshalTraits. rewrite (traits_read_back _ _ Htraits Ht). cbn [mbind result_bind].
  rewrite (cert_roles_back _ _ Hroles Hr). cbn [mbind result_bind].
  rewrite (standard_extensions_other c _ _ "teleport-allowed-resources" ltac:(done) ltac:(done) ltac:(done) ltac:(done) Hm).
  rewrite role_extensions_other, own_allowed by done.
  destruct ids as [|id ids].
  - injection Hstr as <-. reflexivity.
  - assert (p_AllowedResourceIDs c ≠ "") as Hs.
    { unfold ResourceIDsToString in Hstr. cbn [length Nat.eqb] in Hstr.
      destruct (strings_json _) eqn:E in Hstr; [|done]. injection Hstr as <-. by eapply strings_json_nonempty. }
    rewrite (proj2 (String.eqb_neq _ _) Hs). by rewrite (ResourceIDs_roundtrip (id :: ids)).
Qed.
(** The device of the certificate, when no extension of a role takes its name. *)
Lemma mfa_read_back now now' c cert :
  GenerateUserCertWithoutValidation now now' c = done cert → untaken (p_CertificateExtensions c) "mfa-verified" →
  Extensions cert !! "mfa-verified" = if String.eqb (p_MFAVerified c) "" then None else Some (p_MFAVerified c).
Proof.
  intros Hc Hun. destruct (certificate_says _ _ _ _ Hc) as (signer & m & _ & _ & _ & _ & _ & _ & Hext & Hm). rewrite Hext.
  assert (role_extensions (p_CertificateExtensions c) (own_extensions c) !! "mfa-verified" =
    if String.eqb (p_MFAVerified c) "" then None else Some (p_MFAVerified c)) as E by by rewrite role_extensions_other, own_mfa.
  destruct (String.eqb (p_CertificateFormat c) CertificateFormatStandard); [|by injection Hm as <-].
  by rewrite (standard_extensions_other c _ _ "mfa-verified" ltac:(done) ltac:(done) ltac:(done) ltac:(done) Hm).
Qed.

(** An extension of a role that takes the name of the restriction to resources
    lifts it when it is empty, and one that takes the name of the device counts
    as one. *)
Lemma role_extension_lifts_restriction now now' c cert e es :
  GenerateUserCertWithoutValidation now now' c = done cert → p_CertificateExtensions c = (es ++ [e])%list →
  is_ssh_extension e = true → ce_Name e = "teleport-allowed-resources" → ce_Value e = "" →
  ExtractAllowedResourcesFromCert cert = Ok [].
Proof.
  intros Hc He Hs Hn Hv. destruct (certificate_says _ _ _ _ Hc) as (signer & m & _ & _ & _ & _ & _ & _ & Hext & Hm).
  assert (role_extensions (p_CertificateExtensions c) (own_extensions c) !! "teleport-allowed-resources" = Some "") as E.
  { unfold role_extensions. rewrite He, fold_left_app. cbn [fold_left]. rewrite Hs, Hn, Hv. apply lookup_insert_eq. }
  unfold ExtractAllowedResourcesFromCert. rewrite Hext.
  destruct (String.eqb (p_CertificateFormat c) CertificateFormatStandard).
  - by rewrite (standard_extensions_other c _ _ "teleport-allowed-resources" ltac:(done) ltac:(done) ltac:(done) ltac:(done) Hm), E.
  - injection Hm as <-. by rewrite E.
Qed.
Lemma role_extension_counts_as_mfa now now' c cert e es :
  GenerateUserCertWithoutValidation now now' c = done cert → p_CertificateExtensions c = (es ++ [e])%list →
  is_ssh_extension e = true → ce_Name e = "mfa-verified" → is_Some (Extensions cert !! "mfa-verified").
Proof.
  intros Hc He Hs Hn. destruct (certificate_says _ _ _ _ Hc) as (signer & m & _ & _ & _ & _ & _ & _ & Hext & Hm).
  assert (is_Some (role_extensions (p_CertificateExtensions c) (own_extensions c) !! "mfa-verified")) as E.
  { unfold role_extensions. rewrite He, fold_left_app. cbn [fold_left]. rewrite Hs, Hn, lookup_insert_eq. by eexists. }
  rewrite Hext. destruct (String.eqb (p_CertificateFormat c) CertificateFormatStandard); [|by injection Hm as <-].
  by rewrite (standard_extensions_other c _ _ "mfa-verified" ltac:(done) ltac:(done) ltac:(done) ltac:(done) Hm).
Qed.
End reading.
