(* ===== verification/SystemRoles.v ===== *)
(** * System roles (api/types/system_role.go)

    The roles of the services of a cluster, and how lists of them are written and
    read. *)

From Stdlib Require Import Ascii String.
From S2P Require Import Prelude.
From S2P Require Import Parse.
Local Open Scope string_scope.

Abbreviation SystemRole := string.
Abbreviation SystemRoles := (list string).

Definition RoleAuth : SystemRole := "Auth".
Definition RoleNode : SystemRole := "Node".
Definition RoleProxy : SystemRole := "Proxy".
Definition RoleAdmin : SystemRole := "Admin".
Definition RoleProvisionToken : SystemRole := "ProvisionToken".
Definition RoleTrustedCluster : SystemRole := "Trusted_cluster".
Definition RoleSignup : SystemRole := "Signup".
Definition RoleNop : SystemRole := "Nop".
Definition RoleRemoteProxy : SystemRole := "RemoteProxy".
Definition RoleKube : SystemRole := "Kube".
Definition RoleApp : SystemRole := "App".
Definition RoleDatabase : SystemRole := "Db".
Definition RoleWindowsDesktop : SystemRole := "WindowsDesktop".
Definition RoleBot : SystemRole := "Bot".
Definition RoleInstance : SystemRole := "Instance".
Definition RoleDiscovery : SystemRole := "Discovery".

Definition roleMappings : list (string * SystemRole) :=
  [ ("auth", RoleAuth); ("node", RoleNode); ("proxy", RoleProxy); ("admin", RoleAdmin);
    ("provisiontoken", RoleProvisionToken); ("trusted_cluster", RoleTrustedCluster);
    ("trustedcluster", RoleTrustedCluster); ("signup", RoleSignup); ("nop", RoleNop);
    ("remoteproxy", RoleRemoteProxy); ("remote_proxy", RoleRemoteProxy); ("kube", RoleKube); ("app", RoleApp);
    ("db", RoleDatabase); ("windowsdesktop", RoleWindowsDesktop); ("windows_desktop", RoleWindowsDesktop);
    ("bot", RoleBot); ("instance", RoleInstance); ("discovery", RoleDiscovery) ].
Definition localServiceMappings : list SystemRole :=
  [RoleAuth; RoleNode; RoleProxy; RoleKube; RoleApp; RoleDatabase; RoleWindowsDesktop; RoleDiscovery].
Definition IsLocalService (r : SystemRole) : bool := existsb (String.eqb r) localServiceMappings.

(** ** Strings *)

(** [strings.ToLower], as far as the names of roles can tell: of the letters
    outside ASCII, only the dotted capital I and the sign of Kelvin have a lower
    case in ASCII, and the others are left as they are. *)
Definition lower_ascii (c : ascii) : ascii :=
  let n := nat_of_ascii c in if (65 <=? n)%nat && (n <=? 90)%nat then ascii_of_nat (n + 32) else c.
Definition dotted_I : string := bytes_string [196; 176].
Definition kelvin : string := bytes_string [226; 132; 170].
Fixpoint ToLower (fuel : nat) (s : string) : string :=
  match fuel, s with
  | S fuel, String c s' =>
      if String.prefix dotted_I s then String "i" (ToLower fuel (drop 2 s)) else
      if String.prefix kelvin s then String "k" (ToLower fuel (drop 3 s)) else
      String (lower_ascii c) (ToLower fuel s')
  | _, _ => ""
  end.
Definition strings_ToLower (s : string) : string := ToLower (String.length s) s.
Definition strings_TrimSpace (s : string) : string := TrimRightSpace (TrimLeftSpace s).
Fixpoint strings_Split (sep : ascii) (s : string) : list string :=
  match s with
  | EmptyString => [""]
  | String c s =>
      if Ascii.eqb c sep then "" :: strings_Split sep s
      else match strings_Split sep s with [] => [String c ""] | w :: ws => String c w :: ws end
  end.
Fixpoint lookup_role (table : list (string * SystemRole)) (name : string) : option SystemRole :=
  match table with
  | [] => None
  | (k, r) :: table => if String.eqb k name then Some r else lookup_role table name
  end.

(** ** Checks *)

Definition SystemRole_Check (r : SystemRole) : result unit :=
  match lookup_role roleMappings (strings_ToLower r) with
  | Some sr => if String.eqb r sr then Ok () else Err (Error BadParameter "role %v is not registered")
  | None => Err (Error BadParameter "role %v is not registered")
  end.
Fixpoint check_unique (roles : SystemRoles) (seen : gset string) : result unit :=
  match roles with
  | [] => Ok ()
  | role :: roles =>
      _ ← SystemRole_Check role;
      if bool_decide (role ∈ seen) then Err (Error BadParameter "duplicate role %q")
      else check_unique roles ({[ role ]} ∪ seen)
  end.
Definition SystemRoles_Check (roles : SystemRoles) : result unit := check_unique roles ∅.
Definition NewTeleportRoles (in_ : list string) : SystemRoles * result unit := (in_, SystemRoles_Check in_).

Definition Include (roles : SystemRoles) (role : SystemRole) : bool := existsb (fun r => String.eqb r role) roles.
Definition IncludeAny (roles candidates : SystemRoles) : bool := existsb (Include roles) candidates.
Definition asSet (roles : SystemRoles) : gset string := list_to_set roles.
(** The loop over one set finds each of its roles in the other. *)
Definition SystemRoles_Equals (roles other : SystemRoles) : bool :=
  let rs := asSet roles in
  let os := asSet other in
  if negb (size rs =? size os)%nat then false
  else forallb (fun r => bool_decide (r ∈ os)) (elements rs).

(** ** Writing and reading *)

Definition SystemRole_String (r : SystemRole) : string :=
  if String.eqb r RoleSignup then "Password" else if String.eqb r RoleTrustedCluster then "trusted_cluster" else r.
Definition StringSlice (roles : SystemRoles) : list string := map SystemRole_String roles.
Definition SystemRoles_String (roles : SystemRoles) : string := String.concat "," (StringSlice roles).
Fixpoint parse_names (names : list string) : result SystemRoles :=
  match names with
  | [] => Ok []
  | s :: names =>
      match lookup_role roleMappings (strings_ToLower (strings_TrimSpace s)) with
      | Some r =>
          if is_Ok (SystemRole_Check r) then roles ← parse_names names; Ok (r :: roles)
          else Err (Error BadParameter "invalid role %q")
      | None => Err (Error BadParameter "invalid role %q")
      end
  end.
Definition ParseTeleportRoles (str : string) : result SystemRoles :=
  roles ← parse_names (strings_Split "," str);
  if (length roles =? 0)%nat then Err (Error BadParameter "no valid roles in $%q")
  else _ ← SystemRoles_Check roles; Ok roles.
Definition upper_ascii (c : ascii) : ascii :=
  let n := nat_of_ascii c in if (97 <=? n)%nat && (n <=? 122)%nat then ascii_of_nat (n - 32) else c.
(** The first byte alone is put in upper case: a byte outside ASCII becomes the
    replacement character, and names no role. *)
Definition SystemRole_Set (v : string) : result SystemRole :=
  let val := match v with
    | EmptyString => EmptyString
    | String c v => if (nat_of_ascii c <? 128)%nat then String (upper_ascii c) v else bytes_string [239; 191; 189] ++ v
    end in
  _ ← SystemRole_Check val; Ok val.

(** ** Lemmas *)

Definition all_roles : SystemRoles := map snd roleMappings.
Lemma lookup_role_elem table name r : lookup_role table name = Some r → r ∈ map snd table.
Proof. induction table as [|[k r'] table IH]; [done|]. cbn. destruct (String.eqb k name); [intros [= ->]; by left|]. right. by apply IH. Qed.
Lemma registered_known r : is_Ok (SystemRole_Check r) = true → r ∈ all_roles.
Proof.
  unfold SystemRole_Check. destruct (lookup_role _ _) as [sr|] eqn:E; [|done]. destruct (String.eqb_spec r sr) as [->|]; [|done].
  intros _. by eapply lookup_role_elem.
Qed.
(** What holds of each known role holds of a registered one. *)
Lemma registered_all (P : SystemRole → bool) r : forallb P all_roles = true → is_Ok (SystemRole_Check r) = true → P r = true.
Proof. rewrite forallb_elem. intros Ha Hr%registered_known. by apply Ha. Qed.

Lemma SystemRoles_Equals_correct roles other :
  SystemRoles_Equals roles other = true ↔ ∀ r, r ∈ roles ↔ r ∈ other.
Proof.
  unfold SystemRoles_Equals, asSet. destruct (Nat.eqb_spec (size (list_to_set (C:=gset string) roles)) (size (list_to_set (C:=gset string) other))) as [Hn|Hn]; cbn [negb].
  - rewrite forallb_elem. setoid_rewrite elem_of_elements. setoid_rewrite bool_decide_eq_true. split.
    + intros Hs. assert (list_to_set roles ≡@{gset string} list_to_set other) as He by (apply set_subseteq_size_equiv; [intros x; apply Hs|lia]).
      intros r. specialize (He r). by rewrite !elem_of_list_to_set in He.
    + intros Hs x. rewrite !elem_of_list_to_set. apply Hs.
  - split; [done|]. intros Hs. destruct Hn. f_equal. apply leibniz_equiv. intros x. by rewrite !elem_of_list_to_set.
Qed.

(** *** Round trip *)
Fixpoint has_char (c : ascii) (s : string) : bool :=
  match s with EmptyString => false | String c' s => Ascii.eqb c' c || has_char c s end.
Lemma strings_Split_word sep s : has_char sep s = false → strings_Split sep s = [s].
Proof. induction s as [|c s IH]; [done|]. cbn [strings_Split has_char]. intros [-> Hs]%orb_false_iff. by rewrite IH. Qed.
Lemma Split_first sep s rest : has_char sep s = false → strings_Split sep (String.append s (String sep rest)) = s :: strings_Split sep rest.
Proof.
  induction s as [|c s IH]; cbn [has_char].
  - intros _. change ("" +:+ String sep rest) with (String sep rest). cbn [strings_Split]. by rewrite Ascii.eqb_refl.
  - intros [Hc Hs]%orb_false_iff. change (String c s +:+ String sep rest) with (String c (s +:+ String sep rest)).
    cbn [strings_Split]. by rewrite Hc, IH.
Qed.
Lemma Split_concat sep words : words ≠ [] → (∀ w, w ∈ words → has_char sep w = false) →
  strings_Split sep (String.concat (String sep "") words) = words.
Proof.
  induction words as [|w words IH]; [done|]. intros _ Hw. destruct words as [|w' words].
  - apply strings_Split_word, Hw. by left.
  - change (String.concat (String sep "") (w :: w' :: words)) with (w ++ String sep (String.concat (String sep "") (w' :: words))).
    rewrite Split_first by (apply Hw; by left). f_equal. apply IH; [done|]. intros x Hx. apply Hw. by right.
Qed.

(** A role reads back from its name, but for that of signing up. *)
Definition reads_back (r : SystemRole) : bool :=
  String.eqb r RoleSignup ||
  (negb (has_char "," (SystemRole_String r)) && is_Ok (SystemRole_Check r) &&
   bool_decide (lookup_role roleMappings (strings_ToLower (strings_TrimSpace (SystemRole_String r))) = Some r)).
Lemma all_read_back : forallb reads_back all_roles = true.
Proof. vm_compute. reflexivity. Qed.
Lemma check_unique_each roles seen r : check_unique roles seen = Ok () → r ∈ roles → is_Ok (SystemRole_Check r) = true.
Proof.
  revert seen. induction roles as [|r' roles IH]; intros seen; [by intros _ ?%elem_of_nil|]. cbn [check_unique].
  destruct (SystemRole_Check r') eqn:E; [|done]. cbn [mbind result_bind]. case_bool_decide; [done|].
  intros Hc [->|Hin]%elem_of_cons; [by rewrite E|by eapply IH].
Qed.

(** Lists of system roles read back as they are written. *)
Theorem system_roles_roundtrip roles :
  roles ≠ [] → RoleSignup ∉ roles → SystemRoles_Check roles = Ok () →
  ParseTeleportRoles (SystemRoles_String roles) = Ok roles.
Proof.
  intros Hne Hs Hc. assert (∀ r, r ∈ roles → reads_back r = true) as Hr.
  { intros r Hr. eapply registered_all; [apply all_read_back|by eapply check_unique_each]. }
  assert (∀ r, r ∈ roles → has_char "," (SystemRole_String r) = false ∧ is_Ok (SystemRole_Check r) = true ∧
    lookup_role roleMappings (strings_ToLower (strings_TrimSpace (SystemRole_String r))) = Some r) as Hback.
  { intros r Hin. specialize (Hr r Hin). unfold reads_back in Hr. destruct (String.eqb_spec r RoleSignup) as [E|_]; [by rewrite E in Hin|].
    cbn [orb] in Hr. apply andb_true_iff in Hr as [[Hx%negb_true_iff Hy]%andb_true_iff Hz%bool_decide_eq_true]. done. }
  unfold ParseTeleportRoles, SystemRoles_String. rewrite Split_concat.
  - assert (parse_names (StringSlice roles) = Ok roles) as ->.
    { clear -Hback. induction roles as [|r roles IH]; [done|]. cbn [StringSlice map parse_names]. destruct (Hback r) as (_ & Hk & ->); [by left|]. rewrite Hk.
      fold (StringSlice roles). rewrite IH; [done|]. intros r' ?. apply Hback. by right. }
    cbn [mbind result_bind]. destruct roles; [done|]. cbn [length Nat.eqb]. by rewrite Hc.
  - by destruct roles.
  - intros w Hw. apply list_elem_of_In, in_map_iff in Hw as (r & <- & Hin). apply Hback. by apply list_elem_of_In.
Qed.
