(* ===== verification/BuiltinRoles.v ===== *)
(** * Roles of the services (lib/auth/permissions.go)

    Each service of a cluster has a role that is built in: which resources it may
    read and write. The conditions of a rule are written by the builder of the
    predicate library, which is a parameter. *)

From Stdlib Require Import Ascii String.
From S2P Require Import Prelude.
From S2P Require Import GoSlice.
From S2P Require Import Labels.
From S2P Require Import Role.
From S2P Require Import RoleSet.
From S2P Require Import RoleRules.
From S2P Require Import SystemRoles.
Local Open Scope string_scope.

(** [builder] of the predicate library: the text of expressions. *)
Class PredicateBuilder := {
  BExpr : Type;
  builder_Identifier : string → BExpr;
  builder_String : string → BExpr;
  builder_Equals : BExpr → BExpr → BExpr;
  builder_And : BExpr → BExpr → BExpr;
  builder_Not : BExpr → BExpr;
  BExpr_String : BExpr → string
}.

Definition RW : list string := ["list"; "create"; "read"; "update"; "delete"].
Record RoleSpecV5 := MkRoleSpec { spec_Options : RoleOptions; spec_Allow : RoleConditions; spec_Deny : RoleConditions }.
Definition no_spec : RoleSpecV5 := MkRoleSpec empty_options empty_conditions empty_conditions.
Definition RoleFromSpec (name : string) (spec : RoleSpecV5) : result Role :=
  NewRole name (spec_Options spec) (spec_Allow spec) (spec_Deny spec).
Definition RoleSetFromSpec (name : string) (spec : RoleSpecV5) : result RoleSet :=
  role ← RoleFromSpec name spec; Ok (NewRoleSet [role]).

(** What most of the roles allow: any namespace, any labels of some kinds of
    resources, and some rules. *)
Definition any_labels : option Labels := Some {[ Wildcard := [Wildcard] ]}.
Definition allowing (with_labels : list (option Labels → RoleConditions → RoleConditions)) (rules : list Rule) : RoleConditions :=
  fold_right (fun with_l c => with_l any_labels c)
    (with_Namespaces (Some [Wildcard]) (with_Rules rules empty_conditions)) with_labels.
Definition services (with_labels : list (option Labels → RoleConditions → RoleConditions)) (rules : list Rule) : RoleSpecV5 :=
  MkRoleSpec empty_options (allowing with_labels rules) empty_conditions.

(** ** The roles *)
Definition nodeSpec : RoleSpecV5 :=
  services [with_NodeLabels]
    [ NewRule "node" RW; NewRule "ssh_session" RW; NewRule "session" RO; NewRule "event" RW; NewRule "proxy" RO;
      NewRule "cert_authority" ReadNoSecrets; NewRule "user" RO; NewRule "namespace" RO; NewRule "role" RO;
      NewRule "auth_server" RO; NewRule "tunnel" RW; NewRule "tunnel_connection" RO; NewRule "cluster_name" RO;
      NewRule "cluster_audit_config" RO; NewRule "cluster_networking_config" RO;
      NewRule "session_recording_config" RO; NewRule "cluster_auth_preference" RO; NewRule "semaphore" RW;
      NewRule "lock" RO; NewRule "network_restrictions" RO; NewRule "connection_diagnostic" RW ].
Definition appSpec : RoleSpecV5 :=
  services [with_AppLabels]
    [ NewRule "event" RW; NewRule "proxy" RO; NewRule "cert_authority" ReadNoSecrets; NewRule "user" RO;
      NewRule "namespace" RO; NewRule "role" RO; NewRule "auth_server" RO; NewRule "tunnel" RW;
      NewRule "tunnel_connection" RO; NewRule "cluster_name" RO; NewRule "cluster_audit_config" RO;
      NewRule "cluster_networking_config" RO; NewRule "session_recording_config" RO;
      NewRule "cluster_auth_preference" RO; NewRule "app_server" RW; NewRule "app" RW; NewRule "web_session" RO;
      NewRule "web_token" RO; NewRule "jwt" RW; NewRule "lock" RO ].
Definition databaseSpec : RoleSpecV5 :=
  services [with_DatabaseLabels]
    [ NewRule "event" RW; NewRule "proxy" RO; NewRule "cert_authority" ReadNoSecrets; NewRule "user" RO;
      NewRule "namespace" RO; NewRule "role" RO; NewRule "auth_server" RO; NewRule "tunnel" RW;
      NewRule "tunnel_connection" RO; NewRule "cluster_name" RO; NewRule "cluster_audit_config" RO;
      NewRule "cluster_networking_config" RO; NewRule "session_recording_config" RO;
      NewRule "cluster_auth_preference" RO; NewRule "db_server" RW; NewRule "db" RW; NewRule "semaphore" RW;
      NewRule "lock" RO ].
Definition kubeSpec : RoleSpecV5 :=
  services [with_KubernetesLabels]
    [ NewRule "kube_service" RW; NewRule "kube_server" RW; NewRule "event" RW;
      NewRule "cert_authority" ReadNoSecrets; NewRule "cluster_name" RO; NewRule "cluster_audit_config" RO;
      NewRule "cluster_networking_config" RO; NewRule "session_recording_config" RO;
      NewRule "cluster_auth_preference" RO; NewRule "user" RO; NewRule "role" RO; NewRule "namespace" RO;
      NewRule "lock" RO; NewRule "kube_cluster" RW ].
Definition windowsDesktopSpec : RoleSpecV5 :=
  services [with_WindowsDesktopLabels]
    [ NewRule "event" RW; NewRule "cert_authority" ReadNoSecrets; NewRule "cluster_name" RO;
      NewRule "cluster_audit_config" RO; NewRule "cluster_networking_config" RO;
      NewRule "session_recording_config" RO; NewRule "cluster_auth_preference" RO; NewRule "user" RO;
      NewRule "role" RO; NewRule "namespace" RO; NewRule "lock" RO; NewRule "windows_desktop_service" RW;
      NewRule "windows_desktop" RW ].
Definition discoverySpec : RoleSpecV5 :=
  services [with_KubernetesLabels]
    [ NewRule "event" RW; NewRule "cert_authority" ReadNoSecrets; NewRule "cluster_name" RO; NewRule "namespace" RO;
      NewRule "node" RO; NewRule "kube_cluster" RW ].
Definition authSpec : RoleSpecV5 :=
  services []
    [ NewRule "auth_server" RW ].
Definition signupSpec : RoleSpecV5 :=
  services []
    [ NewRule "auth_server" RO; NewRule "cluster_auth_preference" RO ].

Section builtin.
Context `{PredicateBuilder}.

Definition ResourceNameExpr : BExpr := builder_Identifier "resource.metadata.name".
Definition CertAuthorityTypeExpr : BExpr := builder_Identifier "system.catype()".
(** The host authorities of the other clusters. *)
Definition other_authorities (clusterName : string) : string :=
  BExpr_String (builder_And (builder_Equals CertAuthorityTypeExpr (builder_String "host"))
    (builder_Not (builder_Equals ResourceNameExpr (builder_String clusterName)))).
Definition proxy_ca_rule (clusterName : string) : Rule :=
  MkRule ["cert_authority"] ["create"; "read"; "update"] (other_authorities clusterName) [].
Definition roleSpecForProxy (clusterName : string) : RoleSpecV5 :=
  services [with_ClusterLabels; with_NodeLabels; with_AppLabels; with_DatabaseLabels; with_KubernetesLabels]
    [ NewRule "proxy" RW; NewRule "oidc_request" RW; NewRule "ssh_session" RW; NewRule "session" RO;
      NewRule "event" RW; NewRule "saml_request" RW; NewRule "oidc" ReadNoSecrets; NewRule "saml" ReadNoSecrets;
      NewRule "github" ReadNoSecrets; NewRule "github_request" RW; NewRule "namespace" RO; NewRule "node" RO;
      NewRule "auth_server" RO; NewRule "tunnel" RO; NewRule "cert_authority" ReadNoSecrets; NewRule "user" RO;
      NewRule "role" RO; NewRule "cluster_auth_preference" RO; NewRule "cluster_name" RO;
      NewRule "cluster_audit_config" RO; NewRule "cluster_networking_config" RO;
      NewRule "session_recording_config" RO; NewRule "static_tokens" RO; NewRule "tunnel_connection" RW;
      NewRule "remote_cluster" RO; NewRule "semaphore" RW; NewRule "app_server" RO; NewRule "web_session" RW;
      NewRule "web_token" RW; NewRule "kube_service" RW; NewRule "kube_server" RW; NewRule "db_server" RO;
      NewRule "lock" RO; NewRule "token" ["read"; "delete"]; NewRule "windows_desktop_service" RO;
      NewRule "database_certificate" ["create"]; NewRule "windows_desktop" RO; NewRule "installer" RO;
      NewRule "connection_diagnostic" RW;
      proxy_ca_rule clusterName ].
Definition roleSpecForProxyWithRecordAtProxy (clusterName : string) : RoleSpecV5 :=
  let base := roleSpecForProxy clusterName in
  MkRoleSpec (spec_Options base)
    (with_Rules (Rules (spec_Allow base) ++ [NewRule "host_cert" RW])%list (spec_Allow base)) (spec_Deny base).
(** The authority of the remote proxy's own cluster. *)
Definition own_authority (clusterName : string) : string :=
  BExpr_String (builder_Equals ResourceNameExpr (builder_String clusterName)).
Definition remote_ca_rule (clusterName : string) : Rule :=
  MkRule ["cert_authority"] ["read"; "rotate"] (own_authority clusterName) [].
Definition remoteProxySpec (clusterName : string) : RoleSpecV5 :=
  services [with_NodeLabels; with_AppLabels; with_DatabaseLabels; with_KubernetesLabels]
    [ NewRule "node" RO; NewRule "proxy" RO; NewRule "cert_authority" ReadNoSecrets; NewRule "namespace" RO;
      NewRule "user" RO; NewRule "role" RO; NewRule "auth_server" RO; NewRule "tunnel" RO;
      NewRule "tunnel_connection" RO; NewRule "cluster_name" RO; NewRule "cluster_audit_config" RO;
      NewRule "cluster_networking_config" RO; NewRule "session_recording_config" RO;
      NewRule "cluster_auth_preference" RO; NewRule "kube_service" RO; NewRule "kube_server" RO;
      NewRule "installer" RO;
      remote_ca_rule clusterName ].

Definition adminSpec : RoleSpecV5 :=
  MkRoleSpec (with_MaxSessionTTL MaxDuration empty_options)
    (allowing [with_NodeLabels; with_AppLabels; with_KubernetesLabels; with_DatabaseLabels; with_ClusterLabels;
      with_WindowsDesktopLabels] [NewRule Wildcard RW]) empty_conditions.
Definition nopSpec : RoleSpecV5 := MkRoleSpec empty_options (with_Namespaces (Some []) empty_conditions) empty_conditions.

Definition IsRecordAtProxy (mode : string) : bool := String.eqb mode "proxy" || String.eqb mode "proxy-sync".
Definition builtin_spec (clusterName mode : string) (role : SystemRole) : option RoleSpecV5 :=
  if String.eqb role RoleAuth then Some authSpec else
  if String.eqb role RoleProvisionToken then Some no_spec else
  if String.eqb role RoleNode then Some nodeSpec else
  if String.eqb role RoleApp then Some appSpec else
  if String.eqb role RoleDatabase then Some databaseSpec else
  if String.eqb role RoleProxy then
    Some (if IsRecordAtProxy mode then roleSpecForProxyWithRecordAtProxy clusterName else roleSpecForProxy clusterName) else
  if String.eqb role RoleSignup then Some signupSpec else
  if String.eqb role RoleAdmin then Some adminSpec else
  if String.eqb role RoleNop then Some nopSpec else
  if String.eqb role RoleKube then Some kubeSpec else
  if String.eqb role RoleWindowsDesktop then Some windowsDesktopSpec else
  if String.eqb role RoleDiscovery then Some discoverySpec else None.
Definition definitionForBuiltinRole (clusterName mode : string) (role : SystemRole) : result Role :=
  match builtin_spec clusterName mode role with
  | Some spec => RoleFromSpec (SystemRole_String role) spec
  | None => Err (Error NotFound "builtin role %q is not recognized")
  end.
Fixpoint builtin_definitions (clusterName mode : string) (roles : list SystemRole) : result (list Role) :=
  match roles with
  | [] => Ok []
  | role :: roles =>
      rd ← definitionForBuiltinRole clusterName mode role;
      rest ← builtin_definitions clusterName mode roles; Ok (rd :: rest)
  end.
Definition RoleSetForBuiltinRoles (clusterName mode : string) (roles : list SystemRole) : result RoleSet :=
  definitions ← builtin_definitions clusterName mode roles; Ok (NewRoleSet definitions).

(** ** What they allow *)

Definition with_secrets : list string := ["cert_authority"; "oidc"; "saml"; "github"].
Definition credentials : list string := ["token"; "static_tokens"; "web_session"; "web_token"].
(** To do anything to a resource but read it, to read it with its secrets, or to
    read one that is a credential. *)
Definition sensitive (resource verb : string) : bool :=
  negb (SliceContainsStr ["list"; "read"; "readnosecrets"] verb) ||
  (SliceContainsStr with_secrets resource && String.eqb verb "read") ||
  (SliceContainsStr credentials resource && SliceContainsStr ["list"; "read"] verb).

(** The kinds of resources that a service keeps: those it announces and serves,
    and what it records of its work. *)
Definition kept_by (role : SystemRole) : list string :=
  if String.eqb role RoleAuth then ["auth_server"] else
  if String.eqb role RoleNode then ["node"; "ssh_session"; "event"; "tunnel"; "semaphore"; "connection_diagnostic"] else
  if String.eqb role RoleApp then ["app_server"; "app"; "event"; "tunnel"; "jwt"] else
  if String.eqb role RoleDatabase then ["db_server"; "db"; "event"; "tunnel"; "semaphore"] else
  if String.eqb role RoleKube then ["kube_service"; "kube_server"; "kube_cluster"; "event"] else
  if String.eqb role RoleWindowsDesktop then ["windows_desktop_service"; "windows_desktop"; "event"] else
  if String.eqb role RoleDiscovery then ["kube_cluster"; "event"] else
  if String.eqb role RoleProxy then
    ["proxy"; "kube_service"; "kube_server"; "ssh_session"; "event"; "tunnel_connection"; "semaphore"; "connection_diagnostic";
     "oidc_request"; "saml_request"; "github_request"; "web_session"; "web_token"] else [].
(** What a service may do of what is sensitive: keep its own resources; besides,
    applications read the sessions of the web, and the proxy reads those and the
    static tokens, spends tokens to join, asks for database certificates and, when
    it records sessions, makes certificates of hosts. *)
Definition permitted (mode : string) (role : SystemRole) (resource verb : string) : bool :=
  let writes := SliceContainsStr ["create"; "update"; "delete"] verb in
  let reads := SliceContainsStr ["list"; "read"] verb in
  (SliceContainsStr (kept_by role) resource && writes) ||
  (String.eqb role RoleApp && SliceContainsStr ["web_session"; "web_token"] resource && reads) ||
  (String.eqb role RoleProxy &&
     ((SliceContainsStr ["web_session"; "web_token"; "static_tokens"] resource && reads) ||
      (String.eqb resource "token" && SliceContainsStr ["read"; "delete"] verb) ||
      (String.eqb resource "database_certificate" && String.eqb verb "create") ||
      (String.eqb resource "host_cert" && IsRecordAtProxy mode && writes))).

(** A rule without condition or actions names no wildcard and allows nothing
    sensitive but what [may] has. *)
Definition plain (rule : Rule) : bool := String.eqb (rule_Where rule) "" && (length (Actions rule) =? 0)%nat.
Definition harmless (may : string → string → bool) (rule : Rule) : bool :=
  plain rule && negb (SliceContainsStr (Resources rule) Wildcard) && negb (SliceContainsStr (Verbs rule) Wildcard) &&
  forallb (fun resource => forallb (fun verb => negb (sensitive resource verb) || may resource verb) (Verbs rule)) (Resources rule).
Definition nothing (resource verb : string) : bool := false.
Lemma harmless_more (may may' : string → string → bool) rule :
  (∀ resource verb, may resource verb = true → may' resource verb = true) → harmless may rule = true → harmless may' rule = true.
Proof.
  intros Hm. unfold harmless. rewrite !andb_true_iff. intros [Hrest Hall]. split; [done|]. rewrite forallb_elem in Hall |- *.
  intros resource Hr. specialize (Hall resource Hr). rewrite forallb_elem in Hall |- *. intros verb Hv.
  specialize (Hall verb Hv). apply orb_true_iff in Hall as [?|?]; apply orb_true_iff; auto.
Qed.

Lemma RoleFromSpec_rules name spec role : RoleFromSpec name spec = Ok role →
  GetRules Allow role = Rules (spec_Allow spec) ∧ GetRules Deny role = Rules (spec_Deny spec).
Proof.
  intros (_ & _ & ->)%CheckAndSetDefaults_steps. unfold role_defaults, GetRules. cbn.
  unfold namespaces_default. split; by case_match.
Qed.
Lemma sensitive_verb resource verb : sensitive resource verb = true → VerbReadNoSecrets ≠ verb.
Proof. intros Hs <-. unfold sensitive in Hs. rewrite !orb_true_iff, !andb_true_iff in Hs. by destruct Hs as [[?|[_ ?]]|[_ ?]]. Qed.
Lemma applies_not_harmless {W} (wp : Parser W) may resource verb rule :
  sensitive resource verb = true → may resource verb = false → applies wp resource verb rule → harmless may rule = false.
Proof.
  intros Hs Hm (Hr & _ & Hv). apply not_true_iff_false. unfold harmless. rewrite !andb_true_iff, !negb_true_iff.
  intros [[[_ Hrw] Hvw] Hall]. rewrite <- not_true_iff_false, SliceContainsStr_true in Hrw, Hvw.
  destruct Hr as [Hr|?]; [|done]. rewrite forallb_elem in Hall. specialize (Hall resource Hr). rewrite forallb_elem in Hall.
  destruct Hv as [[?|[? _]]%HasVerb_true|[Hv|[-> _]]%HasVerb_true]; [done|done| |].
  - specialize (Hall verb Hv). by rewrite Hs, Hm in Hall.
  - by apply sensitive_verb in Hs.
Qed.
Lemma implicit_harmless : forallb (harmless nothing) (GetRules Allow NewImplicitRole) = true.
Proof. vm_compute. reflexivity. Qed.
Lemma elem_of_NewRoleSet role roles : role ∈ NewRoleSet roles → role ∈ roles ∨ role = NewImplicitRole.
Proof.
  unfold NewRoleSet. destruct roles as [|r [|r' roles]]; [| |]; try case_match; rewrite ?elem_of_app, ?list_elem_of_singleton; tauto.
Qed.

(** The rules of a service, but for the proxy's on authorities, are harmless. *)
Lemma builtin_spec_rules clusterName mode role spec rule :
  builtin_spec clusterName mode role = Some spec → role ≠ RoleAdmin → rule ∈ Rules (spec_Allow spec) →
  harmless (permitted mode role) rule = true ∨ role = RoleProxy ∧ rule = proxy_ca_rule clusterName.
Proof.
  intros E Ha Hin. assert (∀ may rules, forallb (harmless may) rules = true → rule ∈ rules → harmless may rule = true) as Hf
    by (intros may rules Hall Hr; rewrite forallb_elem in Hall; by apply Hall).
  unfold builtin_spec in E. repeat match type of E with
    | (if String.eqb role ?x then Some (if _ then _ else _) else _) = _ => destruct (String.eqb_spec role x) as [Hx|_]
    | (if String.eqb role ?x then _ else _) = _ =>
        destruct (String.eqb_spec role x) as [Hx|_];
        [first [exfalso; by apply Ha | left; subst role; injection E as <-; revert Hin; apply Hf; vm_compute; reflexivity]|]
    end; [|done].
  subst role. assert (forallb (harmless (permitted mode RoleProxy)) (removelast (Rules (spec_Allow (roleSpecForProxy clusterName)))) = true) as Hp
    by (destruct (IsRecordAtProxy mode) eqn:Em; unfold permitted; rewrite Em; vm_compute; reflexivity).
  assert (rule ∈ removelast (Rules (spec_Allow (roleSpecForProxy clusterName))) ++ [proxy_ca_rule clusterName] ∨
    IsRecordAtProxy mode = true ∧ rule = NewRule "host_cert" RW)%list as [Hin'|[Em ->]].
  { destruct (IsRecordAtProxy mode); injection E as <-; [|by left].
    cbn [spec_Allow] in Hin. apply elem_of_app in Hin as [Hin|Hin%list_elem_of_singleton]; [by left|by right]. }
  - apply elem_of_app in Hin' as [Hin'|Hin'%list_elem_of_singleton]; [left; by eapply Hf|by right].
  - left. unfold permitted. rewrite Em. vm_compute. reflexivity.
Qed.
Lemma builtin_definitions_elem clusterName mode roles defs r :
  builtin_definitions clusterName mode roles = Ok defs → r ∈ defs →
  ∃ role, role ∈ roles ∧ definitionForBuiltinRole clusterName mode role = Ok r.
Proof.
  revert defs. induction roles as [|role roles IH]; intros defs; cbn [builtin_definitions].
  { intros [= <-] []%elem_of_nil. }
  intros (rd & Hrd & (rest & Hrest & [= <-])%result_bind_Ok)%result_bind_Ok [->|Hin]%elem_of_cons.
  - exists role. split; [by left|done].
  - destruct (IH rest Hrest Hin) as (role' & ? & ?). exists role'. split; [by right|done].
Qed.
Lemma builtin_spec_deny clusterName mode role spec : builtin_spec clusterName mode role = Some spec → Rules (spec_Deny spec) = [].
Proof. unfold builtin_spec. repeat case_match; intros [= <-]; reflexivity. Qed.

(** What one of the services may do. *)
Definition any_permitted (mode : string) (roles : list SystemRole) (resource verb : string) : bool :=
  existsb (fun role => permitted mode role resource verb) roles.
(** A role of the services' set is the implicit one or that of a service. *)
Lemma builtin_set_rules clusterName mode roles set role :
  RoleSetForBuiltinRoles clusterName mode roles = Ok set → role ∈ set →
  GetRules Deny role = [] ∧
  (RoleAdmin ∉ roles → ∀ rule, rule ∈ GetRules Allow role → harmless (any_permitted mode roles) rule = true ∨ RoleProxy ∈ roles ∧ rule = proxy_ca_rule clusterName).
Proof.
  intros (defs & Hd & [= <-])%result_bind_Ok [Hin| ->]%elem_of_NewRoleSet.
  - destruct (builtin_definitions_elem _ _ _ _ _ Hd Hin) as (name & Hname & E). unfold definitionForBuiltinRole in E.
    destruct (builtin_spec _ _ _) as [spec|] eqn:Es; [|done]. destruct (RoleFromSpec_rules _ _ _ E) as [-> ->].
    split; [by eapply builtin_spec_deny|]. intros Ha rule Hr.
    destruct (builtin_spec_rules _ _ _ _ rule Es) as [Hh|[-> ->]]; [by intros ->|done| |by right].
    left. eapply harmless_more; [|exact Hh]. intros resource verb Hm. apply existsb_elem. by exists name.
  - split; [done|]. intros _ rule Hr. left. pose proof implicit_harmless as Hi. rewrite forallb_elem in Hi.
    eapply harmless_more; [|by apply Hi]. done.
Qed.

Section access.
Context `{GoSortLaws} {W : Type}.
Implicit Types (wp ap : Parser W).

(** The predicate library reads what its builder writes: [wp] evaluates clauses
    where an authority of type [catype] and name [name] is at hand. *)
Record evaluates wp (catype name : string) (val : BExpr → string) (holds : BExpr → bool) : Prop := {
  ev_parse e : wp (BExpr_String e) = Ok (Some (fun w => (holds e, w)));
  ev_text e : BExpr_String e ≠ "";
  ev_name : val ResourceNameExpr = name;
  ev_catype : val CertAuthorityTypeExpr = catype;
  ev_string t : val (builder_String t) = t;
  ev_equals a b : holds (builder_Equals a b) = String.eqb (val a) (val b);
  ev_and a b : holds (builder_And a b) = holds a && holds b;
  ev_not a : holds (builder_Not a) = negb (holds a)
}.

Lemma where_true_holds wp catype name val holds verbs resources e :
  evaluates wp catype name val holds → where_true wp (MkRule resources verbs (BExpr_String e) []) → inhabited W → holds e = true.
Proof.
  intros Hev [He|(fn & Hfn & Hw)] [w]; [by destruct (ev_text _ _ _ _ _ Hev e)|]. cbn [rule_Where] in Hfn.
  rewrite (ev_parse _ _ _ _ _ Hev e) in Hfn. injection Hfn as <-. specialize (Hw w). by injection Hw.
Qed.
Lemma plain_defined wp ap rule : plain rule = true → where_defined wp rule ∧ actions_ok ap rule.
Proof.
  intros [Hw%String.eqb_eq Ha%Nat.eqb_eq]%andb_true_iff. split; [by left|]. apply nil_length_inv in Ha. intros a. rewrite Ha.
  by intros ?%elem_of_nil.
Qed.
Lemma text_defined wp ap catype name val holds verbs resources e :
  evaluates wp catype name val holds →
  where_defined wp (MkRule resources verbs (BExpr_String e) []) ∧ actions_ok ap (MkRule resources verbs (BExpr_String e) []).
Proof.
  intros Hev. split; [right|by intros a ?%elem_of_nil]. cbn [rule_Where]. rewrite (ev_parse _ _ _ _ _ Hev e).
  exists (fun w => (holds e, w)), (holds e). done.
Qed.

(** Access to something sensitive comes from a rule that is not harmless. *)
Lemma sensitive_access set wp ap ns resource verb w may (special : Rule) :
  (∀ role, role ∈ set → GetRules Deny role = [] ∧ ∀ rule, rule ∈ GetRules Allow role → harmless may rule = true ∨ rule = special) →
  where_defined wp special ∧ actions_ok ap special → sensitive resource verb = true → may resource verb = false →
  (CheckAccessToRule set (Ok wp) (Ok ap) ns resource verb w).1 = Ok () → applies wp resource verb special ∧
    ∃ role, role ∈ set ∧ special ∈ GetRules Allow role.
Proof.
  intros Hset Hsp Hs Hmay. assert (rules_defined wp ap Deny set) as Hd
    by (intros role rule Hr; rewrite (proj1 (Hset role Hr)); by intros ?%elem_of_nil).
  assert (rules_defined wp ap Allow set) as Ha.
  { intros role rule Hr Hin. destruct (proj2 (Hset role Hr) rule Hin) as [Hh| ->]; [|done]. apply plain_defined.
    unfold harmless in Hh. rewrite !andb_true_iff in Hh. tauto. }
  unfold CheckAccessToRule. rewrite (checkAccessToRuleImpl_ok set ap ns resource verb wp wp w Hd Ha).
  intros (_ & role & Hr & _ & rule & Hrule & Happ). pose proof (applies_not_harmless _ may _ _ _ Hs Hmay Happ) as Hh.
  destruct (proj2 (Hset role Hr) rule Hrule) as [|E]; [congruence|]. rewrite E in Happ, Hrule. split; [done|by exists role].
Qed.
Lemma applies_one wp resource verb verbs kind e : kind ≠ Wildcard → Wildcard ∉ verbs → VerbReadNoSecrets ≠ verb →
  applies wp resource verb (MkRule [kind] verbs e []) → resource = kind ∧ verb ∈ verbs.
Proof.
  intros Hk Hw Hn (Hr & _ & Hv). cbn [Resources] in Hr. rewrite !list_elem_of_singleton in Hr. split; [by destruct Hr as [|<-]|].
  destruct Hv as [[?|[? _]]%HasVerb_true|[?|[E _]]%HasVerb_true]; [done..|by destruct Hn].
Qed.

(** C20: the services of a cluster but the administrator's do nothing to resources
    but read them without secrets, and read no credentials, except for what the table
    [permitted] has for one of them: the kinds of resources that the service keeps, the
    sessions of the web for applications and the proxy, and the tokens for the proxy;
    and except that the proxy creates, reads and updates the host authorities of
    other clusters. *)
Theorem builtin_roles_confined clusterName mode roles set wp ap catype name val holds ns resource verb w :
  RoleSetForBuiltinRoles clusterName mode roles = Ok set → RoleAdmin ∉ roles → evaluates wp catype name val holds →
  sensitive resource verb = true → (CheckAccessToRule set (Ok wp) (Ok ap) ns resource verb w).1 = Ok () →
  (∃ role, role ∈ roles ∧ permitted mode role resource verb = true) ∨
  RoleProxy ∈ roles ∧ resource = "cert_authority" ∧ verb ∈ ["create"; "read"; "update"] ∧ catype = "host" ∧ name ≠ clusterName.
Proof.
  intros Hset Hadm Hev Hs Hc. destruct (any_permitted mode roles resource verb) eqn:Hmay; [left; by apply existsb_elem in Hmay|right].
  destruct (sensitive_access set wp ap ns resource verb w (any_permitted mode roles) (proxy_ca_rule clusterName)) as (Happ & role & Hr & Hin);
    [|by eapply text_defined|done..|].
  { intros role Hr. destruct (builtin_set_rules _ _ _ _ _ Hset Hr) as [Hd Ha]. split; [done|]. intros rule Hin.
    destruct (Ha Hadm rule Hin) as [|[_ ?]]; [by left|by right]. }
  destruct (builtin_set_rules _ _ _ _ _ Hset Hr) as [_ Ha]. destruct (Ha Hadm _ Hin) as [|[Hp _]].
  { by rewrite (applies_not_harmless _ _ _ _ _ Hs Hmay Happ) in *. }
  destruct (applies_one wp resource verb ["create"; "read"; "update"] "cert_authority" (other_authorities clusterName)) as [-> Hv];
    [done|by apply (bool_decide_unpack _)|by eapply sensitive_verb|exact Happ|].
  split; [done|]. split; [done|]. split; [done|]. destruct Happ as (_ & Hw & _).
  pose proof (where_true_holds _ _ _ _ _ _ _ _ Hev Hw (inhabits w)) as Hh.
  rewrite (ev_and _ _ _ _ _ Hev), (ev_not _ _ _ _ _ Hev), !(ev_equals _ _ _ _ _ Hev), !(ev_string _ _ _ _ _ Hev),
    (ev_name _ _ _ _ _ Hev), (ev_catype _ _ _ _ _ Hev), andb_true_iff, negb_true_iff, String.eqb_eq, String.eqb_neq in Hh. done.
Qed.

(** A proxy of a remote cluster may only read and rotate the authorities of the
    name of its cluster. *)
Lemma remote_proxy_confined clusterName set wp ap catype name val holds ns resource verb w :
  RoleSetFromSpec RoleRemoteProxy (remoteProxySpec clusterName) = Ok set → evaluates wp catype name val holds →
  sensitive resource verb = true → (CheckAccessToRule set (Ok wp) (Ok ap) ns resource verb w).1 = Ok () →
  resource = "cert_authority" ∧ verb ∈ ["read"; "rotate"] ∧ name = clusterName.
Proof.
  intros (role0 & E & Hset)%result_bind_Ok Hev Hs Hc. assert (set = NewRoleSet [role0]) as -> by congruence. clear Hset.
  destruct (RoleFromSpec_rules _ _ _ E) as [Hallow Hdeny].
  assert (forallb (harmless nothing) (removelast (Rules (spec_Allow (remoteProxySpec clusterName)))) = true) as Hp by (vm_compute; reflexivity).
  pose proof implicit_harmless as Hi. rewrite forallb_elem in Hp, Hi.
  destruct (sensitive_access (NewRoleSet [role0]) wp ap ns resource verb w nothing (remote_ca_rule clusterName)) as (Happ & _);
    [|by eapply text_defined|done..|].
  { intros role [->%list_elem_of_singleton| ->]%elem_of_NewRoleSet; [|split; [done|]; intros rule Hin; left; by apply Hi].
    split; [done|]. intros rule Hin. rewrite Hallow in Hin.
    assert (rule ∈ removelast (Rules (spec_Allow (remoteProxySpec clusterName))) ++ [remote_ca_rule clusterName])%list as Hin' by exact Hin.
    apply elem_of_app in Hin' as [Hin'|Hin'%list_elem_of_singleton]; [left; by apply Hp|by right]. }
  destruct (applies_one wp resource verb ["read"; "rotate"] "cert_authority" (own_authority clusterName)) as [-> Hv];
    [done|by apply (bool_decide_unpack _)|by eapply sensitive_verb|exact Happ|].
  split; [done|]. split; [done|]. destruct Happ as (_ & Hw & _).
  pose proof (where_true_holds _ _ _ _ _ _ _ _ Hev Hw (inhabits w)) as Hh.
  rewrite (ev_equals _ _ _ _ _ Hev), (ev_string _ _ _ _ _ Hev), (ev_name _ _ _ _ _ Hev), String.eqb_eq in Hh. done.
Qed.
End access.

(** Sets of the services that are known can be made. *)
Definition known_services : list SystemRole :=
  [RoleAuth; RoleProvisionToken; RoleNode; RoleApp; RoleDatabase; RoleProxy; RoleSignup; RoleAdmin; RoleNop; RoleKube;
   RoleWindowsDesktop; RoleDiscovery].
Lemma definitionForBuiltinRole_known clusterName mode role :
  role ∈ known_services → ∃ r, definitionForBuiltinRole clusterName mode role = Ok r.
Proof.
  intros Hin. assert (is_Ok (definitionForBuiltinRole clusterName mode role) = true) as Hok; [|destruct (definitionForBuiltinRole _ _ _); [by eexists|done]].
  unfold known_services in Hin. rewrite !elem_of_cons in Hin.
  destruct Hin as [->|[->|[->|[->|[->|[->|[->|[->|[->|[->|[->|[->|[]%elem_of_nil]]]]]]]]]]]];
    unfold definitionForBuiltinRole, builtin_spec; cbn [String.eqb Ascii.eqb Bool.eqb];
    try destruct (IsRecordAtProxy mode); vm_compute; reflexivity.
Qed.
Lemma RoleSetForBuiltinRoles_known clusterName mode roles :
  (∀ role, role ∈ roles → role ∈ known_services) → ∃ set, RoleSetForBuiltinRoles clusterName mode roles = Ok set.
Proof.
  intros Hk. assert (∃ defs, builtin_definitions clusterName mode roles = Ok defs) as [defs E].
  { induction roles as [|role roles IH]; cbn [builtin_definitions]; [by eexists|].
    destruct (definitionForBuiltinRole_known clusterName mode role) as [rd ->]; [apply Hk; by left|].
    destruct IH as [rest ->]; [intros r ?; apply Hk; by right|]. by eexists. }
  exists (NewRoleSet defs). unfold RoleSetForBuiltinRoles. by rewrite E.
Qed.
End builtin.
