(* ===== verification/Authorizer.v ===== *)
(** * Authorization of calls (lib/auth/permissions.go, lib/services/lock.go)

    A call carries who makes it. The authorizer finds what the caller may do: the
    checker of a local user's roles, of a remote user's mapped roles, or of a
    service's; it refuses a caller that a lock in force keeps out, and a user whose
    private key is not of the kind that is required. *)

From Stdlib Require Import Ascii String.
From S2P Require Import Prelude.
From S2P Require Import GoSlice.
From S2P Require Import Labels.
From S2P Require Import Parse.
From S2P Require Import Role.
From S2P Require Import Traits.
From S2P Require Import RoleSet.
From S2P Require Import AccessRequest.
From S2P Require Import RequestValidator.
From S2P Require Import Events.
From S2P Require Import Fanout.
From S2P Require Import FanoutSpec.
From S2P Require Import LockWatch.
From S2P Require Import Identity.
From S2P Require Import Users.
From S2P Require Import AccessInfo.
From S2P Require Import SystemRoles.
From S2P Require Import BuiltinRoles.
Local Open Scope string_scope.

(** ** Callers *)

(** The fields of a remote user that copy its identity's are not read. *)
Inductive IdentityGetter :=
  | LocalUser (username : string) (identity : Identity)
  | RemoteUser (username clusterName : string) (identity : Identity)
  | BuiltinRole (role : SystemRole) (AdditionalSystemRoles : list SystemRole) (username clusterName : string) (identity : Identity)
  | RemoteBuiltinRole (role : SystemRole) (username clusterName : string) (identity : Identity)
  | WrapIdentity (identity : Identity).
Definition GetIdentity (i : IdentityGetter) : Identity :=
  match i with
  | LocalUser _ id | RemoteUser _ _ id | BuiltinRole _ _ _ _ id | RemoteBuiltinRole _ _ _ id | WrapIdentity id => id
  end.
Definition IsServer (role : SystemRole) : bool := String.eqb role RoleInstance || IsLocalService role.
Definition GetServerID (clusterName : string) (identity : Identity) : string :=
  TrimSuffix (Username identity) ("." ++ clusterName).

Record Context := MkContext {
  ctx_User : UserV2; ctx_Checker : accessChecker; ctx_Identity : IdentityGetter; ctx_UnmappedIdentity : IdentityGetter
}.

(** ** Targets of locks *)

Definition LockTargetsFromTLSIdentity (id : Identity) : list LockTarget :=
  (RolesToLockTargets (Identity.Groups id) ++ [user_target (Username id)] ++
   (if negb (String.eqb (MFAVerified id) "") then [mfa_target (MFAVerified id)] else []) ++
   AccessRequestsToLockTargets (ActiveRequests id))%list.
Fixpoint append_unknown (lockTargets unmapped : list LockTarget) : list LockTarget :=
  match unmapped with
  | [] => lockTargets
  | target :: unmapped =>
      append_unknown (if existsb (fun known => bool_decide (target = known)) lockTargets then lockTargets
                      else lockTargets ++ [target])%list unmapped
  end.
Definition LockTargets (c : Context) : list LockTarget :=
  let lockTargets := append_unknown (LockTargetsFromTLSIdentity (GetIdentity (ctx_Identity c)))
                       (LockTargetsFromTLSIdentity (GetIdentity (ctx_UnmappedIdentity c))) in
  match ctx_Identity c with
  | BuiltinRole role _ _ clusterName identity =>
      if String.eqb role RoleNode
      then (lockTargets ++ [node_target (GetServerID clusterName identity); node_target (Username identity)])%list
      else lockTargets
  | _ => lockTargets
  end.

(** ** Contexts *)

Record AuthPreference := MkAuthPreference { pref_LockingMode : string; pref_RequireMFAType : MFAType }.
Definition pref_PrivateKeyPolicy (p : AuthPreference) : KeyPolicy :=
  match pref_RequireMFAType p with
  | RequireMFAType_SESSION_AND_HARDWARE_KEY => PrivateKeyPolicyHardwareKey
  | RequireMFAType_HARDWARE_KEY_TOUCH => PrivateKeyPolicyHardwareKeyTouch
  | _ => PrivateKeyPolicyNone
  end.
(** A policy is a string; any but the two of hardware keys meets no requirement. *)
Definition policy_of (s : string) : KeyPolicy :=
  if String.eqb s "hardware_key" then PrivateKeyPolicyHardwareKey else
  if String.eqb s "hardware_key_touch" then PrivateKeyPolicyHardwareKeyTouch else PrivateKeyPolicyNone.

(** The roles that the users of an authority's cluster have. *)
Record UserAuthority := MkUserAuthority { ca_Roles : list string; ca_RoleMap : RoleMap }.
Definition CombinedMapping (ca : UserAuthority) : RoleMap :=
  if negb (length (ca_Roles ca) =? 0)%nat then [MkRoleMapping Wildcard (ca_Roles ca)] else ca_RoleMap ca.

(** What a call reads of the store; [ap_GetUser_again] is a second read. Roles
    are got through the class of the validator. *)
Class AuthorizerAccessPoint := {
  ap_GetUser : string → result UserV2;
  ap_GetUser_again : string → result UserV2;
  ap_GetCertAuthority : string → result UserAuthority;
  ap_GetAuthPreference : result AuthPreference;
  ap_GetSessionRecordingConfig : result string
}.

Section authorizer.
Context `{GoLibs} `{Regexp} `{ValidatorGetter} `{GoMapOrder} `{MapOrder} `{UnixUsers} `{PredicateBuilder}
  `{AuthorizerAccessPoint}.

Definition contextForLocalUser (clusterName username : string) (identity : Identity) : result Context :=
  user ← ap_GetUser username;
  accessInfo ← AccessInfoFromLocalIdentity ap_GetUser_again identity;
  accessChecker ← NewAccessChecker accessInfo clusterName;
  let u := LocalUser username identity in
  Ok (MkContext (SetTraits (ai_Traits accessInfo) (SetRoles (ai_Roles accessInfo) user)) accessChecker u u).

Definition contextForBuiltinRole (mode : string) (role : SystemRole) (additional : list SystemRole)
    (username clusterName : string) (identity : Identity) : result Context :=
  systemRoles ← (if String.eqb role RoleInstance then
      if (length additional =? 0)%nat
      then Err (Error BadParameter "cannot create instance context, no additional system roles recognized")
      else Ok additional
    else Ok [role]);
  roleSet ← RoleSetForBuiltinRoles clusterName mode systemRoles;
  user ← NewUser username;
  let r := BuiltinRole role additional username clusterName identity in
  Ok (MkContext (SetRoles systemRoles user)
        (NewAccessCheckerWithRoleSet (MkAccessInfo systemRoles ∅ []) clusterName roleSet) r r).

(** Differences of times are kept within the range of durations. *)
Definition time_Until (now t : Z) : Z := Z.max (- 2 ^ 63) (Z.min (2 ^ 63 - 1) (t - now)).
(** [now] and [now'] are readings of the clock, [uuid] a fresh identifier. What is
    called the users is the first result, which are the groups. *)
Definition authorizeRemoteUser (now now' : Z) (uuid clusterName username remoteCluster : string) (id : Identity) : result Context :=
  ca ← ap_GetCertAuthority remoteCluster;
  accessInfo ← AccessInfoFromRemoteIdentity id (CombinedMapping ca);
  checker ← NewAccessChecker accessInfo clusterName;
  user ← NewUser ("remote-" ++ username ++ "-" ++ remoteCluster);
  let user := SetRoles (ai_Roles accessInfo) (SetTraits (ai_Traits accessInfo) user) in
  let set := checker_RoleSet checker in
  let ttl := AdjustSessionTTL set (time_Until now (Expires id)) in
  kube ← (match CheckKubeGroupsAndUsers set ttl false [] with
          | Err e => if has_kind NotFound e then Ok ([], []) else Err e
          | Ok kube => Ok kube
          end);
  let '(kubeUsers, kubeGroups) := kube in
  principals ← CheckLoginDuration set ttl uuid;
  let identity := MkIdentity (md_Name (u_Metadata user)) "" (u_Roles user) [] (Usage id) principals kubeGroups kubeUsers
    (now' + ttl)%Z (RouteToCluster id) (KubernetesCluster id) (ai_Traits accessInfo) (id_RouteToApp id) clusterName
    (id_RouteToDatabase id) [] [] (MFAVerified id) (ClientIP id) [] [] false false 0%Z [] (id_PrivateKeyPolicy id) in
  Ok (MkContext user checker (WrapIdentity identity) (RemoteUser username remoteCluster id)).

Definition authorizeBuiltinRole (role : SystemRole) (additional : list SystemRole) (username clusterName : string)
    (identity : Identity) : result Context :=
  mode ← ap_GetSessionRecordingConfig;
  contextForBuiltinRole mode role additional username clusterName identity.
(** [a] is the name of the authorizer's cluster. *)
Definition authorizeRemoteBuiltinRole (a : string) (role : SystemRole) (username clusterName : string) (identity : Identity) :
    result Context :=
  if negb (String.eqb role RoleProxy) then Err (Error AccessDenied "access denied for remote %v connecting to cluster") else
  roleSet ← RoleSetFromSpec RoleRemoteProxy (remoteProxySpec clusterName);
  user ← NewUser username;
  let r := RemoteBuiltinRole role username clusterName identity in
  Ok (MkContext (SetRoles [RoleRemoteProxy] user)
        (NewAccessCheckerWithRoleSet (MkAccessInfo [RoleRemoteProxy] ∅ []) a roleSet) r r).

Definition fromUser (now now' : Z) (uuid clusterName : string) (userI : option IdentityGetter) : result Context :=
  match userI with
  | Some (LocalUser username identity) => contextForLocalUser clusterName username identity
  | Some (RemoteUser username remote identity) => authorizeRemoteUser now now' uuid clusterName username remote identity
  | Some (BuiltinRole role additional username cluster identity) => authorizeBuiltinRole role additional username cluster identity
  | Some (RemoteBuiltinRole role username cluster identity) => authorizeRemoteBuiltinRole clusterName role username cluster identity
  | _ => Err (Error AccessDenied "unsupported context type %T")
  end.

Definition is_builtin (i : IdentityGetter) : bool :=
  match i with BuiltinRole _ _ _ _ _ | RemoteBuiltinRole _ _ _ _ => true | _ => false end.
Definition enforcePrivateKeyPolicy (c : Context) (authPref : AuthPreference) : result unit :=
  if is_builtin (ctx_Identity c) then Ok () else
  VerifyPolicy (PrivateKeyPolicy (checker_RoleSet (ctx_Checker c)) (pref_PrivateKeyPolicy authPref))
    (policy_of (id_PrivateKeyPolicy (GetIdentity (ctx_Identity c)))).

(** [userI] is what the context carries, and [clock] and [order] are the
    readings of the clock and the order of the map of the check of locks. *)
Definition Authorize {R} (now now' : Z) (uuid clusterName : string) (clock : nat → Z) (order : map_range)
    (lockWatcher : lockCollector R) (userI : option IdentityGetter) : result Context :=
  authContext ← fromUser now now' uuid clusterName userI;
  authPref ← ap_GetAuthPreference;
  _ ← CheckLockInForce clock order
        (LockingMode (checker_RoleSet (ctx_Checker authContext)) (pref_LockingMode authPref)) (LockTargets authContext) lockWatcher;
  _ ← enforcePrivateKeyPolicy authContext authPref;
  Ok authContext.

(** The context's user and checker change. *)
Definition UseExtraRoles (clusterName : string) (roles : list string) (c : Context) : result unit * Context :=
  let newRoleNames := Deduplicate (RoleNames (checker_RoleSet (ctx_Checker c)) ++ roles) in
  let user := SetRoles newRoleNames (ctx_User c) in
  let c := MkContext user (ctx_Checker c) (ctx_Identity c) (ctx_UnmappedIdentity c) in
  match NewAccessChecker (AccessInfoFromUser user) clusterName with
  | Err e => (Err e, c)
  | Ok checker => (Ok (), MkContext user checker (ctx_Identity c) (ctx_UnmappedIdentity c))
  end.
Definition Context_MFAParams (authPrefMFARequirement : MFAType) (c : Context) : AccessMFAParams :=
  let params := MFAParams (checker_RoleSet (ctx_Checker c)) authPrefMFARequirement in
  let isService := match ctx_Identity c with BuiltinRole _ _ _ _ _ => true | _ => false end in
  MkMFAParams (Required params) (isService || negb (String.eqb (MFAVerified (GetIdentity (ctx_Identity c))) "")).

(** *** Names of clients; [None] is a context without an identity. *)
Definition UserSystem : string := "system".
Definition ClientUsername (userI : option IdentityGetter) : string :=
  match userI with
  | None => UserSystem
  | Some user => let username := Username (GetIdentity user) in if String.eqb username "" then UserSystem else username
  end.
Definition GetClientUsername (userI : option IdentityGetter) : result string :=
  match userI with
  | None => Err (Error AccessDenied "missing identity")
  | Some user =>
      let username := Username (GetIdentity user) in
      if String.eqb username "" then Err (Error AccessDenied "missing identity username") else Ok username
  end.
Definition ClientImpersonator (userI : option IdentityGetter) : string :=
  match userI with None => "" | Some user => Impersonator (GetIdentity user) end.

(** ** Locks *)

(** A lock keeps an identity out by its user, a role, its device or a request. *)
Definition locked_out (l : LockV2) (id : Identity) : Prop :=
  let t := lock_Target l in
  (lt_User t ≠ "" ∧ lt_User t = Username id) ∨ (lt_Role t ≠ "" ∧ lt_Role t ∈ Identity.Groups id) ∨
  (lt_MFADevice t ≠ "" ∧ lt_MFADevice t = MFAVerified id) ∨
  (lt_AccessRequest t ≠ "" ∧ lt_AccessRequest t ∈ ActiveRequests id).

Lemma differs_unset theirs : differs "" theirs = false.
Proof. done. Qed.
Lemma differs_set mine theirs : mine ≠ "" → differs mine theirs = negb (String.eqb theirs mine).
Proof. intros Hm. unfold differs. by rewrite (proj2 (String.eqb_neq _ _) Hm). Qed.
(** A target with one field matches the locks on the field's value. *)
Ltac solve_target u :=
  unfold Target_Match; destruct (decide (u = "")) as [->|Hu]; [cbn; naive_solver|];
  unfold Target_IsEmpty; rewrite bool_decide_eq_false_2 by (intros [=]; by apply Hu);
  cbn [lt_User lt_Role lt_Login lt_Node lt_MFADevice lt_WindowsDesktop lt_AccessRequest user_target role_target mfa_target request_target node_target];
  rewrite !differs_unset, differs_set by exact Hu;
  match goal with |- context [String.eqb ?x u] => destruct (String.eqb_spec x u); cbn; naive_solver end.
Lemma user_target_Match u t : Target_Match (user_target u) t = true ↔ lt_User t ≠ "" ∧ lt_User t = u.
Proof. solve_target u. Qed.
Lemma role_target_Match u t : Target_Match (role_target u) t = true ↔ lt_Role t ≠ "" ∧ lt_Role t = u.
Proof. solve_target u. Qed.
Lemma mfa_target_Match u t : Target_Match (mfa_target u) t = true ↔ lt_MFADevice t ≠ "" ∧ lt_MFADevice t = u.
Proof. solve_target u. Qed.
Lemma request_target_Match u t : Target_Match (request_target u) t = true ↔ lt_AccessRequest t ≠ "" ∧ lt_AccessRequest t = u.
Proof. solve_target u. Qed.
Lemma node_target_Match u t : Target_Match (node_target u) t = true ↔ lt_Node t ≠ "" ∧ lt_Node t = u.
Proof. solve_target u. Qed.

Lemma locked_out_targets l id :
  locked_out l id ↔ ∃ target, target ∈ LockTargetsFromTLSIdentity id ∧ Target_Match target (lock_Target l) = true.
Proof.
  unfold LockTargetsFromTLSIdentity, RolesToLockTargets, AccessRequestsToLockTargets. split.
  - intros [[Hn He]|[[Hn He]|[[Hn He]|[Hn He]]]].
    + exists (user_target (Username id)). rewrite user_target_Match. rewrite !elem_of_app, list_elem_of_singleton. tauto.
    + exists (role_target (lt_Role (lock_Target l))). rewrite role_target_Match, elem_of_app. split; [left|done].
      apply list_elem_of_In, in_map, list_elem_of_In, He.
    + exists (mfa_target (MFAVerified id)). rewrite mfa_target_Match. split; [|done]. rewrite !elem_of_app. do 2 right. left.
      rewrite (proj2 (String.eqb_neq _ _)) by congruence. by left.
    + exists (request_target (lt_AccessRequest (lock_Target l))). rewrite request_target_Match, !elem_of_app.
      split; [do 3 right|done]. apply list_elem_of_In, in_map, list_elem_of_In, He.
  - intros (target & Hin & Hm). rewrite !elem_of_app in Hin. unfold locked_out. destruct Hin as [Hin|[Hin|[Hin|Hin]]].
    + apply list_elem_of_In, in_map_iff in Hin as (r & <- & Hr%list_elem_of_In). apply role_target_Match in Hm as [? <-]. auto.
    + apply list_elem_of_singleton in Hin as ->. apply user_target_Match in Hm. auto.
    + destruct (String.eqb _ _); [by apply elem_of_nil in Hin|]. apply list_elem_of_singleton in Hin as ->.
      apply mfa_target_Match in Hm. auto.
    + apply list_elem_of_In, in_map_iff in Hin as (r & <- & Hr%list_elem_of_In). apply request_target_Match in Hm as [? <-]. auto.
Qed.

Lemma append_unknown_elem lockTargets unmapped target :
  target ∈ append_unknown lockTargets unmapped ↔ target ∈ lockTargets ∨ target ∈ unmapped.
Proof.
  revert lockTargets. induction unmapped as [|x unmapped IH]; intros lockTargets; cbn [append_unknown].
  { rewrite elem_of_nil. tauto. }
  rewrite IH, elem_of_cons. destruct (existsb _ _) eqn:E.
  - apply existsb_elem in E as (y & Hy & ->%bool_decide_eq_true). naive_solver.
  - rewrite elem_of_app, list_elem_of_singleton. tauto.
Qed.
Lemma LockTargets_elem ctx target :
  target ∈ LockTargetsFromTLSIdentity (GetIdentity (ctx_Identity ctx)) ∨
    target ∈ LockTargetsFromTLSIdentity (GetIdentity (ctx_UnmappedIdentity ctx)) → target ∈ LockTargets ctx.
Proof.
  intros Hin%append_unknown_elem. unfold LockTargets. destruct (ctx_Identity ctx); try done.
  destruct (String.eqb _ _); [rewrite elem_of_app; by left|done].
Qed.
Lemma LockTargets_node ctx role additional username clusterName identity :
  ctx_Identity ctx = BuiltinRole role additional username clusterName identity → role = RoleNode →
  node_target (GetServerID clusterName identity) ∈ LockTargets ctx.
Proof. intros E ->. unfold LockTargets. rewrite E, String.eqb_refl, elem_of_app. right. by left. Qed.

(** What the callers become: the original identity is kept, and its key policy;
    services are not mapped. *)
Lemma fromUser_caller now now' uuid clusterName caller ctx :
  fromUser now now' uuid clusterName (Some caller) = Ok ctx →
  ctx_UnmappedIdentity ctx = caller ∧ is_builtin (ctx_Identity ctx) = is_builtin caller ∧
  id_PrivateKeyPolicy (GetIdentity (ctx_Identity ctx)) = id_PrivateKeyPolicy (GetIdentity caller) ∧
  (is_builtin caller = true → ctx_Identity ctx = caller).
Proof.
  destruct caller as [username id|username remote id|role additional username cluster id|role username cluster id|id]; cbn [fromUser].
  - intros (? & _ & (? & _ & (? & _ & [= <-])%result_bind_Ok)%result_bind_Ok)%result_bind_Ok. done.
  - intros (? & _ & (? & _ & (? & _ & (? & _ & ([] & _ & (? & _ & [= <-])%result_bind_Ok)%result_bind_Ok)%result_bind_Ok)%result_bind_Ok)%result_bind_Ok)%result_bind_Ok.
    done.
  - intros (? & _ & (? & _ & (? & _ & (? & _ & [= <-])%result_bind_Ok)%result_bind_Ok)%result_bind_Ok)%result_bind_Ok. done.
  - unfold authorizeRemoteBuiltinRole. destruct (negb _); [done|].
    intros (? & _ & (? & _ & [= <-])%result_bind_Ok)%result_bind_Ok. done.
  - done.
Qed.

(** ** Keys *)

(** The key of an identity is of the kind that is required. *)
Definition meets (required : KeyPolicy) (id : Identity) : Prop :=
  match required with
  | PrivateKeyPolicyNone => True
  | PrivateKeyPolicyHardwareKey => id_PrivateKeyPolicy id = "hardware_key" ∨ id_PrivateKeyPolicy id = "hardware_key_touch"
  | PrivateKeyPolicyHardwareKeyTouch => id_PrivateKeyPolicy id = "hardware_key_touch"
  end.
Lemma VerifyPolicy_meets required id : VerifyPolicy required (policy_of (id_PrivateKeyPolicy id)) = Ok () → meets required id.
Proof.
  unfold meets, policy_of. destruct (String.eqb_spec (id_PrivateKeyPolicy id) "hardware_key") as [->|];
    [destruct required; cbn; auto; discriminate|].
  destruct (String.eqb_spec (id_PrivateKeyPolicy id) "hardware_key_touch") as [->|]; destruct required; cbn; auto; discriminate.
Qed.

(** users are authorized only with a key of the kind that the cluster and each of
    their roles require; services need none. *)
Theorem key_policy_enforced {R} now now' uuid clusterName clock order (p : lockCollector R) caller ctx :
  Authorize now now' uuid clusterName clock order p (Some caller) = Ok ctx → is_builtin caller = false →
  ∃ authPref, ap_GetAuthPreference = Ok authPref ∧ meets (pref_PrivateKeyPolicy authPref) (GetIdentity caller) ∧
    ∀ role, role ∈ checker_RoleSet (ctx_Checker ctx) → meets (GetPrivateKeyPolicy role) (GetIdentity caller).
Proof.
  intros (c & Hc & (authPref & Hpref & (_ & (Hk & [= <-])%result_check_Ok)%result_check_Ok)%result_bind_Ok)%result_bind_Ok Hb.
  destruct (fromUser_caller _ _ _ _ _ _ Hc) as (_ & Hbu & Hpol & _). exists authPref. split; [done|].
  unfold enforcePrivateKeyPolicy in Hk. rewrite Hbu, Hb, Hpol in Hk.
  assert (∀ required, VerifyPolicy required (policy_of (id_PrivateKeyPolicy (GetIdentity caller))) = Ok () →
    meets required (GetIdentity caller)) as Hm by (intros; by apply VerifyPolicy_meets).
  apply PrivateKeyPolicy_strictest in Hk as [Hd Hr]. split; [by apply Hm|]. intros role Hin. by apply Hm, Hr.
Qed.

(** ** Users of other clusters *)

(** The groups and the users that the roles allow at a Kubernetes cluster are
    exchanged in the identity of a remote user: it has the users as its groups. *)
Lemma remote_kube_exchanged now now' uuid clusterName username remote id ctx :
  authorizeRemoteUser now now' uuid clusterName username remote id = Ok ctx →
  let set := checker_RoleSet (ctx_Checker ctx) in
  match CheckKubeGroupsAndUsers set (AdjustSessionTTL set (time_Until now (Expires id))) false [] with
  | Ok (groups, users) => KubernetesGroups (GetIdentity (ctx_Identity ctx)) = users ∧ KubernetesUsers (GetIdentity (ctx_Identity ctx)) = groups
  | Err e => err_kind e = NotFound ∧ KubernetesGroups (GetIdentity (ctx_Identity ctx)) = [] ∧ KubernetesUsers (GetIdentity (ctx_Identity ctx)) = []
  end.
Proof.
  intros (ca & _ & (info & _ & (checker & _ & (user & _ & (kube & Hk & Hrest)%result_bind_Ok)%result_bind_Ok)%result_bind_Ok)%result_bind_Ok)%result_bind_Ok.
  destruct kube as [kubeUsers kubeGroups]. apply result_bind_Ok in Hrest as (principals & _ & [= <-]).
  cbn [ctx_Checker ctx_Identity GetIdentity KubernetesGroups KubernetesUsers]. cbv zeta.
  destruct (CheckKubeGroupsAndUsers _ _ _ _) as [[groups users]|e]; [by injection Hk as <- <-|].
  unfold has_kind in Hk. case_bool_decide; [|done]. by injection Hk as <- <-.
Qed.

(** C16: a remote user's context: its roles are those the mapping of its cluster's
    authority grants; the traits of the program itself come from the fields of its
    certificate; its resources stay restricted; and it expires no later than the
    certificate, and than its roles allow. *)
Theorem remote_user_mapped now now' uuid clusterName username remote id ctx :
  authorizeRemoteUser now now' uuid clusterName username remote id = Ok ctx →
  ∃ ca, ap_GetCertAuthority remote = Ok ca ∧
    (∀ role, role ∈ u_Roles (ctx_User ctx) ↔ granted (CombinedMapping ca) (Identity.Groups id) role) ∧
    u_Roles (ctx_User ctx) ≠ [] ∧
    (∀ role, role ∈ checker_RoleSet (ctx_Checker ctx) → role = NewImplicitRole ∨ ∃ name r,
       granted (CombinedMapping ca) (Identity.Groups id) name ∧ GetRole name = Ok r ∧ role = ApplyTraits r (u_Traits (ctx_User ctx))) ∧
    (let traits := u_Traits (ctx_User ctx) in
     traits !! "logins" = Some (Principals id) ∧ traits !! "kubernetes_groups" = Some (KubernetesGroups id) ∧
     traits !! "kubernetes_users" = Some (KubernetesUsers id) ∧ traits !! "db_names" = Some (id_DatabaseNames id) ∧
     traits !! "db_users" = Some (id_DatabaseUsers id)) ∧
    RoleSet.AllowedResourceIDs (ctx_Checker ctx) = Identity.AllowedResourceIDs id ∧
    Username (GetIdentity (ctx_Identity ctx)) = ("remote-" ++ username ++ "-" ++ remote)%string ∧
    (Expires (GetIdentity (ctx_Identity ctx)) ≤ now' + time_Until now (Expires id))%Z ∧
    (∀ role, role ∈ checker_RoleSet (ctx_Checker ctx) → MaxSessionTTL (GetOptions role) ≠ 0%Z →
       (Expires (GetIdentity (ctx_Identity ctx)) ≤ now' + MaxSessionTTL (GetOptions role))%Z).
Proof.
  intros (ca & Hca & (info & Hinfo & (checker & Hch & (user & Hu & ([kubeUsers kubeGroups] & _ & (principals & _ & [= <-])%result_bind_Ok)%result_bind_Ok)%result_bind_Ok)%result_bind_Ok)%result_bind_Ok)%result_bind_Ok.
  exists ca. split; [done|]. unfold AccessInfoFromRemoteIdentity in Hinfo.
  assert (∀ trait values, remote_traits id !! trait = Some values → (remote_traits id ∪ id_Traits id) !! trait = Some values) as Htr
    by (intros trait values Ht; by apply lookup_union_Some_l).
  revert Hinfo Htr. generalize (remote_traits id ∪ id_Traits id). intros traits Hinfo Htr.
  destruct (MapRoles _ _) as [roles|] eqn:Hmap; [|done]. destruct (length roles =? 0)%nat eqn:Hne; [done|]. injection Hinfo as <-.
  apply result_bind_Ok in Hch as (set & Hset & [= <-]). cbn [ai_Roles ai_Traits] in Hset.
  unfold NewUser, Users.CheckAndSetDefaults in Hu. apply result_bind_Ok in Hu as (md & (_ & ->)%Metadata_ok & [= <-]).
  cbn -[AdjustSessionTTL time_Until Deduplicate remote_traits ApplyTraits NewImplicitRole granted]. split_and!.
  - intros role. by rewrite Deduplicate_elem, (MapRoles_granted _ _ _ _ Hmap).
  - intros Hnil. destruct roles as [|r roles]; [done|]. assert (r ∈ Deduplicate (r :: roles)) as Hin by (rewrite Deduplicate_elem; by left).
    rewrite Hnil in Hin. by apply elem_of_nil in Hin.
  - intros role Hin. destruct (FetchRoles_elem _ _ _ _ Hset Hin) as [|(name & r & Hn & Hg & ->)]; [by left|right].
    exists name, r. split; [by apply (MapRoles_granted _ _ _ _ Hmap)|]. by split.
  - apply Htr, lookup_insert_eq.
  - by apply Htr.
  - by apply Htr.
  - by apply Htr.
  - by apply Htr.
  - done.
  - done.
  - destruct (AdjustSessionTTL_least set (time_Until now (Expires id))) as (Hle & _). lia.
  - intros role Hin Hz. destruct (AdjustSessionTTL_least set (time_Until now (Expires id))) as (_ & Hle & _).
    specialize (Hle role Hin Hz). lia.
Qed.

(** *** Quirks *)

(** Extra roles lift the restriction of the checker to some resources. *)
Lemma UseExtraRoles_unrestricted clusterName roles c c' :
  UseExtraRoles clusterName roles c = (Ok (), c') → RoleSet.AllowedResourceIDs (ctx_Checker c') = [].
Proof.
  unfold UseExtraRoles. destruct (NewAccessChecker _ _) as [checker|] eqn:E; [|done]. intros [= <-].
  by apply result_bind_Ok in E as (set & _ & [= <-]).
Qed.
(** The roles that a user of an old certificate is given are not among the
    targets of locks. *)
Lemma stored_roles_not_locked clusterName username id ctx :
  Identity.Groups id = [] → contextForLocalUser clusterName username id = Ok ctx →
  LockTargets ctx = append_unknown (LockTargetsFromTLSIdentity id) (LockTargetsFromTLSIdentity id) ∧
  ∀ role, role_target role ∈ LockTargets ctx → role = "".
Proof.
  intros Hg (? & _ & (? & _ & (? & _ & [= <-])%result_bind_Ok)%result_bind_Ok)%result_bind_Ok. split; [done|].
  intros role Hin. cbn -[LockTargetsFromTLSIdentity] in Hin. rewrite append_unknown_elem in Hin.
  assert (role_target role ∈ LockTargetsFromTLSIdentity id) as Hr by tauto. clear Hin.
  unfold LockTargetsFromTLSIdentity in Hr. rewrite Hg in Hr. cbn [RolesToLockTargets map app] in Hr.
  apply elem_of_cons in Hr as [[= _ ->]|[Hr|Hr]%elem_of_app]; [done| |].
  - destruct (String.eqb _ _); [by apply elem_of_nil in Hr|]. apply list_elem_of_singleton in Hr. by injection Hr.
  - apply list_elem_of_In, in_map_iff in Hr as (q & [= <- _] & _). done.
Qed.

(** ** Callers that are locked *)

Lemma Authorize_unlocked {R} `{LockResourceLaws R} t t' m now now' uuid clusterName clock order (p : lockCollector R) caller ctx :
  (∀ i, t ≤ clock i ≤ t')%Z → isStale p = false → agree t (current p) m →
  Authorize now now' uuid clusterName clock order p (Some caller) = Ok ctx →
  ∀ name l, m !! name = Some l → IsInForce t' l = true →
    ¬ locked_out l (GetIdentity caller) ∧ ¬ locked_out l (GetIdentity (ctx_Identity ctx)) ∧
    ∀ additional username cluster id, caller = BuiltinRole RoleNode additional username cluster id →
      lt_Node (lock_Target l) = "" ∨ lt_Node (lock_Target l) ≠ GetServerID cluster id.
Proof.
  intros Hclock Hs Ha (c & Hc & (authPref & _ & (Hl & (_ & [= <-])%result_check_Ok)%result_check_Ok)%result_bind_Ok)%result_bind_Ok
    name l Hname Hf.
  destruct (fromUser_caller _ _ _ _ _ _ Hc) as (Hun & _ & _ & Hbuiltin).
  pose proof (proj1 (CheckLockInForce_spec clock t t' order _ (LockTargets c) m p Hclock Hs Ha) Hl name l Hname Hf) as Hno.
  assert (∀ target, target ∈ LockTargets c → Target_Match target (lock_Target l) = true → False) as Hnone
    by (intros target Hin Hm; apply Hno; right; by exists target).
  split_and!.
  - intros (target & Hin & Hm)%locked_out_targets. apply (Hnone target); [|done]. apply LockTargets_elem. right. by rewrite Hun.
  - intros (target & Hin & Hm)%locked_out_targets. apply (Hnone target); [|done]. apply LockTargets_elem. by left.
  - intros additional username cluster id ->. destruct (decide (lt_Node (lock_Target l) = "")) as [|Hne]; [by left|right]. intros He.
    apply (Hnone (node_target (GetServerID cluster id))); [|by apply node_target_Match].
    eapply LockTargets_node; [by apply Hbuiltin|done].
Qed.

(** C15: a caller that a lock in force keeps out is not authorized: neither by its
    user, its roles, its device or its requests, before or after a remote user is
    mapped, nor by its node. The authorizer's watcher has fetched the locks that
    some first part of the changes of the store left in force, and has followed the
    events from anywhere before on. *)
Theorem locked_callers_refused {R} `{LockResourceLaws R} `{FilterOrder} `{TargetCodec}
    t0 t t' log m n locks events order hows (p : lockCollector R) :
  working p → (m ≤ n)%nat → (t0 ≤ t)%Z → fetched t0 (replay (take n log)) locks →
  Forall2 (fun e c => (e.1.1 ≤ t)%Z ∧ stands_for e.2 c) events (skipn m log) →
  ∃ p1 p2, getResourcesAndUpdateCurrent (Ok locks) order hows p = Some (Ok (), p1) ∧ follow events p1 = Some p2 ∧
    ∀ now now' uuid clusterName clock order' caller ctx, (∀ i, t ≤ clock i ≤ t')%Z →
      Authorize now now' uuid clusterName clock order' p2 (Some caller) = Ok ctx →
      ∀ name l, replay log !! name = Some l → IsInForce t' l = true →
        ¬ locked_out l (GetIdentity caller) ∧ ¬ locked_out l (GetIdentity (ctx_Identity ctx)) ∧
        ∀ additional username cluster id, caller = BuiltinRole RoleNode additional username cluster id →
          lt_Node (lock_Target l) = "" ∨ lt_Node (lock_Target l) ≠ GetServerID cluster id.
Proof.
  intros Hp Hmn Ht Hf Hev.
  destruct (fetch_view t t0 log n locks order hows p Ht Hp Hf) as (p1 & E1 & Hp1 & Hs1 & Ha1).
  destruct (follow_changes t events (skipn m log) (replay (take n log)) p1 Hp1 Ha1 Hev) as (p2 & E2 & _ & Hs2 & Ha2).
  exists p1, p2. split; [done|]. split; [done|]. intros now now' uuid clusterName clock order' caller ctx Hclock E.
  eapply Authorize_unlocked; [exact Hclock| | |exact E]; [congruence|].
  intros k l Hl. rewrite <- (replay_overlap log m n k Hmn). by apply Ha2.
Qed.
End authorizer.
