(* ===== verification/ServerActions.v ===== *)
(** * Checks of the auth server's calls (lib/auth/auth_with_roles.go)

    Each call of the API looks at the caller's context first: whether the rules of
    its roles allow some verbs on a kind of resource, or which builtin role it is. *)

From Stdlib Require Import Ascii String.
From S2P Require Import Prelude.
From S2P Require Import Labels.
From S2P Require Import Role.
From S2P Require Import Traits.
From S2P Require Import RoleSet.
From S2P Require Import RoleRules.
From S2P Require Import Identity.
From S2P Require Import Users.
From S2P Require Import AccessInfo.
From S2P Require Import SystemRoles.
From S2P Require Import BuiltinRoles.
From S2P Require Import Authorizer.
Local Open Scope string_scope.

(** The language of rules over the context that a clause reads: the user of the
    call, and what a call adds to it. The effects of actions are on a log. *)
Class RuleLanguage := {
  RuleCtx : Type;
  RuleLog : Type;
  rule_log : RuleLog;
  user_context : UserV2 → RuleCtx;
  NewWhereParser : RuleCtx → result (Parser RuleLog);
  NewActionsParser : RuleCtx → result (Parser RuleLog);
  NewParserForIdentifier : RuleCtx → string → result ExprParser
}.

Section actions.
Context `{RuleLanguage} `{GoSort}.
Implicit Types (a : Context).

Definition KindUser : string := "user".
Definition KindAuthConnector : string := "auth_connector".
Definition verb_create : string := "create".
Definition verb_read : string := "read".
Definition verb_list : string := "list".

Definition check_rule (a : Context) (ctx : RuleCtx) (namespace resource verb : string) : result unit :=
  (CheckAccessToRule (checker_RoleSet (ctx_Checker a)) (NewWhereParser ctx) (NewActionsParser ctx) namespace resource verb rule_log).1.
(** Every verb is checked, and any error is reported as a denial. *)
Definition actionWithContext (ctx : RuleCtx) (namespace resource : string) (verbs : list string) (a : Context) : result unit :=
  match verbs with
  | [] => Err (Error BadParameter "no verbs provided for authorization check on resource %q")
  | _ =>
      if forallb (fun verb => is_Ok (check_rule a ctx namespace resource verb)) verbs then Ok ()
      else Err (Error AccessDenied "err")
  end.
Definition action (namespace resource : string) (verbs : list string) (a : Context) : result unit :=
  actionWithContext (user_context (ctx_User a)) namespace resource verbs a.

Definition hasLocalUserRole (a : Context) : bool := match ctx_UnmappedIdentity a with LocalUser _ _ => true | _ => false end.
Definition hasRemoteUserRole (a : Context) : bool := match ctx_UnmappedIdentity a with RemoteUser _ _ _ => true | _ => false end.
Definition HasBuiltinRole (a : Context) (name : string) : bool :=
  match ctx_Identity a with BuiltinRole _ _ _ _ _ => HasRole (checker_RoleSet (ctx_Checker a)) name | _ => false end.
Definition hasBuiltinRole (a : Context) (roles : list SystemRole) : bool := existsb (HasBuiltinRole a) roles.
Definition HasRemoteBuiltinRole (a : Context) (name : string) : bool :=
  match ctx_UnmappedIdentity a with RemoteBuiltinRole _ _ _ _ => HasRole (checker_RoleSet (ctx_Checker a)) name | _ => false end.

Definition currentUserAction (username : string) (a : Context) : result unit :=
  if hasLocalUserRole a && String.eqb username (u_Name (ctx_User a)) then Ok () else
  check_rule a (user_context (ctx_User a)) defaults_Namespace KindUser verb_create.
Definition authConnectorAction (namespace resource verb : string) (a : Context) : result unit :=
  match check_rule a (user_context (ctx_User a)) namespace resource verb with
  | Ok _ => Ok ()
  | Err _ => check_rule a (user_context (ctx_User a)) namespace KindAuthConnector verb
  end.
(** The condition that restricts a list, when the plain check denies it. *)
Definition actionForListWithCondition (namespace resource identifier : string) (a : Context) : result (option WhereExpr) :=
  match action namespace resource [verb_list] a with
  | Ok _ => Ok None
  | Err origErr =>
      if negb (has_kind AccessDenied origErr) then Err origErr else
      match ExtractConditionForIdentifier (checker_RoleSet (ctx_Checker a))
              (NewParserForIdentifier (user_context (ctx_User a)) identifier) namespace resource verb_list with
      | Err e => if has_kind AccessDenied e then Err origErr else Err e
      | Ok cond => Ok cond
      end
  end.
(** A second check, with what the call adds to the context. *)
Definition actionWithExtendedContext (namespace kind verb : string) (extendContext : RuleCtx → result RuleCtx) (a : Context) : result unit :=
  match check_rule a (user_context (ctx_User a)) namespace kind verb with
  | Ok _ => Ok ()
  | Err origErr =>
      if negb (has_kind AccessDenied origErr) then Err origErr else
      match extendContext (user_context (ctx_User a)) with
      | Err _ => Err origErr
      | Ok ctx => check_rule a ctx namespace kind verb
      end
  end.
Definition serverAction (a : Context) : result unit :=
  match ctx_Identity a with
  | BuiltinRole role _ _ _ _ =>
      if IsServer role then Ok () else Err (Error AccessDenied "this request can be only executed by a teleport built-in server")
  | _ => Err (Error AccessDenied "this request can be only executed by a teleport built-in server")
  end.

Lemma action_Ok namespace resource verbs a : action namespace resource verbs a = Ok () ↔
  verbs ≠ [] ∧ ∀ verb, verb ∈ verbs → check_rule a (user_context (ctx_User a)) namespace resource verb = Ok ().
Proof.
  unfold action, actionWithContext. destruct verbs as [|v vs]; [split; [done|by intros []]|].
  destruct (forallb _ (v :: vs)) eqn:E.
  - split; [|done]. intros _. split; [done|]. intros verb Hin. rewrite forallb_elem in E. specialize (E verb Hin).
    destruct (check_rule _ _ _ _ _) as [[]|]; done.
  - split; [done|]. intros [_ Hall]. apply not_true_iff_false in E. destruct E. apply forallb_elem. intros verb Hin. by rewrite Hall.
Qed.
End actions.
