(* ===== verification/SSHLogin.v ===== *)
(** * Logins at SSH servers (lib/srv/authhandlers.go, api/utils/sshutils/checker.go, lib/sshutils/authority.go)

    A server checks that an authority of a known cluster signed the certificate
    that a client presents, and then what its roles allow. *)

From Stdlib Require Import Ascii String.
From S2P Require Import Prelude.
From S2P Require Import Rotation.
From S2P Require Import Keys.
From S2P Require Import Strconv.
From S2P Require Import GoSlice.
From S2P Require Import Labels.
From S2P Require Import Parse.
From S2P Require Import Role.
From S2P Require Import Traits.
From S2P Require Import RoleSet.
From S2P Require Import AccessRequest.
From S2P Require Import RequestValidator.
From S2P Require Import Identity.
From S2P Require Import Users.
From S2P Require Import AccessInfo.
From S2P Require Import Events.
From S2P Require Import Fanout.
From S2P Require Import FanoutSpec.
From S2P Require Import LockWatch.
From S2P Require Import SystemRoles.
From S2P Require Import BuiltinRoles.
From S2P Require Import Authorizer.
From S2P Require Import SSHCert.
Local Open Scope string_scope.

(** ** Keys and what checks them *)

(** What a client presents: a key or a certificate. *)
Inductive PublicKey `{SSHLib} := PlainKey (key : SSHKey) | CertKey (cert : Certificate SSHKey).
(** What is known of a key's algorithm. *)
Inductive Algorithm := UnknownAlgorithm | NotRSA | RSA (bits : Z).
Record Permissions := MkPermissions { perm_CriticalOptions : gmap string string; perm_Extensions : gmap string string }.
(** A connection: the login that is asked for and the address it comes from. *)
Record ConnMetadata := MkConn { conn_User : string; conn_RemoteAddr : string }.

(** The checker of the library. [permissions_shared] tells whether the permissions
    that it returns are the certificate's own maps. *)
Class SSHChecker `{SSHLib} := {
  Algorithm_of : SSHKey → Algorithm;
  cert_Algorithm : Certificate SSHKey → Algorithm;
  signature_valid : Certificate SSHKey → bool;
  permissions_shared : bool;
  ssh_Authenticate : (SSHKey → bool) → Z → ConnMetadata → PublicKey → result Permissions;
  ssh_CheckHostKey : (SSHKey → string → bool) → (string → SSHKey → result unit) → string → string → PublicKey → result unit
}.
(** What its documentation says: a user certificate is accepted only when it is
    one, signed by an authority, of the login and in time. *)
Class SSHCheckerLaws `{SSHChecker} : Prop := {
  Authenticate_checks isUserAuthority now conn cert perms :
    ssh_Authenticate isUserAuthority now conn (CertKey cert) = Ok perms →
    cert_Type cert = UserCert ∧ signature_valid cert = true ∧
    (∃ k, SignatureKey cert = Some k ∧ isUserAuthority k = true) ∧
    (ValidPrincipals cert ≠ [] → conn_User conn ∈ ValidPrincipals cert) ∧
    (ValidAfter cert ≤ time_unix now)%Z ∧
    (ValidBefore cert = CertTimeInfinity ∨ time_unix now < ValidBefore cert)%Z ∧
    perms = MkPermissions (CriticalOptions cert) (Extensions cert);
  CheckHostKey_plain isHostAuthority fallback addr remote key :
    ssh_CheckHostKey isHostAuthority fallback addr remote (PlainKey key) = fallback addr key
}.

(** What is known of a cluster: its name, its authority of users or hosts, and
    the roles its users get. *)
Record KnownAuthority := MkKnown { ka_ClusterName : string; ka_CA : CertAuthority; ka_Roles : UserAuthority }.
(** What a server reads; the reads of one login are numbered, and another call may
    change the store between two of them. *)
Class SSHAccessPoint := {
  lp_GetClusterName : nat → result string;
  lp_GetCertAuthorities : nat → string → result (list KnownAuthority);
  lp_GetAuthPreference : nat → result AuthPreference;
  lp_GetProxyChecksHostKeys : nat → result bool;
  lp_AppendDiagnosticTrace : nat → result unit
}.

Record AuthHandlers := MkHandlers { h_Component : string; h_FIPS : bool; h_Server : AccessCheckable }.

(** What the handlers send out: traces of a diagnosed connection, the audit event
    of a refused login, and the message for the system's audit. *)
Inductive TraceType := RBAC_NODE | RBAC_PRINCIPAL | CONNECTIVITY.
Inductive LoginEvent :=
  | DiagnosticTrace (id : string) (type : TraceType) (failed : bool)
  | AuthAttemptFailure (user login : string) (err : error)
  | AuditdUserErr (user login : string).
(** An answer with what was sent on the way. *)
Definition logged (A : Type) : Type := list LoginEvent * outcome A.

Definition RSAKeySize : Z := 2048.
Definition SSHSessionJoinPrincipal : string := "-teleport-internal-join".
Definition ComponentProxy : string := "proxy".
Definition ComponentForwardingNode : string := "node:forward".
Definition CertTeleportUser : string := "x-teleport-user".
Definition CertTeleportClusterName : string := "x-teleport-cluster-name".
Definition CertTeleportUserCertificate : string := "x-teleport-certificate".
Definition ExtIntCertType : string := "certtype@teleport".
Definition UserCA_type : string := "user".
Definition HostCA_type : string := "host".
Definition HasV5Role (roles : list Role) : bool := existsb (fun role => String.eqb (Version role) "v5") roles.

Section handlers.
Context `{SSHChecker} `{CertCodec} `{IdentityCodec} `{GoLibs} `{Regexp} `{ValidatorGetter} `{GoMapOrder} `{MapOrder}
  `{UnixUsers} `{SSHAccessPoint}.

(** ** The library's checker, with the algorithms of FIPS *)

Definition validateFIPSAlgorithm (a : Algorithm) : result unit :=
  match a with
  | UnknownAlgorithm => Err (Error BadParameter "unable to determine underlying public key")
  | NotRSA => Err (Error BadParameter "only RSA keys supported")
  | RSA bits => if (bits =? RSAKeySize)%Z then Ok () else Err (Error BadParameter "found %v-bit key, only %v-bit supported")
  end.
Definition algorithm_of_key (k : option SSHKey) : Algorithm :=
  match k with Some k => Algorithm_of k | None => UnknownAlgorithm end.
Definition validateFIPS (fips : bool) (key : PublicKey) : result unit :=
  if negb fips then Ok () else
  match key with
  | CertKey cert =>
      _ ← validateFIPSAlgorithm (Algorithm_of (cert_Key cert));
      validateFIPSAlgorithm (algorithm_of_key (SignatureKey cert))
  | PlainKey key => validateFIPSAlgorithm (Algorithm_of key)
  end.
Definition Authenticate (fips : bool) (isUserAuthority : SSHKey → bool) (now : Z) (conn : ConnMetadata) (key : PublicKey)
    : result Permissions :=
  _ ← validateFIPS fips key; ssh_Authenticate isUserAuthority now conn key.
Definition CheckHostKey (fips : bool) (isHostAuthority : SSHKey → string → bool) (fallback : string → SSHKey → result unit)
    (addr remote : string) (key : PublicKey) : result unit :=
  _ ← validateFIPS fips key; ssh_CheckHostKey isHostAuthority fallback addr remote key.

(** ** The authority of a certificate *)

Definition KeysEqual (ak bk : SSHKey) : bool := bool_decide (key_Marshal ak = key_Marshal bk).
Fixpoint GetCheckers_loop (pairs : list SSHKeyPair) : result (list SSHKey) :=
  match pairs with
  | [] => Ok []
  | kp :: pairs =>
      match SSHCert.ParseAuthorizedKey (ssh_PublicKey kp) with
      | Err _ => Err (Error BadParameter "invalid authority public key (len=%d): %v")
      | Ok key => rest ← GetCheckers_loop pairs; Ok (key :: rest)
      end
  end.
Definition GetCheckers (ca : CertAuthority) : result (list SSHKey) := GetCheckers_loop (GetTrustedSSHKeyPairs ca).

(** The key that is compared with the ones of the authorities; a certificate
    without a signature has none. *)
Definition compared_key (key : PublicKey) : option SSHKey :=
  match key with PlainKey key => Some key | CertKey cert => SignatureKey cert end.
(** No break leaves the loops, so the last authority of the key is found. *)
Fixpoint match_checkers (key : option SSHKey) (candidate : KnownAuthority) (checkers : list SSHKey) (ca : option KnownAuthority)
    : option (option KnownAuthority) :=
  match checkers with
  | [] => Some ca
  | checker :: checkers =>
      match key with
      | None => None
      | Some k => match_checkers key candidate checkers (if KeysEqual k checker then Some candidate else ca)
      end
  end.
Fixpoint match_authorities (key : option SSHKey) (cas : list KnownAuthority) (ca : option KnownAuthority)
    : outcome (option KnownAuthority) :=
  match cas with
  | [] => done ca
  | candidate :: cas =>
      checkers ⇐ Some (GetCheckers (ka_CA candidate));
      match match_checkers key candidate checkers ca with
      | None => None
      | Some ca => match_authorities key cas ca
      end
  end.
Definition authorityForCert (n : nat) (caType : string) (key : option SSHKey) : outcome KnownAuthority :=
  cas ⇐ Some (lp_GetCertAuthorities n caType);
  ca ⇐ match_authorities key cas None;
  match ca with
  | None => fails AccessDenied "the certificate signed by untrusted CA"
  | Some ca => done ca
  end.
Definition succeeds {A} (o : outcome A) : bool := match o with Some (Ok _) => true | _ => false end.
Definition IsUserAuthority (n : nat) (cert : SSHKey) : bool := succeeds (authorityForCert n UserCA_type (Some cert)).
Definition IsHostAuthority (n : nat) (cert : SSHKey) (address : string) : bool :=
  succeeds (authorityForCert n HostCA_type (Some cert)).

Definition hostKeyCallback (n : nat) (hostname : string) (key : SSHKey) : result unit :=
  checks ← lp_GetProxyChecksHostKeys n;
  if (checks : bool) then Err (Error AccessDenied "remote host presented a public key, expected a host certificate") else Ok ().
Definition HostKeyAuth (h : AuthHandlers) (addr remote : string) (key : PublicKey) : result unit :=
  CheckHostKey (h_FIPS h) (IsHostAuthority 0) (hostKeyCallback 1) addr remote key.

(** ** What the roles allow *)

Definition fetchAccessInfo (cert : Certificate SSHKey) (ca : KnownAuthority) (clusterName : string) : result AccessInfo :=
  if String.eqb clusterName (ka_ClusterName ca) then AccessInfoFromLocalCertificate cert
  else AccessInfoFromRemoteCertificate cert (CombinedMapping (ka_Roles ca)).
Definition canLoginWithoutRBAC (cert : Certificate SSHKey) : outcome unit :=
  _ ⇐ authorityForCert 1 UserCA_type (SignatureKey cert); done ().
Definition canLoginWithRBAC (h : AuthHandlers) (cert : Certificate SSHKey) (clusterName osUser : string) : outcome unit :=
  ca ⇐ authorityForCert 1 UserCA_type (SignatureKey cert);
  accessInfo ⇐ Some (fetchAccessInfo cert ca clusterName);
  accessChecker ⇐ Some (NewAccessChecker accessInfo clusterName);
  if String.eqb osUser SSHSessionJoinPrincipal && HasV5Role (checker_RoleSet accessChecker) then done () else
  ap ⇐ Some (lp_GetAuthPreference 0);
  let params := MFAParams (checker_RoleSet accessChecker) (pref_RequireMFAType ap) in
  let mfaParams := MkMFAParams (Required params) (bool_decide (is_Some (Extensions cert !! "mfa-verified"))) in
  match CheckAccess accessChecker (h_Server h) mfaParams [NewLoginMatcher osUser] with
  | Ok _ => done ()
  | Err _ => fails AccessDenied "user %s@%s is not authorized to login as %v@%s: %v"
  end.

(** ** A login *)

Definition diagnostic_events (id : string) (type : TraceType) (failed : bool) : list LoginEvent :=
  if String.eqb id "" then [] else [DiagnosticTrace id type failed].
Definition maybeAppendDiagnosticTrace (n : nat) (id : string) : result unit :=
  if String.eqb id "" then Ok () else lp_AppendDiagnosticTrace n.
(** What is sent for a refused login; its own failures are only logged. *)
Definition recordFailedLogin (id teleportUser login : string) (err : error) : list LoginEvent :=
  (diagnostic_events id (if has_kind AccessDenied err then RBAC_NODE else RBAC_PRINCIPAL) true ++
   [AuthAttemptFailure teleportUser login err; AuditdUserErr teleportUser login])%list.
(** The traces of an accepted login: the first that fails ends it. *)
Fixpoint append_traces (n : nat) (id : string) (types : list TraceType) : list LoginEvent * result unit :=
  match types with
  | [] => ([], Ok ())
  | type :: types =>
      match maybeAppendDiagnosticTrace n id with
      | Err e => (diagnostic_events id type false, Err e)
      | Ok _ => let '(events, r) := append_traces (S n) id types in ((diagnostic_events id type false ++ events)%list, r)
      end
  end.

(** The certificate, with the extensions written through the shared permissions. *)
Definition with_extensions (es : gmap string string) (cert : Certificate SSHKey) : Certificate SSHKey :=
  MkCertificate (KeyId cert) (ValidPrincipals cert) (cert_Key cert) (ValidAfter cert) (ValidBefore cert) (cert_Type cert)
    (CriticalOptions cert) es (SignatureKey cert).
Definition shared (es : gmap string string) (cert : Certificate SSHKey) : Certificate SSHKey :=
  if permissions_shared then with_extensions es cert else cert.
Definition cert_text (cert : Certificate SSHKey) : string := string_of_bytes (MarshalAuthorizedKey cert).
Definition login_permissions (perms : Permissions) (cert : Certificate SSHKey) (clusterName : string) : Permissions * Certificate SSHKey :=
  let es := <[ CertTeleportClusterName := clusterName ]> (<[ CertTeleportUser := KeyId cert ]> (perm_Extensions perms)) in
  let cert := shared es cert in
  let es := <[ CertTeleportUserCertificate := cert_text cert ]> es in
  let es := <[ ExtIntCertType := match cert_Type cert with UserCert => "user" | HostCert => "host" end ]> es in
  (MkPermissions (perm_CriticalOptions perms) es, shared es cert).

Definition UserKeyAuth (h : AuthHandlers) (now : Z) (conn : ConnMetadata) (key : PublicKey) : logged Permissions :=
  match key with
  | PlainKey _ => ([], fails BadParameter "unsupported key type: %v")
  | CertKey cert =>
      if (length (ValidPrincipals cert) =? 0)%nat then ([], fails BadParameter "need a valid principal for key %v") else
      if String.eqb (KeyId cert) "" then ([], fails BadParameter "need a valid key for key %v") else
      let teleportUser := KeyId cert in
      let id := default "" (Extensions cert !! "teleport-connection-diagnostic-id") in
      match Authenticate (h_FIPS h) (IsUserAuthority 0) now conn key with
      | Err e => (recordFailedLogin id teleportUser (conn_User conn) e, Some (Err e))
      | Ok permissions =>
          match lp_GetClusterName 0 with
          | Err e => ([], Some (Err e))
          | Ok clusterName =>
              let '(permissions, cert) := login_permissions permissions cert clusterName in
              if String.eqb (h_Component h) ComponentProxy then ([], done permissions) else
              match (if String.eqb (h_Component h) ComponentForwardingNode then canLoginWithoutRBAC cert
                     else canLoginWithRBAC h cert clusterName (conn_User conn)) with
              | None => ([], None)
              | Some (Err e) => (recordFailedLogin id teleportUser (conn_User conn) e, Some (Err e))
              | Some (Ok _) =>
                  let '(events, r) := append_traces 0 id [RBAC_NODE; CONNECTIVITY; RBAC_PRINCIPAL] in
                  (events, match r with Ok _ => done permissions | Err e => Some (Err e) end)
              end
          end
      end
  end.

(** ** The context of a connection *)

Record IdentityContext := MkIdentityContext {
  ic_TeleportUser : string; ic_Impersonator : string; ic_Login : string; ic_Certificate : Certificate SSHKey;
  ic_CertAuthority : KnownAuthority; ic_AccessChecker : accessChecker; ic_UnmappedRoles : list string;
  ic_CertValidBefore : option Z; ic_RouteToCluster : string; ic_ActiveRequests : list string; ic_DisallowReissue : bool;
  ic_Renewable : bool; ic_Generation : Z; ic_AllowedResourceIDs : list ResourceID
}.
(** The seconds of [time.Unix(int64(v), 0)]. *)
Definition int64_of (v : Z) : Z := if (v <? 2 ^ 63)%Z then v else (v - 2 ^ 64)%Z.
Definition extension (cert : Certificate SSHKey) (name : string) : string := default "" (Extensions cert !! name).
Definition has_extension (cert : Certificate SSHKey) (name : string) : bool := bool_decide (is_Some (Extensions cert !! name)).
Definition CreateIdentityContext (user : string) (permissions : Permissions) : outcome IdentityContext :=
  let teleportUser := default "" (perm_Extensions permissions !! CertTeleportUser) in
  clusterName ⇐ Some (lp_GetClusterName 1);
  certificate ⇐ Some (ParseCertificate (bytes_of_string (default "" (perm_Extensions permissions !! CertTeleportUserCertificate))));
  certAuthority ⇐ authorityForCert 2 UserCA_type (SignatureKey certificate);
  unmappedRoles ⇐ Some (ExtractRolesFromCert certificate);
  accessInfo ⇐ Some (fetchAccessInfo certificate certAuthority clusterName);
  accessChecker ⇐ Some (NewAccessChecker accessInfo clusterName);
  accessRequestIDs ⇐ Some (parseAccessRequestIDs (extension certificate "teleport-active-requests"));
  generation ⇐ Some (match Extensions certificate !! "generation" with
                     | None => Ok 0%Z
                     | Some s => ParseUint (bytes_of_string s)
                     end);
  allowedResourceIDs ⇐ Some (match Extensions certificate !! "teleport-allowed-resources" with
                             | None => Ok (ai_AllowedResourceIDs accessInfo)
                             | Some s => ResourceIDsFromString s
                             end);
  done (MkIdentityContext teleportUser (extension certificate "impersonator") user certificate certAuthority accessChecker
          unmappedRoles (if (ValidBefore certificate =? 0)%Z then None else Some (int64_of (ValidBefore certificate)))
          (extension certificate "teleport-route-to-cluster") accessRequestIDs (has_extension certificate "disallow-reissue")
          (has_extension certificate "renewable") generation allowedResourceIDs).
End handlers.

(** ** What a login shows *)
Section logins.
Context `{SSHLibLaws} `{!SSHChecker} `{!SSHCheckerLaws} `{CertCodecLaws} `{!IdentityCodecLaws} `{Modules} `{GoLibs} `{Regexp}
  `{ValidatorGetter} `{GoMapOrder} `{MapOrder} `{UnixUsers} `{SSHAccessPoint}.

(** An authority trusts a key. *)
Definition trusts_key (ca : KnownAuthority) (k : SSHKey) : Prop :=
  ∃ kp checker, kp ∈ GetTrustedSSHKeyPairs (ka_CA ca) ∧ SSHCert.ParseAuthorizedKey (ssh_PublicKey kp) = Ok checker ∧
    KeysEqual k checker = true.

Lemma GetCheckers_elem pairs checkers checker : GetCheckers_loop pairs = Ok checkers →
  checker ∈ checkers ↔ ∃ kp, kp ∈ pairs ∧ SSHCert.ParseAuthorizedKey (ssh_PublicKey kp) = Ok checker.
Proof.
  revert checkers. induction pairs as [|kp pairs IH]; intros checkers; cbn [GetCheckers_loop].
  { intros [= <-]. split; [by intros ?%elem_of_nil|by intros (? & ?%elem_of_nil & _)]. }
  destruct (SSHCert.ParseAuthorizedKey _) as [key|] eqn:E; [|done]. intros (rest & Hrest & [= <-])%result_bind_Ok.
  rewrite exists_cons_iff, elem_of_cons, (IH _ Hrest), E. split; intros [?|?]; [left|by right|left|by right]; congruence.
Qed.
Lemma match_checkers_found k candidate checkers ca ca' : match_checkers (Some k) candidate checkers ca = Some ca' →
  ca' = ca ∨ ca' = Some candidate ∧ ∃ checker, checker ∈ checkers ∧ KeysEqual k checker = true.
Proof.
  revert ca. induction checkers as [|checker checkers IH]; intros ca; cbn [match_checkers]; [intros [= ->]; by left|].
  rewrite exists_cons_iff. intros [->|[-> ?]]%IH; [|by auto]. destruct (KeysEqual k checker) eqn:E; auto.
Qed.
Lemma match_authorities_found k cas ca0 ca : match_authorities (Some k) cas ca0 = done (Some ca) →
  ca0 = Some ca ∨ ca ∈ cas ∧ trusts_key ca k.
Proof.
  revert ca0. induction cas as [|candidate cas IH]; intros ca0; cbn [match_authorities]; [intros [= ->]; by left|].
  intros (checkers & [= Hcheckers] & Hrest)%attempt_Ok. destruct (match_checkers _ _ _ _) as [ca1|] eqn:E; [|done].
  apply IH in Hrest as [->|[Hin Hk]]; [|right; by split; [right|]].
  apply match_checkers_found in E as [<-|[[= ->] (checker & Hc & Hk)]]; [by left|right]. split; [by left|].
  apply (GetCheckers_elem _ _ _ Hcheckers) in Hc as (kp & ? & ?). by exists kp, checker.
Qed.
(** The authority that is found is known and trusts the key. *)
Lemma authorityForCert_trusts n caType key ca : authorityForCert n caType key = done ca →
  ∃ cas, lp_GetCertAuthorities n caType = Ok cas ∧ ca ∈ cas ∧ ∀ k, key = Some k → trusts_key ca k.
Proof.
  unfold authorityForCert, done. intros (cas & [= Hcas] & (found & Hm & Hf)%attempt_Ok)%attempt_Ok. destruct found as [ca'|]; [|done]. injection Hf as ->.
  exists cas. split; [done|]. destruct key as [k|].
  - apply match_authorities_found in Hm as [|[Hin Hk]]; [done|]. split; [done|]. by intros ? [= <-].
  - split; [|done]. assert (∀ ca0, match_authorities None cas ca0 = done (Some ca) → ca0 = Some ca ∨ ca ∈ cas) as Hn.
    { clear. induction cas as [|candidate cas IH]; intros ca0; cbn [match_authorities]; [intros [= ->]; by left|].
      intros (checkers & _ & Hrest)%attempt_Ok. destruct checkers; cbn [match_checkers] in Hrest; [|done].
      apply IH in Hrest as [?|?]; [by left|right; by right]. }
    by apply Hn in Hm as [|].
Qed.
(** A plain key never makes the search panic. *)
Lemma authorityForCert_total n caType k : authorityForCert n caType (Some k) ≠ None.
Proof.
  unfold authorityForCert. destruct (lp_GetCertAuthorities n caType) as [cas|]; cbn [attempt]; [|done].
  assert (∀ ca0, ∃ r, match_authorities (Some k) cas ca0 = Some r) as Hm.
  { induction cas as [|candidate cas IH]; intros ca0; cbn [match_authorities]; [by eexists|].
    destruct (GetCheckers _) as [checkers|]; cbn [attempt]; [|by eexists].
    assert (∀ ca, ∃ ca', match_checkers (Some k) candidate checkers ca = Some ca') as Hc.
    { clear. induction checkers as [|checker checkers IH]; intros ca; cbn [match_checkers]; [by eexists|apply IH]. }
    destruct (Hc ca0) as (ca' & ->). apply IH. }
  destruct (Hm None) as (r & ->). destruct r as [[ca|]|]; done.
Qed.
Lemma IsUserAuthority_trusts n k : IsUserAuthority n k = true →
  ∃ cas ca, lp_GetCertAuthorities n UserCA_type = Ok cas ∧ ca ∈ cas ∧ trusts_key ca k.
Proof.
  unfold IsUserAuthority, succeeds. destruct (authorityForCert _ _ _) as [[ca|]|] eqn:E; [|done..]. intros _.
  apply authorityForCert_trusts in E as (cas & ? & ? & Hk). exists cas, ca. auto.
Qed.

(** The server is one of the resources that a certificate is restricted to. *)
Definition resource_allowed (ids : list ResourceID) (clusterName : string) (server : AccessCheckable) : Prop :=
  ids = [] ∨ ∃ id, id ∈ ids ∧ rid_ClusterName id = clusterName ∧ rid_Kind id = ac_Kind server ∧ rid_Name id = ac_Name server.
Lemma checkAllowedResources_Ok ids clusterName set server :
  checkAllowedResources (RoleSet.MkChecker ids clusterName set) server = Ok () ↔ resource_allowed ids clusterName server.
Proof.
  unfold checkAllowedResources, resource_allowed. cbn [RoleSet.AllowedResourceIDs localCluster]. destruct ids as [|id ids].
  { split; [by left|done]. }
  match goal with |- context [existsb ?f ?l] => pose proof (existsb_elem f l) as E; destruct (existsb f l) end;
    setoid_rewrite andb_true_iff in E; setoid_rewrite andb_true_iff in E; setoid_rewrite String.eqb_eq in E.
  - split; [|done]. intros _. right. destruct E as [E _]. destruct (E eq_refl) as (x & ? & [? ?] & ?). by exists x.
  - split; [done|]. intros [|(x & Hin & ? & ? & ?)]; [done|]. destruct E as [_ E]. discriminate E. by exists x.
Qed.

(** What roles that let a user log in have decided: none of them denies the
    server, one allows it with the login, and a device was verified unless neither
    the cluster nor that role asks for one, or a touch of the key takes its place. *)
Definition roles_allow (set : RoleSet) (pref : MFAType) (server : AccessCheckable) (login : string) (device : Prop) : Prop :=
  ∃ get, getRoleLabels (ac_Kind server) = Some get ∧
    (∀ role, role ∈ set → denies get server [NewLoginMatcher login] role = Ok false) ∧
    ∃ role, role ∈ set ∧ allows get server [NewLoginMatcher login] role = Ok true ∧
      (device ∨ touch_required set pref ∨ IsSessionMFARequired pref = false ∧ role_mfa role = false).
Lemma checkAccess_roles_allow set pref server login verified (device : Prop) : (verified = true → device) →
  checkAccess set server (MkMFAParams (Required (MFAParams set pref)) verified) [NewLoginMatcher login] = Ok () →
  roles_allow set pref server login device.
Proof.
  intros Hv (get & Hget & Hd & role & Hin & Ha & Hm)%checkAccess_grants. exists get. split_and!; [done..|]. exists role.
  split_and!; [done..|]. cbn [Verified Required] in Hm.
  destruct (MFAParams_cases set pref) as [[Ht E]|[Ht [[Hp E]|[Hp [[E Hall]|[[E Hall]|E]]]]]]; rewrite E in Hm;
    destruct Hm as [?|[?|[? ?]]]; try done; auto.
Qed.

(** A login that [canLoginWithRBAC] allows. *)
Lemma canLoginWithRBAC_allows h cert clusterName login : canLoginWithRBAC h cert clusterName login = done () →
  ∃ cas ca info set, lp_GetCertAuthorities 1 UserCA_type = Ok cas ∧ ca ∈ cas ∧
    (∀ k, SignatureKey cert = Some k → trusts_key ca k) ∧ fetchAccessInfo cert ca clusterName = Ok info ∧
    FetchRoles (ai_Roles info) (ai_Traits info) = Ok set ∧
    (login = SSHSessionJoinPrincipal ∧ HasV5Role set = true ∨
     resource_allowed (ai_AllowedResourceIDs info) clusterName (h_Server h) ∧
     ∃ ap, lp_GetAuthPreference 0 = Ok ap ∧
       roles_allow set (pref_RequireMFAType ap) (h_Server h) login (is_Some (Extensions cert !! "mfa-verified"))).
Proof.
  unfold canLoginWithRBAC, done. intros (ca & Hca & (info & [= Hinfo] & (checker & [= Hc] & Hrest)%attempt_Ok)%attempt_Ok)%attempt_Ok.
  apply authorityForCert_trusts in Hca as (cas & Hcas & Hin & Hk).
  apply result_bind_Ok in Hc as (set & Hset & [= <-]). exists cas, ca, info, set. split_and!; [done..|].
  cbn [NewAccessCheckerWithRoleSet checker_RoleSet] in Hrest. destruct (_ && _) eqn:Hj.
  { left. by apply andb_true_iff in Hj as [->%String.eqb_eq ?]. }
  right. apply attempt_Ok in Hrest as (ap & [= Hap] & Hrest). unfold CheckAccess in Hrest.
  destruct (checkAllowedResources _ _) as [[]|] eqn:Hr; [|done]. apply checkAllowedResources_Ok in Hr. split; [done|].
  exists ap. split; [done|]. cbn [NewAccessCheckerWithRoleSet checker_RoleSet] in Hrest.
  destruct (checkAccess _ _ _ _) as [[]|] eqn:E; [|done]. eapply checkAccess_roles_allow; [|exact E]. apply bool_decide_eq_true_1.
Qed.

(** The certificate that is looked at after the permissions were written differs
    only in extensions of the connection. *)
Lemma login_permissions_shows perms cert clusterName perms' cert' : login_permissions perms cert clusterName = (perms', cert') →
  perm_Extensions perms = Extensions cert →
  (∃ es, cert' = with_extensions es cert) ∧
  (∀ k, k ∉ [CertTeleportUser; CertTeleportClusterName; CertTeleportUserCertificate; ExtIntCertType] →
    Extensions cert' !! k = Extensions cert !! k).
Proof.
  unfold login_permissions, shared. intros Hp Hes. rewrite Hes in Hp. destruct permissions_shared; injection Hp as _ <-.
  - split; [by eexists|]. intros k Hk. cbn [with_extensions Extensions]. rewrite !lookup_insert_ne; [done|set_solver..].
  - split; [|done]. exists (Extensions cert). by destruct cert.
Qed.
Lemma fetchAccessInfo_ext cert cert' ca clusterName : ValidPrincipals cert' = ValidPrincipals cert →
  (∀ k, k ∈ ["teleport-traits"; "teleport-roles"; "teleport-allowed-resources"] → Extensions cert' !! k = Extensions cert !! k) →
  fetchAccessInfo cert' ca clusterName = fetchAccessInfo cert ca clusterName.
Proof.
  intros Hp Hext. unfold fetchAccessInfo, AccessInfoFromLocalCertificate, AccessInfoFromRemoteCertificate, ExtractTraitsFromCert,
    ExtractRolesFromCert, ExtractAllowedResourcesFromCert. by rewrite Hp, !Hext by set_solver.
Qed.

(** What an accepted login at a server with roles shows of any certificate. *)
Lemma UserKeyAuth_accepts h now conn cert events perms :
  h_Component h ≠ ComponentProxy → h_Component h ≠ ComponentForwardingNode →
  UserKeyAuth h now conn (CertKey cert) = (events, done perms) →
  cert_Type cert = UserCert ∧ signature_valid cert = true ∧ conn_User conn ∈ ValidPrincipals cert ∧
  (ValidAfter cert ≤ time_unix now)%Z ∧ (ValidBefore cert = CertTimeInfinity ∨ time_unix now < ValidBefore cert)%Z ∧
  ∃ clusterName cas ca k info set, lp_GetClusterName 0 = Ok clusterName ∧ lp_GetCertAuthorities 1 UserCA_type = Ok cas ∧ ca ∈ cas ∧
    SignatureKey cert = Some k ∧ trusts_key ca k ∧ fetchAccessInfo cert ca clusterName = Ok info ∧
    FetchRoles (ai_Roles info) (ai_Traits info) = Ok set ∧
    (conn_User conn = SSHSessionJoinPrincipal ∧ HasV5Role set = true ∨
     resource_allowed (ai_AllowedResourceIDs info) clusterName (h_Server h) ∧
     ∃ ap, lp_GetAuthPreference 0 = Ok ap ∧
       roles_allow set (pref_RequireMFAType ap) (h_Server h) (conn_User conn) (is_Some (Extensions cert !! "mfa-verified"))).
Proof.
  intros Hproxy Hfwd. unfold UserKeyAuth. destruct (length (ValidPrincipals cert) =? 0)%nat eqn:Hp; [done|].
  destruct (String.eqb (KeyId cert) ""); [done|]. cbv zeta.
  destruct (Authenticate _ _ _ _ _) as [permissions|] eqn:Ha; [|done]. apply result_bind_Ok in Ha as ([] & _ & Ha).
  apply Authenticate_checks in Ha as (Htype & Hsig & (k & Hk & _) & Hlogin & Hafter & Hbefore & ->).
  destruct (lp_GetClusterName 0) as [clusterName|]; [|done].
  destruct (login_permissions _ _ _) as [perms1 cert1] eqn:E. apply login_permissions_shows in E as [(es & ->) Hext]; [|done].
  rewrite (proj2 (String.eqb_neq _ _) Hproxy), (proj2 (String.eqb_neq _ _) Hfwd).
  destruct (canLoginWithRBAC _ _ _ _) as [[[]|]|] eqn:Hc; [|done..]. intros _.
  apply canLoginWithRBAC_allows in Hc as (cas & ca & info & set & Hcas & Hin & Hkey & Hinfo & Hset & Hd).
  rewrite (fetchAccessInfo_ext cert) in Hinfo; [|done|intros name Hname; apply Hext; set_solver].
  rewrite Hext in Hd by set_solver. split_and!; [done|done| |done|done|].
  { apply Hlogin. intros Hn. by rewrite Hn in Hp. }
  exists clusterName, cas, ca, k, info, set. split_and!; try done. by apply Hkey.
Qed.

(** C5: a login at a server is what the issued certificate and the roles allow. A
    certificate of the standard format that the cluster's own authority signed lets
    its bearer in only as one of the logins it was issued for and in time, with no
    more than the roles, traits and resources it was issued with: no role denies
    the server, one allows it with the login, and the certificate was issued with a
    verified device unless neither the cluster nor that role asks for one, or a
    touch of the key replaces it. The login for joining sessions, which every
    certificate has, skips all this for users with a role of version 5; and no
    extension that the roles add has the name of the program's own. *)
Theorem node_login_safe h now conn tnow tnow' c cert ids events perms :
  GenerateUserCertWithoutValidation tnow tnow' c = done cert → p_CertificateFormat c = CertificateFormatStandard →
  p_Roles c ≠ [] → Forall utf8 (p_Roles c) → traits_utf8 (p_Traits c) → Forall readable_id ids →
  ResourceIDsToString ids = Ok (p_AllowedResourceIDs c) →
  untaken (p_CertificateExtensions c) "teleport-allowed-resources" → untaken (p_CertificateExtensions c) "mfa-verified" →
  (∀ cas ca k, lp_GetCertAuthorities 1 UserCA_type = Ok cas → ca ∈ cas → SignatureKey cert = Some k → trusts_key ca k →
     lp_GetClusterName 0 = Ok (ka_ClusterName ca)) →
  h_Component h ≠ ComponentProxy → h_Component h ≠ ComponentForwardingNode →
  UserKeyAuth h now conn (CertKey cert) = (events, done perms) →
  conn_User conn ∈ p_AllowedLogins c ∧
  (p_TTL c = 0 ∨ u64 (time_unix (tnow + p_TTL c)) = CertTimeInfinity ∨ time_unix now < u64 (time_unix (tnow + p_TTL c)))%Z ∧
  ∃ clusterName set, lp_GetClusterName 0 = Ok clusterName ∧ FetchRoles (p_Roles c) (p_Traits c) = Ok set ∧
    (conn_User conn = SSHSessionJoinPrincipal ∧ HasV5Role set = true ∨
     resource_allowed ids clusterName (h_Server h) ∧
     ∃ ap, lp_GetAuthPreference 0 = Ok ap ∧
       roles_allow set (pref_RequireMFAType ap) (h_Server h) (conn_User conn) (p_MFAVerified c ≠ "")).
Proof.
  intros Hc Hf Hne Hroles Htraits Hids Hstr Hun1 Hun2 Hlocal Hproxy Hfwd Hu.
  apply UserKeyAuth_accepts in Hu as (_ & _ & Hlogin & _ & Hbefore & clusterName & cas & ca & k & info & set & Hcn & Hcas & Hin & Hk &
    Htrust & Hinfo & Hset & Hd); [|done..].
  pose proof (certificate_says _ _ _ _ Hc) as (signer & m & _ & _ & _ & Hprincipals & _ & Hvalid & _).
  rewrite Hprincipals in Hlogin. rewrite Hvalid in Hbefore.
  assert (clusterName = ka_ClusterName ca) as -> by (pose proof (Hlocal _ _ _ Hcas Hin Hk Htrust) as E; congruence).
  unfold fetchAccessInfo in Hinfo. rewrite String.eqb_refl in Hinfo.
  rewrite (AccessInfo_read_back _ _ _ _ _ Hc Hf Hne Hroles Htraits Hids Hstr Hun1) in Hinfo. injection Hinfo as <-.
  rewrite (mfa_read_back _ _ _ _ Hc Hun2) in Hd. cbn [ai_Roles ai_Traits ai_AllowedResourceIDs] in *.
  split_and!; [done| |].
  { destruct (p_TTL c =? 0)%Z eqn:E; [left; by apply Z.eqb_eq|right; done]. }
  exists (ka_ClusterName ca), set. split_and!; [done..|]. destruct Hd as [?|(Hr & ap & Hap & Hallow)]; [by left|right].
  split; [done|]. exists ap. split; [done|]. destruct (String.eqb_spec (p_MFAVerified c) "") as [E|E] in Hallow.
  - destruct Hallow as (get & Hget & Hdeny & role & Hrole & Ha & [[x Hx]|Hm]); [done|]. exists get. split_and!; [done..|].
    exists role. auto.
  - destruct Hallow as (get & Hget & Hdeny & role & Hrole & Ha & _). exists get. split_and!; [done..|]. exists role. auto.
Qed.

(** The context of a connection is that of the certificate that was accepted. *)
Lemma identity_context_of_login h now conn cert events perms ic :
  UserKeyAuth h now conn (CertKey cert) = (events, done perms) → CreateIdentityContext (conn_User conn) perms = done ic →
  ic_TeleportUser ic = KeyId cert ∧ ic_Login ic = conn_User conn ∧ (∃ es, ic_Certificate ic = with_extensions es cert) ∧
  ic_UnmappedRoles ic = match ExtractRolesFromCert cert with Ok roles => roles | Err _ => [] end ∧
  ∃ clusterName ca info, lp_GetClusterName 1 = Ok clusterName ∧ ic_CertAuthority ic = ca ∧ fetchAccessInfo cert ca clusterName = Ok info ∧
    NewAccessChecker info clusterName = Ok (ic_AccessChecker ic).
Proof.
  unfold UserKeyAuth. destruct (length _ =? 0)%nat; [done|]. destruct (String.eqb (KeyId cert) ""); [done|]. cbv zeta.
  destruct (Authenticate _ _ _ _ _) as [permissions|] eqn:Ha; [|done]. apply result_bind_Ok in Ha as ([] & _ & Ha).
  apply Authenticate_checks in Ha as (_ & _ & _ & _ & _ & _ & ->).
  destruct (lp_GetClusterName 0) as [clusterName0|]; [|done].
  destruct (login_permissions _ _ _) as [perms1 cert1] eqn:E. intros Hu Hc.
  assert (perms1 = perms) as ->.
  { destruct (String.eqb (h_Component h) ComponentProxy); [by injection Hu|].
    destruct (if String.eqb _ _ then _ else _) as [[[]|]|]; [|done..]. destruct (append_traces _ _ _) as [? [[]|]]; [|done].
    by injection Hu. }
  clear Hu. unfold CreateIdentityContext, done in Hc. injection E as <- _. cbn [perm_Extensions] in Hc.
  rewrite !(lookup_insert_ne _ ExtIntCertType) in Hc by done. rewrite lookup_insert_eq in Hc.
  rewrite (lookup_insert_ne _ CertTeleportUserCertificate CertTeleportUser) in Hc by done.
  rewrite (lookup_insert_ne _ CertTeleportClusterName CertTeleportUser) in Hc by done. rewrite lookup_insert_eq in Hc.
  cbn [default from_option id] in Hc. unfold cert_text in Hc.
  rewrite bytes_of_string_of_bytes, certificate_read_back in Hc by apply certificate_text.
  set (es := <[ CertTeleportClusterName := _ ]> _) in Hc.
  assert (∃ es', shared es cert = with_extensions es' cert ∧
    ∀ k, k ∉ [CertTeleportUser; CertTeleportClusterName] → es' !! k = Extensions cert !! k) as (es' & Es & Hext).
  { unfold shared. destruct permissions_shared.
    - exists es. split; [done|]. intros k Hk. unfold es. rewrite !lookup_insert_ne; [done|set_solver..].
    - exists (Extensions cert). split; [by destruct cert|done]. }
  rewrite Es in Hc. clear Es. set (cert' := with_extensions es' cert) in Hc.
  assert (∀ k, k ∉ [CertTeleportUser; CertTeleportClusterName] → Extensions cert' !! k = Extensions cert !! k) as Hext' by done.
  apply attempt_Ok in Hc as (clusterName & [= Hcn] & (c2 & [= <-] & (ca & Hca & (roles & [= Hr] & (info & [= Hi] &
    (checker & [= Hchk] & (ids & _ & (g & _ & (rs & _ & [= <-])%attempt_Ok)%attempt_Ok)%attempt_Ok)%attempt_Ok)%attempt_Ok)%attempt_Ok)%attempt_Ok)%attempt_Ok).
  cbn [ic_TeleportUser ic_Login ic_Certificate ic_UnmappedRoles ic_CertAuthority ic_AccessChecker].
  split_and!; [done|done|by exists es'| |].
  - unfold ExtractRolesFromCert in Hr |- *. rewrite <- Hext' by set_solver. by rewrite Hr.
  - exists clusterName, ca, info. split_and!; [done|done| |done]. rewrite <- Hi. symmetry. apply fetchAccessInfo_ext; [done|].
    intros name Hname. apply Hext'. set_solver.
Qed.

(** An unforced step of a rotation keeps the logins of certificates that the
    authority's active keys signed. *)
Lemma rotation_keeps_logins `{KeyStore} rnow id req ca' name roles k kp checker :
  ¬ forced req → processRotationRequest rnow id req = Ok ca' → kp ∈ SSH (ActiveKeys (rq_ca req)) →
  SSHCert.ParseAuthorizedKey (ssh_PublicKey kp) = Ok checker → KeysEqual k checker = true →
  trusts_key (MkKnown name ca' roles) k.
Proof.
  intros Hf Hp Hin Hparse Heq. exists kp, checker. split_and!; [|done..]. unfold GetTrustedSSHKeyPairs. cbn [ka_CA].
  destruct (process_keys _ _ _ _ Hp) as [->|[[-> ->]|?]]; [set_solver..|done].
Qed.
End logins.
