(* ===== verification/Multiplexer.v ===== *)
(** * The multiplexer and the PROXY protocol (lib/multiplexer)

    A listener that serves several protocols looks at the first bytes of a
    connection. A load balancer may put a header of the PROXY protocol before
    them, a line of text or a binary one, that tells the addresses of the
    client. A connection is the bytes it delivers until it ends; a reader takes
    bytes from its front. *)

From Stdlib Require Import Ascii String.
From S2P Require Import Prelude.
From S2P Require Import Keys.
From S2P Require Import Strconv.
Local Open Scope Z_scope.

(** ** Readers *)

Definition reader (A : Type) : Type := bytes → result A * bytes.
#[export] Instance reader_ret : MRet reader := fun A a s => (Ok a, s).
#[export] Instance reader_bind : MBind reader := fun A B f m s =>
  match m s with (Ok a, s) => f a s | (Err e, s) => (Err e, s) end.
Definition failure {A} (e : error) : reader A := fun s => (Err e, s).
Definition lift {A} (r : result A) : reader A := fun s => (r, s).

Definition err_EOF : error := Error PlainError "EOF".
(** [io.ReadFull] of [n] bytes and [io.CopyN] of [n] bytes to [io.Discard]. *)
Definition read_full (n : nat) : reader bytes := fun s =>
  if (n <=? length s)%nat then (Ok (take n s), drop n s) else (Err err_EOF, []).
Definition discard (n : nat) : reader unit := _ ← read_full n; mret ().
(** [Peek] of a [bufio.Reader]. *)
Definition Peek (n : nat) : reader bytes := fun s =>
  if (n <=? length s)%nat then (Ok (take n s), s) else (Err err_EOF, s).
(** [ReadString('\n')]. *)
Fixpoint ReadString (s : bytes) : result bytes * bytes :=
  match s with
  | [] => (Err err_EOF, [])
  | c :: s =>
      if c =? 10 then (Ok [c], s) else
      match ReadString s with
      | (Ok line, s) => (Ok (c :: line), s)
      | (Err e, s) => (Err e, s)
      end
  end.

(** ** Text *)

(** [strings.Split] with a separator of one byte. *)
Fixpoint Split (sep : Z) (s : bytes) : list bytes :=
  match s with
  | [] => [[]]
  | c :: s =>
      if c =? sep then [] :: Split sep s else
      match Split sep s with
      | [] => [[c]]
      | t :: ts => (c :: t) :: ts
      end
  end.

(** ** Addresses *)

Definition v4InV6Prefix : bytes := [0; 0; 0; 0; 0; 0; 0; 0; 0; 0; 255; 255].
Definition To4 (ip : bytes) : option bytes :=
  if (length ip =? 4)%nat then Some ip else
  if (length ip =? 16)%nat && has_prefix ip v4InV6Prefix then Some (drop 12 ip) else None.
Definition To16 (ip : bytes) : option bytes :=
  if (length ip =? 4)%nat then Some (v4InV6Prefix ++ ip)%list else
  if (length ip =? 16)%nat then Some ip else None.

(** The text of addresses, of Go's net package. *)
Class IPText := { ParseIP : bytes → option bytes; IP_String : bytes → bytes }.
Definition ip_ok (ip : bytes) : Prop := wf_bytes ip ∧ (length ip = 4%nat ∨ length ip = 16%nat).
(** The text of an address has no blank and parses to its long form. *)
Class IPTextLaws `{IPText} : Prop := {
  ParseIP_String : ∀ ip, ip_ok ip → ParseIP (IP_String ip) = To16 ip;
  IP_String_text : ∀ ip, ip_ok ip → Forall (fun c => c ≠ 32 ∧ c ≠ 10) (IP_String ip)
}.

Record TCPAddr := MkTCPAddr { IP : bytes; Port : Z }.

(** ** Headers *)

Definition TCP4 : string := "TCP4".
Definition TCP6 : string := "TCP6".
Definition UNKNOWN : string := "UNKNOWN".
Record ProxyLine := MkProxyLine { Protocol : string; Source : TCPAddr; Destination : TCPAddr }.

Definition Version2 : Z := 2.
Definition ProxyCommand : Z := 1.
Definition LocalCommand : Z := 0.
Definition ProtocolTCP4 : Z := 17.
Definition ProtocolTCP6 : Z := 33.
Definition proxyPrefix : bytes := bytes_of_string "PROXY".
Definition proxyV2Prefix : bytes := [13; 10; 13; 10; 0; 13; 10; 81; 85; 73; 84; 10].

Definition be16 (n : Z) : bytes := [Z.shiftr n 8; Z.land n 255].
Definition of_be16 (s : bytes) : Z := match s with [h; l] => Z.lor (Z.shiftl h 8) l | _ => 0 end.
(** A copy into an array of [n] zero bytes. *)
Definition copy_into (n : nat) (s : bytes) : bytes := (take n s ++ replicate (n - length s) 0)%list.
Definition addr_of (n : nat) (to : bytes → option bytes) (p : ProxyLine) : bytes :=
  (copy_into n (default [] (to (IP (Source p)))) ++ copy_into n (default [] (to (IP (Destination p)))) ++
   be16 (u16 (Port (Source p))) ++ be16 (u16 (Port (Destination p))))%list.
(** The size of no address is -1. *)
Definition Bytes (p : ProxyLine) : bytes :=
  let '(proto, addr, size) :=
    if String.eqb (Protocol p) TCP4 then (ProtocolTCP4, addr_of 4 To4 p, 12) else
    if String.eqb (Protocol p) TCP6 then (ProtocolTCP6, addr_of 16 To16 p, 36) else (0, [], -1) in
  (proxyV2Prefix ++ [Z.lor (Z.shiftl Version2 4) ProxyCommand; proto] ++ be16 (u16 size) ++ addr)%list.

Definition address_at (n : nat) (addr : bytes) : TCPAddr * TCPAddr :=
  (MkTCPAddr (take n addr) (of_be16 (take 2 (drop (2 * n) addr))),
   MkTCPAddr (take n (drop n addr)) (of_be16 (drop (2 * n + 2) addr))).
(** The addresses of [n] bytes, and what the header says is more. *)
Definition read_addresses (proto : string) (n : nat) (len : Z) : reader (option ProxyLine) :=
  let size := (2 * n + 4)%nat in
  addr ← read_full size;
  _ ← (if len >? Z.of_nat size then discard (Z.to_nat (len - Z.of_nat size)) else mret ());
  let '(source, destination) := address_at n addr in
  mret (Some (MkProxyLine proto source destination)).
Definition ReadProxyLineV2 : reader (option ProxyLine) :=
  header ← read_full 16;
  if negb (bool_decide (take 12 header = proxyV2Prefix)) then failure (Error BadParameter "unrecognized signature %s") else
  let command := nth 12 header 0 in
  let len := of_be16 (drop 14 header) in
  let cmd := Z.land command 15 in
  let ver := Z.shiftr command 4 in
  if negb (ver =? Version2) then failure (Error BadParameter "unsupported version %d") else
  if cmd =? LocalCommand then _ ← (if len >? 0 then discard (Z.to_nat len) else mret ()); mret None else
  if negb (cmd =? ProxyCommand) then failure (Error BadParameter "unsupported command %d") else
  let protocol := nth 13 header 0 in
  if protocol =? ProtocolTCP4 then read_addresses TCP4 4 len else
  if protocol =? ProtocolTCP6 then read_addresses TCP6 16 len else
  failure (Error BadParameter "unsupported protocol %x").

Section text.
Context `{IPText}.

Definition ProxyLine_String (p : ProxyLine) : bytes :=
  (bytes_of_string "PROXY " ++ bytes_of_string (Protocol p) ++ [32] ++
   IP_String (IP (Source p)) ++ [32] ++ IP_String (IP (Destination p)) ++ [32] ++
   format_int (Port (Source p)) ++ [32] ++ format_int (Port (Destination p)) ++ [13; 10])%list.

Definition parsePortNumber (portString : bytes) : result Z :=
  match Atoi portString with
  | Err _ => Err (Error BadParameter "bad port %q: %v")
  | Ok port =>
      if (port <? 0) || (port >? 65535) then Err (Error BadParameter "port %q not in supported range [0...65535]")
      else Ok port
  end.
Definition parseIP (protocol : string) (addrString : bytes) : result bytes :=
  match ParseIP addrString with
  | None | Some [] => Err (Error BadParameter "failed to parse address")
  | Some addr =>
      match To4 addr with
      | Some _ =>
          if negb (String.eqb protocol TCP4)
          then Err (Error BadParameter "got IPV4 address %q for IPV6 proto %q") else Ok addr
      | None =>
          if String.eqb protocol TCP6
          then Err (Error BadParameter "got IPV6 address %v %q for IPV4 proto %q") else Ok addr
      end
  end.

Definition ends_crlf (line : bytes) : bool := bool_decide (drop (length line - 2) line = [13; 10]).
Definition token (tokens : list bytes) (i : nat) : bytes := nth i tokens [].
Definition parse_line (line : bytes) : result ProxyLine :=
  if negb (ends_crlf line) then Err (Error BadParameter "expected CRLF in proxy protocol, got something else") else
  let tokens := Split 32 (take (length line - 2) line) in
  if (length tokens <? 6)%nat then Err (Error BadParameter "malformed PROXY line protocol string") else
  let protocol :=
    if bool_decide (token tokens 1 = bytes_of_string TCP4) then TCP4 else
    if bool_decide (token tokens 1 = bytes_of_string TCP6) then TCP6 else UNKNOWN in
  sourceIP ← parseIP protocol (token tokens 2);
  destIP ← parseIP protocol (token tokens 3);
  sourcePort ← parsePortNumber (token tokens 4);
  destPort ← parsePortNumber (token tokens 5);
  Ok (MkProxyLine protocol (MkTCPAddr sourceIP sourcePort) (MkTCPAddr destIP destPort)).
Definition ReadProxyLine : reader ProxyLine := line ← ReadString; lift (parse_line line).
End text.

(** ** Protocols *)

Inductive protocol :=
  | ProtoUnknown | ProtoTLS | ProtoSSH | ProtoProxy | ProtoProxyV2 | ProtoHTTP | ProtoPostgres.
#[export] Instance protocol_eq_dec : EqDecision protocol.
Proof. solve_decision. Defined.
Definition protocol_String (p : protocol) : string :=
  match p with
  | ProtoUnknown => "Unknown" | ProtoTLS => "TLS" | ProtoSSH => "SSH" | ProtoProxy => "Proxy"
  | ProtoProxyV2 => "ProxyV2" | ProtoHTTP => "HTTP" | ProtoPostgres => "Postgres"
  end.

Definition sshPrefix : bytes := bytes_of_string "SSH".
Definition tlsPrefix : bytes := [22].
Definition proxyHelloPrefix : bytes := bytes_of_string "Teleport-Proxy".
Definition postgresSSLRequest : bytes := [0; 0; 0; 8; 4; 210; 22; 47].
Definition postgresCancelRequest : bytes := [0; 0; 0; 16; 4; 210; 22; 46].
Definition postgresGSSEncRequest : bytes := [0; 0; 0; 8; 4; 210; 22; 48].
Definition httpMethods : list string :=
  ["GET"; "POST"; "PUT"; "DELETE"; "HEAD"; "CONNECT"; "OPTIONS"; "TRACE"; "PATCH"]%string.
Definition isHTTP (in_ : bytes) : bool := existsb (fun verb => has_prefix in_ (bytes_of_string verb)) httpMethods.

Definition err_undetected : error :=
  Error BadParameter "multiplexer failed to detect connection protocol, first few bytes were: %#v".
Definition detectProto : reader protocol :=
  in_ ← Peek 8;
  if has_prefix in_ proxyPrefix then mret ProtoProxy else
  if has_prefix in_ (take 8 proxyV2Prefix) then
    in_ ← Peek (length proxyV2Prefix);
    if has_prefix in_ proxyV2Prefix then mret ProtoProxyV2 else failure err_undetected
  else if has_prefix in_ (take 8 proxyHelloPrefix) then
    in_ ← Peek (length proxyHelloPrefix);
    if has_prefix in_ proxyHelloPrefix then mret ProtoSSH else failure err_undetected
  else if has_prefix in_ sshPrefix then mret ProtoSSH
  else if has_prefix in_ tlsPrefix then mret ProtoTLS
  else if isHTTP in_ then mret ProtoHTTP
  else if has_prefix in_ postgresSSLRequest || has_prefix in_ postgresCancelRequest
          || has_prefix in_ postgresGSSEncRequest then mret ProtoPostgres
  else failure err_undetected.

(** ** Connections *)

(** A connection whose first bytes were looked at: what it will deliver, and the
    header that came before. *)
Record Conn := MkConn { conn_protocol : protocol; conn_reader : bytes; conn_proxyLine : option ProxyLine }.
Definition NewConn (input : bytes) : Conn := MkConn ProtoUnknown input None.
Definition LocalAddr (underlying : TCPAddr) (c : Conn) : TCPAddr :=
  match conn_proxyLine c with Some p => Destination p | None => underlying end.
Definition RemoteAddr (underlying : TCPAddr) (c : Conn) : TCPAddr :=
  match conn_proxyLine c with Some p => Source p | None => underlying end.

(** A connection whose protocol is not detected is not an error. *)
Definition Detect : reader protocol := fun s =>
  match detectProto s with
  | (Err e, s) => if has_kind BadParameter e then (Ok ProtoUnknown, s) else (Err e, s)
  | r => r
  end.

(** The listeners that were asked for; a connection is given to one or closed. *)
Record Mux := MkMux { sshListener : bool; tlsListener : bool; dbListener : bool; EnableProxyProtocol : bool }.
Inductive listener := SSHListener | TLSListener | DBListener.
Definition protocolListener (m : Mux) (proto : protocol) : option listener :=
  match proto with
  | ProtoTLS => if tlsListener m then Some TLSListener else None
  | ProtoSSH => if sshListener m then Some SSHListener else None
  | ProtoPostgres => if dbListener m then Some DBListener else None
  | _ => None
  end.

Section detection.
Context `{IPText}.

Definition Conn_ReadProxyLine (c : Conn) : result (option ProxyLine) * Conn :=
  let r := (proto ← Detect;
            if bool_decide (proto = ProtoProxyV2) then ReadProxyLineV2 else p ← ReadProxyLine; mret (Some p))
             (conn_reader c) in
  match r with
  | (Ok p, s) => (Ok p, MkConn (conn_protocol c) s p)
  | (Err e, s) => (Err e, MkConn (conn_protocol c) s (conn_proxyLine c))
  end.

(** The passes that are left of two: the first may read a header. *)
Fixpoint detect_passes (passes : nat) (enableProxyProtocol : bool) (proxyLine : option ProxyLine) : reader Conn :=
  match passes with
  | O => failure (Error BadParameter "unknown protocol")
  | S passes =>
      proto ← detectProto;
      match proto with
      | ProtoProxy | ProtoProxyV2 =>
          if negb enableProxyProtocol then failure (Error BadParameter "proxy protocol support is disabled") else
          match proxyLine with
          | Some _ => failure (Error BadParameter "duplicate proxy line")
          | None =>
              p ← (if bool_decide (proto = ProtoProxy) then p ← ReadProxyLine; mret (Some p) else ReadProxyLineV2);
              detect_passes passes enableProxyProtocol p
          end
      | ProtoTLS | ProtoSSH | ProtoHTTP => fun s => (Ok (MkConn proto s proxyLine), s)
      | ProtoPostgres => fun s => (Ok (MkConn proto s None), s)
      | ProtoUnknown => detect_passes passes enableProxyProtocol proxyLine
      end
  end.
Definition detect (enableProxyProtocol : bool) (conn : bytes) : result Conn :=
  fst (detect_passes 2 enableProxyProtocol None conn).

(** [deadline] and [reset] are the results of setting the deadlines. *)
Definition detectAndForward (m : Mux) (deadline reset : result unit) (conn : bytes) : option (listener * Conn) :=
  match deadline with
  | Err _ => None
  | Ok _ =>
      match detect (EnableProxyProtocol m) conn with
      | Err _ => None
      | Ok c =>
          match reset with
          | Err _ => None
          | Ok _ => (fun l => (l, c)) <$> protocolListener m (conn_protocol c)
          end
      end
  end.
End detection.

(** ** The binary header *)

Lemma reader_bind_Ok {A B} (m : reader A) (f : A → reader B) s b s' :
  (m ≫= f) s = (Ok b, s') ↔ ∃ a s1, m s = (Ok a, s1) ∧ f a s1 = (Ok b, s').
Proof. unfold mbind, reader_bind. destruct (m s) as [[a|e] s1]; naive_solver. Qed.
Lemma reader_bind_run {A B} (m : reader A) (f : A → reader B) s a s1 :
  m s = (Ok a, s1) → (m ≫= f) s = f a s1.
Proof. unfold mbind, reader_bind. by intros ->. Qed.

Lemma read_full_app n a s : length a = n → read_full n (a ++ s) = (Ok a, s).
Proof.
  intros <-. unfold read_full. rewrite (proj2 (Nat.leb_le _ _)) by (rewrite length_app; lia).
  by rewrite take_app_length, drop_app_length.
Qed.
Lemma read_full_Ok n s a s' : read_full n s = (Ok a, s') ↔ s = (a ++ s')%list ∧ length a = n.
Proof.
  split; [|intros [-> Hl]; by apply read_full_app].
  unfold read_full. destruct (Nat.leb_spec n (length s)); [|done]. intros [= <- <-].
  rewrite take_drop, length_take. split; [done|lia].
Qed.

Lemma of_be16_be16 n : in_u 16 n → of_be16 (be16 n) = n.
Proof.
  intros Hn. unfold of_be16, be16. apply Z.bits_inj'. intros i Hi.
  rewrite Z.lor_spec, Z.shiftl_spec by done. change 255 with (Z.ones 8). rewrite Z.land_spec.
  destruct (Z.ltb_spec i 8).
  - rewrite Z.testbit_neg_r, Z.ones_spec_low by lia. by rewrite andb_true_r.
  - rewrite Z.shiftr_spec, Z.ones_spec_high by lia. rewrite andb_false_r, orb_false_r. f_equal. lia.
Qed.
Lemma copy_into_exact n s : length s = n → copy_into n s = s.
Proof. intros <-. unfold copy_into. rewrite firstn_all, Nat.sub_diag. apply app_nil_r. Qed.
Lemma length_copy_into n s : length (copy_into n s) = n.
Proof. unfold copy_into. rewrite length_app, length_take, length_replicate. lia. Qed.

(** An address of the family: its form of [n] bytes, and a port. *)
Definition addr_ok (n : nat) (to : bytes → option bytes) (a : TCPAddr) : Prop :=
  (∃ ip, to (IP a) = Some ip ∧ length ip = n) ∧ 0 ≤ Port a < 65536.
Definition in_form (to : bytes → option bytes) (a : TCPAddr) : TCPAddr := MkTCPAddr (default [] (to (IP a))) (Port a).

Lemma read_addresses_addr proto n to p rest :
  addr_ok n to (Source p) → addr_ok n to (Destination p) →
  read_addresses proto n (2 * Z.of_nat n + 4) (addr_of n to p ++ rest) =
  (Ok (Some (MkProxyLine proto (in_form to (Source p)) (in_form to (Destination p)))), rest).
Proof.
  intros [(ip & Hip & Hl) Hp] [(ip' & Hip' & Hl') Hp']. unfold read_addresses.
  assert (length (addr_of n to p) = 2 * n + 4)%nat as Hlen
    by (unfold addr_of; rewrite !length_app, !length_copy_into; cbn; lia).
  erewrite reader_bind_run by (by apply read_full_app).
  case Z.gtb_spec; [lia|intros _]. cbn [mbind reader_bind mret reader_ret].
  unfold address_at, in_form. rewrite Hip, Hip'. cbn [default from_option id].
  assert (addr_of n to p = ip ++ ip' ++ be16 (Port (Source p)) ++ be16 (Port (Destination p)))%list as ->.
  { unfold addr_of. rewrite Hip, Hip'. cbn [default from_option id]. rewrite !copy_into_exact by done.
    by rewrite !wrap_u_small by (unfold in_u; lia). }
  assert (∀ x, drop (2 * n) (ip ++ ip' ++ x)%list = x) as Hd.
  { intros x. replace (2 * n)%nat with (length ip + length ip')%nat by lia. by rewrite app_assoc, <- length_app, drop_app_length. }
  assert (∀ x, drop (2 * n + 2) (ip ++ ip' ++ be16 (Port (Source p)) ++ x)%list = x) as Hd'.
  { intros x. rewrite <- drop_drop, Hd. done. }
  rewrite Hd, Hd'. rewrite <- Hl, drop_app_length, !take_app_length, Hl, <- Hl', take_app_length.
  change (take 2 (be16 ?x ++ ?y)%list) with (be16 x).
  by rewrite !of_be16_be16 by (unfold in_u; lia).
Qed.

(** The addresses that a header of its protocol can carry. *)
Definition carries (n : nat) (to : bytes → option bytes) (p : ProxyLine) : Prop :=
  addr_ok n to (Source p) ∧ addr_ok n to (Destination p).
Definition binary_ok (p : ProxyLine) : Prop :=
  (Protocol p = TCP4 ∧ carries 4 To4 p) ∨ (Protocol p = TCP6 ∧ carries 16 To16 p).
(** The header as its reader sees it: addresses in the form of the family. *)
Definition with_form (to : bytes → option bytes) (p : ProxyLine) : ProxyLine :=
  MkProxyLine (Protocol p) (in_form to (Source p)) (in_form to (Destination p)).
Definition received (p : ProxyLine) : ProxyLine := with_form (if String.eqb (Protocol p) TCP4 then To4 else To16) p.

Lemma ReadProxyLineV2_header proto n addr rest :
  in_u 16 n →
  ReadProxyLineV2 ((proxyV2Prefix ++ [33; proto] ++ be16 n ++ addr) ++ rest) =
  (if proto =? ProtocolTCP4 then read_addresses TCP4 4 n else
   if proto =? ProtocolTCP6 then read_addresses TCP6 16 n else
   failure (Error BadParameter "unsupported protocol %x")) (addr ++ rest)%list.
Proof.
  intros Hn. unfold ReadProxyLineV2.
  replace ((proxyV2Prefix ++ [33; proto] ++ be16 n ++ addr) ++ rest)%list
    with ((proxyV2Prefix ++ [33; proto] ++ be16 n) ++ (addr ++ rest))%list by (by rewrite <- !app_assoc).
  erewrite reader_bind_run by (by apply read_full_app).
  rewrite bool_decide_eq_true_2 by reflexivity. cbn [negb].
  change (drop 14 (proxyV2Prefix ++ [33; proto] ++ be16 n)%list) with (be16 n). rewrite of_be16_be16 by done.
  reflexivity.
Qed.

Lemma ReadProxyLineV2_Bytes p rest :
  binary_ok p → ReadProxyLineV2 (Bytes p ++ rest) = (Ok (Some (received p)), rest).
Proof.
  unfold Bytes, received. change (Z.lor (Z.shiftl Version2 4) ProxyCommand) with 33.
  intros [[Hp [Hs Hd]]|[Hp [Hs Hd]]]; rewrite Hp;
    (destruct (String.eqb_spec TCP4 TCP4) as [_|]; [|done]) ||
    (destruct (String.eqb_spec TCP6 TCP4) as [|_]; [done|]; destruct (String.eqb_spec TCP6 TCP6) as [_|]; [|done]);
    rewrite ReadProxyLineV2_header by (apply wrap_u_bound; lia).
  - etransitivity; [exact (read_addresses_addr TCP4 4 To4 p rest Hs Hd)|]. unfold with_form. by rewrite Hp.
  - etransitivity; [exact (read_addresses_addr TCP6 16 To16 p rest Hs Hd)|]. unfold with_form. by rewrite Hp.
Qed.

Lemma Peek_app n a s : length a = n → Peek n (a ++ s) = (Ok a, (a ++ s)%list).
Proof.
  intros <-. unfold Peek. rewrite (proj2 (Nat.leb_le _ _)) by (rewrite length_app; lia).
  by rewrite take_app_length.
Qed.
Lemma Peek_state n s r s' : Peek n s = (r, s') → s' = s.
Proof. unfold Peek. by case_match; intros [= _ <-]. Qed.

(** Detection takes nothing from the connection. *)
Lemma detectProto_state s r s' : detectProto s = (r, s') → s' = s.
Proof.
  unfold detectProto, mbind, reader_bind. destruct (Peek 8 s) as [[in_|e] s1] eqn:E; apply Peek_state in E as ->; [|naive_solver].
  assert (∀ n k (f : bytes → reader protocol), (∀ i s r s', f i s = (r, s') → s' = s) →
    (match Peek n s with (Ok a, s) => f a s | (Err e, s) => (Err e, s) end) = (r, k) → k = s) as Hk.
  { intros n k f Hf. destruct (Peek n s) as [[i|e] s1] eqn:E; apply Peek_state in E as ->; [by apply Hf|naive_solver]. }
  repeat (case_match; try (by intros [= _ <-]); try (apply Hk; intros ????; case_match; by intros [= _ <-])).
Qed.

Lemma detectProto_Bytes p rest : detectProto (Bytes p ++ rest) = (Ok ProtoProxyV2, (Bytes p ++ rest)%list).
Proof.
  assert (∃ t, (Bytes p ++ rest = proxyV2Prefix ++ t)%list) as [t ->].
  { unfold Bytes. repeat case_match; rewrite <- !app_assoc; by eexists. }
  unfold detectProto.
  erewrite reader_bind_run by (exact (Peek_app 8 (take 8 proxyV2Prefix) (drop 8 proxyV2Prefix ++ t) eq_refl)).
  change (has_prefix (take 8 proxyV2Prefix) proxyPrefix) with false.
  change (has_prefix (take 8 proxyV2Prefix) (take 8 proxyV2Prefix)) with true. cbv iota.
  erewrite reader_bind_run by (exact (Peek_app (length proxyV2Prefix) proxyV2Prefix t eq_refl)).
  change (has_prefix proxyV2Prefix proxyV2Prefix) with true. reflexivity.
Qed.

(** ** The line of text *)

Lemma ReadString_app l rest : Forall (fun c => c ≠ 10) l → ReadString (l ++ 10 :: rest) = (Ok (l ++ [10])%list, rest).
Proof.
  induction 1 as [|c l Hc _ IH]; cbn [app ReadString]; [done|].
  apply Z.eqb_neq in Hc as ->. by rewrite IH.
Qed.

Definition word (t : bytes) : Prop := Forall (fun c => c ≠ 32) t.
Lemma Split_word t : word t → Split 32 t = [t].
Proof. induction 1 as [|c t Hc _ IH]; [done|]. cbn. apply Z.eqb_neq in Hc as ->. by rewrite IH. Qed.
Lemma Split_app t s : word t → Split 32 (t ++ [32] ++ s) = t :: Split 32 s.
Proof. change ([32] ++ s)%list with (32 :: s). induction 1 as [|c t Hc _ IH]; [done|]. cbn. apply Z.eqb_neq in Hc as ->. by rewrite IH. Qed.

Lemma parsePortNumber_format n : 0 ≤ n < 65536 → parsePortNumber (format_int n) = Ok n.
Proof.
  intros Hn. unfold parsePortNumber. rewrite Atoi_format_int by lia.
  rewrite (proj2 (Z.ltb_ge n 0)) by lia. case Z.gtb_spec; [lia|done].
Qed.

Section lines.
Context `{IPTextLaws}.

(** A header of version 4 addresses, which may be in their long form. *)
Definition addr4_ok (a : TCPAddr) : Prop := ip_ok (IP a) ∧ is_Some (To4 (IP a)) ∧ 0 ≤ Port a < 65536.
Definition text_ok (p : ProxyLine) : Prop := Protocol p = TCP4 ∧ addr4_ok (Source p) ∧ addr4_ok (Destination p).

Lemma To4_To16 ip : is_Some (To4 ip) → ∃ ip', To16 ip = Some ip' ∧ length ip' = 16%nat ∧ is_Some (To4 ip').
Proof.
  unfold To4, To16. intros Hs. destruct (Nat.eqb_spec (length ip) 4) as [Hl|].
  - eexists. split; [done|]. rewrite length_app, Hl. split; [done|]. cbn [Nat.add length v4InV6Prefix Nat.eqb andb].
    by rewrite (proj2 (has_prefix_app _ _)) by eauto.
  - destruct (Nat.eqb_spec (length ip) 16) as [Hl|]; [|by destruct Hs]. cbn [andb] in Hs.
    destruct (has_prefix ip v4InV6Prefix) eqn:Hp; [|by destruct Hs]. eexists. split; [done|]. split; [done|].
    destruct (Nat.eqb_spec (length ip) 4); [done|]. by rewrite Hl, Nat.eqb_refl, Hp.
Qed.
Lemma parseIP_text ip : ip_ok ip → is_Some (To4 ip) → parseIP TCP4 (IP_String ip) = Ok (default [] (To16 ip)).
Proof.
  intros Hok Hs. unfold parseIP. rewrite ParseIP_String by done.
  destruct (To4_To16 ip Hs) as (ip' & -> & Hl & [x Hx]). cbn [default from_option id].
  destruct ip' as [|c l]; [done|]. by rewrite Hx.
Qed.

Lemma format_int_text n : 0 ≤ n → Forall (fun c => c ≠ 32 ∧ c ≠ 10) (format_int n).
Proof.
  intros Hn. unfold format_int. rewrite (proj2 (Z.ltb_ge n 0)) by lia.
  eapply Forall_impl; [exact (decimal_digits 20 n Hn)|]. cbn. lia.
Qed.
Lemma text_word l : Forall (fun c => c ≠ 32 ∧ c ≠ 10) l → word l.
Proof. intros Hl. eapply Forall_impl; [exact Hl|]. cbn. tauto. Qed.
Lemma text_line l : Forall (fun c => c ≠ 32 ∧ c ≠ 10) l → Forall (fun c => c ≠ 10) l.
Proof. intros Hl. eapply Forall_impl; [exact Hl|]. cbn. tauto. Qed.

Definition line_body (p : ProxyLine) : bytes :=
  (bytes_of_string "PROXY" ++ [32] ++ bytes_of_string TCP4 ++ [32] ++ IP_String (IP (Source p)) ++ [32] ++
   IP_String (IP (Destination p)) ++ [32] ++ format_int (Port (Source p)) ++ [32] ++ format_int (Port (Destination p)))%list.
Lemma ProxyLine_String_body p : Protocol p = TCP4 → ProxyLine_String p = (line_body p ++ [13; 10])%list.
Proof. intros Hp. unfold ProxyLine_String, line_body. rewrite Hp. by rewrite <- !app_assoc. Qed.

Lemma parse_line_String p : text_ok p → parse_line (ProxyLine_String p) = Ok (with_form To16 p).
Proof.
  intros (Hp & (Hi & Hs & Hn) & (Hi' & Hs' & Hn')). rewrite ProxyLine_String_body by done. unfold parse_line, ends_crlf.
  rewrite length_app, Nat.add_sub.
  rewrite drop_app_length, bool_decide_eq_true_2, take_app_length by done. cbn [negb]. unfold line_body.
  rewrite !Split_app, Split_word
    by first [by apply text_word, IP_String_text|apply text_word, format_int_text; lia|unfold word; eval_decide].
  cbn [length Nat.ltb Nat.leb]. unfold token. cbn [nth].
  rewrite bool_decide_eq_true_2, !parseIP_text by done. cbn [mbind result_bind].
  rewrite !parsePortNumber_format by done. cbn [mbind result_bind]. unfold with_form, in_form. by rewrite Hp.
Qed.

Lemma ReadProxyLine_String p rest :
  text_ok p → ReadProxyLine (ProxyLine_String p ++ rest) = (Ok (with_form To16 p), rest).
Proof.
  intros Hok. pose proof (parse_line_String p Hok) as Hparse.
  destruct Hok as (Hp & (Hi & _ & Hn) & (Hi' & _ & Hn')). rewrite ProxyLine_String_body in Hparse |- * by done.
  unfold ReadProxyLine.
  assert ((line_body p ++ [13; 10]) ++ rest = (line_body p ++ [13]) ++ 10 :: rest)%list as -> by (by rewrite <- !app_assoc).
  erewrite reader_bind_run; [|apply ReadString_app].
  - unfold lift. rewrite <- app_assoc. change ([13] ++ [10])%list with [13; 10]. by rewrite Hparse.
  - unfold line_body. repeat first [apply Forall_app; split|apply Forall_cons; split; [done|]];
      first [by apply text_line, IP_String_text|apply text_line, format_int_text; lia|unfold word; eval_decide].
Qed.
Lemma detectProto_String p rest :
  Protocol p = TCP4 → detectProto (ProxyLine_String p ++ rest) = (Ok ProtoProxy, (ProxyLine_String p ++ rest)%list).
Proof.
  intros Hp. assert (∃ t, (ProxyLine_String p ++ rest = bytes_of_string "PROXY TC" ++ t)%list) as [t ->].
  { unfold ProxyLine_String. rewrite Hp, <- !app_assoc. by eexists. }
  unfold detectProto.
  erewrite reader_bind_run by (exact (Peek_app 8 (bytes_of_string "PROXY TC") t eq_refl)). reflexivity.
Qed.

(** ** Detection *)

(** What a connection that is served says of its first bytes. *)
Definition served (proto : protocol) : Prop := proto ∈ [ProtoTLS; ProtoSSH; ProtoHTTP].

Lemma detect_one p0 n e s proto :
  served proto → detectProto s = (Ok proto, s) → detect_passes (S n) e p0 s = (Ok (MkConn proto s p0), s).
Proof.
  intros Hs Hd. cbn [detect_passes]. erewrite reader_bind_run by exact Hd.
  unfold served in Hs. by destruct proto; try done; repeat (apply elem_of_cons in Hs as [|Hs]; [done|]); apply elem_of_nil in Hs.
Qed.
Lemma detect_header p s rest proto header :
  (proto = ProtoProxy ∧ ReadProxyLine s = (Ok p, rest)) ∨ (proto = ProtoProxyV2 ∧ ReadProxyLineV2 s = (Ok (Some p), rest)) →
  detectProto s = (Ok proto, s) → served header → detectProto rest = (Ok header, rest) →
  detect true s = Ok (MkConn header rest (Some p)).
Proof.
  intros Hr Hd Hs Hh. unfold detect. cbn [detect_passes]. erewrite reader_bind_run by exact Hd.
  destruct Hr as [[-> Hr]|[-> Hr]]; cbn [negb];
    rewrite ?bool_decide_eq_true_2, ?bool_decide_eq_false_2 by done.
  - erewrite reader_bind_run; [|erewrite reader_bind_run by exact Hr; reflexivity].
    change (fst (detect_passes 1 true (Some p) rest) = Ok (MkConn header rest (Some p))).
    by rewrite (detect_one (Some p) 0 true rest header).
  - erewrite reader_bind_run by exact Hr.
    change (fst (detect_passes 1 true (Some p) rest) = Ok (MkConn header rest (Some p))).
    by rewrite (detect_one (Some p) 0 true rest header).
Qed.

(** C14: a header of the PROXY protocol that a load balancer puts before a TLS,
    SSH or HTTP connection, binary for TCP over both families of addresses and with
    nothing behind the addresses, or a line of text for TCP4, is taken off to the last byte: the connection is served
    as its own protocol, from the addresses and ports of the header. *)
Theorem proxied_connection p rest proto :
  served proto → detectProto rest = (Ok proto, rest) →
  (binary_ok p → detect true (Bytes p ++ rest) = Ok (MkConn proto rest (Some (received p)))) ∧
  (text_ok p → detect true (ProxyLine_String p ++ rest) = Ok (MkConn proto rest (Some (with_form To16 p)))).
Proof.
  intros Hs Hd. split; intros Hok.
  - eapply detect_header; [right; split; [done|by apply ReadProxyLineV2_Bytes]|apply detectProto_Bytes|done|done].
  - eapply detect_header; [left; split; [done|by apply ReadProxyLine_String]|apply detectProto_String, Hok|done|done].
Qed.
End lines.

Section safety.
Context `{IPText}.

(** A header that was read from [s]. *)
Definition header_read (s : bytes) (p : option ProxyLine) (s' : bytes) : Prop :=
  ReadProxyLineV2 s = (Ok p, s') ∨ ∃ q, p = Some q ∧ ReadProxyLine s = (Ok q, s').
Lemma detect_passes_S n e p0 s c s' :
  detect_passes (S n) e p0 s = (Ok c, s') →
  ∃ proto, detectProto s = (Ok proto, s) ∧
    match proto with
    | ProtoUnknown => detect_passes n e p0 s = (Ok c, s')
    | ProtoProxy | ProtoProxyV2 =>
        e = true ∧ p0 = None ∧ ∃ p s1, header_read s p s1 ∧ detect_passes n e p s1 = (Ok c, s')
    | ProtoTLS | ProtoSSH | ProtoHTTP => c = MkConn proto s p0
    | ProtoPostgres => c = MkConn proto s None
    end.
Proof.
  cbn [detect_passes]. intros (proto & s1 & Hd & Hr)%reader_bind_Ok. pose proof (detectProto_state _ _ _ Hd) as ->.
  exists proto. split; [done|]. destruct proto; try done; try (by injection Hr as <- <-);
    (destruct e; [|done]); (destruct p0; [done|]); (split; [done|]); (split; [done|]); cbn [negb] in Hr;
    apply reader_bind_Ok in Hr as (p & s1 & Hp & Hr); exists p, s1; (split; [|done]).
  - rewrite bool_decide_eq_true_2 in Hp by done. apply reader_bind_Ok in Hp as (q & s2 & Hq & [= <- <-]). right. by exists q.
  - rewrite bool_decide_eq_false_2 in Hp by done. by left.
Qed.

Lemma detect_passes_end n e p0 s c s' :
  detect_passes n e p0 s = (Ok c, s') →
  conn_protocol c ∈ [ProtoTLS; ProtoSSH; ProtoHTTP; ProtoPostgres] ∧
  detectProto (conn_reader c) = (Ok (conn_protocol c), conn_reader c).
Proof.
  revert p0 s. induction n as [|n IH]; intros p0 s; [done|].
  intros (proto & Hd & Hr)%detect_passes_S. destruct proto;
    try (subst c; split; [cbn; set_solver|done]); [by eapply IH|..];
    destruct Hr as (_ & _ & p & s1 & _ & Hr); by eapply IH.
Qed.
(** The last pass takes nothing. *)
Lemma detect_last e p0 s c s' :
  detect_passes 1 e p0 s = (Ok c, s') → conn_reader c = s ∧ (conn_proxyLine c = None ∨ conn_proxyLine c = p0).
Proof.
  intros (proto & Hd & Hr)%detect_passes_S. destruct proto; try (subst c; cbn; tauto); try done;
    by destruct Hr as (_ & _ & p & s1 & _ & Hr).
Qed.

(** a connection that is served is served as the protocol its bytes show,
    with none of them missing; the addresses it is said to come from are either
    its own or those of one header at its start, which is gone; when the PROXY
    protocol is not enabled no header is believed and the bytes are all there. *)
Theorem detect_safe e s c :
  detect e s = Ok c →
  (conn_protocol c ∈ [ProtoTLS; ProtoSSH; ProtoHTTP; ProtoPostgres] ∧
   detectProto (conn_reader c) = (Ok (conn_protocol c), conn_reader c)) ∧
  (e = false → conn_reader c = s ∧ conn_proxyLine c = None) ∧
  ∀ p, conn_proxyLine c = Some p →
    ReadProxyLine s = (Ok p, conn_reader c) ∨ ReadProxyLineV2 s = (Ok (Some p), conn_reader c).
Proof.
  unfold detect. destruct (detect_passes 2 e None s) as [r s'] eqn:E. cbn [fst]. intros ->.
  split; [by eapply detect_passes_end|].
  apply detect_passes_S in E as (proto & Hd & Hr). destruct proto; try (by subst c);
    [|destruct Hr as (-> & _ & p & s1 & Hp & [-> [-> | ->]]%detect_last); (split; [done|]); [done|];
      intros q ->; destruct Hp as [?|(? & [= ->] & ?)]; auto..].
  apply detect_last in Hr as [-> Hp]. assert (conn_proxyLine c = None) as -> by tauto. by split.
Qed.

(** A connection is given to a listener that was asked for, the one of its protocol. *)
Lemma detectAndForward_listener m deadline reset conn l c :
  detectAndForward m deadline reset conn = Some (l, c) →
  detect (EnableProxyProtocol m) conn = Ok c ∧
  match l with
  | SSHListener => conn_protocol c = ProtoSSH ∧ sshListener m = true
  | TLSListener => conn_protocol c = ProtoTLS ∧ tlsListener m = true
  | DBListener => conn_protocol c = ProtoPostgres ∧ dbListener m = true
  end.
Proof.
  unfold detectAndForward. destruct deadline; [|done]. destruct (detect _ _) as [c'|]; [|done].
  destruct reset; [|done]. unfold protocolListener.
  destruct (conn_protocol c') eqn:E; cbn; try done; case_match; intros [= <- <-]; by rewrite E.
Qed.

(** The two checks of an address leave none for version 6: no line of text gives
    such a header. *)
Lemma parseIP_TCP6 s : ∃ e, parseIP TCP6 s = Err e.
Proof. unfold parseIP. destruct (ParseIP s) as [[|c ip]|]; [by eexists| |by eexists]. destruct (To4 _); by eexists. Qed.
Lemma ReadProxyLine_never_TCP6 s p s' : ReadProxyLine s = (Ok p, s') → Protocol p ≠ TCP6.
Proof.
  intros (line & s1 & _ & [= Hp _])%reader_bind_Ok. revert Hp. unfold parse_line.
  destruct (negb _); [done|]. cbv zeta. destruct (_ <? 6)%nat; [done|].
  set (proto := if bool_decide _ then TCP4 else _). intros (ip & Hip & Hp)%result_bind_Ok.
  repeat (apply result_bind_Ok in Hp as (? & _ & Hp)). injection Hp as <-. cbn. intros ->.
  destruct (parseIP_TCP6 (token (Split 32 (take (length line - 2) line)) 2)) as [e He]. by rewrite He in Hip.
Qed.

(** The header before a connection of a database client is dropped. *)
Lemma proxied_postgres p rest :
  binary_ok p → detectProto rest = (Ok ProtoPostgres, rest) →
  detect true (Bytes p ++ rest) = Ok (MkConn ProtoPostgres rest None).
Proof.
  intros Hok Hd. unfold detect. cbn [detect_passes]. erewrite reader_bind_run by apply detectProto_Bytes.
  cbn [negb]. rewrite bool_decide_eq_false_2 by done. erewrite reader_bind_run by (by apply ReadProxyLineV2_Bytes).
  by erewrite reader_bind_run by exact Hd.
Qed.

(** The addresses are read whole even when the header says it is shorter: bytes
    that follow it are then taken for addresses. *)
Lemma read_addresses_length proto n len s r s' :
  read_addresses proto n len s = (Ok r, s') →
  Z.of_nat (length s) = Z.max len (2 * Z.of_nat n + 4) + Z.of_nat (length s').
Proof.
  intros (addr & s1 & [-> Hl]%read_full_Ok & Hr)%reader_bind_Ok. rewrite length_app.
  apply reader_bind_Ok in Hr as ([] & s2 & Hd & Hr).
  assert (s2 = s') as -> by (by destruct (address_at n addr); injection Hr as _ <-). revert Hd. case Z.gtb_spec; intros Hlen Hd.
  - apply reader_bind_Ok in Hd as (d & s2 & [-> Hd]%read_full_Ok & [= <-]). rewrite length_app. lia.
  - injection Hd as <-. lia.
Qed.
End safety.
