(* ===== verification/NetAddr.v ===== *)
(** * Network addresses (lib/utils/addr.go, lib/utils/utils.go)

    Hosts and ports of addresses, over Go's own splitting and joining of them,
    and the choice of an address of the machine. *)

From Stdlib Require Import Ascii String.
From S2P Require Import Prelude.
From S2P Require Import Keys.
From S2P Require Import Strconv.
From S2P Require Import Multiplexer.
Local Open Scope Z_scope.

(** ** Go's net package *)

Fixpoint IndexByte (c : Z) (s : bytes) : option nat :=
  match s with [] => None | b :: s => if b =? c then Some O else S <$> IndexByte c s end.
Definition has_byte (c : Z) (s : bytes) : bool := existsb (fun b => b =? c) s.
(** The part before the last [c], and the part after it. *)
Fixpoint split_last (c : Z) (s : bytes) : option (bytes * bytes) :=
  match s with
  | [] => None
  | b :: s =>
      match split_last c s with
      | Some (x, y) => Some (b :: x, y)
      | None => if b =? c then Some ([], s) else None
      end
  end.
Definition colon : Z := 58.
Definition open_bracket : Z := 91.
Definition close_bracket : Z := 93.
Definition err_missing_port : error := Error PlainError "missing port in address".
Definition err_many_colons : error := Error PlainError "too many colons in address".
Definition net_SplitHostPort (hostport : bytes) : result (bytes * bytes) :=
  match split_last colon hostport with
  | None => Err err_missing_port
  | Some (before, port) =>
      let i := length before in
      '(host, rest, after) ← (
        if bool_decide (head hostport = Some open_bracket) then
          match IndexByte close_bracket hostport with
          | None => Err (Error PlainError "missing ']' in address")
          | Some e =>
              if (S e =? length hostport)%nat then Err err_missing_port else
              if (S e =? i)%nat then Ok (drop 1 (take e hostport), drop 1 hostport, drop (S e) hostport) else
              if bool_decide (hostport !! S e = Some colon) then Err err_many_colons else Err err_missing_port
          end
        else if has_byte colon before then Err err_many_colons
        else Ok (before, hostport, hostport));
      if has_byte open_bracket rest then Err (Error PlainError "unexpected '[' in address") else
      if has_byte close_bracket after then Err (Error PlainError "unexpected ']' in address") else
      Ok (host, port)
  end.
Definition net_JoinHostPort (host port : bytes) : bytes :=
  if has_byte colon host then (open_bracket :: host ++ [close_bracket; colon] ++ port)%list
  else (host ++ [colon] ++ port)%list.

(** The forms that are compared have 4 or 16 bytes; no address is nil. *)
Definition IP_Equal (ip x : bytes) : bool :=
  if (length ip =? length x)%nat then bool_decide (ip = x) else
  if (length ip =? 4)%nat && (length x =? 16)%nat then bool_decide (take 12 x = v4InV6Prefix ∧ ip = drop 12 x) else
  if (length ip =? 16)%nat && (length x =? 4)%nat then bool_decide (take 12 ip = v4InV6Prefix ∧ drop 12 ip = x) else false.
Definition IPv4 (a b c d : Z) : bytes := (v4InV6Prefix ++ [a; b; c; d])%list.
Definition IPv6unspecified : bytes := replicate 16 0.
Definition IPv6loopback : bytes := (replicate 15 0 ++ [1])%list.
Definition IsUnspecified (ip : bytes) : bool := IP_Equal ip (IPv4 0 0 0 0) || IP_Equal ip IPv6unspecified.
Definition IsLoopback (ip : bytes) : bool :=
  match To4 ip with Some ip4 => bool_decide (head ip4 = Some 127) | None => IP_Equal ip IPv6loopback end.
Definition IsMulticast (ip : bytes) : bool :=
  match To4 ip with
  | Some ip4 => match ip4 with b :: _ => Z.land b 240 =? 224 | [] => false end
  | None => (length ip =? 16)%nat && bool_decide (head ip = Some 255)
  end.
(** A network of IPv4: its number and the bytes of its mask. *)
Record IPNet := MkIPNet { net_IP : bytes; net_Mask : bytes }.
Definition mask_with (ip mask : bytes) : bytes := zip_with Z.land ip mask.
Definition net_Contains (n : IPNet) (ip : bytes) : bool :=
  let ip := default ip (To4 ip) in
  (length ip =? length (net_IP n))%nat && bool_decide (mask_with (net_IP n) (net_Mask n) = mask_with ip (net_Mask n)).

Section addresses.
Context `{IPText}.

(** ** Addresses *)

Record NetAddr := MkNetAddr { Addr : bytes; AddrNetwork : string; Path : bytes }.

Definition is_bracket (c : Z) : bool := (c =? open_bracket) || (c =? close_bracket).
Fixpoint trim_left (s : bytes) : bytes := match s with c :: t => if is_bracket c then trim_left t else s | [] => [] end.
Definition trim_brackets (s : bytes) : bytes := rev (trim_left (rev (trim_left s))).
Definition NetAddr_Host (a : NetAddr) : bytes :=
  match net_SplitHostPort (Addr a) with
  | Ok (host, _) => host
  | Err _ =>
      match ParseIP (trim_brackets (Addr a)) with
      | Some (b :: ip) => IP_String (b :: ip)
      | _ => Addr a
      end
  end.
Definition NetAddr_Port (defaultPort : Z) (a : NetAddr) : Z :=
  match net_SplitHostPort (Addr a) with
  | Err _ => defaultPort
  | Ok (_, port) => match Atoi port with Ok n => n | Err _ => defaultPort end
  end.
Definition parsed (host : bytes) : bytes := default [] (ParseIP host).
Definition localhost : bytes := bytes_of_string "localhost".
Definition IsLocalhost (host : bytes) : bool :=
  bool_decide (host = localhost) || IsLoopback (parsed host) || IsUnspecified (parsed host).
Definition IsLocal (a : NetAddr) : bool :=
  match net_SplitHostPort (Addr a) with Err _ => false | Ok (host, _) => IsLocalhost host end.
Definition IsHostUnspecified (a : NetAddr) : bool :=
  bool_decide (NetAddr_Host a = []) || IsUnspecified (parsed (NetAddr_Host a)).
Definition NetAddr_IsEmpty (a : NetAddr) : bool :=
  bool_decide (Addr a = []) && String.eqb (AddrNetwork a) "" && bool_decide (Path a = []).
Definition FullAddress (a : NetAddr) : bytes := (bytes_of_string (AddrNetwork a) ++ bytes_of_string "://" ++ Addr a)%list.
Definition NetAddrsToStrings (addrs : list NetAddr) : list bytes := map Addr addrs.
Definition JoinAddrSlices (a b : list NetAddr) : list NetAddr := (a ++ b)%list.

(** A URL of the standard library: its scheme, host and path. *)
Definition has_scheme (a : bytes) : bool := existsb (fun n => has_prefix (drop n a) (bytes_of_string "://")) (seq 0 (length a)).
Definition ParseAddr (url_Parse : bytes → result (string * bytes * bytes)) (a : bytes) : result NetAddr :=
  if bool_decide (a = []) then Err (Error BadParameter "missing parameter address") else
  let a := if has_scheme a then a else (bytes_of_string "tcp://" ++ a)%list in
  match url_Parse a with
  | Err _ => Err (Error BadParameter "failed to parse %q: %v")
  | Ok (scheme, host, path) =>
      if String.eqb scheme "tcp" then Ok (MkNetAddr host scheme path) else
      if String.eqb scheme "unix" then Ok (MkNetAddr path scheme []) else
      if String.eqb scheme "http" || String.eqb scheme "https" then Ok (MkNetAddr host scheme path) else
      Err (Error BadParameter "'%v': unsupported scheme: '%v'")
  end.
Fixpoint ParseAddrs (url_Parse : bytes → result (string * bytes * bytes)) (addrs : list bytes) : result (list NetAddr) :=
  match addrs with
  | [] => Ok []
  | addr :: addrs => a ← ParseAddr url_Parse addr; rest ← ParseAddrs url_Parse addrs; Ok (a :: rest)
  end.
Definition set_Addr (addr : bytes) (a : NetAddr) : NetAddr := MkNetAddr addr (AddrNetwork a) (Path a).
Definition ParseHostPortAddr (url_Parse : bytes → result (string * bytes * bytes)) (hostport : bytes) (defaultPort : Z) : result NetAddr :=
  addr ← ParseAddr url_Parse hostport;
  if (defaultPort =? -1) && bool_decide (Addr addr = NetAddr_Host addr)
  then Err (Error BadParameter "missing port in address %q") else
  Ok (set_Addr (net_JoinHostPort (NetAddr_Host addr) (format_int (NetAddr_Port defaultPort addr))) addr).

Definition ReplaceLocalhost (addr replaceWith : bytes) : bytes :=
  match net_SplitHostPort addr with
  | Err _ => addr
  | Ok (host, port) =>
      if IsLocalhost host then
        match net_SplitHostPort replaceWith with
        | Err _ => addr
        | Ok (host, _) => net_JoinHostPort host port
        end
      else addr
  end.
Definition DialAddrFromListenAddr (listenAddr : NetAddr) : NetAddr :=
  if NetAddr_IsEmpty listenAddr then listenAddr
  else MkNetAddr (ReplaceLocalhost (Addr listenAddr) (bytes_of_string "127.0.0.1")) "" [].
Definition ReplaceUnspecifiedHost (addr : NetAddr) (defaultPort : Z) : bytes :=
  if negb (IsHostUnspecified addr) then Addr addr
  else net_JoinHostPort localhost (format_int (NetAddr_Port defaultPort addr)).

Definition SplitHostPort (hostname : bytes) : result (bytes * bytes) :=
  '(host, port) ← net_SplitHostPort hostname;
  if bool_decide (host = []) then Err (Error BadParameter "empty hostname") else Ok (host, port).
Definition Host (hostname : bytes) : result bytes :=
  if bool_decide (hostname = []) then Err (Error BadParameter "missing parameter hostname") else
  match ParseIP hostname with
  | Some (_ :: _) => Ok hostname
  | _ =>
      if negb (has_byte colon hostname) then Ok hostname else
      '(host, _) ← SplitHostPort hostname; Ok host
  end.
End addresses.

(** ** An address of the machine *)

Inductive net_Addr := IPAddr_of (ip : bytes) | IPNet_of (ip : bytes) | other_Addr.
Definition address_ip (a : net_Addr) : option bytes := match a with IPAddr_of ip | IPNet_of ip => Some ip | other_Addr => None end.
Definition usable_ip (ip : bytes) : bool := bool_decide (is_Some (To4 ip)) && negb (IsLoopback ip) && negb (IsMulticast ip).
Definition first_net : IPNet := MkIPNet [10; 0; 0; 0] [255; 0; 0; 0].
Definition second_net : IPNet := MkIPNet [192; 168; 0; 0] [255; 255; 0; 0].
Definition third_net : IPNet := MkIPNet [172; 16; 0; 0] [255; 240; 0; 0].
Fixpoint pick_ip (ips : list bytes) (ip : bytes) : bytes :=
  match ips with
  | [] => ip
  | x :: ips =>
      if net_Contains first_net x then x else
      if net_Contains second_net x then pick_ip ips x else
      if net_Contains third_net x && negb (net_Contains second_net ip) then pick_ip ips x else pick_ip ips ip
  end.
Definition guessHostIP (addrs : list net_Addr) : bytes :=
  let ips := List.filter usable_ip (omap address_ip addrs) in
  match pick_ip ips [] with
  | [] => match ips with x :: _ => x | [] => IPv4 127 0 0 1 end
  | ip => ip
  end.

(** ** Properties *)

Lemma has_byte_app c s t : has_byte c (s ++ t) = has_byte c s || has_byte c t.
Proof. apply existsb_app. Qed.
Lemma has_byte_cons c b s : has_byte c (b :: s) = (b =? c) || has_byte c s.
Proof. done. Qed.
Lemma split_last_None c s : has_byte c s = false → split_last c s = None.
Proof.
  induction s as [|b s IH]; [done|]. cbn. intros [Hb Hs]%orb_false_iff. by rewrite IH, Hb by exact Hs.
Qed.
Lemma split_last_app c s t : has_byte c t = false → split_last c (s ++ c :: t) = Some (s, t).
Proof.
  intros Ht. induction s as [|b s IH]; cbn [app split_last].
  - by rewrite split_last_None, Z.eqb_refl.
  - by rewrite IH.
Qed.
Lemma IndexByte_app c s t : has_byte c s = false → IndexByte c (s ++ c :: t) = Some (length s).
Proof.
  induction s as [|b s IH]; cbn; [by rewrite Z.eqb_refl|]. intros [-> Hs]%orb_false_iff. by rewrite IH.
Qed.
Lemma head_bracket s : has_byte open_bracket s = false → bool_decide (head s = Some open_bracket) = false.
Proof.
  destruct s as [|b s]; [done|]. cbn. intros [Hb _]%orb_false_iff. apply bool_decide_eq_false_2. intros [= ->].
  by rewrite Z.eqb_refl in Hb.
Qed.

#[local] Arguments has_byte : simpl never.
(** Text without the marks of addresses. *)
Definition no_brackets (s : bytes) : Prop := has_byte open_bracket s = false ∧ has_byte close_bracket s = false.

(** A host and a port that are joined are split again. *)
Theorem HostPort_roundtrip host port : no_brackets host → no_brackets port → has_byte colon port = false →
  net_SplitHostPort (net_JoinHostPort host port) = Ok (host, port).
Proof.
  intros [Ho Hc] [Po Pc] Pcol. unfold net_JoinHostPort, net_SplitHostPort. destruct (has_byte colon host) eqn:Hcol.
  - assert ((open_bracket :: host ++ [close_bracket; colon] ++ port)%list =
            ((open_bracket :: host ++ [close_bracket]) ++ colon :: port)%list) as -> by (cbn; by rewrite <- app_assoc).
    rewrite split_last_app by done.
    rewrite bool_decide_eq_true_2 by done. cbn [IndexByte app]. change (open_bracket =? close_bracket) with false.
    rewrite <- app_assoc. cbn [app]. rewrite IndexByte_app by done. cbn [fmap option_fmap option_map].
    rewrite (proj2 (Nat.eqb_neq _ _)) by (cbn; rewrite length_app; cbn; lia).
    rewrite (proj2 (Nat.eqb_eq _ _)) by (cbn; rewrite length_app; cbn; lia).
    cbn [mbind result_bind drop take]. rewrite drop_0, take_app_le by lia. rewrite take_ge by lia.
    rewrite !has_byte_app, !has_byte_cons, Ho, Po, drop_app_ge by lia.
    replace (S (length host) - length host)%nat with 1%nat by lia. cbn. by rewrite has_byte_cons, Pc.
  - cbn [app]. rewrite split_last_app by done.
    rewrite head_bracket by (by rewrite has_byte_app, Ho, has_byte_cons, Po).
    rewrite Hcol. cbn [mbind result_bind]. by rewrite !has_byte_app, Ho, Hc, !has_byte_cons, Po, Pc.
Qed.

Section host.
Context `{IPText}.

(** The address to dial is always the one that is listened on: the replacement has
    no port, so it is never made. *)
Theorem DialAddrFromListenAddr_unchanged a :
  Addr (DialAddrFromListenAddr a) = Addr a.
Proof.
  unfold DialAddrFromListenAddr. destruct (NetAddr_IsEmpty a); [done|]. cbn [Addr]. unfold ReplaceLocalhost.
  destruct (net_SplitHostPort (Addr a)) as [[host port]|]; [|done]. by destruct (IsLocalhost host).
Qed.
(** A replacement with a port replaces the host of a local address and keeps the port. *)
Lemma ReplaceLocalhost_local host port host' port' :
  no_brackets host → no_brackets port → has_byte colon port = false → no_brackets host' → no_brackets port' →
  has_byte colon port' = false → IsLocalhost host →
  ReplaceLocalhost (net_JoinHostPort host port) (net_JoinHostPort host' port') = net_JoinHostPort host' port.
Proof. intros ?????? Hl%Is_true_true. unfold ReplaceLocalhost. rewrite !HostPort_roundtrip by done. cbn. by rewrite Hl. Qed.
End host.

Definition last_in (n : IPNet) (ips : list bytes) : option bytes := last (List.filter (net_Contains n) ips).
Definition picked (ips : list bytes) : option bytes :=
  match find (net_Contains first_net) ips with
  | Some x => Some x
  | None => match last_in second_net ips with Some x => Some x | None => last_in third_net ips end
  end.
Lemma last_in_cons n x ips : last_in n (x :: ips) = match last_in n ips with Some y => Some y | None => if net_Contains n x then Some x else None end.
Proof.
  unfold last_in. cbn. destruct (net_Contains n x) eqn:E; [|by destruct (last _)].
  destruct (List.filter _ ips) as [|y l] eqn:El; [done|]. cbn [last]. by destruct (last (y :: l)) eqn:E'; [|apply last_None in E'].
Qed.
Lemma pick_ip_spec ips ip : pick_ip ips ip =
  match find (net_Contains first_net) ips with
  | Some x => x
  | None => match last_in second_net ips with
            | Some x => x
            | None => if net_Contains second_net ip then ip else default ip (last_in third_net ips)
            end
  end.
Proof.
  revert ip. induction ips as [|x ips IH]; intros ip; [cbn; by destruct (net_Contains second_net ip)|].
  cbn [pick_ip find]. rewrite !last_in_cons. destruct (net_Contains first_net x) eqn:E1; [done|].
  destruct (net_Contains second_net x) eqn:E2.
  { rewrite IH, E2. destruct (find _ ips), (last_in second_net ips); done. }
  destruct (net_Contains third_net x) eqn:E3; cbn [andb].
  - destruct (net_Contains second_net ip) eqn:E4; cbn [negb]; rewrite IH, ?E4, ?E2; destruct (find _ ips), (last_in second_net ips); try done.
    by destruct (last_in third_net ips).
  - rewrite IH. destruct (find _ ips), (last_in second_net ips), (net_Contains second_net ip); try done. by destruct (last_in third_net ips).
Qed.
(** The address of the machine: one of the networks of internal addresses, the
    first in 10/8, else the last in 192.168/16, else the last in 172.16/12; with
    none of these, the first usable address whatever its network is, and the local
    one only when there is none at all. *)
Theorem guessHostIP_spec addrs :
  let ips := List.filter usable_ip (omap address_ip addrs) in
  guessHostIP addrs = default (default (IPv4 127 0 0 1) (head ips)) (picked ips).
Proof.
  cbn zeta. unfold guessHostIP, picked. set (ips := List.filter _ _). rewrite pick_ip_spec. cbn [net_Contains].
  assert (∀ n x, net_Contains n x = true → net_IP n ≠ [] → x ≠ []) as Hne.
  { intros n x Hn Hi ->. unfold net_Contains in Hn. cbn in Hn. by destruct (net_IP n). }
  assert (∀ n x, last_in n ips = Some x → net_IP n ≠ [] → x ≠ []) as Hl.
  { unfold last_in. intros n x Hx. apply Hne. apply last_Some_elem_of, list_elem_of_In, filter_In in Hx. apply Hx. }
  destruct (find _ ips) as [x|] eqn:E1.
  { apply find_some in E1 as [_ E1]. apply Hne in E1; [|done]. by destruct x. }
  destruct (last_in second_net ips) as [x|] eqn:E2; [apply Hl in E2; [|done]; by destruct x|].
  change (net_Contains second_net []) with false. cbn match.
  destruct (last_in third_net ips) as [x|] eqn:E3; [apply Hl in E3; [|done]; by destruct x|]. by destruct ips.
Qed.
