(* ===== verification/ConnLimiter.v ===== *)
(** * The limit of connections (lib/limiter/connlimiter.go, limiter.go)

    Connections are counted for each token (the address of a client). The limit
    of the rate of requests is a third-party library, the class [RateLimit]; the
    limiter of HTTP handlers, also third-party, that is kept beside the counters
    is left out. *)

From S2P Require Import Prelude.
From stdpp Require Import gmultiset.
Local Open Scope Z_scope.

Record ConnectionsLimiter := MkConnLimiter { connections : gmap string Z; maxConnections : Z }.
Definition NewConnectionsLimiter (max : Z) : ConnectionsLimiter := MkConnLimiter ∅ max.
Definition set_connections (c : gmap string Z) (l : ConnectionsLimiter) : ConnectionsLimiter :=
  MkConnLimiter c (maxConnections l).

Definition err_too_many : error := Error LimitExceeded "too many connections from %v: %v, max is %v".
Definition AcquireConnection (token : string) (l : ConnectionsLimiter) : result unit * ConnectionsLimiter :=
  if maxConnections l =? 0 then (Ok (), l) else
  match connections l !! token with
  | None => (Ok (), set_connections (<[ token := 1 ]> (connections l)) l)
  | Some n =>
      if n >=? maxConnections l then (Err err_too_many, l)
      else (Ok (), set_connections (<[ token := i64 (n + 1) ]> (connections l)) l)
  end.
Definition ReleaseConnection (token : string) (l : ConnectionsLimiter) : ConnectionsLimiter :=
  if maxConnections l =? 0 then l else
  match connections l !! token with
  | None => l
  | Some n =>
      if n <=? 1 then set_connections (delete token (connections l)) l
      else set_connections (<[ token := n - 1 ]> (connections l)) l
  end.
Definition GetNumConnection (token : string) (l : ConnectionsLimiter) : result Z :=
  match connections l !! token with
  | None => Err (Error PlainError "Trying to get connections of a nonexistent token: %s")
  | Some n => Ok n
  end.

(** ** With the rate of requests *)

Class RateLimit (T : Type) := { RegisterRequest : string → T → result unit * T }.

Section limiter.
Context {T : Type} `{RateLimit T}.

Record Limiter := MkLimiter { conn_limiter : ConnectionsLimiter; rateLimiter : T }.
(** The function that gives the connection back; [None] does nothing. *)
Definition release_fn (token : option string) (l : Limiter) : Limiter :=
  match token with
  | None => l
  | Some token => MkLimiter (ReleaseConnection token (conn_limiter l)) (rateLimiter l)
  end.
Definition RegisterRequestAndConnection (token : string) (l : Limiter) : (option string * result unit) * Limiter :=
  let '(r, rate) := RegisterRequest token (rateLimiter l) in
  match r with
  | Err _ => ((None, Err (Error LimitExceeded "rate limit exceeded for %q")), MkLimiter (conn_limiter l) rate)
  | Ok _ =>
      let '(c, conn) := AcquireConnection token (conn_limiter l) in
      match c with
      | Err _ => ((None, Err (Error LimitExceeded "exceeded connection limit for %q")), MkLimiter conn rate)
      | Ok _ => ((Some token, Ok ()), MkLimiter conn rate)
      end
  end.
End limiter.
Arguments Limiter : clear implicits.

(** ** The contract: a multiset of the connections that are held *)

Inductive conn_op := CAcquire (token : string) | CRelease (token : string).
Definition conn_step (l : ConnectionsLimiter) (o : conn_op) : result unit * ConnectionsLimiter :=
  match o with CAcquire token => AcquireConnection token l | CRelease token => (Ok (), ReleaseConnection token l) end.
Fixpoint conn_run (os : list conn_op) (l : ConnectionsLimiter) : list (result unit) * ConnectionsLimiter :=
  match os with
  | [] => ([], l)
  | o :: os => let '(r, l) := conn_step l o in let '(rs, l) := conn_run os l in (r :: rs, l)
  end.

(** Who holds what: an acquisition fails when the token holds the limit. *)
Definition held_step (max : Z) (h : gmultiset string) (o : conn_op) : result unit * gmultiset string :=
  match o with
  | CAcquire token =>
      if Z.of_nat (multiplicity token h) >=? max then (Err err_too_many, h) else (Ok (), h ⊎ {[+ token +]})
  | CRelease token => (Ok (), h ∖ {[+ token +]})
  end.
Fixpoint held_run (max : Z) (os : list conn_op) (h : gmultiset string) : list (result unit) * gmultiset string :=
  match os with
  | [] => ([], h)
  | o :: os => let '(r, h) := held_step max h o in let '(rs, h) := held_run max os h in (r :: rs, h)
  end.

(** The map has the tokens that hold connections, with their numbers. *)
Definition counts (l : ConnectionsLimiter) (h : gmultiset string) : Prop :=
  ∀ token, connections l !! token =
    (if (multiplicity token h =? 0)%nat then None else Some (Z.of_nat (multiplicity token h))) ∧
    Z.of_nat (multiplicity token h) ≤ maxConnections l.

Lemma multiplicity_add t t' (h : gmultiset string) :
  multiplicity t (h ⊎ {[+ t' +]}) = (multiplicity t h + if decide (t = t') then 1 else 0)%nat.
Proof. by rewrite multiplicity_disj_union, multiplicity_singleton. Qed.
Lemma multiplicity_sub t t' (h : gmultiset string) :
  multiplicity t (h ∖ {[+ t' +]}) = (multiplicity t h - if decide (t = t') then 1 else 0)%nat.
Proof. by rewrite multiplicity_difference, multiplicity_singleton. Qed.

Lemma conn_step_counts l h o : 0 < maxConnections l < 2 ^ 63 → counts l h →
  (conn_step l o).1 = (held_step (maxConnections l) h o).1 ∧
  counts (conn_step l o).2 (held_step (maxConnections l) h o).2 ∧
  maxConnections (conn_step l o).2 = maxConnections l.
Proof.
  intros Hmax Hc. destruct o as [token|token]; cbn [conn_step held_step];
    unfold AcquireConnection, ReleaseConnection; destruct (Z.eqb_spec (maxConnections l) 0) as [|_]; try lia;
    destruct (Hc token) as [Ht Hb]; rewrite Ht; destruct (Nat.eqb_spec (multiplicity token h) 0) as [E|E].
  - rewrite Z.geb_leb. destruct (Z.leb_spec (maxConnections l) (Z.of_nat (multiplicity token h))) as [|_]; [lia|].
    split_and!; [done| |done]. intros t. destruct (Hc t) as [H1 H2]. cbn [snd set_connections connections maxConnections].
    rewrite multiplicity_add, lookup_insert. destruct (decide (t = token)) as [->|Hn].
    + rewrite decide_True, E by done. cbn. split; [done|lia].
    + by rewrite decide_False, Nat.add_0_r by congruence.
  - rewrite Z.geb_leb. destruct (Z.leb_spec (maxConnections l) (Z.of_nat (multiplicity token h))) as [|Hl]; [done|].
    split_and!; [done| |done]. intros t. destruct (Hc t) as [H1 H2]. cbn [snd set_connections connections maxConnections].
    rewrite multiplicity_add, lookup_insert. destruct (decide (t = token)) as [->|Hn].
    + rewrite decide_True by done. destruct (Nat.eqb_spec (multiplicity token h + 1) 0); [lia|].
      rewrite wrap_i_small by (unfold in_i; lia). split; [f_equal; lia|lia].
    + by rewrite decide_False, Nat.add_0_r by congruence.
  - split_and!; [done| |done]. intros t. destruct (Hc t) as [H1 H2]. cbn [snd]. rewrite multiplicity_sub.
    destruct (decide (t = token)) as [->|]; [|by rewrite Nat.sub_0_r].
    rewrite E in *. cbn in *. done.
  - split_and!; [done| |by destruct (_ <=? 1)]. intros t. destruct (Hc t) as [H1 H2]. cbn [snd]. rewrite multiplicity_sub.
    destruct (Z.leb_spec (Z.of_nat (multiplicity token h)) 1) as [Hl|Hl]; cbn [set_connections connections maxConnections];
      rewrite ?lookup_delete, ?lookup_insert; destruct (decide (t = token)) as [->|Hn]; rewrite ?Nat.sub_0_r;
      try (by rewrite decide_False by congruence); rewrite decide_True by done.
    + assert (multiplicity token h - 1 = 0)%nat as -> by lia. split; [done|lia].
    + destruct (Nat.eqb_spec (multiplicity token h - 1) 0); [lia|]. split; [f_equal; lia|lia].
Qed.

(** C30: the limiter implements the multiset of the connections held: every call
    is answered as the contract says, the counters are the numbers held, and no
    token ever holds more than the limit. *)
Theorem connections_limited max os : 0 < max < 2 ^ 63 →
  let '(rs, l) := conn_run os (NewConnectionsLimiter max) in
  let '(rs', h) := held_run max os ∅ in
  rs = rs' ∧
  ∀ token, GetNumConnection token l =
      (if (multiplicity token h =? 0)%nat then Err (Error PlainError "Trying to get connections of a nonexistent token: %s")
       else Ok (Z.of_nat (multiplicity token h))) ∧
    Z.of_nat (multiplicity token h) ≤ max.
Proof.
  intros Hmax.
  assert (∀ l h, maxConnections l = max → counts l h → (conn_run os l).1 = (held_run max os h).1 ∧
    counts (conn_run os l).2 (held_run max os h).2 ∧ maxConnections (conn_run os l).2 = max) as Hrun.
  { induction os as [|o os IH]; intros l h Hl Hc; cbn [conn_run held_run]; [done|].
    rewrite <- Hl in Hmax. destruct (conn_step_counts l h o Hmax Hc) as (E & Hc' & Hl'). rewrite Hl in *.
    destruct (conn_step l o) as [r l1], (held_step max h o) as [r' h1]. cbn in E, Hc', Hl'. subst r'.
    destruct (IH l1 h1 Hl' Hc') as (E' & Hc'' & Hl''). destruct (conn_run os l1), (held_run max os h1). cbn in *.
    by rewrite E'. }
  destruct (Hrun (NewConnectionsLimiter max) ∅ eq_refl) as (E & Hc & Hl).
  { intros token. rewrite multiplicity_empty. cbn. split; [done|lia]. }
  destruct (conn_run os _) as [rs l], (held_run max os ∅) as [rs' h]. cbn in *. split; [done|].
  intros token. destruct (Hc token) as [Ht Hb]. unfold GetNumConnection. rewrite Ht, <- Hl. by destruct (_ =? 0)%nat.
Qed.

(** Giving back what was taken restores the counters; an error takes nothing. *)
Lemma RegisterRequestAndConnection_release {T} `{RateLimit T} token l r rel l' h :
  0 < maxConnections (conn_limiter l) < 2 ^ 63 → counts (conn_limiter l) h →
  RegisterRequestAndConnection token l = ((rel, r), l') →
  conn_limiter (release_fn rel l') = conn_limiter l ∧ (is_Ok r = false → conn_limiter l' = conn_limiter l).
Proof.
  intros Hmax Hc. unfold RegisterRequestAndConnection. destruct (RegisterRequest token (rateLimiter l)) as [[[]|e] rate].
  2:{ intros [= <- <- <-]. done. }
  unfold AcquireConnection. destruct (Z.eqb_spec (maxConnections (conn_limiter l)) 0) as [|_]; [lia|].
  destruct (Hc token) as [Ht Hb]. rewrite Ht. destruct (Nat.eqb_spec (multiplicity token h) 0) as [E|E].
  - intros [= <- <- <-]. split; [|done]. cbn. unfold ReleaseConnection. cbn. destruct (Z.eqb_spec (maxConnections (conn_limiter l)) 0); [lia|].
    rewrite lookup_insert_eq. cbn. unfold set_connections. cbn. rewrite delete_insert_id by done. by destruct (conn_limiter l).
  - rewrite Z.geb_leb. destruct (Z.leb_spec (maxConnections (conn_limiter l)) (Z.of_nat (multiplicity token h))) as [|Hl].
    { intros [= <- <- <-]. done. }
    intros [= <- <- <-]. split; [|done]. cbn. unfold ReleaseConnection. cbn. destruct (Z.eqb_spec (maxConnections (conn_limiter l)) 0); [lia|].
    rewrite lookup_insert_eq, wrap_i_small by (unfold in_i; lia). destruct (Z.leb_spec (Z.of_nat (multiplicity token h) + 1) 1); [lia|].
    unfold set_connections. cbn. rewrite insert_insert_eq, Z.add_simpl_r, insert_id; [by destruct (conn_limiter l)|].
    rewrite Ht. by destruct (Nat.eqb_spec (multiplicity token h) 0).
Qed.

Lemma connections_limited_witness :
  conn_run [CAcquire "a"; CAcquire "a"; CAcquire "a"; CRelease "a"; CAcquire "a"; CAcquire "b"] (NewConnectionsLimiter 2) =
    ([Ok (); Ok (); Err err_too_many; Ok (); Ok (); Ok ()], MkConnLimiter (<["a" := 2]> (<["b" := 1]> ∅)) 2) ∧
  let '(rs, l) := conn_run [CAcquire "a"; CRelease "a"] (NewConnectionsLimiter 2) in
  let '(rs', h) := held_run 2 [CAcquire "a"; CRelease "a"] ∅ in
  rs = rs' ∧
  ∀ token, GetNumConnection token l =
      (if (multiplicity token h =? 0)%nat then Err (Error PlainError "Trying to get connections of a nonexistent token: %s")
       else Ok (Z.of_nat (multiplicity token h))) ∧
    Z.of_nat (multiplicity token h) ≤ 2.
Proof. split; [vm_compute; reflexivity|]. apply (connections_limited 2 [CAcquire "a"; CRelease "a"]). lia. Defined.
