(* ===== verification/UserCerts.v ===== *)
(** * Certificates of users (lib/auth/auth.go, lib/auth/keystore/raw.go, lib/tlsca/ca.go, lib/kube/utils/utils.go)

    What the auth server makes of a request for certificates that was found to be
    allowed: an SSH certificate and a TLS certificate of the same identity. *)

From Stdlib Require Import Ascii String.
From S2P Require Import Prelude.
From S2P Require Import Multiplexer.
From S2P Require Import Rotation.
From S2P Require Import Keys.
From S2P Require Import Strconv.
From S2P Require Import GoSlice.
From S2P Require Import Labels.
From S2P Require Import Parse.
From S2P Require Import Role.
From S2P Require Import Traits.
From S2P Require Import RoleSet.
From S2P Require Import AccessRequest.
From S2P Require Import RequestValidator.
From S2P Require Import Events.
From S2P Require Import Fanout.
From S2P Require Import FanoutSpec.
From S2P Require Import LockWatch.
From S2P Require Import Identity.
From S2P Require Import Users.
From S2P Require Import AccessInfo.
From S2P Require Import SystemRoles.
From S2P Require Import BuiltinRoles.
From S2P Require Import Authorizer.
From S2P Require Import SSHCert.
From S2P Require Import SSHLogin.
Local Open Scope string_scope.

(** ** Keys of authorities *)

(** Keys and certificates of X.509, and what is read of a certificate. *)
Record TLSTemplate := MkTemplate {
  t_Subject : Name; t_NotBefore : Z; t_NotAfter : Z; t_KeyUsage : Z; t_IsCA : bool; t_DNSNames : list string; t_IPAddresses : list bytes
}.
Class CryptoLib `{SSHLib} := {
  #[global] crypto_text :: IPText;
  CryptoKey : Type;
  crypto_key : SSHKey → option CryptoKey;
  ssh_ParseSigner : bytes → result Signer;
  TLSSigner : Type;
  ParsePrivateKeyPEM : bytes → result TLSSigner;
  ParsePublicKeyPEM : bytes → result CryptoKey;
  X509 : Type;
  ParseCertificatePEM : bytes → result X509;
  x509_CreateCertificate : TLSTemplate → X509 → CryptoKey → TLSSigner → result bytes;
  x509_Read : bytes → result TLSTemplate
}.
(** A certificate is read back with the name that its encoding gives, and times
    cut to seconds. *)
Class CryptoLibLaws `{CryptoLib} `{CertLibrary} : Prop := {
  x509_reads t ca key signer pem : x509_CreateCertificate t ca key signer = Ok pem →
    ∃ n, certified (t_Subject t) = Ok n ∧
      x509_Read pem = Ok (MkTemplate n (time_unix (t_NotBefore t) * Second) (time_unix (t_NotAfter t) * Second) (t_KeyUsage t) (t_IsCA t)
                              (t_DNSNames t) (t_IPAddresses t))
}.
Class Attestation `{CryptoLib} := {
  AttestationStatement : Type;
  AttestHardwareKey : KeyPolicy → option AttestationStatement → CryptoKey → Z → result string
}.

Section keystore.
Context `{CryptoLib}.

Definition CryptoPublicKey (publicKey : bytes) : result CryptoKey :=
  pubKey ← SSHCert.ParseAuthorizedKey publicKey;
  match crypto_key pubKey with
  | None => Err (Error BadParameter "expected ssh.CryptoPublicKey, got %T")
  | Some k => Ok k
  end.
Fixpoint first_raw_ssh (keyPairs : list SSHKeyPair) : result Signer :=
  match keyPairs with
  | [] => Err (Error NotFound "no raw SSH key pairs found in CA for %q")
  | keyPair :: keyPairs =>
      if (ssh_Type keyPair =? PrivateKeyType_RAW)%Z then ssh_ParseSigner (ssh_PrivateKey keyPair) else first_raw_ssh keyPairs
  end.
Definition GetSSHSigner (ca : CertAuthority) : result Signer := first_raw_ssh (SSH (ActiveKeys ca)).
Definition GetAdditionalTrustedSSHSigner (ca : CertAuthority) : result Signer := first_raw_ssh (SSH (AdditionalTrustedKeys ca)).
Fixpoint first_raw_tls (keyPairs : list TLSKeyPair) : result (bytes * TLSSigner) :=
  match keyPairs with
  | [] => Err (Error NotFound "no matching TLS key pairs found in CA for %q")
  | keyPair :: keyPairs =>
      if (tls_Type keyPair =? PrivateKeyType_RAW)%Z
      then signer ← ParsePrivateKeyPEM (tls_Key keyPair); Ok (tls_Cert keyPair, signer)
      else first_raw_tls keyPairs
  end.
Definition GetTLSCertAndSigner (ca : CertAuthority) : result (bytes * TLSSigner) := first_raw_tls (TLS (ActiveKeys ca)).
Definition GetAdditionalTrustedTLSCertAndSigner (ca : CertAuthority) : result (bytes * TLSSigner) :=
  first_raw_tls (TLS (AdditionalTrustedKeys ca)).
Definition keySetHasLocalKeys (keySet : CAKeySet) : bool :=
  existsb (fun kp => (ssh_Type kp =? PrivateKeyType_RAW)%Z) (SSH keySet) ||
  existsb (fun kp => (tls_Type kp =? PrivateKeyType_RAW)%Z) (TLS keySet) ||
  existsb (fun kp => (jwt_Type kp =? PrivateKeyType_RAW)%Z) (JWT keySet).
Definition HasLocalActiveKeys (ca : CertAuthority) : bool := keySetHasLocalKeys (ActiveKeys ca).
Definition HasLocalAdditionalKeys (ca : CertAuthority) : bool := keySetHasLocalKeys (AdditionalTrustedKeys ca).

(** ** The TLS authority *)

Definition FromCertAndSigner (certPEM : bytes) (signer : TLSSigner) : result (X509 * TLSSigner) :=
  cert ← ParseCertificatePEM certPEM; Ok (cert, signer).
(** What these certificates leave out stays empty: extensions and points of
    distribution; [KeyEncipherment | DigitalSignature] is 5. *)
Record CertificateRequest := MkCertificateRequest {
  tr_PublicKey : CryptoKey; tr_Subject : Name; tr_NotAfter : Z; tr_KeyUsage : Z; tr_DNSNames : list string
}.
Definition CertificateRequest_CheckAndSetDefaults (c : CertificateRequest) : result CertificateRequest :=
  if String.eqb (CommonName (tr_Subject c)) "" then Err (Error BadParameter "missing parameter Subject.Common name") else
  if is_zero_time (tr_NotAfter c) then Err (Error BadParameter "missing parameter NotAfter") else
  Ok (if (tr_KeyUsage c =? 0)%Z
      then MkCertificateRequest (tr_PublicKey c) (tr_Subject c) (tr_NotAfter c) 5 (tr_DNSNames c) else c).
(** Names that are addresses are kept apart. *)
Definition name_ip (name : string) : option bytes := ParseIP (bytes_of_string name).
Definition dns_names (names : list string) : list string := List.filter (fun n => bool_decide (name_ip n = None)) names.
Definition ip_addresses (names : list string) : list bytes := omap name_ip names.
Definition GenerateCertificate (now : Z) (ca : X509 * TLSSigner) (req : CertificateRequest) : result bytes :=
  req ← CertificateRequest_CheckAndSetDefaults req;
  x509_CreateCertificate
    (MkTemplate (tr_Subject req) (now - Minute) (tr_NotAfter req) (tr_KeyUsage req) false
       (dns_names (tr_DNSNames req)) (ip_addresses (tr_DNSNames req)))
    ca.1 (tr_PublicKey req) ca.2.
End keystore.

Definition GetTLSCerts (ca : CertAuthority) : list bytes := map tls_Cert (GetTrustedTLSKeyPairs ca).
Definition GetSSHCheckingKeys (ca : CertAuthority) : list bytes := map ssh_PublicKey (GetTrustedSSHKeyPairs ca).

(** ** Kubernetes clusters *)

(** A server has its name and its cluster's. *)
Definition extractAndSortKubeClusterNames (kubeServers : list (string * string)) : list string :=
  sort_Strings (map_to_list (fold_left (fun m ks => <[ ks.1 := ks.2 ]> m) kubeServers (∅ : gmap string string))).*2.
Definition CheckOrSetKubeCluster (kubeServers : result (list (string * string))) (kubeClusterName teleportClusterName : string)
    : result string :=
  kubeServers ← kubeServers;
  let kubeClusterNames := extractAndSortKubeClusterNames kubeServers in
  if negb (String.eqb kubeClusterName "") then
    if negb (SliceContainsStr kubeClusterNames kubeClusterName)
    then Err (Error BadParameter "kubernetes cluster %q is not registered in this teleport cluster") else Ok kubeClusterName
  else
  match kubeClusterNames with
  | [] => Err (Error NotFound "no kubernetes clusters registered")
  | first :: _ => if SliceContainsStr kubeClusterNames teleportClusterName then Ok teleportClusterName else Ok first
  end.

(** ** Requests *)

Record certRequest `{Attestation} := MkCertRequest {
  cr_user : option UserV2; cr_impersonator : string; cr_checker : option accessChecker; cr_ttl : Z; cr_publicKey : bytes;
  cr_compatibility : string; cr_overrideRoleTTL : bool; cr_usage : list string; cr_routeToCluster : string;
  cr_kubernetesCluster : string; cr_traits : UserTraits; cr_activeRequests : list string; cr_app : RouteToApp; cr_db : RouteToDatabase;
  cr_mfaVerified : string; cr_clientIP : string; cr_sourceIP : string; cr_disallowReissue : bool; cr_renewable : bool;
  cr_includeHostCA : bool; cr_generation : Z; cr_connectionDiagnosticID : string;
  cr_attestationStatement : option AttestationStatement; cr_skipAttestation : bool
}.
Definition ProtocolMongoDB : string := "mongodb".
Definition CertificateFormatUnspecified : string := "".
Definition CheckCertificateFormatFlag (s : string) : result string :=
  if String.eqb s CertificateFormatStandard || String.eqb s CertificateFormatOldSSH || String.eqb s CertificateFormatUnspecified
  then Ok s else Err (Error BadParameter "invalid certificate format parameter: %q").

Record Certs := MkCerts { certs_SSH : bytes; certs_TLS : bytes; TLSCACerts : list bytes; SSHCACerts : list bytes }.
(** Events of the audit log that these calls emit; failures to emit are only logged. *)
Inductive AuditEvent :=
  | CertificateCreate (identity : Identity)
  | UserLoginFailure (msg : string)
  | GenerationMismatch
  | TrustedClusterTokenCreate.

(** What the server reads, and its locks. *)
Class CertServer := {
  cs_GetAuthPreference : result AuthPreference;
  cs_GetClusterName : result string;
  cs_GetRemoteCluster : string → result (gmap string string);
  cs_GetCertAuthority : string → result CertAuthority;
  cs_GetKubernetesServers : result (list (string * string))
}.

Definition allow_NotFound {A} (none : A) (r : result A) : result A :=
  match r with Ok a => Ok a | Err e => if has_kind NotFound e then Ok none else Err e end.

Section issue.
Context `{Attestation} `{CertCodec} `{IdentityCodec} `{Modules} `{CertServer} `{GoSort} `{Regexp} `{MapOrder} `{Resource R}.

Definition cert_check (r : certRequest) : result (UserV2 * accessChecker) :=
  match cr_user r, cr_checker r with
  | None, _ => Err (Error BadParameter "missing parameter user")
  | _, None => Err (Error BadParameter "missing parameter checker")
  | Some user, Some checker =>
      if String.eqb (db_Protocol (cr_db r)) ProtocolMongoDB && String.eqb (db_Username (cr_db r)) ""
      then Err (Error BadParameter "must provide database user name to generate certificate for database %q")
      else Ok (user, checker)
  end.
(** The readings of the clock for the locks of the watcher, and the order in which
    they are looked at. *)
Definition checkLockInForce (clock : nat → Z) (order : map_range) (lockWatcher : option (lockCollector R)) (mode : string)
    (targets : list LockTarget) : result unit :=
  match lockWatcher with
  | None => Err (Error BadParameter "lockWatcher is not set")
  | Some p => CheckLockInForce clock order mode targets p
  end.
Definition cert_lock_targets (user : UserV2) (checker : accessChecker) (req : certRequest) : list LockTarget :=
  ([user_target (u_Name user); mfa_target (cr_mfaVerified req)] ++ RolesToLockTargets (RoleNames (checker_RoleSet checker)) ++
   AccessRequestsToLockTargets (cr_activeRequests req))%list.

(** How long the session is, and its logins. *)
Definition session_limits (set : RoleSet) (uuid : string) (req : certRequest) : result (Z * list string) :=
  if cr_overrideRoleTTL req then allowedLogins ← CheckLoginDuration set 0 uuid; Ok (cr_ttl req, allowedLogins)
  else
    let sessionTTL := AdjustSessionTTL set (cr_ttl req) in
    allowedLogins ← CheckLoginDuration set sessionTTL uuid; Ok (sessionTTL, allowedLogins).
Definition attested_policy (authPref : AuthPreference) (set : RoleSet) (req : certRequest) (key : CryptoKey) (sessionTTL : Z) : result string :=
  if cr_skipAttestation req then Ok "none" else
  AttestHardwareKey (PrivateKeyPolicy set (pref_PrivateKeyPolicy authPref)) (cr_attestationStatement req) key sessionTTL.
Definition route_to (set : RoleSet) (clusterName : string) (req : certRequest) : result string :=
  let routeToCluster := if String.eqb (cr_routeToCluster req) "" then clusterName else cr_routeToCluster req in
  if String.eqb routeToCluster clusterName then Ok routeToCluster else
  rc ← cs_GetRemoteCluster routeToCluster;
  match CheckAccessToRemoteCluster set rc with
  | Ok _ => Ok routeToCluster
  | Err e => if has_kind AccessDenied e then Err (Error NotFound "remote cluster %q not found") else Err e
  end.

Definition ssh_params (signer : Signer) (user : UserV2) (checker : accessChecker) (req : certRequest) (format route : string)
    (sessionTTL : Z) (allowedLogins : list string) (resources policy : string) : UserCertParams :=
  let set := checker_RoleSet checker in
  MkUserCertParams _ (Some signer) (cr_publicKey req) sessionTTL (u_Name user) (cr_impersonator req) allowedLogins
    (RoleSet_PermitX11Forwarding set) (CanForwardAgents set) (CanPortForward set) (RoleNames set) format route (cr_traits req)
    (cr_activeRequests req) (cr_mfaVerified req) (cr_clientIP req) (cr_sourceIP req) (cr_disallowReissue req)
    (CertificateExtensions set) (cr_renewable req) (cr_generation req) resources (cr_connectionDiagnosticID req) policy.
Definition tls_identity (user : UserV2) (checker : accessChecker) (req : certRequest) (clusterName route kube : string)
    (allowedLogins : list string) (kubeNames dbNames : list string * list string) (roleARNs : list string) (policy : string) : Identity :=
  MkIdentity (u_Name user) (cr_impersonator req) (RoleNames (checker_RoleSet checker)) [] (cr_usage req) allowedLogins
    kubeNames.1 kubeNames.2 zero_time route kube (cr_traits req) (cr_app req) clusterName (cr_db req) dbNames.1 dbNames.2
    (cr_mfaVerified req) (cr_clientIP req) roleARNs (cr_activeRequests req) (cr_disallowReissue req) (cr_renewable req)
    (cr_generation req) (RoleSet.AllowedResourceIDs checker) policy.

Definition generateUserCert (clock : nat → Z) (lockClock : nat → Z) (order : map_range) (lockWatcher : option (lockCollector R))
    (uuid : string) (req : certRequest) : list AuditEvent * outcome Certs :=
  let issued : outcome (Identity * Certs) :=
    '(user, checker) ⇐ Some (cert_check req);
    let set := checker_RoleSet checker in
    if (0 <? length (RoleSet.AllowedResourceIDs checker))%nat && negb IsEnterprise
    then fails PlainError "Resource Access Requests: this feature requires Teleport Enterprise" else
    authPref ⇐ Some cs_GetAuthPreference;
    _ ⇐ Some (checkLockInForce lockClock order lockWatcher (LockingMode set (pref_LockingMode authPref)) (cert_lock_targets user checker req));
    key ⇐ Some (CryptoPublicKey (cr_publicKey req));
    format ⇐ Some (CheckCertificateFormatFlag (cr_compatibility req));
    let format := if String.eqb format CertificateFormatUnspecified then RoleSet_CertificateFormat set else format in
    '(sessionTTL, allowedLogins) ⇐ Some (session_limits set uuid req);
    policy ⇐ Some (attested_policy authPref set req key sessionTTL);
    clusterName ⇐ Some cs_GetClusterName;
    route ⇐ Some (route_to set clusterName req);
    userCA ⇐ Some (cs_GetCertAuthority "user");
    caSigner ⇐ Some (GetSSHSigner userCA);
    let allowedLogins := (allowedLogins ++ [SSHSessionJoinPrincipal])%list in
    resources ⇐ Some (ResourceIDsToString (RoleSet.AllowedResourceIDs checker));
    sshCert ⇐ GenerateUserCert (clock 0) (clock 1)
                (ssh_params caSigner user checker req format route sessionTTL allowedLogins resources policy);
    kubeNames ⇐ Some (allow_NotFound ([], []) (CheckKubeGroupsAndUsers set sessionTTL (cr_overrideRoleTTL req) []));
    kube ⇐ Some (if String.eqb route clusterName
                 then allow_NotFound "" (CheckOrSetKubeCluster cs_GetKubernetesServers (cr_kubernetesCluster req) clusterName)
                 else Ok (cr_kubernetesCluster req));
    dbNames ⇐ Some (allow_NotFound ([], []) (CheckDatabaseNamesAndUsers set sessionTTL (cr_overrideRoleTTL req)));
    roleARNs ⇐ Some (allow_NotFound [] (CheckAWSRoleARNs set sessionTTL (cr_overrideRoleTTL req)));
    '(cert, signer) ⇐ Some (GetTLSCertAndSigner userCA);
    tlsAuthority ⇐ Some (FromCertAndSigner cert signer);
    let identity := tls_identity user checker req clusterName route kube allowedLogins kubeNames dbNames roleARNs policy in
    subject ⇐ Some (Subject identity);
    let notAfter := (clock 2%nat + sessionTTL)%Z in
    tlsCert ⇐ Some (GenerateCertificate (clock 3) tlsAuthority (MkCertificateRequest key subject notAfter 0 []));
    done (set_Expires notAfter identity, MkCerts sshCert tlsCert (GetTLSCerts userCA) (GetSSHCheckingKeys userCA)) in
  match issued with
  | None => ([], None)
  | Some (Err e) => ([], Some (Err e))
  | Some (Ok (identity, certs)) =>
      ([CertificateCreate identity],
       if negb (cr_includeHostCA req) then done certs else
       hostCA ⇐ Some (cs_GetCertAuthority "host");
       done (MkCerts (certs_SSH certs) (certs_TLS certs) (TLSCACerts certs ++ GetTLSCerts hostCA)%list
               (SSHCACerts certs ++ GetSSHCheckingKeys hostCA)%list))
  end.
End issue.

(** ** What certificates that were issued say *)
Section issued.
Context `{Attestation} `{CertCodec} `{IdentityCodec} `{Modules} `{CertServer} `{GoSort} `{Regexp} `{MapOrder} `{Resource R}.

(** The session of a request. *)
Definition session_of (set : RoleSet) (req : certRequest) : Z :=
  if cr_overrideRoleTTL req then cr_ttl req else AdjustSessionTTL set (cr_ttl req).
Lemma session_limits_Ok set uuid req ttl logins : session_limits set uuid req = Ok (ttl, logins) →
  ttl = session_of set req ∧ CheckLoginDuration set (if cr_overrideRoleTTL req then 0 else ttl) uuid = Ok logins.
Proof. unfold session_limits, session_of. destruct (cr_overrideRoleTTL req); intros (l & Hl & [= <- <-])%result_bind_Ok; done. Qed.
Lemma session_of_least set req : cr_overrideRoleTTL req = false →
  (session_of set req ≤ cr_ttl req)%Z ∧
  ∀ role, role ∈ set → MaxSessionTTL (GetOptions role) ≠ 0%Z → (session_of set req ≤ MaxSessionTTL (GetOptions role))%Z.
Proof. unfold session_of. intros ->. destruct (AdjustSessionTTL_least set (cr_ttl req)) as (? & ? & _). done. Qed.

Lemma UserCertParams_defaults c c' : UserCertParams_CheckAndSetDefaults c = Ok c' → c' = with_TTL (Z.max (p_TTL c) Minute) c.
Proof.
  unfold UserCertParams_CheckAndSetDefaults. destruct (p_CASigner c); [|done]. cbv zeta. destruct (length _ =? 0)%nat; [done|].
  unfold MinCertDuration. destruct (p_TTL c <? Minute)%Z eqn:E; intros [= <-].
  - apply Z.ltb_lt in E. by rewrite Z.max_r by lia.
  - apply Z.ltb_ge in E. rewrite Z.max_l by lia. by destruct c.
Qed.

(** Two certificates of one identity: the SSH certificate is the one of [c], and
    the name of the TLS certificate encodes [identity]; both are of the user, with
    the roles of the checker, its resources and the request's own fields. *)
Record issued (clock : nat → Z) (uuid : string) (req : certRequest) (user : UserV2) (checker : accessChecker) (certs : Certs) : Prop :=
  MkIssued {
    is_ssh : ∃ data c, certs_SSH certs = data ∧ GenerateUserCert (clock 0) (clock 1) c = done data ∧
      p_TTL c = session_of (checker_RoleSet checker) req ∧ p_Username c = u_Name user ∧ p_Roles c = RoleNames (checker_RoleSet checker) ∧
      p_Traits c = cr_traits req ∧ p_Impersonator c = cr_impersonator req ∧ p_DisallowReissue c = cr_disallowReissue req ∧
      p_Renewable c = cr_renewable req ∧ p_Generation c = cr_generation req ∧ p_ActiveRequests c = cr_activeRequests req ∧
      p_MFAVerified c = cr_mfaVerified req ∧ p_SourceIP c = cr_sourceIP req ∧
      ResourceIDsToString (RoleSet.AllowedResourceIDs checker) = Ok (p_AllowedResourceIDs c) ∧
      ∃ logins, p_AllowedLogins c = (logins ++ [SSHSessionJoinPrincipal])%list ∧
        CheckLoginDuration (checker_RoleSet checker) (if cr_overrideRoleTTL req then 0 else p_TTL c)%Z uuid = Ok logins;
    is_tls : ∃ identity n key signer ca,
      Subject identity = Ok n ∧
      GenerateCertificate (clock 3) (ca, signer)
        (MkCertificateRequest key n (clock 2%nat + session_of (checker_RoleSet checker) req) 0 []) = Ok (certs_TLS certs) ∧
      Username identity = u_Name user ∧ Identity.Groups identity = RoleNames (checker_RoleSet checker) ∧ id_Traits identity = cr_traits req ∧
      Impersonator identity = cr_impersonator req ∧ DisallowReissue identity = cr_disallowReissue req ∧
      Renewable identity = cr_renewable req ∧ Generation identity = cr_generation req ∧
      ActiveRequests identity = cr_activeRequests req ∧ MFAVerified identity = cr_mfaVerified req ∧
      AllowedResourceIDs identity = RoleSet.AllowedResourceIDs checker ∧ Usage identity = cr_usage req
  }.

Lemma generateUserCert_Ok clock lockClock order (lockWatcher : option (lockCollector R)) uuid req events certs :
  generateUserCert clock lockClock order lockWatcher uuid req = (events, done certs) →
  ∃ user checker authPref, cr_user req = Some user ∧ cr_checker req = Some checker ∧ cs_GetAuthPreference = Ok authPref ∧
    (RoleSet.AllowedResourceIDs checker ≠ [] → IsEnterprise = true) ∧
    checkLockInForce lockClock order lockWatcher (LockingMode (checker_RoleSet checker) (pref_LockingMode authPref))
      (cert_lock_targets user checker req) = Ok () ∧
    issued clock uuid req user checker certs.
Proof.
  unfold generateUserCert. match goal with |- context [attempt (Some (cert_check req)) ?f] => set (run := attempt (Some (cert_check req)) f) end.
  cbv zeta. intros Hrun. assert (∃ identity c, run = done (identity, c) ∧ certs_SSH certs = certs_SSH c ∧ certs_TLS certs = certs_TLS c)
    as (identity & c & E & Essh & Etls).
  { destruct run as [[[identity c]|]|]; [|done..]. exists identity, c. split; [done|]. injection Hrun as _ Hrun.
    destruct (negb (cr_includeHostCA req)); [by injection Hrun as <-|].
    destruct (cs_GetCertAuthority "host"); [by injection Hrun as <-|done]. }
  clear Hrun. subst run. unfold done in E. apply attempt_Ok in E as ([user checker] & [= Hcheck] & E).
  destruct (_ && _) eqn:Hent in E; [done|].
  apply attempt_Ok in E as (authPref & [= Hpref] & ([] & [= Hlock] & (key & [= Hkey] & (format & [= Hformat] &
    ([ttl logins] & [= Httl] & (policy & [= Hpolicy] & (clusterName & [= Hcn] & (route & [= Hroute] & (userCA & [= HuserCA] &
    (caSigner & [= Hsigner] & (resources & [= Hres] & (sshCert & Hssh & E)%attempt_Ok)%attempt_Ok)%attempt_Ok)%attempt_Ok)%attempt_Ok)%attempt_Ok)%attempt_Ok)%attempt_Ok)%attempt_Ok)%attempt_Ok)%attempt_Ok).
  apply attempt_Ok in E as (kubeNames & _ & (kube & _ & (dbNames & _ & (roleARNs & _ & ([cert signer] & _ & ([ca signer'] & _ &
    (subject & [= Hsubject] & (tlsCert & [= Htls] & [= <- <-])%attempt_Ok)%attempt_Ok)%attempt_Ok)%attempt_Ok)%attempt_Ok)%attempt_Ok)%attempt_Ok).
  apply session_limits_Ok in Httl as [-> Hlogins].
  exists user, checker, authPref. unfold cert_check in Hcheck.
  destruct (cr_user req) as [user'|]; [|done]. destruct (cr_checker req) as [checker'|]; [|done].
  destruct (_ && _) in Hcheck; [done|]. injection Hcheck as -> ->.
  split_and!; [done|done|done| |done|].
  { intros Hne. destruct IsEnterprise; [done|]. destruct (RoleSet.AllowedResourceIDs checker); [done|]. done. }
  constructor.
  - eexists _, _. split; [exact Essh|]. split; [exact Hssh|]. cbn. split_and!; try done. exists logins. split; [done|].
    by destruct (cr_overrideRoleTTL req).
  - eexists _, _, _, _, _. split; [exact Hsubject|]. split; [rewrite Etls; exact Htls|]. done.
Qed.

(** The SSH certificate of a session that is over is still valid for a minute. *)
Lemma issued_ssh_expiry clock uuid req user checker certs : issued clock uuid req user checker certs → ∀ `{!SSHLibLaws},
  ∃ cert, ParseCertificate (certs_SSH certs) = Ok cert ∧
    ValidBefore cert = u64 (time_unix (clock 0%nat + Z.max (session_of (checker_RoleSet checker) req) Minute)).
Proof.
  intros [(data & c & -> & Hc & Httl & _) _] Hlaws. apply GenerateUserCert_cert in Hc as (c1 & cert & Hd & Hc & Hp).
  exists cert. split; [done|]. apply UserCertParams_defaults in Hd as ->.
  destruct (certificate_says _ _ _ _ Hc) as (_ & _ & _ & _ & _ & _ & _ & Hv & _). rewrite Hv. cbn [with_TTL p_TTL]. rewrite Httl.
  destruct (Z.eqb_spec (Z.max (session_of (checker_RoleSet checker) req) Minute) 0) as [E|]; [|done].
  exfalso. unfold Minute, Second in E. lia.
Qed.
(** The TLS certificate is valid until the session's end. *)
Lemma issued_tls_expiry `{CertLibrary} `{!CryptoLibLaws} clock uuid req user checker certs :
  issued clock uuid req user checker certs →
  ∃ t, x509_Read (certs_TLS certs) = Ok t ∧ t_IsCA t = false ∧
    t_NotAfter t = (time_unix (clock 2%nat + session_of (checker_RoleSet checker) req) * Second)%Z.
Proof.
  intros [_ (identity & n & key & signer & ca & _ & Hg & _)].
  apply result_bind_Ok in Hg as (creq & Hd & Hg). apply x509_reads in Hg as (n' & _ & Hr). eexists. split; [exact Hr|].
  split; [done|]. cbn [t_NotAfter]. unfold CertificateRequest_CheckAndSetDefaults in Hd.
  destruct (String.eqb _ _); [done|]. destruct (is_zero_time _); [done|]. by injection Hd as <-.
Qed.
End issued.
