(* ===== verification/Generation.v ===== *)
(** * Generations of renewable certificates (lib/auth/bot.go)

    Each renewal of a bot's certificate counts up a label of its user. A renewal
    with a certificate of another generation locks the user. *)

From Stdlib Require Import Ascii String.
From S2P Require Import Prelude.
From S2P Require Import Rotation.
From S2P Require Import Keys.
From S2P Require Import Strconv.
From S2P Require Import Backend.
From S2P Require Import GoSlice.
From S2P Require Import Labels.
From S2P Require Import Parse.
From S2P Require Import Role.
From S2P Require Import Traits.
From S2P Require Import RoleSet.
From S2P Require Import AccessRequest.
From S2P Require Import RequestValidator.
From S2P Require Import DynamicAccess.
From S2P Require Import Identity.
From S2P Require Import Users.
From S2P Require Import UserLock.
From S2P Require Import Events.
From S2P Require Import LockWatch.
From S2P Require Import LockStore.
From S2P Require Import SSHCert.
From S2P Require Import SSHLogin.
From S2P Require Import UserCerts.
Local Open Scope string_scope.

(** ** The auth server's state: its backend, and the audit log *)

Record AuthState (B : Type) := MkAuthState { as_backend : B; as_audit : list AuditEvent }.
Arguments MkAuthState {B}.
Arguments as_backend {B}.
Arguments as_audit {B}.
Definition on_backend {B A} (m : goM B A) : goM (AuthState B) A :=
  fun s => match m (as_backend s) with None => None | Some (a, b) => Some (a, MkAuthState b (as_audit s)) end.
Definition emit_all {B} (events : list AuditEvent) : goM (AuthState B) unit :=
  fun s => Some ((), MkAuthState (as_backend s) (as_audit s ++ events)%list).

Section requests.
Context `{Attestation}.
Definition cr_eta (r : certRequest) : certRequest :=
  MkCertRequest _ _ _ (cr_user r) (cr_impersonator r) (cr_checker r) (cr_ttl r) (cr_publicKey r) (cr_compatibility r)
    (cr_overrideRoleTTL r) (cr_usage r) (cr_routeToCluster r) (cr_kubernetesCluster r) (cr_traits r) (cr_activeRequests r)
    (cr_app r) (cr_db r) (cr_mfaVerified r) (cr_clientIP r) (cr_sourceIP r) (cr_disallowReissue r) (cr_renewable r)
    (cr_includeHostCA r) (cr_generation r) (cr_connectionDiagnosticID r) (cr_attestationStatement r) (cr_skipAttestation r).
Definition cr_set_includeHostCA : bool → certRequest → certRequest := ltac:(with_field cr_eta cr_includeHostCA).
Definition cr_set_generation : Z → certRequest → certRequest := ltac:(with_field cr_eta cr_generation).
Definition cr_set_mfaVerified : string → certRequest → certRequest := ltac:(with_field cr_eta cr_mfaVerified).
Definition cr_set_clientIP : string → certRequest → certRequest := ltac:(with_field cr_eta cr_clientIP).
Definition cr_set_renewable : bool → certRequest → certRequest := ltac:(with_field cr_eta cr_renewable).
End requests.

(** ** Labels of bots *)

Definition BotLabel : string := "teleport.internal/bot".
Definition BotGenerationLabel : string := "teleport.internal/bot-generation".
Definition user_label (name : string) (u : UserV2) : option string := md_Labels (u_Metadata u) !! name.
Definition set_label (name value : string) (u : UserV2) : UserV2 :=
  let m := u_Metadata u in
  SetMetadata (MkMetadata (md_Name m) (md_Namespace m) (md_Description m) (<[ name := value ]> (md_Labels m)) (md_Expires m) (md_ID m)) u.
Definition sprint_uint (n : Z) : string := string_of_bytes (format_uint n).

Definition stored_generation (u : UserV2) : result Z :=
  match user_label BotGenerationLabel u with
  | None => Ok 0%Z
  | Some label =>
      match ParseUint (bytes_of_string label) with
      | Ok n => Ok n
      | Err _ => Err (Error BadParameter "user has invalid value for label %q")
      end
  end.

Section validate.
Context `{Attestation} `{UserCodec} `{Codec LockV2} `{BackendLaws B}.
Implicit Types (req : certRequest).

Definition err_compare : error := Error CompareFailed "Database comparison failed, try the request again".
Definition err_reissued : error :=
  Error BadParameter "user %q has already been issued a renewable certificate and cannot be issued another; consider deleting and recreating the bot".
Definition err_generation_one : error :=
  Error BadParameter "explicitly requested generation %d is not equal to 1, this is a logic error".
Definition err_generation : error := Error AccessDenied "renewable cert generation mismatch: stored=%v, presented=%v".

(** The label is written into a fresh copy of the user, which replaces the user
    that was read first; [other] is what other clients do in between. A user that
    is read without labels has no map to write to. *)
Definition commit_generation (clock : nat → Z) (other : goM B unit) (user : UserV2) (generation : Z) : goM B (result unit) :=
  r ← GetUser (clock 1) (u_Name user);
  match r with
  | Err e => mret (Err e)
  | Ok newUser =>
      if bool_decide (md_Labels (u_Metadata newUser) = ∅) then go_panic else
      _ ← other;
      r ← CompareAndSwapUser (clock 2) (set_label BotGenerationLabel (sprint_uint generation) newUser) user;
      mret (match r with Ok _ => Ok () | Err _ => Err err_compare end)
  end.
Definition lock_bot (clock : nat → Z) (uuid : string) (user : UserV2) : goM (AuthState B) (result certRequest) :=
  match NewLock uuid (user_target (u_Name user)) "The bot user %q has been locked due to a certificate generation mismatch, possibly indicating a stolen certificate." None with
  | Err e => mret (Err e)
  | Ok lock =>
      r ← on_backend (UpsertLock (clock 1) lock);
      match r with
      | Err e => mret (Err e)
      | Ok _ => _ ← emit_all [GenerationMismatch]; mret (Err err_generation)
      end
  end.
(** [other] is what other clients do after the first read, and before the user is
    replaced. *)
Definition validateGenerationLabel (clock : nat → Z) (other : nat → goM B unit) (uuid name : string) (certReq : certRequest)
    (currentIdentityGeneration : Z) : goM (AuthState B) (result certRequest) :=
  r ← on_backend (GetUser (clock 0) name);
  match r with
  | Err e => mret (Err e)
  | Ok user =>
      match stored_generation user with
      | Err e => mret (Err e)
      | Ok currentUserGeneration =>
          if (currentUserGeneration =? 0)%Z && (currentIdentityGeneration =? 0)%Z && (cr_generation certReq =? 0)%Z
          then mret (Ok certReq) else
          let certReq := cr_set_includeHostCA true certReq in
          _ ← on_backend (other 0%nat);
          if (cr_generation certReq >? 0)%Z then
            if (currentUserGeneration >? 0)%Z then mret (Err err_reissued) else
            if negb (cr_generation certReq =? 1)%Z then mret (Err err_generation_one) else
            r ← on_backend (commit_generation clock (other 1%nat) user (cr_generation certReq));
            mret (match r with Ok _ => Ok certReq | Err e => Err e end)
          else
          if negb (currentIdentityGeneration =? currentUserGeneration)%Z then lock_bot clock uuid user else
          let newGeneration := u64 (currentIdentityGeneration + 1) in
          r ← on_backend (commit_generation clock (other 1%nat) user newGeneration);
          mret (match r with Ok _ => Ok (cr_set_generation newGeneration certReq) | Err e => Err e end)
      end
  end.
End validate.

(** ** A generation is used once *)

Lemma goM_bind_Some {S A C} (m : goM S A) (f : A → goM S C) s r s' :
  (m ≫= f) s = Some (r, s') ↔ ∃ a s1, m s = Some (a, s1) ∧ f a s1 = Some (r, s').
Proof.
  rewrite goM_bind_unfold. split; [|by intros (a & s1 & -> & ?)].
  destruct (m s) as [[a s1]|]; [|done]. intros ?. by exists a, s1.
Qed.
Lemma on_backend_Some {B A} (m : goM B A) s r s' :
  on_backend m s = Some (r, s') ↔ ∃ b, m (as_backend s) = Some (r, b) ∧ s' = MkAuthState b (as_audit s).
Proof.
  unfold on_backend. split; [|by intros (b & -> & ->)].
  destruct (m (as_backend s)) as [[a b]|]; [|done]. intros [= <- <-]. by exists b.
Qed.

Lemma ascii_utf8 l : Forall (fun c => 0 ≤ c < 128)%Z l → utf8_Valid l = true.
Proof. induction 1 as [|c l Hc _ IH]; [done|]. cbn [utf8_Valid]. by rewrite (proj2 (Z.ltb_lt c 128)) by lia. Qed.
Lemma sprint_uint_utf8 n : (0 ≤ n)%Z → utf8 (sprint_uint n).
Proof.
  intros Hn. pose proof (decimal_digits 20 n Hn) as Hd. unfold utf8, utf8_string, sprint_uint, format_uint.
  rewrite bytes_of_string_of_bytes by (eapply Forall_impl; [exact Hd|]; unfold is_byte; cbn; lia).
  apply ascii_utf8. eapply Forall_impl; [exact Hd|]. cbn. lia.
Qed.
Lemma sprint_uint_parse n : (0 ≤ n < 2 ^ 64)%Z → ParseUint (bytes_of_string (sprint_uint n)) = Ok n.
Proof. apply ParseUint_format_uint. Qed.

Lemma userKey_eq name : userKey name = (bytes_of_string "/web/users/" ++ bytes_of_string name ++ bytes_of_string "/params")%list.
Proof.
  unfold userKey, path, Key, internalKey. cbn [map join_sep]. change (bytes_of_string "/web/users/") with
    (Separator :: bytes_of_string webPrefix ++ Separator :: bytes_of_string usersPrefix ++ [Separator])%list.
  change (bytes_of_string "/params") with (Separator :: bytes_of_string paramsPrefix). cbn [app]. rewrite <- ?app_assoc. reflexivity.
Qed.
Lemma userKey_nonempty name : userKey name ≠ [].
Proof. rewrite userKey_eq. discriminate. Qed.
Lemma userKey_inj name name' : userKey name = userKey name' → name = name'.
Proof. rewrite !userKey_eq. intros E%app_inv_head%app_inv_tail. by apply bytes_of_string_inj. Qed.

Lemma user_lock_valid (m : Metadata) name msg expires : metadata_ok m → name ≠ "" →
  Lock_CheckAndSetDefaults (MkLock m (user_target name) msg expires) = Ok (MkLock (metadata_defaults m) (user_target name) msg expires).
Proof.
  intros Hm Hn. unfold Lock_CheckAndSetDefaults. cbn [lock_Metadata].
  rewrite (proj2 (Metadata_ok m _) (conj Hm eq_refl)). cbn [mbind result_bind lock_Target].
  assert (Target_IsEmpty (user_target name) = false) as ->; [|done].
  unfold Target_IsEmpty, user_target. apply bool_decide_eq_false_2. intros [= E]. done.
Qed.
Lemma fresh_metadata_ok name : name ≠ "" → metadata_ok (MkMetadata name "" "" ∅ None 0) ∧ metadata_ok (metadata_defaults (MkMetadata name "" "" ∅ None 0)).
Proof. intros Hn. split; (split; [done|]; split; [apply map_Forall_empty|by left]). Qed.

Section once.
Context `{Attestation} `{UserCodecLaws} `{!Codec LockV2} `{!CodecLaws LockV2} `{BL : BackendLaws B}.
Implicit Types (req : certRequest) (b : B) (u : UserV2) (m : gmap bytes Item).

(** Users are stored under their own names, with well-formed text. *)
Definition users_wf m : Prop :=
  ∀ name item u, m !! userKey name = Some item → unmarshal_item item = Ok u → u_Name u = name ∧ Forall utf8 (user_strings u).
Definition server_state b : Prop := bk_inv b ∧ users_wf (bk_view b).
(** Other clients keep it so. *)
Definition decent (other : nat → goM B unit) : Prop := ∀ n b r b', server_state b → other n b = Some (r, b') → server_state b'.

Lemma users_wf_purged now m m' : purged now m m' → users_wf m → users_wf m'.
Proof. intros (Hsub & _) Hw name item u Hi. apply Hw. by eapply lookup_weaken. Qed.

Lemma GetUser_state now name b r b' : server_state b → GetUser now name b = Some (r, b') →
  server_state b' ∧ (∀ u, r = Ok u → u_Name u = name ∧ Forall utf8 (user_strings u) ∧
    metadata_ok (u_Metadata u) ∧ check_identities (OIDCIdentities u) = Ok ()).
Proof.
  intros [Hb Hw] Hr. unfold GetUser in Hr. destruct (String.eqb name ""); [injection Hr as <- <-; done|].
  apply goM_bind_Some in Hr as (ri & b1 & Hg & Hr). injection Hr as <- <-.
  destruct (bk_Get_law now (userKey name) b Hb) as (ri' & b1' & Hg' & Hb1 & Hs). rewrite Hg in Hg'. injection Hg' as <- <-.
  destruct (bool_decide _) in Hs; [destruct Hs as [-> ->]; done|]. destruct Hs as (m & Hp & Hv & ->).
  pose proof (users_wf_purged _ _ _ Hp Hw) as Hwm. split; [by split; [|rewrite Hv]|].
  intros u Hu. destruct (m !! userKey name) as [item|] eqn:Hi; [|done]. destruct (Hwm _ _ _ Hi Hu) as [Hn Hs].
  apply UnmarshalUser_spec in Hu as (? & ? & _). done.
Qed.

Lemma labels_utf8 (l : gmap string string) :
  Forall utf8 (concat (map (fun p => [p.1; p.2]) (map_to_list l))) ↔ map_Forall (fun k v => utf8 k ∧ utf8 v) l.
Proof.
  rewrite map_Forall_to_list. induction (map_to_list l) as [|[k v] kvs IH]; [done|]. cbn [map concat app]. rewrite !Forall_cons, IH. cbn. tauto.
Qed.
(** A label of a user that was read. *)
Lemma set_label_valid u label v :
  metadata_ok (u_Metadata u) → Forall utf8 (user_strings u) → IsValidLabelKey label = true → label ≠ OriginLabel → utf8 label → utf8 v →
  metadata_ok (u_Metadata (set_label label v u)) ∧ Forall utf8 (user_strings (set_label label v u)).
Proof.
  intros (Hn & Hl & Ho) Hs Hk Hne Hu Hv. split.
  - split; [done|]. split; [by apply map_Forall_insert_2|]. unfold Origin in *. cbn. by rewrite lookup_insert_ne.
  - unfold user_strings in *. rewrite !Forall_app in *. destruct Hs as (Hhead & Hlabels & Hrest). split; [exact Hhead|split; [|exact Hrest]].
    cbn [set_label SetMetadata u_Metadata md_Labels]. apply labels_utf8, map_Forall_insert_2; [done|]. by apply labels_utf8.
Qed.
(** A valid user that is written is read back, with its labels. *)
Lemma user_item_back v id item :
  metadata_ok (u_Metadata v) → check_identities (OIDCIdentities v) = Ok () → Forall utf8 (user_strings v) → user_item v id = Ok item →
  it_Key item = userKey (u_Name v) ∧ it_Expires item = Expiry v ∧ MarshalUser v = Ok (it_Value item, SetMetadata (metadata_defaults (u_Metadata v)) (setStaticFields v)) ∧
  ∀ id' e, ∃ u', UnmarshalUser (it_Value item) id' e = Ok u' ∧ u_Name u' = u_Name v ∧ Forall utf8 (user_strings u') ∧
    md_Labels (u_Metadata u') = md_Labels (u_Metadata v) ∧ (is_zero_time e = true → Expiry u' = Expiry v).
Proof.
  intros Hm Hc Hs. unfold user_item, MarshalUser.
  set (v1 := SetMetadata (metadata_defaults (u_Metadata v)) (setStaticFields v)).
  rewrite (proj2 (CheckAndSetDefaults_spec v v1) (conj Hm (conj Hc eq_refl))). cbn [mbind result_bind].
  assert (CheckAndSetDefaults v1 = Ok v1) as E1.
  { apply CheckAndSetDefaults_spec. split; [exact Hm|]. split; [done|]. unfold v1, metadata_defaults.
    destruct (String.eqb (md_Namespace (u_Metadata v)) "") eqn:E; destruct v; cbn in *; rewrite ?E; reflexivity. }
  rewrite E1. cbn [mbind result_bind]. intros [= <-]. cbn [it_Key it_Expires it_Value].
  assert (Forall utf8 (user_strings (SetResourceID 0 v1))) as Hs2.
  { unfold user_strings in *. apply Forall_app in Hs as [Hhd Htl]. apply Forall_app. split; [|exact Htl].
    repeat (apply Forall_cons in Hhd as [? Hhd]). repeat constructor; assumption || reflexivity. }
  split; [done|]. split; [done|]. split; [done|]. intros id' e. rewrite unmarshal_written by done. cbv zeta. eexists. split; [reflexivity|].
  split_and!; [by destruct (id' =? 0)%Z, (is_zero_time e)..|]. intros ->. by destruct (id' =? 0)%Z.
Qed.

(** The user is replaced only when it is still stored as it was first read, and
    is then stored with the generation. *)
Definition has_generation (name : string) (g : Z) m : Prop :=
  ∃ item u, m !! userKey name = Some item ∧ unmarshal_item item = Ok u ∧ stored_generation u = Ok g ∧ u_Name u = name.
Lemma stored_generation_label u g : (0 ≤ g < 2 ^ 64)%Z → user_label BotGenerationLabel u = Some (sprint_uint g) → stored_generation u = Ok g.
Proof. intros Hg Hl. unfold stored_generation. by rewrite Hl, sprint_uint_parse. Qed.
Lemma stored_generation_labels u v : md_Labels (u_Metadata u) = md_Labels (u_Metadata v) → stored_generation u = stored_generation v.
Proof. intros E. unfold stored_generation, user_label. by rewrite E. Qed.
Lemma commit_generation_spec clock (other : goM B unit) user g g0 b b' :
  server_state b → (∀ b r b', server_state b → other b = Some (r, b') → server_state b') → (0 ≤ g < 2 ^ 64)%Z →
  metadata_ok (u_Metadata user) → check_identities (OIDCIdentities user) = Ok () → Forall utf8 (user_strings user) →
  stored_generation user = Ok g0 → commit_generation clock other user g b = Some (Ok (), b') →
  server_state b' ∧ has_generation (u_Name user) g (bk_view b') ∧
  ∃ before, users_wf before ∧ has_generation (u_Name user) g0 before ∧ ∀ k, k ≠ userKey (u_Name user) → bk_view b' !! k = before !! k.
Proof.
  intros Hst Hother Hg Hm Hc Hs Hg0 Hrun. unfold commit_generation in Hrun.
  apply goM_bind_Some in Hrun as (r & b1 & Hget & Hrun). apply (GetUser_state _ _ _ _ _ Hst) in Hget as [Hst1 Hu].
  destruct r as [newUser|]; [|done]. destruct (Hu newUser eq_refl) as (Hn & Hs1 & Hm1 & Hc1).
  case_bool_decide; [done|]. apply goM_bind_Some in Hrun as ([] & b2 & Ho & Hrun). apply (Hother _ _ _ Hst1) in Ho as [Hb2 Hw2].
  set (v := set_label _ _ newUser) in Hrun.
  destruct (set_label_valid newUser BotGenerationLabel (sprint_uint g) Hm1 Hs1) as [Hmv Hsv]; [done..|apply sprint_uint_utf8; lia|].
  fold v in Hmv, Hsv. assert (u_Name v = u_Name user) as Hnv by exact Hn.
  apply goM_bind_Some in Hrun as (r & b3 & Hcas & Hrun). unfold CompareAndSwapUser in Hcas.
  destruct (user_item_valid user 0 Hm Hc) as [olditem Eold]. destruct (user_item_back user 0 olditem Hm Hc Hs Eold) as (_ & _ & Eold' & Hback).
  destruct (user_item_valid v (md_ID (u_Metadata v)) Hmv Hc1) as [item Ei].
  destruct (user_item_back v (md_ID (u_Metadata v)) item Hmv Hc1 Hsv Ei) as (Hkey & Hexp & _ & Hbackv).
  rewrite Ei in Hcas. cbn [mbind result_bind] in Hcas. rewrite Eold' in Hcas. cbn [mbind result_bind] in Hcas.
  apply goM_bind_Some in Hcas as (rc & b4 & Hcas & Hr). injection Hr as <- <-.
  set (old := mkItem _ _ _ _ _) in Hcas. assert (it_Key old = userKey (u_Name user)) as Hko by done.
  destruct (bk_CompareAndSwap_law (clock 2) old item b2 Hb2) as (rc' & b4' & Hcas' & Hb4 & Hlaw).
  rewrite Hcas in Hcas'. injection Hcas' as <- <-. rewrite Hkey, Hnv, Hko in Hlaw.
  rewrite (bool_decide_eq_false_2 (userKey _ = [])) in Hlaw by apply userKey_nonempty. cbn [orb] in Hlaw.
  rewrite bool_decide_eq_true_2 in Hlaw by done. cbn [negb] in Hlaw.
  destruct rc as [l|e].
  2:{ destruct (has_kind CompareFailed e); by injection Hrun. }
  injection Hrun as <-. destruct Hlaw as (before & Hp & Hlaw). pose proof (users_wf_purged _ _ _ Hp Hw2) as Hwb.
  destruct (before !! userKey (u_Name user)) as [cur|] eqn:Hcur; [|by destruct Hlaw].
  case_bool_decide as Hval; [|by destruct Hlaw]. destruct Hlaw as (_ & iid & Hv4).
  rewrite Hkey, Hnv in Hv4.
  assert (∃ u', unmarshal_item (with_ID iid item) = Ok u' ∧ u_Name u' = u_Name user ∧ Forall utf8 (user_strings u') ∧
    md_Labels (u_Metadata u') = md_Labels (u_Metadata v)) as (u' & Hu' & Hn' & Hs' & Hl').
  { destruct (Hbackv iid (it_Expires item)) as (u' & ? & ? & ? & ? & _). exists u'. rewrite <- Hnv. done. }
  split; [split; [done|]|split].
  - intros name i u Hi Hui. rewrite Hv4 in Hi. apply lookup_insert_Some in Hi as [[E <-]|[_ Hi]]; [|by eapply Hwb].
    rewrite Hu' in Hui. injection Hui as <-. split; [|done]. rewrite Hn'.
    by apply userKey_inj.
  - exists (with_ID iid item), u'. split; [rewrite Hv4; apply lookup_insert_eq|]. split; [done|]. split; [|done].
    apply stored_generation_label; [done|]. unfold user_label. rewrite Hl'. unfold v, set_label. cbn. apply lookup_insert_eq.
  - exists before. split; [done|]. split.
    + destruct (Hback (it_ID cur) (it_Expires cur)) as (u0 & Hu0 & Hn0 & _ & Hl0 & _). exists cur, u0. split; [done|].
      split; [unfold unmarshal_item; rewrite Hval; exact Hu0|]. split; [|done]. rewrite <- Hg0. by apply stored_generation_labels.
    + intros k Hk. rewrite Hv4. by apply lookup_insert_ne.
Qed.

Lemma GetUser_item E now name item b :
  bk_inv b → (now ≤ E)%Z → name ≠ "" → bk_view b !! userKey name = Some item → ¬ expired E item →
  ∃ b', GetUser now name b = Some (unmarshal_item item, b') ∧ bk_inv b' ∧ purged now (bk_view b) (bk_view b').
Proof.
  intros Hb HE Hname Hi Hne. unfold GetUser. rewrite (proj2 (String.eqb_neq _ _) Hname).
  destruct (bk_Get_law now (userKey name) b Hb) as (r & b' & Hr & Hb' & Hsp).
  rewrite bool_decide_eq_false_2 in Hsp by apply userKey_nonempty. destruct Hsp as (m & Hp & Hv & ->).
  exists b'. rewrite goM_bind_unfold, Hr, Hv. split; [|done].
  assert (m !! userKey name = Some item) as ->; [|done]. destruct Hp as (Hsub & Hexp & _).
  destruct (m !! userKey name) as [j|] eqn:Hj; [by rewrite <- Hi; symmetry; eapply lookup_weaken|].
  destruct Hne. destruct (Hexp _ _ Hi Hj). split; [done|lia].
Qed.

(** A lock on the user without an end is stored. *)
Definition locked_out (name uuid : string) m : Prop :=
  ∃ item lock, m !! lockItemKey uuid = Some item ∧ decode_json (it_Value item) = Ok lock ∧
    lock_Target lock = user_target name ∧ lock_Expires lock = None.
Lemma lock_bot_locks clock uuid user s :
  bk_inv (as_backend s) → uuid ≠ "" → u_Name user ≠ "" →
  ∃ s', lock_bot clock uuid user s = Some (Err err_generation, s') ∧ bk_inv (as_backend s') ∧
    locked_out (u_Name user) uuid (bk_view (as_backend s')) ∧ as_audit s' = (as_audit s ++ [GenerationMismatch])%list.
Proof.
  intros Hb Huuid Hname. unfold lock_bot, NewLock. rewrite user_lock_valid by (done || apply fresh_metadata_ok; done).
  rewrite goM_bind_unfold. unfold on_backend, UpsertLock, lock_item, MarshalLock.
  rewrite user_lock_valid by (done || apply fresh_metadata_ok; done).
  set (lock := MkLock _ _ _ _).
  cbn [mbind result_bind]. set (item := mkItem _ _ _ _ _).
  destruct (bk_Put_law (clock 1) item (as_backend s) Hb) as (r & b' & Hr & Hb' & Hlaw).
  rewrite (bool_decide_eq_false_2 (it_Key item = [])) in Hlaw by (cbn [it_Key item]; rewrite lockItemKey_eq; discriminate).
  destruct Hlaw as (m & _ & -> & iid & Hv). rewrite goM_bind_unfold, Hr. cbn.
  eexists. split; [reflexivity|]. split; [done|]. split; [|done]. exists (with_ID iid item), (lock_SetResourceID 0 lock).
  cbn [as_backend]. rewrite Hv. split; [apply lookup_insert_eq|]. cbn [it_Value with_ID item]. by rewrite decode_encode.
Qed.

(** A renewal with another generation than the stored one locks the user. *)
Lemma mismatch_locks E clock other uuid name req g n item u s :
  bk_inv (as_backend s) → (∀ b, bk_inv b → ∃ b', other 0%nat b = Some ((), b') ∧ bk_inv b') →
  (clock 0%nat ≤ E)%Z → bk_view (as_backend s) !! userKey name = Some item → ¬ expired E item → unmarshal_item item = Ok u →
  u_Name u = name → stored_generation u = Ok n → g ≠ n → cr_generation req = 0%Z → uuid ≠ "" →
  ∃ s', validateGenerationLabel clock other uuid name req g s = Some (Err err_generation, s') ∧
    locked_out name uuid (bk_view (as_backend s')) ∧ as_audit s' = (as_audit s ++ [GenerationMismatch])%list.
Proof.
  intros Hb Hother HE Hi Hne Hu Hn Hg Hgn Hreq Huuid.
  assert (name ≠ "") as Hname by (rewrite <- Hn; by apply UnmarshalUser_spec in Hu as ((? & _) & _)).
  destruct (GetUser_item E (clock 0%nat) name item _ Hb HE Hname Hi Hne) as (b1 & Hget & Hb1 & _).
  unfold validateGenerationLabel. rewrite goM_bind_unfold. unfold on_backend at 1. rewrite Hget, Hu, Hg, Hreq.
  assert ((n =? 0)%Z && (g =? 0)%Z && (0 =? 0)%Z = false) as ->.
  { destruct (Z.eqb_spec n 0), (Z.eqb_spec g 0); try done. subst. done. }
  cbv zeta. cbn [cr_set_includeHostCA cr_generation]. rewrite Hreq. cbn [Z.gtb Z.compare].
  destruct (Hother b1 Hb1) as (b2 & Ho & Hb2). rewrite goM_bind_unfold. unfold on_backend at 1. cbn [as_backend]. rewrite Ho.
  rewrite (proj2 (Z.eqb_neq _ _) Hgn). cbn [negb as_audit].
  destruct (lock_bot_locks clock uuid u (MkAuthState b2 (as_audit s))) as (s' & -> & _ & Hlock & Haudit); [done..|by rewrite Hn|].
  exists s'. split; [done|]. by rewrite <- Hn.
Qed.

(** C6: the generation of a renewable certificate can be used once. When a renewal
    with a generation is let through, the user was stored with that generation
    and is now stored with the next one, which the new certificate gets. As long as
    the user stays stored so, whatever else happens to the server's state, a second
    renewal with the same generation is refused, and leaves a lock on the user
    that never ends; it makes no difference whether the first renewal was
    given its certificate. *)
Theorem generation_used_once E clock other uuid clock' other' uuid' name req req1 req' g s s1 :
  server_state (as_backend s) → decent other → (0 < g < 2 ^ 64)%Z → cr_generation req = 0%Z →
  validateGenerationLabel clock other uuid name req g s = Some (Ok req1, s1) →
  cr_generation req1 = u64 (g + 1) ∧ cr_includeHostCA req1 = true ∧ server_state (as_backend s1) ∧
  (∃ before, has_generation name g before ∧ ∀ k, k ≠ userKey name → bk_view (as_backend s1) !! k = before !! k) ∧
  has_generation name (u64 (g + 1)) (bk_view (as_backend s1)) ∧
  ∀ s2 item, bk_inv (as_backend s2) → (∀ b, bk_inv b → ∃ b', other' 0%nat b = Some ((), b') ∧ bk_inv b') →
    bk_view (as_backend s2) !! userKey name = bk_view (as_backend s1) !! userKey name →
    bk_view (as_backend s2) !! userKey name = Some item → ¬ expired E item → (clock' 0%nat ≤ E)%Z →
    cr_generation req' = 0%Z → uuid' ≠ "" →
    ∃ s3, validateGenerationLabel clock' other' uuid' name req' g s2 = Some (Err err_generation, s3) ∧
      locked_out name uuid' (bk_view (as_backend s3)) ∧ as_audit s3 = (as_audit s2 ++ [GenerationMismatch])%list.
Proof.
  intros Hst Hother Hg Hreq Hrun. assert (0 ≤ u64 (g + 1) < 2 ^ 64)%Z as Hg1 by (apply wrap_u_bound; lia).
  assert (cr_generation req1 = u64 (g + 1) ∧ cr_includeHostCA req1 = true ∧ server_state (as_backend s1) ∧
    (∃ before, has_generation name g before ∧ ∀ k, k ≠ userKey name → bk_view (as_backend s1) !! k = before !! k) ∧
    has_generation name (u64 (g + 1)) (bk_view (as_backend s1))) as (? & ? & ? & ? & Hgen).
  { unfold validateGenerationLabel in Hrun. apply goM_bind_Some in Hrun as (r & s' & (b1 & Hget & ->)%on_backend_Some & Hrun).
    apply (GetUser_state _ _ _ _ _ Hst) in Hget as [Hst1 Hu]. destruct r as [user|]; [|done].
    destruct (Hu user eq_refl) as (Hn & Hs & Hm & Hc). destruct (stored_generation user) as [n|] eqn:Hn0; [|done].
    rewrite Hreq in Hrun. replace ((n =? 0)%Z && (g =? 0)%Z && (0 =? 0)%Z) with false in Hrun
      by (rewrite (proj2 (Z.eqb_neq g 0)) by lia; by rewrite andb_false_r).
    cbv zeta in Hrun. cbn [cr_set_includeHostCA cr_generation] in Hrun. rewrite Hreq in Hrun. cbn [Z.gtb Z.compare] in Hrun.
    apply goM_bind_Some in Hrun as ([] & s' & (b2 & Ho & ->)%on_backend_Some & Hrun). cbn [as_backend as_audit] in *.
    apply (Hother _ _ _ _ Hst1) in Ho as Hst2. destruct (Z.eqb_spec g n) as [<-|Hne]; cbn [negb] in Hrun.
    2:{ exfalso. unfold lock_bot in Hrun. destruct (NewLock _ _ _ _) as [lock|]; [|done].
        apply goM_bind_Some in Hrun as (rl & sl & _ & Hrun). destruct rl; done. }
    apply goM_bind_Some in Hrun as (r & s' & (b3 & Hcommit & ->)%on_backend_Some & Hrun). cbn [as_backend as_audit] in *.
    destruct r as [[]|]; [|done]. injection Hrun as <- <-.
    apply (commit_generation_spec clock (other 1%nat) user (u64 (g + 1)) g) in Hcommit as (Hst3 & Hgen & before & _ & Hbefore & Hframe);
      [|done|by apply Hother|done..].
    rewrite Hn in *. split; [done|]. split; [done|]. split; [done|]. split; [by exists before|done]. }
  split; [done|]. split; [done|]. split; [done|]. split; [done|]. split; [done|].
  intros s2 item Hb2 Ho2 Esame Hi Hne HE Hreq' Huuid. destruct Hgen as (item' & u & Hi' & Hu & Hgu & Hnu).
  rewrite Esame, Hi' in Hi. injection Hi as ->.
  apply (mismatch_locks E clock' other' uuid' name req' g (u64 (g + 1)) item u s2); try done.
  - by rewrite Esame.
  - unfold wrap_u. intros E1. destruct (decide (g + 1 < 2 ^ 64)%Z) as [|Hge].
    + rewrite Z.mod_small in E1; lia.
    + replace (g + 1)%Z with (2 ^ 64)%Z in E1 by lia. rewrite Z.mod_same in E1; lia.
Qed.

(** A user that is read without labels: the label is written to a nil map. *)
Lemma unlabelled_user_panics clock other user item u g b :
  bk_inv b → u_Name user ≠ "" → (∀ E, ¬ expired E item) → bk_view b !! userKey (u_Name user) = Some item → unmarshal_item item = Ok u →
  md_Labels (u_Metadata u) = ∅ → commit_generation clock other user g b = None.
Proof.
  intros Hb Hn Hne Hi Hu Hl. unfold commit_generation.
  destruct (GetUser_item (clock 1%nat) (clock 1%nat) (u_Name user) item b Hb ltac:(lia) Hn Hi (Hne _)) as (b' & Hg & _).
  rewrite goM_bind_unfold, Hg, Hu. by rewrite bool_decide_eq_true_2.
Qed.
End once.
