(* ===== verification/CertRequests.v ===== *)
(** * Calls for certificates of users (lib/auth/auth_with_roles.go, lib/auth/auth.go, lib/auth/bot.go)

    Who may be given certificates of whom, with which roles, and for how long. *)

From Stdlib Require Import Ascii String.
From S2P Require Import UserLock.
From S2P Require Import Prelude.
From S2P Require Import Rotation.
From S2P Require Import Keys.
From S2P Require Import Strconv.
From S2P Require Import Backend.
From S2P Require Import GoSlice.
From S2P Require Import Labels.
From S2P Require Import Parse.
From S2P Require Import Role.
From S2P Require Import Traits.
From S2P Require Import RoleSet.
From S2P Require Import RoleRules.
From S2P Require Import AccessRequest.
From S2P Require Import RequestValidator.
From S2P Require Import DynamicAccess.
From S2P Require Import Identity.
From S2P Require Import Users.
From S2P Require Import Impersonate.
From S2P Require Import Events.
From S2P Require Import Fanout.
From S2P Require Import FanoutSpec.
From S2P Require Import LockWatch.
From S2P Require Import AccessInfo.
From S2P Require Import SystemRoles.
From S2P Require Import BuiltinRoles.
From S2P Require Import Authorizer.
From S2P Require Import ServerActions.
From S2P Require Import SSHCert.
From S2P Require Import SSHLogin.
From S2P Require Import UserCerts.
From S2P Require Import Generation.
Local Open Scope string_scope.

(** ** The request *)

Inductive CertUsage := Usage_All | Usage_SSH | Usage_Kubernetes | Usage_Database | Usage_App | Usage_WindowsDesktop | Usage_Unknown.
Record UserCertsRequest := MkUserCertsRequest {
  uc_PublicKey : bytes; uc_Username : string; uc_Expires : Z; uc_Format : string; uc_RouteToCluster : string;
  uc_AccessRequests : list string; uc_KubernetesCluster : string; uc_RouteToDatabase : RouteToDatabase; uc_Usage : CertUsage;
  uc_RouteToApp : RouteToApp; uc_RoleRequests : list string; uc_UseRoleRequests : bool; uc_DropAccessRequests : list string;
  uc_ConnectionDiagnosticID : string
}.
Definition uc_eta (r : UserCertsRequest) : UserCertsRequest :=
  MkUserCertsRequest (uc_PublicKey r) (uc_Username r) (uc_Expires r) (uc_Format r) (uc_RouteToCluster r) (uc_AccessRequests r)
    (uc_KubernetesCluster r) (uc_RouteToDatabase r) (uc_Usage r) (uc_RouteToApp r) (uc_RoleRequests r) (uc_UseRoleRequests r)
    (uc_DropAccessRequests r) (uc_ConnectionDiagnosticID r).
Definition uc_set_Expires : Z → UserCertsRequest → UserCertsRequest := ltac:(with_field uc_eta uc_Expires).
Definition uc_set_AccessRequests : list string → UserCertsRequest → UserCertsRequest := ltac:(with_field uc_eta uc_AccessRequests).

Definition MaxRenewableCertTTL : Z := (24 * Hour)%Z.
Definition cert_usage (u : CertUsage) : result (list string) :=
  match u with
  | Usage_Database => Ok ["usage:db"]
  | Usage_App => Ok ["usage:apps"]
  | Usage_Kubernetes => Ok ["usage:kube"]
  | Usage_SSH | Usage_All => Ok []
  | Usage_WindowsDesktop => Ok ["usage:windows_desktop"]
  | Usage_Unknown => Err (Error BadParameter "unsupported cert usage %q")
  end.
(** Whether roles are asked for instead of those of the user. *)
Definition asks_roles (req : UserCertsRequest) : bool := uc_UseRoleRequests req || (0 <? length (uc_RoleRequests req))%nat.

(** Readings of the clock: of the call, of its access requests, of the
    generation, of the certificates and of their locks. *)
Record Clocks := MkClocks { ck_call : nat → Z; ck_requests : nat → Z; ck_generation : nat → Z; ck_issue : nat → Z; ck_locks : nat → Z }.

Section calls.
Context `{Attestation} `{CertCodec} `{IdentityCodec} `{Modules} `{CertServer} `{GoSort} `{Regexp} `{MapOrder} `{Resource R}
  `{RequestLibs} `{GoMapOrder} `{GoLibs} `{GoGrow} `{ValidatorGetter} `{UnixUsers} `{PredicateLib} `{RuleLanguage}
  `{Codec AccessRequest} `{UserCodec} `{Codec LockV2} `{BackendLaws B}.
Abbreviation St := (AuthState B).
Implicit Types (req : UserCertsRequest) (a : Context).

(** ** Access requests *)

Definition getValidatedAccessRequest (clock : nat → Z) (user accessRequestID : string) : goM B (result AccessRequest) :=
  r ← GetAccessRequests (clock 0) (MkFilter accessRequestID user NONE);
  match r with
  | Err e => mret (Err e)
  | Ok [] => mret (Err (Error NotFound "access request %q not found"))
  | Ok (req :: _) =>
      if negb (IsApproved (ar_State req)) then
        mret (Err (Error AccessDenied (if IsDenied (ar_State req) then "access request %q has been denied" else "access request %q is awaiting approval")))
      else
      match ValidateAccessRequestForUser req false with
      | None => go_panic
      | Some (Err e) => mret (Err e)
      | Some (Ok req) =>
          if (AccessExpiry req <? clock 1%nat)%Z then mret (Err (Error BadParameter "access request %q has expired")) else mret (Ok req)
      end
  end.
(** The requests of a certificate, one after the other: its end, its roles and the
    resources it is restricted to. *)
Fixpoint apply_requests (clock : nat → Z) (user : string) (ids : list string) (expires : Z) (info : AccessInfo) :
    goM B (result (Z * AccessInfo)) :=
  match ids with
  | [] => mret (Ok (expires, info))
  | reqID :: ids =>
      r ← getValidatedAccessRequest clock user reqID;
      match r with
      | Err e => mret (Err e)
      | Ok accessRequest =>
          let expires := if (AccessExpiry accessRequest <? expires)%Z then AccessExpiry accessRequest else expires in
          let roles := (ai_Roles info ++ ar_Roles accessRequest)%list in
          let ids' := RequestedResourceIDs accessRequest in
          if (0 <? length ids')%nat then
            if (0 <? length (ai_AllowedResourceIDs info))%nat
            then mret (Err (Error BadParameter "cannot generate certificate with multiple resource access requests"))
            else apply_requests (clock ∘ (fun n => n + 2)%nat) user ids expires (MkAccessInfo roles (ai_Traits info) ids')
          else apply_requests (clock ∘ (fun n => n + 2)%nat) user ids expires (MkAccessInfo roles (ai_Traits info) (ai_AllowedResourceIDs info))
      end
  end.

(** ** What the caller asks for *)

Definition ServerWithRoles_GetUser (now : Z) (a : Context) (name : string) : goM B (result UserV2) :=
  match currentUserAction name a with
  | Ok _ => GetUser now name
  | Err _ =>
      match action defaults_Namespace KindUser [verb_read] a with
      | Err e => mret (Err e)
      | Ok _ => GetUser now name
      end
  end.
Definition own_access_info (clock : nat → Z) (a : Context) : goM B (result AccessInfo) :=
  let currentIdentity := GetIdentity (ctx_Identity a) in
  if (length (Identity.Groups currentIdentity) =? 0)%nat then
    r ← ServerWithRoles_GetUser (clock 0) a (Username currentIdentity);
    mret (AccessInfoFromLocalIdentity (fun _ => r) currentIdentity)
  else mret (AccessInfoFromLocalIdentity (fun _ => Err (Error NotFound "")) currentIdentity).

Definition desiredAccessInfoForImpersonation (req : UserCertsRequest) (user : UserV2) : AccessInfo :=
  MkAccessInfo (u_Roles user) (u_Traits user) [].
Definition desiredAccessInfoForRoleRequest (req : UserCertsRequest) (traits : UserTraits) : result AccessInfo :=
  if uc_UseRoleRequests req && (length (uc_RoleRequests req) =? 0)%nat
  then Err (Error BadParameter "at least one role request is required")
  else Ok (MkAccessInfo (uc_RoleRequests req) traits []).
Definition final_requests (a : Context) (req : UserCertsRequest) : list string :=
  Deduplicate (List.filter (fun reqID => negb (SliceContainsStr (uc_DropAccessRequests req) reqID))
    (ActiveRequests (GetIdentity (ctx_Identity a)) ++ uc_AccessRequests req)).
Definition desiredAccessInfoForUser (clock : nat → Z) (a : Context) (req : UserCertsRequest) (user : UserV2) :
    goM B (result (UserCertsRequest * AccessInfo)) :=
  r ← own_access_info clock a;
  match r with
  | Err e => mret (Err e)
  | Ok accessInfo =>
      let dropAnyRequests := (0 <? length (uc_DropAccessRequests req))%nat in
      let accessInfo := if dropAnyRequests then AccessInfoFromUser user else accessInfo in
      if bool_decide (uc_DropAccessRequests req = ["*"]) then mret (Ok (uc_set_AccessRequests [] req, accessInfo)) else
      let finalRequestIDs := final_requests a req in
      let req := uc_set_AccessRequests finalRequestIDs req in
      r ← apply_requests (clock ∘ S) (uc_Username req) finalRequestIDs (uc_Expires req)
            (MkAccessInfo (ai_Roles accessInfo) (ai_Traits accessInfo) []);
      mret ('(expires, info) ← r;
            Ok (uc_set_Expires expires req,
                MkAccessInfo (Deduplicate (ai_Roles info)) (ai_Traits info) (ai_AllowedResourceIDs info)))
  end.
Definition desiredAccessInfo (clock : nat → Z) (a : Context) (req : UserCertsRequest) (user : UserV2) :
    goM B (result (UserCertsRequest * AccessInfo)) :=
  if negb (String.eqb (uc_Username req) (u_Name (ctx_User a))) then
    if asks_roles req then mret (Err (Error AccessDenied "User %v tried to issue a cert for %v and added role requests. This is not supported.")) else
    if (0 <? length (uc_AccessRequests req))%nat
    then mret (Err (Error AccessDenied "User %v tried to issue a cert for %v and added access requests. This is not supported."))
    else mret (Ok (req, desiredAccessInfoForImpersonation req user))
  else if asks_roles req then
    if (0 <? length (uc_AccessRequests req))%nat
    then mret (Err (Error AccessDenied "User %v tried to issue a cert with both role and access requests. This is not supported."))
    else mret (info ← desiredAccessInfoForRoleRequest req (u_Traits user); Ok (req, info))
  else desiredAccessInfoForUser clock a req user.

(** ** The call *)

Definition err_access_denied : error := Error AccessDenied "access denied".
(** What is refused before anything is read. *)
Definition may_ask (a : Context) (req : UserCertsRequest) : result unit :=
  let identity := GetIdentity (ctx_Identity a) in
  let other := negb (String.eqb (uc_Username req) (u_Name (ctx_User a))) in
  if negb (hasBuiltinRole a [RoleAdmin]) && negb (CanImpersonateSomeone (checker_RoleSet (ctx_Checker a))) && other
  then Err (Error AccessDenied "access denied: impersonation is not allowed") else
  if DisallowReissue identity then Err (Error AccessDenied "access denied: identity is not allowed to reissue certificates") else
  if negb (String.eqb (Impersonator identity) "") then
    if (0 <? length (uc_AccessRequests req))%nat then Err (Error AccessDenied "access denied: impersonated user can not request new roles") else
    if asks_roles req then Err (Error AccessDenied "access denied: impersonated roles can not request other roles") else
    if other then Err (Error AccessDenied "access denied: impersonated user can not impersonate anyone else") else Ok ()
  else Ok ().
(** How long certificates of one's own may last. *)
Definition limit_expiry (clock : nat → Z) (a : Context) (req : UserCertsRequest) : result UserCertsRequest :=
  if negb (String.eqb (uc_Username req) (u_Name (ctx_User a))) then Ok req else
  let identity := GetIdentity (ctx_Identity a) in
  let sessionExpires := Expires identity in
  if is_zero_time sessionExpires then Err err_access_denied else
  if (uc_Expires req <? clock 1%nat)%Z then Err (Error AccessDenied "access denied: client credentials have expired, please relogin.") else
  if (sessionExpires <? uc_Expires req)%Z then
    if negb (Renewable identity) then Ok (uc_set_Expires sessionExpires req) else
    let max := (clock 2%nat + MaxRenewableCertTTL)%Z in
    Ok (if (max <? uc_Expires req)%Z then uc_set_Expires max req else req)
  else Ok req.
(** Whether the caller may have these roles, and until when. *)
Definition check_impersonation (clock : nat → Z) (a : Context) (req : UserCertsRequest) (user : UserV2) (parsedRoles : list Role)
    (roleSet : RoleSet) : list AuditEvent * outcome UserCertsRequest :=
  let set := checker_RoleSet (ctx_Checker a) in
  if hasBuiltinRole a [RoleAdmin] then ([], done req) else
  if String.eqb (uc_Username req) (u_Name (ctx_User a)) then
    if (0 <? length (uc_RoleRequests req))%nat then
      match CheckImpersonateRoles set (ctx_User a) parsedRoles with
      | None => ([], None)
      | Some (Ok _) => ([], done req)
      | Some (Err _) => ([UserLoginFailure "user %q has requested role impersonation for %q"],
                         fails AccessDenied "user %q has requested role impersonation for %q")
      end
    else ([], done req)
  else
    match CheckImpersonate set (ctx_User a) user parsedRoles with
    | None => ([], None)
    | Some r =>
        let ttl := AdjustSessionTTL roleSet (time_Until (clock 3%nat) (uc_Expires req)) in
        let req := uc_set_Expires (clock 4%nat + ttl)%Z req in
        match r with
        | Ok _ => ([], done req)
        | Err _ => ([UserLoginFailure "user %q has requested to generate certs for %q."],
                    fails AccessDenied "user %q has requested to generate certs for %q.")
        end
    end.
(** The request for certificates that is made of the call. *)
Definition impersonator_of (a : Context) (req : UserCertsRequest) (user : UserV2) : string * bool :=
  if negb (String.eqb (u_Name user) (u_Name (ctx_User a))) then (u_Name (ctx_User a), false) else
  if asks_roles req then (u_Name (ctx_User a), true) else (Impersonator (GetIdentity (ctx_Identity a)), false).
Definition cert_request (clock : nat → Z) (a : Context) (req : UserCertsRequest) (user : UserV2) (info : AccessInfo)
    (checker : accessChecker) (usage : list string) : certRequest :=
  let '(impersonator, disallowReissue) := impersonator_of a req user in
  MkCertRequest _ _ _ (Some user) impersonator (Some checker) (time_Until (clock 5%nat) (uc_Expires req)) (uc_PublicKey req) (uc_Format req)
    (hasBuiltinRole a [RoleAdmin]) usage (uc_RouteToCluster req) (uc_KubernetesCluster req) (ai_Traits info) (uc_AccessRequests req)
    (uc_RouteToApp req) (uc_RouteToDatabase req) "" "" "" disallowReissue false false 0 (uc_ConnectionDiagnosticID req) None false.
(** A renewable certificate stays so for the primary identity only. *)
Definition stays_renewable (a : Context) (req : UserCertsRequest) (certReq : certRequest) : bool :=
  Renewable (GetIdentity (ctx_Identity a)) && String.eqb (uc_Username req) (u_Name (ctx_User a)) &&
  (length (uc_RoleRequests req) =? 0)%nat && negb (uc_UseRoleRequests req) && negb (cr_disallowReissue certReq).

Definition issue (ck : Clocks) (order : map_range) (lockWatcher : option (lockCollector R)) (uuid : string) (certReq : certRequest) :
    goM St (result Certs) :=
  let '(events, r) := generateUserCert (ck_issue ck) (ck_locks ck) order lockWatcher uuid certReq in
  _ ← emit_all events;
  match r with None => go_panic | Some r => mret r end.

(** [opts] are the changes that the server itself makes to the request; [other] is
    what other clients do while the generation is counted. *)
Definition generateUserCerts (ck : Clocks) (other : nat → goM B unit) (uuid lockUuid : string) (order : map_range)
    (lockWatcher : option (lockCollector R)) (opts : certRequest → certRequest) (a : Context) (req : UserCertsRequest) :
    goM St (result Certs) :=
  match may_ask a req with
  | Err e => mret (Err e)
  | Ok _ =>
  r ← on_backend (GetUser (ck_call ck 0) (uc_Username req));
  match r with
  | Err _ => mret (Err err_access_denied)
  | Ok user =>
  if negb (String.eqb (uc_Username req) (u_Name (ctx_User a))) && bool_decide (is_Some (cb_Connector (u_CreatedBy user)))
  then mret (Err err_access_denied) else
  match limit_expiry (ck_call ck) a req with
  | Err e => mret (Err e)
  | Ok req =>
  let req := uc_set_AccessRequests (uc_AccessRequests req ++ ActiveRequests (GetIdentity (ctx_Identity a)))%list req in
  if negb (String.eqb (uc_Username req) (u_Name (ctx_User a))) && (0 <? length (uc_AccessRequests req))%nat
  then mret (Err (Error AccessDenied "user %q requested cert for %q and included access requests, this is not supported.")) else
  r ← on_backend (desiredAccessInfo (ck_requests ck) a req user);
  match r with
  | Err e => mret (Err e)
  | Ok (req, accessInfo) =>
  match (parsedRoles ← FetchRoleList (ai_Roles accessInfo) (ai_Traits accessInfo);
         clusterName ← cs_GetClusterName; Ok (parsedRoles, clusterName)) with
  | Err e => mret (Err e)
  | Ok (parsedRoles, clusterName) =>
  let roleSet := NewRoleSet parsedRoles in
  let checker := NewAccessCheckerWithRoleSet accessInfo clusterName roleSet in
  let '(events, checked) := check_impersonation (ck_call ck) a req user parsedRoles roleSet in
  _ ← emit_all events;
  match checked with
  | None => go_panic
  | Some (Err e) => mret (Err e)
  | Some (Ok req) =>
  match cert_usage (uc_Usage req) with
  | Err e => mret (Err e)
  | Ok usage =>
  let certReq := opts (cert_request (ck_call ck) a req user accessInfo checker usage) in
  let certReq := if stays_renewable a req certReq then cr_set_renewable true certReq else certReq in
  r ← (if cr_renewable certReq
       then validateGenerationLabel (ck_generation ck) other lockUuid (u_Name user) certReq (Generation (GetIdentity (ctx_Identity a)))
       else mret (Ok certReq));
  match r with
  | Err e => mret (Err e)
  | Ok certReq => issue ck order lockWatcher uuid certReq
  end end end end end end end end.

(** The first certificates of a bot. *)
Definition generateInitialBotCerts (ck : Clocks) (other : nat → goM B unit) (uuid lockUuid : string) (order : map_range)
    (lockWatcher : option (lockCollector R)) (username : string) (pubKey : bytes) (expires : Z) (renewable : bool) :
    goM St (result Certs) :=
  r ← on_backend (GetUser (ck_call ck 0) username);
  match r with
  | Err _ => mret (Err err_access_denied)
  | Ok user =>
  if bool_decide (is_Some (cb_Connector (u_CreatedBy user))) then mret (Err err_access_denied) else
  let max := (ck_call ck 1%nat + MaxRenewableCertTTL)%Z in
  let expires := if (max <? expires)%Z then max else expires in
  let accessInfo := AccessInfoFromUser user in
  match (clusterName ← cs_GetClusterName; NewAccessChecker accessInfo clusterName) with
  | Err e => mret (Err e)
  | Ok checker =>
  let certReq := MkCertRequest _ _ _ (Some user) "" (Some checker) (time_Until (ck_call ck 2%nat) expires) pubKey "" false [] "" ""
    (ai_Traits accessInfo) [] (MkRouteToApp "" "" "" "" "") (MkRouteToDatabase "" "" "" "") "" "" "" false renewable true
    (if renewable then 1 else 0) "" None false in
  r ← validateGenerationLabel (ck_generation ck) other lockUuid (u_Name user) certReq 0;
  match r with
  | Err e => mret (Err e)
  | Ok certReq => issue ck order lockWatcher uuid certReq
  end end end.
End calls.

(** ** Certificates are confined to what the caller may have *)
Section confined.
Context `{Attestation} `{CertCodec} `{IdentityCodec} `{Modules} `{CertServer} `{GoSort} `{Regexp} `{MapOrder} `{Resource R}
  `{RequestLibs} `{GoMapOrder} `{GoLibs} `{GoGrow} `{ValidatorGetter} `{UnixUsers} `{PredicateLib} `{RuleLanguage}
  `{Codec AccessRequest} `{UserCodec} `{Codec LockV2} `{BL : BackendLaws B}.
Implicit Types (req : UserCertsRequest) (a : Context) (b : B) (m : gmap bytes Item).

(** Reads leave the backend valid, with no more items. *)
Definition reads {A} (c : goM B A) (P : gmap bytes Item → A → Prop) : Prop :=
  ∀ b r b', bk_inv b → c b = Some (r, b') → bk_inv b' ∧ bk_view b' ⊆ bk_view b ∧ P (bk_view b) r.

Lemma GetUser_reads_item now name : reads (GetUser now name) (fun m r =>
  ∀ u, r = Ok u → ∃ item, m !! userKey name = Some item ∧ unmarshal_item item = Ok u).
Proof.
  intros b r b' Hb Hr. unfold GetUser in Hr. destruct (String.eqb name ""); [by injection Hr as <- <-|].
  apply goM_bind_Some in Hr as (ri & b1 & Hg & Hr). injection Hr as <- <-.
  destruct (bk_Get_law now (userKey name) b Hb) as (ri' & b1' & Hg' & Hb1 & Hs). rewrite Hg in Hg'. injection Hg' as <- <-.
  split; [done|]. destruct (bool_decide _) in Hs; [by destruct Hs as [-> ->]|]. destruct Hs as (m & (Hsub & _) & -> & ->).
  split; [done|]. intros u Hu. destruct (m !! userKey name) as [item|] eqn:Hi; [|done].
  exists item. split; [by eapply lookup_weaken|done].
Qed.
Lemma matching_elem {A} (decode : Item → result A) f items l (x : A) : matching decode f items = Ok l → x ∈ l →
  f x = true ∧ ∃ item, item ∈ items ∧ decode item = Ok x.
Proof.
  revert l. induction items as [|item items IH]; intros l; cbn [matching]; [intros [= <-] ?%elem_of_nil; done|].
  assert (∀ l, matching decode f items = Ok l → x ∈ l → f x = true ∧ ∃ item', item' ∈ item :: items ∧ decode item' = Ok x) as IH'.
  { intros l' Hl Ha. destruct (IH l' Hl Ha) as (? & item' & ? & ?). split; [done|]. exists item'. split; [by right|done]. }
  destruct (negb _); [apply IH'|]. intros (y & Hy & (rest & Hrest & [= <-])%result_bind_Ok)%result_bind_Ok Ha.
  destruct (f y) eqn:Hf; [|by apply (IH' rest)]. apply elem_of_cons in Ha as [->|Ha]; [|by apply (IH' rest)].
  split; [done|]. exists item. split; [by left|done].
Qed.
Lemma GetAccessRequests_reads now filter : reads (GetAccessRequests now filter) (fun m r =>
  ∀ l q, r = Ok l → q ∈ l → Filter_Match filter q = true ∧ ∃ key item, m !! key = Some item ∧ itemToAccessRequest item = Ok q).
Proof.
  intros b r b' Hb Hr. unfold GetAccessRequests in Hr. destruct (String.eqb (f_ID filter) "") eqn:Hid; cbn [negb] in Hr.
  - apply goM_bind_Some in Hr as (ri & b1 & Hg & Hr). injection Hr as <- <-.
    set (lo := path [accessRequestsPrefix]) in *. destruct (bk_GetRange_law now lo (RangeEnd lo) NoLimit b Hb) as (ri' & b1' & Hg' & Hb1 & Hs).
    rewrite Hg in Hg'. injection Hg' as <- <-. split; [done|].
    rewrite !bool_decide_eq_false_2 in Hs by (apply nextKey_nonempty || done).
    destruct Hs as (m & (Hsub & _) & -> & ->). split; [done|]. intros l req Hl Hin.
    destruct (matching_elem _ _ _ _ _ Hl Hin) as (Hf & item & Hitem%list_elem_of_In & Hd). split; [done|].
    apply list_elem_of_In, elem_of_take in Hitem as (i & Hitem & _). apply list_elem_of_lookup_2 in Hitem.
    unfold sorted_range in Hitem. apply list_elem_of_omap in Hitem as (key & _ & Hkey).
    exists key, item. split; [by eapply lookup_weaken|done].
  - apply goM_bind_Some in Hr as (ri & b1 & Hg & Hr). injection Hr as <- <-.
    unfold GetAccessRequest in Hg. apply goM_bind_Some in Hg as (rg & b2 & Hg & Hret). injection Hret as <- <-.
    set (key := accessRequestKey (f_ID filter)) in *.
    destruct (bk_Get_law now key b Hb) as (rg' & b2' & Hg' & Hb2 & Hs). rewrite Hg in Hg'. injection Hg' as <- <-.
    split; [done|]. rewrite bool_decide_eq_false_2 in Hs by done.
    destruct Hs as (m & (Hsub & _) & -> & ->). split; [done|]. intros l req Hl Hin.
    destruct (m !! key) as [item|] eqn:Hi.
    2:{ cbn in Hl. injection Hl as <-. by apply elem_of_nil in Hin. }
    destruct (itemToAccessRequest item) as [r0|e] eqn:Hd.
    2:{ destruct (has_kind NotFound e); [|done]. injection Hl as <-. by apply elem_of_nil in Hin. }
    destruct (Filter_Match filter r0) eqn:Hf; injection Hl as <-; [|by apply elem_of_nil in Hin].
    apply list_elem_of_singleton in Hin as ->. split; [done|]. exists key, item. split; [by eapply lookup_weaken|done].
Qed.

(** A request that is approved, of the user and not over is returned as it is stored. *)
Lemma Validate_same v r r' : expandVars v = false → IsApproved (ar_State r) = true → Validate v r = done r' → r' = r.
Proof.
  intros He Hs. unfold Validate. destruct (negb _); [done|]. destruct (_ && _); [done|]. unfold done, expand_wildcard.
  assert (IsPending (ar_State r) = false) as Hp by by destruct (ar_State r). rewrite Hp.
  case_bool_decide; cbn [negb]; [done|]. intros (r1 & [= <-] & (? & _ & Hr)%attempt_Ok)%attempt_Ok. rewrite He in Hr. by injection Hr.
Qed.
Lemma validator_unexpanded names v v' : validator_push_roles GetRole names v = Ok v' → expandVars v = false → expandVars v' = false.
Proof.
  revert v. induction names as [|name names IH]; intros v; cbn [validator_push_roles]; [by intros [= <-]|].
  intros (role & _ & (v1 & Hv1 & Hv')%result_bind_Ok)%result_bind_Ok He. apply (IH _ Hv'). unfold push in Hv1.
  apply result_bind_Ok in Hv1 as (denies & _ & ([allows h] & _ & Hv1)%result_bind_Ok). rewrite He in Hv1. by injection Hv1 as <-.
Qed.
Lemma ValidateAccessRequestForUser_same r r' : IsApproved (ar_State r) = true → ValidateAccessRequestForUser r false = done r' → r' = r.
Proof.
  intros Hs. unfold ValidateAccessRequestForUser. destruct (NewRequestValidator _ _) as [v|] eqn:E; [|done].
  apply Validate_same; [|done]. apply result_bind_Ok in E as (user & _ & E). by apply (validator_unexpanded _ _ _ E).
Qed.

(** Stored, approved, of the user, allowed to the user by its roles, and not over. *)
Definition usable_request (user : string) m (id : string) (r : AccessRequest) : Prop :=
  (∃ key item, m !! key = Some item ∧ itemToAccessRequest item = Ok r) ∧ ar_User r = user ∧ (id = "" ∨ ar_Name r = id) ∧
  IsApproved (ar_State r) = true ∧ ValidateAccessRequestForUser r false = done r.
Lemma usable_request_weaken user m m' id r : m' ⊆ m → usable_request user m' id r → usable_request user m id r.
Proof. intros Hsub [(key & item & Hi & Hd) Hrest]. split; [|done]. exists key, item. split; [by eapply lookup_weaken|done]. Qed.

Lemma getValidatedAccessRequest_reads clock user id : user ≠ "" → reads (getValidatedAccessRequest clock user id) (fun m r =>
  ∀ r0, r = Ok r0 → usable_request user m id r0 ∧ (clock 1%nat ≤ AccessExpiry r0)%Z).
Proof.
  intros Huser b r b' Hb Hr. unfold getValidatedAccessRequest in Hr. apply goM_bind_Some in Hr as (rl & b1 & Hg & Hr).
  destruct (GetAccessRequests_reads _ _ b rl b1 Hb Hg) as (Hb1 & Hsub & Hl).
  destruct rl as [[|r1 rest]|e]; [injection Hr as <- <-; done| |injection Hr as <- <-; done].
  destruct (Hl (r1 :: rest) r1 eq_refl ltac:(by left)) as (Hf & Hstored). destruct (IsApproved (ar_State r1)) eqn:Ha; cbn [negb] in Hr.
  2:{ injection Hr as <- <-. done. }
  destruct (ValidateAccessRequestForUser r1 false) as [[r2|e]|] eqn:Hv; [|injection Hr as <- <-; done|done].
  pose proof (ValidateAccessRequestForUser_same _ _ Ha Hv) as ->. destruct (_ <? _)%Z eqn:E; injection Hr as <- <-; [done|].
  split; [done|]. split; [done|]. intros r0 [= <-]. apply Z.ltb_ge in E. split; [|done]. split; [done|].
  unfold Filter_Match in Hf. cbn [f_ID f_User f_State] in Hf.
  destruct (String.eqb_spec id "") as [->|Hid]; cbn [negb andb] in Hf.
  - rewrite (proj2 (String.eqb_neq _ _) Huser) in Hf. cbn [negb andb] in Hf. destruct (String.eqb_spec (ar_User r1) user); [|done]. by split_and!; [|left|..].
  - destruct (String.eqb_spec (ar_Name r1) id); [|done]. cbn [negb] in Hf.
    rewrite (proj2 (String.eqb_neq _ _) Huser) in Hf. cbn [negb andb] in Hf. destruct (String.eqb_spec (ar_User r1) user); [|done]. by split_and!; [|right|..].
Qed.

Lemma apply_requests_reads clock user ids expires info : user ≠ "" → reads (apply_requests clock user ids expires info) (fun m r =>
  ∀ expires' info', r = Ok (expires', info') → ∃ rs,
    Forall2 (usable_request user m) ids rs ∧ (expires' ≤ expires)%Z ∧ (∀ q, q ∈ rs → expires' ≤ AccessExpiry q)%Z ∧
    ai_Roles info' = (ai_Roles info ++ concat (ar_Roles <$> rs))%list ∧ ai_Traits info' = ai_Traits info ∧
    (ai_AllowedResourceIDs info ≠ [] → ai_AllowedResourceIDs info' = ai_AllowedResourceIDs info) ∧
    (∀ q, q ∈ rs → RequestedResourceIDs q ≠ [] → ai_AllowedResourceIDs info' = RequestedResourceIDs q)).
Proof.
  intros Huser. revert clock expires info. induction ids as [|id ids IH]; intros clock expires info b r b' Hb Hr; cbn [apply_requests] in Hr.
  { injection Hr as <- <-. split; [done|]. split; [done|]. intros ? ? [= <- <-]. exists [].
    split_and!; [constructor|lia|by intros ? ?%elem_of_nil|by rewrite app_nil_r|done|done|by intros ? ?%elem_of_nil]. }
  apply goM_bind_Some in Hr as (rq & b1 & Hg & Hr).
  destruct (getValidatedAccessRequest_reads clock user id Huser b rq b1 Hb Hg) as (Hb1 & Hsub & Hq).
  destruct rq as [q|e]; [|injection Hr as <- <-; done]. destruct (Hq q eq_refl) as [Husable _]. clear Hq.
  set (expires1 := if (AccessExpiry q <? expires)%Z then AccessExpiry q else expires) in Hr.
  assert (expires1 ≤ expires ∧ expires1 ≤ AccessExpiry q)%Z as [He1 He2].
  { unfold expires1. destruct (Z.ltb_spec (AccessExpiry q) expires); lia. }
  assert (∀ info1, apply_requests (clock ∘ (fun n => n + 2)%nat) user ids expires1 info1 b1 = Some (r, b') →
    ai_Roles info1 = (ai_Roles info ++ ar_Roles q)%list → ai_Traits info1 = ai_Traits info →
    (ai_AllowedResourceIDs info ≠ [] → ai_AllowedResourceIDs info1 = ai_AllowedResourceIDs info) →
    (RequestedResourceIDs q ≠ [] → ai_AllowedResourceIDs info1 = RequestedResourceIDs q) →
    bk_inv b' ∧ bk_view b' ⊆ bk_view b ∧ ∀ expires' info', r = Ok (expires', info') → ∃ rs,
      Forall2 (usable_request user (bk_view b)) (id :: ids) rs ∧ (expires' ≤ expires)%Z ∧ (∀ q, q ∈ rs → expires' ≤ AccessExpiry q)%Z ∧
      ai_Roles info' = (ai_Roles info ++ concat (ar_Roles <$> rs))%list ∧ ai_Traits info' = ai_Traits info ∧
      (ai_AllowedResourceIDs info ≠ [] → ai_AllowedResourceIDs info' = ai_AllowedResourceIDs info) ∧
      (∀ q, q ∈ rs → RequestedResourceIDs q ≠ [] → ai_AllowedResourceIDs info' = RequestedResourceIDs q)) as Hrest.
  { intros info1 Hrun Hroles Htraits Hkeep Hres. destruct (IH _ _ _ b1 r b' Hb1 Hrun) as (Hb' & Hsub' & Hspec).
    split; [done|]. split; [by etrans|]. intros expires' info' Hok.
    destruct (Hspec _ _ Hok) as (rs & Hrs & He & Hle & Hro & Htr & Hk & Hre). exists (q :: rs). split_and!.
    - constructor; [done|]. eapply Forall2_impl; [exact Hrs|]. intros id' q'. by apply usable_request_weaken.
    - lia.
    - intros q' [->|Hin]%elem_of_cons; [lia|by apply Hle].
    - rewrite Hro, Hroles. cbn. by rewrite app_assoc.
    - congruence.
    - intros Hne. rewrite <- (Hkeep Hne). apply Hk. by rewrite Hkeep.
    - intros q' [->|Hin]%elem_of_cons Hne; [|by apply Hre]. rewrite <- (Hres Hne). apply Hk. by rewrite Hres. }
  clear IH. destruct (RequestedResourceIDs q) as [|x xs] eqn:Hx; cbn [length Nat.ltb Nat.leb] in Hr.
  - by apply (Hrest _ Hr).
  - destruct (ai_AllowedResourceIDs info) as [|y ys] eqn:Hy; cbn [length Nat.ltb Nat.leb] in Hr.
    + by apply (Hrest _ Hr).
    + injection Hr as <- <-. done.
Qed.

(** What certificates for oneself, without roles that are asked for, may hold:
    roles the caller has, or those of the user when requests are dropped, and roles
    of usable requests, whose resources restrict the certificate. *)
Definition base_roles (a : Context) (req : UserCertsRequest) m (user : UserV2) (role : string) : Prop :=
  let identity := GetIdentity (ctx_Identity a) in
  if (0 <? length (uc_DropAccessRequests req))%nat then role ∈ u_Roles user else
  role ∈ Identity.Groups identity ∨ Identity.Groups identity = [] ∧
    ∃ item u, m !! userKey (Username identity) = Some item ∧ unmarshal_item item = Ok u ∧ role ∈ u_Roles u.
Definition own_info (a : Context) (req : UserCertsRequest) m (user : UserV2) (req' : UserCertsRequest) (info : AccessInfo) : Prop :=
  ∃ rs, Forall2 (usable_request (uc_Username req) m) (uc_AccessRequests req') rs ∧
    (∀ role, role ∈ ai_Roles info → base_roles a req m user role ∨ ∃ q, q ∈ rs ∧ role ∈ ar_Roles q) ∧
    (∀ q, q ∈ rs → RequestedResourceIDs q ≠ [] → ai_AllowedResourceIDs info = RequestedResourceIDs q) ∧
    (∀ q, q ∈ rs → uc_Expires req' ≤ AccessExpiry q)%Z.

Lemma own_info_weaken a req req0 m m' user req' info :
  uc_Username req = uc_Username req0 → uc_DropAccessRequests req = uc_DropAccessRequests req0 → m ⊆ m' →
  own_info a req m user req' info → own_info a req0 m' user req' info.
Proof.
  intros Eu Ed Hsub (rs & Hrs & Hroles & Hres & He). exists rs. rewrite <- Eu. split; [|split; [|done]].
  - eapply Forall2_impl; [exact Hrs|]. intros id q. by apply usable_request_weaken.
  - intros role Hrole. destruct (Hroles role Hrole) as [Hbase|?]; [left|by right]. unfold base_roles in *. rewrite <- Ed. cbv zeta in *.
    destruct (0 <? _)%nat; [done|]. destruct Hbase as [|(? & item & u & Hi & ?)]; [by left|right]. split; [done|].
    exists item, u. split; [by eapply lookup_weaken|done].
Qed.

Lemma own_access_info_reads clock a : reads (own_access_info clock a) (fun m r => ∀ info, r = Ok info →
  let identity := GetIdentity (ctx_Identity a) in
  ∀ role, role ∈ ai_Roles info → role ∈ Identity.Groups identity ∨ Identity.Groups identity = [] ∧
    ∃ item u, m !! userKey (Username identity) = Some item ∧ unmarshal_item item = Ok u ∧ role ∈ u_Roles u).
Proof.
  intros b r b' Hb Hr. unfold own_access_info in Hr. set (identity := GetIdentity (ctx_Identity a)) in *.
  destruct (Identity.Groups identity) as [|g gs] eqn:Hg; cbn [length Nat.eqb] in Hr.
  2:{ injection Hr as <- <-. split; [done|]. split; [done|]. unfold AccessInfoFromLocalIdentity. rewrite Hg. cbn [length Nat.eqb].
      intros info [= <-] role Hrole. by left. }
  apply goM_bind_Some in Hr as (ru & b1 & Hu & Hr). injection Hr as <- <-. unfold AccessInfoFromLocalIdentity. rewrite Hg. cbn [length Nat.eqb].
  assert (GetUser (clock 0%nat) (Username identity) b = Some (ru, b1) ∨ (b1 = b ∧ ∃ e, ru = Err e)) as [Hget|[-> [e ->]]]; [| |by split; [|split]].
  { unfold ServerWithRoles_GetUser in Hu. destruct (currentUserAction _ _); [by left|]. destruct (action _ _ _ _); [by left|].
    injection Hu as <- <-. right. split; [done|]. by eexists. }
  destruct (GetUser_reads_item _ _ b ru b1 Hb Hget) as (Hb1 & Hsub & Hitem). split; [done|]. split; [done|].
  intros info Hi role Hrole. apply result_bind_Ok in Hi as (u & -> & [= <-]). right. split; [done|].
  destruct (Hitem u eq_refl) as (item & ? & ?). by exists item, u.
Qed.

Lemma desiredAccessInfoForUser_reads clock a req user : uc_Username req ≠ "" → reads (desiredAccessInfoForUser clock a req user) (fun m r =>
  ∀ req' info, r = Ok (req', info) → own_info a req m user req' info ∧ (uc_Expires req' ≤ uc_Expires req)%Z ∧
    req' = uc_set_Expires (uc_Expires req') (uc_set_AccessRequests (uc_AccessRequests req') req)).
Proof.
  intros Huser b r b' Hb Hr. unfold desiredAccessInfoForUser in Hr.
  apply goM_bind_Some in Hr as (ri & b1 & Hi & Hr). destruct (own_access_info_reads _ _ b ri b1 Hb Hi) as (Hb1 & Hsub & Hroles).
  destruct ri as [info0|e]; [|injection Hr as <- <-; done]. specialize (Hroles info0 eq_refl). cbv zeta in Hroles, Hr.
  set (info1 := if (0 <? length (uc_DropAccessRequests req))%nat then AccessInfoFromUser user else info0) in Hr.
  assert (∀ role, role ∈ ai_Roles info1 → base_roles a req (bk_view b) user role) as Hbase.
  { unfold info1, base_roles. destruct (0 <? _)%nat; [done|exact Hroles]. }
  case_bool_decide.
  { injection Hr as <- <-. split; [done|]. split; [done|]. intros ? ? [= <- <-]. split; [|split; [apply Z.le_refl|by destruct req]].
    exists []. split; [constructor|]. split; [intros role Hr; left; by apply Hbase|]. by split; intros ? ?%elem_of_nil. }
  apply goM_bind_Some in Hr as (ra & b2 & Ha & Hr). injection Hr as <- <-.
  destruct (apply_requests_reads _ _ _ _ _ Huser b1 ra b2 Hb1 Ha) as (Hb2 & Hsub2 & Hspec). split; [done|]. split; [by etrans|].
  intros req' info Hok. apply result_bind_Ok in Hok as ([expires info2] & -> & [= <- <-]).
  destruct (Hspec _ _ eq_refl) as (rs & Hrs & He & Hle & Hro & _ & _ & Hre). cbn [uc_Expires uc_set_Expires].
  split; [|split; [done|by destruct req]]. exists rs. cbn [uc_AccessRequests uc_set_Expires uc_set_AccessRequests ai_Roles ai_AllowedResourceIDs uc_Expires].
  split_and!.
  - eapply Forall2_impl; [exact Hrs|]. intros id q. by apply usable_request_weaken.
  - intros role Hrole. apply (proj1 (Deduplicate_elem _ _)) in Hrole. rewrite Hro in Hrole. cbn [ai_Roles] in Hrole. apply elem_of_app in Hrole as [Hrole|Hrole].
    + left. by apply Hbase.
    + right. apply list_elem_of_In, in_concat in Hrole as (l & Hl%list_elem_of_In & Hrole%list_elem_of_In).
      apply list_elem_of_fmap in Hl as (q & -> & Hq). by exists q.
  - intros q Hq Hne. by apply Hre.
  - done.
Qed.

(** The options that the server's own calls give: a device that was verified just
    before, and the address of the client. *)
Definition server_options (opts : certRequest → certRequest) : Prop :=
  ∀ c, ∃ device ip, opts c = cr_set_mfaVerified device (cr_set_clientIP ip c).

Lemma limit_expiry_spec clock a req req1 : limit_expiry clock a req = Ok req1 →
  req1 = uc_set_Expires (uc_Expires req1) req ∧
  (uc_Username req = u_Name (ctx_User a) →
    let identity := GetIdentity (ctx_Identity a) in
    (uc_Expires req1 ≤ Expires identity ∨ Renewable identity = true ∧ uc_Expires req1 ≤ clock 2%nat + MaxRenewableCertTTL)%Z).
Proof.
  unfold limit_expiry. destruct (String.eqb_spec (uc_Username req) (u_Name (ctx_User a))) as [|Hne]; cbn [negb].
  2:{ intros [= <-]. split; [by destruct req|done]. }
  cbv zeta. destruct (is_zero_time _); [done|]. destruct (_ <? _)%Z; [done|].
  destruct (Z.ltb_spec (Expires (GetIdentity (ctx_Identity a))) (uc_Expires req)) as [Hlt|Hge].
  - destruct (Renewable _); cbn [negb].
    + intros [= <-]. destruct (Z.ltb_spec (clock 2%nat + MaxRenewableCertTTL) (uc_Expires req)); (split; [by destruct req|]); intros _; right; (split; [done|]); [apply Z.le_refl|lia].
    + intros [= <-]. split; [by destruct req|]. intros _. left. apply Z.le_refl.
  - intros [= <-]. split; [by destruct req|]. by left.
Qed.

Lemma validateGenerationLabel_keeps clock (other : nat → goM B unit) uuid name creq g s creq' s' :
  validateGenerationLabel clock other uuid name creq g s = Some (Ok creq', s') →
  ∃ include generation, creq' = cr_set_generation generation (cr_set_includeHostCA include creq).
Proof.
  intros Hrun. unfold validateGenerationLabel in Hrun.
  apply goM_bind_Some in Hrun as (r & s1 & _ & Hrun). destruct r as [user|]; [|done].
  destruct (stored_generation user) as [n|]; [|done]. destruct (_ && _ && _).
  { injection Hrun as <- _. exists (cr_includeHostCA creq), (cr_generation creq). by destruct creq. }
  cbv zeta in Hrun. apply goM_bind_Some in Hrun as ([] & s2 & _ & Hrun). cbn [cr_set_includeHostCA cr_generation] in Hrun.
  destruct (cr_generation creq >? 0)%Z.
  - destruct (n >? 0)%Z; [done|]. destruct (negb _); [done|]. apply goM_bind_Some in Hrun as (r & s3 & _ & Hrun).
    destruct r; [|done]. injection Hrun as <- _. exists true, (cr_generation creq). by destruct creq.
  - destruct (negb _).
    { exfalso. unfold lock_bot in Hrun. destruct (NewLock _ _ _ _); [|done]. apply goM_bind_Some in Hrun as (r & s3 & _ & Hrun).
      by destruct r. }
    apply goM_bind_Some in Hrun as (r & s3 & _ & Hrun). destruct r; [|done]. injection Hrun as <- _. by eexists _, _.
Qed.

Lemma issue_Ok ck order (lockWatcher : option (lockCollector R)) uuid creq (s : AuthState B) certs s' :
  issue ck order lockWatcher uuid creq s = Some (Ok certs, s') →
  ∃ events, generateUserCert (ck_issue ck) (ck_locks ck) order lockWatcher uuid creq = (events, done certs).
Proof.
  unfold issue. destruct (generateUserCert _ _ _ _ _ _) as [events r]. intros Hrun.
  apply goM_bind_Some in Hrun as ([] & s1 & _ & Hrun). destruct r as [r|]; [|done]. injection Hrun as -> _. by exists events.
Qed.

(** What makes the caller entitled to roles: it asks for its own certificates, for
    some roles only, or for those of another user. *)
Inductive entitled (clock : nat → Z) (a : Context) (req : UserCertsRequest) m (user : UserV2) (req' : UserCertsRequest)
    (info : AccessInfo) (roles : list Role) (creq : certRequest) : Prop :=
  | entitled_own :
      uc_Username req = u_Name (ctx_User a) → asks_roles req = false → own_info a req m user req' info →
      cr_impersonator creq = Impersonator (GetIdentity (ctx_Identity a)) → cr_disallowReissue creq = false →
      (uc_Expires req' ≤ Expires (GetIdentity (ctx_Identity a)) ∨
       Renewable (GetIdentity (ctx_Identity a)) = true ∧ uc_Expires req' ≤ clock 2%nat + MaxRenewableCertTTL)%Z →
      entitled clock a req m user req' info roles creq
  | entitled_roles :
      uc_Username req = u_Name (ctx_User a) → asks_roles req = true → info = MkAccessInfo (uc_RoleRequests req) (u_Traits user) [] →
      may_take_roles (checker_RoleSet (ctx_Checker a)) (ctx_User a) roles → Impersonator (GetIdentity (ctx_Identity a)) = "" →
      cr_impersonator creq = u_Name (ctx_User a) → cr_disallowReissue creq = true → cr_renewable creq = false → uc_AccessRequests req' = [] →
      (uc_Expires req' ≤ Expires (GetIdentity (ctx_Identity a)) ∨
       Renewable (GetIdentity (ctx_Identity a)) = true ∧ uc_Expires req' ≤ clock 2%nat + MaxRenewableCertTTL)%Z →
      entitled clock a req m user req' info roles creq
  | entitled_other :
      uc_Username req ≠ u_Name (ctx_User a) → cb_Connector (u_CreatedBy user) = None → info = MkAccessInfo (u_Roles user) (u_Traits user) [] →
      may_impersonate (checker_RoleSet (ctx_Checker a)) (ctx_User a) user roles → Impersonator (GetIdentity (ctx_Identity a)) = "" →
      cr_impersonator creq = u_Name (ctx_User a) → cr_renewable creq = false → uc_AccessRequests req' = [] →
      entitled clock a req m user req' info roles creq.

Lemma may_ask_spec a req : may_ask a req = Ok () →
  DisallowReissue (GetIdentity (ctx_Identity a)) = false ∧
  (asks_roles req = true ∨ uc_Username req ≠ u_Name (ctx_User a) → Impersonator (GetIdentity (ctx_Identity a)) = "").
Proof.
  unfold may_ask. cbv zeta. destruct (_ && _ && _); [done|]. destruct (DisallowReissue _); [done|]. intros Hask. split; [done|].
  destruct (String.eqb_spec (Impersonator (GetIdentity (ctx_Identity a))) "") as [|Hne]; [done|]. cbn [negb] in Hask.
  destruct (_ <? _)%nat; [done|]. destruct (asks_roles req); [done|].
  destruct (String.eqb_spec (uc_Username req) (u_Name (ctx_User a))); [|done]. by intros [|].
Qed.
(** What is desired, and that nothing is written to find out. *)
Lemma desiredAccessInfo_reads clock a req user : uc_Username req ≠ "" → reads (desiredAccessInfo clock a req user) (fun m r =>
  ∀ req' info, r = Ok (req', info) →
    req' = uc_set_Expires (uc_Expires req') (uc_set_AccessRequests (uc_AccessRequests req') req) ∧ (uc_Expires req' ≤ uc_Expires req)%Z ∧
    (if String.eqb (uc_Username req) (u_Name (ctx_User a)) then
       if asks_roles req then uc_RoleRequests req ≠ [] ∧ info = MkAccessInfo (uc_RoleRequests req) (u_Traits user) [] ∧ uc_AccessRequests req' = []
       else own_info a req m user req' info
     else info = MkAccessInfo (u_Roles user) (u_Traits user) [] ∧ uc_AccessRequests req' = [])).
Proof.
  intros Huser b r b' Hb Hr. unfold desiredAccessInfo in Hr. destruct (String.eqb (uc_Username req) (u_Name (ctx_User a))); cbn [negb] in Hr.
  - destruct (asks_roles req) eqn:Hask.
    + destruct (uc_AccessRequests req) as [|x xs] eqn:Hx; cbn [length Nat.ltb Nat.leb] in Hr; injection Hr as <- <-; [|done].
      split; [done|]. split; [done|]. intros req' info (i & Hi & [= <- <-])%result_bind_Ok. unfold desiredAccessInfoForRoleRequest in Hi.
      destruct (_ && _) eqn:Hu; [done|]. injection Hi as <-. split; [by destruct req; cbn in *; subst|]. split; [apply Z.le_refl|].
      split; [|done]. intros E. unfold asks_roles in Hask. rewrite E in Hu, Hask. cbn in Hu, Hask.
      destruct (uc_UseRoleRequests req); done.
    + destruct (desiredAccessInfoForUser_reads _ _ _ _ Huser b r b' Hb Hr) as (? & ? & Hspec). split; [done|]. split; [done|].
      intros req' info Hok. destruct (Hspec _ _ Hok) as (? & ? & ?). done.
  - destruct (asks_roles req); [injection Hr as <- <-; done|].
    destruct (uc_AccessRequests req) as [|x xs] eqn:Hx; cbn [length Nat.ltb Nat.leb] in Hr; injection Hr as <- <-; [|done].
    split; [done|]. split; [done|]. intros req' info [= <- <-]. split; [by destruct req; cbn in *; subst|]. split; [apply Z.le_refl|done].
Qed.
Lemma check_impersonation_spec clock a req user parsedRoles roleSet events req' :
  hasBuiltinRole a [RoleAdmin] = false → check_impersonation clock a req user parsedRoles roleSet = (events, done req') →
  req' = uc_set_Expires (uc_Expires req') req ∧
  (if String.eqb (uc_Username req) (u_Name (ctx_User a)) then
     req' = req ∧ (uc_RoleRequests req ≠ [] → may_take_roles (checker_RoleSet (ctx_Checker a)) (ctx_User a) parsedRoles)
   else may_impersonate (checker_RoleSet (ctx_Checker a)) (ctx_User a) user parsedRoles).
Proof.
  intros Hadmin. unfold check_impersonation. rewrite Hadmin. cbv zeta. destruct (String.eqb _ _).
  - destruct (uc_RoleRequests req) as [|x xs] eqn:Hx; cbn [length Nat.ltb Nat.leb].
    + intros [= _ <-]. split; [by destruct req|done].
    + destruct (CheckImpersonateRoles _ _ _) as [[[]|]|] eqn:E; [|done..]. intros [= _ <-]. split; [by destruct req|].
      split; [done|]. intros _. by apply CheckImpersonateRoles_sound.
  - destruct (CheckImpersonate _ _ _ _) as [[[]|]|] eqn:E; [|done..]. intros [= _ <-]. split; [by destruct req|].
    by apply CheckImpersonate_sound.
Qed.

(** The request for certificates that a call leads to. *)
Record request_of (clock : nat → Z) a req (user : UserV2) (checker : accessChecker) (renewable : bool) (creq : certRequest) : Prop := {
  ro_user : cr_user creq = Some user;
  ro_checker : cr_checker creq = Some checker;
  ro_override : cr_overrideRoleTTL creq = false;
  ro_requests : cr_activeRequests creq = uc_AccessRequests req;
  ro_ttl : cr_ttl creq = time_Until (clock 5%nat) (uc_Expires req);
  ro_impersonator : cr_impersonator creq = (impersonator_of a req user).1;
  ro_disallow : cr_disallowReissue creq = (impersonator_of a req user).2;
  ro_renewable : cr_renewable creq = renewable
}.
Lemma request_made clock a req user info checker usage opts : server_options opts → hasBuiltinRole a [RoleAdmin] = false →
  request_of clock a req user checker false (opts (cert_request clock a req user info checker usage)).
Proof.
  intros Hopts Hadmin. destruct (Hopts (cert_request clock a req user info checker usage)) as (device & ip & ->).
  unfold cert_request. rewrite Hadmin. destruct (impersonator_of a req user) as [imp dis] eqn:E.
  split; try reflexivity; by rewrite E.
Qed.
Lemma request_renewed clock a req user checker renewable creq : request_of clock a req user checker false creq →
  request_of clock a req user checker renewable (if renewable then cr_set_renewable true creq else creq).
Proof. destruct renewable; [|done]. intros [? ? ? ? ? ? ? ?]. by split. Qed.
Lemma request_counted clock a req user checker renewable creq include generation : request_of clock a req user checker renewable creq →
  request_of clock a req user checker renewable (cr_set_generation generation (cr_set_includeHostCA include creq)).
Proof. intros [? ? ? ? ? ? ? ?]. by split. Qed.
Lemma generation_counted (clock : nat → Z) (other : nat → goM B unit) uuid name a req user checker renewable creq g (s : AuthState B) creq' s'
    (clock' : nat → Z) :
  request_of clock' a req user checker renewable creq →
  (if cr_renewable creq then validateGenerationLabel clock other uuid name creq g else mret (Ok creq)) s = Some (Ok creq', s') →
  request_of clock' a req user checker renewable creq'.
Proof.
  intros Hcreq Hrun. destruct (cr_renewable creq).
  - apply validateGenerationLabel_keeps in Hrun as (include & generation & ->). by apply request_counted.
  - by injection Hrun as <- _.
Qed.
Lemma stays_renewable_spec a req creq : stays_renewable a req creq = true →
  uc_Username req = u_Name (ctx_User a) ∧ asks_roles req = false.
Proof.
  unfold stays_renewable, asks_roles.
  intros ((((_ & Hu%String.eqb_eq)%andb_prop & Hr%Nat.eqb_eq)%andb_prop & Huse%negb_true_iff)%andb_prop & _)%andb_prop.
  by rewrite Huse, Hr.
Qed.

(** The checks of the call, put together. *)
Lemma entitled_intro clock a req m user req' info roles checker renewable creq :
  u_Name user = uc_Username req → asks_roles req' = asks_roles req →
  (uc_Username req ≠ u_Name (ctx_User a) → cb_Connector (u_CreatedBy user) = None) →
  (uc_Username req = u_Name (ctx_User a) →
    (uc_Expires req' ≤ Expires (GetIdentity (ctx_Identity a)) ∨
     Renewable (GetIdentity (ctx_Identity a)) = true ∧ uc_Expires req' ≤ clock 2%nat + MaxRenewableCertTTL)%Z) →
  (asks_roles req = true ∨ uc_Username req ≠ u_Name (ctx_User a) → Impersonator (GetIdentity (ctx_Identity a)) = "") →
  (if String.eqb (uc_Username req) (u_Name (ctx_User a)) then
     if asks_roles req then uc_RoleRequests req ≠ [] ∧ info = MkAccessInfo (uc_RoleRequests req) (u_Traits user) [] ∧ uc_AccessRequests req' = []
     else own_info a req m user req' info
   else info = MkAccessInfo (u_Roles user) (u_Traits user) [] ∧ uc_AccessRequests req' = []) →
  (if String.eqb (uc_Username req) (u_Name (ctx_User a)) then
     uc_RoleRequests req ≠ [] → may_take_roles (checker_RoleSet (ctx_Checker a)) (ctx_User a) roles
   else may_impersonate (checker_RoleSet (ctx_Checker a)) (ctx_User a) user roles) →
  request_of clock a req' user checker renewable creq →
  (renewable = true → uc_Username req = u_Name (ctx_User a) ∧ asks_roles req = false) →
  entitled clock a req m user req' info roles creq.
Proof.
  intros Hname Hasks Hsso Hexp Himp Hinfo Hcheck [_ _ _ _ _ Hi Hd Hr] Hren. unfold impersonator_of in Hi, Hd. rewrite Hname, Hasks in Hi, Hd.
  destruct (String.eqb_spec (uc_Username req) (u_Name (ctx_User a))) as [Eu|Eu]; cbn [negb] in *.
  - specialize (Hexp Eu). destruct (asks_roles req) eqn:Ha; [|by apply entitled_own].
    destruct Hinfo as (Hrr & -> & Hnil). apply entitled_roles; try done.
    + by apply Hcheck.
    + apply Himp. by left.
    + rewrite Hr. destruct renewable; [by destruct Hren|done].
  - destruct Hinfo as [-> Hnil]. apply entitled_other; try done.
    + by apply Hsso.
    + apply Himp. by right.
    + rewrite Hr. destruct renewable; [by destruct Hren|done].
Qed.
Lemma expiry_shorter clock (a : Context) (t t' : Z) : (t ≤ t')%Z →
  (t' ≤ Expires (GetIdentity (ctx_Identity a)) ∨ Renewable (GetIdentity (ctx_Identity a)) = true ∧ t' ≤ clock 2%nat + MaxRenewableCertTTL)%Z →
  (t ≤ Expires (GetIdentity (ctx_Identity a)) ∨ Renewable (GetIdentity (ctx_Identity a)) = true ∧ t ≤ clock 2%nat + MaxRenewableCertTTL)%Z.
Proof. intros Hle [|[? ?]]; [left; lia|right; split; [done|lia]]. Qed.

(** C2: certificates that the auth server gives to a caller other than its own
    administrator are confined to what the caller may have. The identity of the
    caller may have certificates issued again, no lock in force keeps the
    certificate's user, device, roles or requests out, and the caller is entitled to
    the roles: they are its own and those of approved, valid requests of its own,
    whose resources restrict the certificate and which it does not outlive; or
    roles that it may take by a condition of its roles, and then no certificate
    can be issued with this one; or those of a local user that it may impersonate.
    The end asked for certificates of one's own is not behind that of the session,
    or within a day when the session is renewable; certificates of a user who is
    impersonated have only the limits of the roles. *)
Theorem certificates_confined ck (other : nat → goM B unit) uuid lockUuid order (lockWatcher : option (lockCollector R)) opts a req s certs s' :
  server_options opts → bk_inv (as_backend s) →
  (∀ name item u, bk_view (as_backend s) !! userKey name = Some item → unmarshal_item item = Ok u → u_Name u = name) →
  hasBuiltinRole a [RoleAdmin] = false →
  generateUserCerts ck other uuid lockUuid order lockWatcher opts a req s = Some (Ok certs, s') →
  DisallowReissue (GetIdentity (ctx_Identity a)) = false ∧
  ∃ user item req' info roles clusterName creq authPref,
    bk_view (as_backend s) !! userKey (uc_Username req) = Some item ∧ unmarshal_item item = Ok user ∧
    FetchRoleList (ai_Roles info) (ai_Traits info) = Ok roles ∧ cs_GetClusterName = Ok clusterName ∧ cs_GetAuthPreference = Ok authPref ∧
    let checker := NewAccessCheckerWithRoleSet info clusterName (NewRoleSet roles) in
    issued (ck_issue ck) uuid creq user checker certs ∧
    checkLockInForce (ck_locks ck) order lockWatcher (LockingMode (NewRoleSet roles) (pref_LockingMode authPref))
      (cert_lock_targets user checker creq) = Ok () ∧
    cr_overrideRoleTTL creq = false ∧ cr_activeRequests creq = uc_AccessRequests req' ∧
    cr_ttl creq = time_Until (ck_call ck 5) (uc_Expires req') ∧
    entitled (ck_call ck) a req (bk_view (as_backend s)) user req' info roles creq.
Proof.
  intros Hopts Hb Hnames Hadmin Hrun. unfold generateUserCerts in Hrun.
  destruct (may_ask a req) as [[]|] eqn:Hask; [|done]. apply may_ask_spec in Hask as [Hdis Himp]. split; [done|].
  apply goM_bind_Some in Hrun as (ru & s1 & (b1 & Hu & ->)%on_backend_Some & Hrun).
  destruct (GetUser_reads_item _ _ _ _ _ Hb Hu) as (Hb1 & Hsub1 & Hitem). destruct ru as [user|]; [|done].
  destruct (Hitem user eq_refl) as (item & Hi & Hum). pose proof (Hnames _ _ _ Hi Hum) as Hname.
  assert (uc_Username req ≠ "") as Hne by (rewrite <- Hname; by apply UnmarshalUser_spec in Hum as ((? & _) & _)).
  destruct (_ && _) eqn:Hsso in Hrun; [done|].
  destruct (limit_expiry _ _ _) as [req1|] eqn:Hlim; [|done]. apply limit_expiry_spec in Hlim as [Ereq1 Hexp].
  cbv zeta in Hrun. set (req2 := uc_set_AccessRequests _ req1) in Hrun. destruct (_ && _) in Hrun; [done|].
  apply goM_bind_Some in Hrun as (rd & s2 & (b2 & Hd & ->)%on_backend_Some & Hrun). cbn [as_backend as_audit] in *.
  assert (∃ expires requests, req2 = uc_set_Expires expires (uc_set_AccessRequests requests req) ∧ expires = uc_Expires req1) as
    (expires & requests & E2 & Eexp) by (exists (uc_Expires req1), (uc_AccessRequests req2); split; [unfold req2; by rewrite Ereq1|done]).
  clearbody req2. subst req2.
  destruct (desiredAccessInfo_reads (ck_requests ck) a (uc_set_Expires expires (uc_set_AccessRequests requests req)) user Hne _ _ _ Hb1 Hd) as (Hb2 & Hsub2 & Hdes).
  destruct rd as [[req3 info]|]; [|done]. destruct (Hdes _ _ eq_refl) as (Ereq3 & Hle3 & Hinfo). clear Hdes.
  destruct (FetchRoleList (ai_Roles info) (ai_Traits info)) as [roles|] eqn:Hroles; [|done].
  destruct cs_GetClusterName as [clusterName|] eqn:Hcn; [|done]. cbn [mbind result_bind] in Hrun.
  destruct (check_impersonation _ _ _ _ _ _) as [events checked] eqn:Hcheck.
  apply goM_bind_Some in Hrun as ([] & s3 & _ & Hrun). destruct checked as [[req4|]|]; [|done..].
  apply check_impersonation_spec in Hcheck as [Ereq4 Hcheck]; [|done].
  destruct (cert_usage _) as [usage|]; [|done].
  set (creq1 := opts _) in Hrun. pose proof (request_made (ck_call ck) a req4 user info
    (NewAccessCheckerWithRoleSet info clusterName (NewRoleSet roles)) usage opts Hopts Hadmin) as Hreq.
  fold creq1 in Hreq. clearbody creq1. apply (request_renewed _ _ _ _ _ (stays_renewable a req4 creq1)) in Hreq.
  apply goM_bind_Some in Hrun as (rv & s4 & Hv & Hrun). destruct rv as [creq|]; [|done].
  apply (generation_counted _ _ _ _ _ _ _ _ _ _ _ _ _ _ _ Hreq) in Hv. apply issue_Ok in Hrun as (ev & Hissue).
  apply generateUserCert_Ok in Hissue as (user' & checker & authPref & Hus & Hch & Hpref & _ & Hlock & Hissued).
  rewrite (ro_user _ _ _ _ _ _ _ Hv) in Hus. injection Hus as <-. rewrite (ro_checker _ _ _ _ _ _ _ Hv) in Hch. injection Hch as <-.
  exists user, item, req4, info, roles, clusterName, creq, authPref. cbv zeta.
  split; [done|]. split; [done|]. split; [done|]. split; [done|]. split; [done|]. split; [done|]. split; [done|].
  split; [by apply Hv|]. split; [by apply Hv|]. split; [by apply Hv|].
  assert (uc_Username req4 = uc_Username req ∧ asks_roles req4 = asks_roles req) as [E6 E7] by (rewrite Ereq4, Ereq3; done).
  assert (uc_AccessRequests req4 = uc_AccessRequests req3) as E8 by (by rewrite Ereq4).
  assert (uc_Username req3 = uc_Username req ∧ uc_RoleRequests req3 = uc_RoleRequests req) as [G1 G2] by (rewrite Ereq3; done).
  rewrite G1, G2 in Hcheck. cbn [uc_Username uc_Expires uc_set_Expires uc_set_AccessRequests] in Hinfo, Hle3.
  change (asks_roles (uc_set_Expires _ _)) with (asks_roles req) in Hinfo. cbn [uc_RoleRequests uc_set_Expires uc_set_AccessRequests] in Hinfo.
  refine (entitled_intro _ _ _ _ _ _ _ _ _ _ _ Hname E7 _ _ Himp _ _ Hv _).
  - intros Hother%String.eqb_neq. rewrite Hother in Hsso. apply bool_decide_eq_false in Hsso. by apply eq_None_not_Some.
  - intros Eu. rewrite Eu, String.eqb_refl in Hcheck. destruct Hcheck as [-> _]. apply (expiry_shorter _ _ _ (uc_Expires req1)); [lia|by apply Hexp].
  - destruct (String.eqb _ _) in Hinfo, Hcheck |- *; [|by rewrite E8]. destruct Hcheck as [-> _]. destruct (asks_roles req) in Hinfo |- *; [done|].
    by refine (own_info_weaken _ _ _ _ _ _ _ _ _ _ Hsub1 Hinfo).
  - destruct (String.eqb _ _); [apply Hcheck|exact Hcheck].
  - intros Hren. rewrite <- E6, <- E7. by apply stays_renewable_spec in Hren.
Qed.
End confined.
