(* ===== verification/HostCerts.v ===== *)
(** * Certificates of hosts (lib/auth/auth.go, lib/auth/native/native.go, lib/services/authority.go)

    The SSH and TLS certificates of a member of the cluster, issued under a limit of
    the calls in progress for each role. *)

From Stdlib Require Import Ascii String.
From S2P Require Import Prelude.
From S2P Require Import ConnLimiter.
From S2P Require Import Multiplexer.
From S2P Require Import NetAddr.
From S2P Require Import Rotation.
From S2P Require Import Keys.
From S2P Require Import Strconv.
From S2P Require Import GoSlice.
From S2P Require Import Labels.
From S2P Require Import Parse.
From S2P Require Import Role.
From S2P Require Import Traits.
From S2P Require Import RoleSet.
From S2P Require Import AccessRequest.
From S2P Require Import Events.
From S2P Require Import Fanout.
From S2P Require Import LockWatch.
From S2P Require Import Identity.
From S2P Require Import Users.
From S2P Require Import AccessInfo.
From S2P Require Import SystemRoles.
From S2P Require Import Authorizer.
From S2P Require Import SSHCert.
From S2P Require Import UserCerts.
Local Open Scope string_scope.

(** ** SSH certificates of hosts *)

Record HostCertParams `{SSHLib} := MkHostCertParams {
  hp_CASigner : option Signer; hp_PublicHostKey : bytes; hp_HostID : string; hp_Principals : list string; hp_NodeName : string;
  hp_ClusterName : string; hp_Role : SystemRole; hp_TTL : Z
}.

Definition PrincipalLocalhost : string := "localhost".
Definition PrincipalLoopbackV4 : string := "127.0.0.1".
Definition PrincipalLoopbackV6 : string := "::1".
Definition BuildPrincipals (hostID nodeName clusterName : string) (roles : SystemRoles) : list string :=
  if Include roles RoleAdmin then [hostID] else
  if String.eqb hostID "" then [] else
  Deduplicate ([(hostID ++ "." ++ clusterName)%string; hostID] ++
    (if negb (String.eqb nodeName "") then [(nodeName ++ "." ++ clusterName)%string; nodeName] else []) ++
    [PrincipalLocalhost; PrincipalLoopbackV4; PrincipalLoopbackV6])%list.

Section hosts.
Context `{SSHLib}.

Definition HostCertParams_Check (c : HostCertParams) : result unit :=
  match hp_CASigner c with
  | None => Err (Error BadParameter "CASigner is required")
  | Some _ =>
      if String.eqb (hp_HostID c) "" && (length (hp_Principals c) =? 0)%nat
      then Err (Error BadParameter "HostID [%q] or Principals [%q] are required") else
      if String.eqb (hp_ClusterName c) "" then Err (Error BadParameter "ClusterName [%q] is required") else
      SystemRole_Check (hp_Role c)
  end.
Definition CertExtensionRole : string := "x-teleport-role".
Definition CertExtensionAuthority : string := "x-teleport-authority".
(** [now] and [now'] are the readings of the clock; without a signer it panics. *)
Definition GenerateHostCertWithoutValidation (now now' : Z) (c : HostCertParams) : outcome (Certificate SSHKey) :=
  pubKey ⇐ Some (SSHCert.ParseAuthorizedKey (hp_PublicHostKey c));
  let principals := (BuildPrincipals (hp_HostID c) (hp_NodeName c) (hp_ClusterName c) [hp_Role c] ++ hp_Principals c)%list in
  if (length principals =? 0)%nat then fails BadParameter "no principals provided: %v, %v, %v" else
  let validBefore := if (hp_TTL c =? 0)%Z then CertTimeInfinity else u64 (time_unix (now + hp_TTL c)) in
  let cert := MkCertificate "" (Deduplicate principals) pubKey (u64 (time_unix (now' - Minute))) validBefore HostCert ∅
                (<[ CertExtensionAuthority := hp_ClusterName c ]> {[ CertExtensionRole := SystemRole_String (hp_Role c) ]}) None in
  match hp_CASigner c with Some signer => Some (SignCert signer cert) | None => None end.
Definition native_GenerateHostCert (now now' : Z) (c : HostCertParams) : outcome bytes :=
  _ ⇐ Some (HostCertParams_Check c);
  cert ⇐ GenerateHostCertWithoutValidation now now' c;
  done (MarshalAuthorizedKey cert).
End hosts.

Definition HostFQDN (hostUUID clusterName : string) : string := hostUUID ++ "." ++ clusterName.
Definition ExtractHostID (hostName clusterName : string) : result string :=
  let suffix := "." ++ clusterName in
  if negb (HasSuffix hostName suffix) then Err (Error BadParameter "expected suffix %q in %q") else Ok (TrimSuffix hostName suffix).

(** ** Requests *)

Record HostCertsRequest := MkHostCertsRequest {
  hr_HostID : string; hr_NodeName : string; hr_Role : SystemRole; hr_AdditionalPrincipals : list string; hr_DNSNames : list string;
  hr_PublicTLSKey : bytes; hr_PublicSSHKey : bytes; hr_RemoteAddr : string; hr_Rotation : option Rotation; hr_NoCache : bool;
  hr_SystemRoles : SystemRoles
}.
Definition HostCertsRequest_CheckAndSetDefaults (req : HostCertsRequest) : result unit :=
  if String.eqb (hr_HostID req) "" then Err (Error BadParameter "missing parameter HostID") else SystemRole_Check (hr_Role req).
Definition Matches (r rotation : Rotation) : bool :=
  String.eqb (CurrentID r) (CurrentID rotation) && String.eqb (State r) (State rotation) && String.eqb (Phase r) (Phase rotation).
Definition Rotation_IsZero (r : option Rotation) : bool := match r with None => true | Some r => Matches r no_rotation end.
Definition AnyAddress : string := "0.0.0.0".
Definition ReplaceInSlice (s : list string) (old new : string) : list string := map (fun x => if String.eqb x old then new else x) s.
Definition APIDomain : string := "teleport.cluster.local".
Definition DefaultDNSNamesForRole (role : SystemRole) : list string :=
  if IncludeAny [role] [RoleAuth; RoleAdmin; RoleProxy; RoleKube; RoleApp; RoleDatabase; RoleWindowsDesktop]
  then ["*." ++ APIDomain; APIDomain] else [].
Definition CATTL : Z := (Hour * 24 * 365 * 10)%Z.
Definition err_out_of_sync : error :=
  Error BadParameter "the client expected state is out of sync, server rotation state: %v, client rotation state: %v, re-register the client from scratch to fix the issue.".

Section issue.
Context `{CryptoLib} `{IdentityCodec} `{CertServer} `{Resource R}.

Definition generateHostCert (clock lockClock : nat → Z) (order : map_range) (lockWatcher : option (lockCollector R))
    (p : HostCertParams) : outcome bytes :=
  authPref ⇐ Some cs_GetAuthPreference;
  _ ⇐ Some (if String.eqb (hp_Role p) RoleNode
            then checkLockInForce lockClock order lockWatcher (pref_LockingMode authPref)
                   [node_target (hp_HostID p); node_target (HostFQDN (hp_HostID p) (hp_ClusterName p))]
            else Ok ());
  native_GenerateHostCert (clock 0) (clock 1) p.
(** The authority is the store's, and not the cache's. *)
Definition GenerateHostCert (services : string → result CertAuthority) (clock lockClock : nat → Z) (order : map_range)
    (lockWatcher : option (lockCollector R)) (hostPublicKey : bytes) (hostID nodeName : string) (principals : list string)
    (clusterName : string) (role : SystemRole) (ttl : Z) : outcome bytes :=
  domainName ⇐ Some cs_GetClusterName;
  ca ⇐ Some (match services domainName with Ok ca => Ok ca | Err _ => Err (Error BadParameter "failed to load host CA for %q: %v") end);
  caSigner ⇐ Some (GetSSHSigner ca);
  generateHostCert clock lockClock order lockWatcher
    (MkHostCertParams _ (Some caSigner) hostPublicKey hostID principals nodeName clusterName role ttl).

(** An address that stands for every one is replaced by the one that the server sees. *)
Definition own_principals (req : HostCertsRequest) : result (list string) :=
  if SliceContainsStr (hr_AdditionalPrincipals req) AnyAddress then
    remoteHost ← Host (bytes_of_string (hr_RemoteAddr req));
    Ok (ReplaceInSlice (hr_AdditionalPrincipals req) AnyAddress (string_of_bytes remoteHost))
  else Ok (hr_AdditionalPrincipals req).
(** The authority that signs: the cache's, or the store's when the request says so
    or knows of another rotation. *)
Definition signing_authority (cache services : string → result CertAuthority) (clusterName : string) (req : HostCertsRequest) :
    result CertAuthority :=
  let load (client : string → result CertAuthority) :=
    match client clusterName with Ok ca => Ok ca | Err _ => Err (Error BadParameter "failed to load host CA for %q: %v") end in
  ca ← load (if hr_NoCache req then services else cache);
  match hr_Rotation req with
  | Some rotation =>
      if negb (hr_NoCache req) && negb (Rotation_IsZero (Some rotation)) && negb (Matches rotation (GetRotation ca)) then
        ca ← load services;
        if negb (Matches rotation (GetRotation ca)) then Err err_out_of_sync else Ok ca
      else Ok ca
  | None => Ok ca
  end.
(** The auth server itself may have keys that are only trusted so far. *)
Definition or_additional {A} (isAdminRole : bool) (active additional : result A) : result A :=
  match active with
  | Ok a => Ok a
  | Err e => if has_kind NotFound e && isAdminRole then additional else Err e
  end.
Definition host_identity (req : HostCertsRequest) (clusterName : string) : Identity :=
  MkIdentity (HostFQDN (hr_HostID req) clusterName) "" [SystemRole_String (hr_Role req)] (hr_SystemRoles req) [] [] [] [] zero_time "" "" ∅
    (MkRouteToApp "" "" "" "" "") clusterName (MkRouteToDatabase "" "" "" "") [] [] "" "" [] [] false false 0 [] "".
Definition host_names (req : HostCertsRequest) (principals : list string) : list string :=
  (principals ++ DefaultDNSNamesForRole (hr_Role req) ++
   if IncludeAny [hr_Role req] [RoleAuth; RoleAdmin; RoleProxy; RoleKube; RoleWindowsDesktop] then hr_DNSNames req else [])%list.

(** The part of the call that is under the limit. *)
Definition GenerateHostCerts_body (cache services : string → result CertAuthority) (clock lockClock : nat → Z) (order : map_range)
    (lockWatcher : option (lockCollector R)) (req : HostCertsRequest) : outcome Certs :=
  clusterName ⇐ Some cs_GetClusterName;
  principals ⇐ Some (own_principals req);
  _ ⇐ Some (match SSHCert.ParseAuthorizedKey (hr_PublicSSHKey req) with Ok _ => Ok () | Err _ => Err (Error BadParameter "failed to parse SSH public key") end);
  cryptoPubKey ⇐ Some (ParsePublicKeyPEM (hr_PublicTLSKey req));
  ca ⇐ Some (signing_authority cache services clusterName req);
  let isAdminRole := String.eqb (hr_Role req) RoleAdmin in
  '(cert, signer) ⇐ Some (or_additional isAdminRole (GetTLSCertAndSigner ca) (GetAdditionalTrustedTLSCertAndSigner ca));
  tlsAuthority ⇐ Some (FromCertAndSigner cert signer);
  caSigner ⇐ Some (or_additional isAdminRole (GetSSHSigner ca) (GetAdditionalTrustedSSHSigner ca));
  hostSSHCert ⇐ generateHostCert clock lockClock order lockWatcher
    (MkHostCertParams _ (Some caSigner) (hr_PublicSSHKey req) (hr_HostID req) principals (hr_NodeName req) clusterName (hr_Role req) 0);
  if String.eqb (hr_Role req) RoleInstance && (length (hr_SystemRoles req) =? 0)%nat
  then fails BadParameter "cannot generate instance cert with no system roles" else
  subject ⇐ Some (Subject (host_identity req clusterName));
  hostTLSCert ⇐ Some (GenerateCertificate (clock 3) tlsAuthority
    (MkCertificateRequest cryptoPubKey subject (clock 2%nat + CATTL) 0 (host_names req principals)));
  done (MkCerts hostSSHCert hostTLSCert (GetTLSCerts ca) (GetSSHCheckingKeys ca)).
(** The connection is released at the end, on a panic too. *)
Definition GenerateHostCerts (cache services : string → result CertAuthority) (clock lockClock : nat → Z) (order : map_range)
    (lockWatcher : option (lockCollector R)) (req : HostCertsRequest) (limiter : ConnectionsLimiter) : outcome Certs * ConnectionsLimiter :=
  match (_ ← HostCertsRequest_CheckAndSetDefaults req; SystemRole_Check (hr_Role req)) with
  | Err e => (Some (Err e), limiter)
  | Ok _ =>
      let '(r, limiter) := AcquireConnection (SystemRole_String (hr_Role req)) limiter in
      match r with
      | Err e => (Some (Err e), limiter)
      | Ok _ => (GenerateHostCerts_body cache services clock lockClock order lockWatcher req,
                 ReleaseConnection (SystemRole_String (hr_Role req)) limiter)
      end
  end.
End issue.

(** ** What hosts get *)
Section issued.
Context `{CryptoLib} `{IdentityCodec} `{CertServer} `{Resource R}.
Implicit Types (l : ConnectionsLimiter).

(** No connection of the role is held beyond the call, whatever its result. *)
Lemma limit_given_back cache services clock lockClock order (lockWatcher : option (lockCollector R)) req l r l' :
  (∀ token n, connections l !! token = Some n → 0 < n < 2 ^ 63 - 1)%Z →
  GenerateHostCerts cache services clock lockClock order lockWatcher req l = (r, l') → l' = l.
Proof.
  intros Hl. unfold GenerateHostCerts. destruct (_ ← HostCertsRequest_CheckAndSetDefaults req; _); [|by intros [= _ <-]].
  unfold AcquireConnection, ReleaseConnection. destruct l as [m max]. cbn [connections maxConnections set_connections] in *.
  destruct (max =? 0)%Z eqn:E0; [cbn; rewrite E0; by intros [= _ <-]|].
  destruct (m !! SystemRole_String (hr_Role req)) as [n|] eqn:En.
  - destruct (n >=? max)%Z; [by intros [= _ <-]|]. cbn. rewrite E0, lookup_insert_eq. destruct (Hl _ _ En) as [Hn1 Hn2].
    rewrite wrap_i_small by (unfold in_i; lia). destruct (Z.leb_spec (n + 1) 1); [lia|]. intros [= _ <-].
    rewrite insert_insert_eq, Z.add_simpl_r, insert_id by done. done.
  - cbn. rewrite E0, lookup_insert_eq. cbn. intros [= _ <-]. by rewrite delete_insert_id.
Qed.

Lemma signing_authority_Ok cache services clusterName req ca : signing_authority cache services clusterName req = Ok ca →
  ((hr_NoCache req = false ∧ cache clusterName = Ok ca) ∨ services clusterName = Ok ca) ∧
  ∀ rotation, hr_Rotation req = Some rotation → hr_NoCache req = false → Matches rotation no_rotation = false →
    Matches rotation (GetRotation ca) = true.
Proof.
  unfold signing_authority. intros (ca0 & Hca0 & Hca)%result_bind_Ok.
  assert ((if hr_NoCache req then services else cache) clusterName = Ok ca0) as Hload by (by destruct ((if hr_NoCache req then _ else _) _); simplify_eq).
  clear Hca0. destruct (hr_Rotation req) as [rotation|].
  2:{ injection Hca as <-. split; [destruct (hr_NoCache req); auto|done]. }
  destruct (hr_NoCache req) eqn:En; cbn [negb andb] in Hca; [injection Hca as <-; split; [by right|done]|].
  cbn [Rotation_IsZero] in Hca. destruct (Matches rotation no_rotation) eqn:Ez; cbn [negb andb] in Hca.
  { injection Hca as <-. split; [auto|]. intros r [= <-] _. congruence. }
  destruct (Matches rotation (GetRotation ca0)) eqn:Em; cbn [negb] in Hca.
  { injection Hca as <-. split; [auto|]. by intros r [= <-]. }
  apply result_bind_Ok in Hca as (ca1 & Hload1 & Hca). destruct (Matches rotation (GetRotation ca1)) eqn:Em1; [|done].
  injection Hca as <-. split; [right; by destruct (services clusterName); simplify_eq|]. by intros r [= <-].
Qed.

(** What the SSH certificate of a host says. *)
Lemma host_cert_says `{!SSHLibLaws} now now' c data : native_GenerateHostCert now now' c = done data →
  ∃ cert, ParseCertificate data = Ok cert ∧ cert_Type cert = HostCert ∧ KeyId cert = "" ∧
    Extensions cert = <[ CertExtensionAuthority := hp_ClusterName c ]> {[ CertExtensionRole := SystemRole_String (hp_Role c) ]} ∧
    (∀ p, p ∈ ValidPrincipals cert ↔ p ∈ BuildPrincipals (hp_HostID c) (hp_NodeName c) (hp_ClusterName c) [hp_Role c] ∨ p ∈ hp_Principals c) ∧
    ValidBefore cert = (if (hp_TTL c =? 0)%Z then CertTimeInfinity else u64 (time_unix (now + hp_TTL c))).
Proof.
  unfold native_GenerateHostCert, done. intros ([] & _ & (cert & Hc & [= <-])%attempt_Ok)%attempt_Ok. exists cert.
  split; [apply certificate_read_back|]. unfold GenerateHostCertWithoutValidation in Hc.
  apply attempt_Ok in Hc as (key & _ & Hc). cbv zeta in Hc. destruct (_ =? 0)%nat; [done|].
  destruct (hp_CASigner c) as [signer|]; [|done]. injection Hc as Hc%SignCert_says. subst cert. cbn.
  split_and!; [done..| |done]. intros p. rewrite Deduplicate_elem, elem_of_app. done.
Qed.
Lemma BuildPrincipals_elem hostID nodeName clusterName role p : role ≠ RoleAdmin → p ∈ BuildPrincipals hostID nodeName clusterName [role] →
  p ∈ [HostFQDN hostID clusterName; hostID; HostFQDN nodeName clusterName; nodeName; PrincipalLocalhost; PrincipalLoopbackV4; PrincipalLoopbackV6].
Proof.
  intros Hr. unfold BuildPrincipals, Include. cbn [existsb]. destruct (String.eqb_spec role RoleAdmin) as [|_]; [done|]. cbn [orb].
  destruct (String.eqb hostID ""); [by intros ?%elem_of_nil|]. rewrite Deduplicate_elem. unfold HostFQDN.
  destruct (negb (String.eqb nodeName "")); cbn [app]; set_solver.
Qed.

(** C4: a host gets certificates only under the limit of its role, with a role that
    exists, and, when it is a node, with no lock on its identifier; its rotation is
    the authority's. Both certificates are of that role: the SSH certificate is of a
    host, names the role and the cluster, and is valid for the names of the host and
    the addresses that it asked for alone; the TLS certificate has the identity of
    the host in the cluster, with the role as its only group. *)
Theorem host_certificates_confined `{!SSHLibLaws} `{CertLibrary} `{!CryptoLibLaws} cache services clock lockClock order
    (lockWatcher : option (lockCollector R)) req l certs l' :
  GenerateHostCerts cache services clock lockClock order lockWatcher req l = (done certs, l') →
  SystemRole_Check (hr_Role req) = Ok () ∧ hr_HostID req ≠ "" ∧
  (maxConnections l = 0%Z ∨ ∀ n, connections l !! SystemRole_String (hr_Role req) = Some n → n < maxConnections l)%Z ∧
  ∃ clusterName principals ca, cs_GetClusterName = Ok clusterName ∧ own_principals req = Ok principals ∧
    (cache clusterName = Ok ca ∨ services clusterName = Ok ca) ∧
    (∀ rotation, hr_Rotation req = Some rotation → hr_NoCache req = false → Matches rotation no_rotation = false →
       Matches rotation (GetRotation ca) = true) ∧
    (hr_Role req = RoleNode → ∃ authPref, cs_GetAuthPreference = Ok authPref ∧
       checkLockInForce lockClock order lockWatcher (pref_LockingMode authPref)
         [node_target (hr_HostID req); node_target (HostFQDN (hr_HostID req) clusterName)] = Ok ()) ∧
    (hr_Role req = RoleInstance → hr_SystemRoles req ≠ []) ∧
    (∃ cert, ParseCertificate (certs_SSH certs) = Ok cert ∧ cert_Type cert = HostCert ∧
       Extensions cert = <[ CertExtensionAuthority := clusterName ]> {[ CertExtensionRole := SystemRole_String (hr_Role req) ]} ∧
       ∀ p, p ∈ ValidPrincipals cert ↔
         p ∈ BuildPrincipals (hr_HostID req) (hr_NodeName req) clusterName [hr_Role req] ∨ p ∈ principals) ∧
    (∃ n n' t, Subject (host_identity req clusterName) = Ok n ∧ certified n = Ok n' ∧ x509_Read (certs_TLS certs) = Ok t ∧
       t_Subject t = n' ∧ t_IsCA t = false ∧ t_NotAfter t = (time_unix (clock 2%nat + CATTL) * Second)%Z ∧
       t_DNSNames t = dns_names (host_names req principals) ∧ t_IPAddresses t = ip_addresses (host_names req principals)) ∧
    TLSCACerts certs = GetTLSCerts ca ∧ SSHCACerts certs = GetSSHCheckingKeys ca.
Proof.
  unfold GenerateHostCerts. destruct (_ ← HostCertsRequest_CheckAndSetDefaults req; _) as [[]|] eqn:Ec; [|done].
  apply result_bind_Ok in Ec as ([] & Hid & Hrole). unfold HostCertsRequest_CheckAndSetDefaults in Hid.
  destruct (String.eqb_spec (hr_HostID req) "") as [|Hne]; [done|]. clear Hid.
  destruct (AcquireConnection _ l) as [[[]|] l1] eqn:Ea; [|done]. intros [= Hbody _].
  split; [done|]. split; [done|]. split.
  { unfold AcquireConnection in Ea. destruct (Z.eqb_spec (maxConnections l) 0); [by left|]. right. intros m Hm. rewrite Hm in Ea.
    destruct (m >=? maxConnections l)%Z eqn:E; [done|]. lia. }
  unfold GenerateHostCerts_body, done in Hbody.
  apply attempt_Ok in Hbody as (clusterName & [= Hcl] & Hbody). apply attempt_Ok in Hbody as (principals & [= Hp] & Hbody).
  apply attempt_Ok in Hbody as ([] & _ & Hbody). apply attempt_Ok in Hbody as (key & _ & Hbody).
  apply attempt_Ok in Hbody as (ca & [= Hca] & Hbody). apply signing_authority_Ok in Hca as [Hca Hrot]. cbv zeta in Hbody.
  apply attempt_Ok in Hbody as ([cert signer] & _ & Hbody). apply attempt_Ok in Hbody as ([x509 xs] & Hauth & Hbody).
  apply attempt_Ok in Hbody as (caSigner & _ & Hbody). apply attempt_Ok in Hbody as (ssh & Hssh & Hbody).
  destruct (String.eqb (hr_Role req) RoleInstance && _) eqn:Ei; [done|].
  apply attempt_Ok in Hbody as (subject & [= Hsub] & Hbody). apply attempt_Ok in Hbody as (tls & [= Htls] & [= <-]).
  exists clusterName, principals, ca. split; [done|]. split; [done|]. split; [tauto|]. split; [done|].
  unfold generateHostCert in Hssh. apply attempt_Ok in Hssh as (authPref & [= Hpref] & Hssh). cbn [hp_Role hp_HostID hp_ClusterName] in Hssh.
  apply attempt_Ok in Hssh as ([] & [= Hlock] & Hssh). split; [|split; [|split; [|split; [|done]]]].
  - intros Hn. rewrite Hn in Hlock. by exists authPref.
  - intros Hi Hs. by rewrite Hi, Hs in Ei.
  - apply host_cert_says in Hssh as (cert' & ? & ? & _ & ? & ? & _). by exists cert'.
  - apply result_bind_Ok in Htls as (creq & Hd & Hg). apply x509_reads in Hg as (n' & Hn' & Hr).
    unfold CertificateRequest_CheckAndSetDefaults in Hd. destruct (String.eqb _ ""); [done|]. destruct (is_zero_time _); [done|].
    injection Hd as <-. cbn in Hn', Hr. eexists _, n', _. split; [exact Hsub|]. by split; [|split; [exact Hr|]].
Qed.
End issued.
