(* ===== verification/Provision.v ===== *)
(** * Provision tokens (api/types/provisioning.go, lib/services/provisioning.go, lib/services/local/provisioning.go, usertoken.go, configuration.go)

    The tokens with which new members join the cluster: what a valid token is, and
    how tokens are kept. *)

From Stdlib Require Import Ascii String.
From S2P Require Import Prelude.
From S2P Require Import Keys.
From S2P Require Import Backend.
From S2P Require Import Labels.
From S2P Require Import Role.
From S2P Require Import AccessRequest.
From S2P Require Import DynamicAccess.
From S2P Require Import Users.
From S2P Require Import SystemRoles.
Local Open Scope string_scope.

(** ** Tokens *)

Definition JoinMethodUnspecified : string := "".
Definition JoinMethodToken : string := "token".
Definition JoinMethodEC2 : string := "ec2".
Definition JoinMethodIAM : string := "iam".
Definition JoinMethodGitHub : string := "github".
Definition JoinMethods : list string := [JoinMethodToken; JoinMethodEC2; JoinMethodIAM; JoinMethodGitHub].
Definition ValidateJoinMethod (method : string) : result unit :=
  if SliceContainsStr JoinMethods method then Ok () else Err (Error BadParameter "join method must be one of %s").

Record TokenRule := MkTokenRule { AWSAccount : string; AWSRegions : list string; AWSRole : string; AWSARN : string }.
Record GitHubRule := MkGitHubRule {
  gh_Sub : string; gh_Repository : string; gh_RepositoryOwner : string; gh_Workflow : string; gh_Environment : string;
  gh_Actor : string; gh_Ref : string; gh_RefType : string
}.
(** The kind and the version are constants. *)
Record ProvisionTokenV2 := MkProvisionToken {
  pt_Metadata : Metadata; pt_Roles : SystemRoles; pt_Allow : list TokenRule; AWSIIDTTL : Z; JoinMethod : string;
  BotName : string; SuggestedLabels : gmap string (list string); GitHub : option (list GitHubRule)
}.
Record ProvisionTokenV1 := MkTokenV1 { tv1_Roles : SystemRoles; tv1_Expires : Z; tv1_Token : string }.

Definition GitHub_checkAndSetDefaults (allow : list GitHubRule) : result unit :=
  if (length allow =? 0)%nat then Err (Error BadParameter "the %q join method requires at least one token allow rule") else
  if existsb (fun rule => String.eqb (gh_Sub rule) "" && String.eqb (gh_RepositoryOwner rule) "" && String.eqb (gh_Repository rule) "") allow
  then Err (Error BadParameter "allow rule for %q must include at least one of repository, repository_owner or sub") else Ok ().
Definition check_EC2_rule (rule : TokenRule) : result unit :=
  if negb (String.eqb (AWSARN rule) "") then Err (Error BadParameter "the %q join method does not support the aws_arn parameter") else
  if String.eqb (AWSAccount rule) "" && String.eqb (AWSRole rule) ""
  then Err (Error BadParameter "allow rule for %q join method must set aws_account or aws_role") else Ok ().
Definition check_IAM_rule (rule : TokenRule) : result unit :=
  if negb (String.eqb (AWSRole rule) "") then Err (Error BadParameter "the %q join method does not support the aws_role parameter") else
  if negb (length (AWSRegions rule) =? 0)%nat then Err (Error BadParameter "the %q join method does not support the aws_regions parameter") else
  if String.eqb (AWSAccount rule) "" && String.eqb (AWSARN rule) ""
  then Err (Error BadParameter "allow rule for %q join method must set aws_account or aws_arn") else Ok ().
Fixpoint check_all {A} (check : A → result unit) (l : list A) : result unit :=
  match l with [] => Ok () | x :: l => _ ← check x; check_all check l end.

Definition set_method (method : string) (iidTTL : Z) (md : Metadata) (p : ProvisionTokenV2) : ProvisionTokenV2 :=
  MkProvisionToken md (pt_Roles p) (pt_Allow p) iidTTL method (BotName p) (SuggestedLabels p) (GitHub p).
(** The token with its defaults. *)
Definition ProvisionToken_CheckAndSetDefaults (p : ProvisionTokenV2) : result ProvisionTokenV2 :=
  md ← Metadata_CheckAndSetDefaults (pt_Metadata p);
  if (length (pt_Roles p) =? 0)%nat then Err (Error BadParameter "provisioning token is missing roles") else
  _ ← SystemRoles_Check (pt_Roles p);
  if Include (pt_Roles p) RoleBot && String.eqb (BotName p) "" then Err (Error BadParameter "token with role %q must set bot_name") else
  if negb (String.eqb (BotName p) "") && negb (Include (pt_Roles p) RoleBot)
  then Err (Error BadParameter "can only set bot_name on token with role %q") else
  let hasAllowRules := negb (length (pt_Allow p) =? 0)%nat in
  let method := if String.eqb (JoinMethod p) JoinMethodUnspecified
                then (if hasAllowRules then JoinMethodEC2 else JoinMethodToken) else JoinMethod p in
  let keep := Ok (set_method method (AWSIIDTTL p) md p) in
  if String.eqb method JoinMethodToken then
    if hasAllowRules then Err (Error BadParameter "allow rules are not compatible with the %q join method") else keep
  else if String.eqb method JoinMethodEC2 then
    if negb hasAllowRules then Err (Error BadParameter "the %q join method requires defined token allow rules") else
    _ ← check_all check_EC2_rule (pt_Allow p);
    Ok (set_method method (if (AWSIIDTTL p =? 0)%Z then 5 * Minute else AWSIIDTTL p)%Z md p)
  else if String.eqb method JoinMethodIAM then
    if negb hasAllowRules then Err (Error BadParameter "the %q join method requires defined token allow rules") else
    _ ← check_all check_IAM_rule (pt_Allow p); keep
  else if String.eqb method JoinMethodGitHub then
    match GitHub p with
    | None => Err (Error BadParameter "github configuration must be provided for join method %q")
    | Some allow => _ ← GitHub_checkAndSetDefaults allow; keep
    end
  else Err (Error BadParameter "unknown join method %q").

Definition pt_Name (p : ProvisionTokenV2) : string := md_Name (pt_Metadata p).
Definition pt_Expiry (p : ProvisionTokenV2) : Z := default zero_time (md_Expires (pt_Metadata p)).
Definition pt_set_Metadata (m : Metadata) (p : ProvisionTokenV2) : ProvisionTokenV2 := set_method (JoinMethod p) (AWSIIDTTL p) m p.
Definition pt_SetExpiry (expires : Z) (p : ProvisionTokenV2) : ProvisionTokenV2 :=
  let m := pt_Metadata p in
  pt_set_Metadata (MkMetadata (md_Name m) (md_Namespace m) (md_Description m) (md_Labels m) (Some expires) (md_ID m)) p.
Definition pt_SetResourceID (id : Z) (p : ProvisionTokenV2) : ProvisionTokenV2 :=
  let m := pt_Metadata p in
  pt_set_Metadata (MkMetadata (md_Name m) (md_Namespace m) (md_Description m) (md_Labels m) (md_Expires m) id) p.

Definition NewProvisionTokenFromSpec (token : string) (expires : Z) (spec : Metadata → ProvisionTokenV2) : result ProvisionTokenV2 :=
  ProvisionToken_CheckAndSetDefaults (spec (MkMetadata token "" "" ∅ (Some expires) 0)).
Definition roles_spec (roles : SystemRoles) (m : Metadata) : ProvisionTokenV2 := MkProvisionToken m roles [] 0 "" "" ∅ None.
Definition NewProvisionToken (token : string) (roles : SystemRoles) (expires : Z) : result ProvisionTokenV2 :=
  NewProvisionTokenFromSpec token expires (roles_spec roles).

(** A token of the first version is one with roles alone; one that is not valid is
    converted all the same, and has no join method. *)
Definition TokenV1_V2 (p : ProvisionTokenV1) : ProvisionTokenV2 :=
  let t := roles_spec (tv1_Roles p) (MkMetadata (tv1_Token p) defaults_Namespace "" ∅
             (if is_zero_time (tv1_Expires p) then None else Some (tv1_Expires p)) 0) in
  match ProvisionToken_CheckAndSetDefaults t with Ok t => t | Err _ => t end.
Definition TokenV2_V1 (p : ProvisionTokenV2) : ProvisionTokenV1 := MkTokenV1 (pt_Roles p) (pt_Expiry p) (pt_Name p).
Definition ProvisionTokensFromV1 (in_ : list ProvisionTokenV1) : list ProvisionTokenV2 := map TokenV1_V2 in_.
Definition ProvisionTokensToV1 (in_ : list ProvisionTokenV2) : list ProvisionTokenV1 := map TokenV2_V1 in_.

(** ** Static tokens and user tokens *)

Record StaticTokensV2 := MkStaticTokens { st_Metadata : Metadata; st_StaticTokens : list ProvisionTokenV1 }.
Definition MetaNameStaticTokens : string := "static-tokens".
Definition st_set_Metadata (m : Metadata) (c : StaticTokensV2) : StaticTokensV2 := MkStaticTokens m (st_StaticTokens c).
Definition StaticTokens_CheckAndSetDefaults (c : StaticTokensV2) : result StaticTokensV2 :=
  let m := st_Metadata c in
  md ← Metadata_CheckAndSetDefaults
         (MkMetadata MetaNameStaticTokens (md_Namespace m) (md_Description m) (md_Labels m) (md_Expires m) (md_ID m));
  Ok (st_set_Metadata md c).
Definition SetStaticTokens_tokens (s : list ProvisionTokenV2) (c : StaticTokensV2) : StaticTokensV2 :=
  MkStaticTokens (st_Metadata c) (ProvisionTokensToV1 s).
Definition GetStaticTokens_tokens (c : StaticTokensV2) : list ProvisionTokenV2 := ProvisionTokensFromV1 (st_StaticTokens c).

Record UserTokenV3 := MkUserToken {
  ut_SubKind : string; ut_Metadata : Metadata; ut_User : string; ut_URL : string; ut_Usage : Z; ut_Created : Z
}.
Definition ut_Name (u : UserTokenV3) : string := md_Name (ut_Metadata u).
Definition ut_Expiry (u : UserTokenV3) : Z := default zero_time (md_Expires (ut_Metadata u)).
Definition UserToken_CheckAndSetDefaults (u : UserTokenV3) : result UserTokenV3 :=
  md ← Metadata_CheckAndSetDefaults (ut_Metadata u);
  Ok (MkUserToken (ut_SubKind u) md (ut_User u) (ut_URL u) (ut_Usage u) (ut_Created u)).
Definition NewUserToken (tokenID : string) : result UserTokenV3 :=
  UserToken_CheckAndSetDefaults (MkUserToken "" (MkMetadata tokenID "" "" ∅ None 0) "" "" 0 zero_time).

(** ** Tokens in the backend *)

(** JSON of tokens, whose version is read first. *)
Class TokenCodec := {
  token_json : ProvisionTokenV2 → bytes;
  token_version : bytes → result string;
  token_of_json : bytes → result ProvisionTokenV2;
  token_v1_of_json : bytes → result ProvisionTokenV1
}.
Class TokenCodecLaws `{TokenCodec} : Prop := {
  token_json_version p : token_version (token_json p) = Ok "v2";
  token_json_back p : token_of_json (token_json p) = Ok p;
  token_json_some p : token_json p ≠ []
}.

Definition tokensPrefix : string := "tokens".
Definition tokenKey (token : string) : bytes := path [tokensPrefix; token].
Definition ProvisioningTokenTTL : Z := (30 * Minute)%Z.
Definition staticTokensKey : bytes := path ["cluster_configuration"; "static_tokens"].
Definition userTokenPrefix : string := "usertoken".
Definition LegacyPasswordTokensPrefix : string := "resetpasswordtokens".
Definition userTokenKey (prefix tokenID : string) : bytes := path [prefix; tokenID; paramsPrefix].
Definition userTokenDir (prefix tokenID : string) : bytes := ExactKey (map bytes_of_string [prefix; tokenID]).

Section tokens.
Context `{TokenCodec} `{Codec StaticTokensV2} `{Codec UserTokenV3} `{BackendLaws B}.

(** The time at which the item expires is not read: a token has its own. *)
Definition UnmarshalProvisionToken (data : bytes) (id : Z) : result ProvisionTokenV2 :=
  if (length data =? 0)%nat then Err (Error BadParameter "missing provision token data") else
  version ← token_version data;
  let with_id p := if (id =? 0)%Z then p else pt_SetResourceID id p in
  if String.eqb version "" then p ← token_v1_of_json data; Ok (with_id (TokenV1_V2 p)) else
  if String.eqb version "v2" then
    match token_of_json data with
    | Err _ => Err (Error BadParameter "err")
    | Ok p => p ← ProvisionToken_CheckAndSetDefaults p; Ok (with_id p)
    end
  else Err (Error BadParameter "server resource version %v is not supported").
Definition MarshalProvisionToken (p : ProvisionTokenV2) : result bytes :=
  p ← ProvisionToken_CheckAndSetDefaults p; Ok (token_json (pt_SetResourceID 0 p)).

Definition tokenToItem (now : Z) (p : ProvisionTokenV2) : result Item :=
  p ← ProvisionToken_CheckAndSetDefaults p;
  let p := if is_zero_time (pt_Expiry p) || (pt_Expiry p - now <? Second)%Z
           then pt_SetExpiry (now + ProvisioningTokenTTL) p else p in
  data ← MarshalProvisionToken p;
  Ok (mkItem (tokenKey (pt_Name p)) data (pt_Expiry p) (md_ID (pt_Metadata p)) 0).
(** The readings of the clock: of the expiry, and of the call. *)
Definition UpsertToken (clock : nat → Z) (p : ProvisionTokenV2) : goM B (result unit) :=
  match tokenToItem (clock 0) p with
  | Err e => mret (Err e)
  | Ok item => r ← bk_Put (clock 1) item; mret (answer r)
  end.
Definition CreateToken (clock : nat → Z) (p : ProvisionTokenV2) : goM B (result unit) :=
  match tokenToItem (clock 0) p with
  | Err e => mret (Err e)
  | Ok item => r ← bk_Create (clock 1) item; mret (answer r)
  end.
Definition err_token_not_found : error := Error NotFound "provisioning token(%s) not found".
Definition token_NotFound {A} (r : result A) : result A :=
  match r with Err e => Err (if has_kind NotFound e then err_token_not_found else e) | Ok a => Ok a end.
Definition unmarshal_token_item (item : Item) : result ProvisionTokenV2 := UnmarshalProvisionToken (it_Value item) (it_ID item).
Definition GetToken (now : Z) (token : string) : goM B (result ProvisionTokenV2) :=
  if String.eqb token "" then mret (Err (Error BadParameter "missing parameter token")) else
  r ← bk_Get now (tokenKey token);
  mret (item ← token_NotFound r; unmarshal_token_item item).
Definition ProvisioningService_DeleteToken (now : Z) (token : string) : goM B (result unit) :=
  if String.eqb token "" then mret (Err (Error BadParameter "missing parameter token")) else
  r ← bk_Delete now (tokenKey token);
  mret (token_NotFound r).
Definition DeleteAllTokens (now : Z) : goM B (result unit) :=
  bk_DeleteRange now (path [tokensPrefix]) (RangeEnd (path [tokensPrefix])).
Fixpoint each_item {A} (read : Item → result A) (items : list Item) : result (list A) :=
  match items with [] => Ok [] | item :: items => t ← read item; rest ← each_item read items; Ok (t :: rest) end.
Definition ProvisioningService_GetTokens (now : Z) : goM B (result (list ProvisionTokenV2)) :=
  r ← bk_GetRange now (path [tokensPrefix]) (RangeEnd (path [tokensPrefix])) NoLimit;
  mret (items ← r; each_item unmarshal_token_item items).

(** ** Static tokens *)

Definition st_SetResourceID (id : Z) (c : StaticTokensV2) : StaticTokensV2 :=
  let m := st_Metadata c in
  st_set_Metadata (MkMetadata (md_Name m) (md_Namespace m) (md_Description m) (md_Labels m) (md_Expires m) id) c.
Definition st_SetExpiry (expires : Z) (c : StaticTokensV2) : StaticTokensV2 :=
  let m := st_Metadata c in
  st_set_Metadata (MkMetadata (md_Name m) (md_Namespace m) (md_Description m) (md_Labels m) (Some expires) (md_ID m)) c.
Definition UnmarshalStaticTokens (data : bytes) (id expires : Z) : result StaticTokensV2 :=
  if (length data =? 0)%nat then Err (Error BadParameter "missing resource data") else
  match decode_json data with
  | Err _ => Err (Error BadParameter "err")
  | Ok c =>
      c ← StaticTokens_CheckAndSetDefaults c;
      let c := if (id =? 0)%Z then c else st_SetResourceID id c in
      Ok (if is_zero_time expires then c else st_SetExpiry expires c)
  end.
Definition MarshalStaticTokens (c : StaticTokensV2) : result (bytes * StaticTokensV2) :=
  c ← StaticTokens_CheckAndSetDefaults c; Ok (encode_json (st_SetResourceID 0 c), c).
Definition GetStaticTokens (now : Z) : goM B (result StaticTokensV2) :=
  r ← bk_Get now staticTokensKey;
  mret (match r with
        | Err e => Err (if has_kind NotFound e then Error NotFound "static tokens not found" else e)
        | Ok item => UnmarshalStaticTokens (it_Value item) (it_ID item) (it_Expires item)
        end).
Definition SetStaticTokens (now : Z) (c : StaticTokensV2) : goM B (result unit) :=
  match MarshalStaticTokens c with
  | Err e => mret (Err e)
  | Ok (value, c) =>
      r ← bk_Put now (mkItem staticTokensKey value (default zero_time (md_Expires (st_Metadata c))) (md_ID (st_Metadata c)) 0);
      mret (answer r)
  end.
Definition DeleteStaticTokens (now : Z) : goM B (result unit) :=
  r ← bk_Delete now staticTokensKey;
  mret (match r with
        | Err e => Err (if has_kind NotFound e then Error NotFound "static tokens are not found" else e)
        | Ok _ => Ok ()
        end).

(** ** User tokens *)

Definition UnmarshalUserToken (data : bytes) : result UserTokenV3 :=
  if (length data =? 0)%nat then Err (Error BadParameter "missing resource data") else
  match decode_json data with Err _ => Err (Error BadParameter "err") | Ok u => UserToken_CheckAndSetDefaults u end.
Definition MarshalUserToken (u : UserTokenV3) : result bytes := u ← UserToken_CheckAndSetDefaults u; Ok (encode_json u).
(** Under a new name, then under the old one. *)
Definition get_user_item (now : nat → Z) (key : string → bytes) (missing : error) : goM B (result Item) :=
  r ← bk_Get (now 0%nat) (key userTokenPrefix);
  r ← (match r with
       | Err e => if has_kind NotFound e then bk_Get (now 1%nat) (key LegacyPasswordTokensPrefix) else mret (Err e)
       | Ok item => mret (Ok item)
       end);
  mret (match r with Err e => Err (if has_kind NotFound e then missing else e) | Ok item => Ok item end).
Definition GetUserToken (now : nat → Z) (tokenID : string) : goM B (result UserTokenV3) :=
  r ← get_user_item now (fun prefix => userTokenKey prefix tokenID) (Error NotFound "user token(%s) not found");
  mret (item ← r; UnmarshalUserToken (it_Value item)).
Fixpoint collect_user_tokens (items : list Item) : result (list UserTokenV3) :=
  match items with
  | [] => Ok []
  | item :: items =>
      if negb (bytes_has_suffix (it_Key item) (bytes_of_string paramsPrefix)) then collect_user_tokens items else
      token ← UnmarshalUserToken (it_Value item); rest ← collect_user_tokens items; Ok (token :: rest)
  end.
Definition GetUserTokens (now : nat → Z) : goM B (result (list UserTokenV3)) :=
  r ← bk_GetRange (now 0%nat) (path [userTokenPrefix]) (RangeEnd (path [userTokenPrefix])) NoLimit;
  match r with
  | Err e => mret (Err e)
  | Ok items =>
      r ← bk_GetRange (now 1%nat) (path [LegacyPasswordTokensPrefix]) (RangeEnd (path [LegacyPasswordTokensPrefix])) NoLimit;
      mret (old ← r; collect_user_tokens (items ++ old)%list)
  end.
Definition DeleteUserToken (now : nat → Z) (tokenID : string) : goM B (result unit) :=
  r ← GetUserToken now tokenID;
  match r with
  | Err e => mret (Err e)
  | Ok _ =>
      r ← bk_DeleteRange (now 2%nat) (userTokenDir userTokenPrefix tokenID) (RangeEnd (userTokenDir userTokenPrefix tokenID));
      match r with
      | Err e => mret (Err e)
      | Ok _ => bk_DeleteRange (now 3%nat) (userTokenDir LegacyPasswordTokensPrefix tokenID)
                  (RangeEnd (userTokenDir LegacyPasswordTokensPrefix tokenID))
      end
  end.
Definition CreateUserToken (now : Z) (token : UserTokenV3) : goM B (result UserTokenV3) :=
  match (token ← UserToken_CheckAndSetDefaults token; value ← MarshalUserToken token; Ok (token, value)) with
  | Err e => mret (Err e)
  | Ok (token, value) =>
      r ← bk_Create now (mkItem (userTokenKey userTokenPrefix (ut_Name token)) value (ut_Expiry token) 0 0);
      mret (_ ← r; Ok token)
  end.
End tokens.
