(* ===== verification/JoinMethods.v ===== *)
(** * Methods of joining (lib/auth/join_ec2.go, join_iam.go, join_github.go, sts_endpoints.go, aws_certs.go, lib/utils/aws/aws.go)

    What a new member shows besides the name of its token: a document of its EC2
    instance, a signed request to AWS, or an identity of GitHub Actions. The
    answers of those services are parameters. *)

From Stdlib Require Import Ascii String.
From S2P Require Import Prelude.
From S2P Require Import Keys.
From S2P Require Import Strconv.
From S2P Require Import Labels.
From S2P Require Import Parse.
From S2P Require Import Role.
From S2P Require Import SystemRoles.
From S2P Require Import Provision.
Local Open Scope string_scope.

(** ** Requests *)

Record RegisterUsingTokenRequest := MkRegisterRequest {
  rg_HostID : string; rg_NodeName : string; rg_Role : SystemRole; rg_Token : string; rg_AdditionalPrincipals : list string;
  rg_DNSNames : list string; rg_PublicTLSKey : bytes; rg_PublicSSHKey : bytes; rg_RemoteAddr : string;
  rg_EC2IdentityDocument : bytes; rg_Expires : option Z; rg_IDToken : string
}.
Definition Register_CheckAndSetDefaults (r : RegisterUsingTokenRequest) : result unit :=
  if String.eqb (rg_HostID r) "" && negb (String.eqb (rg_Role r) RoleBot) then Err (Error BadParameter "missing parameter HostID") else
  if String.eqb (rg_Token r) "" then Err (Error BadParameter "missing parameter Token") else SystemRole_Check (rg_Role r).

(** ** EC2 *)

Record InstanceIdentityDocument := MkIID { iid_AccountID : string; iid_Region : string; iid_InstanceID : string; iid_PendingTime : Z }.
Record EC2Instance := MkInstance { InstanceId : option string; StateName : option string }.
Definition InstanceStateNameRunning : string := "running".
(** The regions whose certificates are built in. *)
Definition awsRSA2048Regions : list string :=
  ["us-east-1"; "us-east-2"; "us-west-1"; "us-west-2"; "ca-central-1"; "sa-east-1"; "eu-central-1"; "eu-west-1";
   "eu-west-2"; "eu-west-3"; "eu-south-1"; "eu-north-1"; "me-south-1"; "af-south-1"; "ap-east-1"; "ap-northeast-1";
   "ap-northeast-2"; "ap-northeast-3"; "ap-south-1"; "ap-southeast-1"; "ap-southeast-2"; "cn-north-1";
   "cn-northwest-1"; "us-gov-west-1"; "us-gov-east-1"].

(** The library of PKCS #7, the encodings, and EC2's API: the instances of each
    reservation, for a region and a role to assume. The certificates of the regions
    themselves are not written out. *)
Class EC2Lib := {
  P7 : Type;
  pem_BER : bytes → option bytes;
  pkcs7_Parse : bytes → result P7;
  iid_of_json : P7 → result InstanceIdentityDocument;
  p7_Verify : P7 → string → bool;
  DescribeInstances : string → string → string → result (list (list EC2Instance))
}.
(** The lists of members that are already known. *)
Class PresenceReads := {
  GetNamespaces : result (list string);
  GetNode : string → string → result unit;
  GetProxies : result (list string);
  GetKubernetesServers_HostIDs : result (list string);
  GetApplicationServers : string → result (list string);
  GetDatabaseServers : string → result (list string);
  GetWindowsDesktopServices : result (list string)
}.

Section ec2.
Context `{EC2Lib} `{PresenceReads}.

Definition checkInstanceRunning (instanceID region IAMRole : string) : result unit :=
  output ← DescribeInstances region IAMRole instanceID;
  match output with
  | (instance :: _) :: _ =>
      if negb (bool_decide (InstanceId instance = Some instanceID)) then Err (Error AccessDenied "failed to get instance state") else
      if negb (bool_decide (StateName instance = Some InstanceStateNameRunning)) then Err (Error AccessDenied "instance is not running")
      else Ok ()
  | _ => Err (Error AccessDenied "failed to get instance state")
  end.
Definition err_no_rule : error := Error AccessDenied "instance did not match any allow rules".
Definition EC2_rule_matches (iid : InstanceIdentityDocument) (rule : TokenRule) : bool :=
  (String.eqb (AWSAccount rule) "" || String.eqb (AWSAccount rule) (iid_AccountID iid)) &&
  ((length (AWSRegions rule) =? 0)%nat || SliceContainsStr (AWSRegions rule) (iid_Region iid)).
(** The first rule that matches decides. *)
Fixpoint checkEC2AllowRules (iid : InstanceIdentityDocument) (allowRules : list TokenRule) : result unit :=
  match allowRules with
  | [] => Err err_no_rule
  | rule :: allowRules =>
      if EC2_rule_matches iid rule then checkInstanceRunning (iid_InstanceID iid) (iid_Region iid) (AWSRole rule)
      else checkEC2AllowRules iid allowRules
  end.
Definition parseAndVerifyIID (iidBytes : bytes) : result InstanceIdentityDocument :=
  match pem_BER iidBytes with
  | None => Err (Error AccessDenied "unable to decode Instance Identity Document")
  | Some sigBER =>
      p7 ← pkcs7_Parse sigBER;
      iid ← iid_of_json p7;
      if negb (SliceContainsStr awsRSA2048Regions (iid_Region iid)) then Err (Error AccessDenied "unsupported EC2 region: %q") else
      if negb (p7_Verify p7 (iid_Region iid)) then Err (Error AccessDenied "invalid signature") else Ok iid
  end.
Definition checkPendingTime (now : Z) (iid : InstanceIdentityDocument) (provisionToken : ProvisionTokenV2) : result unit :=
  let timeSinceInstanceStart := (now - iid_PendingTime iid)%Z in
  if (timeSinceInstanceStart <? - Minute)%Z
  then Err (Error AccessDenied "Instance Identity Document PendingTime appears to be in the future") else
  if (AWSIIDTTL provisionToken <? timeSinceInstanceStart)%Z
  then Err (Error AccessDenied "Instance Identity Document with PendingTime %v is older than configured TTL of %v") else Ok ().

Fixpoint node_in (hostID : string) (namespaces : list string) : result bool :=
  match namespaces with
  | [] => Ok false
  | namespace :: namespaces =>
      match GetNode namespace hostID with
      | Err e => if has_kind NotFound e then node_in hostID namespaces else Err e
      | Ok _ => Ok true
      end
  end.
Definition nodeExists (hostID : string) : result bool := namespaces ← GetNamespaces; node_in hostID namespaces.
Definition named_in (hostID : string) (names : result (list string)) : result bool :=
  names ← names; Ok (existsb (fun name => String.eqb name hostID) names).
Definition proxyExists (hostID : string) : result bool := named_in hostID GetProxies.
Definition kubeExists (hostID : string) : result bool := named_in hostID GetKubernetesServers_HostIDs.
Fixpoint server_in (get : string → result (list string)) (hostID : string) (namespaces : list string) : result bool :=
  match namespaces with
  | [] => Ok false
  | namespace :: namespaces =>
      found ← named_in hostID (get namespace);
      if (found : bool) then Ok true else server_in get hostID namespaces
  end.
Definition appExists (hostID : string) : result bool := namespaces ← GetNamespaces; server_in GetApplicationServers hostID namespaces.
Definition dbExists (hostID : string) : result bool := namespaces ← GetNamespaces; server_in GetDatabaseServers hostID namespaces.
Definition desktopServiceExists (hostID : string) : result bool := named_in hostID GetWindowsDesktopServices.

Definition NodeIDFromIID (iid : InstanceIdentityDocument) : string := iid_AccountID iid ++ "-" ++ iid_InstanceID iid.
Definition instance_exists (role : SystemRole) (hostID : string) : result bool :=
  if String.eqb role RoleNode then nodeExists hostID else
  if String.eqb role RoleProxy then proxyExists hostID else
  if String.eqb role RoleKube then kubeExists hostID else
  if String.eqb role RoleApp then appExists hostID else
  if String.eqb role RoleDatabase then dbExists hostID else
  if String.eqb role RoleWindowsDesktop then desktopServiceExists hostID else
  if String.eqb role RoleInstance then Ok false else Err (Error BadParameter "unsupported role: %q").
Definition tryToDetectIdentityReuse (req : RegisterUsingTokenRequest) (iid : InstanceIdentityDocument) : result unit :=
  if negb (String.eqb (rg_HostID req) (NodeIDFromIID iid)) then Err (Error AccessDenied "invalid host ID %q, expected %q") else
  instanceExists ← instance_exists (rg_Role req) (rg_HostID req);
  if (instanceExists : bool) then Err (Error AccessDenied "server with host ID %q and role %q already exists") else Ok ().
(** What follows the reading of the token. *)
Definition checkEC2_token (now : Z) (req : RegisterUsingTokenRequest) (provisionToken : ProvisionTokenV2) : result unit :=
  if (length (rg_EC2IdentityDocument req) =? 0)%nat
  then Err (Error AccessDenied "this token is only valid for the EC2 join method but the node has not included an EC2 Instance Identity Document, make sure your node is configured to use the EC2 join method") else
  iid ← parseAndVerifyIID (rg_EC2IdentityDocument req);
  _ ← checkPendingTime now iid provisionToken;
  _ ← tryToDetectIdentityReuse req iid;
  checkEC2AllowRules iid (pt_Allow provisionToken).
End ec2.

(** ** GitHub Actions *)

Record IDTokenClaims := MkClaims {
  cl_Sub : string; cl_Repository : string; cl_RepositoryOwner : string; cl_Workflow : string; cl_Environment : string;
  cl_Actor : string; cl_Ref : string; cl_RefType : string
}.
(** The validation of the token that GitHub signed. *)
Class GitHubActions := { gha_Validate : string → result IDTokenClaims }.
Definition claim_ok (want have : string) : bool := String.eqb want "" || String.eqb have want.
Definition GitHub_rule_matches (claims : IDTokenClaims) (rule : GitHubRule) : bool :=
  claim_ok (gh_Sub rule) (cl_Sub claims) && claim_ok (gh_Repository rule) (cl_Repository claims) &&
  claim_ok (gh_RepositoryOwner rule) (cl_RepositoryOwner claims) && claim_ok (gh_Workflow rule) (cl_Workflow claims) &&
  claim_ok (gh_Environment rule) (cl_Environment claims) && claim_ok (gh_Actor rule) (cl_Actor claims) &&
  claim_ok (gh_Ref rule) (cl_Ref claims) && claim_ok (gh_RefType rule) (cl_RefType claims).
(** A token without the rules has none to read: it panics. *)
Definition checkGithubAllowRules (token : ProvisionTokenV2) (claims : IDTokenClaims) : outcome unit :=
  match GitHub token with
  | None => None
  | Some allow =>
      if existsb (GitHub_rule_matches claims) allow then done () else fails AccessDenied "id token claims did not match any allow rules"
  end.

(** ** IAM *)

Definition validSTSEndpoints : list string :=
  ["sts-fips.us-east-1.amazonaws.com"; "sts-fips.us-east-2.amazonaws.com"; "sts-fips.us-west-1.amazonaws.com";
   "sts-fips.us-west-2.amazonaws.com"; "sts.af-south-1.amazonaws.com"; "sts.amazonaws.com";
   "sts.ap-east-1.amazonaws.com"; "sts.ap-northeast-1.amazonaws.com"; "sts.ap-northeast-2.amazonaws.com";
   "sts.ap-northeast-3.amazonaws.com"; "sts.ap-south-1.amazonaws.com"; "sts.ap-southeast-1.amazonaws.com";
   "sts.ap-southeast-2.amazonaws.com"; "sts.ap-southeast-3.amazonaws.com"; "sts.ca-central-1.amazonaws.com";
   "sts.cn-north-1.amazonaws.com.cn"; "sts.cn-northwest-1.amazonaws.com.cn"; "sts.eu-central-1.amazonaws.com";
   "sts.eu-north-1.amazonaws.com"; "sts.eu-south-1.amazonaws.com"; "sts.eu-west-1.amazonaws.com";
   "sts.eu-west-2.amazonaws.com"; "sts.eu-west-3.amazonaws.com"; "sts.me-south-1.amazonaws.com";
   "sts.sa-east-1.amazonaws.com"; "sts.us-east-1.amazonaws.com"; "sts.us-east-2.amazonaws.com";
   "sts.us-gov-east-1.amazonaws.com"; "sts.us-gov-west-1.amazonaws.com"; "sts.us-iso-east-1.c2s.ic.gov";
   "sts.us-iso-west-1.c2s.ic.gov"; "sts.us-isob-east-1.sc2s.sgov.gov"; "sts.us-west-1.amazonaws.com";
   "sts.us-west-2.amazonaws.com"].
Definition fipsSTSEndpoints : list string :=
  ["sts-fips.us-east-1.amazonaws.com"; "sts-fips.us-east-2.amazonaws.com"; "sts-fips.us-west-1.amazonaws.com";
   "sts-fips.us-west-2.amazonaws.com"; "sts.us-gov-east-1.amazonaws.com"; "sts.us-gov-west-1.amazonaws.com"].
(** Whether the version of the server is before 12.0.0. *)
Record iamRegisterConfig := MkIAMConfig { before_v12 : bool; iam_fips : bool }.
Definition validateSTSHost (stsHost : string) (cfg : iamRegisterConfig) : result unit :=
  if negb (SliceContainsStr validSTSEndpoints stsHost) then Err (Error AccessDenied "IAM join request uses unknown STS host %q.") else
  if iam_fips cfg && negb (SliceContainsStr fipsSTSEndpoints stsHost) then
    if before_v12 cfg then Ok () else Err (Error AccessDenied "node selected non-FIPS STS endpoint (%s) for the IAM join method")
  else Ok ().

(** A request as the standard library reads it: its headers by name, and what
    reading its body gives. *)
Record HTTPRequest := MkHTTPRequest {
  http_Method : string; http_Host : string; http_RequestURI : string; http_URL_Scheme : string; http_URL_Host : string;
  http_Header_Get : string → string; http_Body : result bytes
}.
Definition challengeHeaderKey : string := "x-teleport-challenge".
Definition expectedSTSIdentityRequestBody : bytes := bytes_of_string "Action=GetCallerIdentity&Version=2011-06-15".

Record SigV4 := MkSigV4 {
  sig_KeyID : string; sig_Date : string; sig_Region : string; sig_Service : string; sig_SignedHeaders : list string; sig_Signature : string
}.
Definition sig_sections (header : string) : gmap string string :=
  fold_left (fun m v => match strings_Split "=" v with [k; x] => <[ k := TrimSuffix x "," ]> m | _ => m end)
    (strings_Split " " header) ∅.
Definition ParseSigV4 (header : string) : result SigV4 :=
  if String.eqb header "" then Err (Error BadParameter "empty AWS SigV4 header") else
  let m := sig_sections header in
  match strings_Split "/" (default "" (m !! "Credential")) with
  | [keyID; date; region; service; _] =>
      let signature := default "" (m !! "Signature") in
      if String.eqb signature "" then Err (Error BadParameter "invalid signature") else
      let v := default "" (m !! "SignedHeaders") in
      Ok (MkSigV4 keyID date region service (if String.eqb v "" then [] else strings_Split ";" v) signature)
  | _ => Err (Error BadParameter "invalid size of %q section")
  end.
Definition validateSTSIdentityRequest (req : HTTPRequest) (challenge : string) (cfg : iamRegisterConfig) : result unit :=
  _ ← validateSTSHost (http_Host req) cfg;
  if negb (String.eqb (http_Method req) "POST")
  then Err (Error AccessDenied "sts identity request method %q does not match expected method %q") else
  if negb (String.eqb (http_Header_Get req challengeHeaderKey) challenge)
  then Err (Error AccessDenied "sts identity request does not include challenge header or it does not match") else
  sigV4 ← ParseSigV4 (http_Header_Get req "Authorization");
  if negb (SliceContainsStr (sig_SignedHeaders sigV4) challengeHeaderKey)
  then Err (Error AccessDenied "sts identity request auth header %q does not include x-teleport-challenge as a signed header") else
  body ← http_Body req;
  if negb (bool_decide (body = expectedSTSIdentityRequestBody))
  then Err (Error BadParameter "sts request body %q does not equal expected %q") else Ok ().

Record awsIdentity := MkAWSIdentity { aws_Account : string; aws_Arn : string }.
(** Reading a request, sending it (the status and the body of the answer), and the
    JSON of the identity. *)
Class STSLib := {
  ReadRequest : bytes → result HTTPRequest;
  Do : HTTPRequest → result (Z * result bytes);
  identity_of_json : bytes → result awsIdentity
}.
Section iam.
Context `{STSLib} `{Regexp}.

Definition parseSTSRequest (req : bytes) : result HTTPRequest :=
  httpReq ← ReadRequest req;
  if negb (String.eqb (http_RequestURI httpReq) "/") then Err (Error AccessDenied "unexpected sts identity request URI: %q") else
  Ok (MkHTTPRequest (http_Method httpReq) (http_Host httpReq) "" "https" (http_Host httpReq) (http_Header_Get httpReq) (http_Body httpReq)).
Definition executeSTSIdentityRequest (req : HTTPRequest) : result awsIdentity :=
  '(status, body) ← Do req;
  body ← body;
  if negb (status =? 200)%Z then Err (Error AccessDenied "aws sts api returned status: %q body: %q") else
  id ← identity_of_json body;
  if String.eqb (aws_Account id) "" then Err (Error BadParameter "received empty AWS account ID from sts API") else
  if String.eqb (aws_Arn id) "" then Err (Error BadParameter "received empty AWS identity ARN from sts API") else Ok id.

(** The expression of a pattern: quoted, then each quoted star and question mark
    replaced, from the left. *)
Fixpoint QuoteMeta (s : string) : string :=
  match s with
  | EmptyString => ""
  | String c s => if is_meta c then String backslash (String c (QuoteMeta s)) else String c (QuoteMeta s)
  end.
Fixpoint ReplaceEscaped (c : ascii) (new : string) (s : string) : string :=
  match s with
  | String b ((String d rest) as s') =>
      if Ascii.eqb b backslash && Ascii.eqb d c then new ++ ReplaceEscaped c new rest else String b (ReplaceEscaped c new s')
  | _ => s
  end.
Definition arn_expression (pattern : string) : string :=
  "^" ++ ReplaceEscaped "?" "." (ReplaceEscaped "*" ".*" (QuoteMeta pattern)) ++ "$".
Definition arnMatches (pattern arn : string) : result bool :=
  match re_Match (arn_expression pattern) arn with
  | None => Err (Error PlainError "error parsing regexp")
  | Some b => Ok b
  end.
Fixpoint checkIAMAllowRules (identity : awsIdentity) (allowRules : list TokenRule) : result unit :=
  match allowRules with
  | [] => Err err_no_rule
  | rule :: allowRules =>
      if negb (String.eqb (AWSAccount rule) "") && negb (String.eqb (AWSAccount rule) (aws_Account identity))
      then checkIAMAllowRules identity allowRules else
      if String.eqb (AWSARN rule) "" then Ok () else
      matches ← arnMatches (AWSARN rule) (aws_Arn identity);
      if (matches : bool) then Ok () else checkIAMAllowRules identity allowRules
  end.
(** What follows the reading of the token. *)
Definition checkIAM_token (challenge : string) (stsIdentityRequest : bytes) (cfg : iamRegisterConfig)
    (provisionToken : ProvisionTokenV2) : result unit :=
  if negb (String.eqb (JoinMethod provisionToken) JoinMethodIAM)
  then Err (Error AccessDenied "this token does not support the IAM join method") else
  identityRequest ← parseSTSRequest stsIdentityRequest;
  _ ← validateSTSIdentityRequest identityRequest challenge cfg;
  identity ← executeSTSIdentityRequest identityRequest;
  checkIAMAllowRules identity (pt_Allow provisionToken).
End iam.

(** ** What each method shows *)
Section shown.
Context `{EC2Lib} `{PresenceReads} `{STSLib} `{Regexp}.

(** The instance is running and its document is signed by AWS, recent enough, of
    the host that asks, which is not known yet, and allowed by a rule. *)
Record ec2_shown (now : Z) (req : RegisterUsingTokenRequest) (p : ProvisionTokenV2) (iid : InstanceIdentityDocument) : Prop := MkEC2Shown {
  ec2_signed : ∃ ber p7, pem_BER (rg_EC2IdentityDocument req) = Some ber ∧ pkcs7_Parse ber = Ok p7 ∧ iid_of_json p7 = Ok iid ∧
    p7_Verify p7 (iid_Region iid) = true;
  ec2_region : iid_Region iid ∈ awsRSA2048Regions;
  ec2_recent : (- Minute ≤ now - iid_PendingTime iid ≤ AWSIIDTTL p)%Z;
  ec2_host : rg_HostID req = NodeIDFromIID iid;
  ec2_new : instance_exists (rg_Role req) (rg_HostID req) = Ok false;
  ec2_rule : ∃ rule, rule ∈ pt_Allow p ∧ EC2_rule_matches iid rule = true ∧
    checkInstanceRunning (iid_InstanceID iid) (iid_Region iid) (AWSRole rule) = Ok ()
}.
Lemma checkEC2AllowRules_Ok iid rules : checkEC2AllowRules iid rules = Ok () →
  ∃ rule, rule ∈ rules ∧ EC2_rule_matches iid rule = true ∧
    checkInstanceRunning (iid_InstanceID iid) (iid_Region iid) (AWSRole rule) = Ok ().
Proof.
  induction rules as [|rule rules IH]; [done|]. cbn. destruct (EC2_rule_matches iid rule) eqn:E.
  - intros Hr. exists rule. by split; [left|].
  - intros (r & ? & ?)%IH. exists r. by split; [right|].
Qed.
Lemma checkEC2_token_shows now req p : checkEC2_token now req p = Ok () → ∃ iid, ec2_shown now req p iid.
Proof.
  unfold checkEC2_token. destruct (_ =? 0)%nat; [done|].
  intros (iid & Hp & ([] & Ht & ([] & Hr & Hrules%checkEC2AllowRules_Ok)%result_bind_Ok)%result_bind_Ok)%result_bind_Ok.
  exists iid. unfold parseAndVerifyIID in Hp. destruct (pem_BER _) as [ber|] eqn:Eb; [|done].
  apply result_bind_Ok in Hp as (p7 & Hp7 & (iid' & Hj & Hp)%result_bind_Ok).
  destruct (SliceContainsStr awsRSA2048Regions (iid_Region iid')) eqn:Es; [|done]. destruct (p7_Verify p7 _) eqn:Ev; [|done].
  injection Hp as ->. unfold checkPendingTime in Ht. destruct (Z.ltb_spec (now - iid_PendingTime iid) (- Minute)); [done|].
  destruct (Z.ltb_spec (AWSIIDTTL p) (now - iid_PendingTime iid)); [done|].
  unfold tryToDetectIdentityReuse in Hr. destruct (String.eqb_spec (rg_HostID req) (NodeIDFromIID iid)) as [Hh|]; [|done]. cbn [negb] in Hr.
  apply result_bind_Ok in Hr as ([] & He & Hr); [done|].
  split; [by eauto 6|by apply SliceContainsStr_true|lia|done|done|done].
Qed.

(** A rule that matches holds of every claim that it names. *)
Lemma checkGithubAllowRules_Ok p claims : checkGithubAllowRules p claims = done () →
  ∃ allow rule, GitHub p = Some allow ∧ rule ∈ allow ∧ GitHub_rule_matches claims rule = true.
Proof.
  unfold checkGithubAllowRules. destruct (GitHub p) as [allow|]; [|done]. destruct (existsb _ allow) eqn:E; [|done].
  apply existsb_exists in E as (rule & Hr%list_elem_of_In & Hm). intros _. by exists allow, rule.
Qed.
(** A valid rule names the repository, its owner or the subject: the claims that
    match are of that repository, owner or subject. *)
Lemma GitHub_rule_bounds claims rule allow : GitHub_checkAndSetDefaults allow = Ok () → rule ∈ allow → GitHub_rule_matches claims rule = true →
  (gh_Repository rule ≠ "" ∧ cl_Repository claims = gh_Repository rule) ∨
  (gh_RepositoryOwner rule ≠ "" ∧ cl_RepositoryOwner claims = gh_RepositoryOwner rule) ∨
  (gh_Sub rule ≠ "" ∧ cl_Sub claims = gh_Sub rule).
Proof.
  unfold GitHub_checkAndSetDefaults, GitHub_rule_matches, claim_ok. destruct (_ =? 0)%nat; [done|]. destruct (existsb _ allow) eqn:E; [done|].
  intros _ Hr Hm. assert (String.eqb (gh_Sub rule) "" && String.eqb (gh_RepositoryOwner rule) "" && String.eqb (gh_Repository rule) "" = false) as Hn.
  { apply not_true_iff_false. intros Ht. apply not_true_iff_false in E. apply E, existsb_elem. by exists rule. }
  destruct (String.eqb_spec (gh_Sub rule) ""), (String.eqb_spec (gh_RepositoryOwner rule) ""), (String.eqb_spec (gh_Repository rule) "");
    destruct (String.eqb_spec (cl_Sub claims) (gh_Sub rule)), (String.eqb_spec (cl_RepositoryOwner claims) (gh_RepositoryOwner rule)),
      (String.eqb_spec (cl_Repository claims) (gh_Repository rule)); try discriminate Hn; try discriminate Hm; auto.
Qed.

(** AWS itself said who signed the request, which carries this challenge among its
    signed headers and went to an endpoint of AWS over TLS; the account or name that
    it told is allowed by a rule. *)
Record iam_shown (challenge : string) (body : bytes) (cfg : iamRegisterConfig) (p : ProvisionTokenV2) (id : awsIdentity) : Prop := MkIAMShown {
  iam_request : ∃ req, parseSTSRequest body = Ok req ∧ http_URL_Scheme req = "https" ∧ http_URL_Host req ∈ validSTSEndpoints ∧
    (iam_fips cfg = true → before_v12 cfg = false → http_URL_Host req ∈ fipsSTSEndpoints) ∧
    http_Header_Get req challengeHeaderKey = challenge ∧
    (∃ sig, ParseSigV4 (http_Header_Get req "Authorization") = Ok sig ∧ challengeHeaderKey ∈ sig_SignedHeaders sig) ∧
    http_Body req = Ok expectedSTSIdentityRequestBody ∧
    (∃ answer, Do req = Ok (200%Z, Ok answer) ∧ identity_of_json answer = Ok id);
  iam_rule : ∃ rule, rule ∈ pt_Allow p ∧ (AWSAccount rule = "" ∨ AWSAccount rule = aws_Account id) ∧
    (AWSARN rule = "" ∨ arnMatches (AWSARN rule) (aws_Arn id) = Ok true);
  iam_method : JoinMethod p = JoinMethodIAM
}.
Lemma checkIAMAllowRules_Ok id rules : checkIAMAllowRules id rules = Ok () →
  ∃ rule, rule ∈ rules ∧ (AWSAccount rule = "" ∨ AWSAccount rule = aws_Account id) ∧
    (AWSARN rule = "" ∨ arnMatches (AWSARN rule) (aws_Arn id) = Ok true).
Proof.
  induction rules as [|rule rules IH]; [done|]. cbn.
  assert (checkIAMAllowRules id rules = Ok () → ∃ rule', rule' ∈ rule :: rules ∧ (AWSAccount rule' = "" ∨ AWSAccount rule' = aws_Account id) ∧
    (AWSARN rule' = "" ∨ arnMatches (AWSARN rule') (aws_Arn id) = Ok true)) as Hrest.
  { intros (r & ? & ?)%IH. exists r. by split; [right|]. }
  destruct (negb (String.eqb (AWSAccount rule) "") && _) eqn:Ea; [done|].
  assert (AWSAccount rule = "" ∨ AWSAccount rule = aws_Account id) as Hacc.
  { destruct (String.eqb_spec (AWSAccount rule) ""), (String.eqb_spec (AWSAccount rule) (aws_Account id)); by auto. }
  destruct (String.eqb_spec (AWSARN rule) "").
  { intros _. exists rule. split; [left|]. auto. }
  intros ([] & Hm & Hr)%result_bind_Ok; [|by apply Hrest]. exists rule. split; [left|]. auto.
Qed.
Lemma parseSTSRequest_https body req : parseSTSRequest body = Ok req →
  http_URL_Scheme req = "https" ∧ http_URL_Host req = http_Host req.
Proof. unfold parseSTSRequest. intros (r & _ & Hr)%result_bind_Ok. destruct (negb _); [done|]. by injection Hr as <-. Qed.
Lemma checkIAM_token_shows challenge body cfg p : checkIAM_token challenge body cfg p = Ok () → ∃ id, iam_shown challenge body cfg p id.
Proof.
  unfold checkIAM_token. destruct (String.eqb_spec (JoinMethod p) JoinMethodIAM) as [Hm|]; [|done]. cbn [negb].
  intros (req & Hreq & ([] & Hv & (id & Hid & Hrules%checkIAMAllowRules_Ok)%result_bind_Ok)%result_bind_Ok)%result_bind_Ok.
  exists id. split; [|done|done]. exists req. destruct (parseSTSRequest_https _ _ Hreq) as [Hs Hh]. rewrite Hh.
  unfold validateSTSIdentityRequest in Hv. apply result_bind_Ok in Hv as ([] & Hhost & Hv).
  destruct (String.eqb (http_Method req) "POST"); [|done]. cbn [negb] in Hv.
  destruct (String.eqb_spec (http_Header_Get req challengeHeaderKey) challenge) as [Hc|]; [|done]. cbn [negb] in Hv.
  apply result_bind_Ok in Hv as (sig & Hsig & Hv). destruct (SliceContainsStr (sig_SignedHeaders sig) _) eqn:Es; [|done]. cbn [negb] in Hv.
  apply result_bind_Ok in Hv as (b & Hb & Hv). case_bool_decide as Hbody; [|done]. subst b.
  unfold validateSTSHost in Hhost. destruct (SliceContainsStr validSTSEndpoints (http_Host req)) eqn:Ee; [|done]. cbn [negb] in Hhost.
  split_and!; [done|done|by apply SliceContainsStr_true| |done|exists sig; split; [done|by apply SliceContainsStr_true]|done|].
  - intros Hf Hb12. rewrite Hf, Hb12 in Hhost. destruct (SliceContainsStr fipsSTSEndpoints _) eqn:Ef; [|done]. by apply SliceContainsStr_true.
  - unfold executeSTSIdentityRequest in Hid. apply result_bind_Ok in Hid as ([status answer] & Hdo & Hid).
    apply result_bind_Ok in Hid as (a & Ha & Hid). destruct (Z.eqb_spec status 200) as [->|]; [|done]. cbn [negb] in Hid.
    apply result_bind_Ok in Hid as (id' & Hj & Hid). destruct (String.eqb (aws_Account id') ""); [done|].
    destruct (String.eqb (aws_Arn id') ""); [done|]. injection Hid as ->. exists a. by subst answer.
Qed.
End shown.

(** ** The expression of a pattern is read off the pattern, character by character *)

(** One character of a pattern, when [stars] and [marks] are replaced. *)
Definition direct (marks : bool) (c : ascii) (rest : string) : string :=
  if Ascii.eqb c "*" then ".*" ++ rest else
  if marks && Ascii.eqb c "?" then "." ++ rest else
  if is_meta c then String backslash (String c rest) else String c rest.
Fixpoint arn_direct (marks : bool) (p : string) : string :=
  match p with EmptyString => "" | String c p => direct marks c (arn_direct marks p) end.
(** No escape begins in the middle: what follows does not begin with the character. *)
Definition not_first (c : ascii) (s : string) : Prop := match s with String d _ => d ≠ c | EmptyString => True end.
Lemma ReplaceEscaped_keep c new d s : not_first c s → ReplaceEscaped c new (String d s) = String d (ReplaceEscaped c new s).
Proof.
  intros Hs. destruct s as [|e s]; [done|]. cbn [ReplaceEscaped]. cbn in Hs.
  destruct (Ascii.eqb_spec e c) as [|_]; [done|]. by rewrite andb_false_r.
Qed.
Lemma ReplaceEscaped_plain c new d s : d ≠ backslash → ReplaceEscaped c new (String d s) = String d (ReplaceEscaped c new s).
Proof. intros Hd. destruct s as [|e s]; [done|]. cbn [ReplaceEscaped]. by destruct (Ascii.eqb_spec d backslash). Qed.
Lemma ReplaceEscaped_escaped c new d s : d ≠ c → not_first c s →
  ReplaceEscaped c new (String backslash (String d s)) = String backslash (String d (ReplaceEscaped c new s)).
Proof. intros Hd Hs. rewrite ReplaceEscaped_keep by done. by rewrite ReplaceEscaped_keep. Qed.
Lemma ReplaceEscaped_hit c new s : ReplaceEscaped c new (String backslash (String c s)) = new ++ ReplaceEscaped c new s.
Proof. cbn [ReplaceEscaped]. by rewrite !Ascii.eqb_refl. Qed.
Lemma not_meta c : is_meta c = false → c ≠ backslash ∧ c ≠ "*"%char ∧ c ≠ "?"%char.
Proof. intros H. by split_and!; intros ->. Qed.
Lemma quoted_not_first c s : is_meta c = true → c ≠ backslash → not_first c (QuoteMeta s).
Proof. intros Hc Hb. destruct s as [|d s]; [done|]. cbn [QuoteMeta]. destruct (is_meta d) eqn:E; cbn [not_first]; congruence. Qed.
Lemma stars_replaced s : ReplaceEscaped "*" ".*" (QuoteMeta s) = arn_direct false s.
Proof.
  induction s as [|c s IH]; [done|]. cbn [arn_direct QuoteMeta]. unfold direct. cbn [andb]. rewrite <- IH. destruct (Ascii.eqb_spec c "*") as [->|Hc].
  - apply ReplaceEscaped_hit.
  - destruct (is_meta c) eqn:E; [apply ReplaceEscaped_escaped; [done|by apply quoted_not_first]|].
    apply ReplaceEscaped_plain. by apply not_meta in E as (? & _).
Qed.
Lemma direct_not_first s : not_first "?" (arn_direct false s).
Proof.
  destruct s as [|c s]; [done|]. cbn [arn_direct]. unfold direct. destruct (Ascii.eqb c "*"); [done|]. cbn [andb].
  destruct (is_meta c) eqn:E; [done|]. by apply not_meta in E as (_ & _ & ?).
Qed.
Lemma marks_replaced s : ReplaceEscaped "?" "." (arn_direct false s) = arn_direct true s.
Proof.
  induction s as [|c s IH]; [done|]. cbn [arn_direct]. unfold direct. cbn [andb]. rewrite <- IH. pose proof (direct_not_first s).
  destruct (Ascii.eqb_spec c "*") as [->|Hc].
  - change (".*" ++ arn_direct false s) with (String "." (String "*" (arn_direct false s))). by rewrite !ReplaceEscaped_plain by done.
  - destruct (Ascii.eqb_spec c "?") as [->|Hq]; [apply ReplaceEscaped_hit|].
    destruct (is_meta c) eqn:E; [by apply ReplaceEscaped_escaped|]. apply ReplaceEscaped_plain. by apply not_meta in E as (? & _).
Qed.
Theorem arn_expression_direct pattern : arn_expression pattern = "^" ++ arn_direct true pattern ++ "$".
Proof. unfold arn_expression. by rewrite stars_replaced, marks_replaced. Qed.
