(* ===== verification/Join.v ===== *)
(** * Joining the cluster (lib/auth/join.go, join_ec2.go, join_github.go, join_iam.go, auth.go)

    A new member shows the name of a token, and what the token's method asks for,
    and gets certificates of a role of the token. *)

From Stdlib Require Import Ascii String.
From S2P Require Import UserLock.
From S2P Require Import Prelude.
From S2P Require Import ConnLimiter.
From S2P Require Import Rotation.
From S2P Require Import Keys.
From S2P Require Import Strconv.
From S2P Require Import Backend.
From S2P Require Import GoSlice.
From S2P Require Import Labels.
From S2P Require Import Parse.
From S2P Require Import Role.
From S2P Require Import Traits.
From S2P Require Import RoleSet.
From S2P Require Import RoleRules.
From S2P Require Import AccessRequest.
From S2P Require Import RequestValidator.
From S2P Require Import DynamicAccess.
From S2P Require Import Identity.
From S2P Require Import Users.
From S2P Require Import Impersonate.
From S2P Require Import Events.
From S2P Require Import Fanout.
From S2P Require Import FanoutSpec.
From S2P Require Import LockWatch.
From S2P Require Import AccessInfo.
From S2P Require Import SystemRoles.
From S2P Require Import BuiltinRoles.
From S2P Require Import Authorizer.
From S2P Require Import ServerActions.
From S2P Require Import SSHCert.
From S2P Require Import SSHLogin.
From S2P Require Import UserCerts.
From S2P Require Import Generation.
From S2P Require Import CertRequests.
From S2P Require Import HostCerts.
From S2P Require Import Provision.
From S2P Require Import JoinMethods.
Local Open Scope string_scope.

(** ** The auth server's state: its backend and audit log, and the calls in progress *)

Record JoinState (B : Type) := MkJoinState { js_auth : AuthState B; js_limiter : ConnectionsLimiter }.
Arguments MkJoinState {B}.
Arguments js_auth {B}.
Arguments js_limiter {B}.
Definition on_auth {B A} (m : goM (AuthState B) A) : goM (JoinState B) A :=
  fun s => match m (js_auth s) with None => None | Some (a, b) => Some (a, MkJoinState b (js_limiter s)) end.
Definition on_store {B A} (m : goM B A) : goM (JoinState B) A := on_auth (on_backend m).
Definition on_limiter {B A} (f : ConnectionsLimiter → outcome A * ConnectionsLimiter) : goM (JoinState B) (result A) :=
  fun s => let '(r, l) := f (js_limiter s) in match r with None => None | Some r => Some (r, MkJoinState (js_auth s) l) end.

(** ** Tokens of the auth server *)

Definition TokenExpiredOrNotFound : string := "token expired or not found".
Record GenerateTokenRequest := MkGenerateToken { gt_Token : string; gt_Roles : SystemRoles; gt_TTL : Z; gt_Labels : gmap string string }.
Definition DefaultRenewableCertTTL : Z := (1 * Hour)%Z.
Fixpoint dash_spaces (s : string) : string :=
  match s with EmptyString => "" | String c s => String (if Ascii.eqb c " " then "-" else c)%char (dash_spaces s) end.
Definition BotResourceName (botName : string) : string := "bot-" ++ dash_spaces botName.

Section tokens.
Context `{TokenCodec} `{Codec StaticTokensV2} `{Codec UserTokenV3} `{BackendLaws B}.

Definition static_named (token : string) (tkns : StaticTokensV2) : option ProvisionTokenV2 :=
  find (fun st => String.eqb (pt_Name st) token) (GetStaticTokens_tokens tkns).
Definition DeleteToken (clock : nat → Z) (token : string) : goM B (result unit) :=
  r ← GetStaticTokens (clock 0%nat);
  match r with
  | Err e => mret (Err e)
  | Ok tkns =>
      match static_named token tkns with
      | Some _ => mret (Err (Error BadParameter "token %s is statically configured and cannot be removed"))
      | None =>
          r ← DeleteUserToken (clock ∘ S) token;
          match r with
          | Ok _ => mret (Ok ())
          | Err _ => ProvisioningService_DeleteToken (clock 5%nat) token
          end
      end
  end.
(** A token past its time is removed; the answer of that is only logged. *)
Definition checkTokenTTL (clock : nat → Z) (tok : ProvisionTokenV2) : goM B bool :=
  if (pt_Expiry tok <? clock 0%nat)%Z then _ ← DeleteToken (clock ∘ S) (pt_Name tok); mret false else mret true.
Definition err_expired : error := Error AccessDenied TokenExpiredOrNotFound.
Definition ValidateToken (clock : nat → Z) (token : string) : goM B (result ProvisionTokenV2) :=
  r ← GetStaticTokens (clock 0%nat);
  match r with
  | Err e => mret (Err e)
  | Ok tkns =>
      match static_named token tkns with
      | Some st => mret (Ok st)
      | None =>
          r ← GetToken (clock 1%nat) token;
          match r with
          | Err e => mret (Err (if has_kind NotFound e then err_expired else e))
          | Ok tok => live ← checkTokenTTL (fun n => clock (2 + n)%nat) tok; mret (if (live : bool) then Ok tok else Err err_expired)
          end
      end
  end.
(** [random] is the token that is made when none is asked for. *)
Definition GenerateToken (clock : nat → Z) (random : result string) (req : GenerateTokenRequest) : goM (AuthState B) (result string) :=
  let ttl := if (gt_TTL req =? 0)%Z then ProvisioningTokenTTL else gt_TTL req in
  let expires := (clock 0%nat + ttl)%Z in
  match (name ← (if String.eqb (gt_Token req) "" then random else Ok (gt_Token req));
         token ← NewProvisionToken name (gt_Roles req) expires;
         Ok (if bool_decide (gt_Labels req = ∅) then token else
             let m := pt_Metadata token in
             pt_set_Metadata (MkMetadata (md_Name m) (md_Namespace m) (md_Description m) (gt_Labels req) (md_Expires m) (md_ID m)) token)) with
  | Err e => mret (Err e)
  | Ok token =>
      r ← on_backend (UpsertToken (clock ∘ S) token);
      match r with
      | Err e => mret (Err e)
      | Ok _ =>
          _ ← Generation.emit_all (map (fun _ => TrustedClusterTokenCreate) (List.filter (String.eqb RoleTrustedCluster) (gt_Roles req)));
          mret (Ok (pt_Name token))
      end
  end.
(** Tokens of machines, static tokens and those of users, as tokens. *)
Definition user_provision_tokens : list UserTokenV3 → result (list ProvisionTokenV2) :=
  fix convert tokens := match tokens with
  | [] => Ok []
  | t :: tokens => tok ← NewProvisionToken (ut_Name t) [RoleSignup] (ut_Expiry t); rest ← convert tokens; Ok (tok :: rest)
  end.
Definition GetTokens (clock : nat → Z) : goM B (result (list ProvisionTokenV2)) :=
  r ← ProvisioningService_GetTokens (clock 0%nat);
  match r with
  | Err e => mret (Err e)
  | Ok tokens =>
      r ← GetStaticTokens (clock 1%nat);
      match (match r with Ok tkns => Ok (GetStaticTokens_tokens tkns) | Err e => if has_kind NotFound e then Ok [] else Err e end) with
      | Err e => mret (Err e)
      | Ok static =>
          r ← GetUserTokens (fun n => clock (2 + n)%nat);
          mret (userTokens ← r; users ← user_provision_tokens userTokens; Ok (tokens ++ static ++ users)%list)
      end
  end.

(** ** Checks of requests to join *)

(** Without such a token a static one is assumed, whatever the error is. *)
Definition tokenJoinMethod (now : Z) (tokenName : string) : goM B string :=
  r ← GetToken now tokenName;
  mret (match r with Err _ => JoinMethodToken | Ok provisionToken => JoinMethod provisionToken end).
Definition err_join_expired : error := Error AccessDenied "%q can not join the cluster with role %q, token expired or not found".
Definition err_join_invalid : error := Error AccessDenied "%q can not join the cluster with role %q, the token is not valid".
Definition allows_role (role : SystemRole) (provisionToken : ProvisionTokenV2) : result unit :=
  if String.eqb role RoleInstance && negb (existsb IsLocalService (pt_Roles provisionToken))
  then Err (Error AccessDenied "%q [%v] cannot requisition instance certs (token contains no local service roles)") else
  if negb (Include (pt_Roles provisionToken) role) && negb (String.eqb role RoleInstance)
  then Err (Error BadParameter "node %q [%v] can not join the cluster, the token does not allow %q role") else Ok ().
Definition checkTokenJoinRequestCommon (clock : nat → Z) (req : RegisterUsingTokenRequest) : goM B (result ProvisionTokenV2) :=
  r ← ValidateToken clock (rg_Token req);
  mret (match r with
        | Err e => Err (if str_contains (err_msg e) TokenExpiredOrNotFound then err_join_expired else err_join_invalid)
        | Ok provisionToken => _ ← allows_role (rg_Role req) provisionToken; Ok provisionToken
        end).

Context `{EC2Lib} `{PresenceReads} `{GitHubActions} `{STSLib} `{Regexp}.
Definition checkEC2JoinRequest (clock : nat → Z) (req : RegisterUsingTokenRequest) : goM B (result unit) :=
  r ← GetToken (clock 0%nat) (rg_Token req);
  mret (provisionToken ← r; checkEC2_token (clock 1%nat) req provisionToken).
(** [None] is a panic. *)
Definition checkGitHubJoinRequest (now : Z) (req : RegisterUsingTokenRequest) : goM B (result unit) :=
  if String.eqb (rg_IDToken req) "" then mret (Err (Error BadParameter "IDToken not provided for Github join request")) else
  r ← GetToken now (rg_Token req);
  match (pt ← r; claims ← gha_Validate (rg_IDToken req); Ok (pt, claims)) with
  | Err e => mret (Err e)
  | Ok (pt, claims) => match checkGithubAllowRules pt claims with None => go_panic | Some r => mret r end
  end.
Definition checkIAMRequest (now : Z) (challenge : string) (req : RegisterUsingTokenRequest) (stsIdentityRequest : bytes)
    (cfg : iamRegisterConfig) : goM B (result unit) :=
  r ← GetToken now (rg_Token req);
  mret (provisionToken ← r; checkIAM_token challenge stsIdentityRequest cfg provisionToken).
(** What the method of the token asks for, where it is not checked elsewhere. *)
Definition check_method (clock : nat → Z) (method : string) (req : RegisterUsingTokenRequest) : goM B (result unit) :=
  if String.eqb method JoinMethodEC2 then checkEC2JoinRequest clock req else
  if String.eqb method JoinMethodIAM then
    mret (Err (Error AccessDenied "this token is only valid for the IAM join method but the node has connected to the wrong endpoint, make sure your node is configured to use the IAM join method")) else
  if String.eqb method JoinMethodGitHub then checkGitHubJoinRequest (clock 0%nat) req else
  if String.eqb method JoinMethodToken then mret (Ok ()) else mret (Err (Error BadParameter "unrecognized token join method")).
End tokens.

(** ** Registration *)

(** Readings of the clock: of the first look at the token, of the check of its
    method, of its validation, of the default expiry, of the certificates of a bot,
    of those of a host and of the locks, and of the removal of the token. *)
Record JoinClocks := MkJoinClocks {
  jc_first : Z; jc_method : nat → Z; jc_validate : nat → Z; jc_now : Z; jc_bot : Clocks; jc_host : nat → Z; jc_locks : nat → Z;
  jc_delete : nat → Z
}.

Section register.
Context `{Attestation} `{CertCodec} `{IdentityCodec} `{Modules} `{CertServer} `{GoSort} `{Regexp} `{MapOrder} `{Resource R}
  `{RequestLibs} `{GoMapOrder} `{GoLibs} `{GoGrow} `{ValidatorGetter} `{UnixUsers} `{PredicateLib} `{RuleLanguage}
  `{UserCodec} `{Codec LockV2} `{TokenCodec} `{Codec StaticTokensV2} `{Codec UserTokenV3} `{BackendLaws B}
  `{EC2Lib} `{PresenceReads} `{GitHubActions} `{STSLib}.
Implicit Types (req : RegisterUsingTokenRequest).

(** Whether certificates of a bot may be renewed and the token is used up. *)
Definition bot_certs (joinMethod : string) : result bool :=
  if String.eqb joinMethod JoinMethodToken then Ok true else
  if String.eqb joinMethod JoinMethodIAM || String.eqb joinMethod JoinMethodGitHub then Ok false else
  Err (Error BadParameter "unsupported join method %q for bot").
(** The services that an instance is authorized for are those of its token. *)
Definition service_roles (role : SystemRole) (provisionToken : ProvisionTokenV2) : SystemRoles :=
  if String.eqb role RoleInstance then List.filter IsLocalService (pt_Roles provisionToken) else [].
Definition host_request (req : RegisterUsingTokenRequest) (provisionToken : ProvisionTokenV2) : HostCertsRequest :=
  MkHostCertsRequest (rg_HostID req) (rg_NodeName req) (rg_Role req) (rg_AdditionalPrincipals req) (rg_DNSNames req) (rg_PublicTLSKey req)
    (rg_PublicSSHKey req) (rg_RemoteAddr req) None false (service_roles (rg_Role req) provisionToken).

(** The server that a request reaches: its authorities as the cache and the store
    have them, and its locks, in the order in which they are looked at. *)
Record JoinServer := MkJoinServer {
  jv_cache : string → result CertAuthority; jv_services : string → result CertAuthority; jv_order : map_range;
  jv_lockWatcher : option (lockCollector R)
}.

(** [other] is what other clients do in between; [uuid] and [lockUuid] are new
    identifiers. The removal of a token that was used is only logged. *)
Definition generateCerts (v : JoinServer) (ck : JoinClocks) (other : nat → goM B unit) (uuid lockUuid : string)
    (provisionToken : ProvisionTokenV2) (req : RegisterUsingTokenRequest) : goM (JoinState B) (result Certs) :=
  if String.eqb (rg_Role req) RoleBot then
    let expires := default (jc_now ck + DefaultRenewableCertTTL)%Z (rg_Expires req) in
    match bot_certs (JoinMethod provisionToken) with
    | Err e => mret (Err e)
    | Ok once =>
        r ← on_auth (generateInitialBotCerts (jc_bot ck) other uuid lockUuid (jv_order v) (jv_lockWatcher v)
                       (BotResourceName (BotName provisionToken)) (rg_PublicSSHKey req) expires once);
        match r with
        | Err e => mret (Err e)
        | Ok certs =>
            _ ← on_store (if (once : bool) then DeleteToken (jc_delete ck) (pt_Name provisionToken) else mret (Ok ()));
            mret (Ok certs)
        end
    end
  else
  if bool_decide (is_Some (rg_Expires req)) then mret (Err (Error BadParameter "'expires' cannot be set on join for non-bot certificates")) else
  on_limiter (GenerateHostCerts (jv_cache v) (jv_services v) (jc_host ck) (jc_locks ck) (jv_order v) (jv_lockWatcher v)
                (host_request req provisionToken)).

Definition RegisterUsingToken (v : JoinServer) (ck : JoinClocks) (other : nat → goM B unit) (uuid lockUuid : string)
    (req : RegisterUsingTokenRequest) : goM (JoinState B) (result Certs) :=
  match Register_CheckAndSetDefaults req with
  | Err e => mret (Err e)
  | Ok _ =>
      method ← on_store (tokenJoinMethod (jc_first ck) (rg_Token req));
      _ ← on_store (other 0%nat);
      r ← on_store (check_method (jc_method ck) method req);
      match r with
      | Err e => mret (Err e)
      | Ok _ =>
          _ ← on_store (other 1%nat);
          r ← on_store (checkTokenJoinRequestCommon (jc_validate ck) req);
          match r with
          | Err e => mret (Err e)
          | Ok provisionToken => generateCerts v ck (fun n => other (2 + n)%nat) uuid lockUuid provisionToken req
          end
      end
  end.

(** [challengeResponse] is the client: a request, and the one that it signed. *)
Definition set_RemoteAddr (addr : string) (r : RegisterUsingTokenRequest) : RegisterUsingTokenRequest :=
  MkRegisterRequest (rg_HostID r) (rg_NodeName r) (rg_Role r) (rg_Token r) (rg_AdditionalPrincipals r) (rg_DNSNames r) (rg_PublicTLSKey r)
    (rg_PublicSSHKey r) addr (rg_EC2IdentityDocument r) (rg_Expires r) (rg_IDToken r).
Definition RegisterUsingIAMMethod (v : JoinServer) (ck : JoinClocks) (other : nat → goM B unit) (uuid lockUuid : string)
    (cfg : iamRegisterConfig) (clientAddr : option string) (challenge : result string)
    (challengeResponse : string → result (RegisterUsingTokenRequest * bytes)) : goM (JoinState B) (result Certs) :=
  match (clientAddr ← (match clientAddr with Some a => Ok a | None => Err (Error BadParameter "logic error: client address was not set") end);
         challenge ← challenge;
         '(req, stsIdentityRequest) ← challengeResponse challenge;
         let req := set_RemoteAddr clientAddr req in
         _ ← (if (length stsIdentityRequest =? 0)%nat then Err (Error BadParameter "missing parameter StsIdentityRequest") else Ok ());
         _ ← Register_CheckAndSetDefaults req; Ok (challenge, req, stsIdentityRequest)) with
  | Err e => mret (Err e)
  | Ok (challenge, req, stsIdentityRequest) =>
      r ← on_store (checkTokenJoinRequestCommon (jc_validate ck) req);
      match r with
      | Err e => mret (Err e)
      | Ok provisionToken =>
          _ ← on_store (other 0%nat);
          r ← on_store (checkIAMRequest (jc_first ck) challenge req stsIdentityRequest cfg);
          match r with
          | Err e => mret (Err e)
          | Ok _ => generateCerts v ck (fun n => other (1 + n)%nat) uuid lockUuid provisionToken req
          end
      end
  end.
End register.
