(* ===== verification/JoinSpec.v ===== *)
(** * Who joins the cluster

    What the checks of requests to join establish about the stored tokens, and that
    a bot gets renewable certificates once. *)

From Stdlib Require Import Ascii String.
From S2P Require Import UserLock.
From S2P Require Import Prelude.
From S2P Require Import ConnLimiter.
From S2P Require Import Rotation.
From S2P Require Import Keys.
From S2P Require Import Strconv.
From S2P Require Import Backend.
From S2P Require Import GoSlice.
From S2P Require Import Labels.
From S2P Require Import Parse.
From S2P Require Import Role.
From S2P Require Import Traits.
From S2P Require Import RoleSet.
From S2P Require Import RoleRules.
From S2P Require Import AccessRequest.
From S2P Require Import RequestValidator.
From S2P Require Import DynamicAccess.
From S2P Require Import Identity.
From S2P Require Import Users.
From S2P Require Import Impersonate.
From S2P Require Import Events.
From S2P Require Import Fanout.
From S2P Require Import FanoutSpec.
From S2P Require Import LockWatch.
From S2P Require Import AccessInfo.
From S2P Require Import SystemRoles.
From S2P Require Import BuiltinRoles.
From S2P Require Import Authorizer.
From S2P Require Import ServerActions.
From S2P Require Import SSHCert.
From S2P Require Import SSHLogin.
From S2P Require Import UserCerts.
From S2P Require Import Generation.
From S2P Require Import CertRequests.
From S2P Require Import HostCerts.
From S2P Require Import Provision.
From S2P Require Import JoinMethods.
From S2P Require Import Join.
Local Open Scope string_scope.

(** ** Reading tokens *)
Section reading.
Context `{TokenCodec} `{Codec StaticTokensV2} `{Codec UserTokenV3} `{BL : BackendLaws B}.
Implicit Types (b : B).

(** Nothing is added. *)
Definition shrunk b b' : Prop := bk_inv b' ∧ bk_view b' ⊆ bk_view b.
Lemma shrunk_trans b1 b2 b3 : shrunk b1 b2 → shrunk b2 b3 → shrunk b1 b3.
Proof. intros [? ?] [? ?]. split; [done|]. by etrans. Qed.
Lemma shrunk_refl b : bk_inv b → shrunk b b.
Proof. by split. Qed.
Definition stored_token (token : string) (p : ProvisionTokenV2) b : Prop :=
  ∃ item, bk_view b !! tokenKey token = Some item ∧ unmarshal_token_item item = Ok p.
Definition static_token (token : string) (p : ProvisionTokenV2) b : Prop :=
  ∃ item c, bk_view b !! staticTokensKey = Some item ∧
    UnmarshalStaticTokens (it_Value item) (it_ID item) (it_Expires item) = Ok c ∧ static_named token c = Some p.
Lemma stored_token_shrunk token p b b' : shrunk b b' → stored_token token p b' → stored_token token p b.
Proof. intros [_ Hsub] (item & Hi & Hu). exists item. split; [by eapply lookup_weaken|done]. Qed.
Lemma static_token_shrunk token p b b' : shrunk b b' → static_token token p b' → static_token token p b.
Proof. intros [_ Hsub] (item & c & Hi & Hu). exists item, c. split; [by eapply lookup_weaken|done]. Qed.
Lemma stored_token_unique token p p' b : stored_token token p b → stored_token token p' b → p = p'.
Proof. intros (i & Hi & Hu) (i' & Hi' & Hu'). congruence. Qed.

(** A read finds what is there, and removes at most what has expired. *)
Lemma Get_reads now k b r b' : bk_inv b → k ≠ [] → bk_Get now k b = Some (r, b') →
  shrunk b b' ∧ r = match bk_view b' !! k with Some i => Ok i | None => Err err_not_found end.
Proof.
  intros Hb Hk Hr. destruct (bk_Get_law now k b Hb) as (r' & b1 & Hr' & Hb1 & Hs). rewrite Hr in Hr'. injection Hr' as <- <-.
  rewrite bool_decide_eq_false_2 in Hs by done. destruct Hs as (m & Hp & <- & ->). split; [|done]. split; [done|]. apply Hp.
Qed.
Lemma tokenKey_nonempty token : tokenKey token ≠ [].
Proof. done. Qed.
Lemma GetToken_reads now token b r b' : bk_inv b → token ≠ "" → GetToken now token b = Some (r, b') →
  shrunk b b' ∧ match r with Ok p => stored_token token p b' | Err _ => ∀ p, ¬ stored_token token p b' end.
Proof.
  intros Hb Ht. unfold GetToken. rewrite (proj2 (String.eqb_neq _ _) Ht).
  intros (ri & b1 & Hget & Hr)%goM_bind_Some. apply Get_reads in Hget as [Hsh ->]; [|done|apply tokenKey_nonempty].
  injection Hr as <- <-. split; [done|]. destruct (bk_view b1 !! tokenKey token) as [i|] eqn:Hi; cbn [token_NotFound].
  - cbn [mbind result_bind]. destruct (unmarshal_token_item i) as [p|] eqn:Hu; [by exists i|].
    intros p (i' & Hi' & Hu'). congruence.
  - cbn. intros p (i' & Hi' & _). congruence.
Qed.
Lemma GetStaticTokens_reads now b r b' : bk_inv b → GetStaticTokens now b = Some (r, b') →
  shrunk b b' ∧ ∀ c token p, r = Ok c → static_named token c = Some p → static_token token p b'.
Proof.
  intros Hb (ri & b1 & Hget & Hr)%goM_bind_Some. apply Get_reads in Hget as [Hsh ->]; [|done..]. injection Hr as <- <-.
  split; [done|]. intros c token p Hc Hp. destruct (bk_view b1 !! staticTokensKey) as [i|] eqn:Hi; [by exists i, c|].
  by destruct (has_kind NotFound err_not_found).
Qed.

(** A token that is validated is static, or stored and not past its time. *)
Lemma ValidateToken_valid clock token b p b' : bk_inv b → token ≠ "" → ValidateToken clock token b = Some (Ok p, b') →
  shrunk b b' ∧ (static_token token p b' ∨ (stored_token token p b' ∧ (clock 2%nat ≤ pt_Expiry p)%Z)).
Proof.
  intros Hb Ht (rs & b1 & Hs & Hv)%goM_bind_Some. apply GetStaticTokens_reads in Hs as [Hsh1 Hst]; [|done].
  destruct rs as [c|]; [|done]. destruct (static_named token c) as [st|] eqn:Ec.
  { injection Hv as <- <-. split; [done|]. left. by eapply Hst. }
  apply goM_bind_Some in Hv as (rt & b2 & Hget & Hv). apply GetToken_reads in Hget as [Hsh2 Hget]; [|by apply Hsh1|done].
  destruct rt as [tok|]; [|done]. apply goM_bind_Some in Hv as (live & b3 & Hl & Hv). unfold checkTokenTTL in Hl.
  change (clock (2 + 0)%nat) with (clock 2%nat) in Hl. destruct (Z.ltb_spec (pt_Expiry tok) (clock 2%nat)) as [|Hle].
  { apply goM_bind_Some in Hl as (rd & b4 & _ & Hl). injection Hl as <- <-. done. }
  injection Hl as <- <-. injection Hv as <- <-. split; [by eapply shrunk_trans|]. by right.
Qed.
Lemma TokenV1_method t : JoinMethod (TokenV1_V2 t) = JoinMethodToken ∨ JoinMethod (TokenV1_V2 t) = JoinMethodUnspecified.
Proof.
  unfold TokenV1_V2. destruct (ProvisionToken_CheckAndSetDefaults _) as [p|] eqn:E; [|by right]. left.
  unfold ProvisionToken_CheckAndSetDefaults in E. apply result_bind_Ok in E as (md & _ & E). cbn [pt_Roles roles_spec] in E.
  destruct (_ =? 0)%nat; [done|]. apply result_bind_Ok in E as ([] & _ & E). destruct (_ && _); [done|]. destruct (_ && _); [done|].
  by injection E as <-.
Qed.
Lemma static_token_method token p b : static_token token p b → JoinMethod p = JoinMethodToken ∨ JoinMethod p = JoinMethodUnspecified.
Proof.
  intros (item & c & _ & _ & Hp). apply find_some in Hp as [Hp _]. apply in_map_iff in Hp as (t & <- & _). apply TokenV1_method.
Qed.
End reading.

(** ** Stored tokens are valid *)
Section valid.
Context `{TokenCodec}.

(** What a valid token of each method has. *)
Definition method_ok (p : ProvisionTokenV2) : Prop :=
  (JoinMethod p ∈ JoinMethods ∨ JoinMethod p = JoinMethodUnspecified) ∧
  (JoinMethod p = JoinMethodGitHub → ∃ allow, GitHub p = Some allow ∧ GitHub_checkAndSetDefaults allow = Ok ()) ∧
  (JoinMethod p = JoinMethodEC2 ∨ JoinMethod p = JoinMethodIAM → pt_Allow p ≠ []).
Lemma valid_method p p' : ProvisionToken_CheckAndSetDefaults p = Ok p' →
  method_ok p' ∧ JoinMethod p' ∈ JoinMethods ∧ (RoleBot ∈ pt_Roles p' ↔ BotName p' ≠ "").
Proof.
  unfold ProvisionToken_CheckAndSetDefaults. intros (md & _ & E)%result_bind_Ok. destruct (_ =? 0)%nat; [done|].
  apply result_bind_Ok in E as ([] & _ & E).
  destruct (Include (pt_Roles p) RoleBot && String.eqb (BotName p) "") eqn:Eb1; [done|].
  destruct (negb (String.eqb (BotName p) "") && negb (Include (pt_Roles p) RoleBot)) eqn:Eb2; [done|].
  assert (RoleBot ∈ pt_Roles p ↔ BotName p ≠ "") as Hbot.
  { assert (Include (pt_Roles p) RoleBot = true ↔ RoleBot ∈ pt_Roles p) as <-.
    { unfold Include. rewrite existsb_elem. setoid_rewrite String.eqb_eq. naive_solver. }
    destruct (Include _ _), (String.eqb_spec (BotName p) ""); naive_solver. }
  cbv zeta in E. set (method := if String.eqb (JoinMethod p) _ then _ else _) in E. clearbody method. clear Eb1 Eb2.
  assert (∀ ttl, method ∈ JoinMethods → (method = JoinMethodGitHub → ∃ allow, GitHub p = Some allow ∧ GitHub_checkAndSetDefaults allow = Ok ()) →
    (method = JoinMethodEC2 ∨ method = JoinMethodIAM → pt_Allow p ≠ []) →
    let p' := set_method method ttl md p in
    method_ok p' ∧ JoinMethod p' ∈ JoinMethods ∧ (RoleBot ∈ pt_Roles p' ↔ BotName p' ≠ "")) as Hok.
  { intros ttl Hm Hg Ha. cbn. split; [|done]. split; [by left|done]. }
  destruct (String.eqb_spec method JoinMethodToken) as [Em|_].
  { destruct (negb _); [done|]. injection E as <-. apply Hok; rewrite Em; [set_solver|done|by intros []]. }
  destruct (String.eqb_spec method JoinMethodEC2) as [Em|_].
  { destruct (pt_Allow p); [done|]. apply result_bind_Ok in E as (_ & _ & E). injection E as <-. apply Hok; rewrite Em; [set_solver|done|done]. }
  destruct (String.eqb_spec method JoinMethodIAM) as [Em|_].
  { destruct (pt_Allow p); [done|]. apply result_bind_Ok in E as (_ & _ & E). injection E as <-. apply Hok; rewrite Em; [set_solver|done|done]. }
  destruct (String.eqb_spec method JoinMethodGitHub) as [Em|]; [|done]. destruct (GitHub p) as [allow|]; [|done].
  apply result_bind_Ok in E as ([] & Hg & E). injection E as <-. apply Hok; rewrite Em; [set_solver|by exists allow|by intros []].
Qed.
Lemma unmarshal_token_method item p : unmarshal_token_item item = Ok p → method_ok p.
Proof.
  unfold unmarshal_token_item, UnmarshalProvisionToken. destruct (_ =? 0)%nat; [done|]. intros (version & _ & E)%result_bind_Ok. cbv zeta in E.
  assert (∀ q, method_ok q → method_ok (if (it_ID item =? 0)%Z then q else pt_SetResourceID (it_ID item) q)) as Hid by (intros q ?; by destruct (_ =? 0)%Z).
  destruct (String.eqb version "").
  - apply result_bind_Ok in E as (t & _ & E). injection E as <-. apply Hid.
    destruct (TokenV1_method t) as [E|E]; unfold method_ok; rewrite E; split_and!; try done; [left; set_solver|by intros []|by right|by intros []].
  - destruct (String.eqb version "v2"); [|done]. destruct (token_of_json _) as [q|]; [|done].
    apply result_bind_Ok in E as (q' & Hq & E). injection E as <-. apply Hid. by apply valid_method in Hq as [? _].
Qed.
End valid.

(** ** Who gets certificates *)
Section authorized.
Context `{Attestation} `{CertCodec} `{IdentityCodec} `{Modules} `{CertServer} `{GoSort} `{Regexp} `{MapOrder} `{Resource R}
  `{RequestLibs} `{GoMapOrder} `{GoLibs} `{GoGrow} `{ValidatorGetter} `{UnixUsers} `{PredicateLib} `{RuleLanguage}
  `{UserCodec} `{Codec LockV2} `{TokenCodec} `{Codec StaticTokensV2} `{Codec UserTokenV3} `{BL : BackendLaws B}
  `{EC2Lib} `{PresenceReads} `{GitHubActions} `{STSLib}.
Implicit Types (b : B) (req : RegisterUsingTokenRequest).

(** What the method of a token asks for was shown: for EC2, a document of a running
    instance; for GitHub, an identity that a rule allows, of a repository, an owner or
    a subject that the rule names; a token of IAM is not for this call. *)
Definition method_shown (now : Z) req (p : ProvisionTokenV2) : Prop :=
  (JoinMethod p = JoinMethodEC2 → ∃ iid, ec2_shown now req p iid) ∧
  (JoinMethod p = JoinMethodGitHub → ∃ claims allow rule, gha_Validate (rg_IDToken req) = Ok claims ∧ GitHub p = Some allow ∧ rule ∈ allow ∧
     GitHub_rule_matches claims rule = true ∧
     ((gh_Repository rule ≠ "" ∧ cl_Repository claims = gh_Repository rule) ∨
      (gh_RepositoryOwner rule ≠ "" ∧ cl_RepositoryOwner claims = gh_RepositoryOwner rule) ∨
      (gh_Sub rule ≠ "" ∧ cl_Sub claims = gh_Sub rule))) ∧
  JoinMethod p ≠ JoinMethodIAM.
Lemma check_method_Ok clock method req b b' : bk_inv b → rg_Token req ≠ "" →
  check_method clock method req b = Some (Ok (), b') →
  shrunk b b' ∧ method ∈ [JoinMethodToken; JoinMethodEC2; JoinMethodGitHub] ∧
  ∀ p, stored_token (rg_Token req) p b' → JoinMethod p = method → method_shown (clock 1%nat) req p.
Proof.
  intros Hb Ht. unfold check_method. destruct (String.eqb_spec method JoinMethodEC2) as [->|].
  { intros (r & b1 & Hget & Hr)%goM_bind_Some. apply GetToken_reads in Hget as [Hsh Hget]; [|done..].
    injection Hr as Hr <-. destruct r as [q|]; [|done]. apply checkEC2_token_shows in Hr. split; [done|]. split; [set_solver|].
    intros p Hp E. rewrite (stored_token_unique _ _ _ _ Hp Hget). rewrite (stored_token_unique _ _ _ _ Hp Hget) in E.
    unfold method_shown. rewrite E. done. }
  destruct (String.eqb_spec method JoinMethodIAM) as [->|]; [done|].
  destruct (String.eqb_spec method JoinMethodGitHub) as [->|].
  { unfold checkGitHubJoinRequest. destruct (String.eqb (rg_IDToken req) ""); [done|].
    intros (r & b1 & Hget & Hr)%goM_bind_Some. apply GetToken_reads in Hget as [Hsh Hget]; [|done..].
    destruct r as [q|]; [|done]. cbn [mbind result_bind] in Hr. destruct (gha_Validate (rg_IDToken req)) as [claims|] eqn:Ev; [|done].
    cbn [mbind result_bind] in Hr. destruct (checkGithubAllowRules q claims) as [rc|] eqn:Ec; [|done]. injection Hr as -> <-.
    apply checkGithubAllowRules_Ok in Ec as (allow & rule & Hg & Hrule & Hm). split; [done|]. split; [set_solver|].
    intros p Hp E. rewrite (stored_token_unique _ _ _ _ Hp Hget). rewrite (stored_token_unique _ _ _ _ Hp Hget) in E.
    destruct Hget as (item & _ & Hu). apply unmarshal_token_method in Hu as (_ & Hgh & _). destruct (Hgh E) as (allow' & Hg' & Hok).
    rewrite Hg in Hg'. injection Hg' as <-. unfold method_shown. rewrite E. split; [done|]. split; [|done]. intros _.
    exists claims, allow, rule. split_and!; try done. by eapply GitHub_rule_bounds. }
  destruct (String.eqb_spec method JoinMethodToken) as [->|]; [|done]. intros [= <-]. split; [by apply shrunk_refl|]. split; [set_solver|].
  intros p _ E. unfold method_shown. by rewrite E.
Qed.
Lemma tokenJoinMethod_reads now token b m b' : bk_inv b → token ≠ "" → tokenJoinMethod now token b = Some (m, b') →
  shrunk b b' ∧ ∀ p, stored_token token p b' → JoinMethod p = m.
Proof.
  intros Hb Ht (r & b1 & Hget & Hr)%goM_bind_Some. apply GetToken_reads in Hget as [Hsh Hget]; [|done..]. injection Hr as <- <-.
  split; [done|]. intros p Hp. destruct r as [q|]; [|by destruct (Hget p)]. by rewrite (stored_token_unique _ _ _ _ Hp Hget).
Qed.

(** The role is one of the token's, or that of an instance of a token with the role of
    a service. *)
Definition role_allowed (role : SystemRole) (p : ProvisionTokenV2) : Prop :=
  if String.eqb role RoleInstance then ∃ r, r ∈ pt_Roles p ∧ IsLocalService r = true else role ∈ pt_Roles p.
Lemma allows_role_Ok role p : allows_role role p = Ok () → role_allowed role p.
Proof.
  unfold allows_role, role_allowed, Include. destruct (String.eqb_spec role RoleInstance) as [->|].
  - cbn [andb]. destruct (existsb IsLocalService (pt_Roles p)) eqn:E; [|done]. intros _. by apply existsb_elem in E.
  - cbn [andb negb]. destruct (existsb (λ r, String.eqb r role) (pt_Roles p)) eqn:E; [|done]. intros _.
    apply existsb_elem in E as (r & Hr & <-%String.eqb_eq). done.
Qed.
Lemma on_store_Some {A} (m : goM B A) s r s' :
  on_store m s = Some (r, s') ↔ ∃ b, m (as_backend (js_auth s)) = Some (r, b) ∧
    s' = MkJoinState (MkAuthState b (as_audit (js_auth s))) (js_limiter s).
Proof.
  unfold on_store, on_auth, on_backend. split; [|by intros (b & -> & ->)].
  destruct (m (as_backend (js_auth s))) as [[a b]|]; [|done]. intros [= <- <-]. by exists b.
Qed.

(** What is issued for a token: for a bot, certificates of its user, that can be
    renewed only if the token is used up; for a host, certificates of the role, under
    the limit. *)
Definition certs_of (v : JoinServer (R:=R)) (ck : JoinClocks) (other : nat → goM B unit) (uuid lockUuid : string) req (p : ProvisionTokenV2)
    (l : ConnectionsLimiter) (certs : Certs) : Prop :=
  if String.eqb (rg_Role req) RoleBot then
    ∃ once a a', bot_certs (JoinMethod p) = Ok once ∧
      generateInitialBotCerts (jc_bot ck) other uuid lockUuid (jv_order v) (jv_lockWatcher v) (BotResourceName (BotName p)) (rg_PublicSSHKey req)
        (default (jc_now ck + DefaultRenewableCertTTL)%Z (rg_Expires req)) once a = Some (Ok certs, a')
  else
    rg_Expires req = None ∧ ∃ l', GenerateHostCerts (jv_cache v) (jv_services v) (jc_host ck) (jc_locks ck) (jv_order v) (jv_lockWatcher v)
      (host_request req p) l = (done certs, l').
Lemma generateCerts_of (v : JoinServer (R:=R)) ck other uuid lockUuid p req s certs s' :
  generateCerts v ck other uuid lockUuid p req s = Some (Ok certs, s') → certs_of v ck other uuid lockUuid req p (js_limiter s) certs.
Proof.
  unfold generateCerts, certs_of. destruct (String.eqb (rg_Role req) RoleBot).
  - destruct (bot_certs (JoinMethod p)) as [once|]; [|done]. intros (r & s1 & Hbot & Hr)%goM_bind_Some.
    destruct r as [certs'|]; [|done]. apply goM_bind_Some in Hr as (rd & s2 & _ & Hr). injection Hr as -> <-.
    unfold on_auth in Hbot. destruct (generateInitialBotCerts _ _ _ _ _ _ _ _ _ _ _) as [[rb a']|] eqn:E; [|done].
    injection Hbot as -> _. by exists once, (js_auth s), a'.
  - case_bool_decide as He; [done|]. apply eq_None_not_Some in He. unfold on_limiter.
    destruct (GenerateHostCerts _ _ _ _ _ _ _ _) as [rc l'] eqn:E. destruct rc as [rc|]; [|done]. intros [= -> _]. split; [done|]. by exists l'.
Qed.
Definition only_removes (other : nat → goM B unit) : Prop := ∀ n b r b', bk_inv b → other n b = Some (r, b') → shrunk b b'.

(** C3: whoever joins with a token is authorized by it. When certificates are
    issued, and others have meanwhile only removed things from the store, there was a
    token of this name: a static one, or a stored one that was not past its time and
    whose method's proof was given, for this very token. The token has the role that
    was asked for, and the certificates are of that role. *)
Theorem join_authorized (v : JoinServer (R:=R)) ck other uuid lockUuid req s certs s' :
  bk_inv (as_backend (js_auth s)) → only_removes other →
  RegisterUsingToken v ck other uuid lockUuid req s = Some (Ok certs, s') →
  ∃ p, (static_token (rg_Token req) p (as_backend (js_auth s)) ∨
        stored_token (rg_Token req) p (as_backend (js_auth s)) ∧ (jc_validate ck 2%nat ≤ pt_Expiry p)%Z ∧
        JoinMethod p ∈ [JoinMethodToken; JoinMethodEC2; JoinMethodGitHub]) ∧
    method_shown (jc_method ck 1%nat) req p ∧ role_allowed (rg_Role req) p ∧
    certs_of v ck (fun n => other (2 + n)%nat) uuid lockUuid req p (js_limiter s) certs.
Proof.
  intros Hb Hother. unfold RegisterUsingToken. destruct (Register_CheckAndSetDefaults req) as [[]|] eqn:Ec; [|done].
  assert (rg_Token req ≠ "") as Ht.
  { unfold Register_CheckAndSetDefaults in Ec. destruct (_ && _); [done|]. by destruct (String.eqb_spec (rg_Token req) ""). }
  intros (m & s1 & (b1 & Hm & ->)%on_store_Some & Hrun)%goM_bind_Some. cbn [js_auth js_limiter as_backend as_audit] in *.
  apply tokenJoinMethod_reads in Hm as [Hsh1 Hm]; [|done..].
  apply goM_bind_Some in Hrun as ([] & s2 & (b2 & Ho1 & ->)%on_store_Some & Hrun). cbn [js_auth js_limiter as_backend as_audit] in *.
  apply Hother in Ho1 as Hsh2; [|apply Hsh1].
  apply goM_bind_Some in Hrun as (r & s3 & (b3 & Hcm & ->)%on_store_Some & Hrun). cbn [js_auth js_limiter as_backend as_audit] in *.
  destruct r as [[]|]; [|done]. apply check_method_Ok in Hcm as (Hsh3 & Hmeth & Hshown); [|apply Hsh2|done].
  apply goM_bind_Some in Hrun as ([] & s4 & (b4 & Ho2 & ->)%on_store_Some & Hrun). cbn [js_auth js_limiter as_backend as_audit] in *.
  apply Hother in Ho2 as Hsh4; [|apply Hsh3].
  apply goM_bind_Some in Hrun as (r & s5 & (b5 & Hcom & ->)%on_store_Some & Hrun). cbn [js_auth js_limiter as_backend as_audit] in *.
  destruct r as [p|]; [|done]. apply goM_bind_Some in Hcom as (rv & b6 & Hv & Hcom). injection Hcom as Hcom <-.
  destruct rv as [p'|]; [|done]. apply result_bind_Ok in Hcom as ([] & Hrole%allows_role_Ok & [= ->]).
  apply ValidateToken_valid in Hv as [Hsh5 Hv]; [|apply Hsh4|done]. apply generateCerts_of in Hrun.
  pose proof (shrunk_trans _ _ _ Hsh1 (shrunk_trans _ _ _ Hsh2 Hsh3)) as Hsh13. pose proof (shrunk_trans _ _ _ Hsh4 Hsh5) as Hsh35.
  exists p. destruct Hv as [Hst|[Hst Hlive]].
  - pose proof (static_token_method _ _ _ Hst) as Hsm. apply (static_token_shrunk _ _ _ _ (shrunk_trans _ _ _ Hsh13 Hsh35)) in Hst.
    split; [by left|]. split; [|done]. unfold method_shown. destruct Hsm as [-> | ->]; done.
  - apply (stored_token_shrunk _ _ _ _ Hsh35) in Hst.
    assert (JoinMethod p = m) as Em by (apply Hm; apply (stored_token_shrunk _ _ _ _ (shrunk_trans _ _ _ Hsh2 Hsh3) Hst)).
    split; [right; split; [by apply (stored_token_shrunk _ _ _ _ Hsh13)|]; split; [done|by rewrite Em]|split; [by apply Hshown|done]].
Qed.

(** The call of the IAM method: the same of a token, and AWS said who the caller is. *)
Theorem iam_join_authorized (v : JoinServer (R:=R)) ck other uuid lockUuid cfg addr challenge challengeResponse s certs s' :
  bk_inv (as_backend (js_auth s)) → only_removes other →
  RegisterUsingIAMMethod v ck other uuid lockUuid cfg addr challenge challengeResponse s = Some (Ok certs, s') →
  ∃ c req0 body a, challenge = Ok c ∧ challengeResponse c = Ok (req0, body) ∧ addr = Some a ∧ let req := set_RemoteAddr a req0 in
  ∃ p p' id, (static_token (rg_Token req) p (as_backend (js_auth s)) ∨
              p' = p ∧ (jc_validate ck 2%nat ≤ pt_Expiry p)%Z) ∧
    stored_token (rg_Token req) p' (as_backend (js_auth s)) ∧ iam_shown c body cfg p' id ∧ role_allowed (rg_Role req) p ∧
    certs_of v ck (fun n => other (1 + n)%nat) uuid lockUuid req p (js_limiter s) certs.
Proof.
  intros Hb Hother. unfold RegisterUsingIAMMethod. match goal with |- match ?m with _ => _ end _ = _ → _ => destruct m as [[[c req] body]|] eqn:Ec end; [|done].
  apply result_bind_Ok in Ec as (a & Ha & (c' & Hc & ([req0 body'] & Hresp & ([] & _ & ([] & Hreg & [= -> <- ->])%result_bind_Ok)%result_bind_Ok)%result_bind_Ok)%result_bind_Ok).
  intros Hrun. exists c, req0, body, a. split; [done|]. split; [done|]. split; [by destruct addr; simplify_eq|]. cbv zeta.
  set (req := set_RemoteAddr a req0) in *. assert (rg_Token req ≠ "") as Ht.
  { unfold Register_CheckAndSetDefaults in Hreg. destruct (_ && _); [done|]. by destruct (String.eqb_spec (rg_Token req) ""). }
  apply goM_bind_Some in Hrun as (r & s1 & (b1 & Hcom & ->)%on_store_Some & Hrun). cbn [js_auth js_limiter as_backend as_audit] in *.
  destruct r as [p|]; [|done]. apply goM_bind_Some in Hcom as (rv & b6 & Hv & Hcom). injection Hcom as Hcom <-.
  destruct rv as [p0|]; [|done]. apply result_bind_Ok in Hcom as ([] & Hrole%allows_role_Ok & [= ->]).
  apply ValidateToken_valid in Hv as [Hsh1 Hv]; [|done..].
  apply goM_bind_Some in Hrun as ([] & s2 & (b2 & Ho1 & ->)%on_store_Some & Hrun). cbn [js_auth js_limiter as_backend as_audit] in *.
  apply Hother in Ho1 as Hsh2; [|apply Hsh1].
  apply goM_bind_Some in Hrun as (r & s3 & (b3 & Hcm & ->)%on_store_Some & Hrun). cbn [js_auth js_limiter as_backend as_audit] in *.
  destruct r as [[]|]; [|done]. apply goM_bind_Some in Hcm as (rt & b4 & Hget & Hcm). injection Hcm as Hcm <-.
  apply GetToken_reads in Hget as [Hsh3 Hget]; [|apply Hsh2|done]. destruct rt as [p'|]; [|done]. apply checkIAM_token_shows in Hcm as [id Hid].
  apply generateCerts_of in Hrun. exists p, p', id. apply (stored_token_shrunk _ _ _ _ (shrunk_trans _ _ _ Hsh2 Hsh3)) in Hget.
  split; [|split; [by apply (stored_token_shrunk _ _ _ _ Hsh1)|done]]. destruct Hv as [Hst|[Hst Hlive]].
  - left. by apply (static_token_shrunk _ _ _ _ Hsh1).
  - right. split; [|done]. by apply (stored_token_unique _ _ _ _ Hget).
Qed.
End authorized.

(** ** Removal of tokens *)
Section removal.
Context `{TokenCodec} `{Codec StaticTokensV2} `{Codec UserTokenV3} `{BL : BackendLaws B}.
Implicit Types (b : B).

Lemma Delete_shrinks now k b r b' : bk_inv b → k ≠ [] → bk_Delete now k b = Some (r, b') →
  shrunk b b' ∧ bk_view b' !! k = None ∧ (r = Ok () ∨ r = Err err_not_found).
Proof.
  intros Hb Hk Hr. destruct (bk_Delete_law now k b Hb) as (r' & b1 & Hr' & Hb1 & Hs). rewrite Hr in Hr'. injection Hr' as <- <-.
  rewrite bool_decide_eq_false_2 in Hs by done. destruct Hs as (m & (Hsub & _) & Hs). destruct (m !! k) eqn:Em.
  - destruct Hs as [-> Hv]. rewrite Hv. split; [split; [done|]; rewrite Hv; etrans; [apply delete_subseteq|done]|].
    split; [apply lookup_delete_eq|by left].
  - destruct Hs as [-> <-]. split; [by split|]. split; [done|by right].
Qed.
Lemma DeleteRange_shrinks now lo hi b r b' : bk_inv b → bk_DeleteRange now lo hi b = Some (r, b') → shrunk b b'.
Proof.
  intros Hb Hr. destruct (bk_DeleteRange_law now lo hi b Hb) as (r' & b1 & Hr' & Hb1 & Hs). rewrite Hr in Hr'. injection Hr' as <- <-.
  case_bool_decide; [destruct Hs as [_ ->]; by split|]. case_bool_decide; [destruct Hs as [_ ->]; by split|].
  destruct Hs as (m & (Hsub & _) & _ & Hv). split; [done|]. rewrite Hv. etrans; [apply map_filter_subseteq|done].
Qed.
Lemma GetUserToken_shrinks now tokenID b r b' : bk_inv b → GetUserToken now tokenID b = Some (r, b') → shrunk b b'.
Proof.
  intros Hb (ri & b3 & Hget & Hr)%goM_bind_Some. injection Hr as _ <-. unfold get_user_item in Hget.
  apply goM_bind_Some in Hget as (r1 & b1 & Hget1 & Hget). apply Get_reads in Hget1 as [Hsh1 _]; [|done..].
  apply goM_bind_Some in Hget as (r2 & b2 & Hget2 & Hget). injection Hget as _ <-.
  destruct r1 as [i|e]; [by injection Hget2 as _ <-|]. destruct (has_kind NotFound e); [|by injection Hget2 as _ <-].
  apply Get_reads in Hget2 as [Hsh2 _]; [|apply Hsh1|done]. by eapply shrunk_trans.
Qed.
Lemma DeleteUserToken_shrinks now tokenID b r b' : bk_inv b → DeleteUserToken now tokenID b = Some (r, b') → shrunk b b'.
Proof.
  intros Hb (r1 & b1 & Hrun1 & Hr)%goM_bind_Some. apply GetUserToken_shrinks in Hrun1 as Hsh1; [|done].
  destruct r1; [|by injection Hr as _ <-]. apply goM_bind_Some in Hr as (r2 & b2 & Hrun2 & Hr).
  apply DeleteRange_shrinks in Hrun2 as Hsh2; [|apply Hsh1]. pose proof (shrunk_trans _ _ _ Hsh1 Hsh2) as Hsh.
  destruct r2; [|by injection Hr as _ <-]. apply DeleteRange_shrinks in Hr; [|apply Hsh]. by eapply shrunk_trans.
Qed.
(** The removal of a token removes it, unless it is static, or a token of a user
    has its name. *)
Lemma DeleteToken_removes clock token b r b' : bk_inv b → DeleteToken clock token b = Some (r, b') →
  shrunk b b' ∧ (r = Ok () → (∀ p, ¬ stored_token token p b') ∨
    ∃ u b1 b2, DeleteUserToken (clock ∘ S) token b1 = Some (Ok u, b2)).
Proof.
  intros Hb (rs & b1 & Hs & Hr)%goM_bind_Some. apply GetStaticTokens_reads in Hs as [Hsh1 _]; [|done].
  destruct rs as [c|]; [|by injection Hr as <- <-]. destruct (static_named token c); [by injection Hr as <- <-|].
  apply goM_bind_Some in Hr as (ru & b2 & Hu & Hr). apply DeleteUserToken_shrinks in Hu as Hsh2; [|apply Hsh1].
  pose proof (shrunk_trans _ _ _ Hsh1 Hsh2) as Hsh. destruct ru as [u|].
  { injection Hr as <- <-. split; [done|]. intros _. right. by exists u, b1, b2. }
  unfold ProvisioningService_DeleteToken in Hr. destruct (String.eqb token ""); [by injection Hr as <- <-|].
  apply goM_bind_Some in Hr as (rd & b3 & Hd & Hr). injection Hr as <- <-.
  apply Delete_shrinks in Hd as (Hsh3 & Hnone & _); [|apply Hsh|apply tokenKey_nonempty].
  split; [by eapply shrunk_trans|]. intros _. left. intros p (item & Hi & _). congruence.
Qed.
End removal.

(** ** Bots *)
Section bots.
Context `{Attestation} `{CertCodec} `{IdentityCodec} `{Modules} `{CertServer} `{GoSort} `{Regexp} `{MapOrder} `{Resource R}
  `{RequestLibs} `{GoMapOrder} `{GoLibs} `{GoGrow} `{ValidatorGetter} `{UnixUsers} `{PredicateLib} `{RuleLanguage}
  `{UserCodecLaws} `{!Codec LockV2} `{!CodecLaws LockV2} `{TokenCodec} `{Codec StaticTokensV2} `{Codec UserTokenV3} `{BL : BackendLaws B}.
Implicit Types (b : B) (req : RegisterUsingTokenRequest).

Lemma first_generation clock (other : nat → goM B unit) uuid name creq creq' s s1 :
  server_state (as_backend s) → decent other → cr_generation creq = 1%Z →
  validateGenerationLabel clock other uuid name creq 0 s = Some (Ok creq', s1) →
  bk_inv (as_backend s1) ∧ has_generation name 1 (bk_view (as_backend s1)).
Proof.
  intros Hst Hother Hreq Hrun. unfold validateGenerationLabel in Hrun.
  apply goM_bind_Some in Hrun as (r & s' & (b1 & Hget & ->)%on_backend_Some & Hrun).
  apply (GetUser_state _ _ _ _ _ Hst) in Hget as [Hst1 Hu]. destruct r as [user|]; [|done].
  destruct (Hu user eq_refl) as (Hn & Hs & Hm & Hc). destruct (stored_generation user) as [n|] eqn:Hn0; [|done].
  rewrite Hreq in Hrun. rewrite andb_false_r in Hrun. cbv zeta in Hrun. cbn [cr_set_includeHostCA cr_generation] in Hrun.
  rewrite Hreq in Hrun. cbn [Z.gtb Z.compare] in Hrun.
  apply goM_bind_Some in Hrun as ([] & s' & (b2 & Ho & ->)%on_backend_Some & Hrun). cbn [as_backend as_audit] in *.
  apply (Hother _ _ _ _ Hst1) in Ho as Hst2. destruct (Z.gtb_spec n 0); [done|]. cbn [Z.eqb negb Pos.eqb] in Hrun.
  apply goM_bind_Some in Hrun as (r & s' & (b3 & Hcommit & ->)%on_backend_Some & Hrun). cbn [as_backend as_audit] in *.
  destruct r as [[]|]; [|done]. injection Hrun as <- <-.
  apply (commit_generation_spec clock (other 1%nat) user 1 n) in Hcommit as ([? _] & Hgen & _); [|done|by apply Hother|done..].
  by rewrite Hn in Hgen.
Qed.

(** The checks for the certificates of a bot that can be renewed, up to the count of
    its generation. *)
Lemma first_bot_certs ck (other : nat → goM B unit) uuid lockUuid order (lockWatcher : option (lockCollector R)) name pubKey expires certs s s1 :
  server_state (as_backend s) → decent other →
  generateInitialBotCerts ck other uuid lockUuid order lockWatcher name pubKey expires true s = Some (Ok certs, s1) →
  bk_inv (as_backend s1) ∧ has_generation name 1 (bk_view (as_backend s1)).
Proof.
  intros Hst Hother. unfold generateInitialBotCerts. intros (r & s' & (b1 & Hget & ->)%on_backend_Some & Hrun)%goM_bind_Some.
  apply (GetUser_state _ _ _ _ _ Hst) in Hget as [Hst1 Hu]. destruct r as [user|]; [|done]. destruct (Hu user eq_refl) as (Hn & _).
  case_bool_decide; [done|]. cbv zeta in Hrun. destruct (clusterName ← cs_GetClusterName; _) as [checker|]; [|done].
  apply goM_bind_Some in Hrun as (rv & s2 & Hv & Hrun). destruct rv as [creq|]; [|done].
  apply first_generation in Hv as [Hinv Hgen]; [|done..]. rewrite Hn in Hgen.
  unfold issue in Hrun. destruct (generateUserCert _ _ _ _ _ _) as [events rc]. apply goM_bind_Some in Hrun as ([] & s3 & [= <-] & Hrun).
  destruct rc as [rc|]; [|done]. by injection Hrun as _ <-.
Qed.
Lemma second_bot_certs E ck (other : nat → goM B unit) uuid lockUuid order (lockWatcher : option (lockCollector R)) name pubKey expires item u certs s s1 :
  bk_inv (as_backend s) → bk_view (as_backend s) !! userKey name = Some item → ¬ expired E item →
  unmarshal_item item = Ok u → stored_generation u = Ok 1%Z → u_Name u = name →
  (ck_call ck 0%nat ≤ E)%Z → (ck_generation ck 0%nat ≤ E)%Z →
  generateInitialBotCerts ck other uuid lockUuid order lockWatcher name pubKey expires true s ≠ Some (Ok certs, s1).
Proof.
  intros Hb Hi Hne Hu Hg Hn HE HE'. assert (name ≠ "") as Hname by (rewrite <- Hn; by apply UnmarshalUser_spec in Hu as ((? & _) & _)).
  unfold generateInitialBotCerts. intros (r & s' & (b1 & Hget & ->)%on_backend_Some & Hrun)%goM_bind_Some.
  destruct (GetUser_item E (ck_call ck 0%nat) name item _ Hb HE Hname Hi Hne) as (b1' & Hget' & Hb1 & Hp).
  rewrite Hget in Hget'. injection Hget' as -> <-. rewrite Hu in Hrun. case_bool_decide; [done|]. cbv zeta in Hrun.
  destruct (clusterName ← cs_GetClusterName; _) as [checker|]; [|done].
  apply goM_bind_Some in Hrun as (rv & s2 & Hv & Hrun). destruct rv as [creq|]; [|done]. clear Hrun.
  unfold validateGenerationLabel in Hv. apply goM_bind_Some in Hv as (r & s' & (b2 & Hget2 & ->)%on_backend_Some & Hv).
  cbn [as_backend] in Hget2. assert (bk_view b1 !! userKey name = Some item) as Hi1.
  { eapply purged_keeps; [exact Hp|done|]. intros [? ?]. apply Hne. split; [done|lia]. }
  rewrite Hn in Hget2. destruct (GetUser_item E (ck_generation ck 0%nat) name item b1 Hb1 HE' Hname Hi1 Hne) as (b2' & Hget2' & _).
  rewrite Hget2 in Hget2'. injection Hget2' as -> <-. rewrite Hu, Hg in Hv. cbn [cr_generation Z.eqb andb] in Hv. cbv zeta in Hv.
  cbn [cr_set_includeHostCA cr_generation Z.gtb Z.compare Pos.compare Pos.compare_cont] in Hv.
  by apply goM_bind_Some in Hv as ([] & s3 & _ & Hv).
Qed.

(** A bot that has joined has the first generation in the store. *)
Lemma bot_joined (v : JoinServer (R:=R)) ck (other : nat → goM B unit) uuid lockUuid p req s s1 certs :
  server_state (as_backend (js_auth s)) → decent other → rg_Role req = RoleBot → JoinMethod p = JoinMethodToken →
  generateCerts v ck other uuid lockUuid p req s = Some (Ok certs, s1) →
  bk_inv (as_backend (js_auth s1)) ∧
  ∃ m, has_generation (BotResourceName (BotName p)) 1 m ∧ bk_view (as_backend (js_auth s1)) ⊆ m.
Proof.
  intros Hst Hother Hrole Hp Hrun. unfold generateCerts in Hrun. rewrite Hrole, Hp in Hrun. cbn [String.eqb Ascii.eqb Bool.eqb] in Hrun.
  change (bot_certs JoinMethodToken) with (Ok true : result bool) in Hrun. cbv beta iota in Hrun.
  apply goM_bind_Some in Hrun as (r & sa & Hbotrun & Hrun). unfold on_auth in Hbotrun.
  destruct (generateInitialBotCerts _ _ _ _ _ _ _ _ _ _ _) as [[rb a]|] eqn:Ea; [|done]. injection Hbotrun as <- <-.
  destruct rb as [cs|]; [|done]. apply goM_bind_Some in Hrun as (rd & sb & (b & Hd & ->)%on_store_Some & Hrun).
  injection Hrun as -> <-. cbn [js_auth js_limiter as_backend as_audit] in *.
  pose proof (first_bot_certs _ _ _ _ _ _ _ _ _ _ _ _ Hst Hother Ea) as [Hba Hgen].
  apply DeleteToken_removes in Hd as [[Hb Hsub] _]; [|done]. split; [exact Hb|]. by exists (bk_view (as_backend a)).
Qed.

(** Under a key, [b] and [b'] keep the same item, which lives up to [E]. *)
Definition kept_until (E : Z) (k : bytes) (b b' : B) : Prop :=
  ∃ item, bk_view b !! k = Some item ∧ bk_view b' !! k = Some item ∧ ¬ expired E item.

(** C7: a bot gets renewable certificates once. When a bot has joined with a token of the
    token method, no token of that method gets certificates for the same bot again, as
    long as its user is kept as the first call left it: the token need not be gone for
    that. *)
Theorem bot_joins_once E (v v' : JoinServer (R:=R)) ck ck' (other other' : nat → goM B unit) uuid uuid' lockUuid lockUuid' p p' req req' s s1 s2 s3 certs certs' :
  server_state (as_backend (js_auth s)) → decent other → rg_Role req = RoleBot → JoinMethod p = JoinMethodToken →
  generateCerts v ck other uuid lockUuid p req s = Some (Ok certs, s1) →
  rg_Role req' = RoleBot → JoinMethod p' = JoinMethodToken → BotName p' = BotName p →
  bk_inv (as_backend (js_auth s2)) →
  kept_until E (userKey (BotResourceName (BotName p))) (as_backend (js_auth s1)) (as_backend (js_auth s2)) →
  (ck_call (jc_bot ck') 0%nat ≤ E)%Z → (ck_generation (jc_bot ck') 0%nat ≤ E)%Z →
  generateCerts v' ck' other' uuid' lockUuid' p' req' s2 ≠ Some (Ok certs', s3).
Proof.
  intros Hst Hother Hrole Hp Hrun Hrole' Hp' Hbot Hb2 (item & Hi1 & Hi2 & Hne) HE HE'.
  destruct (bot_joined _ _ _ _ _ _ _ _ _ _ Hst Hother Hrole Hp Hrun) as (_ & m & (item' & u & Hitem & Hu & Hg & Hn) & Hsub).
  pose proof (lookup_weaken _ _ _ _ Hi1 Hsub) as Hi. rewrite Hitem in Hi. injection Hi as ->.
  unfold generateCerts. rewrite Hrole', Hp', Hbot. cbn [String.eqb Ascii.eqb Bool.eqb].
  change (bot_certs JoinMethodToken) with (Ok true : result bool). cbv beta iota.
  intros (r & sa' & Hbotrun & Hrun')%goM_bind_Some. unfold on_auth in Hbotrun.
  destruct (generateInitialBotCerts (jc_bot ck') _ _ _ _ _ _ _ _ _ _) as [[rb a']|] eqn:Ea'; [|done]. injection Hbotrun as <- <-.
  destruct rb as [cs'|]; [|done]. by eapply second_bot_certs in Ea'.
Qed.
End bots.

(** ** How long a token can be used *)
Section lifetime.
Context `{TokenCodecLaws} `{Codec StaticTokensV2} `{Codec UserTokenV3} `{BL : BackendLaws B}.
Implicit Types (b : B) (p : ProvisionTokenV2).

Ltac token_fields := cbn [pt_set_Metadata set_method pt_Metadata pt_Roles BotName JoinMethod pt_Allow GitHub AWSIIDTTL mbind result_bind].
Ltac same_checks := match goal with Hmd : Metadata_CheckAndSetDefaults _ = _, El : (length _ =? 0)%nat = _, Hroles : SystemRoles_Check _ = _ |- _ =>
  token_fields; rewrite Hmd; token_fields; rewrite El, Hroles; token_fields end.
(** A token that was checked passes the check again, with other metadata that is
    valid, and is not changed. *)
Lemma check_again p p' md : ProvisionToken_CheckAndSetDefaults p = Ok p' → Metadata_CheckAndSetDefaults md = Ok md →
  ProvisionToken_CheckAndSetDefaults (pt_set_Metadata md p') = Ok (pt_set_Metadata md p').
Proof.
  unfold ProvisionToken_CheckAndSetDefaults. intros (md0 & _ & E)%result_bind_Ok Hmd.
  destruct (length (pt_Roles p) =? 0)%nat eqn:El; [done|]. apply result_bind_Ok in E as ([] & Hroles & E).
  destruct (Include (pt_Roles p) RoleBot && String.eqb (BotName p) "") eqn:Eb1; [done|].
  destruct (negb (String.eqb (BotName p) "") && negb (Include (pt_Roles p) RoleBot)) eqn:Eb2; [done|].
  cbv zeta in E. set (method := if String.eqb (JoinMethod p) _ then _ else _) in E. clearbody method.
  destruct (String.eqb_spec method JoinMethodToken) as [Em|_].
  { subst method. destruct (negb (length (pt_Allow p) =? 0)%nat) eqn:Ea; [done|]. injection E as <-. same_checks. by rewrite Eb1, Eb2, Ea. }
  destruct (String.eqb_spec method JoinMethodEC2) as [Em|_].
  { subst method. destruct (negb (negb (length (pt_Allow p) =? 0)%nat)) eqn:Ea; [done|]. apply result_bind_Ok in E as ([] & Hc & E). injection E as <-.
    same_checks. rewrite Eb1, Eb2. cbn [String.eqb Ascii.eqb Bool.eqb JoinMethodEC2 JoinMethodUnspecified JoinMethodToken]. rewrite Ea, Hc. token_fields.
    destruct (Z.eqb_spec (AWSIIDTTL p) 0) as [|Hn]; [done|]. by rewrite (proj2 (Z.eqb_neq _ _) Hn). }
  destruct (String.eqb_spec method JoinMethodIAM) as [Em|_].
  { subst method. destruct (negb (negb (length (pt_Allow p) =? 0)%nat)) eqn:Ea; [done|]. apply result_bind_Ok in E as ([] & Hc & E). injection E as <-.
    same_checks. rewrite Eb1, Eb2. cbn [String.eqb Ascii.eqb Bool.eqb JoinMethodIAM JoinMethodUnspecified]. by rewrite Ea, Hc. }
  destruct (String.eqb_spec method JoinMethodGitHub) as [Em|]; [|done]. subst method. destruct (GitHub p) as [allow|] eqn:Eg; [|done].
  apply result_bind_Ok in E as ([] & Hc & E). injection E as <-. same_checks. rewrite Eb1, Eb2.
  cbn [String.eqb Ascii.eqb Bool.eqb JoinMethodGitHub JoinMethodUnspecified]. by rewrite Eg, Hc.
Qed.
Lemma checked_metadata p p' : ProvisionToken_CheckAndSetDefaults p = Ok p' →
  metadata_ok (pt_Metadata p) ∧ pt_Metadata p' = metadata_defaults (pt_Metadata p).
Proof.
  unfold ProvisionToken_CheckAndSetDefaults. intros (md & [Hm ->]%Metadata_ok & E)%result_bind_Ok. split; [done|].
  repeat first [progress cbv zeta in E | case_match; try done | apply result_bind_Ok in E as (? & _ & E)];
    try discriminate E; by injection E as <-.
Qed.
Lemma metadata_kept m expires id : metadata_ok m →
  let m' := MkMetadata (md_Name m) (md_Namespace (metadata_defaults m)) (md_Description m) (md_Labels m) expires id in
  Metadata_CheckAndSetDefaults m' = Ok m'.
Proof.
  intros Hm. cbn. apply Metadata_ok. split; [exact Hm|]. unfold metadata_defaults. cbn.
  destruct (String.eqb_spec (md_Namespace m) ""); [done|]. by rewrite (proj2 (String.eqb_neq _ _)).
Qed.

(** The token that is stored: one that would never end, or soon, gets the default
    time. *)
Definition with_lifetime (now : Z) (p : ProvisionTokenV2) : ProvisionTokenV2 :=
  if is_zero_time (pt_Expiry p) || (pt_Expiry p - now <? Second)%Z then pt_SetExpiry (now + ProvisioningTokenTTL) p else p.
Lemma with_lifetime_valid now p p' : ProvisionToken_CheckAndSetDefaults p = Ok p' →
  ∃ m, with_lifetime now p' = pt_set_Metadata m p' ∧ md_Name m = pt_Name p ∧
    ∀ id, ProvisionToken_CheckAndSetDefaults (pt_SetResourceID id (pt_set_Metadata m p')) = Ok (pt_SetResourceID id (pt_set_Metadata m p')).
Proof.
  intros Hp. destruct (checked_metadata _ _ Hp) as [Hm Hmd]. unfold with_lifetime, pt_SetExpiry. rewrite Hmd.
  assert (∀ expires id0, ∃ m, m = MkMetadata (md_Name (pt_Metadata p)) (md_Namespace (metadata_defaults (pt_Metadata p)))
    (md_Description (pt_Metadata p)) (md_Labels (pt_Metadata p)) expires id0 ∧ md_Name m = pt_Name p ∧
    ∀ id, ProvisionToken_CheckAndSetDefaults (pt_SetResourceID id (pt_set_Metadata m p')) = Ok (pt_SetResourceID id (pt_set_Metadata m p'))) as Hany.
  { intros expires id0. eexists. split; [reflexivity|]. split; [done|]. intros id. apply (check_again p p' _ Hp). exact (metadata_kept (pt_Metadata p) expires id Hm). }
  destruct (_ || _).
  - destruct (Hany (Some (now + ProvisioningTokenTTL)%Z) (md_ID (pt_Metadata p))) as (m & -> & Hn & Hc). by eexists.
  - destruct (Hany (md_Expires (pt_Metadata p)) (md_ID (pt_Metadata p))) as (m & Em & Hn & Hc). exists m. split; [|done].
    rewrite Em. change (MkMetadata _ _ _ _ _ _) with (metadata_defaults (pt_Metadata p)). rewrite <- Hmd. by destruct p'.
Qed.
(** Every token that is stored ends, at least a second later. *)
Lemma with_lifetime_ends now p : (now + Second ≤ pt_Expiry (with_lifetime now p))%Z.
Proof.
  unfold with_lifetime. destruct (is_zero_time _); cbn [orb]; [|destruct (Z.ltb_spec (pt_Expiry p - now) Second)];
    [cbn; unfold ProvisioningTokenTTL, Minute, Second; lia..|lia].
Qed.
Lemma tokenToItem_back now p p' : ProvisionToken_CheckAndSetDefaults p = Ok p' →
  ∃ item, tokenToItem now p = Ok item ∧ it_Key item = tokenKey (pt_Name p) ∧ it_Expires item = pt_Expiry (with_lifetime now p') ∧
    ∀ id, unmarshal_token_item (with_ID id item) = Ok (pt_SetResourceID id (with_lifetime now p')).
Proof.
  intros Hp. destruct (with_lifetime_valid now _ _ Hp) as (m & Em & Hn & Hc). unfold tokenToItem. rewrite Hp. cbn [mbind result_bind].
  fold (with_lifetime now p'). cbv zeta. unfold MarshalProvisionToken.
  assert (ProvisionToken_CheckAndSetDefaults (with_lifetime now p') = Ok (with_lifetime now p')) as ->.
  { specialize (Hc (md_ID m)). rewrite Em. unfold pt_SetResourceID in Hc. cbn in Hc. destruct m; exact Hc. }
  cbn [mbind result_bind]. eexists. split; [reflexivity|]. cbn [it_Key it_Expires]. split; [rewrite Em; by f_equal|]. split; [done|].
  intros id. unfold unmarshal_token_item, UnmarshalProvisionToken. cbn [it_Value it_ID with_ID].
  destruct (token_json _) as [|c l] eqn:Ej; [by apply token_json_some in Ej|]. rewrite <- Ej. rewrite (proj2 (Nat.eqb_neq _ _)) by (by rewrite Ej).
  rewrite token_json_version. cbn [mbind result_bind]. cbv zeta. cbn [String.eqb Ascii.eqb Bool.eqb]. rewrite token_json_back, Em, Hc.
  cbn [mbind result_bind]. by destruct (Z.eqb_spec id 0) as [->|].
Qed.

(** Calls on the store always answer. *)
Lemma Get_runs now k b : bk_inv b → k ≠ [] → runs (bk_Get now k) b (fun r b' =>
  purged now (bk_view b) (bk_view b') ∧ r = match bk_view b' !! k with Some i => Ok i | None => Err err_not_found end).
Proof.
  intros Hb Hk. destruct (bk_Get_law now k b Hb) as (r & b' & Hr & Hb' & Hs). exists r, b'. split; [done|]. split; [done|].
  rewrite bool_decide_eq_false_2 in Hs by done. by destruct Hs as (m & Hp & <- & ->).
Qed.
Lemma GetUserToken_runs now tokenID b : bk_inv b → runs (GetUserToken now tokenID) b (fun _ _ => True).
Proof.
  intros Hb. unfold GetUserToken. eapply (runs_bind _ _ _ (fun _ _ => True)).
  - unfold get_user_item. eapply runs_bind; [by apply Get_runs|]. cbv beta. intros r b1 Hb1 _.
    eapply (runs_bind _ _ _ (fun _ _ => True)); [|intros ? ? ? _; by apply runs_ret].
    destruct r as [i|e]; [by apply runs_ret|]. destruct (has_kind NotFound e); [|by apply runs_ret].
    eapply runs_weaken; [by apply Get_runs|done].
  - intros ? ? ? _. by apply runs_ret.
Qed.
Lemma DeleteRange_runs now lo hi b : bk_inv b → runs (bk_DeleteRange now lo hi) b (fun _ _ => True).
Proof. intros Hb. destruct (bk_DeleteRange_law now lo hi b Hb) as (r & b' & Hr & Hb' & _). by exists r, b'. Qed.
Lemma DeleteToken_runs clock token b : bk_inv b → runs (DeleteToken clock token) b (fun _ _ => True).
Proof.
  intros Hb. unfold DeleteToken. eapply (runs_bind _ _ _ (fun _ _ => True)).
  { unfold GetStaticTokens. eapply runs_bind; [by apply Get_runs|]. intros ? ? ? _. by apply runs_ret. }
  intros r b1 Hb1 _. destruct r as [c|]; [|by apply runs_ret]. destruct (static_named token c); [by apply runs_ret|].
  eapply (runs_bind _ _ _ (fun _ _ => True)).
  { unfold DeleteUserToken. eapply runs_bind; [by apply GetUserToken_runs|]. cbv beta. intros ru b2 Hb2 _. destruct ru; [|by apply runs_ret].
    eapply runs_bind; [by apply DeleteRange_runs|]. cbv beta. intros rd b3 Hb3 _. destruct rd; [|by apply runs_ret]. by apply DeleteRange_runs. }
  intros ru b2 Hb2 _. destruct ru; [by apply runs_ret|]. unfold ProvisioningService_DeleteToken.
  destruct (String.eqb token ""); [by apply runs_ret|]. destruct (bk_Delete_law (clock 5%nat) (tokenKey token) b2 Hb2) as (r & b' & Hr & Hb' & _).
  eapply (runs_bind _ _ _ (fun _ _ => True)); [by exists r, b'|]. intros ? ? ? _. by apply runs_ret.
Qed.

(** A stored token, and static tokens that are kept without an end and do not have
    its name. *)
Definition token_held (token : string) (item : Item) (p : ProvisionTokenV2) b : Prop :=
  bk_view b !! tokenKey token = Some item ∧ unmarshal_token_item item = Ok p ∧ it_Expires item = pt_Expiry p ∧
  ∃ sitem c, bk_view b !! staticTokensKey = Some sitem ∧ it_Expires sitem = zero_time ∧
    UnmarshalStaticTokens (it_Value sitem) (it_ID sitem) zero_time = Ok c ∧ static_named token c = None.
Lemma GetStaticTokens_runs now token item p b : bk_inv b → token_held token item p b →
  runs (GetStaticTokens now) b (fun r b' => (∃ c, r = Ok c ∧ static_named token c = None) ∧ purged now (bk_view b) (bk_view b')).
Proof.
  intros Hb (_ & _ & _ & sitem & c & Hs & Hexp & Hu & Hn). unfold GetStaticTokens. eapply runs_bind; [by apply Get_runs|]. cbv beta.
  intros r b1 Hb1 [Hp ->]. apply runs_ret; [done|]. split; [|done].
  rewrite (purged_keeps _ _ _ _ _ Hp Hs) by (intros [? _]; congruence). rewrite Hexp. by exists c.
Qed.
(** Until its time a token is valid. *)
Lemma ValidateToken_live clock token item p b : bk_inv b → token ≠ "" → token_held token item p b →
  (∀ n, (n < 3)%nat → clock n < pt_Expiry p)%Z →
  runs (ValidateToken clock token) b (fun r _ => r = Ok p).
Proof.
  intros Hb Ht Hh Hclock. unfold ValidateToken. eapply runs_bind; [by eapply GetStaticTokens_runs|]. cbv beta.
  intros r b1 Hb1 [(c & -> & Hn) Hp]. cbn beta iota. rewrite Hn. destruct Hh as (Hi & Hu & He & _).
  eapply runs_bind.
  - unfold GetToken. rewrite (proj2 (String.eqb_neq _ _) Ht). eapply runs_bind; [by apply Get_runs|]. cbv beta. intros r b2 Hb2 [Hp2 ->].
    assert (∀ n, n < 3 → ¬ expired (clock n) item)%nat as Hne.
    { intros n Hn3 [_ ?]. pose proof (Hclock n ltac:(lia)). lia. }
    pose proof (purged_keeps _ _ _ _ _ Hp Hi (Hne 0%nat ltac:(lia))) as Hi1. rewrite (purged_keeps _ _ _ _ _ Hp2 Hi1 (Hne 1%nat ltac:(lia))).
    cbn [token_NotFound mbind result_bind]. rewrite Hu. apply (runs_ret (Ok p) b2 (fun r _ => r = Ok p)); done.
  - cbv beta. intros r b2 Hb2 ->. unfold checkTokenTTL. change (clock (2 + 0)%nat) with (clock 2%nat).
    destruct (Z.ltb_spec (pt_Expiry p) (clock 2%nat)) as [Hlt|_]; [pose proof (Hclock 2%nat ltac:(lia)); lia|].
    apply runs_ret_bind. by apply runs_ret.
Qed.
(** After its time it is not, whether it is still stored or not. *)
Lemma ValidateToken_ended clock token item p b : bk_inv b → token ≠ "" → token_held token item p b → (pt_Expiry p < clock 2%nat)%Z →
  runs (ValidateToken clock token) b (fun r _ => r = Err err_expired).
Proof.
  intros Hb Ht Hh Hclock. unfold ValidateToken. eapply runs_bind; [by eapply GetStaticTokens_runs|]. cbv beta.
  intros r b1 Hb1 [(c & -> & Hn) Hp]. cbn beta iota. rewrite Hn. destruct Hh as (Hi & Hu & He & _).
  eapply (runs_bind _ _ _ (fun r _ => r = Ok p ∨ r = Err err_token_not_found)).
  - unfold GetToken. rewrite (proj2 (String.eqb_neq _ _) Ht). eapply runs_bind; [by apply Get_runs|]. cbv beta. intros r b2 Hb2 [Hp2 ->].
    apply runs_ret; [done|]. destruct (bk_view b2 !! tokenKey token) as [j|] eqn:Hj; [|by right]. left.
    destruct Hp as [Hsub _], Hp2 as [Hsub2 _]. pose proof (lookup_weaken _ _ _ _ (lookup_weaken _ _ _ _ Hj Hsub2) Hsub) as Hj'.
    rewrite Hi in Hj'. injection Hj' as <-. exact Hu.
  - cbv beta. intros r b2 Hb2 [-> | ->]; [|by apply runs_ret]. unfold checkTokenTTL. change (clock (2 + 0)%nat) with (clock 2%nat).
    destruct (Z.ltb_spec (pt_Expiry p) (clock 2%nat)) as [_|]; [|lia].
    eapply (runs_bind _ _ _ (fun r _ => r = false)); [|intros ? ? ? ->; by apply runs_ret].
    eapply runs_bind; [by apply DeleteToken_runs|]. cbv beta. intros ? ? ? _. by apply runs_ret.
Qed.

(** C8: a stored token is valid up to its time and not after it. Storing a token that
    passes the checks always succeeds and gives it an end, at least a second away: its
    own, or half an hour when it has none or one that is nearer. Before that time its
    name gives the token, with its roles and its method; after it, the name is refused
    as that of a token that does not exist, whether or not the store still has it. *)
Theorem token_lifetime clock clock' p p' sitem c b :
  bk_inv b → ProvisionToken_CheckAndSetDefaults p = Ok p' →
  bk_view b !! staticTokensKey = Some sitem → it_Expires sitem = zero_time →
  UnmarshalStaticTokens (it_Value sitem) (it_ID sitem) zero_time = Ok c → static_named (pt_Name p) c = None →
  let tok := with_lifetime (clock 0%nat) p' in
  (clock 0%nat + Second ≤ pt_Expiry tok)%Z ∧
  runs (UpsertToken clock p) b (fun r b1 => r = Ok () ∧ ∃ id,
    ((∀ n, (n < 3)%nat → clock' n < pt_Expiry tok)%Z → runs (ValidateToken clock' (pt_Name p)) b1 (fun r _ => r = Ok (pt_SetResourceID id tok))) ∧
    ((pt_Expiry tok < clock' 2%nat)%Z → runs (ValidateToken clock' (pt_Name p)) b1 (fun r _ => r = Err err_expired))).
Proof.
  intros Hb Hp Hs Hse Hsu Hsn. cbv zeta. split; [apply with_lifetime_ends|].
  destruct (tokenToItem_back (clock 0%nat) _ _ Hp) as (item & Eitem & Hk & He & Hback). unfold UpsertToken. rewrite Eitem.
  destruct (checked_metadata _ _ Hp) as [[Hname _] _].
  destruct (bk_Put_law (clock 1%nat) item b Hb) as (r & b1 & Hr & Hb1 & Hlaw). rewrite bool_decide_eq_false_2 in Hlaw by (rewrite Hk; apply tokenKey_nonempty).
  destruct Hlaw as (m & Hpurge & -> & id & Hv). eapply (runs_bind _ _ _ (fun r b' => is_Ok r = true ∧ b' = b1)); [by exists (Ok (lease_of item)), b1|].
  cbv beta. intros r ? _ [Hok ->]. destruct r; [|done]. apply runs_ret; [done|]. split; [done|]. exists id.
  assert (token_held (pt_Name p) (with_ID id item) (pt_SetResourceID id (with_lifetime (clock 0%nat) p')) b1) as Hheld.
  { split; [rewrite Hv, Hk; apply lookup_insert_eq|]. split; [apply Hback|]. split; [exact He|]. exists sitem, c. split; [|done].
    rewrite Hv, Hk, lookup_insert_ne by done. apply (purged_keeps _ _ _ _ _ Hpurge Hs). intros [? _]; congruence. }
  split; intros Hclock; [by apply (ValidateToken_live clock' _ _ _ b1 Hb1 Hname Hheld)|by apply (ValidateToken_ended clock' _ _ _ b1 Hb1 Hname Hheld)].
Qed.
End lifetime.
