(* ===== verification/Reconciler.v ===== *)
(** * The reconciler of dynamic resources (lib/services/reconciler.go)

    Agents register the resources that are found in the cluster: the reconciler
    compares what is registered with what there is and calls back to create,
    update and delete. The callbacks act on a world [W] that is theirs. *)

From S2P Require Import Prelude.
Local Open Scope string_scope.

(** The methods of resources with labels that are used; [Compare_Equal] is that
    [CompareResources] finds no difference. *)
Class LabelledResource (R : Type) := {
  res_Name : R → string;
  res_Origin : R → string;
  Compare_Equal : R → R → bool
}.
(** The order in which Go ranges over a map of resources. *)
Class ResourceOrder (R : Type) := { range_resources : gmap string R → list R }.
Class ResourceOrderLaws (R : Type) `{ResourceOrder R} : Prop := {
  range_resources_perm : ∀ m, range_resources m ≡ₚ (map_to_list m).*2
}.

Section reconciler.
Context {R W : Type} `{LabelledResource R} `{ResourceOrder R}.

(** From the end to the start, so that the first of a name wins. *)
Definition ToMap (rs : list R) : gmap string R := foldr (fun r rm => <[ res_Name r := r ]> rm) ∅ rs.

Record ReconcilerConfig := MkReconcilerConfig {
  cfg_Matcher : option (R → bool);
  cfg_GetCurrentResources : option (W → gmap string R);
  cfg_GetNewResources : option (W → gmap string R);
  cfg_OnCreate : option (R → W → result unit * W);
  cfg_OnUpdate : option (R → W → result unit * W);
  cfg_OnDelete : option (R → W → result unit * W)
}.
Record Reconciler := MkReconciler {
  Matcher : R → bool;
  GetCurrentResources : W → gmap string R;
  GetNewResources : W → gmap string R;
  OnCreate : R → W → result unit * W;
  OnUpdate : R → W → result unit * W;
  OnDelete : R → W → result unit * W
}.
Definition NewReconciler (c : ReconcilerConfig) : result Reconciler :=
  match cfg_Matcher c with
  | None => Err (Error BadParameter "missing reconciler Matcher")
  | Some matcher =>
      match cfg_GetCurrentResources c with
      | None => Err (Error BadParameter "missing reconciler GetCurrentResources")
      | Some current =>
          match cfg_GetNewResources c with
          | None => Err (Error BadParameter "missing reconciler GetNewResources")
          | Some new =>
              match cfg_OnCreate c with
              | None => Err (Error BadParameter "missing reconciler OnCreate")
              | Some create =>
                  match cfg_OnUpdate c with
                  | None => Err (Error BadParameter "missing reconciler OnUpdate")
                  | Some update =>
                      match cfg_OnDelete c with
                      | None => Err (Error BadParameter "missing reconciler OnDelete")
                      | Some delete => Ok (MkReconciler matcher current new create update delete)
                      end
                  end
              end
          end
      end
  end.

(** The answer of a callback, as the error it adds. *)
Definition called (r : result unit * W) : list error * W :=
  match r with (Ok _, w) => ([], w) | (Err e, w) => ([e], w) end.

Definition processRegisteredResource (c : Reconciler) (newResources : gmap string R) (registered : R) (w : W) : list error * W :=
  match newResources !! res_Name registered with
  | Some _ => ([], w)
  | None => called (OnDelete c registered w)
  end.
Definition processNewResource (c : Reconciler) (currentResources : gmap string R) (new : R) (w : W) : list error * W :=
  match currentResources !! res_Name new with
  | None => if Matcher c new then called (OnCreate c new w) else ([], w)
  | Some registered =>
      if negb (String.eqb (res_Origin registered) (res_Origin new)) then ([], w) else
      if negb (Compare_Equal new registered) then
        if Matcher c new then called (OnUpdate c new w) else called (OnDelete c registered w)
      else ([], w)
  end.
(** The errors of the resources are collected and stop nothing. *)
Fixpoint process_all (process : R → W → list error * W) (rs : list R) (w : W) : list error * W :=
  match rs with
  | [] => ([], w)
  | r :: rs =>
      let '(e, w) := process r w in
      let '(es, w) := process_all process rs w in ((e ++ es)%list, w)
  end.
Definition Reconcile (c : Reconciler) (w : W) : list error * W :=
  let currentResources := GetCurrentResources c w in
  let newResources := GetNewResources c w in
  let '(errs, w) := process_all (processRegisteredResource c newResources) (range_resources currentResources) w in
  let '(errs', w) := process_all (processNewResource c currentResources) (range_resources newResources) w in
  ((errs ++ errs')%list, w).

(** ** The contract *)

(** What should be registered under a name, of what is and what there is. *)
Definition wanted (c : Reconciler) (current new : option R) : option R :=
  match current, new with
  | None, Some n => if Matcher c n then Some n else None
  | Some r, Some n =>
      if negb (String.eqb (res_Origin r) (res_Origin n)) then Some r else
      if Compare_Equal n r then Some r else
      if Matcher c n then Some n else None
  | _, None => None
  end.
Definition keyed (m : gmap string R) : Prop := ∀ k r, m !! k = Some r → res_Name r = k.

(** The callbacks keep the registered resources: a call that succeeds has its
    effect, one that fails none, and none changes what there is. *)
Record callbacks_ok (c : Reconciler) : Prop := {
  create_ok r w : let '(a, w') := OnCreate c r w in
    GetCurrentResources c w' = (if is_Ok a then <[res_Name r := r]> else id) (GetCurrentResources c w) ∧ GetNewResources c w' = GetNewResources c w;
  update_ok r w : let '(a, w') := OnUpdate c r w in
    GetCurrentResources c w' = (if is_Ok a then <[res_Name r := r]> else id) (GetCurrentResources c w) ∧ GetNewResources c w' = GetNewResources c w;
  delete_ok r w : let '(a, w') := OnDelete c r w in
    GetCurrentResources c w' = (if is_Ok a then delete (res_Name r) else id) (GetCurrentResources c w) ∧ GetNewResources c w' = GetNewResources c w
}.

Implicit Types (current new m : gmap string R).
(** [e] is the answer of a callback for a resource of this name. *)
Definition callback_failed (c : Reconciler) (name : string) (e : error) : Prop :=
  ∃ r w, res_Name r = name ∧ ((OnCreate c r w).1 = Err e ∨ (OnUpdate c r w).1 = Err e ∨ (OnDelete c r w).1 = Err e).
(** A step for the resource of a name, registered as in [current]: it makes of
    the name what is wanted, or a callback for it fails and it changes nothing. *)
Definition leaves (c : Reconciler) (current : gmap string R) (name : string) (want : option R) (w : W)
    (x : list error * W) : Prop :=
  GetNewResources c x.2 = GetNewResources c w ∧
  (∀ k, k ≠ name → GetCurrentResources c x.2 !! k = GetCurrentResources c w !! k) ∧
  ((x.1 = [] ∧ GetCurrentResources c x.2 !! name = want) ∨
   (∃ e, x.1 = [e] ∧ callback_failed c name e ∧ GetCurrentResources c x.2 !! name = current !! name)).
Definition step_ok (c : Reconciler) (process : R → W → list error * W) (current : gmap string R)
    (want : string → option R) (r : R) : Prop :=
  ∀ w, GetCurrentResources c w !! res_Name r = current !! res_Name r →
  leaves c current (res_Name r) (want (res_Name r)) w (process r w).

Lemma called_leaves c (current : gmap string R) name want w (x : result unit * W) (effect : gmap string R → gmap string R) :
  GetCurrentResources c w !! name = current !! name →
  (let '(a, w') := x in
    GetCurrentResources c w' = (if is_Ok a then effect else id) (GetCurrentResources c w) ∧ GetNewResources c w' = GetNewResources c w) →
  (∀ e, x.1 = Err e → callback_failed c name e) →
  (∀ m k, k ≠ name → effect m !! k = m !! k) → (∀ m, effect m !! name = want) →
  leaves c current name want w (called x).
Proof.
  intros Hc Hx He Ho Hw. destruct x as [[[]|e] w']; cbn in *; destruct Hx as [E1 E2]; unfold leaves; cbn; rewrite E1, E2.
  - split_and!; [done|intros; by apply Ho|left; by split; [|apply Hw]].
  - split_and!; [done..|]. right. exists e. split_and!; [done|by apply He|done].
Qed.
Lemma skip_leaves c (current : gmap string R) name want w :
  GetCurrentResources c w !! name = current !! name → want = current !! name → leaves c current name want w ([], w).
Proof. intros Hc ->. split_and!; [done..|by left]. Qed.

(** The names whose callbacks failed, with the answers: one for each error that is
    collected. *)
Definition failures (c : Reconciler) (failed : list (string * error)) (es : list error) : Prop :=
  failed.*2 = es ∧ NoDup failed.*1 ∧ Forall (fun f => callback_failed c f.1 f.2) failed.
Lemma process_all_ok c process current want rs w :
  (∀ r, r ∈ rs → step_ok c process current want r) → NoDup (res_Name <$> rs) →
  (∀ k, k ∈ res_Name <$> rs → GetCurrentResources c w !! k = current !! k) →
  let '(es, w') := process_all process rs w in
  GetNewResources c w' = GetNewResources c w ∧ ∃ failed, failures c failed es ∧
  (∀ f, f ∈ failed → ∃ r w0, r ∈ rs ∧ f.1 = res_Name r ∧ (process r w0).1 = [f.2]) ∧
  ∀ k, GetCurrentResources c w' !! k = if decide (k ∈ res_Name <$> rs)
    then if decide (k ∈ failed.*1) then current !! k else want k
    else GetCurrentResources c w !! k.
Proof.
  revert w. induction rs as [|r rs IH]; intros w Hst Hnd Hc; cbn [process_all].
  { split; [done|]. exists []. split; [by split_and!; constructor|]. split; [by intros f ?%elem_of_nil|]. intros k. rewrite decide_False; [done|apply not_elem_of_nil]. }
  cbn [fmap list_fmap] in Hnd, Hc. apply NoDup_cons in Hnd as [Hr Hnd].
  pose proof (Hst r ltac:(left) w (Hc _ ltac:(left))) as Hs.
  assert (∀ e, (process r w).1 = [e] → ∃ r0 w0, r0 ∈ r :: rs ∧ res_Name r = res_Name r0 ∧ (process r0 w0).1 = [e]) as Hthis
    by (intros e He; exists r, w; split_and!; [by left|done..]).
  destruct (process r w) as [e w1] eqn:E.
  destruct Hs as (Hn1 & Ho1 & Hr1). cbn [fst snd] in *.
  specialize (IH w1 ltac:(intros; apply Hst; by right) Hnd). destruct (process_all process rs w1) as [es w2].
  destruct IH as (Hn2 & failed & (He2 & Hnd2 & Hf2) & Hsub & Hk2).
  { intros k Hk. rewrite Ho1 by (by intros ->). apply Hc. by right. }
  split; [congruence|]. assert (res_Name r ∉ failed.*1) as Hrf.
  { intros (f & Ef & Hin)%list_elem_of_fmap. destruct (Hsub f Hin) as (r' & _ & Hr' & Ef' & _). apply Hr. rewrite Ef, Ef'.
    by apply list_elem_of_fmap_2. }
  assert (∀ f, f ∈ failed → ∃ r0 w0, r0 ∈ r :: rs ∧ f.1 = res_Name r0 ∧ (process r0 w0).1 = [f.2]) as Hsub'.
  { intros f Hin. destruct (Hsub f Hin) as (r' & w0 & ? & ?). exists r', w0. split; [by right|done]. }
  assert (GetCurrentResources c w2 !! res_Name r = GetCurrentResources c w1 !! res_Name r) as Hself by (by rewrite Hk2, decide_False).
  assert (∀ k, k ≠ res_Name r → GetCurrentResources c w2 !! k = if decide (k ∈ res_Name <$> r :: rs)
    then if decide (k ∈ failed.*1) then current !! k else want k else GetCurrentResources c w !! k) as Hrest.
  { intros k Hne. rewrite Hk2, (Ho1 _ Hne). cbn [fmap list_fmap]. repeat case_decide; set_solver. }
  destruct Hr1 as [[-> Hr1]|(e1 & -> & Hf1 & Hr1)].
  - exists failed. split; [done|]. split; [done|]. intros k. destruct (decide (k = res_Name r)) as [->|Hne]; [|by apply Hrest].
    rewrite decide_True by left. by rewrite decide_False, Hself.
  - exists ((res_Name r, e1) :: failed). split; [split_and!; cbn; [by rewrite He2|by constructor|by constructor]|].
    split; [intros f [->|Hin]%elem_of_cons; [by apply Hthis|by apply Hsub']|].
    intros k. destruct (decide (k = res_Name r)) as [->|Hne].
    + rewrite !decide_True by (cbn; left). by rewrite Hself.
    + rewrite Hrest by done. cbn [fmap list_fmap fst]. repeat case_decide; set_solver.
Qed.

Lemma registered_ok c current new r : callbacks_ok c →
  step_ok c (processRegisteredResource c new) current (fun k => match new !! k with Some _ => current !! k | None => None end) r.
Proof.
  intros Hc w Hw. unfold processRegisteredResource. destruct (new !! res_Name r) as [n|]; [by apply skip_leaves|].
  apply (called_leaves _ _ _ _ _ _ (delete (res_Name r))); [done|apply (delete_ok _ Hc)| | |].
  - intros e He. exists r, w. auto.
  - intros m k Hk. by rewrite lookup_delete_ne.
  - intros m. by rewrite lookup_delete_eq.
Qed.
Lemma new_ok c current new n : callbacks_ok c → keyed current → new !! res_Name n = Some n →
  step_ok c (processNewResource c current) current (fun k => wanted c (current !! k) (new !! k)) n.
Proof.
  intros Hc Hkey Hn w Hw. unfold processNewResource, wanted. rewrite Hn.
  assert (∀ call : R → W → result unit * W, (∀ w, let '(a, w') := call n w in
      GetCurrentResources c w' = (if is_Ok a then <[res_Name n := n]> else id) (GetCurrentResources c w) ∧ GetNewResources c w' = GetNewResources c w) →
    (∀ e, (call n w).1 = Err e → callback_failed c (res_Name n) e) →
    leaves c current (res_Name n) (Some n) w (called (call n w))) as Hput.
  { intros call Hcall He. apply (called_leaves _ _ _ _ _ _ (<[res_Name n := n]>)); [done|apply Hcall|done|intros; by rewrite lookup_insert_ne|].
    intros m. by rewrite lookup_insert_eq. }
  destruct (current !! res_Name n) as [r|] eqn:Er.
  - case_test; [by apply skip_leaves; rewrite ?Hw, ?Er|]. destruct (Compare_Equal n r); cbn [negb]; [by apply skip_leaves; rewrite ?Hw, ?Er|].
    destruct (Matcher c n); [apply Hput; [apply (update_ok _ Hc)|intros e He; exists n, w; auto]|].
    apply (called_leaves _ _ _ _ _ _ (delete (res_Name r))); [by rewrite Hw, Er|apply (delete_ok _ Hc)|..].
    { intros e He. exists r, w. split; [by apply Hkey|auto]. }
    all: rewrite (Hkey _ _ Er).
    + intros m k Hk. by rewrite lookup_delete_ne.
    + intros m. by rewrite lookup_delete_eq.
  - destruct (Matcher c n); [apply Hput; [apply (create_ok _ Hc)|intros e He; exists n, w; auto]|by apply skip_leaves; rewrite ?Hw, ?Er].
Qed.

Lemma ToMap_first rs k : ToMap rs !! k = head (filter (fun r => res_Name r = k) rs).
Proof.
  induction rs as [|r rs IH]; [done|]. cbn [ToMap foldr]. rewrite filter_cons, lookup_insert.
  case_decide; [done|]. exact IH.
Qed.
Lemma ToMap_keyed rs : keyed (ToMap rs).
Proof.
  intros k r. rewrite ToMap_first. intros Hr. assert (r ∈ filter (fun r => res_Name r = k) rs) as Hin.
  { destruct (filter _ rs); [done|]. injection Hr as ->. left. }
  by apply list_elem_of_filter in Hin as [? _].
Qed.

(** Names of a map that is keyed by them. *)
Lemma range_names `{!ResourceOrderLaws R} m : keyed m →
  NoDup (res_Name <$> range_resources m) ∧ ∀ k, k ∈ res_Name <$> range_resources m ↔ is_Some (m !! k).
Proof.
  intros Hk. assert (res_Name <$> (map_to_list m).*2 = (map_to_list m).*1) as E.
  { rewrite <- list_fmap_compose. apply list_fmap_ext. intros i [k r] Hi. cbn. apply Hk, elem_of_map_to_list.
    by eapply list_elem_of_lookup_2. }
  split.
  - rewrite range_resources_perm, E. apply NoDup_fst_map_to_list.
  - intros k. rewrite range_resources_perm, E, list_elem_of_fmap. split.
    + intros ([k' r] & -> & Hin%elem_of_map_to_list). by exists r.
    + intros [r Hr]. exists (k, r). by rewrite elem_of_map_to_list.
Qed.
Lemma range_self `{!ResourceOrderLaws R} m r : keyed m → r ∈ range_resources m → m !! res_Name r = Some r.
Proof.
  intros Hk. rewrite range_resources_perm. intros ([k r'] & -> & Hin%elem_of_map_to_list)%list_elem_of_fmap. cbn.
  by rewrite (Hk _ _ Hin).
Qed.

(** A name that the second pass looks at did not fail in the first. *)
Lemma registered_failed c (new : gmap string R) r w e :
  (processRegisteredResource c new r w).1 = [e] → new !! res_Name r = None.
Proof. unfold processRegisteredResource. by destruct (new !! res_Name r). Qed.
Lemma Reconcile_each `{!ResourceOrderLaws R} c w : callbacks_ok c →
  keyed (GetCurrentResources c w) → keyed (GetNewResources c w) →
  let '(es, w') := Reconcile c w in
  GetNewResources c w' = GetNewResources c w ∧ ∃ failed, failures c failed es ∧
  ∀ k, GetCurrentResources c w' !! k = if decide (k ∈ failed.*1) then GetCurrentResources c w !! k
    else wanted c (GetCurrentResources c w !! k) (GetNewResources c w !! k).
Proof.
  intros Hc Hcur Hnew. unfold Reconcile. set (current := GetCurrentResources c w). set (new := GetNewResources c w).
  destruct (range_names current Hcur) as [Hnd1 Hin1]. destruct (range_names new Hnew) as [Hnd2 Hin2].
  pose proof (process_all_ok c (processRegisteredResource c new) current _ (range_resources current) w
    (fun r _ => registered_ok c current new r Hc) Hnd1 (fun k _ => eq_refl)) as H1'.
  destruct (process_all (processRegisteredResource c new) _ w) as [es1 w1].
  destruct H1' as (Hn1 & failed1 & (He1 & Hd1 & Hf1) & Hsub1 & Hk1).
  assert (∀ k, k ∈ failed1.*1 → new !! k = None ∧ is_Some (current !! k)) as Hfirst.
  { intros k (f & -> & Hin)%list_elem_of_fmap. destruct (Hsub1 f Hin) as (r & w0 & Hr & -> & E).
    split; [by eapply registered_failed|]. apply Hin1. by apply list_elem_of_fmap_2. }
  pose proof (process_all_ok c (processNewResource c current) current _ (range_resources new) w1
    (fun n Hn => new_ok c current new n Hc Hcur (range_self _ _ Hnew Hn)) Hnd2) as H2'.
  destruct (process_all (processNewResource c current) _ w1) as [es2 w2].
  destruct H2' as (Hn2 & failed2 & (He2 & Hd2 & Hf2) & Hsub2 & Hk2).
  { intros k [n Hn]%Hin2. rewrite Hk1, Hn. by repeat case_decide. }
  assert (∀ k, k ∈ failed2.*1 → is_Some (new !! k)) as Hsecond.
  { intros k (f & -> & Hin)%list_elem_of_fmap. destruct (Hsub2 f Hin) as (r & w0 & Hr & -> & _). apply Hin2.
    by apply list_elem_of_fmap_2. }
  split; [by rewrite Hn2, Hn1|]. exists (failed1 ++ failed2)%list. split.
  { split_and!; [by rewrite fmap_app, He1, He2| |by apply Forall_app]. rewrite fmap_app. apply NoDup_app. split_and!; [done| |done].
    intros k [Hk _]%Hfirst [? Hk']%Hsecond. congruence. }
  intros k. rewrite Hk2, Hk1, fmap_app. fold current. specialize (Hfirst k). specialize (Hsecond k).
  pose proof (Hin1 k) as Hi1. pose proof (Hin2 k) as Hi2.
  destruct (new !! k) as [n|] eqn:En, (current !! k) as [r|] eqn:Ec; rewrite is_Some_alt in Hi1, Hi2;
    repeat case_decide; rewrite ?elem_of_app in *;
    first [done | exfalso; tauto | exfalso; destruct Hsecond as [? ?]; [tauto|congruence] | exfalso; destruct Hfirst as [? [? ?]]; [tauto|congruence]].
Qed.

(** With nothing left to do no callback is called. *)
Lemma process_all_idle process rs w : (∀ r, r ∈ rs → process r w = ([], w)) → process_all process rs w = ([], w).
Proof.
  induction rs as [|r rs IH]; intros Hr; cbn [process_all]; [done|]. rewrite (Hr r ltac:(left)).
  by rewrite IH by (intros; apply Hr; by right).
Qed.

(** C29: a reconciliation makes of every name what is wanted under it; only a name
    for which a callback failed is left as it was. There is one error for each of
    these names, so failures stop nothing. A reconciliation without errors is
    complete: reconciling again calls nobody and changes nothing. *)
Theorem Reconcile_converges `{!ResourceOrderLaws R} c w :
  (∀ r, Compare_Equal r r = true) → callbacks_ok c → keyed (GetCurrentResources c w) → keyed (GetNewResources c w) →
  let '(es, w') := Reconcile c w in
  (∃ failed, failures c failed es ∧
     ∀ k, GetCurrentResources c w' !! k = if decide (k ∈ failed.*1) then GetCurrentResources c w !! k
       else wanted c (GetCurrentResources c w !! k) (GetNewResources c w !! k)) ∧
  (es = [] → Reconcile c w' = ([], w')).
Proof.
  intros Heq Hc Hcur Hnew. pose proof (Reconcile_each c w Hc Hcur Hnew) as Hr.
  destruct (Reconcile c w) as [es w']. destruct Hr as (Hn & failed & Hf & Hk). split; [by exists failed|]. intros ->.
  assert (∀ k, GetCurrentResources c w' !! k = wanted c (GetCurrentResources c w !! k) (GetNewResources c w !! k)) as Hw.
  { intros k. rewrite Hk. destruct Hf as (Hf & _). destruct failed; [|done]. by rewrite decide_False by apply not_elem_of_nil. }
  unfold Reconcile. rewrite Hn. set (current := GetCurrentResources c w) in *. set (new := GetNewResources c w) in *.
  assert (keyed (GetCurrentResources c w')) as Hcur'.
  { intros k r. rewrite Hw. unfold wanted. pose proof (Hcur k). pose proof (Hnew k). repeat case_match; naive_solver. }
  rewrite process_all_idle; [rewrite process_all_idle; [done|]|].
  - intros n Hn'. pose proof (range_self _ _ Hnew Hn') as Hs. unfold processNewResource. rewrite Hw. fold new in Hs. rewrite Hs. unfold wanted.
    destruct (current !! res_Name n) as [r|].
    + destruct (negb (String.eqb (res_Origin r) (res_Origin n))) eqn:Eo; [by rewrite ?Eo|].
      destruct (Compare_Equal n r) eqn:Ee; [by rewrite ?Eo, ?Ee|]. destruct (Matcher c n) eqn:Em; [|by rewrite ?Em].
      by rewrite String.eqb_refl, Heq.
    + destruct (Matcher c n) eqn:Em; [|by rewrite ?Em]. by rewrite String.eqb_refl, Heq.
  - intros r Hr. pose proof (range_self _ _ Hcur' Hr) as Hs. unfold processRegisteredResource.
    rewrite Hw in Hs. destruct (new !! res_Name r); [done|]. unfold wanted in Hs. by destruct (current !! res_Name r).
Qed.
End reconciler.

(** ** A concrete run *)

(** Resources are a name, an origin and a value; those with a value above 9 do
    not match. The registration of "bad" fails. *)
Definition demo_resource : Type := (string * string * Z)%type.
#[local] Instance demo_labelled : LabelledResource demo_resource := {|
  res_Name := fun r => r.1.1; res_Origin := fun r => r.1.2; Compare_Equal := fun a b => bool_decide (a = b)
|}.
#[local] Instance demo_resource_order : ResourceOrder demo_resource := {| range_resources := fun m => (map_to_list m).*2 |}.
#[local] Instance demo_resource_order_laws : ResourceOrderLaws demo_resource.
Proof. constructor. intros m. reflexivity. Qed.

(** What is registered, and what there is. *)
Definition demo_world : Type := (gmap string demo_resource * gmap string demo_resource)%type.
Definition demo_put (r : demo_resource) (w : demo_world) : result unit * demo_world :=
  if String.eqb (res_Name r) "bad" then (Err (Error PlainError "bad"), w) else (Ok (), (<[res_Name r := r]> w.1, w.2)).
Definition demo_reconciler : Reconciler (R:=demo_resource) (W:=demo_world) :=
  MkReconciler (fun r => (r.2 <=? 9)%Z) fst snd demo_put demo_put (fun r w => (Ok (), (delete (res_Name r) w.1, w.2))).
Definition demo_before : demo_world :=
  (ToMap [("kept", "dynamic", 1%Z); ("gone", "dynamic", 2%Z); ("changed", "dynamic", 3%Z); ("static", "config-file", 4%Z)],
   ToMap [("kept", "dynamic", 1%Z); ("changed", "dynamic", 30%Z); ("static", "dynamic", 5%Z); ("made", "dynamic", 6%Z)]).

Definition demo_after : demo_world :=
  (ToMap [("kept", "dynamic", 1%Z); ("static", "config-file", 4%Z); ("made", "dynamic", 6%Z)], snd demo_before).

(** A failure stops nothing: the names after "bad" are reconciled, and its error is
    the only one. *)
Definition demo_failing : demo_world :=
  (ToMap [("gone", "dynamic", 2%Z)], ToMap [("apple", "dynamic", 1%Z); ("bad", "dynamic", 2%Z); ("zebra", "dynamic", 3%Z)]).
Example demo_failure : Reconcile demo_reconciler demo_failing =
  ([Error PlainError "bad"], (ToMap [("apple", "dynamic", 1%Z); ("zebra", "dynamic", 3%Z)], demo_failing.2)).
Proof. vm_compute. reflexivity. Qed.

Lemma Reconcile_converges_witness :
  Reconcile demo_reconciler demo_before = ([], demo_after) ∧ Reconcile demo_reconciler demo_after = ([], demo_after).
Proof.
  assert (Reconcile demo_reconciler demo_before = ([], demo_after)) as E by (vm_compute; reflexivity).
  split; [exact E|].
  assert (∀ r w, let '(a, w') := demo_put r w in
    w'.1 = (if is_Ok a then <[res_Name r := r]> else id) w.1 ∧ w'.2 = w.2) as Hput.
  { intros r w. unfold demo_put. destruct (String.eqb _ _); split; reflexivity. }
  assert (callbacks_ok demo_reconciler) as Hc.
  { split; intros r w; [apply Hput|apply Hput|split; reflexivity]. }
  pose proof (Reconcile_converges demo_reconciler demo_before (fun r => bool_decide_eq_true_2 (r = r) eq_refl) Hc
    (ToMap_keyed _) (ToMap_keyed _)) as Hr.
  rewrite E in Hr. exact (proj2 Hr eq_refl).
Defined.
