(* ===== verification/FnCache.v ===== *)
(** * The cache of function results (lib/utils/fncache.go)

    Callers that ask for a key while its value is loaded share one load, and a
    value is kept for the time to live. Callers and loaders are goroutines: a run
    is a list of steps, the part of [get] under the lock being one of them. *)

From S2P Require Import Prelude.
Local Open Scope Z_scope.

Record FnCacheConfig := MkFnCacheConfig { TTL : Z; ReloadOnErr : bool; CleanupInterval : Z }.
Definition cleanupMultiplier : Z := 16.
Definition Config_CheckAndSetDefaults (c : FnCacheConfig) : result FnCacheConfig :=
  if TTL c <=? 0 then Err (Error BadParameter "missing TTL parameter") else
  Ok (if CleanupInterval c <=? 0 then MkFnCacheConfig (TTL c) (ReloadOnErr c) (i64 (TTL c * cleanupMultiplier)) else c).

Definition ErrFnCacheClosed : error := Error PlainError "fncache permanently closed".

Section cache.
Context {K : Type} `{Countable K} {V : Type}.

(** An entry is written by its loader, which then closes [loaded]. The key that
    its loader was started for is [e_key], which the program does not store. *)
Record fnCacheEntry := MkEntry { e_key : K; e_v : result V; e_t : Z; loaded : bool }.
(** [entries] point into [heap], which has every entry made; [closed] is that the
    context of the cache is done. *)
Record FnCache := MkFnCache {
  cfg : FnCacheConfig; nextCleanup : Z; entries : gmap K nat; heap : list fnCacheEntry; closed : bool
}.
Definition NewFnCache (c : FnCacheConfig) : result FnCache :=
  c ← Config_CheckAndSetDefaults c; Ok (MkFnCache c zero_time ∅ [] false).

(** Loaded longer ago than the time to live. *)
Definition expired (c : FnCacheConfig) (now : Z) (e : fnCacheEntry) : bool := now >? e_t e + TTL c.
Definition removable (c : FnCache) (now : Z) (id : nat) : bool :=
  match heap c !! id with Some e => loaded e && expired (cfg c) now e | None => false end.
Definition removeExpiredLocked (now : Z) (c : FnCache) : FnCache :=
  MkFnCache (cfg c) (nextCleanup c) (filter (fun p => removable c now p.2 = false) (entries c)) (heap c) (closed c).

Definition cleanup (now : Z) (c : FnCache) : FnCache :=
  if now >? nextCleanup c then
    let c := removeExpiredLocked now c in
    MkFnCache (cfg c) (now + CleanupInterval (cfg c)) (entries c) (heap c) (closed c)
  else c.
Definition needsReload (now : Z) (key : K) (c : FnCache) : bool :=
  match entries c !! key with
  | None => true
  | Some id =>
      match heap c !! id with
      | None => true
      | Some e =>
          if loaded e then expired (cfg c) now e || (ReloadOnErr (cfg c) && negb (is_Ok (e_v e)))
          else false
      end
  end.
(** The entry that a caller then waits for; a reload starts a loader. *)
Definition get_entry (now : Z) (key : K) (c : FnCache) : result nat * FnCache :=
  if closed c then (Err ErrFnCacheClosed, c) else
  let c := cleanup now c in
  if needsReload now key c then
    let id := length (heap c) in
    (Ok id, MkFnCache (cfg c) (nextCleanup c) (<[ key := id ]> (entries c))
       (heap c ++ [MkEntry key (Err ErrFnCacheClosed) zero_time false]) (closed c))
  else (match entries c !! key with Some id => Ok id | None => Err ErrFnCacheClosed end, c).

(** The loader of an entry writes it; [None] when no loader is at work on it. *)
Definition finish_load (id : nat) (now : Z) (r : result V) (c : FnCache) : option FnCache :=
  e ← heap c !! id;
  if loaded e then None else
  Some (MkFnCache (cfg c) (nextCleanup c) (entries c) (<[ id := MkEntry (e_key e) r now true ]> (heap c)) (closed c)).

(** The wait of a caller, whose context is done with [ctx]: one of the cases that
    are ready is picked, and with none it blocks. *)
Definition wait_cases (id : nat) (ctx : option error) (c : FnCache) : list (result V) :=
  match heap c !! id with Some e => if loaded e then [e_v e] else [] | None => [] end ++
  match ctx with Some err => [Err err] | None => [] end ++
  (if closed c then [Err ErrFnCacheClosed] else []).
Definition get_wait (id : nat) (ctx : option error) (pick : nat) (c : FnCache) : option (result V) :=
  let cases := wait_cases id ctx c in cases !! (pick `mod` length cases)%nat.

(** [FnCacheGet] asserts the type of the value. *)
Definition FnCacheGet {T} (assertion : V → option T) (zero : T) (t : result V) : T * option error :=
  match t with
  | Err e => (zero, Some e)
  | Ok v =>
      match assertion v with
      | Some t => (t, None)
      | None => (zero, Some (Error BadParameter "value retrieved was %T, expected %T"))
      end
  end.

(** ** Runs *)

Inductive cache_step := CGet (now : Z) (key : K) | CLoaded (id : nat) (now : Z) (r : result V) | CClose.
Definition cache_exec (s : cache_step) (c : FnCache) : option FnCache :=
  match s with
  | CGet now key => Some (snd (get_entry now key c))
  | CLoaded id now r => finish_load id now r c
  | CClose => Some (MkFnCache (cfg c) (nextCleanup c) (entries c) (heap c) true)
  end.
Fixpoint cache_run (ss : list cache_step) (c : FnCache) : option FnCache :=
  match ss with [] => Some c | s :: ss => c ← cache_exec s c; cache_run ss c end.
(** The clock does not go back, from [now] on. *)
Fixpoint clock_from (now : Z) (ss : list cache_step) : Prop :=
  match ss with
  | [] => True
  | CGet t _ :: ss | CLoaded _ t _ :: ss => now ≤ t ∧ clock_from t ss
  | CClose :: ss => clock_from now ss
  end.

(** ** The invariant *)

Record cache_inv (c : FnCache) : Prop := {
  inv_entry key id : entries c !! key = Some id → ∃ e, heap c !! id = Some e ∧ e_key e = key;
  inv_loading id e : heap c !! id = Some e → loaded e = false → entries c !! e_key e = Some id
}.

Lemma cleanup_inv now c : cache_inv c → cache_inv (cleanup now c) ∧ cfg (cleanup now c) = cfg c ∧ heap (cleanup now c) = heap c.
Proof.
  intros Hi. unfold cleanup. destruct (now >? nextCleanup c); [|done]. cbn. split_and!; [|done..].
  split; cbn.
  - intros key id [Hk _]%map_lookup_filter_Some. by apply (inv_entry _ Hi).
  - intros id e He Hl. apply map_lookup_filter_Some. split; [by apply (inv_loading _ Hi)|].
    unfold removable. cbn. by rewrite He, Hl.
Qed.
(** A clean-up that is due leaves no entry that has expired. *)
Lemma cleanup_removes now c key id e : now > nextCleanup c → cache_inv c →
  entries (cleanup now c) !! key = Some id → heap c !! id = Some e → loaded e = true → now ≤ e_t e + TTL (cfg c).
Proof.
  intros Hn Hi. unfold cleanup. destruct (Z.gtb_spec now (nextCleanup c)); [|lia]. cbn.
  intros [_ Hr]%map_lookup_filter_Some He Hl. unfold removable, expired in Hr. cbn in Hr. rewrite He, Hl in Hr. cbn in Hr.
  destruct (Z.gtb_spec now (e_t e + TTL (cfg c))); [done|lia].
Qed.

(** The entry a caller gets is for its key, and is still to be loaded, or was
    loaded no longer ago than the time to live, and not with an error that is to
    be reloaded. *)
Definition usable (now : Z) (key : K) (id : nat) (c : FnCache) : Prop :=
  ∃ e, heap c !! id = Some e ∧ e_key e = key ∧
    (loaded e = true → now ≤ e_t e + TTL (cfg c) ∧ (ReloadOnErr (cfg c) = true → is_Ok (e_v e) = true)).

Lemma get_entry_inv now key c r c' : cache_inv c → get_entry now key c = (r, c') →
  cache_inv c' ∧ cfg c' = cfg c ∧ closed c' = closed c ∧ heap c `prefix_of` heap c' ∧
  match r with
  | Ok id => closed c = false ∧ usable now key id c'
  | Err e => closed c = true ∧ e = ErrFnCacheClosed
  end.
Proof.
  intros Hi. unfold get_entry. destruct (closed c) eqn:Hc; [intros [= <- <-]; by rewrite Hc|].
  destruct (cleanup_inv now c Hi) as (Hi' & Hcfg & Hheap).
  assert (closed (cleanup now c) = false) as Hc' by (unfold cleanup; by destruct (_ >? _)).
  set (c1 := cleanup now c) in *. clearbody c1. destruct (needsReload now key c1) eqn:Hn; intros [= <- <-].
  - split_and!; cbn; [|done..|rewrite Hheap; by apply prefix_app_r|done|].
    + split; cbn.
      * intros k id. rewrite lookup_insert. case_decide as Hk.
        -- intros [= <-]. eexists. rewrite lookup_app_r, Nat.sub_diag by done. by split.
        -- intros He. destruct (inv_entry _ Hi' _ _ He) as (e & Hid & Hek). exists e.
           by rewrite lookup_app_l by (by eapply lookup_lt_Some).
      * intros id e [Hid|[Hle Hid]]%lookup_app_Some Hl.
        -- pose proof (inv_loading _ Hi' _ _ Hid Hl) as He. rewrite lookup_insert_ne; [done|]. intros Hk.
           unfold needsReload in Hn. by rewrite Hk, He, Hid, Hl in Hn.
        -- destruct (id - length (heap c1))%nat as [|n] eqn:E; [|done]. injection Hid as <-. cbn.
           rewrite lookup_insert_eq. f_equal. lia.
    + eexists. cbn. rewrite lookup_app_r, Nat.sub_diag by done. by split_and!.
  - unfold needsReload in Hn. destruct (entries c1 !! key) as [id|] eqn:He; [|done].
    destruct (inv_entry _ Hi' _ _ He) as (e & Hid & Hek). rewrite Hid in Hn.
    split_and!; [done..|by rewrite Hheap|done|]. exists e. split_and!; [done..|]. intros Hl. rewrite Hl in Hn.
    apply orb_false_iff in Hn as [Hx Hr]. unfold expired in Hx. destruct (Z.gtb_spec now (e_t e + TTL (cfg c1))); [done|].
    split; [lia|]. intros Hre. rewrite Hre in Hr. by destruct (is_Ok (e_v e)).
Qed.

Lemma finish_load_inv id now r c c' : cache_inv c → finish_load id now r c = Some c' →
  cache_inv c' ∧ cfg c' = cfg c ∧ closed c' = closed c ∧ ∃ e, heap c !! id = Some e ∧ loaded e = false ∧
    heap c' = <[ id := MkEntry (e_key e) r now true ]> (heap c).
Proof.
  intros Hi. unfold finish_load. destruct (heap c !! id) as [e|] eqn:He; [|done]. cbn.
  destruct (loaded e) eqn:Hl; [done|]. intros [= <-]. cbn. split_and!; [|done..|by exists e].
  split; cbn.
  - intros key id' Hk. destruct (inv_entry _ Hi _ _ Hk) as (e' & Hid & Hek). destruct (decide (id = id')) as [<-|Hn].
    + rewrite list_lookup_insert_eq by (by eapply lookup_lt_Some). eexists. split; [done|]. cbn. congruence.
    + exists e'. by rewrite list_lookup_insert_ne.
  - intros id' e' Hid Hl'. destruct (decide (id = id')) as [<-|Hn].
    + rewrite list_lookup_insert_eq in Hid by (by eapply lookup_lt_Some). injection Hid as <-. done.
    + rewrite list_lookup_insert_ne in Hid by done. by apply (inv_loading _ Hi).
Qed.

(** ** Runs *)

Lemma cache_exec_inv s c c' : cache_inv c → cache_exec s c = Some c' → cache_inv c' ∧ cfg c' = cfg c.
Proof.
  intros Hi E. destruct s as [now key|id now r|]; cbn [cache_exec] in E.
  - injection E as <-. destruct (get_entry now key c) as [r c'] eqn:Eg. by destruct (get_entry_inv _ _ _ _ _ Hi Eg) as (? & ? & _).
  - by destruct (finish_load_inv _ _ _ _ _ Hi E) as (? & ? & _).
  - injection E as <-. by destruct Hi.
Qed.
Lemma cache_run_inv ss c c' : cache_inv c → cache_run ss c = Some c' → cache_inv c' ∧ cfg c' = cfg c.
Proof.
  revert c. induction ss as [|s ss IH]; intros c Hi; cbn [cache_run]; [by intros [= <-]|].
  destruct (cache_exec s c) as [c1|] eqn:E1; [|done]. cbn. intros E. destruct (cache_exec_inv _ _ _ Hi E1) as [Hi1 <-]. by apply IH.
Qed.

(** What became of an entry: once loaded it stays as it is, and it is loaded by
    a step of the run. *)
Definition evolves (now : Z) (id : nat) (ss : list cache_step) (e e' : fnCacheEntry) : Prop :=
  e_key e' = e_key e ∧ (loaded e = true → e' = e) ∧
  (loaded e = false → loaded e' = true → CLoaded id (e_t e') (e_v e') ∈ ss ∧ (clock_from now ss → now ≤ e_t e')).
Lemma exec_evolves now s c c' id e : cache_inv c → cache_exec s c = Some c' → heap c !! id = Some e →
  ∃ e', heap c' !! id = Some e' ∧ evolves now id [s] e e'.
Proof.
  intros Hi E He. assert (evolves now id [s] e e) as Hsame by (split_and!; [done..|congruence]).
  destruct s as [t key|id' t r|]; cbn [cache_exec] in E.
  - injection E as <-. destruct (get_entry t key c) as [r c'] eqn:Eg.
    destruct (get_entry_inv _ _ _ _ _ Hi Eg) as (_ & _ & _ & Hp & _). exists e. split; [|done]. by eapply prefix_lookup_Some.
  - destruct (finish_load_inv _ _ _ _ _ Hi E) as (_ & _ & _ & e0 & He0 & Hl0 & Hh). rewrite Hh.
    destruct (decide (id' = id)) as [->|Hn]; [|exists e; by rewrite list_lookup_insert_ne].
    rewrite list_lookup_insert_eq by (by eapply lookup_lt_Some). eexists. split; [done|].
    rewrite He in He0. injection He0 as <-. split_and!; [done|congruence|]. intros _ _. cbn. split; [left|]. by intros [? _].
  - injection E as <-. by exists e.
Qed.
Lemma clock_from_cons now s ss : clock_from now (s :: ss) → clock_from now [s] ∧ clock_from now ss.
Proof.
  assert (∀ t, now ≤ t → clock_from t ss → clock_from now ss) as Hle.
  { intros t Ht. destruct ss as [|[t' ?|? t' ?|] ss]; cbn; [done|intros [? ?]; split; [lia|done]..|].
    revert t Ht. induction ss as [|[t' ?|? t' ?|] ss IH]; cbn; intros t Ht; [done|intros [? ?]; split; [lia|done]..|by apply IH]. }
  destruct s as [t ?|? t ?|]; cbn; [intros [Ht Hc]; by eauto..|done].
Qed.
Lemma run_evolves now ss c c' id e : cache_inv c → cache_run ss c = Some c' → heap c !! id = Some e →
  ∃ e', heap c' !! id = Some e' ∧ evolves now id ss e e'.
Proof.
  revert c e. induction ss as [|s ss IH]; intros c e Hi; cbn [cache_run].
  { intros [= <-] He. exists e. split; [done|]. split_and!; [done..|congruence]. }
  destruct (cache_exec s c) as [c1|] eqn:E1; [|done]. cbn [mbind option_bind]. intros E He.
  destruct (exec_evolves now _ _ _ _ _ Hi E1 He) as (e1 & He1 & Hk1 & Hl1 & Hd1).
  destruct (IH c1 e1 (proj1 (cache_exec_inv _ _ _ Hi E1)) E He1) as (e2 & He2 & Hk2 & Hl2 & Hd2).
  exists e2. split; [done|]. split_and!; [congruence|intros Hl; rewrite <- (Hl1 Hl); apply Hl2; by rewrite (Hl1 Hl)|].
  intros Hl Hl'. destruct (loaded e1) eqn:Hm.
  - specialize (Hl2 eq_refl). subst e2. destruct (Hd1 Hl eq_refl) as [Hin Hc]. split.
    + apply list_elem_of_singleton in Hin as ->. left.
    + intros [Hc1 _]%clock_from_cons. by apply Hc.
  - destruct (Hd2 eq_refl Hl') as [Hin Hc]. split; [by right|]. intros [_ Hc2]%clock_from_cons. by apply Hc.
Qed.

(** Every loaded entry of a run from the start was loaded by a step of it. *)
Lemma run_loaded ss c c' id e : cache_inv c → cache_run ss c = Some c' → heap c' !! id = Some e → loaded e = true →
  CLoaded id (e_t e) (e_v e) ∈ ss ∨ heap c !! id = Some e.
Proof.
  revert c. induction ss as [|s ss IH]; intros c Hi; cbn [cache_run]; [intros [= <-]; by right|].
  destruct (cache_exec s c) as [c1|] eqn:E1; [|done]. cbn [mbind option_bind]. intros E He Hl.
  destruct (IH _ (proj1 (cache_exec_inv _ _ _ Hi E1)) E He Hl) as [Hin|He1]; [left; by right|].
  destruct s as [t key|id' t r|]; cbn [cache_exec] in E1.
  - injection E1 as <-. unfold get_entry in He1. destruct (closed c); [by right|].
    destruct (cleanup_inv t c Hi) as (_ & _ & Hh). destruct (needsReload _ _ _); cbn in He1; rewrite Hh in He1; [|by right].
    apply lookup_app_Some in He1 as [He1|[_ He1]]; [by right|].
    destruct (id - length (heap c))%nat as [|n]; cbn in He1; [|done]. by injection He1 as <-.
  - destruct (finish_load_inv _ _ _ _ _ Hi E1) as (_ & _ & _ & e0 & He0 & Hl0 & Hh). rewrite Hh in He1.
    destruct (decide (id' = id)) as [->|Hn]; [|right; by rewrite list_lookup_insert_ne in He1].
    rewrite list_lookup_insert_eq in He1 by (by eapply lookup_lt_Some). injection He1 as <-. left. left.
  - injection E1 as <-. by right.
Qed.

Lemma NewFnCache_inv c0 c : NewFnCache c0 = Ok c → cache_inv c ∧ heap c = [] ∧ 0 < TTL (cfg c) ∧ closed c = false.
Proof.
  unfold NewFnCache, Config_CheckAndSetDefaults. destruct (Z.leb_spec (TTL c0) 0); [done|]. intros [= <-]. cbn.
  split_and!; [split; cbn; done|done|by destruct (_ <=? 0)|done].
Qed.

(** C12: what a caller is given is what a load of its key gave, not longer ago than
    the time to live before it asked; and when errors are to be reloaded, an
    error is of a load that ended after it asked. *)
Theorem FnCache_fresh c0 c ss1 c1 now key id c2 ss2 c3 pick r :
  NewFnCache c0 = Ok c → cache_run ss1 c = Some c1 → get_entry now key c1 = (Ok id, c2) →
  cache_run ss2 c2 = Some c3 → clock_from now ss2 → closed c3 = false → get_wait id None pick c3 = Some r →
  (e_key <$> heap c3 !! id) = Some key ∧
  ∃ t, now ≤ t + TTL c0 ∧
    (CLoaded id t r ∈ ss2 ∨ CLoaded id t r ∈ ss1 ∧ (ReloadOnErr c0 = true → is_Ok r = true)).
Proof.
  intros E0 E1 Eg E2 Hclk Hc3 Hw. destruct (NewFnCache_inv _ _ E0) as (Hi & Hh & Hpos & _).
  assert (TTL (cfg c) = TTL c0 ∧ ReloadOnErr (cfg c) = ReloadOnErr c0) as [HT HR].
  { unfold NewFnCache, Config_CheckAndSetDefaults in E0. destruct (TTL c0 <=? 0); [done|]. injection E0 as <-. by destruct (_ <=? 0). }
  destruct (cache_run_inv _ _ _ Hi E1) as [Hi1 Hcfg1]. destruct (get_entry_inv _ _ _ _ _ Hi1 Eg) as (Hi2 & Hcfg2 & _ & Hp & Hcl & e & He & Hk & Hu).
  destruct (run_evolves now _ _ _ _ _ Hi2 E2 He) as (e' & He' & Hk' & Hl' & Hd'). rewrite He'. cbn. split; [congruence|].
  unfold get_wait, wait_cases in Hw. rewrite He', Hc3, !app_nil_r in Hw.
  destruct (loaded e') eqn:Hle'; [|by rewrite lookup_nil in Hw]. cbn in Hw. injection Hw as <-.
  exists (e_t e'). destruct (loaded e) eqn:Hle.
  - specialize (Hl' eq_refl). subst e'. destruct (Hu eq_refl) as [Hfresh Hre]. rewrite Hcfg2, Hcfg1, HT, HR in *. split; [done|]. right.
    split; [|done]. assert (heap c1 !! id = Some e) as He1.
    { clear Hp. unfold get_entry in Eg. destruct (closed c1); [done|]. destruct (cleanup_inv now c1 Hi1) as (_ & _ & Hhc).
      destruct (needsReload now key (cleanup now c1)); injection Eg as ? <-; cbn in He; rewrite Hhc in He; [|done].
      apply lookup_app_Some in He as [He|[_ He]]; [done|]. destruct (id - length (heap c1))%nat as [|n]; cbn in He; [|done].
      by injection He as <-. }
    destruct (run_loaded _ _ _ _ _ Hi E1 He1 Hle) as [?|Hno]; [done|]. rewrite Hh in Hno. by rewrite lookup_nil in Hno.
  - destruct (Hd' eq_refl eq_refl) as [Hin Hc]. specialize (Hc Hclk). rewrite HT in Hpos. split; [lia|]. by left.
Qed.

(** one load at a time: a caller that asks for a key whose load is under way
    shares it, whatever happened since, and starts none; so the entries that are
    loading have different keys. *)
Theorem FnCache_singleflight c0 c ss1 c1 now key id c2 ss2 c3 now' :
  NewFnCache c0 = Ok c → cache_run ss1 c = Some c1 → get_entry now key c1 = (Ok id, c2) →
  cache_run ss2 c2 = Some c3 → closed c3 = false → (loaded <$> heap c3 !! id) = Some false →
  (∃ c4, get_entry now' key c3 = (Ok id, c4) ∧ heap c4 = heap c3) ∧
  ∀ id' e, heap c3 !! id' = Some e → loaded e = false → e_key e = key → id' = id.
Proof.
  intros E0 E1 Eg E2 Hc Hl. destruct (NewFnCache_inv _ _ E0) as (Hi & _).
  destruct (cache_run_inv _ _ _ Hi E1) as [Hi1 _]. destruct (get_entry_inv _ _ _ _ _ Hi1 Eg) as (Hi2 & _ & _ & _ & _ & e & He & Hk & _).
  destruct (cache_run_inv _ _ _ Hi2 E2) as [Hi3 _]. destruct (run_evolves now _ _ _ _ _ Hi2 E2 He) as (e' & He' & Hk' & _).
  rewrite He' in Hl. injection Hl as Hl. rewrite Hk in Hk'. split.
  - destruct (cleanup_inv now' c3 Hi3) as (Hi4 & Hcfg & Hh). exists (cleanup now' c3). split; [|done].
    unfold get_entry, needsReload. rewrite Hc. rewrite <- Hh in He'. pose proof (inv_loading _ Hi4 _ _ He' Hl) as Hin.
    rewrite Hk' in Hin. by rewrite Hin, He', Hl.
  - intros id' e2 He2 Hl2 Hk2. pose proof (inv_loading _ Hi3 _ _ He2 Hl2) as Hin2. pose proof (inv_loading _ Hi3 _ _ He' Hl) as Hin.
    rewrite Hk' in Hin. rewrite Hk2 in Hin2. congruence.
Qed.
End cache.
Arguments cache_step : clear implicits.
Arguments FnCache K {_ _} V.

(** ** A concrete run *)

(** Two callers of "a" share a load; a third, after the time to live, starts
    another one. *)
Definition demo_config : FnCacheConfig := MkFnCacheConfig 10 true 0.
Definition demo_cache : FnCache string Z :=
  match NewFnCache demo_config with Ok c => c | Err _ => MkFnCache demo_config 0 ∅ [] true end.
Definition demo_first : list (cache_step string Z) := [CGet 0 "b"; CGet 1 "a"; CLoaded 1 2 (Ok 7)].
Definition after (ss : list (cache_step string Z)) (c : FnCache string Z) : FnCache string Z :=
  match cache_run ss c with Some c => c | None => c end.

Lemma FnCache_fresh_witness :
  let c1 := after demo_first demo_cache in
  let c2 := snd (get_entry 12 "a" c1) in
  let c3 := after [CGet 13 "a"; CLoaded 0 14 (Err ErrFnCacheClosed)] c2 in
  get_wait 1 None 0 c3 = Some (Ok 7) ∧
  (e_key <$> heap c3 !! 1%nat) = Some "a" ∧
  ∃ t, 12 ≤ t + TTL demo_config ∧
    (CLoaded 1 t (Ok 7) ∈ [CGet 13 "a"; CLoaded 0 14 (Err ErrFnCacheClosed)] ∨
     CLoaded 1 t (Ok 7) ∈ demo_first ∧ (ReloadOnErr demo_config = true → is_Ok (Ok 7) = true)).
Proof.
  cbv zeta. split; [vm_compute; reflexivity|].
  apply (FnCache_fresh demo_config demo_cache demo_first (after demo_first demo_cache) 12 "a" 1
    (snd (get_entry 12 "a" (after demo_first demo_cache))) [CGet 13 "a"; CLoaded 0 14 (Err ErrFnCacheClosed)]
    (after [CGet 13 "a"; CLoaded 0 14 (Err ErrFnCacheClosed)] (snd (get_entry 12 "a" (after demo_first demo_cache)))) 0 (Ok 7)).
  1-4: vm_compute; reflexivity.
  - cbn. lia.
  - vm_compute. reflexivity.
  - vm_compute. reflexivity.
Defined.

Lemma FnCache_singleflight_witness :
  let c1 := after [CGet 0 "b"] demo_cache in
  let c2 := snd (get_entry 1 "a" c1) in
  let c3 := after [CGet 50 "b"; CLoaded 0 60 (Ok 3); CGet 99 "c"] c2 in
  (∃ c4, get_entry 100 "a" c3 = (Ok 1%nat, c4) ∧ heap c4 = heap c3) ∧
  ∀ id' e, heap c3 !! id' = Some e → loaded e = false → e_key e = "a" → id' = 1%nat.
Proof.
  cbv zeta.
  apply (FnCache_singleflight demo_config demo_cache [CGet 0 "b"] (after [CGet 0 "b"] demo_cache) 1 "a" 1
    (snd (get_entry 1 "a" (after [CGet 0 "b"] demo_cache))) [CGet 50 "b"; CLoaded 0 60 (Ok 3); CGet 99 "c"]).
  all: vm_compute; reflexivity.
Defined.
