(* ===== verification/Semaphores.v ===== *)
(** * Semaphores (api/types/semaphore.go, lib/services/semaphore.go, lib/services/local/presence.go)

    A semaphore is a list of leases in one item of a backend. Clients on any
    server take, renew and give back leases with a compare-and-swap on the item;
    the item expires with the last of its leases. *)

From Stdlib Require Import Ascii String.
From S2P Require Import Prelude.
From S2P Require Import Retry.
From S2P Require Import Keys.
From S2P Require Import Backend.
From S2P Require Import Role.
Local Open Scope string_scope.

(** ** Semaphores and leases *)

Record SemaphoreLeaseRef := MkLeaseRef { ref_LeaseID : string; ref_Expires : Z; ref_Holder : string }.
Record Semaphore := MkSemaphore {
  sem_SubKind : string; sem_Metadata : Metadata; Leases : list SemaphoreLeaseRef
}.
Record SemaphoreLease := MkSemaphoreLease {
  ls_SemaphoreKind : string; ls_SemaphoreName : string; ls_LeaseID : string; ls_Expires : Z
}.
Record AcquireSemaphoreRequest := MkAcquireRequest {
  aq_SemaphoreKind : string; aq_SemaphoreName : string; aq_MaxLeases : Z; aq_Expires : Z; aq_Holder : string
}.
Record SemaphoreFilter := MkSemaphoreFilter { sf_SemaphoreKind : string; sf_SemaphoreName : string }.

Definition sem_Name (s : Semaphore) : string := md_Name (sem_Metadata s).
Definition Expiry (s : Semaphore) : Z := default zero_time (md_Expires (sem_Metadata s)).
Definition SetExpiry (expires : Z) (s : Semaphore) : Semaphore :=
  let m := sem_Metadata s in
  MkSemaphore (sem_SubKind s)
    (MkMetadata (md_Name m) (md_Namespace m) (md_Description m) (md_Labels m) (Some expires) (md_ID m)) (Leases s).
Definition SetLeases (leases : list SemaphoreLeaseRef) (s : Semaphore) : Semaphore :=
  MkSemaphore (sem_SubKind s) (sem_Metadata s) leases.

Definition Semaphore_CheckAndSetDefaults (s : Semaphore) : result Semaphore :=
  m ← Metadata_CheckAndSetDefaults (sem_Metadata s);
  let s := MkSemaphore (sem_SubKind s) m (Leases s) in
  if is_zero_time (Expiry s) then Err (Error BadParameter "set semaphore expiry time") else
  if String.eqb (sem_SubKind s) "" then Err (Error BadParameter "supply semaphore SubKind parameter") else Ok s.

Definition ConfigureSemaphore (s : AcquireSemaphoreRequest) : result Semaphore :=
  Semaphore_CheckAndSetDefaults
    (SetExpiry (aq_Expires s)
      (MkSemaphore (aq_SemaphoreKind s) (MkMetadata (aq_SemaphoreName s) "" "" ∅ None 0) [])).

Definition AcquireRequest_Check (s : AcquireSemaphoreRequest) : result unit :=
  if String.eqb (aq_SemaphoreKind s) "" then Err (Error BadParameter "missing parameter SemaphoreKind") else
  if String.eqb (aq_SemaphoreName s) "" then Err (Error BadParameter "missing parameter SemaphoreName") else
  if (aq_MaxLeases s =? 0)%Z then Err (Error BadParameter "missing parameter MaxLeases") else
  if is_zero_time (aq_Expires s) then Err (Error BadParameter "missing parameter Expires") else Ok ().
Definition Lease_CheckAndSetDefaults (l : SemaphoreLease) : result unit :=
  if String.eqb (ls_SemaphoreKind l) "" then Err (Error BadParameter "missing parameter SemaphoreKind") else
  if String.eqb (ls_SemaphoreName l) "" then Err (Error BadParameter "missing parameter SemaphoreName") else
  if String.eqb (ls_LeaseID l) "" then Err (Error BadParameter "missing parameter LeaseID") else
  if is_zero_time (ls_Expires l) then Err (Error BadParameter "missing lease expiry time") else Ok ().

Definition same_semaphore (kind name : string) (c : Semaphore) : bool :=
  String.eqb kind (sem_SubKind c) && String.eqb name (sem_Name c).
Definition has_lease (id : string) (leases : list SemaphoreLeaseRef) : bool :=
  existsb (fun ref => String.eqb (ref_LeaseID ref) id) leases.

Definition Contains (c : Semaphore) (lease : SemaphoreLease) : bool :=
  same_semaphore (ls_SemaphoreKind lease) (ls_SemaphoreName lease) c && has_lease (ls_LeaseID lease) (Leases c).

Definition leaseCount (c : Semaphore) : Z := Z.of_nat (length (Leases c)).
Definition Acquire (leaseID : string) (params : AcquireSemaphoreRequest) (c : Semaphore) :
    result (SemaphoreLease * Semaphore) :=
  if negb (same_semaphore (aq_SemaphoreKind params) (aq_SemaphoreName params) c)
  then Err (Error BadParameter "cannot acquire, params do not match") else
  if (leaseCount c >=? aq_MaxLeases params)%Z
  then Err (Error LimitExceeded "cannot acquire semaphore %s/%s (%s)") else
  if has_lease leaseID (Leases c) then Err (Error AlreadyExists "semaphore lease already exists: %q") else
  let c := if (aq_Expires params >? Expiry c)%Z then SetExpiry (aq_Expires params) c else c in
  Ok (MkSemaphoreLease (aq_SemaphoreKind params) (aq_SemaphoreName params) leaseID (aq_Expires params),
      SetLeases (Leases c ++ [MkLeaseRef leaseID (aq_Expires params) (aq_Holder params)])%list c).

(** The first lease of an identifier. *)
Fixpoint renew (id : string) (expires : Z) (leases : list SemaphoreLeaseRef) : list SemaphoreLeaseRef :=
  match leases with
  | [] => []
  | ref :: leases =>
      if String.eqb (ref_LeaseID ref) id then MkLeaseRef id expires (ref_Holder ref) :: leases
      else ref :: renew id expires leases
  end.
Fixpoint drop_lease (id : string) (leases : list SemaphoreLeaseRef) : list SemaphoreLeaseRef :=
  match leases with
  | [] => []
  | ref :: leases => if String.eqb (ref_LeaseID ref) id then leases else ref :: drop_lease id leases
  end.

Definition KeepAlive (lease : SemaphoreLease) (c : Semaphore) : result Semaphore :=
  if negb (same_semaphore (ls_SemaphoreKind lease) (ls_SemaphoreName lease) c)
  then Err (Error BadParameter "cannot keepalive, lease does not match") else
  if has_lease (ls_LeaseID lease) (Leases c) then
    let c := SetLeases (renew (ls_LeaseID lease) (ls_Expires lease) (Leases c)) c in
    Ok (if (ls_Expires lease >? Expiry c)%Z then SetExpiry (ls_Expires lease) c else c)
  else Err (Error NotFound "cannot keepalive, lease not found: %q").
Definition Cancel (lease : SemaphoreLease) (c : Semaphore) : result Semaphore :=
  if negb (same_semaphore (ls_SemaphoreKind lease) (ls_SemaphoreName lease) c)
  then Err (Error BadParameter "cannot cancel, lease does not match") else
  if has_lease (ls_LeaseID lease) (Leases c) then Ok (SetLeases (drop_lease (ls_LeaseID lease) (Leases c)) c)
  else Err (Error NotFound "cannot cancel, lease not found: %q").
Definition RemoveExpiredLeases (now : Z) (c : Semaphore) : Semaphore :=
  SetLeases (List.filter (fun lease => (ref_Expires lease >? now)%Z) (Leases c)) c.

Definition SemaphoreFilter_Match (f : SemaphoreFilter) (sem : Semaphore) : bool :=
  if negb (String.eqb (sf_SemaphoreKind f) "") && negb (String.eqb (sf_SemaphoreKind f) (sem_SubKind sem)) then false else
  if negb (String.eqb (sf_SemaphoreName f) "") && negb (String.eqb (sf_SemaphoreName f) (sem_Name sem)) then false else
  true.

(** ** Storage *)

(** The namespace of metadata is not part of the JSON; it is set again when a
    resource is read. *)
Definition without_namespace (s : Semaphore) : Semaphore :=
  let m := sem_Metadata s in
  MkSemaphore (sem_SubKind s)
    (MkMetadata (md_Name m) "" (md_Description m) (md_Labels m) (md_Expires m) (md_ID m)) (Leases s).
Class SemaphoreCodec `{Codec Semaphore} : Prop := {
  decode_semaphore : ∀ s, decode_json (encode_json s) = Ok (without_namespace s);
  encode_nonempty : ∀ s, encode_json s ≠ []
}.

Definition semaphoresPrefix : string := "semaphores".
Definition semaphoreKey (parts : list string) : bytes := Key (map bytes_of_string (semaphoresPrefix :: parts)).
Definition leaseRetryAttempts : nat := 6.

Section service.
Context `{Codec Semaphore} `{BackendLaws B}.

Definition UnmarshalSemaphore (bs : bytes) : result Semaphore :=
  if (length bs =? 0)%nat then Err (Error BadParameter "missing resource data") else
  match decode_json bs with
  | Err _ => Err (Error BadParameter "err")
  | Ok s => Semaphore_CheckAndSetDefaults s
  end.
(** The record identifier is not stored with the value. *)
Definition MarshalSemaphore (s : Semaphore) : result bytes :=
  s ← Semaphore_CheckAndSetDefaults s;
  let m := sem_Metadata s in
  Ok (encode_json (MkSemaphore (sem_SubKind s)
    (MkMetadata (md_Name m) (md_Namespace m) (md_Description m) (md_Labels m) (md_Expires m) 0) (Leases s))).

(** The item that replaces the one of a semaphore. *)
Definition item_of (key : bytes) (s : Semaphore) : result Item :=
  value ← MarshalSemaphore s; Ok (mkItem key value (Expiry s) 0 0).

(** A change of the semaphore in an item that was read, and the answer to it. *)
Definition swap {A} (now : Z) (key : bytes) (item : Item) (f : Semaphore → result (A * Semaphore)) : goM B (result A) :=
  match (sem ← UnmarshalSemaphore (it_Value item);
         '(a, sem) ← f sem;
         newItem ← item_of key sem;
         Ok (a, newItem)) with
  | Err e => mret (Err e)
  | Ok (a, newItem) =>
      r ← bk_CompareAndSwap now item newItem;
      mret (match r with Ok _ => Ok a | Err e => Err e end)
  end.
Definition no_answer (r : result Semaphore) : result (unit * Semaphore) := s ← r; Ok ((), s).

(** [clock] gives the readings of the clock one after another. *)
Definition acquire_from (now now' : Z) (key : bytes) (item : Item) (leaseID : string) (req : AcquireSemaphoreRequest) :
    goM B (result SemaphoreLease) :=
  swap now' key item (fun sem => Acquire leaseID req (RemoveExpiredLeases now sem)).
Definition acquireSemaphore (clock : nat → Z) (key : bytes) (leaseID : string) (req : AcquireSemaphoreRequest) :
    goM B (result SemaphoreLease) :=
  r ← bk_Get (clock 0%nat) key;
  match r with
  | Err e => mret (Err e)
  | Ok item => acquire_from (clock 1%nat) (clock 2%nat) key item leaseID req
  end.
Definition initSemaphore (now : Z) (key : bytes) (leaseID : string) (req : AcquireSemaphoreRequest) :
    goM B (result SemaphoreLease) :=
  match (sem ← ConfigureSemaphore req;
         '(lease, sem) ← Acquire leaseID req sem;
         item ← item_of key sem;
         Ok (lease, item)) with
  | Err e => mret (Err e)
  | Ok (lease, item) =>
      r ← bk_Create now item;
      mret (match r with Ok _ => Ok lease | Err e => Err e end)
  end.

Definition err_contention : error := Error LimitExceeded "too much contention on semaphore %s/%s".
(** [clock i] gives the readings of turn [i]; [wait i] is the backoff before it:
    other clients' calls, and the error of a cancelled context. *)
Fixpoint acquire_turns (attempts i : nat) (clock : nat → nat → Z) (wait : nat → goM B (option error)) (key : bytes)
    (leaseID : string) (req : AcquireSemaphoreRequest) : goM B (result SemaphoreLease) :=
  match attempts with
  | O => mret (Err err_contention)
  | S attempts =>
      c ← (if (0 <? i)%nat then wait i else mret None);
      match c with
      | Some e => mret (Err e)
      | None =>
          r ← acquireSemaphore (clock i) key leaseID req;
          match r with
          | Ok lease => mret (Ok lease)
          | Err e =>
              if has_kind NotFound e then
                r ← initSemaphore (clock i 3%nat) key leaseID req;
                match r with
                | Ok lease => mret (Ok lease)
                | Err e =>
                    if has_kind AlreadyExists e then acquire_turns attempts (S i) clock wait key leaseID req
                    else mret (Err e)
                end
              else if has_kind CompareFailed e then acquire_turns attempts (S i) clock wait key leaseID req
              else mret (Err e)
          end
      end
  end.
(** [leaseID] is the fresh identifier. *)
Definition AcquireSemaphore (now : Z) (clock : nat → nat → Z) (wait : nat → goM B (option error)) (leaseID : string)
    (req : AcquireSemaphoreRequest) : goM B (result SemaphoreLease) :=
  match AcquireRequest_Check req with
  | Err e => mret (Err e)
  | Ok _ =>
      if (aq_Expires req <? now)%Z then mret (Err (Error BadParameter "cannot acquire expired semaphore lease")) else
      acquire_turns leaseRetryAttempts 0 clock wait (semaphoreKey [aq_SemaphoreKind req; aq_SemaphoreName req]) leaseID req
  end.

Definition keepalive_from (now now' : Z) (key : bytes) (item : Item) (lease : SemaphoreLease) : goM B (result unit) :=
  r ← swap now' key item (fun sem => no_answer (KeepAlive lease (RemoveExpiredLeases now sem)));
  mret (match r with
        | Err e => Err (if has_kind CompareFailed e
                        then Error CompareFailed "semaphore %v/%v has been concurrently updated, try again" else e)
        | Ok _ => Ok ()
        end).
Definition lease_key (lease : SemaphoreLease) : bytes := semaphoreKey [ls_SemaphoreKind lease; ls_SemaphoreName lease].
Definition KeepAliveSemaphoreLease (now : Z) (clock : nat → Z) (lease : SemaphoreLease) : goM B (result unit) :=
  match Lease_CheckAndSetDefaults lease with
  | Err e => mret (Err e)
  | Ok _ =>
      if (ls_Expires lease <? now)%Z then mret (Err (Error BadParameter "lease %v has expired at %v")) else
      r ← bk_Get (clock 0%nat) (lease_key lease);
      match r with
      | Err e => mret (Err (if has_kind NotFound e
                            then Error NotFound "cannot keepalive, semaphore not found: %s/%s" else e))
      | Ok item => keepalive_from (clock 1%nat) (clock 2%nat) (lease_key lease) item lease
      end
  end.

Definition cancel_from (now : Z) (key : bytes) (item : Item) (lease : SemaphoreLease) : goM B (result unit) :=
  swap now key item (fun sem => no_answer (Cancel lease sem)).
Fixpoint cancel_turns (attempts i : nat) (clock : nat → nat → Z) (wait : nat → goM B (option error)) (lease : SemaphoreLease) :
    goM B (result unit) :=
  match attempts with
  | O => mret (Err err_contention)
  | S attempts =>
      c ← (if (0 <? i)%nat then wait i else mret None);
      match c with
      | Some e => mret (Err e)
      | None =>
          r ← bk_Get (clock i 0%nat) (lease_key lease);
          match r with
          | Err e => mret (Err e)
          | Ok item =>
              r ← cancel_from (clock i 1%nat) (lease_key lease) item lease;
              match r with
              | Ok _ => mret (Ok ())
              | Err e => if has_kind CompareFailed e then cancel_turns attempts (S i) clock wait lease else mret (Err e)
              end
          end
      end
  end.
Definition CancelSemaphoreLease (now : Z) (clock : nat → nat → Z) (wait : nat → goM B (option error)) (lease : SemaphoreLease) :
    goM B (result unit) :=
  match Lease_CheckAndSetDefaults lease with
  | Err e => mret (Err e)
  | Ok _ =>
      if (ls_Expires lease <? now)%Z then mret (Err (Error BadParameter "the lease %v has expired at %v")) else
      cancel_turns leaseRetryAttempts 0 clock wait lease
  end.

(** The semaphores of items that match: the first that does not decode fails. *)
Fixpoint matching_semaphores (filter : SemaphoreFilter) (items : list Item) : result (list Semaphore) :=
  match items with
  | [] => Ok []
  | item :: items =>
      sem ← UnmarshalSemaphore (it_Value item);
      rest ← matching_semaphores filter items;
      Ok (if SemaphoreFilter_Match filter sem then sem :: rest else rest)
  end.
Definition GetSemaphores (now : Z) (filter : SemaphoreFilter) : goM B (result (list Semaphore)) :=
  if negb (String.eqb (sf_SemaphoreKind filter) "") && negb (String.eqb (sf_SemaphoreName filter) "") then
    r ← bk_Get now (semaphoreKey [sf_SemaphoreKind filter; sf_SemaphoreName filter]);
    mret (match r with
          | Err e => if has_kind NotFound e then Ok [] else Err e
          | Ok item => matching_semaphores filter [item]
          end)
  else
    let startKey := semaphoreKey (if negb (String.eqb (sf_SemaphoreKind filter) "") then [sf_SemaphoreKind filter] else []) in
    r ← bk_GetRange now startKey (RangeEnd startKey) NoLimit;
    mret (match r with
          | Err e => if has_kind NotFound e then Ok [] else Err e
          | Ok items => matching_semaphores filter items
          end).
Definition DeleteSemaphore (now : Z) (filter : SemaphoreFilter) : goM B (result unit) :=
  if String.eqb (sf_SemaphoreKind filter) "" || String.eqb (sf_SemaphoreName filter) ""
  then mret (Err (Error BadParameter "semaphore kind and name must be specified for deletion"))
  else bk_Delete now (semaphoreKey [sf_SemaphoreKind filter; sf_SemaphoreName filter]).
End service.

(** ** Leases of a semaphore *)

Lemma has_lease_spec id leases : has_lease id leases = true ↔ ∃ ref, ref ∈ leases ∧ ref_LeaseID ref = id.
Proof.
  unfold has_lease. rewrite existsb_exists. split; intros (ref & Hr & E); exists ref.
  - apply String.eqb_eq in E. by rewrite <- list_elem_of_In in Hr.
  - rewrite <- list_elem_of_In. split; [done|]. by apply String.eqb_eq.
Qed.
Lemma renew_elem id e leases ref : ref ∈ renew id e leases →
  (ref_LeaseID ref = id ∧ ref_Expires ref = e) ∨ ref ∈ leases.
Proof.
  induction leases as [|r leases IH]; cbn [renew]; [by intros ?%elem_of_nil|].
  destruct (String.eqb_spec (ref_LeaseID r) id); rewrite !elem_of_cons; [|naive_solver].
  intros [->|?]; [by left|by right; right].
Qed.
Lemma renew_other id e leases ref : ref_LeaseID ref ≠ id → ref ∈ leases → ref ∈ renew id e leases.
Proof.
  intros Hne. induction leases as [|r leases IH]; cbn [renew]; [done|].
  destruct (String.eqb_spec (ref_LeaseID r) id); rewrite !elem_of_cons; naive_solver.
Qed.
Lemma renew_has id e leases : has_lease id leases = true →
  ∃ ref, ref ∈ renew id e leases ∧ ref_LeaseID ref = id ∧ ref_Expires ref = e.
Proof.
  induction leases as [|r leases IH]; cbn [has_lease existsb renew]; [done|].
  destruct (String.eqb_spec (ref_LeaseID r) id); cbn [orb].
  - intros _. eexists. split; [by left|done].
  - intros (ref & ? & ?)%IH. exists ref. split; [by right|done].
Qed.
Lemma renew_length id e leases : length (renew id e leases) = length leases.
Proof. induction leases as [|r leases IH]; cbn [renew]; [done|]. case_match; cbn; by rewrite ?IH. Qed.
Lemma drop_lease_elem id leases ref : ref ∈ drop_lease id leases → ref ∈ leases.
Proof.
  induction leases as [|r leases IH]; cbn [drop_lease]; [done|]. case_match; rewrite ?elem_of_cons; naive_solver.
Qed.
Lemma drop_lease_other id leases ref : ref_LeaseID ref ≠ id → ref ∈ leases → ref ∈ drop_lease id leases.
Proof.
  intros Hne. induction leases as [|r leases IH]; cbn [drop_lease]; [done|].
  destruct (String.eqb_spec (ref_LeaseID r) id); rewrite ?elem_of_cons; naive_solver.
Qed.
Lemma drop_lease_length id leases : (length (drop_lease id leases) ≤ length leases)%nat.
Proof. induction leases as [|r leases IH]; cbn [drop_lease]; [done|]. case_match; cbn; lia. Qed.
Lemma unexpired_elem now s ref :
  ref ∈ Leases (RemoveExpiredLeases now s) ↔ ref ∈ Leases s ∧ (now < ref_Expires ref)%Z.
Proof.
  cbn [RemoveExpiredLeases SetLeases Leases]. rewrite !list_elem_of_In, filter_In, Z.gtb_lt. done.
Qed.
Lemma Expiry_SetExpiry e s : Expiry (SetExpiry e s) = e.
Proof. done. Qed.

(** What the operations on a semaphore keep and change. *)
Lemma Acquire_Ok id req s l s' : Acquire id req s = Ok (l, s') ↔
  same_semaphore (aq_SemaphoreKind req) (aq_SemaphoreName req) s = true ∧
  (leaseCount s < aq_MaxLeases req)%Z ∧ has_lease id (Leases s) = false ∧
  l = MkSemaphoreLease (aq_SemaphoreKind req) (aq_SemaphoreName req) id (aq_Expires req) ∧
  s' = SetLeases (Leases s ++ [MkLeaseRef id (aq_Expires req) (aq_Holder req)])%list
    (if (aq_Expires req >? Expiry s)%Z then SetExpiry (aq_Expires req) s else s).
Proof.
  unfold Acquire. destruct (same_semaphore _ _ s); cbn [negb]; [|naive_solver].
  destruct (Z.geb_spec (leaseCount s) (aq_MaxLeases req)); [naive_solver lia|].
  destruct (has_lease id (Leases s)); [naive_solver|].
  assert (Leases (if (aq_Expires req >? Expiry s)%Z then SetExpiry (aq_Expires req) s else s) = Leases s) as ->
    by (by destruct (_ >? _)%Z).
  naive_solver lia.
Qed.
Lemma raised_expiry e s leases :
  Expiry (SetLeases leases (if (e >? Expiry s)%Z then SetExpiry e s else s)) = Z.max e (Expiry s).
Proof.
  change (Expiry (SetLeases leases ?x)) with (Expiry x).
  destruct (Z.gtb_spec e (Expiry s)); rewrite ?Expiry_SetExpiry; lia.
Qed.
Lemma KeepAlive_Ok l s s' : KeepAlive l s = Ok s' →
  has_lease (ls_LeaseID l) (Leases s) = true ∧
  Leases s' = renew (ls_LeaseID l) (ls_Expires l) (Leases s) ∧ Expiry s' = Z.max (ls_Expires l) (Expiry s).
Proof.
  unfold KeepAlive. destruct (negb _); [done|]. destruct (has_lease _ _); [|done]. intros [= <-].
  split; [done|]. split; [by destruct (_ >? _)%Z|].
  change (Expiry (SetLeases ?x s)) with (Expiry s).
  destruct (Z.gtb_spec (ls_Expires l) (Expiry s)); [rewrite Expiry_SetExpiry; lia|].
  change (Expiry s = Z.max (ls_Expires l) (Expiry s)). lia.
Qed.
Lemma Cancel_Ok l s s' : Cancel l s = Ok s' →
  Leases s' = drop_lease (ls_LeaseID l) (Leases s) ∧ Expiry s' = Expiry s.
Proof. unfold Cancel. destruct (negb _); [done|]. destruct (has_lease _ _); [|done]. by intros [= <-]. Qed.

Lemma Semaphore_Check_Ok s s' : Semaphore_CheckAndSetDefaults s = Ok s' ↔
  s' = MkSemaphore (sem_SubKind s) (metadata_defaults (sem_Metadata s)) (Leases s) ∧
  metadata_ok (sem_Metadata s) ∧ Expiry s ≠ zero_time ∧ sem_SubKind s ≠ "".
Proof.
  unfold Semaphore_CheckAndSetDefaults. rewrite result_bind_Ok. split.
  - intros (m & [Hm ->]%Metadata_ok & E). revert E. cbv zeta. unfold is_zero_time.
    change (Expiry (MkSemaphore _ (metadata_defaults (sem_Metadata s)) _)) with (Expiry s).
    destruct (Z.eqb_spec (Expiry s) zero_time); [done|].
    cbn [sem_SubKind]. destruct (String.eqb_spec (sem_SubKind s) ""); [done|]. by intros [= <-].
  - intros (-> & Hm & He & Hk). exists (metadata_defaults (sem_Metadata s)). split; [by apply Metadata_ok|].
    cbv zeta. unfold is_zero_time. change (Expiry (MkSemaphore _ (metadata_defaults (sem_Metadata s)) _)) with (Expiry s).
    apply Z.eqb_neq in He as ->. cbn [sem_SubKind]. by apply String.eqb_neq in Hk as ->.
Qed.

(** ** Leases in a store *)

Section store.
Context `{!Codec Semaphore} `{!SemaphoreCodec} `{BackendLaws B}.

Lemma item_of_spec key s i : item_of key s = Ok i →
  it_Key i = key ∧ it_Expires i = Expiry s ∧
  ∃ s', UnmarshalSemaphore (it_Value i) = Ok s' ∧ Leases s' = Leases s ∧ Expiry s' = Expiry s ∧
    sem_SubKind s' = sem_SubKind s ∧ sem_Name s' = sem_Name s.
Proof.
  unfold item_of, MarshalSemaphore. rewrite result_bind_Ok. intros (bs & E & [= <-]).
  apply result_bind_Ok in E as (s1 & [-> (Hm & He & Hk)]%Semaphore_Check_Ok & [= <-]).
  split; [done|]. split; [done|]. cbn [it_Value]. unfold UnmarshalSemaphore.
  destruct (_ =? 0)%nat eqn:El; [apply Nat.eqb_eq, length_zero_iff_nil in El; by apply encode_nonempty in El|].
  rewrite decode_semaphore. eexists. split; [apply Semaphore_Check_Ok; split; [reflexivity|]|done].
  split; [exact Hm|]. by split.
Qed.
Lemma item_of_total key s : metadata_ok (sem_Metadata s) → Expiry s ≠ zero_time → sem_SubKind s ≠ "" →
  ∃ i, item_of key s = Ok i.
Proof.
  intros Hm He Hk. unfold item_of, MarshalSemaphore.
  rewrite (proj2 (Semaphore_Check_Ok s _) (conj eq_refl (conj Hm (conj He Hk)))). cbn [mbind result_bind]. by eexists.
Qed.

(** A change through [swap]: an error before the call of the backend, or its
    compare-and-swap with what the change makes of the semaphore that was read. *)
Lemma swap_spec {A} now key item (f : Semaphore → result (A * Semaphore)) b :
  key ≠ [] → bk_inv b → it_Key item = key →
  runs (swap now key item f) b (fun r b' =>
    ((∃ e, r = Err e) ∧ (bk_view b' = bk_view b ∨ purged now (bk_view b) (bk_view b'))) ∨
    ∃ m cur s a s' new, purged now (bk_view b) m ∧ m !! key = Some cur ∧ it_Value cur = it_Value item ∧
      UnmarshalSemaphore (it_Value item) = Ok s ∧ f s = Ok (a, s') ∧ item_of key s' = Ok new ∧
      r = Ok a ∧ stored new m (bk_view b')).
Proof.
  intros Hk Hb Hi. unfold swap.
  assert (∀ e, runs (mret (Err e) : goM B (result A)) b (fun r b' =>
    ((∃ e, r = Err e) ∧ (bk_view b' = bk_view b ∨ purged now (bk_view b) (bk_view b'))) ∨
    ∃ m cur s a s' new, purged now (bk_view b) m ∧ m !! key = Some cur ∧ it_Value cur = it_Value item ∧
      UnmarshalSemaphore (it_Value item) = Ok s ∧ f s = Ok (a, s') ∧ item_of key s' = Ok new ∧
      r = Ok a ∧ stored new m (bk_view b'))) as Herr.
  { intros e. apply runs_ret; [done|]. left. split; [by eexists|by left]. }
  destruct (UnmarshalSemaphore (it_Value item)) as [s|e] eqn:Eu; [|apply Herr]. cbn [mbind result_bind].
  destruct (f s) as [[a s']|e] eqn:Ef; [|apply Herr]. cbn [mbind result_bind].
  destruct (item_of key s') as [new|e] eqn:En; [|apply Herr]. cbn [mbind result_bind].
  pose proof (item_of_spec _ _ _ En) as (Hkn & _).
  destruct (bk_CompareAndSwap_law now item new b Hb) as (r & b' & Hr & Hb' & Hs).
  eexists _, b'. rewrite goM_bind_unfold, Hr. split; [done|]. split; [done|].
  rewrite Hi, Hkn, bool_decide_eq_false_2, bool_decide_eq_true_2 in Hs by done. cbn [orb negb] in Hs.
  destruct Hs as (m & Hp & Hs). destruct (m !! key) as [cur|] eqn:Em.
  - case_bool_decide as Hv; destruct Hs as [-> Hs].
    + right. exists m, cur, s, a, s', new. split_and!; done.
    + left. split; [by eexists|]. right. by rewrite Hs.
  - destruct Hs as [-> Hs]. left. split; [by eexists|]. right. by rewrite Hs.
Qed.

(** Grants: the leases clients hold, with the expiry each was last given. *)
Abbreviation grants := (gmap string Z).
Definition unexpired (now : Z) (g : grants) : grants := filter (fun p => (now < p.2)%Z) g.

(** The store at [now] accounts for the grants of a semaphore of at most [N] leases. *)
Definition accounts (key : bytes) (N now : Z) (g : grants) (m : gmap bytes Item) : Prop :=
  match m !! key with
  | None => ∀ id e, g !! id = Some e → (e ≤ now)%Z
  | Some i =>
      ∃ s, UnmarshalSemaphore (it_Value i) = Ok s ∧ it_Expires i = Expiry s ∧ (leaseCount s ≤ N)%Z ∧
        (∀ ref, ref ∈ Leases s → (ref_Expires ref ≤ Expiry s)%Z) ∧
        ∀ id e, g !! id = Some e → (now < e)%Z →
          ∃ ref, ref ∈ Leases s ∧ ref_LeaseID ref = id ∧ ref_Expires ref = e
  end.

Lemma accounts_later key N now now' g m : (now ≤ now')%Z → accounts key N now g m → accounts key N now' g m.
Proof.
  unfold accounts. intros Hn. destruct (m !! key) as [i|].
  - intros (s & ? & ? & ? & ? & Hg). exists s. split_and!; [done..|]. intros id e Hid He. apply Hg; [done|lia].
  - intros Hg id e Hid. specialize (Hg id e Hid). lia.
Qed.
Lemma accounts_purged key N now g m m' : accounts key N now g m → purged now m m' → accounts key N now g m'.
Proof.
  unfold accounts. intros Hg Hp. destruct (m !! key) as [i|] eqn:Ei; last first.
  { by rewrite (purged_None _ _ _ _ Hp Ei). }
  destruct (m' !! key) as [j|] eqn:Ej.
  - destruct Hp as (Hsub & _). pose proof (lookup_weaken _ _ _ _ Ej Hsub). by simplify_eq.
  - destruct Hp as (_ & Hexp & _). destruct (Hexp _ _ Ei Ej) as [_ Hle].
    destruct Hg as (s & _ & Ex & _ & Hmax & Hg). intros id e Hid. destruct (decide (now < e)%Z) as [Hlt|]; [|lia].
    destruct (Hg id e Hid Hlt) as (ref & Hr & _ & <-). specialize (Hmax ref Hr). lia.
Qed.
(** A new semaphore is stored. *)
Lemma accounts_stored key N now g m m' s new :
  item_of key s = Ok new → stored new m m' → (leaseCount s ≤ N)%Z →
  (∀ ref, ref ∈ Leases s → (ref_Expires ref ≤ Expiry s)%Z) →
  (∀ id e, g !! id = Some e → (now < e)%Z → ∃ ref, ref ∈ Leases s ∧ ref_LeaseID ref = id ∧ ref_Expires ref = e) →
  accounts key N now g m'.
Proof.
  intros (Hk & Hx & s' & Hu & Hl & He & _)%item_of_spec [n ->] Hc Hmax Hg. unfold accounts.
  rewrite Hk, lookup_insert_eq. exists s'. cbn [with_ID it_Value it_Expires].
  unfold leaseCount in *. rewrite Hl, He. by split_and!.
Qed.

Lemma accounts_count key N now g m : (0 ≤ N)%Z → accounts key N now g m → (Z.of_nat (size (unexpired now g)) ≤ N)%Z.
Proof.
  intros HN. unfold accounts, unexpired. destruct (m !! key) as [i|].
  - intros (s & _ & _ & Hc & _ & Hg). unfold leaseCount in Hc.
    assert (size (filter (fun p : string * Z => (now < p.2)%Z) g) ≤ length (map ref_LeaseID (Leases s)))%nat as Hle;
      [|rewrite length_map in Hle; lia].
    rewrite <- size_dom. change (size ?X) with (length (elements X)). apply submseteq_length, NoDup_submseteq; [apply NoDup_elements|].
    intros id Hid%elem_of_elements%elem_of_dom. destruct Hid as (e & [Hid He]%map_lookup_filter_Some).
    destruct (Hg id e Hid He) as (ref & Hr & <- & _). by apply list_elem_of_fmap_2.
  - intros Hg. assert (filter (fun p : string * Z => (now < p.2)%Z) g = ∅) as ->.
    { apply map_empty. intros id. apply map_lookup_filter_None. right. intros e Hid. cbn. specialize (Hg id e Hid). lia. }
    rewrite map_size_empty. lia.
Qed.

(** The calls clients make on one semaphore, each after a read at any earlier time
    of an item that may be stale; nobody deletes it. *)
Inductive sem_action :=
  | SRead
  | SInit (leaseID : string) (req : AcquireSemaphoreRequest)
  | SAcquire (now : Z) (item : Item) (leaseID : string) (req : AcquireSemaphoreRequest)
  | SKeepAlive (now : Z) (item : Item) (lease : SemaphoreLease)
  | SCancel (item : Item) (lease : SemaphoreLease).

(** The leases that clients hold, and the limit of the last request that was granted. *)
Definition ledger : Type := (grants * Z)%type.
Definition granted (req : AcquireSemaphoreRequest) (r : result SemaphoreLease) (g : ledger) : ledger :=
  match r with Ok l => (<[ ls_LeaseID l := ls_Expires l ]> g.1, aq_MaxLeases req) | Err _ => g end.
(** A call and what it does to the leases clients hold. *)
Definition run_sem_action (key : bytes) (now' : Z) (a : sem_action) (g : ledger) : goM B ledger :=
  match a with
  | SRead => _ ← bk_Get now' key; mret g
  | SInit id req => r ← initSemaphore now' key id req; mret (granted req r g)
  | SAcquire now item id req => r ← acquire_from now now' key item id req; mret (granted req r g)
  | SKeepAlive now item l =>
      r ← keepalive_from now now' key item l;
      mret (match r with Ok _ => (<[ ls_LeaseID l := ls_Expires l ]> g.1, g.2) | Err _ => g end)
  | SCancel item l =>
      r ← cancel_from now' key item l;
      mret (match r with Ok _ => (delete (ls_LeaseID l) g.1, g.2) | Err _ => g end)
  end.
Fixpoint run_sem_actions (key : bytes) (acts : list (Z * sem_action)) (g : ledger) : goM B ledger :=
  match acts with
  | [] => mret g
  | (now', a) :: acts => g ← run_sem_action key now' a g; run_sem_actions key acts g
  end.

(** Items are read under the key, clocks before the call. *)
Definition action_ok (key : bytes) (now' : Z) (a : sem_action) : Prop :=
  match a with
  | SRead | SInit _ _ => True
  | SAcquire now item _ _ | SKeepAlive now item _ => (now ≤ now')%Z ∧ it_Key item = key
  | SCancel item _ => it_Key item = key
  end.
(** The actions come in the order of time, from [t] until [t']. *)
Fixpoint timed (key : bytes) (t : Z) (acts : list (Z * sem_action)) (t' : Z) : Prop :=
  match acts with
  | [] => (t ≤ t')%Z
  | (now', a) :: acts => (t ≤ now')%Z ∧ action_ok key now' a ∧ timed key now' acts t'
  end.

(** The store accounts for the leases that are held, under the last limit. *)
Definition books (key : bytes) (now : Z) (g : ledger) m : Prop := (0 ≤ g.2)%Z ∧ accounts key g.2 now g.1 m.
Lemma books_later key now now' g m : (now ≤ now')%Z → books key now g m → books key now' g m.
Proof. intros Hn [? ?]. split; [done|by eapply accounts_later]. Qed.
Lemma books_purged key now g m m' : books key now g m → purged now m m' → books key now g m'.
Proof. intros [? ?] Hp. split; [done|by eapply accounts_purged]. Qed.

(** What a semaphore has of the leases that are held. *)
Definition covers (s : Semaphore) (now' : Z) (g : ledger) : Prop :=
  (leaseCount s ≤ g.2)%Z ∧ (∀ ref, ref ∈ Leases s → (ref_Expires ref ≤ Expiry s)%Z) ∧
  ∀ id e, g.1 !! id = Some e → (now' < e)%Z → ∃ ref, ref ∈ Leases s ∧ ref_LeaseID ref = id ∧ ref_Expires ref = e.
Lemma books_stored key now g m m' s new :
  item_of key s = Ok new → stored new m m' → covers s now g → books key now g m'.
Proof.
  intros Hi Hst (Hc & He & Hg). split; [unfold leaseCount in Hc; lia|]. by eapply accounts_stored.
Qed.
(** A change by [f] keeps the account when what it makes of a semaphore does. *)
Definition keeps {A} (now' : Z) (f : Semaphore → result (A * Semaphore)) (upd : A → ledger → ledger) : Prop :=
  ∀ s a s' g, f s = Ok (a, s') → covers s now' g → covers s' now' (upd a g).

Lemma swap_accounts {A} key now' item (f : Semaphore → result (A * Semaphore)) upd g b :
  key ≠ [] → bk_inv b → it_Key item = key → keeps now' f upd → books key now' g (bk_view b) →
  runs (swap now' key item f) b (fun r b' =>
    books key now' (match r with Ok a => upd a g | Err _ => g end) (bk_view b')).
Proof.
  intros Hk Hb Hi Hf Hg. destruct (swap_spec now' key item f b Hk Hb Hi) as (r & b' & Hr & Hb' & Hs).
  exists r, b'. split; [done|]. split; [done|].
  destruct Hs as [[[e ->] [->|Hp]]|(m & cur & s & a & s' & new & Hp & Hm & Hv & Hu & Hfs & Hn & -> & Hst)]; [done| |].
  - by eapply books_purged.
  - pose proof (books_purged _ _ _ _ _ Hg Hp) as [_ Hg']. unfold accounts in Hg'. rewrite Hm in Hg'.
    destruct Hg' as (s0 & Hu0 & _ & Hc & Hmax & Hgr). rewrite Hv, Hu in Hu0. injection Hu0 as <-.
    eapply books_stored; [exact Hn|exact Hst|]. by apply (Hf s a s' g Hfs).
Qed.
Lemma runs_map {A C} (c : goM B A) (f : A → C) b (P : C → B → Prop) :
  runs c b (fun a b' => P (f a) b') → runs (a ← c; mret (f a)) b P.
Proof. intros Hc. eapply runs_bind; [exact Hc|]. intros a b' Hb' HP. by apply runs_ret. Qed.

(** A grant of a request leaves no more leases than the request allows. *)
Lemma Acquire_keeps now now' id req : (now ≤ now')%Z →
  keeps now' (fun s => Acquire id req (RemoveExpiredLeases now s)) (fun l g => granted req (Ok l) g).
Proof.
  intros Hn s l s' g (_ & Hc & _ & -> & ->)%Acquire_Ok (_ & Hmax & Hg). unfold covers.
  rewrite raised_expiry. cbn [granted fst snd leaseCount SetLeases Leases ls_LeaseID ls_Expires] in *. split.
  { unfold leaseCount in *. cbn [SetLeases Leases]. rewrite length_app. cbn [length RemoveExpiredLeases SetLeases Leases] in *. lia. }
  split.
  - intros ref [Hr| ->%list_elem_of_singleton]%elem_of_app; [|cbn; lia].
    apply unexpired_elem in Hr as [Hr _]. change (Expiry (RemoveExpiredLeases now s)) with (Expiry s).
    specialize (Hmax ref Hr). lia.
  - intros id' e. destruct (decide (id' = id)) as [->|Hne].
    + rewrite lookup_insert_eq. intros [= <-] _. eexists. split; [by apply elem_of_app; right; left|done].
    + rewrite lookup_insert_ne by done. intros Hid He. destruct (Hg id' e Hid He) as (ref & Hr & ? & ?).
      exists ref. split; [|done]. apply elem_of_app. left. apply unexpired_elem. split; [done|lia].
Qed.
Lemma KeepAlive_keeps now now' l : (now ≤ now')%Z →
  keeps now' (fun s => no_answer (KeepAlive l (RemoveExpiredLeases now s))) (fun _ g => (<[ ls_LeaseID l := ls_Expires l ]> g.1, g.2)).
Proof.
  intros Hn s [] s' g E (Hc & Hmax & Hg). unfold no_answer in E. apply result_bind_Ok in E as (s1 & E & [= ->]).
  apply KeepAlive_Ok in E as (Hh & El & Ee). unfold covers, leaseCount in *. cbn [fst snd]. rewrite El, renew_length, Ee.
  change (Expiry (RemoveExpiredLeases now s)) with (Expiry s). split.
  { cbn [RemoveExpiredLeases SetLeases Leases]. pose proof (filter_length_le (fun lease => (ref_Expires lease >? now)%Z) (Leases s)). lia. }
  split.
  - intros ref [[_ ->]|Hr]%renew_elem; [lia|]. apply unexpired_elem in Hr as [Hr _]. specialize (Hmax ref Hr). lia.
  - intros id e. destruct (decide (id = ls_LeaseID l)) as [->|Hne].
    + rewrite lookup_insert_eq. intros [= <-] _. by apply renew_has.
    + rewrite lookup_insert_ne by done. intros Hid He. destruct (Hg id e Hid He) as (ref & Hr & <- & ?).
      exists ref. split; [|done]. apply renew_other; [done|]. apply unexpired_elem. split; [done|lia].
Qed.
Lemma Cancel_keeps now' l :
  keeps now' (fun s => no_answer (Cancel l s)) (fun _ g => (delete (ls_LeaseID l) g.1, g.2)).
Proof.
  intros s [] s' g E (Hc & Hmax & Hg). unfold no_answer in E. apply result_bind_Ok in E as (s1 & E & [= ->]).
  apply Cancel_Ok in E as (El & Ee). unfold covers, leaseCount in *. cbn [fst snd]. rewrite El, Ee.
  pose proof (drop_lease_length (ls_LeaseID l) (Leases s)). split; [lia|]. split.
  - intros ref Hr%drop_lease_elem. by apply Hmax.
  - intros id e [Hne Hid]%lookup_delete_Some He. destruct (Hg id e Hid He) as (ref & Hr & <- & ?).
    exists ref. split; [|done]. by apply drop_lease_other.
Qed.

Lemma Configure_Ok req s : ConfigureSemaphore req = Ok s →
  Leases s = [] ∧ Expiry s = aq_Expires req ∧ sem_SubKind s = aq_SemaphoreKind req ∧ sem_Name s = aq_SemaphoreName req.
Proof. unfold ConfigureSemaphore. by intros [-> _]%Semaphore_Check_Ok. Qed.

Lemma initSemaphore_accounts key now' id req g b :
  key ≠ [] → bk_inv b → books key now' g (bk_view b) →
  runs (initSemaphore now' key id req) b (fun r b' => books key now' (granted req r g) (bk_view b')).
Proof.
  intros Hk Hb Hg. unfold initSemaphore.
  destruct (ConfigureSemaphore req) as [s|] eqn:Ec; [|by apply runs_ret]. cbn [mbind result_bind].
  destruct (Acquire id req s) as [[l s']|] eqn:Ea; [|by apply runs_ret]. cbn [mbind result_bind].
  destruct (item_of key s') as [new|] eqn:En; [|by apply runs_ret]. cbn [mbind result_bind].
  pose proof (item_of_spec _ _ _ En) as (Hkn & _).
  destruct (bk_Create_law now' new b Hb) as (r & b' & Hr & Hb' & Hs).
  eexists _, b'. rewrite goM_bind_unfold, Hr. split; [done|]. split; [done|].
  rewrite Hkn, bool_decide_eq_false_2 in Hs by done. destruct Hs as (m & Hp & Hs).
  pose proof (books_purged _ _ _ _ _ Hg Hp) as Hg'.
  destruct (m !! key) as [i|] eqn:Em; destruct Hs as [-> Hs]; [by rewrite Hs|].
  destruct Hg' as [_ Hg']. unfold accounts in Hg'. rewrite Em in Hg'. apply Configure_Ok in Ec as (El & Ee & _).
  apply Acquire_Ok in Ea as (_ & Hc & _ & -> & Es). unfold leaseCount in Hc. rewrite El in Hc. cbn [length] in Hc.
  eapply books_stored; [exact En|exact Hs|]. unfold covers. rewrite Es, ?raised_expiry. cbn [granted fst snd leaseCount SetLeases Leases]. rewrite ?El.
  split_and!.
  - unfold leaseCount. cbn. lia.
  - intros ref ->%list_elem_of_singleton. cbn. lia.
  - cbn [ls_LeaseID ls_Expires]. intros id' e. destruct (decide (id' = id)) as [->|Hne].
    + rewrite lookup_insert_eq. intros [= <-] _. eexists. split; [by left|done].
    + rewrite lookup_insert_ne by done. intros Hid He. specialize (Hg' id' e Hid). lia.
Qed.

Lemma run_sem_action_accounts key now' a g b :
  key ≠ [] → bk_inv b → action_ok key now' a → books key now' g (bk_view b) →
  runs (run_sem_action key now' a g) b (fun g' b' => books key now' g' (bk_view b')).
Proof.
  intros Hk Hb Ha Hg. destruct a as [|id req|now item id req|now item l|item l]; cbn [run_sem_action action_ok] in *.
  - apply runs_map. destruct (bk_Get_law now' key b Hb) as (r & b' & Hr & Hb' & Hs). exists r, b'.
    split; [done|]. split; [done|]. rewrite bool_decide_eq_false_2 in Hs by done. destruct Hs as (m & Hp & -> & _).
    by eapply books_purged.
  - apply runs_map. by apply initSemaphore_accounts.
  - destruct Ha as (Hn & Hi). apply runs_map.
    eapply runs_weaken; [exact (swap_accounts key now' item _ _ g b Hk Hb Hi (Acquire_keeps now now' id req Hn) Hg)|].
    by intros [] b'.
  - destruct Ha as (Hn & Hi). apply runs_map, runs_map.
    eapply runs_weaken; [exact (swap_accounts key now' item _ _ g b Hk Hb Hi (KeepAlive_keeps now now' l Hn) Hg)|].
    by intros [] b'.
  - apply runs_map. exact (swap_accounts key now' item _ _ g b Hk Hb Ha (Cancel_keeps now' l) Hg).
Qed.

(** C28: Whatever sequence of reads, acquisitions, renewals and cancellations the
    clients of a semaphore run against the store, each from an item that may be
    stale, no more leases are held unexpired than the last request that was granted
    allows. *)
Theorem semaphore_limit kind name t acts t' b :
  let key := semaphoreKey [kind; name] in
  bk_inv b → bk_view b !! key = None → timed key t acts t' →
  ∃ held limit b', run_sem_actions key acts (∅, 0%Z) b = Some ((held, limit), b') ∧ bk_inv b' ∧
    (Z.of_nat (size (unexpired t' held)) ≤ limit)%Z.
Proof.
  intros key Hb Hnone Ht.
  assert (key ≠ []) as Hk by done. clearbody key.
  assert (books key t (∅, 0%Z) (bk_view b)) as Hg by (split; [done|]; unfold accounts; by rewrite Hnone).
  clear Hnone. revert t b Hb Ht Hg. generalize ((∅, 0%Z) : ledger).
  induction acts as [|[now' a] acts IH]; intros g t b Hb Ht Hg; cbn [timed run_sem_actions] in *.
  - exists g.1, g.2, b. split; [by destruct g|]. split; [done|]. apply (books_later _ _ t') in Hg as [? ?]; [|done]. by eapply accounts_count.
  - destruct Ht as (Hle & Ha & Ht). apply (books_later _ _ now') in Hg; [|done].
    destruct (run_sem_action_accounts key now' a g b Hk Hb Ha Hg) as (g1 & b1 & Hr & Hb1 & Hg1).
    destruct (IH g1 now' b1 Hb1 Ht Hg1) as (g2 & N & b2 & Hr2 & ? & ?).
    exists g2, N, b2. split; [|done]. by rewrite goM_bind_unfold, Hr.
Qed.

(** *** Without interference *)

Definition sem_ok (s : Semaphore) : Prop := metadata_ok (sem_Metadata s) ∧ Expiry s ≠ zero_time ∧ sem_SubKind s ≠ "".
Lemma Unmarshal_sem_ok bs s : UnmarshalSemaphore bs = Ok s → sem_ok s.
Proof.
  unfold UnmarshalSemaphore. destruct (_ =? 0)%nat; [done|]. destruct (decode_json bs) as [s0|]; [|done].
  intros [-> (? & ? & ?)]%Semaphore_Check_Ok. by split_and!.
Qed.
Lemma Acquire_sem_ok id req s l s' : Acquire id req s = Ok (l, s') → aq_Expires req ≠ zero_time → sem_ok s → sem_ok s'.
Proof.
  intros (_ & _ & _ & _ & ->)%Acquire_Ok Hz (Hm & He & Hk). unfold sem_ok. rewrite raised_expiry.
  split; [by destruct (_ >? _)%Z|]. split; [|by destruct (_ >? _)%Z]. lia.
Qed.

(** A change of the semaphore that is stored succeeds or fails as the change does. *)
Lemma swap_held {A} now key i s (f : Semaphore → result (A * Semaphore)) b :
  key ≠ [] → bk_inv b → held key i b → ¬ expired now i → UnmarshalSemaphore (it_Value i) = Ok s →
  (∀ a s', f s = Ok (a, s') → sem_ok s') →
  runs (swap now key i f) b (fun r b' =>
    match f s with
    | Err e => r = Err e ∧ held key i b'
    | Ok (a, s') => r = Ok a ∧ ∃ n new, item_of key s' = Ok new ∧ held key (with_ID n new) b'
    end).
Proof.
  intros Hk Hb Hh Hne Hu Hf. unfold swap. rewrite Hu. cbn [mbind result_bind].
  destruct (f s) as [[a s']|e] eqn:Ef; cbn [mbind result_bind]; [|by apply runs_ret].
  destruct (Hf a s' eq_refl) as (Hm & He & Hs). destruct (item_of_total key s' Hm He Hs) as [new En].
  rewrite En. cbn [mbind result_bind]. pose proof (item_of_spec _ _ _ En) as (Hkn & _).
  pose proof (bk_view_keyed b Hb _ _ Hh) as Hki.
  destruct (bk_CompareAndSwap_law now i new b Hb) as (r & b' & Hr & Hb' & Hlaw).
  eexists _, b'. rewrite goM_bind_unfold, Hr. split; [done|]. split; [done|].
  rewrite Hki, Hkn, bool_decide_eq_false_2, bool_decide_eq_true_2 in Hlaw by done. cbn [orb negb] in Hlaw.
  destruct Hlaw as (m & Hp & Hlaw). rewrite (purged_keeps _ _ _ _ _ Hp Hh Hne), bool_decide_eq_true_2 in Hlaw by done.
  destruct Hlaw as [-> [n Hst]]. split; [done|]. exists n, new. split; [done|]. unfold held. by rewrite Hst, Hkn, lookup_insert_eq.
Qed.

(** An item of a semaphore with these leases and this expiry. *)
Definition holds (leases : list SemaphoreLeaseRef) (expires : Z) (i : Item) : Prop :=
  it_Expires i = expires ∧ ∃ s, UnmarshalSemaphore (it_Value i) = Ok s ∧ Leases s = leases ∧ Expiry s = expires.
Lemma item_of_holds key s i n : item_of key s = Ok i → holds (Leases s) (Expiry s) (with_ID n i).
Proof. intros (_ & He & s' & ? & ? & ? & _)%item_of_spec. split; [exact He|]. by exists s'. Qed.

Lemma AcquireRequest_Check_Ok req : AcquireRequest_Check req = Ok () ↔
  aq_SemaphoreKind req ≠ "" ∧ aq_SemaphoreName req ≠ "" ∧ aq_MaxLeases req ≠ 0%Z ∧ aq_Expires req ≠ zero_time.
Proof.
  unfold AcquireRequest_Check, is_zero_time.
  destruct (String.eqb_spec (aq_SemaphoreKind req) ""), (String.eqb_spec (aq_SemaphoreName req) ""),
    (Z.eqb_spec (aq_MaxLeases req) 0), (Z.eqb_spec (aq_Expires req) zero_time); naive_solver.
Qed.

Definition lease_for (id : string) (req : AcquireSemaphoreRequest) : SemaphoreLease :=
  MkSemaphoreLease (aq_SemaphoreKind req) (aq_SemaphoreName req) id (aq_Expires req).
Definition ref_for (id : string) (req : AcquireSemaphoreRequest) : SemaphoreLeaseRef :=
  MkLeaseRef id (aq_Expires req) (aq_Holder req).
(** What acquiring does to a semaphore whose leases in force are [leases]. *)
Definition acquired (key : bytes) (id : string) (req : AcquireSemaphoreRequest) (leases : list SemaphoreLeaseRef) (expiry : Z)
    (before : B → Prop) (r : result SemaphoreLease) (b : B) : Prop :=
  if decide (aq_MaxLeases req ≤ Z.of_nat (length leases))%Z
  then before b ∧ ∃ e, r = Err e ∧ err_kind e = LimitExceeded
  else if has_lease id leases then before b ∧ ∃ e, r = Err e ∧ err_kind e = AlreadyExists
  else r = Ok (lease_for id req) ∧ ∃ i, held key i b ∧ holds (leases ++ [ref_for id req])%list (Z.max (aq_Expires req) expiry) i.

Lemma Acquire_cases id req s :
  same_semaphore (aq_SemaphoreKind req) (aq_SemaphoreName req) s = true →
  if decide (aq_MaxLeases req ≤ Z.of_nat (length (Leases s)))%Z
  then ∃ e, Acquire id req s = Err e ∧ err_kind e = LimitExceeded
  else if has_lease id (Leases s) then ∃ e, Acquire id req s = Err e ∧ err_kind e = AlreadyExists
  else ∃ s', Acquire id req s = Ok (lease_for id req, s') ∧ Leases s' = (Leases s ++ [ref_for id req])%list ∧
    Expiry s' = Z.max (aq_Expires req) (Expiry s).
Proof.
  intros Hs. unfold Acquire, leaseCount. rewrite Hs. cbn [negb].
  destruct (Z.geb_spec (Z.of_nat (length (Leases s))) (aq_MaxLeases req)), (decide _); try lia; [by eexists|].
  destruct (has_lease id (Leases s)); [by eexists|]. eexists. split; [reflexivity|]. split; [|apply raised_expiry].
  cbn [SetLeases Leases]. by destruct (_ >? _)%Z.
Qed.

Lemma initSemaphore_spec now id req b :
  AcquireRequest_Check req = Ok () → bk_inv b →
  let key := semaphoreKey [aq_SemaphoreKind req; aq_SemaphoreName req] in
  bk_view b !! key = None →
  runs (initSemaphore now key id req) b (acquired key id req [] (aq_Expires req) (fun b' => bk_view b' !! key = None)).
Proof.
  intros (Hk & Hn & _ & He)%AcquireRequest_Check_Ok Hb key Hnone. assert (key ≠ []) as Hkey by done. clearbody key.
  unfold initSemaphore. destruct (ConfigureSemaphore req) as [s|] eqn:Ec; last first.
  { exfalso. unfold ConfigureSemaphore in Ec.
    erewrite (proj2 (Semaphore_Check_Ok _ _)) in Ec; [discriminate Ec|]. split; [reflexivity|].
    split; [|by split]. split; [exact Hn|]. split; [apply map_Forall_empty|]. left. reflexivity. }
  cbn [mbind result_bind].
  pose proof (Configure_Ok _ _ Ec) as (El & Ex & Esk & Esn).
  assert (same_semaphore (aq_SemaphoreKind req) (aq_SemaphoreName req) s = true) as Hs
    by (unfold same_semaphore; by rewrite Esk, Esn, !String.eqb_refl).
  pose proof (Acquire_cases id req s Hs) as Hc. unfold acquired. rewrite El in Hc. destruct (decide _).
  { destruct Hc as (e & -> & ?). cbn [mbind result_bind]. apply runs_ret; [done|]. split; [done|]. by eexists. }
  cbn [has_lease existsb] in *. destruct Hc as (s' & Ea & Es' & Ee'). rewrite Ea. cbn [mbind result_bind].
  assert (sem_ok s) as Hok by (unfold ConfigureSemaphore in Ec; by apply Semaphore_Check_Ok in Ec as [-> (? & ? & ?)]).
  destruct (Acquire_sem_ok _ _ _ _ _ Ea He Hok) as (Hm & Hz & Hk'). destruct (item_of_total key s' Hm Hz Hk') as [new En].
  rewrite En. cbn [mbind result_bind]. pose proof (item_of_spec _ _ _ En) as (Hkn & _).
  destruct (bk_Create_law now new b Hb) as (r & b' & Hr & Hb' & Hlaw).
  eexists _, b'. rewrite goM_bind_unfold, Hr. split; [done|]. split; [done|].
  rewrite Hkn, bool_decide_eq_false_2 in Hlaw by done. destruct Hlaw as (m & Hp & Hlaw).
  rewrite (purged_None _ _ _ _ Hp Hnone) in Hlaw. destruct Hlaw as [-> [num Hst]]. split; [done|].
  exists (with_ID num new). split; [unfold held; by rewrite Hst, Hkn, lookup_insert_eq|].
  rewrite Ex in Ee'. rewrite <- Ee'. change [ref_for id req] with ([] ++ [ref_for id req])%list. rewrite <- Es'. by eapply item_of_holds.
Qed.

Lemma acquireSemaphore_spec clock key id req i s b :
  key ≠ [] → aq_Expires req ≠ zero_time → bk_inv b → held key i b → ¬ expired (clock 0%nat) i → ¬ expired (clock 2%nat) i →
  UnmarshalSemaphore (it_Value i) = Ok s → same_semaphore (aq_SemaphoreKind req) (aq_SemaphoreName req) s = true →
  runs (acquireSemaphore clock key id req) b
    (acquired key id req (Leases (RemoveExpiredLeases (clock 1%nat) s)) (Expiry s) (held key i)).
Proof.
  intros Hkey Hz Hb Hh Hne Hne' Hu Hs. unfold acquireSemaphore.
  eapply runs_bind; [by apply Get_held|]. cbv beta. intros g b1 Hb1 (Hh1 & Hg & _). rewrite (Hg Hkey).
  set (s1 := RemoveExpiredLeases (clock 1%nat) s). assert (sem_ok s1) as Hok by exact (Unmarshal_sem_ok _ _ Hu).
  eapply runs_weaken.
  { eapply (swap_held _ _ _ s); [done..|]. intros a s' Ea. by eapply Acquire_sem_ok. }
  cbv beta. fold s1. intros r b2 Hr. pose proof (Acquire_cases id req s1 Hs) as Hcase. unfold acquired.
  destruct (decide _).
  { destruct Hcase as (e & Ea & ?). rewrite Ea in Hr. destruct Hr as [-> ?]. split; [done|]. by eexists. }
  destruct (has_lease id (Leases s1)).
  { destruct Hcase as (e & Ea & ?). rewrite Ea in Hr. destruct Hr as [-> ?]. split; [done|]. by eexists. }
  destruct Hcase as (s' & Ea & El & Ee). rewrite Ea in Hr. destruct Hr as [-> (num & new & En & Hh')]. split; [done|].
  exists (with_ID num new). split; [done|]. rewrite <- El. change (Expiry s) with (Expiry s1). rewrite <- Ee. by eapply item_of_holds.
Qed.
(** What an error can be. *)
Lemma acquired_error key id req leases expiry before e b :
  acquired key id req leases expiry before (Err e) b → err_kind e = LimitExceeded ∨ (leases ≠ [] ∧ err_kind e = AlreadyExists).
Proof.
  unfold acquired. destruct (decide _); [intros (_ & ? & [= <-] & ?); by left|].
  destruct (has_lease id leases) eqn:El; [|by intros [? _]]. intros (_ & ? & [= <-] & ?). right. split; [by intros ->|done].
Qed.

(** Without another write in between, acquiring settles in its first turn: it
    takes a lease when fewer than the greatest number are in force and keeps the
    rest, creates the semaphore when there is none, and otherwise fails and
    changes nothing; the semaphore then expires no earlier than any of its leases. *)
Theorem AcquireSemaphore_alone now clock wait id req b :
  AcquireRequest_Check req = Ok () → (now ≤ aq_Expires req)%Z → bk_inv b →
  let key := semaphoreKey [aq_SemaphoreKind req; aq_SemaphoreName req] in
  (bk_view b !! key = None →
   runs (AcquireSemaphore now clock wait id req) b
     (acquired key id req [] (aq_Expires req) (fun b' => bk_view b' !! key = None))) ∧
  (∀ i s, held key i b → ¬ expired (clock 0%nat 0%nat) i → ¬ expired (clock 0%nat 2%nat) i →
   UnmarshalSemaphore (it_Value i) = Ok s → same_semaphore (aq_SemaphoreKind req) (aq_SemaphoreName req) s = true →
   runs (AcquireSemaphore now clock wait id req) b
     (acquired key id req (Leases (RemoveExpiredLeases (clock 0%nat 1%nat) s)) (Expiry s) (held key i))).
Proof.
  intros Hc Hnow Hb key. unfold AcquireSemaphore. rewrite Hc. destruct (Z.ltb_spec (aq_Expires req) now); [lia|].
  fold key. unfold leaseRetryAttempts. cbn [acquire_turns]. cbn [Nat.ltb Nat.leb].
  assert (key ≠ []) as Hkey by done. split.
  - intros Hnone. apply runs_ret_bind.
    destruct (bk_Get_law (clock 0%nat 0%nat) key b Hb) as (r & b1 & Hr & Hb1 & Hs).
    rewrite bool_decide_eq_false_2 in Hs by done. destruct Hs as (m & Hp & Hv & ->).
    pose proof (purged_None _ _ _ _ Hp Hnone) as Hm. rewrite Hm in Hr. rewrite <- Hv in Hm.
    eapply (runs_bind _ _ _ (fun r b' => r = Err err_not_found ∧ b' = b1)).
    { unfold acquireSemaphore. exists (Err err_not_found), b1. split; [|done]. by rewrite goM_bind_unfold, Hr. }
    intros r b2 Hb2 [-> ->]. change (has_kind NotFound err_not_found) with true. cbv iota.
    eapply runs_bind; [by apply initSemaphore_spec|]. intros r b2 Hb2' Ha. destruct r as [l|e]; [by apply runs_ret|].
    destruct (acquired_error _ _ _ _ _ _ _ _ Ha) as [He|[? _]]; [|done].
    unfold has_kind. rewrite He, bool_decide_eq_false_2 by done. by apply runs_ret.
  - intros i s Hh Hne Hne' Hu Hs. apply runs_ret_bind.
    destruct (proj1 (AcquireRequest_Check_Ok req) Hc) as (_ & _ & _ & Hz).
    eapply runs_bind; [by apply acquireSemaphore_spec|]. intros r b1 Hb1 Ha. destruct r as [l|e]; [by apply runs_ret|].
    pose proof (acquired_error _ _ _ _ _ _ _ _ Ha) as He. unfold has_kind.
    rewrite !bool_decide_eq_false_2 by (by destruct He as [-> |[_ ->]]). by apply runs_ret.
Qed.
End store.
