(* ===== verification/SemaphoreLock.v ===== *)
(** * Semaphore locks (lib/services/semaphore.go)

    A lock holds one lease of a semaphore and renews it in the background until
    it is stopped, its context ends or the lease is lost; the lease is then given
    back. The service is an interface: a backend, or a client of a server. *)

From Stdlib Require Import String.
From S2P Require Import Prelude.
From S2P Require Import Retry.
From S2P Require Import Backend.
From S2P Require Import Semaphores.
Local Open Scope string_scope.

(** The service, over a state of its own. *)
Class SemaphoresService (T : Type) := {
  svc_Acquire : AcquireSemaphoreRequest → goM T (result SemaphoreLease);
  svc_KeepAlive : SemaphoreLease → goM T (result unit);
  svc_Cancel : SemaphoreLease → goM T (result unit)
}.

Record SemaphoreLockConfig := MkLockConfig { lk_Expiry : Z; lk_TickRate : Z; lk_Params : AcquireSemaphoreRequest }.
Definition SessionControlTimeout : Z := 2 * Minute.
Definition Millisecond : Z := 1000000.
(** The service is there; [now] is the time of a lease that has no expiry. *)
Definition LockConfig_CheckAndSetDefaults (now : Z) (l : SemaphoreLockConfig) : result SemaphoreLockConfig :=
  let expiry := if (lk_Expiry l =? 0)%Z then SessionControlTimeout else lk_Expiry l in
  if (expiry <? Millisecond)%Z then Err (Error BadParameter "sub-millisecond lease expiry is not supported: %v") else
  let rate := if (lk_TickRate l =? 0)%Z then (expiry ÷ 2)%Z else lk_TickRate l in
  if (rate >=? expiry)%Z then Err (Error BadParameter "tick-rate must be less than expiry") else
  let q := lk_Params l in
  let q := if is_zero_time (aq_Expires q)
           then MkAcquireRequest (aq_SemaphoreKind q) (aq_SemaphoreName q) (aq_MaxLeases q) (now + expiry) (aq_Holder q)
           else q in
  _ ← AcquireRequest_Check q;
  Ok (MkLockConfig expiry rate q).

Definition with_expiry (l : SemaphoreLease) (expires : Z) : SemaphoreLease :=
  MkSemaphoreLease (ls_SemaphoreKind l) (ls_SemaphoreName l) (ls_LeaseID l) expires.

(** What a [select] of the loop observes: the ticker, the delay of the retry, the
    deadline of the lease, the end of the context, or of the lock. *)
Inductive observed := Tick (t : Z) | RetryDelay | LeaseDone | ContextDone | Stopped.

(** Where the loop is: waiting for a tick, or with a renewal that failed. *)
Record renewing := MkRenewing { lease : SemaphoreLease; pending : option SemaphoreLease; last_error : option error }.
Record ended := MkEnded { end_lease : SemaphoreLease; nodrop : bool; end_error : option error }.

Section lock.
Context `{SemaphoresService T} `{Rng}.

(** One renewal: the loop goes on, or ends as the lease is gone. *)
Definition attempt (l next : SemaphoreLease) : goM T (renewing + ended) :=
  r ← svc_KeepAlive next;
  mret (match r with
        | Ok _ => inl (MkRenewing next None None)
        | Err e =>
            if has_kind NotFound e then inr (MkEnded l true (Some e)) else inl (MkRenewing l (Some next) (Some e))
        end).
Definition finish (s : renewing) : goM T (renewing + ended) := mret (inr (MkEnded (lease s) false (last_error s))).
Definition react (expiry : Z) (s : renewing) (o : observed) : goM T (renewing + ended) :=
  match pending s with
  | None =>
      match o with
      | Tick t => attempt (lease s) (with_expiry (lease s) (t + expiry))
      | ContextDone | Stopped => finish s
      | RetryDelay | LeaseDone => mret (inl s)
      end
  | Some next =>
      match o with
      | RetryDelay => attempt (lease s) next
      | Tick t => if negb (ls_Expires (lease s) >? t)%Z then finish s else attempt (lease s) next
      | LeaseDone | ContextDone | Stopped => finish s
      end
  end.
(** [None] is a loop that still runs after what was observed. *)
Fixpoint renew_loop (expiry : Z) (obs : list observed) (s : renewing) : goM T (option ended) :=
  match obs with
  | [] => mret None
  | o :: obs =>
      r ← react expiry s o;
      match r with
      | inl s => renew_loop expiry obs s
      | inr e => mret (Some e)
      end
  end.
(** The argument of the deferred [finish] is evaluated before the lease is given
    back: the result is the error of the loop. [now] is read at the end. *)
Definition keepAlive (expiry now : Z) (obs : list observed) (lease0 : SemaphoreLease) : goM T (option (option error)) :=
  e ← renew_loop expiry obs (MkRenewing lease0 None None);
  match e with
  | None => mret None
  | Some e =>
      if nodrop e then mret (Some (end_error e)) else
      if (ls_Expires (end_lease e) >? now)%Z then _ ← svc_Cancel (end_lease e); mret (Some (end_error e))
      else mret (Some (end_error e))
  end.

(** One round of a retry that asks for a lease: [permanent] tells the errors that
    end the retry; the clock and the context of a round are those of [Linear_For]. *)
Definition acquire_round (permanent : error → bool) (req : AcquireSemaphoreRequest) (rr : retry_round) :
    goM T (retry_round * option SemaphoreLease) :=
  r ← svc_Acquire req;
  let round o := mkRound o (rr_now_log rr) (rr_now_after rr) (rr_ctx_done rr) in
  mret (match r with
        | Ok l => (round RetrySuccess, Some l)
        | Err e => (round (if permanent e then RetryPermanent e else RetryTransient e), None)
        end).
(** The rounds up to the one that ends the retry. *)
Fixpoint acquire_rounds (permanent : error → bool) (req : AcquireSemaphoreRequest) (env : list retry_round) :
    goM T (list retry_round * option SemaphoreLease) :=
  match env with
  | [] => mret ([], None)
  | rr :: env =>
      '(rr, l) ← acquire_round permanent req rr;
      match rr_outcome rr, rr_ctx_done rr with
      | RetryTransient _, None => '(rrs, l) ← acquire_rounds permanent req env; mret (rr :: rrs, l)
      | _, _ => mret ([rr], l)
      end
  end.
(** [None] is a retry that still goes on when the rounds of [env] are over. *)
Definition AcquireSemaphoreWithRetry (permanent : error → bool) (cfg : LinearConfig) (req : AcquireSemaphoreRequest)
    (env : list retry_round) : goM T (option (result SemaphoreLease)) :=
  match NewLinear cfg with
  | Err e => mret (Some (Err e))
  | Ok retry =>
      '(env, l) ← acquire_rounds permanent req env;
      match Linear_For env retry with
      | None => go_panic
      | Some (None, _) => mret None
      | Some (Some (Some e), _) => mret (Some (Err e))
      | Some (Some None, _) =>
          match l with Some l => mret (Some (Ok l)) | None => go_panic end
      end
  end.

(** The configuration that is checked, and the lease to keep alive. *)
Definition AcquireSemaphoreLock (now : Z) (cfg : SemaphoreLockConfig) : goM T (result (SemaphoreLockConfig * SemaphoreLease)) :=
  match LockConfig_CheckAndSetDefaults now cfg with
  | Err e => mret (Err e)
  | Ok cfg =>
      match NewLinear (mkLinearConfig 0 (lk_Expiry cfg ÷ 16) (lk_Expiry cfg ÷ 4) NewJitter 0 None) with
      | Err e => mret (Err e)
      | Ok _ => r ← svc_Acquire (lk_Params cfg); mret (lease ← r; Ok (cfg, lease))
      end
  end.
End lock.

(** ** Theorems *)

Section theorems.
Context `{SemaphoresService T}.

(** A lease of [l0] whose expiry is that of [l0] or one interval after an observed tick. *)
Definition lease_ok (expiry : Z) (obs : list observed) (l0 l : SemaphoreLease) : Prop :=
  l = l0 ∨ ∃ t, Tick t ∈ obs ∧ l = with_expiry l0 (t + expiry).
Definition state_ok (expiry : Z) (seen : list observed) (l0 : SemaphoreLease) (s : renewing) : Prop :=
  lease_ok expiry seen l0 (lease s) ∧ (∀ next, pending s = Some next → lease_ok expiry seen l0 next) ∧
  (last_error s = None ↔ pending s = None).

Lemma lease_ok_more expiry seen o l0 l : lease_ok expiry seen l0 l → lease_ok expiry (seen ++ [o]) l0 l.
Proof. intros [?|(t & ? & ?)]; [by left|right; exists t; split; [by apply elem_of_app; left|done]]. Qed.
Lemma with_expiry_ok expiry seen l0 l t : lease_ok expiry seen l0 l →
  lease_ok expiry (seen ++ [Tick t]) l0 (with_expiry l (t + expiry)).
Proof.
  intros Hl. right. exists t. split; [by apply elem_of_app; right; left|]. by destruct Hl as [->|(? & _ & ->)].
Qed.
Definition outcome_ok (expiry : Z) (seen : list observed) (l0 : SemaphoreLease) (r : renewing + ended) : Prop :=
  match r with
  | inl s => state_ok expiry seen l0 s
  | inr e => lease_ok expiry seen l0 (end_lease e) ∧
      (nodrop e = true → ∃ err, end_error e = Some err ∧ err_kind err = NotFound)
  end.
Lemma attempt_ok expiry seen l0 l next x r x' : lease_ok expiry seen l0 l → lease_ok expiry seen l0 next →
  attempt l next x = Some (r, x') → outcome_ok expiry seen l0 r.
Proof.
  intros Hl Hn. unfold attempt. rewrite goM_bind_unfold. destruct (svc_KeepAlive next x) as [[[[]|e] x1]|]; [| |done].
  - intros [= <- _]. by split_and!.
  - unfold has_kind. case_bool_decide as Hk; intros [= <- _].
    + split; [done|]. by exists e.
    + split_and!; [done| |done]. by intros ? [= <-].
Qed.
Lemma react_ok expiry seen l0 s o x r x' : state_ok expiry seen l0 s → react expiry s o x = Some (r, x') →
  outcome_ok expiry (seen ++ [o]) l0 r.
Proof.
  intros (Hl & Hp & He). assert (state_ok expiry (seen ++ [o]) l0 s) as Hs.
  { split_and!; [by apply lease_ok_more|intros next ?; by apply lease_ok_more, Hp|done]. }
  assert (finish s x = Some (r, x') → outcome_ok expiry (seen ++ [o]) l0 r) as Hfin.
  { intros [= <- _]. split; [by apply lease_ok_more|done]. }
  unfold react. destruct (pending s) as [next|] eqn:Ep.
  - assert (lease_ok expiry (seen ++ [o]) l0 next) by (by apply lease_ok_more, Hp).
    destruct o; [destruct (negb _)|..]; try exact Hfin; apply attempt_ok; try done; by apply lease_ok_more.
  - destruct o; try exact Hfin.
    + apply attempt_ok; [by apply lease_ok_more|by apply with_expiry_ok].
    + by intros [= <- _].
    + by intros [= <- _].
Qed.

(** What the loop of renewals ends with: the lease it was given, renewed up to an
    interval after one of the ticks it saw; given up without being given back
    only when the service no longer knows it. *)
Lemma renew_loop_ok expiry obs seen l0 s x e x' : state_ok expiry seen l0 s →
  renew_loop expiry obs s x = Some (Some e, x') →
  lease_ok expiry (seen ++ obs) l0 (end_lease e) ∧
  (nodrop e = true → ∃ err, end_error e = Some err ∧ err_kind err = NotFound).
Proof.
  revert seen s x. induction obs as [|o obs IH]; intros seen s x Hs; cbn [renew_loop]; [done|].
  rewrite goM_bind_unfold. destruct (react expiry s o x) as [[r x1]|] eqn:Er; [|done].
  pose proof (react_ok _ _ _ _ _ _ _ _ Hs Er) as Hr. destruct r as [s'|e'].
  - intros E. change (o :: obs) with ([o] ++ obs)%list. rewrite app_assoc. by eapply IH.
  - intros [= <- _]. destruct Hr as (Hl & Hd). split; [|done].
    destruct Hl as [?|(t & Ht & ?)]; [by left|]. right. exists t. split; [|done].
    apply elem_of_app in Ht as [?| ->%list_elem_of_singleton]; apply elem_of_app; [by left|right; by left].
Qed.

(** The result of a lock is the error of its last renewal, if that failed: the
    error of giving the lease back is never reported. *)
Lemma keepAlive_result expiry now obs lease0 x r x' :
  keepAlive expiry now obs lease0 x = Some (Some r, x') →
  ∃ e x1, renew_loop expiry obs (MkRenewing lease0 None None) x = Some (Some e, x1) ∧ r = end_error e ∧
    (x' = x1 ∨ (nodrop e = false ∧ (now < ls_Expires (end_lease e))%Z ∧ ∃ c, svc_Cancel (end_lease e) x1 = Some (c, x'))).
Proof.
  unfold keepAlive. rewrite goM_bind_unfold. destruct (renew_loop _ _ _ x) as [[[e|] x1]|]; [|done..].
  destruct (nodrop e) eqn:Hn.
  { intros [= <- <-]. exists e, x1. split_and!; [done..|by left]. }
  destruct (Z.gtb_spec (ls_Expires (end_lease e)) now) as [Hlt|].
  - rewrite goM_bind_unfold. destruct (svc_Cancel (end_lease e) x1) as [[c x2]|] eqn:Ec; [|done].
    intros [= <- <-]. exists e, x1. split_and!; [done..|]. right. split_and!; [done..|]. by exists c.
  - intros [= <- <-]. exists e, x1. split_and!; [done..|by left].
Qed.
End theorems.
