(* ===== verification/Queue.v ===== *)
(** * The concurrent queue (lib/utils/concurrentqueue/queue.go)

    A pool of workers applies a function to the values pushed, and the results
    are popped in the order of the pushes. Goroutines take atomic steps on
    channels: [exec] is one step of one of them or of a client, in any
    interleaving. *)

From AAC_tactics Require Import AAC.
From AAC_tactics Require Instances.
From S2P Require Import Prelude.
Import Instances.Lists.
Local Open Scope Z_scope.

(** Lists up to the order of their elements, modulo [++]. *)
#[local] Instance Permutation_lift {A} : AAC_lift (@Permutation A) (@Permutation A).
Proof. constructor; apply _. Qed.
Ltac reorder :=
  repeat match goal with
    | |- context [?x :: ?l] => lazymatch l with [] => fail | _ => change (x :: l) with ([x] ++ l) end
    end;
  aac_reflexivity.

(** ** Configuration *)

Record config := MkConfig { workers : Z; capacity : Z; inputBuf : Z; outputBuf : Z }.
Definition Workers (w : Z) (cfg : config) : config := MkConfig w (capacity cfg) (inputBuf cfg) (outputBuf cfg).
Definition Capacity (c : Z) (cfg : config) : config := MkConfig (workers cfg) c (inputBuf cfg) (outputBuf cfg).
Definition InputBuf (b : Z) (cfg : config) : config := MkConfig (workers cfg) (capacity cfg) b (outputBuf cfg).
Definition OutputBuf (b : Z) (cfg : config) : config := MkConfig (workers cfg) (capacity cfg) (inputBuf cfg) b.

Definition defaultWorkers : Z := 4.
Definition defaultCapacity : Z := 64.
Definition queue_config (opts : list (config → config)) : config :=
  let cfg := fold_left (fun cfg opt => opt cfg) opts (MkConfig 0 0 0 0) in
  let cfg := if workers cfg <? 1 then Workers defaultWorkers cfg else cfg in
  let cfg := if capacity cfg <? 1 then Capacity defaultCapacity cfg else cfg in
  if capacity cfg <? workers cfg then Capacity (workers cfg) cfg else cfg.

(** ** State *)

Section queue.
Context {V W : Type} (workfn : V → W).

(** A work item carries the number of its arrival, of 64 bits. *)
Record item (X : Type) := MkItem { value : X; nonce : Z }.
Arguments MkItem {X} value nonce.
Arguments value {X} i.
Arguments nonce {X} i.

(** Where each goroutine is. *)
Inductive worker := WReceive | WWork (itm : item V) | WSend (itm : item W) | WStopped.
Inductive distributor := DAcquire | DReceive | DSend (v : V) | DStopped.
(** The output to be emitted, if any; [c_release] is between an emission and the
    removal from the semaphore channel. *)
Record collector := MkCollector {
  c_queue : gmap Z W; c_nonce : Z; c_out : option W; c_release : bool; c_stopped : bool
}.

Record Queue := MkQueue {
  q_cfg : config;
  q_input : list V; q_output : list W; q_done : bool;
  q_sem : Z; q_workerIn : list (item V); q_workerOut : list (item W);
  q_workers : list worker; q_distributor : distributor; d_nonce : Z; q_collector : collector
}.

(** [None] is the panic of [make] with a negative size. *)
Definition New (opts : list (config → config)) : option Queue :=
  let cfg := queue_config opts in
  if (inputBuf cfg <? 0) || (outputBuf cfg <? 0) then None else
  Some (MkQueue cfg [] [] false 0 [] [] (replicate (Z.to_nat (workers cfg)) WReceive) DAcquire 0
    (MkCollector ∅ 0 None false false)).

(** ** Steps *)

Inductive action :=
  | Push (v : V) | PushDirect (v : V) | Pop | PopDirect | Close
  | DistAcquire | DistReceive | DistSend | DistStop
  | WorkReceive (i : nat) | WorkRun (i : nat) | WorkSend (i : nat) | WorkStop (i : nat)
  | CollectReceive | CollectEmit | CollectRelease | CollectStop.

(** A step of a goroutine that is blocked, or elsewhere, does not happen. *)
Inductive step_result := Blocked | Panicked | Stepped (q : Queue) (popped : option W).

Definition room {X} (l : list X) (cap : Z) : bool := Z.of_nat (length l) <? cap.

Definition with_clients (input : list V) (output : list W) (done : bool) (q : Queue) : Queue :=
  MkQueue (q_cfg q) input output done (q_sem q) (q_workerIn q) (q_workerOut q) (q_workers q) (q_distributor q) (d_nonce q)
    (q_collector q).
Definition with_distributor (sem : Z) (input : list V) (workerIn : list (item V)) (d : distributor) (n : Z) (q : Queue) : Queue :=
  MkQueue (q_cfg q) input (q_output q) (q_done q) sem workerIn (q_workerOut q) (q_workers q) d n (q_collector q).
Definition with_workers (workerIn : list (item V)) (workerOut : list (item W)) (ws : list worker) (q : Queue) : Queue :=
  MkQueue (q_cfg q) (q_input q) (q_output q) (q_done q) (q_sem q) workerIn workerOut ws (q_distributor q) (d_nonce q) (q_collector q).
Definition with_collector (sem : Z) (output : list W) (workerOut : list (item W)) (c : collector) (q : Queue) : Queue :=
  MkQueue (q_cfg q) (q_input q) output (q_done q) sem (q_workerIn q) workerOut (q_workers q) (q_distributor q) (d_nonce q) c.

(** A value received for the output: it is the next one, or is kept. *)
Definition collect_item (itm : item W) (c : collector) : collector :=
  if nonce itm =? c_nonce c then MkCollector (c_queue c) (c_nonce c) (Some (value itm)) false false
  else MkCollector (<[ nonce itm := value itm ]> (c_queue c)) (c_nonce c) (c_out c) false false.
(** After an emission: the next output, if it is there. *)
Definition emitted (c : collector) : collector :=
  let n := u64 (c_nonce c + 1) in
  MkCollector (delete n (c_queue c)) n (c_queue c !! n) true false.

Definition step_distributor (a : action) (q : Queue) : step_result :=
  let cap := capacity (q_cfg q) in
  match a, q_distributor q with
  | DistAcquire, DAcquire =>
      if q_sem q <? cap then Stepped (with_distributor (q_sem q + 1) (q_input q) (q_workerIn q) DReceive (d_nonce q) q) None
      else Blocked
  | DistReceive, DReceive =>
      match q_input q with
      | [] => Blocked
      | v :: input => Stepped (with_distributor (q_sem q) input (q_workerIn q) (DSend v) (d_nonce q) q) None
      end
  | PushDirect v, DReceive =>
      match q_input q with
      | [] => Stepped (with_distributor (q_sem q) [] (q_workerIn q) (DSend v) (d_nonce q) q) None
      | _ => Blocked
      end
  | DistSend, DSend v =>
      if room (q_workerIn q) cap
      then Stepped (with_distributor (q_sem q) (q_input q) (q_workerIn q ++ [MkItem v (d_nonce q)]) DAcquire (u64 (d_nonce q + 1)) q) None
      else Panicked
  | DistStop, (DAcquire | DReceive) =>
      if q_done q then Stepped (with_distributor (q_sem q) (q_input q) (q_workerIn q) DStopped (d_nonce q) q) None else Blocked
  | _, _ => Blocked
  end.

Definition step_worker (a : action) (i : nat) (q : Queue) : step_result :=
  let set w := <[ i := w ]> (q_workers q) in
  match a, q_workers q !! i with
  | WorkReceive _, Some WReceive =>
      match q_workerIn q with
      | [] => Blocked
      | itm :: workerIn => Stepped (with_workers workerIn (q_workerOut q) (set (WWork itm)) q) None
      end
  | WorkRun _, Some (WWork itm) =>
      Stepped (with_workers (q_workerIn q) (q_workerOut q) (set (WSend (MkItem (workfn (value itm)) (nonce itm)))) q) None
  | WorkSend _, Some (WSend itm) =>
      if room (q_workerOut q) (capacity (q_cfg q))
      then Stepped (with_workers (q_workerIn q) (q_workerOut q ++ [itm]) (set WReceive) q) None
      else Panicked
  | WorkStop _, Some WReceive =>
      if q_done q then Stepped (with_workers (q_workerIn q) (q_workerOut q) (set WStopped) q) None else Blocked
  | _, _ => Blocked
  end.

Definition step_collector (a : action) (q : Queue) : step_result :=
  let c := q_collector q in
  if c_stopped c then Blocked else
  if c_release c then
    match a with
    | CollectRelease =>
        if 0 <? q_sem q
        then Stepped (with_collector (q_sem q - 1) (q_output q) (q_workerOut q)
               (MkCollector (c_queue c) (c_nonce c) (c_out c) false false) q) None
        else Panicked
    | _ => Blocked
    end
  else
    match a, c_out c with
    | CollectReceive, _ =>
        match q_workerOut q with
        | [] => Blocked
        | itm :: workerOut => Stepped (with_collector (q_sem q) (q_output q) workerOut (collect_item itm c) q) None
        end
    | CollectEmit, Some w =>
        if room (q_output q) (outputBuf (q_cfg q))
        then Stepped (with_collector (q_sem q) (q_output q ++ [w]) (q_workerOut q) (emitted c) q) None
        else Blocked
    | PopDirect, Some w =>
        match q_output q with
        | [] => Stepped (with_collector (q_sem q) [] (q_workerOut q) (emitted c) q) (Some w)
        | _ => Blocked
        end
    | CollectStop, _ =>
        if q_done q
        then Stepped (with_collector (q_sem q) (q_output q) (q_workerOut q)
               (MkCollector (c_queue c) (c_nonce c) (c_out c) false true) q) None
        else Blocked
    | _, _ => Blocked
    end.

(** A client sends into the buffer of the input, or to the distributor that
    waits at an empty one; and receives likewise. *)
Definition exec (a : action) (q : Queue) : step_result :=
  match a with
  | Push v =>
      if room (q_input q) (inputBuf (q_cfg q))
      then Stepped (with_clients (q_input q ++ [v]) (q_output q) (q_done q) q) None else Blocked
  | Pop =>
      match q_output q with
      | [] => Blocked
      | w :: output => Stepped (with_clients (q_input q) output (q_done q) q) (Some w)
      end
  | Close => Stepped (with_clients (q_input q) (q_output q) true q) None
  | PushDirect _ | DistAcquire | DistReceive | DistSend | DistStop => step_distributor a q
  | WorkReceive i | WorkRun i | WorkSend i | WorkStop i => step_worker a i q
  | PopDirect | CollectReceive | CollectEmit | CollectRelease | CollectStop => step_collector a q
  end.

(** A run: what was pushed and what was popped, in order. [None] is a panic, or a
    step that does not happen. *)
Definition pushed_by (a : action) : list V := match a with Push v | PushDirect v => [v] | _ => [] end.
Fixpoint run (acts : list action) (q : Queue) : option (Queue * list V * list W) :=
  match acts with
  | [] => Some (q, [], [])
  | a :: acts =>
      match exec a q with
      | Stepped q popped =>
          '(q, ins, outs) ← run acts q;
          Some (q, (pushed_by a ++ ins)%list, (option_list popped ++ outs)%list)
      | _ => None
      end
  end.

(** ** What is in flight *)

(** The items a goroutine or an inner channel has, each with what it leads to. *)
Definition worker_flight (w : worker) : list (Z * W) :=
  match w with
  | WWork itm => [(nonce itm, workfn (value itm))]
  | WSend itm => [(nonce itm, value itm)]
  | WReceive | WStopped => []
  end.
Definition distributor_flight (q : Queue) : list (Z * W) :=
  match q_distributor q with DSend v => [(d_nonce q, workfn v)] | _ => [] end.
Definition out_flight (c : collector) : list (Z * W) :=
  match c_out c with Some w => [(c_nonce c, w)] | None => [] end.
Definition flight (q : Queue) : list (Z * W) :=
  distributor_flight q ++ map (fun itm => (nonce itm, workfn (value itm))) (q_workerIn q) ++
  (q_workers q ≫= worker_flight) ++ map (fun itm => (nonce itm, value itm)) (q_workerOut q) ++
  map_to_list (c_queue (q_collector q)) ++ out_flight (q_collector q).

(** Results numbered from [j] on. *)
Fixpoint window (j : Z) (ws : list W) : list (Z * W) :=
  match ws with [] => [] | w :: ws => (u64 j, w) :: window (j + 1) ws end.

Lemma window_snoc j ws w : window j (ws ++ [w]) = window j ws ++ [(u64 (j + Z.of_nat (length ws)), w)].
Proof.
  revert j. induction ws as [|w' ws IH]; intros j; cbn [app window].
  - cbn [length]. by rewrite Z.add_0_r.
  - rewrite IH. cbn [app length]. by replace (j + Z.of_nat (S (length ws))) with (j + 1 + Z.of_nat (length ws)) by lia.
Qed.
Lemma window_length j ws : length (window j ws) = length ws.
Proof. revert j. induction ws as [|w ws IH]; intros j; cbn; by rewrite ?IH. Qed.
Lemma window_elem j ws n w : (n, w) ∈ window j ws → ∃ i, (0 ≤ i < Z.of_nat (length ws)) ∧ n = u64 (j + i).
Proof.
  revert j. induction ws as [|w' ws IH]; intros j; cbn [window]; [by intros ?%elem_of_nil|].
  intros [[= -> ->]|(i & Hi & ->)%IH]%elem_of_cons; cbn [length].
  - exists 0. split; [lia|]. by rewrite Z.add_0_r.
  - exists (i + 1). split; [lia|]. f_equal. lia.
Qed.
Lemma u64_inj a b : u64 a = u64 b → Z.abs (a - b) < 2 ^ 64 → a = b.
Proof.
  unfold wrap_u. change (2 ^ 64) with 18446744073709551616. intros E Hd.
  pose proof (Z.div_mod a 18446744073709551616). pose proof (Z.div_mod b 18446744073709551616). lia.
Qed.
(** Fewer items than numbers: each number is that of one item. *)
Lemma window_NoDup j ws : Z.of_nat (length ws) ≤ 2 ^ 64 → NoDup (window j ws).*1.
Proof.
  revert j. induction ws as [|w ws IH]; intros j Hl; cbn [window length] in *; [constructor|].
  cbn [fmap list_fmap]. constructor; [|apply IH; lia].
  intros ([n w'] & Hn & (i & Hi & Hni)%window_elem)%list_elem_of_fmap. cbn [fst] in Hn. rewrite Hni in Hn.
  apply u64_inj in Hn; lia.
Qed.

(** Setting a worker exchanges what it has in flight. *)
Lemma workers_set ws i w w' : ws !! i = Some w →
  (<[ i := w' ]> ws ≫= worker_flight) ++ worker_flight w ≡ₚ (ws ≫= worker_flight) ++ worker_flight w'.
Proof.
  revert i. induction ws as [|x ws IH]; intros i; [done|]. destruct i as [|i]; cbn.
  - intros [= ->]. rewrite (Permutation_app_comm (_ ++ _) (worker_flight w)), <- app_assoc. f_equiv.
    apply Permutation_app_comm.
  - intros Hi. rewrite <- !app_assoc. f_equiv. by apply IH.
Qed.

(** ** The invariant *)

(** [taken] are the values the distributor took, [j] how many results were
    emitted, [hold] the place in flight that the distributor holds for the next. *)
Record inv (q : Queue) (ins : list V) (outs : list W) (taken : list V) (j : nat) (hold : Z) : Prop := MkInv {
  inv_ins : ins = taken ++ q_input q;
  inv_j : (j ≤ length taken)%nat;
  inv_outs : outs ++ q_output q = take j (map workfn taken);
  inv_dnonce : d_nonce q = u64 (Z.of_nat (length taken) - match q_distributor q with DSend _ => 1 | _ => 0 end);
  inv_cnonce : c_nonce (q_collector q) = u64 (Z.of_nat j);
  inv_flight : flight q ≡ₚ window (Z.of_nat j) (drop j (map workfn taken));
  inv_sem : q_sem q = Z.of_nat (length taken) - Z.of_nat j + hold + (if c_release (q_collector q) then 1 else 0);
  inv_hold : match q_distributor q with DReceive => hold = 1 | DStopped => 0 ≤ hold | _ => hold = 0 end;
  inv_next : c_out (q_collector q) = None → c_queue (q_collector q) !! c_nonce (q_collector q) = None
}.
(** What holds of the configuration and of goroutines that have not been stopped. *)
Record shape (q : Queue) : Prop := MkShape {
  sh_sem : q_sem q ≤ capacity (q_cfg q);
  sh_cap : 1 ≤ capacity (q_cfg q) < 2 ^ 63;
  sh_input : Z.of_nat (length (q_input q)) ≤ Z.max 0 (inputBuf (q_cfg q));
  sh_output : Z.of_nat (length (q_output q)) ≤ Z.max 0 (outputBuf (q_cfg q));
  sh_workers : q_workers q ≠ [];
  sh_running : q_done q = false →
    q_distributor q ≠ DStopped ∧ c_stopped (q_collector q) = false ∧ WStopped ∉ q_workers q
}.

Lemma inv_hold_nonneg q ins outs taken j hold : inv q ins outs taken j hold → 0 ≤ hold.
Proof. intros H. pose proof (inv_hold _ _ _ _ _ _ H). case_match; lia. Qed.
Lemma u64_add a b : u64 (u64 a + b) = u64 (a + b).
Proof. unfold wrap_u. by rewrite Zplus_mod_idemp_l. Qed.

(** The numbers in flight are those of different items. *)
Lemma inv_NoDup q ins outs taken j hold : inv q ins outs taken j hold → shape q → NoDup (flight q).*1.
Proof.
  intros H Hs. rewrite (inv_flight _ _ _ _ _ _ H). apply window_NoDup. rewrite length_drop, length_map.
  pose proof (inv_sem _ _ _ _ _ _ H). pose proof (inv_hold_nonneg _ _ _ _ _ _ H). pose proof (sh_sem _ Hs).
  pose proof (sh_cap _ Hs). pose proof (inv_j _ _ _ _ _ _ H). destruct (c_release _); lia.
Qed.
(** At most [q_sem] items are in flight. *)
Lemma inv_flight_length q ins outs taken j hold : inv q ins outs taken j hold →
  Z.of_nat (length (flight q)) ≤ q_sem q.
Proof.
  intros H. rewrite (inv_flight _ _ _ _ _ _ H), window_length, length_drop, length_map.
  pose proof (inv_sem _ _ _ _ _ _ H). pose proof (inv_hold_nonneg _ _ _ _ _ _ H). pose proof (inv_j _ _ _ _ _ _ H).
  destruct (c_release _); lia.
Qed.
Lemma flight_length q : length (flight q) =
  (length (distributor_flight q) + length (q_workerIn q) + length (q_workers q ≫= worker_flight) +
   length (q_workerOut q) + size (c_queue (q_collector q)) + length (out_flight (q_collector q)))%nat.
Proof. unfold flight. rewrite !length_app, !length_map, length_map_to_list. lia. Qed.

Ltac flights := unfold flight, distributor_flight, out_flight in *; cbn in *.

Lemma take_value_inv q ins outs taken j hold v input : inv q ins outs taken j hold →
  q_distributor q = DReceive →
  inv (with_distributor (q_sem q) input (q_workerIn q) (DSend v) (d_nonce q) q)
    ((taken ++ [v]) ++ input) outs (taken ++ [v]) j 0.
Proof.
  intros H Hd. destruct H as [_ Hj Ho Hn Hc Hf Hs Hh Hx]. rewrite Hd in Hn, Hh.
  constructor; cbn; try done; rewrite ?length_app, ?map_app; cbn [length map].
  - lia.
  - rewrite take_app_le; [done|rewrite length_map; lia].
  - rewrite Hn. f_equal. lia.
  - rewrite drop_app_le by (rewrite length_map; lia). rewrite window_snoc, <- Hf. flights. rewrite Hd, Hn.
    rewrite length_drop, length_map. replace (Z.of_nat j + Z.of_nat (length taken - j)) with (Z.of_nat (length taken) - 0) by lia.
    reorder.
  - lia.
Qed.

(** The inner channels have room for what is in flight. *)
Lemma workerIn_room q ins outs taken j hold v : inv q ins outs taken j hold → shape q →
  q_distributor q = DSend v → room (q_workerIn q) (capacity (q_cfg q)) = true.
Proof.
  intros H Hs Hd. apply Z.ltb_lt. pose proof (inv_flight_length _ _ _ _ _ _ H) as Hl. pose proof (sh_sem _ Hs).
  rewrite flight_length in Hl. unfold distributor_flight in Hl. rewrite Hd in Hl. cbn [length] in Hl. lia.
Qed.
Lemma workerOut_room q ins outs taken j hold i itm : inv q ins outs taken j hold → shape q →
  q_workers q !! i = Some (WSend itm) → room (q_workerOut q) (capacity (q_cfg q)) = true.
Proof.
  intros H Hs Hw. apply Z.ltb_lt. pose proof (inv_flight_length _ _ _ _ _ _ H) as Hl. pose proof (sh_sem _ Hs).
  rewrite flight_length in Hl.
  assert (0 < length (q_workers q ≫= worker_flight))%nat; [|lia].
  pose proof (workers_set _ _ _ WReceive Hw) as Hp. apply Permutation_length in Hp. rewrite !length_app in Hp. cbn in Hp. lia.
Qed.

Lemma step_distributor_inv a q q' p ins outs taken j hold : inv q ins outs taken j hold → shape q →
  step_distributor a q = Stepped q' p →
  ∃ taken' j' hold', inv q' (ins ++ pushed_by a) (outs ++ option_list p) taken' j' hold'.
Proof.
  intros H Hs. unfold step_distributor.
  destruct a; try done; destruct (q_distributor q) eqn:Hd; try done; cbn [pushed_by].
  - destruct (q_input q) eqn:Ei; [|done]. intros [= <- <-]. cbn [option_list]. rewrite app_nil_r.
    exists (taken ++ [v]), j, 0. pose proof (inv_ins _ _ _ _ _ _ H) as ->. rewrite Ei, app_nil_r.
    rewrite <- (app_nil_r (taken ++ [v])). rewrite app_nil_r at 2. by apply (take_value_inv _ (taken ++ q_input q) _ _ _ hold).
  - destruct (q_sem q <? _); [|done]. intros [= <- <-]. cbn [option_list]. rewrite !app_nil_r.
    exists taken, j, (hold + 1). destruct H as [? ? ? Hn ? Hf Hm Hh ?]. rewrite Hd in Hn, Hh.
    constructor; cbn; try done; [|lia..]. rewrite <- Hf. flights. by rewrite Hd.
  - destruct (q_input q) as [|v input] eqn:Ei; [done|]. intros [= <- <-]. cbn [option_list]. rewrite !app_nil_r.
    exists (taken ++ [v]), j, 0. pose proof (inv_ins _ _ _ _ _ _ H) as ->. rewrite Ei.
    replace (taken ++ v :: input) with ((taken ++ [v]) ++ input) by (by rewrite <- app_assoc).
    by apply (take_value_inv _ (taken ++ q_input q) _ _ _ hold).
  - rewrite (workerIn_room _ _ _ _ _ _ _ H Hs Hd). intros [= <- <-]. cbn [option_list]. rewrite !app_nil_r.
    exists taken, j, hold. destruct H as [? ? ? Hn ? Hf Hm Hh ?]. rewrite Hd in Hn, Hh.
    constructor; cbn; try done.
    + rewrite Hn, u64_add. f_equal. lia.
    + rewrite <- Hf. flights. rewrite Hd, map_app. cbn [map value nonce]. reorder.
  - destruct (q_done q); [|done]. intros [= <- <-]. cbn [option_list]. rewrite !app_nil_r.
    exists taken, j, hold. destruct H as [? ? ? Hn ? Hf Hm Hh ?]. rewrite Hd in Hn, Hh.
    constructor; cbn; try done; [|lia]. rewrite <- Hf. flights. by rewrite Hd.
  - destruct (q_done q); [|done]. intros [= <- <-]. cbn [option_list]. rewrite !app_nil_r.
    exists taken, j, hold. destruct H as [? ? ? Hn ? Hf Hm Hh ?]. rewrite Hd in Hn, Hh.
    constructor; cbn; try done; [|lia]. rewrite <- Hf. flights. by rewrite Hd.
Qed.

(** A worker that exchanges what it has with its channels. *)
Lemma set_worker_inv q ins outs taken j hold i w w' workerIn workerOut :
  inv q ins outs taken j hold → q_workers q !! i = Some w →
  map (fun itm => (nonce itm, workfn (value itm))) workerIn ++ worker_flight w' ++
    map (fun itm => (nonce itm, value itm)) workerOut ≡ₚ
  map (fun itm => (nonce itm, workfn (value itm))) (q_workerIn q) ++ worker_flight w ++
    map (fun itm => (nonce itm, value itm)) (q_workerOut q) →
  inv (with_workers workerIn workerOut (<[ i := w' ]> (q_workers q)) q) ins outs taken j hold.
Proof.
  intros H Hw Hp. destruct H as [? ? ? ? ? Hf ? ? ?]. constructor; cbn; try done.
  rewrite <- Hf. pose proof (workers_set _ _ _ w' Hw) as Hx.
  apply (Permutation_app_inv_r (worker_flight w)). apply (Permutation_app_inv_r (worker_flight w')).
  unfold flight, distributor_flight. cbn [with_workers q_distributor d_nonce q_workerIn q_workers q_workerOut q_collector].
  set (ws' := <[i:=w']> (q_workers q) ≫= worker_flight) in *. set (ws := q_workers q ≫= worker_flight) in *.
  set (ins1 := map _ workerIn) in *. set (outs1 := map _ workerOut) in *.
  transitivity ((ins1 ++ worker_flight w' ++ outs1) ++ (ws' ++ worker_flight w) ++ distributor_flight q ++
    map_to_list (c_queue (q_collector q)) ++ out_flight (q_collector q)).
  - unfold distributor_flight. reorder.
  - rewrite Hp, Hx. unfold distributor_flight. reorder.
Qed.

Lemma step_worker_inv a i q q' p ins outs taken j hold : inv q ins outs taken j hold → shape q →
  step_worker a i q = Stepped q' p → pushed_by a = [] →
  ∃ taken' j' hold', inv q' (ins ++ pushed_by a) (outs ++ option_list p) taken' j' hold'.
Proof.
  intros H Hs E Hpush. rewrite Hpush, app_nil_r. exists taken, j, hold. revert E. unfold step_worker.
  pose proof (fun workerIn workerOut w w' => set_worker_inv q ins outs taken j hold i w w' workerIn workerOut H) as Hset.
  destruct a; try done; destruct (q_workers q !! i) as [[|itm|itm|]|] eqn:Hw; try done.
  - destruct (q_workerIn q) as [|itm workerIn] eqn:Ei; [done|]. intros [= <- <-]. cbn [option_list]. rewrite app_nil_r.
    apply (Hset _ _ _ _ eq_refl). cbn [map worker_flight]. reorder.
  - intros [= <- <-]. cbn [option_list]. rewrite app_nil_r. apply (Hset _ _ _ _ eq_refl). done.
  - rewrite (workerOut_room _ _ _ _ _ _ _ _ H Hs Hw). intros [= <- <-]. cbn [option_list]. rewrite app_nil_r.
    apply (Hset _ _ _ _ eq_refl). rewrite map_app. cbn [map worker_flight]. reorder.
  - destruct (q_done q); [|done]. intros [= <- <-]. cbn [option_list]. rewrite app_nil_r. by apply (Hset _ _ _ _ eq_refl).
Qed.

(** What the collector has in flight. *)
Definition collector_flight (c : collector) : list (Z * W) := map_to_list (c_queue c) ++ out_flight c.
Lemma flight_collector q : flight q ≡ₚ collector_flight (q_collector q) ++ distributor_flight q ++
  map (fun itm => (nonce itm, workfn (value itm))) (q_workerIn q) ++ (q_workers q ≫= worker_flight) ++
  map (fun itm => (nonce itm, value itm)) (q_workerOut q).
Proof. unfold flight, collector_flight. reorder. Qed.

Lemma collect_item_flight itm c : nonce itm ∉ (collector_flight c).*1 →
  collector_flight (collect_item itm c) ≡ₚ (nonce itm, value itm) :: collector_flight c.
Proof.
  unfold collector_flight, collect_item, out_flight. rewrite fmap_app, not_elem_of_app. intros [Hq Ho].
  destruct (Z.eqb_spec (nonce itm) (c_nonce c)) as [E|Hne]; cbn [c_queue c_out c_nonce].
  - destruct (c_out c); [destruct Ho; rewrite E; left|]. rewrite E, app_nil_r. apply Permutation_app_comm.
  - rewrite map_to_list_insert; [done|]. apply not_elem_of_dom. intros (w & Hw)%elem_of_dom. apply Hq.
    apply list_elem_of_fmap. exists (nonce itm, w). split; [done|]. by apply elem_of_map_to_list.
Qed.
Lemma emitted_flight c w : c_out c = Some w →
  collector_flight c ≡ₚ (c_nonce c, w) :: collector_flight (emitted c).
Proof.
  unfold collector_flight, emitted, out_flight. intros ->. cbn [c_queue c_out c_nonce].
  destruct (c_queue c !! u64 (c_nonce c + 1)) as [w'|] eqn:E.
  - rewrite <- (map_to_list_delete _ _ _ E). reorder.
  - rewrite delete_id by done. reorder.
Qed.
(** The first of a window, among numbers that are all different. *)
Lemma window_head j ws w l : (u64 j, w) :: l ≡ₚ window j ws → NoDup (window j ws).*1 →
  ∃ rest, ws = w :: rest ∧ l ≡ₚ window (j + 1) rest.
Proof.
  destruct ws as [|w' rest]; cbn [window]; [intros Hp%Permutation_nil_r; discriminate|].
  intros Hp Hn. assert ((u64 j, w) ∈ (u64 j, w') :: window (j + 1) rest) as Hin by (rewrite <- Hp; left).
  apply elem_of_cons in Hin as [[= ->]|Hin]; [exists rest; split; [done|]; by apply Permutation_cons_inv in Hp|].
  cbn in Hn. apply NoDup_cons in Hn as [Hni _]. destruct Hni. apply list_elem_of_fmap. by exists (u64 j, w).
Qed.

Lemma emit_inv q ins outs taken j hold w output : inv q ins outs taken j hold → shape q →
  c_release (q_collector q) = false → c_out (q_collector q) = Some w →
  take (S j) (map workfn taken) = take j (map workfn taken) ++ [w] ∧
    ∀ outs', outs' ++ output = take (S j) (map workfn taken) →
    inv (with_collector (q_sem q) output (q_workerOut q) (emitted (q_collector q)) q) ins outs' taken (S j) hold.
Proof.
  intros H Hs Hr Hw. pose proof (inv_NoDup _ _ _ _ _ _ H Hs) as Hn. destruct H as [? Hj ? ? Hc Hf Hm ? ?].
  rewrite Hf in Hn. rewrite Hr in Hm.
  assert ((u64 (Z.of_nat j), w) :: collector_flight (emitted (q_collector q)) ++ distributor_flight q ++
    map (fun itm => (nonce itm, workfn (value itm))) (q_workerIn q) ++ (q_workers q ≫= worker_flight) ++
    map (fun itm => (nonce itm, value itm)) (q_workerOut q) ≡ₚ window (Z.of_nat j) (drop j (map workfn taken))) as Hp.
  { rewrite <- Hf, flight_collector, (emitted_flight _ _ Hw), Hc. done. }
  destruct (window_head _ _ _ _ Hp Hn) as (rest & Ed & Hp').
  assert (map workfn taken !! j = Some w) as Hl by (rewrite <- (Nat.add_0_r j), <- lookup_drop, Ed; done).
  split; [by apply take_S_r|]. intros outs' Ho. constructor; cbn; try done.
  - apply lookup_lt_Some in Hl. rewrite length_map in Hl. lia.
  - rewrite Hc, u64_add. f_equal. lia.
  - rewrite flight_collector. replace (Z.of_nat (S j)) with (Z.of_nat j + 1) by lia.
    replace (drop (S j) (map workfn taken)) with rest; [exact Hp'|].
    rewrite <- Nat.add_1_r, <- drop_drop, Ed. done.
  - lia.
  - intros _. apply lookup_delete_eq.
Qed.

Lemma step_collector_inv a q q' p ins outs taken j hold : inv q ins outs taken j hold → shape q →
  step_collector a q = Stepped q' p → pushed_by a = [] →
  ∃ taken' j' hold', inv q' (ins ++ pushed_by a) (outs ++ option_list p) taken' j' hold'.
Proof.
  intros H Hs E Hpush. rewrite Hpush, app_nil_r. revert E. unfold step_collector.
  destruct (c_stopped (q_collector q)); [done|]. destruct (c_release (q_collector q)) eqn:Hr.
  { destruct a; try done. destruct (0 <? q_sem q); [|done]. intros [= <- <-]. cbn [option_list]. rewrite app_nil_r.
    exists taken, j, hold. destruct H as [? ? ? ? ? Hf Hm ? ?]. rewrite Hr in Hm. constructor; cbn; try done. lia. }
  destruct a; try done.
  - destruct (c_out (q_collector q)) as [w|] eqn:Hw; [|done]. destruct (q_output q) eqn:Eo; [|done]. intros [= <- <-].
    destruct (emit_inv _ _ _ _ _ _ w [] H Hs Hr Hw) as [Ht Hi]. exists taken, (S j), hold. apply Hi.
    rewrite Ht, <- (inv_outs _ _ _ _ _ _ H), Eo. by rewrite !app_nil_r.
  - destruct (q_workerOut q) as [|itm workerOut] eqn:Eo; [done|]. intros [= <- <-]. cbn [option_list]. rewrite app_nil_r.
    exists taken, j, hold. pose proof (inv_NoDup _ _ _ _ _ _ H Hs) as Hn. destruct H as [? ? ? ? Hc Hf Hm ? Hx]. rewrite Hr in Hm.
    assert (nonce itm ∉ (collector_flight (q_collector q)).*1) as Hni.
    { rewrite flight_collector, Eo in Hn. cbn [map] in Hn. rewrite fmap_app in Hn. apply NoDup_app in Hn as (_ & Hn & _).
      intros Hin. apply (Hn _ Hin). rewrite !fmap_app. apply elem_of_app. right. apply elem_of_app. right.
      apply elem_of_app. right. left. }
    assert (c_nonce (collect_item itm (q_collector q)) = c_nonce (q_collector q) ∧
      c_release (collect_item itm (q_collector q)) = false) as [En Er] by (unfold collect_item; by destruct (_ =? _)).
    constructor; cbn; try done; [by rewrite En| |by rewrite Er|].
    + rewrite <- Hf, !flight_collector. cbn [with_collector q_collector q_workerIn q_workers q_workerOut].
      rewrite (collect_item_flight _ _ Hni), Eo. cbn [map]. unfold distributor_flight. cbn [with_collector q_distributor d_nonce]. reorder.
    + rewrite En. unfold collect_item. destruct (Z.eqb_spec (nonce itm) (c_nonce (q_collector q))) as [|Hne]; [done|].
      cbn [c_out c_queue]. intros Ho. rewrite lookup_insert_ne by done. by apply Hx.
  - destruct (c_out (q_collector q)) as [w|] eqn:Hw; [|done]. destruct (room _ _); [|done]. intros [= <- <-]. cbn [option_list].
    destruct (emit_inv _ _ _ _ _ _ w (q_output q ++ [w]) H Hs Hr Hw) as [Ht Hi]. exists taken, (S j), hold.
    rewrite app_nil_r. apply Hi. by rewrite Ht, <- (inv_outs _ _ _ _ _ _ H), app_assoc.
  - destruct (q_done q); [|done]. intros [= <- <-]. cbn [option_list]. rewrite app_nil_r.
    exists taken, j, hold. destruct H as [? ? ? ? ? Hf Hm ? ?]. rewrite Hr in Hm. by constructor.
Qed.

Lemma exec_inv a q q' p ins outs taken j hold : inv q ins outs taken j hold → shape q → exec a q = Stepped q' p →
  ∃ taken' j' hold', inv q' (ins ++ pushed_by a) (outs ++ option_list p) taken' j' hold'.
Proof.
  intros H Hs E. destruct a; cbn [exec] in E;
    try (by eapply step_distributor_inv); try (by eapply step_worker_inv); try (by eapply step_collector_inv).
  - destruct (room _ _); [|done]. injection E as <- <-. cbn [pushed_by option_list]. rewrite app_nil_r.
    exists taken, j, hold. destruct H as [-> ? ? ? ? ? ? ? ?]. constructor; cbn; try done. by rewrite <- app_assoc.
  - destruct (q_output q) as [|w output] eqn:Eo; [done|]. injection E as <- <-. cbn [pushed_by option_list]. rewrite app_nil_r.
    exists taken, j, hold. destruct H as [? ? Ho ? ? ? ? ? ?]. constructor; cbn; try done. by rewrite <- Ho, Eo, <- app_assoc.
  - injection E as <- <-. cbn [pushed_by option_list]. rewrite !app_nil_r. exists taken, j, hold.
    destruct H. by constructor.
Qed.

Lemma exec_shape a q q' p : shape q → exec a q = Stepped q' p → shape q'.
Proof.
  intros [Hsem Hcap Hin Hout Hw Hrun]. unfold exec, step_distributor, step_worker, step_collector, room.
  assert (∀ i w, <[ i := w ]> (q_workers q) ≠ []) as Hne.
  { intros i w E. apply (f_equal length) in E. rewrite length_insert in E. by destruct (q_workers q). }
  assert (∀ i w, w ≠ WStopped → q_done q = false → WStopped ∉ <[ i := w ]> (q_workers q)) as Hst.
  { intros i w Hx Hd [k Hk]%list_elem_of_lookup. destruct (Hrun Hd) as (_ & _ & Hnw). apply Hnw.
    apply list_lookup_insert_Some in Hk as [(_ & ? & _)|[_ Hk]]; [done|]. by eapply list_elem_of_lookup_2. }
  intros E. destruct a; repeat (case_match; try discriminate E); injection E as <- <-; to_prop; cbn [length] in *;
    constructor; cbn; rewrite ?length_app; cbn [length]; try done; try lia;
    intros Hd; try congruence; destruct (Hrun Hd) as (? & ? & ?); split_and!; try done; try congruence; try (by apply Hst);
    unfold collect_item; by case_match.
Qed.

Lemma exec_no_panic a q ins outs taken j hold : inv q ins outs taken j hold → shape q → exec a q ≠ Panicked.
Proof.
  intros H Hs. destruct a; cbn [exec]; unfold step_distributor, step_worker, step_collector;
    try (repeat case_match; discriminate).
  - destruct (q_distributor q) eqn:Hd; try done. by rewrite (workerIn_room _ _ _ _ _ _ _ H Hs Hd).
  - destruct (q_workers q !! i) as [[|itm|itm|]|] eqn:Hw; try done.
    by rewrite (workerOut_room _ _ _ _ _ _ _ _ H Hs Hw).
  - destruct (c_stopped _); [done|]. destruct (c_release (q_collector q)) eqn:Hr; [|by destruct (c_out (q_collector q))].
    pose proof (inv_sem _ _ _ _ _ _ H) as Hm. rewrite Hr in Hm. pose proof (inv_hold_nonneg _ _ _ _ _ _ H).
    pose proof (inv_j _ _ _ _ _ _ H). destruct (Z.ltb_spec 0 (q_sem q)); [done|lia].
Qed.
Lemma exec_cfg a q q' p : exec a q = Stepped q' p → q_cfg q' = q_cfg q.
Proof.
  unfold exec, step_distributor, step_worker, step_collector. intros E.
  destruct a; repeat (case_match; try discriminate E); by injection E as <- <-.
Qed.
Lemma run_cfg acts q q' ins outs : run acts q = Some (q', ins, outs) → q_cfg q' = q_cfg q.
Proof.
  revert q ins outs. induction acts as [|a acts IH]; intros q ins outs; cbn [run]; [by intros [= <- <- <-]|].
  destruct (exec a q) as [| |q1 p] eqn:E; [done..|]. destruct (run acts q1) as [[[q2 ins2] outs2]|] eqn:Er; [|done].
  intros [= <- <- <-]. rewrite (IH _ _ _ Er). by eapply exec_cfg.
Qed.

Lemma run_inv acts q q' ins outs ins' outs' taken j hold : inv q ins outs taken j hold → shape q →
  run acts q = Some (q', ins', outs') →
  shape q' ∧ ∃ taken' j' hold', inv q' (ins ++ ins') (outs ++ outs') taken' j' hold'.
Proof.
  revert q ins outs ins' outs' taken j hold. induction acts as [|a acts IH]; intros q ins outs ins' outs' taken j hold H Hs; cbn [run].
  { intros [= <- <- <-]. rewrite !app_nil_r. split; [done|]. by exists taken, j, hold. }
  destruct (exec a q) as [| |q1 p] eqn:E; [done..|]. destruct (run acts q1) as [[[q2 ins2] outs2]|] eqn:Er; [|done].
  intros [= <- <- <-]. destruct (exec_inv _ _ _ _ _ _ _ _ _ H Hs E) as (t & k & h & H1).
  rewrite !app_assoc. eapply IH; [exact H1|by eapply exec_shape|exact Er].
Qed.

Lemma queue_config_ok opts : 1 ≤ workers (queue_config opts) ≤ capacity (queue_config opts).
Proof.
  unfold queue_config, defaultWorkers, defaultCapacity. destruct (fold_left _ opts _) as [w c i o]. cbv zeta.
  unfold Workers, Capacity. cbn.
  destruct (Z.ltb_spec w 1), (Z.ltb_spec c 1); cbn; repeat (case_match; to_prop; cbn in *); lia.
Qed.

(** A queue that was made and used. *)
Lemma New_queue_inv opts q : New opts = Some q → capacity (queue_config opts) < 2 ^ 63 → shape q ∧ inv q [] [] [] 0 0.
Proof.
  unfold New. destruct (_ || _) eqn:Eb; [done|]. intros [= <-] Hc. apply orb_false_iff in Eb as [?%Z.ltb_ge ?%Z.ltb_ge].
  destruct (queue_config_ok opts) as [? ?].
  split.
  - constructor; cbn; try lia.
    + intros E. apply (f_equal length) in E. rewrite length_replicate in E. cbn in E. lia.
    + intros _. split_and!; [done|done|]. by intros [? _]%elem_of_replicate.
  - constructor; cbn; try done; try lia. unfold flight. cbn.
    assert (∀ n, replicate n WReceive ≫= worker_flight = []) as -> by (by induction n). done.
Qed.

(** C13: In any interleaving of clients and goroutines, closed or not, no channel
    is ever full or empty against what the code relies on, and what is popped is
    what the function makes of what was pushed, in that order; no more values
    are taken than fit the buffers and the capacity. *)
Theorem queue_order opts q acts q' ins outs :
  New opts = Some q → capacity (queue_config opts) < 2 ^ 63 → run acts q = Some (q', ins, outs) →
  (∀ a, exec a q' ≠ Panicked) ∧
  (outs ++ q_output q') `prefix_of` map workfn ins ∧
  Z.of_nat (length ins) ≤ Z.of_nat (length outs) +
    inputBuf (queue_config opts) + capacity (queue_config opts) + outputBuf (queue_config opts).
Proof.
  intros Hq Hc Hr. destruct (New_queue_inv _ _ Hq Hc) as [Hs H]. pose proof (run_cfg _ _ _ _ _ Hr) as Ecfg.
  destruct (run_inv _ _ _ _ _ _ _ _ _ _ H Hs Hr) as [Hs' (taken & j & hold & H')]. cbn [app] in H'.
  split; [intros a; by eapply exec_no_panic|]. split.
  - rewrite (inv_outs _ _ _ _ _ _ H'), (inv_ins _ _ _ _ _ _ H'), map_app. apply prefix_app_r, prefix_take.
  - pose proof (inv_sem _ _ _ _ _ _ H'). pose proof (inv_hold_nonneg _ _ _ _ _ _ H'). pose proof (inv_j _ _ _ _ _ _ H').
    pose proof (inv_outs _ _ _ _ _ _ H') as Ho. apply (f_equal length) in Ho. rewrite length_app, length_take, length_map in Ho.
    rewrite (inv_ins _ _ _ _ _ _ H'), length_app. destruct Hs' as [Hsem _ Hin Hout _ _]. rewrite Ecfg in *.
    unfold New in Hq. destruct (_ || _) eqn:Eb; [done|]. injection Hq as <-. cbn [q_cfg] in *.
    apply orb_false_iff in Eb as [?%Z.ltb_ge ?%Z.ltb_ge]. destruct (c_release _); lia.
Qed.

(** ** Delivery *)

(** What goroutines and the consumer do of their own: not a push, nor what comes
    with closing. *)
Definition work (a : action) : Prop :=
  match a with
  | Push _ | PushDirect _ | Close | DistStop | WorkStop _ | CollectStop => False
  | _ => True
  end.

Definition worker_weight (w : worker) : nat := match w with WWork _ => 6 | WSend _ => 5 | WReceive | WStopped => 0 end.
(** How many steps what is in the queue can still make. *)
Definition weight (q : Queue) : nat :=
  (10 * length (q_input q) + match q_distributor q with DAcquire => 1 | DSend _ => 9 | DReceive | DStopped => 0 end +
   7 * length (q_workerIn q) + sum_list_with worker_weight (q_workers q) + 4 * length (q_workerOut q) +
   3 * size (c_queue (q_collector q)) + match c_out (q_collector q) with Some _ => 3 | None => 0 end +
   (if c_release (q_collector q) then 1 else 0) + length (q_output q))%nat.

Lemma sum_set ws i w w' : ws !! i = Some w →
  (sum_list_with worker_weight (<[ i := w' ]> ws) + worker_weight w = sum_list_with worker_weight ws + worker_weight w')%nat.
Proof.
  revert i. induction ws as [|x ws IH]; intros i; [done|]. destruct i as [|i]; cbn -[worker_weight]; [intros [= ->]; lia|].
  intros Hi. specialize (IH i Hi). unfold insert in *. lia.
Qed.
Lemma emitted_weight c : (3 * size (c_queue (emitted c)) + match c_out (emitted c) with Some _ => 3 | None => 0 end =
  3 * size (c_queue c))%nat.
Proof.
  unfold emitted. cbn [c_queue c_out]. destruct (c_queue c !! u64 (c_nonce c + 1)) as [w|] eqn:E.
  - rewrite map_size_delete_Some by by eexists. assert (size (c_queue c) ≠ 0%nat); [|lia].
    intros H0. apply map_size_empty_inv in H0. by rewrite H0, lookup_empty in E.
  - rewrite delete_id by done. lia.
Qed.

Lemma exec_weight a q q' p : work a → c_stopped (q_collector q) = false → exec a q = Stepped q' p → (weight q' < weight q)%nat.
Proof.
  intros Ha Hc. unfold exec, step_distributor, step_worker, step_collector. rewrite Hc. unfold weight.
  destruct a; try done.
  - destruct (q_output q); [done|]. intros [= <- <-]. cbn. lia.
  - destruct (c_release (q_collector q)); [done|]. destruct (c_out (q_collector q)) eqn:Eo; [|done].
    destruct (q_output q); [|done]. intros [= <- <-]. cbn -[emitted]. pose proof (emitted_weight (q_collector q)). cbn in *. lia.
  - destruct (q_distributor q); try done. destruct (q_sem q <? _); [|done]. intros [= <- <-]. cbn. lia.
  - destruct (q_distributor q); try done. destruct (q_input q); [done|]. intros [= <- <-]. cbn. lia.
  - destruct (q_distributor q); try done. destruct (room _ _); [|done]. intros [= <- <-]. cbn. rewrite length_app. cbn. lia.
  - destruct (q_workers q !! i) as [[]|] eqn:Ew; try done. destruct (q_workerIn q); [done|]. intros [= <- <-].
    pose proof (sum_set _ _ _ (WWork i0) Ew). cbn in *. lia.
  - destruct (q_workers q !! i) as [[]|] eqn:Ew; try done. intros [= <- <-].
    pose proof (sum_set _ _ _ (WSend (MkItem (workfn (value itm)) (nonce itm))) Ew). cbn in *. lia.
  - destruct (q_workers q !! i) as [[]|] eqn:Ew; try done. destruct (room _ _); [|done]. intros [= <- <-].
    pose proof (sum_set _ _ _ WReceive Ew). cbn in *. rewrite length_app. cbn. lia.
  - destruct (c_release (q_collector q)); [done|]. destruct (q_workerOut q) as [|itm workerOut]; [done|]. intros [= <- <-]. cbn.
    unfold collect_item. destruct (_ =? _); cbn; [destruct (c_out _); lia|].
    assert (size (<[nonce itm:=value itm]> (c_queue (q_collector q))) ≤ S (size (c_queue (q_collector q))))%nat; [|lia].
    rewrite map_size_insert. destruct (_ !! _); cbn; lia.
  - destruct (c_release (q_collector q)); [done|]. destruct (c_out (q_collector q)) eqn:Eo; [|done].
    destruct (room _ _); [|done]. intros [= <- <-]. cbn -[emitted]. rewrite length_app.
    pose proof (emitted_weight (q_collector q)). cbn in *. lia.
  - destruct (c_release (q_collector q)); [|done]. destruct (0 <? q_sem q); [|done]. intros [= <- <-]. cbn. lia.
Qed.

Lemma all_emitted q ins outs taken j hold : inv q ins outs taken j hold →
  q_workerIn q = [] → q_workerOut q = [] → (q_workers q ≫= worker_flight) = [] → c_out (q_collector q) = None →
  match q_distributor q with DSend _ => False | _ => True end →
  j = length taken ∧ outs ++ q_output q = map workfn taken.
Proof.
  intros H Ewi Ewo Eww Ec Hd. pose proof (inv_flight _ _ _ _ _ _ H) as Hf. pose proof (inv_j _ _ _ _ _ _ H) as Hj.
  rewrite flight_collector, Ewi, Ewo, Eww in Hf. unfold collector_flight, out_flight, distributor_flight in Hf. rewrite Ec in Hf.
  destruct (drop j (map workfn taken)) as [|r rest] eqn:Ed.
  - apply (f_equal length) in Ed. rewrite length_drop, length_map in Ed. cbn in Ed. assert (j = length taken) as -> by lia.
    split; [done|]. rewrite (inv_outs _ _ _ _ _ _ H). apply take_ge. by rewrite length_map.
  - exfalso. cbn [window] in Hf. assert ((u64 (Z.of_nat j), r) ∈ map_to_list (c_queue (q_collector q))) as Hin.
    { assert ((u64 (Z.of_nat j), r) ∈ (u64 (Z.of_nat j), r) :: window (Z.of_nat j + 1) rest) as Hi by left.
      rewrite <- Hf in Hi. destruct (q_distributor q); try done; by rewrite !app_nil_r in Hi. }
    apply elem_of_map_to_list in Hin. rewrite <- (inv_cnonce _ _ _ _ _ _ H), (inv_next _ _ _ _ _ _ H Ec) in Hin. done.
Qed.

(** A queue that is not closed has work to do until everything is delivered. *)
Lemma progress q ins outs taken j hold : inv q ins outs taken j hold → shape q → q_done q = false →
  (∃ a q' p, work a ∧ exec a q = Stepped q' p) ∨ outs = map workfn ins.
Proof.
  intros H Hs Hd. pose proof (sh_running _ Hs Hd) as (Hnd & Hnc & Hnw).
  assert (∀ a, work a → exec a q ≠ Blocked → ∃ a q' p, work a ∧ exec a q = Stepped q' p) as Hgo.
  { intros a Ha Hb. exists a. pose proof (exec_no_panic a _ _ _ _ _ _ H Hs). destruct (exec a q) as [| |q' p]; [done..|]. by exists q', p. }
  destruct (q_output q) as [|w output] eqn:Eo; [|left; apply (Hgo Pop); cbn; by rewrite ?Eo].
  destruct (c_release (q_collector q)) eqn:Er.
  { left. apply (Hgo CollectRelease); cbn; [done|]. unfold step_collector. rewrite Hnc, Er. by case_match. }
  destruct (q_workerOut q) as [|itm workerOut] eqn:Ewo;
    [|left; apply (Hgo CollectReceive); cbn; [done|]; unfold step_collector; by rewrite Hnc, Er, Ewo].
  destruct (c_out (q_collector q)) as [w|] eqn:Ec;
    [left; apply (Hgo PopDirect); cbn; [done|]; unfold step_collector; by rewrite Hnc, Er, Ec, Eo|].
  destruct (decide (Forall (fun w => worker_flight w = []) (q_workers q))) as [Hidle|Hbusy]; last first.
  { left. apply not_Forall_Exists, Exists_exists in Hbusy as (w & [i Hi]%list_elem_of_lookup & Hw); [|intros x; apply _].
    destruct w as [|itm|itm|]; try by destruct Hw.
    - apply (Hgo (WorkRun i)); cbn; [done|]. unfold step_worker. by rewrite Hi.
    - apply (Hgo (WorkSend i)); cbn; [done|]. unfold step_worker. rewrite Hi. by case_match. }
  destruct (q_workerIn q) as [|itm workerIn] eqn:Ewi; last first.
  { left. apply (Hgo (WorkReceive 0)); cbn; [done|]. unfold step_worker. rewrite Ewi. destruct (q_workers q) as [|w ws] eqn:Ew;
      [by destruct (sh_workers _ Hs)|]. cbn. apply Forall_cons in Hidle as [Hw _]. destruct w; try done. destruct Hnw. left. }
  assert ((q_workers q ≫= worker_flight) = []) as Eww by (clear -Hidle; induction Hidle as [|w ws Hw _ IH]; cbn; by rewrite ?Hw).
  destruct (q_distributor q) as [| |v|] eqn:Edi;
    [| |left; apply (Hgo DistSend); cbn; [done|]; unfold step_distributor; rewrite Edi; by case_match|done].
  - destruct (all_emitted _ _ _ _ _ _ H Ewi Ewo Eww Ec) as [Hj _]; [by rewrite Edi|].
    left. apply (Hgo DistAcquire); cbn; [done|]. unfold step_distributor. rewrite Edi.
    pose proof (inv_sem _ _ _ _ _ _ H) as Hm. pose proof (inv_hold _ _ _ _ _ _ H) as Hh. rewrite Edi in Hh. rewrite Er in Hm.
    pose proof (sh_cap _ Hs). destruct (Z.ltb_spec (q_sem q) (capacity (q_cfg q))); [done|lia].
  - destruct (all_emitted _ _ _ _ _ _ H Ewi Ewo Eww Ec) as [_ Ho]; [by rewrite Edi|].
    destruct (q_input q) as [|v input] eqn:Ei.
    + right. by rewrite (inv_ins _ _ _ _ _ _ H), Ei, app_nil_r, <- Ho, Eo, app_nil_r.
    + left. apply (Hgo DistReceive); cbn; [done|]. unfold step_distributor. by rewrite Edi, Ei.
Qed.

Lemma run_work_weight acts q q' ins outs : Forall work acts → shape q → q_done q = false →
  run acts q = Some (q', ins, outs) →
  (length acts + weight q' ≤ weight q)%nat ∧ ins = [] ∧ q_done q' = false.
Proof.
  intros Hw. revert q ins outs. induction Hw as [|a acts Ha _ IH]; intros q ins outs Hs Hd; cbn [run].
  { by intros [= <- <- <-]. }
  destruct (exec a q) as [| |q1 p] eqn:E; [done..|]. destruct (run acts q1) as [[[q2 ins2] outs2]|] eqn:Er; [|done].
  intros [= <- <- <-]. destruct (sh_running _ Hs Hd) as (_ & Hc & _).
  pose proof (exec_weight _ _ _ _ Ha Hc E). assert (q_done q1 = false) as Hd1.
  { revert E Ha. clear -Hd. unfold exec, step_distributor, step_worker, step_collector.
    intros E Ha. destruct a; try done; repeat (case_match; try discriminate E); by injection E as <- <-. }
  destruct (IH q1 ins2 outs2 (exec_shape _ _ _ _ Hs E) Hd1 Er) as (? & -> & ?). cbn [length]. split; [lia|].
  split; [by destruct a|done].
Qed.

(** Working on until there is nothing left. *)
Lemma drain n q ins outs taken j hold : inv q ins outs taken j hold → shape q → q_done q = false → (weight q ≤ n)%nat →
  ∃ acts q' outs', Forall work acts ∧ run acts q = Some (q', [], outs') ∧ outs ++ outs' = map workfn ins.
Proof.
  revert q outs taken j hold. induction n as [n IH] using lt_wf_ind. intros q outs taken j hold H Hs Hd Hn.
  destruct (progress _ _ _ _ _ _ H Hs Hd) as [(a & q1 & p & Ha & E)|Hall]; last first.
  { exists [], q, []. split_and!; [constructor|done|by rewrite app_nil_r]. }
  destruct (exec_inv _ _ _ _ _ _ _ _ _ H Hs E) as (t & k & h & H1).
  assert (pushed_by a = []) as Hp by (by destruct a). rewrite Hp, app_nil_r in H1.
  destruct (run_work_weight [a] q q1 [] (option_list p)) as (Hlt & _ & Hd1); [by constructor|done|done|by cbn; rewrite E, Hp; cbn; rewrite app_nil_r|].
  cbn [length] in Hlt. destruct (IH (weight q1) ltac:(lia) q1 _ t k h H1 (exec_shape _ _ _ _ Hs E) Hd1) as (acts & q' & outs' & Hw & Hr & Ho); [done|].
  exists (a :: acts), q', (option_list p ++ outs'). split_and!; [by constructor|cbn; by rewrite E, Hr, Hp|by rewrite app_assoc].
Qed.

(** C40: A queue that is not closed delivers: however its goroutines and the pops of
    a consumer are scheduled, they make a bounded number of steps without another push, and
    when they can make no more, everything pushed has been popped. *)
Theorem queue_delivers opts q acts q1 ins outs :
  New opts = Some q → capacity (queue_config opts) < 2 ^ 63 → run acts q = Some (q1, ins, outs) → q_done q1 = false →
  ∀ acts' q2 ins' outs', Forall work acts' → run acts' q1 = Some (q2, ins', outs') →
    (length acts' ≤ weight q1)%nat ∧ ins' = [] ∧
    ((∀ a, work a → exec a q2 = Blocked) → outs ++ outs' = map workfn ins) ∧
    ∃ acts'' q3 outs'', Forall work acts'' ∧ run acts'' q2 = Some (q3, [], outs'') ∧
      outs ++ outs' ++ outs'' = map workfn ins.
Proof.
  intros Hq Hc Hr Hd acts' q2 ins' outs' Hw Hr'. destruct (New_queue_inv _ _ Hq Hc) as [Hs H].
  destruct (run_inv _ _ _ _ _ _ _ _ _ _ H Hs Hr) as [Hs1 (t1 & j1 & h1 & H1)].
  destruct (run_inv _ _ _ _ _ _ _ _ _ _ H1 Hs1 Hr') as [Hs2 (t2 & j2 & h2 & H2)]. cbn [app] in H2.
  destruct (run_work_weight _ _ _ _ _ Hw Hs1 Hd Hr') as (Hlen & -> & Hd2). rewrite app_nil_r in H2.
  split; [lia|]. split; [done|]. split.
  - intros Hb. destruct (progress _ _ _ _ _ _ H2 Hs2 Hd2) as [(a & q' & p & Ha & E)|]; [|done]. by rewrite Hb in E.
  - destruct (drain (weight q2) q2 ins (outs ++ outs') t2 j2 h2 H2 Hs2 Hd2) as (acts'' & q3 & outs'' & ? & ? & E); [done|].
    exists acts'', q3, outs''. split_and!; [done..|]. by rewrite <- E, app_assoc.
Qed.
End queue.

(** ** A run out of order *)

Definition double_opts : list (config → config) := [Workers 2; Capacity 2].
(** Two values are pushed; the second is done first, and popped second. *)
Definition double_pushes : list (action (V:=Z)) :=
  [DistAcquire; PushDirect 1; DistSend; DistAcquire; PushDirect 2; DistSend; WorkReceive 0; WorkReceive 1;
   WorkRun 1; WorkSend 1; CollectReceive].
Definition double_pops : list (action (V:=Z)) :=
  [WorkRun 0; WorkSend 0; CollectReceive; PopDirect; CollectRelease; PopDirect; CollectRelease; DistAcquire].

Lemma queue_order_witness :
  match New (V:=Z) (W:=Z) double_opts with
  | Some q =>
      match run (fun v => 2 * v) (double_pushes ++ double_pops) q with
      | Some (q', ins, outs) => (ins, outs) = ([1; 2], [2; 4]) ∧
          (∀ a, exec (fun v => 2 * v) a q' ≠ Panicked) ∧ (outs ++ q_output q') `prefix_of` map (fun v => 2 * v) ins ∧
          Z.of_nat (length ins) ≤ Z.of_nat (length outs) + 0 + 2 + 0
      | None => False
      end
  | None => False
  end.
Proof.
  destruct (New (V:=Z) (W:=Z) double_opts) as [q|] eqn:Eq; [|vm_compute in Eq; discriminate Eq].
  destruct (run (fun v => 2 * v) (double_pushes ++ double_pops) q) as [[[q' ins] outs]|] eqn:Er.
  - split; [|exact (queue_order (fun v => 2 * v) double_opts q (double_pushes ++ double_pops) q' ins outs Eq
      ltac:(reflexivity) Er)].
    vm_compute in Eq. injection Eq as <-. vm_compute in Er. injection Er as <- <- <-. reflexivity.
  - vm_compute in Eq. injection Eq as <-. vm_compute in Er. discriminate Er.
Defined.

Lemma queue_delivers_witness :
  match New (V:=Z) (W:=Z) double_opts with
  | Some q =>
      match run (fun v => 2 * v) double_pushes q with
      | Some (q1, ins, outs) =>
          match run (fun v => 2 * v) double_pops q1 with
          | Some (q2, ins', outs') => (length double_pops ≤ weight q1)%nat ∧ ins' = [] ∧
              ((∀ a, work a → exec (fun v => 2 * v) a q2 = Blocked) → outs ++ outs' = map (fun v => 2 * v) ins)
          | None => False
          end
      | None => False
      end
  | None => False
  end.
Proof.
  destruct (New (V:=Z) (W:=Z) double_opts) as [q|] eqn:Eq; [|vm_compute in Eq; discriminate Eq].
  destruct (run (fun v => 2 * v) double_pushes q) as [[[q1 ins] outs]|] eqn:Er;
    [|vm_compute in Eq; injection Eq as <-; vm_compute in Er; discriminate Er].
  destruct (run (fun v => 2 * v) double_pops q1) as [[[q2 ins'] outs']|] eqn:Er2.
  - destruct (queue_delivers (fun v => 2 * v) double_opts q double_pushes q1 ins outs Eq ltac:(reflexivity) Er) with
      (acts' := double_pops) (q2 := q2) (ins' := ins') (outs' := outs') as (? & ? & ? & _).
    + vm_compute in Eq. injection Eq as <-. vm_compute in Er. injection Er as <- _ _. reflexivity.
    + repeat constructor.
    + exact Er2.
    + split_and!; assumption.
  - vm_compute in Eq. injection Eq as <-. vm_compute in Er. injection Er as <- _ _. vm_compute in Er2. discriminate Er2.
Defined.
