(* ===== verification/CircularBuffer.v ===== *)
(** * The circular buffer (lib/utils/circular_buffer.go)

    The buffer keeps the last elements that were added in a slice of fixed
    size; what [Data] returns may be a window of that slice. A panic is [None]:
    an index or a bound out of range. *)

From S2P Require Import Prelude.
From S2P Require Import GoSlice.
Local Open Scope Z_scope.

Record CircularBuffer := MkCircular { cb_buf : slice; cb_start : Z; cb_end : Z; cb_size : Z }.

Section buffer.
Context {A : Type} `{GoGrow} (zero : A).
Abbreviation heap := (list (list A)).
Implicit Types (t : CircularBuffer) (h : heap) (d : A) (l : list A).

Definition NewCircularBuffer (size : Z) h : result CircularBuffer * heap :=
  if size <=? 0 then (Err (Error BadParameter "circular buffer size should be > 0"), h) else
  let n := Z.to_nat size in
  (Ok (MkCircular (MkSlice (length h) 0 n n) (-1) (-1) 0), (h ++ [replicate n zero])%list).

(** [s[i:j]] and [s[i] = d]. *)
Definition reslice (s : slice) (i j : Z) : option slice :=
  if bool_decide (0 <= i <= j) && (j <=? Z.of_nat (sl_cap s))
  then Some (MkSlice (sl_array s) (sl_off s + Z.to_nat i) (Z.to_nat (j - i)) (sl_cap s - Z.to_nat i)) else None.
Definition set_index (s : slice) (i : Z) d h : option heap :=
  if bool_decide (0 <= i < Z.of_nat (sl_len s))
  then Some (alter (write (sl_off s + Z.to_nat i) [d]) (sl_array s) h) else None.

Definition Data t (n : Z) h : option (slice * heap) :=
  if (n <=? 0) || (cb_size t =? 0) then Some (nil_slice, h) else
  let len := Z.of_nat (sl_len (cb_buf t)) in
  let start := if n <? cb_size t then (cb_start t + (cb_size t - n)) `mod` len else cb_start t in
  if start <=? cb_end t then s ← reslice (cb_buf t) start (cb_end t + 1); Some (s, h) else
  s ← reslice (cb_buf t) start len;
  rest ← reslice (cb_buf t) 0 (cb_end t + 1);
  Some (append s (elems h rest) h).

Definition Add t d h : option (CircularBuffer * heap) :=
  let buf := cb_buf t in
  let len := Z.of_nat (sl_len buf) in
  let t :=
    if cb_size t =? 0 then MkCircular buf 0 0 1 else
    if cb_size t <? len then MkCircular buf (cb_start t) (cb_end t + 1) (cb_size t + 1) else
    MkCircular buf ((cb_start t + 1) `mod` len) (cb_start t) (cb_size t) in
  h ← set_index buf (cb_end t) d h; Some (t, h).
Fixpoint Add_all t (ds : list A) h : option (CircularBuffer * heap) :=
  match ds with [] => Some (t, h) | d :: ds => '(t, h) ← Add t d h; Add_all t ds h end.

(** ** What the buffer holds *)

(** The last [n] elements of a list. *)
Definition last_n (n : nat) l : list A := drop (length l - n) l.

(** Where the element [i] is. *)
Definition place (N s i : nat) : nat := if decide (s + i < N)%nat then s + i else s + i - N.

(** The buffer of [N] elements holds [l], the oldest one at [s]. *)
Definition represents t h (N s : nat) l : Prop :=
  (sl_off (cb_buf t) = 0 ∧ sl_len (cb_buf t) = N ∧ sl_cap (cb_buf t) = N)%nat ∧ length (array h (cb_buf t)) = N ∧ (sl_array (cb_buf t) < length h)%nat ∧
  (0 < N)%nat ∧ (s < N)%nat ∧ (length l ≤ N)%nat ∧ cb_size t = Z.of_nat (length l) ∧
  (l ≠ [] → cb_start t = Z.of_nat s ∧ cb_end t = Z.of_nat (place N s (length l - 1))) ∧
  ((length l < N)%nat → s = 0%nat) ∧
  ∀ i, (i < length l)%nat → array h (cb_buf t) !! place N s i = l !! i.

Lemma place_lt N s i : (s < N → i < N → place N s i < N)%nat.
Proof. unfold place. case_decide; lia. Qed.
Lemma write_one i d (a : list A) : (i < length a)%nat → write i [d] a = <[ i := d ]> a.
Proof. intros Hi. unfold write. rewrite insert_take_drop by done. cbn [length app]. by rewrite Nat.add_1_r. Qed.

Lemma NewCircularBuffer_represents n h : 0 < n →
  ∃ t, NewCircularBuffer n h = (Ok t, (h ++ [replicate (Z.to_nat n) zero])%list) ∧
    represents t (h ++ [replicate (Z.to_nat n) zero])%list (Z.to_nat n) 0 [].
Proof.
  intros Hn. unfold NewCircularBuffer. rewrite (proj2 (Z.leb_gt n 0)) by lia. eexists. split; [done|].
  unfold represents, array. cbn [cb_buf sl_array cb_size cb_start cb_end length].
  rewrite lookup_app_r, Nat.sub_diag by lia. cbn. rewrite length_replicate, length_app. cbn. split_and!; try lia; done.
Qed.

Lemma Add_represents t h N s l d :
  represents t h N s l →
  ∃ t' h' s', Add t d h = Some (t', h') ∧ cb_buf t' = cb_buf t ∧
    represents t' h' N s' (last_n N (l ++ [d])) ∧
    ∃ i, (i < N)%nat ∧ array h' (cb_buf t) = <[ i := d ]> (array h (cb_buf t)).
Proof.
  intros ((Hoff & Hln & Hcap) & Ha & Hh & HN & Hs & Hl & Hz & Hse & Hfirst & Hi). unfold Add.
  set (t' := if cb_size t =? 0 then _ else _).
  set (s' := if decide (length l < N)%nat then 0%nat else place N s 1).
  assert (cb_buf t' = cb_buf t ∧ cb_start t' = Z.of_nat s' ∧ cb_end t' = Z.of_nat (place N s (length l)) ∧
    cb_size t' = Z.of_nat (length l `min` (N - 1) + 1)) as (Eb & Es & Ee & Ez).
  { unfold t', s'. rewrite Hz, Hln. destruct l as [|x l].
    - cbn. rewrite decide_True by done. specialize (Hfirst HN) as ->. unfold place. rewrite decide_True by lia. done.
    - destruct (Hse ltac:(done)) as [Hst Hen]. cbn [length] in *. rewrite (proj2 (Z.eqb_neq _ 0)) by lia.
      case Z.ltb_spec; intros Hlt; cbn [cb_buf cb_start cb_end cb_size].
      + rewrite decide_True by lia. specialize (Hfirst ltac:(lia)) as ->. rewrite Hst, Hen. unfold place.
        rewrite !decide_True by lia. split_and!; (done || lia).
      + rewrite decide_False by lia. assert (S (length l) = N) as <- by lia. rewrite Hst. split; [done|]. split; [|split; [|lia]].
        * unfold place. case_decide; [rewrite Z.mod_small; lia|].
          replace (Z.of_nat s + 1) with (1 * Z.of_nat (S (length l))) by lia. rewrite Z.mod_mul by lia. lia.
        * unfold place. rewrite decide_False by lia. lia. }
  pose (e := if decide (length l < N)%nat then length l else s).
  assert (place N s (length l) = e) as He.
  { unfold e, place. destruct (decide (length l < N)%nat); [|rewrite decide_False by lia; lia].
    specialize (Hfirst ltac:(done)) as ->. by rewrite decide_True by lia. }
  assert (e < N)%nat as HeN by (unfold e; case_decide; lia).
  unfold set_index. rewrite Ee, He, Hln, Hoff. rewrite bool_decide_eq_true_2 by lia.
  cbn [mbind option_bind Nat.add]. rewrite Nat2Z.id.
  assert (array (alter (write e [d]) (sl_array (cb_buf t)) h) (cb_buf t) = <[ e := d ]> (array h (cb_buf t))) as Harr.
  { rewrite array_alter, decide_True by done. apply write_one. lia. }
  exists t', (alter (write e [d]) (sl_array (cb_buf t)) h), s'. split; [done|]. split; [done|]. split; [|by exists e].
  assert (length (last_n N (l ++ [d])) = length l `min` (N - 1) + 1)%nat as Hlen
    by (unfold last_n; rewrite length_drop, length_app; cbn; lia).
  unfold represents. rewrite Eb, Harr, Hlen, length_insert, length_alter. split_and!; try done; try lia.
  - unfold s'. case_decide; [lia|]. unfold place. case_decide; lia.
  - intros _. split; [done|]. rewrite Ee, He. f_equal. unfold e, s', place. repeat case_decide; lia.
  - intros Hlt. unfold s'. by rewrite decide_True by lia.
  - intros i Hil. unfold last_n. rewrite lookup_drop, length_app. cbn [length].
    destruct (decide (i = length l `min` (N - 1))%nat) as [->|Hne].
    + replace (place N s' (length l `min` (N - 1))) with e by (unfold e, s', place; repeat case_decide; lia).
      rewrite list_lookup_insert_eq by lia. rewrite lookup_app_r by lia.
      replace (length l + 1 - N + length l `min` (N - 1) - length l)%nat with 0%nat by lia. done.
    + rewrite list_lookup_insert_ne by (unfold e, s', place; repeat case_decide; lia).
      rewrite lookup_app_l by lia. rewrite <- Hi by lia. f_equal. unfold s', place. repeat case_decide; lia.
Qed.

(** The window of an array, and of its end and its beginning. *)
Lemma window_lookup (a : list A) i n j : (j < n)%nat → take n (drop i a) !! j = a !! (i + j)%nat.
Proof. intros Hj. by rewrite lookup_take_lt, lookup_drop. Qed.
Lemma reslice_elems h (s : slice) i j :
  sl_off s = 0%nat → (i ≤ j)%nat → (j ≤ sl_cap s)%nat →
  ∃ s', reslice s (Z.of_nat i) (Z.of_nat j) = Some s' ∧ elems h s' = take (j - i) (drop i (array h s)) ∧
    sl_array s' = sl_array s ∧ sl_off s' = i ∧ sl_len s' = (j - i)%nat ∧ sl_cap s' = (sl_cap s - i)%nat.
Proof.
  intros Ho Hij Hj. unfold reslice. rewrite bool_decide_eq_true_2, (proj2 (Z.leb_le _ _)) by lia. cbn [andb].
  eexists. split; [done|]. unfold elems. cbn [sl_array sl_off sl_len sl_cap].
  replace (Z.to_nat (Z.of_nat j - Z.of_nat i)) with (j - i)%nat by lia. rewrite Nat2Z.id, Ho. done.
Qed.

Context `{!GoGrowLaws}.

(** The two shapes of what [Data] returns: [k] elements from [s0] to [e]. *)
Lemma window_data h (buf : slice) N s0 e k l :
  sl_off buf = 0%nat → sl_cap buf = N → length (array h buf) = N → (s0 ≤ e < N)%nat → length l = k → (e + 1 - s0 = k)%nat →
  (∀ j, (j < k)%nat → array h buf !! (s0 + j)%nat = l !! j) →
  ∃ sl, reslice buf (Z.of_nat s0) (Z.of_nat e + 1) = Some sl ∧ elems h sl = l.
Proof.
  intros Ho Hc Ha Hse Hl Hk Hi. replace (Z.of_nat e + 1) with (Z.of_nat (e + 1)) by lia.
  destruct (reslice_elems h buf s0 (e + 1)) as (sl & -> & Hel & _); [done|lia|lia|].
  exists sl. split; [done|]. rewrite Hel, Hk. apply list_eq_same_length with (n := k); [done|rewrite length_take, length_drop; lia|].
  intros j y z Hj. rewrite window_lookup, Hi by done. intros ??. congruence.
Qed.
Lemma wrapped_data h (buf : slice) N s0 e k l :
  sl_off buf = 0%nat → sl_cap buf = N → length (array h buf) = N → (sl_array buf < length h)%nat →
  (e < s0 < N)%nat → length l = k → (N - s0 + (e + 1) = k)%nat →
  (∀ j, (j < k)%nat → array h buf !! (if decide (s0 + j < N) then s0 + j else s0 + j - N)%nat = l !! j) →
  ∃ sl rest, reslice buf (Z.of_nat s0) (Z.of_nat N) = Some sl ∧ reslice buf 0 (Z.of_nat e + 1) = Some rest ∧
    elems (append sl (elems h rest) h).2 (append sl (elems h rest) h).1 = l.
Proof.
  intros Ho Hc Ha Hh Hse Hl Hk Hi. replace (Z.of_nat e + 1) with (Z.of_nat (e + 1)) by lia.
  destruct (reslice_elems h buf s0 N) as (sl & Esl & Hel & Har & Hso & Hsl & Hsc); [done|lia|lia|].
  destruct (reslice_elems h buf 0 (e + 1)) as (rest & Er & Her & _); [done|lia|lia|].
  exists sl, rest. split; [done|]. split; [done|]. pose proof (append_spec sl (elems h rest) h) as Happ.
  destruct (append sl (elems h rest) h) as [sl' h']. cbn [fst snd]. destruct Happ as (_ & -> & _).
  { unfold slice_ok, array. rewrite Har. change (default [] (h !! sl_array buf)) with (array h buf). lia. }
  rewrite Hel, Her, Nat.sub_0_r, drop_0.
  apply list_eq_same_length with (n := k); [done|rewrite length_app, !length_take, length_drop; lia|].
  intros j y z Hj. rewrite <- Hi by done. case_decide.
  - rewrite lookup_app_l, window_lookup by (rewrite ?length_take, ?length_drop; lia). intros ??. congruence.
  - rewrite lookup_app_r, length_take, length_drop, lookup_take_lt by (rewrite ?length_take, ?length_drop; lia).
    replace (s0 + j - N)%nat with (j - (N - s0) `min` (length (array h buf) - s0))%nat by lia. intros ??. congruence.
Qed.

Lemma Data_represents t h N s l n :
  represents t h N s l →
  ∃ sl h', Data t n h = Some (sl, h') ∧ elems h' sl = last_n (Z.to_nat n) l.
Proof.
  intros ((Hoff & Hln & Hcap) & Ha & Hh & HN & Hs & Hl & Hz & Hse & Hfirst & Hi). unfold Data. rewrite Hz, Hln.
  destruct (Z.leb_spec n 0) as [Hn|Hn]; cbn [orb].
  { exists nil_slice, h. split; [done|]. unfold last_n. rewrite drop_ge by lia. done. }
  destruct l as [|x l0] eqn:El; [exists nil_slice, h; split; [done|]; unfold last_n; by rewrite drop_nil|].
  rewrite <- El in *. destruct Hse as [Hst Hen]; [by rewrite El|].
  assert (0 < length l)%nat as Hpos by (rewrite El; cbn; lia). rewrite (proj2 (Z.eqb_neq _ 0)) by lia. clear El.
  set (k := (Z.to_nat n `min` length l)%nat).
  assert (last_n (Z.to_nat n) l = drop (length l - k) l) as -> by (unfold last_n, k; f_equal; lia).
  assert ((if n <? Z.of_nat (length l) then (cb_start t + (Z.of_nat (length l) - n)) `mod` Z.of_nat N else cb_start t)
    = Z.of_nat (place N s (length l - k))) as ->.
  { rewrite Hst. unfold k, place. case Z.ltb_spec; intros Hlt; case_decide; try lia; [rewrite Z.mod_small; lia|].
    symmetry. apply (Z.mod_unique_pos _ _ 1); lia. }
  set (s0 := place N s (length l - k)) in *. set (e := place N s (length l - 1)) in *.
  assert (s0 < N ∧ e < N)%nat as [Hs0 He] by (split; apply place_lt; lia).
  assert (length (drop (length l - k) l) = k) as Hlk by (rewrite length_drop; unfold k; lia).
  assert (∀ j, (j < k)%nat → array h (cb_buf t) !! (if decide (s0 + j < N)%nat then s0 + j else s0 + j - N)%nat
    = drop (length l - k) l !! j) as Hp.
  { intros j Hj. rewrite lookup_drop, <- Hi by (unfold k in *; lia). f_equal. unfold s0, place, k in *. repeat case_decide; lia. }
  rewrite Hen. case Z.leb_spec; intros Hle.
  - destruct (window_data h (cb_buf t) N s0 e k (drop (length l - k) l)) as (sl & -> & Hel); try done; [lia| | |by exists sl, h].
    + unfold s0, e, place, k in *. repeat case_decide; lia.
    + intros j Hj. rewrite <- Hp by done. rewrite decide_True; [done|]. unfold s0, e, place, k in *. repeat case_decide; lia.
  - destruct (wrapped_data h (cb_buf t) N s0 e k (drop (length l - k) l)) as (sl & rest & -> & -> & Hel); try done; [lia| |].
    + unfold s0, e, place, k in *. repeat case_decide; lia.
    + cbn [mbind option_bind]. by eexists _, _; split; [apply f_equal, surjective_pairing|].
Qed.

Lemma last_n_snoc N l (d : A) (ds : list A) : last_n N (last_n N (l ++ [d]) ++ ds) = last_n N (l ++ d :: ds).
Proof.
  unfold last_n. rewrite !length_app, length_drop, length_app. cbn [length].
  change (d :: ds) with ([d] ++ ds)%list. rewrite (app_assoc l [d] ds).
  destruct (decide (length l + 1 ≤ N)%nat).
  - replace (length l + 1 - N)%nat with 0%nat by lia. rewrite drop_0. f_equal. lia.
  - rewrite <- (drop_app_le (l ++ [d]) ds) by (rewrite length_app; cbn; lia). rewrite drop_drop. f_equal. lia.
Qed.
Lemma Add_all_represents ds t h N s l :
  represents t h N s l →
  ∃ t' h' s', Add_all t ds h = Some (t', h') ∧ cb_buf t' = cb_buf t ∧ represents t' h' N s' (last_n N (l ++ ds)).
Proof.
  revert t h s l. induction ds as [|d ds IH]; intros t h s l Hr.
  - exists t, h, s. split; [done|]. split; [done|]. rewrite app_nil_r. unfold last_n.
    destruct Hr as (? & ? & ? & ? & ? & Hl & Hr). replace (length l - N)%nat with 0%nat by lia. done.
  - destruct (Add_represents t h N s l d Hr) as (t1 & h1 & s1 & E & Eb & Hr1 & _). cbn [Add_all]. rewrite E. cbn [mbind option_bind].
    destruct (IH t1 h1 s1 _ Hr1) as (t2 & h2 & s2 & -> & Eb2 & Hr2). exists t2, h2, s2. split; [done|].
    split; [congruence|]. by rewrite last_n_snoc in Hr2.
Qed.

(** whatever is added to a circular buffer of a positive size, what it then
    gives of its data is the elements added last, as many as were asked for and
    at most its size, the oldest one first; no index is out of range. *)
Theorem circular_buffer_correct size n ds h :
  0 < size →
  ∃ t h0 t' h1 sl h2, NewCircularBuffer size h = (Ok t, h0) ∧ Add_all t ds h0 = Some (t', h1) ∧
    Data t' n h1 = Some (sl, h2) ∧ elems h2 sl = last_n (Z.to_nat n `min` Z.to_nat size) ds.
Proof.
  intros Hs. destruct (NewCircularBuffer_represents size h Hs) as (t & Et & Hr).
  destruct (Add_all_represents ds _ _ _ _ _ Hr) as (t' & h1 & s1 & E1 & _ & Hr1).
  destruct (Data_represents _ _ _ _ _ n Hr1) as (sl & h2 & E2 & Hel).
  eexists t, _, t', h1, sl, h2. split_and!; [done..|]. rewrite Hel. unfold last_n. cbn [app].
  rewrite length_drop, drop_drop. f_equal. lia.
Qed.
End buffer.
