(* ===== verification/SessionAccess.v ===== *)
(** * Session access policies (lib/auth/session_access.go)

    Roles of the host that require other participants make policy sets; the
    roles of participants allow them to join. The evaluator decides in which
    modes a user may join a session and whether a session may run. A
    participant is a value here: the code only reads it. A call is an
    [outcome], since [regexp.MustCompile] panics and evaluation fails. *)

From Stdlib Require Import Ascii String.
From stdpp Require Import pretty.
From S2P Require Import Prelude.
From S2P Require Import Keys.
From S2P Require Import Labels.
From S2P Require Import Parse.
From S2P Require Import Role.
Local Open Scope string_scope.

(** ** Data *)

Definition V5 : string := "v5".
Definition SSHSessionKind : string := "ssh".
Definition SessionObserverMode : string := "observer".
Definition SessionModeratorMode : string := "moderator".
Definition SessionPeerMode : string := "peer".
Definition OnSessionLeaveTerminate : string := "terminate".
Definition OnSessionLeavePause : string := "pause".

(** The policies a role of the host attaches to a session. *)
Record SessionTrackerPolicySet := MkPolicySet {
  ps_Name : string; ps_Version : string; ps_RequireSessionJoin : list SessionRequirePolicy
}.
Definition GetSessionPolicySet (r : Role) : SessionTrackerPolicySet :=
  MkPolicySet (md_Name (role_Metadata r)) (Role.Version r) (RequireSessionJoin (AllowConditions r)).

Record SessionAccessEvaluator := MkEvaluator {
  e_kind : string; e_policySets : list SessionTrackerPolicySet; e_isModerated : bool; e_owner : string
}.
Record SessionAccessContext := MkContext { sac_Username : string; sac_Roles : list Role; sac_Mode : string }.
Record PolicyOptions := MkPolicyOptions { TerminateOnLeave : bool }.

(** The value of an identifier: [interface{}] of a string or of strings. *)
Inductive identifier := IdString (s : string) | IdStrings (l : list string).

(** A context answers a parser: the value of an identifier and the resource. *)
Record RuleContext := MkRuleContext {
  rc_GetIdentifier : list string → outcome identifier;
  rc_GetResource : unit → outcome string
}.

(** [services.NewWhereParser] and the predicate library it calls: a filter
    parses to a predicate, with its value in the context, or to something that
    is no predicate. *)
Class WhereLibrary := { NewWhereParser : RuleContext → result (string → outcome (option bool)) }.

Definition ContainsSessionKind (s : list string) (e : string) : bool := existsb (fun a => String.eqb a e) s.
Definition SliceContainsMode (s : list string) (e : string) : bool := existsb (fun a => String.eqb a e) s.
Definition HasV5Role (roles : list Role) : bool := existsb (fun role => String.eqb (Role.Version role) V5) roles.

Definition preAccessControlsModes (kind : string) : list string :=
  if String.eqb kind SSHSessionKind then [SessionPeerMode] else [].

Definition getAllowPolicies (participant : SessionAccessContext) : list SessionJoinPolicy :=
  flat_map GetSessionJoinPolicies (sac_Roles participant).

(** ** Identifiers of filters *)

Definition GetIdentifier (ctx : SessionAccessContext) (fields : list string) : outcome identifier :=
  match fields with
  | [] => None
  | f :: rest =>
      if String.eqb f "user" then
        match rest with
        | [g] | [g; _] =>
            if String.eqb g "name" then done (IdString (sac_Username ctx)) else
            if String.eqb g "roles" then done (IdStrings (map GetName (sac_Roles ctx))) else
            fails NotFound "%v is not defined"
        | _ => fails NotFound "%v is not defined"
        end
      else fails NotFound "%v is not defined"
  end.
Definition GetResource (_ : SessionAccessContext) : outcome string := fails BadParameter "resource unsupported".
Definition rule_context (ctx : SessionAccessContext) : RuleContext :=
  MkRuleContext (GetIdentifier ctx) (fun _ => GetResource ctx).

(** ** Matching *)

Section evaluator.
Context `{Regexp} `{GoLibs}.

Section matching.
Variable e : SessionAccessEvaluator.

Definition matchesKind (allow : list string) : bool :=
  ContainsSessionKind allow (e_kind e) || ContainsSessionKind allow "*".

(** The expression of a role is not anchored. *)
Fixpoint join_roles (roles : list string) : option bool :=
  match roles with
  | [] => Some false
  | allowRole :: rest =>
      let expr := GlobToRegexp allowRole in
      if negb (re_Compiles expr) then None else
      if existsb (fun policySet => re_matches expr (ps_Name policySet)) (e_policySets e) then Some true
      else join_roles rest
  end.
Definition matchesJoin (allow : SessionJoinPolicy) : option bool :=
  if negb (matchesKind (sjp_Kinds allow)) then Some false else join_roles (sjp_Roles allow).

Definition extractApplicablePolicies (set : SessionTrackerPolicySet) : list SessionRequirePolicy :=
  List.filter (fun require => matchesKind (srp_Kinds require)) (ps_RequireSessionJoin set).
End matching.

Definition is_empty {A} (l : list A) : bool := match l with [] => true | _ => false end.

Definition NewSessionAccessEvaluator (policySets : list SessionTrackerPolicySet) (kind owner : string) :
    SessionAccessEvaluator :=
  let e := MkEvaluator kind policySets false owner in
  MkEvaluator kind policySets
    (existsb (fun set => negb (is_empty (extractApplicablePolicies e set))) policySets) owner.

(** ** Joining *)

Fixpoint add_modes (modes policy_modes : list string) : list string :=
  match policy_modes with
  | [] => modes
  | mode :: rest => add_modes (if SliceContainsMode modes mode then modes else (modes ++ [mode])%list) rest
  end.
Fixpoint join_modes (e : SessionAccessEvaluator) (policies : list SessionJoinPolicy) (modes : list string) :
    option (list string) :=
  match policies with
  | [] => Some modes
  | allowPolicy :: rest =>
      m ← matchesJoin e allowPolicy;
      join_modes e rest (if (m : bool) then add_modes modes (sjp_Modes allowPolicy) else modes)
  end.
Definition CanJoin (e : SessionAccessEvaluator) (user : SessionAccessContext) : option (list string) :=
  if negb (HasV5Role (sac_Roles user)) then Some (preAccessControlsModes (e_kind e)) else
  if String.eqb (sac_Username user) (e_owner e)
  then Some [SessionPeerMode; SessionModeratorMode; SessionObserverMode]
  else join_modes e (getAllowPolicies user) [].

(** ** Running a session *)

Context `{WhereLibrary}.

Definition matchesPredicate (e : SessionAccessEvaluator) (ctx : SessionAccessContext)
    (require : SessionRequirePolicy) (allow : SessionJoinPolicy) : outcome bool :=
  if negb (matchesKind e (sjp_Kinds allow)) then done false else
  match NewWhereParser (rule_context ctx) with
  | Err err => Some (Err err)
  | Ok parse =>
      ifn ⇐ parse (srp_Filter require);
      match ifn with
      | None => fails BadParameter "unsupported type: %T"
      | Some b => done b
      end
  end.

(** Whether a participant counts: the loop over its allow policies. *)
Fixpoint allow_loop (e : SessionAccessEvaluator) (participant : SessionAccessContext)
    (require : SessionRequirePolicy) (allowPolicies : list SessionJoinPolicy) : outcome bool :=
  match allowPolicies with
  | [] => done false
  | allow :: rest =>
      m ⇐ matchesPredicate e participant require allow;
      if (m : bool) then
        match matchesJoin e allow with
        | None => None
        | Some true => done true
        | Some false => allow_loop e participant require rest
        end
      else allow_loop e participant require rest
  end.

(** The loop over the participants; the counter is an int32. *)
Fixpoint participant_loop (e : SessionAccessEvaluator) (require : SessionRequirePolicy)
    (participants : list SessionAccessContext) (left : Z) : outcome bool :=
  match participants with
  | [] => done false
  | p :: rest =>
      if negb (SliceContainsMode (srp_Modes require) (sac_Mode p)) then participant_loop e require rest left else
      b ⇐ allow_loop e p require (getAllowPolicies p);
      let left := if (b : bool) then wrap_i 32 (left - 1) else left in
      if (left <=? 0)%Z then done true else participant_loop e require rest left
  end.

Definition on_leave (require : SessionRequirePolicy) (options : PolicyOptions) : PolicyOptions :=
  if String.eqb (srp_OnLeave require) OnSessionLeavePause then MkPolicyOptions false else options.

(** The first policy of a set that is fulfilled leaves its options. *)
Fixpoint policy_loop (e : SessionAccessEvaluator) (participants : list SessionAccessContext)
    (policies : list SessionRequirePolicy) (options : PolicyOptions) : outcome (option PolicyOptions) :=
  match policies with
  | [] => done None
  | require :: rest =>
      b ⇐ participant_loop e require participants (srp_Count require);
      if (b : bool) then done (Some (on_leave require options)) else policy_loop e participants rest options
  end.

Fixpoint policySetLoop (e : SessionAccessEvaluator) (participants : list SessionAccessContext)
    (sets : list SessionTrackerPolicySet) (options : PolicyOptions) : outcome (bool * PolicyOptions) :=
  match sets with
  | [] => done (true, options)
  | set :: rest =>
      let policies := extractApplicablePolicies e set in
      if is_empty policies then policySetLoop e participants rest options else
      r ⇐ policy_loop e participants policies options;
      match r with
      | Some options => policySetLoop e participants rest options
      | None => done (false, options)
      end
  end.
Definition FulfilledFor (e : SessionAccessEvaluator) (participants : list SessionAccessContext) :
    outcome (bool * PolicyOptions) :=
  policySetLoop e participants (e_policySets e) (MkPolicyOptions true).

(** ** What users are shown *)

Definition crlf : string := String (Ascii.ascii_of_nat 13) (String newline "").
Definition pretty_policy (require : SessionRequirePolicy) : string :=
  crlf ++ "    - " ++ pretty (srp_Count require) ++ "x " ++ srp_Filter require ++ " with mode "
    ++ String.concat " or " (srp_Modes require).
Definition pretty_set (e : SessionAccessEvaluator) (set : SessionTrackerPolicySet) : string :=
  let policies := extractApplicablePolicies e set in
  if is_empty policies then "" else
  crlf ++ "   one of (" ++ ps_Name set ++ "):" ++ String.concat "" (map pretty_policy policies).
Definition PrettyRequirementsList (e : SessionAccessEvaluator) : string :=
  "require all:" ++ String.concat "" (map (pretty_set e) (e_policySets e)).
End evaluator.

(** ** What may be joined *)

(** What an expression that is not anchored finds: some part of the text
    matches the glob. *)
Fixpoint prefixes (s : string) : list string :=
  "" :: match s with EmptyString => [] | String c s => map (String c) (prefixes s) end.
Fixpoint substrings (s : string) : list string :=
  prefixes s ++ match s with EmptyString => [] | String _ s => substrings s end.
Definition glob_search (g s : string) : bool := existsb (glob_match g) (substrings s).

(** Expressions made from globs compile and, on valid UTF-8, find what the glob
    matches somewhere in the text. *)
Class SearchLaws `{Regexp} : Prop := {
  re_glob_search : ∀ g s, utf8_string g = true → utf8_string s = true →
    re_Match (GlobToRegexp g) s = Some (glob_search g s)
}.

Lemma SliceContainsMode_spec s m : SliceContainsMode s m = true ↔ m ∈ s.
Proof.
  unfold SliceContainsMode. rewrite existsb_exists. split.
  - intros (a & Ha & ->%String.eqb_eq). by apply list_elem_of_In.
  - intros Hm. exists m. by rewrite <- list_elem_of_In, String.eqb_refl.
Qed.

Lemma add_modes_spec policy_modes modes :
  NoDup modes →
  NoDup (add_modes modes policy_modes) ∧
  ∀ m, m ∈ add_modes modes policy_modes ↔ m ∈ modes ∨ m ∈ policy_modes.
Proof.
  revert modes. induction policy_modes as [|mode rest IH]; intros modes Hn; cbn [add_modes].
  { split; [done|]. set_solver. }
  destruct (SliceContainsMode modes mode) eqn:E.
  - apply SliceContainsMode_spec in E. destruct (IH modes Hn) as [? Hm]. split; [done|].
    intros m. rewrite Hm. set_solver.
  - assert (mode ∉ modes) as Hin by (rewrite <- SliceContainsMode_spec; congruence).
    destruct (IH (modes ++ [mode])%list) as [? Hm].
    { apply NoDup_app. set_solver by (apply NoDup_singleton || done). }
    split; [done|]. intros m. rewrite Hm. set_solver.
Qed.

(** Names that are valid UTF-8: those of roles in policies and of policy sets. *)
Definition utf8_policies (e : SessionAccessEvaluator) (policies : list SessionJoinPolicy) : Prop :=
  Forall (fun set => utf8_string (ps_Name set) = true) (e_policySets e) ∧
  Forall (fun p => Forall (fun role => utf8_string role = true) (sjp_Roles p)) policies.

(** What a join policy should say of a session. *)
Definition join_policy_allows (e : SessionAccessEvaluator) (p : SessionJoinPolicy) : Prop :=
  (e_kind e ∈ sjp_Kinds p ∨ "*" ∈ sjp_Kinds p) ∧
  ∃ role set, role ∈ sjp_Roles p ∧ set ∈ e_policySets e ∧ glob_search role (ps_Name set) = true.

Section joining.
Context `{SearchLaws} `{!GoLibs} `{!GoLibsLaws}.

Lemma matchesKind_spec e allow : matchesKind e allow = true ↔ e_kind e ∈ allow ∨ "*" ∈ allow.
Proof.
  unfold matchesKind. rewrite orb_true_iff. by rewrite !SliceContainsMode_spec.
Qed.

Lemma GlobToRegexp_compiles g : utf8_string g = true → re_Compiles (GlobToRegexp g) = true.
Proof. intros Hg. apply (re_Compiles_Match _ ""). eexists. by apply re_glob_search. Qed.

Lemma join_roles_spec e roles :
  Forall (fun set => utf8_string (ps_Name set) = true) (e_policySets e) →
  Forall (fun role => utf8_string role = true) roles →
  ∃ b, join_roles e roles = Some b ∧
    (b = true ↔ ∃ role set, role ∈ roles ∧ set ∈ e_policySets e ∧ glob_search role (ps_Name set) = true).
Proof.
  intros Hsets. induction 1 as [|g rest Hg _ IH]; cbn [join_roles].
  { exists false. set_solver. }
  rewrite GlobToRegexp_compiles by done. cbn [negb].
  destruct (existsb _ _) eqn:E.
  - exists true. split; [done|]. split; [intros _|done].
    apply existsb_exists in E as (set & Hin%list_elem_of_In & Hm).
    exists g, set. split_and!; [set_solver|done|].
    unfold re_matches in Hm. rewrite re_glob_search in Hm; [done..|].
    by eapply Forall_forall in Hsets.
  - destruct IH as (b & -> & Hb). exists b. split; [done|]. rewrite Hb. split.
    + intros (role & set & ? & ? & ?). exists role, set. set_solver.
    + intros (role & set & [->|Hr]%elem_of_cons & Hset & Hm); [exfalso|naive_solver].
      enough (existsb (fun set => re_matches (GlobToRegexp g) (ps_Name set)) (e_policySets e) = true) by congruence.
      apply existsb_exists. exists set. rewrite <- list_elem_of_In. split; [done|].
      unfold re_matches. rewrite re_glob_search; [done..|]. by eapply Forall_forall in Hsets.
Qed.

Lemma matchesJoin_spec e p :
  utf8_policies e [p] →
  ∃ b, matchesJoin e p = Some b ∧ (b = true ↔ join_policy_allows e p).
Proof.
  intros [Hsets [Hp _]%Forall_cons]. unfold matchesJoin, join_policy_allows.
  destruct (matchesKind e (sjp_Kinds p)) eqn:E; cbn [negb].
  - destruct (join_roles_spec e (sjp_Roles p)) as (b & -> & Hb); [done..|].
    exists b. split; [done|]. rewrite Hb, <- matchesKind_spec. tauto.
  - exists false. split; [done|]. rewrite <- matchesKind_spec, E. naive_solver.
Qed.

Lemma join_modes_spec e policies modes :
  utf8_policies e policies → NoDup modes →
  ∃ ms, join_modes e policies modes = Some ms ∧ NoDup ms ∧
    ∀ m, m ∈ ms ↔ m ∈ modes ∨ ∃ p, p ∈ policies ∧ join_policy_allows e p ∧ m ∈ sjp_Modes p.
Proof.
  intros [Hsets Hps]. revert modes.
  induction Hps as [|p rest Hp Hps IH]; intros modes Hn; cbn [join_modes].
  { exists modes. split_and!; [done..|]. set_solver. }
  destruct (matchesJoin_spec e p) as (b & -> & Hb); [split; auto|]. cbn [mbind option_bind].
  destruct (add_modes_spec (sjp_Modes p) modes Hn) as [Hn' Hadd].
  destruct (IH (if b then add_modes modes (sjp_Modes p) else modes)) as (ms & -> & ? & Hm); [by destruct b|].
  exists ms. split_and!; [done..|]. intros m. rewrite Hm.
  destruct b; [rewrite Hadd|]; set_solver.
Qed.

(** a user who has a role of version 5 and does not own the session may
    join it in exactly the modes of the join policies of its roles that apply
    to the kind of the session and name a role of the session, each once, and
    the call does not panic. A policy names a role when its glob is found
    anywhere in the name of the role. *)
Theorem CanJoin_correct (e : SessionAccessEvaluator) (user : SessionAccessContext) :
  utf8_policies e (getAllowPolicies user) →
  HasV5Role (sac_Roles user) = true → sac_Username user ≠ e_owner e →
  ∃ modes, CanJoin e user = Some modes ∧ NoDup modes ∧
    ∀ m, m ∈ modes ↔
      ∃ role p, role ∈ sac_Roles user ∧ p ∈ GetSessionJoinPolicies role ∧
        join_policy_allows e p ∧ m ∈ sjp_Modes p.
Proof.
  intros Hu Hv5 Ho. unfold CanJoin. rewrite Hv5. cbn [negb].
  destruct (String.eqb_spec (sac_Username user) (e_owner e)); [done|].
  destruct (join_modes_spec e (getAllowPolicies user) []) as (ms & -> & ? & Hm); [done|constructor|].
  exists ms. split_and!; [done..|]. intros m. rewrite Hm. unfold getAllowPolicies. split.
  - intros [[]%elem_of_nil|(p & (role & ? & ?)%list_elem_of_In%in_flat_map & ? & ?)].
    exists role, p. split_and!; [by apply list_elem_of_In..|done|done].
  - intros (role & p & ? & ? & ? & ?). right. exists p. split; [|done].
    rewrite list_elem_of_In, in_flat_map. exists role. split; by apply list_elem_of_In.
Qed.
End joining.

(** ** What lets a session run *)

(** A count that is asked for can only be reached by those in a mode. *)
Lemma count_implies {A} (f g : A → bool) l n :
  (0 < n)%Z →
  existsb f l && (n <=? Z.of_nat (length (List.filter (fun x => f x && g x) l)))%Z =
  (n <=? Z.of_nat (length (List.filter (fun x => f x && g x) l)))%Z.
Proof.
  intros Hn. induction l as [|x l IH]; cbn; [symmetry; by apply Z.leb_gt|].
  destruct (f x); cbn; [done|apply IH].
Qed.

Section running.
Context `{Regexp} `{GoLibs} `{WhereLibrary}.
Implicit Types (e : SessionAccessEvaluator) (ps : list SessionAccessContext) (r : SessionRequirePolicy).

(** A participant counts for a policy when one of its own allow policies passes
    the filter and lets it join. *)
Definition allowed_by e r (p : SessionAccessContext) (a : SessionJoinPolicy) : bool :=
  match matchesPredicate e p r a, matchesJoin e a with
  | Some (Ok true), Some true => true
  | _, _ => false
  end.
Definition counts e r (p : SessionAccessContext) : bool := existsb (allowed_by e r p) (getAllowPolicies p).
Definition in_mode r (p : SessionAccessContext) : bool := SliceContainsMode (srp_Modes r) (sac_Mode p).

(** A policy is satisfied when as many participants as it asks for are in one of
    its modes and count; one in such a mode must be there in any case. *)
Definition satisfied e ps r : bool :=
  existsb (in_mode r) ps &&
  (srp_Count r <=? Z.of_nat (length (List.filter (fun p => in_mode r p && counts e r p) ps)))%Z.
Definition set_fulfilled e ps (set : SessionTrackerPolicySet) : bool :=
  let policies := extractApplicablePolicies e set in is_empty policies || existsb (satisfied e ps) policies.

(** The policy that is found satisfied, the first one, says to pause. *)
Definition pauses e ps (set : SessionTrackerPolicySet) : bool :=
  match List.find (satisfied e ps) (extractApplicablePolicies e set) with
  | Some r => String.eqb (srp_OnLeave r) OnSessionLeavePause
  | None => false
  end.
Fixpoint fulfilled_prefix e ps (sets : list SessionTrackerPolicySet) : list SessionTrackerPolicySet :=
  match sets with
  | [] => []
  | set :: rest => if set_fulfilled e ps set then set :: fulfilled_prefix e ps rest else []
  end.

(** Counts are int32; the smallest one, which cannot be decremented, is left out. *)
Definition counts_ok e : Prop :=
  ∀ set r, set ∈ e_policySets e → r ∈ extractApplicablePolicies e set → (- 2 ^ 31 < srp_Count r < 2 ^ 31)%Z.

(** Every filter evaluates for every participant, and no expression panics. *)
Definition evaluates e ps : Prop :=
  ∀ set r p a, set ∈ e_policySets e → r ∈ extractApplicablePolicies e set → p ∈ ps → a ∈ getAllowPolicies p →
    (∃ b, matchesPredicate e p r a = Some (Ok b)) ∧ ∃ b, matchesJoin e a = Some b.

Lemma allow_policies_Ok e p r l b :
  allow_loop e p r l = Some (Ok b) → b = existsb (allowed_by e r p) l.
Proof.
  induction l as [|a l IH]; cbn [allow_loop existsb]; [by intros [= <-]|].
  intros (m & Hm & Hrest)%attempt_Ok. unfold allowed_by at 1. rewrite Hm.
  destruct m; [|by apply IH].
  destruct (matchesJoin e a) as [[]|]; [by injection Hrest as <-|by apply IH|done].
Qed.

Lemma allow_loop_total e p r l :
  (∀ a, a ∈ l → (∃ b, matchesPredicate e p r a = Some (Ok b)) ∧ ∃ b, matchesJoin e a = Some b) →
  allow_loop e p r l = done (existsb (allowed_by e r p) l).
Proof.
  intros Hl. enough (∃ b, allow_loop e p r l = Some (Ok b)) as [b Hb].
  { rewrite Hb. by apply allow_policies_Ok in Hb as ->. }
  induction l as [|a l IH]; cbn [allow_loop]; [by eexists|].
  destruct (Hl a) as [[b ->] [j Hj]]; [set_solver|]. cbn [attempt].
  destruct b; [rewrite Hj; destruct j; [by eexists|]|]; apply IH; set_solver.
Qed.

(** The counter that is left after the participants of [l] is [n] less those that count. *)
Lemma participant_loop_Ok e r ps n b :
  (- 2 ^ 31 < n < 2 ^ 31)%Z →
  participant_loop e r ps n = Some (Ok b) →
  b = existsb (in_mode r) ps &&
      (n <=? Z.of_nat (length (List.filter (fun p => in_mode r p && counts e r p) ps)))%Z.
Proof.
  revert n. induction ps as [|p ps IH]; intros n Hn; cbn [participant_loop existsb List.filter].
  { by intros [= <-]. }
  fold (in_mode r p). destruct (in_mode r p) eqn:Em; cbn [negb andb orb]; [|by apply IH].
  intros (c & Hc & Hrest)%attempt_Ok. apply allow_policies_Ok in Hc. fold (counts e r p) in Hc. subst c.
  assert (in_i 32 (n - 1)) as Hw by (unfold in_i; lia). revert Hrest.
  destruct (counts e r p); cbn [length]; [rewrite wrap_i_small by (done || lia)|];
    (case Z.leb_spec; intros Hleft; [intros [= <-]; symmetry; apply Z.leb_le; lia|]);
    intros ->%IH; try lia; rewrite count_implies by done; [|done].
  apply eq_true_iff_eq. rewrite !Z.leb_le. lia.
Qed.

Lemma participant_loop_total e r ps n :
  (∀ p a, p ∈ ps → a ∈ getAllowPolicies p →
    (∃ b, matchesPredicate e p r a = Some (Ok b)) ∧ ∃ b, matchesJoin e a = Some b) →
  ∃ b, participant_loop e r ps n = Some (Ok b).
Proof.
  intros Hps. revert n. induction ps as [|p ps IH]; intros n; cbn [participant_loop]; [by eexists|].
  destruct (SliceContainsMode _ _); cbn [negb]; [|apply IH; set_solver].
  rewrite allow_loop_total by (intros a Ha; apply (Hps p); [set_solver|done]). cbn [attempt done].
  case Z.leb_spec; intros _; [by eexists|]. apply IH. set_solver.
Qed.

Lemma policy_loop_Ok e ps l o res :
  Forall (fun r => - 2 ^ 31 < srp_Count r < 2 ^ 31)%Z l →
  policy_loop e ps l o = Some (Ok res) → res = (fun r => on_leave r o) <$> List.find (satisfied e ps) l.
Proof.
  induction 1 as [|r l Hr _ IH]; cbn [policy_loop List.find]; [by intros [= <-]|].
  intros (b & Hb & Hrest)%attempt_Ok. apply participant_loop_Ok in Hb; [|done].
  fold (satisfied e ps r) in Hb. rewrite <- Hb.
  destruct b; [by injection Hrest as <-|by apply IH].
Qed.

Lemma policy_loop_total e ps l o :
  (∀ r p a, r ∈ l → p ∈ ps → a ∈ getAllowPolicies p →
    (∃ b, matchesPredicate e p r a = Some (Ok b)) ∧ ∃ b, matchesJoin e a = Some b) →
  ∃ res, policy_loop e ps l o = Some (Ok res).
Proof.
  induction l as [|r l IH]; intros Hl; cbn [policy_loop]; [by eexists|].
  destruct (participant_loop_total e r ps (srp_Count r)) as [b ->]; [intros; eapply Hl; set_solver|].
  cbn [attempt]. destruct b; [by eexists|]. apply IH. set_solver.
Qed.

Lemma find_existsb {A} (f : A → bool) l : existsb f l = bool_decide (is_Some (List.find f l)).
Proof.
  induction l as [|x l IH]; cbn; [done|]. destruct (f x); [by rewrite bool_decide_true by eauto|done].
Qed.

Lemma set_fulfilled_find e ps set :
  set_fulfilled e ps set =
  is_empty (extractApplicablePolicies e set) ||
  bool_decide (is_Some (List.find (satisfied e ps) (extractApplicablePolicies e set))).
Proof. unfold set_fulfilled. by rewrite find_existsb. Qed.

Lemma policySetLoop_Ok e ps sets o b o' :
  (∀ set r, set ∈ sets → r ∈ extractApplicablePolicies e set → (- 2 ^ 31 < srp_Count r < 2 ^ 31)%Z) →
  policySetLoop e ps sets o = Some (Ok (b, o')) →
  b = forallb (set_fulfilled e ps) sets ∧
  TerminateOnLeave o' = TerminateOnLeave o && negb (existsb (pauses e ps) (fulfilled_prefix e ps sets)).
Proof.
  revert o. induction sets as [|set sets IH]; intros o Hok; cbn [policySetLoop forallb fulfilled_prefix existsb].
  { intros [= <- <-]. by rewrite andb_true_r. }
  rewrite set_fulfilled_find.
  destruct (is_empty _) eqn:Ee; cbn [orb andb existsb].
  - intros Hl. apply IH in Hl as [-> ->]; [|set_solver].
    enough (pauses e ps set = false) as -> by done.
    unfold pauses. by destruct (extractApplicablePolicies e set).
  - intros (res & Hres & Hrest)%attempt_Ok.
    apply policy_loop_Ok in Hres as ->; [|apply Forall_forall; intros; eapply Hok; set_solver].
    unfold pauses. destruct (List.find _ _) as [r|] eqn:Ef; cbn in Hrest |- *.
    + rewrite Ef. apply IH in Hrest as [-> ->]; [|set_solver]. split; [done|].
      unfold on_leave. destruct (String.eqb _ _); cbn; [by rewrite andb_false_r|done].
    + injection Hrest as <- <-. by rewrite andb_true_r.
Qed.

(** C32: the verdict on a session is right: it may run exactly when each of its
    policy sets that has policies for its kind has one that is satisfied, by
    enough participants who are in one of its modes, pass its filter and are
    allowed to join; it is terminated when a participant leaves unless the
    policy found satisfied in one of the sets before the first unfulfilled one
    says to pause. When every filter evaluates, there is a verdict. *)
Theorem FulfilledFor_correct e ps :
  counts_ok e →
  (evaluates e ps → ∃ b o, FulfilledFor e ps = Some (Ok (b, o))) ∧
  ∀ b o, FulfilledFor e ps = Some (Ok (b, o)) →
    (b = true ↔ ∀ set, set ∈ e_policySets e → extractApplicablePolicies e set ≠ [] →
      ∃ r, r ∈ extractApplicablePolicies e set ∧ satisfied e ps r = true) ∧
    (TerminateOnLeave o = true ↔
      ∀ set, set ∈ fulfilled_prefix e ps (e_policySets e) → pauses e ps set = false).
Proof.
  intros Hok. split.
  - intros Hev. unfold FulfilledFor. generalize (MkPolicyOptions true).
    revert Hev. clear Hok. unfold evaluates. generalize (e_policySets e).
    induction l as [|set sets IH]; intros Hev o; cbn [policySetLoop]; [by repeat eexists|].
    destruct (is_empty _); [apply IH; set_solver|].
    destruct (policy_loop_total e ps (extractApplicablePolicies e set) o) as [res ->]; [set_solver|].
    cbn [attempt]. destruct res; [apply IH; set_solver|by repeat eexists].
  - intros b o Hb. apply policySetLoop_Ok in Hb as [-> ->]; [|done]. split.
    + rewrite forallb_forall. setoid_rewrite <- list_elem_of_In.
      apply forall_proper. intros set. unfold set_fulfilled.
      destruct (extractApplicablePolicies e set) as [|r0 l]; cbn [is_empty orb]; [naive_solver|].
      rewrite existsb_exists. setoid_rewrite <- list_elem_of_In. naive_solver.
    + cbn [TerminateOnLeave andb]. rewrite negb_true_iff, <- not_true_iff_false, existsb_exists.
      setoid_rewrite <- list_elem_of_In. setoid_rewrite <- not_true_iff_false. naive_solver.
Qed.

(** The verdict does not depend on the order of the participants. *)
Lemma filter_length_perm {A} (f : A → bool) (l l' : list A) :
  l ≡ₚ l' → length (List.filter f l) = length (List.filter f l').
Proof. induction 1; cbn; repeat case_match; cbn; congruence. Qed.

Lemma existsb_perm {A} (f : A → bool) (l l' : list A) : l ≡ₚ l' → existsb f l = existsb f l'.
Proof. intros Hp. apply eq_true_iff_eq. rewrite !existsb_exists. setoid_rewrite <- list_elem_of_In. by setoid_rewrite Hp. Qed.

#[export] Instance satisfied_perm e : Proper ((≡ₚ) ==> (=) ==> (=)) (satisfied e).
Proof.
  intros ps ps' Hp r _ <-. unfold satisfied.
  by rewrite (existsb_perm _ _ _ Hp), (filter_length_perm _ _ _ Hp).
Qed.

Lemma set_fulfilled_perm e ps ps' set : ps ≡ₚ ps' → set_fulfilled e ps set = set_fulfilled e ps' set.
Proof.
  intros Hp. unfold set_fulfilled. f_equal.
  apply eq_true_iff_eq. rewrite !existsb_exists. by setoid_rewrite Hp.
Qed.

Lemma pauses_perm e ps ps' set : ps ≡ₚ ps' → pauses e ps set = pauses e ps' set.
Proof.
  intros Hp. unfold pauses. enough (List.find (satisfied e ps) (extractApplicablePolicies e set) =
    List.find (satisfied e ps') (extractApplicablePolicies e set)) as -> by done.
  induction (extractApplicablePolicies e set) as [|r l IH]; cbn; [done|]. rewrite Hp at 1. by case_match.
Qed.

Lemma filter_perm {A} (f : A → bool) (l l' : list A) : l ≡ₚ l' → List.filter f l ≡ₚ List.filter f l'.
Proof. induction 1; cbn; repeat case_match; try (constructor; done); try reflexivity; by etrans. Qed.

(** The parties of a session (lib/srv/sess.go) are a map, visited in any order;
    those of its initiator do not count. *)
Definition guests (initiator : string) (parties : list SessionAccessContext) : list SessionAccessContext :=
  List.filter (fun party => negb (String.eqb (sac_Username party) initiator)) parties.
Definition checkIfStart (initiator : string) e (parties : list SessionAccessContext) : outcome (bool * PolicyOptions) :=
  FulfilledFor e (guests initiator parties).

(** the order in which the parties of a session are visited does not
    matter: two visits that give a verdict give the same one. *)
Theorem checkIfStart_order initiator e parties parties' v v' :
  counts_ok e → parties ≡ₚ parties' →
  checkIfStart initiator e parties = Some (Ok v) → checkIfStart initiator e parties' = Some (Ok v') → v = v'.
Proof.
  unfold checkIfStart. intros Hok Hp%(filter_perm (fun p => negb (String.eqb (sac_Username p) initiator))).
  fold (guests initiator parties) (guests initiator parties') in Hp.
  destruct v as [b [o]], v' as [b' [o']].
  intros [-> Ho]%policySetLoop_Ok [-> Ho']%policySetLoop_Ok; [|done..].
  cbn [TerminateOnLeave andb] in Ho, Ho'. subst o o'.
  f_equal; [|do 2 f_equal]; induction (e_policySets e) as [|set sets IH]; cbn;
    rewrite ?(set_fulfilled_perm _ _ _ _ Hp); try done; [by rewrite IH|].
  case_match; cbn; [|done]. by rewrite IH, (pauses_perm _ _ _ _ Hp).
Qed.

(** Nobody but the initiator: the session starts unless it is moderated. *)
Lemma policySetLoop_nobody e sets o :
  policySetLoop e [] sets o = done (negb (existsb (fun set => negb (is_empty (extractApplicablePolicies e set))) sets), o).
Proof.
  induction sets as [|set rest IH]; cbn; [done|]. destruct (extractApplicablePolicies e set) as [|r l]; cbn; [done|].
  by induction l.
Qed.

Lemma NewSessionAccessEvaluator_start sets kind owner :
  let e := NewSessionAccessEvaluator sets kind owner in
  FulfilledFor e [] = done (negb (e_isModerated e), MkPolicyOptions true).
Proof. apply policySetLoop_nobody. Qed.

(** A policy that is not satisfied has no say in what its absence does: with one
    policy set, a session that may not run is terminated, whatever its policies
    say of leaving. *)
Lemma on_leave_ignored e ps set b o :
  e_policySets e = [set] → counts_ok e →
  FulfilledFor e ps = Some (Ok (b, o)) → b = false → TerminateOnLeave o = true.
Proof.
  unfold FulfilledFor, counts_ok. intros ->. intros Hok [-> ->]%policySetLoop_Ok; [|done]. cbn.
  rewrite !andb_true_r. by intros ->.
Qed.
End running.

(** The filter of the documentation's example names [user.spec.roles], which no
    context defines. *)
Lemma GetIdentifier_spec_roles ctx : GetIdentifier ctx ["user"; "spec"; "roles"] = fails NotFound "%v is not defined".
Proof. reflexivity. Qed.
