(* ===== verification/RotationWitnesses.v ===== *)
(** * Rotations of concrete authorities: the theorems of [Rotation] applied *)

From Stdlib Require Import String.
From S2P Require Import Prelude.
From S2P Require Import Keys.
From S2P Require Import Rotation.
Local Open Scope string_scope.

(** A key store with one key pair of each kind, local keys when there are any,
    and libraries that accept all key material. *)
#[local] Instance demo_store : KeyStore := {|
  HasLocalAdditionalKeys ca := nonempty (TLS (AdditionalTrustedKeys ca));
  NewSSHKeyPair := Ok (MkSSH [3%Z] [4%Z] 0);
  NewTLSKeyPair _ := Ok (MkTLS [5%Z] [6%Z] 0);
  NewJWTKeyPair := Ok (MkJWT [7%Z] [8%Z] 0);
  ParseRawPrivateKey _ := Ok ();
  MarshalAuthorizedKey k := Ok k;
  GenerateSelfSignedCA k _ := Ok k;
  MarshalPrivateKey k := Ok (k, k)
|}.
#[local] Instance demo_material : KeyMaterial := {|
  ParseAuthorizedKey _ := true;
  ssh_ParsePrivateKey _ := Ok ();
  X509KeyPair _ _ := Ok ();
  ParsePrivateKey k := Ok k;
  ParseCertificatePEM _ := Ok ();
  ParsePublicKey k := Ok k;
  jwt_New _ _ _ := Ok ()
|}.

Definition old_keys : CAKeySet := MkKeySet [MkSSH [1%Z] [2%Z] 0] [MkTLS [1%Z] [2%Z] 0] [].
Definition new_keys : CAKeySet := MkKeySet [MkSSH [3%Z] [4%Z] 0] [MkTLS [5%Z] [6%Z] 0] [].
Definition host_ca : CertAuthority := MkCA HostCA "root" old_keys no_keys None.
Definition schedule : RotationSchedule := MkSchedule 10 20 30.
Definition init_req : rotationReq := MkReq host_ca RotationPhaseInit RotationModeAuto 30 schedule [].

Example rotation_edges_witness :
  ∃ ca', processRotationRequest 1 "id" init_req = Ok ca'.
Proof.
  apply (proj2 (rotation_edges 1 "id" init_req) new_keys); [reflexivity..|]. constructor. by right.
Defined.

(** The authority once the rotation has started, and once clients are updated. *)
Definition started : CertAuthority :=
  MkCA HostCA "root" old_keys new_keys
    (Some (MkRotation RotationStateInProgress RotationPhaseInit RotationModeAuto "id" 1 30 zero_time schedule)).
Definition clients_req : rotationReq := MkReq started RotationPhaseUpdateClients RotationModeManual 30 schedule [].
Definition clients_updated : CertAuthority :=
  MkCA HostCA "root" new_keys old_keys
    (Some (MkRotation RotationStateInProgress RotationPhaseUpdateClients RotationModeManual "id" 1 30 zero_time schedule)).

Example rotation_continuity_witness :
  trusts clients_updated old_keys ∧ trusts started new_keys.
Proof.
  apply (rotation_continuity 10 "id" clients_req clients_updated); [by intros [? _]|reflexivity].
Defined.

Example rotation_lifecycle_witness :
  [RotationPhaseUpdateClients] ∈ histories ∧
  Phase (GetRotation clients_updated) = last_phase [RotationPhaseUpdateClients] ∧
  (∃ new, rotation_keys init_req host_ca = Ok new ∧
    (ActiveKeys clients_updated, AdditionalTrustedKeys clients_updated) =
      history_keys old_keys new [RotationPhaseUpdateClients]).
Proof.
  apply (rotation_lifecycle 1 "id" init_req started [RotationPhaseUpdateClients] clients_updated);
    [reflexivity|reflexivity|discriminate|].
  apply (run_snoc started [] started 10 "id" clients_req clients_updated); [constructor|reflexivity|discriminate|reflexivity].
Defined.

Definition demo_stored (ca : CertAuthority) : Store := {[ (ca_Type ca, ca_Name ca) := ca ]}.

Example autoRotate_completes_witness :
  ∃ s1 s2 ca', auto_step 10 "id" HostCA "root" (demo_stored started) = Ok s1 ∧
    auto_step 25 "id" HostCA "root" s1 = Ok s2 ∧
    auto_step 30 "id" HostCA "root" s2 = Ok (<[ (HostCA, "root") := ca' ]> (demo_stored started)) ∧
    ActiveKeys ca' = new_keys ∧ AdditionalTrustedKeys ca' = no_keys ∧
    State (GetRotation ca') = RotationStateStandby ∧ Phase (GetRotation ca') = RotationPhaseStandby.
Proof.
  apply (autoRotate_completes 10 25 30 "id" (demo_stored started) started
    (MkRotation RotationStateInProgress RotationPhaseInit RotationModeAuto "id" 1 30 zero_time schedule));
    [reflexivity..|cbn; lia|cbn; lia|cbn; lia|reflexivity|reflexivity].
Defined.

(** The user authority holds the private key of the host authority. *)
Definition user_ca : CertAuthority := MkCA UserCA "root" old_keys no_keys None.
Definition db_ca : CertAuthority := MkCA DatabaseCA "root" (MkKeySet [] [MkTLS [9%Z] [9%Z] 0] []) no_keys None.

Example findDuplicatedCertificates_witness :
  let result := findDuplicatedCertificates (fun k => k) elements [HostCA]
    [(HostCA, host_ca); (UserCA, user_ca); (DatabaseCA, db_ca)] in
  NoDup result ∧ (UserCA ∈ result ↔ UserCA ∈ [HostCA] ∨
    1 ≠ 3 ∧ ∃ c, c ∈ [HostCA] ∧
      shares_key (fun k => k) [(HostCA, host_ca); (UserCA, user_ca); (DatabaseCA, db_ca)] UserCA c).
Proof.
  apply (findDuplicatedCertificates_correct (fun k => k) elements [HostCA]
    [(HostCA, host_ca); (UserCA, user_ca); (DatabaseCA, db_ca)] UserCA); [done|apply NoDup_singleton].
Defined.

Definition all_cas : Store :=
  {[ (HostCA, "root") := host_ca; (UserCA, "root") := user_ca; (DatabaseCA, "root") := db_ca;
     (JWTSigner, "root") := MkCA JWTSigner "root" (MkKeySet [] [] [MkJWT [1%Z] [2%Z] 0]) no_keys None ]}.
Definition host_request : RotateRequest := MkRequest HostCA (Some 30%Z) "" RotationModeAuto None.

Example RotateCertAuthority_prefix_witness :
  let '(r, s') := RotateCertAuthority (fun k => k) map_to_list elements 1 (fun t => t) "root" host_request [] all_cas in
  (∃ e, r = Err e ∧ s' = all_cas ∧
     (Request_CheckAndSetDefaults host_request 1 = Err e ∨ getAllCertificatesForRotation "root" all_cas = Err e)) ∨
  ∃ req' allCerts l rest, Request_CheckAndSetDefaults host_request 1 = Ok req' ∧
    getAllCertificatesForRotation "root" all_cas = Ok allCerts ∧
    findDuplicatedCertificates (fun k => k) elements (Types req') (map_to_list allCerts) = (l ++ rest)%list ∧
    Types req' ⊆ (l ++ rest)%list ∧ (r = Ok () ↔ rest = []) ∧
    (∀ t, t ∈ l → ∃ ca new, GetCertAuthority t "root" true all_cas = Ok ca ∧
       rotated_in 1 t req' [] ca new ∧ s' !! (t, "root") = Some new) ∧
    (∀ k, (∀ t, t ∈ l → k ≠ (t, "root")) → s' !! k = all_cas !! k).
Proof.
  destruct (RotateCertAuthority _ _ _ _ _ _ _ _ _) as [r s'] eqn:E.
  apply (RotateCertAuthority_prefix (fun k => k) map_to_list elements 1 (fun t => t) "root" host_request [] all_cas);
    [done|by apply (bool_decide_eq_true_1 _)|exact E].
Defined.
(** Both authorities that hold the key are rotated, the others are left alone. *)
Example RotateCertAuthority_duplicates :
  let '(r, s') := RotateCertAuthority (fun k => k) map_to_list elements 1 (fun t => t) "root" host_request [] all_cas in
  is_Ok r = true ∧
  map (fun t => Phase (GetRotation (default host_ca (s' !! (t, "root"))))) CertAuthTypes =
    [RotationPhaseInit; RotationPhaseInit; ""; ""].
Proof. by vm_compute. Qed.

Example rotation_request_accepted_witness : ∀ r' s,
  Request_CheckAndSetDefaults host_request 1 = Ok r' → req_Schedule r' = Some s →
  (1 ≤ UpdateClients s ≤ UpdateServers s ∧ UpdateServers s ≤ Standby s)%Z.
Proof. intros r' s E Hs. by apply (proj2 (rotation_request_accepted host_request 1) r' s). Defined.

Example autoRotate_on_schedule_witness : ∃ s',
  auto_step 12 "id" HostCA "root" (demo_stored started) = Ok s' ∧
  (s' = demo_stored started ∨ ∃ next new, due 12 (GetRotation started) next ∧ Phase (GetRotation new) = next ∧
     s' = <[ (HostCA, "root") := new ]> (demo_stored started)).
Proof.
  eexists. split; [reflexivity|].
  apply (autoRotate_on_schedule 12 "id" HostCA "root" (demo_stored started) started);
    [by apply (bool_decide_eq_true_1 _)|reflexivity|reflexivity].
Defined.

(** A rotated authority of a leaf cluster, sent to the root cluster. *)
Definition leaf_ca (keys : CAKeySet) : CertAuthority := MkCA HostCA "leaf" keys no_keys None.
Example RotateExternal_witness : ∃ s',
  RotateExternalCertAuthority "root" (Some (leaf_ca new_keys)) (demo_stored (leaf_ca (WithoutSecrets old_keys))) = Ok s' ∧
  "leaf" ≠ "root" ∧ (∀ k, k ≠ (HostCA, "leaf") → s' !! k = demo_stored (leaf_ca (WithoutSecrets old_keys)) !! k) ∧
  is_Some (demo_stored (leaf_ca (WithoutSecrets old_keys)) !! (HostCA, "leaf")) ∧
  ∃ new, s' !! (HostCA, "leaf") = Some new ∧ same_public (ActiveKeys new) new_keys ∧
    same_public (AdditionalTrustedKeys new) no_keys.
Proof.
  eexists. split; [reflexivity|].
  apply (RotateExternal_correct "root" (leaf_ca new_keys) (demo_stored (leaf_ca (WithoutSecrets old_keys))));
    [by apply (bool_decide_eq_true_1 _)|reflexivity].
Defined.
