(* ===== verification/RbacWitnesses.v ===== *)
(** * Concrete access-control runs

    The theorems on labels and role sets applied to concrete roles, with a
    regexp library of globs and the key order of a map. *)

From Stdlib Require Import Ascii String.
From S2P Require Import Prelude.
From S2P Require Import Keys.
From S2P Require Import Labels.
From S2P Require Import Role.
From S2P Require Import RoleSet.
From S2P Require Import RoleRules.
Local Open Scope string_scope.

(** ** Regular expressions and map order *)

(** Reads back the glob an expression was made from. *)
Fixpoint unglob (e : string) : option string :=
  match e with
  | EmptyString => None
  | String c r =>
      if Ascii.eqb c "$" then match r with EmptyString => Some EmptyString | _ => None end
      else if Ascii.eqb c "(" then
        match r with
        | String _ (String _ (String _ r)) => String "*" <$> unglob r
        | _ => None
        end
      else if Ascii.eqb c backslash then
        match r with String d r => String d <$> unglob r | _ => None end
      else String c <$> unglob r
  end.

(** A regexp library of the expressions [GlobToRegexp] makes; the case is never
    ignored. *)
Definition expr_glob (e : string) : option string :=
  match e with
  | String "(" (String _ (String _ (String _ (String _ e)))) | String "^" e => unglob e
  | _ => None
  end.
#[local] Instance glob_regexp : Regexp := {|
  re_Match := fun e s => (fun g => glob_match g s) <$> expr_glob e
|}.

Lemma unglob_GlobToRegexp g : unglob (GlobToRegexp g ++ "$") = Some g.
Proof.
  induction g as [|c g IH]; [reflexivity|]. cbn [GlobToRegexp].
  destruct (Ascii.eqb_spec c "*") as [->|Hs].
  { change (String "*" <$> unglob (GlobToRegexp g ++ "$") = Some (String "*" g)). by rewrite IH. }
  destruct (is_meta c) eqn:Hm.
  { change (String c <$> unglob (GlobToRegexp g ++ "$") = Some (String c g)). by rewrite IH. }
  assert (Ascii.eqb c "$" = false ∧ Ascii.eqb c "(" = false ∧ Ascii.eqb c backslash = false) as (H1 & H2 & H3).
  { destruct c as [[] [] [] [] [] [] [] []]; vm_compute in Hm; (discriminate || done). }
  change (unglob (String c (GlobToRegexp g ++ "$")) = Some (String c g)).
  cbn [unglob]. by rewrite H1, H2, H3, IH.
Qed.

#[local] Instance glob_regexp_laws : RegexpLaws.
Proof.
  split. intros g s _ _.
  change ((fun g => glob_match g s) <$> unglob (GlobToRegexp g ++ "$") = Some (glob_match g s)).
  by rewrite unglob_GlobToRegexp.
Qed.

#[local] Instance key_order : MapOrder := {| map_order := map_to_list |}.
#[local] Instance key_order_laws : MapOrderLaws.
Proof. by split. Qed.

Definition env_selector : Labels.Labels := {[ "env" := ["dev"; "prod-*"] ]}.

Lemma MatchLabels_correct_witness :
  (∃ b, MatchLabels env_selector {[ "env" := "prod-1" ]} = Ok b ∧
    (b = true ↔ env_selector ≠ ∅ ∧
      (env_selector !! Wildcard = Some [Wildcard] ∨
       ∀ k vs, env_selector !! k = Some vs → ∃ tv, ({[ "env" := "prod-1" ]} : gmap string string) !! k = Some tv ∧
         (Wildcard ∈ vs ∨ SliceMatchesRegex tv vs = Ok true)))) ∧
  MatchLabels env_selector {[ "env" := "prod-1" ]} = Ok true ∧
  MatchLabels env_selector {[ "env" := "test" ]} = Ok false.
Proof.
  split; [|split; vm_compute; reflexivity].
  apply (MatchLabels_correct env_selector {[ "env" := "prod-1" ]}).
  intros k vs tv Hs Ht _. unfold env_selector in Hs.
  apply lookup_singleton_Some in Hs as [<- <-]. apply lookup_singleton_Some in Ht as [_ <-].
  vm_compute. reflexivity.
Defined.

Lemma plain_values_are_globs_witness :
  SliceMatchesRegex "prod-1" ["dev"; "prod-*"] =
    Ok (existsb (fun g => glob_match g "prod-1") ["dev"; "prod-*"]) ∧
  SliceMatchesRegex "prod-1" ["dev"; "prod-*"] = Ok true.
Proof.
  split; [|vm_compute; reflexivity].
  apply (plain_values_are_globs "prod-1" ["dev"; "prod-*"]); [vm_compute; reflexivity|].
  repeat constructor; vm_compute; reflexivity.
Defined.

(** ** Role sets *)

(** A sort of slices: a merge sort. *)
Definition not_after {A} (less : A → A → bool) (x y : A) : Prop := less y x = false.
#[local] Instance not_after_dec {A} (less : A → A → bool) : RelDecision (not_after less).
Proof. intros x y. unfold not_after. apply _. Defined.
#[local] Instance merge_slices : GoSort := {|
  sort_Slice := fun A less l => merge_sort (not_after less) l
|}.
#[local] Instance merge_slices_laws : GoSortLaws.
Proof.
  split.
  - intros A less l. apply merge_sort_Permutation.
  - intros A less l (Hirr & Htr & Hneg). unfold sort_Slice, merge_slices.
    assert (Total (not_after less)).
    { intros x y. unfold not_after. destruct (less y x) eqn:Hyx; [right|by left].
      destruct (less x y) eqn:Hxy; [|done]. specialize (Htr x y x Hxy Hyx). by rewrite Hirr in Htr. }
    assert (Transitive (not_after less)).
    { intros x y z Hxy Hyz. exact (Hneg z y x Hyz Hxy). }
    exact (StronglySorted_merge_sort (not_after less) l).
Qed.

(** Developers reach the servers labelled [dev], under session MFA; guests reach
    all servers, but none as root. *)
Definition dev_allow : RoleConditions :=
  with_Namespaces (Some [defaults_Namespace])
    (with_Logins ["root"; "dev"] (with_NodeLabels (Some {[ "env" := ["dev"] ]})
      (with_KubeGroups ["edit"; "view"] (with_HostGroups ["docker"] (with_HostSudoers ["ALL"]
        (with_Rules [NewRule "session" ["list"]] empty_conditions)))))).
Definition dev_deny : RoleConditions :=
  with_Namespaces (Some [defaults_Namespace]) (with_Rules [NewRule Wildcard ["list"]] empty_conditions).
Definition dev_role : Role :=
  MkRole "role" "" "v5" (MkMetadata "dev" defaults_Namespace "" ∅ None 0%Z)
    (options_defaults (with_RequireMFAType RequireMFAType_SESSION empty_options)) dev_allow dev_deny.
Definition guest_role : Role :=
  MkRole "role" "" "v5" (MkMetadata "guest" defaults_Namespace "" ∅ None 0%Z) (options_defaults empty_options)
    (with_Namespaces (Some [defaults_Namespace]) (with_Logins ["guest"] (with_NodeLabels (Some all_labels)
      (with_Rules [NewRule "node" ["read"]] empty_conditions))))
    (with_Namespaces (Some [defaults_Namespace]) (with_Logins ["root"] (with_KubeGroups ["edit"] empty_conditions))).
Definition dev_server : AccessCheckable := MkCheckable "node" "server" "" {[ "env" := "dev" ]}.

Lemma checkAccess_grants_witness :
  checkAccess [dev_role; guest_role] dev_server (MkMFAParams MFARequiredPerRole true) [NewLoginMatcher "dev"] = Ok () ∧
  ∃ get, getRoleLabels "node" = Some get ∧
    (∀ role, role ∈ [dev_role; guest_role] → denies get dev_server [NewLoginMatcher "dev"] role = Ok false) ∧
    (∃ role, role ∈ [dev_role; guest_role] ∧ allows get dev_server [NewLoginMatcher "dev"] role = Ok true ∧
      (true = true ∨ MFARequiredPerRole = MFARequiredNever ∨
       MFARequiredPerRole = MFARequiredPerRole ∧ role_mfa role = false)).
Proof.
  split; [vm_compute; reflexivity|].
  apply (checkAccess_grants [dev_role; guest_role] dev_server (MkMFAParams MFARequiredPerRole true)
    [NewLoginMatcher "dev"]).
  vm_compute. reflexivity.
Defined.

Lemma checkAccess_MFA_witness :
  let get := fun r c => GetNodeLabels c r in
  let set := [dev_role; guest_role] in
  (checkAccess set dev_server (MkMFAParams (Required (MFAParams set RequireMFAType_OFF)) false)
     [NewLoginMatcher "dev"] = Ok () ↔
  (∀ role, role ∈ set → denies get dev_server [NewLoginMatcher "dev"] role = Ok false) ∧
  (∃ role, role ∈ set ∧ allows get dev_server [NewLoginMatcher "dev"] role = Ok true) ∧
  (false = true ∨ touch_required set RequireMFAType_OFF ∨
   IsSessionMFARequired RequireMFAType_OFF = false ∧
     ∀ role, role ∈ set → allows get dev_server [NewLoginMatcher "dev"] role = Ok true → role_mfa role = false)) ∧
  checkAccess set dev_server (MkMFAParams (Required (MFAParams set RequireMFAType_OFF)) false)
    [NewLoginMatcher "dev"] = Err ErrSessionMFARequired ∧
  checkAccess set dev_server (MkMFAParams MFARequiredNever false) [NewLoginMatcher "root"] = Err err_denied.
Proof.
  intros get set. split; [|split; vm_compute; reflexivity].
  apply (checkAccess_MFA set dev_server RequireMFAType_OFF false [NewLoginMatcher "dev"] get); [reflexivity|].
  intros role [->|[->|[]%not_elem_of_nil]%elem_of_cons]%elem_of_cons; split; vm_compute; reflexivity.
Defined.

Lemma CheckKubeGroupsAndUsers_correct_witness :
  let set := [dev_role; guest_role] in
  CheckKubeGroupsAndUsers set Hour true [NewLoginMatcher "root"] = Ok (["view"], []) ∧
  (∀ g, g ∈ ["view"] ↔
    (∃ role, role ∈ set ∧ MatchAll [NewLoginMatcher "root"] role Allow = Ok true ∧ ttl_ok Hour true role = true ∧
       g ∈ GetKubeGroups Allow role) ∧
    (∀ role, role ∈ set → MatchAny [NewLoginMatcher "root"] role Deny = Ok true → g ∉ GetKubeGroups Deny role)).
Proof.
  intros set.
  assert (CheckKubeGroupsAndUsers set Hour true [NewLoginMatcher "root"] = Ok (["view"], [])) as Hc
    by (vm_compute; reflexivity).
  split; [exact Hc|].
  exact (proj1 (CheckKubeGroupsAndUsers_correct set Hour true [NewLoginMatcher "root"] ["view"] [] Hc)).
Defined.

(** Both roles create host users. *)
Definition with_CreateHostUser : option bool → RoleOptions → RoleOptions :=
  ltac:(with_field options_eta CreateHostUser).
Definition creates : Role → Role := on_options (with_CreateHostUser (Some true)).

Lemma HostUsers_correct_witness :
  let set := [creates dev_role; creates guest_role] in
  HostUsers set {[ "env" := "dev" ]} = Ok (MkHostUsers ["docker"] ["ALL"]) ∧
  (∀ role, role ∈ set → node_match Allow {[ "env" := "dev" ]} role = Ok true →
     CreateHostUser (GetOptions role) = Some true) ∧
  is_Ok (HostUsers [creates dev_role; guest_role] {[ "env" := "dev" ]}) = false.
Proof.
  intros set.
  assert (HostUsers set {[ "env" := "dev" ]} = Ok (MkHostUsers ["docker"] ["ALL"])) as Hc
    by (vm_compute; reflexivity).
  split; [exact Hc|]. split; [|vm_compute; reflexivity].
  exact (proj1 (HostUsers_correct set {[ "env" := "dev" ]} _ Hc)).
Defined.

(** ** Rules *)

(** Predicates of two clauses, and a condition on the login of a session. *)
Definition where_parser : Parser nat := fun e =>
  if String.eqb e "yes" then Ok (Some (fun w => (true, w)))
  else if String.eqb e "no" then Ok (Some (fun w => (false, w)))
  else Err (Error BadParameter "parse").
Definition action_parser : Parser nat := fun _ => Ok (Some (fun w => (true, S w))).

Definition clause_rule (resource clause : string) (actions : list string) : Rule :=
  MkRule [resource] ["list"] clause actions.
Definition auditor : Role :=
  MkRole "role" "" "v5" (MkMetadata "auditor" defaults_Namespace "" ∅ None 0%Z) (options_defaults empty_options)
    (with_Namespaces (Some [defaults_Namespace])
      (with_Rules [clause_rule "event" "yes" ["log"]; clause_rule Wildcard "no" []] empty_conditions))
    (with_Namespaces (Some [defaults_Namespace]) (with_Rules [clause_rule "event" "no" []] empty_conditions)).

Lemma auditor_defined c : rules_defined where_parser action_parser c [auditor].
Proof.
  intros role rule ->%list_elem_of_singleton Hin. split; [|intros a _; eexists; reflexivity].
  right. destruct c; cbn in Hin; rewrite ?elem_of_cons, elem_of_nil in Hin;
    [destruct Hin as [->|[->|[]]]|destruct Hin as [->|[]]]; eexists _, _; (split; [reflexivity|]); reflexivity.
Qed.

Lemma MakeRuleSet_correct_witness :
  rules_of (MakeRuleSet [clause_rule "event" "" []; clause_rule "event" "yes" ["log"]]) "event" ≡ₚ
    naming "event" [clause_rule "event" "" []; clause_rule "event" "yes" ["log"]] ∧
  rules_of (MakeRuleSet [clause_rule "event" "" []; clause_rule "event" "yes" ["log"]]) "event" =
    [clause_rule "event" "yes" ["log"]; clause_rule "event" "" []].
Proof.
  split; [|vm_compute; reflexivity].
  apply (MakeRuleSet_correct [clause_rule "event" "" []; clause_rule "event" "yes" ["log"]] "event").
Defined.

Lemma CheckAccessToRule_correct_witness :
  ((CheckAccessToRule [auditor] (Ok where_parser) (Ok action_parser) "default" "event" "list" 0).1 = Ok () ↔
  (∀ role, role ∈ [auditor] → ¬ role_rule_applies where_parser Deny "default" "event" "list" role) ∧
  (∃ role, role ∈ [auditor] ∧ role_rule_applies where_parser Allow "default" "event" "list" role)) ∧
  CheckAccessToRule [auditor] (Ok where_parser) (Ok action_parser) "default" "event" "list" 0 = (Ok (), 1) ∧
  CheckAccessToRule [auditor] (Ok where_parser) (Ok action_parser) "default" "node" "list" 0 = (Err err_rule, 0).
Proof.
  split; [|split; vm_compute; reflexivity].
  apply (CheckAccessToRule_correct [auditor] where_parser action_parser); apply auditor_defined.
Defined.

Lemma GuessIfAccessIsPossible_complete_witness :
  (CheckAccessToRule [auditor] (Ok where_parser) (Ok action_parser) "default" "event" "list" 0).1 = Ok () ∧
  (GuessIfAccessIsPossible [auditor] (Ok action_parser) "default" "event" "list" 7).1 = Ok ().
Proof.
  assert ((CheckAccessToRule [auditor] (Ok where_parser) (Ok action_parser) "default" "event" "list" 0).1 = Ok ())
    as Hc by (vm_compute; reflexivity).
  split; [exact Hc|].
  apply (GuessIfAccessIsPossible_complete [auditor] where_parser action_parser "default" "event" "list" 0 7);
    [apply auditor_defined|apply auditor_defined|exact Hc].
Defined.

(** Clauses read as conditions on the login and the participants. *)
Definition expr_parser : ExprParser := fun e =>
  if String.eqb e "root" then Ok (Some (equals_expr (field_expr "login") (lit_expr (LitString "root"))))
  else if String.eqb e "joined" then
    Ok (Some (contains_expr (field_expr "participants") (lit_expr (LitString "alice"))))
  else Err (Error BadParameter "parse").
Definition viewer : Role :=
  MkRole "role" "" "v5" (MkMetadata "viewer" defaults_Namespace "" ∅ None 0%Z) (options_defaults empty_options)
    (with_Namespaces (Some [defaults_Namespace]) (with_Rules [clause_rule "session" "joined" []] empty_conditions))
    (with_Namespaces (Some [defaults_Namespace]) (with_Rules [clause_rule "session" "root" []] empty_conditions)).
Definition event : Fields := {[ "login" := VString "bob"; "participants" := VStrings ["alice"; "bob"] ]}.




(** Without the allow rules. *)
Definition denied_viewer : Role :=
  on_conditions Allow (with_Rules []) viewer.

Lemma denied_rules : resource_rules Deny "default" "session" [denied_viewer] = [clause_rule "session" "root" []].
Proof. vm_compute. reflexivity. Qed.

Lemma ExtractCondition_without_allow_witness :
  ∃ c, ExtractConditionForIdentifier [denied_viewer] (Ok expr_parser) "default" "session" "list" = Ok (Some c) ∧
    is_Ok (ToFieldsCondition (Some c)) = false.
Proof.
  apply (ExtractCondition_without_allow [denied_viewer] expr_parser "default" "session" "list" event).
  - rewrite denied_rules. intros rule ->%list_elem_of_singleton _. eexists. vm_compute. reflexivity.
  - rewrite denied_rules. eexists _, _. split; [by left|]. split; [right; vm_compute; reflexivity|].
    split; reflexivity.
  - rewrite denied_rules. intros rule e ->%list_elem_of_singleton _ He. vm_compute in He.
    injection He as <-. discriminate.
  - vm_compute. reflexivity.
Defined.

Lemma wildcard_deny_bypassed_witness :
  let check := (CheckAccessToRule [dev_role] (Ok where_parser) (Ok action_parser) "default" "session" "list" 0).1 in
  check = Err err_rule ∧ actionForListWithCondition check [dev_role] (Ok expr_parser) "default" "session" = Ok None.
Proof.
  apply (wildcard_deny_bypassed dev_role where_parser action_parser expr_parser 0); reflexivity.
Defined.

Lemma where_operators_correct_witness :
  let joined := contains_expr (field_expr "participants") (lit_expr (LitString "alice")) in
  let known := lit_expr (LitBool false) in
  parsed_value (AND joined known) event = Some (true && false) ∧
  parsed_value (OR joined known) event = Some (true || false) ∧
  parsed_value (NOT joined) event = Some (negb true).
Proof.
  intros joined known.
  apply (where_operators_correct joined known event true false); vm_compute; reflexivity.
Defined.
