(* ===== verification/Witnesses.v ===== *)
(** * Concrete runs

    The theorems proved against interfaces, applied to concrete states: the
    in-memory backend on a finite-map tree, and the event buffer on a
    finite-map radix tree. *)

From S2P Require Import Prelude.
From S2P Require Import GoHeap.
From S2P Require Import Keys.
From S2P Require Import Backend.
From S2P Require Import Locks.
From S2P Require Import LockedRun.
From S2P Require Import Sanitizer.
From S2P Require Import Memory.
From S2P Require Import Buffer.
Import Memory.Concrete.
Local Open Scope Z_scope.

(** ** Backends *)

Abbreviation Mem := (Memory (E:=list Event)).

Lemma fresh_live : live fresh_memory.
Proof. split; [apply New_inv|reflexivity]. Qed.

(** The state a call leaves. *)
Definition after {A} (c : goM Mem A) (m : Mem) : Mem :=
  match c m with Some (_, m') => m' | None => m end.

Lemma after_put_live now i m : live m → live (after (Put now i) m).
Proof.
  intros Hm. unfold after. destruct (bk_Put_law (BackendLaws:=memory_laws) now i m Hm) as (r & m' & Hr & Hl & _).
  cbn in Hr, Hl. by rewrite Hr.
Qed.

(** Three records of one directory, and two of which one's key extends the
    other's. *)
Definition dir_mem : Mem :=
  after (Put 0 (mkItem [47; 98] [2] zero_time 0 0))
    (after (Put 0 (mkItem [47; 97] [1] zero_time 0 0))
      (after (Put 0 (mkItem [47; 99] [3] zero_time 0 0)) fresh_memory)).
Definition nested_mem : Mem :=
  after (Put 0 (mkItem [97] [1] zero_time 0 0))
    (after (Put 0 (mkItem [97; 98] [2] zero_time 0 0)) fresh_memory).

Lemma dir_mem_live : live dir_mem.
Proof. repeat apply after_put_live. apply fresh_live. Qed.
Lemma nested_mem_live : live nested_mem.
Proof. repeat apply after_put_live. apply fresh_live. Qed.

Lemma view_forever (m : Mem) :
  bool_decide (map_Forall (fun _ i => it_Expires i = zero_time) (view m)) = true →
  ∀ k i, view m !! k = Some i → it_Expires i = zero_time.
Proof. intros H%bool_decide_eq_true k i Hi. exact (H k i Hi). Qed.

Lemma IterateRange_complete_witness :
  ∃ b', IterateRange 4 (fun _ => 0) [47] [48] 2 collect [] dir_mem
      = Some ((Some None, sorted_range [47] [48] (view dir_mem)), b') ∧
    view b' = view dir_mem.
Proof.
  apply (IterateRange_complete (BL:=memory_laws) 4 (fun _ => 0) [47] [48] 2 dir_mem).
  - exact dir_mem_live.
  - apply view_forever. vm_compute. reflexivity.
  - change (pageable [47] [48] (view dir_mem)).
    assert (range_keys [47] [48] (view dir_mem) = [[47; 97]; [47; 98]; [47; 99]]) as Hr
      by (vm_compute; reflexivity).
    intros k. rewrite Hr, !elem_of_cons. intros Hk. split_and!.
    + destruct Hk as [->|[->|[->|[]%not_elem_of_nil]]]; eval_decide.
    + destruct Hk as [->|[->|[->|[]%not_elem_of_nil]]]; eval_decide.
    + intros k'. rewrite !elem_of_cons. intros Hk'.
      destruct Hk as [->|[->|[->|[]%not_elem_of_nil]]],
        Hk' as [->|[->|[->|[]%not_elem_of_nil]]];
        (reflexivity || (intros Hp; vm_compute in Hp; discriminate)).
  - discriminate.
  - discriminate.
  - reflexivity.
  - apply Nat.ltb_lt. vm_compute. reflexivity.
Defined.

Lemma IterateRange_skips_witness :
  sorted_range [97] [98] (view nested_mem)
    = [mkItem [97] [1] zero_time 2 0; mkItem [97; 98] [2] zero_time 1 0] ∧
  ∃ b', IterateRange 2 (fun _ => 0) [97] [98] 1 collect [] nested_mem
    = Some ((Some None, [mkItem [97] [1] zero_time 2 0]), b').
Proof.
  apply (IterateRange_skips (BL:=memory_laws) 2 (fun _ => 0) [97] [98] [97] 98 []);
    [exact nested_mem_live|vm_compute; reflexivity|reflexivity|reflexivity| | |discriminate|
     discriminate|reflexivity|reflexivity|lia]; eval_decide.
Defined.

(** ** Locks *)

Definition demo_key : bytes := lockKey [bytes_of_string "ca"].
Definition demo_lock : Lock := mkLock demo_key [1] (10 * Second).
Definition demo_lock_item : Item := mkItem demo_key [1] (10 * Second) 0 0.
Definition locked_mem : Mem := after (AcquireLock_attempt 0 0 demo_key [1] (10 * Second)) fresh_memory.

Lemma locked_mem_live : live locked_mem.
Proof.
  unfold locked_mem, after.
  destruct (attempt_spec (BL:=memory_laws) 0 0 demo_key [1] (10 * Second) fresh_memory fresh_live)
    as (r & m' & Hr & Hl & _); [discriminate|]. by rewrite Hr.
Qed.

Lemma locked_mem_held : held (BL:=memory_laws) demo_key demo_lock_item locked_mem.
Proof. vm_compute. reflexivity. Qed.

Definition intruders : list (lock_op * Z * Z) :=
  [(LAttempt demo_key [2] 5, 1, 2); (LRelease (mkLock demo_key [2] 5), 3, 4);
   (LRefresh (mkLock demo_key [2] 5), 5, 6)].

Lemma lock_exclusive_witness :
  ∃ rs b', run_lock_ops intruders locked_mem = Some (rs, b') ∧
    held demo_key demo_lock_item b' ∧
    Forall2 (fun o r => lop_key o.1.1 = demo_key → is_Ok r = false) intruders rs.
Proof.
  apply (lock_exclusive (BL:=memory_laws) demo_key demo_lock_item intruders locked_mem).
  - exact locked_mem_live.
  - exact locked_mem_held.
  - repeat (apply Forall_cons; split;
      [split_and!; [reflexivity|reflexivity|left; right; discriminate]|]).
    apply Forall_nil. exact I.
Defined.

(** Waiting changes nothing. *)
Definition idle : nat → goM Mem (option error) := fun _ => mret None.

Lemma AcquireLock_acquires_witness :
  runs (BL:=memory_laws)
    (AcquireLock 2 (fun n => (Z.of_nat n * 20 * Second, Z.of_nat n * 20 * Second)) idle
       (bytes_of_string "ca") (Ok [2]) 5) locked_mem
    (fun r b' => r = Some (Ok (mkLock demo_key [2] 5)) ∧
       ∃ x c, (x ≤ 1)%nat ∧
         held demo_key (mkItem demo_key [2] (Z.of_nat x * 20 * Second + 5) c 0) b').
Proof.
  apply (AcquireLock_acquires (BL:=memory_laws) 1 2
    (fun n => (Z.of_nat n * 20 * Second, Z.of_nat n * 20 * Second)) idle (bytes_of_string "ca") [2] 5).
  - exact locked_mem_live.
  - discriminate.
  - intros n b Hb. exists None, b. split_and!; [reflexivity|exact Hb|reflexivity|]. intros j Hj. exact Hj.
  - intros j Hj. pose proof locked_mem_held as Hh. unfold held, demo_key in *.
    rewrite Hh in Hj. injection Hj as <-. split; [discriminate|]. vm_compute. reflexivity.
  - lia.
Defined.

(** While the function runs, another client tries to take the lock, the
    goroutine refreshes it, and someone releases it with the wrong identity. *)
Definition locked_events : list locked_event :=
  [Other (LAttempt demo_key [9] 100) 1 2; Refresh 3 4; Other (LRelease (mkLock demo_key [9] 100)) 6 7].

Lemma RunWhileLocked_exclusive_witness :
  runs (BL:=memory_laws)
    (RunWhileLocked 2 (fun n => (Z.of_nat n * 20 * Second, Z.of_nat n * 20 * Second)) idle
       (bytes_of_string "ca") (Ok [2]) 5 locked_events (fun _ => None) 7 8) locked_mem
    (fun '(errs, rs) b' => errs = Some [] ∧
       Forall2 (fun o r => lop_key o = demo_key → is_Ok r = false) (others locked_events) rs ∧
       view b' !! demo_key = None).
Proof.
  apply (RunWhileLocked_exclusive (BL:=memory_laws) 1 2
    (fun n => (Z.of_nat n * 20 * Second, Z.of_nat n * 20 * Second)) idle (bytes_of_string "ca") [2] 5
    locked_events (fun _ => None) 7 8).
  - exact locked_mem_live.
  - discriminate.
  - intros n b Hb. exists None, b. split_and!; [reflexivity|exact Hb|reflexivity|]. intros j Hj. exact Hj.
  - intros j Hj. pose proof locked_mem_held as Hh. unfold held, demo_key in *.
    rewrite Hh in Hj. injection Hj as <-. split; [discriminate|]. vm_compute. reflexivity.
  - lia.
  - intros x _. cbn [paced locked_events snd]. unfold Second in *. split_and!; try lia.
    + right. exists demo_key, [9], 100. reflexivity.
    + left. right. discriminate.
Defined.

Lemma lock_owner_calls_witness :
  runs (BL:=memory_laws) (Release 1 2 demo_lock) locked_mem
    (fun r b' => r = Ok () ∧ view b' !! demo_key = None) ∧
  runs (BL:=memory_laws) (resetTTL 1 2 demo_lock) locked_mem
    (fun r b' => r = Ok () ∧
      ∃ n, held demo_key (with_ID n (with_Expires (2 + 10 * Second) demo_lock_item)) b').
Proof.
  apply (lock_owner_calls (BL:=memory_laws) demo_lock demo_lock_item 1 2 locked_mem);
    [exact locked_mem_live|discriminate|exact locked_mem_held|reflexivity|reflexivity|reflexivity].
Defined.

Lemma Release_race_witness :
  runs (BL:=memory_laws)
    (c ← Release_check 1 demo_lock;
     a ← AcquireLock_attempt (20 * Second) (20 * Second) demo_key [2] (10 * Second);
     d ← bk_Delete (21 * Second) demo_key;
     mret (c, a, d)) locked_mem
    (fun r b' => r = (Ok (), Ok (mkLock demo_key [2] (10 * Second)), Ok ()) ∧
       view b' !! demo_key = None).
Proof.
  apply (Release_race (BL:=memory_laws) demo_lock demo_lock_item);
    [exact locked_mem_live|discriminate|exact locked_mem_held|reflexivity|reflexivity|discriminate|
     reflexivity|reflexivity].
Defined.

(** ** The sanitizer *)

Lemma Sanitizer_keeps_safe_witness :
  ∃ rs s', mapM (fun '(c, now) => run_call c now)
      [(CPut (mkItem [47; 97] [] zero_time 0 0), 0); (CPut (mkItem [42] [] zero_time 0 0), 1)]
      (NewSanitizer dir_mem) = Some (rs, s') ∧
    live (sz_backend s') ∧ all_safe (view (sz_backend s')).
Proof.
  apply (Sanitizer_keeps_safe (BL:=memory_laws)
    [(CPut (mkItem [47; 97] [] zero_time 0 0), 0); (CPut (mkItem [42] [] zero_time 0 0), 1)]
    (NewSanitizer dir_mem)).
  - exact dir_mem_live.
  - assert (map_Forall (fun k (_ : Item) => isKeySafe k = true) (view dir_mem)) as H by eval_decide.
    intros k i Hi. exact (H k i Hi).
Defined.

(** ** The memory backend *)

Lemma Memory_events_replay_witness :
  ∃ rs m' evs, mapM (fun '(c, now) => run_mem_call c now)
      [(MCall (CDelete [97]), 5); (MPutRange [(mkItem [98] [] zero_time 0 0, false)], 6)]
      nested_mem = Some (rs, m') ∧
    mem_inv m' ∧
    mm_buf m' = (if EventsOff nested_mem then mm_buf nested_mem else emit_all evs (mm_buf nested_mem)) ∧
    view m' = replay evs (view nested_mem).
Proof. apply Memory_events_replay. exact (proj1 nested_mem_live). Defined.

Lemma Memory_Get_expiry_witness :
  ∃ r m', Get (11 * Second) demo_key locked_mem = Some (r, m') ∧
    (∀ i, r = Ok i → view locked_mem !! demo_key = Some i ∧
       (Mirror locked_mem = false →
        it_Expires i = zero_time ∨ time_unix (11 * Second) ≤ time_unix (it_Expires i))) ∧
    (∀ i, view locked_mem !! demo_key = Some i →
       Mirror locked_mem = true ∨ ¬ expired (11 * Second) i → r = Ok i).
Proof. apply Memory_Get_expiry; [exact (proj1 locked_mem_live)|discriminate]. Defined.

(** ** The buffer *)

#[export] Instance map_radix : Radix := {
  radix := gmap bytes (list wid);
  rx_New := ∅;
  rx_Get := fun k t => t !! k;
  rx_Insert := fun k v t => <[k := v]> t;
  rx_Delete := fun k t => delete k t;
  rx_WalkPath := fun k t => entries (fun p => has_prefix k p) t;
  rx_Walk := fun t => entries (fun _ => true) t
}.

#[export] Program Instance map_radix_laws : RadixLaws := { rx_view := fun t => t }.
Solve Obligations with done.

Definition put_event (k : bytes) : Event := mkEvent OpPut (key_item k).

(** A channel of one event; the watcher of [/a] has its init event in it, and
    two events behind. *)
Definition buf0 : CircularBuffer := w_buf (start_world 1 0).
Definition buf1 : CircularBuffer := SetInit buf0.
Definition buf2 : CircularBuffer :=
  match NewWatcher (mkWatch [[47; 97]; [47; 97; 98]] 0) buf1 with Some (_, c) => c | None => buf1 end.
Definition burst : list Event := [put_event [47; 97; 98]; put_event [47; 98]; put_event [47; 97]].
Definition buf3 : CircularBuffer :=
  match Emit 7 burst buf2 with Some (_, c) => c | None => buf2 end.
Definition world3 : bworld := mkBWorld buf3 {[ 0%nat := [] ]} burst {[ 0%nat := 0%nat ]}.

Lemma world3_reachable : rtc bstep (start_world 1 0) world3.
Proof.
  eapply rtc_l; [apply bs_init|].
  eapply rtc_l; [apply (bs_watch _ (mkWatch [[47; 97]; [47; 97; 98]] 0) 0%nat buf2); vm_compute; reflexivity|].
  eapply rtc_l; [apply (bs_emit _ 7 burst buf3); vm_compute; reflexivity|].
  apply rtc_refl.
Qed.

Definition slow : BufferWatcher :=
  mkBW [[47; 97]] [init_event] [put_event [47; 97; 98]; put_event [47; 97]] 7 false true true 1.

Lemma slow_registered : registered buf3 0%nat.
Proof. exists [47; 97], [0%nat]. split; [vm_compute; reflexivity|by left]. Qed.

Lemma buffer_delivery_witness :
  got world3 0 ++ bw_eventsC slow ++ bw_backlog slow =
    init_event :: filter (fun e => matches (bw_Prefixes slow) (it_Key (ev_Item e)) = true)
      (drop (from world3 0) (w_log world3)) ∧
  Z.of_nat (length (bw_eventsC slow)) ≤ bw_capacity slow.
Proof.
  apply (buffer_delivery (RXL:=map_radix_laws) 1 0 world3).
  - exact world3_reachable.
  - vm_compute. reflexivity.
  - exact slow_registered.
  - vm_compute. reflexivity.
Defined.

Lemma buf3_ok : buf_ok (RXL:=map_radix_laws) buf3.
Proof.
  assert (winv world3) as Hw; [|apply Hw].
  pose proof (start_winv (RXL:=map_radix_laws) 1 0) as Hw0.
  pose proof world3_reachable as Hr. induction Hr; [done|].
  apply IHHr; [done..|]. by eapply bstep_winv.
Qed.

Lemma buffer_drops_only_overdue_witness :
  registered (fanOutEvent (100 * Second) (put_event [47; 97]) buf3) 0%nat ∨
  ∃ bw', cb_store (fanOutEvent (100 * Second) (put_event [47; 97]) buf3) !! 0%nat = Some bw' ∧
    bw_cancelled bw' = true ∧ stream bw' = stream slow ∧
    bw_backlogSince slow + bc_gracePeriod (cb_cfg buf3) < 100 * Second.
Proof.
  apply (buffer_drops_only_overdue (RXL:=map_radix_laws)).
  - exact buf3_ok.
  - vm_compute. reflexivity.
  - exact slow_registered.
  - vm_compute. reflexivity.
Defined.
