(* ===== verification/RequestWitnesses.v ===== *)
(** * Concrete runs of access requests

    The theorems on matchers, traits, requests and their storage applied to
    concrete roles, users and requests, with a parser of selectors, the globs
    and the in-memory backend of the other concrete runs. *)

From Stdlib Require Import Ascii String.
From S2P Require Import Prelude.
From S2P Require Import GoSlice.
From S2P Require Import Keys.
From S2P Require Import Backend.
From S2P Require Import Memory.
From S2P Require Import Labels.
From S2P Require Import Parse.
From S2P Require Import Role.
From S2P Require Import Traits.
From S2P Require Import RoleSet.
From S2P Require Import AccessRequest.
From S2P Require Import Reviews.
From S2P Require Import RequestValidator.
From S2P Require Import RequestChecks.
From S2P Require Import DynamicAccess.
From S2P Require Import RbacWitnesses.
From S2P Require Import Witnesses.
Import Memory.Concrete.
Local Open Scope string_scope.

#[local] Existing Instances glob_regexp glob_regexp_laws key_order key_order_laws.

(** ** Libraries *)

(** Selectors [a.b], and one call that is indexed by another. *)
Definition match_text : string := "regexp.match(`^a$`)[regexp.match(`^b$`)]".
Definition call_of (arg : string) : Expr :=
  call RegexpNamespace RegexpMatchFnName [BasicLit true arg].
Fixpoint cut_dot (s : string) : option (string * string) :=
  match s with
  | EmptyString => None
  | String c s => if Ascii.eqb c "." then Some ("", s) else '(a, b) ← cut_dot s; Some (String c a, b)
  end.
(** A role name that is an expansion of the whole match. *)
#[local] Instance tiny_libs : GoLibs := {|
  ParseExpr := fun s =>
    if String.eqb s match_text then Ok (IndexExpr (call_of "`^a$`") (call_of "`^b$`")) else
    match cut_dot s with
    | Some (a, b) => Ok (SelectorExpr (Ident a) b)
    | None => Ok (Ident s)
    end;
  Unquote := fun s =>
    match s with
    | String "`" r => Ok (String.substring 0 (String.length r - 1) r)
    | _ => Err (Error PlainError "invalid syntax")
    end;
  ParseAddress := fun s => Ok s;
  re_Compiles := fun e => bool_decide (is_Some (re_Match e ""));
  ReplaceAllString := fun _ s replacement => if String.eqb replacement "$0" then s else replacement
|}.
#[local] Instance tiny_libs_laws : GoLibsLaws.
Proof.
  split. intros re s. cbn [re_Compiles tiny_libs]. rewrite bool_decide_eq_true.
  unfold re_Match, glob_regexp. by rewrite !fmap_is_Some.
Qed.
#[local] Instance nonempty_users : UnixUsers := {| IsValidUnixUser := fun s => negb (String.eqb s "") |}.

(** ** Matchers and traits *)

Lemma NewMatcher_glob_witness :
  (∃ m, NewMatcher "prod-*" = Ok m ∧ Match m "prod-db" = Some (glob_match "prod-*" "prod-db")) ∧
  glob_match "prod-*" "prod-db" = true.
Proof. split; [apply (NewMatcher_glob "prod-*" "prod-db"); reflexivity|reflexivity]. Defined.

Lemma no_brace_dec s : forallb (fun c => negb (is_brace c)) (String.list_ascii_of_string s) = true → no_brace s.
Proof.
  intros Hb c Hc. rewrite forallb_forall in Hb. apply list_elem_of_In in Hc.
  by apply negb_true_iff, Hb.
Qed.
Lemma NewMatcher_panics_witness :
  ∃ m, NewMatcher (template "x-" match_text "") = Ok m ∧ Match m "x-y" = None.
Proof.
  apply (NewMatcher_panics "x-" match_text "" "`^a$`" "`^b$`" "^a$" "^b$");
    (apply no_brace_dec; vm_compute; reflexivity) || (vm_compute; reflexivity).
Defined.

(** A mapping of teams to roles of the same name, and to the roles of a pattern. *)
Definition team_mappings : list TraitMapping :=
  [MkTraitMapping "team" "*" ["$0"]; MkTraitMapping "team" "db" ["db-*"]].

Lemma TraitsToRoleMatchers_literal_witness :
  (∃ l, TraitsToRoleMatchers team_mappings {[ "team" := ["*"; "db"] ]} = Ok l ∧ length l = 3%nat ∧
    ∀ m, m ∈ l →
    (∃ role, m = literalMatcher role ∧ ∀ s, Match m s = Some (String.eqb role s)) ∨
    (∃ mapping role, mapping ∈ team_mappings ∧ role ∈ tm_Roles mapping ∧ ContainsExpansion role = false ∧
      NewMatcher role = Ok m)).
Proof.
  destruct (TraitsToRoleMatchers team_mappings {[ "team" := ["*"; "db"] ]}) as [l|] eqn:E;
    [|vm_compute in E; discriminate E].
  exists l. split; [reflexivity|]. split; [vm_compute in E; injection E as <-; reflexivity|].
  intros m. exact (TraitsToRoleMatchers_literal team_mappings {[ "team" := ["*"; "db"] ]} l m E).
Defined.

Definition ext_role : Role :=
  MkRole "role" "" "v5" (MkMetadata "ext" defaults_Namespace "" ∅ None 0%Z)
    (with_CertExtensions (fun _ => [MkCertExtension 0 0 "login@host" "{{external.ext}}"]) empty_options)
    empty_conditions empty_conditions.
Definition ext_traits : UserTraits := {[ "ext" := ["{{external.team}}"]; "team" := ["db"] ]}.

Lemma ApplyTraits_extension_twice_witness :
  MkCertExtension 0 0 "login@host" "db" ∈ CertExtensions (GetOptions (ApplyTraits ext_role ext_traits)).
Proof.
  apply (ApplyTraits_extension_twice ext_role ext_traits (MkCertExtension 0 0 "login@host" "{{external.ext}}")
    "{{external.team}}" "db" [] []); [left|vm_compute; reflexivity|vm_compute; reflexivity].
Defined.

(** ** Requests and reviews *)

(** Predicates: [true], and all else an error; identifiers have some length. *)
Definition eval_true (s : string) : result bool :=
  if String.eqb s "true" then Ok true else Err (Error BadParameter "unknown predicate").
#[local] Instance true_libs : RequestLibs := {|
  EvalThreshold := fun _ => eval_true;
  EvalPermission := fun _ => eval_true;
  valid_uuid := fun s => negb (String.eqb s "")
|}.
#[local] Instance map_visits : GoMapOrder := {| go_order := fun A _ m => map_to_list m |}.
#[local] Instance map_visits_laws : GoMapOrderLaws.
Proof. by split. Qed.
#[local] Instance twice_grow : GoGrow := {| go_grow := fun old needed => Nat.max needed (2 * old) |}.
#[local] Instance twice_grow_laws : GoGrowLaws.
Proof. split. cbn. lia. Qed.

Definition two_approvals : AccessReviewThreshold := MkAccessReviewThreshold "two" "" 2 1.
(** Developers request production roles with two approvals, and search as [ops];
    support requests nothing but [helpdesk]. *)
Definition with_requests (c : AccessRequestConditions) (name : string) : Role :=
  MkRole "role" "" "v5" (MkMetadata name defaults_Namespace "" ∅ None 0%Z)
    (options_defaults empty_options) (with_Request (Some c) empty_conditions) empty_conditions.
Definition requester : Role :=
  with_requests (MkAccessRequestConditions ["prod-*"; "staging"; "test"] [] ∅ [two_approvals] ["bob"] ["ops"]) "dev".
Definition support : Role :=
  with_requests (MkAccessRequestConditions ["helpdesk"] [] ∅ [] [] []) "support".

Definition ops_role : Role :=
  MkRole "role" "" "v5" (MkMetadata "ops" defaults_Namespace "" ∅ None 0%Z) (options_defaults empty_options)
    (with_Namespaces (Some [defaults_Namespace]) (with_Logins ["root"] (with_NodeLabels (Some {[ "env" := ["prod"] ]})
      empty_conditions))) empty_conditions.
Definition prod_server : AccessCheckable := MkCheckable "node" "db-1" "" {[ "env" := "prod" ]}.

#[local] Instance tiny_cluster : ValidatorGetter := {|
  GetUser := fun name => Ok (MkUser name ["dev"; "support"] ∅);
  GetRole := fun name =>
    if String.eqb name "dev" then Ok requester else if String.eqb name "support" then Ok support
    else if String.eqb name "ops" then Ok ops_role else Err (Error NotFound "role not found");
  GetAllRoles := Ok [requester; support; ops_role; with_requests (MkAccessRequestConditions [] [] ∅ [] [] []) "prod-db"];
  GetClusterName := Ok "main";
  ListResources := fun _ => Ok [NodeServer prod_server []];
  Quote := fun s => "`" ++ s ++ "`"
|}.

Definition alice : RequestValidator :=
  match NewRequestValidator "alice" true with Ok m => m | Err _ => empty_validator (MkUser "" [] ∅) true end.
Lemma alice_ok : NewRequestValidator "alice" true = Ok alice.
Proof. vm_compute. reflexivity. Qed.

(** A fresh request of one role, and what validation makes of it. *)
Definition fresh_request (roles : list string) (ids : list ResourceID) : AccessRequest :=
  MkRequest "r1" None "alice" roles PENDING 0 100 "" "" ∅ ∅ [] ∅ [] [] ids "" false.
Definition valid_of (req : AccessRequest) : AccessRequest :=
  match Validate alice req with Some (Ok r) => r | _ => req end.
Definition prod_request : AccessRequest := valid_of (fresh_request ["prod-db"] []).
Definition approve (who : string) : Z * AccessReview * User :=
  (5%Z, MkReview who [] APPROVED "fine" zero_time ∅ [], MkUser who [] ∅).
Definition reviewed (subs : list (Z * AccessReview * User)) : AccessRequest :=
  match submit subs prod_request with Ok r => r | Err _ => prod_request end.
Definition approved_request : AccessRequest := reviewed [approve "bob"; approve "carol"].

(** By computation on concrete thresholds and reviews. *)
Lemma unsigned_dec m :
  forallb (fun g => forallb (fun t => (0 <=? th_Approve t)%Z && (0 <=? th_Deny t)%Z) g.2) (ThresholdMatchers m) = true →
  unsigned m.
Proof.
  intros Hm g t Hg Ht. rewrite forallb_forall in Hm. apply list_elem_of_In in Hg. specialize (Hm _ Hg).
  rewrite forallb_forall in Hm. apply list_elem_of_In in Ht. specialize (Hm _ Ht).
  apply andb_true_iff in Hm as [?%Z.leb_le ?%Z.leb_le]. done.
Qed.

Lemma approved_request_reviewed_witness :
  submit [approve "bob"; approve "carol"] prod_request = Ok approved_request ∧
  ∃ t revs, t ∈ effective [two_approvals] ∧ (0 < th_Approve t ≤ Z.of_nat (length revs))%Z ∧
    revs `sublist_of` Reviews approved_request ∧ NoDup (map rv_Author revs) ∧
    ∀ rev, rev ∈ revs → ProposedState rev = APPROVED.
Proof.
  split; [vm_compute; reflexivity|].
  apply (approved_request_reviewed alice (fresh_request ["prod-db"] []) prod_request [approve "bob"; approve "carol"]
    approved_request "prod-db" [two_approvals]); try (vm_compute; reflexivity).
  - apply unsigned_dec. vm_compute. reflexivity.
  - intros E. vm_compute in E. discriminate E.
  - apply list_elem_of_In. vm_compute. by left.
  - apply list_elem_of_In. vm_compute. by left.
Defined.

Lemma review_history_witness :
  (config approved_request = config prod_request ∧ tallied approved_request ∧ length (Reviews approved_request) = 2%nat) ∧
  ar_State (reviewed [approve "bob"]) = PENDING ∧ ar_State approved_request = APPROVED.
Proof.
  split; [|split; vm_compute; reflexivity].
  apply (review_history [approve "bob"; approve "carol"] prod_request approved_request); try (vm_compute; reflexivity).
  - vm_compute. constructor; [split; discriminate|constructor].
  - assert (RoleThresholdMapping prod_request = {[ "prod-db" := [[0%Z]] ]}) as -> by (vm_compute; reflexivity).
    intros role sets Hl. apply lookup_singleton_Some in Hl as [_ <-].
    repeat constructor; unfold in_range; vm_compute; congruence.
  - assert (RoleThresholdMapping prod_request = {[ "prod-db" := [[0%Z]] ]}) as -> by (vm_compute; reflexivity).
    intros Ha. destruct (Ha "prod-db" [[0%Z]] (lookup_singleton_eq _ _) [0%Z]) as (tid & Ht & t & Hl & _ & Hv); [left|].
    apply list_elem_of_singleton in Ht as ->. vm_compute in Hl. injection Hl as <-. vm_compute in Hv. congruence.
Defined.

Lemma CanReviewRequest_correct_witness :
  let c := MkChecker (MkUser "bob" [] ∅) {[ "" := [literalMatcher "prod-db"]; "true" := [literalMatcher "staging"] ]} ∅ in
  CanReviewRequest c prod_request = Some (Ok true) ∧ may_review c prod_request.
Proof.
  intros c. split; [vm_compute; reflexivity|].
  apply (CanReviewRequest_correct c prod_request true); [vm_compute; reflexivity|reflexivity].
Defined.

(** ** Validators *)

Lemma NewRequestValidator_correct_witness :
  (∃ user roles allows denies,
    GetUser "alice" = Ok user ∧ v_user alice = user ∧ expandVars alice = true ∧
    Forall2 (fun n r => GetRole n = Ok r) (user_Roles user) roles ∧ compiled_ok alice roles allows denies ∧
    (∀ name, CanRequestRole alice name = Some (Ok true) ↔
      match_any (mjoin denies) name = Some false ∧ match_any (mjoin allows) name = Some true)) ∧
  CanRequestRole alice "prod-db" = Some (Ok true) ∧ CanRequestRole alice "ops" = Some (Ok false) ∧
  CanSearchAsRole alice "ops" = Some (Ok true).
Proof.
  split; [|split_and!; vm_compute; reflexivity].
  destruct (NewRequestValidator_correct "alice" true alice alice_ok)
    as (user & roles & allows & denies & ? & ? & ? & ? & ? & ? & _).
  exists user, roles, allows, denies. split_and!; assumption.
Defined.

(** The role that [requester] searches as is overwritten by what [support] may
    request: a request for resources is then refused as a bug. *)
Lemma push_overwrites_search_witness :
  let start := empty_validator (MkUser "alice" ["dev"; "support"] ∅) true in
  let m1 := match push requester start with Ok m => m | Err _ => start end in
  (∃ g n, ThresholdMatchers m1 = (ThresholdMatchers start ++ [g])%list ∧ g ∈ ThresholdMatchers alice ∧
    matchers_of m1 g.1 !! n = Some (literalMatcher "ops") ∧ matchers_of alice g.1 !! n = Some (regexpMatcher "^helpdesk$")) ∧
  Validate m1 (fresh_request [] [MkResourceID "main" "node" "db-1"]) ≠ Some (Err err_no_sets) ∧
  Validate alice (fresh_request [] [MkResourceID "main" "node" "db-1"]) = Some (Err err_no_sets).
Proof.
  intros start m1. split; [|split; [|vm_compute; reflexivity]].
  - apply (push_overwrites_search requester support start m1 alice "ops" [] (regexpMatcher "^helpdesk$") []);
      try (vm_compute; reflexivity).
    apply nil_slice_ok.
  - intros E. vm_compute in E. discriminate E.
Defined.

Lemma pruneResourceRequestRoles_correct_witness :
  pruneResourceRequestRoles alice [MkResourceID "main" "node" "db-1"] "root" ["ops"] = Ok ["ops"] ∧
  ∃ set resources, FetchRoles ["ops"] (user_Traits (v_user alice)) = Ok set ∧
    GetResourcesByResourceIDs [MkResourceID "main" "node" "db-1"] = Ok resources ∧ NoDup ["ops"] ∧ ["ops"] ≠ [] ∧
    ∀ name, name ∈ ["ops"] ↔ ∃ r rs role, r ∈ resources ∧ role ∈ picked "root" rs ∧ GetName role = name ∧
      roles_for_resource set r "root" = Ok rs ∧
      ∀ role, role ∈ rs ↔ role ∈ set ∧ roleAllowsResource role r "root" = Ok true.
Proof.
  split; [vm_compute; reflexivity|].
  apply (pruneResourceRequestRoles_correct alice [MkResourceID "main" "node" "db-1"] "root" ["ops"] ["ops"] "main").
  - discriminate.
  - reflexivity.
  - intros id ->%list_elem_of_singleton. reflexivity.
  - vm_compute. reflexivity.
Defined.

Definition with_n_logins (name : string) (logins : list string) : Role :=
  MkRole "role" "" "v5" (MkMetadata name defaults_Namespace "" ∅ None 0%Z) empty_options
    (with_Logins logins empty_conditions) empty_conditions.
Lemma fewestLogins_last_witness :
  let three := with_n_logins "three" ["a"; "b"; "c"] in
  let one := with_n_logins "one" ["a"] in let two := with_n_logins "two" ["a"; "b"] in
  fewestLogins (three :: [one] ++ two :: [])%list = [two].
Proof.
  intros three one two. apply (fewestLogins_last three [one] two []).
  - apply Nat.ltb_lt. vm_compute. reflexivity.
  - by intros r' ?%elem_of_nil.
Defined.

Lemma ResourceID_roundtrip_witness :
  (ResourceIDFromString "/main/node/a/b" = Ok (MkResourceID "main" "node" "a/b") ↔
    "/main/node/a/b" = ResourceIDToString (MkResourceID "main" "node" "a/b")) ∧
  ResourceIDToString (MkResourceID "main" "node" "a/b") = "/main/node/a/b".
Proof.
  split; [|reflexivity].
  apply (ResourceID_roundtrip (MkResourceID "main" "node" "a/b") "/main/node/a/b");
    [|split_and!; [discriminate|by left|discriminate]].
  intros c Hc. cbn in Hc. repeat (apply elem_of_cons in Hc as [->|Hc]; [discriminate|]). by apply elem_of_nil in Hc.
Defined.

(** ** A codec *)

#[local] Instance AccessReviewThreshold_countable : Countable AccessReviewThreshold.
Proof.
  refine (inj_countable' (fun t => (th_Name t, th_Filter t, th_Approve t, th_Deny t))
    (fun '(a, b, c, d) => MkAccessReviewThreshold a b c d) _). by intros [].
Defined.
#[local] Instance ResourceID_eq_dec : EqDecision ResourceID.
Proof. solve_decision. Defined.
#[local] Instance ResourceID_countable : Countable ResourceID.
Proof.
  refine (inj_countable' (fun i => (rid_ClusterName i, rid_Kind i, rid_Name i)) (fun '(a, b, c) => MkResourceID a b c) _).
  by intros [].
Defined.
#[local] Instance RequestState_countable : Countable RequestState.
Proof.
  refine (inj_countable (fun s => match s with NONE => 0 | PENDING => 1 | APPROVED => 2 | DENIED => 3 end)%nat
    (fun n => match n with O => Some NONE | 1 => Some PENDING | 2 => Some APPROVED | 3 => Some DENIED | _ => None end)%nat _).
  by intros [].
Defined.

(** The fields of a record one after another. *)
Definition review_fields (r : AccessReview) : list positive :=
  [encode (rv_Author r); encode (rv_Roles r); encode (ProposedState r); encode (rv_Reason r); encode (rv_Created r);
   encode (rv_Annotations r); encode (ThresholdIndexes r)].
Definition review_of (l : list positive) : option AccessReview :=
  match l with
  | [a; b; c; d; e; f; g] =>
      a ← decode a; b ← decode b; c ← decode c; d ← decode d; e ← decode e; f ← decode f; g ← decode g;
      Some (MkReview a b c d e f g)
  | _ => None
  end.
#[local] Instance AccessReview_eq_dec : EqDecision AccessReview.
Proof. solve_decision. Defined.
#[local] Instance AccessReview_countable : Countable AccessReview.
Proof.
  refine (inj_countable review_fields review_of _). intros []. cbv beta iota zeta delta [review_fields review_of]. cbn -[decode encode].
  by rewrite !countable.decode_encode.
Defined.

Definition request_fields (r : AccessRequest) : list positive :=
  [encode (ar_Name r); encode (ar_Expiry r); encode (ar_User r); encode (ar_Roles r); encode (ar_State r);
   encode (ar_Created r); encode (AccessExpiry r); encode (RequestReason r); encode (ResolveReason r);
   encode (ResolveAnnotations r); encode (ar_SystemAnnotations r); encode (Thresholds r);
   encode (RoleThresholdMapping r); encode (Reviews r); encode (ar_SuggestedReviewers r);
   encode (RequestedResourceIDs r); encode (LoginHint r); encode (DryRun r)].
Definition request_of (l : list positive) : option AccessRequest :=
  match l with
  | [a; b; c; d; e; f; g; h; i; j; k; l; m; n; o; p; q; r] =>
      a ← decode a; b ← decode b; c ← decode c; d ← decode d; e ← decode e; f ← decode f; g ← decode g;
      h ← decode h; i ← decode i; j ← decode j; k ← decode k; l ← decode l; m ← decode m; n ← decode n;
      o ← decode o; p ← decode p; q ← decode q; r ← decode r;
      Some (MkRequest a b c d e f g h i j k l m n o p q r)
  | _ => None
  end.
Lemma request_of_fields r : request_of (request_fields r) = Some r.
Proof. destruct r. unfold request_fields, request_of. cbn -[decode encode]. by rewrite !countable.decode_encode. Qed.

(** Bytes are the binary digits of the fields. *)
Fixpoint digits (p : positive) : bytes :=
  match p with xH => [] | xO p => 0%Z :: digits p | xI p => 1%Z :: digits p end.
Fixpoint undigits (l : bytes) : positive :=
  match l with [] => xH | b :: l => if Z.eqb b 0 then xO (undigits l) else xI (undigits l) end.
Lemma undigits_digits p : undigits (digits p) = p.
Proof. induction p as [p IH|p IH|]; cbn; by rewrite ?IH. Qed.
#[local] Instance request_codec : Codec AccessRequest := {|
  encode_json := fun r => digits (encode (request_fields r));
  decode_json := fun bs =>
    match decode (undigits bs) ≫= request_of with Some r => Ok r | None => Err (Error PlainError "invalid character") end
|}.
#[local] Instance request_codec_laws : CodecLaws AccessRequest.
Proof.
  split. intros r. unfold decode_json, encode_json, request_codec. rewrite undigits_digits, countable.decode_encode. cbn [mbind option_bind].
  by rewrite request_of_fields.
Qed.

(** ** Storage *)

Definition r1_key : bytes := accessRequestKey "r1".
Definition item_of (r : AccessRequest) : Item :=
  match itemFromAccessRequest r 0 with Ok (i, _) => i | Err _ => mkItem [] [] 0%Z 0 0 end.
(** The store with a request, and what it holds. *)
Definition store_with (r : AccessRequest) : Mem := after (Put 0 (item_of r)) fresh_memory.
Definition stored_item (r : AccessRequest) : Item :=
  match view (store_with r) !! r1_key with Some i => i | None => item_of r end.

Lemma store_with_live r : live (store_with r).
Proof. apply after_put_live, fresh_live. Qed.

Definition deny (who : string) : AccessReview := MkReview who [] DENIED "no" zero_time ∅ [].
Definition denied_request : AccessRequest := reviewed [approve "bob"; (6%Z, deny "carol", MkUser "carol" [] ∅)].
Definition approve_update : AccessRequestUpdate := MkUpdate "r1" APPROVED "sure" ∅ [].

Lemma stored_in_step r : match decode_json (it_Value (stored_item r)) with
    Ok req => bool_decide (it_Expires (stored_item r) = request_expiry req) | Err _ => false end = true →
  in_step (stored_item r).
Proof.
  intros Hd req Hr. rewrite Hr in Hd. by apply bool_decide_eq_true in Hd.
Qed.

(** After a denial: a read, an approval from the item that was read before it, one
    from the denied item, and another request of the same name. *)
Definition after_denial : list (Z * store_action) :=
  [(10, ARead "r1"); (11, ASwap (stored_item prod_request) (ChangeState approve_update));
   (12, ASwap (stored_item denied_request) (ChangeState approve_update)); (13, ACreate prod_request)]%Z.
Lemma denied_final_witness :
  ∃ b' j req, run_actions after_denial (store_with denied_request) = Some ((), b') ∧ live b' ∧ held r1_key j b' ∧
    itemToAccessRequest j = Ok req ∧ ar_State req = DENIED.
Proof.
  apply (denied_final (H6:=memory_laws) r1_key (stored_item denied_request) after_denial (store_with denied_request)).
  - apply store_with_live.
  - vm_compute. reflexivity.
  - exists denied_request. split_and!; vm_compute; reflexivity.
  - assert (in_step (stored_item prod_request)) by (apply stored_in_step; vm_compute; reflexivity).
    assert (in_step (stored_item denied_request)) by (apply stored_in_step; vm_compute; reflexivity).
    repeat constructor; try assumption; intros [_ E]; apply Z.leb_le in E; vm_compute in E; discriminate E.
Defined.

Lemma request_change_stored_witness :
  runs (SetAccessRequestState (fun _ => (10, 11)%Z) (fun _ => mret None) approve_update) (store_with prod_request)
    (stored_outcome (accessRequestKey (ar_Name prod_request)) (stored_item prod_request)
      (apply_update approve_update prod_request)) ∧
  ar_State prod_request = PENDING ∧
  match apply_update approve_update prod_request with Ok r => ar_State r | Err _ => NONE end = APPROVED.
Proof.
  split; [|split; vm_compute; reflexivity].
  refine (proj1 (request_change_stored (H6:=memory_laws) (fun _ => (10, 11)%Z) (fun _ => mret None)
    (stored_item prod_request) prod_request (store_with prod_request) (store_with_live _) _ _ _ _) approve_update _ _).
  - vm_compute. reflexivity.
  - intros [E _]. vm_compute in E. by apply E.
  - intros [E _]. vm_compute in E. by apply E.
  - vm_compute. reflexivity.
  - reflexivity.
  - vm_compute. reflexivity.
Defined.

Definition ticket : PluginData :=
  MkPluginData "access_request" (MkMetadata "r1" defaults_Namespace "" ∅ None 0%Z)
    {[ "jira" := {[ "issue" := "A-1" ]}; "slack" := {[ "thread" := "7" ]} ]}.
Definition close_ticket : PluginDataUpdateParams :=
  MkUpdateParams "access_request" "r1" "jira" {[ "issue" := ""; "done" := "yes" ]} (Some {[ "issue" := "A-1" ]}).
Definition closed : PluginData := match PluginData_Update close_ticket ticket with Ok d => d | Err _ => ticket end.
Lemma PluginData_Update_correct_witness :
  ((∀ plugin key, field closed plugin key =
     match if String.eqb plugin "jira" then pu_Set close_ticket !! key else None with
     | Some v => v
     | None => field ticket plugin key
     end) ∧
   (∀ expect key val, pu_Expect close_ticket = Some expect → expect !! key = Some val → field ticket "jira" key = val) ∧
   (tidy ticket → tidy closed)) ∧
  field closed "jira" "issue" = "" ∧ field closed "jira" "done" = "yes" ∧ field closed "slack" "thread" = "7".
Proof.
  split; [|split_and!; vm_compute; reflexivity].
  apply (PluginData_Update_correct close_ticket ticket closed). vm_compute. reflexivity.
Defined.
