(* ===== verification/ServiceWitnesses.v ===== *)
(** * Concrete runs of semaphores and session policies

    Semaphores are applied to the in-memory backend with an encoding of
    semaphores as bytes; session policies to a regexp library of unanchored
    globs and filters that ask for one role. *)

From Stdlib Require Import Ascii String.
From S2P Require Import Prelude.
From S2P Require Import GoHeap.
From S2P Require Import Keys.
From S2P Require Import Backend.
From S2P Require Import Memory.
From S2P Require Import Labels.
From S2P Require Import Parse.
From S2P Require Import Role.
From S2P Require Import Semaphores.
From S2P Require Import GoSlice.
From S2P Require Import CircularBuffer.
From S2P Require Import SessionAccess.
From S2P Require Import Strconv.
From S2P Require Import Multiplexer.
From S2P Require Import RbacWitnesses.
From S2P Require Import Witnesses.
From S2P Require Import RequestWitnesses.
Import Memory.Concrete.
Local Open Scope string_scope.

(** ** Semaphores *)

#[local] Instance Metadata_eq_dec : EqDecision Metadata.
Proof. solve_decision. Defined.
#[local] Instance Metadata_countable : Countable Metadata.
Proof.
  refine (inj_countable'
    (fun m => (md_Name m, md_Namespace m, md_Description m, md_Labels m, md_Expires m, md_ID m))
    (fun '(a, b, c, d, e, f) => MkMetadata a b c d e f) _). by intros [].
Defined.
#[local] Instance LeaseRef_eq_dec : EqDecision SemaphoreLeaseRef.
Proof. solve_decision. Defined.
#[local] Instance LeaseRef_countable : Countable SemaphoreLeaseRef.
Proof.
  refine (inj_countable' (fun l => (ref_LeaseID l, ref_Expires l, ref_Holder l))
    (fun '(a, b, c) => MkLeaseRef a b c) _). by intros [].
Defined.
#[local] Instance Semaphore_eq_dec : EqDecision Semaphore.
Proof. solve_decision. Defined.
#[local] Instance Semaphore_countable : Countable Semaphore.
Proof.
  refine (inj_countable' (fun s => (sem_SubKind s, sem_Metadata s, Leases s)) (fun '(a, b, c) => MkSemaphore a b c) _).
  by intros [].
Defined.

(** An opening brace and the digits of the fields. *)
#[local] Instance semaphore_codec : Codec Semaphore := {|
  encode_json := fun s => 123%Z :: digits (encode (without_namespace s));
  decode_json := fun bs =>
    match decode (undigits (List.tl bs)) with Some s => Ok s | None => Err (Error PlainError "invalid character") end
|}.
#[local] Instance semaphore_codec_laws : SemaphoreCodec.
Proof.
  split; [|done]. intros s. unfold decode_json, encode_json, semaphore_codec.
  change (List.tl (123%Z :: digits ?x)) with (digits x).
  by rewrite undigits_digits, countable.decode_encode.
Qed.

Definition sem_key : bytes := semaphoreKey ["connection"; "alice"].
Definition ask (expires : Z) : AcquireSemaphoreRequest := MkAcquireRequest "connection" "alice" 1 expires "node".
(** What is stored once one client has taken the only lease, and the store. *)
Definition one_lease : Mem := after (initSemaphore 1 sem_key "a" (ask 10)) fresh_memory.
Definition one_item : Item := match view one_lease !! sem_key with Some i => i | None => mkItem [] [] 0%Z 0 0 end.

(** Two clients start; the second one finds no lease, neither from the item it
    reads nor once its clock says that the first lease has expired, the item
    being gone; it makes the semaphore again. *)
Definition two_clients : list (Z * sem_action) :=
  [(1, SInit "a" (ask 10)); (2, SInit "b" (ask 11)); (3, SAcquire 3 one_item "b" (ask 11));
   (4, SKeepAlive 4 one_item (MkSemaphoreLease "connection" "alice" "a" 12));
   (20, SAcquire 20 one_item "b" (ask 30)); (21, SInit "b" (ask 30))]%Z.

Lemma semaphore_limit_witness :
  (∃ held limit b', run_sem_actions sem_key two_clients (∅, 0%Z) fresh_memory = Some ((held, limit), b') ∧ live b' ∧
    (Z.of_nat (size (unexpired 22 held)) ≤ limit)%Z) ∧
  (fst <$> run_sem_actions sem_key two_clients (∅, 0%Z) fresh_memory) = Some ({[ "a" := 12%Z; "b" := 30%Z ]}, 1%Z).
Proof.
  split; [|vm_compute; reflexivity].
  apply (semaphore_limit (H1:=memory_laws) "connection" "alice" 0 two_clients 22 fresh_memory).
  - exact fresh_live.
  - reflexivity.
  - cbn. assert (it_Key one_item = sem_key) by (vm_compute; reflexivity). by split_and!.
Defined.

Definition roomy : AcquireSemaphoreRequest := MkAcquireRequest "connection" "alice" 2 30 "node".
Definition one_semaphore : Semaphore :=
  match UnmarshalSemaphore (it_Value one_item) with Ok s => s | Err _ => MkSemaphore "" (MkMetadata "" "" "" ∅ None 0) [] end.

Lemma one_lease_live : live one_lease.
Proof.
  destruct (initSemaphore_accounts (H1:=memory_laws) sem_key 1 "a" (ask 10) (∅, 0%Z) fresh_memory) as (r & m & E & Hm & _);
    [done|exact fresh_live| |].
  { assert (bk_view (BackendLaws:=memory_laws) fresh_memory !! sem_key = None) as E by reflexivity.
    split; [done|]. unfold accounts. rewrite E. cbn [fst]. intros id e. by rewrite lookup_empty. }
  unfold one_lease, after. by rewrite E.
Qed.

(** A second lease is taken at 3, and the first one is gone at 20. *)
Lemma AcquireSemaphore_alone_witness :
  (let clock := fun (_ j : nat) => (3 + Z.of_nat j)%Z in
   runs (AcquireSemaphore 2 clock (fun _ => mret None) "b" roomy) one_lease
     (acquired sem_key "b" roomy (Leases (RemoveExpiredLeases (clock 0%nat 1%nat) one_semaphore)) (Expiry one_semaphore)
       (held sem_key one_item))) ∧
  map ref_LeaseID (Leases (RemoveExpiredLeases 4 one_semaphore)) = ["a"] ∧
  match AcquireSemaphore 2 (fun _ j => (3 + Z.of_nat j)%Z) (fun _ => mret None) "b" roomy one_lease with
  | Some (r, _) => r = Ok (lease_for "b" roomy)
  | None => False
  end.
Proof.
  split; [|split; vm_compute; reflexivity].
  refine (proj2 (AcquireSemaphore_alone (H1:=memory_laws) 2 (fun _ j => (3 + Z.of_nat j)%Z) (fun _ => mret None) "b"
    roomy one_lease _ _ _) one_item one_semaphore _ _ _ _ _).
  - reflexivity.
  - vm_compute. discriminate.
  - exact one_lease_live.
  - vm_compute. reflexivity.
  - intros [_ E]. apply Z.leb_le in E. vm_compute in E. discriminate E.
  - intros [_ E]. apply Z.leb_le in E. vm_compute in E. discriminate E.
  - vm_compute. reflexivity.
  - vm_compute. reflexivity.
Defined.

(** ** Session policies *)

(** Unanchored expressions of globs, found anywhere in a text. *)
#[local] Instance search_regexp : Regexp := {| re_Match := fun e s => (fun g => glob_search g s) <$> unglob (e ++ "$") |}.
#[local] Instance search_regexp_laws : SearchLaws.
Proof.
  split. intros g s _ _. change ((fun g => glob_search g s) <$> unglob (GlobToRegexp g ++ "$") = Some (glob_search g s)).
  by rewrite unglob_GlobToRegexp.
Qed.
#[local] Instance search_libs : GoLibs := {|
  ParseExpr := fun s => Ok (Ident s);
  Unquote := fun s => Ok s;
  ParseAddress := fun s => Ok s;
  re_Compiles := fun e => bool_decide (is_Some (re_Match e ""));
  ReplaceAllString := fun _ _ replacement => replacement
|}.
#[local] Instance search_libs_laws : GoLibsLaws.
Proof.
  split. intros re s. cbn [re_Compiles search_libs]. rewrite bool_decide_eq_true.
  unfold re_Match, search_regexp. by rewrite !fmap_is_Some.
Qed.

(** Filters [contains(user.roles, `role`)]. *)
Definition filter_head : string := "contains(user.roles, `".
Definition filter_role (f : string) : option string :=
  let n := (String.length f - 24)%nat in
  let role := String.substring 22 n f in
  if String.eqb f (filter_head ++ role ++ "`)") then Some role else None.
#[local] Instance role_filters : WhereLibrary := {|
  NewWhereParser := fun ctx => Ok (fun f =>
    match filter_role f with
    | None => fails BadParameter "unsupported"
    | Some role =>
        v ⇐ rc_GetIdentifier ctx ["user"; "roles"];
        done (match v with IdStrings l => Some (existsb (String.eqb role) l) | IdString _ => None end)
    end)
|}.

Definition plain_role (name : string) (allow : RoleConditions) : Role :=
  MkRole "role" "" "v5" (MkMetadata name defaults_Namespace "" ∅ None 0%Z) (options_defaults empty_options)
    allow empty_conditions.
Definition oversight (on_leave : string) : SessionRequirePolicy :=
  MkSessionRequirePolicy "oversight" "contains(user.roles, `audit`)" ["ssh"; "k8s"] 1 ["moderator"] on_leave.
Definition prod_access : Role :=
  plain_role "prod-access" (with_RequireSessionJoin [oversight OnSessionLeavePause] empty_conditions).
Definition audit_role : Role :=
  plain_role "audit"
    (with_JoinSessions [MkSessionJoinPolicy "join" ["prod-*"] ["*"] ["moderator"; "observer"; "moderator"]] empty_conditions).
Definition session : SessionAccessEvaluator :=
  NewSessionAccessEvaluator [GetSessionPolicySet prod_access] SSHSessionKind "alice".
Definition bob (mode : string) : SessionAccessContext := MkContext "bob" [audit_role] mode.

Lemma CanJoin_correct_witness :
  (∃ modes, CanJoin session (bob "") = Some modes ∧ NoDup modes ∧
    ∀ m, m ∈ modes ↔
      ∃ role p, role ∈ sac_Roles (bob "") ∧ p ∈ GetSessionJoinPolicies role ∧
        join_policy_allows session p ∧ m ∈ sjp_Modes p) ∧
  CanJoin session (bob "") = Some ["moderator"; "observer"] ∧
  CanJoin (NewSessionAccessEvaluator [MkPolicySet "nonprod-db" "v5" []] SSHSessionKind "alice") (bob "") =
    Some ["moderator"; "observer"].
Proof.
  split; [|split; vm_compute; reflexivity].
  apply (CanJoin_correct session (bob "")).
  - split; repeat constructor; vm_compute; reflexivity.
  - reflexivity.
  - discriminate.
Defined.

Lemma session_counts_ok : counts_ok session.
Proof.
  intros set r [->|[]%elem_of_nil]%elem_of_cons Hr. vm_compute in Hr.
  by apply elem_of_cons in Hr as [->|[]%elem_of_nil].
Qed.

(** The session may run with the moderator, not without; the policy that says to
    pause has no say in that. *)
Lemma FulfilledFor_correct_witness :
  ((evaluates session [bob "moderator"] → ∃ b o, FulfilledFor session [bob "moderator"] = Some (Ok (b, o))) ∧
   ∀ b o, FulfilledFor session [bob "moderator"] = Some (Ok (b, o)) →
    (b = true ↔ ∀ set, set ∈ e_policySets session → extractApplicablePolicies session set ≠ [] →
      ∃ r, r ∈ extractApplicablePolicies session set ∧ satisfied session [bob "moderator"] r = true) ∧
    (TerminateOnLeave o = true ↔
      ∀ set, set ∈ fulfilled_prefix session [bob "moderator"] (e_policySets session) →
        pauses session [bob "moderator"] set = false)) ∧
  FulfilledFor session [bob "moderator"] = done (true, MkPolicyOptions false) ∧
  FulfilledFor session [bob "peer"] = done (false, MkPolicyOptions true) ∧
  FulfilledFor session [] = done (false, MkPolicyOptions true).
Proof.
  split; [|split_and!; vm_compute; reflexivity].
  apply (FulfilledFor_correct session [bob "moderator"]). exact session_counts_ok.
Defined.

Lemma checkIfStart_order_witness :
  (true, MkPolicyOptions false) = (true, MkPolicyOptions false) ∧
  checkIfStart "alice" session [bob "moderator"; MkContext "alice" [] "peer"] = done (true, MkPolicyOptions false).
Proof.
  split; [|vm_compute; reflexivity].
  apply (checkIfStart_order "alice" session [bob "moderator"; MkContext "alice" [] "peer"]
    [MkContext "alice" [] "peer"; bob "moderator"]);
    [exact session_counts_ok|constructor|vm_compute; reflexivity..].
Defined.

(** ** Headers before connections *)

(** Addresses are written as numbers between points. *)
Definition join_points (l : list bytes) : bytes :=
  match l with [] => [] | t :: ts => (t ++ List.flat_map (fun t => 46%Z :: t) ts)%list end.
Definition points (l : bytes) : bytes := join_points (map (decimal 20) l).
Fixpoint read_bytes (l : list bytes) : option bytes :=
  match l with [] => Some [] | t :: ts => n ← parse_digits 0 t; r ← read_bytes ts; Some (n :: r) end.
#[local] Instance point_text : IPText := {|
  IP_String := fun ip => points (default ip (To4 ip));
  ParseIP := fun s => l ← read_bytes (Split 46 s); To16 l
|}.

Lemma Split_sep sep t s : Forall (fun c => c ≠ sep) t → Split sep (t ++ sep :: s) = t :: Split sep s.
Proof.
  induction 1 as [|c t Hc _ IH]; cbn [app Split]; [by rewrite Z.eqb_refl|]. apply Z.eqb_neq in Hc as ->. by rewrite IH.
Qed.
Lemma Split_last sep t : Forall (fun c => c ≠ sep) t → Split sep t = [t].
Proof. induction 1 as [|c t Hc _ IH]; cbn [Split]; [done|]. apply Z.eqb_neq in Hc as ->. by rewrite IH. Qed.
Lemma Split_join sep ts t :
  Forall (Forall (fun c => c ≠ sep)) (t :: ts) → Split sep (t ++ List.flat_map (fun t => sep :: t) ts) = t :: ts.
Proof.
  revert t. induction ts as [|u ts IH]; intros t [Ht Hts]%Forall_cons; cbn [List.flat_map].
  - rewrite app_nil_r. by apply Split_last.
  - rewrite <- app_comm_cons, Split_sep by done. by rewrite IH.
Qed.
Lemma decimal_points l : wf_bytes l → Forall (Forall (fun c => (48 ≤ c ≤ 57)%Z)) (map (decimal 20) l).
Proof. induction 1 as [|c l Hc _ IH]; cbn [map]; constructor; [|done]. apply decimal_digits. unfold is_byte in Hc. lia. Qed.
Lemma read_points l : wf_bytes l → l ≠ [] → read_bytes (Split 46 (points l)) = Some l.
Proof.
  intros Hl Hne. unfold points. pose proof (decimal_points l Hl) as Hd. destruct l as [|c l]; [done|]. cbn [map join_points].
  rewrite Split_join by (eapply Forall_impl; [exact Hd|]; intros t Ht; eapply Forall_impl; [exact Ht|]; cbn; lia).
  clear Hne Hd. change (decimal 20 c :: map (decimal 20) l) with (map (decimal 20) (c :: l)).
  induction Hl as [|b l' Hb _ IH]; [done|]. cbn [map read_bytes]. unfold is_byte in Hb.
  rewrite parse_decimal by lia. cbn [mbind option_bind]. by rewrite IH.
Qed.
Lemma To4_long ip x : length ip = 16%nat → To4 ip = Some x → ip = (v4InV6Prefix ++ x)%list ∧ length x = 4%nat.
Proof.
  unfold To4. intros Hl. rewrite Hl. cbn [Nat.eqb andb]. destruct (has_prefix ip v4InV6Prefix) eqn:E; [|done].
  intros [= <-]. apply has_prefix_app in E as [k ->]. split; [done|].
  change (length k = 4%nat). rewrite length_app in Hl. cbn in Hl. lia.
Qed.

#[local] Instance point_text_laws : IPTextLaws.
Proof.
  split; intros ip [Hb Hl]; unfold ParseIP, IP_String, point_text.
  - assert (ip ≠ []) as Hne by (intros ->; cbn in Hl; lia).
    destruct (To4 ip) as [x|] eqn:E; cbn [default from_option id]; [|by rewrite read_points].
    destruct Hl as [Hl|Hl].
    + unfold To4 in E. rewrite Hl in E. injection E as <-. by rewrite read_points.
    + apply To4_long in E as [-> Hx]; [|done]. apply Forall_app in Hb as [_ Hb].
      rewrite read_points by (done || by destruct x). cbn [mbind option_bind]. unfold To16. rewrite Hl, Hx. done.
  - assert (wf_bytes (default ip (To4 ip))) as Hw.
    { unfold To4. repeat case_match; try done. cbn. by apply Forall_drop. }
    pose proof (decimal_points _ Hw) as Hd. unfold points.
    assert (∀ t : bytes, Forall (fun c => (48 ≤ c ≤ 57)%Z) t → Forall (fun c => c ≠ 32%Z ∧ c ≠ 10%Z) t) as Ht
      by (intros t Ht; eapply Forall_impl; [exact Ht|]; cbn; lia).
    destruct Hd as [|t ts Hd Hds]; [constructor|]. cbn [join_points]. apply Forall_app. split; [by apply Ht|].
    induction Hds as [|u us Hu _ IH]; cbn [List.flat_map]; [constructor|].
    apply Forall_cons. split; [done|]. apply Forall_app. split; [by apply Ht|done].
Qed.

Definition client4 : ProxyLine :=
  (MkProxyLine TCP4 (MkTCPAddr [10; 0; 0; 7] 40000) (MkTCPAddr [10; 0; 0; 1] 3023))%Z.
Definition client6 : ProxyLine :=
  MkProxyLine TCP6 (MkTCPAddr (replicate 15 0 ++ [7]) 40000)%Z (MkTCPAddr (replicate 15 0 ++ [1]) 3023)%Z.
Definition ssh_hello : bytes := bytes_of_string "SSH-2.0-Go".

Lemma proxied_connection_witness :
  ((binary_ok client4 → detect true (Bytes client4 ++ ssh_hello)%list = Ok (MkConn ProtoSSH ssh_hello (Some (received client4)))) ∧
   (text_ok client4 → detect true (ProxyLine_String client4 ++ ssh_hello)%list =
      Ok (MkConn ProtoSSH ssh_hello (Some (with_form To16 client4))))) ∧
  binary_ok client4 ∧ text_ok client4 ∧ binary_ok client6 ∧ received client4 = client4.
Proof.
  split.
  - apply (proxied_connection client4 ssh_hello ProtoSSH); [right; left|vm_compute; reflexivity].
  - split_and!; [left|split|right|by vm_compute].
    + split; [done|]. repeat split; try (vm_compute; congruence); eexists; by vm_compute.
    + done.
    + repeat split; try (vm_compute; congruence); try (vm_compute; by eexists); try (left; by vm_compute); unfold wf_bytes; eval_decide.
    + split; [done|]. repeat split; try (vm_compute; congruence); eexists; by vm_compute.
Defined.

Lemma detect_safe_witness :
  let c := MkConn ProtoSSH ssh_hello (Some client4) in
  ((conn_protocol c ∈ [ProtoTLS; ProtoSSH; ProtoHTTP; ProtoPostgres] ∧
    detectProto (conn_reader c) = (Ok (conn_protocol c), conn_reader c)) ∧
   (true = false → conn_reader c = (Bytes client4 ++ ssh_hello)%list ∧ conn_proxyLine c = None) ∧
   ∀ p, conn_proxyLine c = Some p →
     ReadProxyLine (Bytes client4 ++ ssh_hello)%list = (Ok p, conn_reader c) ∨
     ReadProxyLineV2 (Bytes client4 ++ ssh_hello)%list = (Ok (Some p), conn_reader c)) ∧
  is_Ok (detect false (Bytes client4 ++ ssh_hello)%list) = false.
Proof.
  split; [|vm_compute; reflexivity].
  apply (detect_safe true (Bytes client4 ++ ssh_hello)%list (MkConn ProtoSSH ssh_hello (Some client4))).
  vm_compute. reflexivity.
Defined.

(** ** Circular buffers *)

#[local] Existing Instance twice_grow.
#[local] Existing Instance twice_grow_laws.

Definition last_three : option (list Z) :=
  match NewCircularBuffer 0%Z 3 [] with
  | (Ok t, h) => '(t, h) ← Add_all t [1; 2; 3; 4; 5]%Z h; '(s, h) ← Data t 10 h; Some (elems h s)
  | _ => None
  end.
Lemma circular_buffer_correct_witness :
  (∃ t h0 t' h1 sl h2, NewCircularBuffer 0%Z 3 [] = (Ok t, h0) ∧ Add_all t [1; 2; 3; 4; 5]%Z h0 = Some (t', h1) ∧
    Data t' 10 h1 = Some (sl, h2) ∧ elems h2 sl = last_n (Z.to_nat 10 `min` Z.to_nat 3) [1; 2; 3; 4; 5]%Z) ∧
  last_three = Some [3; 4; 5]%Z.
Proof. split; [apply (circular_buffer_correct 0%Z 3 10 [1; 2; 3; 4; 5]%Z []); lia|vm_compute; reflexivity]. Defined.

(** What [Data] returns may be a window of the buffer: an element added later
    is written into it. *)
Definition seen_later : option (list Z * list Z) :=
  match NewCircularBuffer 0%Z 2 [] with
  | (Ok t, h) =>
      '(t, h) ← Add_all t [1; 2]%Z h; '(s, h1) ← Data t 2 h; '(t, h2) ← Add t 3%Z h1; Some (elems h1 s, elems h2 s)
  | _ => None
  end.
Lemma Data_aliases : seen_later = Some ([1; 2], [3; 2])%Z.
Proof. vm_compute. reflexivity. Qed.
