(* ===== verification/EventWitnesses.v ===== *)
(** * Concrete runs of the fan-out

    A fan-out over resources that are a kind, a name and maybe a secret. *)

From S2P Require Import Prelude.
From S2P Require Import Backend.
From S2P Require Import AccessRequest.
From S2P Require Import Events.
From S2P Require Import Fanout.
From S2P Require Import FanoutSpec.
From S2P Require Import FanoutSet.
Local Open Scope string_scope.

(** ** Events and their fan-out *)

(** Any order will do: here, that of the map. *)
#[local] Instance demo_order : FilterOrder := {| range_filter := map_to_list |}.
#[local] Instance demo_order_laws : FilterOrderLaws.
Proof. constructor. intros m. reflexivity. Qed.
#[local] Instance demo_target : TargetCodec := {| Target_FromMap := fun m => Ok (MkLockTarget (default "" (m !! "user")) "" "" "" "" "" "") |}.
(** Resources with a kind, a name and maybe a secret. *)
Definition demo_res : Type := (string * string * option string)%type.
#[local] Instance demo_Resource : Resource demo_res := {|
  GetKind := fun r => r.1.1;
  GetName := fun r => r.1.2;
  WithoutSecrets := fun r => match r.2 with Some _ => Some (r.1, None) | None => None end;
  type_of := fun r => if String.eqb r.1.1 "web_session" then IsWebSession r.1.2 else IsOther
|}.

Lemma filters_roundtrip_witness :
  RequestFilter_FromMap (RequestFilter_IntoMap (MkFilter "id" "" APPROVED)) = Ok (MkFilter "id" "" APPROVED) ∧
  WebSessionFilter_FromMap (WebSessionFilter_IntoMap "alice") = Ok "alice".
Proof. apply filters_roundtrip. Defined.

(** A watcher of authorities, with their secrets, and of the sessions of alice. *)
Definition demo_watch : Watch :=
  MkWatch "demo" [MkWatchKind "cert_authority" "" "" "" true ∅; MkWatchKind "web_session" "" "" "" false {["user" := "alice"]}] 0.
Definition demo_range : map_range := MkRange id (fun l => reflexivity _).
Definition put (r : demo_res) : Event demo_res := MkEvent OpPut (Some r).
Definition emission_of (e : Event demo_res) : emission demo_res := MkEmission e demo_range [].
Definition demo_events : list (Event demo_res) :=
  [put ("cert_authority", "a", Some "key"); put ("node", "n", None); put ("web_session", "bob", Some "s");
   put ("web_session", "alice", Some "s")].
Definition demo_told : list (Event demo_res) :=
  [init_event; put ("cert_authority", "a", Some "key"); put ("web_session", "alice", None)].

Lemma fanout_delivery_witness : ∃ f1 f2 f fw,
  fanout_run [OSetInit demo_range] NewFanout = Some f1 ∧ NewWatcher demo_watch f1 = (Ok 0%nat, f2) ∧
  fanout_run [OEmit (emission_of <$> demo_events); OEnv (EReceive 0)] f2 = Some f ∧ store f !! 0%nat = Some fw ∧
  (received fw ++ eventC fw)%list = demo_told.
Proof.
  destruct (fanout_run [OSetInit demo_range] NewFanout) as [f1|] eqn:E1; [|discriminate].
  destruct (NewWatcher demo_watch f1) as [r f2] eqn:E2.
  destruct (fanout_run [OEmit (emission_of <$> demo_events); OEnv (EReceive 0)] f2) as [f|] eqn:E3.
  2:{ vm_compute in E1. injection E1 as <-. vm_compute in E2. injection E2 as <- <-. vm_compute in E3. discriminate. }
  assert (r = Ok 0%nat) as ->.
  { vm_compute in E1. injection E1 as <-. vm_compute in E2. congruence. }
  destruct (fanout_delivery _ _ _ _ _ _ _ E1 E2 E3) as (fw & Hw & Hs & _).
  { exists "cert_authority". vm_compute in E1. injection E1 as <-. vm_compute in E2. injection E2 as <-. vm_compute in E3.
    injection E3 as <-. vm_compute. discriminate. }
  exists f1, f2, f, fw. split_and!; [reflexivity|exact E2|exact E3|exact Hw|]. rewrite Hs.
  vm_compute in E1. injection E1 as <-. vm_compute in E2. injection E2 as <-. vm_compute in E3. injection E3 as <-.
  vm_compute. reflexivity.
Defined.

(** The state after a watcher was registered, and the watcher. *)
Definition demo_fanout : Fanout demo_res :=
  match fanout_run [OSetInit demo_range; ONewWatcher demo_watch] NewFanout with Some f => f | None => NewFanout end.
Definition demo_watcher : fanoutWatcher demo_res :=
  match store demo_fanout with fw :: _ => fw | [] => MkWatcher demo_watch [] [] true None None end.
(** Between the sends its receiver takes an event. *)
Definition busy_emission (e : Event demo_res) : emission demo_res := MkEmission e demo_range [([EReceive 0], true)].

Lemma fanout_keeps_witness :
  ∃ f', Emit (busy_emission <$> demo_events) demo_fanout = Some f' ∧ registered 0 f'.
Proof.
  apply (fanout_keeps [OSetInit demo_range; ONewWatcher demo_watch] demo_fanout (busy_emission <$> demo_events) 0 demo_watcher).
  - vm_compute. reflexivity.
  - vm_compute. reflexivity.
  - exists "cert_authority". vm_compute. discriminate.
  - vm_compute. reflexivity.
  - vm_compute. reflexivity.
  - intros em Hem. apply list_elem_of_fmap in Hem as (e & -> & He). split.
    + intros c Hc. apply list_elem_of_singleton in Hc as ->. intros Hn. apply list_elem_of_singleton in Hn. discriminate.
    + intros kind Hk. unfold demo_events in He. rewrite !elem_of_cons, elem_of_nil in He.
      change (kind ∈ Kinds demo_watch) in Hk. cbn [demo_watch Kinds] in Hk. rewrite !elem_of_cons, elem_of_nil in Hk.
      destruct He as [->|[->|[->|[->|[]]]]], Hk as [->|[->|[]]]; vm_compute; eexists; reflexivity.
  - vm_compute. discriminate.
Defined.

(** The first registration of a set goes to its second member. *)
Definition demo_how : nat → nat → map_range * list choice := fun _ _ => (demo_range, []).
Definition demo_set_ops : list (set_op (R:=demo_res)) := [SEmit demo_events demo_how; SEnv 1 (EReceive 0)].
Definition demo_set1 : FanoutSet :=
  match set_run [SSetInit (fun _ => demo_range)] NewFanoutSet with Some s => s | None => NewFanoutSet (R:=demo_res) end.
Definition demo_set2 : FanoutSet := match Set_NewWatcher demo_watch demo_set1 with Some (_, s) => s | None => demo_set1 end.
Definition demo_set : FanoutSet := match set_run demo_set_ops demo_set2 with Some s => s | None => demo_set1 end.
Definition demo_member : Fanout demo_res := match members demo_set !! 1%nat with Some f => f | None => NewFanout end.

Lemma FanoutSet_delivery_witness :
  ∃ fw, store demo_member !! 0%nat = Some fw ∧ (received fw ++ eventC fw)%list = demo_told.
Proof.
  destruct (FanoutSet_delivery [SSetInit (fun _ => demo_range)] demo_set_ops demo_watch 1 0 demo_set1 demo_set2 demo_set demo_member)
    as (fw & Hw & Hs).
  - vm_compute. reflexivity.
  - vm_compute. reflexivity.
  - vm_compute. reflexivity.
  - vm_compute. reflexivity.
  - exists "cert_authority". vm_compute. discriminate.
  - exists fw. split; [exact Hw|]. rewrite Hs. vm_compute. reflexivity.
Defined.
