(* ===== verification/IdentityWitnesses.v ===== *)
(** * A certificate for an identity, at a concrete input *)

From S2P Require Import Prelude.
From S2P Require Import Keys.
From S2P Require Import Strconv.
From S2P Require Import Role.
From S2P Require Import Traits.
From S2P Require Import RoleSet.
From S2P Require Import RequestValidator.
From S2P Require Import RequestChecks.
From S2P Require Import Identity.
From Stdlib Require Import Ascii.
Local Open Scope string_scope.

(** ** A codec: the bits of a value's number, after a mark *)

Fixpoint bits (p : positive) : string :=
  match p with xH => "" | xO p => String "0"%char (bits p) | xI p => String "1"%char (bits p) end.
Fixpoint of_bits (s : string) : positive :=
  match s with
  | "" => xH
  | String c s => if Ascii.eqb c "0"%char then xO (of_bits s) else xI (of_bits s)
  end.
Lemma of_bits_bits p : of_bits (bits p) = p.
Proof. by induction p; cbn; f_equal. Qed.

Definition write_number {A} `{Countable A} (a : A) : string := String "#"%char (bits (encode a)).
Definition read_number {A} `{Countable A} (s : string) : result A :=
  match s with
  | String _ s => match decode (of_bits s) with Some a => Ok a | None => Err (Error BadParameter "not a number of a value") end
  | "" => Err (Error BadParameter "empty")
  end.
Lemma read_write_number {A} `{Countable A} (a : A) : read_number (write_number a) = Ok a.
Proof. unfold read_number, write_number. rewrite of_bits_bits, decode_encode. done. Qed.

#[export] Instance number_codec : IdentityCodec := {
  traits_json t := Ok (write_number t);
  traits_of_json := read_number;
  traits_of_proto s := Err (Error BadParameter "no older certificate");
  strings_json l := Ok (write_number l);
  strings_of_json := read_number
}.
#[export] Instance number_codec_laws : IdentityCodecLaws.
Proof.
  split; cbn.
  - intros t s _ [= <-]. apply read_write_number.
  - intros l s _ [= <-]. apply read_write_number.
  - by intros l s [= <-].
Qed.

(** ** A certificate: the common name stands among the names too *)

#[export] Instance plain_certificates : CertLibrary := {
  certified n := Ok (MkName (CommonName n) (rev (Organization n)) (OrganizationalUnit n) (Locality n) (StreetAddress n)
    (PostalCode n) (MkAttr [2; 5; 4; 3]%Z (VString (CommonName n)) :: map read_attr (ExtraNames n)) [])
}.
#[export] Instance plain_certificates_laws : CertLibraryLaws.
Proof.
  split. intros n n' Hown [= <-]. split; try done.
  - cbn. symmetry. apply Permutation_rev.
  - cbn [Names]. rewrite filter_cons_False by done. induction Hown as [|a l Ha _ IH]; cbn [map]; [done|].
    rewrite filter_cons_True by exact Ha. by f_equal.
Qed.

Definition alice_identity : Identity :=
  MkIdentity "alice" "" ["access"; "editor"] ["Node"] [] ["root"; "alice"] ["dev"] [] 0 "leaf" ""
    {[ "team" := ["a"; "b"] ]} (MkRouteToApp "" "app.example.com" "" "" "") "main" (MkRouteToDatabase "" "" "" "postgres")
    [] ["db"] "device-1" "" [] ["request-1"] true false 12 [MkResourceID "main" "node" "a/b"] "none".

Lemma Identity_roundtrip_witness :
  ∃ n n', Subject alice_identity = Ok n ∧ certified n = Ok n' ∧ Organization n' = ["editor"; "access"] ∧
  ∃ groups usage principals,
    groups ≡ₚ ["access"; "editor"] ∧ usage ≡ₚ [] ∧ principals ≡ₚ ["root"; "alice"] ∧
    FromSubject n' 100 =
      Ok (set_Groups groups (set_Usage usage (set_Principals principals (set_Expires 100%Z alice_identity)))).
Proof.
  eexists _, _. split; [reflexivity|]. split; [reflexivity|]. split; [reflexivity|].
  eapply (Identity_roundtrip alice_identity _ _ 100); [reflexivity|cbn; lia|..|reflexivity|reflexivity].
  - intros k vs. cbn. intros [<- <-]%lookup_singleton_Some. split; [reflexivity|repeat constructor].
  - constructor; [|constructor]. split_and!; [|split_and!; [discriminate|by left|discriminate]|reflexivity].
    intros c Hc. cbn in Hc. repeat (apply elem_of_cons in Hc as [->|Hc]; [discriminate|]). by apply elem_of_nil in Hc.
Defined.
