(* ===== verification/LoginWitnesses.v ===== *)
(** * A user locked out, at a concrete input

    Calls for a user of the in-memory backend, whose passwords can not be checked
    since a connection is down. *)

From Stdlib Require Import Ascii String.
From S2P Require Import Prelude.
From S2P Require Import Keys.
From S2P Require Import Backend.
From S2P Require Import Memory.
From S2P Require Import Labels.
From S2P Require Import Role.
From S2P Require Import Traits.
From S2P Require Import RoleSet.
From S2P Require Import DynamicAccess.
From S2P Require Import Identity.
From S2P Require Import Users.
From S2P Require Import UserLock.
From S2P Require Import RbacWitnesses.
From S2P Require Import Witnesses.
From S2P Require Import RequestWitnesses.
Import Memory.Concrete.
Local Open Scope string_scope.
#[local] Existing Instance merge_slices.
#[local] Existing Instance merge_slices_laws.

(** ** Codecs: the digits of the fields *)

Definition identity_pair (i : ExternalIdentity) : string * string := (ei_ConnectorID i, ei_Username i).
Definition of_pair (p : string * string) : ExternalIdentity := MkExternalIdentity p.1 p.2.
Definition metadata_fields (m : Metadata) : list positive :=
  [encode (md_Name m); encode (md_Namespace m); encode (md_Description m); encode (md_Labels m); encode (md_Expires m); encode (md_ID m)].
Definition status_fields (s : LoginStatus) : list positive :=
  [encode (IsLocked s); encode (LockedMessage s); encode (LockedTime s); encode (LockExpires s); encode (RecoveryAttemptLockExpires s)].
Definition connector_fields (c : option ConnectorRef) : option (string * string * string) :=
  (fun c => (cr_Type c, cr_ID c, cr_Identity c)) <$> c.
Definition user_fields (u : UserV2) : list positive :=
  [encode (u_Kind u); encode (u_SubKind u); encode (u_Version u); encode (metadata_fields (u_Metadata u));
   encode (map identity_pair (OIDCIdentities u)); encode (map identity_pair (SAMLIdentities u));
   encode (map identity_pair (GithubIdentities u)); encode (u_Roles u); encode (u_Traits u); encode (status_fields (Status u));
   encode (u_Expires u); encode (connector_fields (cb_Connector (u_CreatedBy u))); encode (cb_Time (u_CreatedBy u));
   encode (cb_User (u_CreatedBy u))].
Definition metadata_of (l : list positive) : option Metadata :=
  match l with
  | [a; b; c; d; e; f] =>
      a ← decode a; b ← decode b; c ← decode c; d ← decode d; e ← decode e; f ← decode f; Some (MkMetadata a b c d e f)
  | _ => None
  end.
Definition status_of (l : list positive) : option LoginStatus :=
  match l with
  | [a; b; c; d; e] => a ← decode a; b ← decode b; c ← decode c; d ← decode d; e ← decode e; Some (MkLoginStatus a b c d e)
  | _ => None
  end.
Definition user_of (l : list positive) : option UserV2 :=
  match l with
  | [a; b; c; d; e; f; g; h; i; j; k; l; m; n] =>
      a ← decode a; b ← decode b; c ← decode c; d ← decode d; d ← metadata_of d; e ← decode e; f ← decode f; g ← decode g;
      h ← decode h; i ← decode i; j ← decode j; j ← status_of j; k ← decode k; l ← decode l; m ← decode m; n ← decode n;
      Some (MkUserV2 a b c d (map of_pair e) (map of_pair f) (map of_pair g) h i j k
        (MkCreatedBy ((fun '(x, y, z) => MkConnectorRef x y z) <$> l) m n))
  | _ => None
  end.
Lemma of_identity_pairs l : map of_pair (map identity_pair l) = l.
Proof. induction l as [|[] l IH]; cbn; by rewrite ?IH. Qed.
Lemma user_of_fields u : user_of (user_fields u) = Some u.
Proof.
  destruct u as [a b c [] d e f g h [] i [l m n]]. unfold user_fields, user_of. cbn -[decode encode].
  rewrite !countable.decode_encode. cbn -[decode encode]. rewrite !countable.decode_encode. cbn -[decode encode].
  rewrite !of_identity_pairs. by destruct l as [[]|].
Qed.

#[local] Instance user_codec : UserCodec := {|
  user_version := fun bs => match decode (undigits bs) ≫= user_of with Some u => Ok (u_Version u) | None => Err (Error PlainError "invalid character") end;
  user_json := fun u => digits (encode (user_fields (without_namespace u)));
  user_of_json := fun bs => match decode (undigits bs) ≫= user_of with Some u => Ok u | None => Err (Error PlainError "invalid character") end
|}.
#[local] Instance user_codec_laws : UserCodecLaws.
Proof.
  split; intros u _; unfold user_version, user_of_json, user_json, user_codec;
    rewrite undigits_digits, countable.decode_encode; cbn [mbind option_bind]; by rewrite user_of_fields.
Qed.
#[local] Instance attempt_codec : Codec LoginAttempt := {|
  encode_json := fun a => digits (encode (la_Time a, la_Success a));
  decode_json := fun bs =>
    match decode (undigits bs) with Some (t, s) => Ok (MkLoginAttempt t s) | None => Err (Error PlainError "invalid character") end
|}.
#[local] Instance attempt_codec_laws : CodecLaws LoginAttempt.
Proof.
  split. intros []. unfold decode_json, encode_json, attempt_codec. by rewrite undigits_digits, countable.decode_encode.
Qed.

(** ** Six calls *)

Definition alice_user : UserV2 := match NewUser "alice" with Ok u => u | Err _ => MkUserV2 "" "" "" (MkMetadata "" "" "" ∅ None 0) [] [] [] [] ∅ (MkLoginStatus false "" 0 0 0) 0 (MkCreatedBy None 0 "") end.
Definition alice_item : Item := match user_item alice_user 0 with Ok i => i | Err _ => mkItem [] [] 0%Z 0 0 end.
Definition with_alice : Mem := after (Put 1 alice_item) fresh_memory.
Definition failing (e : error) (n : Z) (id : string) : login :=
  MkLogin (B:=Mem) (mret ()) (fun i => (10 * n + Z.of_nat (Nat.min i 9))%Z) id (mret (Err e)).
Definition call : Z → string → login := failing (Error AccessDenied "invalid credentials").
Definition down : Z → string → login := failing (Error ConnectionProblem "connection refused").
Definition six_calls : list login := [call 1 "a"; call 2 "b"; call 3 "c"; call 4 "d"; call 5 "e"; call 6 "f"].
Definition stored_alice : Item := match view with_alice !! userKey "alice" with Some i => i | None => alice_item end.
Definition read_alice : UserV2 := match unmarshal_item stored_alice with Ok u => u | Err _ => alice_user end.

Lemma no_attempts : only_failures "alice" (view with_alice).
Proof.
  assert (bool_decide (map_Forall (fun k _ => in_attempts "alice" k = false) (view with_alice)) = true) as Hno%bool_decide_eq_true
    by (vm_compute; reflexivity).
  intros k i Hk Hi. apply Hno in Hi. congruence.
Qed.
Lemma call_aside n id E : waits E "alice" (lg_wait (call n id)) ∧ fails E "alice" (lg_fn (call n id)).
Proof. split; intros b Hb; apply runs_ret; try done; [|split; [by eexists|]]; intros k _; by left. Qed.

(** The answer of a call with the right password, after the first failures. *)
Definition after_failures (calls : list login) : option (result unit) :=
  fst <$> (foldr (fun l rest => _ ← WithUserLock (lg_clock l) (lg_id l) "alice" (lg_fn l); rest)
    (WithUserLock (lg_clock (call 7 "g")) "g" "alice" (mret (Ok ()))) calls : goM Mem (result unit)) with_alice.

(** Five connection problems lock the user out as well. *)
Example outage_locks_out :
  after_failures [down 1 "a"; down 2 "b"; down 3 "c"; down 4 "d"; down 5 "e"] = Some (Err err_max_attempts).
Proof. vm_compute. reflexivity. Qed.

Lemma login_attempts_bounded_witness :
  (∃ n b', logins "alice" six_calls with_alice n b' ∧ (Z.of_nat n ≤ 5)%Z) ∧
  after_failures (take 4 six_calls) = Some (Ok ()) ∧ after_failures (take 5 six_calls) = Some (Err err_max_attempts).
Proof.
  split; [|split; vm_compute; reflexivity].
  apply (login_attempts_bounded (H4:=memory_laws) 10 "alice" six_calls read_alice with_alice).
  - apply after_put_live, fresh_live.
  - reflexivity.
  - exists stored_alice. split_and!; [vm_compute; reflexivity|vm_compute; reflexivity|left; vm_compute; reflexivity|vm_compute; reflexivity|].
    apply Forall_forall. intros x Hx. vm_compute in Hx.
    repeat (apply elem_of_cons in Hx as [->|Hx]; [reflexivity|]). by apply elem_of_nil in Hx.
  - exact no_attempts.
  - assert (∀ n id, (1 ≤ n ≤ 6)%Z → within 10 (lg_clock (call n id))) as Hw.
    { intros n id Hn i. cbn. unfold AccountLockInterval, Minute. lia. }
    repeat (constructor; [split; [apply call_aside|split; [apply Hw; lia|apply call_aside]]|]). constructor.
  - cbn. repeat (constructor; [set_solver|]). constructor.
Defined.
