(* ===== verification/LockWitnesses.v ===== *)
(** * Locks in force, at a concrete input

    Resources are a lock, or a name. The locks of a user, of a role and of a node
    are put and deleted while the watcher fetches them. *)

From S2P Require Import Prelude.
From S2P Require Import Backend.
From S2P Require Import Role.
From S2P Require Import AccessRequest.
From S2P Require Import Events.
From S2P Require Import Fanout.
From S2P Require Import FanoutSpec.
From S2P Require Import LockWatch.
Local Open Scope string_scope.

#[local] Instance watch_order : FilterOrder := {| range_filter := map_to_list |}.
#[local] Instance watch_target : TargetCodec :=
  {| Target_FromMap := fun m => Ok (MkLockTarget (default "" (m !! "user")) "" "" "" "" "" "") |}.
#[local] Instance lock_Resource : Resource (LockV2 + string) := {|
  GetKind := fun r => match r with inl _ => KindLock | inr _ => "node" end;
  GetName := fun r => match r with inl l => lock_Name l | inr name => name end;
  WithoutSecrets := fun r => None;
  type_of := fun r => match r with inl l => IsLock (lock_Target l) | inr _ => IsOther end
|}.
#[local] Instance lock_resource : LockResource (LockV2 + string) := {|
  as_lock := fun r => match r with inl l => Some l | inr _ => None end;
  of_lock := inl
|}.
#[local] Instance lock_resource_laws : LockResourceLaws (LockV2 + string).
Proof. by constructor. Qed.

Definition lock_on (name : string) (target : LockTarget) (expires : option Z) : LockV2 :=
  MkLock (MkMetadata name "" "" ∅ None 0) target "" expires.
Definition on_alice : LockV2 := lock_on "a" (user_target "alice") None.
Definition on_bob : LockV2 := lock_on "b" (user_target "bob") None.
Definition on_node : LockV2 := lock_on "n" (node_target "n1") (Some 40%Z).
(** The node's lock is put again with an end that is past when its event comes. *)
Definition changes : list change :=
  [ChPut on_bob; ChPut on_node; ChPut on_alice; ChDelete "b"; ChPut (lock_on "n" (node_target "n1") (Some 20%Z))].
Definition in_order : map_range := MkRange id (fun l => reflexivity _).
(** The watch began after the first change; the locks of the first three were
    fetched. *)
Definition events_after : list (Z * sending * Event (LockV2 + string)) :=
  map (fun '(now, e) => (now, plain_sending, e))
    [(25, MkEvent OpPut (Some (inl on_node))); (26, MkEvent OpPut (Some (inl on_alice)));
     (27, MkEvent OpDelete (Some (inl on_bob)));
     (28, MkEvent OpPut (Some (inl (lock_on "n" (node_target "n1") (Some 20%Z)))))]%Z.
Definition started : lockCollector (LockV2 + string) :=
  default new_collector (NewLockWatcher in_order).

Lemma started_working : working started.
Proof.
  split; [|vm_compute; reflexivity]. apply (fanout_run_inv [OSetInit in_order] NewFanout); [|vm_compute; reflexivity].
  apply NewFanout_inv.
Qed.

Definition checked (targets : list LockTarget) (p : lockCollector (LockV2 + string)) : result unit :=
  CheckLockInForce (fun i => (30 + Z.of_nat i `min` 5)%Z) in_order LockingModeStrict targets p.
Lemma locks_in_force_enforced_witness : ∃ p1 p2,
  getResourcesAndUpdateCurrent (Ok [on_alice; on_node; on_bob]) in_order [] started = Some (Ok (), p1) ∧
  follow events_after p1 = Some p2 ∧
  checked [user_target "bob"; node_target "n1"] p2 = Ok () ∧ checked [user_target "alice"] p2 = Err (LockInForceAccessDenied on_alice) ∧
  (∀ name l, replay changes !! name = Some l → IsInForce 35 l = true → ¬ keeps_out [user_target "bob"; node_target "n1"] l).
Proof.
  destruct (locks_in_force_enforced 22 30 35 changes 1 3 [on_alice; on_node; on_bob] events_after in_order []
    (fun i => (30 + Z.of_nat i `min` 5)%Z) in_order LockingModeStrict [user_target "bob"; node_target "n1"] started)
    as (p1 & p2 & E1 & E2 & Hok & _).
  - exact started_working.
  - lia.
  - lia.
  - unfold fetched. vm_compute. by rewrite (Permutation_swap).
  - repeat constructor; try done; eexists; repeat split; done.
  - intros i. lia.
  - exists p1, p2. split; [exact E1|]. split; [exact E2|]. vm_compute in E1. injection E1 as <-. vm_compute in E2. injection E2 as <-.
    split; [vm_compute; reflexivity|]. split; [vm_compute; reflexivity|]. apply Hok. vm_compute. reflexivity.
Defined.
