(* ===== verification/AuthWitnesses.v ===== *)
(** * Authorization, at a concrete input

    A cluster whose roles are [access] and [ops]; users of the cluster [leaf] are
    mapped to them. All keys are of hardware. *)

From Stdlib Require Import Ascii String.
From S2P Require Import Prelude.
From S2P Require Import Labels.
From S2P Require Import Parse.
From S2P Require Import Role.
From S2P Require Import Traits.
From S2P Require Import RoleSet.
From S2P Require Import RoleRules.
From S2P Require Import AccessRequest.
From S2P Require Import RequestValidator.
From S2P Require Import Events.
From S2P Require Import Fanout.
From S2P Require Import LockWatch.
From S2P Require Import Identity.
From S2P Require Import Users.
From S2P Require Import AccessInfo.
From S2P Require Import SystemRoles.
From S2P Require Import BuiltinRoles.
From S2P Require Import Authorizer.
From S2P Require Import RbacWitnesses.
From S2P Require Import RequestWitnesses.
From S2P Require Import IdentityWitnesses.
From S2P Require Import LockWitnesses.
Local Open Scope string_scope.
#[local] Existing Instances glob_regexp key_order merge_slices merge_slices_laws tiny_libs nonempty_users map_visits.
#[local] Existing Instances watch_order watch_target lock_Resource lock_resource lock_resource_laws.

(** ** Services *)

(** Expressions are trees, and their text is a number. *)
Inductive ast := Ident_ (name : string) | Lit (s : string) | Equals (a b : ast) | And_ (a b : ast) | Not_ (a : ast).
#[local] Instance ast_eq_dec : EqDecision ast.
Proof. solve_decision. Defined.
#[local] Instance ast_countable : Countable ast.
Proof.
  refine (inj_countable'
    (fix tree e := match e with
      | Ident_ n => GenLeaf (inl n) | Lit t => GenLeaf (inr t)
      | Equals a b => GenNode 0 [tree a; tree b] | And_ a b => GenNode 1 [tree a; tree b] | Not_ a => GenNode 2 [tree a] end)
    (fix untree t := match t with
      | GenLeaf (inl n) => Ident_ n | GenLeaf (inr t) => Lit t
      | GenNode 0 [a; b] => Equals (untree a) (untree b) | GenNode 1 [a; b] => And_ (untree a) (untree b) | GenNode _ (a :: _) => Not_ (untree a)
      | GenNode _ [] => Lit "" end) _).
  intros e. induction e; cbn; congruence.
Defined.
#[local] Instance tree_builder : PredicateBuilder := {|
  BExpr := ast;
  builder_Identifier := Ident_;
  builder_String := Lit;
  builder_Equals := Equals;
  builder_And := And_;
  builder_Not := Not_;
  BExpr_String := write_number
|}.
(** The host authority of the cluster [leaf] is at hand. *)
Definition value_of (e : ast) : string :=
  match e with
  | Lit s => s
  | Ident_ n => if String.eqb n "resource.metadata.name" then "leaf" else "host"
  | _ => ""
  end.
Fixpoint holds_of (e : ast) : bool :=
  match e with
  | Equals a b => String.eqb (value_of a) (value_of b)
  | And_ a b => holds_of a && holds_of b
  | Not_ a => negb (holds_of a)
  | _ => false
  end.
Definition leaf_authority : Parser unit := fun where_ =>
  match (read_number where_ : result ast) with Ok e => Ok (Some (fun w => (holds_of e, w))) | Err e => Err e end.
Lemma leaf_evaluates : evaluates (H:=tree_builder) leaf_authority "host" "leaf" value_of holds_of.
Proof.
  split; try done. intros e. unfold leaf_authority. cbn [BExpr_String tree_builder]. by rewrite read_write_number.
Qed.

Definition set_of (cluster mode : string) (roles : list SystemRole) : list Role :=
  match RoleSetForBuiltinRoles cluster mode roles with Ok set => set | Err _ => [] end.

Lemma builtin_roles_confined_witness : ∃ set,
  RoleSetForBuiltinRoles "main" "proxy" [RoleProxy; RoleNode] = Ok set ∧
  (CheckAccessToRule set (Ok leaf_authority) (Ok leaf_authority) "default" "cert_authority" "update" tt).1 = Ok () ∧
  (CheckAccessToRule set (Ok leaf_authority) (Ok leaf_authority) "default" "cert_authority" "rotate" tt).1 = Err err_rule ∧
  (CheckAccessToRule set (Ok leaf_authority) (Ok leaf_authority) "default" "cluster_name" "update" tt).1 = Err err_rule ∧
  RoleProxy ∈ [RoleProxy; RoleNode] ∧ "cert_authority" = "cert_authority" ∧ "update" ∈ ["create"; "read"; "update"] ∧
  "host" = "host" ∧ "leaf" ≠ "main".
Proof.
  assert (RoleSetForBuiltinRoles "main" "proxy" [RoleProxy; RoleNode] = Ok (set_of "main" "proxy" [RoleProxy; RoleNode])) as E
    by (vm_compute; reflexivity).
  exists (set_of "main" "proxy" [RoleProxy; RoleNode]). split; [exact E|].
  assert ((CheckAccessToRule (set_of "main" "proxy" [RoleProxy; RoleNode]) (Ok leaf_authority) (Ok leaf_authority)
    "default" "cert_authority" "update" tt).1 = Ok ()) as Hc by (vm_compute; reflexivity).
  split; [exact Hc|]. split; [vm_compute; reflexivity|]. split; [vm_compute; reflexivity|].
  destruct (builtin_roles_confined (H:=tree_builder) "main" "proxy" [RoleProxy; RoleNode] _ leaf_authority leaf_authority "host" "leaf" value_of holds_of
    "default" "cert_authority" "update" tt E) as [(role & Hr & Hp)|Hca].
  - intros [Hx|[Hx|Hx]%elem_of_cons]%elem_of_cons; [discriminate|discriminate|by apply elem_of_nil in Hx].
  - exact leaf_evaluates.
  - vm_compute. reflexivity.
  - exact Hc.
  - exfalso. apply elem_of_cons in Hr as [->|[->|Hr]%elem_of_cons]; [vm_compute in Hp; discriminate Hp..|by apply elem_of_nil in Hr].
  - exact Hca.
Defined.

(** ** Users *)

Definition plain_role (name : string) (mfa : MFAType) : Role :=
  MkRole "role" "" "v5" (MkMetadata name defaults_Namespace "" ∅ None 0)
    (with_RequireMFAType mfa (with_MaxSessionTTL 500 (options_defaults empty_options)))
    (with_Logins ["{{internal.logins}}"] empty_conditions) empty_conditions.
#[local] Instance two_roles : ValidatorGetter := {|
  RequestValidator.GetUser := fun name => Ok (MkUser name ["access"] ∅);
  GetRole := fun name =>
    if String.eqb name "access" then Ok (plain_role name RequireMFAType_OFF) else
    if String.eqb name "ops" then Ok (plain_role name RequireMFAType_HARDWARE_KEY_TOUCH) else
    Err (Error NotFound "role not found");
  GetAllRoles := Ok [];
  GetClusterName := Ok "main";
  ListResources := fun _ => Ok [];
  Quote := fun s => s
|}.
Definition stored_user (name : string) : UserV2 := match NewUser name with Ok u => u | Err _ => MkUserV2 "" "" "" (MkMetadata "" "" "" ∅ None 0) [] [] [] [] ∅
    (MkLoginStatus false "" 0 0 0) 0 (MkCreatedBy None 0 "") end%Z.
#[local] Instance main_access : AuthorizerAccessPoint := {|
  ap_GetUser := fun name => Ok (stored_user name);
  ap_GetUser_again := fun name => Ok (stored_user name);
  ap_GetCertAuthority := fun cluster =>
    if String.eqb cluster "leaf" then Ok (MkUserAuthority [] [MkRoleMapping "dev-*" ["access"]; MkRoleMapping "admin" ["ops"]])
    else Err (Error NotFound "no authority");
  ap_GetAuthPreference := Ok (MkAuthPreference "best_effort" RequireMFAType_SESSION_AND_HARDWARE_KEY);
  ap_GetSessionRecordingConfig := Ok "node"
|}.
Definition identity_of (username : string) (roles : list string) (policy : string) : Identity :=
  set_PrivateKeyPolicy policy (set_Groups roles (set_Principals [username] (MkIdentity username "" [] [] [] [] [] [] 1000 "" "" ∅
    (MkRouteToApp "" "" "" "" "") "" (MkRouteToDatabase "" "" "" "") [] [] "" "" [] [] false false 0 [] ""))).
Definition bob : Identity := identity_of "bob" ["dev-eu"; "guest"] "hardware_key".
Definition bob_context : result Context := authorizeRemoteUser 10 11 "uuid" "main" "bob" "leaf" bob.

Definition no_context : Context :=
  MkContext (stored_user "") (RoleSet.MkChecker [] "" []) (WrapIdentity bob) (WrapIdentity bob).
Definition context_of (r : result Context) : Context := match r with Ok ctx => ctx | Err _ => no_context end.
Lemma context_of_ok r : is_Ok r = true → r = Ok (context_of r).
Proof. by destruct r. Qed.

Lemma remote_user_mapped_witness : ∃ ctx, bob_context = Ok ctx ∧
  u_Roles (ctx_User ctx) = ["access"] ∧ Username (GetIdentity (ctx_Identity ctx)) = "remote-bob-leaf" ∧
  u_Traits (ctx_User ctx) !! "logins" = Some ["bob"] ∧ (Expires (GetIdentity (ctx_Identity ctx)) ≤ 511)%Z.
Proof.
  assert (bob_context = Ok (context_of bob_context)) as E by (apply context_of_ok; vm_compute; reflexivity).
  exists (context_of bob_context). split; [exact E|].
  destruct (remote_user_mapped 10 11 "uuid" "main" "bob" "leaf" bob (context_of bob_context) E) as (ca & _ & _ & _ & _ & Ht & _ & Hn & _ & _).
  split; [vm_compute; reflexivity|]. split; [exact Hn|]. split; [exact (proj1 Ht)|].
  vm_compute. discriminate.
Defined.

Definition caller (id : Identity) : option IdentityGetter := Some (LocalUser (Username id) id).
Definition authorize_local (id : Identity) (p : lockCollector (LockV2 + string)) : result Context :=
  Authorize 10 11 "uuid" "main" (fun i => 30%Z) in_order p (caller id).
Definition carol : Identity := identity_of "carol" ["ops"] "hardware_key_touch".
Definition dave : Identity := identity_of "dave" ["ops"] "hardware_key".

Lemma key_policy_enforced_witness : ∃ ctx, authorize_local carol started = Ok ctx ∧
  authorize_local dave started = Err (Error BadParameter "private key policy not met: %s") ∧
  ∃ authPref, ap_GetAuthPreference = Ok authPref ∧ meets (pref_PrivateKeyPolicy authPref) carol ∧
    ∀ role, role ∈ checker_RoleSet (ctx_Checker ctx) → meets (GetPrivateKeyPolicy role) carol.
Proof.
  assert (authorize_local carol started = Ok (context_of (authorize_local carol started))) as E by (apply context_of_ok; vm_compute; reflexivity).
  exists (context_of (authorize_local carol started)). split; [exact E|]. split; [vm_compute; reflexivity|].
  apply (key_policy_enforced 10 11 "uuid" "main" (fun i => 30%Z) in_order started (LocalUser "carol" carol) _ E). reflexivity.
Defined.

(** ** Locks *)

Definition alice_id : Identity := identity_of "alice" ["access"] "hardware_key".
Definition bob_id : Identity := identity_of "bob" ["access"] "hardware_key".
(** The user alice is locked; the lock on bob was deleted. *)
Lemma locked_callers_refused_witness : ∃ p1 p2 ctx,
  getResourcesAndUpdateCurrent (Ok [on_alice; on_node; on_bob]) in_order [] started = Some (Ok (), p1) ∧
  follow events_after p1 = Some p2 ∧
  authorize_local alice_id p2 = Err (LockInForceAccessDenied on_alice) ∧ authorize_local bob_id p2 = Ok ctx ∧
  ∀ name l, replay changes !! name = Some l → IsInForce 35 l = true → ¬ locked_out l bob_id.
Proof.
  destruct (locked_callers_refused 22 30 35 changes 1 3 [on_alice; on_node; on_bob] events_after in_order [] started)
    as (p1 & p2 & E1 & E2 & Hall).
  - exact started_working.
  - lia.
  - lia.
  - unfold fetched. vm_compute. by rewrite (Permutation_swap).
  - repeat constructor; try done; eexists; repeat split; done.
  - destruct (authorize_local bob_id p2) as [ctx|] eqn:E.
    + exists p1, p2, ctx. split; [exact E1|]. split; [exact E2|]. split.
      { vm_compute in E1. injection E1 as <-. vm_compute in E2. injection E2 as <-. vm_compute. reflexivity. }
      split; [exact E|]. intros name l Hl Hf.
      destruct (Hall 10%Z 11%Z "uuid" "main" (fun i => 30%Z) in_order (LocalUser "bob" bob_id) ctx) with (2 := E) (3 := Hl) (4 := Hf) as (Hno & _).
      { intros i. lia. }
      exact Hno.
    + exfalso. vm_compute in E1. injection E1 as <-. vm_compute in E2. injection E2 as <-. vm_compute in E. discriminate.
Defined.
