(* ===== verification/CertWitnesses.v ===== *)
(** * Witnesses of the theorems on certificates, logins and the locks of clusters

    A library whose keys are strings and whose certificates are the digits of
    their fields; a cluster with a user, a role, a node and a bot. *)

From Stdlib Require Import Ascii String.
From S2P Require Import UserLock.
From S2P Require Import Prelude.
From S2P Require Import Multiplexer.
From S2P Require Import Rotation.
From S2P Require Import Keys.
From S2P Require Import Strconv.
From S2P Require Import Backend.
From S2P Require Import Memory.
From S2P Require Import GoSlice.
From S2P Require Import Labels.
From S2P Require Import Parse.
From S2P Require Import Role.
From S2P Require Import Traits.
From S2P Require Import RoleSet.
From S2P Require Import RoleRules.
From S2P Require Import AccessRequest.
From S2P Require Import RequestValidator.
From S2P Require Import RequestChecks.
From S2P Require Import DynamicAccess.
From S2P Require Import Identity.
From S2P Require Import Users.
From S2P Require Import Impersonate.
From S2P Require Import Events.
From S2P Require Import Fanout.
From S2P Require Import FanoutSpec.
From S2P Require Import LockWatch.
From S2P Require Import LockStore.
From S2P Require Import AccessInfo.
From S2P Require Import SystemRoles.
From S2P Require Import BuiltinRoles.
From S2P Require Import Authorizer.
From S2P Require Import ServerActions.
From S2P Require Import SSHCert.
From S2P Require Import SSHLogin.
From S2P Require Import UserCerts.
From S2P Require Import Generation.
From S2P Require Import CertRequests.
From S2P Require Import RbacWitnesses.
From S2P Require Import Witnesses.
From S2P Require Import RequestWitnesses.
From S2P Require Import IdentityWitnesses.
From S2P Require Import LoginWitnesses.
From S2P Require Import LockWitnesses.
From S2P Require Import AuthWitnesses.
Import Memory.Concrete.
Local Open Scope string_scope.
#[local] Existing Instances glob_regexp key_order merge_slices tiny_libs nonempty_users map_visits true_libs twice_grow.
#[local] Existing Instances watch_order watch_target lock_Resource lock_resource user_codec user_codec_laws request_codec.

(** ** The library: keys are strings, certificates the digits of their fields *)

Definition cert_fields (c : Certificate string) : list positive :=
  [encode (KeyId c); encode (ValidPrincipals c); encode (cert_Key c); encode (ValidAfter c); encode (ValidBefore c);
   encode (match cert_Type c with UserCert => true | HostCert => false end); encode (CriticalOptions c); encode (Extensions c);
   encode (SignatureKey c)].
Definition cert_of (l : list positive) : option (Certificate string) :=
  match l with
  | [a; b; c; d; e; f; g; h; i] =>
      a ← decode a; b ← decode b; c ← decode c; d ← decode d; e ← decode e; f ← decode f; g ← decode g; h ← decode h; i ← decode i;
      Some (MkCertificate a b c d e (if (f : bool) then UserCert else HostCert) g h i)
  | _ => None
  end.
Lemma cert_of_fields c : cert_of (cert_fields c) = Some c.
Proof.
  destruct c as [a b c d e f g h i]. unfold cert_fields, cert_of. cbn -[decode encode].
  rewrite !countable.decode_encode. cbn -[decode encode]. by destruct f.
Qed.
Lemma digits_wf p : wf_bytes (digits p).
Proof. induction p; cbn; constructor; try done; lia. Qed.

#[local] Instance string_keys : SSHLib := {|
  SSHKey := string;
  Signer := string;
  SSHCert.ParseAuthorizedKey := fun bs => match bs with [] => Err (Error BadParameter "no key found") | _ => Ok (string_of_bytes bs) end;
  key_Marshal := bytes_of_string;
  signer_PublicKey := fun s => s;
  SignCert := fun s c => Ok (signed_by s c);
  MarshalAuthorizedKey := fun c => digits (encode (cert_fields c));
  ParseCertificate := fun bs =>
    match decode (undigits bs) ≫= cert_of with Some c => Ok c | None => Err (Error BadParameter "not a certificate") end
|}.
#[local] Instance string_keys_laws : SSHLibLaws.
Proof.
  split.
  - by intros s c c' [= <-].
  - intros c. cbn. rewrite undigits_digits, countable.decode_encode. cbn [mbind option_bind]. by rewrite cert_of_fields.
  - intros c. apply digits_wf.
Qed.
Definition time_ok (now : Z) (c : Certificate string) : bool :=
  (ValidAfter c <=? time_unix now)%Z && ((ValidBefore c =? CertTimeInfinity)%Z || (time_unix now <? ValidBefore c)%Z).
#[local] Instance string_checker : SSHChecker := {|
  Algorithm_of := fun _ => RSA 2048;
  cert_Algorithm := fun _ => RSA 2048;
  signature_valid := fun c => true;
  permissions_shared := true;
  ssh_Authenticate := fun isUserAuthority now conn key =>
    match key with
    | PlainKey _ => Err (Error BadParameter "not a certificate")
    | CertKey cert =>
        if match cert_Type cert with UserCert => true | HostCert => false end &&
           match SignatureKey cert with Some k => isUserAuthority k | None => false end &&
           (bool_decide (ValidPrincipals cert = []) || bool_decide (conn_User conn ∈ ValidPrincipals cert)) && time_ok now cert
        then Ok (MkPermissions (CriticalOptions cert) (Extensions cert)) else Err (Error AccessDenied "certificate is not valid")
    end;
  ssh_CheckHostKey := fun isHostAuthority fallback addr remote key =>
    match key with
    | PlainKey key => fallback addr key
    | CertKey cert => match SignatureKey cert with
                      | Some k => if isHostAuthority k addr then Ok () else Err (Error AccessDenied "unknown authority")
                      | None => Err (Error AccessDenied "not signed")
                      end
    end
|}.
#[local] Instance string_checker_laws : SSHCheckerLaws.
Proof.
  split; [|done]. intros isUserAuthority now conn cert perms. cbn. destruct (_ && _) eqn:E; [|done]. intros [= <-].
  apply andb_prop in E as [[[Ht Hs]%andb_prop Hp]%andb_prop Hn]. apply andb_prop in Hn as [Ha Hb].
  destruct cert as [? ? ? ? ? ty ? ? sk]; cbn in *. destruct ty, sk as [k|]; [|done..].
  split_and!; try done.
  - by exists k.
  - intros Hne. apply orb_prop in Hp as [?%bool_decide_eq_true|?%bool_decide_eq_true]; done.
  - by apply Z.leb_le.
  - apply orb_prop in Hb as [?%Z.eqb_eq|?%Z.ltb_lt]; [by left|by right].
Qed.
#[local] Instance number_certs : CertCodec := {|
  cert_roles_json := fun l => Ok (write_number l);
  cert_roles_of_json := read_number;
  request_ids_json := fun l => Ok (write_number l);
  request_ids_of_json := read_number;
  uuid_Parse := fun s => if String.eqb s "" then Err (Error BadParameter "empty") else Ok ()
|}.
#[local] Instance number_certs_laws : CertCodecLaws.
Proof.
  split.
  - intros l s _ [= <-]. apply read_write_number.
  - intros l s _ [= <-]. apply read_write_number.
  - by intros t s [= <-].
Qed.
#[local] Instance enterprise : Modules := {| IsEnterprise := true |}.

(** ** A node that alice logs in to *)

Definition user_authority : CertAuthority :=
  MkCA UserCA "main" (MkKeySet [MkSSH (bytes_of_string "ca") (bytes_of_string "ca") PrivateKeyType_RAW]
    [MkTLS (bytes_of_string "tls") (bytes_of_string "tls") PrivateKeyType_RAW] []) (MkKeySet [] [] []) None.
#[local] Instance main_node : SSHAccessPoint := {|
  lp_GetClusterName := fun _ => Ok "main";
  lp_GetCertAuthorities := fun _ _ => Ok [MkKnown "main" user_authority (MkUserAuthority [] [])];
  lp_GetAuthPreference := fun _ => Ok (MkAuthPreference "best_effort" RequireMFAType_OFF);
  lp_GetProxyChecksHostKeys := fun _ => Ok true;
  lp_AppendDiagnosticTrace := fun _ => Ok ()
|}.
(** A role that lets its users log in to the nodes of its environment. *)
Definition node_role : Role :=
  MkRole "role" "" "v5" (MkMetadata "access" defaults_Namespace "" ∅ None 0%Z)
    (with_MaxSessionTTL (12 * Hour) (options_defaults empty_options))
    (with_Namespaces (Some [defaults_Namespace]) (with_Logins ["alice"] (with_NodeLabels (Some {[ "env" := ["dev"] ]})
      empty_conditions))) empty_conditions.
#[local] Instance one_role : ValidatorGetter := {|
  RequestValidator.GetUser := fun name => Ok (MkUser name ["access"] ∅);
  GetRole := fun name => if String.eqb name "access" then Ok node_role else Err (Error NotFound "role not found");
  GetAllRoles := Ok [];
  GetClusterName := Ok "main";
  ListResources := fun _ => Ok [];
  Quote := fun s => s
|}.
Definition dev_node : AuthHandlers := MkHandlers "node" false dev_server.
Definition alice_params : UserCertParams :=
  MkUserCertParams _ (Some "ca" : option Signer) (bytes_of_string "alice-key") Hour "alice" "" ["alice"] false false false ["access"]
    CertificateFormatStandard "main" ∅ [] "" "" "" false [] false 0 "" "" "none".
Definition issued_at : Z := (1000 * Second)%Z.
Definition alice_cert : Certificate SSHKey :=
  match GenerateUserCertWithoutValidation issued_at issued_at alice_params with
  | Some (Ok c) => c
  | _ => MkCertificate "" [] "" 0 0 UserCert ∅ ∅ None
  end.
Definition alice_login (now : Z) (login : string) : logged Permissions :=
  UserKeyAuth dev_node now (MkConn login "10.0.0.1") (CertKey alice_cert).
Definition accepted (r : logged Permissions) : Permissions :=
  match r.2 with Some (Ok p) => p | _ => MkPermissions ∅ ∅ end.
Lemma accepted_eq r : r.1 = [] → match r.2 with Some (Ok _) => true | _ => false end = true → r = ([], done (accepted r)).
Proof. destruct r as [events [[p|e]|]]; by intros [= ->]. Qed.
Definition at_node : Z := (2000 * Second)%Z.

(** Alice logs in with her certificate while it lasts, and not as root. *)
Lemma node_login_safe_witness :
  (∃ set, FetchRoles ["access"] ∅ = Ok set ∧
    roles_allow set RequireMFAType_OFF dev_server "alice" ("" ≠ "")) ∧
  match (alice_login at_node "root").2, (alice_login (20000 * Second) "alice").2 with
  | Some (Err _), Some (Err _) => True | _, _ => False
  end.
Proof.
  split; [|vm_compute; done].
  destruct (node_login_safe dev_node at_node (MkConn "alice" "10.0.0.1") issued_at issued_at alice_params alice_cert [] []
    (accepted (alice_login at_node "alice"))) as (_ & _ & clusterName & set & Hcn & Hset & Hallow).
  - vm_compute. reflexivity.
  - reflexivity.
  - discriminate.
  - repeat constructor; vm_compute; reflexivity.
  - intros k vs Hk. cbn in Hk. by apply lookup_empty_Some in Hk.
  - constructor.
  - reflexivity.
  - by intros e He%elem_of_nil.
  - by intros e He%elem_of_nil.
  - intros cas ca k [= <-] ->%list_elem_of_singleton _ _. reflexivity.
  - discriminate.
  - discriminate.
  - apply accepted_eq; vm_compute; reflexivity.
  - exists set. split; [exact Hset|]. destruct Hallow as [[Hj _]|(_ & ap & [= <-] & Hallow)]; [discriminate|exact Hallow].
Defined.

(** ** The auth server issues alice's certificates again *)

#[local] Instance string_crypto : CryptoLib := {|
  crypto_text := {| Multiplexer.ParseIP := fun _ => None; Multiplexer.IP_String := fun ip => ip |};
  CryptoKey := string;
  crypto_key := fun k => Some k;
  ssh_ParseSigner := fun bs => Ok (string_of_bytes bs);
  TLSSigner := string;
  ParsePrivateKeyPEM := fun bs => Ok (string_of_bytes bs);
  ParsePublicKeyPEM := fun bs => Ok (string_of_bytes bs);
  X509 := string;
  ParseCertificatePEM := fun bs => Ok (string_of_bytes bs);
  x509_CreateCertificate := fun t ca key signer => Ok (bytes_of_string (CommonName (t_Subject t)));
  x509_Read := fun bs => Err (Error PlainError "not kept")
|}.
#[local] Instance any_key : Attestation := {| AttestationStatement := unit; AttestHardwareKey := fun policy _ _ _ => Ok "none" |}.
#[local] Instance main_server : CertServer := {|
  cs_GetAuthPreference := Ok (MkAuthPreference "best_effort" RequireMFAType_OFF);
  cs_GetClusterName := Ok "main";
  cs_GetRemoteCluster := fun _ => Err (Error NotFound "no remote cluster");
  cs_GetCertAuthority := fun _ => Ok user_authority;
  cs_GetKubernetesServers := Ok []
|}.
#[local] Instance no_fields : PredicateLib := {|
  field_value := unit;
  field_of_user := fun _ _ => Ok ();
  field_of_role := fun _ _ => Ok ();
  predicate_Parse := fun _ _ => Ok (Some false)
|}.
#[local] Instance no_rules : RuleLanguage := {|
  RuleCtx := unit;
  RuleLog := unit;
  rule_log := ();
  user_context := fun _ => ();
  ServerActions.NewWhereParser := fun _ => Err (Error BadParameter "no parser");
  NewActionsParser := fun _ => Err (Error BadParameter "no parser");
  NewParserForIdentifier := fun _ _ => Err (Error BadParameter "no parser")
|}.
(** Locks are the digits of their fields. *)
Definition lock_fields (l : LockV2) : list positive :=
  let t := lock_Target l in
  [encode (metadata_fields (lock_Metadata l));
   encode [lt_User t; lt_Role t; lt_Login t; lt_Node t; lt_MFADevice t; lt_WindowsDesktop t; lt_AccessRequest t];
   encode (lock_Message l); encode (lock_Expires l)].
Definition target_of (l : list string) : option LockTarget :=
  match l with [a; b; c; d; e; f; g] => Some (MkLockTarget a b c d e f g) | _ => None end.
Definition lock_of (l : list positive) : option LockV2 :=
  match l with
  | [a; b; c; d] =>
      a ← decode a; a ← metadata_of a; b ← decode b; b ← target_of b; c ← decode c; d ← decode d; Some (MkLock a b c d)
  | _ => None
  end.
Lemma lock_of_fields l : lock_of (lock_fields l) = Some l.
Proof.
  destruct l as [[] [] m e]. unfold lock_fields, lock_of. cbn -[decode encode].
  rewrite !countable.decode_encode. cbn -[decode encode]. rewrite !countable.decode_encode. done.
Qed.
#[local] Instance lock_codec : Codec LockV2 := {|
  encode_json := fun l => digits (encode (lock_fields l));
  decode_json := fun bs =>
    match decode (undigits bs) ≫= lock_of with Some l => Ok l | None => Err (Error PlainError "invalid character") end
|}.
#[local] Instance lock_codec_laws : CodecLaws LockV2.
Proof.
  split. intros l. unfold decode_json, encode_json, lock_codec. rewrite undigits_digits, countable.decode_encode. cbn [mbind option_bind].
  by rewrite lock_of_fields.
Qed.

Definition day : Z := (24 * Hour)%Z.
Definition clocks : Clocks := MkClocks (fun _ => 2000 * Second)%Z (fun _ => 2000 * Second)%Z (fun _ => 2000 * Second)%Z (fun _ => 2000 * Second)%Z (fun _ => 2000 * Second)%Z.
Definition alice_caller : Context :=
  let id := set_Expires (8000 * Second)%Z (identity_of "alice" ["access"] "none") in
  MkContext (stored_user "alice") (NewAccessCheckerWithRoleSet (MkAccessInfo ["access"] ∅ []) "main" [node_role])
    (LocalUser "alice" id) (LocalUser "alice" id).
(** She asks for a day more than her session has. *)
Definition alice_asks : UserCertsRequest :=
  MkUserCertsRequest (bytes_of_string "alice-key") "alice" (8000 * Second + day)%Z "" "" [] "" (MkRouteToDatabase "" "" "" "") Usage_All
    (MkRouteToApp "" "" "" "" "") [] false [] "".
Definition watching : lockCollector (LockV2 + string) :=
  match getResourcesAndUpdateCurrent (Ok [on_bob]) in_order [] started with Some (_, p) => p | None => started end.
Definition alice_state : AuthState Mem := MkAuthState with_alice [].
Definition none_else : nat → goM Mem unit := fun _ => mret ().
Definition reissue (lockWatcher : lockCollector (LockV2 + string)) (req : UserCertsRequest) : option (result Certs * AuthState Mem) :=
  generateUserCerts clocks none_else "uuid" "lock" in_order (Some lockWatcher) (fun c => c) alice_caller req alice_state.
Definition reissued : result Certs * AuthState Mem :=
  match reissue watching alice_asks with Some r => r | None => (Err (Error PlainError ""), alice_state) end.
Definition reissued_certs : Certs := match reissued.1 with Ok c => c | Err _ => MkCerts [] [] [] [] end.
Definition alice_locked : lockCollector (LockV2 + string) :=
  match getResourcesAndUpdateCurrent (Ok [on_alice]) in_order [] started with Some (_, p) => p | None => started end.
Lemma only_alice name item u : view with_alice !! userKey name = Some item → unmarshal_item item = Ok u → u_Name u = name.
Proof.
  assert (view with_alice = {[ userKey "alice" := stored_alice ]}) as -> by (vm_compute; reflexivity).
  intros [Hk%userKey_inj <-]%lookup_singleton_Some Hu. subst name.
  assert (match unmarshal_item stored_alice with Ok u => u_Name u | Err _ => "" end = "alice") as Hn by (vm_compute; reflexivity).
  by rewrite Hu in Hn.
Qed.

(** Alice gets certificates of hers that end with her session; not while she is
    locked, nor those of another user. *)
Lemma certificates_confined_witness :
  (∃ user req' info roles creq,
    entitled (ck_call clocks) alice_caller alice_asks (view with_alice) user req' info roles creq ∧
    issued (ck_issue clocks) "uuid" creq user (NewAccessCheckerWithRoleSet info "main" (NewRoleSet roles)) reissued_certs ∧
    (uc_Expires req' ≤ 8000 * Second)%Z) ∧
  fst <$> reissue alice_locked alice_asks = Some (Err (LockInForceAccessDenied on_alice)).
Proof.
  split; [|vm_compute; reflexivity].
  destruct (certificates_confined (BL:=memory_laws) clocks none_else "uuid" "lock" in_order (Some watching) (fun c => c) alice_caller alice_asks
    alice_state reissued_certs reissued.2) as (_ & user & item & req' & info & roles & clusterName & creq & authPref &
      _ & _ & _ & Hcn & _ & Hissued & _ & _ & _ & _ & Hent).
  - intros c. exists (cr_mfaVerified c), (cr_clientIP c). by destruct c.
  - apply after_put_live, fresh_live.
  - apply only_alice.
  - reflexivity.
  - assert (match reissue watching alice_asks with Some (Ok _, _) => true | _ => false end = true) as Hok by (vm_compute; reflexivity).
    unfold reissued_certs, reissued. unfold reissue in *. destruct (generateUserCerts _ _ _ _ _ _ _ _ _ _) as [[[c|e] s]|]; [reflexivity|discriminate..].
  - injection Hcn as <-. exists user, req', info, roles, creq. split; [exact Hent|]. split; [exact Hissued|].
    destruct Hent as [_ _ _ _ _ [He|[Hr _]]|Hu Ha|Hu]; [exact He|discriminate Hr|discriminate Ha|by contradiction Hu].
Defined.

(** ** A bot renews its certificate, and a copy of it is used *)

Definition bot_user : UserV2 := set_label BotGenerationLabel "1" (set_label BotLabel "deploy" (stored_user "bot-deploy")).
Definition bot_item : Item := match user_item bot_user 0 with Ok i => i | Err _ => mkItem [] [] 0%Z 0 0 end.
Definition with_bot : Mem := after (Put 1 bot_item) fresh_memory.
Definition stored_bot : Item := match view with_bot !! userKey "bot-deploy" with Some i => i | None => bot_item end.
Definition renewal : certRequest :=
  MkCertRequest _ _ _ None "" None Hour [] "" false [] "" "" ∅ [] (MkRouteToApp "" "" "" "" "") (MkRouteToDatabase "" "" "" "") "" "" ""
    false true false 0 "" None false.
Definition renewed : result certRequest * AuthState Mem :=
  match validateGenerationLabel (fun _ => 5%Z) none_else "l1" "bot-deploy" renewal 1 (MkAuthState with_bot []) with
  | Some r => r
  | None => (Err (Error PlainError ""), MkAuthState with_bot [])
  end.
Definition renewed_request : certRequest := match renewed.1 with Ok r => r | Err _ => renewal end.
Definition bot_after : Item := match view (as_backend renewed.2) !! userKey "bot-deploy" with Some i => i | None => bot_item end.
Definition read_bot : UserV2 := match unmarshal_item stored_bot with Ok u => u | Err _ => bot_user end.

Lemma renewed_eq : validateGenerationLabel (fun _ => 5%Z) none_else "l1" "bot-deploy" renewal 1 (MkAuthState with_bot []) =
  Some (Ok renewed_request, renewed.2).
Proof.
  assert (match validateGenerationLabel (fun _ => 5%Z) none_else "l1" "bot-deploy" renewal 1 (MkAuthState with_bot []) with
          | Some (Ok _, _) => true | _ => false end = true) as Hok by (vm_compute; reflexivity).
  unfold renewed_request, renewed. by destruct (validateGenerationLabel _ _ _ _ _ _ _) as [[[r|e] s]|].
Qed.
Lemma Ok_eq {A} (x y : A) : Ok x = Ok y → x = y.
Proof. by intros [= ->]. Qed.
Lemma with_bot_state : server_state (as_backend (MkAuthState with_bot [])).
Proof.
  split; [apply after_put_live, fresh_live|]. intros name item u.
  change (bk_view (as_backend (MkAuthState with_bot []))) with (view with_bot).
  assert (view with_bot = {[ userKey "bot-deploy" := stored_bot ]}) as -> by (vm_compute; reflexivity).
  intros [Hk%userKey_inj <-]%lookup_singleton_Some Hu. subst name.
  assert (unmarshal_item stored_bot = Ok read_bot) as E by (vm_compute; reflexivity).
  rewrite E in Hu. apply Ok_eq in Hu as <-. split; [vm_compute; reflexivity|].
  assert (Forall (fun s => utf8_string s = true) (user_strings read_bot)); [|done].
  apply Forall_forall. intros s Hs%list_elem_of_In. revert s Hs.
  assert (forallb utf8_string (user_strings read_bot) = true) as Hall by (vm_compute; reflexivity).
  exact (proj1 (forallb_forall _ _) Hall).
Qed.

(** The second renewal from the generation of the first locks the bot. *)
Lemma generation_used_once_witness :
  cr_generation renewed_request = 2%Z ∧
  ∃ s3, validateGenerationLabel (fun _ => 6%Z) none_else "l2" "bot-deploy" renewal 1 renewed.2 = Some (Err err_generation, s3) ∧
    Generation.locked_out "bot-deploy" "l2" (view (as_backend s3)) ∧ as_audit s3 = [GenerationMismatch].
Proof.
  destruct (generation_used_once (BL:=memory_laws) 10 (fun _ => 5%Z) none_else "l1" (fun _ => 6%Z) none_else "l2" "bot-deploy"
    renewal renewed_request renewal 1 (MkAuthState with_bot []) renewed.2) as (Hg & _ & Hst & _ & _ & Hagain).
  - exact with_bot_state.
  - intros n b r b' Hb [= _ <-]. exact Hb.
  - lia.
  - reflexivity.
  - exact renewed_eq.
  - split; [rewrite Hg; reflexivity|].
    destruct (Hagain renewed.2 bot_after (proj1 Hst) (fun b Hb => ex_intro _ b (conj eq_refl Hb)) eq_refl) as (s3 & Hrun & Hl & Ha).
    + vm_compute. reflexivity.
    + intros [E _]. vm_compute in E. by apply E.
    + lia.
    + reflexivity.
    + discriminate.
    + exists s3. split; [exact Hrun|]. split; [exact Hl|]. rewrite Ha.
      assert (as_audit renewed.2 = []) as -> by (vm_compute; reflexivity). reflexivity.
Defined.

(** ** Locks of a trusted cluster *)

(** A local lock whose name begins with the name of the cluster, and another. *)
Definition lock_put (l : LockV2) (m : Mem) : Mem :=
  match lock_item l with Ok i => after (Put 1 i) m | Err _ => m end.
Definition leaf_local : LockV2 := lock_on "leaf-maintenance" (user_target "carol") None.
Definition with_locks : Mem := lock_put on_bob (lock_put leaf_local fresh_memory).
Definition leaf_locks : gmap bytes Item := match remote_items "leaf" [on_alice] ∅ with Ok m => m | Err _ => ∅ end.
Definition replaced : Mem :=
  after (ReplaceRemoteLocks_fn 1 (fun _ => 2%Z) (fun _ => 3%Z) (fun m => (map_to_list m).*2) "leaf" [on_alice]) with_locks.
Lemma lock_put_live l m : Memory.live m → Memory.live (lock_put l m).
Proof. intros Hm. unfold lock_put. destruct (lock_item l); [by apply after_put_live|done]. Qed.
Lemma lives_dec (E : Z) (m : gmap bytes Item) : forallb (fun ki => (it_Expires ki.2 =? zero_time)%Z) (map_to_list m) = true → LockStore.lives E m.
Proof.
  intros Hall k i Hi [Hne _]. apply elem_of_map_to_list, list_elem_of_In in Hi.
  apply (proj1 (forallb_forall _ _) Hall) in Hi. apply Hne. by apply Z.eqb_eq.
Qed.

(** The local lock is deleted with those of the cluster. *)
Lemma ReplaceRemoteLocks_correct_witness :
  runs (ReplaceRemoteLocks_fn 1 (fun _ => 2%Z) (fun _ => 3%Z) (fun m => (map_to_list m).*2) "leaf" [on_alice]) with_locks (fun r b' =>
    r = Ok () ∧ LockStore.lives 10 (view b') ∧
    ∀ k, match leaf_locks !! k with
         | Some i => of_cluster "leaf" k = true ∧ ∃ id, view b' !! k = Some (with_ID id i)
         | None => view b' !! k = if of_cluster "leaf" k then None else view with_locks !! k
         end) ∧
  map (fun ki => string_of_bytes ki.1) (map_to_list (view with_locks)) = ["/locks/leaf-maintenance"; "/locks/b"] ∧
  map (fun ki => string_of_bytes ki.1) (map_to_list (view replaced)) = ["/locks/b"; "/locks/leaf/a"].
Proof.
  split; [|split; vm_compute; reflexivity].
  refine (ReplaceRemoteLocks_correct (BL:=memory_laws) 10 1 (fun _ => 2%Z) (fun _ => 3%Z) (fun m => (map_to_list m).*2) "leaf" [on_alice]
    leaf_locks with_locks _ _ _ _ _ _ _ _ _).
  - apply lock_put_live, lock_put_live, fresh_live.
  - lia.
  - intros n. lia.
  - intros n. lia.
  - apply lives_dec. vm_compute. reflexivity.
  - apply lives_dec. vm_compute. reflexivity.
  - done.
  - vm_compute. reflexivity.
  - change (bk_view with_locks) with (view with_locks).
    assert (size (view with_locks) = 2%nat) as -> by (vm_compute; reflexivity). unfold DefaultRangeLimit. lia.
Defined.
