(* ===== verification/JoinWitnesses.v ===== *)
(** * Witnesses of the theorems on joining the cluster

    A node joins with a stored token, and a bot joins once. *)

From Stdlib Require Import Ascii String.
From S2P Require Import UserLock.
From S2P Require Import Prelude.
From S2P Require Import Multiplexer.
From S2P Require Import Rotation.
From S2P Require Import Keys.
From S2P Require Import Strconv.
From S2P Require Import Backend.
From S2P Require Import Memory.
From S2P Require Import GoSlice.
From S2P Require Import Labels.
From S2P Require Import Parse.
From S2P Require Import Role.
From S2P Require Import Traits.
From S2P Require Import RoleSet.
From S2P Require Import RoleRules.
From S2P Require Import AccessRequest.
From S2P Require Import RequestValidator.
From S2P Require Import RequestChecks.
From S2P Require Import DynamicAccess.
From S2P Require Import Identity.
From S2P Require Import Users.
From S2P Require Import Impersonate.
From S2P Require Import Events.
From S2P Require Import Fanout.
From S2P Require Import FanoutSpec.
From S2P Require Import LockWatch.
From S2P Require Import LockStore.
From S2P Require Import AccessInfo.
From S2P Require Import SystemRoles.
From S2P Require Import BuiltinRoles.
From S2P Require Import Authorizer.
From S2P Require Import ServerActions.
From S2P Require Import SSHCert.
From S2P Require Import SSHLogin.
From S2P Require Import UserCerts.
From S2P Require Import Generation.
From S2P Require Import CertRequests.
From S2P Require Import ConnLimiter.
From S2P Require Import HostCerts.
From S2P Require Import Provision.
From S2P Require Import JoinMethods.
From S2P Require Import Join.
From S2P Require Import JoinSpec.
From S2P Require Import RbacWitnesses.
From S2P Require Import Witnesses.
From S2P Require Import RequestWitnesses.
From S2P Require Import IdentityWitnesses.
From S2P Require Import LoginWitnesses.
From S2P Require Import LockWitnesses.
From S2P Require Import AuthWitnesses.
From S2P Require Import CertWitnesses.
Import Memory.Concrete.
Local Open Scope string_scope.
#[local] Existing Instances glob_regexp key_order merge_slices tiny_libs nonempty_users map_visits true_libs twice_grow.
#[local] Existing Instances watch_order watch_target lock_Resource lock_resource user_codec user_codec_laws request_codec.
#[local] Existing Instances string_keys string_keys_laws number_certs number_certs_laws enterprise one_role no_fields no_rules lock_codec lock_codec_laws.

(** ** Certificates of X.509 are the digits of their fields *)

Definition value_pair (v : attr_value) : nat * string :=
  match v with VString s => (0%nat, s) | VPolicy s => (1%nat, s) | VOther => (2%nat, "") end.
Definition pair_value (p : nat * string) : attr_value :=
  match p with (O, s) => VString s | (S O, s) => VPolicy s | _ => VOther end.
Definition attr_pair (a : AttributeTypeAndValue) : list Z * (nat * string) := (attr_Type a, value_pair (attr_Value a)).
Definition pair_attr (p : list Z * (nat * string)) : AttributeTypeAndValue := MkAttr p.1 (pair_value p.2).
Lemma pairs_attrs l : map pair_attr (map attr_pair l) = l.
Proof. induction l as [|[ty []] l IH]; cbn; by rewrite ?IH. Qed.
Definition name_fields (n : Name) : list positive :=
  [encode (CommonName n); encode (Organization n); encode (OrganizationalUnit n); encode (Locality n); encode (StreetAddress n);
   encode (PostalCode n); encode (map attr_pair (Names n)); encode (map attr_pair (ExtraNames n))].
Definition name_of (l : list positive) : option Name :=
  match l with
  | [a; b; c; d; e; f; g; h] =>
      a ← decode a; b ← decode b; c ← decode c; d ← decode d; e ← decode e; f ← decode f; g ← decode g; h ← decode h;
      Some (MkName a b c d e f (map pair_attr g) (map pair_attr h))
  | _ => None
  end.
Lemma name_of_fields n : name_of (name_fields n) = Some n.
Proof.
  destruct n. unfold name_fields, name_of. cbn -[decode encode]. rewrite !countable.decode_encode. cbn -[decode encode]. by rewrite !pairs_attrs.
Qed.
Definition template_fields (t : TLSTemplate) : list positive :=
  [encode (name_fields (t_Subject t)); encode (t_NotBefore t); encode (t_NotAfter t); encode (t_KeyUsage t); encode (t_IsCA t);
   encode (t_DNSNames t); encode (t_IPAddresses t)].
Definition template_of (l : list positive) : option TLSTemplate :=
  match l with
  | [a; b; c; d; e; f; g] =>
      a ← decode a; a ← name_of a; b ← decode b; c ← decode c; d ← decode d; e ← decode e; f ← decode f; g ← decode g;
      Some (MkTemplate a b c d e f g)
  | _ => None
  end.
Lemma template_of_fields t : template_of (template_fields t) = Some t.
Proof.
  destruct t. unfold template_fields, template_of. cbn -[decode encode name_fields name_of]. rewrite !countable.decode_encode.
  cbn -[decode encode name_fields name_of]. by rewrite name_of_fields.
Qed.
Definition in_seconds (n : Name) (t : TLSTemplate) : TLSTemplate :=
  MkTemplate n (time_unix (t_NotBefore t) * Second)%Z (time_unix (t_NotAfter t) * Second)%Z (t_KeyUsage t) (t_IsCA t) (t_DNSNames t) (t_IPAddresses t).

#[local] Instance kept_crypto : CryptoLib := {|
  crypto_text := {| Multiplexer.ParseIP := fun _ => None; Multiplexer.IP_String := fun ip => ip |};
  CryptoKey := string;
  crypto_key := fun k => Some k;
  ssh_ParseSigner := fun bs => Ok (string_of_bytes bs);
  TLSSigner := string;
  ParsePrivateKeyPEM := fun bs => Ok (string_of_bytes bs);
  ParsePublicKeyPEM := fun bs => Ok (string_of_bytes bs);
  X509 := string;
  ParseCertificatePEM := fun bs => Ok (string_of_bytes bs);
  x509_CreateCertificate := fun t _ _ _ => n ← certified (t_Subject t); Ok (digits (encode (template_fields (in_seconds n t))));
  x509_Read := fun bs =>
    match decode (undigits bs) ≫= template_of with Some t => Ok t | None => Err (Error PlainError "not a certificate") end
|}.
#[local] Instance kept_crypto_laws : CryptoLibLaws.
Proof.
  split. intros t ca key signer pem. cbn [x509_CreateCertificate kept_crypto]. intros (n & Hn & [= <-])%result_bind_Ok. exists n. split; [done|].
  cbn [x509_Read kept_crypto]. rewrite undigits_digits, countable.decode_encode. cbn [mbind option_bind]. by rewrite template_of_fields.
Qed.
#[local] Instance kept_attestation : Attestation := {| AttestationStatement := unit; AttestHardwareKey := fun policy _ _ _ => Ok "none" |}.
#[local] Instance main_cluster : CertServer := {|
  cs_GetAuthPreference := Ok (MkAuthPreference "best_effort" RequireMFAType_OFF);
  cs_GetClusterName := Ok "main";
  cs_GetRemoteCluster := fun _ => Err (Error NotFound "no remote cluster");
  cs_GetCertAuthority := fun _ => Ok user_authority;
  cs_GetKubernetesServers := Ok []
|}.

(** ** A node gets certificates, once its lock is gone *)

Definition node_asks : HostCertsRequest :=
  MkHostCertsRequest "n1" "web" RoleNode ["10.0.0.7"] ["web.example.com"] (bytes_of_string "tls-key") (bytes_of_string "ssh-key") "" None false [].
Definition node_locked : lockCollector (LockV2 + string) :=
  match getResourcesAndUpdateCurrent (Ok [on_node]) in_order [] started with Some (_, p) => p | None => started end.
Definition host_certs (lockWatcher : lockCollector (LockV2 + string)) (l : ConnectionsLimiter) : outcome Certs * ConnectionsLimiter :=
  GenerateHostCerts (fun _ => Ok user_authority) (fun _ => Ok user_authority) (fun _ => 2000 * Second)%Z (fun _ => 20%Z) in_order (Some lockWatcher)
    node_asks l.
Definition idle : ConnectionsLimiter := NewConnectionsLimiter 1.
Definition node_certs : Certs := match (host_certs watching idle).1 with Some (Ok c) => c | _ => MkCerts [] [] [] [] end.
Definition certs_ok (r : outcome Certs) : bool := match r with Some (Ok _) => true | _ => false end.
Lemma done_eq (r : outcome Certs) : certs_ok r = true → r = done (match r with Some (Ok c) => c | _ => MkCerts [] [] [] [] end).
Proof. by destruct r as [[c|e]|]. Qed.

Lemma host_certificates_confined_witness :
  (∃ cert, ParseCertificate (certs_SSH node_certs) = Ok cert ∧ cert_Type cert = HostCert ∧ "web.main" ∈ ValidPrincipals cert ∧
     ("web.example.com" ∉ ValidPrincipals cert)) ∧
  match (host_certs node_locked idle).1, (host_certs watching (AcquireConnection "Node" idle).2).1 with
  | Some (Err e), Some (Err e') => e = LockInForceAccessDenied on_node ∧ e' = err_too_many | _, _ => False
  end.
Proof.
  split; [|vm_compute; split; reflexivity].
  destruct (host_certificates_confined (fun _ => Ok user_authority) (fun _ => Ok user_authority) (fun _ => 2000 * Second)%Z (fun _ => 20%Z) in_order
    (Some watching) node_asks idle node_certs (host_certs watching idle).2)
    as (_ & _ & _ & clusterName & principals & ca & Hcn & Hp & _ & _ & _ & _ & (cert & Hc & Ht & _ & Hv) & _).
  - change (host_certs watching idle = (done node_certs, (host_certs watching idle).2)).
    assert (certs_ok (host_certs watching idle).1 = true) as Hok%done_eq by (vm_compute; reflexivity).
    unfold node_certs. rewrite <- Hok. apply surjective_pairing.
  - injection Hcn as <-. vm_compute in Hp. injection Hp as <-. exists cert. split; [exact Hc|]. split; [exact Ht|].
    split; [|rewrite Hv]; [apply Hv; left; vm_compute; do 2 right; left|].
    assert (bool_decide ("web.example.com" ∈ BuildPrincipals (hr_HostID node_asks) (hr_NodeName node_asks) "main" [hr_Role node_asks]) = false)
      as H%bool_decide_eq_false by (vm_compute; reflexivity).
    intros [Hb|Hb]; [by apply H|]. by apply list_elem_of_singleton in Hb.
Defined.

(** ** Tokens are the digits of their fields *)

Definition rule_fields (r : TokenRule) : list positive := [encode (AWSAccount r); encode (AWSRegions r); encode (AWSRole r); encode (AWSARN r)].
Definition rule_of (l : list positive) : option TokenRule :=
  match l with [a; b; c; d] => a ← decode a; b ← decode b; c ← decode c; d ← decode d; Some (MkTokenRule a b c d) | _ => None end.
Lemma rule_of_fields r : rule_of (rule_fields r) = Some r.
Proof. destruct r. unfold rule_fields, rule_of. cbn -[decode encode]. by rewrite !countable.decode_encode. Qed.
Lemma rules_of_fields l : mapM rule_of (map rule_fields l) = Some l.
Proof. induction l as [|r l IH]; [done|]. cbn -[rule_of rule_fields]. rewrite rule_of_fields. cbn [mbind option_bind]. by rewrite IH. Qed.
Definition claims_of_rule (r : GitHubRule) : list string :=
  [gh_Sub r; gh_Repository r; gh_RepositoryOwner r; gh_Workflow r; gh_Environment r; gh_Actor r; gh_Ref r; gh_RefType r].
Definition rule_of_claims (l : list string) : GitHubRule :=
  match l with [a; b; c; d; e; f; g; h] => MkGitHubRule a b c d e f g h | _ => MkGitHubRule "" "" "" "" "" "" "" "" end.
Lemma claims_rules l : map rule_of_claims (map claims_of_rule l) = l.
Proof. induction l as [|[] l IH]; cbn; by rewrite ?IH. Qed.
Definition token_fields_of (p : ProvisionTokenV2) : list positive :=
  [encode (metadata_fields (pt_Metadata p)); encode (pt_Roles p); encode (map rule_fields (pt_Allow p)); encode (AWSIIDTTL p);
   encode (JoinMethod p); encode (BotName p); encode (SuggestedLabels p); encode (map claims_of_rule <$> GitHub p)].
Definition token_of (l : list positive) : option ProvisionTokenV2 :=
  match l with
  | [a; b; c; d; e; f; g; h] =>
      a ← decode a; a ← metadata_of a; b ← decode b; c ← decode c; c ← mapM rule_of c; d ← decode d; e ← decode e; f ← decode f;
      g ← decode g; h ← decode h; Some (MkProvisionToken a b c d e f g (map rule_of_claims <$> (h : option (list (list string)))))
  | _ => None
  end.
Lemma metadata_back m : metadata_of (metadata_fields m) = Some m.
Proof. destruct m. unfold metadata_fields, metadata_of. cbn -[decode encode]. by rewrite !countable.decode_encode. Qed.
Lemma token_of_fields p : token_of (token_fields_of p) = Some p.
Proof.
  destruct p as [m roles allow ttl method bot labels github]. unfold token_fields_of, token_of.
  cbn -[decode encode metadata_fields metadata_of rule_fields rule_of]. rewrite !countable.decode_encode.
  cbn -[decode encode metadata_fields metadata_of rule_fields rule_of]. rewrite metadata_back.
  cbn -[decode encode metadata_fields metadata_of rule_fields rule_of]. rewrite rules_of_fields. cbn [mbind option_bind].
  destruct github as [g|]; [|done]. cbn [fmap option_fmap option_map]. by rewrite claims_rules.
Qed.
Definition invalid_character : error := Error PlainError "invalid character".
#[local] Instance token_codec : TokenCodec := {|
  token_json := fun p => 0%Z :: digits (encode (token_fields_of p));
  token_version := fun _ => Ok "v2";
  token_of_json := fun bs => match decode (undigits (tail bs)) ≫= token_of with Some p => Ok p | None => Err invalid_character end;
  token_v1_of_json := fun _ => Err invalid_character
|}.
#[local] Instance token_codec_laws : TokenCodecLaws.
Proof.
  split; [done| |done]. intros p. cbn -[token_of token_fields_of decode encode digits undigits]. rewrite undigits_digits, countable.decode_encode.
  cbn [mbind option_bind]. by rewrite token_of_fields.
Qed.
Definition v1_fields (p : ProvisionTokenV1) : SystemRoles.SystemRoles * Z * string := (tv1_Roles p, tv1_Expires p, tv1_Token p).
#[local] Instance static_codec : Codec StaticTokensV2 := {|
  encode_json := fun c => 0%Z :: digits (encode (encode (metadata_fields (st_Metadata c)), map v1_fields (st_StaticTokens c)));
  decode_json := fun bs =>
    match decode (undigits (tail bs)) with
    | Some (m, l) =>
        match decode m ≫= metadata_of with
        | Some m => Ok (MkStaticTokens m (map (fun t : SystemRoles.SystemRoles * Z * string => MkTokenV1 t.1.1 t.1.2 t.2) l))
        | None => Err invalid_character
        end
    | None => Err invalid_character
    end
|}.
#[local] Instance user_token_codec : Codec UserTokenV3 := {| encode_json := fun _ => []; decode_json := fun _ => Err invalid_character |}.
#[local] Instance no_ec2 : EC2Lib := {|
  P7 := unit; pem_BER := fun _ => None; pkcs7_Parse := fun _ => Err invalid_character; iid_of_json := fun _ => Err invalid_character;
  p7_Verify := fun _ _ => false; DescribeInstances := fun _ _ _ => Ok []
|}.
#[local] Instance no_members : PresenceReads := {|
  GetNamespaces := Ok ["default"]; GetNode := fun _ _ => Err (Error NotFound "no node"); GetProxies := Ok []; GetKubernetesServers_HostIDs := Ok [];
  GetApplicationServers := fun _ => Ok []; GetDatabaseServers := fun _ => Ok []; GetWindowsDesktopServices := Ok []
|}.
#[local] Instance octo_claims : GitHubActions := {|
  gha_Validate := fun idToken => Ok (MkClaims "" (if String.eqb idToken "octo" then "octo/app" else "evil/app") "" "" "" "" "" "")
|}.
#[local] Instance no_sts : STSLib := {|
  ReadRequest := fun _ => Err invalid_character; Do := fun _ => Err (Error ConnectionProblem "no route"); identity_of_json := fun _ => Err invalid_character
|}.

(** ** A store with a token of GitHub Actions, one of a bot, and no static tokens *)

Definition rule_of_octo : GitHubRule := MkGitHubRule "" "octo/app" "" "" "" "" "" "".
Definition node_token : ProvisionTokenV2 :=
  MkProvisionToken (MkMetadata "ci" "" "" ∅ (Some (3000 * Second)%Z) 0) [RoleNode] [] 0 JoinMethodGitHub "" ∅ (Some [rule_of_octo]).
Definition bot_token : ProvisionTokenV2 :=
  MkProvisionToken (MkMetadata "robot" "" "" ∅ None 0) [RoleBot] [] 0 "" "deploy" ∅ None.
Definition at_start : nat → Z := fun _ => (1000 * Second)%Z.
Definition in_time : nat → Z := fun _ => (2000 * Second)%Z.
Definition static_tokens : StaticTokensV2 := MkStaticTokens (MkMetadata "" "" "" ∅ None 0) [].
Definition new_bot : UserV2 := set_label BotLabel "deploy" (stored_user "bot-deploy").
Definition new_bot_item : Item := match user_item new_bot 0 with Ok i => i | Err _ => mkItem [] [] 0%Z 0 0 end.
Definition with_new_bot : Mem := after (Put 1 new_bot_item) fresh_memory.
Definition static_store : Mem := after (SetStaticTokens 1 static_tokens) with_new_bot.
Definition token_store : Mem := after (UpsertToken at_start bot_token) (after (UpsertToken at_start node_token) static_store).
Definition join_state : JoinState Mem := MkJoinState (MkAuthState token_store []) idle.
Definition server : JoinServer (R:=LockV2 + string) := MkJoinServer (fun _ => Ok user_authority) (fun _ => Ok user_authority) in_order (Some watching).
Definition join_clocks : JoinClocks :=
  MkJoinClocks (2000 * Second)%Z in_time in_time (2000 * Second)%Z clocks in_time in_time in_time.
Definition node_joins (idToken : string) : RegisterUsingTokenRequest :=
  MkRegisterRequest "n1" "web" RoleNode "ci" ["10.0.0.7"] [] (bytes_of_string "tls-key") (bytes_of_string "ssh-key") "" [] None idToken.
Definition joined (req : RegisterUsingTokenRequest) : option (result Certs * JoinState Mem) :=
  RegisterUsingToken server join_clocks none_else "uuid" "lock" req join_state.
Definition answered (r : option (result Certs * JoinState Mem)) : bool := match r with Some (Ok _, _) => true | _ => false end.
Definition answer_certs (r : option (result Certs * JoinState Mem)) : Certs := match r with Some (Ok c, _) => c | _ => MkCerts [] [] [] [] end.
Definition answer_state (r : option (result Certs * JoinState Mem)) : JoinState Mem := match r with Some (_, s) => s | None => join_state end.
Lemma answered_eq r : answered r = true → r = Some (Ok (answer_certs r), answer_state r).
Proof. by destruct r as [[[c|e] s]|]. Qed.

Lemma runs_inv {A} (c : goM Mem A) m : (∃ r m', c m = Some (r, m') ∧ Memory.live m') → Memory.live (after c m).
Proof. intros (r & m' & E & Hm). unfold after. by rewrite E. Qed.
Lemma token_put_live p m : Memory.live m → Memory.live (after (UpsertToken at_start p) m).
Proof.
  intros Hm. unfold UpsertToken. destruct (tokenToItem (at_start 0%nat) p) as [item|]; [|exact Hm].
  apply runs_inv. destruct (bk_Put_law (BackendLaws:=memory_laws) (at_start 1%nat) item m Hm) as (r & m' & Hr & Hm' & _).
  exists (answer r), m'. split; [|exact Hm']. by rewrite goM_bind_unfold, Hr.
Qed.
Lemma static_store_live : Memory.live static_store.
Proof.
  unfold static_store, SetStaticTokens. destruct (MarshalStaticTokens static_tokens) as [[value c]|]; [|apply after_put_live, fresh_live].
  apply runs_inv. destruct (bk_Put_law (BackendLaws:=memory_laws) 1%Z
    (mkItem staticTokensKey value (default zero_time (md_Expires (st_Metadata c))) (md_ID (st_Metadata c)) 0) with_new_bot) as (r & m' & Hr & Hm' & _);
    [apply after_put_live, fresh_live|].
  exists (answer r), m'. split; [|exact Hm']. by rewrite goM_bind_unfold, Hr.
Qed.
Lemma token_store_live : Memory.live token_store.
Proof. apply token_put_live, token_put_live, static_store_live. Qed.

Definition stored_static : Item := match view token_store !! staticTokensKey with Some i => i | None => bot_item end.
Definition read_static : StaticTokensV2 :=
  match UnmarshalStaticTokens (it_Value stored_static) (it_ID stored_static) zero_time with Ok c => c | Err _ => static_tokens end.
Lemma Some_eq {A} (x y : A) : Some x = Some y → x = y.
Proof. by intros [= ->]. Qed.
Lemma static_stored : view token_store !! staticTokensKey = Some stored_static.
Proof. vm_compute. reflexivity. Qed.
Lemma static_kept : it_Expires stored_static = zero_time.
Proof. vm_compute. reflexivity. Qed.
Lemma static_read : UnmarshalStaticTokens (it_Value stored_static) (it_ID stored_static) zero_time = Ok read_static.
Proof. vm_compute. reflexivity. Qed.
Lemma no_static token p : ¬ static_token (B:=Mem) token p token_store.
Proof.
  intros (item & c & Hi & Hu & Hn). change (bk_view token_store) with (view token_store) in Hi. rewrite static_stored in Hi. apply Some_eq in Hi as <-.
  rewrite static_kept, static_read in Hu. apply Ok_eq in Hu as <-.
  assert (GetStaticTokens_tokens read_static = []) as E by (vm_compute; reflexivity). unfold static_named in Hn. rewrite E in Hn. discriminate Hn.
Qed.
Definition stored_ci : Item := match view token_store !! tokenKey "ci" with Some i => i | None => bot_item end.
Definition read_ci : ProvisionTokenV2 := match unmarshal_token_item stored_ci with Ok p => p | Err _ => node_token end.
Lemma ci_stored p : stored_token (B:=Mem) "ci" p token_store → p = read_ci.
Proof.
  assert (view token_store !! tokenKey "ci" = Some stored_ci) as E by (vm_compute; reflexivity).
  assert (unmarshal_token_item stored_ci = Ok read_ci) as Eu by (vm_compute; reflexivity).
  intros (item & Hi & Hu). change (bk_view token_store) with (view token_store) in Hi. rewrite E in Hi. apply Some_eq in Hi as <-.
  rewrite Eu in Hu. by apply Ok_eq in Hu.
Qed.

(** The run of the right repository joins; that of another does not, and no one joins
    as a proxy. *)
Lemma join_authorized_witness :
  (∃ p, stored_token (B:=Mem) "ci" p token_store ∧ RoleNode ∈ pt_Roles p ∧ JoinMethod p = JoinMethodGitHub) ∧
  answered (joined (node_joins "other")) = false ∧
  answered (joined (MkRegisterRequest "n1" "web" RoleProxy "ci" [] [] (bytes_of_string "tls-key") (bytes_of_string "ssh-key") "" [] None "octo")) = false.
Proof.
  split; [|split; vm_compute; reflexivity].
  destruct (join_authorized (BL:=memory_laws) server join_clocks none_else "uuid" "lock" (node_joins "octo") join_state
    (answer_certs (joined (node_joins "octo"))) (answer_state (joined (node_joins "octo")))) as (p & Hp & Hm & Hr & _).
  - exact token_store_live.
  - intros n b r b' Hb [= _ <-]. by split.
  - apply answered_eq. vm_compute. reflexivity.
  - destruct Hp as [Hs%no_static|(Hs & _)]; [contradiction|]. exists p. split; [exact Hs|]. split; [exact Hr|].
    rewrite (ci_stored p Hs). vm_compute. reflexivity.
Defined.

(** ** A bot joins, and another token does not let it join again *)

Definition bot_joins : RegisterUsingTokenRequest := MkRegisterRequest "" "" RoleBot "robot" [] [] [] (bytes_of_string "bot-key") "" [] None "".
Definition read_robot : ProvisionTokenV2 := match ProvisionToken_CheckAndSetDefaults bot_token with Ok p => p | Err _ => bot_token end.
Definition bot_run (other : nat → goM Mem unit) (s : JoinState Mem) : option (result Certs * JoinState Mem) :=
  generateCerts server join_clocks other "uuid" "lock" read_robot bot_joins s.
Definition after_bot : JoinState Mem := answer_state (bot_run none_else join_state).
Definition joined_item : Item := match view (as_backend (js_auth after_bot)) !! userKey "bot-deploy" with Some i => i | None => bot_item end.
Definition read_new_bot : UserV2 :=
  match unmarshal_item (match view token_store !! userKey "bot-deploy" with Some i => i | None => bot_item end) with Ok u => u | Err _ => new_bot end.
Definition stored_new_bot : Item := match view token_store !! userKey "bot-deploy" with Some i => i | None => bot_item end.
Lemma new_bot_stored : view token_store !! userKey "bot-deploy" = Some stored_new_bot.
Proof. vm_compute. reflexivity. Qed.
Lemma new_bot_read : unmarshal_item stored_new_bot = Ok read_new_bot.
Proof. vm_compute. reflexivity. Qed.
Lemma stored_keys k i : view token_store !! k = Some i → k ∈ [userKey "bot-deploy"; staticTokensKey; tokenKey "ci"; tokenKey "robot"].
Proof.
  assert (forallb (fun ki => bool_decide (ki.1 ∈ [userKey "bot-deploy"; staticTokensKey; tokenKey "ci"; tokenKey "robot"]))
    (map_to_list (view token_store)) = true) as Hall by (vm_compute; reflexivity).
  intros Hi%elem_of_map_to_list%list_elem_of_In. apply (proj1 (forallb_forall _ _) Hall) in Hi. by apply bool_decide_eq_true in Hi.
Qed.
Lemma token_store_state : server_state (B:=Mem) token_store.
Proof.
  split; [exact token_store_live|]. intros name item u Hi Hu. change (bk_view token_store) with (view token_store) in Hi.
  assert (name = "bot-deploy") as ->.
  { apply stored_keys in Hi. rewrite !elem_of_cons, userKey_eq in Hi. destruct Hi as [E|[E|[E|[E|E]]]]; try discriminate E.
    - apply userKey_inj. by rewrite userKey_eq.
    - by apply elem_of_nil in E. }
  rewrite new_bot_stored in Hi. apply Some_eq in Hi as <-. rewrite new_bot_read in Hu. apply Ok_eq in Hu as <-.
  split; [vm_compute; reflexivity|]. assert (Forall (fun s => utf8_string s = true) (user_strings read_new_bot)); [|done].
  apply Forall_forall. intros s Hs%list_elem_of_In. revert s Hs.
  assert (forallb utf8_string (user_strings read_new_bot) = true) as Hall by (vm_compute; reflexivity).
  exact (proj1 (forallb_forall _ _) Hall).
Qed.

Lemma none_decent : decent (B:=Mem) none_else.
Proof. intros n b r b' Hb [= _ <-]. exact Hb. Qed.
Lemma robot_method : JoinMethod read_robot = JoinMethodToken.
Proof. vm_compute. reflexivity. Qed.
Lemma bot_answered : generateCerts server join_clocks none_else "uuid" "lock" read_robot bot_joins join_state =
  Some (Ok (answer_certs (bot_run none_else join_state)), after_bot).
Proof.
  assert (answered (bot_run none_else join_state) = true) as Hok by (vm_compute; reflexivity). exact (answered_eq (bot_run none_else join_state) Hok).
Qed.
Lemma bot_joins_once_witness :
  (∀ certs s3, bot_run none_else after_bot ≠ Some (Ok certs, s3)) ∧
  answered (bot_run none_else join_state) = true ∧ fst <$> bot_run none_else after_bot = Some (Err err_reissued).
Proof.
  split; [|split; vm_compute; reflexivity]. intros certs s3. unfold bot_run.
  refine (bot_joins_once (BL:=memory_laws) (3000 * Second) server server join_clocks join_clocks none_else none_else "uuid" "uuid" "lock" "lock"
    read_robot read_robot bot_joins bot_joins join_state after_bot after_bot s3 (answer_certs (bot_run none_else join_state)) certs
    token_store_state none_decent eq_refl robot_method bot_answered eq_refl robot_method eq_refl _ _ _ _).
  - exact (proj1 (bot_joined (BL:=memory_laws) server join_clocks none_else "uuid" "lock" read_robot bot_joins join_state after_bot _
      token_store_state none_decent eq_refl robot_method bot_answered)).
  - exists joined_item. split; [vm_compute; reflexivity|]. split; [vm_compute; reflexivity|]. intros [E _]. vm_compute in E. by apply E.
  - vm_compute. discriminate.
  - vm_compute. discriminate.
Defined.

(** ** A token for a while *)

Definition read_node_token : ProvisionTokenV2 := match ProvisionToken_CheckAndSetDefaults node_token with Ok p => p | Err _ => node_token end.
Definition soon_over : nat → Z := fun _ => (2900 * Second)%Z.
Definition over : nat → Z := fun _ => (3001 * Second)%Z.
Definition kept_static : Item := match view static_store !! staticTokensKey with Some i => i | None => bot_item end.
Lemma token_lifetime_witness :
  runs (B:=Mem) (UpsertToken at_start node_token) static_store (fun r b1 => r = Ok () ∧
    runs (ValidateToken soon_over "ci") b1 (fun r _ => ∃ id, r = Ok (pt_SetResourceID id read_node_token)) ∧
    runs (ValidateToken over "ci") b1 (fun r _ => r = Err err_expired)).
Proof.
  assert (with_lifetime (at_start 0%nat) read_node_token = read_node_token) as Ek by (vm_compute; reflexivity).
  assert (∀ clock', (∀ n, (n < 3)%nat → clock' n < 3000 * Second)%Z ∨ (3000 * Second < clock' 2%nat)%Z →
    runs (B:=Mem) (UpsertToken at_start node_token) static_store (fun r b1 => r = Ok () ∧ ∃ id,
    ((∀ n, (n < 3)%nat → clock' n < 3000 * Second)%Z → runs (ValidateToken clock' "ci") b1 (fun r _ => r = Ok (pt_SetResourceID id read_node_token))) ∧
    ((3000 * Second < clock' 2%nat)%Z → runs (ValidateToken clock' "ci") b1 (fun r _ => r = Err err_expired)))) as Hboth.
  { intros clock' _.
    destruct (token_lifetime (BL:=memory_laws) at_start clock' node_token read_node_token kept_static read_static static_store) as [_ Hrun].
    - exact static_store_live.
    - vm_compute. reflexivity.
    - vm_compute. reflexivity.
    - vm_compute. reflexivity.
    - vm_compute. reflexivity.
    - vm_compute. reflexivity.
    - rewrite Ek in Hrun. exact Hrun. }
  destruct (Hboth soon_over) as (r & b1 & Hr & Hb1 & -> & id & Hlive & _); [left; intros; vm_compute; reflexivity|].
  destruct (Hboth over) as (r' & b1' & Hr' & _ & _ & id' & _ & Hover); [right; vm_compute; reflexivity|].
  rewrite Hr in Hr'. injection Hr' as <- <-. exists (Ok ()), b1. split; [exact Hr|]. split; [exact Hb1|]. split; [reflexivity|]. split.
  - destruct Hlive as (rv & b2 & Hv & Hb2 & ->); [intros; vm_compute; reflexivity|].
    exists (Ok (pt_SetResourceID id read_node_token)), b2. split; [exact Hv|]. split; [exact Hb2|]. by exists id.
  - apply Hover. vm_compute. reflexivity.
Defined.
